(* ===== verification/_CoqProject ===== *)
-Q . S2P
Prelude.v
Search.v
Errors.v
Io.v
Crc.v
Encode.v
Ids.v
Header.v
Page.v
FreeBits.v
BTree.v
Block.v
Lookup.v
DataTree.v
SubNode.v
Amap.v
PstFile.v
Transactions.v
Order.v
Packing.v
Split.v
Alloc.v
WriterBlocks.v
WriterTree.v
WriterDisk.v
WriterCheckpoint.v
WriterBTree.v
WriterFile.v
Heap.v
HeapTree.v
PropValue.v
PropContext.v
TableContext.v
WriterHeap.v
WriterBth.v
WriterValues.v
WriterContext.v
WriterSchema.v
WriterTable.v
TableReadback.v
NamedProps.v
MessageSpec.v
WriterNamed.v
WriterMessage.v
WriterValidate.v
WriterBuild.v
WriterProject.v
