(* ===== verification/Prelude.v ===== *)
(** * PSTForge: the store format, its reader and its writer

    PSTForge ([src/crates]) recovers mail from damaged PST stores and writes
    it out again as new stores of bounded size. This development models and
    verifies the code that decides what is in a store: the crate
    [pstforge-pst], which reads both formats of a store and writes new
    Unicode stores, and the planning of output parts in [pstforge-core].

    ** How the program works, and where its parts are modelled

    A store is a file with three layers. The node database (NDB) keeps
    blocks under block ids and nodes under node ids in two B-trees of
    512-byte pages, with allocation maps that say which 64-byte slots are in
    use. On it the LTP layer keeps heaps, B-trees on heaps, property contexts
    and tables, and on that the messaging layer its folders and messages.

    - Elementary codecs. Crc: [crc.rs]. Encode: [encode/*.rs]. Ids:
      [block_sig.rs], [ndb/node_id.rs], [ndb/block_id.rs],
      [ndb/byte_index.rs], [ndb/block_ref.rs]. Header: [ndb/root.rs],
      [ndb/header.rs]. Page: map pages, page trailers and the density list of
      [ndb/page.rs]. FreeBits: [AllocationMapPage::find_free_bits].
    - Trees. BTree: the pages of the two B-trees and [RootBTreePage] with its
      page cache ([ndb/page.rs], [ndb/read_write.rs]). Block: data blocks and
      the blocks of data trees and sub-node trees ([ndb/block.rs],
      [ndb/read_write.rs]). Lookup: the interface through which traversals
      look blocks up, implemented by [RootBTreePage::find_entry]. DataTree and
      SubNode: the traversals of [ndb/block.rs]. Search: the order of search
      trees on disk that the three kinds of tree share.
    - The file ([lib.rs]). Amap: offsets of the map pages and the marking of
      extents. PstFile: [PstFileInner], opened for reading or writing, with
      [read_node], [read_block], [start_write], [finish_write] and
      [rebuild_allocation_map]. Transactions: what these leave on disk.
    - Heaps and properties ([ltp/]). Heap: [ltp/heap.rs]. HeapTree:
      [ltp/tree.rs]. PropValue: [ltp/prop_type.rs] and the values of
      [ltp/prop_context.rs]. PropContext: its records and contexts.
      TableContext: the columns, rows and tables of [ltp/table_context.rs].
    - The writer ([writer.rs]). Alloc: where extents and pages go.
      WriterBlocks: block specifications, [write_blocks], [BlockStream].
      WriterTree: data trees and sub-node trees. WriterDisk: what the stream
      of blocks leaves in the file. WriterCheckpoint: undoing a message.
      WriterBTree: [write_bbt] and [write_nbt]. WriterFile: the sequence that
      completes a file, from the last blocks to the header. WriterHeap: the
      pages of a heap. WriterBth: B-trees on heaps. WriterValues: the values
      of properties, their validation and their bytes. WriterContext: property
      contexts, in one page or over several, and the values moved to
      sub-nodes. WriterSchema: the columns of the tables of a store.
      WriterTable: the rows of a table and the table, in one page or over
      several blocks. TableReadback: what the reader makes of these tables.
    - Named properties. NamedProps: the entries of the map and the queries of
      [messaging/named_prop.rs]. MessageSpec: the messages [writer.rs] is
      given, and the named properties in them. WriterNamed: the ids these
      get, the streams and buckets of the map of a store, and its node.
    - Messages ([writer.rs]). WriterMessage: the properties of a message and
      its attachments, their sizes and the rows of messages. WriterValidate:
      [validate_message] and [validate_aggregate_properties]. WriterBuild:
      [build_message_blocks] and [MessageStreamState::append_message], which
      turn a message into nodes and blocks. WriterProject: what appending a
      message leaves when only its sizes are gone through.
    - Planning ([pstforge-core]). Order: comparisons of derived [Ord].
      Packing: [packing.rs]. Split: the estimate, the calibration and the
      searches for a fitting prefix of [split.rs].
    - Shared. This file: outcomes, machine integers, bytes and slices. Errors:
      the error types. Io: byte readers, byte writers and files.

    ** How Rust is represented

    A call returns [Ok], [Err] or [Panic] (type [res]); [?] is [rbind]. A
    machine integer is a [Z] and [uint w] its range; arithmetic that wraps in
    a release build is written with [wrap], checked arithmetic with
    [checked_add] and the like. Bytes are [Z]s below 256. A [Read] is a
    function from the bytes ahead to a value and the bytes that are left; a
    file that is written is its contents and a position. Traits are classes:
    [Serial] with the laws [RoundTrip] and [Canonical] for the codecs,
    [BlockId], [ByteIndex], [BlockBTreeEntry] and the like for the two
    formats, [BlockFind] with [BlockFindLaws] between the traversals and the
    block B-tree, [CmpLaws] for orders. Mutable state is passed along, by the
    monad [M] of file Lookup in the readers, and by the monad [W] of file
    WriterBlocks, which keeps the state of a failed call, in the writer.

    ** What the theorems show

    - End to end: a payload streamed into a store that is then completed is
      found from the header of the file, through its block B-tree and its
      data tree, and delivered byte for byte
      ([WriterFile.completed_file_delivers]).
    - The writer: extents are first fit and disjoint, the trees hold the
      bytes they were given, the projection of a message is what writing it
      does, rollback restores the state, the B-trees hold all entries under
      ids used once, completing the file succeeds and its header and maps
      agree with its contents.
    - The readers: a search of a B-tree finds exactly the entries of the
      tree; traversals deliver all of the data and end within their budgets;
      wrong sizes are reported; the CRC detects bursts of errors.
    - The file: a rebuilt allocation map marks exactly the extents in use,
      and the two transactions leave a consistent header.
    - Heaps: the page map is exactly the runs between its offsets, and a
      lookup returns the allocation that was laid out. Properties: values
      round trip and have the type they are read for; a context maps exactly
      the records of its tree, and a property is decoded from exactly the
      bytes stored for it, in the heap or in a sub-node, within a budget
      that is charged with its bytes and then with its decoded size.
    - Contexts that are written: heap pages are built from any allocations
      that were placed and every one is found at its id; a validated value
      is decoded from the bytes it is stored in; the reader finds in a
      context the writer built exactly the properties it was built from
      ([WriterContext.build_property_context_reads_back]).
    - Tables: the columns of a schema are laid out without overlaps and
      accepted by the reader; a row is found by its id exactly when the index
      leads to it; a table the writer built is read back with its columns,
      rows and values ([TableReadback.build_table_context_reads_back]); a
      table with too many values is refused, and the column of an empty value
      cannot be read, which are findings.
    - Named properties: the reader finds every identity in the map the writer
      built ([WriterNamed.named_property_map_reads_back]); ids are never
      changed or reused; the bucket computed from a string name misses its
      entry, which is a finding.
    - Messages: what is validated has its properties made, fit for a context
      and with distinct ids, but for one case, a finding; projecting a
      message leaves the state that writing it leaves
      ([WriterProject.append_message_projection]).
    - Planning: no candidate is lost, split or reordered, and the searches
      that probe few prefixes return what trying all of them returns.

    ** Fuel and bounds

    Recursion that is not structural takes fuel, and running out is [Panic]
    or [None], which the theorems exclude. [find_entry] of a B-tree takes its
    depth, [TREE_LEVELS] = 9 levels being more than 2^26 entries need;
    [MARK_FUEL] = 9 likewise; [ALLOCATE_FUEL] = 2 because an extent that fits
    in a region is placed in the first or the second region tried;
    [LEVEL_FUEL] = 64 rounds halve any number of pages to one; a bisection
    takes the length of its list; [PADDING_FUEL] = 4 because a page is less
    than three of its largest paddings; the levels of a context take the
    number of its roots; [tree_fuel] is a round per chunk of the
    payload; [rows] a round per byte. The theorems on completed files assume
    fewer than 2^40 blocks, 2^26 entries per tree and file ends below 2^46,
    all far above what the 50 GB limit of a part allows.

    ** Assumptions

    Writes to the device succeed and one thread writes the file: the errors
    of the operating system are not modelled, and neither is the file after a
    failed completion, since the temporary file is then discarded. The flag
    that interrupts a run is the list of the values its loads observe.
    SHA-256, the size estimator of a packing run, the source of direct
    payloads and the address of a buffer in memory are parameters. Integer
    overflow wraps, as in the release profile.

    ** Not modelled

    The messaging layer but for the named property map, and the plan of the
    folders of a store in [writer.rs] with the nodes every store has; the
    contexts and tables they consist of are modelled. Publication (rename, synchronisation, file
    locks, validation by external tools), the supervision of worker processes
    ([pstforge-core/worker.rs], [pstforge-job]), the command line, the
    bindings to libpff and the release tooling ([xtask]) act on processes,
    paths and foreign code, which a pure model has nothing to say about. *)
From stdpp Require Export base list gmap.
From Stdlib Require Export ZArith Lia Bool.

#[global] Open Scope Z_scope.
#[global] Set Default Proof Using "Type".

(** ** Outcomes

    A Rust call returns [Ok], returns [Err], or panics (an index out of
    range, a failed [assert!]); [?] propagates an error, nothing catches a
    panic. *)

Inductive res (E A : Type) : Type :=
| Ok (a : A)
| Err (e : E)
| Panic.
Arguments Ok {E A} a.
Arguments Err {E A} e.
Arguments Panic {E A}.

Declare Scope pst_scope.
Delimit Scope pst_scope with pst.
#[global] Open Scope pst_scope.

(** [e?] followed by the rest of the function. *)
Definition rbind {E A B} (m : res E A) (k : A -> res E B) : res E B :=
  match m with
  | Ok a => k a
  | Err e => Err e
  | Panic => Panic
  end.

Notation "'let?' x := m 'in' k" := (rbind m (fun x => k))
  (at level 10, x binder, m at level 100, k at level 200) : pst_scope.

(** [map_err] / [From::from] applied by [?]. *)
Definition rmap_err {E F A} (f : E -> F) (m : res E A) : res F A :=
  match m with
  | Ok a => Ok a
  | Err e => Err (f e)
  | Panic => Panic
  end.

(** [ok_or]. *)
Definition ok_or {E A} (o : option A) (e : E) : res E A :=
  match o with Some a => Ok a | None => Err e end.

(** Returning early with an error when a guard fails. *)
Definition ensure {E} (b : bool) (e : E) : res E unit :=
  if b then Ok tt else Err e.

Definition is_ok {E A} (m : res E A) : bool :=
  match m with Ok _ => true | _ => false end.

(** [collect::<Result<Vec<_>, _>>()] and the [for] loops that push the
    result of a fallible step. *)
Fixpoint rmapM {E A B} (f : A -> res E B) (l : list A) : res E (list B) :=
  match l with
  | [] => Ok []
  | a :: l => let? b := f a in let? bs := rmapM f l in Ok (b :: bs)
  end.

(** [for x in xs { step(&mut s, x)?; }] *)
Fixpoint rfold {E S A} (f : S -> A -> res E S) (l : list A) (s : S) : res E S :=
  match l with
  | [] => Ok s
  | a :: l => let? s := f s a in rfold f l s
  end.

(** ** Machine integers

    A [uN] is a [Z]; its range is [uint N]. *)

Definition uint (w x : Z) : Prop := 0 <= x < 2 ^ w.
Definition uint_b (w x : Z) : bool := (0 <=? x) && (x <? 2 ^ w).
Definition wrap (w x : Z) : Z := x mod 2 ^ w.

Definition wrapping_add (w x y : Z) : Z := wrap w (x + y).
Definition wrapping_sub (w x y : Z) : Z := wrap w (x - y).
Definition checked_add (w x y : Z) : option Z :=
  if x + y <? 2 ^ w then Some (x + y) else None.
Definition checked_sub (x y : Z) : option Z :=
  if y <=? x then Some (x - y) else None.
Definition checked_mul (w x y : Z) : option Z :=
  if x * y <? 2 ^ w then Some (x * y) else None.
Definition saturating_sub (x y : Z) : Z := Z.max 0 (x - y).
(** [x.rotate_left(n)] on a [w]-bit word. *)
Definition rotate_left (w x n : Z) : Z :=
  Z.lor (wrap w (Z.shiftl x n)) (Z.shiftr x (w - n)).
(** [x.rotate_right(n)] on a [w]-bit word. *)
Definition rotate_right (w x n : Z) : Z := rotate_left w x (w - n).
(** [!x] on a [w]-bit word. *)
Definition lnot_w (w x : Z) : Z := Z.ldiff (Z.ones w) x.
(** [a.div_ceil(b)] *)
Definition div_ceil (a b : Z) : Z := (a + b - 1) / b.

(** ** Bytes *)

Definition byte_ok (b : Z) : Prop := uint 8 b.
Abbreviation bytes_ok := (Forall byte_ok).

(** [to_le_bytes] of an [8 * n]-bit integer. *)
Fixpoint le_bytes (n : nat) (x : Z) : list Z :=
  match n with
  | O => []
  | S n => x mod 256 :: le_bytes n (x / 256)
  end.

(** [from_le_bytes]. *)
Fixpoint le_val (l : list Z) : Z :=
  match l with
  | [] => 0
  | b :: l => b + 256 * le_val l
  end.

(** ** Slices *)

(** Indexing: out of range panics. *)
Definition index {E A} (l : list A) (i : Z) : res E A :=
  if i <? 0 then Panic else
  match l !! Z.to_nat i with Some a => Ok a | None => Panic end.

(** [slice.partition_point(p)] on a slice partitioned by [p]; on any slice
    it is the length of the longest prefix that satisfies [p] whenever the
    slice is partitioned. *)
Fixpoint partition_point {A} (p : A -> bool) (l : list A) : nat :=
  match l with
  | [] => 0%nat
  | a :: l => if p a then S (partition_point p l) else 0%nat
  end.

(** ** Tactics *)

Create HintDb pst.
Create Rewrite HintDb pst_len.

(** Case analysis on the first guard or match of a hypothesis about a
    successful computation. *)
Ltac res_step :=
  match goal with
  | H : rbind ?m _ = _ |- _ =>
      let E := fresh "E" in destruct m eqn:E; cbn [rbind] in H; try discriminate H
  | H : (if ?b then _ else _) = _ |- _ =>
      let E := fresh "E" in destruct b eqn:E; try discriminate H
  | H : (match ?x with _ => _ end) = _ |- _ =>
      let E := fresh "E" in destruct x eqn:E; try discriminate H
  end.

Ltac inv_ok := simplify_eq.

(** Booleans of [Z] comparisons to propositions. *)
Ltac zb :=
  repeat match goal with
  | H : context [Z.ltb ?a ?b = true] |- _ => rewrite Z.ltb_lt in H
  | H : context [Z.ltb ?a ?b = false] |- _ => rewrite Z.ltb_ge in H
  | H : context [Z.leb ?a ?b = true] |- _ => rewrite Z.leb_le in H
  | H : context [Z.leb ?a ?b = false] |- _ => rewrite Z.leb_gt in H
  | H : context [Z.eqb ?a ?b = true] |- _ => rewrite Z.eqb_eq in H
  | H : context [Z.eqb ?a ?b = false] |- _ => rewrite Z.eqb_neq in H
  | H : _ && _ = true |- _ => apply andb_true_iff in H; destruct H
  | H : _ || _ = false |- _ => apply orb_false_iff in H; destruct H
  | H : negb _ = true |- _ => apply negb_true_iff in H
  | H : negb _ = false |- _ => apply negb_false_iff in H
  end.

(** Equality of words, bit by bit. *)
Ltac zbits := apply Z.bits_inj'; intros.

(** ** Outcome lemmas *)

Lemma rbind_ok {E A B} (m : res E A) (k : A -> res E B) b :
  rbind m k = Ok b <-> exists a, m = Ok a /\ k a = Ok b.
Proof. destruct m; cbn; split; [eauto|intros (?&?&?)|done|intros (?&?&?)|done|intros (?&?&?)]; congruence. Qed.

Lemma ensure_ok {E} b (e : E) u : ensure b e = Ok u <-> b = true.
Proof. unfold ensure. destruct u, b; split; congruence. Qed.

Lemma rmapM_length {E A B} (f : A -> res E B) l bs :
  rmapM f l = Ok bs -> length bs = length l.
Proof.
  revert bs. induction l as [|a l IH]; cbn; intros bs H; [by inv_ok|].
  repeat res_step. inv_ok. cbn. f_equal. eauto.
Qed.

Lemma rmapM_ext_in {E A B} (f g : A -> res E B) l :
  (forall a, a ∈ l -> f a = g a) -> rmapM f l = rmapM g l.
Proof.
  induction l as [|a l IH]; intros H; [done|]. cbn [rmapM]. rewrite H by (by left).
  destruct (g a); cbn [rbind]; [|done..]. rewrite IH; [done|]. intros b Hb. apply H. by right.
Qed.

Lemma rmapM_Forall2 {E A B} (f : A -> res E B) l bs :
  rmapM f l = Ok bs <-> Forall2 (fun a b => f a = Ok b) l bs.
Proof.
  split.
  - revert bs. induction l as [|a l IH]; cbn; intros bs H; [inv_ok; constructor|].
    repeat res_step. inv_ok. constructor; eauto.
  - induction 1 as [|a b l bs Hf _ IH]; cbn; [done|]. by rewrite Hf; cbn; rewrite IH.
Qed.

(** ** Integer lemmas *)

Lemma rfold_app {E S A} (f : S -> A -> res E S) l k s :
  rfold f (l ++ k) s = let? s := rfold f l s in rfold f k s.
Proof.
  revert s. induction l as [|a l IH]; intros s; cbn; [done|].
  destruct (f s a); cbn; [apply IH|done|done].
Qed.

Lemma uint_b_spec w x : uint_b w x = true <-> uint w x.
Proof. unfold uint_b, uint. rewrite andb_true_iff, Z.leb_le, Z.ltb_lt. lia. Qed.

Lemma wrap_uint w x : 0 <= w -> uint w (wrap w x).
Proof. intros. apply Z.mod_pos_bound. lia. Qed.

Lemma wrap_small w x : uint w x -> wrap w x = x.
Proof. apply Z.mod_small. Qed.

Lemma uint_le w w' x : uint w x -> w <= w' -> uint w' x.
Proof.
  unfold uint. intros [H0 H] Hw. split; [done|].
  assert (0 <= w) by (destruct (Z.lt_ge_cases w 0) as [Hn|]; [rewrite Z.pow_neg_r in H by done; lia|done]).
  eapply Z.lt_le_trans; [done|]. apply Z.pow_le_mono_r; lia.
Qed.

Lemma uint_testbit_high w x i : uint w x -> w <= i -> Z.testbit x i = false.
Proof.
  intros [H0 H1] Hi. destruct (Z.eq_dec x 0) as [->|Hne]; [apply Z.testbit_0_l|].
  apply Z.bits_above_log2; [done|]. apply Z.log2_lt_pow2 in H1; lia.
Qed.

Lemma uint_of_testbit w x :
  0 <= w -> 0 <= x -> (forall i, w <= i -> Z.testbit x i = false) -> uint w x.
Proof.
  intros Hw Hx H. split; [done|].
  destruct (Z.eq_dec x 0) as [->|Hne]; [lia|].
  apply Z.log2_lt_pow2; [lia|].
  destruct (Z.lt_ge_cases (Z.log2 x) w) as [|Hge]; [done|].
  pose proof (Z.bit_log2 x ltac:(lia)) as Hb. rewrite (H _ Hge) in Hb. discriminate.
Qed.

Lemma uint_lxor w x y : 0 <= w -> uint w x -> uint w y -> uint w (Z.lxor x y).
Proof.
  intros Hw Hx Hy. apply uint_of_testbit; [done| |].
  - apply Z.lxor_nonneg. destruct Hx, Hy; lia.
  - intros i Hi. rewrite Z.lxor_spec, (uint_testbit_high w x), (uint_testbit_high w y) by done. done.
Qed.

Lemma uint_lor w x y : 0 <= w -> uint w x -> uint w y -> uint w (Z.lor x y).
Proof.
  intros Hw Hx Hy. apply uint_of_testbit; [done| |].
  - apply Z.lor_nonneg. destruct Hx, Hy; lia.
  - intros i Hi. rewrite Z.lor_spec, (uint_testbit_high w x), (uint_testbit_high w y) by done. done.
Qed.

Lemma uint_land w x y : 0 <= w -> uint w x -> 0 <= y -> uint w (Z.land x y).
Proof.
  intros Hw Hx Hy. apply uint_of_testbit; [done| |].
  - apply Z.land_nonneg. destruct Hx; lia.
  - intros i Hi. by rewrite Z.land_spec, (uint_testbit_high w x).
Qed.

Lemma uint_shiftr w x n : 0 <= w -> 0 <= n -> uint (w + n) x -> uint w (Z.shiftr x n).
Proof.
  intros Hw Hn [H0 H1]. rewrite Z.shiftr_div_pow2 by done. split.
  - apply Z.div_pos; lia.
  - apply Z.div_lt_upper_bound; [lia|]. rewrite <- Z.pow_add_r by lia.
    by replace (n + w) with (w + n) by lia.
Qed.

Lemma testbit_lnot_w w x i :
  0 <= w -> 0 <= i -> Z.testbit (lnot_w w x) i = (i <? w) && negb (Z.testbit x i).
Proof.
  intros Hw Hi. unfold lnot_w. rewrite Z.ldiff_spec.
  destruct (Z.ltb_spec i w).
  - by rewrite Z.ones_spec_low by lia.
  - by rewrite Z.ones_spec_high by lia.
Qed.

(** ** Byte lemmas *)

Lemma length_le_bytes n x : length (le_bytes n x) = n.
Proof. revert x. induction n as [|n IH]; intros x; cbn; [done|]. by rewrite IH. Qed.

Lemma le_bytes_ok n x : bytes_ok (le_bytes n x).
Proof.
  revert x. induction n as [|n IH]; intros x; cbn [le_bytes]; constructor; [|apply IH].
  apply Z.mod_pos_bound. lia.
Qed.

Lemma le_val_bytes n x : uint (8 * Z.of_nat n) x -> le_val (le_bytes n x) = x.
Proof.
  revert x. induction n as [|n IH]; intros x Hx.
  - unfold uint in Hx. rewrite Z.mul_0_r, Z.pow_0_r in Hx. cbn. lia.
  - cbn [le_bytes le_val]. rewrite IH.
    + pose proof (Z.div_mod x 256). lia.
    + destruct Hx as [H0 H1]. split; [apply Z.div_pos; lia|].
      apply Z.div_lt_upper_bound; [lia|].
      replace (8 * Z.of_nat (S n)) with (8 + 8 * Z.of_nat n) in H1 by lia.
      rewrite Z.pow_add_r in H1 by lia. exact H1.
Qed.

Lemma le_val_uint l : bytes_ok l -> uint (8 * Z.of_nat (length l)) (le_val l).
Proof.
  induction 1 as [|b l Hb _ IH]; [done|].
  cbn [le_val length]. replace (8 * Z.of_nat (S (length l))) with (8 + 8 * Z.of_nat (length l)) by lia.
  unfold uint, byte_ok in *. rewrite Z.pow_add_r by lia. change (2 ^ 8) with 256 in *.
  destruct Hb, IH. split; [lia|]. nia.
Qed.

Lemma le_bytes_val l : bytes_ok l -> le_bytes (length l) (le_val l) = l.
Proof.
  induction 1 as [|b l Hb _ IH]; [done|].
  cbn [le_val le_bytes length]. unfold byte_ok, uint in Hb. change (2 ^ 8) with 256 in Hb.
  replace (b + 256 * le_val l) with (b + le_val l * 256) by lia.
  rewrite Z.mod_add by lia. rewrite Z.mod_small by done.
  rewrite Z.div_add by lia. rewrite Z.div_small by done. rewrite Z.add_0_l. by rewrite IH.
Qed.

(** For concrete lists of bytes. *)
Lemma bytes_ok_b l : forallb (uint_b 8) l = true -> bytes_ok l.
Proof.
  intros H. apply Forall_forall. intros b Hb. rewrite forallb_forall in H.
  by apply uint_b_spec, H, list_elem_of_In.
Qed.

Lemma byte_uint w b : byte_ok b -> 8 <= w -> uint w b.
Proof. intros Hb Hw. by apply (uint_le 8). Qed.

(** ** List lemmas *)

Lemma take_app_exact {A} (l k : list A) n : length l = n -> take n (l ++ k) = l.
Proof. intros <-. apply take_app_length. Qed.

Lemma drop_app_exact {A} (l k : list A) n : length l = n -> drop n (l ++ k) = k.
Proof. intros <-. apply drop_app_length. Qed.

Lemma bytes_ok_app l k : bytes_ok l -> bytes_ok k -> bytes_ok (l ++ k).
Proof. intros. by apply Forall_app. Qed.

Lemma partition_point_le {A} (p : A -> bool) l : (partition_point p l <= length l)%nat.
Proof. induction l as [|a l IH]; cbn; [done|]. destruct (p a); lia. Qed.

Lemma partition_point_lt {A} (p : A -> bool) l i a :
  (i < partition_point p l)%nat -> l !! i = Some a -> p a = true.
Proof.
  revert i. induction l as [|b l IH]; intros i Hi Hl; cbn in Hi; [lia|].
  destruct (p b) eqn:Hp; [|lia]. destruct i as [|i]; cbn in Hl; [naive_solver|].
  eapply IH; [|done]. lia.
Qed.

Lemma partition_point_ge {A} (p : A -> bool) l a :
  l !! partition_point p l = Some a -> p a = false.
Proof.
  induction l as [|b l IH]; cbn; [done|]. destruct (p b) eqn:Hp; cbn; [done|]. naive_solver.
Qed.

#[export] Hint Resolve bytes_ok_app le_bytes_ok : pst.
#[export] Hint Rewrite length_le_bytes : pst_len.

(** ** Maps collected from lists

    [collect] into a [BTreeMap], later entries replacing earlier ones; with
    distinct keys the map has exactly the entries. *)
Lemma foldl_insert_lookup {A V} (key : A -> Z) (val : A -> V) (l : list A) (m : gmap Z V) k v :
  NoDup (map key l) -> (forall a, a ∈ l -> m !! key a = None) ->
  foldl (fun m a => <[key a := val a]> m) m l !! k = Some v <->
    m !! k = Some v \/ exists a, a ∈ l /\ key a = k /\ val a = v.
Proof.
  revert m. induction l as [|a l IH]; intros m Hnd Hm; cbn [foldl map] in *.
  { split; [by left|]. intros [H|(a & H & _)]; [done|by apply elem_of_nil in H]. }
  apply NoDup_cons in Hnd as [Hk Hnd]. rewrite IH; [|done|].
  - rewrite lookup_insert_Some. split.
    + intros [[[<- <-]|[Hne Hl]]|(b & Hb & He)]; [right; exists a; split; [by left|done]|by left|right].
      exists b. split; [by right|done].
    + intros [Hl|(b & Hb & <- & <-)].
      * left. right. split; [|done]. intros Heq. by rewrite <- Heq, (Hm a ltac:(by left)) in Hl.
      * apply elem_of_cons in Hb as [->|Hb]; [by left; left|right; by exists b].
  - intros b Hb. rewrite lookup_insert_ne; [by apply Hm; right|].
    intros Heq. apply Hk. rewrite Heq. apply list_elem_of_fmap. by exists b.
Qed.
