(* ===== verification/Search.v ===== *)
(** * Ordered search trees on disk

    What the node and block B-trees and the sub-node trees share: a block
    of an inner level lists entries with ascending keys, the child of an
    entry holds the keys from that of the entry up to that of the next one,
    and a search follows the last entry whose key is not above the key it
    looks for. *)
From S2P Require Import Prelude.

Section search.
Set Default Proof Using "Type".
(** Blocks, the entries of inner blocks and of leaves, their keys, and the
    block an inner entry leads to. *)
Context {T PE LE : Type} (pkey : PE -> Z) (lkey : LE -> Z) (child_of : PE -> T -> Prop).

(** The children of an inner block over the keys [[lo..hi)]. *)
Fixpoint children (R : T -> Z -> Z -> list LE -> Prop) (pes : list PE) (lo hi : Z)
    (es : list LE) : Prop :=
  match pes with
  | [] => es = []
  | e :: pes => exists child mid es1 es2,
      lo <= pkey e <= mid /\ mid <= hi /\ child_of e child /\
      R child (pkey e) mid es1 /\ children R pes mid hi es2 /\ es = es1 ++ es2
  end.

Definition keys_in (lo hi : Z) (es : list LE) : Prop := Forall (fun e => lo <= lkey e < hi) es.

(** The entry chosen among the children. *)
Definition choose (k : Z) (pes : list PE) : option PE :=
  match partition_point (fun e => pkey e <=? k) pes with O => None | S i => pes !! i end.

Lemma keys_in_weaken lo lo' hi hi' es :
  keys_in lo hi es -> lo' <= lo -> hi <= hi' -> keys_in lo' hi' es.
Proof. intros H ? ?. eapply Forall_impl; [exact H|]. cbn. lia. Qed.

Lemma find_not_in lo hi es k :
  keys_in lo hi es -> k < lo \/ hi <= k -> List.find (fun e => lkey e =? k) es = None.
Proof.
  intros H Hk. induction H as [|e es He _ IH]; cbn; [done|].
  by destruct (Z.eqb_spec (lkey e) k); [lia|].
Qed.

Lemma find_app {A} (q : A -> bool) l1 l2 :
  List.find q (l1 ++ l2) = match List.find q l1 with Some a => Some a | None => List.find q l2 end.
Proof. induction l1 as [|a l1 IH]; cbn; [done|]. by destruct (q a). Qed.

Lemma children_keys R pes lo hi es :
  (forall p lo hi es, R p lo hi es -> keys_in lo hi es) ->
  children R pes lo hi es -> keys_in lo hi es.
Proof.
  intros HR. revert lo es. induction pes as [|e pes IH]; intros lo es; cbn.
  - intros ->. constructor.
  - intros (child & mid & es1 & es2 & Hlo & Hmid & _ & H1 & H2 & ->).
    apply HR in H1. apply IH in H2. apply Forall_app. split; eapply keys_in_weaken; eauto; lia.
Qed.

Lemma choose_cons k e pes :
  choose k (e :: pes) =
    if pkey e <=? k then
      match choose k pes with Some e' => Some e' | None => Some e end
    else None.
Proof.
  unfold choose. cbn [partition_point]. destruct (pkey e <=? k); [|done].
  destruct (partition_point _ pes) eqn:Hp; [done|]. cbn.
  destruct (pes !! n) eqn:Hn; [done|].
  apply lookup_ge_None in Hn. pose proof (partition_point_le (fun e => pkey e <=? k) pes). lia.
Qed.

Lemma choose_elem k pes e : choose k pes = Some e -> e ∈ pes.
Proof. unfold choose. destruct (partition_point _ _); [done|]. apply list_elem_of_lookup_2. Qed.

Lemma children_head R pes lo hi es :
  children R pes lo hi es -> match pes with [] => True | e :: _ => lo <= pkey e end.
Proof. destruct pes; cbn; [done|]. intros (? & ? & ? & ? & [? _] & _). done. Qed.

Lemma children_lower R e pes lo hi es :
  children R (e :: pes) lo hi es -> children R (e :: pes) (pkey e) hi es.
Proof.
  cbn. intros (c & m & e1 & e2 & [? ?] & ?). exists c, m, e1, e2. split; [lia|done].
Qed.

(** Only the child of the chosen entry can hold the key. *)
Lemma children_choose R pes lo hi es k :
  (forall p lo hi es, R p lo hi es -> keys_in lo hi es) ->
  children R pes lo hi es ->
  match choose k pes with
  | None => List.find (fun e => lkey e =? k) es = None
  | Some e => exists child mid es1, child_of e child /\ R child (pkey e) mid es1 /\
      List.find (fun e => lkey e =? k) es = List.find (fun e => lkey e =? k) es1
  end.
Proof.
  intros HR. revert lo es. induction pes as [|e pes IH]; intros lo es Hch.
  - cbn in Hch. by subst.
  - rewrite choose_cons. destruct (Z.leb_spec (pkey e) k).
    + destruct Hch as (child & mid & es1 & es2 & Hlo & Hmid & Hk & H1 & H2 & ->).
      rewrite find_app. specialize (IH mid es2 H2). destruct (choose k pes) as [e'|] eqn:Hc.
      * destruct IH as (child' & mid' & es1' & ? & ? & Hf). exists child', mid', es1'.
        split_and!; [done..|].
        rewrite (find_not_in (pkey e) mid es1 k), Hf; [done|by eapply HR|].
        destruct pes as [|e2 pes]; [done|]. rewrite choose_cons in Hc.
        apply children_head in H2. destruct (Z.leb_spec (pkey e2) k); [lia|done].
      * exists child, mid, es1. split_and!; [done..|]. rewrite IH. by destruct (List.find _ es1).
    + apply (find_not_in (pkey e) hi); [|lia].
      apply children_lower in Hch. by eapply children_keys.
Qed.
End search.
