(* ===== verification/Errors.v ===== *)
(** * Errors

    The enumerations carried by errors and the error types of the crate:
    [PageType], [NdbCryptMethod], [NodeId], [HeapNodeType] and
    [PropertyType] (whose operations are in the
    files of their components), [NdbError] ([ndb/mod.rs]), [LtpError]
    ([ltp/mod.rs]), [MessagingError] ([messaging/mod.rs]) and [PstError]
    ([lib.rs]), and the [io::Error] values the crate builds. *)
From S2P Require Import Prelude.

(** [ptype] of a page trailer ([ndb/page.rs]). *)
Inductive PageType :=
| PageType_None
| BlockBTree
| NodeBTree
| FreeMap
| AllocationPageMap
| AllocationMap
| FreePageMap
| DensityList.

(** [bCryptMethod] ([ndb/header.rs]). *)
Inductive NdbCryptMethod :=
| Crypt_None
| Permute
| Cyclic.

(** [NodeId(u32)] ([ndb/node_id.rs]). *)
Record NodeId := mk_NodeId { node_id_0 : Z }.

(** [bClientSig] of a heap header ([ltp/heap.rs]). *)
Inductive HeapNodeType :=
| HN_Reserved1
| HN_Table
| HN_Reserved2
| HN_Reserved3
| HN_Reserved4
| HN_Reserved5
| HN_Tree
| HN_Properties
| HN_Reserved6.

(** The types of properties ([ltp/prop_type.rs]). *)
Inductive PropertyType :=
| PT_Null | PT_Integer16 | PT_Integer32 | PT_Floating32 | PT_Floating64 | PT_Currency
| PT_FloatingTime | PT_ErrorCode | PT_Boolean | PT_Integer64 | PT_String8 | PT_Unicode
| PT_Time | PT_Guid | PT_Binary | PT_Object
| PT_MultipleInteger16 | PT_MultipleInteger32 | PT_MultipleFloating32 | PT_MultipleFloating64
| PT_MultipleCurrency | PT_MultipleFloatingTime | PT_MultipleInteger64 | PT_MultipleString8
| PT_MultipleUnicode | PT_MultipleTime | PT_MultipleGuid | PT_MultipleBinary.

(** [MessagingError] ([messaging/mod.rs]): the variants of the named property
    map. *)
Inductive MessagingError :=
| NamedPropertyMapGuidIndexOutOfBounds (v : Z)
| NamedPropertyMapPropertyIndexOutOfBounds (v : Z)
| NamedPropertyMapBucketCountOutOfBounds (v : Z)
| NamedPropertyMapBucketOffsetOutOfBounds (v : Z)
| NamedPropertyMapStringEntryOutOfBounds
| NamedPropertyMapBucketCountNotFound
| InvalidNamedPropertyMapBucketCount (t : PropertyType)
| NamedPropertyMapStreamGuidNotFound
| InvalidNamedPropertyMapStreamGuid (t : PropertyType)
| NamedPropertyMapStreamEntryNotFound
| InvalidNamedPropertyMapStreamEntry (t : PropertyType)
| NamedPropertyMapStreamStringNotFound
| InvalidNamedPropertyMapStreamString (t : PropertyType)
| NamedPropertyMapBucketNotFound (v : Z)
| InvalidNamedPropertyMapBucket (t : PropertyType).

(** The variants of [NdbError], with [io_error] for [io::Error]: the kinds
    the crate and the byte readers produce. *)
Inductive NdbError :=
| InvalidNodeIdType (v : Z)
| InvalidNodeIndex (v : Z)
| InvalidUnicodeBlockIndex (v : Z)
| InvalidAnsiBlockIndex (v : Z)
| InvalidAmapStatus (v : Z)
| InvalidNdbVersion (v : Z)
| InvalidNdbCryptMethod (v : Z)
| InvalidNdbHeaderMagicValue (v : Z)
| InvalidNdbHeaderPartialCrc (v : Z)
| InvalidNdbHeaderMagicClientValue (v : Z)
| InvalidNdbHeaderFullCrc (v : Z)
| AnsiPstVersion (v : Z)
| InvalidNdbHeaderClientVersion (v : Z)
| InvalidNdbHeaderPlatformCreate (v : Z)
| InvalidNdbHeaderPlatformAccess (v : Z)
| InvalidNdbHeaderAlignValue (v : Z)
| InvalidNdbHeaderSentinelValue (v : Z)
| InvalidNdbHeaderReservedValue (v : Z)
| UnicodePstVersion (v : Z)
| InvalidNdbHeaderAnsiReservedBytes
| MismatchPageTypeRepeat (a b : Z)
| InvalidPageType (v : Z)
| UnexpectedPageType (t : PageType)
| InvalidPageCrc (v : Z)
| InvalidDensityListEntryPageNumber (v : Z)
| InvalidDensityListEntryFreeSlots (v : Z)
| InvalidDensityListEntryCount (v : Z)
| InvalidDensityListPadding
| InvalidBTreePageLevel (v : Z)
| InvalidBTreeEntryCount (v : Z)
| InvalidBTreeEntryMaxCount (v : Z)
| InvalidBTreeEntrySize (v : Z)
| InvalidBTreePagePadding (v : Z)
| BTreePageNotFound (v : Z)
| InvalidNodeBTreeEntryNodeId (v : Z)
| InvalidBlockSize (v : Z)
| InvalidBlockCrc (v : Z)
| InvalidUnicodeBlockTrailerId (v : Z)
| InvalidAnsiBlockTrailerId (v : Z)
| InvalidInternalBlockEncoding (m : NdbCryptMethod)
| InvalidInternalBlockData (e : io_error)
| InvalidInternalBlockType (v : Z)
| InvalidInternalBlockLevel (v : Z)
| InvalidInternalBlockEntryCount (v : Z)
| InvalidSubNodeBlockPadding (v : Z)
| SubNodeNotFound (n : NodeId)
| SubNodeTreeDepthExceeded (v : Z)
| SubNodeTreeCycle (v : Z)
| SubNodeTreeEntryLimitExceeded (v : Z)
| DataTreeDepthExceeded (v : Z)
| DataTreeCycle (v : Z)
| DataTreeEntryLimitExceeded (v : Z)
| DataTreeMaterializationLimitExceeded (v : Z)
| DataTreeSizeMismatch (declared actual : Z)
with LtpError :=
| LtpNodeDatabaseError (e : NdbError)
| InvalidHeapIndex (v : Z)
(** the discriminant of the [NodeIdType] *)
| InvalidNodeType (t : Z)
| InvalidHeapNodeSignature (v : Z)
| InvalidHeapNodeTypeSignature (v : Z)
| InvalidHeapFillLevel (v : Z)
| HeapPageOutOfSpace
| EmptyHeapPageAlloc
| InvalidHeapPageAllocOffset (v : Z)
| InvalidHeapPageAllocCount (v : Z)
| InvalidHeapPageFreeCount (v : Z)
| InvalidHeapTreeNodeType (t : HeapNodeType)
| InvalidHeapTreeKeySize (v : Z)
| InvalidHeapTreeDataSize (v : Z)
| HeapBlockIndexNotFound (v : Z)
| HeapAllocIndexNotFound (v : Z)
| InvalidPropertyType (v : Z)
| InvalidVariableLengthPropertyType (t : PropertyType)
| InvalidMultiValuePropertyOffset (v : Z)
| InvalidMultiValuePropertyCount (v : Z)
| PropertySubNodeValueNotFound (v : Z)
| InvalidSmallPropertyType (t : PropertyType)
| InvalidPropertyTreeKeySize (v : Z)
| InvalidPropertyTreeEntrySize (v : Z)
| FailedToLockFile
| InvalidTableContextHeapTreeNodeType (t : HeapNodeType)
| InvalidTableContextColumnCount (v : Z)
| InvalidTableContext4ByteOffset (v : Z)
| InvalidTableContext2ByteOffset (v : Z)
| InvalidTableContext1ByteOffset (v : Z)
| InvalidTableContextBitmaskOffset (v : Z)
| TableContextRowIdColumnNotFound
| InvalidTableContextRowIdColumn (v : Z) (t : PropertyType)
| TableContextRowVersionColumnNotFound
| InvalidTableContextRowVersionColumn (v : Z) (t : PropertyType)
| InvalidTableColumnPropertyType (t : PropertyType)
| InvalidTableColumnOffset (v : Z)
| InvalidTableColumnSize (v : Z)
| InvalidTableColumnBitmaskOffset (v : Z)
| InvalidTableColumnBooleanValue (v : Z)
| TableRowIdNotFound (v : Z)
| InvalidTableRowIndex (row_id index count : Z)
| TableRowIdMismatch (expected actual : Z)
| InvalidTableRowMatrixSize (size row_size : Z)
with io_error :=
| UnexpectedEof
| WriteZero
| NdbData (e : NdbError)
| LtpData (e : LtpError)
| MessagingData (e : MessagingError)
| InvalidData_msg
| InvalidInput_msg
| PermissionDenied
| Other (e : PstError)
with PstError :=
| OpenedReadOnly
| NoWriteAccess
| PstIo (e : io_error)
| BorrowedIo
| LockError
| IntegerConversion
| NodeDatabaseError (e : NdbError)
| AllocationMapPageNotFound (i : Z)
| InvalidBTreePage (offset : Z).

Abbreviation NdbResult := (res NdbError).
Abbreviation io_result := (res io_error).
Abbreviation PstResult := (res PstError).

(** [impl From<NdbError> for io::Error]: an [InvalidData] error. *)
Definition io_of_ndb (e : NdbError) : io_error := NdbData e.

(** [impl From<PstError> for io::Error]. *)
Definition io_of_pst (e : PstError) : io_error :=
  match e with
  | NoWriteAccess => PermissionDenied
  | PstIo e => e
  | e => Other e
  end.

(** [?] on an [NdbResult] in a function that returns [io::Result]. *)
Definition ndb {A} (m : NdbResult A) : io_result A := rmap_err io_of_ndb m.
(** [?] on a [PstResult] in a function that returns [io::Result]. *)
Definition pst {A} (m : PstResult A) : io_result A := rmap_err io_of_pst m.

Abbreviation LtpResult := (res LtpError).
(** [impl From<LtpError> for io::Error]: an [InvalidData] error. *)
Definition io_of_ltp (e : LtpError) : io_error := LtpData e.
(** [?] on an [LtpResult] in a function that returns [io::Result]. *)
Definition ltp {A} (m : LtpResult A) : io_result A := rmap_err io_of_ltp m.

Abbreviation MessagingResult := (res MessagingError).
(** [impl From<MessagingError> for io::Error]: an [InvalidData] error. *)
Definition io_of_messaging (e : MessagingError) : io_error := MessagingData e.
(** [?] on a [MessagingResult] in a function that returns [io::Result]. *)
Definition messaging {A} (m : MessagingResult A) : io_result A := rmap_err io_of_messaging m.

#[export] Instance HeapNodeType_eq_dec : EqDecision HeapNodeType.
Proof. solve_decision. Defined.
#[export] Instance PropertyType_eq_dec : EqDecision PropertyType.
Proof. solve_decision. Defined.
#[export] Instance PageType_eq_dec : EqDecision PageType.
Proof. solve_decision. Defined.
#[export] Instance NdbCryptMethod_eq_dec : EqDecision NdbCryptMethod.
Proof. solve_decision. Defined.
#[export] Instance NodeId_eq_dec : EqDecision NodeId.
Proof. solve_decision. Defined.

Lemma ndb_ok {A} (m : NdbResult A) a : ndb m = Ok a <-> m = Ok a.
Proof. destruct m; cbn; split; congruence. Qed.

Lemma pst_ok {A} (m : PstResult A) a : pst m = Ok a <-> m = Ok a.
Proof. destruct m; cbn; split; congruence. Qed.

Lemma ltp_ok {A} (m : LtpResult A) a : ltp m = Ok a <-> m = Ok a.
Proof. destruct m; cbn; split; congruence. Qed.

Lemma messaging_ok {A} (m : MessagingResult A) a : messaging m = Ok a <-> m = Ok a.
Proof. destruct m; cbn; split; congruence. Qed.
