(* ===== verification/Io.v ===== *)
(** * Byte readers and writers

    [std::io::Read], [Cursor] and [byteorder]'s little-endian accessors.  A
    reader consumes a prefix of the bytes that follow the current position;
    a [Write] call that cannot fail on memory is the list of bytes it
    emits; a seekable file is its contents, and [SeekFrom::Start] selects a
    suffix of it.  [RoundTrip] and [Canonical] are the interface between the
    serialisable parts: what a container's codec may assume of its
    fields'. *)
From S2P Require Import Prelude Errors.

(** ** Readers *)

Definition reader (A : Type) : Type := list Z -> io_result (A * list Z).

Definition rd_ret {A} (a : A) : reader A := fun s => Ok (a, s).
Definition rd_bind {A B} (m : reader A) (k : A -> reader B) : reader B :=
  fun s => let? '(a, s) := m s in k a s.
(** A computation that does not read. *)
Definition rd_lift {A} (m : io_result A) : reader A :=
  fun s => let? a := m in Ok (a, s).
Definition rd_fail {A} (e : NdbError) : reader A := fun _ => Err (NdbData e).

Notation "x <- m ;; k" := (rd_bind m (fun x => k))
  (at level 100, m at next level, right associativity) : pst_scope.
Notation "m ;;; k" := (rd_bind m (fun _ => k))
  (at level 100, right associativity) : pst_scope.

(** [if !b { return Err(e.into()) }] *)
Definition rd_ensure (b : bool) (e : NdbError) : reader unit := rd_lift (ndb (ensure b e)).

(** [f.read_exact(&mut buf)] with a buffer of [n] bytes. *)
Definition read_exact (n : nat) : reader (list Z) :=
  fun s => if (length s <? n)%nat then Err UnexpectedEof else Ok (take n s, drop n s).

(** [f.seek(SeekFrom::Current(n))], [n >= 0], on a cursor or a file. *)
Definition skip (n : Z) : reader unit := fun s => Ok (tt, drop (Z.to_nat n) s).

Definition read_uint (n : nat) : reader Z :=
  bs <- read_exact n;; rd_ret (le_val bs).
Definition read_u8 : reader Z := read_uint 1.
Definition read_u16 : reader Z := read_uint 2.
Definition read_u32 : reader Z := read_uint 4.
Definition read_u64 : reader Z := read_uint 8.

Definition write_u8 (x : Z) : list Z := le_bytes 1 x.
Definition write_u16 (x : Z) : list Z := le_bytes 2 x.
Definition write_u32 (x : Z) : list Z := le_bytes 4 x.
Definition write_u64 (x : Z) : list Z := le_bytes 8 x.

(** [for x in xs.iter_mut() { *x = read(f)?; }] *)
Fixpoint rd_repeat {A} (n : nat) (m : reader A) : reader (list A) :=
  match n with
  | O => rd_ret []
  | S n => a <- m;; l <- rd_repeat n m;; rd_ret (a :: l)
  end.

(** [let mut cursor = Cursor::new(buf)] and the reads made through it. *)
Definition with_cursor {A} (buf : list Z) (m : reader A) : reader A :=
  fun s => let? '(a, _) := m buf in Ok (a, s).

(** ** Files *)

(** A file opened for reading is its contents; [f.seek(SeekFrom::Start(pos))]
    followed by reads. *)
Definition read_at {A} (f : list Z) (pos : Z) (m : reader A) : io_result A :=
  let? '(a, _) := m (drop (Z.to_nat pos) f) in Ok a.

(** A file open for writing: contents and position. *)
Record wfile := mk_wfile { wf_data : list Z; wf_pos : nat }.

(** [write_all] at the position: the file is extended with zeros up to it,
    as a sparse file or a [Cursor<Vec<u8>>] is. *)
Definition write_all (bs : list Z) (f : wfile) : wfile :=
  let d := wf_data f ++ replicate (wf_pos f - length (wf_data f)) 0 in
  mk_wfile (take (wf_pos f) d ++ bs ++ drop (wf_pos f + length bs) d) (wf_pos f + length bs).
Definition wseek_start (pos : Z) (f : wfile) : wfile := mk_wfile (wf_data f) (Z.to_nat pos).
Definition wseek_current (n : Z) (f : wfile) : wfile :=
  mk_wfile (wf_data f) (wf_pos f + Z.to_nat n).

(** ** Interfaces of the codecs *)

(** A type with a [read] and a [write] method. *)
Class Serial (A : Type) := {
  ser_read : reader A;
  ser_write : A -> list Z;
  (** the values a Rust program can hold: every integer in its range *)
  ser_wf : A -> Prop;
  ser_size : nat
}.

(** A value of the array type [[u8; n]]. *)
Definition array_wf (n : nat) (l : list Z) : Prop := length l = n /\ bytes_ok l.

(** Reading back what was written, whatever follows it. *)
Class RoundTrip (A : Type) `{Serial A} := {
  rt_read : forall a s, ser_wf a -> ser_read (ser_write a ++ s) = Ok (a, s);
  rt_size : forall a, length (ser_write a) = ser_size;
  rt_bytes : forall a, bytes_ok (ser_write a)
}.

(** The encoding is the only one: writing back what was read. *)
Class Canonical (A : Type) `{Serial A} := {
  can_write : forall a s t, bytes_ok s -> ser_read s = Ok (a, t) ->
    s = ser_write a ++ t /\ ser_wf a
}.

(** ** Lemmas *)

Lemma rd_bind_ok {A B} (m : reader A) (k : A -> reader B) s b t :
  rd_bind m k s = Ok (b, t) <-> exists a u, m s = Ok (a, u) /\ k a u = Ok (b, t).
Proof.
  unfold rd_bind. rewrite rbind_ok. split.
  - intros ([a u] & Hm & Hk). eauto.
  - intros (a & u & Hm & Hk). by exists (a, u).
Qed.

Lemma rd_bind_eq {A B} (m : reader A) (k : A -> reader B) s a t :
  m s = Ok (a, t) -> rd_bind m k s = k a t.
Proof. unfold rd_bind. by intros ->. Qed.

Lemma rd_lift_ok {A} (m : io_result A) s a t :
  rd_lift m s = Ok (a, t) <-> m = Ok a /\ s = t.
Proof. unfold rd_lift. destruct m; cbn; split; [intros H; by simplify_eq|by intros [[=->] ->]|done|by intros [? _]|done|by intros [? _]]. Qed.

Lemma rd_ensure_ok b e s u t : rd_ensure b e s = Ok (u, t) <-> b = true /\ s = t.
Proof. unfold rd_ensure. rewrite rd_lift_ok, ndb_ok, ensure_ok. done. Qed.

Lemma rd_ensure_true b e (Hb : b = true) {B} (k : unit -> reader B) s :
  rd_bind (rd_ensure b e) k s = k tt s.
Proof. by rewrite Hb. Qed.

Lemma read_exact_app n l s : length l = n -> read_exact n (l ++ s) = Ok (l, s).
Proof.
  intros <-. unfold read_exact. rewrite length_app.
  destruct (Nat.ltb_spec (length l + length s) (length l)); [lia|].
  by rewrite take_app_length, drop_app_length.
Qed.

Lemma read_exact_ok n s l t : read_exact n s = Ok (l, t) <-> s = l ++ t /\ length l = n.
Proof.
  split.
  - unfold read_exact. intros H. repeat res_step. inv_ok.
    apply Nat.ltb_ge in E. split; [by rewrite take_drop|]. rewrite length_take. lia.
  - intros [-> Hl]. by apply read_exact_app.
Qed.

Lemma read_uint_app n x s :
  uint (8 * Z.of_nat n) x -> read_uint n (le_bytes n x ++ s) = Ok (x, s).
Proof.
  intros Hx. unfold read_uint. erewrite rd_bind_eq; [|apply read_exact_app, length_le_bytes].
  unfold rd_ret. by rewrite le_val_bytes.
Qed.

Lemma read_uint_ok n s x t :
  bytes_ok s -> read_uint n s = Ok (x, t) ->
  s = le_bytes n x ++ t /\ uint (8 * Z.of_nat n) x.
Proof.
  intros Hs H. unfold read_uint in H. apply rd_bind_ok in H as (l & u & H & Hk).
  apply read_exact_ok in H as [-> <-]. unfold rd_ret in Hk. inv_ok.
  apply Forall_app in Hs as [Hl _].
  split; [by rewrite le_bytes_val|by apply le_val_uint].
Qed.

Lemma read_u8_app x s : uint 8 x -> read_u8 (write_u8 x ++ s) = Ok (x, s).
Proof. apply (read_uint_app 1). Qed.
Lemma read_u16_app x s : uint 16 x -> read_u16 (write_u16 x ++ s) = Ok (x, s).
Proof. apply (read_uint_app 2). Qed.
Lemma read_u32_app x s : uint 32 x -> read_u32 (write_u32 x ++ s) = Ok (x, s).
Proof. apply (read_uint_app 4). Qed.
Lemma read_u64_app x s : uint 64 x -> read_u64 (write_u64 x ++ s) = Ok (x, s).
Proof. apply (read_uint_app 8). Qed.

Lemma read_u8_ok s x t : bytes_ok s -> read_u8 s = Ok (x, t) -> s = write_u8 x ++ t /\ uint 8 x.
Proof. apply (read_uint_ok 1). Qed.
Lemma read_u16_ok s x t : bytes_ok s -> read_u16 s = Ok (x, t) -> s = write_u16 x ++ t /\ uint 16 x.
Proof. apply (read_uint_ok 2). Qed.
Lemma read_u32_ok s x t : bytes_ok s -> read_u32 s = Ok (x, t) -> s = write_u32 x ++ t /\ uint 32 x.
Proof. apply (read_uint_ok 4). Qed.
Lemma read_u64_ok s x t : bytes_ok s -> read_u64 s = Ok (x, t) -> s = write_u64 x ++ t /\ uint 64 x.
Proof. apply (read_uint_ok 8). Qed.

Lemma rd_repeat_app {A} (m : reader A) (wr : A -> list Z) (l : list A) s :
  (forall a s, a ∈ l -> m (wr a ++ s) = Ok (a, s)) ->
  rd_repeat (length l) m (concat (map wr l) ++ s) = Ok (l, s).
Proof.
  induction l as [|a l IH]; intros Hm; cbn; [done|].
  rewrite <- app_assoc. erewrite rd_bind_eq; [|apply Hm; set_solver].
  erewrite rd_bind_eq; [|apply IH; intros; apply Hm; set_solver]. done.
Qed.

Lemma rd_repeat_ser {A} `{RoundTrip A} n (l : list A) s :
  length l = n -> Forall ser_wf l ->
  rd_repeat n ser_read (concat (map ser_write l) ++ s) = Ok (l, s).
Proof.
  intros <- Hl. apply rd_repeat_app. intros a t Ha. apply rt_read.
  rewrite Forall_forall in Hl. auto.
Qed.

Lemma rd_repeat_length {A} (m : reader A) n s l t : rd_repeat n m s = Ok (l, t) -> length l = n.
Proof.
  revert s l. induction n as [|n IH]; intros s l H; cbn in H; [unfold rd_ret in H; by inv_ok|].
  apply rd_bind_ok in H as (a & u & _ & H). apply rd_bind_ok in H as (l' & v & Hl & H).
  unfold rd_ret in H. inv_ok. cbn. f_equal. eauto.
Qed.

Lemma rd_repeat_ok {A} (m : reader A) (wr : A -> list Z) (P : A -> Prop) n s l t :
  (forall s a t, bytes_ok s -> m s = Ok (a, t) -> s = wr a ++ t /\ P a) ->
  bytes_ok s -> rd_repeat n m s = Ok (l, t) ->
  s = concat (map wr l) ++ t /\ Forall P l.
Proof.
  intros Hm. revert s l. induction n as [|n IH]; intros s l Hs H; cbn in H.
  { unfold rd_ret in H. inv_ok. done. }
  apply rd_bind_ok in H as (a & u & Ha & H). apply rd_bind_ok in H as (l' & v & Hl & H).
  unfold rd_ret in H. inv_ok. apply Hm in Ha as [-> Pa]; [|done].
  apply Forall_app in Hs as [_ Hu]. apply IH in Hl as [-> Pl]; [|done].
  split; [by cbn; rewrite <- app_assoc|by constructor].
Qed.

Lemma with_cursor_ok {A} buf (m : reader A) s a t :
  with_cursor buf m s = Ok (a, t) <-> (exists u, m buf = Ok (a, u)) /\ s = t.
Proof.
  unfold with_cursor. rewrite rbind_ok. split.
  - intros ([a' u] & Hm & H). inv_ok. eauto.
  - intros [[u Hm] ->]. exists (a, u). done.
Qed.

Lemma length_write_u8 x : length (write_u8 x) = 1%nat. Proof. done. Qed.
Lemma length_write_u16 x : length (write_u16 x) = 2%nat. Proof. done. Qed.
Lemma length_write_u32 x : length (write_u32 x) = 4%nat. Proof. done. Qed.
Lemma length_write_u64 x : length (write_u64 x) = 8%nat. Proof. done. Qed.

Lemma bytes_write_u8 x : bytes_ok (write_u8 x). Proof. apply le_bytes_ok. Qed.
Lemma bytes_write_u16 x : bytes_ok (write_u16 x). Proof. apply le_bytes_ok. Qed.
Lemma bytes_write_u32 x : bytes_ok (write_u32 x). Proof. apply le_bytes_ok. Qed.
Lemma bytes_write_u64 x : bytes_ok (write_u64 x). Proof. apply le_bytes_ok. Qed.

Lemma bytes_concat_map {A} (wr : A -> list Z) l :
  (forall a, bytes_ok (wr a)) -> bytes_ok (concat (map wr l)).
Proof. intros H. induction l; cbn; [constructor|]. by apply bytes_ok_app. Qed.

Lemma length_concat_map {A} (wr : A -> list Z) n l :
  (forall a, length (wr a) = n) -> length (concat (map wr l)) = (n * length l)%nat.
Proof. intros H. induction l as [|a l IH]; cbn; [lia|]. rewrite length_app, H, IH. lia. Qed.

(** Writing at a position and reading back from it. *)
Lemma read_at_write_all bs f s :
  exists t, drop (wf_pos f) (wf_data (write_all bs f)) ++ s = bs ++ t ++ s.
Proof.
  unfold write_all. cbn [wf_data].
  set (d := wf_data f ++ _). assert (wf_pos f <= length d)%nat.
  { subst d. rewrite length_app, length_replicate. lia. }
  exists (drop (wf_pos f + length bs) d).
  rewrite drop_app_exact; [by rewrite <- app_assoc|]. rewrite length_take. lia.
Qed.

Lemma length_write_all_pos bs f : wf_pos (write_all bs f) = (wf_pos f + length bs)%nat.
Proof. done. Qed.

(** Two writes in a row are one. *)
Lemma write_all_app a b f : write_all b (write_all a f) = write_all (a ++ b) f.
Proof.
  unfold write_all. cbn [wf_data wf_pos].
  set (d := wf_data f ++ replicate (wf_pos f - length (wf_data f)) 0).
  assert (Hp : (wf_pos f <= length d)%nat) by (subst d; rewrite length_app, length_replicate; lia).
  assert (Hz : (wf_pos f + length a - length (take (wf_pos f) d ++ a ++
    drop (wf_pos f + length a) d) = 0)%nat) by (rewrite !length_app, length_take; lia).
  rewrite Hz, length_app. cbn [replicate]. rewrite app_nil_r.
  assert (Ht : length (take (wf_pos f) d ++ a) = (wf_pos f + length a)%nat)
    by (rewrite length_app, length_take; lia).
  rewrite (app_assoc _ a), take_app_exact by done.
  rewrite (drop_app_ge _ (drop _ d)) by lia. rewrite Ht, drop_drop, <- !app_assoc.
  f_equal; [|lia]. do 4 f_equal. lia.
Qed.

(** Reading at the position what was written there. *)
Lemma read_at_write {A} (m : reader A) bs pos f a :
  (forall s, exists t, m (bs ++ s) = Ok (a, t)) ->
  read_at (wf_data (write_all bs (wseek_start pos f))) pos m = Ok a.
Proof.
  intros Hm. unfold read_at.
  destruct (read_at_write_all bs (wseek_start pos f) []) as [t Ht].
  rewrite !app_nil_r in Ht. cbn [wf_pos wseek_start] in Ht. rewrite Ht.
  destruct (Hm t) as [u Hu]. by rewrite Hu.
Qed.

(** Two writes with a gap between them, as seen from the first position. *)
Lemma write_all_gap a b n pos f :
  exists gap t, length gap = Z.to_nat n /\
    drop (Z.to_nat pos)
      (wf_data (write_all b (wseek_current n (write_all a (wseek_start pos f))))) =
      a ++ gap ++ b ++ t.
Proof.
  set (f1 := write_all a (wseek_start pos f)).
  destruct (read_at_write_all a (wseek_start pos f) []) as [u Hu].
  rewrite !app_nil_r in Hu. cbn [wf_pos wseek_start] in Hu. fold f1 in Hu.
  assert (Hpos : wf_pos f1 = (Z.to_nat pos + length a)%nat) by done.
  assert (Hlen : (length (wf_data f1) = Z.to_nat pos + length a + length u)%nat).
  { unfold f1, write_all in *. cbn [wf_data wf_pos wseek_start] in *.
    set (d := wf_data f ++ _) in *.
    assert (Z.to_nat pos <= length d)%nat by (subst d; rewrite length_app, length_replicate; lia).
    apply (f_equal length) in Hu. rewrite length_drop, (length_app a u) in Hu.
    set (w := take _ d ++ _) in *.
    assert (Z.to_nat pos + length a <= length w)%nat
      by (subst w; rewrite !length_app, length_take; lia). lia. }
  set (z := replicate (wf_pos f1 + Z.to_nat n - length (wf_data f1)) 0).
  exists (take (Z.to_nat n) (u ++ z)), (drop (Z.to_nat n + length b) (u ++ z)).
  split. { subst z. rewrite length_take, length_app, length_replicate. lia. }
  unfold write_all at 1. cbn [wf_data wf_pos wseek_current]. fold z.
  assert (Hd : wf_data f1 ++ z = take (Z.to_nat pos) (wf_data f1) ++ a ++ u ++ z).
  { rewrite <- (take_drop (Z.to_nat pos) (wf_data f1)) at 1. by rewrite Hu, <- !app_assoc. }
  assert (Ht : length (take (Z.to_nat pos) (wf_data f1)) = Z.to_nat pos) by (rewrite length_take; lia).
  rewrite Hd, Hpos. set (h := take (Z.to_nat pos) (wf_data f1)) in *.
  rewrite (take_app_ge h) by lia. rewrite Ht.
  rewrite (take_app_ge a) by lia. rewrite <- !app_assoc, drop_app_exact by done.
  rewrite (drop_app_ge h) by lia. rewrite Ht, (drop_app_ge a) by lia.
  f_equal. f_equal; [f_equal; lia|]. do 2 f_equal. lia.
Qed.

(** [d'] has the bytes of [d] outside [Q]. *)
Definition agree (Q : Z -> Prop) (d d' : list Z) : Prop :=
  forall i, (i < length d)%nat -> ~ Q (Z.of_nat i) -> d' !! i = d !! i.

#[export] Instance agree_preorder Q : PreOrder (agree Q).
Proof.
  split; [by intros d i|]. intros d d1 d2 Hd Hd' i Hi Hq. rewrite <- Hd by done.
  destruct (lookup_lt_is_Some_2 d i Hi) as [x Hx]. apply Hd'; [|done].
  apply lookup_lt_Some with x. by rewrite Hd.
Qed.

Lemma agree_weaken (Q Q' : Z -> Prop) d d' :
  (forall o, Q o -> Q' o) -> agree Q d d' -> agree Q' d d'.
Proof. intros HQ Hd i Hi Hn. apply Hd; [done|]. naive_solver. Qed.

(** [d'] is [d] outside [Q], and is not shorter. *)
Definition frame (Q : Z -> Prop) (d d' : list Z) : Prop :=
  (length d <= length d')%nat /\ agree Q d d'.

Lemma frame_agree Q d d' : frame Q d d' -> agree Q d d'.
Proof. by intros [_ ?]. Qed.

#[export] Instance frame_preorder Q : PreOrder (frame Q).
Proof.
  split; [by intros d|]. intros d d1 d2 [Hl Hd] [Hl' Hd']. split; [lia|].
  intros i Hi Hq. rewrite Hd' by (try done; lia). by apply Hd.
Qed.

Lemma frame_weaken (Q Q' : Z -> Prop) d d' :
  (forall o, Q o -> Q' o) -> frame Q d d' -> frame Q' d d'.
Proof. intros HQ [Hl Hd]. split; [done|]. intros i Hi Hn. apply Hd; [done|]. naive_solver. Qed.

Definition span (a n : Z) (o : Z) : Prop := a <= o < a + n.

Lemma frame_write pos bs f :
  0 <= pos ->
  frame (span pos (Z.of_nat (length bs))) (wf_data f)
    (wf_data (write_all bs (wseek_start pos f))).
Proof.
  intros Hp. unfold write_all, wseek_start. cbn [wf_data wf_pos].
  set (p := Z.to_nat pos). set (d := wf_data f ++ replicate _ 0).
  assert (Hd : (p <= length d)%nat /\ (length (wf_data f) <= length d)%nat).
  { unfold d. rewrite length_app, length_replicate. lia. }
  assert (Hl : forall i, (i < length (wf_data f))%nat -> wf_data f !! i = d !! i).
  { intros i Hi. unfold d. by rewrite lookup_app_l. }
  split.
  - rewrite !length_app, length_take, length_drop. lia.
  - intros i Hi Hn. unfold span in Hn. rewrite (Hl i Hi).
    destruct (decide (i < p)%nat).
    + rewrite lookup_app_l by (rewrite length_take; lia). by rewrite lookup_take_lt.
    + rewrite lookup_app_r by (rewrite length_take; lia). rewrite length_take.
      rewrite lookup_app_r by lia. rewrite lookup_drop. f_equal. lia.
Qed.

#[export] Hint Rewrite length_write_u8 length_write_u16 length_write_u32 length_write_u64 : pst_len.
#[export] Hint Resolve bytes_write_u8 bytes_write_u16 bytes_write_u32 bytes_write_u64
  bytes_concat_map : pst.
#[export] Hint Resolve read_u8_app read_u16_app read_u32_app read_u64_app rt_read : pst.

Arguments write_u8 : simpl never.
Arguments write_u16 : simpl never.
Arguments write_u32 : simpl never.
Arguments write_u64 : simpl never.
Arguments read_u8 : simpl never.
Arguments read_u16 : simpl never.
Arguments read_u32 : simpl never.
Arguments read_u64 : simpl never.
Arguments read_exact : simpl never.
Arguments with_cursor : simpl never.

(** Bytes of a concatenation of writes. *)
Ltac bytes_tac :=
  repeat first [ assumption | apply bytes_ok_app | apply le_bytes_ok | apply rt_bytes
               | apply bytes_concat_map; intros ].

(** ** Running readers *)

(** Runs the next read of the goal against the bytes a writer produced. *)
Ltac rd_side := first [ assumption | done | lia | solve [auto with pst] ].
Ltac rd_run_step :=
  lazymatch goal with
  | |- rd_bind (rd_ensure _ _) _ _ = _ =>
      rewrite rd_ensure_true by first [apply Z.eqb_refl | reflexivity | lia | assumption]
  | |- rd_bind read_u8 _ (write_u8 ?x ++ ?s) = _ =>
      rewrite (rd_bind_eq _ _ _ x s (read_u8_app x s ltac:(rd_side)))
  | |- rd_bind read_u16 _ (write_u16 ?x ++ ?s) = _ =>
      rewrite (rd_bind_eq _ _ _ x s (read_u16_app x s ltac:(rd_side)))
  | |- rd_bind read_u32 _ (write_u32 ?x ++ ?s) = _ =>
      rewrite (rd_bind_eq _ _ _ x s (read_u32_app x s ltac:(rd_side)))
  | |- rd_bind read_u64 _ (write_u64 ?x ++ ?s) = _ =>
      rewrite (rd_bind_eq _ _ _ x s (read_u64_app x s ltac:(rd_side)))
  | |- rd_bind (read_exact ?n) _ (?l ++ ?s) = _ =>
      rewrite (rd_bind_eq _ _ _ l s (read_exact_app n l s ltac:(rd_side)))
  | |- rd_bind ser_read _ (ser_write ?a ++ ?s) = _ =>
      rewrite (rd_bind_eq _ _ (ser_write a ++ s) a s); [|solve [apply rt_read; rd_side]]
  | |- rd_ret _ _ = _ => unfold rd_ret
  end; cbv beta.
Ltac rd_run := rewrite <- ?app_assoc; repeat rd_run_step.

(** Splits a successful run into its reads. *)
Ltac rd_inv :=
  repeat match goal with
  | H : rd_bind (rd_ensure _ _) _ _ = Ok (_, _) |- _ =>
      apply rd_bind_ok in H; let He := fresh "He" in
      destruct H as (? & ? & He & H); apply rd_ensure_ok in He; destruct He as [He ?]; subst
  | H : rd_bind _ _ _ = Ok (_, _) |- _ =>
      apply rd_bind_ok in H; let Hr := fresh "Hr" in destruct H as (? & ? & Hr & H)
  | H : rd_ret _ _ = Ok (_, _) |- _ => unfold rd_ret in H; inv_ok
  | H : rd_lift _ _ = Ok (_, _) |- _ => apply rd_lift_ok in H as [H ?]; subst
  end.

(** Turns each read of a canonical field into the bytes it consumed. *)
Ltac rd_can_step :=
  match goal with
  | Hs : bytes_ok ?s, H : ?m ?s = Ok (_, _) |- _ =>
      first [ apply read_u8_ok in H; [|exact Hs] | apply read_u16_ok in H; [|exact Hs]
            | apply read_u32_ok in H; [|exact Hs] | apply read_u64_ok in H; [|exact Hs]
            | apply (can_write (A := _)) in H; [|exact Hs] ];
      destruct H as [H ?]; rewrite H in Hs; apply Forall_app in Hs; destruct Hs as [_ Hs]
  end.

(** [Cursor::new([0_u8; n])] after the writes [bs]: the bytes not reached
    stay zero, a write past the end fails. *)
Definition fixed_buffer (n : nat) (bs : list Z) : io_result (list Z) :=
  if (length bs <=? n)%nat then Ok (bs ++ replicate (n - length bs) 0) else Err WriteZero.

(** [Cursor::new(vec![0_u8; n])] after the writes [bs]: the vector grows when
    it is too short. *)
Definition vec_buffer (n : nat) (bs : list Z) : list Z := bs ++ replicate (n - length bs) 0.

Lemma vec_buffer_exact n bs : length bs = n -> vec_buffer n bs = bs.
Proof. intros <-. unfold vec_buffer. by rewrite Nat.sub_diag, app_nil_r. Qed.

Lemma fixed_buffer_exact n bs : length bs = n -> fixed_buffer n bs = Ok bs.
Proof.
  intros <-. unfold fixed_buffer. rewrite Nat.leb_refl, Nat.sub_diag. cbn [replicate].
  by rewrite app_nil_r.
Qed.

Lemma fixed_buffer_length n bs b : fixed_buffer n bs = Ok b -> length b = n.
Proof.
  unfold fixed_buffer. destruct (Nat.leb_spec (length bs) n); [|done]. intros [= <-].
  rewrite length_app, length_replicate. lia.
Qed.

Lemma with_cursor_eq {A} buf (m : reader A) s a u : m buf = Ok (a, u) -> with_cursor buf m s = Ok (a, s).
Proof. unfold with_cursor. by intros ->. Qed.

Lemma rd_repeat_u32_app l s :
  Forall (uint 32) l -> rd_repeat (length l) read_u32 (concat (map write_u32 l) ++ s) = Ok (l, s).
Proof.
  intros H. apply rd_repeat_app. intros a t Ha. apply read_u32_app.
  rewrite Forall_forall in H. auto.
Qed.

Lemma take_app_prefix {A} (l k : list A) n m :
  length l = m -> (m <= n)%nat -> take n (l ++ k) = l ++ take (n - m) k.
Proof. intros <- H. by rewrite take_app, take_ge by done. Qed.
