(* ===== verification/Encode.v ===== *)
(** * Data-block encodings

    [encode/mod.rs], [encode/permute.rs] and [encode/cyclic.rs]: the key
    table and the two byte ciphers of data blocks.  The decoder undoes the
    encoder on every string of bytes and for every key. *)
From S2P Require Import Prelude.

(** ** [encode/mod.rs] *)

Definition KEY_DATA : list Z := [
  65; 54; 19; 98; 168; 33; 110; 187; 244; 22; 204; 4; 127; 100; 232; 93; 30; 242; 203; 42;
  116; 197; 94; 53; 210; 149; 71; 158; 150; 45; 154; 136; 76; 125; 132; 63; 219; 172; 49; 182;
  72; 95; 246; 196; 216; 57; 139; 231; 35; 59; 56; 142; 200; 193; 223; 37; 177; 32; 165; 70;
  96; 78; 156; 251; 170; 211; 86; 81; 69; 124; 85; 0; 7; 201; 43; 157; 133; 155; 9; 160;
  143; 173; 179; 15; 99; 171; 137; 75; 215; 167; 21; 90; 113; 102; 66; 191; 38; 74; 107; 152;
  250; 234; 119; 83; 178; 112; 5; 44; 253; 89; 58; 134; 126; 206; 6; 235; 130; 120; 87; 199;
  141; 67; 175; 180; 28; 212; 91; 205; 226; 233; 39; 79; 195; 8; 114; 128; 207; 176; 239; 245;
  40; 109; 190; 48; 77; 52; 146; 213; 14; 60; 34; 50; 229; 228; 249; 159; 194; 209; 10; 129;
  18; 225; 238; 145; 131; 118; 227; 151; 230; 97; 138; 23; 121; 164; 183; 220; 144; 122; 92; 140;
  2; 166; 202; 105; 222; 80; 26; 17; 147; 185; 82; 135; 88; 252; 237; 29; 55; 73; 27; 106;
  224; 41; 51; 153; 189; 108; 217; 148; 243; 64; 84; 111; 240; 198; 115; 184; 214; 62; 101; 24;
  68; 31; 221; 103; 16; 241; 12; 25; 236; 174; 3; 161; 20; 123; 169; 11; 255; 248; 163; 192;
  162; 1; 247; 46; 188; 36; 104; 117; 13; 254; 186; 47; 181; 208; 218; 61; 20; 83; 15; 86;
  179; 200; 122; 156; 235; 101; 72; 23; 22; 21; 159; 2; 204; 84; 124; 131; 0; 13; 12; 11;
  162; 98; 168; 118; 219; 217; 237; 199; 197; 164; 220; 172; 133; 116; 214; 208; 167; 155; 174; 154;
  150; 113; 102; 195; 99; 153; 184; 221; 115; 146; 142; 132; 125; 165; 94; 209; 93; 147; 177; 87;
  81; 80; 128; 137; 82; 148; 79; 78; 10; 107; 188; 141; 127; 110; 71; 70; 65; 64; 68; 1;
  17; 203; 3; 63; 247; 244; 225; 169; 143; 60; 58; 249; 251; 240; 25; 48; 130; 9; 46; 201;
  157; 160; 134; 73; 238; 111; 77; 109; 196; 45; 129; 52; 37; 135; 27; 136; 170; 252; 6; 161;
  18; 56; 253; 76; 66; 114; 100; 19; 55; 36; 106; 117; 119; 67; 255; 230; 180; 75; 54; 92;
  228; 216; 53; 61; 69; 185; 44; 236; 183; 49; 43; 41; 7; 104; 163; 14; 105; 123; 24; 158;
  33; 57; 190; 40; 26; 91; 120; 245; 35; 202; 42; 176; 175; 62; 254; 4; 140; 231; 229; 152;
  50; 149; 211; 246; 74; 232; 166; 234; 233; 243; 213; 47; 112; 32; 242; 31; 5; 103; 173; 85;
  16; 206; 205; 227; 39; 59; 218; 186; 215; 194; 38; 212; 145; 29; 210; 28; 34; 51; 248; 250;
  241; 90; 239; 207; 144; 182; 139; 181; 189; 192; 191; 8; 151; 30; 108; 226; 97; 224; 198; 193;
  89; 171; 187; 88; 222; 95; 223; 96; 121; 126; 178; 138; 71; 241; 180; 230; 11; 106; 114; 72;
  133; 78; 158; 235; 226; 248; 148; 83; 224; 187; 160; 2; 232; 90; 9; 171; 219; 227; 186; 198;
  124; 195; 16; 221; 57; 5; 150; 48; 245; 55; 96; 130; 140; 201; 19; 74; 107; 29; 243; 251;
  143; 38; 151; 202; 145; 23; 1; 196; 50; 45; 110; 49; 149; 255; 217; 35; 209; 0; 94; 121;
  220; 68; 59; 26; 40; 197; 97; 87; 32; 144; 61; 131; 185; 67; 190; 103; 210; 70; 66; 118;
  192; 109; 91; 126; 178; 15; 22; 41; 60; 169; 3; 84; 13; 218; 93; 223; 246; 183; 199; 98;
  205; 141; 6; 211; 105; 92; 134; 214; 20; 247; 165; 102; 117; 172; 177; 233; 69; 33; 112; 12;
  135; 159; 116; 164; 34; 76; 111; 191; 31; 86; 170; 46; 179; 120; 51; 80; 176; 163; 146; 188;
  207; 25; 28; 167; 99; 203; 30; 77; 62; 75; 27; 155; 79; 231; 240; 238; 173; 58; 181; 89;
  4; 234; 64; 85; 37; 81; 229; 122; 137; 56; 104; 82; 123; 252; 39; 174; 215; 189; 250; 7;
  244; 204; 142; 95; 239; 53; 156; 132; 43; 21; 213; 119; 52; 73; 182; 18; 10; 127; 113; 136;
  253; 157; 24; 65; 125; 147; 216; 88; 44; 206; 254; 36; 175; 222; 184; 54; 200; 161; 128; 166;
  153; 152; 168; 47; 14; 129; 101; 115; 228; 194; 162; 138; 212; 225; 17; 208; 8; 139; 42; 242;
  237; 154; 100; 63; 193; 108; 249; 236].

Definition key_data_r : list Z := take 256 KEY_DATA.
Definition key_data_s : list Z := take 256 (drop 256 KEY_DATA).
Definition key_data_i : list Z := drop 512 KEY_DATA.

(** [table[b as usize]] for a byte [b] and a table of 256 entries. *)
Definition key_at (table : list Z) (b : Z) : Z := nth (Z.to_nat b) table 0.

(** ** [encode/permute.rs] *)

Module permute.

Definition permute (data : list Z) (table : list Z) : list Z := map (key_at table) data.
Definition encode_block (data : list Z) : list Z := permute data key_data_r.
Definition decode_block (data : list Z) : list Z := permute data key_data_i.

End permute.

(** ** [encode/cyclic.rs] *)

Module cyclic.

(** The loop body: the key is the 16-bit running key. *)
Definition encode_byte (key b : Z) : Z :=
  let low_key := wrap 8 key in
  let high_key := wrap 8 (Z.shiftr key 8) in
  let b := wrapping_add 8 b low_key in
  let b := key_at key_data_r b in
  let b := wrapping_add 8 b high_key in
  let b := key_at key_data_s b in
  let b := wrapping_sub 8 b high_key in
  let b := key_at key_data_i b in
  wrapping_sub 8 b low_key.

Fixpoint encode_loop (data : list Z) (key : Z) : list Z :=
  match data with
  | [] => []
  | b :: data => encode_byte key b :: encode_loop data (wrapping_add 16 key 1)
  end.

Definition encode_decode_block (data : list Z) (key : Z) : list Z :=
  encode_loop data (wrap 16 (Z.lxor key (Z.shiftr key 16))).

End cyclic.

(** ** The tables *)

Definition byte_range : list Z := seqZ 0 256.

Lemma byte_in_range b : byte_ok b -> b ∈ byte_range.
Proof. intros [? ?]. apply elem_of_seqZ. unfold byte_ok, uint in *. lia. Qed.

(** A decidable property of bytes, checked on the 256 of them. *)
Lemma forall_bytes (P : Z -> bool) :
  forallb P byte_range = true -> forall b, byte_ok b -> P b = true.
Proof.
  intros H b Hb%byte_in_range. rewrite forallb_forall in H. apply H.
  by apply list_elem_of_In.
Qed.

Lemma key_tables_inverse b :
  byte_ok b ->
  key_at key_data_i (key_at key_data_r b) = b /\
  key_at key_data_r (key_at key_data_i b) = b /\
  key_at key_data_s (key_at key_data_s b) = b.
Proof.
  intros Hb.
  pose proof (forall_bytes (fun b =>
    (key_at key_data_i (key_at key_data_r b) =? b) &&
    (key_at key_data_r (key_at key_data_i b) =? b) &&
    (key_at key_data_s (key_at key_data_s b) =? b)) ltac:(vm_compute; done) b Hb) as H.
  cbv beta in H. zb. done.
Qed.

Lemma key_tables_bytes b :
  byte_ok b ->
  byte_ok (key_at key_data_r b) /\ byte_ok (key_at key_data_s b) /\ byte_ok (key_at key_data_i b).
Proof.
  intros Hb.
  pose proof (forall_bytes (fun b =>
    uint_b 8 (key_at key_data_r b) && uint_b 8 (key_at key_data_s b) &&
    uint_b 8 (key_at key_data_i b)) ltac:(vm_compute; done) b Hb) as H.
  cbv beta in H. rewrite !andb_true_iff, !uint_b_spec in H. destruct H as [[? ?] ?]. done.
Qed.

#[local] Opaque key_data_r key_data_s key_data_i.

Lemma wrap8_ok x : byte_ok (wrap 8 x).
Proof. by apply wrap_uint. Qed.

Lemma add_sub_byte b k : byte_ok b -> wrapping_sub 8 (wrapping_add 8 b k) k = b.
Proof.
  intros Hb. unfold wrapping_sub, wrapping_add, wrap. rewrite Zminus_mod_idemp_l.
  replace (b + k - k) with b by lia. by apply Z.mod_small.
Qed.

Lemma sub_add_byte b k : byte_ok b -> wrapping_add 8 (wrapping_sub 8 b k) k = b.
Proof.
  intros Hb. unfold wrapping_sub, wrapping_add, wrap. rewrite Zplus_mod_idemp_l.
  replace (b - k + k) with b by lia. by apply Z.mod_small.
Qed.

Lemma encode_byte_ok key b : byte_ok (cyclic.encode_byte key b).
Proof. apply wrap8_ok. Qed.

Lemma encode_byte_involutive key b :
  byte_ok b -> cyclic.encode_byte key (cyclic.encode_byte key b) = b.
Proof.
  intros Hb. unfold cyclic.encode_byte.
  set (lo := wrap 8 key). set (hi := wrap 8 (Z.shiftr key 8)).
  assert (forall x, byte_ok (wrapping_add 8 x lo) /\ byte_ok (wrapping_add 8 x hi) /\
    byte_ok (wrapping_sub 8 x hi)) as Hw by (repeat split; apply wrap8_ok).
  destruct (key_tables_bytes (wrapping_add 8 b lo)) as (Hr & _ & _); [apply Hw|].
  set (r := key_at key_data_r _) in *.
  destruct (key_tables_bytes (wrapping_add 8 r hi)) as (_ & Hs & _); [apply Hw|].
  set (s := key_at key_data_s _) in *.
  destruct (key_tables_bytes (wrapping_sub 8 s hi)) as (_ & _ & Hi); [apply Hw|].
  rewrite sub_add_byte by done.
  destruct (key_tables_inverse (wrapping_sub 8 s hi)) as (_ & -> & _); [apply Hw|].
  rewrite sub_add_byte by done. subst s.
  destruct (key_tables_inverse (wrapping_add 8 r hi)) as (_ & _ & ->); [apply Hw|].
  rewrite add_sub_byte by done. subst r.
  destruct (key_tables_inverse (wrapping_add 8 b lo)) as (-> & _ & _); [apply Hw|].
  by apply add_sub_byte.
Qed.

Lemma encode_loop_involutive data key :
  bytes_ok data -> cyclic.encode_loop (cyclic.encode_loop data key) key = data.
Proof.
  intros Hd. revert key. induction Hd as [|b data Hb _ IH]; intros key; [done|].
  cbn [cyclic.encode_loop]. by rewrite encode_byte_involutive, IH.
Qed.

Lemma length_encode_decode_block data key :
  length (cyclic.encode_decode_block data key) = length data.
Proof.
  unfold cyclic.encode_decode_block. generalize (wrap 16 (Z.lxor key (Z.shiftr key 16))).
  induction data as [|b data IH]; intros k; [done|]. cbn. by rewrite IH.
Qed.

Lemma encode_decode_block_ok data key : bytes_ok (cyclic.encode_decode_block data key).
Proof.
  unfold cyclic.encode_decode_block. generalize (wrap 16 (Z.lxor key (Z.shiftr key 16))).
  induction data as [|b data IH]; intros k; cbn; constructor; [apply encode_byte_ok|apply IH].
Qed.

Lemma length_permute data table : length (permute.permute data table) = length data.
Proof. apply length_map. Qed.

Lemma permute_encode_ok data : bytes_ok data -> bytes_ok (permute.encode_block data).
Proof.
  intros Hd. unfold permute.encode_block, permute.permute. apply Forall_map.
  eapply Forall_impl; [exact Hd|]. intros b Hb. by apply key_tables_bytes.
Qed.

Lemma permute_decode_ok data : bytes_ok data -> bytes_ok (permute.decode_block data).
Proof.
  intros Hd. unfold permute.decode_block, permute.permute. apply Forall_map.
  eapply Forall_impl; [exact Hd|]. intros b Hb. by apply key_tables_bytes.
Qed.

Lemma permute_decode_encode data :
  bytes_ok data -> permute.decode_block (permute.encode_block data) = data.
Proof.
  intros Hd. unfold permute.decode_block, permute.encode_block, permute.permute.
  rewrite map_map. induction Hd as [|b data Hb _ IH]; [done|].
  cbn. by rewrite IH, (proj1 (key_tables_inverse b Hb)).
Qed.

Lemma permute_encode_decode data :
  bytes_ok data -> permute.encode_block (permute.decode_block data) = data.
Proof.
  intros Hd. unfold permute.decode_block, permute.encode_block, permute.permute.
  rewrite map_map. induction Hd as [|b data Hb _ IH]; [done|].
  cbn. by rewrite IH, (proj1 (proj2 (key_tables_inverse b Hb))).
Qed.

(** ** Properties *)

(** The permutation decoder and encoder are inverse to each other on
    every string of bytes. *)
Theorem permute_inverse (data : list Z) (Hd : bytes_ok data) :
  permute.decode_block (permute.encode_block data) = data /\
  permute.encode_block (permute.decode_block data) = data.
Proof. split; [by apply permute_decode_encode|by apply permute_encode_decode]. Qed.

Lemma permute_inverse_witness :
  permute.encode_block [72; 105; 0; 255] = [7; 112; 65; 61] /\
  permute.decode_block (permute.encode_block [72; 105; 0; 255]) = [72; 105; 0; 255].
Proof.
  split; [vm_compute; reflexivity|]. apply permute_inverse.
  repeat constructor; vm_compute; done.
Defined.

(** The cyclic cipher is its own inverse, for every 32-bit key and every
    string of bytes. *)
Theorem cyclic_involutive (data : list Z) (key : Z) (Hd : bytes_ok data) :
  cyclic.encode_decode_block (cyclic.encode_decode_block data key) key = data.
Proof. by apply encode_loop_involutive. Qed.

Lemma cyclic_involutive_witness :
  cyclic.encode_decode_block
    (cyclic.encode_decode_block [72; 101; 108; 108; 111] 0x12345678) 0x12345678
  = [72; 101; 108; 108; 111].
Proof. apply cyclic_involutive. repeat constructor; vm_compute; done. Defined.

#[export] Hint Resolve permute_encode_ok permute_decode_ok encode_decode_block_ok : pst.
