(* ===== verification/Ids.v ===== *)
(** * Identifiers

    [block_sig.rs], [ndb/node_id.rs], [ndb/block_id.rs],
    [ndb/byte_index.rs] and [ndb/block_ref.rs]: the signature of blocks and
    pages, node ids, block and page ids, file offsets and the references
    that pair an id with an offset, in their Unicode (64-bit) and ANSI
    (32-bit) forms.  [BlockId] is the trait of the same name; the [Serial],
    [RoundTrip] and [Canonical] instances are the [BlockIdReadWrite],
    [ByteIndexReadWrite] and [BlockRefReadWrite] implementations and their
    laws. *)
From S2P Require Import Prelude Errors Io.

(** ** [block_sig.rs] *)

Definition compute_sig (index block_id : Z) : Z :=
  let value := Z.lxor index block_id in
  Z.lxor (wrap 16 (Z.shiftr value 16)) (wrap 16 value).

(** ** [ndb/node_id.rs] *)

Inductive NodeIdType :=
| HeapNode | Internal | NormalFolder | SearchFolder | NormalMessage | Attachment
| SearchUpdateQueue | SearchCriteria | AssociatedMessage | OleObjectData
| ContentsTableIndex | ReceiveFolderTable | OutgoingQueueTable | HierarchyTable
| ContentsTable | AssociatedContentsTable | SearchContentsTable | AttachmentTable
| RecipientTable | SearchTableIndex | ListsTablesProperties.

(** [id_type as u8]: the discriminants. *)
Definition NodeIdType_as_u8 (t : NodeIdType) : Z :=
  match t with
  | HeapNode => 0x00 | Internal => 0x01 | NormalFolder => 0x02 | SearchFolder => 0x03
  | NormalMessage => 0x04 | Attachment => 0x05 | SearchUpdateQueue => 0x06
  | SearchCriteria => 0x07 | AssociatedMessage => 0x08 | OleObjectData => 0x09
  | ContentsTableIndex => 0x0A | ReceiveFolderTable => 0x0B | OutgoingQueueTable => 0x0C
  | HierarchyTable => 0x0D | ContentsTable => 0x0E | AssociatedContentsTable => 0x0F
  | SearchContentsTable => 0x10 | AttachmentTable => 0x11 | RecipientTable => 0x12
  | SearchTableIndex => 0x13 | ListsTablesProperties => 0x1F
  end.

(** [impl TryFrom<NodeIdType> for usize]. *)
Definition usize_try_from_NodeIdType (value : NodeIdType) : NdbResult Z :=
  let index := NodeIdType_as_u8 value in
  if 0x1F <? index then Err (InvalidNodeIdType index) else Ok index.

(** [impl TryFrom<u8> for NodeIdType]. *)
Definition NodeIdType_try_from (value : Z) : NdbResult NodeIdType :=
  match value with
  | 0x00 => Ok HeapNode | 0x01 => Ok Internal | 0x02 => Ok NormalFolder
  | 0x03 => Ok SearchFolder | 0x04 => Ok NormalMessage | 0x05 => Ok Attachment
  | 0x06 => Ok SearchUpdateQueue | 0x07 => Ok SearchCriteria
  | 0x08 => Ok AssociatedMessage | 0x09 => Ok OleObjectData
  | 0x0A => Ok ContentsTableIndex | 0x0B => Ok ReceiveFolderTable
  | 0x0C => Ok OutgoingQueueTable | 0x0D => Ok HierarchyTable
  | 0x0E => Ok ContentsTable | 0x0F => Ok AssociatedContentsTable
  | 0x10 => Ok SearchContentsTable | 0x11 => Ok AttachmentTable
  | 0x12 => Ok RecipientTable | 0x13 => Ok SearchTableIndex
  | 0x1F => Ok ListsTablesProperties
  | _ => Err (InvalidNodeIdType value)
  end.

Definition MAX_NODE_INDEX : Z := rotate_right 32 1 5 - 1.

Module NodeId.

Definition new (id_type : NodeIdType) (index : Z) : NdbResult NodeId :=
  let id_type := NodeIdType_as_u8 id_type in
  if negb (Z.shiftr id_type 5 =? 0) then Err (InvalidNodeIdType id_type) else
  let shifted_index := rotate_left 32 index 5 in
  if negb (Z.land shifted_index 0x1F =? 0) then Err (InvalidNodeIndex index) else
  Ok (mk_NodeId (Z.lor shifted_index id_type)).

Definition id_type (n : NodeId) : NdbResult NodeIdType :=
  NodeIdType_try_from (Z.land (node_id_0 n) 0x1F).

Definition index (n : NodeId) : Z := Z.shiftr (node_id_0 n) 5.

Definition read : reader NodeId := value <- read_u32;; rd_ret (mk_NodeId value).
Definition write (n : NodeId) : list Z := write_u32 (node_id_0 n).

End NodeId.

Definition NID_MESSAGE_STORE : NodeId := mk_NodeId 0x21.
Definition NID_NAME_TO_ID_MAP : NodeId := mk_NodeId 0x61.
Definition NID_NORMAL_FOLDER_TEMPLATE : NodeId := mk_NodeId 0xA1.
Definition NID_SEARCH_FOLDER_TEMPLATE : NodeId := mk_NodeId 0xC1.
Definition NID_ROOT_FOLDER : NodeId := mk_NodeId 0x122.
Definition NID_SEARCH_MANAGEMENT_QUEUE : NodeId := mk_NodeId 0x1E1.
Definition NID_SEARCH_ACTIVITY_LIST : NodeId := mk_NodeId 0x201.
Definition NID_RESERVED1 : NodeId := mk_NodeId 0x241.
Definition NID_SEARCH_DOMAIN_OBJECT : NodeId := mk_NodeId 0x261.
Definition NID_SEARCH_GATHERER_QUEUE : NodeId := mk_NodeId 0x281.
Definition NID_SEARCH_GATHERER_DESCRIPTOR : NodeId := mk_NodeId 0x2A1.
Definition NID_RESERVED2 : NodeId := mk_NodeId 0x2E1.
Definition NID_RESERVED3 : NodeId := mk_NodeId 0x301.
Definition NID_SEARCH_GATHERER_FOLDER_QUEUE : NodeId := mk_NodeId 0x321.

#[export] Instance NodeId_serial : Serial NodeId := {|
  ser_read := NodeId.read;
  ser_write := NodeId.write;
  ser_wf n := uint 32 (node_id_0 n);
  ser_size := 4
|}.

(** ** [ndb/block_id.rs] *)

(** The trait: [into_u64] is [u64::from] of the id. *)
Class BlockId (B : Type) := {
  bid_into_u64 : B -> Z;
  bid_is_internal : B -> bool;
  bid_index : B -> Z;
  bid_search_key : B -> Z;
  bid_next : B -> NdbResult B;
  bid_default : B;
  bid_serial :: Serial B
}.

Definition MAX_UNICODE_BLOCK_INDEX : Z := rotate_right 64 1 2 - 1.
Definition MAX_ANSI_BLOCK_INDEX : Z := rotate_right 32 1 2 - 1.

Record UnicodeBlockId := mk_UnicodeBlockId { unicode_block_id_0 : Z }.

Module UnicodeBlockId.

Definition new (is_internal : bool) (index : Z) : NdbResult UnicodeBlockId :=
  let is_internal := if is_internal then 0x2 else 0x0 in
  let shifted_index := rotate_left 64 index 2 in
  if negb (Z.land shifted_index 0x3 =? 0) then Err (InvalidUnicodeBlockIndex index) else
  Ok (mk_UnicodeBlockId (Z.lor shifted_index is_internal)).

Definition is_internal (b : UnicodeBlockId) : bool := Z.land (unicode_block_id_0 b) 0x2 =? 0x2.
Definition index (b : UnicodeBlockId) : Z := Z.shiftr (unicode_block_id_0 b) 2.
Definition search_key (b : UnicodeBlockId) : Z := Z.land (unicode_block_id_0 b) (lnot_w 64 0x1).
Definition next (b : UnicodeBlockId) : NdbResult UnicodeBlockId :=
  new (is_internal b) (wrapping_add 64 (index b) 1).
Definition read : reader UnicodeBlockId := value <- read_u64;; rd_ret (mk_UnicodeBlockId value).
Definition write (b : UnicodeBlockId) : list Z := write_u64 (unicode_block_id_0 b).

End UnicodeBlockId.

Record UnicodePageId := mk_UnicodePageId { unicode_page_id_0 : Z }.

Module UnicodePageId.

Definition is_internal (p : UnicodePageId) : bool := false.
Definition index (p : UnicodePageId) : Z := unicode_page_id_0 p.
Definition search_key (p : UnicodePageId) : Z := unicode_page_id_0 p.
Definition next (p : UnicodePageId) : NdbResult UnicodePageId :=
  Ok (mk_UnicodePageId (wrapping_add 64 (unicode_page_id_0 p) 1)).
Definition read : reader UnicodePageId := value <- read_u64;; rd_ret (mk_UnicodePageId value).
Definition write (p : UnicodePageId) : list Z := write_u64 (unicode_page_id_0 p).

End UnicodePageId.

Record AnsiBlockId := mk_AnsiBlockId { ansi_block_id_0 : Z }.

Module AnsiBlockId.

Definition new (is_internal : bool) (index : Z) : NdbResult AnsiBlockId :=
  let is_internal := if is_internal then 0x2 else 0x0 in
  let shifted_index := rotate_left 32 index 2 in
  if negb (Z.land shifted_index 0x3 =? 0) then Err (InvalidAnsiBlockIndex index) else
  Ok (mk_AnsiBlockId (Z.lor shifted_index is_internal)).

Definition is_internal (b : AnsiBlockId) : bool := Z.land (ansi_block_id_0 b) 0x2 =? 0x2.
Definition index (b : AnsiBlockId) : Z := Z.shiftr (ansi_block_id_0 b) 2.
Definition search_key (b : AnsiBlockId) : Z := Z.land (ansi_block_id_0 b) (lnot_w 32 0x1).
Definition next (b : AnsiBlockId) : NdbResult AnsiBlockId :=
  new (is_internal b) (wrapping_add 32 (index b) 1).
Definition read : reader AnsiBlockId := value <- read_u32;; rd_ret (mk_AnsiBlockId value).
Definition write (b : AnsiBlockId) : list Z := write_u32 (ansi_block_id_0 b).

End AnsiBlockId.

Record AnsiPageId := mk_AnsiPageId { ansi_page_id_0 : Z }.

Module AnsiPageId.

Definition is_internal (p : AnsiPageId) : bool := false.
Definition index (p : AnsiPageId) : Z := ansi_page_id_0 p.
Definition search_key (p : AnsiPageId) : Z := ansi_page_id_0 p.
Definition next (p : AnsiPageId) : NdbResult AnsiPageId :=
  Ok (mk_AnsiPageId (wrapping_add 32 (ansi_page_id_0 p) 1)).
Definition read : reader AnsiPageId := value <- read_u32;; rd_ret (mk_AnsiPageId value).
Definition write (p : AnsiPageId) : list Z := write_u32 (ansi_page_id_0 p).

End AnsiPageId.

#[export] Instance UnicodeBlockId_block_id : BlockId UnicodeBlockId := {|
  bid_into_u64 := unicode_block_id_0;
  bid_is_internal := UnicodeBlockId.is_internal;
  bid_index := UnicodeBlockId.index;
  bid_search_key := UnicodeBlockId.search_key;
  bid_next := UnicodeBlockId.next;
  bid_default := mk_UnicodeBlockId 0;
  bid_serial := {|
    ser_read := UnicodeBlockId.read;
    ser_write := UnicodeBlockId.write;
    ser_wf b := uint 64 (unicode_block_id_0 b);
    ser_size := 8 |}
|}.

#[export] Instance UnicodePageId_block_id : BlockId UnicodePageId := {|
  bid_into_u64 := unicode_page_id_0;
  bid_is_internal := UnicodePageId.is_internal;
  bid_index := UnicodePageId.index;
  bid_search_key := UnicodePageId.search_key;
  bid_next := UnicodePageId.next;
  bid_default := mk_UnicodePageId 0;
  bid_serial := {|
    ser_read := UnicodePageId.read;
    ser_write := UnicodePageId.write;
    ser_wf b := uint 64 (unicode_page_id_0 b);
    ser_size := 8 |}
|}.

#[export] Instance AnsiBlockId_block_id : BlockId AnsiBlockId := {|
  bid_into_u64 := ansi_block_id_0;
  bid_is_internal := AnsiBlockId.is_internal;
  bid_index := AnsiBlockId.index;
  bid_search_key := AnsiBlockId.search_key;
  bid_next := AnsiBlockId.next;
  bid_default := mk_AnsiBlockId 0;
  bid_serial := {|
    ser_read := AnsiBlockId.read;
    ser_write := AnsiBlockId.write;
    ser_wf b := uint 32 (ansi_block_id_0 b);
    ser_size := 4 |}
|}.

#[export] Instance AnsiPageId_block_id : BlockId AnsiPageId := {|
  bid_into_u64 := ansi_page_id_0;
  bid_is_internal := AnsiPageId.is_internal;
  bid_index := AnsiPageId.index;
  bid_search_key := AnsiPageId.search_key;
  bid_next := AnsiPageId.next;
  bid_default := mk_AnsiPageId 0;
  bid_serial := {|
    ser_read := AnsiPageId.read;
    ser_write := AnsiPageId.write;
    ser_wf b := uint 32 (ansi_page_id_0 b);
    ser_size := 4 |}
|}.

(** ** [ndb/byte_index.rs] *)

Class ByteIndex (I : Type) := {
  bi_index : I -> Z;
  bi_new : Z -> I;
  bi_serial :: Serial I
}.

Record UnicodeByteIndex := mk_UnicodeByteIndex { unicode_byte_index_0 : Z }.

Module UnicodeByteIndex.
Definition new (index : Z) : UnicodeByteIndex := mk_UnicodeByteIndex index.
Definition index (i : UnicodeByteIndex) : Z := unicode_byte_index_0 i.
Definition read : reader UnicodeByteIndex := value <- read_u64;; rd_ret (mk_UnicodeByteIndex value).
Definition write (i : UnicodeByteIndex) : list Z := write_u64 (unicode_byte_index_0 i).
End UnicodeByteIndex.

Record AnsiByteIndex := mk_AnsiByteIndex { ansi_byte_index_0 : Z }.

Module AnsiByteIndex.
Definition new (index : Z) : AnsiByteIndex := mk_AnsiByteIndex index.
Definition index (i : AnsiByteIndex) : Z := ansi_byte_index_0 i.
Definition read : reader AnsiByteIndex := value <- read_u32;; rd_ret (mk_AnsiByteIndex value).
Definition write (i : AnsiByteIndex) : list Z := write_u32 (ansi_byte_index_0 i).
End AnsiByteIndex.

#[export] Instance UnicodeByteIndex_byte_index : ByteIndex UnicodeByteIndex := {|
  bi_index := UnicodeByteIndex.index;
  bi_new := UnicodeByteIndex.new;
  bi_serial := {|
    ser_read := UnicodeByteIndex.read;
    ser_write := UnicodeByteIndex.write;
    ser_wf i := uint 64 (unicode_byte_index_0 i);
    ser_size := 8 |}
|}.

#[export] Instance AnsiByteIndex_byte_index : ByteIndex AnsiByteIndex := {|
  bi_index := AnsiByteIndex.index;
  bi_new := AnsiByteIndex.new;
  bi_serial := {|
    ser_read := AnsiByteIndex.read;
    ser_write := AnsiByteIndex.write;
    ser_wf i := uint 32 (ansi_byte_index_0 i);
    ser_size := 4 |}
|}.

(** ** [ndb/block_ref.rs] *)

(** The four reference structs are a pair of an id and a byte index. *)
Record BlockRef (B I : Type) := mk_BlockRef { bref_block : B; bref_index : I }.
Arguments mk_BlockRef {B I}.
Arguments bref_block {B I}.
Arguments bref_index {B I}.

Definition UnicodeBlockRef : Type := BlockRef UnicodeBlockId UnicodeByteIndex.
Definition UnicodePageRef : Type := BlockRef UnicodePageId UnicodeByteIndex.
Definition AnsiBlockRef : Type := BlockRef AnsiBlockId AnsiByteIndex.
Definition AnsiPageRef : Type := BlockRef AnsiPageId AnsiByteIndex.

(** [BlockRefReadWrite]'s provided methods. *)
Module BlockRef.
Section BlockRef.
Context {B I : Type} `{!BlockId B, !ByteIndex I}.
Definition read : reader (BlockRef B I) :=
  block <- ser_read;; index <- ser_read;; rd_ret (mk_BlockRef block index).
Definition write (r : BlockRef B I) : list Z :=
  ser_write (bref_block r) ++ ser_write (bref_index r).
End BlockRef.
End BlockRef.

#[export] Instance BlockRef_serial {B I} `{!BlockId B, !ByteIndex I} : Serial (BlockRef B I) := {|
  ser_read := BlockRef.read;
  ser_write := BlockRef.write;
  ser_wf r := ser_wf (bref_block r) /\ ser_wf (bref_index r);
  ser_size := ser_size (A := B) + ser_size (A := I)
|}.

#[export] Instance UnicodeBlockId_eq_dec : EqDecision UnicodeBlockId.
Proof. solve_decision. Defined.
#[export] Instance UnicodePageId_eq_dec : EqDecision UnicodePageId.
Proof. solve_decision. Defined.
#[export] Instance AnsiBlockId_eq_dec : EqDecision AnsiBlockId.
Proof. solve_decision. Defined.
#[export] Instance AnsiPageId_eq_dec : EqDecision AnsiPageId.
Proof. solve_decision. Defined.

(** ** Codec laws *)

(** Proves the laws of a newtype over one little-endian word. *)
Ltac word_round_trip :=
  split; cbn;
  [ intros [x] s H; cbn in *; refine (eq_trans (rd_bind_eq _ _ _ x s _) _); [|reflexivity];
    first [by apply read_u32_app|by apply read_u64_app]
  | intros [x]; reflexivity
  | intros [x]; apply le_bytes_ok ].
Ltac word_canonical :=
  split; cbn; intros [x] s t Hs H; apply rd_bind_ok in H as (v & u & Hr & H);
  unfold rd_ret in H; simplify_eq;
  first [apply read_u32_ok in Hr|apply read_u64_ok in Hr]; done.

#[export] Instance NodeId_rt : RoundTrip NodeId.
Proof. word_round_trip. Qed.
#[export] Instance UnicodeBlockId_rt : RoundTrip UnicodeBlockId.
Proof. word_round_trip. Qed.
#[export] Instance UnicodePageId_rt : RoundTrip UnicodePageId.
Proof. word_round_trip. Qed.
#[export] Instance AnsiBlockId_rt : RoundTrip AnsiBlockId.
Proof. word_round_trip. Qed.
#[export] Instance AnsiPageId_rt : RoundTrip AnsiPageId.
Proof. word_round_trip. Qed.
#[export] Instance UnicodeByteIndex_rt : RoundTrip UnicodeByteIndex.
Proof. word_round_trip. Qed.
#[export] Instance AnsiByteIndex_rt : RoundTrip AnsiByteIndex.
Proof. word_round_trip. Qed.

#[export] Instance NodeId_can : Canonical NodeId.
Proof. word_canonical. Qed.
#[export] Instance UnicodeBlockId_can : Canonical UnicodeBlockId.
Proof. word_canonical. Qed.
#[export] Instance UnicodePageId_can : Canonical UnicodePageId.
Proof. word_canonical. Qed.
#[export] Instance AnsiBlockId_can : Canonical AnsiBlockId.
Proof. word_canonical. Qed.
#[export] Instance AnsiPageId_can : Canonical AnsiPageId.
Proof. word_canonical. Qed.
#[export] Instance UnicodeByteIndex_can : Canonical UnicodeByteIndex.
Proof. word_canonical. Qed.
#[export] Instance AnsiByteIndex_can : Canonical AnsiByteIndex.
Proof. word_canonical. Qed.

Section block_ref_laws.
Context {B I : Type} `{!BlockId B, !ByteIndex I}.

#[export] Instance BlockRef_rt `{!RoundTrip B, !RoundTrip I} : RoundTrip (BlockRef B I).
Proof.
  split; cbn.
  - intros [b i] s [Hb Hi]; cbn in *. unfold BlockRef.read, BlockRef.write. by rd_run.
  - intros [b i]. unfold BlockRef.write; cbn. by rewrite length_app, !rt_size.
  - intros [b i]. apply bytes_ok_app; apply rt_bytes.
Qed.

#[export] Instance BlockRef_can `{!Canonical B, !Canonical I} : Canonical (BlockRef B I).
Proof.
  split; cbn. intros [b i] s t Hs H. unfold BlockRef.read in H. rd_inv.
  repeat rd_can_step. subst. unfold BlockRef.write; cbn. by rewrite <- app_assoc.
Qed.
End block_ref_laws.

(** ** Node ids *)

Lemma rotate_left_low w x n :
  0 <= n <= w -> uint w x -> Z.land (rotate_left w x n) (Z.ones n) = Z.shiftr x (w - n).
Proof.
  intros Hn Hx. zbits. rename n0 into i. unfold rotate_left, wrap.
  rewrite Z.land_spec, Z.lor_spec, Z.shiftr_spec by done.
  destruct (Z.lt_ge_cases i n).
  - rewrite Z.ones_spec_low by lia. rewrite Z.mod_pow2_bits_low by lia.
    rewrite Z.shiftl_spec, (Z.testbit_neg_r _ (i - n)) by lia. by rewrite andb_true_r.
  - rewrite Z.ones_spec_high, andb_false_r by lia.
    by rewrite (uint_testbit_high w x) by (done || lia).
Qed.

Lemma shiftr_eq_0 w x n : 0 <= n <= w -> uint w x -> Z.shiftr x (w - n) = 0 <-> x < 2 ^ (w - n).
Proof.
  intros Hn [H0 H1]. rewrite Z.shiftr_div_pow2 by lia. split; intros H.
  - apply Z.div_small_iff in H; [lia|]. pose proof (Z.pow_pos_nonneg 2 (w - n)). lia.
  - apply Z.div_small. lia.
Qed.

Lemma rotate_left_small w x n :
  0 <= n <= w -> uint w x -> x < 2 ^ (w - n) -> rotate_left w x n = Z.shiftl x n.
Proof.
  intros Hn [H0 H1] Hlt. unfold rotate_left.
  rewrite (proj2 (shiftr_eq_0 w x n Hn (conj H0 H1)) Hlt), Z.lor_0_r.
  apply wrap_small. rewrite Z.shiftl_mul_pow2 by lia. split; [nia|].
  replace (2 ^ w) with (2 ^ (w - n) * 2 ^ n); [|rewrite <- Z.pow_add_r by lia; f_equal; lia].
  apply Z.mul_lt_mono_pos_r; [lia|done].
Qed.

Lemma shiftl_lor_low x n t :
  0 <= n -> 0 <= x -> uint n t ->
  Z.land (Z.lor (Z.shiftl x n) t) (Z.ones n) = t /\ Z.shiftr (Z.lor (Z.shiftl x n) t) n = x.
Proof.
  intros Hn Hx Ht. split; zbits; rename n0 into i.
  - rewrite Z.land_spec, Z.lor_spec, Z.shiftl_spec by done. destruct (Z.lt_ge_cases i n).
    + rewrite Z.ones_spec_low, (Z.testbit_neg_r _ (i - n)) by lia. by rewrite andb_true_r.
    + by rewrite Z.ones_spec_high, (uint_testbit_high n t), andb_false_r by (done || lia).
  - rewrite Z.shiftr_spec, Z.lor_spec, Z.shiftl_spec by lia.
    rewrite (uint_testbit_high n t) by (done || lia). rewrite orb_false_r. f_equal. lia.
Qed.

Lemma NodeIdType_round t : NodeIdType_try_from (NodeIdType_as_u8 t) = Ok t.
Proof. by destruct t. Qed.

Lemma NodeIdType_uint t : uint 5 (NodeIdType_as_u8 t).
Proof. by destruct t. Qed.

Lemma NodeId_new_ok t i :
  uint 32 i -> i <= MAX_NODE_INDEX ->
  NodeId.new t i = Ok (mk_NodeId (Z.lor (Z.shiftl i 5) (NodeIdType_as_u8 t))).
Proof.
  intros Hi Hmax. change MAX_NODE_INDEX with (2 ^ (32 - 5) - 1) in Hmax.
  unfold NodeId.new.
  assert ((Z.shiftr (NodeIdType_as_u8 t) 5 =? 0) = true) as -> by by destruct t.
  change 0x1F with (Z.ones 5). rewrite rotate_left_low by (done || lia).
  rewrite (proj2 (shiftr_eq_0 32 i 5 ltac:(lia) Hi)) by lia. cbn [negb Z.eqb].
  by rewrite rotate_left_small by (done || lia).
Qed.

Lemma block_id_shift i b :
  0 <= i -> Z.shiftr (Z.lor (Z.shiftl i 2) (if b : bool then 2 else 0)) 2 = i /\
  Z.land (Z.lor (Z.shiftl i 2) (if b : bool then 2 else 0)) 2 = (if b then 2 else 0).
Proof.
  intros Hi. destruct (shiftl_lor_low i 2 (if b then 2 else 0)) as [Hl Hr]; [done..|by destruct b|].
  split; [done|]. apply (f_equal (fun x => Z.land x 2)) in Hl.
  rewrite <- Z.land_assoc in Hl. change (Z.land (Z.ones 2) 2) with 2 in Hl. rewrite Hl. by destruct b.
Qed.

(** Fresh block ids. *)
Lemma unicode_block_id_new (flag : bool) (i : Z) (Hi : uint 64 i) :
  if i <=? MAX_UNICODE_BLOCK_INDEX
  then exists b, UnicodeBlockId.new flag i = Ok b /\
         UnicodeBlockId.is_internal b = flag /\ UnicodeBlockId.index b = i /\
         UnicodeBlockId.search_key b = unicode_block_id_0 b /\
         UnicodeBlockId.next b = UnicodeBlockId.new flag (i + 1)
  else UnicodeBlockId.new flag i = Err (InvalidUnicodeBlockIndex i).
Proof.
  destruct (Z.leb_spec i MAX_UNICODE_BLOCK_INDEX) as [Hmax|Hmax];
    change MAX_UNICODE_BLOCK_INDEX with (2 ^ (64 - 2) - 1) in Hmax;
    unfold UnicodeBlockId.new at 1; change 0x3 with (Z.ones 2);
    rewrite rotate_left_low by (done || lia).
  - rewrite (proj2 (shiftr_eq_0 64 i 2 ltac:(lia) Hi)) by lia. cbn [negb Z.eqb].
    rewrite rotate_left_small by (done || lia). eexists. split; [done|].
    destruct (block_id_shift i flag) as [Hs Hl]; [by destruct Hi|].
    assert (Hix : UnicodeBlockId.index (mk_UnicodeBlockId (Z.lor (Z.shiftl i 2) (if flag then 2 else 0))) = i)
      by done.
    assert (Hin : UnicodeBlockId.is_internal
      (mk_UnicodeBlockId (Z.lor (Z.shiftl i 2) (if flag then 2 else 0))) = flag).
    { unfold UnicodeBlockId.is_internal. cbn [unicode_block_id_0]. rewrite Hl. by destruct flag. }
    split_and!; [done|done| |].
    + assert (uint 62 i) by (destruct Hi; split; lia).
      assert (uint 2 (if flag then 2 else 0)) by (by destruct flag).
      unfold UnicodeBlockId.search_key. cbn [unicode_block_id_0]. zbits.
      rewrite Z.land_spec, testbit_lnot_w by done.
      destruct (Z.ltb_spec n 64); cbn [andb].
      * destruct (Z.eq_dec n 0) as [->|Hn].
        -- rewrite Z.lor_spec, Z.shiftl_spec_low by lia. by destruct flag.
        -- rewrite (Z.bits_above_log2 1 n) by (cbn; lia). apply andb_true_r.
      * rewrite andb_false_r, Z.lor_spec, Z.shiftl_spec by done.
        rewrite (uint_testbit_high 62 i), (uint_testbit_high 2 (if flag then 2 else 0))
          by (done || lia). done.
    + unfold UnicodeBlockId.next. rewrite Hix, Hin. unfold wrapping_add. rewrite wrap_small; [done|].
      destruct Hi. unfold uint. lia.
  - cbn [negb]. destruct (Z.eqb_spec (Z.shiftr i (64 - 2)) 0) as [H|H]; [|done].
    apply shiftr_eq_0 in H; [lia|done..].
Qed.

(** The number of a fresh block id. *)
Lemma unicode_block_id_value flag i b :
  uint 64 i -> UnicodeBlockId.new flag i = Ok b ->
  unicode_block_id_0 b = 4 * i + (if flag then 2 else 0) /\ i < 2 ^ 62.
Proof.
  intros Hi H. pose proof (unicode_block_id_new flag i Hi) as Hn.
  destruct (Z.leb_spec i MAX_UNICODE_BLOCK_INDEX) as [Hmax|]; [|by rewrite H in Hn].
  change MAX_UNICODE_BLOCK_INDEX with (2 ^ 62 - 1) in Hmax. split; [|lia].
  unfold UnicodeBlockId.new in H. change 0x3 with (Z.ones 2) in H.
  rewrite rotate_left_low in H by (done || lia).
  rewrite (proj2 (shiftr_eq_0 64 i 2 ltac:(lia) Hi)) in H by lia. cbn [negb Z.eqb] in H.
  rewrite rotate_left_small in H by (done || (destruct Hi; split; lia) || lia).
  injection H as <-. cbn [unicode_block_id_0].
  assert (Z.land (Z.shiftl i 2) (if flag then 2 else 0) = 0) as Hz.
  { zbits. rewrite Z.land_spec, Z.bits_0. destruct flag; [|by rewrite Z.bits_0, andb_false_r].
    destruct (Z.lt_ge_cases n 2).
    - rewrite Z.shiftl_spec_low by lia. done.
    - rewrite (Z.bits_above_log2 2 n) by (cbn; lia). apply andb_false_r. }
  rewrite <- Z.lxor_lor by done. rewrite <- Z.add_nocarry_lxor by done.
  rewrite Z.shiftl_mul_pow2 by lia. destruct flag; lia.
Qed.

(** ** Properties *)

(** A node id is built exactly for the indices up to [MAX_NODE_INDEX];
    its type and index can then be read back, and an index above the bound
    is reported with its value. *)
Theorem NodeId_new_spec (t : NodeIdType) (i : Z) (Hi : uint 32 i) :
  if i <=? MAX_NODE_INDEX
  then exists n, NodeId.new t i = Ok n /\ NodeId.id_type n = Ok t /\ NodeId.index n = i /\
         uint 32 (node_id_0 n)
  else NodeId.new t i = Err (InvalidNodeIndex i).
Proof.
  destruct (Z.leb_spec i MAX_NODE_INDEX) as [Hmax|Hmax].
  - eexists. split; [by apply NodeId_new_ok|].
    destruct (shiftl_lor_low i 5 (NodeIdType_as_u8 t)) as [Hl Hr];
      [done|by destruct Hi|apply NodeIdType_uint|].
    unfold NodeId.id_type, NodeId.index. cbn [node_id_0]. change 0x1F with (Z.ones 5).
    rewrite Hl, Hr, NodeIdType_round. split_and!; [done..|].
    change MAX_NODE_INDEX with (2 ^ 27 - 1) in Hmax. destruct Hi as [Hi _].
    apply uint_lor; [done| |apply (uint_le 5); [apply NodeIdType_uint|done]].
    rewrite Z.shiftl_mul_pow2 by done. unfold uint. lia.
  - unfold NodeId.new. assert ((Z.shiftr (NodeIdType_as_u8 t) 5 =? 0) = true) as -> by by destruct t.
    change 0x1F with (Z.ones 5). rewrite rotate_left_low by (done || lia). cbn [negb].
    destruct (Z.eqb_spec (Z.shiftr i (32 - 5)) 0) as [H|H]; [|done].
    apply shiftr_eq_0 in H; [|done..]. change MAX_NODE_INDEX with (2 ^ (32 - 5) - 1) in Hmax. lia.
Qed.

Lemma NodeId_new_spec_witness :
  uint 32 0x100 /\ exists n, NodeId.new NormalFolder 0x100 = Ok n /\
    NodeId.id_type n = Ok NormalFolder /\ NodeId.index n = 0x100 /\ uint 32 (node_id_0 n).
Proof. split; [done|]. apply (NodeId_new_spec NormalFolder 0x100). done. Defined.

(** Unicode block ids. A block id is built exactly for the indices up to
    [MAX_UNICODE_BLOCK_INDEX]; the internal flag and the index can be read
    back, the search key of a fresh id is the id itself, and [next] keeps the
    flag and adds one to the index until the index space is exhausted. *)
Theorem UnicodeBlockId_new_spec (flag : bool) (i : Z) (Hi : uint 64 i) :
  if i <=? MAX_UNICODE_BLOCK_INDEX
  then exists b, UnicodeBlockId.new flag i = Ok b /\
         UnicodeBlockId.is_internal b = flag /\ UnicodeBlockId.index b = i /\
         UnicodeBlockId.search_key b = unicode_block_id_0 b /\
         UnicodeBlockId.next b = UnicodeBlockId.new flag (i + 1)
  else UnicodeBlockId.new flag i = Err (InvalidUnicodeBlockIndex i).
Proof. by apply unicode_block_id_new. Qed.

Lemma UnicodeBlockId_new_spec_witness :
  exists b, UnicodeBlockId.new true 5 = Ok b /\
    UnicodeBlockId.is_internal b = true /\ UnicodeBlockId.index b = 5 /\
    UnicodeBlockId.search_key b = unicode_block_id_0 b /\
    UnicodeBlockId.next b = UnicodeBlockId.new true (5 + 1).
Proof. apply (UnicodeBlockId_new_spec true 5). done. Defined.
