(* ===== verification/Header.v ===== *)
(** * Root and header

    [ndb/root.rs], [ndb/header.rs] and the provided methods of
    [RootReadWrite] ([ndb/read_write.rs]): the record of the file-wide
    offsets and the header that contains it, in both formats, with the
    readers' checks in their order. *)
From S2P Require Import Prelude Errors Io Crc Ids.

(** ** [ndb/root.rs] *)

Inductive AmapStatus := AMap_Invalid | AMap_Valid1 | AMap_Valid2.

Definition AmapStatus_as_u8 (s : AmapStatus) : Z :=
  match s with AMap_Invalid => 0x00 | AMap_Valid1 => 0x01 | AMap_Valid2 => 0x02 end.

Definition AmapStatus_try_from (value : Z) : NdbResult AmapStatus :=
  match value with
  | 0x00 => Ok AMap_Invalid
  | 0x01 => Ok AMap_Valid1
  | 0x02 => Ok AMap_Valid2
  | _ => Err (InvalidAmapStatus value)
  end.

(** [impl From<AmapStatus> for bool]. *)
Definition AmapStatus_into_bool (s : AmapStatus) : bool :=
  match s with AMap_Invalid => false | _ => true end.

(** [UnicodeRoot] and [AnsiRoot] have the same fields over their own byte
    index and page reference. *)
Record Root (I R : Type) := mk_Root {
  reserved1 : Z;
  file_eof_index : I;
  amap_last_index : I;
  amap_free_size : I;
  pmap_free_size : I;
  node_btree : R;
  block_btree : R;
  amap_is_valid : AmapStatus;
  reserved2 : Z;
  reserved3 : Z
}.
Arguments mk_Root {I R}.
Arguments reserved1 {I R}.
Arguments file_eof_index {I R}.
Arguments amap_last_index {I R}.
Arguments amap_free_size {I R}.
Arguments pmap_free_size {I R}.
Arguments node_btree {I R}.
Arguments block_btree {I R}.
Arguments amap_is_valid {I R}.
Arguments reserved2 {I R}.
Arguments reserved3 {I R}.

Definition UnicodeRoot : Type := Root UnicodeByteIndex UnicodePageRef.
Definition AnsiRoot : Type := Root AnsiByteIndex AnsiPageRef.

Module Root.
Section Root.
Context {I R : Type} `{!ByteIndex I, !Serial R}.

Definition new (file_eof amap_last amap_free pmap_free : I) (nbt bbt : R)
    (status : AmapStatus) : Root I R :=
  mk_Root 0 file_eof amap_last amap_free pmap_free nbt bbt status 0 0.

Definition load_reserved (r : Root I R) (r1 r2 r3 : Z) : Root I R :=
  mk_Root r1 (file_eof_index r) (amap_last_index r) (amap_free_size r) (pmap_free_size r)
    (node_btree r) (block_btree r) (amap_is_valid r) r2 r3.

Definition set_amap_status (r : Root I R) (status : AmapStatus) : Root I R :=
  mk_Root (reserved1 r) (file_eof_index r) (amap_last_index r) (amap_free_size r)
    (pmap_free_size r) (node_btree r) (block_btree r) status (reserved2 r) (reserved3 r).

Definition reset_free_size (r : Root I R) (free_bytes : I) : NdbResult (Root I R) :=
  Ok (mk_Root (reserved1 r) (file_eof_index r) (amap_last_index r) free_bytes (bi_new 0)
    (node_btree r) (block_btree r) (amap_is_valid r) (reserved2 r) (reserved3 r)).

(** [RootReadWrite::read]: an unknown [fAMapValid] is read as [Invalid]. *)
Definition read : reader (Root I R) :=
  reserved1 <- read_u32;;
  file_eof_index <- ser_read;;
  amap_last_index <- ser_read;;
  amap_free_size <- ser_read;;
  pmap_free_size <- ser_read;;
  node_btree <- ser_read;;
  block_btree <- ser_read;;
  status <- read_u8;;
  let amap_is_valid :=
    match AmapStatus_try_from status with Ok s => s | _ => AMap_Invalid end in
  reserved2 <- read_u8;;
  reserved3 <- read_u16;;
  let root := new file_eof_index amap_last_index amap_free_size pmap_free_size
                  node_btree block_btree amap_is_valid in
  rd_ret (load_reserved root reserved1 reserved2 reserved3).

Definition write (r : Root I R) : list Z :=
  write_u32 (reserved1 r) ++ ser_write (file_eof_index r) ++ ser_write (amap_last_index r) ++
  ser_write (amap_free_size r) ++ ser_write (pmap_free_size r) ++ ser_write (node_btree r) ++
  ser_write (block_btree r) ++ write_u8 (AmapStatus_as_u8 (amap_is_valid r)) ++
  write_u8 (reserved2 r) ++ write_u16 (reserved3 r).
End Root.
End Root.

#[export] Instance Root_serial {I R} `{!ByteIndex I, !Serial R} : Serial (Root I R) := {|
  ser_read := Root.read;
  ser_write := Root.write;
  ser_wf r := uint 32 (reserved1 r) /\ ser_wf (file_eof_index r) /\ ser_wf (amap_last_index r) /\
    ser_wf (amap_free_size r) /\ ser_wf (pmap_free_size r) /\ ser_wf (node_btree r) /\
    ser_wf (block_btree r) /\ uint 8 (reserved2 r) /\ uint 16 (reserved3 r);
  ser_size := 4 + 4 * ser_size (A := I) + 2 * ser_size (A := R) + 4
|}.

Lemma AmapStatus_uint st : uint 8 (AmapStatus_as_u8 st).
Proof. by destruct st. Qed.
#[export] Hint Resolve AmapStatus_uint : pst.

Lemma AmapStatus_round st : AmapStatus_try_from (AmapStatus_as_u8 st) = Ok st.
Proof. by destruct st. Qed.

#[export] Instance Root_rt {I R} `{!ByteIndex I, !Serial R, !RoundTrip I, !RoundTrip R} :
  RoundTrip (Root I R).
Proof.
  split; cbn [ser_read ser_write ser_wf ser_size Root_serial].
  - intros [] s (? & ? & ? & ? & ? & ? & ? & ? & ?). unfold Root.read, Root.write.
    cbn [reserved1 file_eof_index amap_last_index amap_free_size pmap_free_size node_btree
      block_btree amap_is_valid reserved2 reserved3] in *.
    rd_run. cbv zeta. rewrite AmapStatus_round. rd_run. done.
  - intros r. unfold Root.write. autorewrite with pst_len. rewrite !length_app, !rt_size.
    autorewrite with pst_len. lia.
  - intros r. unfold Root.write. repeat apply bytes_ok_app; auto using rt_bytes with pst.
Qed.

(** ** [ndb/header.rs] *)

(** [u32::from_be_bytes( *b"NDB!")] and [u16::from_be_bytes( *b"MS")]. *)
Definition HEADER_MAGIC : Z := 0x4E444221.
Definition HEADER_MAGIC_CLIENT : Z := 0x4D53.

Inductive NdbVersion := Ver_Ansi | Ver_Unicode.

Definition NdbVersion_as_u16 (v : NdbVersion) : Z :=
  match v with Ver_Ansi => 15 | Ver_Unicode => 23 end.

Definition NdbVersion_try_from (value : Z) : NdbResult NdbVersion :=
  if (14 <=? value) && (value <=? 15) then Ok Ver_Ansi
  else if value =? 23 then Ok Ver_Unicode
  else Err (InvalidNdbVersion value).

Definition NdbVersion_eqb (a b : NdbVersion) : bool :=
  match a, b with Ver_Ansi, Ver_Ansi | Ver_Unicode, Ver_Unicode => true | _, _ => false end.

Definition NDB_CLIENT_VERSION : Z := 19.
Definition NDB_PLATFORM_CREATE : Z := 0x01.
Definition NDB_PLATFORM_ACCESS : Z := 0x01.
Definition NDB_DEFAULT_NIDS : list Z :=
  [0x400; 0x400; 0x400; 0x4000; 0x10000; 0x400; 0x400; 0x400; 0x8000; 0x400; 0x400; 0x400; 0x400;
   0x400; 0x400; 0x400; 0x400; 0x400; 0x400; 0x400; 0x400; 0x400; 0x400; 0x400; 0x400; 0x400;
   0x400; 0x400; 0x400; 0x400; 0x400; 0x400].
Definition NDB_SENTINEL : Z := 0x80.

Definition NdbCryptMethod_as_u8 (m : NdbCryptMethod) : Z :=
  match m with Crypt_None => 0x00 | Permute => 0x01 | Cyclic => 0x02 end.

Definition NdbCryptMethod_try_from (value : Z) : NdbResult NdbCryptMethod :=
  match value with
  | 0x00 => Ok Crypt_None
  | 0x01 => Ok Permute
  | 0x02 => Ok Cyclic
  | _ => Err (InvalidNdbCryptMethod value)
  end.

Module UnicodeHeader.

Record t := mk {
  next_page : UnicodePageId;
  unique : Z;
  nids : list Z;
  root : UnicodeRoot;
  free_map : list Z;
  free_page_map : list Z;
  crypt_method : NdbCryptMethod;
  next_block : UnicodeBlockId;
  reserved1 : Z;
  reserved2 : Z;
  unused1 : Z;
  unused2 : Z;
  reserved3 : list Z
}.

Definition new (root : UnicodeRoot) (crypt_method : NdbCryptMethod) : t :=
  mk (mk_UnicodePageId 1) 0 NDB_DEFAULT_NIDS root (replicate 128 0xFF) (replicate 128 0xFF)
    crypt_method (mk_UnicodeBlockId 4) 0 0 0 0 (replicate 36 0).

Definition new_store (root : UnicodeRoot) (crypt_method : NdbCryptMethod)
    (next_page : UnicodePageId) (next_block : UnicodeBlockId) (unique : Z) (nids : list Z) : t :=
  let h := new root crypt_method in
  mk next_page unique nids (UnicodeHeader.root h) (free_map h) (free_page_map h)
    (UnicodeHeader.crypt_method h) next_block (reserved1 h) (reserved2 h)
    0x0000000100000004 (unused2 h) (reserved3 h).

(** [wMagicClient] and [wVer], read before the full CRC is known. *)
Definition read_version : reader unit :=
  magic <- read_u16;;
  rd_ensure (magic =? HEADER_MAGIC_CLIENT) (InvalidNdbHeaderMagicClientValue magic);;;
  wver <- read_u16;;
  version <- rd_lift (ndb (NdbVersion_try_from wver));;
  rd_ensure (NdbVersion_eqb version Ver_Unicode) (AnsiPstVersion (NdbVersion_as_u16 version)).

(** The fields that follow [wVer] in the CRC data; the bytes after them are
    the argument of the result. *)
Definition read_fields : reader (list Z -> t) :=
  version <- read_u16;;
  rd_ensure (version =? NDB_CLIENT_VERSION) (InvalidNdbHeaderClientVersion version);;;
  platform_create <- read_u8;;
  rd_ensure (platform_create =? NDB_PLATFORM_CREATE)
    (InvalidNdbHeaderPlatformCreate platform_create);;;
  platform_access <- read_u8;;
  rd_ensure (platform_access =? NDB_PLATFORM_ACCESS)
    (InvalidNdbHeaderPlatformAccess platform_access);;;
  reserved1 <- read_u32;;
  reserved2 <- read_u32;;
  unused1 <- read_u64;;
  next_page <- ser_read (A := UnicodePageId);;
  unique <- read_u32;;
  nids <- rd_repeat 32 read_u32;;
  unused2 <- read_u64;;
  root <- ser_read (A := UnicodeRoot);;
  align <- read_u32;;
  rd_ensure (align =? 0) (InvalidNdbHeaderAlignValue align);;;
  free_map <- read_exact 128;;
  free_page_map <- read_exact 128;;
  sentinel <- read_u8;;
  rd_ensure (sentinel =? NDB_SENTINEL) (InvalidNdbHeaderSentinelValue sentinel);;;
  crypt <- read_u8;;
  crypt_method <- rd_lift (ndb (NdbCryptMethod_try_from crypt));;
  reserved <- read_u16;;
  rd_ensure (reserved =? 0) (InvalidNdbHeaderReservedValue reserved);;;
  next_block <- ser_read (A := UnicodeBlockId);;
  rd_ret (mk next_page unique nids root free_map free_page_map crypt_method next_block
            reserved1 reserved2 unused1 unused2).

Definition read : reader t :=
  magic <- read_u32;;
  rd_ensure (magic =? HEADER_MAGIC) (InvalidNdbHeaderMagicValue magic);;;
  crc_partial <- read_u32;;
  first <- read_exact 471;;
  rd_ensure (crc_partial =? compute_crc 0 first) (InvalidNdbHeaderPartialCrc crc_partial);;;
  with_cursor (first ++ replicate 45 0) read_version;;;
  second <- read_exact 45;;
  let crc_data := first ++ second in
  crc_full <- read_u32;;
  rd_ensure (crc_full =? compute_crc 0 crc_data) (InvalidNdbHeaderFullCrc crc_full);;;
  fields <- with_cursor (drop 4 crc_data) read_fields;;
  reserved3 <- read_exact 36;;
  rd_ret (fields reserved3).

(** The bytes written through the cursor over [[0_u8; 516]]. *)
Definition write_fields (h : t) : list Z :=
  write_u16 HEADER_MAGIC_CLIENT ++ write_u16 (NdbVersion_as_u16 Ver_Unicode) ++
  write_u16 NDB_CLIENT_VERSION ++ write_u8 NDB_PLATFORM_CREATE ++ write_u8 NDB_PLATFORM_ACCESS ++
  write_u32 (reserved1 h) ++ write_u32 (reserved2 h) ++ write_u64 (unused1 h) ++
  ser_write (next_page h) ++ write_u32 (unique h) ++
  concat (map write_u32 (nids h)) ++ write_u64 (unused2 h) ++ ser_write (root h) ++
  write_u32 0 ++ free_map h ++ free_page_map h ++ write_u8 NDB_SENTINEL ++
  write_u8 (NdbCryptMethod_as_u8 (crypt_method h)) ++ write_u16 0 ++
  ser_write (next_block h).

Definition write (h : t) : io_result (list Z) :=
  let? crc_data := fixed_buffer 516 (write_fields h) in
  let crc_partial := compute_crc 0 (take 471 crc_data) in
  let crc_full := compute_crc 0 crc_data in
  Ok (write_u32 HEADER_MAGIC ++ write_u32 crc_partial ++ crc_data ++ write_u32 crc_full ++
      reserved3 h).

Definition update_unique (h : t) : t :=
  mk (next_page h) (wrapping_add 32 (unique h) 1) (nids h) (root h) (free_map h)
    (free_page_map h) (crypt_method h) (next_block h) (reserved1 h) (reserved2 h)
    (unused1 h) (unused2 h) (reserved3 h).

Definition wf (h : t) : Prop :=
  ser_wf (next_page h) /\ uint 32 (unique h) /\ length (nids h) = 32%nat /\
  Forall (uint 32) (nids h) /\ ser_wf (root h) /\ array_wf 128 (free_map h) /\
  array_wf 128 (free_page_map h) /\ ser_wf (next_block h) /\ uint 32 (reserved1 h) /\
  uint 32 (reserved2 h) /\ uint 64 (unused1 h) /\ uint 64 (unused2 h) /\
  array_wf 36 (reserved3 h).

End UnicodeHeader.

Module AnsiHeader.

Record t := mk {
  next_block : AnsiBlockId;
  next_page : AnsiPageId;
  unique : Z;
  nids : list Z;
  root : AnsiRoot;
  free_map : list Z;
  free_page_map : list Z;
  crypt_method : NdbCryptMethod;
  reserved1 : Z;
  reserved2 : Z;
  reserved3 : list Z
}.

Definition new (root : AnsiRoot) (crypt_method : NdbCryptMethod) : t :=
  mk (mk_AnsiBlockId 4) (mk_AnsiPageId 1) 0 NDB_DEFAULT_NIDS root (replicate 128 0xFF)
    (replicate 128 0xFF) crypt_method 0 0 (replicate 36 0).

(** The fields of the CRC data, read through one cursor. *)
Definition read_fields : reader t :=
  magic <- read_u16;;
  rd_ensure (magic =? HEADER_MAGIC_CLIENT) (InvalidNdbHeaderMagicClientValue magic);;;
  wver <- read_u16;;
  version <- rd_lift (ndb (NdbVersion_try_from wver));;
  rd_ensure (NdbVersion_eqb version Ver_Ansi) (UnicodePstVersion (NdbVersion_as_u16 version));;;
  version <- read_u16;;
  rd_ensure (version =? NDB_CLIENT_VERSION) (InvalidNdbHeaderClientVersion version);;;
  platform_create <- read_u8;;
  rd_ensure (platform_create =? NDB_PLATFORM_CREATE)
    (InvalidNdbHeaderPlatformCreate platform_create);;;
  platform_access <- read_u8;;
  rd_ensure (platform_access =? NDB_PLATFORM_ACCESS)
    (InvalidNdbHeaderPlatformAccess platform_access);;;
  reserved1 <- read_u32;;
  reserved2 <- read_u32;;
  next_block <- ser_read (A := AnsiBlockId);;
  next_page <- ser_read (A := AnsiPageId);;
  unique <- read_u32;;
  nids <- rd_repeat 32 read_u32;;
  root <- ser_read (A := AnsiRoot);;
  free_map <- read_exact 128;;
  free_page_map <- read_exact 128;;
  sentinel <- read_u8;;
  rd_ensure (sentinel =? NDB_SENTINEL) (InvalidNdbHeaderSentinelValue sentinel);;;
  crypt <- read_u8;;
  crypt_method <- rd_lift (ndb (NdbCryptMethod_try_from crypt));;
  reserved <- read_u16;;
  rd_ensure (reserved =? 0) (InvalidNdbHeaderReservedValue reserved);;;
  reserved <- read_exact 12;;
  rd_ensure (bool_decide (reserved = replicate 12 0)) InvalidNdbHeaderAnsiReservedBytes;;;
  reserved3 <- read_exact 36;;
  rd_ret (mk next_block next_page unique nids root free_map free_page_map crypt_method
            reserved1 reserved2 reserved3).

Definition read : reader t :=
  magic <- read_u32;;
  rd_ensure (magic =? HEADER_MAGIC) (InvalidNdbHeaderMagicValue magic);;;
  crc_partial <- read_u32;;
  crc_data <- read_exact 504;;
  rd_ensure (crc_partial =? compute_crc 0 (take 471 crc_data))
    (InvalidNdbHeaderPartialCrc crc_partial);;;
  with_cursor crc_data read_fields.

(** The bytes written through the cursor over [[0_u8; 504]]. *)
Definition write_fields (h : t) : list Z :=
  write_u16 HEADER_MAGIC_CLIENT ++ write_u16 (NdbVersion_as_u16 Ver_Ansi) ++
  write_u16 NDB_CLIENT_VERSION ++ write_u8 NDB_PLATFORM_CREATE ++ write_u8 NDB_PLATFORM_ACCESS ++
  write_u32 (reserved1 h) ++ write_u32 (reserved2 h) ++ ser_write (next_block h) ++
  ser_write (next_page h) ++ write_u32 (unique h) ++ concat (map write_u32 (nids h)) ++
  ser_write (root h) ++ free_map h ++ free_page_map h ++ write_u8 NDB_SENTINEL ++
  write_u8 (NdbCryptMethod_as_u8 (crypt_method h)) ++ write_u16 0 ++ replicate 12 0 ++
  reserved3 h.

Definition write (h : t) : io_result (list Z) :=
  let? crc_data := fixed_buffer 504 (write_fields h) in
  let crc_partial := compute_crc 0 (take 471 crc_data) in
  Ok (write_u32 HEADER_MAGIC ++ write_u32 crc_partial ++ crc_data).

Definition update_unique (h : t) : t :=
  mk (next_block h) (next_page h) (wrapping_add 32 (unique h) 1) (nids h) (root h) (free_map h)
    (free_page_map h) (crypt_method h) (reserved1 h) (reserved2 h) (reserved3 h).

Definition wf (h : t) : Prop :=
  ser_wf (next_block h) /\ ser_wf (next_page h) /\ uint 32 (unique h) /\
  length (nids h) = 32%nat /\ Forall (uint 32) (nids h) /\ ser_wf (root h) /\
  array_wf 128 (free_map h) /\ array_wf 128 (free_page_map h) /\ uint 32 (reserved1 h) /\
  uint 32 (reserved2 h) /\ array_wf 36 (reserved3 h).

End AnsiHeader.

(** Concrete roots, used to evaluate the codecs. *)
Definition sample_root : UnicodeRoot :=
  Root.new (mk_UnicodeByteIndex 0x44c00) (mk_UnicodeByteIndex 0x4400) (mk_UnicodeByteIndex 0x3e000)
    (mk_UnicodeByteIndex 0) (mk_BlockRef (mk_UnicodePageId 2) (mk_UnicodeByteIndex 0x4c00))
    (mk_BlockRef (mk_UnicodePageId 1) (mk_UnicodeByteIndex 0x4a00)) AMap_Valid2.

Definition sample_ansi_root : AnsiRoot :=
  Root.new (mk_AnsiByteIndex 0x44c00) (mk_AnsiByteIndex 0x4400) (mk_AnsiByteIndex 0x3e000)
    (mk_AnsiByteIndex 0) (mk_BlockRef (mk_AnsiPageId 2) (mk_AnsiByteIndex 0x4c00))
    (mk_BlockRef (mk_AnsiPageId 1) (mk_AnsiByteIndex 0x4a00)) AMap_Valid2.

(** ** Lemmas *)

Lemma NdbCryptMethod_round m : NdbCryptMethod_try_from (NdbCryptMethod_as_u8 m) = Ok m.
Proof. by destruct m. Qed.

Lemma NdbCryptMethod_uint m : uint 8 (NdbCryptMethod_as_u8 m).
Proof. by destruct m. Qed.

Lemma rd_lift_eq {A B} (m : io_result A) (k : A -> reader B) s a :
  m = Ok a -> rd_bind (rd_lift m) k s = k a s.
Proof. by intros ->. Qed.

#[export] Hint Resolve NdbCryptMethod_uint : pst.

Lemma rd_repeat_u32_app' n l s :
  length l = n -> Forall (uint 32) l ->
  rd_repeat n read_u32 (concat (map write_u32 l) ++ s) = Ok (l, s).
Proof. intros <-. apply rd_repeat_u32_app. Qed.

(** The array and list fields of the headers. *)
Ltac hdr_step :=
  first
  [ rd_run_step
  | lazymatch goal with
    | |- rd_bind (rd_repeat 32 read_u32) _ (concat (map write_u32 ?l) ++ ?s) = _ =>
        rewrite (rd_bind_eq _ _ _ l s (rd_repeat_u32_app' 32 l s ltac:(rd_side) ltac:(rd_side)))
    | |- rd_bind (rd_lift (ndb (NdbCryptMethod_try_from _))) _ _ = _ =>
        erewrite rd_lift_eq; [|by rewrite NdbCryptMethod_round]
    | |- rd_bind (rd_lift _) _ _ = _ => erewrite rd_lift_eq; [|reflexivity]
    end; cbv beta ].
Ltac hdr_run := rewrite <- ?app_assoc; repeat hdr_step.

Lemma length_root_write_unicode (r : UnicodeRoot) : length (ser_write r) = 72%nat.
Proof. exact (rt_size (A := UnicodeRoot) r). Qed.
Lemma length_root_write_ansi (r : AnsiRoot) : length (ser_write r) = 40%nat.
Proof. exact (rt_size (A := AnsiRoot) r). Qed.

Lemma length_concat_u32 l : length (concat (map write_u32 l)) = (4 * length l)%nat.
Proof. by apply length_concat_map. Qed.

Lemma unicode_write_fields_length h :
  UnicodeHeader.wf h -> length (UnicodeHeader.write_fields h) = 516%nat.
Proof.
  intros (_ & _ & Hn & _ & _ & [Hf _] & [Hp _] & _). unfold UnicodeHeader.write_fields.
  rewrite !length_app, length_concat_u32, length_root_write_unicode, Hn, Hf, Hp. done.
Qed.

Lemma unicode_write_fields_ok h :
  UnicodeHeader.wf h -> bytes_ok (UnicodeHeader.write_fields h).
Proof.
  intros (_ & _ & _ & _ & _ & [_ Hf] & [_ Hp] & _). unfold UnicodeHeader.write_fields.
  bytes_tac; exact (rt_bytes (A := UnicodeRoot) _).
Qed.

Lemma unicode_write_version h k :
  exists u, UnicodeHeader.read_version (take 471 (UnicodeHeader.write_fields h) ++ k) = Ok (tt, u).
Proof.
  unfold UnicodeHeader.write_fields at 1. rewrite (app_assoc (write_u16 _)).
  rewrite (take_app_prefix _ _ 471 4) by (done || lia).
  unfold UnicodeHeader.read_version. eexists. hdr_run. by apply rd_ensure_ok.
Qed.

Lemma unicode_read_fields h :
  UnicodeHeader.wf h ->
  exists f, UnicodeHeader.read_fields (drop 4 (UnicodeHeader.write_fields h)) = Ok (f, []) /\
    f (UnicodeHeader.reserved3 h) = h.
Proof.
  intros (? & ? & Hn & ? & ? & [? ?] & [? ?] & ? & ? & ? & ? & ? & ?).
  unfold UnicodeHeader.write_fields. rewrite (app_assoc (write_u16 _)).
  rewrite (drop_app_exact _ _ 4) by done.
  rewrite <- (app_nil_r (ser_write (UnicodeHeader.next_block h))).
  unfold UnicodeHeader.read_fields. eexists. split.
  - by hdr_run.
  - by destruct h.
Qed.

Lemma ansi_write_fields_length h :
  AnsiHeader.wf h -> length (AnsiHeader.write_fields h) = 504%nat.
Proof.
  intros (_ & _ & _ & Hn & _ & _ & [Hf _] & [Hp _] & _ & _ & [Hr _]).
  unfold AnsiHeader.write_fields.
  rewrite !length_app, length_concat_u32, length_root_write_ansi, Hn, Hf, Hp, Hr. done.
Qed.

Lemma ansi_write_fields_ok h : AnsiHeader.wf h -> bytes_ok (AnsiHeader.write_fields h).
Proof.
  intros (_ & _ & _ & _ & _ & _ & [_ Hf] & [_ Hp] & _ & _ & [_ Hr]).
  unfold AnsiHeader.write_fields.
  bytes_tac; first [exact (rt_bytes (A := AnsiRoot) _)|by repeat constructor].
Qed.

Lemma ansi_read_fields h :
  AnsiHeader.wf h -> AnsiHeader.read_fields (AnsiHeader.write_fields h) = Ok (h, []).
Proof.
  intros (? & ? & ? & Hn & ? & ? & [? ?] & [? ?] & ? & ? & [? ?]).
  unfold AnsiHeader.write_fields. rewrite <- (app_nil_r (AnsiHeader.reserved3 h)).
  unfold AnsiHeader.read_fields.
  hdr_run. by destruct h.
Qed.

(** Whatever the readers accept carries the CRCs of its data. *)
Ltac read_bytes :=
  repeat match goal with
  | H : read_exact _ _ = Ok _ |- _ => apply read_exact_ok in H; destruct H as [-> ?]
  | H : with_cursor _ _ _ = Ok _ |- _ => apply with_cursor_ok in H; destruct H as [_ ->]
  end.

Lemma unicode_read_crc s h t :
  UnicodeHeader.read s = Ok (h, t) ->
  le_val (take 4 (drop 524 s)) = compute_crc 0 (take 516 (drop 8 s)).
Proof.
  intros H. unfold UnicodeHeader.read, read_u32, read_uint in H. rd_inv. zb. read_bytes.
  match goal with
  | Hm : length ?m = 4%nat, Hp : length ?p = 4%nat, Hf : length ?f = 471%nat,
    Hs : length ?s = 45%nat, Hc : le_val ?c = compute_crc 0 (?f ++ ?s)
    |- context [?m ++ ?p ++ ?f ++ ?s ++ ?c ++ ?r] =>
      replace (m ++ p ++ f ++ s ++ c ++ r) with ((m ++ p) ++ (f ++ s) ++ c ++ r)
        by (by rewrite <- !app_assoc);
      rewrite (drop_app_exact (m ++ p) _ 8) by (rewrite length_app; lia);
      rewrite (take_app_exact (f ++ s) _ 516) by (rewrite length_app; lia);
      rewrite (app_assoc (m ++ p)), drop_app_exact by (rewrite !length_app; lia);
      by rewrite take_app_exact
  end.
Qed.

Lemma ansi_read_crc s h t :
  AnsiHeader.read s = Ok (h, t) ->
  le_val (take 4 (drop 4 s)) = compute_crc 0 (take 471 (drop 8 s)).
Proof.
  intros H. unfold AnsiHeader.read, read_u32, read_uint in H. rd_inv. zb. read_bytes.
  match goal with
  | Hm : length ?m = 4%nat, Hp : length ?p = 4%nat, Hd : length ?d = 504%nat
    |- context [?m ++ ?p ++ ?d ++ ?r] =>
      rewrite (drop_app_exact m _ 4), (take_app_exact p _ 4) by done;
      rewrite (app_assoc m), drop_app_exact by (rewrite length_app; lia);
      by rewrite take_app_le by lia
  end.
Qed.

(** ** The codecs *)

Lemma unicode_header_codec (h : UnicodeHeader.t) (Hwf : UnicodeHeader.wf h) :
  exists bs, UnicodeHeader.write h = Ok bs /\ length bs = 564%nat /\
    forall s, UnicodeHeader.read (bs ++ s) = Ok (h, s).
Proof.
  pose proof (unicode_write_fields_length h Hwf) as Hl.
  pose proof (unicode_write_fields_ok h Hwf) as Hok.
  destruct (unicode_read_fields h Hwf) as (f & Hf & Hh).
  destruct (unicode_write_version h (replicate 45 0)) as [u Hu].
  assert (Hr : length (UnicodeHeader.reserved3 h) = 36%nat) by apply Hwf.
  unfold UnicodeHeader.write. rewrite fixed_buffer_exact by done. cbn [rbind].
  set (d := UnicodeHeader.write_fields h) in *. eexists. split_and!; [done| |].
  { rewrite !length_app, Hl, Hr. done. }
  intros s. unfold UnicodeHeader.read. rewrite <- (take_drop 471 d) at 2.
  assert (length (take 471 d) = 471%nat /\ length (drop 471 d) = 45%nat) as [? ?].
  { rewrite length_take, length_drop, Hl. done. }
  assert (uint 32 (compute_crc 0 (take 471 d))) by by apply compute_crc_uint, Forall_take.
  assert (uint 32 (compute_crc 0 d)) by by apply compute_crc_uint.
  rd_run.
  erewrite rd_bind_eq; [|by eapply with_cursor_eq]. rd_run.
  rewrite take_drop. rd_run.
  erewrite rd_bind_eq; [|by eapply with_cursor_eq]. rd_run. by rewrite Hh.
Qed.

Lemma ansi_header_codec (h : AnsiHeader.t) (Hwf : AnsiHeader.wf h) :
  exists bs, AnsiHeader.write h = Ok bs /\ length bs = 512%nat /\
    forall s, AnsiHeader.read (bs ++ s) = Ok (h, s).
Proof.
  pose proof (ansi_write_fields_length h Hwf) as Hl.
  pose proof (ansi_write_fields_ok h Hwf) as Hok.
  pose proof (ansi_read_fields h Hwf) as Hf.
  unfold AnsiHeader.write. rewrite fixed_buffer_exact by done. cbn [rbind].
  set (d := AnsiHeader.write_fields h) in *. eexists. split_and!; [done| |].
  { by rewrite !length_app, Hl. }
  assert (uint 32 (compute_crc 0 (take 471 d))) by by apply compute_crc_uint, Forall_take.
  intros s. unfold AnsiHeader.read. rd_run. by eapply with_cursor_eq.
Qed.

(** ** Properties *)

(** Every Unicode header is written as 564 bytes that read back to it,
    whatever follows them in the file. *)
Theorem UnicodeHeader_round_trip (h : UnicodeHeader.t) (s : list Z) (Hwf : UnicodeHeader.wf h) :
  exists bs, UnicodeHeader.write h = Ok bs /\ length bs = 564%nat /\
    UnicodeHeader.read (bs ++ s) = Ok (h, s).
Proof.
  destruct (unicode_header_codec h Hwf) as (bs & Hw & Hl & Hr). by exists bs.
Qed.

Lemma UnicodeHeader_round_trip_witness :
  exists bs, UnicodeHeader.write (UnicodeHeader.new sample_root Permute) = Ok bs /\
    length bs = 564%nat /\
    UnicodeHeader.read (bs ++ [1; 2; 3]) = Ok (UnicodeHeader.new sample_root Permute, [1; 2; 3]).
Proof.
  apply (UnicodeHeader_round_trip (UnicodeHeader.new sample_root Permute) [1; 2; 3]).
  unfold UnicodeHeader.wf, array_wf. cbn. unfold uint, byte_ok.
  split_and!; try done; repeat constructor; done.
Defined.

(** Every ANSI header is written as 512 bytes that read back to it. *)
Theorem AnsiHeader_round_trip (h : AnsiHeader.t) (s : list Z) (Hwf : AnsiHeader.wf h) :
  exists bs, AnsiHeader.write h = Ok bs /\ length bs = 512%nat /\
    AnsiHeader.read (bs ++ s) = Ok (h, s).
Proof.
  destruct (ansi_header_codec h Hwf) as (bs & Hw & Hl & Hr). by exists bs.
Qed.

Lemma AnsiHeader_round_trip_witness :
  exists bs, AnsiHeader.write (AnsiHeader.new sample_ansi_root Cyclic) = Ok bs /\
    length bs = 512%nat /\
    AnsiHeader.read (bs ++ []) = Ok (AnsiHeader.new sample_ansi_root Cyclic, []).
Proof.
  apply (AnsiHeader_round_trip (AnsiHeader.new sample_ansi_root Cyclic) []).
  unfold AnsiHeader.wf, array_wf. cbn. unfold uint, byte_ok.
  split_and!; try done; repeat constructor; done.
Defined.

(** Damage to the header is noticed.  Take a Unicode header that the
    reader accepts and replace up to four consecutive bytes of the 516 that
    the full CRC covers, leaving the rest of the file as it is: unless the
    bytes are the ones that were there, the reader rejects the result. *)
Theorem UnicodeHeader_detects_burst (pre x y post : list Z) (h : UnicodeHeader.t) (t : list Z)
    (Hbytes : bytes_ok (pre ++ x ++ post)) (Hy : bytes_ok y)
    (Hread : UnicodeHeader.read (pre ++ x ++ post) = Ok (h, t))
    (Hlen : length x = length y) (Hburst : (length x <= 4)%nat)
    (Hrange : (8 <= length pre)%nat /\ (length pre + length x <= 524)%nat) (Hneq : x <> y) :
  is_ok (UnicodeHeader.read (pre ++ y ++ post)) = false.
Proof.
  destruct (UnicodeHeader.read (pre ++ y ++ post)) as [[h' t']| |] eqn:Hread'; [exfalso|done..].
  apply unicode_read_crc in Hread, Hread'. apply Hneq.
  rewrite (region_after 524 pre y x post) in Hread' by lia.
  apply (crc_region_burst 8 516 pre x y post); [done|done|done|done|lia|lia|].
  by rewrite <- Hread, <- Hread'.
Qed.

Lemma UnicodeHeader_detects_burst_witness :
  exists bs, UnicodeHeader.write (UnicodeHeader.new sample_root Permute) = Ok bs /\
    is_ok (UnicodeHeader.read (take 500 bs ++ [0x12; 0x34] ++ drop 502 bs)) = false.
Proof.
  eexists. split; [vm_compute; reflexivity|].
  eapply (UnicodeHeader_detects_burst _ [0xff; 0xff]); cycle 2;
    [vm_compute; reflexivity|reflexivity|vm_compute; lia|split; vm_compute; lia|discriminate| |].
  - apply (bool_decide_unpack _). vm_compute. exact I.
  - repeat constructor; done.
Defined.
