(* ===== verification/Page.v ===== *)
(** * Map pages and the density list

    The first part of [ndb/page.rs]: page types, page trailers, the four
    allocation map pages and the density list page, in both formats.  A
    page is a body (496 bytes, 500 in the ANSI format) followed by a trailer
    with the CRC of the body. *)
From S2P Require Import Prelude Errors Io Crc Ids.

Definition PageType_as_u8 (t : PageType) : Z :=
  match t with
  | PageType_None => 0x00
  | BlockBTree => 0x80
  | NodeBTree => 0x81
  | FreeMap => 0x82
  | AllocationPageMap => 0x83
  | AllocationMap => 0x84
  | FreePageMap => 0x85
  | DensityList => 0x86
  end.

Definition PageType_try_from (value : Z) : NdbResult PageType :=
  match value with
  | 0x80 => Ok BlockBTree
  | 0x81 => Ok NodeBTree
  | 0x82 => Ok FreeMap
  | 0x83 => Ok AllocationPageMap
  | 0x84 => Ok AllocationMap
  | 0x85 => Ok FreePageMap
  | 0x86 => Ok DensityList
  | _ => Err (InvalidPageType value)
  end.

Definition PageType_signature (t : PageType) (index block_id : Z) : Z :=
  match t with
  | BlockBTree | NodeBTree | DensityList =>
      compute_sig (Z.land index 0xFFFFFFFF) (Z.land block_id 0xFFFFFFFF)
  | _ => 0
  end.

Definition PAGE_SIZE : Z := 512.

(** ** Trailers *)

(** [UnicodePageTrailer] and [AnsiPageTrailer]: the same fields, written in
    a different order. *)
Record PageTrailer (B : Type) := mk_PageTrailer {
  page_type : PageType;
  signature : Z;
  crc : Z;
  pt_block_id : B
}.
Arguments mk_PageTrailer {B}.
Arguments page_type {B}.
Arguments signature {B}.
Arguments crc {B}.
Arguments pt_block_id {B}.

Definition UnicodePageTrailer : Type := PageTrailer UnicodePageId.
Definition AnsiPageTrailer : Type := PageTrailer AnsiPageId.

(** [Trailer { crc, ..trailer }] *)
Definition with_crc {B} (t : PageTrailer B) (c : Z) : PageTrailer B :=
  mk_PageTrailer (page_type t) (signature t) c (pt_block_id t).

(** [ptype] and [ptypeRepeat], the two bytes that open both trailers. *)
Definition read_page_type : reader PageType :=
  a <- read_u8;;
  b <- read_u8;;
  rd_ensure (a =? b) (MismatchPageTypeRepeat a b);;;
  rd_lift (ndb (PageType_try_from a)).

Definition write_page_type (t : PageType) : list Z :=
  write_u8 (PageType_as_u8 t) ++ write_u8 (PageType_as_u8 t).

Module UnicodePageTrailer.
Definition new (t : PageType) (signature : Z) (block_id : UnicodePageId) (crc : Z) :
  UnicodePageTrailer := mk_PageTrailer t signature crc block_id.

Definition read : reader UnicodePageTrailer :=
  t <- read_page_type;;
  signature <- read_u16;;
  crc <- read_u32;;
  block_id <- ser_read;;
  rd_ret (mk_PageTrailer t signature crc block_id).

Definition write (t : UnicodePageTrailer) : list Z :=
  write_page_type (page_type t) ++ write_u16 (signature t) ++ write_u32 (crc t) ++
  ser_write (pt_block_id t).
End UnicodePageTrailer.

Module AnsiPageTrailer.
Definition new (t : PageType) (signature : Z) (block_id : AnsiPageId) (crc : Z) :
  AnsiPageTrailer := mk_PageTrailer t signature crc block_id.

Definition read : reader AnsiPageTrailer :=
  t <- read_page_type;;
  signature <- read_u16;;
  block_id <- ser_read;;
  crc <- read_u32;;
  rd_ret (mk_PageTrailer t signature crc block_id).

Definition write (t : AnsiPageTrailer) : list Z :=
  write_page_type (page_type t) ++ write_u16 (signature t) ++ ser_write (pt_block_id t) ++
  write_u32 (crc t).
End AnsiPageTrailer.

(** The values a trailer of a page of the file holds: a known page type. *)
Definition trailer_wf {B} `{!Serial B} (t : PageTrailer B) : Prop :=
  page_type t <> PageType_None /\ uint 16 (signature t) /\ uint 32 (crc t) /\
  ser_wf (pt_block_id t).

#[export] Instance UnicodePageTrailer_serial : Serial (PageTrailer UnicodePageId) := {|
  ser_read := UnicodePageTrailer.read;
  ser_write := UnicodePageTrailer.write;
  ser_wf := trailer_wf;
  ser_size := 16
|}.

#[export] Instance AnsiPageTrailer_serial : Serial (PageTrailer AnsiPageId) := {|
  ser_read := AnsiPageTrailer.read;
  ser_write := AnsiPageTrailer.write;
  ser_wf := trailer_wf;
  ser_size := 12
|}.

(** ** Map pages *)

Definition MAP_BITS_SIZE : nat := 496.

Module UnicodeMapPage.

Record t := mk { map_bits : list Z; trailer : UnicodePageTrailer }.

(** The page type is the const parameter [PAGE_TYPE], a [u8]. *)
Definition new (PAGE_TYPE : Z) (map_bits : list Z) (trailer : UnicodePageTrailer) : NdbResult t :=
  if negb (PageType_as_u8 (page_type trailer) =? PAGE_TYPE)
  then Err (UnexpectedPageType (page_type trailer))
  else Ok (mk map_bits trailer).

Definition read (PAGE_TYPE : Z) : reader t :=
  map_bits <- read_exact MAP_BITS_SIZE;;
  trailer <- ser_read;;
  rd_ensure (PageType_as_u8 (page_type trailer) =? PAGE_TYPE)
    (UnexpectedPageType (page_type trailer));;;
  let crc := compute_crc 0 map_bits in
  rd_ensure (crc =? Page.crc trailer) (InvalidPageCrc crc);;;
  rd_ret (mk map_bits trailer).

Definition write (p : t) : list Z :=
  map_bits p ++
  let crc := compute_crc 0 (map_bits p) in
  ser_write (with_crc (trailer p) crc).

End UnicodeMapPage.

Module AnsiMapPage.

Record t := mk { map_bits : list Z; trailer : AnsiPageTrailer; padding : Z }.

Definition new (P : PageType) (amap_bits : list Z) (trailer : AnsiPageTrailer) : NdbResult t :=
  if negb (bool_decide (page_type trailer = P))
  then Err (UnexpectedPageType (page_type trailer))
  else Ok (mk amap_bits trailer 0).

(** What follows the body: the trailer, its type and the CRC. *)
Definition read_trailer (P : PageType) (buffer : list Z) : reader AnsiPageTrailer :=
  trailer <- ser_read;;
  rd_ensure (bool_decide (page_type trailer = P)) (UnexpectedPageType (page_type trailer));;;
  let crc := compute_crc 0 buffer in
  rd_ensure (crc =? Page.crc trailer) (InvalidPageCrc crc);;;
  rd_ret trailer.

Definition write_buffer (p : t) (fields : list Z) : io_result (list Z) :=
  let? buffer := fixed_buffer 500 fields in
  let crc := compute_crc 0 buffer in
  Ok (buffer ++ ser_write (with_crc (trailer p) crc)).

(** The allocation map and the page map: [padding] precedes the bits. *)
Definition read_padding_first (P : PageType) : reader t :=
  buffer <- read_exact 500;;
  fields <- with_cursor buffer (
    padding <- read_u32;; map_bits <- read_exact MAP_BITS_SIZE;; rd_ret (padding, map_bits));;
  trailer <- read_trailer P buffer;;
  rd_ret (mk (snd fields) trailer (fst fields)).

Definition write_padding_first (p : t) : io_result (list Z) :=
  write_buffer p (write_u32 (padding p) ++ map_bits p).

(** The free map and the free page map: [padding] follows the bits. *)
Definition read_bits_first (P : PageType) : reader t :=
  buffer <- read_exact 500;;
  fields <- with_cursor buffer (
    map_bits <- read_exact MAP_BITS_SIZE;; padding <- read_u32;; rd_ret (padding, map_bits));;
  trailer <- read_trailer P buffer;;
  rd_ret (mk (snd fields) trailer (fst fields)).

Definition write_bits_first (p : t) : io_result (list Z) :=
  write_buffer p (map_bits p ++ write_u32 (padding p)).

(** The four implementations. *)
Definition amap_new := new AllocationMap.
Definition amap_read := read_padding_first AllocationMap.
Definition amap_write := write_padding_first.
Definition pmap_new := new AllocationPageMap.
Definition pmap_read := read_padding_first AllocationPageMap.
Definition pmap_write := write_padding_first.
Definition fmap_new := new FreeMap.
Definition fmap_read := read_bits_first FreeMap.
Definition fmap_write := write_bits_first.
Definition fpmap_new := new FreePageMap.
Definition fpmap_read := read_bits_first FreePageMap.
Definition fpmap_write := write_bits_first.

End AnsiMapPage.

(** ** The density list *)

Definition DENSITY_LIST_ENTRY_PAGE_NUMBER_MASK : Z := 0x000FFFFF.

Record DensityListPageEntry := mk_DensityListPageEntry { density_entry_0 : Z }.

Module DensityListPageEntry.

Definition new (page free_slots : Z) : NdbResult DensityListPageEntry :=
  if negb (Z.land page (lnot_w 32 0x000FFFFF) =? 0)
  then Err (InvalidDensityListEntryPageNumber page) else
  if negb (Z.land free_slots (lnot_w 16 0x0FFF) =? 0)
  then Err (InvalidDensityListEntryFreeSlots free_slots) else
  Ok (mk_DensityListPageEntry (Z.lor page (wrap 32 (Z.shiftl free_slots 20)))).

Definition read : reader DensityListPageEntry :=
  value <- read_u32;; rd_ret (mk_DensityListPageEntry value).
Definition write (e : DensityListPageEntry) : list Z := write_u32 (density_entry_0 e).

Definition page (e : DensityListPageEntry) : Z :=
  Z.land (density_entry_0 e) DENSITY_LIST_ENTRY_PAGE_NUMBER_MASK.
Definition free_slots (e : DensityListPageEntry) : Z :=
  wrap 16 (Z.shiftr (density_entry_0 e) 20).

End DensityListPageEntry.

#[export] Instance DensityListPageEntry_serial : Serial DensityListPageEntry := {|
  ser_read := DensityListPageEntry.read;
  ser_write := DensityListPageEntry.write;
  ser_wf e := uint 32 (density_entry_0 e);
  ser_size := 4
|}.

Definition DENSITY_LIST_FILE_OFFSET : Z := 0x4200.

(** [entries] is the whole array, [entry_count] of which are in use. *)
Record DensityListPage (B : Type) := mk_DensityListPage {
  backfill_complete : bool;
  current_page : Z;
  entry_count : Z;
  dl_entries : list DensityListPageEntry;
  dl_trailer : PageTrailer B
}.
Arguments mk_DensityListPage {B}.
Arguments backfill_complete {B}.
Arguments current_page {B}.
Arguments entry_count {B}.
Arguments dl_entries {B}.
Arguments dl_trailer {B}.

(** The two implementations differ in [MAX_ENTRIES] and in the size of the
    body. *)
Module DensityListPage.
Section DensityListPage.
Context (MAX_ENTRIES BUFFER : nat) {B : Type} `{!Serial (PageTrailer B)}.

Definition entries (p : DensityListPage B) : list DensityListPageEntry :=
  take (Z.to_nat (entry_count p)) (dl_entries p).

Definition new (backfill_complete : bool) (current_page : Z)
    (entries : list DensityListPageEntry) (trailer : PageTrailer B) :
    NdbResult (DensityListPage B) :=
  if (MAX_ENTRIES <? length entries)%nat
  then Err (InvalidDensityListEntryCount (Z.of_nat (length entries))) else
  if negb (bool_decide (page_type trailer = DensityList))
  then Err (UnexpectedPageType (page_type trailer)) else
  let entry_count := wrap 8 (Z.of_nat (length entries)) in
  let entries := entries ++
    replicate (MAX_ENTRIES - length entries) (mk_DensityListPageEntry 0) in
  Ok (mk_DensityListPage backfill_complete current_page entry_count entries trailer).

(** The fields read through the cursor. *)
Definition read_body : reader (bool * Z * Z * list DensityListPageEntry) :=
  flags <- read_u8;;
  entry_count <- read_u8;;
  rd_ensure (entry_count <=? Z.of_nat MAX_ENTRIES) (InvalidDensityListEntryCount entry_count);;;
  padding <- read_u16;;
  rd_ensure (padding =? 0) InvalidDensityListPadding;;;
  current_page <- read_u32;;
  used <- rd_repeat (Z.to_nat entry_count) ser_read;;
  skip ((Z.of_nat MAX_ENTRIES - entry_count) * 4);;;
  padding <- read_exact 12;;
  rd_ensure (bool_decide (padding = replicate 12 0)) InvalidDensityListPadding;;;
  rd_ret (negb (Z.land flags 0x01 =? 0), current_page, entry_count,
    used ++ replicate (MAX_ENTRIES - length used) (mk_DensityListPageEntry 0)).

(** The bytes from [DENSITY_LIST_FILE_OFFSET] on. *)
Definition read_page : reader (DensityListPage B) :=
  buffer <- read_exact BUFFER;;
  body <- with_cursor buffer read_body;;
  trailer <- ser_read;;
  rd_ensure (bool_decide (page_type trailer = DensityList))
    (UnexpectedPageType (page_type trailer));;;
  let crc := compute_crc 0 buffer in
  rd_ensure (crc =? Page.crc trailer) (InvalidPageCrc crc);;;
  let '(backfill_complete, current_page, entry_count, entries) := body in
  rd_ret (mk_DensityListPage backfill_complete current_page entry_count entries trailer).

Definition read (f : list Z) : io_result (DensityListPage B) :=
  read_at f DENSITY_LIST_FILE_OFFSET read_page.

Definition write_body (p : DensityListPage B) : list Z :=
  write_u8 (if backfill_complete p then 0x01 else 0) ++ write_u8 (entry_count p) ++
  write_u16 0 ++ write_u32 (current_page p) ++ concat (map ser_write (dl_entries p)) ++
  replicate 12 0.

Definition write (p : DensityListPage B) (f : wfile) : io_result wfile :=
  let? buffer := fixed_buffer BUFFER (write_body p) in
  let crc := compute_crc 0 buffer in
  let f := wseek_start DENSITY_LIST_FILE_OFFSET f in
  let f := write_all buffer f in
  Ok (write_all (ser_write (with_crc (dl_trailer p) crc)) f).

Definition wf (p : DensityListPage B) : Prop :=
  uint 32 (current_page p) /\ 0 <= entry_count p <= Z.of_nat MAX_ENTRIES /\
  length (dl_entries p) = MAX_ENTRIES /\ Forall ser_wf (dl_entries p) /\
  drop (Z.to_nat (entry_count p)) (dl_entries p) =
    replicate (MAX_ENTRIES - Z.to_nat (entry_count p)) (mk_DensityListPageEntry 0) /\
  page_type (dl_trailer p) = DensityList /\ ser_wf (dl_trailer p).
End DensityListPage.
End DensityListPage.

Definition UNICODE_DENSITY_LIST_MAX_ENTRIES : nat := 119. (* 476 / 4 *)
Definition ANSI_DENSITY_LIST_MAX_ENTRIES : nat := 120. (* 480 / 4 *)

Module UnicodeDensityListPage.
Definition new := DensityListPage.new (B := UnicodePageId) UNICODE_DENSITY_LIST_MAX_ENTRIES.
Definition read := DensityListPage.read (B := UnicodePageId) UNICODE_DENSITY_LIST_MAX_ENTRIES 496.
Definition write := DensityListPage.write (B := UnicodePageId) 496.
End UnicodeDensityListPage.

Module AnsiDensityListPage.
Definition new := DensityListPage.new (B := AnsiPageId) ANSI_DENSITY_LIST_MAX_ENTRIES.
Definition read := DensityListPage.read (B := AnsiPageId) ANSI_DENSITY_LIST_MAX_ENTRIES 500.
Definition write := DensityListPage.write (B := AnsiPageId) 500.
End AnsiDensityListPage.

(** ** Lemmas *)

Lemma PageType_round t : t <> PageType_None -> PageType_try_from (PageType_as_u8 t) = Ok t.
Proof. by destruct t. Qed.

Lemma PageType_uint t : uint 8 (PageType_as_u8 t).
Proof. by destruct t. Qed.
#[export] Hint Resolve PageType_uint : pst.

Lemma PageType_as_u8_inj t u : PageType_as_u8 t = PageType_as_u8 u -> t = u.
Proof. by destruct t, u. Qed.

Lemma read_page_type_app t s :
  t <> PageType_None -> read_page_type (write_page_type t ++ s) = Ok (t, s).
Proof.
  intros Ht. unfold read_page_type, write_page_type. rd_run. by rewrite PageType_round.
Qed.

Lemma read_page_type_eq {A} t s (k : PageType -> reader A) :
  t <> PageType_None -> rd_bind read_page_type k (write_page_type t ++ s) = k t s.
Proof. intros Ht. by apply rd_bind_eq, read_page_type_app. Qed.

#[export] Instance UnicodePageTrailer_rt : RoundTrip (PageTrailer UnicodePageId).
Proof.
  split; cbn [ser_read ser_write ser_wf ser_size UnicodePageTrailer_serial].
  - intros [] s (? & ? & ? & ?). cbn [page_type signature crc pt_block_id] in *.
    unfold UnicodePageTrailer.read, UnicodePageTrailer.write.
    cbn [page_type signature crc pt_block_id].
    rewrite <- !app_assoc, read_page_type_eq by done. by rd_run.
  - done.
  - intros t. unfold UnicodePageTrailer.write, write_page_type. bytes_tac.
Qed.

#[export] Instance AnsiPageTrailer_rt : RoundTrip (PageTrailer AnsiPageId).
Proof.
  split; cbn [ser_read ser_write ser_wf ser_size AnsiPageTrailer_serial].
  - intros [] s (? & ? & ? & ?). cbn [page_type signature crc pt_block_id] in *.
    unfold AnsiPageTrailer.read, AnsiPageTrailer.write.
    cbn [page_type signature crc pt_block_id].
    rewrite <- !app_assoc, read_page_type_eq by done. by rd_run.
  - done.
  - intros t. unfold AnsiPageTrailer.write, write_page_type. bytes_tac.
Qed.

#[export] Instance DensityListPageEntry_rt : RoundTrip DensityListPageEntry.
Proof. word_round_trip. Qed.

Lemma trailer_wf_with_crc {B} `{!Serial B} (t : PageTrailer B) c :
  trailer_wf t -> uint 32 c -> trailer_wf (with_crc t c).
Proof. intros (? & ? & ? & ?) ?. by split_and!. Qed.

(** The body and trailer of a page that was accepted. *)
Lemma unicode_trailer_crc (t : UnicodePageTrailer) : length (ser_write t) = 16%nat.
Proof. done. Qed.

Lemma ansi_map_trailer P buffer (t : AnsiPageTrailer) s :
  P <> PageType_None -> page_type t = P -> trailer_wf t -> bytes_ok buffer ->
  AnsiMapPage.read_trailer P buffer (ser_write (with_crc t (compute_crc 0 buffer)) ++ s) =
    Ok (with_crc t (compute_crc 0 buffer), s).
Proof.
  intros HP Ht Hwf Hb. unfold AnsiMapPage.read_trailer.
  assert (ser_wf (with_crc t (compute_crc 0 buffer))) by
    (by apply trailer_wf_with_crc; [|apply compute_crc_uint]).
  rd_run. rewrite rd_ensure_true by by apply bool_decide_eq_true. cbv zeta. cbn [crc with_crc].
  by rd_run.
Qed.

Definition unicode_map_wf (p : UnicodeMapPage.t) : Prop :=
  array_wf MAP_BITS_SIZE (UnicodeMapPage.map_bits p) /\ ser_wf (UnicodeMapPage.trailer p).

Definition ansi_map_wf (P : PageType) (p : AnsiMapPage.t) : Prop :=
  array_wf MAP_BITS_SIZE (AnsiMapPage.map_bits p) /\ ser_wf (AnsiMapPage.trailer p) /\
  uint 32 (AnsiMapPage.padding p) /\ page_type (AnsiMapPage.trailer p) = P.

(** What a page's codec assumes of its trailer's. *)
Class PageTrailerLaws (B : Type) `{!Serial (PageTrailer B)} := {
  pt_rt :: RoundTrip (PageTrailer B);
  pt_with_crc : forall (t : PageTrailer B) c, ser_wf t -> uint 32 c -> ser_wf (with_crc t c)
}.

#[export] Instance UnicodePageTrailer_laws : PageTrailerLaws UnicodePageId.
Proof. split; [apply _|]. intros. by apply trailer_wf_with_crc. Qed.
#[export] Instance AnsiPageTrailer_laws : PageTrailerLaws AnsiPageId.
Proof. split; [apply _|]. intros. by apply trailer_wf_with_crc. Qed.
#[export] Hint Resolve pt_with_crc : pst.

Section density.
Context (MAX BUF : nat) {B : Type} `{!Serial (PageTrailer B), !PageTrailerLaws B}.
Hypothesis HBUF : BUF = (8 + 4 * MAX + 12)%nat.
Hypothesis HMAX : (MAX < 256)%nat.

Lemma density_write_body_length (p : DensityListPage B) :
  DensityListPage.wf MAX p -> length (DensityListPage.write_body p) = BUF.
Proof using HBUF HMAX.
  intros (_ & _ & Hl & _). unfold DensityListPage.write_body.
  rewrite !length_app, (length_concat_map _ 4), Hl by done.
  rewrite length_replicate. autorewrite with pst_len. lia.
Qed.

Lemma density_write_body_bytes (p : DensityListPage B) :
  bytes_ok (DensityListPage.write_body p).
Proof.
  unfold DensityListPage.write_body. bytes_tac; try apply le_bytes_ok. by repeat constructor.
Qed.

Lemma density_read_body (p : DensityListPage B) :
  DensityListPage.wf MAX p ->
  DensityListPage.read_body MAX (DensityListPage.write_body p) =
    Ok (backfill_complete p, current_page p, entry_count p, dl_entries p, []).
Proof using HBUF HMAX.
  intros (Hc & [Hn0 Hn] & Hl & Hes & Hdrop & _).
  unfold DensityListPage.read_body, DensityListPage.write_body.
  set (n := Z.to_nat (entry_count p)) in *.
  rewrite <- (take_drop n (dl_entries p)) at 1. rewrite map_app, concat_app.
  set (used := take n (dl_entries p)) in *.
  assert (Hu : length used = n) by (subst used; rewrite length_take; lia).
  assert (Hn' : uint 8 (entry_count p)) by (unfold uint; lia).
  assert (Hf : uint 8 (if backfill_complete p then 1 else 0))
    by (by destruct (backfill_complete p)).
  rewrite <- (app_nil_r (replicate 12 0)). rd_run.
  erewrite rd_bind_eq; [|apply rd_repeat_ser; [done|by apply Forall_take]].
  unfold rd_bind at 1. unfold skip. cbn [rbind].
  rewrite (drop_app_exact (concat _)); [|rewrite (length_concat_map _ 4), length_drop by done; lia].
  rd_run. rewrite Hu. unfold rd_ret. do 2 f_equal.
  rewrite <- Hdrop. unfold used. rewrite take_drop. do 3 f_equal. by destruct (backfill_complete p).
Qed.

Lemma density_page_round_trip (p : DensityListPage B) (f : wfile) :
  DensityListPage.wf MAX p ->
  exists f', DensityListPage.write BUF p f = Ok f' /\
    DensityListPage.read MAX BUF (wf_data f') =
      Ok (mk_DensityListPage (backfill_complete p) (current_page p) (entry_count p)
            (dl_entries p) (with_crc (dl_trailer p)
              (compute_crc 0 (DensityListPage.write_body p)))).
Proof using HBUF HMAX PageTrailerLaws0.
  intros Hwf. pose proof (density_write_body_length p Hwf) as Hl.
  pose proof (density_read_body p Hwf) as Hb.
  pose proof (density_write_body_bytes p) as Hok.
  destruct Hwf as (_ & _ & _ & _ & _ & Ht & Htw).
  unfold DensityListPage.write. rewrite fixed_buffer_exact by done. cbn [rbind].
  rewrite write_all_app. eexists. split; [done|].
  apply read_at_write. intros s. eexists. unfold DensityListPage.read_page.
  set (c := compute_crc 0 (DensityListPage.write_body p)).
  assert (ser_wf (with_crc (dl_trailer p) c)) by by apply pt_with_crc, compute_crc_uint.
  rd_run. erewrite rd_bind_eq; [|by eapply with_cursor_eq]. rd_run.
  rewrite rd_ensure_true by by apply bool_decide_eq_true. cbv zeta.
  rewrite rd_ensure_true by apply Z.eqb_refl. done.
Qed.
End density.

Definition unicode_map_with_crc (p : UnicodeMapPage.t) : UnicodeMapPage.t :=
  UnicodeMapPage.mk (UnicodeMapPage.map_bits p)
    (with_crc (UnicodeMapPage.trailer p) (compute_crc 0 (UnicodeMapPage.map_bits p))).

Definition ansi_map_with_crc (p : AnsiMapPage.t) (body : list Z) : AnsiMapPage.t :=
  AnsiMapPage.mk (AnsiMapPage.map_bits p)
    (with_crc (AnsiMapPage.trailer p) (compute_crc 0 body)) (AnsiMapPage.padding p).

(** Concrete pages, used to evaluate the codecs. *)
Definition sample_map_page : UnicodeMapPage.t :=
  UnicodeMapPage.mk (0x80 :: replicate 495 0)
    (mk_PageTrailer AllocationMap 0 0 (mk_UnicodePageId 0x4400)).

Definition sample_ansi_map_page : AnsiMapPage.t :=
  AnsiMapPage.mk (0x80 :: replicate 495 0)
    (mk_PageTrailer FreeMap 0 0 (mk_AnsiPageId 0x4400)) 0.

Definition sample_density_page : DensityListPage UnicodePageId :=
  mk_DensityListPage true 7 2
    (mk_DensityListPageEntry 0x00100001 :: mk_DensityListPageEntry 0x00200002 ::
     replicate 117 (mk_DensityListPageEntry 0))
    (mk_PageTrailer DensityList 0x55 0 (mk_UnicodePageId 9)).

(** An accepted page carries the CRC of its body. *)
Lemma unicode_map_read_crc P s p t :
  UnicodeMapPage.read P s = Ok (p, t) -> bytes_ok s ->
  le_val (take 4 (drop 500 s)) = compute_crc 0 (take 496 (drop 0 s)).
Proof.
  intros H Hs. unfold UnicodeMapPage.read in H. cbn [ser_read UnicodePageTrailer_serial] in H.
  unfold UnicodePageTrailer.read, read_page_type, read_u8, read_u16, read_u32, read_uint in H.
  rd_inv. zb. cbn [crc] in *.
  repeat match goal with
  | H : read_exact _ _ = Ok _ |- _ => apply read_exact_ok in H; destruct H as [-> ?]
  end.
  unfold MAP_BITS_SIZE in *. rewrite drop_0, take_app_exact by done.
  match goal with
  | |- le_val (take 4 (drop 500 (?a ++ ?b ++ ?c ++ ?d ++ ?e ++ ?r))) = _ =>
      rewrite (app_assoc a), (app_assoc (a ++ b)), (app_assoc ((a ++ b) ++ c));
      rewrite (drop_app_exact (((a ++ b) ++ c) ++ d) _ 500) by (rewrite !length_app; lia);
      by rewrite (take_app_exact e) by done
  end.
Qed.

Lemma DensityListPage_new_wf MAX {B} `{!Serial (PageTrailer B)} backfill cur entries
    (trailer : PageTrailer B) :
  (MAX < 256)%nat -> uint 32 cur -> Forall ser_wf entries -> ser_wf trailer ->
  (length entries <= MAX)%nat -> page_type trailer = DensityList ->
  exists p, DensityListPage.new MAX backfill cur entries trailer = Ok p /\
    DensityListPage.wf MAX p /\ DensityListPage.entries p = entries.
Proof.
  intros HM Hc Hes Ht Hl Hp. unfold DensityListPage.new.
  destruct (Nat.ltb_spec MAX (length entries)); [lia|].
  rewrite bool_decide_true by done. cbn [negb]. eexists. split; [done|].
  unfold DensityListPage.wf, DensityListPage.entries.
  cbn [current_page entry_count dl_entries dl_trailer].
  rewrite wrap_small by (unfold uint; lia). rewrite Nat2Z.id, take_app_length, drop_app_length.
  split; [|done]. split_and!; [done|lia|lia| | |done|done|done].
  - rewrite length_app, length_replicate. lia.
  - apply Forall_app. split; [done|]. by apply Forall_replicate.
Qed.

Lemma land_high_0 x n w :
  0 <= n <= w -> uint w x ->
  (Z.land x (lnot_w w (Z.ones n)) =? 0) = (x <? 2 ^ n).
Proof.
  intros Hn Hx. destruct (Z.ltb_spec x (2 ^ n)) as [H|H].
  - apply Z.eqb_eq. zbits. rewrite Z.land_spec, Z.bits_0, testbit_lnot_w by lia.
    destruct (Z.lt_ge_cases n0 n).
    + rewrite Z.ones_spec_low by lia. by rewrite !andb_false_r.
    + by rewrite (uint_testbit_high n x) by (destruct Hx; unfold uint; lia).
  - apply Z.eqb_neq. intros H0.
    assert (0 < 2 ^ n) by (apply Z.pow_pos_nonneg; lia).
    pose proof (Z.bit_log2 x ltac:(lia)) as Hb.
    assert (n <= Z.log2 x) by (apply Z.log2_le_pow2; lia).
    assert (Z.log2 x < w) by (destruct Hx; apply Z.log2_lt_pow2; lia).
    apply (f_equal (fun y => Z.testbit y (Z.log2 x))) in H0.
    rewrite Z.land_spec, Hb, Z.bits_0, testbit_lnot_w, Z.ones_spec_high in H0 by lia.
    destruct (Z.ltb_spec (Z.log2 x) w); [done|lia].
Qed.

(** ** Properties *)

(** A Unicode map page of either kind is written as 512 bytes that read
    back to it, its trailer completed with the CRC of the bits. *)
Theorem UnicodeMapPage_round_trip (p : UnicodeMapPage.t) (s : list Z)
    (Hwf : unicode_map_wf p) :
  length (UnicodeMapPage.write p) = 512%nat /\
  UnicodeMapPage.read (PageType_as_u8 (page_type (UnicodeMapPage.trailer p)))
    (UnicodeMapPage.write p ++ s) = Ok (unicode_map_with_crc p, s).
Proof.
  destruct Hwf as [[Hl Hb] Ht]. unfold UnicodeMapPage.write. split.
  { by rewrite length_app, Hl. }
  unfold UnicodeMapPage.read.
  assert (ser_wf (with_crc (UnicodeMapPage.trailer p) (compute_crc 0 (UnicodeMapPage.map_bits p))))
    by by apply pt_with_crc, compute_crc_uint.
  rd_run. cbv zeta. cbn [crc with_crc]. by rd_run.
Qed.

Lemma UnicodeMapPage_round_trip_witness :
  length (UnicodeMapPage.write sample_map_page) = 512%nat /\
  UnicodeMapPage.read 0x84 (UnicodeMapPage.write sample_map_page ++ []) =
    Ok (unicode_map_with_crc sample_map_page, []).
Proof.
  apply (UnicodeMapPage_round_trip sample_map_page []).
  split; [split; [done|]|by split_and!].
  repeat constructor; done.
Defined.

(** The four ANSI map pages, the two with the padding before the bits
    and the two with it after them, are written as 512 bytes that read back
    to the page. *)
Theorem AnsiMapPage_round_trip (P : PageType) (p : AnsiMapPage.t) (s : list Z)
    (Hwf : ansi_map_wf P p) :
  (exists bs, AnsiMapPage.write_padding_first p = Ok bs /\ length bs = 512%nat /\
    AnsiMapPage.read_padding_first P (bs ++ s) =
      Ok (ansi_map_with_crc p (take 500 bs), s)) /\
  (exists bs, AnsiMapPage.write_bits_first p = Ok bs /\ length bs = 512%nat /\
    AnsiMapPage.read_bits_first P (bs ++ s) =
      Ok (ansi_map_with_crc p (take 500 bs), s)).
Proof.
  destruct Hwf as ([Hl Hb] & Ht & Hp & HP). pose proof (proj1 Ht) as Hnone. rewrite HP in Hnone.
  assert (Hw : forall fields, length fields = 500%nat -> bytes_ok fields ->
    exists bs, AnsiMapPage.write_buffer p fields = Ok bs /\ length bs = 512%nat /\
      bs = fields ++ ser_write (with_crc (AnsiMapPage.trailer p) (compute_crc 0 fields))).
  { intros fields Hf _. unfold AnsiMapPage.write_buffer. rewrite fixed_buffer_exact by done.
    cbn [rbind]. eexists. split_and!; [done| |done]. by rewrite length_app, Hf. }
  split.
  - destruct (Hw (write_u32 (AnsiMapPage.padding p) ++ AnsiMapPage.map_bits p))
      as (bs & Hbs & Hlen & ->); [by rewrite length_app, Hl|bytes_tac|].
    set (fields := write_u32 _ ++ _) in *.
    assert (Hf : length fields = 500%nat) by (unfold fields; by rewrite length_app, Hl).
    eexists. split_and!; [done..|]. unfold AnsiMapPage.read_padding_first. rd_run.
    erewrite rd_bind_eq; [|eapply with_cursor_eq; unfold fields;
      rewrite <- (app_nil_r (AnsiMapPage.map_bits p)); by rd_run].
    erewrite rd_bind_eq; [|apply ansi_map_trailer; [done..|unfold fields; bytes_tac]].
    by rewrite take_app_exact.
  - destruct (Hw (AnsiMapPage.map_bits p ++ write_u32 (AnsiMapPage.padding p)))
      as (bs & Hbs & Hlen & ->); [by rewrite length_app, Hl|bytes_tac|].
    set (fields := _ ++ write_u32 _) in *.
    assert (Hf : length fields = 500%nat) by (unfold fields; by rewrite length_app, Hl).
    eexists. split_and!; [done..|]. unfold AnsiMapPage.read_bits_first. rd_run.
    erewrite rd_bind_eq; [|eapply with_cursor_eq; unfold fields;
      rewrite <- (app_nil_r (write_u32 (AnsiMapPage.padding p))); by rd_run].
    erewrite rd_bind_eq; [|apply ansi_map_trailer; [done..|unfold fields; bytes_tac]].
    by rewrite take_app_exact.
Qed.

Lemma AnsiMapPage_round_trip_witness :
  (exists bs, AnsiMapPage.write_padding_first sample_ansi_map_page = Ok bs /\
    length bs = 512%nat /\
    AnsiMapPage.read_padding_first FreeMap (bs ++ []) =
      Ok (ansi_map_with_crc sample_ansi_map_page (take 500 bs), [])) /\
  (exists bs, AnsiMapPage.fmap_write sample_ansi_map_page = Ok bs /\
    length bs = 512%nat /\
    AnsiMapPage.fmap_read (bs ++ []) =
      Ok (ansi_map_with_crc sample_ansi_map_page (take 500 bs), [])).
Proof.
  apply (AnsiMapPage_round_trip FreeMap sample_ansi_map_page []).
  split; [split; [done|repeat constructor; done]|by split_and!].
Defined.

(** Damage to an allocation map is noticed.  Up to four consecutive
    bytes of the 496 bytes of a map page that the reader accepts are
    replaced by others: the reader rejects the result. *)
Theorem UnicodeMapPage_detects_burst (P : Z) (pre x y post : list Z) (p : UnicodeMapPage.t)
    (t : list Z) (Hbytes : bytes_ok (pre ++ x ++ post)) (Hy : bytes_ok y)
    (Hread : UnicodeMapPage.read P (pre ++ x ++ post) = Ok (p, t))
    (Hlen : length x = length y) (Hburst : (length x <= 4)%nat)
    (Hrange : (length pre + length x <= 496)%nat) (Hneq : x <> y) :
  is_ok (UnicodeMapPage.read P (pre ++ y ++ post)) = false.
Proof.
  destruct (UnicodeMapPage.read P (pre ++ y ++ post)) as [[p' t']| |] eqn:Hread';
    [exfalso|done..].
  assert (bytes_ok (pre ++ y ++ post)).
  { apply Forall_app in Hbytes as [? H]. apply Forall_app in H as [? ?].
    by repeat apply bytes_ok_app. }
  apply unicode_map_read_crc in Hread, Hread'; [|done..]. apply Hneq.
  rewrite (region_after 500 pre y x post) in Hread' by lia.
  apply (crc_region_burst 0 496 pre x y post); [done|done|done|done|lia|lia|].
  by rewrite <- Hread, <- Hread'.
Qed.

Lemma UnicodeMapPage_detects_burst_witness :
  is_ok (UnicodeMapPage.read 0x84
    ([] ++ [0x81] ++ drop 1 (UnicodeMapPage.write sample_map_page))) = false.
Proof.
  eapply (UnicodeMapPage_detects_burst 0x84 [] [0x80]); cycle 2;
    [vm_compute; reflexivity|reflexivity|vm_compute; lia|vm_compute; lia|discriminate| |].
  - apply (bool_decide_unpack _). vm_compute. exact I.
  - repeat constructor; done.
Defined.

(** A density list entry is built exactly when the page number fits its
    20 bits and the free slot count its 12 bits, the first offence being
    reported; both can then be read back. *)
Theorem DensityListPageEntry_new_spec (page free_slots : Z)
    (Hp : uint 32 page) (Hs : uint 16 free_slots) :
  match DensityListPageEntry.new page free_slots with
  | Ok e => page < 2 ^ 20 /\ free_slots < 2 ^ 12 /\ ser_wf e /\
      DensityListPageEntry.page e = page /\ DensityListPageEntry.free_slots e = free_slots
  | Err e => (2 ^ 20 <= page /\ e = InvalidDensityListEntryPageNumber page) \/
      (page < 2 ^ 20 /\ 2 ^ 12 <= free_slots /\ e = InvalidDensityListEntryFreeSlots free_slots)
  | Panic => False
  end.
Proof.
  unfold DensityListPageEntry.new.
  change 0x000FFFFF with (Z.ones 20). change 0x0FFF with (Z.ones 12).
  rewrite !land_high_0 by (done || lia).
  destruct (Z.ltb_spec page (2 ^ 20)); cbn [negb]; [|left; split; [lia|done]].
  destruct (Z.ltb_spec free_slots (2 ^ 12)); cbn [negb]; [|right; split_and!; [lia|lia|done]].
  assert (uint 20 page) by (destruct Hp; split; lia).
  assert (uint 12 free_slots) by (destruct Hs; split; lia).
  assert (Hsh : uint 32 (Z.shiftl free_slots 20)).
  { rewrite Z.shiftl_mul_pow2 by done. destruct Hs. unfold uint. lia. }
  rewrite wrap_small by done. rewrite Z.lor_comm.
  destruct (shiftl_lor_low free_slots 20 page) as [Hl Hr]; [done|by destruct Hs|done|].
  split_and!; [done|done| | |].
  - cbn. by apply uint_lor.
  - exact Hl.
  - unfold DensityListPageEntry.free_slots. cbn [density_entry_0]. rewrite Hr. by apply wrap_small.
Qed.

Lemma DensityListPageEntry_new_spec_witness :
  0x12345 < 2 ^ 20 /\ 0xABC < 2 ^ 12 /\ ser_wf (mk_DensityListPageEntry 0xABC12345) /\
  DensityListPageEntry.page (mk_DensityListPageEntry 0xABC12345) = 0x12345 /\
  DensityListPageEntry.free_slots (mk_DensityListPageEntry 0xABC12345) = 0xABC.
Proof. apply (DensityListPageEntry_new_spec 0x12345 0xABC); done. Defined.

(** The density list that [new] builds from at most [MAX_ENTRIES]
    entries holds those entries, and written anywhere into a file, of either
    format, it is read back from that file with the same fields. *)
Theorem DensityListPage_round_trip (f : wfile) :
  (forall backfill cur entries (trailer : UnicodePageTrailer),
    uint 32 cur -> Forall ser_wf entries -> ser_wf trailer ->
    (length entries <= 119)%nat -> page_type trailer = DensityList ->
    exists p f' c, UnicodeDensityListPage.new backfill cur entries trailer = Ok p /\
      DensityListPage.entries p = entries /\ UnicodeDensityListPage.write p f = Ok f' /\
      UnicodeDensityListPage.read (wf_data f') =
        Ok (mk_DensityListPage backfill cur (entry_count p) (dl_entries p) (with_crc trailer c))) /\
  (forall backfill cur entries (trailer : AnsiPageTrailer),
    uint 32 cur -> Forall ser_wf entries -> ser_wf trailer ->
    (length entries <= 120)%nat -> page_type trailer = DensityList ->
    exists p f' c, AnsiDensityListPage.new backfill cur entries trailer = Ok p /\
      DensityListPage.entries p = entries /\ AnsiDensityListPage.write p f = Ok f' /\
      AnsiDensityListPage.read (wf_data f') =
        Ok (mk_DensityListPage backfill cur (entry_count p) (dl_entries p) (with_crc trailer c))).
Proof.
  assert (Hnew : forall MAX B (H : Serial (PageTrailer B)) b c es (t : PageTrailer B) p,
    DensityListPage.new MAX b c es t = Ok p ->
    backfill_complete p = b /\ current_page p = c /\ dl_trailer p = t).
  { intros MAX B H b c es t p Hn. unfold DensityListPage.new in Hn. repeat res_step. by inv_ok. }
  split; intros b c es t Hc Hes Ht Hl Hp.
  - destruct (DensityListPage_new_wf 119 b c es t ltac:(lia) Hc Hes Ht Hl Hp) as (p & Hn & Hwf & He).
    destruct (density_page_round_trip (B := UnicodePageId) 119 496 eq_refl ltac:(lia) p f Hwf) as (f' & Hw & Hr).
    destruct (Hnew _ _ _ _ _ _ _ _ Hn) as (<- & <- & <-). eauto 10.
  - destruct (DensityListPage_new_wf 120 b c es t ltac:(lia) Hc Hes Ht Hl Hp) as (p & Hn & Hwf & He).
    destruct (density_page_round_trip (B := AnsiPageId) 120 500 eq_refl ltac:(lia) p f Hwf) as (f' & Hw & Hr).
    destruct (Hnew _ _ _ _ _ _ _ _ Hn) as (<- & <- & <-). eauto 10.
Qed.

Lemma DensityListPage_round_trip_witness :
  exists p f' c,
    UnicodeDensityListPage.new true 7 [mk_DensityListPageEntry 0x00100001]
      (mk_PageTrailer DensityList 0x55 0 (mk_UnicodePageId 9)) = Ok p /\
    DensityListPage.entries p = [mk_DensityListPageEntry 0x00100001] /\
    UnicodeDensityListPage.write p (mk_wfile [1; 2; 3] 0) = Ok f' /\
    UnicodeDensityListPage.read (wf_data f') =
      Ok (mk_DensityListPage true 7 (entry_count p) (dl_entries p)
        (with_crc (mk_PageTrailer DensityList 0x55 0 (mk_UnicodePageId 9)) c)).
Proof.
  apply (proj1 (DensityListPage_round_trip (mk_wfile [1; 2; 3] 0)));
    [done|repeat constructor; done|by split_and!|cbn; lia|done].
Defined.
