(* ===== verification/FreeBits.v ===== *)
(** * Searching an allocation map

    [AllocationMapPage::find_free_bits] ([ndb/page.rs]): the scan of the 496
    bytes of an allocation map for a run of clear bits.  Bit [p] of the map
    is bit [7 - p mod 8] of byte [p / 8].  The ranges are of [u16]; only the
    sum with [max_size] can leave [u16], every other value is at most 3976. *)
From S2P Require Import Prelude Errors Io Encode.

Definition leading_zero_count (b : Z) : Z :=
  if b =? 0 then 8
  else if b <? 0x02 then 7
  else if b <? 0x04 then 6
  else if b <? 0x08 then 5
  else if b <? 0x10 then 4
  else if b <? 0x20 then 3
  else if b <? 0x40 then 2
  else if b <? 0x80 then 1
  else 0.

Definition trailing_zero_count (b : Z) : Z :=
  if b =? 0 then 8
  else if Z.land b 0x7F =? 0 then 7
  else if Z.land b 0x3F =? 0 then 6
  else if Z.land b 0x1F =? 0 then 5
  else if Z.land b 0x0F =? 0 then 4
  else if Z.land b 0x07 =? 0 then 3
  else if Z.land b 0x03 =? 0 then 2
  else if Z.land b 0x01 =? 0 then 1
  else 0.

(** [Range<u16>]. *)
Record Range := mk_Range { r_start : Z; r_end : Z }.

Definition r_len (r : Range) : Z := r_end r - r_start r.

(** [if current.end - current.start > max.end - max.start { max = current }] *)
Definition longer (current max_free_slots : Range) : Range :=
  if r_len max_free_slots <? r_len current then current else max_free_slots.

(** [for i in (leading_zero + 1)..(7 - trailing_zero)], with the inner
    [current]. *)
Fixpoint scan_byte (page : Z) (bits : list Z) (max_free_slots current : Range) : Range * Range :=
  match bits with
  | [] => (max_free_slots, current)
  | i :: bits =>
      if Z.land page (Z.shiftr 0x80 i) =? 0
      then scan_byte page bits max_free_slots (mk_Range (r_start current) (r_end current + 1))
      else scan_byte page bits (longer current max_free_slots)
             (mk_Range (r_end current + 1) (r_end current + 1))
  end.

(** The body of the outer loop. *)
Definition find_step {E} (page : Z) (max_free_slots current : Range) : res E (Range * Range) :=
  if page =? 0 then
    let current := mk_Range (r_start current) (r_end current + 8) in
    Ok (longer current max_free_slots, current)
  else
    let leading_zero := leading_zero_count page in
    let trailing_zero := trailing_zero_count page in
    if negb (leading_zero + trailing_zero <? 8) then Panic else
    let page_offset := r_end current + 8 in
    let current := mk_Range (r_start current) (r_end current + leading_zero) in
    let max_free_slots := longer current max_free_slots in
    let max_free_slots :=
      if negb (page =? 0xFF) && (r_len max_free_slots + 2 <? 8 - trailing_zero - leading_zero)
      then
        let inner := mk_Range (r_end current + 1) (r_end current + 1) in
        let '(max_free_slots, inner) :=
          scan_byte page
            (seqZ (leading_zero + 1) (7 - trailing_zero - (leading_zero + 1)))
            max_free_slots inner in
        longer inner max_free_slots
      else max_free_slots in
    Ok (max_free_slots, mk_Range (page_offset - trailing_zero) page_offset).

Fixpoint find_loop {E} (max_size : Z) (map_bits : list Z) (max_free_slots current : Range) :
    res E (Range * Range) :=
  match map_bits with
  | [] => Ok (max_free_slots, current)
  | page :: map_bits =>
      let? '(max_free_slots, current) := find_step page max_free_slots current in
      if max_size <=? r_len max_free_slots
      then Ok (max_free_slots, current)
      else find_loop max_size map_bits max_free_slots current
  end.

Definition find_free_bits {E} (map_bits : list Z) (max_size : Z) : res E Range :=
  let? '(max_free_slots, current) := find_loop max_size map_bits (mk_Range 0 0) (mk_Range 0 0) in
  let max_free_slots := longer current max_free_slots in
  Ok (mk_Range (r_start max_free_slots)
        (Z.min (r_end max_free_slots) (wrapping_add 16 (r_start max_free_slots) max_size))).

(** ** Specification *)

(** Bit [p] of the map: set when the 64 bytes it stands for are in use. *)
Definition map_bit (map_bits : list Z) (p : Z) : bool :=
  Z.testbit (nth (Z.to_nat (p / 8)) map_bits 0) (7 - p mod 8).

(** [[a..b)] is free in the function [bit]. *)
Definition free_in (bit : Z -> bool) (a b : Z) : Prop :=
  0 <= a <= b /\ forall p, a <= p < b -> bit p = false.

(** A run of clear bits of the map. *)
Definition free_run (map_bits : list Z) (a b : Z) : Prop :=
  free_in (map_bit map_bits) a b /\ b <= 8 * Z.of_nat (length map_bits).

(** What is known when the bits below [p] have been seen: [m] is free, [c]
    is the run that ends at [p], and no free run below [p] is longer than
    both. *)
Definition scanned (bit : Z -> bool) (p : Z) (m c : Range) : Prop :=
  (free_in bit (r_start m) (r_end m) /\ r_end m <= p) /\
  (free_in bit (r_start c) p /\ r_end c = p /\ (r_start c = 0 \/ bit (r_start c - 1) = true)) /\
  forall a b, free_in bit a b -> b <= p -> b - a <= Z.max (r_len m) (r_len c).

(** ** Lemmas *)

Section scan.
Context (bit : Z -> bool).

Lemma scanned_zero p m c :
  scanned bit p m c -> bit p = false ->
  scanned bit (p + 1) m (mk_Range (r_start c) (r_end c + 1)).
Proof.
  intros ([Hm Hmp] & ([Hc0 Hc] & Hce & Hs) & Hmax) Hp. unfold scanned, r_len in *.
  cbn [r_start r_end]. split_and!; [done|lia| |lia|done|].
  - split; [lia|]. intros q Hq. destruct (Z.eq_dec q p) as [->|]; [done|]. apply Hc. lia.
  - intros a b [Hab Hf] Hb. destruct (Z.eq_dec b (p + 1)) as [->|].
    + destruct (Z.lt_ge_cases a (r_start c)); [|lia].
      destruct Hs as [|Hs]; [lia|]. rewrite Hf in Hs by lia. done.
    + specialize (Hmax a b (conj Hab Hf) ltac:(lia)). lia.
Qed.

Lemma scanned_zeros n p m c :
  scanned bit p m c -> (forall i, 0 <= i < Z.of_nat n -> bit (p + i) = false) ->
  scanned bit (p + Z.of_nat n) m (mk_Range (r_start c) (r_end c + Z.of_nat n)).
Proof.
  intros Hs Hz. induction n as [|n IH].
  - rewrite !Z.add_0_r. by destruct c.
  - replace (p + Z.of_nat (S n)) with (p + Z.of_nat n + 1) by lia.
    replace (r_end c + Z.of_nat (S n)) with (r_end c + Z.of_nat n + 1) by lia.
    apply (scanned_zero (p + Z.of_nat n) m (mk_Range (r_start c) (r_end c + Z.of_nat n))).
    + apply IH. intros i Hi. apply Hz. lia.
    + apply Hz. lia.
Qed.

Lemma longer_len c m : r_len c <= r_len (longer c m) /\ r_len m <= r_len (longer c m).
Proof. unfold longer. destruct (Z.ltb_spec (r_len m) (r_len c)); lia. Qed.

Lemma scanned_longer p m c : scanned bit p m c -> scanned bit p (longer c m) c.
Proof.
  intros (Hm & Hc & Hmax). split; [|split]; [|done|].
  - unfold longer. destruct (r_len m <? r_len c); [|done].
    destruct Hc as (Hc & He & _). rewrite He. split; [done|lia].
  - intros a b Hab Hb. specialize (Hmax a b Hab Hb). pose proof (longer_len c m). lia.
Qed.

(** Past a stretch that ends with a set bit. *)
Lemma scanned_jump p q m c :
  scanned bit p m c -> p < q -> r_len c <= r_len m -> bit p = true -> bit (q - 1) = true ->
  (forall a b, free_in bit a b -> p < a -> b < q -> b - a <= r_len m) ->
  scanned bit q m (mk_Range q q).
Proof.
  intros ([Hm Hmp] & ([Hc0 Hc] & Hce & Hs) & Hmax) Hpq Hlen Hp Hq Hin.
  unfold scanned, r_len in *. cbn [r_start r_end]. split_and!; [done|lia| |lia|by right|].
  - split; [lia|]. lia.
  - intros a b [Hab Hf] Hb. rewrite Z.max_l by lia.
    destruct (Z.le_gt_cases b p); [specialize (Hmax a b (conj Hab Hf) ltac:(lia)); lia|].
    destruct (Z.le_gt_cases a p).
    { destruct (Z.eq_dec a b) as [->|]; [lia|]. rewrite Hf in Hp by lia. done. }
    destruct (Z.eq_dec b q) as [->|].
    { destruct (Z.eq_dec a q) as [->|]; [lia|]. rewrite Hf in Hq by lia. done. }
    apply Hin; [by split|lia|lia].
Qed.

Lemma scanned_one p m c :
  scanned bit p m c -> r_len c <= r_len m -> bit p = true ->
  scanned bit (p + 1) m (mk_Range (p + 1) (p + 1)).
Proof.
  intros Hs Hl Hp. eapply scanned_jump; [done|lia|done|done|by replace (p + 1 - 1) with p by lia|].
  intros a b [Hab _] Ha Hb. lia.
Qed.

(** The inner loop reads the bits of the byte one by one. *)
Lemma scan_byte_scanned page base n i m c :
  (forall j, i <= j < i + Z.of_nat n ->
    (Z.land page (Z.shiftr 0x80 j) =? 0) = negb (bit (base + j))) ->
  scanned bit (base + i) m c ->
  let '(m', c') := scan_byte page (seqZ i (Z.of_nat n)) m c in
  scanned bit (base + i + Z.of_nat n) m' c' /\ r_len m <= r_len m'.
Proof.
  revert i m c. induction n as [|n IH]; intros i m c Hb Hs.
  - rewrite seqZ_nil by lia. cbn. rewrite Z.add_0_r. split; [done|lia].
  - rewrite seqZ_cons by lia. cbn [scan_byte]. rewrite Hb by lia.
    replace (Z.pred (Z.of_nat (S n))) with (Z.of_nat n) by lia.
    replace (Z.succ i) with (i + 1) by lia.
    replace (base + i + Z.of_nat (S n)) with (base + (i + 1) + Z.of_nat n) by lia.
    assert (He : r_end c = base + i) by (by destruct Hs as (_ & (_ & ? & _) & _)).
    destruct (bit (base + i)) eqn:Hbit; cbn [negb].
    + pose proof (longer_len c m) as [Hl1 Hl2].
      specialize (IH (i + 1) (longer c m) (mk_Range (r_end c + 1) (r_end c + 1))).
      destruct (scan_byte _ _ _ _). destruct IH as [IH1 IH2]; [intros; apply Hb; lia| |split; [done|lia]].
      rewrite He. replace (base + (i + 1)) with (base + i + 1) by lia.
      by eapply scanned_one; [apply scanned_longer| |].
    + specialize (IH (i + 1) m (mk_Range (r_start c) (r_end c + 1))).
      destruct (scan_byte _ _ _ _). apply IH; [intros; apply Hb; lia|].
      replace (base + (i + 1)) with (base + i + 1) by lia. by apply scanned_zero.
Qed.
End scan.

(** The bits of a byte that is not zero, by enumeration. *)
Definition byte_bits_ok (page : Z) : bool :=
  let lz := leading_zero_count page in
  let tz := trailing_zero_count page in
  (page =? 0) ||
  ((0 <=? lz) && (0 <=? tz) && (lz + tz <? 8) &&
   forallb (fun i => negb (Z.testbit page (7 - i))) (seqZ 0 lz) &&
   Z.testbit page (7 - lz) && Z.testbit page tz &&
   forallb (fun i => negb (Z.testbit page i)) (seqZ 0 tz) &&
   forallb (fun i => Bool.eqb (Z.land page (Z.shiftr 0x80 i) =? 0) (negb (Z.testbit page (7 - i))))
     (seqZ 0 8)).

Lemma byte_bits page :
  byte_ok page -> page <> 0 ->
  let lz := leading_zero_count page in
  let tz := trailing_zero_count page in
  0 <= lz /\ 0 <= tz /\ lz + tz < 8 /\
  (forall i, 0 <= i < lz -> Z.testbit page (7 - i) = false) /\
  Z.testbit page (7 - lz) = true /\ Z.testbit page tz = true /\
  (forall i, 0 <= i < tz -> Z.testbit page i = false) /\
  (forall i, 0 <= i < 8 ->
    (Z.land page (Z.shiftr 0x80 i) =? 0) = negb (Z.testbit page (7 - i))).
Proof.
  intros Hb Hne lz tz.
  assert (H : byte_bits_ok page = true).
  { revert page Hb Hne lz tz. intros page Hb _ _ _. revert page Hb. apply forall_bytes.
    vm_compute. reflexivity. }
  unfold byte_bits_ok in H. fold lz tz in H.
  destruct (Z.eqb_spec page 0); [done|]. cbn [orb] in H.
  rewrite !andb_true_iff, !Z.leb_le, Z.ltb_lt, !forallb_forall in H.
  destruct H as (((((((?&?)&?)&H1)&?)&?)&H2)&H3).
  split_and!; try done.
  - intros i Hi. apply negb_true_iff, H1, list_elem_of_In, elem_of_seqZ. lia.
  - intros i Hi. apply negb_true_iff, H2, list_elem_of_In, elem_of_seqZ. lia.
  - intros i Hi. apply Bool.eqb_prop, H3, list_elem_of_In, elem_of_seqZ. lia.
Qed.

(** One byte of the outer loop. *)
Lemma find_step_scanned {E} bit page base m c :
  byte_ok page -> (forall i, 0 <= i < 8 -> bit (base + i) = Z.testbit page (7 - i)) ->
  scanned bit base m c ->
  exists m' c', @find_step E page m c = Ok (m', c') /\ scanned bit (base + 8) m' c'.
Proof.
  intros Hb Hbit Hs. unfold find_step.
  assert (He : r_end c = base) by (by destruct Hs as (_ & (_ & ? & _) & _)).
  destruct (Z.eqb_spec page 0) as [->|Hne].
  - do 2 eexists. split; [done|]. apply scanned_longer.
    apply (scanned_zeros bit 8 base m c Hs). intros i Hi. rewrite Hbit by lia. apply Z.testbit_0_l.
  - destruct (byte_bits page Hb Hne) as (Hl0 & Ht0 & Hlt & Hlz & Hl1 & Ht1 & Htz & Hand).
    set (lz := leading_zero_count page) in *. set (tz := trailing_zero_count page) in *.
    destruct (Z.ltb_spec (lz + tz) 8); [|lia]. cbn [negb]. do 2 eexists. split; [done|].
    assert (Hs1 : scanned bit (base + lz) m (mk_Range (r_start c) (r_end c + lz))).
    { rewrite <- (Z2Nat.id lz) by done. apply scanned_zeros; [done|].
      intros i Hi. rewrite Hbit by lia. apply Hlz. lia. }
    set (c1 := mk_Range (r_start c) (r_end c + lz)) in *.
    set (m1 := longer c1 m) in *.
    assert (Hs2 : scanned bit (base + lz) m1 c1) by by apply scanned_longer.
    assert (Hlen : r_len c1 <= r_len m1) by apply longer_len.
    assert (Hb1 : bit (base + lz) = true) by (rewrite Hbit by lia; done).
    assert (Hb2 : bit (base + (8 - tz) - 1) = true).
    { replace (base + (8 - tz) - 1) with (base + (7 - tz)) by lia. rewrite Hbit by lia.
      by replace (7 - (7 - tz)) with tz by lia. }
    match goal with |- scanned _ _ ?x _ => set (m2 := x) end.
    assert (Hs3 : scanned bit (base + (8 - tz)) m2 (mk_Range (base + (8 - tz)) (base + (8 - tz)))).
    { subst m2. destruct (negb _ && _) eqn:Hguard.
      - zb. cbn [r_end c1]. rewrite He.
        assert (0 <= r_len m1).
        { destruct Hs2 as ([[? _] _] & _). unfold r_len. lia. }
        pose proof (scan_byte_scanned bit page base (Z.to_nat (7 - tz - (lz + 1))) (lz + 1) m1
          (mk_Range (base + lz + 1) (base + lz + 1))) as Hin.
        rewrite Z2Nat.id in Hin by lia. destruct (scan_byte _ _ _ _) as [m3 c3].
        destruct Hin as [Hin _].
        + intros j Hj. rewrite Hbit by lia. apply Hand. lia.
        + replace (base + (lz + 1)) with (base + lz + 1) by lia. by eapply scanned_one.
        + replace (base + (lz + 1) + (7 - tz - (lz + 1))) with (base + (8 - tz) - 1) in Hin by lia.
          replace (base + (8 - tz)) with (base + (8 - tz) - 1 + 1) by lia.
          eapply scanned_one; [by apply scanned_longer|apply longer_len|done].
      - eapply scanned_jump; [exact Hs2|lia|done|done|done|].
        intros a b [Hab Hf] Ha Hb'. apply andb_false_iff in Hguard as [Hff|Hshort].
        + apply negb_false_iff, Z.eqb_eq in Hff.
          assert (0 <= r_len m1) by (destruct Hs2 as ([[? _] _] & _); unfold r_len; lia).
          destruct (Z.eq_dec a b); [lia|]. exfalso.
          specialize (Hf a ltac:(lia)). replace a with (base + (a - base)) in Hf by lia.
          rewrite Hbit in Hf by lia. rewrite Hff in Hf. change 0xFF with (Z.ones 8) in Hf.
          rewrite Z.ones_spec_low in Hf by lia. done.
        + zb. lia. }
    replace (base + 8) with (base + (8 - tz) + tz) by lia.
    assert (mk_Range (r_end c + 8 - tz) (r_end c + 8) =
      mk_Range (base + (8 - tz)) (base + (8 - tz) + tz)) as -> by (rewrite He; f_equal; lia).
    pose proof (scanned_zeros bit (Z.to_nat tz) _ m2
      (mk_Range (base + (8 - tz)) (base + (8 - tz))) Hs3) as Hfin.
    rewrite Z2Nat.id in Hfin by done. apply Hfin.
    intros i Hi. rewrite <- Z.add_assoc, Hbit by lia.
    replace (7 - (8 - tz + i)) with (tz - 1 - i) by lia. apply Htz. lia.
Qed.

Lemma find_loop_scanned {E} bit max_size bits base m c :
  bytes_ok bits ->
  (forall k i page, bits !! k = Some page -> 0 <= i < 8 ->
    bit (base + 8 * Z.of_nat k + i) = Z.testbit page (7 - i)) ->
  scanned bit base m c ->
  exists m' c' p, @find_loop E max_size bits m c = Ok (m', c') /\ scanned bit p m' c' /\
    base <= p <= base + 8 * Z.of_nat (length bits) /\
    (p = base + 8 * Z.of_nat (length bits) \/ max_size <= r_len m').
Proof.
  intros Hok. revert base m c. induction Hok as [|page bits Hb Hok IH]; intros base m c Hbit Hs.
  - exists m, c, base. cbn. split_and!; [done|done|lia|lia|]. left. lia.
  - cbn [find_loop].
    destruct (find_step_scanned (E := E) bit page base m c Hb) as (m1 & c1 & Hstep & Hs1).
    { intros i Hi. rewrite <- (Hbit 0%nat i page eq_refl Hi). f_equal. lia. }
    { done. }
    rewrite Hstep. cbn [rbind length]. destruct (Z.leb_spec max_size (r_len m1)).
    + exists m1, c1, (base + 8). split_and!; [done|done|lia|lia|by right].
    + destruct (IH (base + 8) m1 c1) as (m2 & c2 & p & ? & ? & ? & ?); [|done|].
      { intros k i q Hk Hi. rewrite <- (Hbit (S k) i q Hk Hi). f_equal. lia. }
      exists m2, c2, p. split_and!; [done|done|lia|lia|].
      destruct H3; [left|by right]. lia.
Qed.

Lemma map_bit_byte bits k i page :
  bits !! k = Some page -> 0 <= i < 8 ->
  map_bit bits (0 + 8 * Z.of_nat k + i) = Z.testbit page (7 - i).
Proof.
  intros Hk Hi. unfold map_bit. replace (0 + 8 * Z.of_nat k + i) with (i + Z.of_nat k * 8) by lia.
  rewrite Z.div_add, Z.mod_add, (Z.div_small i 8), (Z.mod_small i 8) by lia.
  rewrite Z.add_0_l, Nat2Z.id. f_equal. by apply nth_lookup_Some.
Qed.

(** ** Properties *)

(** [find_free_bits] returns a run of free slots of the map, never more
    than asked for, and when it returns fewer than asked for there is no
    longer free run anywhere in the map.  It never panics. *)
Theorem find_free_bits_spec (map_bits : list Z) (max_size : Z)
    (Hbits : array_wf 496 map_bits) (Hmax : 0 <= max_size <= 3968) :
  exists r : Range, @find_free_bits Empty_set map_bits max_size = Ok r /\
    free_run map_bits (r_start r) (r_end r) /\ r_len r <= max_size /\
    (r_len r < max_size -> forall a b, free_run map_bits a b -> b - a <= r_len r).
Proof.
  destruct Hbits as [Hlen Hok].
  destruct (find_loop_scanned (E := Empty_set) (map_bit map_bits) max_size map_bits 0
    (mk_Range 0 0) (mk_Range 0 0)) as (m & c & p & Hloop & Hs & Hp & Hend).
  - done.
  - intros. by apply map_bit_byte.
  - unfold scanned, free_in, r_len. cbn [r_start r_end].
    split_and!; lia.
  - unfold find_free_bits. rewrite Hloop. cbn [rbind]. eexists. split; [done|].
    cbn [r_start r_end]. unfold r_len. cbn [r_start r_end]. fold (r_len (longer c m)).
    apply scanned_longer in Hs. pose proof (longer_len c m) as [Hc Hm].
    set (l := longer c m) in *. destruct Hs as ([[Hl0 Hlf] Hlp] & _ & Hbest).
    rewrite Hlen in *. unfold wrapping_add. rewrite wrap_small by (unfold uint; lia).
    unfold r_len in *. split_and!.
    + split; [split; [lia|]|lia]. intros q Hq. apply Hlf. lia.
    + lia.
    + intros Hlt a b [Hab Hb]. specialize (Hbest a b Hab). lia.
Qed.

Lemma find_free_bits_spec_witness :
  exists r : Range, @find_free_bits Empty_set (0xF0 :: 0x81 :: replicate 494 0xFF) 6 = Ok r /\
    free_run (0xF0 :: 0x81 :: replicate 494 0xFF) (r_start r) (r_end r) /\ r_len r <= 6 /\
    (r_len r < 6 -> forall a b, free_run (0xF0 :: 0x81 :: replicate 494 0xFF) a b ->
      b - a <= r_len r).
Proof.
  apply (find_free_bits_spec (0xF0 :: 0x81 :: replicate 494 0xFF) 6);
    [split; [done|repeat constructor; done]|lia].
Defined.
