(* ===== verification/BTree.v ===== *)
(** * B-tree pages

    The second part of [ndb/page.rs] and the page codecs of
    [ndb/read_write.rs]: the entries of the node and block B-trees, their
    intermediate and leaf pages in both formats, and [RootBTreePage], the
    root from which an entry is looked up. *)
From S2P Require Import Prelude Search Errors Io Crc Ids Page.

(** ** Entries *)

(** [BTreeEntry] and [BTreeEntryReadWrite]; [be_key] is [key().into()]. *)
Class BTreeEntry (E : Type) := {
  be_key : E -> Z;
  ENTRY_SIZE : nat;
  be_serial :: Serial E
}.

(** [BTreePageEntry]: the intermediate entries of both formats. *)
Record BTreePageEntry (B I : Type) := mk_BTreePageEntry {
  bpe_key : Z;
  bpe_block : BlockRef B I
}.
Arguments mk_BTreePageEntry {B I}.
Arguments bpe_key {B I}.
Arguments bpe_block {B I}.

Definition UnicodeBTreePageEntry : Type := BTreePageEntry UnicodePageId UnicodeByteIndex.
Definition AnsiBTreePageEntry : Type := BTreePageEntry AnsiPageId AnsiByteIndex.

Module UnicodeBTreePageEntry.
Definition ENTRY_SIZE : nat := 24.
Definition new (key : Z) (block : UnicodePageRef) : UnicodeBTreePageEntry :=
  mk_BTreePageEntry key block.
Definition read : reader UnicodeBTreePageEntry :=
  key <- read_u64;; block <- ser_read;; rd_ret (new key block).
Definition write (e : UnicodeBTreePageEntry) : list Z :=
  write_u64 (bpe_key e) ++ ser_write (bpe_block e).
End UnicodeBTreePageEntry.

Module AnsiBTreePageEntry.
Definition ENTRY_SIZE : nat := 12.
Definition new (key : Z) (block : AnsiPageRef) : AnsiBTreePageEntry :=
  mk_BTreePageEntry key block.
Definition read : reader AnsiBTreePageEntry :=
  key <- read_u32;; block <- ser_read;; rd_ret (new key block).
Definition write (e : AnsiBTreePageEntry) : list Z :=
  write_u32 (bpe_key e) ++ ser_write (bpe_block e).
End AnsiBTreePageEntry.

(** [BlockBTreeEntry]. *)
Module UnicodeBlockBTreeEntry.

Record t := mk { block : UnicodeBlockRef; size : Z; ref_count : Z; padding : Z }.

Definition ENTRY_SIZE : nat := 24.

Definition new_with_ref_count (block : UnicodeBlockRef) (size ref_count : Z) : t :=
  mk block size ref_count 0.
Definition new (block : UnicodeBlockRef) (size : Z) : t := new_with_ref_count block size 1.

Definition key (e : t) : Z := UnicodeBlockId.search_key (bref_block (block e)).

Definition read : reader t :=
  block <- ser_read;;
  size <- read_u16;;
  ref_count <- read_u16;;
  padding <- read_u32;;
  rd_ret (mk block size ref_count padding).

Definition write (e : t) : list Z :=
  ser_write (block e) ++ write_u16 (size e) ++ write_u16 (ref_count e) ++ write_u32 (padding e).

End UnicodeBlockBTreeEntry.

Module AnsiBlockBTreeEntry.

Record t := mk { block : AnsiBlockRef; size : Z; ref_count : Z }.

Definition ENTRY_SIZE : nat := 12.

Definition new (block : AnsiBlockRef) (size : Z) : t := mk block size 1.

Definition key (e : t) : Z := AnsiBlockId.search_key (bref_block (block e)).

Definition read : reader t :=
  block <- ser_read;;
  size <- read_u16;;
  ref_count <- read_u16;;
  rd_ret (mk block size ref_count).

Definition write (e : t) : list Z :=
  ser_write (block e) ++ write_u16 (size e) ++ write_u16 (ref_count e).

End AnsiBlockBTreeEntry.

(** [NodeBTreeEntry]. *)
Module UnicodeNodeBTreeEntry.

Record t := mk {
  node : NodeId;
  data : UnicodeBlockId;
  sub_node : option UnicodeBlockId;
  parent : option NodeId;
  padding : Z
}.

Definition ENTRY_SIZE : nat := 32.

Definition new (node : NodeId) (data : UnicodeBlockId) (sub_node : option UnicodeBlockId)
    (parent : option NodeId) : t := mk node data sub_node parent 0.

Definition key (e : t) : Z := node_id_0 (node e).

Definition read : reader t :=
  node <- read_u64;;
  rd_ensure (uint_b 32 node) (InvalidNodeBTreeEntryNodeId node);;;
  data <- ser_read;;
  sub_node <- ser_read;;
  let sub_node := if UnicodeBlockId.search_key sub_node =? 0 then None else Some sub_node in
  parent <- ser_read;;
  let parent := if node_id_0 parent =? 0 then None else Some parent in
  padding <- read_u32;;
  rd_ret (mk (mk_NodeId node) data sub_node parent padding).

Definition write (e : t) : list Z :=
  write_u64 (node_id_0 (node e)) ++ ser_write (data e) ++
  ser_write (default (mk_UnicodeBlockId 0) (sub_node e)) ++
  ser_write (default (mk_NodeId 0) (parent e)) ++ write_u32 (padding e).

End UnicodeNodeBTreeEntry.

Module AnsiNodeBTreeEntry.

Record t := mk {
  node : NodeId;
  data : AnsiBlockId;
  sub_node : option AnsiBlockId;
  parent : option NodeId
}.

Definition ENTRY_SIZE : nat := 16.

Definition new (node : NodeId) (data : AnsiBlockId) (sub_node : option AnsiBlockId)
    (parent : option NodeId) : t := mk node data sub_node parent.

Definition key (e : t) : Z := node_id_0 (node e).

Definition read : reader t :=
  node <- ser_read;;
  data <- ser_read;;
  sub_node <- ser_read;;
  let sub_node := if AnsiBlockId.search_key sub_node =? 0 then None else Some sub_node in
  parent <- ser_read;;
  let parent := if node_id_0 parent =? 0 then None else Some parent in
  rd_ret (mk node data sub_node parent).

Definition write (e : t) : list Z :=
  ser_write (node e) ++ ser_write (data e) ++
  ser_write (default (mk_AnsiBlockId 0) (sub_node e)) ++
  ser_write (default (mk_NodeId 0) (parent e)).

End AnsiNodeBTreeEntry.

#[export] Instance UnicodeBTreePageEntry_entry :
  BTreeEntry (BTreePageEntry UnicodePageId UnicodeByteIndex) := {|
  be_key := bpe_key;
  ENTRY_SIZE := UnicodeBTreePageEntry.ENTRY_SIZE;
  be_serial := {|
    ser_read := UnicodeBTreePageEntry.read;
    ser_write := UnicodeBTreePageEntry.write;
    ser_wf e := uint 64 (bpe_key e) /\ ser_wf (bpe_block e);
    ser_size := 24 |}
|}.

#[export] Instance AnsiBTreePageEntry_entry :
  BTreeEntry (BTreePageEntry AnsiPageId AnsiByteIndex) := {|
  be_key := bpe_key;
  ENTRY_SIZE := AnsiBTreePageEntry.ENTRY_SIZE;
  be_serial := {|
    ser_read := AnsiBTreePageEntry.read;
    ser_write := AnsiBTreePageEntry.write;
    ser_wf e := uint 32 (bpe_key e) /\ ser_wf (bpe_block e);
    ser_size := 12 |}
|}.

#[export] Instance UnicodeBlockBTreeEntry_entry : BTreeEntry UnicodeBlockBTreeEntry.t := {|
  be_key := UnicodeBlockBTreeEntry.key;
  ENTRY_SIZE := UnicodeBlockBTreeEntry.ENTRY_SIZE;
  be_serial := {|
    ser_read := UnicodeBlockBTreeEntry.read;
    ser_write := UnicodeBlockBTreeEntry.write;
    ser_wf e := ser_wf (UnicodeBlockBTreeEntry.block e) /\
      uint 16 (UnicodeBlockBTreeEntry.size e) /\ uint 16 (UnicodeBlockBTreeEntry.ref_count e) /\
      uint 32 (UnicodeBlockBTreeEntry.padding e);
    ser_size := 24 |}
|}.

#[export] Instance AnsiBlockBTreeEntry_entry : BTreeEntry AnsiBlockBTreeEntry.t := {|
  be_key := AnsiBlockBTreeEntry.key;
  ENTRY_SIZE := AnsiBlockBTreeEntry.ENTRY_SIZE;
  be_serial := {|
    ser_read := AnsiBlockBTreeEntry.read;
    ser_write := AnsiBlockBTreeEntry.write;
    ser_wf e := ser_wf (AnsiBlockBTreeEntry.block e) /\
      uint 16 (AnsiBlockBTreeEntry.size e) /\ uint 16 (AnsiBlockBTreeEntry.ref_count e);
    ser_size := 12 |}
|}.

(** An absent sub-node or parent is stored as zero, so a present one must
    not read as absent. *)
Definition present {A} (zero : A -> bool) (wf : A -> Prop) (o : option A) : Prop :=
  match o with Some a => zero a = false /\ wf a | None => True end.

#[export] Instance UnicodeNodeBTreeEntry_entry : BTreeEntry UnicodeNodeBTreeEntry.t := {|
  be_key := UnicodeNodeBTreeEntry.key;
  ENTRY_SIZE := UnicodeNodeBTreeEntry.ENTRY_SIZE;
  be_serial := {|
    ser_read := UnicodeNodeBTreeEntry.read;
    ser_write := UnicodeNodeBTreeEntry.write;
    ser_wf e := ser_wf (UnicodeNodeBTreeEntry.node e) /\ ser_wf (UnicodeNodeBTreeEntry.data e) /\
      present (fun b => UnicodeBlockId.search_key b =? 0) ser_wf
        (UnicodeNodeBTreeEntry.sub_node e) /\
      present (fun n => node_id_0 n =? 0) ser_wf (UnicodeNodeBTreeEntry.parent e) /\
      uint 32 (UnicodeNodeBTreeEntry.padding e);
    ser_size := 32 |}
|}.

#[export] Instance AnsiNodeBTreeEntry_entry : BTreeEntry AnsiNodeBTreeEntry.t := {|
  be_key := AnsiNodeBTreeEntry.key;
  ENTRY_SIZE := AnsiNodeBTreeEntry.ENTRY_SIZE;
  be_serial := {|
    ser_read := AnsiNodeBTreeEntry.read;
    ser_write := AnsiNodeBTreeEntry.write;
    ser_wf e := ser_wf (AnsiNodeBTreeEntry.node e) /\ ser_wf (AnsiNodeBTreeEntry.data e) /\
      present (fun b => AnsiBlockId.search_key b =? 0) ser_wf (AnsiNodeBTreeEntry.sub_node e) /\
      present (fun n => node_id_0 n =? 0) ser_wf (AnsiNodeBTreeEntry.parent e);
    ser_size := 16 |}
|}.

(** ** Pages *)

(** [BTreePage] and [BTreePageReadWrite]: what the codecs use of a page. *)
Class BTreePageReadWrite (Pg E B : Type) := {
  btp_new : Z -> Z -> Z -> list E -> PageTrailer B -> NdbResult Pg;
  btp_level : Pg -> Z;
  btp_max_entries : Pg -> Z;
  btp_entry_size : Pg -> Z;
  btp_entries : Pg -> list E;
  btp_trailer : Pg -> PageTrailer B
}.

(** [UnicodeBTreeEntryPage] and [AnsiBTreeEntryPage]. *)
Record BTreeEntryPage (E B : Type) := mk_BTreeEntryPage {
  bte_level : Z;
  bte_max_entries : Z;
  bte_entry_size : Z;
  bte_entries : list E;
  bte_trailer : PageTrailer B
}.
Arguments mk_BTreeEntryPage {E B}.
Arguments bte_level {E B}.
Arguments bte_max_entries {E B}.
Arguments bte_entry_size {E B}.
Arguments bte_entries {E B}.
Arguments bte_trailer {E B}.

(** The four leaf pages: [P] is the page type, [BlockBTree] or [NodeBTree];
    their level is always 0. *)
Record BTreeLeafPage (P : PageType) (E B : Type) := mk_BTreeLeafPage {
  btl_max_entries : Z;
  btl_entry_size : Z;
  btl_entries : list E;
  btl_trailer : PageTrailer B
}.
Arguments mk_BTreeLeafPage {P E B}.
Arguments btl_max_entries {P E B}.
Arguments btl_entry_size {P E B}.
Arguments btl_entries {P E B}.
Arguments btl_trailer {P E B}.

Definition is_btree_type (t : PageType) : bool :=
  bool_decide (t = BlockBTree) || bool_decide (t = NodeBTree).

Module BTreeEntryPage.
Definition new {E B} (level max_entries entry_size : Z) (entries : list E)
    (trailer : PageTrailer B) : NdbResult (BTreeEntryPage E B) :=
  if negb ((1 <=? level) && (level <=? 8)) then Err (InvalidBTreePageLevel level) else
  if max_entries <? Z.of_nat (length entries)
  then Err (InvalidBTreeEntryCount (Z.of_nat (length entries))) else
  if negb (is_btree_type (page_type trailer))
  then Err (UnexpectedPageType (page_type trailer)) else
  Ok (mk_BTreeEntryPage level max_entries entry_size entries trailer).
End BTreeEntryPage.

Module BTreeLeafPage.
Definition new {P E B} (level max_entries entry_size : Z) (entries : list E)
    (trailer : PageTrailer B) : NdbResult (BTreeLeafPage P E B) :=
  if negb (level =? 0) then Err (InvalidBTreePageLevel level) else
  if max_entries <? Z.of_nat (length entries)
  then Err (InvalidBTreeEntryCount (Z.of_nat (length entries))) else
  if negb (bool_decide (page_type trailer = P))
  then Err (UnexpectedPageType (page_type trailer)) else
  Ok (mk_BTreeLeafPage max_entries entry_size entries trailer).
End BTreeLeafPage.

#[export] Instance BTreeEntryPage_page {E B} :
  BTreePageReadWrite (BTreeEntryPage E B) E B := {|
  btp_new := BTreeEntryPage.new;
  btp_level := bte_level;
  btp_max_entries := bte_max_entries;
  btp_entry_size := bte_entry_size;
  btp_entries := bte_entries;
  btp_trailer := bte_trailer
|}.

#[export] Instance BTreeLeafPage_page {P E B} :
  BTreePageReadWrite (BTreeLeafPage P E B) E B := {|
  btp_new := BTreeLeafPage.new;
  btp_level _ := 0;
  btp_max_entries := btl_max_entries;
  btp_entry_size := btl_entry_size;
  btp_entries := btl_entries;
  btp_trailer := btl_trailer
|}.

(** The two layouts: the size of the entry area, of the body, and whether
    [dwPadding] follows [cLevel]. *)
Class BTreeFormat (B : Type) := {
  BTREE_ENTRIES_SIZE : nat;
  BTREE_BODY_SIZE : nat;
  BTREE_PADDING : bool;
  bf_trailer :: Serial (PageTrailer B)
}.

Definition UNICODE_BTREE_ENTRIES_SIZE : nat := 488.
Definition ANSI_BTREE_ENTRIES_SIZE : nat := 496.

#[export] Instance UnicodeBTreeFormat : BTreeFormat UnicodePageId := {|
  BTREE_ENTRIES_SIZE := UNICODE_BTREE_ENTRIES_SIZE;
  BTREE_BODY_SIZE := 496;
  BTREE_PADDING := true
|}.

#[export] Instance AnsiBTreeFormat : BTreeFormat AnsiPageId := {|
  BTREE_ENTRIES_SIZE := ANSI_BTREE_ENTRIES_SIZE;
  BTREE_BODY_SIZE := 500;
  BTREE_PADDING := false
|}.

(** [&buffer[off..off + n]]. *)
Definition slice {E} (buffer : list Z) (off n : nat) : res E (list Z) :=
  if (length buffer <? off + n)%nat then Panic else Ok (take n (drop off buffer)).

(** A [write] into [&mut buffer[off..off + n]]. *)
Definition slice_write (buffer : list Z) (off n : nat) (bs : list Z) : io_result (list Z) :=
  if (length buffer <? off + n)%nat then Panic else
  if (n <? length bs)%nat then Err WriteZero else
  Ok (take off buffer ++ bs ++ drop (off + length bs) buffer).

(** [UnicodeBTreePageReadWrite] and [AnsiBTreePageReadWrite]. *)
Module BTreePage.
Section BTreePage.
Context {Pg E B : Type} `{!BTreePageReadWrite Pg E B, !BTreeEntry E, !BTreeFormat B}.

(** [cEnt], [cEntMax], [cbEnt], [cLevel] and [dwPadding], with the checks
    made on the way. *)
Definition read_footer : reader (Z * Z * Z * Z) :=
  entry_count <- read_u8;;
  max_entries <- read_u8;;
  entry_size <- read_u8;;
  rd_ensure (entry_count <=? max_entries) (InvalidBTreeEntryCount entry_count);;;
  rd_ensure (Z.of_nat ENTRY_SIZE <=? entry_size) (InvalidBTreeEntrySize entry_size);;;
  rd_ensure (max_entries <=? Z.of_nat BTREE_ENTRIES_SIZE / entry_size)
    (InvalidBTreeEntryMaxCount max_entries);;;
  level <- read_u8;;
  rd_ensure ((0 <=? level) && (level <=? 8)) (InvalidBTreePageLevel level);;;
  (if BTREE_PADDING then
     padding <- read_u32;;
     rd_ensure (padding =? 0) (InvalidBTreePagePadding padding)
   else rd_ret tt);;;
  rd_ret (entry_count, max_entries, entry_size, level).

Definition read_entry (buffer : list Z) (entry_size i : nat) : io_result E :=
  let? bytes := slice buffer (i * entry_size) entry_size in
  let? '(entry, _) := ser_read bytes in
  Ok entry.

Definition read : reader Pg :=
  buffer <- read_exact BTREE_BODY_SIZE;;
  footer <- with_cursor (drop BTREE_ENTRIES_SIZE buffer) read_footer;;
  let '(entry_count, max_entries, entry_size, level) := footer in
  trailer <- ser_read;;
  rd_ensure (is_btree_type (page_type trailer)) (UnexpectedPageType (page_type trailer));;;
  let crc := compute_crc 0 buffer in
  rd_ensure (crc =? Page.crc trailer) (InvalidPageCrc crc);;;
  entries <- rd_lift (rmapM (read_entry buffer (Z.to_nat entry_size))
                        (seq 0 (Z.to_nat entry_count)));;
  rd_lift (ndb (btp_new level max_entries entry_size entries trailer)).

Fixpoint write_entries (buffer : list Z) (entry_size i : nat) (entries : list E) :
    io_result (list Z) :=
  match entries with
  | [] => Ok buffer
  | entry :: entries =>
      let? buffer := slice_write buffer (i * entry_size) entry_size (ser_write entry) in
      write_entries buffer entry_size (S i) entries
  end.

Definition write_footer (p : Pg) : list Z :=
  write_u8 (Z.of_nat (length (btp_entries p))) ++ write_u8 (btp_max_entries p) ++
  write_u8 (btp_entry_size p) ++ write_u8 (btp_level p) ++
  (if BTREE_PADDING then write_u32 0 else []).

Definition write (p : Pg) : io_result (list Z) :=
  let? buffer := write_entries (replicate BTREE_BODY_SIZE 0) (Z.to_nat (btp_entry_size p)) 0
                   (btp_entries p) in
  let buffer := take BTREE_ENTRIES_SIZE buffer ++ write_footer p in
  let crc := compute_crc 0 buffer in
  let trailer := btp_trailer p in
  Ok (buffer ++ ser_write (mk_PageTrailer (page_type trailer) (signature trailer) crc
                             (pt_block_id trailer))).

End BTreePage.
End BTreePage.

(** The page types of the two formats. *)
Definition UnicodeBTreeEntryPage : Type := BTreeEntryPage UnicodeBTreePageEntry UnicodePageId.
Definition AnsiBTreeEntryPage : Type := BTreeEntryPage AnsiBTreePageEntry AnsiPageId.
Definition UnicodeBlockBTreePage : Type :=
  BTreeLeafPage BlockBTree UnicodeBlockBTreeEntry.t UnicodePageId.
Definition AnsiBlockBTreePage : Type := BTreeLeafPage BlockBTree AnsiBlockBTreeEntry.t AnsiPageId.
Definition UnicodeNodeBTreePage : Type :=
  BTreeLeafPage NodeBTree UnicodeNodeBTreeEntry.t UnicodePageId.
Definition AnsiNodeBTreePage : Type := BTreeLeafPage NodeBTree AnsiNodeBTreeEntry.t AnsiPageId.

(** ** [RootBTreePage] *)

Inductive RootBTreePage (IPage LPage : Type) :=
| Intermediate (p : IPage)
| Leaf (p : LPage).
Arguments Intermediate {IPage LPage}.
Arguments Leaf {IPage LPage}.

Module RootBTreePage.
Section RootBTreePage.
(** [PE] and [LE] are the intermediate and leaf entries, [B] the page ids,
    [I] the byte indexes, [P] the type of the leaf pages. *)
Context {P : PageType} {LE B I : Type}.
Context `{!BlockId B, !ByteIndex I, !BTreeEntry LE, !BTreeEntry (BTreePageEntry B I), !BTreeFormat B}.

Definition IPage : Type := BTreeEntryPage (BTreePageEntry B I) B.
Definition LPage : Type := BTreeLeafPage P LE B.
Definition t : Type := RootBTreePage IPage LPage.

(** The 512 bytes at the reference decide, by [cLevel], which page they
    hold. *)
Definition read_page : reader t :=
  buffer <- read_exact (Z.to_nat PAGE_SIZE);;
  level <- with_cursor (drop (BTREE_ENTRIES_SIZE + 3) buffer) read_u8;;
  if level =? 0
  then page <- with_cursor buffer (BTreePage.read (Pg := LPage));; rd_ret (Leaf page)
  else page <- with_cursor buffer (BTreePage.read (Pg := IPage));; rd_ret (Intermediate page).

Definition read (f : list Z) (block : BlockRef B I) : io_result t :=
  read_at f (bi_index (bref_index block)) read_page.

Definition write (p : t) (block : BlockRef B I) (f : wfile) : io_result wfile :=
  let? bs := match p with
             | Intermediate page => BTreePage.write page
             | Leaf page => BTreePage.write page
             end in
  Ok (write_all bs (wseek_start (bi_index (bref_index block)) f)).

(** [RootBTreePageCache]: a map from page ids to pages. *)
Definition cache : Type := gmap Z t.

(** The recursion of [find_entry] with a bound on its depth; [None] when the
    bound is reached. *)
Fixpoint find_entry (fuel : nat) (f : list Z) (self : t) (search_key : Z) (page_cache : cache) :
    option (io_result LE * cache) :=
  match fuel with
  | O => None
  | S fuel =>
    match self with
    | Intermediate page =>
        let entries := bte_entries page in
        let index := partition_point (fun entry => be_key entry <=? search_key) entries in
        match match index with O => None | S i => entries !! i end with
        | None => Some (Err (NdbData (BTreePageNotFound search_key)), page_cache)
        | Some entry =>
            let block := bpe_block entry in
            let id := bid_into_u64 (bref_block block) in
            let cached := page_cache !! id in
            let page_cache := delete id page_cache in
            match match cached with Some page => Ok page | None => read f block end with
            | Ok page =>
                match find_entry fuel f page search_key page_cache with
                | Some (entry, page_cache) => Some (entry, <[id := page]> page_cache)
                | None => None
                end
            | Err e => Some (Err e, page_cache)
            | Panic => Some (Panic, page_cache)
            end
        end
    | Leaf page =>
        match List.find (fun entry => be_key entry =? search_key) (btl_entries page) with
        | Some entry => Some (Ok entry, page_cache)
        | None => Some (Err (NdbData (BTreePageNotFound search_key)), page_cache)
        end
    end
  end.

End RootBTreePage.
End RootBTreePage.

(** ** Laws *)

Class BTreeEntryLaws (E : Type) `{!BTreeEntry E} := {
  be_rt :: RoundTrip E;
  be_size : ENTRY_SIZE (E := E) = ser_size (A := E);
  be_size_pos : (0 < ENTRY_SIZE (E := E))%nat
}.

Class BTreeFormatLaws (B : Type) `{!BTreeFormat B} := {
  bf_laws :: PageTrailerLaws B;
  bf_size : BTREE_BODY_SIZE (B := B) =
    (BTREE_ENTRIES_SIZE (B := B) + 4 + if BTREE_PADDING (B := B) then 4 else 0)%nat
}.

(** [btp_valid] is what the page's own [new] checks beyond the entry count. *)
Class BTreePageLaws (Pg E B : Type) `{!BTreePageReadWrite Pg E B} := {
  btp_valid : Pg -> Prop;
  btp_with_crc : Pg -> Z -> Pg;
  btp_level_ok : forall p, btp_valid p -> 0 <= btp_level p <= 8;
  btp_type_ok : forall p, btp_valid p -> is_btree_type (page_type (btp_trailer p)) = true;
  btp_new_ok : forall p c, btp_valid p -> Z.of_nat (length (btp_entries p)) <= btp_max_entries p ->
    btp_new (btp_level p) (btp_max_entries p) (btp_entry_size p) (btp_entries p)
      (with_crc (btp_trailer p) c) = Ok (btp_with_crc p c)
}.

(** The optional parts of a node entry. *)
Lemma present_wf {A} (zero : A -> bool) (wf : A -> Prop) d o :
  present zero wf o -> wf d -> wf (default d o).
Proof. destruct o; cbn; [by intros [_ ?]|done]. Qed.

Lemma present_eq {A} (zero : A -> bool) (wf : A -> Prop) d o :
  present zero wf o -> zero d = true -> (if zero (default d o) then None else Some (default d o)) = o.
Proof. destruct o; cbn; [by intros [-> _]|by intros _ ->]. Qed.

(** Exposes the codec of an entry. *)
Ltac unfold_codec rd wr :=
  match goal with
  | |- ser_read (ser_write ?e ++ ?s) = ?r => change (rd (wr e ++ s) = r); unfold rd, wr
  end.

#[export] Instance UnicodeBTreePageEntry_laws : BTreeEntryLaws (BTreePageEntry UnicodePageId UnicodeByteIndex).
Proof.
  split; [|done|apply Nat.ltb_lt; vm_compute; reflexivity]. split.
  - intros [k b] s [? ?]. unfold_codec UnicodeBTreePageEntry.read UnicodeBTreePageEntry.write.
    cbn [bpe_key bpe_block]. by rd_run.
  - intros [k [[] []]]. done.
  - intros [k b]. unfold UnicodeBTreePageEntry.write. bytes_tac.
Qed.

#[export] Instance AnsiBTreePageEntry_laws : BTreeEntryLaws (BTreePageEntry AnsiPageId AnsiByteIndex).
Proof.
  split; [|done|apply Nat.ltb_lt; vm_compute; reflexivity]. split.
  - intros [k b] s [? ?]. unfold_codec AnsiBTreePageEntry.read AnsiBTreePageEntry.write.
    cbn [bpe_key bpe_block]. by rd_run.
  - intros [k [[] []]]. done.
  - intros [k b]. unfold AnsiBTreePageEntry.write. bytes_tac.
Qed.

#[export] Instance UnicodeBlockBTreeEntry_laws : BTreeEntryLaws UnicodeBlockBTreeEntry.t.
Proof.
  split; [|done|apply Nat.ltb_lt; vm_compute; reflexivity]. split.
  - intros [] s (? & ? & ? & ?).
    unfold_codec UnicodeBlockBTreeEntry.read UnicodeBlockBTreeEntry.write.
    cbn [UnicodeBlockBTreeEntry.block UnicodeBlockBTreeEntry.size UnicodeBlockBTreeEntry.ref_count UnicodeBlockBTreeEntry.padding] in *. by rd_run.
  - intros [[[] []]]. done.
  - intros []. unfold UnicodeBlockBTreeEntry.write. bytes_tac.
Qed.

#[export] Instance AnsiBlockBTreeEntry_laws : BTreeEntryLaws AnsiBlockBTreeEntry.t.
Proof.
  split; [|done|apply Nat.ltb_lt; vm_compute; reflexivity]. split.
  - intros [] s (? & ? & ?).
    unfold_codec AnsiBlockBTreeEntry.read AnsiBlockBTreeEntry.write.
    cbn [AnsiBlockBTreeEntry.block AnsiBlockBTreeEntry.size AnsiBlockBTreeEntry.ref_count] in *. by rd_run.
  - intros [[[] []]]. done.
  - intros []. unfold AnsiBlockBTreeEntry.write. bytes_tac.
Qed.

#[export] Instance UnicodeNodeBTreeEntry_laws : BTreeEntryLaws UnicodeNodeBTreeEntry.t.
Proof.
  split; [|done|apply Nat.ltb_lt; vm_compute; reflexivity]. split.
  - intros [[n] d o p pad] s (Hn & Hd & Ho & Hp & Hpad).
    unfold_codec UnicodeNodeBTreeEntry.read UnicodeNodeBTreeEntry.write.
    cbn [UnicodeNodeBTreeEntry.node UnicodeNodeBTreeEntry.data UnicodeNodeBTreeEntry.sub_node UnicodeNodeBTreeEntry.parent UnicodeNodeBTreeEntry.padding node_id_0] in *.
    assert (uint 64 n) by (apply (uint_le 32); [exact Hn|lia]).
    pose proof (present_wf _ _ (mk_UnicodeBlockId 0) o Ho (conj (Z.le_refl 0) eq_refl)) as Ho'.
    pose proof (present_wf _ _ (mk_NodeId 0) p Hp (conj (Z.le_refl 0) eq_refl)) as Hp'.
    rd_run. rewrite rd_ensure_true by by apply uint_b_spec. rd_run.
    rewrite (present_eq (fun b => UnicodeBlockId.search_key b =? 0) ser_wf) by done.
    by rewrite (present_eq (fun n => node_id_0 n =? 0) ser_wf) by done.
  - intros [[] [] [[]|] [[]|] ?]; done.
  - intros []. unfold UnicodeNodeBTreeEntry.write. bytes_tac.
Qed.

#[export] Instance AnsiNodeBTreeEntry_laws : BTreeEntryLaws AnsiNodeBTreeEntry.t.
Proof.
  split; [|done|apply Nat.ltb_lt; vm_compute; reflexivity]. split.
  - intros [[n] d o p] s (Hn & Hd & Ho & Hp).
    unfold_codec AnsiNodeBTreeEntry.read AnsiNodeBTreeEntry.write.
    cbn [AnsiNodeBTreeEntry.node AnsiNodeBTreeEntry.data AnsiNodeBTreeEntry.sub_node AnsiNodeBTreeEntry.parent node_id_0] in *.
    pose proof (present_wf _ _ (mk_AnsiBlockId 0) o Ho (conj (Z.le_refl 0) eq_refl)) as Ho'.
    pose proof (present_wf _ _ (mk_NodeId 0) p Hp (conj (Z.le_refl 0) eq_refl)) as Hp'.
    rd_run.
    rewrite (present_eq (fun b => AnsiBlockId.search_key b =? 0) ser_wf) by done.
    by rewrite (present_eq (fun n => node_id_0 n =? 0) ser_wf) by done.
  - intros [[] [] [[]|] [[]|]]; done.
  - intros []. unfold AnsiNodeBTreeEntry.write. bytes_tac.
Qed.

#[export] Instance UnicodeBTreeFormat_laws : BTreeFormatLaws UnicodePageId.
Proof. split; [apply _|done]. Qed.
#[export] Instance AnsiBTreeFormat_laws : BTreeFormatLaws AnsiPageId.
Proof. split; [apply _|done]. Qed.

#[export] Instance BTreeEntryPage_laws {E B} : BTreePageLaws (BTreeEntryPage E B) E B.
Proof.
  refine {|
    btp_valid p := 1 <= bte_level p <= 8 /\ is_btree_type (page_type (bte_trailer p)) = true;
    btp_with_crc p c := mk_BTreeEntryPage (bte_level p) (bte_max_entries p) (bte_entry_size p)
      (bte_entries p) (with_crc (bte_trailer p) c) |}.
  - cbn. lia.
  - by intros p [_ ?].
  - intros p c [Hl Ht] Hn. cbn in *. unfold BTreeEntryPage.new. cbn [with_crc page_type].
    rewrite Ht. destruct (Z.leb_spec 1 (bte_level p)); [|lia].
    destruct (Z.leb_spec (bte_level p) 8); [|lia].
    by destruct (Z.ltb_spec (bte_max_entries p) (Z.of_nat (length (bte_entries p)))); [lia|].
Defined.

#[export] Instance BTreeLeafPage_laws {P E B} : BTreePageLaws (BTreeLeafPage P E B) E B.
Proof.
  refine {|
    btp_valid p := page_type (btl_trailer p) = P /\ is_btree_type P = true;
    btp_with_crc p c := mk_BTreeLeafPage (btl_max_entries p) (btl_entry_size p)
      (btl_entries p) (with_crc (btl_trailer p) c) |}.
  - cbn. lia.
  - intros p [Ht Hp]. cbn. by rewrite Ht.
  - intros p c [Ht _] Hn. cbn in *. unfold BTreeLeafPage.new. cbn [with_crc page_type].
    rewrite (bool_decide_eq_true_2 _ Ht). cbn.
    by destruct (Z.ltb_spec (btl_max_entries p) (Z.of_nat (length (btl_entries p)))); [lia|].
Defined.

(** ** Slices *)

Lemma slice_app {E} (pre l post : list Z) off n :
  length pre = off -> length l = n -> @slice E (pre ++ l ++ post) off n = Ok l.
Proof.
  intros <- <-. unfold slice. rewrite !length_app.
  destruct (Nat.ltb_spec (length pre + (length l + length post)) (length pre + length l)); [lia|].
  by rewrite drop_app_length, take_app_length.
Qed.

Lemma slice_write_zeros (pre bs : list Z) off n k :
  length pre = off -> (length bs <= n)%nat -> (n <= k)%nat ->
  slice_write (pre ++ replicate k 0) off n bs =
    Ok (pre ++ (bs ++ replicate (n - length bs) 0) ++ replicate (k - n) 0).
Proof.
  intros <- Hb Hk. unfold slice_write. rewrite length_app, length_replicate.
  destruct (Nat.ltb_spec (length pre + k) (length pre + n)); [lia|].
  destruct (Nat.ltb_spec n (length bs)); [lia|].
  rewrite take_app_length, <- drop_drop, drop_app_length, drop_replicate, <- app_assoc.
  do 3 f_equal. rewrite <- replicate_add. f_equal. lia.
Qed.

(** ** Pages round trip *)

Section pages.
Set Default Proof Using "All".
Context {Pg E B : Type} `{!BTreePageReadWrite Pg E B, !BTreeEntry E, !BTreeFormat B}.
Context `{!BTreePageLaws Pg E B, !BTreeEntryLaws E, !BTreeFormatLaws B}.

Definition btree_page_wf (p : Pg) : Prop :=
  btp_valid p /\
  Z.of_nat (length (btp_entries p)) <= btp_max_entries p < 256 /\
  Z.of_nat (ENTRY_SIZE (E := E)) <= btp_entry_size p < 256 /\
  btp_max_entries p <= Z.of_nat (BTREE_ENTRIES_SIZE (B := B)) / btp_entry_size p /\
  Forall ser_wf (btp_entries p) /\ ser_wf (btp_trailer p).

(** An entry in its slot. *)
Definition slot (size : nat) (e : E) : list Z :=
  ser_write e ++ replicate (size - ENTRY_SIZE (E := E)) 0.

Lemma length_slot size e : (ENTRY_SIZE (E := E) <= size)%nat -> length (slot size e) = size.
Proof. intros H. unfold slot. rewrite length_app, length_replicate, rt_size, <- be_size. lia. Qed.

Lemma length_slots size l :
  (ENTRY_SIZE (E := E) <= size)%nat -> length (concat (map (slot size) l)) = (size * length l)%nat.
Proof. intros H. apply length_concat_map. intros. by apply length_slot. Qed.

Lemma write_entries_slots size es :
  (ENTRY_SIZE (E := E) <= size)%nat -> forall pre k i,
  length pre = (i * size)%nat -> (size * length es <= k)%nat ->
  BTreePage.write_entries (pre ++ replicate k 0) size i es =
    Ok (pre ++ concat (map (slot size) es) ++ replicate (k - size * length es) 0).
Proof.
  intros Hsize. induction es as [|e es IH]; intros pre k i Hpre Hk; cbn [BTreePage.write_entries].
  { cbn. rewrite Nat.mul_0_r. by rewrite Nat.sub_0_r. }
  cbn [length] in Hk.
  rewrite slice_write_zeros by (rewrite ?rt_size, <- ?be_size; lia). cbn [rbind].
  rewrite rt_size, <- be_size. fold (slot size e). rewrite app_assoc.
  rewrite IH by (rewrite ?length_app, ?length_slot, ?Hpre; lia).
  cbn [map concat]. rewrite <- !app_assoc. do 5 f_equal. cbn [length]. lia.
Qed.

Lemma read_entry_slot size pre e post i :
  (ENTRY_SIZE (E := E) <= size)%nat -> length pre = (i * size)%nat -> ser_wf e ->
  BTreePage.read_entry (pre ++ slot size e ++ post) size i = Ok e.
Proof.
  intros Hsize Hpre He. unfold BTreePage.read_entry.
  rewrite slice_app by (done || by apply length_slot). cbn [rbind]. unfold slot.
  by rewrite rt_read.
Qed.

Lemma read_entries_slots size es :
  (ENTRY_SIZE (E := E) <= size)%nat -> Forall ser_wf es -> forall pre post i,
  length pre = (i * size)%nat ->
  rmapM (BTreePage.read_entry (pre ++ concat (map (slot size) es) ++ post) size)
    (seq i (length es)) = Ok es.
Proof.
  intros Hsize Hes. induction Hes as [|e es He _ IH]; intros pre post i Hpre; [done|].
  cbn [length seq rmapM map concat]. rewrite <- app_assoc.
  rewrite read_entry_slot by done. cbn [rbind].
  specialize (IH (pre ++ slot size e) post (S i)).
  rewrite <- app_assoc in IH. rewrite IH; [done|]. rewrite length_app, length_slot by done. lia.
Qed.

(** The body that [write] produces. *)
Definition page_body (p : Pg) : list Z :=
  let size := Z.to_nat (btp_entry_size p) in
  concat (map (slot size) (btp_entries p)) ++
  replicate (BTREE_ENTRIES_SIZE (B := B) - size * length (btp_entries p)) 0 ++
  BTreePage.write_footer (B := B) p.

Lemma btree_page_sizes (p : Pg) :
  btree_page_wf p ->
  (ENTRY_SIZE (E := E) <= Z.to_nat (btp_entry_size p))%nat /\
  (Z.to_nat (btp_entry_size p) * length (btp_entries p) <= BTREE_ENTRIES_SIZE (B := B))%nat.
Proof.
  intros (_ & [Hc Hm] & [Hs Hs2] & Hq & _). split; [lia|].
  pose proof be_size_pos (E := E).
  assert (Hpos : 0 < btp_entry_size p) by lia.
  pose proof (Z.mul_div_le (Z.of_nat (BTREE_ENTRIES_SIZE (B := B))) _ Hpos) as Hdiv.
  assert (btp_entry_size p * Z.of_nat (length (btp_entries p)) <=
    btp_entry_size p * (Z.of_nat (BTREE_ENTRIES_SIZE (B := B)) / btp_entry_size p))
    by (apply Z.mul_le_mono_nonneg_l; lia).
  nia.
Qed.

Lemma length_page_body p : btree_page_wf p -> length (page_body p) = BTREE_BODY_SIZE (B := B).
Proof.
  intros Hwf. destruct (btree_page_sizes p Hwf) as [Hsz Hfit].
  unfold page_body. rewrite !length_app, length_slots, length_replicate by done.
  unfold BTreePage.write_footer. rewrite !length_app. autorewrite with pst_len.
  rewrite (bf_size (B := B)). destruct BTREE_PADDING; autorewrite with pst_len; cbn [length]; lia.
Qed.

Lemma page_body_bytes p : bytes_ok (page_body p).
Proof.
  unfold page_body, BTreePage.write_footer, slot.
  destruct BTREE_PADDING; bytes_tac; try (apply Forall_replicate; done); try constructor.
Qed.

Lemma page_write p :
  btree_page_wf p ->
  BTreePage.write (B := B) p = Ok (page_body p ++
    ser_write (with_crc (btp_trailer p) (compute_crc 0 (page_body p)))).
Proof.
  intros Hwf. destruct (btree_page_sizes p Hwf) as [Hsz Hfit]. unfold BTreePage.write.
  pose proof (write_entries_slots (Z.to_nat (btp_entry_size p)) (btp_entries p) Hsz []
    (BTREE_BODY_SIZE (B := B)) 0 eq_refl) as Hw.
  cbn [app] in Hw. rewrite bf_size in Hw. rewrite bf_size, Hw by lia. cbn [rbind].
  set (k := (BTREE_ENTRIES_SIZE + 4 + _)%nat).
  assert (Hb : forall l, take BTREE_ENTRIES_SIZE (concat (map (slot (Z.to_nat (btp_entry_size p)))
    (btp_entries p)) ++ replicate (k - Z.to_nat (btp_entry_size p) * length (btp_entries p)) 0) ++ l =
    concat (map (slot (Z.to_nat (btp_entry_size p))) (btp_entries p)) ++
    replicate (BTREE_ENTRIES_SIZE - Z.to_nat (btp_entry_size p) * length (btp_entries p)) 0 ++ l).
  { intros l. rewrite take_app_ge by (rewrite length_slots; done). rewrite length_slots by done.
    rewrite take_replicate, <- app_assoc. do 3 f_equal. subst k. destruct BTREE_PADDING; lia. }
  rewrite Hb. done.
Qed.

Lemma read_footer_write p :
  btree_page_wf p ->
  exists t, BTreePage.read_footer (E := E) (B := B) (BTreePage.write_footer (B := B) p) =
    Ok (Z.of_nat (length (btp_entries p)), btp_max_entries p, btp_entry_size p, btp_level p, t).
Proof.
  intros (Hv & [Hc Hm] & [Hs Hs2] & Hq & _). pose proof (btp_level_ok p Hv) as [Hl Hl8].
  unfold BTreePage.read_footer, BTreePage.write_footer.
  assert (uint 8 (Z.of_nat (length (btp_entries p)))) by (unfold uint; lia).
  assert (uint 8 (btp_max_entries p)) by (unfold uint; lia).
  assert (uint 8 (btp_entry_size p)) by (unfold uint; lia).
  assert (uint 8 (btp_level p)) by (unfold uint; lia).
  eexists. rd_run.
  rewrite (rd_bind_eq _ _ _ tt []); [done|]. destruct BTREE_PADDING; [|done].
  rewrite <- (app_nil_r (write_u32 0)). by rd_run.
Qed.

Lemma page_read p s :
  btree_page_wf p ->
  let c := compute_crc 0 (page_body p) in
  BTreePage.read (Pg := Pg) (page_body p ++ ser_write (with_crc (btp_trailer p) c) ++ s) =
    Ok (btp_with_crc p c, s).
Proof.
  intros Hwf c. destruct (btree_page_sizes p Hwf) as [Hsz Hfit].
  pose proof (length_page_body p Hwf) as Hlen.
  destruct (read_footer_write p Hwf) as [t Hfoot].
  destruct Hwf as (Hv & [Hc Hm] & _ & _ & Hes & Ht).
  assert (ser_wf (with_crc (btp_trailer p) c)) by by apply pt_with_crc, compute_crc_uint, page_body_bytes.
  unfold BTreePage.read. rd_run.
  assert (Hdrop : drop BTREE_ENTRIES_SIZE (page_body p) = BTreePage.write_footer (B := B) p).
  { unfold page_body. rewrite app_assoc. apply drop_app_exact.
    rewrite length_app, length_slots, length_replicate by done. lia. }
  rewrite Hdrop. erewrite rd_bind_eq; [|eapply with_cursor_eq, Hfoot]. cbv beta iota. rd_run.
  rewrite rd_ensure_true by by apply btp_type_ok. cbv zeta.
  rewrite rd_ensure_true by apply Z.eqb_refl.
  pose proof (read_entries_slots (Z.to_nat (btp_entry_size p)) (btp_entries p) Hsz Hes [])
    as Hread.
  unfold page_body at 1. rewrite Nat2Z.id.
  unfold rd_bind at 1. unfold rd_lift at 1. cbn [app] in Hread.
  rewrite Hread by done. cbn [rbind]. unfold rd_lift. by rewrite btp_new_ok by done.
Qed.

Lemma page_round_trip p s :
  btree_page_wf p ->
  exists bs c, BTreePage.write (B := B) p = Ok bs /\
    length bs = (BTREE_BODY_SIZE (B := B) + ser_size (A := PageTrailer B))%nat /\
    BTreePage.read (Pg := Pg) (bs ++ s) = Ok (btp_with_crc p c, s).
Proof.
  intros Hwf. do 2 eexists. split_and!; [by apply page_write| |].
  - by rewrite length_app, length_page_body, rt_size.
  - rewrite <- app_assoc. by apply page_read.
Qed.

(** What the reader requires of the CRC. *)
Lemma page_read_crc s p t :
  BTreePage.read (Pg := Pg) (B := B) s = Ok (p, t) ->
  exists buffer (trailer : PageTrailer B) u, s = buffer ++ u /\ length buffer = BTREE_BODY_SIZE (B := B) /\
    ser_read u = Ok (trailer, t) /\ compute_crc 0 buffer = crc trailer.
Proof.
  intros H. unfold BTreePage.read in H.
  apply rd_bind_ok in H as (buffer & u & Hb & H). apply read_exact_ok in Hb as [-> Hl].
  apply rd_bind_ok in H as ([[[n mx] sz] lv] & v & Hf & H).
  apply with_cursor_ok in Hf as [_ ->].
  apply rd_bind_ok in H as (trailer & w & Ht & H). cbv zeta in H. rd_inv. zb.
  exists buffer, trailer, v. by split_and!.
Qed.
End pages.

(** ** Searching a tree *)

Section search.
Set Default Proof Using "Type".
Context {P : PageType} {LE B I : Type}.
Context `{!BlockId B, !ByteIndex I, !BTreeEntry LE, !BTreeEntry (BTreePageEntry B I), !BTreeFormat B}.
Context (f : list Z) (known : BlockRef B I -> Prop).

Abbreviation page := (RootBTreePage.t (P := P) (LE := LE) (B := B) (I := I)).
Abbreviation PE := (BTreePageEntry B I).

(** The page an entry of an intermediate page leads to. *)
Definition page_of (e : PE) (child : page) : Prop :=
  known (bpe_block e) /\ RootBTreePage.read f (bpe_block e) = Ok child.

(** [page] is the root of a tree of the file of depth [d], over the keys
    [[lo..hi)], that holds the entries [es]. *)
Fixpoint btree (d : nat) (p : page) (lo hi : Z) (es : list LE) : Prop :=
  match d, p with
  | O, Leaf l => es = btl_entries l /\ Forall (fun e => lo <= be_key e < hi) es
  | S d, Intermediate n => children be_key page_of (btree d) (bte_entries n) lo hi es
  | _, _ => False
  end.

(** The lookup in the entries of the tree. *)
Definition btree_lookup (es : list LE) (k : Z) : io_result LE :=
  match List.find (fun e => be_key e =? k) es with
  | Some e => Ok e
  | None => Err (NdbData (BTreePageNotFound k))
  end.

(** References of the tree with the same page id lead to the same page. *)
Definition ids_unique : Prop := forall r1 r2,
  known r1 -> known r2 -> bid_into_u64 (bref_block r1) = bid_into_u64 (bref_block r2) ->
  RootBTreePage.read (P := P) (LE := LE) f r1 = RootBTreePage.read f r2.

(** Every page in the cache is the one the file has. *)
Definition cache_ok (c : RootBTreePage.cache (P := P) (LE := LE) (B := B) (I := I)) : Prop :=
  forall r p, known r -> c !! bid_into_u64 (bref_block r) = Some p ->
    RootBTreePage.read f r = Ok p.

Lemma btree_keys d p lo hi es : btree d p lo hi es -> keys_in be_key lo hi es.
Proof.
  revert p lo hi es. induction d as [|d IH]; intros [n|l] lo hi es; cbn; try done.
  - by intros [-> ?].
  - by apply children_keys.
Qed.

Abbreviation find_entry := (RootBTreePage.find_entry (P := P) (LE := LE) (B := B) (I := I)).

(** The lookup in the pages is the lookup in the entries of the tree, with
    any cache of pages of the file. *)
Lemma find_entry_tree d p lo hi es k c fuel :
  ids_unique -> cache_ok c -> btree d p lo hi es -> (d < fuel)%nat ->
  exists c', find_entry fuel f p k c = Some (btree_lookup es k, c') /\ cache_ok c'.
Proof.
  intros Hu. revert p lo hi es c fuel. induction d as [|d IH]; intros [n|l] lo hi es c fuel Hc Ht Hf;
    try done; (destruct fuel as [|fuel]; [lia|]); cbn [RootBTreePage.find_entry].
  - destruct Ht as [-> _]. unfold btree_lookup. exists c.
    destruct (List.find _ _); done.
  - cbn in Ht. pose proof (children_choose be_key be_key page_of _ _ lo hi es k (btree_keys d) Ht) as Hch.
    fold (choose be_key k (bte_entries n)). unfold btree_lookup.
    destruct (choose be_key k (bte_entries n)) as [e|]; [|rewrite Hch; by exists c].
    destruct Hch as (child & mid & es1 & [Hk Hrd] & Hb & ->).
    set (id := bid_into_u64 (bref_block (bpe_block e))).
    assert (match c !! id with Some page => Ok page | None => RootBTreePage.read f (bpe_block e) end
      = Ok child) as ->.
    { destruct (c !! id) eqn:Hci; [|done]. rewrite <- Hrd. symmetry. by eapply Hc. }
    assert (Hd : cache_ok (delete id c)).
    { intros r q Hr Hq. apply (lookup_delete_Some (M := gmap Z)) in Hq as [_ Hq]. by eapply Hc. }
    destruct (IH child (be_key e) mid es1 (delete id c) fuel Hd Hb ltac:(lia)) as (c' & -> & Hc').
    exists (<[id:=child]> c'). split; [done|].
    intros r q Hr Hq. unfold RootBTreePage.cache in *.
    destruct (decide (bid_into_u64 (bref_block r) = id)) as [Heq|Hne].
    + rewrite Heq, (lookup_insert_eq (M := gmap Z)) in Hq. injection Hq as <-. rewrite <- Hrd. by apply Hu.
    + rewrite (lookup_insert_ne (M := gmap Z)) in Hq by done. by eapply Hc'.
Qed.

End search.

(** ** Pages in a file *)

Section root_page.
Set Default Proof Using "All".
Context {P : PageType} {LE B I : Type}.
Context `{!BlockId B, !ByteIndex I, !BTreeEntry LE, !BTreeEntry (BTreePageEntry B I), !BTreeFormat B}.
Context `{!BTreeEntryLaws LE, !BTreeEntryLaws (BTreePageEntry B I), !BTreeFormatLaws B}.
(** Pages of both formats are 512 bytes long. *)
Hypothesis Hsize : (BTREE_BODY_SIZE (B := B) + ser_size (A := PageTrailer B) = 512)%nat.

Definition root_page_wf (p : RootBTreePage.t (P := P) (LE := LE) (B := B) (I := I)) : Prop :=
  match p with
  | Intermediate n => btree_page_wf n
  | Leaf l => btree_page_wf l
  end.

Definition root_page_with_crc (p : RootBTreePage.t (P := P) (LE := LE) (B := B) (I := I)) (c : Z) :=
  match p with
  | Intermediate n => Intermediate (btp_with_crc n c)
  | Leaf l => Leaf (btp_with_crc l c)
  end.

(** The byte that decides which page is read. *)
Lemma read_level {Pg E} `{!BTreePageReadWrite Pg E B, !BTreeEntry E, !BTreePageLaws Pg E B,
    !BTreeEntryLaws E} (p : Pg) u :
  btree_page_wf p ->
  exists t, read_u8 (drop (BTREE_ENTRIES_SIZE (B := B) + 3) (page_body p ++ u)) =
    Ok (btp_level p, t).
Proof.
  intros Hwf. destruct (btree_page_sizes p Hwf) as [Hsz Hfit]. destruct Hwf as (Hv & _).
  pose proof (btp_level_ok p Hv) as [Hl Hl8].
  unfold page_body, BTreePage.write_footer. rewrite <- !app_assoc.
  set (a := concat _). set (b := replicate _ _).
  assert (Hab : length (a ++ b) = BTREE_ENTRIES_SIZE).
  { unfold a, b. rewrite length_app, length_slots, length_replicate by done. lia. }
  set (n1 := write_u8 _). set (n2 := write_u8 (btp_max_entries p)).
  set (n3 := write_u8 (btp_entry_size p)).
  rewrite (app_assoc a), (app_assoc (a ++ b)), (app_assoc ((a ++ b) ++ n1)),
    (app_assoc (((a ++ b) ++ n1) ++ n2)).
  rewrite drop_app_exact by (rewrite !(length_app _ n3), !(length_app _ n2), !(length_app _ n1), Hab;
    unfold n1, n2, n3; autorewrite with pst_len; lia).
  eexists. apply read_u8_app. unfold uint. lia.
Qed.

Lemma root_page_round_trip p (block : BlockRef B I) (f : wfile) :
  root_page_wf p ->
  exists f' c, RootBTreePage.write p block f = Ok f' /\
    RootBTreePage.read (wf_data f') block = Ok (root_page_with_crc p c).
Proof.
  intros Hwf. unfold RootBTreePage.write.
  assert (Hrun : forall {Pg E} `{!BTreePageReadWrite Pg E B, !BTreeEntry E, !BTreePageLaws Pg E B,
    !BTreeEntryLaws E} (q : Pg), btree_page_wf q -> exists bs c,
      BTreePage.write (B := B) q = Ok bs /\ length bs = 512%nat /\
      (exists t, read_u8 (drop (BTREE_ENTRIES_SIZE (B := B) + 3) bs) = Ok (btp_level q, t)) /\
      BTreePage.read (Pg := Pg) bs = Ok (btp_with_crc q c, [])).
  { intros Pg E ? ? ? ? q Hq. pose proof (page_write q Hq) as Hw.
    exists (page_body q ++ ser_write (with_crc (btp_trailer q) (compute_crc 0 (page_body q)))).
    eexists. split_and!; [done| |by apply read_level|].
    - by rewrite length_app, length_page_body, rt_size.
    - rewrite <- (app_nil_r (ser_write _)). by apply page_read. }
  assert (Hlv : forall bs n t, length bs = 512%nat ->
    read_u8 (drop (BTREE_ENTRIES_SIZE (B := B) + 3) bs) = Ok (n, t) -> forall s k,
    rd_bind (A := Z) (B := RootBTreePage.t (P := P) (LE := LE) (B := B) (I := I))
      (with_cursor (drop (BTREE_ENTRIES_SIZE (B := B) + 3) bs) read_u8) k s = k n s).
  { intros bs n t _ Hr s k. by erewrite rd_bind_eq; [|eapply with_cursor_eq]. }
  destruct p as [n|l]; cbn [root_page_wf] in Hwf.
  - destruct (Hrun _ _ _ _ _ _ n Hwf) as (bs & c & -> & Hlen & [t Ht] & Hr). cbn [rbind].
    do 2 eexists. split; [done|]. apply read_at_write. intros s. eexists.
    unfold RootBTreePage.read_page. change (Z.to_nat PAGE_SIZE) with 512%nat. rd_run.
    rewrite (Hlv _ _ _ Hlen Ht). destruct Hwf as ([Hl _] & _). cbn [btp_level BTreeEntryPage_page].
    destruct (Z.eqb_spec (bte_level n) 0); [lia|].
    by erewrite rd_bind_eq; [|by eapply with_cursor_eq].
  - destruct (Hrun _ _ _ _ _ _ l Hwf) as (bs & c & -> & Hlen & [t Ht] & Hr). cbn [rbind].
    do 2 eexists. split; [done|]. apply read_at_write. intros s. eexists.
    unfold RootBTreePage.read_page. change (Z.to_nat PAGE_SIZE) with 512%nat. rd_run.
    rewrite (Hlv _ _ _ Hlen Ht). cbn [btp_level BTreeLeafPage_page Z.eqb].
    by erewrite rd_bind_eq; [|by eapply with_cursor_eq].
Qed.
End root_page.

(** ** Concrete pages *)

Definition sample_trailer (t : PageType) (id : Z) : UnicodePageTrailer :=
  mk_PageTrailer t 0 0 (mk_UnicodePageId id).

Definition sample_node (nid : Z) : UnicodeNodeBTreeEntry.t :=
  UnicodeNodeBTreeEntry.new (mk_NodeId nid) (mk_UnicodeBlockId (4 * nid)) None None.

Definition sample_ref (id offset : Z) : UnicodePageRef :=
  mk_BlockRef (mk_UnicodePageId id) (mk_UnicodeByteIndex offset).

Definition sample_leaf1 : UnicodeNodeBTreePage :=
  mk_BTreeLeafPage 15 32 [sample_node 0x21; sample_node 0x61] (sample_trailer NodeBTree 1).
Definition sample_leaf2 : UnicodeNodeBTreePage :=
  mk_BTreeLeafPage 15 32 [sample_node 0x122; sample_node 0x8022] (sample_trailer NodeBTree 2).
Definition sample_inner : UnicodeBTreeEntryPage :=
  mk_BTreeEntryPage 1 20 24 [mk_BTreePageEntry 0x21 (sample_ref 1 0);
    mk_BTreePageEntry 0x122 (sample_ref 2 512)] (sample_trailer NodeBTree 3).

Definition bytes_of (m : io_result (list Z)) : list Z := match m with Ok l => l | _ => [] end.

(** The two leaves at offsets 0 and 512. *)
Definition sample_file : list Z :=
  bytes_of (BTreePage.write sample_leaf1) ++ bytes_of (BTreePage.write sample_leaf2).

(** An intermediate page whose only entry refers to the page itself. *)
Definition looping_page : UnicodeBTreeEntryPage :=
  mk_BTreeEntryPage 1 20 24 [mk_BTreePageEntry 0 (sample_ref 7 0)] (sample_trailer NodeBTree 7).
Definition looping_file : list Z := bytes_of (BTreePage.write looping_page).

(** ** Properties *)

(** Every well-formed B-tree page (intermediate or leaf, node or block,
    Unicode or ANSI) is written as 512 bytes that read back to it. *)
Theorem BTreePage_round_trip (s : list Z) :
  (forall p : UnicodeBTreeEntryPage, btree_page_wf (E := UnicodeBTreePageEntry) (B := UnicodePageId) p ->
    exists bs c, BTreePage.write p = Ok bs /\ length bs = 512%nat /\
      BTreePage.read (bs ++ s) = Ok (btp_with_crc p c, s)) /\
  (forall p : UnicodeBlockBTreePage, btree_page_wf p ->
    exists bs c, BTreePage.write p = Ok bs /\ length bs = 512%nat /\
      BTreePage.read (bs ++ s) = Ok (btp_with_crc p c, s)) /\
  (forall p : UnicodeNodeBTreePage, btree_page_wf p ->
    exists bs c, BTreePage.write p = Ok bs /\ length bs = 512%nat /\
      BTreePage.read (bs ++ s) = Ok (btp_with_crc p c, s)) /\
  (forall p : AnsiBTreeEntryPage, btree_page_wf (E := AnsiBTreePageEntry) (B := AnsiPageId) p ->
    exists bs c, BTreePage.write p = Ok bs /\ length bs = 512%nat /\
      BTreePage.read (bs ++ s) = Ok (btp_with_crc p c, s)) /\
  (forall p : AnsiBlockBTreePage, btree_page_wf p ->
    exists bs c, BTreePage.write p = Ok bs /\ length bs = 512%nat /\
      BTreePage.read (bs ++ s) = Ok (btp_with_crc p c, s)) /\
  (forall p : AnsiNodeBTreePage, btree_page_wf p ->
    exists bs c, BTreePage.write p = Ok bs /\ length bs = 512%nat /\
      BTreePage.read (bs ++ s) = Ok (btp_with_crc p c, s)).
Proof. split_and!; intros p Hp; exact (page_round_trip p s Hp). Qed.

Lemma BTreePage_round_trip_witness :
  exists bs c, BTreePage.write sample_leaf1 = Ok bs /\ length bs = 512%nat /\
    BTreePage.read (bs ++ [1]) = Ok (btp_with_crc sample_leaf1 c, [1]).
Proof.
  apply BTreePage_round_trip. unfold btree_page_wf. split_and!; try done.
  repeat constructor; done.
Defined.

(** A page, intermediate or leaf, that is written at the place a
    reference names is found there by the reader, which tells the two kinds
    apart by the level byte. *)
Theorem RootBTreePage_round_trip (f : wfile) :
  (forall (p : RootBTreePage UnicodeBTreeEntryPage UnicodeNodeBTreePage) (block : UnicodePageRef),
    root_page_wf p -> exists f' c, RootBTreePage.write p block f = Ok f' /\
      RootBTreePage.read (wf_data f') block = Ok (root_page_with_crc p c)) /\
  (forall (p : RootBTreePage UnicodeBTreeEntryPage UnicodeBlockBTreePage) (block : UnicodePageRef),
    root_page_wf p -> exists f' c, RootBTreePage.write p block f = Ok f' /\
      RootBTreePage.read (wf_data f') block = Ok (root_page_with_crc p c)) /\
  (forall (p : RootBTreePage AnsiBTreeEntryPage AnsiNodeBTreePage) (block : AnsiPageRef),
    root_page_wf p -> exists f' c, RootBTreePage.write p block f = Ok f' /\
      RootBTreePage.read (wf_data f') block = Ok (root_page_with_crc p c)) /\
  (forall (p : RootBTreePage AnsiBTreeEntryPage AnsiBlockBTreePage) (block : AnsiPageRef),
    root_page_wf p -> exists f' c, RootBTreePage.write p block f = Ok f' /\
      RootBTreePage.read (wf_data f') block = Ok (root_page_with_crc p c)).
Proof. split_and!; intros p block Hp; by apply root_page_round_trip. Qed.

Lemma RootBTreePage_round_trip_witness :
  exists f' c, RootBTreePage.write (Leaf sample_leaf1) (sample_ref 1 0x4400) (mk_wfile [7; 7] 1)
      = Ok f' /\
    RootBTreePage.read (wf_data f') (sample_ref 1 0x4400) =
      Ok (root_page_with_crc (Leaf (IPage := UnicodeBTreeEntryPage) sample_leaf1) c).
Proof.
  apply (proj1 (RootBTreePage_round_trip (mk_wfile [7; 7] 1))).
  cbn [root_page_wf]. unfold btree_page_wf. split_and!; try done.
  repeat constructor; done.
Defined.

(** C7: looking an entry up from the root of a well-formed tree of the
    file, of either format and of nodes or blocks, ends within one call per
    level and returns what a search of the tree's entries returns: the entry
    with the key, or the error that names it.  Any cache whose pages are
    those of the file gives the same answer, and stays such a cache. *)
Theorem find_entry_correct {P : PageType} {LE B I : Type} `{!BlockId B, !ByteIndex I}
    `{!BTreeEntry LE, !BTreeEntry (BTreePageEntry B I), !BTreeFormat B}
    (f : list Z) (known : BlockRef B I -> Prop)
    (d : nat) (p : RootBTreePage.t (P := P) (LE := LE) (B := B) (I := I)) (lo hi : Z)
    (es : list LE) (key : Z) (cache : RootBTreePage.cache (P := P) (LE := LE) (B := B) (I := I))
    (fuel : nat)
    (Hids : ids_unique (P := P) (LE := LE) f known) (Hcache : cache_ok f known cache)
    (Htree : btree f known d p lo hi es) (Hfuel : (d < fuel)%nat) :
  exists cache', RootBTreePage.find_entry fuel f p key cache =
      Some (btree_lookup es key, cache') /\
    cache_ok f known cache'.
Proof. by eapply find_entry_tree. Qed.

Lemma find_entry_correct_witness :
  exists cache', RootBTreePage.find_entry (P := NodeBTree) (LE := UnicodeNodeBTreeEntry.t) 2 sample_file (Intermediate sample_inner) 0x122 ∅ =
      Some (Ok (sample_node 0x122), cache') /\
    cache_ok (P := NodeBTree) (LE := UnicodeNodeBTreeEntry.t) sample_file (fun r => r = sample_ref 1 0 \/ r = sample_ref 2 512) cache'.
Proof.
  assert (btree_lookup [sample_node 0x21; sample_node 0x61; sample_node 0x122;
    sample_node 0x8022] 0x122 = Ok (sample_node 0x122)) as <- by (vm_compute; reflexivity).
  apply (find_entry_correct (P := NodeBTree) (LE := UnicodeNodeBTreeEntry.t) sample_file
    (fun r => r = sample_ref 1 0 \/ r = sample_ref 2 512) 1
    (Intermediate sample_inner) 0 0x10000
    [sample_node 0x21; sample_node 0x61; sample_node 0x122; sample_node 0x8022] 0x122 ∅ 2).
  - intros r1 r2 [-> | ->] [-> | ->]; vm_compute; done.
  - intros r p _ H. vm_compute in H. discriminate.
  - cbn [btree sample_inner bte_entries children].
    eexists _, 0x122, [sample_node 0x21; sample_node 0x61],
      [sample_node 0x122; sample_node 0x8022].
    split; [vm_compute; split; discriminate|]. split; [vm_compute; discriminate|].
    split; [split; [left; reflexivity|vm_compute; reflexivity]|].
    split; [split; [reflexivity|repeat constructor; vm_compute; done]|]. split; [|reflexivity].
    eexists _, 0x10000, [sample_node 0x122; sample_node 0x8022], [].
    split; [vm_compute; split; discriminate|]. split; [vm_compute; discriminate|].
    split; [split; [right; reflexivity|vm_compute; reflexivity]|].
    split; [split; [reflexivity|repeat constructor; vm_compute; done]|]. done.
  - lia.
Defined.

(** Nothing bounds the depth of a lookup.  If the entry an intermediate
    page gives for a key refers to a page that reads as that same page, the
    recursion never ends, whatever its depth, even though every page is
    valid. *)
Theorem find_entry_self_reference {P : PageType} {LE B I : Type} `{!BlockId B, !ByteIndex I}
    `{!BTreeEntry LE, !BTreeEntry (BTreePageEntry B I), !BTreeFormat B}
    (f : list Z) (page : BTreeEntryPage (BTreePageEntry B I) B) (key : Z)
    (e : BTreePageEntry B I)
    (Hchoose : choose be_key key (bte_entries page) = Some e)
    (Hself : RootBTreePage.read (P := P) (LE := LE) f (bpe_block e) = Ok (Intermediate page))
    (fuel : nat) :
  RootBTreePage.find_entry (P := P) (LE := LE) fuel f (Intermediate page) key ∅ = None.
Proof.
  assert (H : forall c : RootBTreePage.cache (P := P) (LE := LE) (B := B) (I := I),
    c !! bid_into_u64 (bref_block (bpe_block e)) = None ->
    RootBTreePage.find_entry fuel f (Intermediate page) key c = None); [|by apply H].
  induction fuel as [|fuel IH]; intros c Hc; [done|]. cbn [RootBTreePage.find_entry].
  fold (choose be_key key (bte_entries page)). rewrite Hchoose, Hc, Hself, IH; [done|].
  unfold RootBTreePage.cache in *. apply (lookup_delete_eq (M := gmap Z)).
Qed.

Lemma find_entry_self_reference_witness :
  RootBTreePage.find_entry (P := NodeBTree) (LE := UnicodeNodeBTreeEntry.t) 1000 looping_file
    (Intermediate (btp_with_crc looping_page (le_val (take 4 (drop 500 looping_file)))))
    0x21 ∅ = None.
Proof.
  apply (find_entry_self_reference (P := NodeBTree) (LE := UnicodeNodeBTreeEntry.t) looping_file _
    0x21 (mk_BTreePageEntry 0 (sample_ref 7 0))); vm_compute; reflexivity.
Defined.
