(* ===== verification/Block.v ===== *)
(** * Blocks

    The first part of [ndb/block.rs] and the block codecs of
    [ndb/read_write.rs]: block sizes, block trailers, data blocks with
    their encoding, and the internal blocks of data trees and sub-node
    trees. *)
From S2P Require Import Prelude Errors Io Crc Encode Ids Header Page BTree.

Definition MAX_BLOCK_SIZE : Z := 8192.

(** [size.div_ceil(64) * 64] for an accepted size. *)
Definition block_size (size : Z) : io_result Z :=
  if (size =? 0) || (MAX_BLOCK_SIZE <? size) then Err (NdbData (InvalidBlockSize size)) else
  Ok (div_ceil size 64 * 64).

(** ** Trailers *)

(** [UnicodeBlockTrailer] and [AnsiBlockTrailer]: the same fields, written
    in a different order. *)
Record BlockTrailer (B : Type) := mk_BlockTrailer {
  bt_size : Z;
  bt_signature : Z;
  bt_crc : Z;
  bt_block_id : B
}.
Arguments mk_BlockTrailer {B}.
Arguments bt_size {B}.
Arguments bt_signature {B}.
Arguments bt_crc {B}.
Arguments bt_block_id {B}.

Definition UnicodeBlockTrailer : Type := BlockTrailer UnicodeBlockId.
Definition AnsiBlockTrailer : Type := BlockTrailer AnsiBlockId.

(** [(1..=(MAX_BLOCK_SIZE - Self::SIZE)).contains(&size)] *)
Definition trailer_size_ok (SIZE size : Z) : bool :=
  (1 <=? size) && (size <=? MAX_BLOCK_SIZE - SIZE).

Module UnicodeBlockTrailer.
Definition SIZE : Z := 16.

Definition new (size signature crc : Z) (block_id : UnicodeBlockId) : NdbResult UnicodeBlockTrailer :=
  if negb (trailer_size_ok SIZE size) then Err (InvalidBlockSize size) else
  Ok (mk_BlockTrailer size signature crc block_id).

(** [self.block_id.search_key() as u32] *)
Definition cyclic_key (t : UnicodeBlockTrailer) : Z :=
  wrap 32 (UnicodeBlockId.search_key (bt_block_id t)).

Definition verify_block_id (t : UnicodeBlockTrailer) (is_internal : bool) : NdbResult unit :=
  if negb (eqb (UnicodeBlockId.is_internal (bt_block_id t)) is_internal)
  then Err (InvalidUnicodeBlockTrailerId (unicode_block_id_0 (bt_block_id t))) else Ok tt.

Definition read : reader UnicodeBlockTrailer :=
  size <- read_u16;;
  rd_ensure (trailer_size_ok SIZE size) (InvalidBlockSize size);;;
  signature <- read_u16;;
  crc <- read_u32;;
  block_id <- ser_read;;
  rd_ret (mk_BlockTrailer size signature crc block_id).

Definition write (t : UnicodeBlockTrailer) : list Z :=
  write_u16 (bt_size t) ++ write_u16 (bt_signature t) ++ write_u32 (bt_crc t) ++
  ser_write (bt_block_id t).
End UnicodeBlockTrailer.

Module AnsiBlockTrailer.
Definition SIZE : Z := 12.

Definition new (size signature crc : Z) (block_id : AnsiBlockId) : NdbResult AnsiBlockTrailer :=
  if negb (trailer_size_ok SIZE size) then Err (InvalidBlockSize size) else
  Ok (mk_BlockTrailer size signature crc block_id).

Definition cyclic_key (t : AnsiBlockTrailer) : Z := AnsiBlockId.search_key (bt_block_id t).

Definition verify_block_id (t : AnsiBlockTrailer) (is_internal : bool) : NdbResult unit :=
  if negb (eqb (AnsiBlockId.is_internal (bt_block_id t)) is_internal)
  then Err (InvalidAnsiBlockTrailerId (ansi_block_id_0 (bt_block_id t))) else Ok tt.

Definition read : reader AnsiBlockTrailer :=
  size <- read_u16;;
  rd_ensure (trailer_size_ok SIZE size) (InvalidBlockSize size);;;
  signature <- read_u16;;
  block_id <- ser_read;;
  crc <- read_u32;;
  rd_ret (mk_BlockTrailer size signature crc block_id).

Definition write (t : AnsiBlockTrailer) : list Z :=
  write_u16 (bt_size t) ++ write_u16 (bt_signature t) ++ ser_write (bt_block_id t) ++
  write_u32 (bt_crc t).
End AnsiBlockTrailer.

(** [BlockTrailer] and [BlockTrailerReadWrite]: what the block codecs use of
    a trailer. *)
Class BlockTrailerReadWrite (B : Type) := {
  TRAILER_SIZE : Z;
  bt_new : Z -> Z -> Z -> B -> NdbResult (BlockTrailer B);
  bt_cyclic_key : BlockTrailer B -> Z;
  bt_verify_block_id : BlockTrailer B -> bool -> NdbResult unit;
  bt_serial :: Serial (BlockTrailer B)
}.

#[export] Instance UnicodeBlockTrailer_rw : BlockTrailerReadWrite UnicodeBlockId := {|
  TRAILER_SIZE := UnicodeBlockTrailer.SIZE;
  bt_new := UnicodeBlockTrailer.new;
  bt_cyclic_key := UnicodeBlockTrailer.cyclic_key;
  bt_verify_block_id := UnicodeBlockTrailer.verify_block_id;
  bt_serial := {|
    ser_read := UnicodeBlockTrailer.read;
    ser_write := UnicodeBlockTrailer.write;
    ser_wf t := trailer_size_ok UnicodeBlockTrailer.SIZE (bt_size t) = true /\
      uint 16 (bt_signature t) /\ uint 32 (bt_crc t) /\ ser_wf (bt_block_id t);
    ser_size := 16 |}
|}.

#[export] Instance AnsiBlockTrailer_rw : BlockTrailerReadWrite AnsiBlockId := {|
  TRAILER_SIZE := AnsiBlockTrailer.SIZE;
  bt_new := AnsiBlockTrailer.new;
  bt_cyclic_key := AnsiBlockTrailer.cyclic_key;
  bt_verify_block_id := AnsiBlockTrailer.verify_block_id;
  bt_serial := {|
    ser_read := AnsiBlockTrailer.read;
    ser_write := AnsiBlockTrailer.write;
    ser_wf t := trailer_size_ok AnsiBlockTrailer.SIZE (bt_size t) = true /\
      uint 16 (bt_signature t) /\ uint 32 (bt_crc t) /\ ser_wf (bt_block_id t);
    ser_size := 12 |}
|}.

(** ** Data blocks *)

(** [UnicodeDataBlock] and [AnsiDataBlock]. *)
Record DataBlock (B : Type) := mk_DataBlock {
  db_encoding : NdbCryptMethod;
  db_data : list Z;
  db_trailer : BlockTrailer B
}.
Arguments mk_DataBlock {B}.
Arguments db_encoding {B}.
Arguments db_data {B}.
Arguments db_trailer {B}.

(** What follows the data of a block up to its trailer: the offset is
    [block_size(offset)? - offset]. *)
Definition trailer_gap (size SIZE : Z) : io_result Z :=
  let? offset := ndb (ok_or (checked_add 16 size SIZE) (InvalidBlockSize size)) in
  let? aligned := block_size offset in
  Ok (aligned - offset).

Module DataBlock.
Section DataBlock.
Context {B : Type} `{!BlockTrailerReadWrite B}.

Definition new (encoding : NdbCryptMethod) (data : list Z) (trailer : BlockTrailer B) :
    NdbResult (DataBlock B) :=
  Ok (mk_DataBlock encoding data trailer).

Definition decode (encoding : NdbCryptMethod) (data : list Z) (trailer : BlockTrailer B) : list Z :=
  match encoding with
  | Cyclic => cyclic.encode_decode_block data (bt_cyclic_key trailer)
  | Permute => permute.decode_block data
  | Crypt_None => data
  end.

Definition encode (encoding : NdbCryptMethod) (data : list Z) (trailer : BlockTrailer B) : list Z :=
  match encoding with
  | Cyclic => cyclic.encode_decode_block data (bt_cyclic_key trailer)
  | Permute => permute.encode_block data
  | Crypt_None => data
  end.

(** [BlockReadWrite::read]. *)
Definition read (size : Z) (encoding : NdbCryptMethod) : reader (DataBlock B) :=
  data <- read_exact (Z.to_nat size);;
  offset <- rd_lift (trailer_gap size TRAILER_SIZE);;
  skip offset;;;
  trailer <- ser_read;;
  rd_ensure (bt_size trailer =? size) (InvalidBlockSize (bt_size trailer));;;
  rd_lift (ndb (bt_verify_block_id trailer false));;;
  let crc := compute_crc 0 data in
  rd_ensure (crc =? bt_crc trailer) (InvalidBlockCrc crc);;;
  rd_lift (ndb (new encoding (decode encoding data trailer) trailer)).

(** [BlockReadWrite::write] at the position of the file. *)
Definition write (b : DataBlock B) (f : wfile) : io_result wfile :=
  let trailer := db_trailer b in
  let data := encode (db_encoding b) (db_data b) trailer in
  let crc := compute_crc 0 data in
  let? trailer := ndb (bt_new (wrap 16 (Z.of_nat (length data))) (bt_signature trailer) crc
                         (bt_block_id trailer)) in
  let f := write_all data f in
  let size := wrap 16 (Z.of_nat (length data)) in
  let? offset := trailer_gap size TRAILER_SIZE in
  let f := wseek_current offset f in
  Ok (write_all (ser_write trailer) f).

End DataBlock.
End DataBlock.

(** ** Internal blocks *)

(** [IntermediateTreeHeader] and its read and write methods. *)
Class IntermediateTreeHeader (H : Type) := {
  ith_level : H -> Z;
  ith_entry_count : H -> Z;
  HEADER_SIZE : Z;
  ith_serial :: Serial H
}.

(** [IntermediateTreeEntryReadWrite]. *)
Class IntermediateTreeEntry (E : Type) := {
  TREE_ENTRY_SIZE : Z;
  ite_serial :: Serial E
}.

(** [IntermediateTreeBlock] with the [new] of its implementation. *)
Class IntermediateTreeBlock (T H E B : Type) := {
  itb_new : H -> list E -> BlockTrailer B -> NdbResult T;
  itb_header : T -> H;
  itb_entries : T -> list E;
  itb_trailer : T -> BlockTrailer B
}.

Module IntermediateTreeBlock.
Section IntermediateTreeBlock.
Context {T H E B : Type}.
Context `{!IntermediateTreeBlock T H E B, !IntermediateTreeHeader H, !IntermediateTreeEntry E}.
Context `{!BlockTrailerReadWrite B}.

(** The size that the header declares, when it is the size of the block. *)
Definition used_size (header : H) (size : Z) : io_result Z :=
  let? available := ndb (ok_or (checked_sub size HEADER_SIZE) (InvalidBlockSize size)) in
  let entry_count := ith_entry_count header in
  let? entry_bytes := ndb (ok_or (checked_mul 16 entry_count TREE_ENTRY_SIZE)
                             (InvalidInternalBlockEntryCount entry_count)) in
  if available <? entry_bytes then Err (NdbData (InvalidInternalBlockEntryCount entry_count)) else
  let? used_size := ndb (ok_or (checked_add 16 HEADER_SIZE entry_bytes)
                           (InvalidInternalBlockEntryCount entry_count)) in
  if negb (used_size =? size) then Err (NdbData (InvalidBlockSize size)) else Ok used_size.

(** [IntermediateTreeBlockReadWrite::read], the header having been read
    before from the same position. *)
Definition read (header : H) (size : Z) : reader T :=
  used_size <- rd_lift (used_size header size);;
  data <- read_exact (Z.to_nat size);;
  entries <- with_cursor (drop (Z.to_nat HEADER_SIZE) data)
               (rd_repeat (Z.to_nat (ith_entry_count header)) ser_read);;
  offset <- rd_lift (trailer_gap used_size TRAILER_SIZE);;
  skip offset;;;
  trailer <- ser_read;;
  rd_ensure (bt_size trailer =? size) (InvalidBlockSize (bt_size trailer));;;
  rd_lift (ndb (bt_verify_block_id trailer true));;;
  let crc := compute_crc 0 data in
  rd_ensure (crc =? bt_crc trailer) (InvalidBlockCrc crc);;;
  rd_lift (ndb (itb_new header entries trailer)).

Definition write (b : T) (f : wfile) : io_result wfile :=
  let data := ser_write (itb_header b) ++ concat (map ser_write (itb_entries b)) in
  let data := vec_buffer
      (Z.to_nat HEADER_SIZE + length (itb_entries b) * Z.to_nat TREE_ENTRY_SIZE) data in
  let trailer := itb_trailer b in
  let crc := compute_crc 0 data in
  let? trailer := ndb (bt_new (wrap 16 (Z.of_nat (length data))) (bt_signature trailer) crc
                         (bt_block_id trailer)) in
  let? offset := trailer_gap (bt_size trailer) TRAILER_SIZE in
  let f := write_all data f in
  let f := wseek_current offset f in
  Ok (write_all (ser_write trailer) f).

End IntermediateTreeBlock.
End IntermediateTreeBlock.

(** ** Data trees *)

Record DataTreeBlockHeader := mk_DataTreeBlockHeader {
  dth_level : Z;
  dth_entry_count : Z;
  dth_total_size : Z
}.

Module DataTreeBlockHeader.
Definition HEADER_SIZE : Z := 8.

Definition read : reader DataTreeBlockHeader :=
  block_type <- read_u8;;
  rd_ensure (block_type =? 0x01) (InvalidInternalBlockType block_type);;;
  level <- read_u8;;
  entry_count <- read_u16;;
  total_size <- read_u32;;
  rd_ret (mk_DataTreeBlockHeader level entry_count total_size).

Definition write (h : DataTreeBlockHeader) : list Z :=
  write_u8 0x01 ++ write_u8 (dth_level h) ++ write_u16 (dth_entry_count h) ++
  write_u32 (dth_total_size h).
End DataTreeBlockHeader.

#[export] Instance DataTreeBlockHeader_header : IntermediateTreeHeader DataTreeBlockHeader := {|
  ith_level := dth_level;
  ith_entry_count := dth_entry_count;
  HEADER_SIZE := DataTreeBlockHeader.HEADER_SIZE;
  ith_serial := {|
    ser_read := DataTreeBlockHeader.read;
    ser_write := DataTreeBlockHeader.write;
    ser_wf h := uint 8 (dth_level h) /\ uint 16 (dth_entry_count h) /\ uint 32 (dth_total_size h);
    ser_size := 8 |}
|}.

(** [UnicodeDataTreeEntry] and [AnsiDataTreeEntry]: a block id, read and
    written as one. *)
#[export] Instance UnicodeDataTreeEntry : IntermediateTreeEntry UnicodeBlockId := {|
  TREE_ENTRY_SIZE := 8;
  ite_serial := bid_serial (B := UnicodeBlockId)
|}.

#[export] Instance AnsiDataTreeEntry : IntermediateTreeEntry AnsiBlockId := {|
  TREE_ENTRY_SIZE := 4;
  ite_serial := bid_serial (B := AnsiBlockId)
|}.

Definition validate_data_tree_child_kind (parent_level : Z) (child_is_internal : bool) :
    NdbResult unit :=
  match parent_level, child_is_internal with
  | 1, false | 2, true => Ok tt
  | _, _ => Err (InvalidInternalBlockLevel parent_level)
  end.

Definition validate_data_tree_child_level (parent_level child_level : Z) : NdbResult unit :=
  if (parent_level =? 2) && (child_level =? 1) then Ok tt
  else Err (InvalidInternalBlockLevel child_level).

Definition validate_data_tree_total (declared actual : Z) : NdbResult unit :=
  if declared =? actual then Ok tt else Err (DataTreeSizeMismatch declared actual).

(** [DataTreeBlockInner], inside [UnicodeDataTreeBlock] and
    [AnsiDataTreeBlock]. *)
Record DataTreeBlock (B : Type) := mk_DataTreeBlock {
  dt_header : DataTreeBlockHeader;
  dt_entries : list B;
  dt_trailer : BlockTrailer B
}.
Arguments mk_DataTreeBlock {B}.
Arguments dt_header {B}.
Arguments dt_entries {B}.
Arguments dt_trailer {B}.

Module DataTreeBlock.
Section DataTreeBlock.
Context {B : Type} `{!BlockId B, !BlockTrailerReadWrite B, !IntermediateTreeEntry B}.

(** [DataTreeBlockInner::new]. *)
Definition inner_new (header : DataTreeBlockHeader) (entries : list B) (trailer : BlockTrailer B) :
    NdbResult (DataTreeBlock B) :=
  if negb ((1 <=? dth_level header) && (dth_level header <=? 2))
  then Err (InvalidInternalBlockLevel (dth_level header)) else
  if negb (dth_entry_count header =? Z.of_nat (length entries))
  then Err (InvalidInternalBlockEntryCount (dth_entry_count header)) else
  let? entry_bytes := ok_or (checked_mul 16 (dth_entry_count header) TREE_ENTRY_SIZE)
                        (InvalidInternalBlockEntryCount (dth_entry_count header)) in
  let? logical_size := ok_or (checked_add 16 DataTreeBlockHeader.HEADER_SIZE entry_bytes)
                         (InvalidInternalBlockEntryCount (dth_entry_count header)) in
  if negb (bt_size trailer =? logical_size) then Err (InvalidBlockSize (bt_size trailer)) else
  let? _ := bt_verify_block_id trailer true in
  Ok (mk_DataTreeBlock header entries trailer).

Definition new (header : DataTreeBlockHeader) (entries : list B) (trailer : BlockTrailer B) :
    NdbResult (DataTreeBlock B) :=
  let? _ := rmapM (fun entry =>
              validate_data_tree_child_kind (dth_level header) (bid_is_internal entry)) entries in
  inner_new header entries trailer.
End DataTreeBlock.
End DataTreeBlock.

#[export] Instance DataTreeBlock_block {B}
    `{!BlockId B, !BlockTrailerReadWrite B, !IntermediateTreeEntry B} :
  IntermediateTreeBlock (DataTreeBlock B) DataTreeBlockHeader B B := {|
  itb_new := DataTreeBlock.new;
  itb_header := dt_header;
  itb_entries := dt_entries;
  itb_trailer := dt_trailer
|}.

(** ** Sub-node trees *)

(** [SubNodeTreeBlockHeader], inside [UnicodeSubNodeTreeBlockHeader] and
    [AnsiSubNodeTreeBlockHeader]; [B] is the block id of the format. *)
Record SubNodeTreeBlockHeader (B : Type) := mk_SubNodeTreeBlockHeader {
  snh_level : Z;
  snh_entry_count : Z
}.
Arguments mk_SubNodeTreeBlockHeader {B}.
Arguments snh_level {B}.
Arguments snh_entry_count {B}.

Module UnicodeSubNodeTreeBlockHeader.
Definition HEADER_SIZE : Z := 8.

Definition read : reader (SubNodeTreeBlockHeader UnicodeBlockId) :=
  block_type <- read_u8;;
  rd_ensure (block_type =? 0x02) (InvalidInternalBlockType block_type);;;
  level <- read_u8;;
  entry_count <- read_u16;;
  padding <- read_u32;;
  rd_ensure (padding =? 0) (InvalidSubNodeBlockPadding padding);;;
  rd_ret (mk_SubNodeTreeBlockHeader level entry_count).

Definition write (h : SubNodeTreeBlockHeader UnicodeBlockId) : list Z :=
  write_u8 0x02 ++ write_u8 (snh_level h) ++ write_u16 (snh_entry_count h) ++ write_u32 0.
End UnicodeSubNodeTreeBlockHeader.

Module AnsiSubNodeTreeBlockHeader.
Definition HEADER_SIZE : Z := 4.

Definition read : reader (SubNodeTreeBlockHeader AnsiBlockId) :=
  block_type <- read_u8;;
  rd_ensure (block_type =? 0x02) (InvalidInternalBlockType block_type);;;
  level <- read_u8;;
  entry_count <- read_u16;;
  rd_ret (mk_SubNodeTreeBlockHeader level entry_count).

Definition write (h : SubNodeTreeBlockHeader AnsiBlockId) : list Z :=
  write_u8 0x02 ++ write_u8 (snh_level h) ++ write_u16 (snh_entry_count h).
End AnsiSubNodeTreeBlockHeader.

#[export] Instance UnicodeSubNodeTreeBlockHeader_header :
  IntermediateTreeHeader (SubNodeTreeBlockHeader UnicodeBlockId) := {|
  ith_level := snh_level;
  ith_entry_count := snh_entry_count;
  HEADER_SIZE := UnicodeSubNodeTreeBlockHeader.HEADER_SIZE;
  ith_serial := {|
    ser_read := UnicodeSubNodeTreeBlockHeader.read;
    ser_write := UnicodeSubNodeTreeBlockHeader.write;
    ser_wf h := uint 8 (snh_level h) /\ uint 16 (snh_entry_count h);
    ser_size := 8 |}
|}.

#[export] Instance AnsiSubNodeTreeBlockHeader_header :
  IntermediateTreeHeader (SubNodeTreeBlockHeader AnsiBlockId) := {|
  ith_level := snh_level;
  ith_entry_count := snh_entry_count;
  HEADER_SIZE := AnsiSubNodeTreeBlockHeader.HEADER_SIZE;
  ith_serial := {|
    ser_read := AnsiSubNodeTreeBlockHeader.read;
    ser_write := AnsiSubNodeTreeBlockHeader.write;
    ser_wf h := uint 8 (snh_level h) /\ uint 16 (snh_entry_count h);
    ser_size := 4 |}
|}.

Record IntermediateSubNodeTreeEntry (B : Type) := mk_IntermediateSubNodeTreeEntry {
  sie_node : NodeId;
  sie_block : B
}.
Arguments mk_IntermediateSubNodeTreeEntry {B}.
Arguments sie_node {B}.
Arguments sie_block {B}.

Record LeafSubNodeTreeEntry (B : Type) := mk_LeafSubNodeTreeEntry {
  sle_inner : IntermediateSubNodeTreeEntry B;
  sle_sub_node : option B
}.
Arguments mk_LeafSubNodeTreeEntry {B}.
Arguments sle_inner {B}.
Arguments sle_sub_node {B}.

Module LeafSubNodeTreeEntry.
Definition new {B} (node : NodeId) (block : B) (sub_node : option B) : LeafSubNodeTreeEntry B :=
  mk_LeafSubNodeTreeEntry (mk_IntermediateSubNodeTreeEntry node block) sub_node.
Definition node {B} (e : LeafSubNodeTreeEntry B) : NodeId := sie_node (sle_inner e).
Definition block {B} (e : LeafSubNodeTreeEntry B) : B := sie_block (sle_inner e).
End LeafSubNodeTreeEntry.

Module UnicodeIntermediateSubNodeTreeEntry.
(** The node id is the low half of the 64 bits read. *)
Definition read : reader (IntermediateSubNodeTreeEntry UnicodeBlockId) :=
  node <- read_u64;;
  block <- ser_read;;
  rd_ret (mk_IntermediateSubNodeTreeEntry (mk_NodeId (wrap 32 node)) block).
Definition write (e : IntermediateSubNodeTreeEntry UnicodeBlockId) : list Z :=
  write_u64 (node_id_0 (sie_node e)) ++ ser_write (sie_block e).
End UnicodeIntermediateSubNodeTreeEntry.

Module AnsiIntermediateSubNodeTreeEntry.
Definition read : reader (IntermediateSubNodeTreeEntry AnsiBlockId) :=
  node <- ser_read;;
  block <- ser_read;;
  rd_ret (mk_IntermediateSubNodeTreeEntry node block).
Definition write (e : IntermediateSubNodeTreeEntry AnsiBlockId) : list Z :=
  ser_write (sie_node e) ++ ser_write (sie_block e).
End AnsiIntermediateSubNodeTreeEntry.

#[export] Instance UnicodeIntermediateSubNodeTreeEntry_entry :
  IntermediateTreeEntry (IntermediateSubNodeTreeEntry UnicodeBlockId) := {|
  TREE_ENTRY_SIZE := 16;
  ite_serial := {|
    ser_read := UnicodeIntermediateSubNodeTreeEntry.read;
    ser_write := UnicodeIntermediateSubNodeTreeEntry.write;
    ser_wf e := ser_wf (sie_node e) /\ ser_wf (sie_block e);
    ser_size := 16 |}
|}.

#[export] Instance AnsiIntermediateSubNodeTreeEntry_entry :
  IntermediateTreeEntry (IntermediateSubNodeTreeEntry AnsiBlockId) := {|
  TREE_ENTRY_SIZE := 8;
  ite_serial := {|
    ser_read := AnsiIntermediateSubNodeTreeEntry.read;
    ser_write := AnsiIntermediateSubNodeTreeEntry.write;
    ser_wf e := ser_wf (sie_node e) /\ ser_wf (sie_block e);
    ser_size := 8 |}
|}.

Module UnicodeLeafSubNodeTreeEntry.
Definition read : reader (LeafSubNodeTreeEntry UnicodeBlockId) :=
  inner <- ser_read (A := IntermediateSubNodeTreeEntry UnicodeBlockId);;
  sub_node <- ser_read;;
  let sub_node := if UnicodeBlockId.search_key sub_node =? 0 then None else Some sub_node in
  rd_ret (LeafSubNodeTreeEntry.new (sie_node inner) (sie_block inner) sub_node).
Definition write (e : LeafSubNodeTreeEntry UnicodeBlockId) : list Z :=
  ser_write (sle_inner e) ++ ser_write (default (mk_UnicodeBlockId 0) (sle_sub_node e)).
End UnicodeLeafSubNodeTreeEntry.

Module AnsiLeafSubNodeTreeEntry.
Definition read : reader (LeafSubNodeTreeEntry AnsiBlockId) :=
  inner <- ser_read (A := IntermediateSubNodeTreeEntry AnsiBlockId);;
  sub_node <- ser_read;;
  let sub_node := if AnsiBlockId.search_key sub_node =? 0 then None else Some sub_node in
  rd_ret (LeafSubNodeTreeEntry.new (sie_node inner) (sie_block inner) sub_node).
Definition write (e : LeafSubNodeTreeEntry AnsiBlockId) : list Z :=
  ser_write (sle_inner e) ++ ser_write (default (mk_AnsiBlockId 0) (sle_sub_node e)).
End AnsiLeafSubNodeTreeEntry.

#[export] Instance UnicodeLeafSubNodeTreeEntry_entry :
  IntermediateTreeEntry (LeafSubNodeTreeEntry UnicodeBlockId) := {|
  TREE_ENTRY_SIZE := 24;
  ite_serial := {|
    ser_read := UnicodeLeafSubNodeTreeEntry.read;
    ser_write := UnicodeLeafSubNodeTreeEntry.write;
    ser_wf e := ser_wf (sle_inner e) /\
      present (fun b => UnicodeBlockId.search_key b =? 0) ser_wf (sle_sub_node e);
    ser_size := 24 |}
|}.

#[export] Instance AnsiLeafSubNodeTreeEntry_entry :
  IntermediateTreeEntry (LeafSubNodeTreeEntry AnsiBlockId) := {|
  TREE_ENTRY_SIZE := 12;
  ite_serial := {|
    ser_read := AnsiLeafSubNodeTreeEntry.read;
    ser_write := AnsiLeafSubNodeTreeEntry.write;
    ser_wf e := ser_wf (sle_inner e) /\
      present (fun b => AnsiBlockId.search_key b =? 0) ser_wf (sle_sub_node e);
    ser_size := 12 |}
|}.

Record SubNodeTreeBlock (H E B : Type) := mk_SubNodeTreeBlock {
  sn_header : H;
  sn_entries : list E;
  sn_trailer : BlockTrailer B
}.
Arguments mk_SubNodeTreeBlock {H E B}.
Arguments sn_header {H E B}.
Arguments sn_entries {H E B}.
Arguments sn_trailer {H E B}.

Module SubNodeTreeBlock.
Definition new {H E B} `{!BlockTrailerReadWrite B} (header : H) (entries : list E)
    (trailer : BlockTrailer B) : NdbResult (SubNodeTreeBlock H E B) :=
  let? _ := bt_verify_block_id trailer true in
  Ok (mk_SubNodeTreeBlock header entries trailer).
End SubNodeTreeBlock.

#[export] Instance SubNodeTreeBlock_block {H E B} `{!BlockTrailerReadWrite B} :
  IntermediateTreeBlock (SubNodeTreeBlock H E B) H E B := {|
  itb_new := SubNodeTreeBlock.new;
  itb_header := sn_header;
  itb_entries := sn_entries;
  itb_trailer := sn_trailer
|}.

(** ** Trees of blocks *)

(** [BlockBTreeEntry]: what the block readers use of an entry of the block
    B-tree. *)
Class BlockBTreeEntry (E B I : Type) := {
  bbe_block : E -> BlockRef B I;
  bbe_size : E -> Z;
  bbe_ref_count : E -> Z
}.

#[export] Instance UnicodeBlockBTreeEntry_block :
  BlockBTreeEntry UnicodeBlockBTreeEntry.t UnicodeBlockId UnicodeByteIndex := {|
  bbe_block := UnicodeBlockBTreeEntry.block;
  bbe_size := UnicodeBlockBTreeEntry.size;
  bbe_ref_count := UnicodeBlockBTreeEntry.ref_count
|}.

#[export] Instance AnsiBlockBTreeEntry_block :
  BlockBTreeEntry AnsiBlockBTreeEntry.t AnsiBlockId AnsiByteIndex := {|
  bbe_block := AnsiBlockBTreeEntry.block;
  bbe_size := AnsiBlockBTreeEntry.size;
  bbe_ref_count := AnsiBlockBTreeEntry.ref_count
|}.

(** The bytes of the block an entry refers to: [block_size] of the data and
    the trailer, read in one piece. *)
Definition read_physical {E B I} `{!BlockBTreeEntry E B I, !BlockTrailerReadWrite B}
    (block : E) : reader (list Z) :=
  physical_size <- rd_lift (ndb (ok_or (checked_add 16 (bbe_size block) (TRAILER_SIZE (B := B)))
                                   (InvalidBlockSize (bbe_size block))));;
  block_size <- rd_lift (block_size physical_size);;
  read_exact (Z.to_nat block_size).

Inductive DataTree (B : Type) :=
| DataTree_Intermediate (b : DataTreeBlock B)
| DataTree_Leaf (b : DataBlock B).
Arguments DataTree_Intermediate {B}.
Arguments DataTree_Leaf {B}.

Module DataTree.
Section DataTree.
Context {E B I : Type} `{!BlockId B, !ByteIndex I, !BlockBTreeEntry E B I}.
Context `{!BlockTrailerReadWrite B, !IntermediateTreeEntry B}.

Definition declared_size (t : DataTree B) : Z :=
  match t with
  | DataTree_Intermediate block => dth_total_size (dt_header block)
  | DataTree_Leaf block => Z.of_nat (length (db_data block))
  end.

(** The block read through the cursor. *)
Definition read_block (encoding : NdbCryptMethod) (block : E) : reader (DataTree B) :=
  data <- read_physical block;;
  if bid_is_internal (bref_block (bbe_block block)) then
    header <- with_cursor data (ser_read (A := DataTreeBlockHeader));;
    block <- with_cursor data (IntermediateTreeBlock.read header (bbe_size block));;
    rd_ret (DataTree_Intermediate block)
  else
    block <- with_cursor data (DataBlock.read (bbe_size block) encoding);;
    rd_ret (DataTree_Leaf block).

Definition read (f : list Z) (encoding : NdbCryptMethod) (block : E) : io_result (DataTree B) :=
  read_at f (bi_index (bref_index (bbe_block block))) (read_block encoding block).

Definition write (t : DataTree B) (block : E) (f : wfile) : io_result wfile :=
  let f := wseek_start (bi_index (bref_index (bbe_block block))) f in
  match t with
  | DataTree_Intermediate block => IntermediateTreeBlock.write block f
  | DataTree_Leaf block => DataBlock.write block f
  end.
End DataTree.
End DataTree.

Inductive SubNodeTree (B : Type) :=
| SubNodeTree_Intermediate
    (b : SubNodeTreeBlock (SubNodeTreeBlockHeader B) (IntermediateSubNodeTreeEntry B) B)
| SubNodeTree_Leaf (b : SubNodeTreeBlock (SubNodeTreeBlockHeader B) (LeafSubNodeTreeEntry B) B).
Arguments SubNodeTree_Intermediate {B}.
Arguments SubNodeTree_Leaf {B}.

Module SubNodeTree.
Section SubNodeTree.
Context {E B I : Type} `{!BlockId B, !ByteIndex I, !BlockBTreeEntry E B I}.
Context `{!BlockTrailerReadWrite B, !IntermediateTreeHeader (SubNodeTreeBlockHeader B)}.
Context `{!IntermediateTreeEntry (IntermediateSubNodeTreeEntry B)}.
Context `{!IntermediateTreeEntry (LeafSubNodeTreeEntry B)}.

Definition read_block (block : E) : reader (SubNodeTree B) :=
  data <- read_physical block;;
  header <- with_cursor data (ser_read (A := SubNodeTreeBlockHeader B));;
  if 0 <? ith_level header then
    block <- with_cursor data (IntermediateTreeBlock.read header (bbe_size block));;
    rd_ret (SubNodeTree_Intermediate block)
  else
    block <- with_cursor data (IntermediateTreeBlock.read header (bbe_size block));;
    rd_ret (SubNodeTree_Leaf block).

Definition read (f : list Z) (block : E) : io_result (SubNodeTree B) :=
  read_at f (bi_index (bref_index (bbe_block block))) (read_block block).

Definition write (t : SubNodeTree B) (block : E) (f : wfile) : io_result wfile :=
  let f := wseek_start (bi_index (bref_index (bbe_block block))) f in
  match t with
  | SubNodeTree_Intermediate block => IntermediateTreeBlock.write block f
  | SubNodeTree_Leaf block => IntermediateTreeBlock.write block f
  end.
End SubNodeTree.
End SubNodeTree.

(** ** Laws *)

Class BlockTrailerLaws (B : Type) `{!BlockId B, !BlockTrailerReadWrite B} := {
  bt_rt :: RoundTrip (BlockTrailer B);
  bt_size_ok : TRAILER_SIZE (B := B) = Z.of_nat (ser_size (A := BlockTrailer B)) /\
    0 < TRAILER_SIZE (B := B) <= 64;
  bt_new_spec : forall size sig crc (id : B), bt_new size sig crc id =
    if trailer_size_ok (TRAILER_SIZE (B := B)) size
    then Ok (mk_BlockTrailer size sig crc id) else Err (InvalidBlockSize size);
  bt_wf : forall size sig crc (id : B),
    trailer_size_ok (TRAILER_SIZE (B := B)) size = true -> uint 16 sig -> uint 32 crc ->
    ser_wf id -> ser_wf (mk_BlockTrailer size sig crc id);
  bt_read_size : forall s (t : BlockTrailer B) u,
    ser_read s = Ok (t, u) -> trailer_size_ok (TRAILER_SIZE (B := B)) (bt_size t) = true;
  bt_verify_ok : forall (t : BlockTrailer B) b,
    bid_is_internal (bt_block_id t) = b -> bt_verify_block_id t b = Ok tt;
  bt_verify_inv : forall (t : BlockTrailer B) b u,
    bt_verify_block_id t b = Ok u -> bid_is_internal (bt_block_id t) = b;
  (** the key depends on the id only *)
  bt_key : forall size sig crc size' sig' crc' (id : B),
    bt_cyclic_key (mk_BlockTrailer size sig crc id) = bt_cyclic_key (mk_BlockTrailer size' sig' crc' id)
}.

Lemma trailer_size_uint SIZE size : trailer_size_ok SIZE size = true -> 0 <= SIZE -> uint 16 size.
Proof. unfold trailer_size_ok, MAX_BLOCK_SIZE, uint. intros. zb. lia. Qed.

Ltac trailer_laws rd wr nw vf :=
  split;
  [ split;
    [ intros [] s (Hs & ? & ? & ?); unfold_codec rd wr;
      cbn [bt_size bt_signature bt_crc bt_block_id] in *;
      pose proof (trailer_size_uint _ _ Hs ltac:(done)); by rd_run
    | by intros [? ? ? []]
    | intros []; unfold ser_write, wr; cbn; bytes_tac ]
  | split; done
  | intros; cbn; unfold nw; by destruct (trailer_size_ok _ _)
  | by intros; split_and!
  | intros s t u H; change (rd s = Ok (t, u)) in H; unfold rd in H; rd_inv; done
  | intros t b Hb; cbn in *; unfold vf; by rewrite Hb, eqb_reflx
  | intros t b u Hb; cbn in *; unfold vf in Hb; by destruct (eqb _ _) eqn:E in Hb;
      [apply eqb_prop in E|]
  | done ].

#[export] Instance UnicodeBlockTrailer_laws : BlockTrailerLaws UnicodeBlockId.
Proof.
  trailer_laws UnicodeBlockTrailer.read UnicodeBlockTrailer.write UnicodeBlockTrailer.new
    UnicodeBlockTrailer.verify_block_id.
Qed.

#[export] Instance AnsiBlockTrailer_laws : BlockTrailerLaws AnsiBlockId.
Proof.
  trailer_laws AnsiBlockTrailer.read AnsiBlockTrailer.write AnsiBlockTrailer.new
    AnsiBlockTrailer.verify_block_id.
Qed.

(** The sizes for which a block has a place for its trailer. *)
Lemma block_size_ok size :
  0 < size <= MAX_BLOCK_SIZE ->
  exists aligned, block_size size = Ok aligned /\ aligned mod 64 = 0 /\
    size <= aligned < size + 64 /\ aligned <= MAX_BLOCK_SIZE.
Proof.
  unfold block_size, MAX_BLOCK_SIZE. intros H.
  destruct (Z.eqb_spec size 0); [lia|]. destruct (Z.ltb_spec 8192 size); [lia|]. cbn [orb].
  eexists. split; [done|]. unfold div_ceil.
  pose proof (Z.div_mod (size + 64 - 1) 64 ltac:(lia)).
  pose proof (Z.mod_pos_bound (size + 64 - 1) 64 ltac:(lia)).
  split; [apply Z.mod_mul; lia|]. split; lia.
Qed.

Lemma trailer_gap_ok size SIZE :
  trailer_size_ok SIZE size = true -> 0 < SIZE <= 64 ->
  exists gap, trailer_gap size SIZE = Ok gap /\ 0 <= gap < 64 /\
    block_size (size + SIZE) = Ok (size + gap + SIZE).
Proof.
  unfold trailer_size_ok. intros Hs HS. zb. unfold MAX_BLOCK_SIZE in *.
  unfold trailer_gap, checked_add. destruct (Z.ltb_spec (size + SIZE) (2 ^ 16)); [|lia].
  cbn [ok_or ndb rmap_err rbind].
  destruct (block_size_ok (size + SIZE)) as (al & -> & _ & ? & ?); [unfold MAX_BLOCK_SIZE; lia|].
  cbn [rbind]. eexists. split; [done|]. split; [lia|]. f_equal. lia.
Qed.

Section blocks.
Set Default Proof Using "All".
Context {B : Type} `{!BlockId B, !BlockTrailerReadWrite B, !BlockTrailerLaws B}.

Lemma length_encode enc data (t : BlockTrailer B) : length (DataBlock.encode enc data t) = length data.
Proof.
  destruct enc; cbn; [done|apply length_permute|apply length_encode_decode_block].
Qed.

Lemma encode_bytes enc data (t : BlockTrailer B) :
  bytes_ok data -> bytes_ok (DataBlock.encode enc data t).
Proof.
  intros H. destruct enc; cbn; [done|by apply permute_encode_ok|apply encode_decode_block_ok].
Qed.

Lemma decode_encode enc data (t t' : BlockTrailer B) :
  bytes_ok data -> bt_block_id t = bt_block_id t' ->
  DataBlock.decode enc (DataBlock.encode enc data t) t' = data.
Proof.
  intros H Hid. destruct enc; cbn; [done|by apply permute_decode_encode|].
  destruct t as [s1 g1 c1 i], t' as [s2 g2 c2 i']. cbn in Hid. subst i'.
  rewrite (bt_key s1 g1 c1 s2 g2 c2). by apply encode_loop_involutive.
Qed.

Definition data_block_wf (b : DataBlock B) : Prop :=
  bytes_ok (db_data b) /\
  1 <= Z.of_nat (length (db_data b)) <= MAX_BLOCK_SIZE - TRAILER_SIZE (B := B) /\
  uint 16 (bt_signature (db_trailer b)) /\ ser_wf (bt_block_id (db_trailer b)) /\
  bid_is_internal (bt_block_id (db_trailer b)) = false.

(** The trailer that is written. *)
Definition data_block_trailer (b : DataBlock B) : BlockTrailer B :=
  mk_BlockTrailer (Z.of_nat (length (db_data b))) (bt_signature (db_trailer b))
    (compute_crc 0 (DataBlock.encode (db_encoding b) (db_data b) (db_trailer b)))
    (bt_block_id (db_trailer b)).

(** A block that is read has the size of its entry. *)
Lemma data_block_read_size size encoding s b t :
  DataBlock.read size encoding s = Ok (b, t) ->
  Z.of_nat (length (db_data b)) = size /\ trailer_size_ok (TRAILER_SIZE (B := B)) size = true.
Proof.
  unfold DataBlock.read. intros H.
  apply rd_bind_ok in H as (data & u & Hd & H). apply read_exact_ok in Hd as [_ Hl].
  apply rd_bind_ok in H as (gap & u1 & _ & H). apply rd_bind_ok in H as (? & u2 & _ & H).
  apply rd_bind_ok in H as (tr & u3 & Ht & H). apply bt_read_size in Ht.
  apply rd_bind_ok in H as (? & u4 & Hs & H). apply rd_ensure_ok in Hs as [Hs _]. zb. subst size.
  apply rd_bind_ok in H as (? & u5 & _ & H). cbv zeta in H.
  apply rd_bind_ok in H as (? & u6 & _ & H). apply rd_lift_ok in H as [H _]. injection H as <-.
  split; [|done]. cbn. assert (Hdec : forall e, length (DataBlock.decode e data tr) = length data).
  { intros []; cbn; [done|apply length_permute|apply length_encode_decode_block]. }
  rewrite Hdec, Hl. unfold trailer_size_ok in Ht. zb. lia.
Qed.

Lemma data_block_write b f pos :
  data_block_wf b -> exists f' gap t,
    DataBlock.write b (wseek_start pos f) = Ok f' /\
    trailer_gap (Z.of_nat (length (db_data b))) (TRAILER_SIZE (B := B)) = Ok (Z.of_nat (length gap)) /\
    drop (Z.to_nat pos) (wf_data f') =
      DataBlock.encode (db_encoding b) (db_data b) (db_trailer b) ++ gap ++
      ser_write (data_block_trailer b) ++ t.
Proof.
  intros (Hd & Hl & Hs & Hid & Hint). destruct bt_size_ok as [Hsz HS].
  unfold DataBlock.write. rewrite length_encode.
  assert (Hok : trailer_size_ok (TRAILER_SIZE (B := B)) (Z.of_nat (length (db_data b))) = true).
  { unfold trailer_size_ok. apply andb_true_iff. lia. }
  rewrite wrap_small by (apply (trailer_size_uint (TRAILER_SIZE (B := B))); [done|lia]).
  rewrite bt_new_spec, Hok. cbn [ndb rmap_err rbind].
  destruct (trailer_gap_ok _ _ Hok HS) as (gap & Hg & Hg0 & _). rewrite Hg. cbn [rbind].
  destruct (write_all_gap (DataBlock.encode (db_encoding b) (db_data b) (db_trailer b))
    (ser_write (data_block_trailer b)) gap pos f) as (g & t & Hlg & Hdrop).
  do 3 eexists. split_and!; [done| |exact Hdrop]. f_equal. lia.
Qed.

Lemma data_block_read b gap t :
  data_block_wf b ->
  trailer_gap (Z.of_nat (length (db_data b))) (TRAILER_SIZE (B := B)) = Ok (Z.of_nat (length gap)) ->
  DataBlock.read (Z.of_nat (length (db_data b))) (db_encoding b)
    (DataBlock.encode (db_encoding b) (db_data b) (db_trailer b) ++ gap ++
      ser_write (data_block_trailer b) ++ t) =
  Ok (mk_DataBlock (db_encoding b) (db_data b) (data_block_trailer b), t).
Proof.
  intros (Hd & Hl & Hs & Hid & Hint) Hgap. destruct bt_size_ok as [Hsz HS].
  assert (Hok : trailer_size_ok (TRAILER_SIZE (B := B)) (Z.of_nat (length (db_data b))) = true).
  { unfold trailer_size_ok. apply andb_true_iff. lia. }
  assert (ser_wf (data_block_trailer b)).
  { apply bt_wf; [done|done| |done]. by apply compute_crc_uint, encode_bytes. }
  unfold DataBlock.read. rewrite Nat2Z.id.
  set (data := DataBlock.encode _ _ _) in *.
  assert (length data = length (db_data b)) by apply length_encode. rd_run.
  unfold rd_bind at 1, rd_lift at 1. rewrite Hgap. cbn [rbind].
  unfold rd_bind at 1, skip at 1. cbn [rbind]. rewrite Nat2Z.id, drop_app_length.
  rd_run. unfold rd_bind at 1, rd_lift at 1. rewrite (bt_verify_ok (data_block_trailer b) false Hint). cbn [ndb rmap_err rbind].
  cbv zeta. rd_run. unfold data. by rewrite (decode_encode _ _ (db_trailer b)).
Qed.
End blocks.

(** ** Internal blocks *)

Class TreeEntryLaws (E : Type) `{!IntermediateTreeEntry E} := {
  te_rt :: RoundTrip E;
  te_size : TREE_ENTRY_SIZE (E := E) = Z.of_nat (ser_size (A := E))
}.

Class TreeHeaderLaws (H : Type) `{!IntermediateTreeHeader H} := {
  th_rt :: RoundTrip H;
  th_size : HEADER_SIZE (H := H) = Z.of_nat (ser_size (A := H))
}.

(** [itb_valid] is what the block's own [new] checks. *)
Class TreeBlockLaws (T H E B : Type) `{!IntermediateTreeBlock T H E B} := {
  itb_valid : H -> list E -> BlockTrailer B -> Prop;
  itb_make : H -> list E -> BlockTrailer B -> T;
  itb_new_ok : forall h es t, itb_valid h es t -> itb_new h es t = Ok (itb_make h es t)
}.

Ltac header_laws rd wr split_wf :=
  split;
  [ split;
    [ intros [] s Hwf; split_wf Hwf; unfold_codec rd wr;
      cbn [dth_level dth_entry_count dth_total_size snh_level snh_entry_count] in *; by rd_run
    | by intros []
    | intros []; unfold ser_write, wr; cbn; bytes_tac ]
  | done ].

#[export] Instance DataTreeBlockHeader_laws : TreeHeaderLaws DataTreeBlockHeader.
Proof. header_laws DataTreeBlockHeader.read DataTreeBlockHeader.write
  ltac:(fun H => destruct H as (? & ? & ?)). Qed.
#[export] Instance UnicodeSubNodeTreeBlockHeader_laws :
  TreeHeaderLaws (SubNodeTreeBlockHeader UnicodeBlockId).
Proof. header_laws UnicodeSubNodeTreeBlockHeader.read UnicodeSubNodeTreeBlockHeader.write
  ltac:(fun H => destruct H as (? & ?)). Qed.
#[export] Instance AnsiSubNodeTreeBlockHeader_laws :
  TreeHeaderLaws (SubNodeTreeBlockHeader AnsiBlockId).
Proof. header_laws AnsiSubNodeTreeBlockHeader.read AnsiSubNodeTreeBlockHeader.write
  ltac:(fun H => destruct H as (? & ?)). Qed.

#[export] Instance UnicodeDataTreeEntry_laws : TreeEntryLaws UnicodeBlockId.
Proof. split; [exact UnicodeBlockId_rt|done]. Qed.
#[export] Instance AnsiDataTreeEntry_laws : TreeEntryLaws AnsiBlockId.
Proof. split; [exact AnsiBlockId_rt|done]. Qed.

#[export] Instance UnicodeIntermediateSubNodeTreeEntry_laws :
  TreeEntryLaws (IntermediateSubNodeTreeEntry UnicodeBlockId).
Proof.
  split; [|done]. split.
  - intros [[n] b] s [Hn Hb].
    unfold_codec UnicodeIntermediateSubNodeTreeEntry.read UnicodeIntermediateSubNodeTreeEntry.write.
    cbn [sie_node sie_block node_id_0] in *.
    assert (uint 64 n) by (apply (uint_le 32); [exact Hn|lia]).
    rd_run. by rewrite wrap_small.
  - by intros [[] []].
  - intros []. unfold ser_write. cbn. unfold UnicodeIntermediateSubNodeTreeEntry.write. bytes_tac.
Qed.

#[export] Instance AnsiIntermediateSubNodeTreeEntry_laws :
  TreeEntryLaws (IntermediateSubNodeTreeEntry AnsiBlockId).
Proof.
  split; [|done]. split.
  - intros [n b] s [Hn Hb].
    unfold_codec AnsiIntermediateSubNodeTreeEntry.read AnsiIntermediateSubNodeTreeEntry.write.
    cbn [sie_node sie_block] in *. by rd_run.
  - by intros [[] []].
  - intros []. unfold ser_write. cbn. unfold AnsiIntermediateSubNodeTreeEntry.write. bytes_tac.
Qed.

#[export] Instance UnicodeLeafSubNodeTreeEntry_laws :
  TreeEntryLaws (LeafSubNodeTreeEntry UnicodeBlockId).
Proof.
  split; [|done]. split.
  - intros [[n b] o] s [Hi Ho].
    unfold_codec UnicodeLeafSubNodeTreeEntry.read UnicodeLeafSubNodeTreeEntry.write.
    cbn [sle_inner sle_sub_node] in *.
    pose proof (present_wf _ _ (mk_UnicodeBlockId 0) o Ho (conj (Z.le_refl 0) eq_refl)) as Ho'.
    rd_run. by rewrite (present_eq (fun b => UnicodeBlockId.search_key b =? 0) ser_wf) by done.
  - by intros [[[] []] [[]|]].
  - intros []. unfold ser_write. cbn. unfold UnicodeLeafSubNodeTreeEntry.write. bytes_tac.
Qed.

#[export] Instance AnsiLeafSubNodeTreeEntry_laws :
  TreeEntryLaws (LeafSubNodeTreeEntry AnsiBlockId).
Proof.
  split; [|done]. split.
  - intros [[n b] o] s [Hi Ho].
    unfold_codec AnsiLeafSubNodeTreeEntry.read AnsiLeafSubNodeTreeEntry.write.
    cbn [sle_inner sle_sub_node] in *.
    pose proof (present_wf _ _ (mk_AnsiBlockId 0) o Ho (conj (Z.le_refl 0) eq_refl)) as Ho'.
    rd_run. by rewrite (present_eq (fun b => AnsiBlockId.search_key b =? 0) ser_wf) by done.
  - by intros [[[] []] [[]|]].
  - intros []. unfold ser_write. cbn. unfold AnsiLeafSubNodeTreeEntry.write. bytes_tac.
Qed.

(** The checks of [DataTreeBlock.new]. *)
Definition data_tree_block_valid {B} `{!BlockId B, !BlockTrailerReadWrite B, !IntermediateTreeEntry B}
    (h : DataTreeBlockHeader) (es : list B) (t : BlockTrailer B) : Prop :=
  (dth_level h = 1 \/ dth_level h = 2) /\ dth_entry_count h = Z.of_nat (length es) /\
  Forall (fun e => bid_is_internal e = (dth_level h =? 2)) es /\
  bt_size t = DataTreeBlockHeader.HEADER_SIZE + dth_entry_count h * TREE_ENTRY_SIZE (E := B) /\
  bt_size t < 2 ^ 16 /\ bid_is_internal (bt_block_id t) = true /\ 0 <= TREE_ENTRY_SIZE (E := B).

#[export] Instance DataTreeBlock_laws {B}
    `{!BlockId B, !BlockTrailerReadWrite B, !BlockTrailerLaws B, !IntermediateTreeEntry B} :
  TreeBlockLaws (DataTreeBlock B) DataTreeBlockHeader B B.
Proof.
  refine {| itb_valid := data_tree_block_valid; itb_make := mk_DataTreeBlock |}.
  intros h es t (Hl & Hn & Hk & Hs & Hb & Hi & He). cbn. unfold DataTreeBlock.new.
  assert (Hm : exists us, rmapM (fun entry =>
    validate_data_tree_child_kind (dth_level h) (bid_is_internal entry)) es = Ok us).
  { clear - Hk Hl. induction Hk as [|e es He _ [us IH]]; [by exists []|].
    exists (tt :: us). cbn. rewrite He, IH. by destruct Hl as [-> | ->]. }
  destruct Hm as [us ->]. cbn [rbind]. unfold DataTreeBlock.inner_new.
  assert (HH : DataTreeBlockHeader.HEADER_SIZE = 8) by done.
  assert ((1 <=? dth_level h) && (dth_level h <=? 2) = true) as -> by (destruct Hl as [-> | ->]; done).
  rewrite Hn, Z.eqb_refl. cbn [negb]. rewrite Hn in Hs. unfold checked_mul, checked_add.
  destruct (Z.ltb_spec (Z.of_nat (length es) * TREE_ENTRY_SIZE) (2 ^ 16)); [|lia].
  cbn [ok_or rbind].
  destruct (Z.ltb_spec (DataTreeBlockHeader.HEADER_SIZE + Z.of_nat (length es) * TREE_ENTRY_SIZE)
    (2 ^ 16)); [|lia].
  cbn [ok_or rbind]. rewrite Hs, Z.eqb_refl. cbn [negb]. by rewrite bt_verify_ok.
Defined.

#[export] Instance SubNodeTreeBlock_laws {H E B}
    `{!BlockId B, !BlockTrailerReadWrite B, !BlockTrailerLaws B} :
  TreeBlockLaws (SubNodeTreeBlock H E B) H E B.
Proof.
  refine {| itb_valid h es t := bid_is_internal (bt_block_id t) = true;
            itb_make := mk_SubNodeTreeBlock |}.
  intros h es t Hi. cbn. unfold SubNodeTreeBlock.new. by rewrite bt_verify_ok.
Defined.

Section internal_blocks.
Set Default Proof Using "All".
Context {T H E B : Type} `{!BlockId B}.
Context `{!IntermediateTreeBlock T H E B, !IntermediateTreeHeader H, !IntermediateTreeEntry E}.
Context `{!BlockTrailerReadWrite B, !BlockTrailerLaws B, !TreeEntryLaws E, !TreeHeaderLaws H}.
Context `{!TreeBlockLaws T H E B}.

(** The bytes of the header and entries, and the trailer written after
    them. *)
Definition internal_data (b : T) : list Z :=
  ser_write (itb_header b) ++ concat (map ser_write (itb_entries b)).

Definition internal_trailer (b : T) : BlockTrailer B :=
  mk_BlockTrailer (Z.of_nat (length (internal_data b))) (bt_signature (itb_trailer b))
    (compute_crc 0 (internal_data b)) (bt_block_id (itb_trailer b)).

Definition internal_block_wf (b : T) : Prop :=
  ser_wf (itb_header b) /\ Forall ser_wf (itb_entries b) /\
  ith_entry_count (itb_header b) = Z.of_nat (length (itb_entries b)) /\
  1 <= Z.of_nat (length (internal_data b)) <= MAX_BLOCK_SIZE - TRAILER_SIZE (B := B) /\
  uint 16 (bt_signature (itb_trailer b)) /\ ser_wf (bt_block_id (itb_trailer b)) /\
  bid_is_internal (bt_block_id (itb_trailer b)) = true /\
  itb_valid (itb_header b) (itb_entries b) (internal_trailer b).

Lemma internal_data_bytes b : bytes_ok (internal_data b).
Proof. unfold internal_data. bytes_tac. Qed.

Lemma length_internal_data b :
  Z.of_nat (length (internal_data b)) =
    HEADER_SIZE (H := H) + Z.of_nat (length (itb_entries b)) * TREE_ENTRY_SIZE (E := E).
Proof.
  unfold internal_data. rewrite length_app, rt_size, (length_concat_map _ (ser_size (A := E))) by
    apply rt_size.
  rewrite th_size, te_size. lia.
Qed.

Lemma internal_trailer_ok b :
  internal_block_wf b ->
  trailer_size_ok (TRAILER_SIZE (B := B)) (Z.of_nat (length (internal_data b))) = true /\
  ser_wf (internal_trailer b).
Proof.
  intros (_ & _ & _ & Hl & Hs & Hid & _). split.
  - unfold trailer_size_ok. apply andb_true_iff. lia.
  - apply bt_wf; [|done| |done].
    + unfold trailer_size_ok. apply andb_true_iff. lia.
    + apply compute_crc_uint, internal_data_bytes.
Qed.

Lemma internal_block_write b f pos :
  internal_block_wf b -> exists f' gap t,
    IntermediateTreeBlock.write b (wseek_start pos f) = Ok f' /\
    trailer_gap (Z.of_nat (length (internal_data b))) (TRAILER_SIZE (B := B)) =
      Ok (Z.of_nat (length gap)) /\
    drop (Z.to_nat pos) (wf_data f') =
      internal_data b ++ gap ++ ser_write (internal_trailer b) ++ t.
Proof.
  intros Hwf. destruct (internal_trailer_ok b Hwf) as [Hok _].
  destruct Hwf as (_ & _ & _ & Hl & _). destruct bt_size_ok as [Hsz HS].
  unfold IntermediateTreeBlock.write. fold (internal_data b).
  pose proof (length_internal_data b) as Hlen.
  rewrite vec_buffer_exact; [|rewrite th_size, te_size in *; lia].
  rewrite wrap_small by (apply (trailer_size_uint (TRAILER_SIZE (B := B))); [done|lia]).
  rewrite bt_new_spec, Hok. cbn [ndb rmap_err rbind bt_size].
  destruct (trailer_gap_ok _ _ Hok HS) as (gap & Hg & Hg0 & _). rewrite Hg. cbn [rbind].
  destruct (write_all_gap (internal_data b) (ser_write (internal_trailer b)) gap pos f)
    as (g & t & Hlg & Hdrop).
  do 3 eexists. split_and!; [done| |exact Hdrop]. f_equal. lia.
Qed.

Lemma internal_block_read b gap t :
  internal_block_wf b ->
  trailer_gap (Z.of_nat (length (internal_data b))) (TRAILER_SIZE (B := B)) =
    Ok (Z.of_nat (length gap)) ->
  IntermediateTreeBlock.read (T := T) (itb_header b) (Z.of_nat (length (internal_data b)))
    (internal_data b ++ gap ++ ser_write (internal_trailer b) ++ t) =
  Ok (itb_make (itb_header b) (itb_entries b) (internal_trailer b), t).
Proof.
  intros Hwf Hgap. destruct (internal_trailer_ok b Hwf) as [Hok Htw].
  destruct Hwf as (Hh & Hes & Hn & Hl & Hs & Hid & Hint & Hv). destruct bt_size_ok as [Hsz HS].
  pose proof (length_internal_data b) as Hlen.
  assert (Hused : IntermediateTreeBlock.used_size (E := E) (itb_header b)
    (Z.of_nat (length (internal_data b))) = Ok (Z.of_nat (length (internal_data b)))).
  { unfold IntermediateTreeBlock.used_size, checked_sub, checked_mul, checked_add.
    rewrite Hn, Hlen. unfold MAX_BLOCK_SIZE in *.
    assert (0 <= Z.of_nat (length (itb_entries b)) * TREE_ENTRY_SIZE (E := E))
      by (rewrite te_size; lia).
    rewrite th_size in *.
    destruct (Z.leb_spec (Z.of_nat (ser_size (A := H))) (Z.of_nat (ser_size (A := H)) +
      Z.of_nat (length (itb_entries b)) * TREE_ENTRY_SIZE)); [|lia]. cbn [ok_or ndb rmap_err rbind].
    destruct (Z.ltb_spec (Z.of_nat (length (itb_entries b)) * TREE_ENTRY_SIZE) (2 ^ 16)); [|lia].
    cbn [ok_or ndb rmap_err rbind]. rewrite Z.add_simpl_l, Z.ltb_irrefl.
    destruct (Z.ltb_spec (Z.of_nat (ser_size (A := H)) +
      Z.of_nat (length (itb_entries b)) * TREE_ENTRY_SIZE) (2 ^ 16)); [|lia].
    cbn [ok_or ndb rmap_err rbind]. by rewrite Z.eqb_refl. }
  unfold IntermediateTreeBlock.read. unfold rd_bind at 1, rd_lift at 1. rewrite Hused. cbn [rbind].
  rewrite Nat2Z.id. rd_run.
  erewrite rd_bind_eq; [|eapply with_cursor_eq; rewrite Hn, Nat2Z.id; unfold internal_data;
    rewrite drop_app_exact by (rewrite rt_size, th_size; lia);
    rewrite <- (app_nil_r (concat _)); by apply rd_repeat_ser].
  unfold rd_bind at 1, rd_lift at 1. rewrite Hgap. cbn [rbind].
  unfold rd_bind at 1, skip at 1. cbn [rbind]. rewrite Nat2Z.id, drop_app_length.
  rd_run. unfold rd_bind at 1, rd_lift at 1.
  rewrite (bt_verify_ok (internal_trailer b) true Hint). cbn [ndb rmap_err rbind].
  cbv zeta. rd_run. unfold rd_lift. by rewrite itb_new_ok.
Qed.
End internal_blocks.

(** ** Trees of blocks in a file *)

Section trees.
Set Default Proof Using "All".
Context {E B I : Type} `{!BlockId B, !ByteIndex I, !BlockBTreeEntry E B I}.
Context `{!BlockTrailerReadWrite B, !BlockTrailerLaws B}.

(** The physical block: what was written, with its gap, and no more. *)
Lemma read_physical_ok (block : E) data gap tl t :
  bbe_size block = Z.of_nat (length data) ->
  trailer_size_ok (TRAILER_SIZE (B := B)) (Z.of_nat (length data)) = true ->
  trailer_gap (Z.of_nat (length data)) (TRAILER_SIZE (B := B)) = Ok (Z.of_nat (length gap)) ->
  length tl = ser_size (A := BlockTrailer B) ->
  read_physical block (data ++ gap ++ tl ++ t) = Ok (data ++ gap ++ tl, t).
Proof.
  intros Hsize Hok Hgap Htl. destruct bt_size_ok as [Hsz HS].
  destruct (trailer_gap_ok _ _ Hok HS) as (g & Hg & Hg0 & Hbs). rewrite Hgap in Hg. injection Hg as <-.
  unfold read_physical. rewrite Hsize. unfold checked_add.
  assert (Z.of_nat (length data) + TRAILER_SIZE (B := B) <= MAX_BLOCK_SIZE).
  { unfold trailer_size_ok in Hok. zb. lia. }
  unfold MAX_BLOCK_SIZE in *.
  destruct (Z.ltb_spec (Z.of_nat (length data) + TRAILER_SIZE (B := B)) (2 ^ 16)); [|lia].
  unfold rd_bind at 1, rd_lift at 1. cbn [ok_or ndb rmap_err rbind].
  unfold rd_bind at 1, rd_lift at 1. rewrite Hbs. cbn [rbind].
  replace (data ++ gap ++ tl ++ t) with ((data ++ gap ++ tl) ++ t) by (by rewrite <- !app_assoc).
  apply read_exact_app. rewrite !length_app, Htl. rewrite Hsz. lia.
Qed.

(** What a tree that was read satisfies. *)
Section read_inv.
Context `{!IntermediateTreeEntry B}.

Lemma data_tree_read_leaf f encoding (e : E) b :
  DataTree.read f encoding e = Ok (DataTree_Leaf b) ->
  Z.of_nat (length (db_data b)) = bbe_size e /\ 1 <= bbe_size e <= MAX_BLOCK_SIZE.
Proof.
  unfold DataTree.read, read_at, DataTree.read_block. intros H. res_step. destruct a as [t u]. inv_ok.
  apply rd_bind_ok in E0 as (data & u1 & _ & H). destruct (bid_is_internal _).
  - apply rd_bind_ok in H as (? & ? & _ & H). by apply rd_bind_ok in H as (? & ? & _ & H).
  - apply rd_bind_ok in H as (b' & u2 & Hb & H). unfold rd_ret in H. inv_ok.
    apply with_cursor_ok in Hb as [(v & Hb) _].
    apply data_block_read_size in Hb as [Hl Hok]. split; [done|].
    destruct bt_size_ok as [_ ?]. unfold trailer_size_ok in Hok. zb. lia.
Qed.

Lemma data_tree_read_level f encoding (e : E) b :
  DataTree.read f encoding e = Ok (DataTree_Intermediate b) ->
  dth_level (dt_header b) = 1 \/ dth_level (dt_header b) = 2.
Proof.
  unfold DataTree.read, read_at, DataTree.read_block. intros H. res_step. destruct a as [t u]. inv_ok.
  apply rd_bind_ok in E0 as (data & u1 & _ & H). destruct (bid_is_internal _).
  - apply rd_bind_ok in H as (h & ? & _ & H). apply rd_bind_ok in H as (b' & ? & Hb & H).
    unfold rd_ret in H. inv_ok. apply with_cursor_ok in Hb as [(v & Hb) _].
    unfold IntermediateTreeBlock.read in Hb. cbv zeta in Hb.
    repeat (apply rd_bind_ok in Hb as (? & ? & _ & Hb)).
    apply rd_lift_ok in Hb as [Hb _]. apply ndb_ok in Hb. cbn in Hb.
    unfold DataTreeBlock.new, DataTreeBlock.inner_new in Hb. repeat res_step. inv_ok. cbn. zb. lia.
  - by apply rd_bind_ok in H as (b' & ? & _ & H).
Qed.
End read_inv.

Section data.
Context `{!IntermediateTreeEntry B, !TreeEntryLaws B}.

(** A tree of one block that the entry describes. *)
Definition data_tree_wf (t : DataTree B) (encoding : NdbCryptMethod) (block : E) : Prop :=
  match t with
  | DataTree_Intermediate b => internal_block_wf b /\
      bbe_size block = Z.of_nat (length (internal_data (E := B) b)) /\
      bid_is_internal (bref_block (bbe_block block)) = true
  | DataTree_Leaf b => data_block_wf b /\ encoding = db_encoding b /\
      bbe_size block = Z.of_nat (length (db_data b)) /\
      bid_is_internal (bref_block (bbe_block block)) = false
  end.

(** The same tree with the trailer that was written. *)
Definition data_tree_written (t : DataTree B) : DataTree B :=
  match t with
  | DataTree_Intermediate b => DataTree_Intermediate
      (mk_DataTreeBlock (dt_header b) (dt_entries b) (internal_trailer (E := B) b))
  | DataTree_Leaf b => DataTree_Leaf
      (mk_DataBlock (db_encoding b) (db_data b) (data_block_trailer b))
  end.

Lemma data_tree_round_trip t encoding (block : E) f :
  data_tree_wf t encoding block ->
  exists f', DataTree.write t block f = Ok f' /\
    DataTree.read (wf_data f') encoding block = Ok (data_tree_written t).
Proof.
  set (pos := bi_index (bref_index (bbe_block block))). intros Hwf.
  destruct t as [b|b]; cbn [data_tree_wf data_tree_written] in *.
  - destruct Hwf as (Hb & Hsize & Hint). destruct (internal_trailer_ok b Hb) as [Hok _].
    destruct (internal_block_write b f pos Hb) as (f' & gap & t & Hw & Hgap & Hdrop).
    exists f'. split; [exact Hw|]. unfold DataTree.read, read_at. fold pos. rewrite Hdrop.
    unfold DataTree.read_block.
    erewrite rd_bind_eq; [|by apply read_physical_ok; [..|apply rt_size]].
    rewrite Hint. destruct Hb as (Hh & Hb).
    erewrite rd_bind_eq; [|eapply with_cursor_eq; unfold internal_data; rewrite <- !app_assoc;
      by apply rt_read].
    erewrite rd_bind_eq; [|eapply with_cursor_eq; rewrite Hsize;
      rewrite <- (app_nil_r (ser_write (internal_trailer b)));
      exact (internal_block_read b gap [] (conj Hh Hb) Hgap)]. done.
  - destruct Hwf as (Hb & -> & Hsize & Hint).
    destruct (data_block_write b f pos Hb) as (f' & gap & t & Hw & Hgap & Hdrop).
    exists f'. split; [exact Hw|]. unfold DataTree.read, read_at. fold pos. rewrite Hdrop.
    assert (Hok : trailer_size_ok (TRAILER_SIZE (B := B)) (Z.of_nat (length (db_data b))) = true).
    { destruct Hb as (_ & ? & _). unfold trailer_size_ok. apply andb_true_iff. lia. }
    unfold DataTree.read_block.
    erewrite rd_bind_eq; [|apply read_physical_ok; rewrite ?length_encode; [done..|apply rt_size]].
    rewrite Hint.
    erewrite rd_bind_eq; [|eapply with_cursor_eq; rewrite Hsize;
      rewrite <- (app_nil_r (ser_write (data_block_trailer b)));
      exact (data_block_read b gap [] Hb Hgap)]. done.
Qed.
End data.

Section sub_node.
Context `{!IntermediateTreeHeader (SubNodeTreeBlockHeader B), !TreeHeaderLaws (SubNodeTreeBlockHeader B)}.
Context `{!IntermediateTreeEntry (IntermediateSubNodeTreeEntry B)}.
Context `{!IntermediateTreeEntry (LeafSubNodeTreeEntry B)}.
Context `{!TreeEntryLaws (IntermediateSubNodeTreeEntry B), !TreeEntryLaws (LeafSubNodeTreeEntry B)}.

Definition sub_node_tree_wf (t : SubNodeTree B) (block : E) : Prop :=
  match t with
  | SubNodeTree_Intermediate b => internal_block_wf b /\
      bbe_size block = Z.of_nat (length (internal_data b)) /\ 0 < ith_level (sn_header b)
  | SubNodeTree_Leaf b => internal_block_wf b /\
      bbe_size block = Z.of_nat (length (internal_data b)) /\ ith_level (sn_header b) <= 0
  end.

Definition sub_node_tree_written (t : SubNodeTree B) : SubNodeTree B :=
  match t with
  | SubNodeTree_Intermediate b => SubNodeTree_Intermediate
      (mk_SubNodeTreeBlock (sn_header b) (sn_entries b) (internal_trailer b))
  | SubNodeTree_Leaf b => SubNodeTree_Leaf
      (mk_SubNodeTreeBlock (sn_header b) (sn_entries b) (internal_trailer b))
  end.

Lemma sub_node_tree_round_trip t (block : E) f :
  sub_node_tree_wf t block ->
  exists f', SubNodeTree.write t block f = Ok f' /\
    SubNodeTree.read (wf_data f') block = Ok (sub_node_tree_written t).
Proof.
  set (pos := bi_index (bref_index (bbe_block block))). intros Hwf.
  destruct t as [b|b]; cbn [sub_node_tree_wf sub_node_tree_written] in *;
    destruct Hwf as (Hb & Hsize & Hlv); destruct (internal_trailer_ok b Hb) as [Hok _];
    destruct (internal_block_write b f pos Hb) as (f' & gap & t & Hw & Hgap & Hdrop);
    exists f'; (split; [exact Hw|]); unfold SubNodeTree.read, read_at; fold pos; rewrite Hdrop;
    unfold SubNodeTree.read_block;
    (erewrite rd_bind_eq; [|by apply read_physical_ok; [..|apply rt_size]]);
    destruct Hb as (Hh & Hb);
    (erewrite rd_bind_eq; [|eapply with_cursor_eq; unfold internal_data; rewrite <- !app_assoc;
      by apply rt_read]);
    (destruct (Z.ltb_spec 0 (ith_level (itb_header b))) as [Hl|Hl]; cbn in Hl; [|try lia]; try lia);
    (erewrite rd_bind_eq; [|eapply with_cursor_eq; rewrite Hsize;
      rewrite <- (app_nil_r (ser_write (internal_trailer b)));
      exact (internal_block_read b gap [] (conj Hh Hb) Hgap)]); done.
Qed.
End sub_node.
End trees.

(** ** Concrete trees *)

Definition sample_data_block (n : nat) : DataBlock UnicodeBlockId :=
  mk_DataBlock Permute (replicate n 0x5A) (mk_BlockTrailer 0 0x1234 0 (mk_UnicodeBlockId 8)).

Definition sample_entry (id offset size : Z) : UnicodeBlockBTreeEntry.t :=
  UnicodeBlockBTreeEntry.new (mk_BlockRef (mk_UnicodeBlockId id) (mk_UnicodeByteIndex offset)) size.

Definition sample_sub_node_block :
    SubNodeTreeBlock (SubNodeTreeBlockHeader UnicodeBlockId) (LeafSubNodeTreeEntry UnicodeBlockId)
      UnicodeBlockId :=
  mk_SubNodeTreeBlock (mk_SubNodeTreeBlockHeader 0 1)
    [LeafSubNodeTreeEntry.new (mk_NodeId 0x671) (mk_UnicodeBlockId 4) None]
    (mk_BlockTrailer 0 0 0 (mk_UnicodeBlockId 6)).

(** ** Properties *)

(** [block_size] rounds up to the next multiple of 64 for the sizes
    from 1 to 8192, never past 8192, and rejects every other size with the
    size in the error. *)
Theorem block_size_spec (size : Z) (Hsize : uint 16 size) :
  match block_size size with
  | Ok n => 0 < size <= 8192 /\ n mod 64 = 0 /\ size <= n < size + 64 /\ n <= 8192
  | Err e => (size = 0 \/ 8192 < size) /\ e = NdbData (InvalidBlockSize size)
  | Panic => False
  end.
Proof.
  destruct (Z.eq_dec size 0) as [->|Hne]; [by split; [left|]|].
  destruct (Z.le_gt_cases size 8192) as [Hle|Hgt].
  - destruct (block_size_ok size) as (n & -> & ? & ? & ?); [destruct Hsize; unfold MAX_BLOCK_SIZE; lia|].
    destruct Hsize. unfold MAX_BLOCK_SIZE in *. lia.
  - unfold block_size, MAX_BLOCK_SIZE. destruct (Z.eqb_spec size 0); [lia|].
    destruct (Z.ltb_spec 8192 size); [|lia]. cbn [orb]. split; [lia|done].
Qed.

Lemma block_size_spec_witness :
  0 < 8177 <= 8192 /\ 8192 mod 64 = 0 /\ 8177 <= 8192 < 8177 + 64 /\ 8192 <= 8192.
Proof. apply (block_size_spec 8177). done. Defined.

(** Writing a data block succeeds exactly when the low 16 bits of its
    length are an admissible size for its format; otherwise the error names
    those 16 bits.  A block of more than 65535 bytes is thus either refused
    or written with a trailer that declares fewer bytes than it has. *)
Theorem DataBlock_write_spec {B : Type} `{!BlockId B, !BlockTrailerReadWrite B, !BlockTrailerLaws B}
    (b : DataBlock B) (f : wfile) :
  let size := Z.of_nat (length (db_data b)) mod 65536 in
  if trailer_size_ok (TRAILER_SIZE (B := B)) size
  then exists f' trailer, DataBlock.write b f = Ok f' /\ bt_size trailer = size /\
         bt_block_id trailer = bt_block_id (db_trailer b) /\
         exists g, f' = write_all (ser_write trailer) g
  else DataBlock.write b f = Err (NdbData (InvalidBlockSize size)).
Proof.
  intros size. destruct bt_size_ok as [Hsz HS]. unfold DataBlock.write. rewrite length_encode.
  change (wrap 16 (Z.of_nat (length (db_data b)))) with size. rewrite bt_new_spec.
  destruct (trailer_size_ok TRAILER_SIZE size) eqn:Hok; [|done]. cbn [ndb rmap_err rbind].
  destruct (trailer_gap_ok _ _ Hok HS) as (gap & Hg & _). rewrite Hg. cbn [rbind].
  do 2 eexists. split_and!; [done| | |by eexists]; done.
Qed.

Lemma DataBlock_write_spec_witness :
  exists f' trailer, DataBlock.write (sample_data_block (N.to_nat 65546)) (mk_wfile [] 0) = Ok f' /\
    bt_size trailer = 10 /\ bt_block_id trailer = mk_UnicodeBlockId 8 /\
    exists g, f' = write_all (ser_write trailer) g.
Proof.
  pose proof (DataBlock_write_spec (sample_data_block (N.to_nat 65546)) (mk_wfile [] 0)) as H.
  cbv zeta in H. cbn [db_data sample_data_block] in H.
  rewrite length_replicate, N_nat_Z in H. exact H.
Defined.

(** A data tree of one block, be it a data block in any of the three
    encodings or an internal block of block ids, in either format, that is
    written where an entry of the block B-tree says is read back from there
    with the same data. *)
Theorem DataTree_round_trip (f : wfile) :
  (forall (t : DataTree UnicodeBlockId) encoding (block : UnicodeBlockBTreeEntry.t),
    data_tree_wf t encoding block -> exists f', DataTree.write t block f = Ok f' /\
      DataTree.read (wf_data f') encoding block = Ok (data_tree_written t)) /\
  (forall (t : DataTree AnsiBlockId) encoding (block : AnsiBlockBTreeEntry.t),
    data_tree_wf t encoding block -> exists f', DataTree.write t block f = Ok f' /\
      DataTree.read (wf_data f') encoding block = Ok (data_tree_written t)).
Proof. split; intros t enc block Hwf; by apply data_tree_round_trip. Qed.

Lemma DataTree_round_trip_witness :
  exists f', DataTree.write (DataTree_Leaf (sample_data_block 100)) (sample_entry 8 64 100)
      (mk_wfile [1; 2; 3] 0) = Ok f' /\
    DataTree.read (wf_data f') Permute (sample_entry 8 64 100) =
      Ok (data_tree_written (DataTree_Leaf (sample_data_block 100))).
Proof.
  apply (proj1 (DataTree_round_trip (mk_wfile [1; 2; 3] 0))).
  split; [|done]. split_and!; try done. repeat constructor; done.
Defined.

(** A block of a sub-node tree, leaf or intermediate, in either format,
    that is written where an entry of the block B-tree says is read back
    from there with the same entries. *)
Theorem SubNodeTree_round_trip (f : wfile) :
  (forall (t : SubNodeTree UnicodeBlockId) (block : UnicodeBlockBTreeEntry.t),
    sub_node_tree_wf t block -> exists f', SubNodeTree.write t block f = Ok f' /\
      SubNodeTree.read (wf_data f') block = Ok (sub_node_tree_written t)) /\
  (forall (t : SubNodeTree AnsiBlockId) (block : AnsiBlockBTreeEntry.t),
    sub_node_tree_wf t block -> exists f', SubNodeTree.write t block f = Ok f' /\
      SubNodeTree.read (wf_data f') block = Ok (sub_node_tree_written t)).
Proof. split; intros t block Hwf; by apply sub_node_tree_round_trip. Qed.

Lemma SubNodeTree_round_trip_witness :
  exists f', SubNodeTree.write (SubNodeTree_Leaf sample_sub_node_block) (sample_entry 6 0 32)
      (mk_wfile [] 0) = Ok f' /\
    SubNodeTree.read (wf_data f') (sample_entry 6 0 32) =
      Ok (sub_node_tree_written (SubNodeTree_Leaf sample_sub_node_block)).
Proof.
  apply (proj1 (SubNodeTree_round_trip (mk_wfile [] 0))).
  split; [|done]. split_and!; try done. repeat constructor; done.
Defined.
