(* ===== verification/Lookup.v ===== *)
(** * Lookups in the block B-tree

    The interface [BlockFind] through which the traversals of data trees and
    of sub-node trees look blocks up, with the monad of their computations
    (a state, errors, lookups that may not end), the two logics used on
    them ([total]: they end; [computes]: from which states, with which
    results) and the implementation of the interface by
    [RootBTreePage.find_entry]. *)
From S2P Require Import Prelude Errors Io Ids Page BTree Block.

(** ** The interface to the block B-tree *)

(** [block_btree.find_entry(f, key, page_cache)]: the state [S] is the page
    cache; [None] is a lookup that does not end. *)
Class BlockFind (E S : Type) := bl_find : Z -> S -> option (io_result E * S).

(** Computations that thread a state, can fail and may not end. *)
Definition M (S A : Type) : Type := S -> option (io_result A * S).

Definition m_ret {S A} (a : A) : M S A := fun s => Some (Ok a, s).
Definition m_lift {S A} (m : io_result A) : M S A := fun s => Some (m, s).
Definition m_bind {S A B} (m : M S A) (k : A -> M S B) : M S B := fun s =>
  match m s with
  | Some (Ok a, s) => k a s
  | Some (Err e, s) => Some (Err e, s)
  | Some (Panic, s) => Some (Panic, s)
  | None => None
  end.

Notation "'let!' x := m 'in' k" := (m_bind m (fun x => k))
  (at level 10, x binder, m at level 100, k at level 200) : pst_scope.

(** [for a in l { acc = step(acc, a)?; }] *)
Fixpoint m_fold {S A B} (step : B -> A -> M S B) (l : list A) (acc : B) : M S B :=
  match l with
  | [] => m_ret acc
  | a :: l => let! acc := step acc a in m_fold step l acc
  end.

(** ** Computations that end *)

Definition total {S A} (m : M S A) : Prop := forall s, m s <> None.

Lemma total_ret {S A} (a : A) : total (S := S) (m_ret a).
Proof. done. Qed.

Lemma total_lift {S A} (m : io_result A) : total (S := S) (m_lift m).
Proof. done. Qed.

Lemma total_bind {S A B} (m : M S A) (k : A -> M S B) :
  total m -> (forall a, total (k a)) -> total (m_bind m k).
Proof.
  intros Hm Hk s. unfold m_bind. specialize (Hm s).
  destruct (m s) as [[[a|e|] s']|]; [apply Hk|done..].
Qed.

Lemma total_fold {S A B} (step : B -> A -> M S B) l :
  (forall b a, total (step b a)) -> forall b, total (m_fold step l b).
Proof.
  intros Hs. induction l as [|a l IH]; intros b; [apply total_ret|].
  apply total_bind; [apply Hs|done].
Qed.

Lemma m_bind_ok {S A B} (m : M S A) (k : A -> M S B) s b t :
  m_bind m k s = Some (Ok b, t) <-> exists a u, m s = Some (Ok a, u) /\ k a u = Some (Ok b, t).
Proof.
  unfold m_bind. split.
  - destruct (m s) as [[[a|e|] u]|]; [eauto|done..].
  - intros (a & u & -> & H). done.
Qed.

Lemma m_bind_eq {S A B} (m : M S A) (k : A -> M S B) s a u :
  m s = Some (Ok a, u) -> m_bind m k s = k a u.
Proof. unfold m_bind. by intros ->. Qed.

(** [m] ends in a result with a state that satisfies [Q]. *)
Lemma m_bind_run {S A B} (m : M S A) (k : A -> M S B) (Q : S -> Prop) s a :
  (exists u, m s = Some (Ok a, u) /\ Q u) ->
  exists u, Q u /\ m_bind m k s = k a u.
Proof. intros (u & Hm & HQ). exists u. split; [done|]. by apply m_bind_eq. Qed.

Create HintDb total.
#[export] Hint Resolve total_ret total_lift total_bind total_fold : total.

(** ** Laws *)

Class BlockIdLaws (B : Type) `{!BlockId B} := {
  bid_inj : forall a b : B, bid_into_u64 a = bid_into_u64 b -> a = b
}.

#[export] Instance UnicodeBlockId_laws : BlockIdLaws UnicodeBlockId.
Proof. split. by intros [] [] [= ->]. Qed.
#[export] Instance AnsiBlockId_laws : BlockIdLaws AnsiBlockId.
Proof. split. by intros [] [] [= ->]. Qed.

(** What a lookup promises: it ends with the answer of the pure function
    [bl_spec], from any state of the invariant [bl_inv], which it keeps, and
    it finds the entry of the key. *)
Class BlockFindLaws (E B I S : Type)
    `{!BlockId B, !BlockBTreeEntry E B I, !BlockFind E S} := {
  bl_inv : S -> Prop;
  bl_spec : Z -> io_result E;
  bl_ok : forall k s, bl_inv s -> exists s', bl_find k s = Some (bl_spec k, s') /\ bl_inv s';
  bl_key : forall k e, bl_spec k = Ok e -> bid_search_key (bref_block (bbe_block e)) = k
}.

(** ** What a computation computes *)

Section computes.
Set Default Proof Using "Type".
Context {S : Type} (inv : S -> Prop).

(** From every state of the invariant, [m] ends in a state of the invariant,
    and succeeds exactly with the results of [P]. *)
Definition computes {A} (m : M S A) (P : A -> Prop) : Prop := forall s, inv s ->
  exists r s', m s = Some (r, s') /\ inv s' /\ forall a, r = Ok a <-> P a.

Lemma computes_ret {A} (a : A) : computes (m_ret a) (fun b => b = a).
Proof. intros s Hs. exists (Ok a), s. split_and!; [done..|]. intros b. split; congruence. Qed.

Lemma computes_lift {A} (m : io_result A) : computes (m_lift m) (fun a => m = Ok a).
Proof. intros s Hs. by exists m, s. Qed.

Lemma computes_bind {A B} (m : M S A) (k : A -> M S B) P Q :
  computes m P -> (forall a, P a -> computes (k a) (Q a)) ->
  computes (m_bind m k) (fun b => exists a, P a /\ Q a b).
Proof.
  intros Hm Hk s Hs. destruct (Hm s Hs) as (r & s' & Hr & Hs' & HP). unfold m_bind. rewrite Hr.
  destruct r as [a|e|].
  - assert (Pa : P a) by by apply HP. destruct (Hk a Pa s' Hs') as (r & s2 & Hr2 & Hs2 & HQ).
    exists r, s2. split_and!; [done..|]. intros b. rewrite HQ. split; [eauto|].
    intros (a' & Ha' & Hq). apply HP in Ha'. by simplify_eq.
  - do 2 eexists. split_and!; [done..|]. intros b. split; [done|]. intros (a & Ha & _).
    by apply HP in Ha.
  - do 2 eexists. split_and!; [done..|]. intros b. split; [done|]. intros (a & Ha & _).
    by apply HP in Ha.
Qed.

Lemma computes_iff {A} (m : M S A) P Q :
  (forall a, P a <-> Q a) -> computes m P -> computes m Q.
Proof.
  intros HPQ Hm s Hs. destruct (Hm s Hs) as (r & s' & Hr & Hs' & HP).
  exists r, s'. split_and!; [done..|]. intros a. by rewrite HP, HPQ.
Qed.

(** A check, whose result is not used. *)
Lemma computes_check {B} (m : M S unit) (k : M S B) (C : Prop) Q :
  computes m (fun _ => C) -> (C -> computes k Q) ->
  computes (m_bind m (fun _ => k)) (fun b => C /\ Q b).
Proof.
  intros Hm Hk s Hs. destruct (Hm s Hs) as (r & s' & Hr & Hs' & HP). unfold m_bind. rewrite Hr.
  assert (HC : C -> r = Ok tt) by apply HP. destruct r as [[]|e|].
  - assert (C0 : C) by by apply (HP tt). destruct (Hk C0 s' Hs') as (r & s2 & Hr2 & Hs2 & HQ).
    exists r, s2. split_and!; [done..|]. intros b. rewrite HQ. tauto.
  - do 2 eexists. split_and!; [done..|]. intros b. split; [done|]. intros [H _]. by apply HC in H.
  - do 2 eexists. split_and!; [done..|]. intros b. split; [done|]. intros [H _]. by apply HC in H.
Qed.

Lemma computes_fail {A} (e : io_error) : computes (m_lift (A := A) (Err e)) (fun _ => False).
Proof. intros s Hs. exists (Err e), s. split_and!; done. Qed.
End computes.

(** ** The implementation *)

Section btree_find.
Set Default Proof Using "Type".
Context {E B I PB : Type} `{!BlockId B, !ByteIndex I, !BlockBTreeEntry E B I}.
Context `{!BlockId PB, !BTreeEntry E, !BTreeEntry (BTreePageEntry PB I), !BTreeFormat PB}.
Context (f : list Z) (root : RootBTreePage.t (P := BlockBTree) (LE := E) (B := PB) (I := I)).
Context (fuel : nat).

Abbreviation page_cache := (RootBTreePage.cache (P := BlockBTree) (LE := E) (B := PB) (I := I)).

(** [block_btree.find_entry] on the root page of the block B-tree. *)
Definition btree_find : BlockFind E page_cache := RootBTreePage.find_entry fuel f root.

Context (known : BlockRef PB I -> Prop) (d : nat) (lo hi : Z) (es : list E).
Context (Hids : ids_unique (P := BlockBTree) (LE := E) f known).
Context (Htree : btree f known d root lo hi es) (Hfuel : (d < fuel)%nat).
Context (Hkey : forall e : E, be_key e = bid_search_key (bref_block (bbe_block e))).

(** On a well-formed tree it keeps the promises of the interface. *)
Definition btree_find_laws : BlockFindLaws E B I page_cache (BlockFind0 := btree_find).
Proof using Hids Htree Hfuel Hkey.
  refine {| bl_inv := cache_ok f known; bl_spec := btree_lookup es |}.
  - intros k c Hc. by apply (find_entry_tree f known d root lo hi).
  - intros k e H. unfold btree_lookup in H. destruct (List.find _ es) as [e'|] eqn:Hf; [|done].
    injection H as ->. apply find_some in Hf as [_ Hk]. zb. by rewrite <- Hkey.
Defined.
End btree_find.

Lemma unicode_block_key (e : UnicodeBlockBTreeEntry.t) :
  be_key e = bid_search_key (bref_block (bbe_block e)).
Proof. done. Qed.

Lemma ansi_block_key (e : AnsiBlockBTreeEntry.t) :
  be_key e = bid_search_key (bref_block (bbe_block e)).
Proof. done. Qed.
