(* ===== verification/DataTree.v ===== *)
(** * Data trees

    The traversals of [DataTree] in [ndb/block.rs]: the budget that bounds
    them, the entries below an internal block, the blocks, the n-th block
    and the reader.  They look blocks up in the block B-tree through the
    interface [BlockFind] of [Lookup.v]. *)
From S2P Require Import Prelude Errors Io Ids BTree Block Lookup.

Definition MAX_DATA_TREE_DEPTH : Z := 32.
Definition MAX_DATA_TREE_ENTRIES : Z := 16384.
Definition MAX_STREAMING_DATA_TREE_ENTRIES : Z := 300000.
Definition MAX_MATERIALIZED_DATA_TREE_BYTES : Z := 64 * 1024 * 1024.

(** ** Budgets *)

Record DataTreeTraversalBudget := mk_DataTreeTraversalBudget {
  visited_blocks : gset Z;
  visited_entries : Z;
  max_entries : Z
}.

Module DataTreeTraversalBudget.
Definition new (max_entries : Z) : DataTreeTraversalBudget :=
  mk_DataTreeTraversalBudget ∅ 0 max_entries.

Definition observe_tree (depth entries : Z) (b : DataTreeTraversalBudget) :
    io_result DataTreeTraversalBudget :=
  if MAX_DATA_TREE_DEPTH <? depth
  then Err (NdbData (DataTreeDepthExceeded MAX_DATA_TREE_DEPTH)) else
  let? visited_entries := ndb (ok_or (checked_add 64 (visited_entries b) entries)
                                 (DataTreeEntryLimitExceeded (max_entries b))) in
  if max_entries b <? visited_entries
  then Err (NdbData (DataTreeEntryLimitExceeded (max_entries b))) else
  Ok (mk_DataTreeTraversalBudget (visited_blocks b) visited_entries (max_entries b)).

Definition descend_to (block_id : Z) (b : DataTreeTraversalBudget) :
    io_result DataTreeTraversalBudget :=
  if decide (block_id ∈ visited_blocks b) then Err (NdbData (DataTreeCycle block_id)) else
  Ok (mk_DataTreeTraversalBudget ({[ block_id ]} ∪ visited_blocks b) (visited_entries b)
        (max_entries b)).
End DataTreeTraversalBudget.

Definition observe_materialized_data_tree_bytes (declared materialized next : Z) : io_result Z :=
  let? actual := ndb (ok_or (checked_add 64 materialized next)
    (DataTreeMaterializationLimitExceeded MAX_MATERIALIZED_DATA_TREE_BYTES)) in
  if MAX_MATERIALIZED_DATA_TREE_BYTES <? actual
  then Err (NdbData (DataTreeMaterializationLimitExceeded MAX_MATERIALIZED_DATA_TREE_BYTES)) else
  if declared <? actual then Err (NdbData (DataTreeSizeMismatch declared actual)) else
  Ok actual.

(** ** Traversals *)

Section traversal.
Context {E B I S : Type} `{!BlockId B, !ByteIndex I, !BlockBTreeEntry E B I}.
Context `{!BlockTrailerReadWrite B, !IntermediateTreeEntry B, !BlockFind E S}.
(** The file and the encoding of its blocks. *)
Context (f : list Z) (encoding : NdbCryptMethod).

(** [DataBlockCache], a map from block ids; with the page cache it is the
    state of a traversal. *)
Definition DataBlockCache : Type := gmap Z (DataTree B).
Definition traversal_state : Type := S * DataBlockCache.

Definition find_entry (key : Z) : M traversal_state E := fun '(pages, blocks) =>
  match bl_find key pages with
  | Some (r, pages) => Some (r, (pages, blocks))
  | None => None
  end.

(** [block_cache.remove] and [block_cache.insert]. *)
Definition cache_remove (id : B) : M traversal_state (option (DataTree B)) := fun '(pages, blocks) =>
  Some (Ok (blocks !! bid_into_u64 id), (pages, delete (bid_into_u64 id) blocks)).
Definition cache_insert (id : B) (t : DataTree B) : M traversal_state unit := fun '(pages, blocks) =>
  Some (Ok tt, (pages, <[bid_into_u64 id := t]> blocks)).

(** The sum of the sizes of the leaves below a child. *)
Definition child_total (child : DataTreeBlock B) : M traversal_state Z :=
  m_fold (fun child_total entry =>
    let! _ := m_lift (ndb (validate_data_tree_child_kind (dth_level (dt_header child))
                             (bid_is_internal entry))) in
    let! leaf := find_entry (bid_search_key entry) in
    m_lift (ndb (ok_or (checked_add 64 child_total (bbe_size leaf))
      (DataTreeMaterializationLimitExceeded MAX_MATERIALIZED_DATA_TREE_BYTES))))
    (dt_entries child) 0.

(** The tree of a block: taken out of the cache, or looked up and read. *)
Definition fetch (block_id : B) : M traversal_state (DataTree B) :=
  let! cached := cache_remove block_id in
  match cached with
  | Some entry => m_ret entry
  | None =>
      let! data_block := find_entry (bid_search_key block_id) in
      m_lift (DataTree.read f encoding data_block)
  end.

(** One child block of a level 2 block: taken from the cache or read,
    checked, counted, and put back in the cache. *)
Definition visit_child (block_id : B) (parent_level depth : Z) (budget : DataTreeTraversalBudget) :
    M traversal_state (DataTreeTraversalBudget * list (B * Z * Z)) :=
  let! budget := m_lift (DataTreeTraversalBudget.descend_to (bid_into_u64 block_id) budget) in
  let! data_tree := fetch block_id in
  match data_tree with
  | DataTree_Leaf _ => m_lift (Err (NdbData (InvalidInternalBlockLevel 0)))
  | DataTree_Intermediate child =>
      let! _ := m_lift (ndb (validate_data_tree_child_level parent_level
                               (dth_level (dt_header child)))) in
      let! total := child_total child in
      let! _ := m_lift (ndb (validate_data_tree_total (dth_total_size (dt_header child)) total)) in
      let! budget := m_lift (DataTreeTraversalBudget.observe_tree depth
                               (Z.of_nat (length (dt_entries child))) budget) in
      let! _ := cache_insert block_id data_tree in
      m_ret (budget, map (fun entry => (entry, 1, depth + 1)) (dt_entries child))
  end.

(** [while let Some(..) = pending.pop_front()]: [fuel] bounds the rounds. *)
Fixpoint sub_entries_loop (fuel : nat) (budget : DataTreeTraversalBudget)
    (pending : list (B * Z * Z)) (blocks : list E) : M traversal_state (list E) :=
  match fuel with
  | O => fun _ => None
  | Datatypes.S fuel =>
    match pending with
    | [] => m_ret blocks
    | (block_id, parent_level, depth) :: pending =>
        let! _ := m_lift (ndb (validate_data_tree_child_kind parent_level
                                 (bid_is_internal block_id))) in
        if parent_level =? 1 then
          let! entry := find_entry (bid_search_key block_id) in
          sub_entries_loop fuel budget pending (blocks ++ [entry])
        else
          let! r := visit_child block_id parent_level depth budget in
          sub_entries_loop fuel (fst r) (snd r ++ pending) blocks
    end
  end.

Definition sub_entries (self : DataTree B) (max_entries : Z) : M traversal_state (list E) :=
  match self with
  | DataTree_Intermediate block =>
      let budget := DataTreeTraversalBudget.new max_entries in
      let! budget := m_lift (DataTreeTraversalBudget.observe_tree 0
                               (Z.of_nat (length (dt_entries block))) budget) in
      let root_level := dth_level (dt_header block) in
      let pending := map (fun entry => (entry, root_level, 1)) (dt_entries block) in
      sub_entries_loop (Datatypes.S (Z.to_nat max_entries)) budget pending []
  | DataTree_Leaf _ => m_ret []
  end.

(** The blocks of the tree, from the cache or the file. *)
Definition load_block (declared : Z) (acc : Z * list (DataBlock B)) (entry : E) :
    M traversal_state (Z * list (DataBlock B)) :=
  let id := bref_block (bbe_block entry) in
  let! data_tree :=
    (let! cached := cache_remove id in
     match cached with
     | Some entry => m_ret entry
     | None => m_lift (DataTree.read f encoding entry)
     end) in
  match data_tree with
  | DataTree_Intermediate _ => m_lift (Err (NdbData (InvalidInternalBlockLevel 0)))
  | DataTree_Leaf block =>
      let! materialized := m_lift (observe_materialized_data_tree_bytes declared (fst acc)
                                     (Z.of_nat (length (db_data block)))) in
      let! _ := cache_insert id data_tree in
      m_ret (materialized, snd acc ++ [block])
  end.

Definition blocks (self : DataTree B) : M traversal_state (list (DataBlock B)) :=
  match self with
  | DataTree_Intermediate _ =>
      let declared := DataTree.declared_size self in
      if MAX_MATERIALIZED_DATA_TREE_BYTES <? declared
      then m_lift (Err (NdbData
             (DataTreeMaterializationLimitExceeded MAX_MATERIALIZED_DATA_TREE_BYTES)))
      else
        let! entries := sub_entries self MAX_DATA_TREE_ENTRIES in
        let! r := m_fold (load_block declared) entries (0, []) in
        if negb (fst r =? declared)
        then m_lift (Err (NdbData (DataTreeSizeMismatch declared (fst r))))
        else m_ret (snd r)
  | DataTree_Leaf block => m_ret [block]
  end.

(** [block_cache.entry(id)]: the cached tree, or the one read and inserted. *)
Definition cached_or_read (entry : E) : M traversal_state (DataTree B) := fun '(pages, blocks) =>
  let id := bid_into_u64 (bref_block (bbe_block entry)) in
  match blocks !! id with
  | Some t => Some (Ok t, (pages, blocks))
  | None =>
      match DataTree.read f encoding entry with
      | Ok t => Some (Ok t, (pages, <[id := t]> blocks))
      | Err e => Some (Err e, (pages, blocks))
      | Panic => Some (Panic, (pages, blocks))
      end
  end.

Definition nth (self : DataTree B) (n : nat) : M traversal_state (option (list Z)) :=
  match self with
  | DataTree_Intermediate _ =>
      let! entries := sub_entries self MAX_DATA_TREE_ENTRIES in
      match entries !! n with
      | None => m_ret None
      | Some data_block =>
          let! data_tree := cached_or_read data_block in
          match data_tree with
          | DataTree_Leaf block => m_ret (Some (db_data block))
          | DataTree_Intermediate _ => m_lift (Err (NdbData (InvalidInternalBlockLevel 0)))
          end
      end
  | DataTree_Leaf block => m_ret (if (n =? 0)%nat then Some (db_data block) else None)
  end.

(** ** The reader *)

(** [DataTreeReader]: the unread bytes of the current block, the blocks that
    follow, the declared size and the bytes delivered. *)
Record DataTreeReader := mk_DataTreeReader {
  rdr_current : list Z;
  rdr_next : list E;
  rdr_expected_size : Z;
  rdr_total_read : Z
}.

Definition reader_new (data_tree : DataTree B) (max_entries : Z) :
    M traversal_state DataTreeReader :=
  match data_tree with
  | DataTree_Intermediate _ =>
      let! next := sub_entries data_tree max_entries in
      m_ret (mk_DataTreeReader [] next (DataTree.declared_size data_tree) 0)
  | DataTree_Leaf block =>
      m_ret (mk_DataTreeReader (db_data block) [] (DataTree.declared_size data_tree) 0)
  end.

(** [DataTree::reader] and [DataTree::streaming_reader]. *)
Definition open_reader (self : DataTree B) : M traversal_state DataTreeReader :=
  if MAX_MATERIALIZED_DATA_TREE_BYTES <? DataTree.declared_size self
  then m_lift (Err (NdbData
         (DataTreeMaterializationLimitExceeded MAX_MATERIALIZED_DATA_TREE_BYTES)))
  else reader_new self MAX_DATA_TREE_ENTRIES.

Definition streaming_reader (self : DataTree B) : M traversal_state DataTreeReader :=
  reader_new self MAX_STREAMING_DATA_TREE_ENTRIES.

(** [while total_read < requested]: [got] is what the buffer holds. *)
Fixpoint fill (requested : nat) (got current : list Z) (next : list E) :
    io_result (list Z) * (list Z * list E) :=
  if (length got <? requested)%nat then
    match next with
    | [] => (Ok got, (current, []))
    | entry :: next =>
        match DataTree.read f encoding entry with
        | Ok (DataTree_Leaf block) =>
            let n := (requested - length got)%nat in
            fill requested (got ++ take n (db_data block)) (drop n (db_data block)) next
        | Ok (DataTree_Intermediate _) =>
            (Err (NdbData (InvalidInternalBlockLevel 0)), (current, next))
        | Err e => (Err e, (current, next))
        | Panic => (Panic, (current, next))
        end
    end
  else (Ok got, (current, next)).

(** [Read::read] into a buffer of [len] bytes. *)
Definition reader_read (len : nat) (self : DataTreeReader) : io_result (list Z) * DataTreeReader :=
  if (len =? 0)%nat then (Ok [], self) else
  let remaining := saturating_sub (rdr_expected_size self) (rdr_total_read self) in
  if remaining =? 0 then
    match rdr_current self, rdr_next self with
    | [], [] => (Ok [], self)
    | _, _ => (Err InvalidData_msg, self)
    end
  else
    let requested := Nat.min len (Z.to_nat remaining) in
    let got := take requested (rdr_current self) in
    let '(r, (current, next)) :=
      fill requested got (drop requested (rdr_current self)) (rdr_next self) in
    match r with
    | Ok got =>
        match checked_add 64 (rdr_total_read self) (Z.of_nat (length got)) with
        | None => (Err InvalidData_msg,
                   mk_DataTreeReader current next (rdr_expected_size self) (rdr_total_read self))
        | Some total_read =>
            let self := mk_DataTreeReader current next (rdr_expected_size self) total_read in
            if (length got =? 0)%nat && negb (total_read =? rdr_expected_size self)
            then (Err UnexpectedEof, self)
            else (Ok got, self)
        end
    | Err e => (Err e, mk_DataTreeReader current next (rdr_expected_size self) (rdr_total_read self))
    | Panic => (Panic, mk_DataTreeReader current next (rdr_expected_size self) (rdr_total_read self))
    end.
End traversal.

Section termination.
Set Default Proof Using "Type".
Context {E B I S : Type} `{!BlockId B, !ByteIndex I, !BlockBTreeEntry E B I}.
Context `{!BlockTrailerReadWrite B, !IntermediateTreeEntry B, !BlockFind E S}.
Context (f : list Z) (encoding : NdbCryptMethod).
(** Every lookup ends. *)
Context (Hfind : forall k (s : S), bl_find (E := E) k s <> None).

Lemma total_find_entry k : total (find_entry (E := E) (B := B) (S := S) k).
Proof using Hfind.
  intros [pages blocks]. cbn. specialize (Hfind k pages).
  by destruct (bl_find k pages) as [[]|].
Qed.

Lemma total_cache_remove (id : B) : total (cache_remove (S := S) id).
Proof. by intros []. Qed.

Lemma total_cache_insert (id : B) t : total (cache_insert (S := S) id t).
Proof. by intros []. Qed.

Lemma total_child_total (child : DataTreeBlock B) : total (child_total (E := E) (S := S) child).
Proof using Hfind.
  apply total_fold. intros t e. apply total_bind; [apply total_lift|intros _].
  apply total_bind; [apply total_find_entry|intros; apply total_lift].
Qed.

Lemma total_visit_child id pl d b : total (visit_child (E := E) (B := B) (S := S) f encoding id pl d b).
Proof using Hfind.
  unfold visit_child. apply total_bind; [apply total_lift|intros b'].
  apply total_bind.
  - apply total_bind; [apply total_cache_remove|intros cached].
    destruct cached; [apply total_ret|].
    apply total_bind; [apply total_find_entry|intros; apply total_lift].
  - intros [child|]; [|apply total_lift].
    apply total_bind; [apply total_lift|intros _].
    apply total_bind; [apply total_child_total|intros t].
    apply total_bind; [apply total_lift|intros _].
    apply total_bind; [apply total_lift|intros b2].
    apply total_bind; [apply total_cache_insert|intros _]. apply total_ret.
Qed.

Lemma observe_tree_ok d n b b' :
  DataTreeTraversalBudget.observe_tree d n b = Ok b' ->
  visited_entries b' = visited_entries b + n /\ max_entries b' = max_entries b /\
  visited_entries b' <= max_entries b' /\ visited_blocks b' = visited_blocks b.
Proof.
  unfold DataTreeTraversalBudget.observe_tree, checked_add. intros H. res_step.
  destruct (visited_entries b + n <? 2 ^ 64); [|done]. cbn in H. res_step. inv_ok. zb. cbn. repeat split; assumption.
Qed.

Lemma descend_to_ok id b b' :
  DataTreeTraversalBudget.descend_to id b = Ok b' ->
  visited_entries b' = visited_entries b /\ max_entries b' = max_entries b.
Proof. unfold DataTreeTraversalBudget.descend_to. intros H. case_decide; [done|]. by inv_ok. Qed.

Lemma visit_child_budget id pl d b s b' kids s' :
  visit_child (E := E) (B := B) (S := S) f encoding id pl d b s = Some (Ok (b', kids), s') ->
  visited_entries b' = visited_entries b + Z.of_nat (length kids) /\
  max_entries b' = max_entries b /\ visited_entries b' <= max_entries b'.
Proof.
  unfold visit_child. intros H.
  apply m_bind_ok in H as (b1 & s1 & Hd & H). unfold m_lift in Hd. injection Hd as Hd _.
  apply m_bind_ok in H as (t & s3 & _ & H). destruct t as [child|]; [|done].
  apply m_bind_ok in H as (? & s4 & _ & H). apply m_bind_ok in H as (tot & s5 & _ & H).
  apply m_bind_ok in H as (? & s6 & _ & H). apply m_bind_ok in H as (b2 & s7 & Ho & H).
  unfold m_lift in Ho. injection Ho as Ho _.
  apply m_bind_ok in H as (? & s8 & _ & H). unfold m_ret in H. injection H as <- <- _.
  apply descend_to_ok in Hd as [? ?]. apply observe_tree_ok in Ho as (? & ? & ? & _).
  rewrite length_map. lia.
Qed.

(** The budget pays for every round. *)
Lemma sub_entries_loop_total fuel : forall budget pending blocks,
  visited_entries budget <= max_entries budget ->
  (Z.to_nat (max_entries budget - visited_entries budget) + length pending < fuel)%nat ->
  total (sub_entries_loop (E := E) (B := B) (S := S) f encoding fuel budget pending blocks).
Proof using Hfind.
  induction fuel as [|fuel IH]; intros budget pending blocks Hb Hf; [lia|].
  destruct pending as [|[[id pl] d] pending]; [apply total_ret|]. cbn [sub_entries_loop length] in *.
  apply total_bind; [apply total_lift|intros _]. destruct (pl =? 1).
  - apply total_bind; [apply total_find_entry|intros e]. apply IH; lia.
  - intros s. unfold m_bind. pose proof (total_visit_child id pl d budget s) as Hv.
    destruct (visit_child _ _ _ _ _ _ s) as [[[[b' kids]|e|] s']|] eqn:Hvc; [|done..].
    apply visit_child_budget in Hvc as (Hn & Hm & Hle). cbn [fst snd].
    apply IH; [done|]. rewrite length_app. lia.
Qed.

Lemma sub_entries_total (t : DataTree B) max :
  0 <= max -> total (sub_entries (E := E) (S := S) f encoding t max).
Proof using Hfind.
  intros Hmax. destruct t as [block|block]; [|apply total_ret]. unfold sub_entries. intros s.
  unfold m_bind, m_lift.
  destruct (DataTreeTraversalBudget.observe_tree _ _ _) as [b|e|] eqn:Ho; [|done..].
  apply observe_tree_ok in Ho as (Hn & Hm & Hle & _). cbn in Hn, Hm.
  apply sub_entries_loop_total; [done|]. rewrite length_map. lia.
Qed.
Lemma total_load_block declared acc (e : E) :
  total (load_block (S := S) f encoding declared acc e).
Proof.
  unfold load_block. apply total_bind.
  - apply total_bind; [apply total_cache_remove|]. intros []; [apply total_ret|apply total_lift].
  - intros [c|b]; [apply total_lift|]. apply total_bind; [apply total_lift|intros n].
    apply total_bind; [apply total_cache_insert|intros _]. apply total_ret.
Qed.

Lemma total_blocks (t : DataTree B) : total (blocks (E := E) (S := S) f encoding t).
Proof using Hfind.
  destruct t as [c|b]; [|apply total_ret]. unfold blocks. destruct (_ <? _); [apply total_lift|].
  apply total_bind; [by apply sub_entries_total|intros es].
  apply total_bind; [apply total_fold; intros; apply total_load_block|intros r].
  destruct (negb _); [apply total_lift|apply total_ret].
Qed.

Lemma total_nth (t : DataTree B) n : total (nth (E := E) (S := S) f encoding t n).
Proof using Hfind.
  destruct t as [c|b]; [|apply total_ret]. unfold nth.
  apply total_bind; [by apply sub_entries_total|intros es].
  destruct (es !! n) as [e|]; [|apply total_ret]. apply total_bind.
  - intros [pages blocks]. cbn. destruct (blocks !! _); [done|]. by destruct (DataTree.read _ _ _).
  - intros []; [apply total_lift|apply total_ret].
Qed.
End termination.

(** ** What the traversals compute *)

(** [l[0] + l[1] + ...] with [checked_add] on [usize]. *)
Fixpoint checked_sum (l : list Z) (acc : Z) : option Z :=
  match l with
  | [] => Some acc
  | a :: l => match checked_add 64 acc a with Some acc => checked_sum l acc | None => None end
  end.

Section traversals.
Set Default Proof Using "All".
Context {E B I S : Type} `{!BlockId B, !ByteIndex I, !BlockBTreeEntry E B I}.
Context `{!BlockTrailerReadWrite B, !IntermediateTreeEntry B, !BlockFind E S}.
Context `{!BlockIdLaws B, !BlockFindLaws E B I S}.
Context (f : list Z) (encoding : NdbCryptMethod).

(** The tree the block of an id holds. *)
Definition block_tree (id : B) (t : DataTree B) : Prop := exists e : E,
  bl_spec (bid_search_key id) = Ok e /\ DataTree.read f encoding e = Ok t.

(** The page cache is in its invariant, and a cached tree is the one in the
    file. *)
Definition coherent (s : traversal_state (B := B) (S := S)) : Prop :=
  bl_inv s.1 /\ forall (id : B) t, s.2 !! bid_into_u64 id = Some t -> block_tree id t.

(** A data block below a block of level 1, with its entry. *)
Definition leaf_lookup (id : B) (e : E) : Prop :=
  bid_is_internal id = false /\ bl_spec (bid_search_key id) = Ok e.

(** The data blocks below a block of level 1, whose sizes add up to the size
    it declares. *)
Definition child_entries (c : DataTreeBlock B) (es : list E) : Prop :=
  dth_level (dt_header c) = 1 /\ Forall2 leaf_lookup (dt_entries c) es /\
  checked_sum (map bbe_size es) 0 = Some (dth_total_size (dt_header c)).

(** A block of level 1 below a block of level 2. *)
Definition child_lookup (id : B) (es : list E) : Prop :=
  bid_is_internal id = true /\
  exists c, block_tree id (DataTree_Intermediate c) /\ child_entries c es.

(** The entries of the data blocks of a tree, in order: the specification of
    [sub_entries]. *)
Definition tree_entries (t : DataTree B) (max_entries : Z) (es : list E) : Prop :=
  match t with
  | DataTree_Leaf _ => es = []
  | DataTree_Intermediate b =>
      Z.of_nat (length (dt_entries b)) <= max_entries /\
      if dth_level (dt_header b) =? 1 then Forall2 leaf_lookup (dt_entries b) es
      else exists ess, es = concat ess /\ Forall2 child_lookup (dt_entries b) ess /\
        NoDup (dt_entries b) /\
        Z.of_nat (length (dt_entries b)) + Z.of_nat (length es) <= max_entries
  end.

Lemma computes_find_entry k :
  computes coherent (find_entry (E := E) (B := B) (S := S) k) (fun e => bl_spec k = Ok e).
Proof.
  intros [pages blocks] [Hi Hc]. destruct (bl_ok k pages Hi) as (p' & Hf & Hi').
  cbn. rewrite Hf. do 2 eexists. by split_and!.
Qed.

Lemma coherent_delete pages blocks k :
  coherent (pages, blocks) -> coherent (pages, delete k blocks).
Proof.
  intros [Hi Hc]. split; [done|]. intros id t Ht. apply Hc. cbn in *.
  by apply (lookup_delete_Some (M := gmap Z)) in Ht as [_ Ht].
Qed.

Lemma coherent_insert pages blocks (id : B) t e :
  bl_spec (bid_search_key id) = Ok e -> DataTree.read f encoding e = Ok t ->
  coherent (pages, blocks) -> coherent (pages, <[bid_into_u64 id := t]> blocks).
Proof.
  intros He Ht [Hi Hc]. split; [done|]. intros id' t' Hl. cbn in *.
  apply (lookup_insert_Some (M := gmap Z)) in Hl as [[Hid <-]|[_ Hl]]; [|by apply Hc].
  apply bid_inj in Hid as <-. by exists e.
Qed.

Lemma computes_insert (id : B) t e :
  bl_spec (bid_search_key id) = Ok e -> DataTree.read f encoding e = Ok t ->
  computes coherent (cache_insert id t) (fun _ => True).
Proof.
  intros He Ht [pages blocks] Hs. cbn. do 2 eexists. split_and!; [done|by eapply coherent_insert|].
  by intros [].
Qed.
Lemma computes_kind pl b :
  computes coherent (m_lift (ndb (validate_data_tree_child_kind pl b)))
    (fun _ => (pl = 1 /\ b = false) \/ (pl = 2 /\ b = true)).
Proof.
  eapply computes_iff; [|apply computes_lift]. intros []. rewrite ndb_ok.
  unfold validate_data_tree_child_kind. split.
  - destruct pl as [|[[]|[]|]|], b; naive_solver.
  - by intros [[-> ->]|[-> ->]].
Qed.

(** The tree of a block that is looked up or cached. *)
Lemma computes_fetch (id : B) :
  computes coherent (fetch (E := E) f encoding id) (block_tree id).
Proof.
  intros [pages blocks] Hs. unfold fetch, m_bind at 1. cbn [cache_remove].
  assert (Hd := coherent_delete _ _ (bid_into_u64 id) Hs).
  destruct (blocks !! bid_into_u64 id) as [t|] eqn:Hl.
  - do 2 eexists. split_and!; [done..|]. intros t'. destruct Hs as [_ Hc].
    destruct (Hc id t Hl) as (e & He & Ht). split; [intros [= <-]; eauto|].
    intros (e' & He' & Ht'). congruence.
  - by apply (computes_bind coherent _ _ _ (fun e t => DataTree.read f encoding e = Ok t)
      (computes_find_entry _)); [intros; apply computes_lift|].
Qed.

(** A loop of lookups of data blocks that adds up their sizes. *)
Lemma computes_child_total (child : DataTreeBlock B) :
  dth_level (dt_header child) = 1 ->
  computes coherent (child_total (E := E) child) (fun t => exists es : list E,
    Forall2 leaf_lookup (dt_entries child) es /\ checked_sum (map bbe_size es) 0 = Some t).
Proof.
  intros Hl. unfold child_total. rewrite Hl. generalize 0.
  induction (dt_entries child) as [|id ids IH]; intros acc; cbn [m_fold].
  - eapply computes_iff; [|apply computes_ret]. intros t. split; [intros ->; by exists []|].
    intros (es & He & Ht). apply Forall2_nil_inv_l in He as ->. by injection Ht.
  - eapply computes_iff; [|eapply computes_bind; [|intros a Ha; exact (IH a)]].
    2: { apply computes_check; [apply computes_kind|intros _].
         apply computes_bind; [apply computes_find_entry|intros e He; apply computes_lift]. }
    intros t. cbn beta. split.
    + intros (acc' & (Hk & e & He & Hacc) & es & Hes & Ht). exists (e :: es). split.
      * constructor; [split; [|done]|done]. by destruct Hk as [[_ ?]|[? _]].
      * cbn. apply ndb_ok in Hacc. destruct (checked_add _ _ _); [|done]. by injection Hacc as ->.
    + intros (es' & Hes & Ht). apply Forall2_cons_inv_l in Hes as (e & es & [Hk He] & Hes & ->).
      cbn in Ht. destruct (checked_add 64 acc (bbe_size e)) as [acc'|] eqn:Ha; [|done].
      exists acc'. split; [|by exists es]. split; [by left|]. exists e. by rewrite Ha.
Qed.
Definition observed (id : B) (n : Z) (b : DataTreeTraversalBudget) : DataTreeTraversalBudget :=
  mk_DataTreeTraversalBudget ({[ bid_into_u64 id ]} ∪ visited_blocks b) (visited_entries b + n)
    (max_entries b).

Lemma observe_tree_spec d n b b' :
  d <= MAX_DATA_TREE_DEPTH -> max_entries b < 2 ^ 64 ->
  DataTreeTraversalBudget.observe_tree d n b = Ok b' <->
    visited_entries b + n <= max_entries b /\
    b' = mk_DataTreeTraversalBudget (visited_blocks b) (visited_entries b + n) (max_entries b).
Proof.
  intros Hd Hm. unfold DataTreeTraversalBudget.observe_tree, checked_add.
  destruct (Z.ltb_spec MAX_DATA_TREE_DEPTH d); [lia|].
  destruct (Z.ltb_spec (visited_entries b + n) (2 ^ 64)); cbn.
  - destruct (Z.ltb_spec (max_entries b) (visited_entries b + n)).
    + split; [done|]. intros [? _]. lia.
    + split; [by intros [= <-]|by intros [_ ->]].
  - split; [done|]. intros [? _]. lia.
Qed.

Lemma descend_to_spec id b b' :
  DataTreeTraversalBudget.descend_to id b = Ok b' <->
    (id ∉ visited_blocks b) /\ b' = mk_DataTreeTraversalBudget ({[ id ]} ∪ visited_blocks b)
      (visited_entries b) (max_entries b).
Proof.
  unfold DataTreeTraversalBudget.descend_to. case_decide; split; try done.
  - by intros [? _].
  - by intros [= <-].
  - by intros [_ ->].
Qed.

(** The checks of a child block, with the entries of its data blocks. *)
Definition visited (b1 : DataTreeTraversalBudget) (t : DataTree B)
    (r : DataTreeTraversalBudget * list (B * Z * Z)) : Prop :=
  match t with
  | DataTree_Leaf _ => False
  | DataTree_Intermediate c =>
      exists es, child_entries c es /\
        visited_entries b1 + Z.of_nat (length es) <= max_entries b1 /\
        r = (mk_DataTreeTraversalBudget (visited_blocks b1)
               (visited_entries b1 + Z.of_nat (length es)) (max_entries b1),
             map (fun entry => (entry, 1, 2)) (dt_entries c))
  end.

Lemma computes_visit_block (id : B) c e b1 :
  bl_spec (bid_search_key id) = Ok e -> DataTree.read f encoding e = Ok (DataTree_Intermediate c) ->
  max_entries b1 < 2 ^ 64 ->
  computes coherent
    (let! _ := m_lift (ndb (validate_data_tree_child_level 2 (dth_level (dt_header c)))) in
     let! total := child_total (E := E) c in
     let! _ := m_lift (ndb (validate_data_tree_total (dth_total_size (dt_header c)) total)) in
     let! budget := m_lift (DataTreeTraversalBudget.observe_tree 1
                              (Z.of_nat (length (dt_entries c))) b1) in
     let! _ := cache_insert id (DataTree_Intermediate c) in
     m_ret (budget, map (fun entry => (entry, 1, 1 + 1)) (dt_entries c)))
    (visited b1 (DataTree_Intermediate c)).
Proof.
  intros He Ht Hm. eapply computes_iff; [|apply (computes_check _ _ _ (dth_level (dt_header c) = 1))].
  2: { eapply computes_iff; [|apply computes_lift]. intros []. rewrite ndb_ok.
    unfold validate_data_tree_child_level. cbn.
    destruct (Z.eqb_spec (dth_level (dt_header c)) 1); by split. }
  2: { intros Hl. eapply computes_bind; [by apply computes_child_total|]. intros total _.
       apply (computes_check _ _ _ (dth_total_size (dt_header c) = total)).
       - eapply computes_iff; [|apply computes_lift]. intros []. rewrite ndb_ok.
         unfold validate_data_tree_total. destruct (Z.eqb_spec (dth_total_size (dt_header c)) total);
           by split.
       - intros _. eapply computes_bind; [apply computes_lift|]. intros b2 _.
         apply computes_check; [by eapply computes_insert|intros _; apply computes_ret]. }
  intros r. cbn beta. split.
  - intros (Hl & tot & (es & Hes & Hsum) & <- & b2 & Hb2 & _ & ->). exists es.
    apply observe_tree_spec in Hb2 as [? ->]; [|done..]. rewrite (Forall2_length _ _ _ Hes) in *. done.
  - intros (es & (Hl & Hes & Hsum) & Hle & ->). split; [done|]. eexists. split; [by exists es|].
    split; [done|]. eexists. rewrite (Forall2_length _ _ _ Hes). split; [|done].
    by apply observe_tree_spec.
Qed.

(** One round on a child of a block of level 2. *)
Lemma computes_visit_child (id : B) b :
  bid_is_internal id = true -> max_entries b < 2 ^ 64 ->
  computes coherent (visit_child (E := E) f encoding id 2 1 b) (fun r => exists c es,
    block_tree id (DataTree_Intermediate c) /\ child_entries c es /\
    (bid_into_u64 id ∉ visited_blocks b) /\
    visited_entries b + Z.of_nat (length es) <= max_entries b /\
    r = (observed id (Z.of_nat (length es)) b, map (fun entry => (entry, 1, 2)) (dt_entries c))).
Proof.
  intros Hid Hm. unfold visit_child.
  eapply computes_iff; [|eapply computes_bind; [apply computes_lift|]].
  2: { intros b1 Hb1. eapply (computes_bind _ _ _ _ (visited b1)); [apply computes_fetch|].
       intros [c|l] (e & He & Ht); [|apply computes_fail]. eapply computes_visit_block; [done..|].
       by apply descend_to_spec in Hb1 as [_ ->]. }
  intros r. cbn beta. split.
  - intros (b1 & Hb1 & t & Ht & Hv). apply descend_to_spec in Hb1 as [Hn ->].
    destruct t as [c|]; [|done]. destruct Hv as (es & Hes & Hle & ->). by exists c, es.
  - intros (c & es & Hc & Hes & Hn & Hle & ->).
    eexists. split; [by apply descend_to_spec|]. eexists. split; [done|]. by exists es.
Qed.
Lemma leaf_lookup_functional ids es es' :
  Forall2 leaf_lookup ids es -> Forall2 leaf_lookup ids es' -> es = es'.
Proof.
  intros H. revert es'. induction H as [|id e ids es [_ He] _ IH]; intros es' H'.
  - by apply Forall2_nil_inv_l in H'.
  - apply Forall2_cons_inv_l in H' as (e' & es2 & [_ He'] & H2 & ->). f_equal; [congruence|auto].
Qed.

(** Rounds on the children of a block of level 1. *)
Lemma computes_leaves ids : forall fuel b d pending blocks (Q : list E -> list E -> Prop),
  (forall es, Forall2 leaf_lookup ids es ->
    computes coherent (sub_entries_loop f encoding fuel b pending (blocks ++ es)) (Q es)) ->
  computes coherent
    (sub_entries_loop f encoding (length ids + fuel) b
       (map (fun id => (id, 1, d)) ids ++ pending) blocks)
    (fun r => exists es, Forall2 leaf_lookup ids es /\ Q es r).
Proof.
  induction ids as [|id ids IH]; intros fuel b d pending blocks Q HQ;
    cbn [length map app Nat.add sub_entries_loop Z.eqb Pos.eqb].
  - assert (H := HQ [] ltac:(constructor)). rewrite app_nil_r in H.
    eapply computes_iff; [|exact H]. intros r. cbn beta.
    split; [by exists []|]. by intros (es & ->%Forall2_nil_inv_l & Hr).
  - eapply computes_iff; [|apply (computes_check _ _ _ (bid_is_internal id = false));
      [|intros Hid; eapply computes_bind; [apply computes_find_entry|]]].
    2: { eapply computes_iff; [|apply computes_kind]. intros []. split; [by intros [[??]|[??]]|auto]. }
    2: { intros e He. apply (IH fuel b d pending (blocks ++ [e]) (fun es => Q (e :: es))).
         intros es Hes. rewrite <- app_assoc. apply HQ. constructor; [by split|done]. }
    intros r. cbn beta. split.
    + intros (Hid & e & He & es & Hes & Hr). exists (e :: es). split; [|done].
      constructor; [by split|done].
    + intros (es' & Hes' & Hr). apply Forall2_cons_inv_l in Hes' as (e & es & [Hid He] & Hes & ->).
      split; [done|]. exists e. split; [done|]. by exists es.
Qed.

Lemma tag_inj (x y : Z) (ids ids' : list B) :
  map (fun entry => (entry, x, y)) ids = map (fun entry => (entry, x, y)) ids' -> ids = ids'.
Proof. revert ids'. induction ids as [|id ids IH]; intros [|id' ids'] [=]; [done|]. f_equal; auto. Qed.

(** The rounds on the children of a block of level 2. *)
Definition children_entries (b : DataTreeTraversalBudget) (ids : list B) (es : list E) : Prop :=
  exists ess, es = concat ess /\ Forall2 child_lookup ids ess /\ NoDup ids /\
    (forall id, id ∈ ids -> bid_into_u64 id ∉ visited_blocks b) /\
    visited_entries b + Z.of_nat (length es) <= max_entries b.

Lemma children_entries_cons b id ids es :
  children_entries b (id :: ids) es <-> exists es1 es2,
    es = es1 ++ es2 /\ child_lookup id es1 /\ (bid_into_u64 id ∉ visited_blocks b) /\
    visited_entries b + Z.of_nat (length es1) <= max_entries b /\
    children_entries (observed id (Z.of_nat (length es1)) b) ids es2.
Proof.
  unfold children_entries, observed. cbn. split.
  - intros (ess & -> & Hess & Hnd & Hv & Hle).
    apply Forall2_cons_inv_l in Hess as (es1 & ess2 & H1 & H2 & ->). apply NoDup_cons in Hnd as [Hn Hnd].
    cbn [concat] in *. rewrite length_app in Hle.
    exists es1, (concat ess2). split_and!; [done..|apply Hv; left|lia|].
    exists ess2. split_and!; [done..| |lia]. intros id' Hid'.
    apply not_elem_of_union. split; [|apply Hv; by right].
    intros ->%elem_of_singleton%bid_inj. done.
  - intros (es1 & es2 & -> & H1 & Hn & Hle & ess & -> & H2 & Hnd & Hv & Hle2).
    exists (es1 :: ess). rewrite length_app. split_and!; [done|by constructor|..|lia].
    + apply NoDup_cons. split; [|done]. intros Hin. apply (Hv id Hin), elem_of_union_l.
      by apply elem_of_singleton.
    + intros id' [->|Hin]%elem_of_cons; [done|]. intros Hv'. apply (Hv id' Hin). by apply elem_of_union_r.
Qed.

Lemma computes_children ids : forall fuel b blocks,
  max_entries b < 2 ^ 64 -> visited_entries b <= max_entries b ->
  (Z.to_nat (max_entries b - visited_entries b) + length ids < fuel)%nat ->
  computes coherent
    (sub_entries_loop f encoding fuel b (map (fun id => (id, 2, 1)) ids) blocks)
    (fun r => exists es, r = blocks ++ es /\ children_entries b ids es).
Proof.
  induction ids as [|id ids IH]; intros fuel b blocks Hm Hb Hf;
    (destruct fuel as [|fuel]; [lia|]); cbn [map sub_entries_loop length Z.eqb Pos.eqb] in *.
  - eapply computes_iff; [|apply computes_ret]. intros r. cbn beta. split.
    + intros ->. exists []. split; [by rewrite app_nil_r|]. exists []. cbn.
      split_and!; [done|constructor|constructor| |lia]. by intros ? ?%elem_of_nil.
    + intros (es & -> & ess & -> & ->%Forall2_nil_inv_l & _). by rewrite app_nil_r.
  - eapply computes_iff; [|apply (computes_check _ _ _ (bid_is_internal id = true));
      [|intros Hid; eapply (computes_bind _ _ _ _ (fun r out => exists ids1 es1 es2,
          r.2 = map (fun entry => (entry, 1, 2)) ids1 /\ Forall2 leaf_lookup ids1 es1 /\
          out = blocks ++ es1 ++ es2 /\ children_entries r.1 ids es2));
        [by apply computes_visit_child|]]].
    2: { eapply computes_iff; [|apply computes_kind]. intros []. split; [by intros [[??]|[??]]|auto]. }
    2: { intros [b' kids] (c & es & Hc & (Hl1 & Hes & Hsum) & Hv & Hle & [= -> ->]). cbn [fst snd].
         assert (Hlen := Forall2_length _ _ _ Hes).
         replace fuel with (length (dt_entries c) + (fuel - length (dt_entries c)))%nat by lia.
         eapply computes_iff; [|apply (computes_leaves _ _ _ _ _ _ (fun es1 out => exists es2,
           out = (blocks ++ es1) ++ es2 /\
           children_entries (observed id (Z.of_nat (length es)) b) ids es2))].
         2: { intros es1 _. apply IH; cbn; lia. }
         intros out. cbn beta. split.
         - intros (es1 & H1 & es2 & -> & H2). exists (dt_entries c), es1, es2.
           split_and!; [done..| |done]. by rewrite <- app_assoc.
         - intros (ids1 & es1 & es2 & Hids & H1 & -> & H2). apply tag_inj in Hids as ->.
           exists es1. split; [done|]. exists es2. by rewrite <- app_assoc. }
    intros r. cbn beta. split.
    + intros (Hid & [b' kids] & (c & es & Hc & Hes & Hv & Hle & [= -> ->]) & ids1 & es1 & es2 & Hids &
        H1 & -> & H2). cbn [fst snd] in *. apply tag_inj in Hids as <-.
      assert (es1 = es) as -> by (destruct Hes as (_ & H & _); by eapply leaf_lookup_functional).
      exists (es ++ es2). split; [done|]. apply children_entries_cons. exists es, es2.
      split_and!; try done. split; [done|]. by exists c.
    + intros (es & -> & Hes). apply children_entries_cons in Hes as
        (es1 & es2 & -> & (Hid & c & Hc & H1) & Hv & Hle & H2).
      split; [done|]. eexists. split; [by exists c, es1|]. exists (dt_entries c), es1, es2.
      split_and!; [done| |done..]. by destruct H1 as (_ & H1 & _).
Qed.
(** The levels [DataTreeBlock::new] accepts. *)
Definition level_ok (t : DataTree B) : Prop :=
  match t with
  | DataTree_Intermediate b => dth_level (dt_header b) = 1 \/ dth_level (dt_header b) = 2
  | DataTree_Leaf _ => True
  end.

Lemma computes_sub_entries (t : DataTree B) max :
  0 <= max < 2 ^ 64 -> level_ok t ->
  computes coherent (sub_entries (E := E) f encoding t max) (tree_entries t max).
Proof.
  intros Hmax Hl. destruct t as [b|b]; [|apply computes_ret]. unfold sub_entries, tree_entries.
  set (n := length (dt_entries b)). set (b1 := mk_DataTreeTraversalBudget ∅ (Z.of_nat n) max).
  eapply computes_iff; [|eapply (computes_bind _ _ _ _ (fun b' es => b' = b1 /\
    if dth_level (dt_header b) =? 1 then Forall2 leaf_lookup (dt_entries b) es
    else children_entries b1 (dt_entries b) es)); [apply computes_lift|]].
  - intros es. cbn beta. setoid_rewrite observe_tree_spec; [|done|cbn; lia]. cbn. split.
    + intros (b' & [Hle _] & _ & H). split; [done|]. destruct (_ =? 1); [done|].
      destruct H as (ess & -> & H & Hn & _ & Hle'). by exists ess.
    + intros [Hle H]. exists b1. split; [done|]. split; [done|]. destruct (_ =? 1); [done|].
      destruct H as (ess & -> & H & Hn & Hle'). exists ess. split_and!; try done.
  - intros b' [Hle ->]%observe_tree_spec; [|done|cbn; lia]. cbn in Hle. fold n in Hle.
    change (mk_DataTreeTraversalBudget _ _ _) with b1.
    apply (computes_iff _ _ (fun es => if dth_level (dt_header b) =? 1
      then Forall2 leaf_lookup (dt_entries b) es else children_entries b1 (dt_entries b) es)).
    { intros es. split; [by split|by intros [_ ?]]. }
    destruct Hl as [-> | ->]; cbn [Z.eqb Pos.eqb].
    + replace (Datatypes.S (Z.to_nat max)) with (n + Datatypes.S (Z.to_nat max - n))%nat by lia.
      rewrite <- (app_nil_r (map _ _)).
      eapply computes_iff; [|apply (computes_leaves _ _ _ _ _ _ (fun es out => out = es))].
      * intros es. split; [by intros (es' & H & ->)|]. intros H. by exists es.
      * intros es Hes. apply computes_ret.
    + eapply computes_iff; [|apply computes_children; cbn; [lia..|]].
      * intros es. cbn. split; [by intros (es' & -> & H)|]. intros H. by exists es.
      * fold n. lia.
Qed.

(** A data block the entry of a tree leads to. *)
Definition leaf_block (e : E) (b : DataBlock B) : Prop :=
  DataTree.read f encoding e = Ok (DataTree_Leaf b).

Definition blocks_data (bs : list (DataBlock B)) : list Z := concat (map db_data bs).

(** The key of an entry finds the entry. *)
Definition entry_self (e : E) : Prop :=
  bl_spec (bid_search_key (bref_block (bbe_block e))) = Ok e.

Lemma leaf_lookup_self id e : leaf_lookup id e -> entry_self e.
Proof. intros [_ He]. unfold entry_self. by rewrite (bl_key _ _ He). Qed.

Lemma tree_entries_self t max es : tree_entries t max es -> Forall entry_self es.
Proof.
  assert (Hleaves : forall ids es, Forall2 leaf_lookup ids es -> Forall entry_self es).
  { induction 1; constructor; eauto using leaf_lookup_self. }
  destruct t as [b|b]; cbn; [|by intros ->]. intros [_ H]. destruct (_ =? 1); [eauto|].
  destruct H as (ess & -> & H & _). apply Forall_concat. induction H as [|id es ids ess Hc _ IH];
    constructor; [|done]. destruct Hc as (_ & c & _ & _ & H & _). eauto.
Qed.

Lemma computes_cached (e : E) :
  entry_self e ->
  computes coherent
    (let! cached := cache_remove (bref_block (bbe_block e)) in
     match cached with
     | Some entry => m_ret entry
     | None => m_lift (DataTree.read f encoding e)
     end)
    (fun t => DataTree.read f encoding e = Ok t).
Proof.
  intros He [pages blocks] Hs. unfold m_bind. cbn [cache_remove].
  assert (Hd := coherent_delete _ _ (bid_into_u64 (bref_block (bbe_block e))) Hs).
  destruct (blocks !! _) as [t|] eqn:Hl; cbn; do 2 eexists; (split_and!; [done|done|]); [|done].
  destruct Hs as [_ Hc]. destruct (Hc _ _ Hl) as (e' & He' & Ht). unfold entry_self in He.
  rewrite He in He'. injection He' as <-. intros t'. rewrite Ht. done.
Qed.
Lemma materialized_ok declared acc n acc' :
  declared <= MAX_MATERIALIZED_DATA_TREE_BYTES ->
  observe_materialized_data_tree_bytes declared acc n = Ok acc' <->
    acc + n <= declared /\ acc' = acc + n.
Proof.
  unfold MAX_MATERIALIZED_DATA_TREE_BYTES, observe_materialized_data_tree_bytes, checked_add.
  intros Hd. destruct (Z.ltb_spec (acc + n) (2 ^ 64)); cbn.
  - unfold MAX_MATERIALIZED_DATA_TREE_BYTES.
    destruct (Z.ltb_spec (64 * 1024 * 1024) (acc + n)); [split; [done|intros [? _]; lia]|].
    destruct (Z.ltb_spec declared (acc + n)); [split; [done|intros [? _]; lia]|].
    split; [by intros [= <-]|by intros [_ ->]].
  - split; [done|intros [? _]; lia].
Qed.

Lemma computes_load declared es : Forall entry_self es -> forall acc bs0,
  acc <= declared <= MAX_MATERIALIZED_DATA_TREE_BYTES ->
  computes coherent (m_fold (load_block f encoding declared) es (acc, bs0)) (fun r =>
    exists bs, Forall2 leaf_block es bs /\ r.2 = bs0 ++ bs /\
      r.1 = acc + Z.of_nat (length (blocks_data bs)) /\ r.1 <= declared).
Proof.
  induction 1 as [|e es He _ IH]; intros acc bs0 Hd; cbn [m_fold].
  - eapply computes_iff; [|apply computes_ret]. intros [n l]. cbn. split.
    + intros [= -> ->]. exists []. split_and!; [constructor|by rewrite app_nil_r|cbn; lia|lia].
    + intros (bs & ->%Forall2_nil_inv_l & -> & -> & _). cbn. rewrite app_nil_r. f_equal. lia.
  - eapply computes_iff; [|eapply (computes_bind _ _ _ (fun a => exists b, leaf_block e b /\
      a = (acc + Z.of_nat (length (db_data b)), bs0 ++ [b]) /\ a.1 <= declared)
      (fun a r => exists bs, Forall2 leaf_block es bs /\ r.2 = a.2 ++ bs /\
        r.1 = a.1 + Z.of_nat (length (blocks_data bs)) /\ r.1 <= declared));
      [|intros [acc' bs1] (b & Hb & [= -> ->] & Hle); apply IH; cbn in *; lia]].
    + intros r. cbn beta. split.
      * intros (a & (b & Hb & -> & Hle) & bs & Hbs & H2 & H1 & Hr). exists (b :: bs).
        cbn in H1, H2.
        split_and!; [by constructor|by rewrite H2, <- app_assoc| |done].
        rewrite H1. unfold blocks_data. cbn. rewrite length_app. lia.
      * intros (bs' & Hbs' & H2 & H1 & Hr). apply Forall2_cons_inv_l in Hbs' as (b & bs & Hb & Hbs & ->).
        unfold blocks_data in H1. cbn in H1. rewrite length_app in H1.
        eexists. split; [exists b; split_and!; [done..|cbn; lia]|]. exists bs. cbn.
        split_and!; [done|by rewrite H2, <- app_assoc|unfold blocks_data; lia|done].
    + unfold load_block.
      eapply computes_iff; [|eapply (computes_bind _ _ _ _ (fun t a => exists b,
        t = DataTree_Leaf b /\ a = (acc + Z.of_nat (length (db_data b)), bs0 ++ [b]) /\
        a.1 <= declared)); [by apply computes_cached|]].
      * intros a. cbn beta. split; [|by intros (b & Hb & H); eauto 10].
        intros (t & Ht & b & -> & H). eauto.
      * intros [c|b] Ht; [eapply computes_iff; [|apply computes_fail]|].
        { intros a. split; [done|]. by intros (? & [=] & _). }
        eapply computes_iff; [|eapply computes_bind; [apply computes_lift|]].
        2: { intros acc' Ha. apply computes_check; [|intros _; apply computes_ret].
             eapply computes_insert; [exact He|done]. }
        intros a. cbn. setoid_rewrite materialized_ok; [|lia]. split.
        -- intros (acc' & [Hle ->] & _ & ->). by exists b.
        -- intros (b' & [= <-] & -> & Hle). eexists. by split_and!.
Qed.
(** The specification of [blocks]. *)
Definition tree_blocks (t : DataTree B) (bs : list (DataBlock B)) : Prop :=
  match t with
  | DataTree_Leaf b => bs = [b]
  | DataTree_Intermediate _ =>
      DataTree.declared_size t <= MAX_MATERIALIZED_DATA_TREE_BYTES /\
      (exists es, tree_entries t MAX_DATA_TREE_ENTRIES es /\ Forall2 leaf_block es bs) /\
      Z.of_nat (length (blocks_data bs)) = DataTree.declared_size t
  end.

Lemma computes_blocks (t : DataTree B) :
  level_ok t -> 0 <= DataTree.declared_size t ->
  computes coherent (blocks (E := E) f encoding t) (tree_blocks t).
Proof.
  intros Hl Hd. destruct t as [b|b]; [|apply computes_ret]. unfold blocks, tree_blocks.
  set (declared := DataTree.declared_size (DataTree_Intermediate b)) in *.
  destruct (Z.ltb_spec MAX_MATERIALIZED_DATA_TREE_BYTES declared) as [Hlt|Hle].
  { eapply computes_iff; [|apply computes_fail]. intros bs. split; [done|]. intros [? _]. lia. }
  eapply computes_iff; [|eapply (computes_bind _ _ _ _ (fun es bs => Forall2 leaf_block es bs /\
    Z.of_nat (length (blocks_data bs)) = declared)); [by apply computes_sub_entries|]].
  { intros bs. cbn beta. split; [intros (es & Hes & Hbs & Hn); eauto 10|].
    intros (_ & (es & Hes & Hbs) & Hn). eauto. }
  intros es Hes%tree_entries_self.
  eapply computes_iff; [|eapply (computes_bind _ _ _ _ (fun r bs => r = (declared, bs)));
    [by apply computes_load|]].
  - intros bs. cbn beta. split.
    + intros (r & (bs' & Hbs & H2 & H1 & _) & ->). cbn [fst snd app] in *. subst bs'. split; [done|lia].
    + intros [Hbs Hn]. eexists. split; [|done]. exists bs. cbn [fst snd app].
      split_and!; [done..|lia|lia].
  - intros [n bs] _. cbn [fst snd].
    destruct (Z.eqb_spec n declared) as [->|Hn]; cbn [negb].
    + eapply computes_iff; [|apply computes_ret]. intros bs'. split; [by intros ->|by intros [= ->]].
    + eapply computes_iff; [|apply computes_fail]. intros bs'. split; [done|by intros [= -> _]].
Qed.

(** The specification of [nth]. *)
Definition tree_nth (t : DataTree B) (n : nat) (o : option (list Z)) : Prop :=
  match t with
  | DataTree_Leaf b => o = if (n =? 0)%nat then Some (db_data b) else None
  | DataTree_Intermediate _ => exists es, tree_entries t MAX_DATA_TREE_ENTRIES es /\
      match es !! n with
      | None => o = None
      | Some e => exists b, leaf_block e b /\ o = Some (db_data b)
      end
  end.

Lemma computes_cached_or_read (e : E) :
  entry_self e ->
  computes coherent (cached_or_read f encoding e) (fun t => DataTree.read f encoding e = Ok t).
Proof.
  intros He [pages blocks] Hs. cbn. destruct (blocks !! _) as [t|] eqn:Hl.
  - do 2 eexists. split_and!; [done..|]. destruct Hs as [_ Hc].
    destruct (Hc _ _ Hl) as (e' & He' & Ht). unfold entry_self in He. rewrite He in He'.
    injection He' as <-. intros t'. by rewrite Ht.
  - destruct (DataTree.read f encoding e) as [t|x|] eqn:Ht; do 2 eexists;
      (split_and!; [done| |]); try done. by eapply coherent_insert.
Qed.

Lemma computes_nth (t : DataTree B) n :
  level_ok t -> computes coherent (nth (E := E) f encoding t n) (tree_nth t n).
Proof.
  intros Hl. destruct t as [b|b]; [|apply computes_ret]. unfold nth, tree_nth.
  eapply computes_bind; [by apply computes_sub_entries|]. intros es Hes%tree_entries_self.
  destruct (es !! n) as [e|] eqn:Hn; [|apply computes_ret].
  eapply computes_iff; [|eapply (computes_bind _ _ _ _ (fun t o => exists b,
    t = DataTree_Leaf b /\ o = Some (db_data b))); [apply computes_cached_or_read|]].
  - intros o. cbn beta. split; [intros (t & Ht & c & -> & ->); eauto|].
    intros (c & Hc & ->). eauto.
  - by eapply Forall_lookup_1.
  - intros [c|c] _.
    + eapply computes_iff; [|apply computes_fail]. intros o. split; [done|by intros (? & [=] & _)].
    + eapply computes_iff; [|apply computes_ret]. intros o. split; [eauto|by intros (? & [= ->] & ->)].
Qed.

(** The specification of the readers. *)
Definition tree_reader (t : DataTree B) (max : Z) (r : DataTreeReader (E := E)) : Prop :=
  match t with
  | DataTree_Leaf b => r = mk_DataTreeReader (db_data b) [] (DataTree.declared_size t) 0
  | DataTree_Intermediate _ => exists es, tree_entries t max es /\
      r = mk_DataTreeReader [] es (DataTree.declared_size t) 0
  end.

Lemma computes_reader_new (t : DataTree B) max :
  0 <= max < 2 ^ 64 -> level_ok t ->
  computes coherent (reader_new f encoding t max) (tree_reader t max).
Proof.
  intros Hm Hl. destruct t as [b|b]; [|apply computes_ret].
  eapply computes_bind; [by apply computes_sub_entries|]. intros es _. apply computes_ret.
Qed.
End traversals.

(** ** Reading a tree as a stream *)

Section stream.
Set Default Proof Using "Type".
Context {E B I : Type} `{!BlockId B, !ByteIndex I, !BlockBTreeEntry E B I}.
Context `{!BlockTrailerReadWrite B, !BlockTrailerLaws B, !IntermediateTreeEntry B}.
Context (f : list Z) (encoding : NdbCryptMethod).

(** [read] called with buffers of these sizes; the chunks it returns. *)
Fixpoint read_all (lens : list nat) (r : DataTreeReader (E := E)) : io_result (list Z) :=
  match lens with
  | [] => Ok []
  | len :: lens =>
      match reader_read f encoding len r with
      | (Ok chunk, r) => let? rest := read_all lens r in Ok (chunk ++ rest)
      | (Err e, _) => Err e
      | (Panic, _) => Panic
      end
  end.

(** The bytes the reader still has to deliver. *)
Definition reader_holds (r : DataTreeReader (E := E)) (data : list Z) : Prop := exists bs,
  Forall2 (leaf_block f encoding) (rdr_next r) bs /\ data = rdr_current r ++ blocks_data bs.

Lemma fill_spec requested next bs : Forall2 (leaf_block f encoding) next bs -> forall got current,
  (length got <= requested)%nat -> current = [] \/ length got = requested ->
  exists got' current' next' bs', fill f encoding requested got current next = (Ok got', (current', next')) /\
    Forall2 (leaf_block f encoding) next' bs' /\
    got' ++ current' ++ blocks_data bs' = got ++ current ++ blocks_data bs /\
    length got' = Nat.min requested (length (got ++ current ++ blocks_data bs)).
Proof.
  induction 1 as [|e b next bs He Hbs IH]; intros got current Hl Hc; cbn [fill].
  - exists got, current, [], []. split; [by destruct (_ <? _)%nat|]. split; [constructor|].
    split; [done|]. cbn. rewrite app_nil_r, length_app.
    destruct Hc as [->|]; cbn; lia.
  - destruct (Nat.ltb_spec (length got) requested) as [Hlt|Hge].
    + destruct Hc as [->|]; [|lia]. rewrite He.
      destruct (IH (got ++ take (requested - length got) (db_data b))
        (drop (requested - length got) (db_data b))) as (got' & c' & n' & bs' & -> & Hn' & Heq & Hlen).
      * rewrite length_app, length_take. lia.
      * rewrite length_app, length_take.
        destruct (le_lt_dec (requested - length got) (length (db_data b))); [right; lia|left].
        apply drop_ge. lia.
      * exists got', c', n', bs'.
        assert (Hd : (got ++ take (requested - length got) (db_data b)) ++
          drop (requested - length got) (db_data b) ++ blocks_data bs =
          got ++ [] ++ blocks_data (b :: bs)).
        { unfold blocks_data. cbn. by rewrite <- !app_assoc, (app_assoc (take _ _)), take_drop. }
        by rewrite <- Hd.
    + exists got, current, (e :: next), (b :: bs). split; [done|]. split; [by constructor|].
      split; [done|]. rewrite length_app. lia.
Qed.
Lemma blocks_data_nil next bs :
  Forall2 (leaf_block f encoding) next bs -> blocks_data bs = [] -> next = [].
Proof using BlockTrailerLaws0.
  intros [|e b next' bs' He _]; [done|]. apply data_tree_read_leaf in He as [Hl Hs].
  unfold blocks_data. cbn. destruct (db_data b); [cbn in Hl; lia|done].
Qed.

Lemma reader_read_some len r data :
  let n := Nat.min len (Nat.min (Z.to_nat (rdr_expected_size r - rdr_total_read r)) (length data)) in
  reader_holds r data -> 0 <= rdr_total_read r -> rdr_expected_size r < 2 ^ 64 -> (0 < n)%nat ->
  exists r', reader_read f encoding len r = (Ok (take n data), r') /\
    reader_holds r' (drop n data) /\ rdr_expected_size r' = rdr_expected_size r /\
    rdr_total_read r' = rdr_total_read r + Z.of_nat n.
Proof using BlockTrailerLaws0.
  intros n (bs & Hbs & ->) H0 Hmax Hn. unfold reader_read, saturating_sub.
  destruct (Nat.eqb_spec len 0); [lia|].
  set (left := rdr_expected_size r - rdr_total_read r) in *.
  destruct (Z.eqb_spec (Z.max 0 left) 0); [lia|].
  set (requested := Nat.min len (Z.to_nat (Z.max 0 left))).
  set (data := rdr_current r ++ blocks_data bs) in *.
  destruct (fill_spec requested (rdr_next r) bs Hbs (take requested (rdr_current r))
    (drop requested (rdr_current r))) as (got & c & next & bs' & -> & Hnext & Heq & Hlen).
  - rewrite length_take. lia.
  - rewrite length_take.
    destruct (le_lt_dec requested (length (rdr_current r))); [right; lia|left; apply drop_ge; lia].
  - rewrite (app_assoc (take _ _)), take_drop in Heq, Hlen. fold data in Heq, Hlen.
    assert (Hg : length got = n) by lia. unfold checked_add.
    destruct (Z.ltb_spec (rdr_total_read r + Z.of_nat (length got)) (2 ^ 64)); [|lia].
    destruct (Nat.eqb_spec (length got) 0); [lia|]. cbn [andb].
    rewrite <- Heq. eexists. split; [by rewrite take_app_exact|]. split_and!; [|done|cbn; lia].
    exists bs'. split; [done|]. by rewrite drop_app_exact.
Qed.

Lemma reader_read_eof len r :
  reader_holds r [] -> (0 < len)%nat -> 0 <= rdr_total_read r ->
  rdr_total_read r < rdr_expected_size r < 2 ^ 64 ->
  exists r', reader_read f encoding len r = (Err UnexpectedEof, r').
Proof using BlockTrailerLaws0.
  intros (bs & Hbs & H) Hlen H0 Hr. symmetry in H. apply app_nil in H as [Hc Hb].
  assert (Hn := blocks_data_nil _ _ Hbs Hb).
  unfold reader_read, saturating_sub, checked_add. rewrite Hc, Hn, take_nil, drop_nil.
  destruct (Nat.eqb_spec len 0); [lia|]. destruct (Z.eqb_spec (Z.max 0 (rdr_expected_size r - rdr_total_read r)) 0); [lia|].
  assert (fill f encoding (Nat.min len (Z.to_nat (Z.max 0 (rdr_expected_size r - rdr_total_read r))))
    [] [] [] = (Ok [], ([], []))) as -> by (cbn [fill]; by destruct (_ <? _)%nat).
  cbn [length Nat.eqb andb Z.of_nat]. rewrite Z.add_0_r.
  destruct (Z.ltb_spec (rdr_total_read r) (2 ^ 64)); [|lia].
  cbn. destruct (Z.eqb_spec (rdr_total_read r) (rdr_expected_size r)); [lia|]. cbn. by eexists.
Qed.

Lemma reader_read_end len r data :
  reader_holds r data -> (0 < len)%nat -> rdr_total_read r = rdr_expected_size r ->
  reader_read f encoding len r =
    (match data with [] => Ok [] | _ => Err InvalidData_msg end, r).
Proof using BlockTrailerLaws0.
  intros (bs & Hbs & ->) Hlen Hr. unfold reader_read, saturating_sub.
  destruct (Nat.eqb_spec len 0); [lia|]. rewrite Hr, Z.sub_diag. cbn [Z.max Z.compare Z.eqb].
  destruct (rdr_current r); [|done]. cbn [app].
  destruct Hbs as [|e b next' bs' He _]; [done|]. apply data_tree_read_leaf in He as [Hl Hs].
  unfold blocks_data. cbn. destruct (db_data b); [cbn in Hl; lia|done].
Qed.

(** A reader with as many bytes as it expects delivers them, however it is
    called. *)
Lemma read_all_exact lens : forall r data,
  reader_holds r data -> 0 <= rdr_total_read r -> rdr_expected_size r < 2 ^ 64 ->
  rdr_expected_size r - rdr_total_read r = Z.of_nat (length data) ->
  read_all lens r = Ok (take (sum_list lens) data).
Proof using BlockTrailerLaws0.
  induction lens as [|len lens IH]; intros r data Hr H0 Hmax Hd; cbn [read_all sum_list_with]; [done|].
  destruct (Nat.eq_dec len 0) as [->|Hlen].
  { unfold reader_read. cbn [Nat.eqb]. by rewrite (IH r data). }
  destruct (Nat.eq_dec (length data) 0) as [Hnil|Hne].
  - apply length_zero_iff_nil in Hnil as ->. rewrite (reader_read_end _ _ []) by first [done | cbn in Hd; lia].
    rewrite (IH r []) by done. cbn. by rewrite !take_nil.
  - destruct (reader_read_some len r data) as (r' & -> & Hr' & He & Ht); [done..|lia|].
    rewrite (IH r' _ Hr') by (rewrite ?length_drop; lia). cbn [rbind]. f_equal.
    replace (Nat.min len (Nat.min _ _)) with (Nat.min len (length data)) by lia.
    destruct (Nat.min_spec len (length data)) as [[_ ->]|[? ->]].
    + by rewrite take_take_drop.
    + change (id len) with len. rewrite (take_ge data (length data)), (take_ge data (_ + _)), drop_ge, take_nil, app_nil_r by lia.
      done.
Qed.

(** A reader with more or fewer bytes than it expects fails. *)
Lemma read_all_mismatch lens : forall r data,
  reader_holds r data -> 0 <= rdr_total_read r <= rdr_expected_size r -> rdr_expected_size r < 2 ^ 64 ->
  rdr_expected_size r - rdr_total_read r <> Z.of_nat (length data) ->
  Forall (fun len => 0 < len)%nat lens ->
  rdr_expected_size r - rdr_total_read r < Z.of_nat (length lens) ->
  exists e, read_all lens r = Err e.
Proof using BlockTrailerLaws0.
  induction lens as [|len lens IH]; intros r data Hr H0 Hmax Hd Hpos Hlen; cbn [read_all length] in *; [lia|].
  apply Forall_cons in Hpos as [Hp Hpos].
  destruct (Z.eq_dec (rdr_total_read r) (rdr_expected_size r)) as [Heq|Hne].
  { rewrite (reader_read_end _ _ data) by done. destruct data; [cbn in *; lia|by eexists]. }
  destruct (Nat.eq_dec (length data) 0) as [Hnil|Hn].
  - apply length_zero_iff_nil in Hnil as ->.
    destruct (reader_read_eof len r) as (r' & ->); [done..|lia|lia|]. by eexists.
  - destruct (reader_read_some len r data) as (r' & -> & Hr' & He & Ht); [done|lia..|].
    destruct (IH r' _ Hr') as (e & ->); [lia|lia|rewrite length_drop; lia|done|lia|]. by eexists.
Qed.
End stream.

(** A tree opens as a reader that holds its data. *)
Lemma open_reader_holds {E B I S : Type} `{!BlockId B, !ByteIndex I, !BlockBTreeEntry E B I}
    `{!BlockTrailerReadWrite B, !BlockTrailerLaws B, !IntermediateTreeEntry B, !BlockFind E S}
    `{!BlockIdLaws B, !BlockFindLaws E B I S}
    (f : list Z) (encoding : NdbCryptMethod) (t : DataTree B)
    (s : traversal_state (B := B) (S := S)) (bs : list (DataBlock B)) :
  coherent (E := E) f encoding s -> level_ok t ->
  DataTree.declared_size t <= MAX_MATERIALIZED_DATA_TREE_BYTES ->
  tree_blocks (E := E) f encoding t bs ->
  exists r s', open_reader f encoding t s = Some (Ok r, s') /\ coherent (E := E) f encoding s' /\
    reader_holds f encoding r (blocks_data bs) /\ rdr_total_read r = 0 /\
    rdr_expected_size r = Z.of_nat (length (blocks_data bs)) /\ rdr_expected_size r < 2 ^ 64.
Proof.
  intros Hs Ht Hd Hbs.
  assert (exists r, tree_reader (E := E) f encoding t MAX_DATA_TREE_ENTRIES r /\
    reader_holds f encoding r (blocks_data bs) /\ rdr_total_read r = 0 /\
    rdr_expected_size r = DataTree.declared_size t /\
    DataTree.declared_size t = Z.of_nat (length (blocks_data bs))) as (r & Hr & Hh & H0 & He & Hn).
  { destruct t as [c|l].
    - destruct Hbs as (_ & (es & Hes & Hbs) & Hn). exists (mk_DataTreeReader [] es (DataTree.declared_size (DataTree_Intermediate c)) 0).
      split; [by exists es|]. split; [by exists bs|]. by split_and!.
    - cbn in Hbs. subst bs. eexists. split; [done|]. unfold blocks_data. cbn.
      rewrite app_nil_r. split; [exists []; cbn; by rewrite app_nil_r|]. done. }
  destruct (computes_reader_new f encoding t MAX_DATA_TREE_ENTRIES ltac:(done) Ht s Hs)
    as (r' & s' & Hopen & Hs' & Hspec).
  apply Hspec in Hr as ->. exists r, s'. unfold open_reader.
  destruct (Z.ltb_spec MAX_MATERIALIZED_DATA_TREE_BYTES (DataTree.declared_size t)); [lia|].
  unfold MAX_MATERIALIZED_DATA_TREE_BYTES in *. by split_and!; [..|lia|lia].
Qed.

(** ** A concrete tree *)

(** Two data blocks of 3 and 2 bytes under a block of level 1, in a file and
    in the block B-tree; the root of the tree has level 2. *)
Definition sample_leaf (id : Z) (data : list Z) : DataTree UnicodeBlockId :=
  DataTree_Leaf (mk_DataBlock Permute data (mk_BlockTrailer 0 0x1234 0 (mk_UnicodeBlockId id))).

Definition sample_node (level total : Z) (ids : list Z) : DataTree UnicodeBlockId :=
  DataTree_Intermediate (mk_DataTreeBlock
    (mk_DataTreeBlockHeader level (Z.of_nat (length ids)) total) (map mk_UnicodeBlockId ids)
    (mk_BlockTrailer (8 + 8 * Z.of_nat (length ids)) 0 0 (mk_UnicodeBlockId 6))).

Definition sample_entries : list UnicodeBlockBTreeEntry.t :=
  [sample_entry 6 0 24; sample_entry 8 64 3; sample_entry 12 128 2].

Definition sample_file : list Z :=
  match
    (let? w := DataTree.write (sample_node 1 5 [8; 12]) (sample_entry 6 0 24) (mk_wfile [] 0) in
     let? w := DataTree.write (sample_leaf 8 [1; 2; 3]) (sample_entry 8 64 3) w in
     DataTree.write (sample_leaf 12 [4; 5]) (sample_entry 12 128 2) w)
  with Ok w => wf_data w | _ => [] end.

Definition sample_root : RootBTreePage.t (P := BlockBTree) (LE := UnicodeBlockBTreeEntry.t)
    (B := UnicodePageId) (I := UnicodeByteIndex) :=
  Leaf (mk_BTreeLeafPage 20 24 sample_entries (sample_trailer BlockBTree 1)).

Definition sample_find := btree_find sample_file sample_root 1.
#[local] Existing Instance sample_find.

Definition sample_laws : BlockFindLaws UnicodeBlockBTreeEntry.t UnicodeBlockId UnicodeByteIndex _.
Proof.
  refine (btree_find_laws sample_file sample_root 1 (fun _ => False) 0 0 0x100 sample_entries
    _ _ _ unicode_block_key).
  - by intros r1 r2 H.
  - split; [done|]. apply Forall_forall. intros e He.
    unfold sample_entries in He. rewrite !elem_of_cons in He.
    destruct He as [->|[->|[->|He%elem_of_nil]]]; done.
  - lia.
Defined.
#[local] Existing Instance sample_laws.

Definition sample_tree : DataTree UnicodeBlockId := sample_node 2 5 [6].
Definition sample_state : traversal_state (B := UnicodeBlockId)
    (S := RootBTreePage.cache (P := BlockBTree) (LE := UnicodeBlockBTreeEntry.t)
            (B := UnicodePageId) (I := UnicodeByteIndex)) := (∅, ∅).

Definition sample_run :=
  match blocks (E := UnicodeBlockBTreeEntry.t) sample_file Permute sample_tree sample_state with
  | Some (Ok bs, _) => Some (map db_data bs)
  | _ => None
  end.

Example sample_run_ok : sample_run = Some [[1; 2; 3]; [4; 5]].
Proof. vm_compute. reflexivity. Qed.

Lemma sample_coherent : coherent (E := UnicodeBlockBTreeEntry.t) sample_file Permute sample_state.
Proof.
  split.
  - intros r p _ H. exfalso. exact (lookup_empty_Some (M := gmap Z) _ _ H).
  - intros id t H. exfalso. exact (lookup_empty_Some (M := gmap Z) _ _ H).
Qed.

(** ** Properties *)

(** When every lookup in the block B-tree ends, so do [sub_entries],
    [blocks] and [nth], on any file, tree and cache: cycles, oversized and
    inconsistent trees included.  The budget of [max_entries] entries pays
    for every round of the loop. *)
Theorem sub_entries_terminates {E B I S : Type} `{!BlockId B, !ByteIndex I, !BlockBTreeEntry E B I}
    `{!BlockTrailerReadWrite B, !IntermediateTreeEntry B, !BlockFind E S}
    (f : list Z) (encoding : NdbCryptMethod) (t : DataTree B) (max n : Z)
    (s : traversal_state (B := B) (S := S))
    (Hfind : forall k (s : S), bl_find (E := E) k s <> None) (Hmax : 0 <= max) :
  sub_entries (E := E) f encoding t max s <> None /\ blocks (E := E) f encoding t s <> None /\
  nth (E := E) f encoding t (Z.to_nat n) s <> None.
Proof. split_and!; [by apply sub_entries_total|by apply total_blocks|by apply total_nth]. Qed.

Lemma sub_entries_terminates_witness :
  sub_entries (E := UnicodeBlockBTreeEntry.t) sample_file Permute (sample_node 2 5 [6; 6]) 10
    sample_state <> None /\
  blocks (E := UnicodeBlockBTreeEntry.t) sample_file Permute (sample_node 2 5 [6; 6])
    sample_state <> None /\
  nth (E := UnicodeBlockBTreeEntry.t) sample_file Permute (sample_node 2 5 [6; 6]) (Z.to_nat 1)
    sample_state <> None.
Proof.
  apply (sub_entries_terminates (E := UnicodeBlockBTreeEntry.t) sample_file Permute
    (sample_node 2 5 [6; 6]) 10 1 sample_state); [|lia].
  intros k s. cbn. by destruct (_ =? k); [|destruct (_ =? k); [|destruct (_ =? k)]].
Defined.

(** C19: on a coherent state [sub_entries] returns the entries of the data
    blocks of the tree in order, exactly when the tree is one: every block
    is found, read and of the right kind and level, no child occurs twice,
    the sizes add up to those declared, and there are at most [max_entries]
    entries.  In every other case it fails; in every case it leaves the
    caches coherent. *)
Theorem sub_entries_correct {E B I S : Type} `{!BlockId B, !ByteIndex I, !BlockBTreeEntry E B I}
    `{!BlockTrailerReadWrite B, !IntermediateTreeEntry B, !BlockFind E S}
    `{!BlockIdLaws B, !BlockFindLaws E B I S}
    (f : list Z) (encoding : NdbCryptMethod) (t : DataTree B) (max : Z)
    (s : traversal_state (B := B) (S := S))
    (Hs : coherent (E := E) f encoding s) (Ht : level_ok t) (Hmax : 0 <= max < 2 ^ 64) :
  exists r s', sub_entries (E := E) f encoding t max s = Some (r, s') /\
    coherent (E := E) f encoding s' /\ forall es, r = Ok es <-> tree_entries f encoding t max es.
Proof. by apply computes_sub_entries. Qed.

Lemma sub_entries_correct_witness :
  tree_entries sample_file Permute sample_tree MAX_DATA_TREE_ENTRIES
    [sample_entry 8 64 3; sample_entry 12 128 2].
Proof.
  destruct (sub_entries_correct (E := UnicodeBlockBTreeEntry.t) sample_file Permute sample_tree
    MAX_DATA_TREE_ENTRIES sample_state sample_coherent (or_intror eq_refl) ltac:(done))
    as (r & s' & Hr & _ & Hes).
  apply Hes. vm_compute in Hr. by injection Hr as <- _.
Defined.

(** [blocks] returns the data blocks of the tree, in order, exactly
    when their bytes are as many as the tree declares and at most 64 MiB. *)
Theorem blocks_correct {E B I S : Type} `{!BlockId B, !ByteIndex I, !BlockBTreeEntry E B I}
    `{!BlockTrailerReadWrite B, !IntermediateTreeEntry B, !BlockFind E S}
    `{!BlockIdLaws B, !BlockFindLaws E B I S}
    (f : list Z) (encoding : NdbCryptMethod) (t : DataTree B)
    (s : traversal_state (B := B) (S := S))
    (Hs : coherent (E := E) f encoding s) (Ht : level_ok t) (Hd : 0 <= DataTree.declared_size t) :
  exists r s', blocks (E := E) f encoding t s = Some (r, s') /\
    coherent (E := E) f encoding s' /\ forall bs, r = Ok bs <-> tree_blocks (E := E) f encoding t bs.
Proof. by apply computes_blocks. Qed.

Lemma blocks_correct_witness :
  exists bs, tree_blocks (E := UnicodeBlockBTreeEntry.t) sample_file Permute sample_tree bs /\
    blocks_data bs = [1; 2; 3; 4; 5].
Proof.
  destruct (blocks_correct (E := UnicodeBlockBTreeEntry.t) sample_file Permute sample_tree
    sample_state sample_coherent (or_intror eq_refl) ltac:(done)) as (r & s' & Hr & _ & Hbs).
  vm_compute in Hr. injection Hr as <- _. eexists. split; [by apply Hbs|]. done.
Defined.

(** [nth] returns the data of the [n]-th data block, [None] past the
    last, and fails when the tree is not one. *)
Theorem nth_correct {E B I S : Type} `{!BlockId B, !ByteIndex I, !BlockBTreeEntry E B I}
    `{!BlockTrailerReadWrite B, !IntermediateTreeEntry B, !BlockFind E S}
    `{!BlockIdLaws B, !BlockFindLaws E B I S}
    (f : list Z) (encoding : NdbCryptMethod) (t : DataTree B) (n : nat)
    (s : traversal_state (B := B) (S := S))
    (Hs : coherent (E := E) f encoding s) (Ht : level_ok t) :
  exists r s', nth (E := E) f encoding t n s = Some (r, s') /\
    coherent (E := E) f encoding s' /\ forall o, r = Ok o <-> tree_nth (E := E) f encoding t n o.
Proof. by apply computes_nth. Qed.

Lemma nth_correct_witness :
  tree_nth (E := UnicodeBlockBTreeEntry.t) sample_file Permute sample_tree 1 (Some [4; 5]) /\
  tree_nth (E := UnicodeBlockBTreeEntry.t) sample_file Permute sample_tree 2 None.
Proof.
  split.
  - destruct (nth_correct (E := UnicodeBlockBTreeEntry.t) sample_file Permute sample_tree 1
      sample_state sample_coherent (or_intror eq_refl)) as (r & s' & Hr & _ & Ho).
    apply Ho. vm_compute in Hr. by injection Hr as <- _.
  - destruct (nth_correct (E := UnicodeBlockBTreeEntry.t) sample_file Permute sample_tree 2
      sample_state sample_coherent (or_intror eq_refl)) as (r & s' & Hr & _ & Ho).
    apply Ho. vm_compute in Hr. by injection Hr as <- _.
Defined.

(** C20: on a tree whose data blocks hold the bytes it declares, up to
    64 MiB, [reader] opens, and the chunks that its [read] returns for any
    sequence of buffers are together the first bytes of the data, as many as
    the buffers hold: no byte is lost, repeated or reordered. *)
Theorem reader_delivers {E B I S : Type} `{!BlockId B, !ByteIndex I, !BlockBTreeEntry E B I}
    `{!BlockTrailerReadWrite B, !BlockTrailerLaws B, !IntermediateTreeEntry B, !BlockFind E S}
    `{!BlockIdLaws B, !BlockFindLaws E B I S}
    (f : list Z) (encoding : NdbCryptMethod) (t : DataTree B)
    (s : traversal_state (B := B) (S := S)) (bs : list (DataBlock B))
    (Hs : coherent (E := E) f encoding s) (Ht : level_ok t)
    (Hd : DataTree.declared_size t <= MAX_MATERIALIZED_DATA_TREE_BYTES)
    (Hbs : tree_blocks (E := E) f encoding t bs) :
  exists r s', open_reader f encoding t s = Some (Ok r, s') /\ coherent (E := E) f encoding s' /\
    forall lens, read_all f encoding lens r = Ok (take (sum_list lens) (blocks_data bs)).
Proof.
  destruct (open_reader_holds f encoding t s bs Hs Ht Hd Hbs)
    as (r & s' & Hopen & Hs' & Hh & H0 & He & Hmax). exists r, s'. split_and!; [done..|].
  intros lens. apply read_all_exact; [done|lia..].
Qed.

Lemma reader_delivers_witness :
  exists r s', open_reader (E := UnicodeBlockBTreeEntry.t) sample_file Permute sample_tree sample_state =
      Some (Ok r, s') /\
    coherent (E := UnicodeBlockBTreeEntry.t) sample_file Permute s' /\
    forall lens, read_all sample_file Permute lens r = Ok (take (sum_list lens) [1; 2; 3; 4; 5]).
Proof.
  assert (exists bs, tree_blocks (E := UnicodeBlockBTreeEntry.t) sample_file Permute sample_tree bs /\
    blocks_data bs = [1; 2; 3; 4; 5]) as (bs & Hbs & <-).
  { destruct (computes_blocks (E := UnicodeBlockBTreeEntry.t) sample_file Permute sample_tree
      (or_intror eq_refl) ltac:(done) sample_state sample_coherent) as (r & s' & Hr & _ & Hbs).
    vm_compute in Hr. injection Hr as <- _. eexists. split; [by apply Hbs|]. done. }
  apply (reader_delivers (E := UnicodeBlockBTreeEntry.t) sample_file Permute sample_tree sample_state bs
    sample_coherent (or_intror eq_refl)); [done|exact Hbs].
Defined.

(** When the data blocks hold more or fewer bytes than the tree
    declares, every sequence of more reads than declared bytes, into
    non-empty buffers, ends in an error: a streamed tree is never taken for
    a complete one. *)
Theorem streaming_reader_detects_mismatch {E B I S : Type}
    `{!BlockId B, !ByteIndex I, !BlockBTreeEntry E B I}
    `{!BlockTrailerReadWrite B, !BlockTrailerLaws B, !IntermediateTreeEntry B, !BlockFind E S}
    `{!BlockIdLaws B, !BlockFindLaws E B I S}
    (f : list Z) (encoding : NdbCryptMethod) (t : DataTree B)
    (s : traversal_state (B := B) (S := S)) (es : list E) (bs : list (DataBlock B)) (lens : list nat)
    (Hs : coherent (E := E) f encoding s) (Ht : level_ok t)
    (Hd : 0 <= DataTree.declared_size t < 2 ^ 64)
    (Hes : tree_entries f encoding t MAX_STREAMING_DATA_TREE_ENTRIES es) (Hne : es <> [])
    (Hbs : Forall2 (leaf_block f encoding) es bs)
    (Hn : DataTree.declared_size t <> Z.of_nat (length (blocks_data bs)))
    (Hpos : Forall (fun len => 0 < len)%nat lens)
    (Hlen : DataTree.declared_size t < Z.of_nat (length lens)) :
  exists r s' e, streaming_reader f encoding t s = Some (Ok r, s') /\
    read_all f encoding lens r = Err e.
Proof.
  destruct t as [c|l]; [|done].
  set (r := mk_DataTreeReader [] es (DataTree.declared_size (DataTree_Intermediate c)) 0).
  destruct (computes_reader_new f encoding (DataTree_Intermediate c)
    MAX_STREAMING_DATA_TREE_ENTRIES ltac:(done) Ht s Hs) as (r' & s' & Hopen & Hs' & Hspec).
  assert (Hr : r' = Ok r) by (apply Hspec; by exists es). subst r'.
  destruct (read_all_mismatch f encoding lens r (blocks_data bs)) as (e & He); try done.
  - by exists bs.
  - cbn in *. lia.
  - cbn in *. lia.
  - cbn in *. lia.
  - cbn in *. lia.
  - by exists r, s', e.
Qed.

Lemma streaming_reader_detects_mismatch_witness :
  exists r s' e, streaming_reader (E := UnicodeBlockBTreeEntry.t) sample_file Permute
      (sample_node 2 6 [6]) sample_state = Some (Ok r, s') /\
    read_all sample_file Permute (replicate 7 4%nat) r = Err e.
Proof.
  assert (Hes : tree_entries sample_file Permute (sample_node 2 6 [6]) MAX_STREAMING_DATA_TREE_ENTRIES
    [sample_entry 8 64 3; sample_entry 12 128 2]).
  { destruct (computes_sub_entries (E := UnicodeBlockBTreeEntry.t) sample_file Permute
      (sample_node 2 6 [6]) MAX_STREAMING_DATA_TREE_ENTRIES ltac:(done) (or_intror eq_refl)
      sample_state sample_coherent) as (r & s' & Hr & _ & Hes).
    apply Hes. vm_compute in Hr. by injection Hr as <- _. }
  eapply (streaming_reader_detects_mismatch (E := UnicodeBlockBTreeEntry.t) sample_file Permute
    (sample_node 2 6 [6]) sample_state _ _ (replicate 7 4%nat) sample_coherent (or_intror eq_refl)
    ltac:(done) Hes ltac:(done)).
  - constructor; [vm_compute; reflexivity|]. constructor; [vm_compute; reflexivity|]. constructor.
  - vm_compute. discriminate.
  - by apply Forall_replicate, Nat.lt_0_succ.
  - done.
Defined.
