(* ===== verification/SubNode.v ===== *)
(** * Sub-node trees

    The traversals of [SubNodeTree] in [ndb/block.rs]: the search for a
    node, the list of all leaf entries, and the budget that bounds them. *)
From S2P Require Import Prelude Search Errors Io Ids BTree Block Lookup.

Definition MAX_SUBNODE_TREE_DEPTH : Z := 32.
Definition MAX_SUBNODE_TREE_ENTRIES : Z := 4096.

Record SubNodeTraversalBudget := mk_SubNodeTraversalBudget {
  sn_visited_blocks : gset Z;
  sn_visited_entries : Z
}.

Module SubNodeTraversalBudget.
Definition default : SubNodeTraversalBudget := mk_SubNodeTraversalBudget ∅ 0.

Definition observe_tree (depth entries : Z) (b : SubNodeTraversalBudget) :
    io_result SubNodeTraversalBudget :=
  if MAX_SUBNODE_TREE_DEPTH <? depth
  then Err (NdbData (SubNodeTreeDepthExceeded MAX_SUBNODE_TREE_DEPTH)) else
  let? visited_entries := ndb (ok_or (checked_add 64 (sn_visited_entries b) entries)
                                 (SubNodeTreeEntryLimitExceeded MAX_SUBNODE_TREE_ENTRIES)) in
  if MAX_SUBNODE_TREE_ENTRIES <? visited_entries
  then Err (NdbData (SubNodeTreeEntryLimitExceeded MAX_SUBNODE_TREE_ENTRIES)) else
  Ok (mk_SubNodeTraversalBudget (sn_visited_blocks b) visited_entries).

Definition descend_to (block_id : Z) (b : SubNodeTraversalBudget) :
    io_result SubNodeTraversalBudget :=
  if decide (block_id ∈ sn_visited_blocks b) then Err (NdbData (SubNodeTreeCycle block_id)) else
  Ok (mk_SubNodeTraversalBudget ({[ block_id ]} ∪ sn_visited_blocks b) (sn_visited_entries b)).
End SubNodeTraversalBudget.

Section traversal.
Context {E B I S : Type} `{!BlockId B, !ByteIndex I, !BlockBTreeEntry E B I}.
Context `{!BlockTrailerReadWrite B, !IntermediateTreeHeader (SubNodeTreeBlockHeader B)}.
Context `{!IntermediateTreeEntry (IntermediateSubNodeTreeEntry B)}.
Context `{!IntermediateTreeEntry (LeafSubNodeTreeEntry B), !BlockFind E S}.
Context (f : list Z).

Definition entry_count (t : SubNodeTree B) : Z :=
  match t with
  | SubNodeTree_Intermediate block => Z.of_nat (length (sn_entries block))
  | SubNodeTree_Leaf block => Z.of_nat (length (sn_entries block))
  end.

(** The tree of a block id: the block is looked up and read. *)
Definition read_child (block_id : B) : M S (SubNodeTree B) :=
  let! block := bl_find (E := E) (bid_search_key block_id) in
  m_lift (SubNodeTree.read f block).

(** [descend], the inner function of [find_leaf_entry_bounded]; [fuel]
    bounds its recursion. *)
Fixpoint descend (fuel : nat) (tree : SubNodeTree B) (node : NodeId) (depth : Z)
    (budget : SubNodeTraversalBudget) : M S (LeafSubNodeTreeEntry B) :=
  match fuel with
  | O => fun _ => None
  | Datatypes.S fuel =>
    let! budget := m_lift (SubNodeTraversalBudget.observe_tree depth (entry_count tree) budget) in
    match tree with
    | SubNodeTree_Intermediate block =>
        let entries := sn_entries block in
        let index := partition_point
          (fun entry => node_id_0 (sie_node entry) <=? node_id_0 node) entries in
        let! entry := m_lift (ndb (ok_or
          match index with O => None | Datatypes.S i => entries !! i end
          (SubNodeNotFound node))) in
        let block_id := sie_block entry in
        let! budget := m_lift (SubNodeTraversalBudget.descend_to (bid_into_u64 block_id) budget) in
        let! child := read_child block_id in
        descend fuel child node (depth + 1) budget
    | SubNodeTree_Leaf block =>
        m_lift (ndb (ok_or
          (List.find (fun entry => node_id_0 (LeafSubNodeTreeEntry.node entry) =? node_id_0 node)
             (sn_entries block))
          (SubNodeNotFound node)))
    end
  end.

(** Depths 0 to 33 are entered, the last one to be refused. *)
Definition find_leaf_entry_bounded (self : SubNodeTree B) (node : NodeId) :
    M S (LeafSubNodeTreeEntry B) :=
  descend (Z.to_nat MAX_SUBNODE_TREE_DEPTH + 2) self node 0 SubNodeTraversalBudget.default.

Definition find_entry (self : SubNodeTree B) (node : NodeId) : M S B :=
  let! entry := find_leaf_entry_bounded self node in
  m_ret (LeafSubNodeTreeEntry.block entry).

(** [while let Some(..) = pending.pop_front()]: [fuel] bounds the rounds. *)
Fixpoint entries_loop (fuel : nat) (budget : SubNodeTraversalBudget) (pending : list (B * Z))
    (leaves : list (LeafSubNodeTreeEntry B)) : M S (list (LeafSubNodeTreeEntry B)) :=
  match fuel with
  | O => fun _ => None
  | Datatypes.S fuel =>
    match pending with
    | [] => m_ret leaves
    | (block_id, depth) :: pending =>
        let! budget := m_lift (SubNodeTraversalBudget.descend_to (bid_into_u64 block_id) budget) in
        let! child := read_child block_id in
        let! budget := m_lift (SubNodeTraversalBudget.observe_tree depth (entry_count child) budget) in
        match child with
        | SubNodeTree_Intermediate child =>
            entries_loop fuel budget
              (map (fun entry => (sie_block entry, depth + 1)) (sn_entries child) ++ pending) leaves
        | SubNodeTree_Leaf child => entries_loop fuel budget pending (leaves ++ sn_entries child)
        end
    end
  end.

Definition entries (self : SubNodeTree B) : M S (list (LeafSubNodeTreeEntry B)) :=
  let! budget := m_lift (SubNodeTraversalBudget.observe_tree 0 (entry_count self)
                           SubNodeTraversalBudget.default) in
  match self with
  | SubNodeTree_Intermediate block =>
      entries_loop (Datatypes.S (Z.to_nat MAX_SUBNODE_TREE_ENTRIES)) budget
        (map (fun entry => (sie_block entry, 1)) (sn_entries block)) []
  | SubNodeTree_Leaf block => m_ret (sn_entries block)
  end.
End traversal.

(** ** Budgets *)

Lemma sn_observe_spec d n b b' :
  SubNodeTraversalBudget.observe_tree d n b = Ok b' <->
    d <= MAX_SUBNODE_TREE_DEPTH /\ sn_visited_entries b + n <= MAX_SUBNODE_TREE_ENTRIES /\
    b' = mk_SubNodeTraversalBudget (sn_visited_blocks b) (sn_visited_entries b + n).
Proof.
  unfold SubNodeTraversalBudget.observe_tree, checked_add, MAX_SUBNODE_TREE_ENTRIES.
  destruct (Z.ltb_spec MAX_SUBNODE_TREE_DEPTH d); [split; [done|lia]|].
  destruct (Z.ltb_spec (sn_visited_entries b + n) (2 ^ 64)); cbn.
  - destruct (Z.ltb_spec 4096 (sn_visited_entries b + n)); [split; [done|lia]|].
    split; [by intros [= <-]|by intros (_ & _ & ->)].
  - split; [done|]. intros (_ & ? & _). lia.
Qed.

Lemma sn_descend_to_spec id b b' :
  SubNodeTraversalBudget.descend_to id b = Ok b' <->
    (id ∉ sn_visited_blocks b) /\
    b' = mk_SubNodeTraversalBudget ({[ id ]} ∪ sn_visited_blocks b) (sn_visited_entries b).
Proof.
  unfold SubNodeTraversalBudget.descend_to. case_decide; split; try done.
  - by intros [? _].
  - by intros [= <-].
  - by intros [_ ->].
Qed.

(** ** The traversals end *)

Section termination.
Set Default Proof Using "Type".
Context {E B I S : Type} `{!BlockId B, !ByteIndex I, !BlockBTreeEntry E B I}.
Context `{!BlockTrailerReadWrite B, !IntermediateTreeHeader (SubNodeTreeBlockHeader B)}.
Context `{!IntermediateTreeEntry (IntermediateSubNodeTreeEntry B)}.
Context `{!IntermediateTreeEntry (LeafSubNodeTreeEntry B), !BlockFind E S}.
Context (f : list Z).
Context (Hfind : forall k (s : S), bl_find (E := E) k s <> None).

Lemma total_read_child (id : B) : total (read_child (E := E) (S := S) f id).
Proof using Hfind. apply total_bind; [exact (Hfind _)|intros; apply total_lift]. Qed.

(** A check that comes with a fact about its result. *)
Lemma total_check {A C} (m : io_result A) (k : A -> M S C) :
  (forall a, m = Ok a -> total (k a)) -> total (m_bind (m_lift m) k).
Proof. intros Hk s. unfold m_bind, m_lift. destruct m as [a|e|]; [by apply Hk|done..]. Qed.

(** The depth bounds the recursion. *)
Lemma total_descend fuel : forall (t : SubNodeTree B) node depth b,
  MAX_SUBNODE_TREE_DEPTH + 1 - depth < Z.of_nat fuel -> (0 < fuel)%nat ->
  total (descend (E := E) (S := S) f fuel t node depth b).
Proof using Hfind.
  induction fuel as [|fuel IH]; intros t node depth b Hf H0; [lia|]. cbn [descend].
  apply total_check. intros b1 (Hd & _)%sn_observe_spec. destruct t as [c|c]; [|apply total_lift].
  apply total_bind; [apply total_lift|intros e]. apply total_bind; [apply total_lift|intros b2].
  apply total_bind; [apply total_read_child|intros child]. apply IH; lia.
Qed.

(** Every round is paid for by an entry. *)
Lemma total_entries_loop fuel : forall b (pending : list (B * Z)) leaves,
  sn_visited_entries b <= MAX_SUBNODE_TREE_ENTRIES ->
  (Z.to_nat (MAX_SUBNODE_TREE_ENTRIES - sn_visited_entries b) + length pending < fuel)%nat ->
  total (entries_loop (E := E) (S := S) f fuel b pending leaves).
Proof using Hfind.
  induction fuel as [|fuel IH]; intros b pending leaves Hb Hf; [lia|].
  destruct pending as [|[id d] pending]; [apply total_ret|]. cbn [entries_loop length] in *.
  apply total_check. intros b1 [_ ->]%sn_descend_to_spec.
  apply total_bind; [apply total_read_child|intros child].
  apply total_check. intros b2 (_ & Hle & ->)%sn_observe_spec. cbn in Hle.
  destruct child as [c|c]; apply IH; cbn in *; try done; rewrite ?length_app, ?length_map; lia.
Qed.
End termination.

(** ** What the traversals compute *)

(** The result of a walk: leaf entries in order, the ids of the blocks read
    on the way, the number of entries of all blocks; [None] when it fails. *)
Definition walk (B : Type) : Type := option (list (LeafSubNodeTreeEntry B) * list B * Z).
Definition w_nil {B} : walk B := Some ([], [], 0).
Definition w_app {B} (x y : walk B) : walk B :=
  match x, y with
  | Some (l1, i1, n1), Some (l2, i2, n2) => Some (l1 ++ l2, i1 ++ i2, n1 + n2)
  | _, _ => None
  end.

Lemma w_app_assoc {B} (x y z : walk B) : w_app x (w_app y z) = w_app (w_app x y) z.
Proof.
  destruct x as [[[? ?] ?]|], y as [[[? ?] ?]|], z as [[[? ?] ?]|]; cbn; try done.
  by rewrite !app_assoc, Z.add_assoc.
Qed.

Lemma w_app_nil_l {B} (x : walk B) : w_app w_nil x = x.
Proof. by destruct x as [[[? ?] ?]|]. Qed.

Lemma w_app_some {B} (x y : walk B) l i n :
  w_app x y = Some (l, i, n) <-> exists l1 i1 n1 l2 i2 n2,
    x = Some (l1, i1, n1) /\ y = Some (l2, i2, n2) /\ l = l1 ++ l2 /\ i = i1 ++ i2 /\ n = n1 + n2.
Proof.
  split.
  - destruct x as [[[? ?] ?]|], y as [[[? ?] ?]|]; cbn; try done. intros [= <- <- <-]. eauto 12.
  - by intros (? & ? & ? & ? & ? & ? & -> & -> & -> & -> & ->).
Qed.

Section correct.
Set Default Proof Using "Type".
Context {E B I S : Type} `{!BlockId B, !ByteIndex I, !BlockBTreeEntry E B I}.
Context `{!BlockTrailerReadWrite B, !IntermediateTreeHeader (SubNodeTreeBlockHeader B)}.
Context `{!IntermediateTreeEntry (IntermediateSubNodeTreeEntry B)}.
Context `{!IntermediateTreeEntry (LeafSubNodeTreeEntry B), !BlockFind E S}.
Context `{!BlockIdLaws B, !BlockFindLaws E B I S}.
Context (f : list Z).

Definition lookup_child (id : B) : io_result (SubNodeTree B) :=
  let? e := bl_spec (bid_search_key id) in SubNodeTree.read f e.

(** All blocks of the tree, with at most [d] levels below the root. *)
Fixpoint sub_walk (d : nat) (t : SubNodeTree B) : walk B :=
  match t with
  | SubNodeTree_Leaf c => Some (sn_entries c, [], Z.of_nat (length (sn_entries c)))
  | SubNodeTree_Intermediate c =>
      w_app (Some ([], [], Z.of_nat (length (sn_entries c))))
        (foldr (fun e acc => w_app
           match d with
           | O => None
           | Datatypes.S d =>
               match lookup_child (sie_block e) with
               | Ok child => w_app (Some ([], [sie_block e], 0)) (sub_walk d child)
               | _ => None
               end
           end acc) w_nil (sn_entries c))
  end.

(** The same for a block [d] levels below the root, and for a list of
    them. *)
Definition id_walk (id : B) (depth : Z) : walk B :=
  if depth <=? MAX_SUBNODE_TREE_DEPTH then
    match lookup_child id with
    | Ok child => w_app (Some ([], [id], 0))
                    (sub_walk (Z.to_nat (MAX_SUBNODE_TREE_DEPTH - depth)) child)
    | _ => None
    end
  else None.

Definition pending_walk (pending : list (B * Z)) : walk B :=
  foldr (fun p acc => w_app (id_walk p.1 p.2) acc) w_nil pending.

Lemma pending_walk_app p q : pending_walk (p ++ q) = w_app (pending_walk p) (pending_walk q).
Proof.
  unfold pending_walk. induction p as [|x p IH]; cbn [app foldr]; [by rewrite w_app_nil_l|].
  by rewrite IH, w_app_assoc.
Qed.

Definition leaves_of (t : SubNodeTree B) : list (LeafSubNodeTreeEntry B) :=
  match t with SubNodeTree_Leaf c => sn_entries c | SubNodeTree_Intermediate _ => [] end.
Definition kids_of (t : SubNodeTree B) (depth : Z) : list (B * Z) :=
  match t with
  | SubNodeTree_Leaf _ => []
  | SubNodeTree_Intermediate c => map (fun e => (sie_block e, depth)) (sn_entries c)
  end.

Lemma kids_walk g depth (es : list (IntermediateSubNodeTreeEntry B)) :
  (forall e acc, g e acc = w_app (id_walk (sie_block e) depth) acc) ->
  foldr g w_nil es = pending_walk (map (fun e => (sie_block e, depth)) es).
Proof.
  intros Hg. unfold pending_walk. induction es as [|e es IH]; cbn [foldr map]; [done|].
  by rewrite Hg, IH.
Qed.

Lemma sub_walk_kids t depth :
  0 <= depth <= MAX_SUBNODE_TREE_DEPTH ->
  sub_walk (Z.to_nat (MAX_SUBNODE_TREE_DEPTH - depth)) t =
    w_app (Some (leaves_of t, [], entry_count t)) (pending_walk (kids_of t (depth + 1))).
Proof.
  intros Hd. destruct t as [c|c]; cbn [leaves_of kids_of entry_count].
  - destruct (Z.to_nat (MAX_SUBNODE_TREE_DEPTH - depth)) as [|d] eqn:Hn; cbn [sub_walk]; f_equal;
      apply kids_walk; intros e acc; f_equal; unfold id_walk;
      destruct (Z.leb_spec (depth + 1) MAX_SUBNODE_TREE_DEPTH); try done; try lia.
    by replace (Z.to_nat (MAX_SUBNODE_TREE_DEPTH - (depth + 1))) with d by lia.
  - destruct (Z.to_nat _); cbn; by rewrite app_nil_r, Z.add_0_r.
Qed.

(** One round of [entries]. *)
Lemma pending_walk_step id depth t pending :
  lookup_child id = Ok t -> 0 <= depth <= MAX_SUBNODE_TREE_DEPTH ->
  pending_walk ((id, depth) :: pending) =
    w_app (Some (leaves_of t, [id], entry_count t)) (pending_walk (kids_of t (depth + 1) ++ pending)).
Proof.
  intros Ht Hd. unfold pending_walk at 1. cbn [foldr fst snd]. fold (pending_walk pending).
  unfold id_walk.
  destruct (Z.leb_spec depth MAX_SUBNODE_TREE_DEPTH); [|lia]. rewrite Ht, sub_walk_kids by done.
  rewrite pending_walk_app, !w_app_assoc. reflexivity.
Qed.
(** The ids and entries the budget still admits. *)
Definition fits (b : SubNodeTraversalBudget) (ids : list B) (n : Z) : Prop :=
  NoDup ids /\ (forall id, id ∈ ids -> bid_into_u64 id ∉ sn_visited_blocks b) /\
  sn_visited_entries b + n <= MAX_SUBNODE_TREE_ENTRIES.

Definition spent (id : B) (n : Z) (b : SubNodeTraversalBudget) : SubNodeTraversalBudget :=
  mk_SubNodeTraversalBudget ({[ bid_into_u64 id ]} ∪ sn_visited_blocks b) (sn_visited_entries b + n).

Lemma fits_cons b id ids n m :
  0 <= m -> fits b (id :: ids) (n + m) <->
    (bid_into_u64 id ∉ sn_visited_blocks b) /\ sn_visited_entries b + n <= MAX_SUBNODE_TREE_ENTRIES /\
    fits (spent id n b) ids m.
Proof using BlockIdLaws0.
  intros Hm. unfold fits, spent. cbn. split.
  - intros (Hnd & Hv & Hle). apply NoDup_cons in Hnd as [Hn Hnd]. split; [apply Hv; left|].
    split; [lia|]. split; [done|]. split; [|lia]. intros id' Hid'.
    apply not_elem_of_union. split; [|apply Hv; by right].
    intros ->%elem_of_singleton%bid_inj. done.
  - intros (Hn & Hle & Hnd & Hv & Hle2). split_and!; [|..|lia].
    + apply NoDup_cons. split; [|done]. intros Hin. apply (Hv id Hin), elem_of_union_l.
      by apply elem_of_singleton.
    + intros id' [->|Hin]%elem_of_cons; [done|]. intros Hv'. apply (Hv id' Hin). by apply elem_of_union_r.
Qed.

Definition counted (w : walk B) : Prop := match w with Some (_, _, n) => 0 <= n | None => True end.

Lemma counted_app x y : counted x -> counted y -> counted (w_app x y).
Proof. destruct x as [[[? ?] ?]|], y as [[[? ?] ?]|]; cbn; lia. Qed.

Lemma counted_foldr {A} (g : A -> walk B) l :
  (forall a, counted (g a)) -> counted (foldr (fun a acc => w_app (g a) acc) w_nil l).
Proof.
  intros Hg. induction l as [|a l IH]; cbn; [lia|]. by apply counted_app.
Qed.

Lemma counted_sub_walk d : forall t, counted (sub_walk d t).
Proof.
  induction d as [|d IH]; intros [c|c]; cbn [sub_walk]; try (cbn; lia);
    (apply counted_app; [cbn; lia|]); apply counted_foldr; intros e; [done|].
  destruct (lookup_child _); try done. apply counted_app; [cbn; lia|apply IH].
Qed.

Lemma counted_pending p : counted (pending_walk p).
Proof.
  apply counted_foldr. intros [id d]. unfold id_walk. destruct (_ <=? _); [|done].
  destruct (lookup_child _); try done. apply counted_app; [cbn; lia|apply counted_sub_walk].
Qed.

Lemma computes_read_child id :
  computes bl_inv (read_child (E := E) f id) (fun t => lookup_child id = Ok t).
Proof.
  eapply computes_iff; [|eapply (computes_bind _ _ _ (fun e => bl_spec (bid_search_key id) = Ok e));
    [|intros e _; apply computes_lift]].
  - intros t. cbn beta. unfold lookup_child. by rewrite rbind_ok.
  - intros s Hs. destruct (bl_ok (bid_search_key id) s Hs) as (s' & Hf & Hs'). by exists (bl_spec (bid_search_key id)), s'.
Qed.

Lemma computes_entries_loop fuel : forall b pending leaves,
  sn_visited_entries b <= MAX_SUBNODE_TREE_ENTRIES ->
  Forall (fun p => 0 <= p.2) pending ->
  (Z.to_nat (MAX_SUBNODE_TREE_ENTRIES - sn_visited_entries b) + length pending < fuel)%nat ->
  computes bl_inv (entries_loop (E := E) f fuel b pending leaves) (fun r => exists ls ids n,
    pending_walk pending = Some (ls, ids, n) /\ r = leaves ++ ls /\ fits b ids n).
Proof using BlockIdLaws0.
  induction fuel as [|fuel IH]; intros b pending leaves Hb Hpos Hf; [lia|].
  destruct pending as [|[id d] pending]; cbn [entries_loop length] in *.
  - eapply computes_iff; [|apply computes_ret]. intros r. cbn beta. split.
    + intros ->. exists [], [], 0. split; [done|]. split; [by rewrite app_nil_r|].
      split; [constructor|]. split; [by intros ? ?%elem_of_nil|lia].
    + intros (ls & ids & n & [= <- <- <-] & -> & _). by rewrite app_nil_r.
  - apply Forall_cons in Hpos as [Hd Hpos]. cbn in Hd.
    eapply computes_iff; [|eapply (computes_bind _ _ _ _ (fun b1 r => exists t,
      lookup_child id = Ok t /\ exists b2,
      SubNodeTraversalBudget.observe_tree d (entry_count t) b1 = Ok b2 /\
      exists ls ids n, pending_walk (kids_of t (d + 1) ++ pending) = Some (ls, ids, n) /\
        r = (leaves ++ leaves_of t) ++ ls /\ fits b2 ids n)); [apply computes_lift|]].
    + intros r. cbn beta. split.
      * intros (b1 & [Hn ->]%sn_descend_to_spec & t & Ht & b2 & (Hmax & Hle & ->)%sn_observe_spec &
          ls & ids & n & Hw & -> & Hfit). cbn in Hle, Hfit.
        exists (leaves_of t ++ ls), (id :: ids), (entry_count t + n).
        rewrite (pending_walk_step id d t) by done. split; [by rewrite Hw|].
        split; [by rewrite app_assoc|]. apply fits_cons; [|done].
        assert (Hc := counted_pending (kids_of t (d + 1) ++ pending)). by rewrite Hw in Hc.
      * intros (ls & ids & n & Hw & -> & Hfit).
        assert (exists t, lookup_child id = Ok t /\ d <= MAX_SUBNODE_TREE_DEPTH) as (t & Ht & Hmax).
        { unfold pending_walk in Hw. cbn [foldr fst snd] in Hw. unfold id_walk in Hw.
          destruct (Z.leb_spec d MAX_SUBNODE_TREE_DEPTH); [|done].
          destruct (lookup_child id); [eauto|done..]. }
        rewrite (pending_walk_step id d t) in Hw by done.
        apply w_app_some in Hw as (l1 & i1 & n1 & l2 & i2 & n2 & [= <- <- <-] & Hw & -> & -> & ->).
        assert (Hc := counted_pending (kids_of t (d + 1) ++ pending)). rewrite Hw in Hc.
        apply fits_cons in Hfit as (Hn & Hle & Hfit); [|done].
        eexists. split; [by apply sn_descend_to_spec|]. exists t. split; [done|].
        eexists. split; [by apply sn_observe_spec|]. exists l2, i2, n2. by rewrite <- app_assoc.
    + intros b1 [Hn ->]%sn_descend_to_spec. eapply computes_bind; [apply computes_read_child|].
      intros t _. eapply computes_bind; [apply computes_lift|].
      intros b2 (Hmax & Hle & ->)%sn_observe_spec. cbn in Hle.
      destruct t as [c|c]; cbn [leaves_of kids_of entry_count app] in *.
      * rewrite app_nil_r. apply IH; [done| |cbn; rewrite length_app, length_map; lia].
        apply Forall_app. split; [|done]. apply Forall_map, Forall_forall. intros e _. cbn. lia.
      * apply IH; [done|done|]. cbn. lia.
Qed.

(** The specification of [entries]: all leaf entries, in order, of a tree
    whose blocks can be read, occur once, and have at most 4096 entries over
    at most 33 levels. *)
Definition tree_leaves (t : SubNodeTree B) (ls : list (LeafSubNodeTreeEntry B)) : Prop :=
  exists ids n, sub_walk (Z.to_nat MAX_SUBNODE_TREE_DEPTH) t = Some (ls, ids, n) /\
    NoDup ids /\ n <= MAX_SUBNODE_TREE_ENTRIES.

Lemma computes_entries (t : SubNodeTree B) :
  computes bl_inv (entries (E := E) f t) (tree_leaves t).
Proof using BlockIdLaws0.
  unfold entries, tree_leaves.
  assert (Hw0 : sub_walk (Z.to_nat MAX_SUBNODE_TREE_DEPTH) t =
    w_app (Some (leaves_of t, [], entry_count t)) (pending_walk (kids_of t 1)))
    by exact (sub_walk_kids t 0 ltac:(done)).
  rewrite Hw0.
  eapply computes_iff; [|eapply (computes_bind _ _ _ _ (fun b r => exists ls ids n,
    pending_walk (kids_of t 1) = Some (ls, ids, n) /\ r = leaves_of t ++ ls /\ fits b ids n));
    [apply computes_lift|]].
  - intros r. cbn beta. setoid_rewrite w_app_some. setoid_rewrite sn_observe_spec. cbn. split.
    + intros (b & (_ & Hle & ->) & ls & ids & n & Hw & -> & Hnd & _ & Hn). cbn in Hn.
      exists ids, (entry_count t + n). split; [by eauto 12|]. by split.
    + intros (ids & n & (l1 & i1 & n1 & l2 & i2 & n2 & [= <- <- <-] & Hw & -> & -> & ->) & Hnd & Hle).
      assert (Hc := counted_pending (kids_of t 1)). rewrite Hw in Hc. cbn in Hc, Hnd.
      eexists. split; [split_and!; [done| |done]; cbn; lia|]. exists l2, i2, n2.
      split; [done|]. split; [done|]. split; [done|]. split; [|cbn; lia].
      intros ? _. apply not_elem_of_empty.
  - intros b (_ & Hle & ->)%sn_observe_spec. destruct t as [c|c]; cbn [leaves_of kids_of].
    + cbn in Hle. apply computes_entries_loop; [done| |].
      * apply Forall_map, Forall_forall. intros e _. cbn. lia.
      * cbn. rewrite length_map. lia.
    + eapply computes_iff; [|apply computes_ret]. intros r. split.
      * intros ->. exists [], [], 0. split; [done|]. split; [by rewrite app_nil_r|].
        split; [constructor|]. split; [by intros ? ?%elem_of_nil|]. cbn in *. lia.
      * intros (ls & ids & n & [= <- <- <-] & -> & _). by rewrite app_nil_r.
Qed.
(** ** Searching for a node *)

Definition inner_key (e : IntermediateSubNodeTreeEntry B) : Z := node_id_0 (sie_node e).
Definition leaf_key (e : LeafSubNodeTreeEntry B) : Z := node_id_0 (LeafSubNodeTreeEntry.node e).
Definition child_tree (e : IntermediateSubNodeTreeEntry B) (t : SubNodeTree B) : Prop :=
  lookup_child (sie_block e) = Ok t.

(** A tree of [d] inner levels over the node ids [[lo..hi)]. *)
Fixpoint ordered_tree (d : nat) (t : SubNodeTree B) (lo hi : Z) (ls : list (LeafSubNodeTreeEntry B)) :
    Prop :=
  match d, t with
  | O, SubNodeTree_Leaf c => ls = sn_entries c /\ keys_in leaf_key lo hi ls
  | Datatypes.S d, SubNodeTree_Intermediate c =>
      children inner_key child_tree (ordered_tree d) (sn_entries c) lo hi ls
  | _, _ => False
  end.

Definition node_lookup (ls : list (LeafSubNodeTreeEntry B)) (node : NodeId) :
    io_result (LeafSubNodeTreeEntry B) :=
  match List.find (fun e => leaf_key e =? node_id_0 node) ls with
  | Some e => Ok e
  | None => Err (NdbData (SubNodeNotFound node))
  end.

Lemma ordered_keys d : forall t lo hi ls, ordered_tree d t lo hi ls -> keys_in leaf_key lo hi ls.
Proof.
  induction d as [|d IH]; intros [c|c] lo hi ls; cbn; try done; [by intros [_ ?]|].
  by apply children_keys.
Qed.

(** The walk of an inner block fits only if that of each child does. *)
Lemma fits_child depth c e b ls ids n :
  0 <= depth <= MAX_SUBNODE_TREE_DEPTH ->
  sub_walk (Z.to_nat (MAX_SUBNODE_TREE_DEPTH - depth)) (SubNodeTree_Intermediate c) = Some (ls, ids, n) ->
  fits b ids n -> e ∈ sn_entries c ->
  exists child ls1 ids1 n1, lookup_child (sie_block e) = Ok child /\
    depth + 1 <= MAX_SUBNODE_TREE_DEPTH /\
    sub_walk (Z.to_nat (MAX_SUBNODE_TREE_DEPTH - (depth + 1))) child = Some (ls1, ids1, n1) /\
    sn_visited_entries b + Z.of_nat (length (sn_entries c)) <= MAX_SUBNODE_TREE_ENTRIES /\
    (bid_into_u64 (sie_block e) ∉ sn_visited_blocks b) /\
    fits (spent (sie_block e) (Z.of_nat (length (sn_entries c))) b) ids1 n1.
Proof using BlockIdLaws0.
  intros Hd Hw Hfit He. rewrite sub_walk_kids in Hw by done. cbn [leaves_of kids_of entry_count] in Hw.
  apply list_elem_of_split in He as (es1 & es2 & Hes). rewrite Hes, map_app, pending_walk_app in Hw.
  rewrite <- Hes in Hw. cbn [map] in Hw. unfold pending_walk at 2 in Hw. cbn [foldr fst snd] in Hw.
  fold (pending_walk (map (fun e => (sie_block e, depth + 1)) es2)) in Hw.
  assert (Hc1 := counted_pending (map (fun e => (sie_block e, depth + 1)) es1)).
  assert (Hc2 := counted_pending (map (fun e => (sie_block e, depth + 1)) es2)).
  apply w_app_some in Hw as (l0 & i0 & n0 & l & i & m & [= <- <- <-] & Hw & -> & -> & ->).
  apply w_app_some in Hw as (la & ia & na & lb & ib & nb & Ha & Hb & -> & -> & ->).
  apply w_app_some in Hb as (lc & ic & nc & ld & id & nd & Hc & Hdd & -> & -> & ->).
  rewrite Ha in Hc1. rewrite Hdd in Hc2. cbn in Hc1, Hc2. unfold id_walk in Hc.
  destruct (Z.leb_spec (depth + 1) MAX_SUBNODE_TREE_DEPTH); [|done].
  destruct (lookup_child (sie_block e)) as [child|x|] eqn:Hch; [|done..].
  assert (Hc3 := counted_sub_walk (Z.to_nat (MAX_SUBNODE_TREE_DEPTH - (depth + 1))) child).
  apply w_app_some in Hc as (? & ? & ? & l1 & i1 & n1 & [= <- <- <-] & Hc & -> & -> & ->).
  rewrite Hc in Hc3. cbn in Hc3. destruct Hfit as (Hnd & Hv & Hle). cbn [app] in *.
  exists child, l1, i1, n1. split; [done|]. split; [done|]. split; [done|]. split; [lia|].
  apply NoDup_app in Hnd as (_ & _ & Hnd).
  change (NoDup ((sie_block e :: i1) ++ id)) in Hnd. apply NoDup_app in Hnd as (Hnd & _ & _).
  assert (Hfit : fits b (sie_block e :: i1) (Z.of_nat (length (sn_entries c)) + n1)).
  { split; [done|]. split; [|lia]. intros id' Hid'. apply Hv, elem_of_app. right.
    change (id' ∈ (sie_block e :: i1) ++ id). apply elem_of_app. by left. }
  apply fits_cons in Hfit as (? & _ & ?); done.
Qed.

Lemma descend_ordered d : forall fuel t lo hi ls node depth b s ls' ids n,
  bl_inv s -> ordered_tree d t lo hi ls -> 0 <= depth <= MAX_SUBNODE_TREE_DEPTH -> (d < fuel)%nat ->
  sub_walk (Z.to_nat (MAX_SUBNODE_TREE_DEPTH - depth)) t = Some (ls', ids, n) -> fits b ids n ->
  exists s', descend (E := E) f fuel t node depth b s = Some (node_lookup ls node, s') /\ bl_inv s'.
Proof using BlockIdLaws0.
  induction d as [|d IH]; intros [|fuel] [c|c] lo hi ls node depth b s ls' ids n Hs Ht Hd Hf Hw Hfit;
    try done; try lia; cbn [descend ordered_tree] in *.
  - destruct Ht as [-> _]. rewrite sub_walk_kids in Hw by done. injection Hw as <- <- <-.
    unfold m_bind, m_lift. destruct Hfit as (_ & _ & Hle). cbn [entry_count] in *. rewrite Z.add_0_r in Hle.
    rewrite (proj2 (sn_observe_spec _ _ _ _) (conj (proj2 Hd) (conj Hle eq_refl))).
    exists s. split; [|done]. unfold node_lookup. by destruct (List.find _ _).
  - assert (Hle : sn_visited_entries b + Z.of_nat (length (sn_entries c)) <= MAX_SUBNODE_TREE_ENTRIES).
    { destruct Hfit as (_ & _ & Hle). rewrite sub_walk_kids in Hw by done.
      assert (Hc := counted_pending (kids_of (SubNodeTree_Intermediate c) (depth + 1))).
      apply w_app_some in Hw as (? & ? & ? & ? & ? & ? & [= <- <- <-] & Hw & -> & -> & ->).
      rewrite Hw in Hc. cbn in *. lia. }
    unfold m_bind at 1, m_lift at 1. cbn [entry_count].
    rewrite (proj2 (sn_observe_spec _ _ _ _) (conj (proj2 Hd) (conj Hle eq_refl))).
    assert (Hch := children_choose inner_key leaf_key child_tree _ _ lo hi ls (node_id_0 node)
      (ordered_keys d) Ht). unfold node_lookup.
    assert (Hfold : match partition_point (fun entry => node_id_0 (sie_node entry) <=? node_id_0 node)
      (sn_entries c) with O => None | Datatypes.S i => sn_entries c !! i end =
      choose inner_key (node_id_0 node) (sn_entries c)) by done. rewrite Hfold. clear Hfold.
    destruct (choose inner_key (node_id_0 node) (sn_entries c)) as [e|] eqn:Hce;
      [|rewrite Hch; by exists s].
    destruct Hch as (child & mid & es1 & Hchild & Hord & ->).
    destruct (fits_child depth c e b ls' ids n) as (child' & l1 & i1 & n1 & Hc' & Hd1 & Hw1 & _ & Hn & Hfit1);
      [done..|by eapply choose_elem|].
    unfold child_tree in Hchild. rewrite Hchild in Hc'. injection Hc' as <-.
    unfold m_bind at 1, m_lift at 1. cbn [ok_or ndb rmap_err].
    unfold m_bind at 1, m_lift at 1.
    rewrite (proj2 (sn_descend_to_spec _ (mk_SubNodeTraversalBudget (sn_visited_blocks b) _) _)
      (conj Hn eq_refl)).
    destruct (computes_read_child (sie_block e) s Hs) as (r & s1 & Hr & Hs1 & Hspec).
    apply Hspec in Hchild as ->. unfold m_bind at 1. rewrite Hr.
    destruct (IH fuel child (inner_key e) mid es1 node (depth + 1) _ s1 l1 i1 n1 Hs1 Hord
      ltac:(lia) ltac:(lia) Hw1 Hfit1) as (s2 & Hrun & Hs2). exists s2. by split; [exact Hrun|].
Qed.
Lemma find_leaf_entry_ordered (t : SubNodeTree B) (node : NodeId) (s : S) (d : nat) (lo hi : Z)
    (ls : list (LeafSubNodeTreeEntry B)) :
  bl_inv (E := E) s -> ordered_tree d t lo hi ls -> Z.of_nat d <= MAX_SUBNODE_TREE_DEPTH ->
  tree_leaves t ls ->
  exists s', find_leaf_entry_bounded (E := E) f t node s = Some (node_lookup ls node, s') /\
    bl_inv (E := E) s'.
Proof using BlockIdLaws0.
  intros Hs Horder Hd (ids & n & Hw & Hnd & Hle). unfold find_leaf_entry_bounded.
  eapply (descend_ordered d _ t lo hi ls node 0); [done..| |exact Hw|].
  - unfold MAX_SUBNODE_TREE_DEPTH in *. lia.
  - split; [done|]. split; [|done]. intros ? _. apply not_elem_of_empty.
Qed.
End correct.

(** ** A concrete tree *)

Definition sample_leaf (id : Z) (nodes : list Z) : SubNodeTree UnicodeBlockId :=
  SubNodeTree_Leaf (mk_SubNodeTreeBlock (mk_SubNodeTreeBlockHeader 0 (Z.of_nat (length nodes)))
    (map (fun n => LeafSubNodeTreeEntry.new (mk_NodeId n) (mk_UnicodeBlockId (4 * n)) None) nodes)
    (mk_BlockTrailer 0 0 0 (mk_UnicodeBlockId id))).

Definition sample_root_tree (kids : list (Z * Z)) : SubNodeTree UnicodeBlockId :=
  SubNodeTree_Intermediate
    (mk_SubNodeTreeBlock (mk_SubNodeTreeBlockHeader 1 (Z.of_nat (length kids)))
      (map (fun '(n, id) => mk_IntermediateSubNodeTreeEntry (mk_NodeId n) (mk_UnicodeBlockId id)) kids)
      (mk_BlockTrailer 0 0 0 (mk_UnicodeBlockId 2))).

Definition sample_entries : list UnicodeBlockBTreeEntry.t :=
  [sample_entry 6 0 56; sample_entry 10 128 32].

Definition sample_file : list Z :=
  match
    (let? w := SubNodeTree.write (sample_leaf 6 [0x671; 0x692]) (sample_entry 6 0 56) (mk_wfile [] 0) in
     SubNodeTree.write (sample_leaf 10 [0x8025]) (sample_entry 10 128 32) w)
  with Ok w => wf_data w | _ => [] end.

Definition sample_root : RootBTreePage.t (P := Errors.BlockBTree) (LE := UnicodeBlockBTreeEntry.t)
    (B := UnicodePageId) (I := UnicodeByteIndex) :=
  Leaf (mk_BTreeLeafPage 20 24 sample_entries (sample_trailer Errors.BlockBTree 1)).

Definition sample_find := btree_find sample_file sample_root 1.
#[local] Existing Instance sample_find.

Definition sample_laws : BlockFindLaws UnicodeBlockBTreeEntry.t UnicodeBlockId UnicodeByteIndex _.
Proof.
  refine (btree_find_laws sample_file sample_root 1 (fun _ => False) 0 0 0x100 sample_entries
    _ _ _ unicode_block_key).
  - by intros r1 r2 H.
  - split; [done|]. apply Forall_forall. intros e He.
    unfold sample_entries in He. rewrite !elem_of_cons in He.
    destruct He as [-> | [-> | He%elem_of_nil]]; done.
  - lia.
Defined.
#[local] Existing Instance sample_laws.

Definition sample_pages : RootBTreePage.cache (P := Errors.BlockBTree)
  (LE := UnicodeBlockBTreeEntry.t) (B := UnicodePageId) (I := UnicodeByteIndex) := ∅.

Lemma sample_inv : bl_inv (E := UnicodeBlockBTreeEntry.t) sample_pages.
Proof. intros r p _ H. exfalso. exact (lookup_empty_Some (M := gmap Z) _ _ H). Qed.

Definition sample_tree : SubNodeTree UnicodeBlockId := sample_root_tree [(0x671, 6); (0x8025, 10)].
Definition sample_leaves : list (LeafSubNodeTreeEntry UnicodeBlockId) :=
  leaves_of (sample_leaf 6 [0x671; 0x692]) ++ leaves_of (sample_leaf 10 [0x8025]).

(** ** Properties *)

(** C29: when every lookup in the block B-tree ends, so do the search for a
    node and the list of all entries, whatever the blocks hold: the depth
    bounds the one, the number of entries the other. *)
Theorem sub_node_traversals_terminate {E B I S : Type}
    `{!BlockId B, !ByteIndex I, !BlockBTreeEntry E B I}
    `{!BlockTrailerReadWrite B, !IntermediateTreeHeader (SubNodeTreeBlockHeader B)}
    `{!IntermediateTreeEntry (IntermediateSubNodeTreeEntry B)}
    `{!IntermediateTreeEntry (LeafSubNodeTreeEntry B), !BlockFind E S}
    (f : list Z) (t : SubNodeTree B) (node : NodeId) (s : S)
    (Hfind : forall k (s : S), bl_find (E := E) k s <> None) :
  find_leaf_entry_bounded (E := E) f t node s <> None /\ find_entry (E := E) f t node s <> None /\
  entries (E := E) f t s <> None.
Proof.
  assert (Hd : total (find_leaf_entry_bounded (E := E) (S := S) f t node)).
  { apply total_descend; [done|unfold MAX_SUBNODE_TREE_DEPTH; lia|lia]. }
  split_and!; [apply Hd|by apply total_bind; [|intros; apply total_ret]|].
  revert s. apply total_check. intros b (_ & Hle & ->)%sn_observe_spec.
  destruct t as [c|c]; [|apply total_ret]. apply total_entries_loop; [done..|].
  cbn in *. rewrite length_map. lia.
Qed.

(** A tree that is its own child. *)
Lemma sub_node_traversals_terminate_witness :
  find_leaf_entry_bounded (E := UnicodeBlockBTreeEntry.t) sample_file
    (sample_root_tree [(0, 6); (1, 6)]) (mk_NodeId 5) sample_pages <> None /\
  find_entry (E := UnicodeBlockBTreeEntry.t) sample_file (sample_root_tree [(0, 6); (1, 6)])
    (mk_NodeId 5) sample_pages <> None /\
  entries (E := UnicodeBlockBTreeEntry.t) sample_file (sample_root_tree [(0, 6); (1, 6)])
    sample_pages <> None.
Proof.
  apply sub_node_traversals_terminate. intros k s. cbn.
  by destruct (_ =? k); [|destruct (_ =? k)].
Defined.

(** [entries] returns all leaf entries of the tree in order, exactly
    when every block is found and read, none occurs twice, no block is more
    than 32 levels below the root and the blocks have at most 4096 entries
    together. *)
Theorem entries_correct {E B I S : Type} `{!BlockId B, !ByteIndex I, !BlockBTreeEntry E B I}
    `{!BlockTrailerReadWrite B, !IntermediateTreeHeader (SubNodeTreeBlockHeader B)}
    `{!IntermediateTreeEntry (IntermediateSubNodeTreeEntry B)}
    `{!IntermediateTreeEntry (LeafSubNodeTreeEntry B), !BlockFind E S}
    `{!BlockIdLaws B, !BlockFindLaws E B I S}
    (f : list Z) (t : SubNodeTree B) (s : S) (Hs : bl_inv (E := E) s) :
  exists r s', entries (E := E) f t s = Some (r, s') /\ bl_inv (E := E) s' /\
    forall ls, r = Ok ls <-> tree_leaves f t ls.
Proof. by apply computes_entries. Qed.

Lemma entries_correct_witness : tree_leaves sample_file sample_tree sample_leaves.
Proof.
  destruct (entries_correct (E := UnicodeBlockBTreeEntry.t) sample_file sample_tree sample_pages
    sample_inv) as (r & s' & Hr & _ & Hls).
  apply Hls. vm_compute in Hr. by injection Hr as <- _.
Defined.

(** C23: on a tree with ascending node ids that fits the budget, the search
    for a node returns the leaf entry of the node, and [SubNodeNotFound]
    with the node when there is none: it agrees with a search of the list of
    all leaf entries. *)
Theorem find_leaf_entry_correct {E B I S : Type}
    `{!BlockId B, !ByteIndex I, !BlockBTreeEntry E B I}
    `{!BlockTrailerReadWrite B, !IntermediateTreeHeader (SubNodeTreeBlockHeader B)}
    `{!IntermediateTreeEntry (IntermediateSubNodeTreeEntry B)}
    `{!IntermediateTreeEntry (LeafSubNodeTreeEntry B), !BlockFind E S}
    `{!BlockIdLaws B, !BlockFindLaws E B I S}
    (f : list Z) (t : SubNodeTree B) (node : NodeId) (s : S) (d : nat) (lo hi : Z)
    (ls : list (LeafSubNodeTreeEntry B)) (Hs : bl_inv (E := E) s)
    (Horder : ordered_tree f d t lo hi ls) (Hd : Z.of_nat d <= MAX_SUBNODE_TREE_DEPTH)
    (Hfits : tree_leaves f t ls) :
  exists s', find_leaf_entry_bounded (E := E) f t node s = Some (node_lookup ls node, s') /\
    bl_inv (E := E) s'.
Proof.
  by apply (find_leaf_entry_ordered f t node s d lo hi ls).
Qed.

Lemma find_leaf_entry_correct_witness :
  exists s', find_leaf_entry_bounded (E := UnicodeBlockBTreeEntry.t) sample_file sample_tree
      (mk_NodeId 0x692) sample_pages =
    Some (Ok (LeafSubNodeTreeEntry.new (mk_NodeId 0x692) (mk_UnicodeBlockId (4 * 0x692)) None), s') /\
    bl_inv (E := UnicodeBlockBTreeEntry.t) s'.
Proof.
  apply (find_leaf_entry_correct (E := UnicodeBlockBTreeEntry.t) sample_file sample_tree
    (mk_NodeId 0x692) sample_pages 1 0 0x10000 sample_leaves sample_inv); [|done|].
  - cbn [ordered_tree sample_tree sample_root_tree sn_entries map children].
    eexists _, 0x8025, (leaves_of (sample_leaf 6 [0x671; 0x692])), (leaves_of (sample_leaf 10 [0x8025])).
    split; [vm_compute; split; discriminate|]. split; [vm_compute; discriminate|].
    split; [vm_compute; reflexivity|].
    split; [split; [reflexivity|repeat constructor; vm_compute; done]|]. split; [|reflexivity].
    eexists _, 0x10000, (leaves_of (sample_leaf 10 [0x8025])), [].
    split; [vm_compute; split; discriminate|]. split; [vm_compute; discriminate|].
    split; [vm_compute; reflexivity|].
    split; [split; [reflexivity|repeat constructor; vm_compute; done]|]. done.
  - destruct (computes_entries (E := UnicodeBlockBTreeEntry.t) sample_file sample_tree sample_pages
      sample_inv) as (r & s' & Hr & _ & Hls).
    apply Hls. vm_compute in Hr. by injection Hr as <- _.
Defined.
