(* ===== verification/Amap.v ===== *)
(** * Allocation maps of a file

    The offsets of the map pages of a file and the marking of pages and
    blocks in the allocation maps: the constants, [mark_page_allocation]
    and [mark_block_allocation] of [lib.rs]. *)
From S2P Require Import Prelude Errors Io Encode Ids Header Page FreeBits BTree Block.

Definition AMAP_FIRST_OFFSET : Z := 0x4400.
(** [size_of::<MapBits>() * 8 * 64]: the bytes the bits of one page stand
    for. *)
Definition AMAP_DATA_SIZE : Z := 496 * 8 * 64.

Definition PMAP_FIRST_OFFSET : Z := AMAP_FIRST_OFFSET + PAGE_SIZE.
Definition PMAP_PAGE_COUNT : Z := 8.
Definition PMAP_DATA_SIZE : Z := AMAP_DATA_SIZE * PMAP_PAGE_COUNT.

Definition FMAP_FIRST_SIZE : Z := 128.
Definition FMAP_FIRST_DATA_SIZE : Z := AMAP_DATA_SIZE * FMAP_FIRST_SIZE.
Definition FMAP_FIRST_OFFSET : Z := AMAP_FIRST_OFFSET + FMAP_FIRST_DATA_SIZE + 2 * PAGE_SIZE.
Definition FMAP_PAGE_COUNT : Z := 496.
Definition FMAP_DATA_SIZE : Z := AMAP_DATA_SIZE * FMAP_PAGE_COUNT.

Definition FPMAP_FIRST_SIZE : Z := 128 * 64.
Definition FPMAP_FIRST_DATA_SIZE : Z := AMAP_DATA_SIZE * FPMAP_FIRST_SIZE.
Definition FPMAP_FIRST_OFFSET : Z := AMAP_FIRST_OFFSET + FPMAP_FIRST_DATA_SIZE + 2 * PAGE_SIZE.
Definition FPMAP_PAGE_COUNT : Z := 496 * 64.
Definition FPMAP_DATA_SIZE : Z := AMAP_DATA_SIZE * FPMAP_PAGE_COUNT.

Definition pmap_page_count (amap_pages : Z) : Z := div_ceil amap_pages PMAP_PAGE_COUNT.

(** ** Marking *)

(** [bytes[i] |= m] *)
Definition or_byte (bytes : list Z) (i m : Z) : io_result (list Z) :=
  let? b := index bytes i in Ok (<[Z.to_nat i := Z.lor b m]> bytes).

(** [bytes[i] = 0xFF] *)
Definition set_byte (bytes : list Z) (i : Z) : io_result (list Z) :=
  let? b := index bytes i in Ok (<[Z.to_nat i := 0xFF]> bytes).

(** [for byte in bytes[a..b].iter_mut() { *byte = 0xFF; }], [a <= b] *)
Definition fill_bytes (bytes : list Z) (a b : Z) : io_result (list Z) :=
  if Z.of_nat (length bytes) <? b then Panic else
  Ok (take (Z.to_nat a) bytes ++ replicate (Z.to_nat (b - a)) 0xFF ++ drop (Z.to_nat b) bytes).

(** [let mask = 0x80 >> i; mask | (mask - 1)], on [u8]. *)
Definition mask_from (i : Z) : Z :=
  let mask := Z.shiftr 0x80 i in Z.lor mask (mask - 1).

(** The bits of a page at [index]. *)
Definition mark_page_bits (index : Z) (bytes : list Z) : io_result (list Z) :=
  let bit_index := index mod AMAP_DATA_SIZE / 64 in
  let byte_index := bit_index / 8 in
  let bit_index := bit_index mod 8 in
  if bit_index =? 0 then set_byte bytes byte_index
  else
    let mask := mask_from bit_index in
    let? bytes := or_byte bytes byte_index mask in
    or_byte bytes (byte_index + 1) (lnot_w 8 mask).

(** The bits of a block of [size] bytes at [index]. *)
Definition mark_block_bits (index size : Z) (bytes : list Z) : io_result (list Z) :=
  let bit_start := index mod AMAP_DATA_SIZE / 64 in
  let bit_end := bit_start + size / 64 in
  let byte_start := bit_start / 8 in
  let bit_start := bit_start mod 8 in
  let byte_end := bit_end / 8 in
  let bit_end := bit_end mod 8 in
  if byte_start =? byte_end then
    if bit_start <? bit_end then
      let mask_start := mask_from bit_start in
      let mask_end := lnot_w 8 (mask_from bit_end) in
      or_byte bytes byte_start (Z.land mask_start mask_end)
    else Ok bytes
  else
    let? '(bytes, byte_start) :=
      if bit_start =? 0 then Ok (bytes, byte_start)
      else let? bytes := or_byte bytes byte_start (mask_from bit_start) in
           Ok (bytes, byte_start + 1) in
    let? bytes :=
      if negb (bit_end =? 0) then or_byte bytes byte_end (lnot_w 8 (mask_from bit_end))
      else Ok bytes in
    if byte_start <? byte_end then fill_bytes bytes byte_start byte_end else Ok bytes.

(** [AllocationMapPage] and the other map pages of a format: their bits,
    which a caller can change in place, and how they are built and
    written. *)
Class MapPage (MP B : Type) := {
  mp_new : PageType -> list Z -> PageTrailer B -> NdbResult MP;
  mp_bits : MP -> list Z;
  mp_set_bits : list Z -> MP -> MP;
  mp_trailer : MP -> PageTrailer B;
  mp_write : PageType -> MP -> io_result (list Z)
}.

#[export] Instance UnicodeMapPage_map : MapPage UnicodeMapPage.t UnicodePageId := {|
  mp_new t := UnicodeMapPage.new (PageType_as_u8 t);
  mp_bits := UnicodeMapPage.map_bits;
  mp_set_bits bits p := UnicodeMapPage.mk bits (UnicodeMapPage.trailer p);
  mp_trailer := UnicodeMapPage.trailer;
  mp_write _ p := Ok (UnicodeMapPage.write p)
|}.

#[export] Instance AnsiMapPage_map : MapPage AnsiMapPage.t AnsiPageId := {|
  mp_new := AnsiMapPage.new;
  mp_bits := AnsiMapPage.map_bits;
  mp_set_bits bits p := AnsiMapPage.mk bits (AnsiMapPage.trailer p) (AnsiMapPage.padding p);
  mp_trailer := AnsiMapPage.trailer;
  mp_write t := match t with
    | FreeMap => AnsiMapPage.fmap_write
    | FreePageMap => AnsiMapPage.fpmap_write
    | AllocationPageMap => AnsiMapPage.pmap_write
    | _ => AnsiMapPage.amap_write
    end
|}.

(** [AllocationMapPageInfo]: an allocation map page and the free bytes
    counted for it. *)
Record AllocationMapPageInfo (MP : Type) := mk_AllocationMapPageInfo {
  ai_amap_page : MP;
  ai_free_space : Z
}.
Arguments mk_AllocationMapPageInfo {MP}.
Arguments ai_amap_page {MP}.
Arguments ai_free_space {MP}.

(** [max_free_slots]: the longest free run, as a [u8]. *)
Definition max_free_slots {MP B} `{!MapPage MP B} (info : AllocationMapPageInfo MP) : io_result Z :=
  let? r := find_free_bits (mp_bits (ai_amap_page info)) 0xFF in
  let len := Z.max 0 (r_len r) in
  Ok (if len <? 256 then len else 0xFF).

(** [entry.free_space -= size] and the update of its bits. *)
Definition mark_entry {MP B} `{!MapPage MP B} (mark : list Z -> io_result (list Z)) (size : Z)
    (entry : AllocationMapPageInfo MP) : io_result (AllocationMapPageInfo MP) :=
  let? bits := mark (mp_bits (ai_amap_page entry)) in
  Ok (mk_AllocationMapPageInfo (mp_set_bits bits (ai_amap_page entry))
        (wrapping_sub 64 (ai_free_space entry) size)).

Definition mark_page_allocation {MP B} `{!MapPage MP B} (index : Z)
    (amap_pages : list (AllocationMapPageInfo MP)) : io_result (list (AllocationMapPageInfo MP)) :=
  let index := wrapping_sub 64 index AMAP_FIRST_OFFSET in
  let amap_index := index / AMAP_DATA_SIZE in
  let? entry := pst (ok_or (amap_pages !! Z.to_nat amap_index)
                       (AllocationMapPageNotFound amap_index)) in
  let? entry := mark_entry (mark_page_bits index) PAGE_SIZE entry in
  Ok (<[Z.to_nat amap_index := entry]> amap_pages).

(** [SIZE] is that of the block trailer of the format. *)
Definition mark_block_allocation {MP B} `{!MapPage MP B} (SIZE index size : Z)
    (amap_pages : list (AllocationMapPageInfo MP)) : io_result (list (AllocationMapPageInfo MP)) :=
  let index := wrapping_sub 64 index AMAP_FIRST_OFFSET in
  let amap_index := index / AMAP_DATA_SIZE in
  let? entry := pst (ok_or (amap_pages !! Z.to_nat amap_index)
                       (AllocationMapPageNotFound amap_index)) in
  let? size := ndb (ok_or (checked_add 16 size SIZE) (InvalidBlockSize size)) in
  let? size := block_size size in
  let? entry := mark_entry (mark_block_bits index size) size entry in
  Ok (<[Z.to_nat amap_index := entry]> amap_pages).

(** ** The pages of a new map *)

(** [PageId::from] an index, the width of [ByteIndex::Index] and
    [PageTrailer::new]. *)
Class PageFormat (B : Type) := {
  pf_page_id : Z -> B;
  pf_index_bits : Z;
  pf_trailer : PageType -> Z -> B -> Z -> PageTrailer B
}.

#[export] Instance UnicodePageFormat : PageFormat UnicodePageId := {|
  pf_page_id := mk_UnicodePageId;
  pf_index_bits := 64;
  pf_trailer := UnicodePageTrailer.new
|}.

#[export] Instance AnsiPageFormat : PageFormat AnsiPageId := {|
  pf_page_id := mk_AnsiPageId;
  pf_index_bits := 32;
  pf_trailer := AnsiPageTrailer.new
|}.

(** [ByteIndex::Index::try_from(x)], [x] a [u64]. *)
Definition index_try_from (bits x : Z) : PstResult Z :=
  if x <? 2 ^ bits then Ok x else Err IntegerConversion.

Section map_pages.
Context {MP B : Type} `{!MapPage MP B, !PageFormat B}.

(** A map page with the given bits at [index * data_size + first_offset]. *)
Definition map_page_at (t : PageType) (data_size first_offset index : Z) (map_bits : list Z) :
    PstResult MP :=
  let? index := index_try_from (pf_index_bits (B := B))
                  (wrap 64 (index * data_size + first_offset)) in
  let block_id := pf_page_id index in
  let trailer := pf_trailer t 0 block_id 0 in
  rmap_err NodeDatabaseError (mp_new t map_bits trailer).

(** The pages that follow an allocation map page: itself, and the page map,
    free map and free page map pages placed after it. *)
Definition reserved_pages (index : Z) : Z :=
  let has_pmap_page := index mod 8 =? 0 in
  let has_fmap_page := has_pmap_page && (FMAP_FIRST_SIZE <=? index) &&
    ((index - FMAP_FIRST_SIZE) mod FMAP_PAGE_COUNT =? 0) in
  let has_fpmap_page := has_pmap_page && (FPMAP_FIRST_SIZE <=? index) &&
    ((index - FPMAP_FIRST_SIZE) mod FPMAP_PAGE_COUNT =? 0) in
  1 + Z.b2z has_pmap_page + Z.b2z has_fmap_page + Z.b2z has_fpmap_page.

(** The allocation map page [index] with nothing marked but the reserved
    pages. *)
Definition amap_page_new (index : Z) : PstResult (AllocationMapPageInfo MP) :=
  let reserved := reserved_pages index in
  let free_space := AMAP_DATA_SIZE - reserved * PAGE_SIZE in
  let map_bits := replicate (Z.to_nat reserved) 0xFF ++ replicate (496 - Z.to_nat reserved) 0 in
  let? amap_page := map_page_at AllocationMap AMAP_DATA_SIZE AMAP_FIRST_OFFSET index map_bits in
  Ok (mk_AllocationMapPageInfo amap_page free_space).

Definition amap_pages_new (num_amap_pages : Z) : PstResult (list (AllocationMapPageInfo MP)) :=
  rmapM amap_page_new (seqZ 0 num_amap_pages).

Definition pmap_pages (num_amap_pages : Z) : PstResult (list MP) :=
  rmapM (fun index => map_page_at AllocationPageMap PMAP_DATA_SIZE PMAP_FIRST_OFFSET index
    (replicate 496 0xFF)) (seqZ 0 (pmap_page_count num_amap_pages)).

(** [max_free_slots] of the pages from [first], in an array of [n] bytes. *)
Definition free_slots_from (first n : nat) (amap_pages : list (AllocationMapPageInfo MP)) :
    io_result (list Z) :=
  let? slots := rmapM max_free_slots (take n (drop first amap_pages)) in
  Ok (slots ++ replicate (n - length slots) 0).

Definition fmap_page_count (num_amap_pages : Z) : Z :=
  div_ceil (Z.max num_amap_pages FMAP_FIRST_SIZE - FMAP_FIRST_SIZE) FMAP_PAGE_COUNT.

Definition fmap_pages (num_amap_pages : Z) (amap_pages : list (AllocationMapPageInfo MP)) :
    io_result (list MP) :=
  rmapM (fun index =>
    let amap_index := FMAP_FIRST_SIZE + index * 496 in
    let? map_bits := free_slots_from (Z.to_nat amap_index) 496 amap_pages in
    pst (map_page_at FreeMap FMAP_DATA_SIZE FMAP_FIRST_OFFSET index map_bits))
    (seqZ 0 (fmap_page_count num_amap_pages)).

Definition fpmap_page_count (num_amap_pages : Z) : Z :=
  div_ceil (Z.max num_amap_pages FPMAP_FIRST_SIZE - FPMAP_FIRST_SIZE) FPMAP_PAGE_COUNT.

Definition fpmap_pages (num_amap_pages : Z) : PstResult (list MP) :=
  rmapM (fun index => map_page_at FreePageMap FPMAP_DATA_SIZE FPMAP_FIRST_OFFSET index
    (replicate 496 0xFF)) (seqZ 0 (fpmap_page_count num_amap_pages)).
End map_pages.

(** ** What marking does *)

Definition covered (a n p : Z) : bool := (a <=? p) && (p <? a + n).

(** [bytes'] is [bytes] with the slots [[a .. a + n)] in use. *)
Definition marked (a n : Z) (bytes bytes' : list Z) : Prop :=
  length bytes' = length bytes /\ bytes_ok bytes' /\
  forall p, 0 <= p < 8 * Z.of_nat (length bytes) ->
    map_bit bytes' p = map_bit bytes p || covered a n p.

Lemma mask_from_spec i k : 0 <= i < 8 -> 0 <= k < 8 ->
  Z.testbit (mask_from i) (7 - k) = (i <=? k) /\
  Z.testbit (lnot_w 8 (mask_from i)) (7 - k) = (k <? i) /\
  byte_ok (mask_from i) /\ byte_ok (lnot_w 8 (mask_from i)).
Proof.
  intros Hi Hk.
  assert (H : forallb (fun i => forallb (fun k =>
    Bool.eqb (Z.testbit (mask_from i) (7 - k)) (i <=? k) &&
    Bool.eqb (Z.testbit (lnot_w 8 (mask_from i)) (7 - k)) (k <? i) &&
    uint_b 8 (mask_from i) && uint_b 8 (lnot_w 8 (mask_from i))) (seqZ 0 8)) (seqZ 0 8) = true)
    by (vm_compute; reflexivity).
  rewrite forallb_forall in H. specialize (H i).
  rewrite <- list_elem_of_In, elem_of_seqZ in H. specialize (H Hi).
  rewrite forallb_forall in H. specialize (H k).
  rewrite <- list_elem_of_In, elem_of_seqZ in H. specialize (H Hk).
  rewrite !andb_true_iff in H. destruct H as [[[H1 H2] H3] H4].
  apply Bool.eqb_prop in H1, H2. apply uint_b_spec in H3, H4. done.
Qed.

Lemma map_bit_insert bytes i b p :
  0 <= p -> 0 <= i < Z.of_nat (length bytes) ->
  map_bit (<[Z.to_nat i := b]> bytes) p =
    if p / 8 =? i then Z.testbit b (7 - p mod 8) else map_bit bytes p.
Proof.
  intros Hp Hi. unfold map_bit. pose proof (Z.div_pos p 8 Hp ltac:(lia)).
  rewrite !nth_lookup. destruct (Z.eqb_spec (p / 8) i) as [->|Hne].
  - rewrite list_lookup_insert_eq by lia. done.
  - rewrite list_lookup_insert_ne by lia. done.
Qed.

Lemma map_bit_lookup bytes p b :
  bytes !! Z.to_nat (p / 8) = Some b -> map_bit bytes p = Z.testbit b (7 - p mod 8).
Proof. intros H. unfold map_bit. by rewrite nth_lookup, H. Qed.

Lemma or_byte_spec bytes i m :
  bytes_ok bytes -> byte_ok m -> 0 <= i < Z.of_nat (length bytes) ->
  exists bytes', or_byte bytes i m = Ok bytes' /\ length bytes' = length bytes /\ bytes_ok bytes' /\
    forall p, 0 <= p -> map_bit bytes' p =
      map_bit bytes p || ((p / 8 =? i) && Z.testbit m (7 - p mod 8)).
Proof.
  intros Hb Hm Hi. destruct (lookup_lt_is_Some_2 bytes (Z.to_nat i)) as [b Hl]; [lia|].
  unfold or_byte, index. destruct (Z.ltb_spec i 0); [lia|]. rewrite Hl. cbn [rbind].
  eexists. split; [done|]. split; [by rewrite length_insert|]. split.
  - apply Forall_insert; [done|]. apply uint_lor; [lia|by eapply Forall_lookup_1|done].
  - intros p Hp. rewrite map_bit_insert by lia. destruct (Z.eqb_spec (p / 8) i) as [<-|].
    + by rewrite Z.lor_spec, (map_bit_lookup _ _ _ Hl).
    + cbn. by rewrite orb_false_r.
Qed.

Lemma or_byte_panic bytes i m : Z.of_nat (length bytes) <= i -> or_byte bytes i m = Panic.
Proof.
  intros Hi. unfold or_byte, index. destruct (Z.ltb_spec i 0); [done|].
  by rewrite lookup_ge_None_2 by lia.
Qed.

Lemma testbit_ff k : 0 <= k < 8 -> Z.testbit 0xFF (7 - k) = true.
Proof.
  intros Hk. assert (H : forallb (fun k => Z.testbit 0xFF (7 - k)) (seqZ 0 8) = true) by done.
  rewrite forallb_forall in H. apply H. apply list_elem_of_In, elem_of_seqZ. lia.
Qed.

Lemma set_byte_spec bytes i :
  bytes_ok bytes -> 0 <= i < Z.of_nat (length bytes) ->
  exists bytes', set_byte bytes i = Ok bytes' /\ length bytes' = length bytes /\ bytes_ok bytes' /\
    forall p, 0 <= p -> map_bit bytes' p = map_bit bytes p || (p / 8 =? i).
Proof.
  intros Hb Hi. destruct (lookup_lt_is_Some_2 bytes (Z.to_nat i)) as [b Hl]; [lia|].
  unfold set_byte, index. destruct (Z.ltb_spec i 0); [lia|]. rewrite Hl. cbn [rbind].
  eexists. split; [done|]. split; [by rewrite length_insert|]. split; [by apply Forall_insert|].
  intros p Hp. rewrite map_bit_insert by lia. destruct (Z.eqb_spec (p / 8) i); cbn.
  - rewrite testbit_ff by (apply Z.mod_pos_bound; lia). by rewrite orb_true_r.
  - by rewrite orb_false_r.
Qed.

Lemma fill_bytes_spec bytes a b :
  bytes_ok bytes -> 0 <= a <= b -> b <= Z.of_nat (length bytes) ->
  exists bytes', fill_bytes bytes a b = Ok bytes' /\ length bytes' = length bytes /\
    bytes_ok bytes' /\
    forall p, 0 <= p -> map_bit bytes' p = map_bit bytes p || ((a <=? p / 8) && (p / 8 <? b)).
Proof.
  intros Hb Hab Hl. unfold fill_bytes. destruct (Z.ltb_spec (Z.of_nat (length bytes)) b); [lia|].
  eexists. split; [done|]. split; [rewrite !length_app, length_take, length_replicate, length_drop; lia|].
  split.
  - apply bytes_ok_app; [by apply Forall_take|]. apply bytes_ok_app; [by apply Forall_replicate|].
    by apply Forall_drop.
  - intros p Hp. pose proof (Z.div_pos p 8 Hp ltac:(lia)). unfold map_bit. rewrite !nth_lookup.
    destruct (Z.leb_spec a (p / 8)), (Z.ltb_spec (p / 8) b); cbn [andb]; rewrite ?orb_false_r.
    + rewrite lookup_app_r by (rewrite length_take; lia).
      rewrite lookup_app_l by (rewrite length_replicate, length_take; lia).
      rewrite lookup_replicate_2 by (rewrite length_take; lia). cbn [default].
      rewrite testbit_ff by (apply Z.mod_pos_bound; lia). by rewrite orb_true_r.
    + rewrite lookup_app_r by (rewrite length_take; lia).
      rewrite lookup_app_r by (rewrite length_replicate, length_take; lia).
      rewrite lookup_drop, length_take, length_replicate. do 3 f_equal. lia.
    + rewrite lookup_app_l by (rewrite length_take; lia). by rewrite lookup_take_lt by lia.
    + lia.
Qed.

Lemma fill_bytes_panic bytes a b : Z.of_nat (length bytes) < b -> fill_bytes bytes a b = Panic.
Proof. intros H. unfold fill_bytes. destruct (Z.ltb_spec (Z.of_nat (length bytes)) b); [done|lia]. Qed.

(** Equality of booleans built from comparisons. *)
Ltac bool_lia := apply Bool.eq_iff_eq_true;
  rewrite ?orb_true_iff, ?andb_true_iff, ?Z.leb_le, ?Z.ltb_lt, ?Z.eqb_eq, ?orb_true_iff,
    ?andb_true_iff, ?Z.leb_le, ?Z.ltb_lt, ?Z.eqb_eq; lia.

(** The slots of a page are marked when they are all in the map. *)
Lemma mark_page_bits_spec index bytes :
  bytes_ok bytes -> length bytes = 496%nat -> 0 <= index ->
  let slot := index mod AMAP_DATA_SIZE / 64 in
  if slot + 8 <=? 3968 then exists bytes', mark_page_bits index bytes = Ok bytes' /\
    marked slot 8 bytes bytes'
  else mark_page_bits index bytes = Panic.
Proof.
  intros Hb Hl Hi slot. unfold mark_page_bits. fold slot.
  assert (Hs : 0 <= slot < 3968).
  { pose proof (Z.mod_pos_bound index AMAP_DATA_SIZE ltac:(done)). unfold slot.
    split; [apply Z.div_pos; lia|]. apply Z.div_lt_upper_bound; [lia|].
    change (64 * 3968) with AMAP_DATA_SIZE. lia. }
  pose proof (Z.div_mod slot 8 ltac:(lia)). pose proof (Z.mod_pos_bound slot 8 ltac:(lia)).
  set (q := slot / 8) in *. set (r := slot mod 8) in *.
  destruct (Z.eqb_spec r 0) as [Hr|Hr].
  - destruct (Z.leb_spec (slot + 8) 3968); [|lia].
    destruct (set_byte_spec bytes q Hb) as (bytes' & -> & Hl' & Hb' & Hbit); [lia|].
    exists bytes'. split; [done|]. split; [done|]. split; [done|]. intros p Hp.
    rewrite Hbit by lia. f_equal. pose proof (Z.div_mod p 8 ltac:(lia)).
    pose proof (Z.mod_pos_bound p 8 ltac:(lia)). unfold covered. bool_lia.
  - destruct (or_byte_spec bytes q (mask_from r) Hb) as (b1 & -> & Hl1 & Hb1 & Hbit1);
      [by apply (mask_from_spec r 0)|lia|]. cbn [rbind].
    destruct (Z.leb_spec (slot + 8) 3968).
    + destruct (or_byte_spec b1 (q + 1) (lnot_w 8 (mask_from r)) Hb1) as (b2 & -> & Hl2 & Hb2 & Hbit2);
        [by apply (mask_from_spec r 0)|lia|].
      exists b2. split; [done|]. split; [lia|]. split; [done|]. intros p Hp.
      rewrite Hbit2, Hbit1 by lia. pose proof (Z.div_mod p 8 ltac:(lia)).
      pose proof (Z.mod_pos_bound p 8 ltac:(lia)).
      destruct (mask_from_spec r (p mod 8)) as (-> & -> & _); [lia..|].
      rewrite <- orb_assoc. f_equal. unfold covered. bool_lia.
    + apply or_byte_panic. lia.
Qed.

Lemma lor_range_spec bytes q s e :
  bytes_ok bytes -> 0 <= q < Z.of_nat (length bytes) -> 0 <= s < 8 -> 0 <= e < 8 ->
  exists bytes', or_byte bytes q (Z.land (mask_from s) (lnot_w 8 (mask_from e))) = Ok bytes' /\
    length bytes' = length bytes /\ bytes_ok bytes' /\
    forall p, 0 <= p -> map_bit bytes' p =
      map_bit bytes p || ((p / 8 =? q) && ((s <=? p mod 8) && (p mod 8 <? e))).
Proof.
  intros Hb Hq Hs He.
  destruct (mask_from_spec s 0) as (_ & _ & Hs8 & _); [lia..|].
  destruct (mask_from_spec e 0) as (_ & _ & _ & He8); [lia..|].
  destruct (or_byte_spec bytes q (Z.land (mask_from s) (lnot_w 8 (mask_from e))) Hb)
    as (b' & Hok & Hl' & Hb' & Hbit); [by apply uint_land; [|done|destruct He8]|lia|].
  exists b'. split_and!; [done..|]. intros p Hp. rewrite Hbit by done. rewrite Z.land_spec.
  pose proof (Z.mod_pos_bound p 8 ltac:(lia)).
  destruct (mask_from_spec s (p mod 8)) as (-> & _); [lia..|].
  by destruct (mask_from_spec e (p mod 8)) as (_ & -> & _); [lia..|].
Qed.

(** The bits of the first byte of a block that starts inside a byte. *)
Lemma start_byte_spec bytes q r :
  bytes_ok bytes -> 0 <= q < Z.of_nat (length bytes) -> 0 <= r < 8 ->
  exists bytes' q', (if r =? 0 then Ok (bytes, q)
      else let? bytes := or_byte bytes q (mask_from r) in Ok (bytes, q + 1)) =
      @Ok io_error _ (bytes', q') /\
    length bytes' = length bytes /\ bytes_ok bytes' /\ q <= q' <= q + 1 /\
    (forall p, 0 <= p -> map_bit bytes' p =
      map_bit bytes p || ((8 * q + r <=? p) && (p <? 8 * q'))) /\
    (r = 0 /\ q' = q \/ r <> 0 /\ q' = q + 1).
Proof.
  intros Hb Hq Hr. destruct (Z.eqb_spec r 0) as [->|Hr0].
  - exists bytes, q. split_and!; [done|done|done|lia|lia| |lia]. intros p Hp.
    rewrite <- (orb_false_r (map_bit bytes p)) at 1. f_equal. symmetry.
    apply andb_false_iff. rewrite Z.leb_gt, Z.ltb_ge. lia.
  - destruct (or_byte_spec bytes q (mask_from r) Hb) as (b1 & -> & Hl1 & Hb1 & Hbit1);
      [by apply (mask_from_spec r 0)|lia|].
    exists b1, (q + 1). split_and!; [done..|lia|lia| |lia]. intros p Hp. rewrite Hbit1 by done.
    pose proof (Z.div_mod p 8 ltac:(lia)). pose proof (Z.mod_pos_bound p 8 ltac:(lia)).
    destruct (mask_from_spec r (p mod 8)) as (-> & _); [lia..|]. f_equal. bool_lia.
Qed.

(** The bits of the last byte of a block that ends inside a byte. *)
Lemma end_byte_spec bytes q r :
  bytes_ok bytes -> 0 <= q -> 0 <= r < 8 ->
  if (r =? 0) || (q <? Z.of_nat (length bytes)) then
    exists bytes', (if negb (r =? 0) then or_byte bytes q (lnot_w 8 (mask_from r)) else Ok bytes) =
      Ok bytes' /\ length bytes' = length bytes /\ bytes_ok bytes' /\
      forall p, 0 <= p -> map_bit bytes' p =
        map_bit bytes p || ((8 * q <=? p) && (p <? 8 * q + r))
  else (if negb (r =? 0) then or_byte bytes q (lnot_w 8 (mask_from r)) else Ok bytes) = Panic.
Proof.
  intros Hb Hq Hr. destruct (Z.eqb_spec r 0) as [->|Hr0]; cbn [orb negb].
  - exists bytes. split_and!; [done..|]. intros p Hp.
    rewrite <- (orb_false_r (map_bit bytes p)) at 1. f_equal. symmetry.
    apply andb_false_iff. rewrite Z.leb_gt, Z.ltb_ge. lia.
  - destruct (Z.ltb_spec q (Z.of_nat (length bytes))); [|by apply or_byte_panic].
    destruct (or_byte_spec bytes q (lnot_w 8 (mask_from r)) Hb) as (b1 & -> & Hl1 & Hb1 & Hbit1);
      [by apply (mask_from_spec r 0)|lia|].
    exists b1. split_and!; [done..|]. intros p Hp. rewrite Hbit1 by done.
    pose proof (Z.div_mod p 8 ltac:(lia)). pose proof (Z.mod_pos_bound p 8 ltac:(lia)).
    destruct (mask_from_spec r (p mod 8)) as (_ & -> & _); [lia..|]. f_equal. bool_lia.
Qed.

(** The slots of a block are marked when they are all in the map. *)
Lemma mark_block_bits_spec index size bytes :
  bytes_ok bytes -> length bytes = 496%nat -> 0 <= index -> 0 < size / 64 ->
  let slot := index mod AMAP_DATA_SIZE / 64 in
  if slot + size / 64 <=? 3968 then exists bytes', mark_block_bits index size bytes = Ok bytes' /\
    marked slot (size / 64) bytes bytes'
  else mark_block_bits index size bytes = Panic.
Proof.
  intros Hb Hl Hi Hn slot. unfold mark_block_bits. fold slot. set (n := size / 64) in *.
  assert (Hs : 0 <= slot < 3968).
  { pose proof (Z.mod_pos_bound index AMAP_DATA_SIZE ltac:(done)). unfold slot.
    split; [apply Z.div_pos; lia|]. apply Z.div_lt_upper_bound; [lia|].
    change (64 * 3968) with AMAP_DATA_SIZE. lia. }
  pose proof (Z.div_mod slot 8 ltac:(lia)). pose proof (Z.mod_pos_bound slot 8 ltac:(lia)).
  pose proof (Z.div_mod (slot + n) 8 ltac:(lia)). pose proof (Z.mod_pos_bound (slot + n) 8 ltac:(lia)).
  set (q := slot / 8) in *. set (r := slot mod 8) in *.
  set (qe := (slot + n) / 8) in *. set (re := (slot + n) mod 8) in *.
  destruct (Z.eqb_spec q qe) as [Hq|Hq].
  - destruct (Z.ltb_spec r re); [|lia]. destruct (Z.leb_spec (slot + n) 3968); [|lia].
    destruct (lor_range_spec bytes q r re Hb) as (b' & -> & Hl' & Hb' & Hbit); [lia..|].
    exists b'. split; [done|]. split; [done|]. split; [done|]. intros p Hp. rewrite Hbit by lia.
    pose proof (Z.div_mod p 8 ltac:(lia)). pose proof (Z.mod_pos_bound p 8 ltac:(lia)).
    f_equal. unfold covered. bool_lia.
  - destruct (start_byte_spec bytes q r Hb) as (b1 & q' & -> & Hl1 & Hb1 & Hq' & Hbit1 & Hqv); [lia..|].
    cbn [rbind]. pose proof (end_byte_spec b1 qe re Hb1 ltac:(lia) ltac:(lia)) as He.
    destruct (Z.leb_spec (slot + n) 3968).
    + assert ((re =? 0) || (qe <? Z.of_nat (length b1)) = true) as Hin.
      { apply orb_true_iff. rewrite Z.eqb_eq, Z.ltb_lt. lia. }
      rewrite Hin in He. destruct He as (b2 & -> & Hl2 & Hb2 & Hbit2). cbn [rbind].
      assert (Hres : exists b3, (if q' <? qe then fill_bytes b2 q' qe else Ok b2) = Ok b3 /\
        length b3 = length b2 /\ bytes_ok b3 /\ forall p, 0 <= p ->
          map_bit b3 p = map_bit b2 p || ((q' <=? p / 8) && (p / 8 <? qe))).
      { destruct (Z.ltb_spec q' qe); [apply fill_bytes_spec; [done|lia|lia]|].
        exists b2. split_and!; [done..|]. intros p Hp. rewrite <- (orb_false_r (map_bit b2 p)) at 1.
        f_equal. symmetry. apply andb_false_iff. rewrite Z.leb_gt, Z.ltb_ge. lia. }
      destruct Hres as (b3 & -> & Hl3 & Hb3 & Hbit3). exists b3. split; [done|].
      split; [lia|]. split; [done|]. intros p Hp. rewrite Hbit3, Hbit2, Hbit1 by lia.
      pose proof (Z.div_mod p 8 ltac:(lia)). pose proof (Z.mod_pos_bound p 8 ltac:(lia)).
      rewrite <- !orb_assoc. f_equal. unfold covered. bool_lia.
    + destruct ((re =? 0) || (qe <? Z.of_nat (length b1))) eqn:Hin; [|by rewrite He].
      destruct He as (b2 & -> & Hl2 & _). cbn [rbind]. apply orb_true_iff in Hin.
      rewrite Z.eqb_eq, Z.ltb_lt in Hin. destruct (Z.ltb_spec q' qe); [|lia].
      apply fill_bytes_panic. lia.
Qed.

(** ** Free slots *)

(** The free slots among the [n] from [a]. *)
Fixpoint count_free (bit : Z -> bool) (a : Z) (n : nat) : Z :=
  match n with
  | O => 0
  | S n => (if bit a then 0 else 1) + count_free bit (a + 1) n
  end.

Lemma count_free_app bit n m a :
  count_free bit a (n + m) = count_free bit a n + count_free bit (a + Z.of_nat n) m.
Proof.
  revert a. induction n as [|n IH]; intros a; cbn [count_free Nat.add]; [by rewrite Z.add_0_r|].
  rewrite IH. replace (a + 1 + Z.of_nat n) with (a + Z.of_nat (S n)) by lia. lia.
Qed.

Lemma count_free_ext bit bit' n a :
  (forall p, a <= p < a + Z.of_nat n -> bit p = bit' p) -> count_free bit a n = count_free bit' a n.
Proof.
  revert a. induction n as [|n IH]; intros a H; cbn [count_free]; [done|].
  rewrite (H a) by lia. rewrite (IH (a + 1)); [done|]. intros p Hp. apply H. lia.
Qed.

Lemma count_free_const bit (b : bool) n a :
  (forall p, a <= p < a + Z.of_nat n -> bit p = b) ->
  count_free bit a n = if b then 0 else Z.of_nat n.
Proof.
  revert a. induction n as [|n IH]; intros a H; cbn [count_free]; [by destruct b|].
  rewrite (H a), (IH (a + 1)) by (intros; apply H; lia) || lia. destruct b; lia.
Qed.

(** The free slots of a map. *)
Definition free_slots (bits : list Z) : Z := count_free (map_bit bits) 0 (8 * length bits).

Lemma free_slots_marked a n bits bits' :
  marked a n bits bits' -> 0 <= a -> 0 <= n -> a + n <= 8 * Z.of_nat (length bits) ->
  (forall p, a <= p < a + n -> map_bit bits p = false) ->
  free_slots bits' = free_slots bits - n.
Proof.
  intros (Hl & _ & Hm) Ha Hn Hle Hfree. unfold free_slots. rewrite Hl.
  replace (8 * length bits)%nat with
    (Z.to_nat a + (Z.to_nat n + (8 * length bits - Z.to_nat a - Z.to_nat n)))%nat by lia.
  rewrite !count_free_app, Z.add_0_l, !Z2Nat.id by done.
  rewrite (count_free_ext (map_bit bits') (map_bit bits) (Z.to_nat a)).
  2: { intros p Hp. rewrite Hm by lia. unfold covered. destruct (Z.leb_spec a p); [lia|].
       by rewrite orb_false_r. }
  rewrite (count_free_ext (map_bit bits') (map_bit bits) (_ - _ - _)).
  2: { intros p Hp. rewrite Hm by lia. unfold covered. destruct (Z.ltb_spec p (a + n)); [lia|].
       by rewrite andb_false_r, orb_false_r. }
  rewrite (count_free_const (map_bit bits') true (Z.to_nat n) a).
  2: { intros p Hp. rewrite Hm by lia. unfold covered. destruct (Z.leb_spec a p); [|lia].
       destruct (Z.ltb_spec p (a + n)); [|lia]. by rewrite orb_true_r. }
  rewrite (count_free_const (map_bit bits) false (Z.to_nat n) a) by (intros p Hp; apply Hfree; lia).
  lia.
Qed.

Class MapPageLaws (MP B : Type) `{!MapPage MP B} := {
  mp_bits_set : forall bits p, mp_bits (mp_set_bits bits p) = bits;
  mp_trailer_set : forall bits p, mp_trailer (mp_set_bits bits p) = mp_trailer p;
  mp_new_bits : forall t bits tr p, mp_new t bits tr = Ok p -> mp_bits p = bits /\ mp_trailer p = tr;
  mp_new_ok : forall t bits tr, page_type tr = t -> exists p, mp_new t bits tr = Ok p;
  mp_write_length : forall t p bs, length (mp_bits p) = 496%nat -> mp_write t p = Ok bs ->
    length bs = 512%nat
}.

#[export] Instance UnicodeMapPage_maplaws : MapPageLaws UnicodeMapPage.t UnicodePageId.
Proof.
  split; [done|done| | |].
  - intros t bits tr p H. cbn in H. unfold UnicodeMapPage.new in H. res_step. by inv_ok.
  - intros t bits tr <-. cbn. unfold UnicodeMapPage.new. rewrite Z.eqb_refl. by eexists.
  - intros t p bs Hl [= <-]. unfold UnicodeMapPage.write. cbn [mp_bits UnicodeMapPage_map] in Hl.
    by rewrite length_app, Hl.
Qed.

#[export] Instance AnsiMapPage_maplaws : MapPageLaws AnsiMapPage.t AnsiPageId.
Proof.
  split; [done|done| | |].
  - intros t bits tr p H. cbn in H. unfold AnsiMapPage.new in H. res_step. by inv_ok.
  - intros t bits tr <-. cbn. unfold AnsiMapPage.new. rewrite bool_decide_true by done. by eexists.
  - intros t p bs Hl H. cbn [mp_bits mp_write AnsiMapPage_map] in *.
    assert (Hb : forall fields, length fields = 500%nat ->
      AnsiMapPage.write_buffer p fields = Ok bs -> length bs = 512%nat).
    { intros fields Hf Hw. unfold AnsiMapPage.write_buffer in Hw.
      rewrite fixed_buffer_exact in Hw by done. injection Hw as <-. by rewrite length_app, Hf. }
    destruct t; cbn in H; eapply Hb in H; try done; by rewrite length_app, Hl.
Qed.

Section marking.
Context {MP B : Type} `{!MapPage MP B, !MapPageLaws MP B}.

(** A page whose count of free bytes is that of its free slots. *)
Definition info_bits_ok (info : AllocationMapPageInfo MP) : Prop :=
  array_wf 496 (mp_bits (ai_amap_page info)).
Definition info_ok (info : AllocationMapPageInfo MP) : Prop :=
  info_bits_ok info /\ ai_free_space info = 64 * free_slots (mp_bits (ai_amap_page info)).

Lemma free_slots_bound bits : 0 <= free_slots bits <= 8 * Z.of_nat (length bits).
Proof.
  unfold free_slots. rewrite <- (Nat2Z.inj_mul 8). generalize (8 * length bits)%nat as n. generalize 0 at 2 3 as a.
  intros a n. revert a. induction n as [|n IH]; intros a; cbn [count_free]; [lia|].
  specialize (IH (a + 1)). destruct (map_bit bits a); lia.
Qed.
End marking.

(** ** Marking a page of the map *)

(** The page and the first slot of an offset of the file. *)
Definition amap_index_of (index : Z) : Z := wrapping_sub 64 index AMAP_FIRST_OFFSET / AMAP_DATA_SIZE.
Definition slot_of (index : Z) : Z :=
  wrapping_sub 64 index AMAP_FIRST_OFFSET mod AMAP_DATA_SIZE / 64.

(** The result of marking [n] slots of the page that an offset is in. *)
Definition mark_result {MP B} `{!MapPage MP B} (index n : Z)
    (pages : list (AllocationMapPageInfo MP)) (r : io_result (list (AllocationMapPageInfo MP))) : Prop :=
  match pages !! Z.to_nat (amap_index_of index) with
  | None => r = Err (Other (AllocationMapPageNotFound (amap_index_of index)))
  | Some entry =>
      if slot_of index + n <=? 3968 then exists bits',
        r = Ok (<[Z.to_nat (amap_index_of index) :=
                  mk_AllocationMapPageInfo (mp_set_bits bits' (ai_amap_page entry))
                    (wrapping_sub 64 (ai_free_space entry) (64 * n))]> pages) /\
        marked (slot_of index) n (mp_bits (ai_amap_page entry)) bits'
      else r = Panic
  end.

Lemma mark_result_counts {MP B} `{!MapPage MP B, !MapPageLaws MP B} index n
    (pages pages' : list (AllocationMapPageInfo MP)) :
  Forall info_ok pages -> 0 <= n -> mark_result index n pages (Ok pages') ->
  (forall entry p, pages !! Z.to_nat (amap_index_of index) = Some entry ->
    slot_of index <= p < slot_of index + n -> map_bit (mp_bits (ai_amap_page entry)) p = false) ->
  Forall info_ok pages'.
Proof.
  intros Hok Hn Hr Hfree. unfold mark_result in Hr.
  destruct (pages !! _) as [entry|] eqn:Hl; [|done].
  destruct (Z.leb_spec (slot_of index + n) 3968); [|done]. destruct Hr as (bits' & [= ->] & Hm).
  assert (He : info_ok entry) by by eapply Forall_lookup_1. destruct He as [[Hlen Hb] Hc].
  assert (Hs : 0 <= slot_of index).
  { unfold slot_of. apply Z.div_pos; [|lia]. by apply Z.mod_pos_bound. }
  assert (Hfs := free_slots_marked _ _ _ _ Hm Hs Hn ltac:(lia) (fun p => Hfree entry p eq_refl)).
  pose proof (free_slots_bound bits') as Hbound.
  pose proof (free_slots_bound (mp_bits (ai_amap_page entry))) as Hbound2.
  destruct Hm as (Hl' & Hb' & _).
  apply Forall_insert; [done|]. split; cbn [ai_amap_page ai_free_space].
  - unfold info_bits_ok. cbn [ai_amap_page]. rewrite mp_bits_set. split; [by rewrite Hl'|done].
  - rewrite mp_bits_set, Hfs, Hc. unfold wrapping_sub. rewrite wrap_small; [lia|].
    unfold uint. rewrite Hl', Hlen in Hbound. rewrite Hlen in Hbound2. lia.
Qed.

Lemma map_bit_app l k p :
  0 <= p -> map_bit (l ++ k) p =
    if p <? 8 * Z.of_nat (length l) then map_bit l p else map_bit k (p - 8 * Z.of_nat (length l)).
Proof.
  intros Hp. unfold map_bit. pose proof (Z.div_mod p 8 ltac:(lia)).
  pose proof (Z.mod_pos_bound p 8 ltac:(lia)). rewrite !nth_lookup.
  destruct (Z.ltb_spec p (8 * Z.of_nat (length l))).
  - by rewrite lookup_app_l by lia.
  - rewrite lookup_app_r by lia.
    replace (p - 8 * Z.of_nat (length l)) with (p + (- Z.of_nat (length l)) * 8) by lia.
    rewrite Z.div_add, Z.mod_add by lia. do 3 f_equal. lia.
Qed.

Lemma map_bit_replicate n b p :
  0 <= p < 8 * Z.of_nat n -> map_bit (replicate n b) p = Z.testbit b (7 - p mod 8).
Proof.
  intros Hp. unfold map_bit. rewrite nth_lookup. pose proof (Z.div_mod p 8 ltac:(lia)).
  pose proof (Z.mod_pos_bound p 8 ltac:(lia)). by rewrite lookup_replicate_2 by lia.
Qed.

Lemma reserved_pages_bound index : 1 <= reserved_pages index <= 4.
Proof.
  unfold reserved_pages. assert (Hb : forall b, 0 <= Z.b2z b <= 1) by (intros []; cbn; lia).
  pose proof (Hb (index mod 8 =? 0)).
  match goal with |- context [_ + Z.b2z ?x + Z.b2z ?y] => pose proof (Hb x); pose proof (Hb y) end.
  lia.
Qed.

Lemma mark_page_result {MP B : Type} `{!MapPage MP B, !MapPageLaws MP B} (index : Z)
    (pages : list (AllocationMapPageInfo MP)) (Hpages : Forall info_bits_ok pages) :
  mark_result index 8 pages (mark_page_allocation index pages).
Proof.
  unfold mark_result, mark_page_allocation, mark_entry. fold (amap_index_of index).
  destruct (pages !! _) as [entry|] eqn:Hl; [|done]. cbn [ok_or pst rmap_err rbind].
  assert (He : info_bits_ok entry) by by eapply Forall_lookup_1. destruct He as [Hlen Hok].
  assert (Hi : 0 <= wrapping_sub 64 index AMAP_FIRST_OFFSET) by (apply Z.mod_pos_bound; lia).
  pose proof (mark_page_bits_spec _ _ Hok Hlen Hi) as H. cbv zeta in H. fold (slot_of index) in H.
  destruct (_ <=? _); [|by rewrite H]. destruct H as (bits' & -> & Hm). by exists bits'.
Qed.

Lemma mark_block_result {MP B : Type} `{!MapPage MP B, !MapPageLaws MP B}
    (SIZE index size : Z) (pages : list (AllocationMapPageInfo MP))
    (Hpages : Forall info_bits_ok pages) (HSIZE : 0 <= size + SIZE) :
  match block_size (size + SIZE) with
  | Ok total => mark_result index (total / 64) pages (mark_block_allocation SIZE index size pages)
  | _ => exists e, mark_block_allocation SIZE index size pages = Err e
  end.
Proof.
  unfold mark_result, mark_block_allocation. fold (amap_index_of index).
  destruct (block_size (size + SIZE)) as [total|e|] eqn:Hbs.
  - assert (Htot : 0 < size + SIZE <= 8192).
    { unfold block_size, MAX_BLOCK_SIZE in Hbs. destruct (Z.eqb_spec (size + SIZE) 0); [done|].
      destruct (Z.ltb_spec 8192 (size + SIZE)); [done|]. lia. }
    destruct (block_size_ok _ Htot) as (t & Ht & Hmod & Hge & Hle). rewrite Hbs in Ht.
    injection Ht as <-. destruct (pages !! _) as [entry|] eqn:Hl; [|done].
    cbn [ok_or pst rmap_err rbind]. unfold checked_add.
    destruct (Z.ltb_spec (size + SIZE) (2 ^ 16)); [|lia]. cbn [ok_or ndb rmap_err rbind].
    rewrite Hbs. cbn [rbind]. unfold mark_entry.
    assert (He : info_bits_ok entry) by by eapply Forall_lookup_1. destruct He as [Hlen Hok].
    assert (Hi : 0 <= wrapping_sub 64 index AMAP_FIRST_OFFSET) by (apply Z.mod_pos_bound; lia).
    pose proof (Z.div_mod total 64 ltac:(lia)).
    pose proof (mark_block_bits_spec _ total _ Hok Hlen Hi ltac:(lia)) as H1. cbv zeta in H1.
    fold (slot_of index) in H1. destruct (_ <=? _); [|by rewrite H1].
    destruct H1 as (bits' & -> & Hm). exists bits'. split; [|done]. cbn [rbind]. do 4 f_equal. lia.
  - destruct (pages !! _); [|by eexists]. cbn [ok_or pst rmap_err rbind]. unfold checked_add.
    destruct (_ <? _); cbn [ok_or ndb rmap_err rbind]; [rewrite Hbs|]; by eexists.
  - unfold block_size in Hbs. by destruct (_ || _).
Qed.

(** ** Properties *)

(** Marking a page sets exactly the eight slots of its 512 bytes in the
    allocation map page that covers it and counts them; an offset past the
    last map page is an error; a page that reaches over the end of the map
    panics. *)
Theorem mark_page_allocation_spec {MP B : Type} `{!MapPage MP B, !MapPageLaws MP B} (index : Z)
    (pages : list (AllocationMapPageInfo MP)) (Hpages : Forall info_bits_ok pages) :
  mark_result index 8 pages (mark_page_allocation index pages).
Proof. by apply mark_page_result. Qed.

Definition sample_info (index : Z) : AllocationMapPageInfo UnicodeMapPage.t :=
  match amap_page_new index with Ok i => i | _ => mk_AllocationMapPageInfo sample_map_page 0 end.

Lemma sample_info_ok : Forall info_bits_ok [sample_info 0].
Proof.
  constructor; [|constructor]. split; [vm_compute; reflexivity|].
  apply bytes_ok_b. vm_compute. reflexivity.
Qed.

Lemma mark_page_allocation_spec_witness :
  mark_result 0x4C00 8 [sample_info 0] (mark_page_allocation 0x4C00 [sample_info 0]).
Proof. apply mark_page_allocation_spec, sample_info_ok. Defined.

(** Marking a block sets exactly the slots of its data, trailer and
    padding, whatever its alignment within bytes, in the allocation map page
    that covers its first byte, and counts them.  A size that no block has
    and an offset past the last map page are errors; a block that reaches
    over the end of the map panics. *)
Theorem mark_block_allocation_spec {MP B : Type} `{!MapPage MP B, !MapPageLaws MP B}
    (SIZE index size : Z) (pages : list (AllocationMapPageInfo MP))
    (Hpages : Forall info_bits_ok pages) (HSIZE : 0 <= size + SIZE) :
  match block_size (size + SIZE) with
  | Ok total => mark_result index (total / 64) pages (mark_block_allocation SIZE index size pages)
  | _ => exists e, mark_block_allocation SIZE index size pages = Err e
  end.
Proof. by apply mark_block_result. Qed.

Lemma mark_block_allocation_spec_witness :
  mark_result 0x4CC0 3 [sample_info 0] (mark_block_allocation 16 0x4CC0 170 [sample_info 0]).
Proof.
  pose proof (mark_block_allocation_spec 16 0x4CC0 170 [sample_info 0]) as H.
  cbn [block_size] in H. exact (H sample_info_ok ltac:(lia)).
Defined.

(** The slots of an offset [k] bytes into page [i] of the map. *)
Lemma slot_at i k :
  0 <= i -> 0 <= k < AMAP_DATA_SIZE -> AMAP_FIRST_OFFSET + i * AMAP_DATA_SIZE + k < 2 ^ 64 ->
  amap_index_of (AMAP_FIRST_OFFSET + i * AMAP_DATA_SIZE + k) = i /\
  slot_of (AMAP_FIRST_OFFSET + i * AMAP_DATA_SIZE + k) = k / 64.
Proof.
  intros Hi Hk Hlt. assert (HD : 0 < AMAP_DATA_SIZE) by done.
  unfold amap_index_of, slot_of, wrapping_sub. rewrite wrap_small by (unfold uint; unfold AMAP_FIRST_OFFSET in *; lia).
  replace (AMAP_FIRST_OFFSET + i * AMAP_DATA_SIZE + k - AMAP_FIRST_OFFSET) with (k + i * AMAP_DATA_SIZE) by lia.
  rewrite Z.div_add, Z.mod_add, Z.div_small, Z.mod_small by lia. by split.
Qed.

Lemma reserved_pmap i : 2 <= reserved_pages (8 * i).
Proof.
  unfold reserved_pages. assert ((8 * i) mod 8 = 0) as -> by (rewrite Z.mul_comm; apply Z.mod_mul; lia).
  match goal with |- context [_ + Z.b2z ?x + Z.b2z ?y] => destruct x, y; cbn; lia end.
Qed.

Lemma reserved_fmap i : 0 <= i -> reserved_pages (128 + 496 * i) = 3.
Proof.
  intros Hi. unfold reserved_pages, FMAP_FIRST_SIZE, FMAP_PAGE_COUNT, FPMAP_FIRST_SIZE, FPMAP_PAGE_COUNT.
  assert ((128 + 496 * i) mod 8 = 0) as -> by (apply Z.mod_divide; [lia|exists (16 + 62 * i); lia]).
  assert ((128 + 496 * i - 128) mod 496 = 0) as -> by (apply Z.mod_divide; [lia|exists i; lia]).
  destruct (Z.leb_spec 128 (128 + 496 * i)); [|lia].
  destruct (Z.eqb_spec ((128 + 496 * i - 128 * 64) mod (496 * 64)) 0) as [He|_].
  - apply Z.mod_divide in He as [q Hq]; lia.
  - by rewrite andb_false_r.
Qed.

Lemma reserved_fpmap i : 0 <= i -> reserved_pages (8192 + 31744 * i) = 3.
Proof.
  intros Hi. unfold reserved_pages, FMAP_FIRST_SIZE, FMAP_PAGE_COUNT, FPMAP_FIRST_SIZE, FPMAP_PAGE_COUNT.
  assert ((8192 + 31744 * i) mod 8 = 0) as -> by (apply Z.mod_divide; [lia|exists (1024 + 3968 * i); lia]).
  assert ((8192 + 31744 * i - 128 * 64) mod (496 * 64) = 0) as ->
    by (apply Z.mod_divide; [lia|exists i; lia]).
  destruct (Z.leb_spec (128 * 64) (8192 + 31744 * i)); [|lia].
  destruct (Z.eqb_spec ((8192 + 31744 * i - 128) mod 496) 0) as [He|_].
  - apply Z.mod_divide in He as [q Hq]; lia.
  - by rewrite andb_false_r.
Qed.

(** A new allocation map, and a map after the marking of pages and
    blocks in free slots, count the free space exactly: 64 bytes for each
    free slot of the page. *)
Theorem marking_counts_free_space {MP B : Type}
    `{!MapPage MP B, !MapPageLaws MP B, !PageFormat B} :
  (forall num (pages : list (AllocationMapPageInfo MP)),
    amap_pages_new num = Ok pages -> Forall info_ok pages) /\
  (forall index (pages pages' : list (AllocationMapPageInfo MP)),
    Forall info_ok pages -> mark_page_allocation index pages = Ok pages' ->
    (forall entry p, pages !! Z.to_nat (amap_index_of index) = Some entry ->
      slot_of index <= p < slot_of index + 8 -> map_bit (mp_bits (ai_amap_page entry)) p = false) ->
    Forall info_ok pages') /\
  (forall SIZE index size total (pages pages' : list (AllocationMapPageInfo MP)),
    Forall info_ok pages -> 0 <= size + SIZE -> block_size (size + SIZE) = Ok total ->
    mark_block_allocation SIZE index size pages = Ok pages' ->
    (forall entry p, pages !! Z.to_nat (amap_index_of index) = Some entry ->
      slot_of index <= p < slot_of index + total / 64 ->
      map_bit (mp_bits (ai_amap_page entry)) p = false) ->
    Forall info_ok pages').
Proof.
  split_and!.
  - intros num pages H. unfold amap_pages_new in H. apply rmapM_Forall2 in H.
    induction H as [|i info ids pages Hi _ IH]; constructor; [|done]. clear IH.
    unfold amap_page_new, map_page_at in Hi. pose proof (reserved_pages_bound i) as Hr.
    repeat res_step. inv_ok.
    destruct (mp_new AllocationMap _ _) as [mp|e|] eqn:Hmp in E; [|done..]. injection E as ->.
    apply mp_new_bits in Hmp as [Hbits _].
    assert (Ha : array_wf 496 (mp_bits a)).
    { rewrite Hbits. split; [rewrite length_app, !length_replicate; lia|].
      apply bytes_ok_app; by apply Forall_replicate. }
    split; [exact Ha|]. cbn [ai_amap_page ai_free_space]. unfold free_slots.
    rewrite (proj1 Ha), Hbits.
    replace (8 * 496)%nat with (8 * Z.to_nat (reserved_pages i) +
      8 * (496 - Z.to_nat (reserved_pages i)))%nat by lia.
    rewrite count_free_app, (count_free_const _ true), (count_free_const _ false).
    + unfold AMAP_DATA_SIZE, PAGE_SIZE. lia.
    + intros p Hp. rewrite map_bit_app by lia. rewrite length_replicate.
      destruct (Z.ltb_spec p (8 * Z.of_nat (Z.to_nat (reserved_pages i)))); [lia|].
      rewrite map_bit_replicate by lia. apply Z.testbit_0_l.
    + intros p Hp. rewrite map_bit_app by lia. rewrite length_replicate.
      destruct (Z.ltb_spec p (8 * Z.of_nat (Z.to_nat (reserved_pages i)))); [|lia].
      rewrite map_bit_replicate by lia. apply testbit_ff, Z.mod_pos_bound. lia.
  - intros index pages pages' Hok Hm Hfree. eapply mark_result_counts; [done| | |done]; [lia|].
    rewrite <- Hm. apply mark_page_result. eapply Forall_impl; [exact Hok|by intros ? []].
  - intros SIZE index size total pages pages' Hok H0 Hbs Hm Hfree.
    pose proof (mark_block_result SIZE index size pages) as Hr. rewrite Hbs, Hm in Hr.
    eapply mark_result_counts; [done| |apply Hr; [|done]|done].
    + unfold block_size, MAX_BLOCK_SIZE in Hbs. destruct (_ || _); [done|]. injection Hbs as <-.
      unfold div_ceil. rewrite Z.div_mul by done. apply Z.div_pos; lia.
    + eapply Forall_impl; [exact Hok|by intros ? []].
Qed.

Lemma marking_counts_free_space_witness :
  exists pages, mark_block_allocation 16 0x4CC0 170 [sample_info 0] = Ok pages /\
    Forall info_ok pages.
Proof.
  destruct (marking_counts_free_space (MP := UnicodeMapPage.t) (B := UnicodePageId)) as (H1 & _ & H3).
  eexists. split; [vm_compute; reflexivity|].
  eapply (H3 16 0x4CC0 170 192 [sample_info 0]).
  - apply (H1 1). vm_compute. reflexivity.
  - lia.
  - reflexivity.
  - vm_compute. reflexivity.
  - intros entry p He Hp. vm_compute in He. injection He as <-.
    change (35 <= p < 38) in Hp. assert (p = 35 \/ p = 36 \/ p = 37) as [-> | [-> | ->]] by lia; reflexivity.
Defined.

(** The map pages that a rebuild writes lie side by side in the reserved
    slots at the start of an allocation map page's range: the allocation map
    page first, every eighth is followed by a page map page, and those of
    the free maps and of the free page maps by a third page, which never
    coincide.  The reserved bits cover all of them. *)
Theorem map_pages_reserved (i : Z) (Hi : 0 <= i)
    (Hmax : FPMAP_FIRST_OFFSET + (i + 1) * FPMAP_DATA_SIZE < 2 ^ 64) :
  (amap_index_of (i * AMAP_DATA_SIZE + AMAP_FIRST_OFFSET) = i /\
   slot_of (i * AMAP_DATA_SIZE + AMAP_FIRST_OFFSET) = 0 /\ 1 <= reserved_pages i) /\
  (amap_index_of (i * PMAP_DATA_SIZE + PMAP_FIRST_OFFSET) = 8 * i /\
   slot_of (i * PMAP_DATA_SIZE + PMAP_FIRST_OFFSET) = 8 /\ 2 <= reserved_pages (8 * i)) /\
  (amap_index_of (i * FMAP_DATA_SIZE + FMAP_FIRST_OFFSET) = 128 + 496 * i /\
   slot_of (i * FMAP_DATA_SIZE + FMAP_FIRST_OFFSET) = 16 /\ reserved_pages (128 + 496 * i) = 3) /\
  (amap_index_of (i * FPMAP_DATA_SIZE + FPMAP_FIRST_OFFSET) = 8192 + 31744 * i /\
   slot_of (i * FPMAP_DATA_SIZE + FPMAP_FIRST_OFFSET) = 16 /\
   reserved_pages (8192 + 31744 * i) = 3) /\
  forall j, 128 + 496 * j <> 8192 + 31744 * i.
Proof.
  assert (HD : AMAP_DATA_SIZE = 253952) by done. assert (HF : AMAP_FIRST_OFFSET = 17408) by done.
  assert (HFP : FPMAP_FIRST_OFFSET = 17408 + 253952 * 8192 + 1024) by done.
  assert (HFPD : FPMAP_DATA_SIZE = 253952 * 31744) by done.
  assert (HFM : FMAP_FIRST_OFFSET = 17408 + 253952 * 128 + 1024) by done.
  assert (HFMD : FMAP_DATA_SIZE = 253952 * 496) by done.
  assert (HPM : PMAP_FIRST_OFFSET = 17408 + 512) by done.
  assert (HPMD : PMAP_DATA_SIZE = 253952 * 8) by done.
  pose proof (reserved_pages_bound i).
  split_and!.
  - replace (i * AMAP_DATA_SIZE + AMAP_FIRST_OFFSET) with (AMAP_FIRST_OFFSET + i * AMAP_DATA_SIZE + 0) by lia.
    apply slot_at; lia.
  - replace (i * AMAP_DATA_SIZE + AMAP_FIRST_OFFSET) with (AMAP_FIRST_OFFSET + i * AMAP_DATA_SIZE + 0) by lia.
    apply (slot_at i 0); lia.
  - lia.
  - replace (i * PMAP_DATA_SIZE + PMAP_FIRST_OFFSET) with
      (AMAP_FIRST_OFFSET + (8 * i) * AMAP_DATA_SIZE + 512) by lia. apply slot_at; lia.
  - replace (i * PMAP_DATA_SIZE + PMAP_FIRST_OFFSET) with
      (AMAP_FIRST_OFFSET + (8 * i) * AMAP_DATA_SIZE + 512) by lia. apply (slot_at (8 * i) 512); lia.
  - apply reserved_pmap.
  - replace (i * FMAP_DATA_SIZE + FMAP_FIRST_OFFSET) with
      (AMAP_FIRST_OFFSET + (128 + 496 * i) * AMAP_DATA_SIZE + 1024) by lia. apply slot_at; lia.
  - replace (i * FMAP_DATA_SIZE + FMAP_FIRST_OFFSET) with
      (AMAP_FIRST_OFFSET + (128 + 496 * i) * AMAP_DATA_SIZE + 1024) by lia.
    apply (slot_at (128 + 496 * i) 1024); lia.
  - by apply reserved_fmap.
  - replace (i * FPMAP_DATA_SIZE + FPMAP_FIRST_OFFSET) with
      (AMAP_FIRST_OFFSET + (8192 + 31744 * i) * AMAP_DATA_SIZE + 1024) by lia. apply slot_at; lia.
  - replace (i * FPMAP_DATA_SIZE + FPMAP_FIRST_OFFSET) with
      (AMAP_FIRST_OFFSET + (8192 + 31744 * i) * AMAP_DATA_SIZE + 1024) by lia.
    apply (slot_at (8192 + 31744 * i) 1024); lia.
  - by apply reserved_fpmap.
  - intros j. lia.
Qed.

Lemma map_pages_reserved_witness :
  amap_index_of (3 * FMAP_DATA_SIZE + FMAP_FIRST_OFFSET) = 1616 /\ reserved_pages 1616 = 3.
Proof.
  destruct (map_pages_reserved 3 ltac:(lia) ltac:(done)) as (_ & _ & (H & _ & Hr) & _). by split.
Defined.
