(* ===== verification/PstFile.v ===== *)
(** * The file

    [PstFileInner] of [lib.rs]: a file opened for reading or for writing, its
    header, density list and page caches; the lookup of nodes and blocks; the
    transactions ([start_write], [finish_write]), the rebuild of the
    allocation map that may open one, and the density list. *)
From S2P Require Import Prelude Errors Io Crc Ids Header Page FreeBits BTree Block Lookup DataTree Amap.

(** ** Interfaces *)

(** [HeaderReadWrite] with [Header]: [HD] is [UnicodeHeader] or
    [AnsiHeader], [PI] the page ids, [I] the byte indexes. *)
Class PstHeader (HD PI I : Type) := {
  hd_read : reader HD;
  hd_write : HD -> io_result (list Z);
  hd_root : HD -> Root I (BlockRef PI I);
  hd_set_root : Root I (BlockRef PI I) -> HD -> HD;
  hd_set_first_free_map : list Z -> HD -> HD;
  hd_update_unique : HD -> HD;
  hd_next_page : HD -> PI;
  hd_crypt_method : HD -> NdbCryptMethod
}.

#[export] Instance UnicodeHeader_header :
  PstHeader UnicodeHeader.t UnicodePageId UnicodeByteIndex := {|
  hd_read := UnicodeHeader.read;
  hd_write := UnicodeHeader.write;
  hd_root := UnicodeHeader.root;
  hd_set_root r h := UnicodeHeader.mk (UnicodeHeader.next_page h) (UnicodeHeader.unique h)
    (UnicodeHeader.nids h) r (UnicodeHeader.free_map h) (UnicodeHeader.free_page_map h)
    (UnicodeHeader.crypt_method h) (UnicodeHeader.next_block h) (UnicodeHeader.reserved1 h)
    (UnicodeHeader.reserved2 h) (UnicodeHeader.unused1 h) (UnicodeHeader.unused2 h)
    (UnicodeHeader.reserved3 h);
  hd_set_first_free_map m h := UnicodeHeader.mk (UnicodeHeader.next_page h)
    (UnicodeHeader.unique h) (UnicodeHeader.nids h) (UnicodeHeader.root h) m
    (UnicodeHeader.free_page_map h) (UnicodeHeader.crypt_method h) (UnicodeHeader.next_block h)
    (UnicodeHeader.reserved1 h) (UnicodeHeader.reserved2 h) (UnicodeHeader.unused1 h)
    (UnicodeHeader.unused2 h) (UnicodeHeader.reserved3 h);
  hd_update_unique := UnicodeHeader.update_unique;
  hd_next_page := UnicodeHeader.next_page;
  hd_crypt_method := UnicodeHeader.crypt_method
|}.

#[export] Instance AnsiHeader_header : PstHeader AnsiHeader.t AnsiPageId AnsiByteIndex := {|
  hd_read := AnsiHeader.read;
  hd_write := AnsiHeader.write;
  hd_root := AnsiHeader.root;
  hd_set_root r h := AnsiHeader.mk (AnsiHeader.next_block h) (AnsiHeader.next_page h)
    (AnsiHeader.unique h) (AnsiHeader.nids h) r (AnsiHeader.free_map h)
    (AnsiHeader.free_page_map h) (AnsiHeader.crypt_method h) (AnsiHeader.reserved1 h)
    (AnsiHeader.reserved2 h) (AnsiHeader.reserved3 h);
  hd_set_first_free_map m h := AnsiHeader.mk (AnsiHeader.next_block h) (AnsiHeader.next_page h)
    (AnsiHeader.unique h) (AnsiHeader.nids h) (AnsiHeader.root h) m (AnsiHeader.free_page_map h)
    (AnsiHeader.crypt_method h) (AnsiHeader.reserved1 h) (AnsiHeader.reserved2 h)
    (AnsiHeader.reserved3 h);
  hd_update_unique := AnsiHeader.update_unique;
  hd_next_page := AnsiHeader.next_page;
  hd_crypt_method := AnsiHeader.crypt_method
|}.

(** [DensityListPageReadWrite]: the sizes of the page of a format. *)
Class DensityFormat (PI : Type) := {
  df_max_entries : nat;
  df_body : nat
}.

#[export] Instance UnicodeDensityFormat : DensityFormat UnicodePageId := {|
  df_max_entries := UNICODE_DENSITY_LIST_MAX_ENTRIES; df_body := 496 |}.
#[export] Instance AnsiDensityFormat : DensityFormat AnsiPageId := {|
  df_max_entries := ANSI_DENSITY_LIST_MAX_ENTRIES; df_body := 500 |}.

(** ** Marking what the B-trees use *)

(** [f(&mut s)?] *)
Definition m_modify {S} (g : S -> io_result S) : M S unit := fun s =>
  match g s with
  | Ok s' => Some (Ok tt, s')
  | Err e => Some (Err e, s)
  | Panic => Some (Panic, s)
  end.

Section marks.
Context {P : PageType} {LE PI I MP : Type}.
Context `{!BlockId PI, !ByteIndex I, !BTreeEntry LE, !BTreeEntry (BTreePageEntry PI I)}.
Context `{!BTreeFormat PI, !MapPage MP PI}.

Abbreviation page := (RootBTreePage.t (P := P) (LE := LE) (B := PI) (I := I)).

(** The checks of a page read below an intermediate page of [level]. *)
Definition check_child (level : Z) (block : BlockRef PI I) (child : page) : PstResult unit :=
  match child with
  | Intermediate page =>
      ensure (bte_level page + 1 =? level) (InvalidBTreePage (bi_index (bref_index block)))
  | Leaf _ => ensure (level =? 1) (InvalidBTreePage (bi_index (bref_index block)))
  end.

(** The recursion common to [mark_node_btree_allocations] and
    [mark_block_btree_allocations], [leaf] being what is done in a leaf
    page; [None] when the bound on its depth is reached. *)
Fixpoint mark_btree_allocations (fuel : nat)
    (leaf : BTreeLeafPage P LE PI -> M (list (AllocationMapPageInfo MP)) unit)
    (f : list Z) (page_index : I) (btree : page) : M (list (AllocationMapPageInfo MP)) unit :=
  match fuel with
  | O => fun _ => None
  | S fuel =>
    let! _ := m_modify (mark_page_allocation (bi_index page_index)) in
    match btree with
    | Intermediate page =>
        let level := bte_level page in
        m_fold (fun _ entry =>
          let block := bpe_block entry in
          let! child := m_lift (RootBTreePage.read f block) in
          let! _ := m_lift (pst (check_child level block child)) in
          mark_btree_allocations fuel leaf f (bref_index block) child)
          (bte_entries page) tt
    | Leaf page => leaf page
    end
  end.
End marks.

(** The levels of the pages decrease from at most 8. *)
Definition MARK_FUEL : nat := 9.

Definition mark_node_btree_allocations {NE PI I MP : Type} `{!BlockId PI, !ByteIndex I}
    `{!BTreeEntry NE, !BTreeEntry (BTreePageEntry PI I), !BTreeFormat PI, !MapPage MP PI}
    (f : list Z) (page_index : I)
    (node_btree : RootBTreePage.t (P := NodeBTree) (LE := NE) (B := PI) (I := I)) :
    M (list (AllocationMapPageInfo MP)) unit :=
  mark_btree_allocations MARK_FUEL (fun _ => m_ret tt) f page_index node_btree.

Definition mark_block_btree_allocations {BE BI PI I MP : Type} `{!BlockId BI, !BlockId PI}
    `{!ByteIndex I, !BTreeEntry BE, !BlockBTreeEntry BE BI I, !BTreeEntry (BTreePageEntry PI I)}
    `{!BTreeFormat PI, !BlockTrailerReadWrite BI, !MapPage MP PI}
    (f : list Z) (page_index : I)
    (block_btree : RootBTreePage.t (P := BlockBTree) (LE := BE) (B := PI) (I := I)) :
    M (list (AllocationMapPageInfo MP)) unit :=
  mark_btree_allocations MARK_FUEL
    (fun page => m_fold (fun _ entry =>
       m_modify (mark_block_allocation (TRAILER_SIZE (B := BI))
         (bi_index (bref_index (bbe_block entry))) (bbe_size entry)))
       (btl_entries page) tt)
    f page_index block_btree.

(** ** [PstFileInner] *)

Section file.
Context {NE BE BI PI I MP HD : Type}.
Context `{!BlockId BI, !BlockId PI, !ByteIndex I, !BTreeEntry NE, !BTreeEntry BE}.
Context `{!BlockBTreeEntry BE BI I, !BTreeEntry (BTreePageEntry PI I), !BTreeFormat PI}.
Context `{!BlockTrailerReadWrite BI, !IntermediateTreeEntry BI, !MapPage MP PI, !PageFormat PI}.
Context `{!PstHeader HD PI I, !DensityFormat PI}.

Abbreviation NodeBTreePage := (RootBTreePage.t (P := NodeBTree) (LE := NE) (B := PI) (I := I)).
Abbreviation BlockBTreePage := (RootBTreePage.t (P := BlockBTree) (LE := BE) (B := PI) (I := I)).
Abbreviation NodeCache := (RootBTreePage.cache (P := NodeBTree) (LE := NE) (B := PI) (I := I)).
Abbreviation BlockCache := (RootBTreePage.cache (P := BlockBTree) (LE := BE) (B := PI) (I := I)).
Abbreviation Infos := (list (AllocationMapPageInfo MP)).

(** [reader] and [writer] are handles on the same file: its contents and the
    position of the writer.  [pf_writer] is [Ok] when the file could be
    opened for writing. *)
Record PstFileInner := mk_PstFileInner {
  pf_file : wfile;
  pf_writer : PstResult unit;
  pf_header : HD;
  pf_density_list : io_result (DensityListPage PI);
  pf_node_cache : NodeCache;
  pf_block_cache : BlockCache
}.

Definition set_file (f : wfile) (s : PstFileInner) : PstFileInner :=
  mk_PstFileInner f (pf_writer s) (pf_header s) (pf_density_list s) (pf_node_cache s)
    (pf_block_cache s).
Definition set_header (h : HD) (s : PstFileInner) : PstFileInner :=
  mk_PstFileInner (pf_file s) (pf_writer s) h (pf_density_list s) (pf_node_cache s)
    (pf_block_cache s).
Definition set_density_list (d : io_result (DensityListPage PI)) (s : PstFileInner) :
    PstFileInner :=
  mk_PstFileInner (pf_file s) (pf_writer s) (pf_header s) d (pf_node_cache s) (pf_block_cache s).
Definition set_node_cache (c : NodeCache) (s : PstFileInner) : PstFileInner :=
  mk_PstFileInner (pf_file s) (pf_writer s) (pf_header s) (pf_density_list s) c (pf_block_cache s).
Definition set_block_cache (c : BlockCache) (s : PstFileInner) : PstFileInner :=
  mk_PstFileInner (pf_file s) (pf_writer s) (pf_header s) (pf_density_list s) (pf_node_cache s) c.

Abbreviation F := (M PstFileInner).

Definition m_get {A} (g : PstFileInner -> A) : F A := fun s => Some (Ok (g s), s).
Definition m_put (g : PstFileInner -> PstFileInner) : F unit := fun s => Some (Ok tt, g s).

(** [read_from] and [open]; [data] is the contents of the file. *)
Definition read_from (data : list Z) : io_result PstFileInner :=
  let? header := read_at data 0 hd_read in
  let density_list := DensityListPage.read df_max_entries df_body data in
  Ok (mk_PstFileInner (mk_wfile data 0) (Err OpenedReadOnly) header density_list ∅ ∅).

(** [writable]: whether the operating system opens the file for writing. *)
Definition open (data : list Z) (writable : bool) : io_result PstFileInner :=
  let writer := if writable then Ok tt else Err NoWriteAccess in
  let? s := read_from data in
  Ok (mk_PstFileInner (pf_file s) writer (pf_header s) (pf_density_list s) (pf_node_cache s)
        (pf_block_cache s)).

(** [impl From<&PstError> for io::Error], which keeps only a message. *)
Definition io_of_pst_ref (e : PstError) : io_error :=
  match e with NoWriteAccess => PermissionDenied | e => Other e end.

(** [self.writer.as_ref()?.lock()] *)
Definition get_writer : F unit := fun s => Some (rmap_err io_of_pst_ref (pf_writer s), s).

(** [writer.seek(SeekFrom::Start(pos))] and a [write_all]. *)
Definition write_at (pos : Z) (bs : list Z) : F unit :=
  m_put (fun s => set_file (write_all bs (wseek_start pos (pf_file s))) s).

(** [let root = header.root_mut(); ...] *)
Definition update_root (g : Root I (BlockRef PI I) -> Root I (BlockRef PI I)) (h : HD) : HD :=
  hd_set_root (g (hd_root h)) h.

(** [header.write(writer)] at the start of the file. *)
Definition write_header (h : HD) : F unit :=
  let! _ := get_writer in
  let! bs := m_lift (hd_write h) in
  write_at 0 bs.

(** Each map page is written where its trailer says. *)
Definition write_map_pages (t : PageType) (pages : list MP) : F unit :=
  m_fold (fun _ page =>
    let! bs := m_lift (mp_write t page) in
    write_at (bid_into_u64 (pt_block_id (mp_trailer page))) bs) pages tt.

(** *** The density list *)

Definition density_trailer (next_page : PI) : PageTrailer PI :=
  let signature := PageType_signature DensityList DENSITY_LIST_FILE_OFFSET (bid_into_u64 next_page) in
  pf_trailer DensityList signature next_page 0.

Definition density_new (backfill : bool) (current_page : Z) (entries : list DensityListPageEntry)
    (trailer : PageTrailer PI) : PstResult (DensityListPage PI) :=
  rmap_err NodeDatabaseError (DensityListPage.new df_max_entries backfill current_page entries trailer).

(** [density_list.trailer().block_id() == self.header.next_page()]; the
    equality of page ids is that of their numbers. *)
Definition density_list_current (d : DensityListPage PI) (h : HD) : bool :=
  bid_into_u64 (pt_block_id (dl_trailer d)) =? bid_into_u64 (hd_next_page h).

Definition ensure_density_list : F unit := fun s =>
  let h := pf_header s in
  let reset :=
    let current := wrapping_sub 64 (bi_index (amap_last_index (hd_root h))) AMAP_FIRST_OFFSET
                     / AMAP_DATA_SIZE in
    let? current_page := if current <? 2 ^ 32 then Ok current else Err IntegerConversion in
    density_new false current_page [] (density_trailer (hd_next_page h)) in
  let replace :=
    match reset with
    | Ok d => Some (Ok tt, set_density_list (Ok d) s)
    | Err e => Some (Err (io_of_pst e), s)
    | Panic => Some (Panic, s)
    end in
  match pf_density_list s with
  | Ok d => if density_list_current d h then Some (Ok tt, s) else replace
  | _ => replace
  end.

Definition update_density_list_page_id : F unit := fun s =>
  match pf_density_list s with
  | Ok d =>
      let next_page := hd_next_page (pf_header s) in
      if density_list_current d (pf_header s) then Some (Ok tt, s) else
      match density_new (backfill_complete d) (current_page d) (DensityListPage.entries d)
              (density_trailer next_page) with
      | Ok d => Some (Ok tt, set_density_list (Ok d) s)
      | Err e => Some (Err (io_of_pst e), s)
      | Panic => Some (Panic, s)
      end
  | _ => Some (Ok tt, s)
  end.

(** *** The allocation map *)

Definition num_amap_pages (root : Root I (BlockRef PI I)) : Z :=
  div_ceil (wrapping_sub 64 (bi_index (file_eof_index root)) AMAP_FIRST_OFFSET) AMAP_DATA_SIZE.

(** The marking of the pages of both B-trees and of the blocks. *)
Definition mark_allocations (f : list Z) (root : Root I (BlockRef PI I)) : M Infos unit :=
  let! node_btree := m_lift (RootBTreePage.read f (node_btree root)) in
  let! _ := mark_node_btree_allocations (NE := NE) f (bref_index (Header.node_btree root)) node_btree in
  let! block_btree := m_lift (RootBTreePage.read f (block_btree root)) in
  mark_block_btree_allocations (BE := BE) f (bref_index (Header.block_btree root)) block_btree.

(** What a rebuild computes before it writes: the pages of the four maps,
    the free bytes and the free slots of the first pages. *)
Record RebuiltMap := mk_RebuiltMap {
  rb_amap_pages : Infos;
  rb_free_bytes : Z;
  rb_first_fmap : list Z;
  rb_pmap_pages : list MP;
  rb_fmap_pages : list MP;
  rb_fpmap_pages : list MP
}.

(** [amap_pages.iter().map(|page| page.free_space).sum()] *)
Definition sum_free_space (amap_pages : Infos) : Z :=
  fold_left (fun acc page => wrapping_add 64 acc (ai_free_space page)) amap_pages 0.

Definition compute_allocation_map (f : list Z) (root : Root I (BlockRef PI I)) :
    option (io_result RebuiltMap) :=
  let num := num_amap_pages root in
  match pst (amap_pages_new num) with
  | Ok amap_pages =>
      match mark_allocations f root amap_pages with
      | Some (Ok _, amap_pages) => Some (
          let? free_bytes := pst (index_try_from (pf_index_bits (B := PI))
                                    (sum_free_space amap_pages)) in
          let? first_fmap := free_slots_from 0 128 amap_pages in
          let? pmap_pages := pst (pmap_pages num) in
          let? fmap_pages := fmap_pages num amap_pages in
          let? fpmap_pages := pst (fpmap_pages num) in
          Ok (mk_RebuiltMap amap_pages free_bytes first_fmap pmap_pages fmap_pages fpmap_pages))
      | Some (Err e, _) => Some (Err e)
      | Some (Panic, _) => Some Panic
      | None => None
      end
  | Err e => Some (Err e)
  | Panic => Some Panic
  end.

Definition write_allocation_map (m : RebuiltMap) : F unit :=
  let! _ := get_writer in
  let! _ := write_map_pages AllocationMap (map ai_amap_page (rb_amap_pages m)) in
  let! _ := write_map_pages AllocationPageMap (rb_pmap_pages m) in
  let! _ := write_map_pages FreeMap (rb_fmap_pages m) in
  write_map_pages FreePageMap (rb_fpmap_pages m).

Definition AmapStatus_eqb (a b : AmapStatus) : bool :=
  AmapStatus_as_u8 a =? AmapStatus_as_u8 b.

Definition rebuild_allocation_map : F unit := fun s =>
  let root := hd_root (pf_header s) in
  if negb (AmapStatus_eqb AMap_Invalid (amap_is_valid root)) then Some (Ok tt, s) else
  match compute_allocation_map (wf_data (pf_file s)) root with
  | None => None
  | Some (Err e) => Some (Err e, s)
  | Some Panic => Some (Panic, s)
  | Some (Ok m) =>
      (let! _ := write_allocation_map m in
       let! _ := m_put (fun s => set_header (hd_update_unique
                   (hd_set_first_free_map (rb_first_fmap m) (pf_header s))) s) in
       let! header := m_get pf_header in
       let! root := m_lift (ndb (Root.reset_free_size (hd_root header) (bi_new (rb_free_bytes m)))) in
       let header := hd_set_root (Root.set_amap_status root AMap_Valid2) header in
       let! _ := m_put (set_header header) in
       write_header header) s
  end.

(** *** Transactions *)

Definition start_write : F unit :=
  let! _ := rebuild_allocation_map in
  let! _ := ensure_density_list in
  let! _ := m_put (fun s => set_header (update_root (fun r => Root.set_amap_status r AMap_Invalid)
              (hd_update_unique (pf_header s))) s) in
  let! header := m_get pf_header in
  write_header header.

Definition write_density_list (d : DensityListPage PI) : F unit := fun s =>
  match DensityListPage.write df_body d (pf_file s) with
  | Ok f => Some (Ok tt, set_file f s)
  | Err e => Some (Err e, s)
  | Panic => Some (Panic, s)
  end.

Definition finish_write : F unit :=
  let! _ := m_put (fun s => set_header (update_root (fun r => Root.set_amap_status r AMap_Valid2)
              (hd_update_unique (pf_header s))) s) in
  let! header := m_get pf_header in
  let! _ := update_density_list_page_id in
  let! density_list := m_get pf_density_list in
  let density_list :=
    match density_list with
    | Ok d => match DensityListPage.new df_max_entries (backfill_complete d) (current_page d)
                      (DensityListPage.entries d) (dl_trailer d) with
              | Ok d => Some d
              | _ => None
              end
    | _ => None
    end in
  let! _ := write_header header in
  match density_list with
  | Some d => write_density_list d
  | None => m_ret tt
  end.

(** [PstFileLockGuard]: [new], and [flush], which [drop] calls as well. *)
Definition lock : F unit := start_write.
Definition flush : F unit := finish_write.

(** *** Lookups *)

(** The two page caches are only looked into by the lookups that own them. *)
Definition with_node_cache {A} (m : M NodeCache A) : F A := fun s =>
  match m (pf_node_cache s) with
  | Some (r, c) => Some (r, set_node_cache c s)
  | None => None
  end.
Definition with_block_cache {A} (m : M BlockCache A) : F A := fun s =>
  match m (pf_block_cache s) with
  | Some (r, c) => Some (r, set_block_cache c s)
  | None => None
  end.

(** [fuel] bounds the depth of the lookups. *)
Definition read_node (fuel : nat) (node : NodeId) : F NE :=
  let! f := m_get (fun s => wf_data (pf_file s)) in
  let! header := m_get pf_header in
  let! node_btree := m_lift (RootBTreePage.read f (node_btree (hd_root header))) in
  with_node_cache (RootBTreePage.find_entry fuel f node_btree (node_id_0 node)).

(** [reader.read_to_end(&mut data)]: [read] with buffers of the sizes
    [lens] until it returns no byte. *)
Fixpoint read_to_end (fuel : nat) (f : list Z) (encoding : NdbCryptMethod) (lens : nat -> nat)
    (r : DataTreeReader (E := BE)) : option (io_result (list Z)) :=
  match fuel with
  | O => None
  | S fuel =>
      match reader_read f encoding (lens fuel) r with
      | (Ok [], _) => Some (Ok [])
      | (Ok chunk, r) =>
          match read_to_end fuel f encoding lens r with
          | Some m => Some (let? rest := m in Ok (chunk ++ rest))
          | None => None
          end
      | (Err e, _) => Some (Err e)
      | (Panic, _) => Some Panic
      end
  end.

(** The part of [read_block] under the lock: the lookup of the block and the
    reading of its data tree. *)
Definition read_block_data (fuel chunks : nat) (lens : nat -> nat) (f : list Z)
    (encoding : NdbCryptMethod) (block_btree : BlockBTreePage) (block : BI) :
    M BlockCache (list Z) := fun c =>
  let find := btree_find f block_btree fuel in
  match (let! entry := RootBTreePage.find_entry fuel f block_btree (bid_search_key block) in
         m_lift (DataTree.read f encoding entry)) c with
  | Some (Ok tree, c) =>
      match open_reader (E := BE) (BlockFind0 := find) f encoding tree (c, ∅) with
      | Some (Ok r, (c, _)) =>
          match read_to_end chunks f encoding lens r with
          | Some data => Some (data, c)
          | None => None
          end
      | Some (Err e, (c, _)) => Some (Err e, c)
      | Some (Panic, (c, _)) => Some (Panic, c)
      | None => None
      end
  | Some (Err e, c) => Some (Err e, c)
  | Some (Panic, c) => Some (Panic, c)
  | None => None
  end.

Definition read_block (fuel chunks : nat) (lens : nat -> nat) (block : BI) : F (list Z) :=
  let! f := m_get (fun s => wf_data (pf_file s)) in
  let! header := m_get pf_header in
  let! block_btree := m_lift (RootBTreePage.read f (block_btree (hd_root header))) in
  with_block_cache (read_block_data fuel chunks lens f (hd_crypt_method header) block_btree block).
End file.

(** ** Termination *)

Section marks_total.
Context {P : PageType} {LE PI I MP : Type}.
Context `{!BlockId PI, !ByteIndex I, !BTreeEntry LE, !BTreeEntry (BTreePageEntry PI I)}.
Context `{!BTreeFormat PI, !MapPage MP PI}.

Abbreviation page := (RootBTreePage.t (P := P) (LE := LE) (B := PI) (I := I)).

Definition page_level (p : page) : Z :=
  match p with Intermediate n => bte_level n | Leaf _ => 0 end.

Lemma entry_page_level {E B} level m size (es : list E) (tr : PageTrailer B) p :
  BTreeEntryPage.new level m size es tr = Ok p -> 1 <= bte_level p <= 8.
Proof.
  unfold BTreeEntryPage.new. intros H. repeat res_step. inv_ok. cbn. zb. lia.
Qed.

Lemma read_page_level (f : list Z) (r : BlockRef PI I) (p : page) :
  RootBTreePage.read f r = Ok p -> 0 <= page_level p <= 8.
Proof.
  unfold RootBTreePage.read, read_at. intros H. repeat res_step. inv_ok.
  unfold RootBTreePage.read_page in E. apply rd_bind_ok in E as (buf & u & _ & E).
  apply rd_bind_ok in E as (lv & u' & _ & E).
  destruct (lv =? 0); apply rd_bind_ok in E as (n & u2 & En & E); injection E as <- _; cbn; [lia|].
  unfold with_cursor in En. apply rbind_ok in En as ([n' t] & En & [= <- _]).
  unfold BTreePage.read in En. rd_inv.
  match goal with x : Z * Z * Z * Z |- _ => destruct x as [[[? ?] ?] ?] end. rd_inv. repeat match goal with
  | H : ndb _ = Ok _ |- _ => apply ndb_ok in H end.
  match goal with H : btp_new _ _ _ _ _ = Ok _ |- _ => apply entry_page_level in H; lia end.
Qed.

Lemma total_modify {S} (g : S -> io_result S) : total (m_modify g).
Proof. intros s. unfold m_modify. by destruct (g s). Qed.

Lemma total_lift_bind {S A B} (m : io_result A) (k : A -> M S B) :
  (forall a, m = Ok a -> total (k a)) -> total (m_bind (m_lift m) k).
Proof. intros Hk s. unfold m_bind, m_lift. destruct m; [by apply Hk|done..]. Qed.

Lemma total_mark leaf f : (forall l, total (leaf l)) -> forall fuel (idx : I) (p : page),
  0 <= page_level p < Z.of_nat fuel ->
  total (mark_btree_allocations (MP := MP) fuel leaf f idx p).
Proof.
  intros Hleaf fuel. induction fuel as [|fuel IH]; intros idx p Hl; [lia|].
  cbn [mark_btree_allocations]. apply total_bind; [apply total_modify|]. intros _.
  destruct p as [n|l]; [|apply Hleaf]. apply total_fold. intros _ e.
  apply total_lift_bind. intros child Hr. apply total_lift_bind. intros [] Hc.
  apply pst_ok in Hc. apply IH. pose proof (read_page_level _ _ _ Hr).
  destruct child; cbn in *; apply ensure_ok in Hc; zb; lia.
Qed.
End marks_total.

Section file_total.
Context {NE BE BI PI I MP HD : Type}.
Context `{!BlockId BI, !BlockId PI, !ByteIndex I, !BTreeEntry NE, !BTreeEntry BE}.
Context `{!BlockBTreeEntry BE BI I, !BTreeEntry (BTreePageEntry PI I), !BTreeFormat PI}.
Context `{!BlockTrailerReadWrite BI, !IntermediateTreeEntry BI, !MapPage MP PI, !PageFormat PI}.
Context `{!PstHeader HD PI I, !DensityFormat PI}.

Lemma total_mark_allocations f root :
  total (mark_allocations (NE := NE) (BE := BE) (BI := BI) (MP := MP) f root).
Proof.
  unfold mark_allocations, mark_node_btree_allocations, mark_block_btree_allocations, MARK_FUEL.
  apply total_lift_bind. intros n Hn. pose proof (read_page_level _ _ _ Hn).
  apply total_bind; [apply total_mark; [intros; apply total_ret|lia]|]. intros _.
  apply total_lift_bind. intros b Hb. pose proof (read_page_level _ _ _ Hb).
  apply total_mark; [|lia]. intros l. apply total_fold. intros _ e. apply total_modify.
Qed.

Abbreviation State := (PstFileInner (NE := NE) (BE := BE) (PI := PI) (I := I) (HD := HD)).

Lemma total_put (g : State -> State) : total (m_put g).
Proof. done. Qed.
Lemma total_get {A} (g : State -> A) : total (m_get g).
Proof. done. Qed.
Lemma total_writer : total (S := State) get_writer.
Proof. done. Qed.
Local Hint Resolve total_put total_get total_writer total_modify : total.

Lemma total_write_header h : total (S := State) (write_header h).
Proof. unfold write_header, write_at. eauto 6 with total. Qed.

Lemma total_write_map_pages t pages : total (S := State) (write_map_pages t pages).
Proof. unfold write_map_pages, write_at. eauto 6 with total. Qed.

Lemma total_rebuild : total (S := State) (rebuild_allocation_map (BI := BI) (MP := MP)).
Proof.
  intros s. unfold rebuild_allocation_map. destruct (negb _); [done|].
  unfold compute_allocation_map. destruct (pst (amap_pages_new _)) as [infos|e|]; [|done..].
  pose proof (total_mark_allocations (wf_data (pf_file s)) (hd_root (pf_header s)) infos) as Hm.
  destruct (mark_allocations _ _ _) as [[[u|e|] infos']|]; [|done..].
  destruct (rbind _ _) as [m|e|]; [|done..]. revert s Hm.
  match goal with |- forall s, _ -> ?m s <> None => assert (Ht : total m); [|intros s _; apply Ht] end.
  unfold write_allocation_map.
  eauto 12 using total_write_map_pages, total_write_header with total.
Qed.

Lemma total_start_write : total (S := State) (start_write (BI := BI) (MP := MP)).
Proof.
  unfold start_write. apply total_bind; [apply total_rebuild|]. intros _.
  apply total_bind; [|eauto using total_write_header with total].
  intros s. unfold ensure_density_list. destruct (pf_density_list s) as [d|e|];
    repeat case_match; done.
Qed.

Lemma total_finish_write : total (S := State) finish_write.
Proof.
  unfold finish_write. apply total_bind; [eauto with total|]. intros _.
  apply total_bind; [eauto with total|]. intros h. apply total_bind.
  { intros s. unfold update_density_list_page_id. repeat case_match; done. }
  intros _. apply total_bind; [eauto with total|]. intros d.
  apply total_bind; [apply total_write_header|]. intros _.
  match goal with |- total (match ?o with _ => _ end) => destruct o end; [|apply total_ret].
  intros s. unfold write_density_list. by destruct (DensityListPage.write _ _ _).
Qed.
End file_total.

(** ** Lookups *)

Section lookups.
Set Default Proof Using "Type".
Context {BE BI I : Type} `{!BlockId BI, !ByteIndex I, !BlockBTreeEntry BE BI I}.
Context `{!BlockTrailerReadWrite BI, !BlockTrailerLaws BI, !IntermediateTreeEntry BI}.
Context (f : list Z) (encoding : NdbCryptMethod) (lens : nat -> nat).
Hypothesis Hlens : forall n, (0 < lens n)%nat.

(** A reader with as many bytes as it expects is read to its end. *)
Lemma read_to_end_holds chunks : forall r data,
  reader_holds (E := BE) f encoding r data -> 0 <= rdr_total_read r -> rdr_expected_size r < 2 ^ 64 ->
  rdr_expected_size r - rdr_total_read r = Z.of_nat (length data) ->
  (length data < chunks)%nat ->
  read_to_end chunks f encoding lens r = Some (Ok data).
Proof using BlockTrailerLaws0 Hlens.
  induction chunks as [|chunks IH]; intros r data Hr H0 Hmax Hd Hl; [lia|]. cbn [read_to_end].
  pose proof (Hlens chunks) as Hlen.
  destruct (Nat.eq_dec (length data) 0) as [Hnil|Hne].
  - apply length_zero_iff_nil in Hnil as ->.
    by rewrite (reader_read_end f encoding _ r []) by first [done | cbn in Hd; lia].
  - destruct (reader_read_some f encoding (lens chunks) r data) as (r' & -> & Hr' & He & Ht); [done..|lia|].
    set (n := Nat.min _ _) in *. assert (Hn : (0 < n)%nat) by lia.
    rewrite (IH r' _ Hr') by (rewrite ?length_drop; lia).
    destruct (take n data) as [|b chunk] eqn:Htk.
    + apply (f_equal length) in Htk. rewrite length_take in Htk. cbn in Htk. lia.
    + cbn [rbind]. by rewrite <- Htk, take_drop.
Qed.
End lookups.

(** ** A concrete file *)

(** The B-trees of [Header.sample_root], one page each, and a data block
    of three bytes. *)
Definition sample_block_leaf : UnicodeBlockBTreePage :=
  mk_BTreeLeafPage 20 24 [sample_entry 4 0x4e00 3] (sample_trailer BlockBTree 1).

Definition sample_data : list Z :=
  let pages := replicate (Z.to_nat 0x4a00) 0 ++ bytes_of (BTreePage.write sample_block_leaf) ++
    bytes_of (BTreePage.write sample_leaf1) in
  match DataTree.write (sample_leaf 4 [1; 2; 3]) (sample_entry 4 0x4e00 3) (mk_wfile pages 0) with
  | Ok f => wf_data f
  | _ => []
  end.

Definition sample_header : UnicodeHeader.t :=
  UnicodeHeader.new (Root.set_amap_status Header.sample_root AMap_Invalid) Permute.

Definition sample_pst (writer : PstResult unit) :
    PstFileInner (NE := UnicodeNodeBTreeEntry.t) (BE := UnicodeBlockBTreeEntry.t)
      (PI := UnicodePageId) (I := UnicodeByteIndex) (HD := UnicodeHeader.t) :=
  mk_PstFileInner (mk_wfile sample_data 0) writer sample_header (Err UnexpectedEof) ∅ ∅.

Definition sample_block_root : RootBTreePage.t (P := BlockBTree) (LE := UnicodeBlockBTreeEntry.t)
    (B := UnicodePageId) (I := UnicodeByteIndex) :=
  match RootBTreePage.read sample_data (block_btree (UnicodeHeader.root sample_header)) with
  | Ok p => p
  | _ => Leaf sample_block_leaf
  end.

Definition sample_tree : DataTree UnicodeBlockId :=
  match DataTree.read sample_data Permute (sample_entry 4 0x4e00 3) with
  | Ok t => t
  | _ => sample_leaf 4 []
  end.
Definition sample_blocks : list (DataBlock UnicodeBlockId) :=
  match sample_tree with DataTree_Leaf b => [b] | _ => [] end.

Lemma sample_empty_cache {P LE} `{!BTreeEntry LE} :
  cache_ok (P := P) (LE := LE) (B := UnicodePageId) (I := UnicodeByteIndex) sample_data
    (fun _ => False) ∅.
Proof. by intros r p []. Qed.

(** ** Properties *)

(** Reading a node.  When the root page of the node B-tree reads and
    the tree below it is well formed, [read_node] ends, gives the entry of
    the node when the tree has one and [BTreePageNotFound] otherwise, and
    leaves a page cache that still agrees with the file. *)
Theorem read_node_correct {NE BE BI PI I HD : Type}
    `{!BlockId BI, !BlockId PI, !ByteIndex I, !BTreeEntry NE, !BTreeEntry BE}
    `{!BTreeEntry (BTreePageEntry PI I), !BTreeFormat PI, !PstHeader HD PI I}
    (s : PstFileInner (NE := NE) (BE := BE) (PI := PI) (I := I) (HD := HD)) (node : NodeId)
    (known : BlockRef PI I -> Prop) (d : nat) (lo hi : Z) (es : list NE) (fuel : nat)
    (root : RootBTreePage.t (P := NodeBTree) (LE := NE) (B := PI) (I := I))
    (Hroot : RootBTreePage.read (wf_data (pf_file s)) (node_btree (hd_root (pf_header s))) = Ok root)
    (Hids : ids_unique (P := NodeBTree) (LE := NE) (wf_data (pf_file s)) known)
    (Htree : btree (wf_data (pf_file s)) known d root lo hi es) (Hfuel : (d < fuel)%nat)
    (Hcache : cache_ok (wf_data (pf_file s)) known (pf_node_cache s)) :
  exists c, read_node fuel node s =
      Some (btree_lookup es (node_id_0 node), set_node_cache c s) /\
    cache_ok (wf_data (pf_file s)) known c.
Proof.
  destruct (find_entry_tree (wf_data (pf_file s)) known d root lo hi es (node_id_0 node)
    (pf_node_cache s) fuel Hids Hcache Htree Hfuel) as (c & Hf & Hc).
  exists c. split; [|done]. unfold read_node, m_bind, m_get, m_lift, with_node_cache.
  by rewrite Hroot, Hf.
Qed.

Lemma read_node_correct_witness :
  exists c, read_node 1 (mk_NodeId 0x61) (sample_pst (Ok tt)) =
      Some (Ok (BTree.sample_node 0x61), set_node_cache c (sample_pst (Ok tt))) /\
    cache_ok sample_data (fun _ => False) c.
Proof.
  assert (btree_lookup [BTree.sample_node 0x21; BTree.sample_node 0x61] 0x61 = Ok (BTree.sample_node 0x61)) as <-
    by (vm_compute; reflexivity).
  eapply (read_node_correct (BI := UnicodeBlockId) (sample_pst (Ok tt)) (mk_NodeId 0x61) (fun _ => False) 0 0 0x100).
  - vm_compute. reflexivity.
  - by intros r1 r2 [].
  - split; [reflexivity|]. repeat constructor; vm_compute; done.
  - lia.
  - apply sample_empty_cache.
Defined.

(** C8: reading a block.  When the block B-tree is well formed, [read_block]
    of an id the tree does not have is [BTreePageNotFound]; and of one it
    has, whose data tree is complete and at most 64 MiB, is all the data of
    its blocks, in order, whatever the sizes of the buffers that
    [read_to_end] uses.  The page cache still agrees with the file. *)
Theorem read_block_correct {NE BE BI PI I HD : Type}
    `{!BlockId BI, !BlockId PI, !ByteIndex I, !BTreeEntry NE, !BTreeEntry BE}
    `{!BlockBTreeEntry BE BI I, !BTreeEntry (BTreePageEntry PI I), !BTreeFormat PI}
    `{!BlockTrailerReadWrite BI, !BlockTrailerLaws BI, !IntermediateTreeEntry BI}
    `{!BlockIdLaws BI, !PstHeader HD PI I}
    (s : PstFileInner (NE := NE) (BE := BE) (PI := PI) (I := I) (HD := HD)) (block : BI)
    (known : BlockRef PI I -> Prop) (d : nat) (lo hi : Z) (es : list BE) (fuel chunks : nat)
    (lens : nat -> nat)
    (root : RootBTreePage.t (P := BlockBTree) (LE := BE) (B := PI) (I := I))
    (Hroot : RootBTreePage.read (wf_data (pf_file s)) (block_btree (hd_root (pf_header s))) = Ok root)
    (Hids : ids_unique (P := BlockBTree) (LE := BE) (wf_data (pf_file s)) known)
    (Htree : btree (wf_data (pf_file s)) known d root lo hi es) (Hfuel : (d < fuel)%nat)
    (Hkey : forall e : BE, be_key e = bid_search_key (bref_block (bbe_block e)))
    (Hcache : cache_ok (wf_data (pf_file s)) known (pf_block_cache s))
    (Hlens : forall n, (0 < lens n)%nat) :
  match btree_lookup es (bid_search_key block) with
  | Ok e => forall t bs,
      DataTree.read (wf_data (pf_file s)) (hd_crypt_method (pf_header s)) e = Ok t ->
      level_ok t -> DataTree.declared_size t <= MAX_MATERIALIZED_DATA_TREE_BYTES ->
      tree_blocks (E := BE)
        (BlockFindLaws0 := btree_find_laws (wf_data (pf_file s)) root fuel known d lo hi es
                             Hids Htree Hfuel Hkey)
        (wf_data (pf_file s)) (hd_crypt_method (pf_header s)) t bs ->
      (length (blocks_data bs) < chunks)%nat ->
      exists c, read_block fuel chunks lens block s =
          Some (Ok (blocks_data bs), set_block_cache c s) /\
        cache_ok (wf_data (pf_file s)) known c
  | err => exists c, read_block fuel chunks lens block s =
          Some (match err with Err e => Err e | _ => Panic end, set_block_cache c s) /\
        cache_ok (wf_data (pf_file s)) known c
  end.
Proof.
  set (f := wf_data (pf_file s)) in *. set (enc := hd_crypt_method (pf_header s)) in *.
  destruct (find_entry_tree f known d root lo hi es (bid_search_key block)
    (pf_block_cache s) fuel Hids Hcache Htree Hfuel) as (c & Hf & Hc).
  assert (Hrun : forall r, read_block_data fuel chunks lens f enc root block (pf_block_cache s) = Some r ->
    read_block fuel chunks lens block s = Some (r.1, set_block_cache r.2 s)).
  { intros [r c'] Hr. unfold read_block, m_bind, m_get, m_lift, with_block_cache. fold f.
    rewrite Hroot. fold enc. by rewrite Hr. }
  assert (Hdata : read_block_data fuel chunks lens f enc root block (pf_block_cache s) =
    match btree_lookup es (bid_search_key block) with
    | Ok e => read_block_data fuel chunks lens f enc root block (pf_block_cache s)
    | Err e => Some (Err e, c) | Panic => Some (Panic, c) end).
  { destruct (btree_lookup es (bid_search_key block)) as [e|e|] eqn:Hl; [done|..];
      unfold read_block_data, m_bind; by rewrite Hf. }
  destruct (btree_lookup es (bid_search_key block)) as [e|e|] eqn:Hl.
  - intros t bs Ht Hlv Hd Hbs Hch. clear Hdata.
    destruct (open_reader_holds f enc t (c, ∅) bs (BlockFindLaws0 := btree_find_laws f root fuel known d lo hi es
      Hids Htree Hfuel Hkey)) as (r & [c2 bl] & Hopen & [Hinv _] & Hh & H0 & He & Hmax); [|done..|].
    + split; [done|]. intros id t' H. exfalso. exact (lookup_empty_Some (M := gmap Z) _ _ H).
    + exists c2. split; [|exact Hinv]. apply (Hrun (Ok (blocks_data bs), c2)).
      unfold read_block_data, m_bind, m_lift. rewrite Hf, Ht, Hopen.
      rewrite (read_to_end_holds f enc lens Hlens chunks r (blocks_data bs)); [done|done|lia..].
  - exists c. split; [|done]. by apply (Hrun (Err e, c)).
  - exists c. split; [|done]. by apply (Hrun (Panic, c)).
Qed.

Lemma read_block_correct_witness :
  exists c, read_block 1 4 (fun _ => 2%nat) (mk_UnicodeBlockId 4) (sample_pst (Ok tt)) =
      Some (Ok [1; 2; 3], set_block_cache c (sample_pst (Ok tt))) /\
    cache_ok sample_data (fun _ => False) c.
Proof.
  assert (blocks_data sample_blocks = [1; 2; 3]) as <- by (vm_compute; reflexivity).
  assert (Hids : ids_unique (P := BlockBTree) (LE := UnicodeBlockBTreeEntry.t)
    (B := UnicodePageId) (I := UnicodeByteIndex) sample_data (fun _ => False)) by by intros r1 r2 [].
  assert (exists l, sample_block_root = Leaf l /\ [sample_entry 4 0x4e00 3] = btl_entries l)
    as (l & Hleaf & Hes) by (eexists; split; vm_compute; reflexivity).
  assert (Htree : btree (P := BlockBTree) (B := UnicodePageId) (I := UnicodeByteIndex) sample_data
    (fun _ => False) 0 sample_block_root 0 0x100 [sample_entry 4 0x4e00 3]).
  { rewrite Hleaf. split; [exact Hes|]. repeat constructor; vm_compute; done. }
  assert (Hroot : RootBTreePage.read (wf_data (pf_file (sample_pst (Ok tt))))
    (block_btree (hd_root (pf_header (sample_pst (Ok tt))))) = Ok sample_block_root)
    by (vm_compute; reflexivity).
  pose proof (read_block_correct (sample_pst (Ok tt)) (mk_UnicodeBlockId 4) (fun _ => False) 0 0 0x100
    [sample_entry 4 0x4e00 3] 1 4 (fun _ => 2%nat) sample_block_root Hroot Hids Htree Nat.lt_0_1
    unicode_block_key sample_empty_cache (fun _ => Nat.lt_0_2)) as H.
  assert (Hl : btree_lookup [sample_entry 4 0x4e00 3] (bid_search_key (mk_UnicodeBlockId 4)) =
    Ok (sample_entry 4 0x4e00 3)) by (vm_compute; reflexivity).
  rewrite Hl in H. apply (H sample_tree sample_blocks).
  - vm_compute. reflexivity.
  - vm_compute. exact Logic.I.
  - vm_compute. discriminate.
  - vm_compute. reflexivity.
  - vm_compute. repeat constructor.
Defined.
