(* ===== verification/Transactions.v ===== *)
(** * Transactions

    What [start_write], [finish_write] and the rebuild of the allocation map
    do to a file: which slots of the rebuilt map are in use, which bytes
    of the file may change, and what a reader finds on disk afterwards. *)
From S2P Require Import Prelude Errors Io Crc Ids Header Page FreeBits BTree Block Lookup DataTree Amap PstFile.

(** ** What the computations change *)

(** The laws of headers: what is written reads back, and the updates keep
    the header writable. *)
Class PstHeaderLaws (HD PI I : Type) `{!BlockId PI, !ByteIndex I, !PstHeader HD PI I} := {
  hd_wf : HD -> Prop;
  hd_codec : forall h, hd_wf h -> exists bs, hd_write h = Ok bs /\ (length bs <= 564)%nat /\
    forall s, hd_read (bs ++ s) = Ok (h, s);
  hd_wf_root : forall h, hd_wf h -> ser_wf (hd_root h);
  hd_wf_set_root : forall r h, ser_wf r -> hd_wf h -> hd_wf (hd_set_root r h);
  hd_root_set : forall r h, hd_root (hd_set_root r h) = r;
  hd_wf_unique : forall h, hd_wf h -> hd_wf (hd_update_unique h);
  hd_root_unique : forall h, hd_root (hd_update_unique h) = hd_root h;
  hd_wf_free_map : forall m h, array_wf 128 m -> hd_wf h -> hd_wf (hd_set_first_free_map m h);
  hd_root_free_map : forall m h, hd_root (hd_set_first_free_map m h) = hd_root h
}.

#[export] Instance UnicodeHeader_laws : PstHeaderLaws UnicodeHeader.t UnicodePageId UnicodeByteIndex.
Proof.
  refine {| hd_wf := UnicodeHeader.wf |}.
  - intros h Hh. destruct (unicode_header_codec h Hh) as (bs & H1 & H2 & H3). exists bs.
    split_and!; [done|lia|done].
  - intros h Hh. apply Hh.
  - intros r h Hr Hh. unfold UnicodeHeader.wf in *. cbn in *. tauto.
  - done.
  - intros h Hh. unfold UnicodeHeader.wf in *. cbn in *. split; [apply Hh|].
    split; [by apply wrap_uint|]. tauto.
  - done.
  - intros m h Hm Hh. unfold UnicodeHeader.wf in *. cbn in *. tauto.
  - done.
Defined.

#[export] Instance AnsiHeader_laws : PstHeaderLaws AnsiHeader.t AnsiPageId AnsiByteIndex.
Proof.
  refine {| hd_wf := AnsiHeader.wf |}.
  - intros h Hh. destruct (ansi_header_codec h Hh) as (bs & H1 & H2 & H3). exists bs.
    split_and!; [done|lia|done].
  - intros h Hh. apply Hh.
  - intros r h Hr Hh. unfold AnsiHeader.wf in *. cbn in *. tauto.
  - done.
  - intros h Hh. unfold AnsiHeader.wf in *. cbn in *. split; [apply Hh|]. split; [apply Hh|].
    split; [by apply wrap_uint|]. tauto.
  - done.
  - intros m h Hm Hh. unfold AnsiHeader.wf in *. cbn in *. tauto.
  - done.
Defined.

(** *** Marked maps *)

Section marked_maps.
Set Default Proof Using "Type".
Context {MP PI : Type} `{!BlockId PI, !MapPage MP PI, !MapPageLaws MP PI}.

Abbreviation Infos := (list (AllocationMapPageInfo MP)).

(** Slots in use: an offset of the file and a number of slots. *)
Definition extent : Type := Z * Z.
Definition extent_covers (i p : Z) (x : extent) : bool :=
  (amap_index_of (fst x) =? i) && covered (slot_of (fst x)) (snd x) p.

(** The bits of [infos'] are those of [infos] and those of the extents. *)
Definition marks (exts : list extent) (infos infos' : Infos) : Prop :=
  Forall info_bits_ok infos' /\ length infos' = length infos /\
  forall i a b, infos !! i = Some a -> infos' !! i = Some b ->
    mp_trailer (ai_amap_page b) = mp_trailer (ai_amap_page a) /\
    forall p, 0 <= p < 3968 ->
      map_bit (mp_bits (ai_amap_page b)) p =
        map_bit (mp_bits (ai_amap_page a)) p || existsb (extent_covers (Z.of_nat i) p) exts.

Lemma marks_nil infos : Forall info_bits_ok infos -> marks [] infos infos.
Proof.
  intros Hok. split_and!; [done..|]. intros i a b Ha Hb. rewrite Ha in Hb. injection Hb as ->.
  split; [done|]. intros p _. by rewrite orb_false_r.
Qed.

Lemma marks_app x y infos infos1 infos2 :
  marks x infos infos1 -> marks y infos1 infos2 -> marks (x ++ y) infos infos2.
Proof.
  intros (_ & Hl1 & H1) (Hok & Hl2 & H2). split; [done|]. split; [lia|]. intros i a b Ha Hb.
  destruct (lookup_lt_is_Some_2 infos1 i) as [c Hc].
  { rewrite Hl1. by eapply lookup_lt_Some. }
  destruct (H1 i a c Ha Hc) as [Ht1 Hb1]. destruct (H2 i c b Hc Hb) as [Ht2 Hb2].
  split; [congruence|]. intros p Hp. by rewrite Hb2, Hb1, existsb_app, orb_assoc.
Qed.

Lemma amap_index_nonneg index : 0 <= amap_index_of index.
Proof. apply Z.div_pos; [|done]. by apply Z.mod_pos_bound. Qed.

Lemma mark_result_marks index n infos infos' :
  Forall info_bits_ok infos -> mark_result index n infos (Ok infos') ->
  marks [(index, n)] infos infos'.
Proof using MapPageLaws0.
  intros Hok H. unfold mark_result in H. destruct (infos !! _) as [entry|] eqn:Hl; [|done].
  destruct (_ <=? _); [|done]. destruct H as (bits & [= ->] & Hlen & Hb & Hm).
  assert (He : info_bits_ok entry) by by eapply Forall_lookup_1. destruct He as [He _].
  split.
  { apply Forall_insert; [done|]. unfold info_bits_ok. cbn [ai_amap_page]. rewrite mp_bits_set.
    split; [congruence|done]. }
  split; [by rewrite length_insert|]. intros i a b Ha Hb'. unfold extent_covers. cbn [existsb fst snd].
  pose proof (amap_index_nonneg index) as H0.
  destruct (decide (Z.to_nat (amap_index_of index) = i)) as [<-|Hne].
  - rewrite list_lookup_insert_eq in Hb' by by eapply lookup_lt_Some.
    rewrite Hl in Ha. injection Ha as <-. injection Hb' as <-. cbn [ai_amap_page].
    rewrite mp_trailer_set, mp_bits_set. split; [done|]. intros p Hp.
    rewrite Hm by lia. rewrite Z2Nat.id by done. by rewrite Z.eqb_refl, orb_false_r.
  - rewrite list_lookup_insert_ne in Hb' by done. rewrite Ha in Hb'. injection Hb' as ->.
    split; [done|]. intros p _. destruct (Z.eqb_spec (amap_index_of index) (Z.of_nat i)); [lia|].
    cbn. by rewrite orb_false_r.
Qed.
End marked_maps.

(** *** What the B-trees use *)

Section extents.
Set Default Proof Using "Type".
Context {P : PageType} {LE PI I MP : Type}.
Context `{!BlockId PI, !ByteIndex I, !BTreeEntry LE, !BTreeEntry (BTreePageEntry PI I)}.
Context `{!BTreeFormat PI, !MapPage MP PI, !MapPageLaws MP PI}.

Abbreviation page := (RootBTreePage.t (P := P) (LE := LE) (B := PI) (I := I)).
Context (f : list Z) (leaf_extents : BTreeLeafPage P LE PI -> list extent -> Prop).

(** The extents of a tree: its pages, of eight slots each, and those of its
    leaves. *)
Inductive tree_extents : I -> page -> list extent -> Prop :=
| leaf_tree idx l x : leaf_extents l x -> tree_extents idx (Leaf l) ((bi_index idx, 8) :: x)
| node_tree idx n x : children_extents (bte_entries n) x ->
    tree_extents idx (Intermediate n) ((bi_index idx, 8) :: x)
with children_extents : list (BTreePageEntry PI I) -> list extent -> Prop :=
| no_children : children_extents [] []
| one_child e es child x y : RootBTreePage.read f (bpe_block e) = Ok child ->
    tree_extents (bref_index (bpe_block e)) child x -> children_extents es y ->
    children_extents (e :: es) (x ++ y).

Lemma children_of_Forall2 es xs :
  Forall2 (fun e x => exists child, RootBTreePage.read f (bpe_block e) = Ok child /\
    tree_extents (bref_index (bpe_block e)) child x) es xs ->
  children_extents es (concat xs).
Proof. induction 1 as [|e x es xs (child & Hr & Hx) _ IH]; cbn; econstructor; done. Qed.

Lemma mark_page_marks idx infos infos' :
  Forall info_bits_ok infos -> mark_page_allocation idx infos = Ok infos' ->
  marks (MP := MP) [(idx, 8)] infos infos'.
Proof using MapPageLaws0.
  intros Hok H. apply mark_result_marks; [done|]. rewrite <- H. by apply mark_page_result.
Qed.

Lemma m_modify_ok {S} (g : S -> io_result S) s u t :
  m_modify g s = Some (Ok u, t) -> g s = Ok t.
Proof. unfold m_modify. destruct (g s); intros; by simplify_eq. Qed.

Lemma fold_marks {A} (step : unit -> A -> M (list (AllocationMapPageInfo MP)) unit)
    (R : A -> list extent -> Prop) :
  forall l, (forall a infos infos', a ∈ l -> Forall info_bits_ok infos ->
    step tt a infos = Some (Ok tt, infos') -> exists x, R a x /\ marks x infos infos') ->
  forall infos infos', Forall info_bits_ok infos -> m_fold step l tt infos = Some (Ok tt, infos') ->
  exists xs, Forall2 R l xs /\ marks (concat xs) infos infos'.
Proof.
  induction l as [|a l IH]; intros Hs infos infos' Hok H; cbn [m_fold] in H.
  - injection H as <-. exists []. split; [constructor|]. by apply marks_nil.
  - apply m_bind_ok in H as ([] & infos1 & H1 & H2).
    destruct (Hs a infos infos1) as (x & Hx & Hm); [by left|done..|].
    destruct (IH (fun a' i i' Hin => Hs a' i i' (list_elem_of_further _ _ _ Hin)) infos1 infos' (proj1 Hm) H2) as (xs & Hxs & Hms).
    exists (x :: xs). split; [by constructor|]. by eapply marks_app.
Qed.

Lemma mark_btree_marks leaf fuel :
  (forall r l infos infos', RootBTreePage.read f r = Ok (Leaf l) ->
    Forall info_bits_ok infos -> leaf l infos = Some (Ok tt, infos') ->
    exists x, leaf_extents l x /\ marks x infos infos') ->
  forall r (p : page) infos infos', RootBTreePage.read f r = Ok p -> Forall info_bits_ok infos ->
    mark_btree_allocations (MP := MP) fuel leaf f (bref_index r) p infos = Some (Ok tt, infos') ->
    exists x, tree_extents (bref_index r) p x /\ marks x infos infos'.
Proof using MapPageLaws0.
  intros Hleaf. induction fuel as [|fuel IH]; intros r p infos infos' Hr Hok H; [done|].
  cbn [mark_btree_allocations] in H. apply m_bind_ok in H as ([] & infos1 & H1 & H).
  apply m_modify_ok in H1. apply mark_page_marks in H1; [|done]. pose proof (proj1 H1) as Hok1.
  destruct p as [n|l].
  - apply (fold_marks _ (fun e x => exists child, RootBTreePage.read f (bpe_block e) = Ok child /\
      tree_extents (bref_index (bpe_block e)) child x)) in H as (xs & Hxs & Hm); [| |done].
    + eexists. split; [by constructor; apply children_of_Forall2|]. by eapply (marks_app [_]).
    + intros e i i' _ Hi He. apply m_bind_ok in He as (child & i1 & Hc & He).
      apply m_bind_ok in He as ([] & i2 & Hck & He). unfold m_lift in Hc, Hck.
      injection Hc as Hc <-. injection Hck as Hck <-.
      destruct (IH _ _ _ _ Hc Hi He) as (x & Hx & Hm). exists x. eauto.
  - apply (Hleaf r) in H as (x & Hx & Hm); [|done..].
    eexists. split; [by constructor|]. by eapply (marks_app [_]).
Qed.
End extents.

(** The size of a block entry that was read is a [u16]. *)
Class BlockEntryLaws (E B I : Type) `{!BlockId B, !BTreeEntry E, !BlockBTreeEntry E B I} := {
  bbe_size_uint : forall s (e : E) t, bytes_ok s -> ser_read s = Ok (e, t) -> uint 16 (bbe_size e)
}.

Lemma block_ref_rest {B I} `{!BlockId B, !ByteIndex I, !Canonical B, !Canonical I} s
    (r : BlockRef B I) t : bytes_ok s -> ser_read s = Ok (r, t) -> bytes_ok t.
Proof.
  intros Hs H. apply can_write in H as [-> _]; [|done]. by apply Forall_app in Hs as [_ Ht].
Qed.

#[export] Instance UnicodeBlockEntry_laws :
  BlockEntryLaws UnicodeBlockBTreeEntry.t UnicodeBlockId UnicodeByteIndex.
Proof.
  split. intros s e t Hs H. cbn [ser_read be_serial UnicodeBlockBTreeEntry_entry] in H.
  unfold UnicodeBlockBTreeEntry.read in H. rd_inv.
  match goal with H : ser_read s = Ok _ |- _ => apply block_ref_rest in H; [|done] end.
  match goal with H : read_u16 _ = Ok (?x, _) |- uint 16 _ => apply read_u16_ok in H; [apply H|done] end.
Qed.

#[export] Instance AnsiBlockEntry_laws :
  BlockEntryLaws AnsiBlockBTreeEntry.t AnsiBlockId AnsiByteIndex.
Proof.
  split. intros s e t Hs H. cbn [ser_read be_serial AnsiBlockBTreeEntry_entry] in H.
  unfold AnsiBlockBTreeEntry.read in H. rd_inv.
  match goal with H : ser_read s = Ok _ |- _ => apply block_ref_rest in H; [|done] end.
  match goal with H : read_u16 _ = Ok (?x, _) |- uint 16 _ => apply read_u16_ok in H; [apply H|done] end.
Qed.

Section leaf_entries.
Set Default Proof Using "Type".
Context {P : PageType} {LE PI I : Type}.
Context `{!BlockId PI, !ByteIndex I, !BTreeEntry LE, !BTreeEntry (BTreePageEntry PI I)}.
Context `{!BTreeFormat PI}.

(** The entries of a leaf page of the file were read from its bytes. *)
Lemma read_leaf_entries (f : list Z) (r : BlockRef PI I) (l : BTreeLeafPage P LE PI) :
  bytes_ok f -> RootBTreePage.read f r = Ok (Leaf l) ->
  forall e, e ∈ btl_entries l -> exists s t, bytes_ok s /\ ser_read s = Ok (e, t).
Proof.
  intros Hf H. unfold RootBTreePage.read, read_at in H. repeat res_step. inv_ok.
  unfold RootBTreePage.read_page in E. apply rd_bind_ok in E as (buf & u & Hbuf & E).
  apply read_exact_ok in Hbuf as [Hbuf _].
  assert (Hb : bytes_ok buf) by (apply (Forall_drop _ (Z.to_nat (bi_index (bref_index r)))) in Hf;
    rewrite Hbuf in Hf; by apply Forall_app in Hf as [? _]).
  apply rd_bind_ok in E as (lv & u' & _ & E).
  destruct (lv =? 0); apply rd_bind_ok in E as (n & u2 & En & E); [|done]. injection E as <- _.
  unfold with_cursor in En. apply rbind_ok in En as ([n' t] & En & [= <- _]).
  unfold BTreePage.read in En. rd_inv.
  match goal with x : Z * Z * Z * Z |- _ => destruct x as [[[? size] ?] ?] end. rd_inv.
  match goal with H : read_exact _ _ = Ok _ |- _ => apply read_exact_ok in H as [-> _] end.
  apply Forall_app in Hb as [Hb _].
  match goal with H : ndb _ = Ok _ |- _ => apply ndb_ok in H; cbn [btp_new BTreeLeafPage_page] in H;
    unfold BTreeLeafPage.new in H; repeat res_step; inv_ok end.
  match goal with H : rmapM _ _ = Ok _ |- _ => apply rmapM_Forall2 in H; rename H into Hes end.
  intros e Hin. cbn [btl_entries] in Hin. apply list_elem_of_lookup in Hin as [i Hi].
  destruct (Forall2_lookup_r _ _ _ _ _ Hes Hi) as (j & _ & Hj).
  unfold BTreePage.read_entry in Hj. apply rbind_ok in Hj as (bytes & Hsl & Hj).
  apply rbind_ok in Hj as ([e' t'] & Hrd & [= ->]). unfold slice in Hsl.
  destruct (_ <? _)%nat; [done|]. injection Hsl as <-. eexists _, t'. split; [|exact Hrd].
  by apply Forall_take, Forall_drop.
Qed.
End leaf_entries.

(** *** The new allocation map *)

Class PageFormatLaws (B : Type) `{!BlockId B, !PageFormat B} := {
  pf_page_id_value : forall x, bid_into_u64 (pf_page_id x) = x;
  pf_trailer_id : forall t s (b : B) c, pt_block_id (pf_trailer t s b c) = b;
  pf_trailer_type : forall t s (b : B) c, page_type (pf_trailer t s b c) = t
}.

#[export] Instance UnicodePageFormat_laws : PageFormatLaws UnicodePageId.
Proof. by split. Qed.
#[export] Instance AnsiPageFormat_laws : PageFormatLaws AnsiPageId.
Proof. by split. Qed.

Section new_maps.
Set Default Proof Using "Type".
Context {MP PI : Type} `{!BlockId PI, !MapPage MP PI, !MapPageLaws MP PI}.
Context `{!PageFormat PI, !PageFormatLaws PI}.

(** The pages of a map follow each other at a distance of [data_size]. *)
Definition pages_at (data_size first : Z) (pages : list MP) : Prop :=
  forall i page, pages !! i = Some page ->
    bid_into_u64 (pt_block_id (mp_trailer page)) = wrap 64 (Z.of_nat i * data_size + first) /\
    length (mp_bits page) = 496%nat.

Lemma map_page_at_ok t data_size first index bits (page : MP) :
  map_page_at t data_size first index bits = Ok page ->
  mp_bits page = bits /\
  bid_into_u64 (pt_block_id (mp_trailer page)) = wrap 64 (index * data_size + first).
Proof using MapPageLaws0 PageFormatLaws0.
  unfold map_page_at, index_try_from. intros H. repeat res_step. inv_ok.
  destruct (mp_new _ _ _) eqn:Hnew in H; [|done..]. injection H as ->.
  apply mp_new_bits in Hnew as [-> ->]. by rewrite pf_trailer_id, pf_page_id_value.
Qed.

Lemma pages_at_seq {E} (mk : Z -> res E MP) data_size first n pages :
  (forall i p, mk i = Ok p -> length (mp_bits p) = 496%nat /\
    bid_into_u64 (pt_block_id (mp_trailer p)) = wrap 64 (i * data_size + first)) ->
  rmapM mk (seqZ 0 n) = Ok pages -> pages_at data_size first pages.
Proof.
  intros Hmk H i p Hi. apply rmapM_Forall2 in H.
  destruct (Forall2_lookup_r _ _ _ _ _ H Hi) as (j & Hj & Hp).
  apply lookup_seqZ in Hj as [-> _]. apply Hmk in Hp as [? ?]. by rewrite Z.add_0_l in *.
Qed.

Lemma amap_pages_new_ok num (pages : list (AllocationMapPageInfo MP)) :
  amap_pages_new num = Ok pages ->
  length pages = Z.to_nat num /\ Forall info_bits_ok pages /\
  pages_at AMAP_DATA_SIZE AMAP_FIRST_OFFSET (map ai_amap_page pages) /\
  forall i a p, pages !! i = Some a -> 0 <= p < 3968 ->
    map_bit (mp_bits (ai_amap_page a)) p = (p <? 8 * reserved_pages (Z.of_nat i)).
Proof using MapPageLaws0 PageFormatLaws0.
  intros H. unfold amap_pages_new in H.
  assert (Hlook : forall i a, pages !! i = Some a -> amap_page_new (Z.of_nat i) = Ok a).
  { intros i a Hi. apply rmapM_Forall2 in H.
    destruct (Forall2_lookup_r _ _ _ _ _ H Hi) as (j & Hj & Ha).
    apply lookup_seqZ in Hj as [-> _]. by rewrite Z.add_0_l in Ha. }
  assert (Hpage : forall i a, amap_page_new i = Ok a ->
    mp_bits (ai_amap_page a) = replicate (Z.to_nat (reserved_pages i)) 0xFF ++
      replicate (496 - Z.to_nat (reserved_pages i)) 0 /\
    bid_into_u64 (pt_block_id (mp_trailer (ai_amap_page a))) =
      wrap 64 (i * AMAP_DATA_SIZE + AMAP_FIRST_OFFSET)).
  { intros i a Ha. unfold amap_page_new in Ha. repeat res_step. inv_ok.
    by apply map_page_at_ok in E. }
  assert (Hlen : forall i, length (replicate (Z.to_nat (reserved_pages i)) 0xFF ++
      replicate (496 - Z.to_nat (reserved_pages i)) 0) = 496%nat).
  { intros i. pose proof (reserved_pages_bound i). rewrite length_app, !length_replicate. lia. }
  split; [apply rmapM_length in H; by rewrite length_seqZ in H|].
  split_and!.
  - apply Forall_lookup_2. intros i a Hi. apply Hlook, Hpage in Hi as [Hb _].
    split; [by rewrite Hb|]. rewrite Hb. apply bytes_ok_app; by apply Forall_replicate.
  - intros i p Hi. apply list_lookup_fmap_Some_1 in Hi as (a & -> & Ha).
    apply Hlook, Hpage in Ha as [Hb Ho]. by rewrite Hb.
  - intros i a p Hi Hp. apply Hlook, Hpage in Hi as [-> _].
    pose proof (reserved_pages_bound (Z.of_nat i)). rewrite map_bit_app by lia.
    rewrite length_replicate.
    destruct (Z.ltb_spec p (8 * Z.of_nat (Z.to_nat (reserved_pages (Z.of_nat i)))));
      destruct (Z.ltb_spec p (8 * reserved_pages (Z.of_nat i))); try lia.
    + rewrite map_bit_replicate by lia. apply testbit_ff, Z.mod_pos_bound. lia.
    + rewrite map_bit_replicate by lia. apply Z.testbit_0_l.
Qed.
End new_maps.

(** *** The rebuilt map *)

Section rebuilt.
Set Default Proof Using "Type".
Context {NE BE BI PI I MP : Type}.
Context `{!BlockId BI, !BlockId PI, !ByteIndex I, !BTreeEntry NE, !BTreeEntry BE}.
Context `{!BlockBTreeEntry BE BI I, !BTreeEntry (BTreePageEntry PI I), !BTreeFormat PI}.
Context `{!BlockTrailerReadWrite BI, !MapPage MP PI, !PageFormat PI}.
Context `{!MapPageLaws MP PI, !PageFormatLaws PI, !BlockEntryLaws BE BI I}.
Context `{!BlockTrailerLaws BI}.

(** The slots of a block: its data, trailer and padding. *)
Definition block_extent (e : BE) (x : extent) : Prop := exists total,
  block_size (bbe_size e + TRAILER_SIZE (B := BI)) = Ok total /\
  x = (bi_index (bref_index (bbe_block e)), total / 64).

(** The pages of the node B-tree, those of the block B-tree and the blocks
    its leaves list. *)
Definition used_extents (f : list Z) (root : Root I (BlockRef PI I)) (x : list extent) : Prop :=
  exists (nbt : RootBTreePage.t (P := NodeBTree) (LE := NE) (B := PI) (I := I))
    (bbt : RootBTreePage.t (P := BlockBTree) (LE := BE) (B := PI) (I := I)) y z,
    RootBTreePage.read f (node_btree root) = Ok nbt /\
    tree_extents f (fun _ x => x = []) (bref_index (node_btree root)) nbt y /\
    RootBTreePage.read f (block_btree root) = Ok bbt /\
    tree_extents f (fun l x => Forall2 block_extent (btl_entries l) x)
      (bref_index (block_btree root)) bbt z /\
    x = y ++ z.

Lemma mark_block_marks (e : BE) (infos infos' : list (AllocationMapPageInfo MP)) :
  0 <= bbe_size e -> Forall info_bits_ok infos ->
  mark_block_allocation (TRAILER_SIZE (B := BI)) (bi_index (bref_index (bbe_block e)))
    (bbe_size e) infos = Ok infos' ->
  exists x, block_extent e x /\ marks [x] infos infos'.
Proof using MapPageLaws0 BlockTrailerLaws0.
  intros He Hok H. destruct (bt_size_ok (B := BI)) as [_ Htr].
  assert (Hsz : 0 <= bbe_size e + TRAILER_SIZE (B := BI)) by lia.
  pose proof (mark_block_result (TRAILER_SIZE (B := BI)) (bi_index (bref_index (bbe_block e)))
    (bbe_size e) infos Hok Hsz) as Hr. rewrite H in Hr.
  destruct (block_size _) as [total|er|] eqn:Hb; [|by destruct Hr..].
  exists (bi_index (bref_index (bbe_block e)), total / 64). split; [by exists total|].
  by apply mark_result_marks.
Qed.

Lemma mark_allocations_marks f root (infos infos' : list (AllocationMapPageInfo MP)) :
  bytes_ok f -> Forall info_bits_ok infos ->
  mark_allocations (NE := NE) (BE := BE) (BI := BI) f root infos = Some (Ok tt, infos') ->
  exists x, used_extents f root x /\ marks x infos infos'.
Proof using MapPageLaws0 BlockTrailerLaws0 BlockEntryLaws0.
  intros Hf Hok H. unfold mark_allocations in H.
  apply m_bind_ok in H as (nbt & s1 & Hn & H). injection Hn as Hn <-.
  apply m_bind_ok in H as ([] & s2 & H1 & H).
  apply m_bind_ok in H as (bbt & s3 & Hb & H). injection Hb as Hb <-.
  apply (mark_btree_marks f (fun _ x => x = [])) in H1 as (y & Hy & Hmy); [| |done..].
  2: { intros r l i i' _ Hi [= <-]. exists []. split; [done|]. by apply marks_nil. }
  apply (mark_btree_marks f (fun l x => Forall2 block_extent (btl_entries l) x)) in H
    as (z & Hz & Hmz); [| |done|apply Hmy].
  - exists (y ++ z). split; [|by eapply marks_app]. by exists nbt, bbt, y, z.
  - intros r l i i' Hr Hi Hl.
    apply (fold_marks _ (fun e x => exists x1, block_extent e x1 /\ x = [x1])) in Hl
      as (xs & Hxs & Hm); [| |done].
    + exists (concat xs). split; [|done]. clear - Hxs.
      induction Hxs as [|e x es xs (x1 & Hx & ->) _ IH]; cbn; by constructor.
    + intros e j j' Hin Hj He. apply m_modify_ok in He.
      destruct (read_leaf_entries f r l Hf Hr e Hin) as (s & t & Hs & Hrd).
      destruct (mark_block_marks e j j') as (x & Hx & Hm); [|done..|eauto].
      by apply (bbe_size_uint s e t).
Qed.

(** The bits of the rebuilt map. *)
Lemma compute_allocation_map_ok f root m :
  bytes_ok f ->
  compute_allocation_map (NE := NE) (BE := BE) (BI := BI) (MP := MP) f root = Some (Ok m) ->
  exists infos x, amap_pages_new (num_amap_pages root) = Ok infos /\
    used_extents f root x /\ marks x infos (rb_amap_pages m) /\
    index_try_from (pf_index_bits (B := PI)) (sum_free_space (rb_amap_pages m)) = Ok (rb_free_bytes m) /\
    free_slots_from 0 128 (rb_amap_pages m) = Ok (rb_first_fmap m) /\
    pmap_pages (num_amap_pages root) = Ok (rb_pmap_pages m) /\
    fmap_pages (num_amap_pages root) (rb_amap_pages m) = Ok (rb_fmap_pages m) /\
    fpmap_pages (num_amap_pages root) = Ok (rb_fpmap_pages m).
Proof using MapPageLaws0 PageFormatLaws0 BlockTrailerLaws0 BlockEntryLaws0.
  intros Hf H. unfold compute_allocation_map in H.
  destruct (pst (amap_pages_new _)) as [infos|e|] eqn:Hnew; [|done..]. apply pst_ok in Hnew.
  destruct (mark_allocations _ _ _) as [[[[]|e|] infos']|] eqn:Hm; [|done..].
  injection H as H. repeat res_step. inv_ok.
  repeat match goal with H : pst _ = Ok _ |- _ => apply pst_ok in H end.
  apply mark_allocations_marks in Hm as (x & Hx & Hm); [|done|by apply amap_pages_new_ok in Hnew as (_ & ? & _)].
  exists infos, x. cbn. by split_and!.
Qed.
End rebuilt.

(** *** Where the computations write *)

(** The bytes of the header and of the reserved slots of the map. *)
Definition reserved_at (o : Z) : Prop := span 0 564 o \/
  exists i, 0 <= i /\ span (AMAP_FIRST_OFFSET + i * AMAP_DATA_SIZE) (512 * reserved_pages i) o.

(** Sizes of files for which no offset of a map page wraps around. *)
Definition eof_ok (eof : Z) : Prop := AMAP_FIRST_OFFSET <= eof <= 2 ^ 63.

Lemma lt_div_ceil i a b : 0 < b -> i < div_ceil a b -> i * b < a.
Proof.
  intros Hb Hi. unfold div_ceil in Hi. apply Z.lt_le_pred in Hi.
  pose proof (Z.mul_div_le (a + b - 1) b Hb). nia.
Qed.

Lemma reserved_slot eof j k o :
  eof_ok eof -> 0 <= j < div_ceil (eof - AMAP_FIRST_OFFSET) AMAP_DATA_SIZE ->
  0 <= k < reserved_pages j -> o = AMAP_FIRST_OFFSET + j * AMAP_DATA_SIZE + 512 * k ->
  wrap 64 o = o /\ 0 <= o /\ forall x, span o 512 x -> reserved_at x.
Proof.
  intros [He1 He2] [Hj0 Hj] Hk ->. apply lt_div_ceil in Hj; [|done].
  pose proof (reserved_pages_bound j). assert (HA : AMAP_FIRST_OFFSET = 17408) by done.
  assert (HD : AMAP_DATA_SIZE = 253952) by done.
  rewrite HA, HD in *. split.
  - apply wrap_small. unfold uint. lia.
  - split; [lia|]. intros x Hx. right. exists j. unfold span in *. rewrite HA, HD. split; lia.
Qed.

Class IndexLaws (PI I : Type) `{!ByteIndex I, !PageFormat PI} := {
  index_wf : forall x, uint (pf_index_bits (B := PI)) x -> ser_wf (bi_new x : I)
}.
#[export] Instance UnicodeIndex_laws : IndexLaws UnicodePageId UnicodeByteIndex.
Proof. by split. Qed.
#[export] Instance AnsiIndex_laws : IndexLaws AnsiPageId AnsiByteIndex.
Proof. by split. Qed.

Section effects.
Set Default Proof Using "Type".
Context {NE BE BI PI I MP HD : Type}.
Context `{!BlockId BI, !BlockId PI, !ByteIndex I, !BTreeEntry NE, !BTreeEntry BE}.
Context `{!BlockBTreeEntry BE BI I, !BTreeEntry (BTreePageEntry PI I), !BTreeFormat PI}.
Context `{!BlockTrailerReadWrite BI, !MapPage MP PI, !PageFormat PI}.
Context `{!PstHeader HD PI I, !DensityFormat PI, !PstHeaderLaws HD PI I}.
Context `{!MapPageLaws MP PI, !PageFormatLaws PI, !IndexLaws PI I}.

Abbreviation State := (PstFileInner (NE := NE) (BE := BE) (PI := PI) (I := I) (HD := HD)).
Abbreviation contents s := (wf_data (pf_file s)).

(** From [s], [m] keeps the header well formed and the bytes outside [Q],
    and its result satisfies [R]. *)
Definition effect {A} (Q : Z -> Prop) (m : M State A) (s : State) (R : A -> Prop) : Prop :=
  forall r s', m s = Some (r, s') ->
    hd_wf (pf_header s') /\ frame Q (contents s) (contents s') /\ forall a, r = Ok a -> R a.

Lemma effect_bind {A B} Q (m : M State A) (k : A -> M State B) s R R' :
  effect Q m s R ->
  (forall a s', hd_wf (pf_header s') -> R a -> effect Q (k a) s' R') ->
  effect Q (m_bind m k) s R'.
Proof.
  intros Hm Hk r s2 H. unfold m_bind in H. destruct (m s) as [[r1 s1]|] eqn:Hms; [|done].
  destruct (Hm r1 s1 Hms) as (Hw & Hf & HR). destruct r1 as [a|e|].
  - destruct (Hk a s1 Hw (HR a eq_refl) r s2 H) as (Hw2 & Hf2 & HR2).
    split_and!; [done|by transitivity (contents s1)|done].
  - injection H as <- <-. by split_and!.
  - injection H as <- <-. by split_and!.
Qed.

Lemma effect_lift {A} Q (m : io_result A) s :
  hd_wf (pf_header s) -> effect Q (m_lift m) s (fun a => m = Ok a).
Proof. intros Hw r s' [= <- <-]. by split_and!. Qed.

Lemma effect_ret {A} Q (a : A) s : hd_wf (pf_header s) -> effect Q (m_ret a) s (fun b => b = a).
Proof. intros Hw r s' [= <- <-]. split_and!; [done..|]. by intros b [= <-]. Qed.

Lemma effect_get {A} Q (g : State -> A) s : hd_wf (pf_header s) -> effect Q (m_get g) s (fun a => a = g s).
Proof. intros Hw r s' [= <- <-]. split_and!; [done..|]. by intros b [= <-]. Qed.

Lemma effect_header Q s : hd_wf (pf_header s) -> effect Q (m_get pf_header) s hd_wf.
Proof. intros Hw r s' [= <- <-]. split_and!; [done..|]. by intros b [= <-]. Qed.

Lemma effect_writer Q s : hd_wf (pf_header s) -> effect Q get_writer s (fun _ => True).
Proof. intros Hw r s' [= <- <-]. by split_and!. Qed.

(** An update of the state that does not touch the file. *)
Lemma effect_put Q (g : State -> State) s :
  hd_wf (pf_header (g s)) -> pf_file (g s) = pf_file s -> effect Q (m_put g) s (fun _ => True).
Proof. intros Hw Hf r s' [= <- <-]. split_and!; [done| |done]. by rewrite Hf. Qed.

Lemma effect_write (Q : Z -> Prop) pos bs s :
  hd_wf (pf_header s) -> 0 <= pos -> (forall o, span pos (Z.of_nat (length bs)) o -> Q o) ->
  effect Q (write_at pos bs) s (fun _ => True).
Proof.
  intros Hw Hp HQ r s' [= <- <-]. split_and!; [done| |done]. cbn [pf_file set_file].
  eapply frame_weaken; [exact HQ|]. by apply frame_write.
Qed.

Lemma effect_write_header (Q : Z -> Prop) h s :
  hd_wf (pf_header s) -> hd_wf h -> (forall o, span 0 564 o -> Q o) ->
  effect Q (write_header h) s (fun _ => True).
Proof.
  intros Hw Hh HQ. unfold write_header. eapply effect_bind; [by apply effect_writer|].
  intros _ s1 Hw1 _. eapply effect_bind; [by apply effect_lift|]. intros bs s2 Hw2 Hbs.
  destruct (hd_codec h Hh) as (bs' & Hb' & Hl & _). rewrite Hbs in Hb'. injection Hb' as <-.
  apply effect_write; [done..|]. intros o Ho. apply HQ. unfold span in *. lia.
Qed.

Lemma effect_fold {A} Q (step : unit -> A -> M State unit) l :
  (forall a s, a ∈ l -> hd_wf (pf_header s) -> effect Q (step tt a) s (fun _ => True)) ->
  forall s, hd_wf (pf_header s) -> effect Q (m_fold step l tt) s (fun _ => True).
Proof.
  induction l as [|a l IH]; intros Hs s Hw; cbn [m_fold].
  - intros r s' [= <- <-]. by split_and!.
  - eapply effect_bind; [apply Hs; [by left|done]|]. intros [] s1 Hw1 _. apply IH; [|done].
    intros a' s' Hin. apply Hs. by right.
Qed.

(** Pages in reserved slots. *)
Definition pages_reserved (pages : list MP) : Prop := forall page, page ∈ pages ->
  length (mp_bits page) = 496%nat /\ 0 <= bid_into_u64 (pt_block_id (mp_trailer page)) /\
  forall o, span (bid_into_u64 (pt_block_id (mp_trailer page))) 512 o -> reserved_at o.

Lemma effect_map_pages t pages s :
  hd_wf (pf_header s) -> pages_reserved pages ->
  effect reserved_at (write_map_pages t pages) s (fun _ => True).
Proof using MapPageLaws0.
  intros Hw Hp. unfold write_map_pages. apply effect_fold; [|done].
  intros page s1 Hin Hw1. destruct (Hp page Hin) as (Hl & H0 & HQ).
  eapply effect_bind; [by apply effect_lift|]. intros bs s2 Hw2 Hbs.
  apply effect_write; [done..|]. by rewrite (mp_write_length _ _ _ Hl Hbs).
Qed.

(** Pages of a map are in reserved slots when their positions are. *)
Lemma pages_at_reserved eof data_size first (pages : list MP) (j : Z -> Z) (k : Z) :
  eof_ok eof -> pages_at data_size first pages ->
  (forall i, 0 <= i < Z.of_nat (length pages) ->
    0 <= j i < div_ceil (eof - AMAP_FIRST_OFFSET) AMAP_DATA_SIZE /\ 0 <= k < reserved_pages (j i) /\
    i * data_size + first = AMAP_FIRST_OFFSET + j i * AMAP_DATA_SIZE + 512 * k) ->
  pages_reserved pages.
Proof.
  intros He Hp Hj page Hin. apply list_elem_of_lookup in Hin as [i Hi].
  destruct (Hp i page Hi) as [Hid Hl]. apply lookup_lt_Some in Hi.
  destruct (Hj (Z.of_nat i) ltac:(lia)) as (Hj1 & Hk & Ho).
  destruct (reserved_slot eof _ k _ He Hj1 Hk Ho) as (Hw & H0 & HQ).
  rewrite Hid, Hw. by split_and!.
Qed.
End effects.

(** *** Rebuilding the map *)

Section rebuild_effect.
Set Default Proof Using "Type".
Context {NE BE BI PI I MP HD : Type}.
Context `{!BlockId BI, !BlockId PI, !ByteIndex I, !BTreeEntry NE, !BTreeEntry BE}.
Context `{!BlockBTreeEntry BE BI I, !BTreeEntry (BTreePageEntry PI I), !BTreeFormat PI}.
Context `{!BlockTrailerReadWrite BI, !MapPage MP PI, !PageFormat PI}.
Context `{!PstHeader HD PI I, !DensityFormat PI, !PstHeaderLaws HD PI I}.
Context `{!MapPageLaws MP PI, !PageFormatLaws PI, !IndexLaws PI I}.
Context `{!BlockTrailerLaws BI, !BlockEntryLaws BE BI I}.

Abbreviation State := (PstFileInner (NE := NE) (BE := BE) (PI := PI) (I := I) (HD := HD)).
Abbreviation contents s := (wf_data (pf_file s)).

Lemma free_slots_from_array first n (infos : list (AllocationMapPageInfo MP)) l :
  free_slots_from first n infos = Ok l -> array_wf n l.
Proof.
  unfold free_slots_from. intros H. repeat res_step. inv_ok.
  pose proof (rmapM_length _ _ _ E) as Hl. apply rmapM_Forall2 in E. split.
  - rewrite length_app, length_replicate, Hl, length_take. lia.
  - apply bytes_ok_app; [|by apply Forall_replicate].
    apply Forall_lookup_2. intros i b Hi. destruct (Forall2_lookup_r _ _ _ _ _ E Hi) as (info & _ & Hm).
    unfold max_free_slots in Hm. repeat res_step. inv_ok. unfold byte_ok, uint.
    match goal with |- context [r_len ?r] => destruct (Z.ltb_spec (Z.max 0 (r_len r)) 256); lia end.
Qed.

Lemma sum_free_space_nonneg (infos : list (AllocationMapPageInfo MP)) : 0 <= sum_free_space infos.
Proof.
  assert (H : forall acc, 0 <= acc ->
    0 <= fold_left (fun acc page => wrapping_add 64 acc (ai_free_space page)) infos acc).
  { induction infos as [|a infos IH]; intros acc Hacc; cbn; [done|]. apply IH.
    by apply (wrap_uint 64). }
  by apply H.
Qed.

Lemma marks_pages_at x (infos infos' : list (AllocationMapPageInfo MP)) data_size first :
  marks x infos infos' -> pages_at data_size first (map ai_amap_page infos) ->
  pages_at data_size first (map ai_amap_page infos').
Proof.
  intros (Hok & Hl & Hm) Hp i page Hi. apply list_lookup_fmap_Some_1 in Hi as (b & -> & Hb).
  destruct (lookup_lt_is_Some_2 infos i) as [a Ha]. { rewrite <- Hl. by eapply lookup_lt_Some. }
  destruct (Hm i a b Ha Hb) as [-> _].
  destruct (Hp i (ai_amap_page a)) as [-> _]; [by rewrite list_lookup_fmap, Ha|].
  split; [done|]. by apply (Forall_lookup_1 _ _ _ _ Hok Hb).
Qed.

(** All four kinds of map pages are in reserved slots. *)
Lemma rebuilt_pages_reserved f root m :
  bytes_ok f -> eof_ok (bi_index (file_eof_index root)) ->
  compute_allocation_map (NE := NE) (BE := BE) (BI := BI) (MP := MP) f root = Some (Ok m) ->
  pages_reserved (map ai_amap_page (rb_amap_pages m)) /\ pages_reserved (rb_pmap_pages m) /\
  pages_reserved (rb_fmap_pages m) /\ pages_reserved (rb_fpmap_pages m).
Proof using MapPageLaws0 PageFormatLaws0 BlockTrailerLaws0 BlockEntryLaws0.
  intros Hf He H. set (eof := bi_index (file_eof_index root)) in *.
  assert (HA : AMAP_FIRST_OFFSET = 17408) by done. assert (HDS : AMAP_DATA_SIZE = 253952) by done.
  assert (Hn : num_amap_pages root = div_ceil (eof - AMAP_FIRST_OFFSET) AMAP_DATA_SIZE).
  { unfold num_amap_pages, wrapping_sub. fold eof. rewrite wrap_small; [done|].
    destruct He. unfold uint. lia. }
  apply compute_allocation_map_ok in H as (infos & x & Hnew & _ & Hm & _ & _ & Hp & Hfm & Hfp); [|done].
  apply amap_pages_new_ok in Hnew as (Hlen & _ & Hat & _). rewrite Hn in *.
  set (num := div_ceil _ _) in *. split_and!.
  - apply (pages_at_reserved eof AMAP_DATA_SIZE AMAP_FIRST_OFFSET _ (fun i => i) 0); [done|by eapply marks_pages_at|].
    intros i Hi. rewrite length_map, (proj1 (proj2 Hm)), Hlen in Hi. fold num.
    pose proof (reserved_pages_bound i). split_and!; lia.
  - pose proof (rmapM_length _ _ _ Hp) as Hl. rewrite length_seqZ in Hl.
    apply (pages_at_reserved eof PMAP_DATA_SIZE PMAP_FIRST_OFFSET _ (fun i => 8 * i) 1); [done| |].
    + eapply pages_at_seq; [|exact Hp]. intros i p Hmk. by apply map_page_at_ok in Hmk as [-> ->].
    + intros i Hi. rewrite Hl in Hi. pose proof (reserved_pmap i).
      assert (Hlt : i * 8 < num) by (apply lt_div_ceil; [done|]; unfold pmap_page_count, PMAP_PAGE_COUNT in Hi; lia).
      change (PMAP_DATA_SIZE) with (253952 * 8). change PMAP_FIRST_OFFSET with (17408 + 512).
      fold num. split_and!; lia.
  - pose proof (rmapM_length _ _ _ Hfm) as Hl. rewrite length_seqZ in Hl.
    apply (pages_at_reserved eof FMAP_DATA_SIZE FMAP_FIRST_OFFSET _ (fun i => 128 + 496 * i) 2); [done| |].
    + eapply pages_at_seq; [|exact Hfm]. intros i p Hmk. apply rbind_ok in Hmk as (bits & Hb & Hmk).
      apply pst_ok, map_page_at_ok in Hmk as [-> ->]. split; [|done].
      by apply free_slots_from_array in Hb as [? _].
    + intros i Hi. rewrite Hl in Hi. pose proof (reserved_fmap i ltac:(lia)).
      assert (Hlt : i * 496 < Z.max num 128 - 128) by (apply lt_div_ceil; [done|]; unfold fmap_page_count, FMAP_FIRST_SIZE, FMAP_PAGE_COUNT in Hi; lia).
      change FMAP_DATA_SIZE with (253952 * 496). change FMAP_FIRST_OFFSET with (17408 + 253952 * 128 + 1024).
      fold num. split_and!; lia.
  - pose proof (rmapM_length _ _ _ Hfp) as Hl. rewrite length_seqZ in Hl.
    apply (pages_at_reserved eof FPMAP_DATA_SIZE FPMAP_FIRST_OFFSET _ (fun i => 8192 + 31744 * i) 2); [done| |].
    + eapply pages_at_seq; [|exact Hfp]. intros i p Hmk. by apply map_page_at_ok in Hmk as [-> ->].
    + intros i Hi. rewrite Hl in Hi. pose proof (reserved_fpmap i ltac:(lia)).
      assert (Hlt : i * (496 * 64) < Z.max num (128 * 64) - 128 * 64) by (apply lt_div_ceil; [done|]; unfold fpmap_page_count, FPMAP_FIRST_SIZE, FPMAP_PAGE_COUNT in Hi; lia).
      change FPMAP_DATA_SIZE with (253952 * 31744). change FPMAP_FIRST_OFFSET with (17408 + 253952 * 8192 + 1024).
      fold num. split_and!; lia.
Qed.

Lemma root_status_wf (r : Root I (BlockRef PI I)) st : ser_wf r -> ser_wf (Root.set_amap_status r st).
Proof. destruct r. done. Qed.

Lemma hd_wf_status h st :
  hd_wf h -> hd_wf (update_root (fun r => Root.set_amap_status r st) (hd_update_unique h)).
Proof.
  intros Hh. unfold update_root. apply hd_wf_unique in Hh.
  apply hd_wf_set_root; [|done]. by apply root_status_wf, hd_wf_root.
Qed.

Lemma effect_rebuild (s : State) :
  hd_wf (pf_header s) -> bytes_ok (contents s) ->
  eof_ok (bi_index (file_eof_index (hd_root (pf_header s)))) ->
  effect reserved_at (rebuild_allocation_map (BI := BI) (MP := MP)) s (fun _ => True).
Proof using MapPageLaws0 PageFormatLaws0 BlockTrailerLaws0 BlockEntryLaws0 IndexLaws0.
  intros Hw Hb He r s' H. unfold rebuild_allocation_map in H.
  destruct (negb _); [injection H as <- <-; by split_and!|].
  destruct (compute_allocation_map _ _) as [[m|e|]|] eqn:Hm; [|by injection H as <- <-..|done].
  destruct (rebuilt_pages_reserved _ _ _ Hb He Hm) as (Ha & Hp & Hf & Hfp).
  apply compute_allocation_map_ok in Hm as (infos & x & _ & _ & _ & Hfree & Hfirst & _); [|done].
  apply free_slots_from_array in Hfirst. revert H.
  match goal with |- ?c s = _ -> _ => assert (Hc : effect reserved_at c s (fun _ => True)) end.
  2: { intros H. by apply Hc in H. }
  eapply effect_bind.
  { unfold write_allocation_map. eapply effect_bind; [by apply effect_writer|]. intros _ s1 Hw1 _.
    repeat (eapply effect_bind; [by apply effect_map_pages|]; intros [] ? ? _).
    by apply effect_map_pages. }
  intros [] s1 Hw1 _. eapply effect_bind.
  { apply effect_put; [|done]. cbn [pf_header set_header]. by apply hd_wf_unique, hd_wf_free_map. }
  intros [] s2 Hw2 _. eapply effect_bind; [by apply effect_header|]. intros h s3 Hw3 Hh.
  eapply effect_bind; [by apply effect_lift|]. intros root s4 Hw4 Hroot.
  assert (Hr : ser_wf root).
  { apply ndb_ok in Hroot. injection Hroot as <-. pose proof (hd_wf_root h Hh) as Hr.
    assert (Hi0 : ser_wf (bi_new 0 : I)).
    { apply index_wf. unfold index_try_from in Hfree. repeat res_step. zb.
      pose proof (sum_free_space_nonneg (rb_amap_pages m)). split; lia. }
    assert (Hi : ser_wf (bi_new (rb_free_bytes m) : I)).
    { apply index_wf. unfold index_try_from in Hfree. repeat res_step. inv_ok. zb.
      rewrite <- Hfree. split; [apply sum_free_space_nonneg|done]. }
    destruct (hd_root h). cbn [ser_wf Root_serial] in *. cbn. cbn in Hr. tauto. }
  assert (Hh2 : hd_wf (hd_set_root (Root.set_amap_status root AMap_Valid2) h))
    by by apply hd_wf_set_root; [apply root_status_wf|].
  eapply effect_bind; [by apply effect_put|]. intros [] s5 Hw5 _.
  apply effect_write_header; [done..|]. intros o Ho. by left.
Qed.
End rebuild_effect.

(** *** Opening and closing a transaction *)

(** A density list page is 512 bytes. *)
Class DensityLaws (PI : Type) `{!DensityFormat PI, !BTreeFormat PI} := {
  df_size : forall t : PageTrailer PI, (df_body (PI := PI) + length (ser_write t) = 512)%nat
}.
#[export] Instance UnicodeDensity_laws : DensityLaws UnicodePageId.
Proof. by split. Qed.
#[export] Instance AnsiDensity_laws : DensityLaws AnsiPageId.
Proof. by split. Qed.

Section transactions.
Set Default Proof Using "Type".
Context {NE BE BI PI I MP HD : Type}.
Context `{!BlockId BI, !BlockId PI, !ByteIndex I, !BTreeEntry NE, !BTreeEntry BE}.
Context `{!BlockBTreeEntry BE BI I, !BTreeEntry (BTreePageEntry PI I), !BTreeFormat PI}.
Context `{!BlockTrailerReadWrite BI, !MapPage MP PI, !PageFormat PI}.
Context `{!PstHeader HD PI I, !DensityFormat PI, !PstHeaderLaws HD PI I}.
Context `{!MapPageLaws MP PI, !PageFormatLaws PI, !IndexLaws PI I}.
Context `{!BlockTrailerLaws BI, !BlockEntryLaws BE BI I, !DensityLaws PI}.

Abbreviation State := (PstFileInner (NE := NE) (BE := BE) (PI := PI) (I := I) (HD := HD)).
Abbreviation contents s := (wf_data (pf_file s)).

(** What a reader of the file finds: the header of the state, with the given
    status. *)
Definition on_disk (st : AmapStatus) (s : State) : Prop :=
  read_at (contents s) 0 hd_read = Ok (pf_header s) /\
  amap_is_valid (hd_root (pf_header s)) = st.

(** The density list is at its place, clear of the header. *)
Definition density_at (o : Z) : Prop :=
  span 0 564 o \/ span DENSITY_LIST_FILE_OFFSET 512 o.

Lemma write_header_on_disk h (s s' : State) :
  hd_wf h -> write_header h s = Some (Ok tt, s') ->
  pf_header s' = pf_header s /\ exists bs, (length bs <= 564)%nat /\
    pf_file s' = write_all bs (wseek_start 0 (pf_file s)) /\
    forall t, exists u, hd_read (bs ++ t) = Ok (h, u).
Proof.
  intros Hh H. unfold write_header in H. apply m_bind_ok in H as (u & s1 & Hw & H).
  unfold get_writer in Hw. injection Hw as Hw <-.
  apply m_bind_ok in H as (bs & s1 & Hb & H). injection Hb as Hb <-.
  injection H as <-. split; [done|]. exists bs.
  destruct (hd_codec h Hh) as (bs' & Hb' & Hl & Hr). rewrite Hb in Hb'. injection Hb' as <-.
  split_and!; [done..|]. intros t. by exists t.
Qed.

Lemma ensure_density_list_keeps (s : State) r (s' : State) :
  ensure_density_list s = Some (r, s') -> pf_file s' = pf_file s /\ pf_header s' = pf_header s.
Proof.
  unfold ensure_density_list. intros H.
  destruct (pf_density_list s) as [d|e|]; [destruct (density_list_current d _)|..];
    repeat (case_match; try discriminate H); by injection H as <- <-.
Qed.

Lemma update_density_keeps (s : State) r (s' : State) :
  update_density_list_page_id s = Some (r, s') ->
  pf_file s' = pf_file s /\ pf_header s' = pf_header s.
Proof.
  unfold update_density_list_page_id. intros H.
  repeat (case_match; try discriminate H); by injection H as <- <-.
Qed.

Lemma effect_keeps {A} Q (m : M State A) s :
  hd_wf (pf_header s) ->
  (forall r s', m s = Some (r, s') -> pf_file s' = pf_file s /\ pf_header s' = pf_header s) ->
  effect Q m s (fun _ => True).
Proof.
  intros Hw Hm r s' H. destruct (Hm r s' H) as [Hf Hh]. rewrite Hf, Hh. by split_and!.
Qed.

Lemma effect_start (s : State) :
  hd_wf (pf_header s) -> bytes_ok (contents s) ->
  eof_ok (bi_index (file_eof_index (hd_root (pf_header s)))) ->
  effect reserved_at (start_write (BI := BI) (MP := MP)) s (fun _ => True).
Proof using MapPageLaws0 PageFormatLaws0 BlockTrailerLaws0 BlockEntryLaws0 IndexLaws0.
  intros Hw Hb He. unfold start_write. eapply effect_bind; [by apply effect_rebuild|].
  intros _ s1 Hw1 _. eapply effect_bind.
  { apply effect_keeps; [done|]. apply ensure_density_list_keeps. }
  intros _ s2 Hw2 _. eapply effect_bind; [by apply effect_put; [apply hd_wf_status|]|].
  intros _ s3 Hw3 _. eapply effect_bind; [by apply effect_header|]. intros h s4 Hw4 Hh.
  apply effect_write_header; [done..|]. intros o Ho. by left.
Qed.

Lemma density_write_ok (d : DensityListPage PI) f f' :
  DensityListPage.write (df_body (PI := PI)) d f = Ok f' ->
  exists bs, length bs = 512%nat /\ f' = write_all bs (wseek_start DENSITY_LIST_FILE_OFFSET f).
Proof using DensityLaws0.
  unfold DensityListPage.write. intros H. apply rbind_ok in H as (buf & Hb & H).
  rewrite write_all_app in H. eexists. split; [|by injection H as <-].
  rewrite length_app, (fixed_buffer_length _ _ _ Hb). apply df_size.
Qed.

Lemma effect_density (d : DensityListPage PI) (s : State) :
  hd_wf (pf_header s) -> effect density_at (write_density_list d) s (fun _ => True).
Proof using DensityLaws0.
  intros Hw r s' H. unfold write_density_list in H.
  destruct (DensityListPage.write _ d (pf_file s)) as [f|e|] eqn:Hd; injection H as <- <-;
    [|by split_and!..].
  apply density_write_ok in Hd as (bs & Hl & ->). split_and!; [done| |done].
  cbn [pf_file set_file]. eapply frame_weaken; [|by apply frame_write]. intros o Ho.
  right. by rewrite Hl in Ho.
Qed.

Lemma effect_finish (s : State) :
  hd_wf (pf_header s) -> effect density_at finish_write s (fun _ => True).
Proof using DensityLaws0.
  intros Hw. unfold finish_write.
  eapply effect_bind; [by apply effect_put; [apply hd_wf_status|]|]. intros _ s1 Hw1 _.
  eapply effect_bind; [by apply effect_header|]. intros h s2 Hw2 Hh.
  eapply effect_bind; [by apply effect_keeps; [|apply update_density_keeps]|]. intros _ s3 Hw3 _.
  eapply effect_bind; [by apply effect_get|]. intros d s4 Hw4 _.
  eapply effect_bind; [apply effect_write_header; [done..|]; intros o Ho; by left|].
  intros _ s5 Hw5 _.
  match goal with |- effect _ (match ?o with _ => _ end) _ _ => destruct o end.
  - by apply effect_density.
  - eapply effect_keeps; [done|]. by intros r s' [= <- <-].
Qed.

(** A write past the start of a file keeps what it starts with. *)
Lemma write_all_keeps_start bs t x pos f :
  wf_data f = bs ++ t -> (length bs <= pos)%nat ->
  exists u, wf_data (write_all x (mk_wfile (wf_data f) pos)) = bs ++ u.
Proof.
  intros Hf Hl. unfold write_all. cbn [wf_data wf_pos]. rewrite Hf.
  set (d := (bs ++ t) ++ replicate _ 0). exists (drop (length bs) (take pos d) ++ x ++ drop (pos + length x) d).
  assert (Hs : take pos d = bs ++ drop (length bs) (take pos d)).
  { rewrite <- (take_drop (length bs) (take pos d)) at 1. f_equal.
    rewrite take_take, Nat.min_l by done. unfold d. rewrite <- app_assoc. by apply take_app_exact. }
  rewrite Hs at 1. by rewrite <- app_assoc.
Qed.

Lemma start_write_header (s s' : State) :
  hd_wf (pf_header s) -> bytes_ok (contents s) ->
  eof_ok (bi_index (file_eof_index (hd_root (pf_header s)))) ->
  start_write (BI := BI) (MP := MP) s = Some (Ok tt, s') -> on_disk AMap_Invalid s'.
Proof using MapPageLaws0 PageFormatLaws0 BlockTrailerLaws0 BlockEntryLaws0 IndexLaws0.
  intros Hw Hb He H. unfold start_write in H. apply m_bind_ok in H as (u1 & s1 & H1 & H).
  apply effect_rebuild in H1 as (Hw1 & _ & _); [|done..].
  apply m_bind_ok in H as (u2 & s2 & H2 & H). apply ensure_density_list_keeps in H2 as [Hf2 Hh2].
  apply m_bind_ok in H as (u3 & s3 & H3 & H). injection H3 as <- <-.
  apply m_bind_ok in H as (h & s4 & H4 & H). injection H4 as <- <-.
  cbn [pf_header set_header] in H. apply write_header_on_disk in H as (Hh & bs & _ & Hf & Hr);
    [|rewrite Hh2; by apply hd_wf_status].
  cbn [pf_header set_header] in Hh. unfold on_disk. rewrite Hf, Hh. split.
  - by apply read_at_write.
  - unfold update_root. by rewrite hd_root_set.
Qed.

Lemma finish_write_header (s s' : State) :
  hd_wf (pf_header s) -> finish_write s = Some (Ok tt, s') -> on_disk AMap_Valid2 s'.
Proof using DensityLaws0.
  intros Hw H. unfold finish_write in H. apply m_bind_ok in H as (u1 & s1 & H1 & H).
  injection H1 as <- <-. apply m_bind_ok in H as (h & s2 & H2 & H). injection H2 as <- <-.
  cbn [pf_header set_header] in H.
  apply m_bind_ok in H as (u3 & s3 & H3 & H). apply update_density_keeps in H3 as [_ Hh3].
  cbn [pf_header set_header] in Hh3.
  apply m_bind_ok in H as (d & s4 & H4 & H). injection H4 as Hd <-.
  apply m_bind_ok in H as ([] & s5 & H5 & H).
  assert (Hwf : hd_wf (update_root (fun r => Root.set_amap_status r AMap_Valid2)
    (hd_update_unique (pf_header s)))) by by apply hd_wf_status.
  apply write_header_on_disk in H5 as (Hh5 & bs & Hl & Hf & Hr); [|done].
  assert (Hstart : exists t, contents s' = bs ++ t /\ pf_header s' = pf_header s5).
  { destruct (read_at_write_all bs (wseek_start 0 (pf_file s3)) []) as [t Ht].
    rewrite !app_nil_r in Ht. cbn [wf_pos wseek_start Z.to_nat drop] in Ht. rewrite <- Hf in Ht.
    revert H. match goal with |- match ?o with _ => _ end s5 = _ -> _ => destruct o as [dl|] end.
    - unfold write_density_list. intros H.
      destruct (DensityListPage.write _ dl (pf_file s5)) as [f|e|] eqn:Hdw; [|done..].
      injection H as <-. apply density_write_ok in Hdw as (x & _ & ->).
      destruct (write_all_keeps_start bs t x (Z.to_nat DENSITY_LIST_FILE_OFFSET) (pf_file s5))
        as [u Hu]; [done|unfold DENSITY_LIST_FILE_OFFSET; lia|]. exists u. split; [exact Hu|done].
    - intros H. injection H as <-. by exists t. }
  destruct Hstart as (t & Ht & Hh). unfold on_disk. rewrite Hh, Hh5, Hh3. split.
  - unfold read_at. rewrite Ht, drop_0. destruct (Hr t) as [u ->]. done.
  - unfold update_root. by rewrite hd_root_set.
Qed.

(** Without write access no computation of a transaction succeeds or changes
    the file. *)
Lemma readonly_header h (s : State) e :
  pf_writer s = Err e -> write_header h s = Some (Err (io_of_pst_ref e), s).
Proof. intros Hw. unfold write_header, get_writer, m_bind. by rewrite Hw. Qed.

Lemma readonly_rebuild (s : State) e r s' :
  pf_writer s = Err e -> rebuild_allocation_map (BI := BI) (MP := MP) s = Some (r, s') ->
  pf_file s' = pf_file s /\ pf_writer s' = Err e.
Proof.
  intros Hw H. unfold rebuild_allocation_map in H.
  destruct (negb _); [by injection H as <- <-|].
  destruct (compute_allocation_map _ _) as [[m|er|]|]; [|by injection H as <- <-..|done].
  unfold write_allocation_map, get_writer, m_bind in H. rewrite Hw in H.
  cbn [rmap_err] in H. by injection H as <- <-.
Qed.

Lemma readonly_start (s : State) e r s' :
  pf_writer s = Err e -> start_write (BI := BI) (MP := MP) s = Some (r, s') ->
  pf_file s' = pf_file s /\ r <> Ok tt.
Proof.
  intros Hw H. unfold start_write, m_bind in H.
  destruct (rebuild_allocation_map s) as [[r1 s1]|] eqn:H1; [|done].
  destruct (readonly_rebuild s e r1 s1 Hw H1) as [Hf1 Hw1].
  destruct r1 as [u|er|]; [|by injection H as <- <-; split..].
  destruct (ensure_density_list s1) as [[r2 s2]|] eqn:H2; [|done].
  pose proof (ensure_density_list_keeps s1 r2 s2 H2) as [Hf2 _].
  assert (Hw2 : pf_writer s2 = Err e).
  { revert H2. unfold ensure_density_list. intros H2.
    destruct (pf_density_list s1) as [d|?|]; [destruct (density_list_current d _)|..];
      repeat (case_match; try discriminate H2); by simplify_eq. }
  destruct r2 as [u2|er|]; [|injection H as <- <-; split; [congruence|done]..].
  cbn [m_put m_get] in H. rewrite (readonly_header _ _ e) in H by done. injection H as <- <-.
  cbn [pf_file set_header]. split; [congruence|done].
Qed.
End transactions.

(** ** A concrete file *)

Lemma sample_header_wf : UnicodeHeader.wf sample_header.
Proof.
  unfold UnicodeHeader.wf, array_wf. cbn. unfold uint, byte_ok.
  split_and!; try done; repeat constructor; done.
Qed.

Lemma sample_data_ok : bytes_ok sample_data.
Proof. apply bytes_ok_b. vm_compute. reflexivity. Qed.

(** ** Properties *)

(** C9: the rebuilt allocation map is exact.  Whenever its computation
    succeeds on a file, the map has one page for each range of the file, and
    a slot of a page is marked exactly when it is one of the reserved slots
    of the page or belongs to a page of the node B-tree, to a page of the
    block B-tree or to a block, with its trailer and padding, that a leaf of
    the block B-tree lists. *)
Theorem rebuilt_map_exact {NE BE BI PI I MP : Type}
    `{!BlockId BI, !BlockId PI, !ByteIndex I, !BTreeEntry NE, !BTreeEntry BE}
    `{!BlockBTreeEntry BE BI I, !BTreeEntry (BTreePageEntry PI I), !BTreeFormat PI}
    `{!BlockTrailerReadWrite BI, !MapPage MP PI, !PageFormat PI}
    `{!MapPageLaws MP PI, !PageFormatLaws PI, !BlockTrailerLaws BI, !BlockEntryLaws BE BI I}
    (f : list Z) (root : Root I (BlockRef PI I)) (m : RebuiltMap (MP := MP))
    (Hf : bytes_ok f)
    (Hm : compute_allocation_map (NE := NE) (BE := BE) (BI := BI) f root = Some (Ok m)) :
  length (rb_amap_pages m) = Z.to_nat (num_amap_pages root) /\
  exists x, used_extents (NE := NE) (BE := BE) (BI := BI) f root x /\
    forall i a p, rb_amap_pages m !! i = Some a -> 0 <= p < 3968 ->
      map_bit (mp_bits (ai_amap_page a)) p =
        (p <? 8 * reserved_pages (Z.of_nat i)) || existsb (extent_covers (Z.of_nat i) p) x.
Proof.
  apply compute_allocation_map_ok in Hm as (infos & x & Hnew & Hx & (_ & Hl & Hmarks) & _); [|done].
  apply amap_pages_new_ok in Hnew as (Hlen & _ & _ & Hbits). split; [congruence|].
  exists x. split; [done|]. intros i a p Ha Hp.
  destruct (lookup_lt_is_Some_2 infos i) as [b Hb]. { rewrite <- Hl. by eapply lookup_lt_Some. }
  destruct (Hmarks i b a Hb Ha) as [_ Hbit]. by rewrite Hbit, (Hbits i b).
Qed.

Lemma rebuilt_map_exact_witness :
  exists m, compute_allocation_map (NE := UnicodeNodeBTreeEntry.t) (BE := UnicodeBlockBTreeEntry.t)
      (BI := UnicodeBlockId) (MP := UnicodeMapPage.t) sample_data (UnicodeHeader.root sample_header) = Some (Ok m) /\
    length (rb_amap_pages m) = Z.to_nat (num_amap_pages (UnicodeHeader.root sample_header)) /\
    exists x, used_extents (NE := UnicodeNodeBTreeEntry.t) (BE := UnicodeBlockBTreeEntry.t)
      (BI := UnicodeBlockId) sample_data (UnicodeHeader.root sample_header) x /\
      forall i a p, rb_amap_pages m !! i = Some a -> 0 <= p < 3968 ->
        map_bit (mp_bits (ai_amap_page a)) p =
          (p <? 8 * reserved_pages (Z.of_nat i)) || existsb (extent_covers (Z.of_nat i) p) x.
Proof.
  eexists. split; [vm_compute; reflexivity|].
  apply (rebuilt_map_exact (NE := UnicodeNodeBTreeEntry.t) (BE := UnicodeBlockBTreeEntry.t)
    (BI := UnicodeBlockId) (MP := UnicodeMapPage.t) sample_data (UnicodeHeader.root sample_header)).
  - exact sample_data_ok.
  - vm_compute. reflexivity.
Defined.

(** C17: opening a transaction.  [start_write] always ends; whether it
    succeeds or not, and whether or not it rebuilds the allocation map, it
    changes nothing of the file but the header and the slots that the map
    reserves for its own pages; and when it succeeds, a reader of the file
    finds the header of the open file, with the status [Invalid] that makes
    the next transaction rebuild the map. *)
Theorem start_write_correct {NE BE BI PI I MP HD : Type}
    `{!BlockId BI, !BlockId PI, !ByteIndex I, !BTreeEntry NE, !BTreeEntry BE}
    `{!BlockBTreeEntry BE BI I, !BTreeEntry (BTreePageEntry PI I), !BTreeFormat PI}
    `{!BlockTrailerReadWrite BI, !MapPage MP PI, !PageFormat PI, !PstHeader HD PI I}
    `{!DensityFormat PI, !PstHeaderLaws HD PI I, !MapPageLaws MP PI, !PageFormatLaws PI}
    `{!IndexLaws PI I, !BlockTrailerLaws BI, !BlockEntryLaws BE BI I}
    (s : PstFileInner (NE := NE) (BE := BE) (PI := PI) (I := I) (HD := HD))
    (Hheader : hd_wf (pf_header s)) (Hbytes : bytes_ok (wf_data (pf_file s)))
    (Heof : eof_ok (bi_index (file_eof_index (hd_root (pf_header s))))) :
  exists r s', start_write (BI := BI) (MP := MP) s = Some (r, s') /\
    frame reserved_at (wf_data (pf_file s)) (wf_data (pf_file s')) /\
    (r = Ok tt -> on_disk AMap_Invalid s').
Proof.
  pose proof (total_start_write (BI := BI) (MP := MP) s) as Ht.
  destruct (start_write s) as [[r s']|] eqn:H; [|done]. exists r, s'. split; [done|]. split.
  - apply (effect_start s Hheader Hbytes Heof) in H as (_ & Hf & _). done.
  - intros ->. by eapply start_write_header.
Qed.

Lemma start_write_correct_witness :
  exists r s', start_write (BI := UnicodeBlockId) (MP := UnicodeMapPage.t) (sample_pst (Ok tt)) =
      Some (r, s') /\
    frame reserved_at sample_data (wf_data (pf_file s')) /\
    (r = Ok tt -> on_disk AMap_Invalid s').
Proof.
  apply (start_write_correct (sample_pst (Ok tt))).
  - exact sample_header_wf.
  - exact sample_data_ok.
  - split; vm_compute; discriminate.
Defined.

(** C18: closing a transaction.  [finish_write] always ends, changes nothing
    of the file but the header and the density list, and when it succeeds a
    reader of the file finds the header of the open file with the status
    [Valid2]: the density list, written after it, does not damage it. *)
Theorem finish_write_correct {NE BE PI I HD : Type}
    `{!BlockId PI, !ByteIndex I, !BTreeEntry NE, !BTreeEntry BE}
    `{!BTreeEntry (BTreePageEntry PI I), !BTreeFormat PI, !PageFormat PI, !PstHeader HD PI I}
    `{!DensityFormat PI, !PstHeaderLaws HD PI I, !DensityLaws PI}
    (s : PstFileInner (NE := NE) (BE := BE) (PI := PI) (I := I) (HD := HD))
    (Hheader : hd_wf (pf_header s)) :
  exists r s', finish_write s = Some (r, s') /\
    frame density_at (wf_data (pf_file s)) (wf_data (pf_file s')) /\
    (r = Ok tt -> on_disk AMap_Valid2 s').
Proof.
  pose proof (total_finish_write s) as Ht.
  destruct (finish_write s) as [[r s']|] eqn:H; [|done]. exists r, s'. split; [done|]. split.
  - apply (effect_finish s Hheader) in H as (_ & Hf & _). done.
  - intros ->. by eapply finish_write_header.
Qed.

Lemma finish_write_correct_witness :
  exists r s', finish_write (sample_pst (Ok tt)) = Some (r, s') /\
    frame density_at sample_data (wf_data (pf_file s')) /\
    (r = Ok tt -> on_disk AMap_Valid2 s').
Proof. apply (finish_write_correct (sample_pst (Ok tt))). exact sample_header_wf. Defined.

(** A file that is not open for writing is never modified:
    [start_write] ends without success and leaves its bytes alone, even when
    the map has to be rebuilt. *)
Theorem start_write_read_only {NE BE BI PI I MP HD : Type}
    `{!BlockId BI, !BlockId PI, !ByteIndex I, !BTreeEntry NE, !BTreeEntry BE}
    `{!BlockBTreeEntry BE BI I, !BTreeEntry (BTreePageEntry PI I), !BTreeFormat PI}
    `{!BlockTrailerReadWrite BI, !MapPage MP PI, !PageFormat PI, !PstHeader HD PI I}
    `{!DensityFormat PI}
    (s : PstFileInner (NE := NE) (BE := BE) (PI := PI) (I := I) (HD := HD)) (e : PstError)
    (Hwriter : pf_writer s = Err e) :
  exists r s', start_write (BI := BI) (MP := MP) s = Some (r, s') /\
    pf_file s' = pf_file s /\ r <> Ok tt.
Proof.
  pose proof (total_start_write (BI := BI) (MP := MP) s) as Ht.
  destruct (start_write s) as [[r s']|] eqn:H; [|done]. exists r, s'. split; [done|].
  by eapply readonly_start.
Qed.

Lemma start_write_read_only_witness :
  exists r s', start_write (BI := UnicodeBlockId) (MP := UnicodeMapPage.t)
      (sample_pst (Err OpenedReadOnly)) = Some (r, s') /\
    pf_file s' = mk_wfile sample_data 0 /\ r <> Ok tt.
Proof. by apply (start_write_read_only (sample_pst (Err OpenedReadOnly)) OpenedReadOnly). Defined.
