(* ===== verification/Order.v ===== *)
(** * Orders of derived [Ord]

    [#[derive(PartialOrd, Ord)]] compares the fields of a struct in turn and
    the variants of an enum by their position; [Option], [Vec] and [String]
    compare lexicographically. [CmpLaws] states what a client relies on, an
    instance per type former shows it, and a stable sort by such an order is
    characterised by being a sorted permutation. *)
From stdpp Require Export sorting.
From S2P Require Import Prelude.

(** [Ordering::then_with]. *)
Definition then_with (c d : comparison) : comparison :=
  match c with Eq => d | _ => c end.

(** What [Ord] promises: a preorder whose comparisons are antisymmetric. *)
Class CmpLaws {A} (cmp : A -> A -> comparison) : Prop := {
  cmp_refl x : cmp x x = Eq;
  cmp_anti x y : cmp y x = CompOpp (cmp x y);
  cmp_trans x y z : cmp x y <> Gt -> cmp y z <> Gt -> cmp x z <> Gt;
}.

Arguments cmp_refl {A} cmp {_} x.
Arguments cmp_anti {A} cmp {_} x y.
Arguments cmp_trans {A} cmp {_} x y z.

(** [Ord] agreeing with a derived [Eq]. *)
Class CmpEq {A} (cmp : A -> A -> comparison) : Prop :=
  cmp_eq x y : cmp x y = Eq -> x = y.

Definition option_cmp {A} (cmp : A -> A -> comparison) (x y : option A) : comparison :=
  match x, y with
  | None, None => Eq
  | None, Some _ => Lt
  | Some _, None => Gt
  | Some a, Some b => cmp a b
  end.

Fixpoint list_cmp {A} (cmp : A -> A -> comparison) (x y : list A) : comparison :=
  match x, y with
  | [], [] => Eq
  | [], _ => Lt
  | _, [] => Gt
  | a :: x, b :: y => then_with (cmp a b) (list_cmp cmp x y)
  end.

(** Comparing by one key, then by another. *)
Definition lex_cmp {A B C} (f : A -> B) (cf : B -> B -> comparison)
    (g : A -> C) (cg : C -> C -> comparison) (x y : A) : comparison :=
  then_with (cf (f x) (f y)) (cg (g x) (g y)).

(** Comparing by a key. *)
Definition by_key {A B} (f : A -> B) (cf : B -> B -> comparison) (x y : A) : comparison :=
  cf (f x) (f y).

(** The relation a sort leaves between neighbours. *)
Definition cmp_le {A} (cmp : A -> A -> comparison) (x y : A) : Prop := cmp x y <> Gt.

#[global] Instance cmp_le_dec {A} (cmp : A -> A -> comparison) x y : Decision (cmp_le cmp x y).
Proof. unfold cmp_le. destruct (cmp x y); [left|left|right]; congruence. Defined.

(** [slice.sort_by(cmp)], a stable sort. *)
Definition sort_by {A} (cmp : A -> A -> comparison) (l : list A) : list A :=
  merge_sort (cmp_le cmp) l.

(** ** Laws *)

Lemma then_with_refl c d : then_with c d = Eq <-> c = Eq /\ d = Eq.
Proof. destruct c; cbn; split; intros H; try done; by destruct H. Qed.

Lemma then_with_opp c d : then_with (CompOpp c) (CompOpp d) = CompOpp (then_with c d).
Proof. by destruct c. Qed.

Section Laws.
Context {A : Type} (cmp : A -> A -> comparison) `{!CmpLaws cmp}.
#[local] Set Default Proof Using "All".

Lemma cmp_le_refl x : cmp_le cmp x x.
Proof. unfold cmp_le. by rewrite (cmp_refl cmp). Qed.

(** Two elements that compare equal compare alike with any other one. *)
Lemma cmp_eq_l x y z : cmp x y = Eq -> cmp x z = cmp y z.
Proof.
  intros E.
  assert (E' : cmp y x = Eq) by (rewrite (cmp_anti cmp), E; done).
  pose proof (cmp_trans cmp x y z) as T1. pose proof (cmp_trans cmp y x z) as T2.
  pose proof (cmp_trans cmp z x y) as T3. pose proof (cmp_trans cmp z y x) as T4.
  rewrite E, E' in *. rewrite (cmp_anti cmp x z), (cmp_anti cmp y z) in T3, T4.
  destruct (cmp x z), (cmp y z); cbn in *; intuition congruence.
Qed.

Lemma cmp_lt_trans x y z : cmp x y = Lt -> cmp y z <> Gt -> cmp x z = Lt.
Proof.
  intros E E'. pose proof (cmp_trans cmp x y z) as T. rewrite E in T.
  specialize (T ltac:(done) E').
  destruct (cmp x z) eqn:Exz; [|done|congruence].
  rewrite (cmp_eq_l x z y Exz) in E. rewrite (cmp_anti cmp), E in E'. done.
Qed.

#[global] Instance cmp_le_trans : Transitive (cmp_le cmp).
Proof. intros x y z. apply (cmp_trans cmp). Qed.


#[global] Instance cmp_le_total : Total (cmp_le cmp).
Proof. intros x y. unfold cmp_le. rewrite (cmp_anti cmp x y). destruct (cmp x y); cbn; naive_solver. Qed.

Lemma cmp_le_antisym x y : cmp_le cmp x y -> cmp_le cmp y x -> cmp x y = Eq.
Proof. unfold cmp_le. rewrite (cmp_anti cmp x y). by destruct (cmp x y). Qed.

Lemma sort_by_perm l : Permutation (sort_by cmp l) l.
Proof. apply merge_sort_Permutation. Qed.

Lemma sort_by_sorted l : StronglySorted (cmp_le cmp) (sort_by cmp l).
Proof. apply (StronglySorted_merge_sort (cmp_le cmp)). Qed.

(** When the elements that compare equal are equal, the order of the input
    does not matter. *)
Lemma sort_by_unique l k :
  (forall x y, x ∈ l -> y ∈ l -> cmp x y = Eq -> x = y) ->
  Permutation l k -> sort_by cmp l = sort_by cmp k.
Proof.
  intros Hinj Hp. apply (StronglySorted_unique_strong (cmp_le cmp)).
  - intros x y Hx Hy Hxy Hyx.
    rewrite sort_by_perm in Hx. rewrite sort_by_perm, <- Hp in Hy.
    apply Hinj; [done|done|by apply cmp_le_antisym].
  - apply sort_by_sorted.
  - apply sort_by_sorted.
  - by rewrite !sort_by_perm.
Qed.

#[global] Instance by_key_laws {B} (f : B -> A) : CmpLaws (by_key f cmp).
Proof.
  unfold by_key. split; intros.
  - apply (cmp_refl cmp).
  - apply (cmp_anti cmp).
  - by eapply (cmp_trans cmp).
Qed.

#[global] Instance option_cmp_laws : CmpLaws (option_cmp cmp).
Proof.
  split.
  - intros [x|]; cbn; [apply (cmp_refl cmp)|done].
  - intros [x|] [y|]; cbn; [apply (cmp_anti cmp)|done..].
  - intros [x|] [y|] [z|]; cbn; try done. apply (cmp_trans cmp).
Qed.

#[global] Instance list_cmp_laws : CmpLaws (list_cmp cmp).
Proof.
  split.
  - intros x. induction x as [|a x IH]; cbn; [done|]. by rewrite (cmp_refl cmp).
  - intros x. induction x as [|a x IH]; intros [|b y]; cbn; try done.
    by rewrite (cmp_anti cmp), IH, then_with_opp.
  - intros x. induction x as [|a x IH]; intros [|b y] [|c z]; cbn; try done.
    destruct (cmp a b) eqn:Eab; cbn; [|..|done].
    + rewrite (cmp_eq_l a b c) by done. destruct (cmp b c); cbn; [apply IH|done|done].
    + intros _ Hbc. assert (cmp b c <> Gt) by (by destruct (cmp b c)).
      by rewrite (cmp_lt_trans a b c).
Qed.
End Laws.

#[global] Instance lex_cmp_laws {A B C} (f : A -> B) (cf : B -> B -> comparison)
    (g : A -> C) (cg : C -> C -> comparison) :
  CmpLaws cf -> CmpLaws cg -> CmpLaws (lex_cmp f cf g cg).
Proof.
  intros Hf Hg. unfold lex_cmp. split.
  - intros x. by rewrite (cmp_refl cf), (cmp_refl cg).
  - intros x y. by rewrite (cmp_anti cf (f x)), (cmp_anti cg (g x)), then_with_opp.
  - intros x y z. destruct (cf (f x) (f y)) eqn:E; cbn; [|..|done].
    + rewrite (cmp_eq_l cf (f x) (f y)) by done.
      destruct (cf (f y) (f z)); cbn; [apply (cmp_trans cg)|done|done].
    + intros _ Hyz. assert (cf (f y) (f z) <> Gt) by (by destruct (cf (f y) (f z))).
      by rewrite (cmp_lt_trans cf (f x) (f y)).
Qed.

#[global] Instance Z_cmp_laws : CmpLaws Z.compare.
Proof.
  split.
  - apply Z.compare_refl.
  - intros. apply Z.compare_antisym.
  - intros x y z. change (x <= y -> y <= z -> x <= z). lia.
Qed.

#[global] Instance Z_cmp_eq : CmpEq Z.compare.
Proof. intros x y. apply Z.compare_eq. Qed.

#[global] Instance option_cmp_eq {A} (cmp : A -> A -> comparison) : CmpEq cmp -> CmpEq (option_cmp cmp).
Proof. intros H [x|] [y|]; cbn; try done. intros E. f_equal. by apply H. Qed.

#[global] Instance list_cmp_eq {A} (cmp : A -> A -> comparison) : CmpEq cmp -> CmpEq (list_cmp cmp).
Proof.
  intros H x. induction x as [|a x IH]; intros [|b y]; cbn; try done.
  intros [E1 E2]%then_with_refl. f_equal; [by apply H|by apply IH].
Qed.

(** When the comparison is that of a key, and equal keys only compare equal,
    the keys of the sorted list do not depend on the order of the input. *)
Lemma sort_by_fmap {A B} (f : A -> B) (cmp : A -> A -> comparison) (cmpB : B -> B -> comparison) l k :
  CmpLaws cmp -> CmpEq cmpB -> (forall x y, cmp x y = cmpB (f x) (f y)) ->
  Permutation l k -> f <$> sort_by cmp l = f <$> sort_by cmp k.
Proof.
  intros Hl He Hf Hp.
  assert (forall l, StronglySorted (cmp_le cmpB) (f <$> sort_by cmp l)) as Hs.
  { intros m. apply (StronglySorted_fmap f (cmp_le cmp) (cmp_le cmpB)); [|by apply sort_by_sorted].
    intros x y. unfold cmp_le. by rewrite Hf. }
  apply (StronglySorted_unique_strong (cmp_le cmpB)); [|done|done|].
  - intros x y (a & -> & _)%list_elem_of_fmap (b & -> & _)%list_elem_of_fmap Hab Hba.
    apply He. rewrite <- Hf. apply cmp_le_antisym; [done| |]; unfold cmp_le; by rewrite Hf.
  - apply fmap_Permutation. by rewrite !sort_by_perm.
Qed.
