(* ===== verification/Packing.v ===== *)
(** * Packing of mail into output parts

    [pstforge-core/src/packing.rs]: the candidates are sorted into a canonical
    order and packed greedily into parts, each estimated as a whole by a
    [PartSizeEstimator], which is a parameter. The file shows that no
    candidate is split, lost or reordered, that every part keeps to its size
    limit unless it is a single oversize item, that a part is closed only when
    the next item does not fit, and that the result does not depend on the
    order of discovery. *)
From S2P Require Import Prelude Order.
#[local] Open Scope Z_scope.

(** ** Data *)

(** [RecoveryProvenance] ([recovery.rs] of the crate re-exports it). *)
Inductive RecoveryProvenance := Normal | Recovered | Orphan | Fragment.

Definition provenance_index (p : RecoveryProvenance) : Z :=
  match p with Normal => 0 | Recovered => 1 | Orphan => 2 | Fragment => 3 end.

(** [ItemKey] ([catalog.rs]) with its derived order. *)
Record ItemKey := mk_ItemKey {
  provenance : RecoveryProvenance;
  source_node_id : option Z;
  recovery_index : option Z;
  occurrence : Z;
}.

Definition ItemKey_cmp : ItemKey -> ItemKey -> comparison :=
  lex_cmp provenance (by_key provenance_index Z.compare) id
    (lex_cmp source_node_id (option_cmp Z.compare) id
      (lex_cmp recovery_index (option_cmp Z.compare) occurrence Z.compare)).

#[global] Instance RecoveryProvenance_eq_dec : EqDecision RecoveryProvenance.
Proof. solve_decision. Defined.
#[global] Instance ItemKey_eq_dec : EqDecision ItemKey.
Proof. solve_decision. Defined.

(** [CanonicalFolderLocation] ([canonical.rs]). *)
Inductive CanonicalFolderLocation := StoreRoot | IpmSubtree.

Definition location_index (l : CanonicalFolderLocation) : Z :=
  match l with StoreRoot => 0 | IpmSubtree => 1 end.

(** A [String] is the list of its UTF-8 bytes, compared byte by byte. *)
Definition String_ := list Z.
Definition String_cmp : String_ -> String_ -> comparison := list_cmp Z.compare.

Record PackCandidate := mk_PackCandidate {
  key : ItemKey;
  folder_location : CanonicalFolderLocation;
  folder_path : list String_;
  payload_bytes : Z;
}.

Record PartAssignment := mk_PartAssignment {
  part_index : Z;
  candidates : list PackCandidate;
  estimated_bytes : Z;
  oversize : bool;
}.

Inductive PackingError :=
| ZeroMaximumSize
| ReserveExceedsMaximum (reserve maximum : Z)
| InvalidFolderPath
| DuplicateCandidate (k : ItemKey)
| TooManyParts
| SizeOverflow
| Estimator (msg : String_).

Abbreviation pres := (res PackingError).

(** The closure given to [sort_by]. *)
Definition candidate_cmp : PackCandidate -> PackCandidate -> comparison :=
  lex_cmp folder_location (by_key location_index Z.compare) id
    (lex_cmp folder_path (list_cmp String_cmp) key ItemKey_cmp).

(** ** Operations *)

(** The loop that inserts each key into the set [keys]. *)
Fixpoint check_duplicates (keys : list ItemKey) (l : list PackCandidate) : pres unit :=
  match l with
  | [] => Ok tt
  | c :: l =>
      if bool_decide (key c ∈ keys) then Err (DuplicateCandidate (key c))
      else check_duplicates (key c :: keys) l
  end.

Definition push_part (parts : list PartAssignment) (cs : list PackCandidate)
    (estimate : Z) (over : bool) : pres (list PartAssignment) :=
  let len := Z.of_nat (length parts) in
  let? index := ok_or (if uint_b 32 len then checked_add 32 len 1 else None) TooManyParts in
  Ok (parts ++ [mk_PartAssignment index cs estimate over]).

Section Packing.
(** [PartSizeEstimator::estimate_part_bytes]. *)
Context (estimate_part_bytes : list PackCandidate -> pres Z).

(** The mutable locals of the packing loop. *)
Record PackState := mk_PackState {
  parts : list PartAssignment;
  current : list PackCandidate;
  current_estimate : Z;
}.

(** One turn of the packing loop. *)
Definition pack_step (effective_limit : Z) (s : PackState) (c : PackCandidate)
    : pres PackState :=
  let proposed := current s ++ [c] in
  let? proposed_estimate := estimate_part_bytes proposed in
  if negb (bool_decide (current s = [])) && (effective_limit <? proposed_estimate) then
    let? ps := push_part (parts s) (current s) (current_estimate s) false in
    let? e := estimate_part_bytes [c] in
    if effective_limit <? e then
      let? ps := push_part ps [c] e true in
      Ok (mk_PackState ps [] 0)
    else Ok (mk_PackState ps [c] e)
  else if effective_limit <? proposed_estimate then
    let? ps := push_part (parts s) proposed proposed_estimate true in
    Ok (mk_PackState ps [] 0)
  else Ok (mk_PackState (parts s) proposed proposed_estimate).

Definition has_empty_component (c : PackCandidate) : bool :=
  existsb (fun comp => bool_decide (comp = [])) (folder_path c).

Definition pack_candidates (cs : list PackCandidate) (maximum_bytes safety_reserve_bytes : Z)
    : pres (list PartAssignment) :=
  let? _ := ensure (negb (maximum_bytes =? 0)) ZeroMaximumSize in
  let? effective_limit := ok_or (checked_sub maximum_bytes safety_reserve_bytes)
    (ReserveExceedsMaximum safety_reserve_bytes maximum_bytes) in
  let? _ := ensure (negb (existsb has_empty_component cs)) InvalidFolderPath in
  let cs := sort_by candidate_cmp cs in
  let? _ := check_duplicates [] cs in
  let? s := rfold (pack_step effective_limit) cs (mk_PackState [] [] 0) in
  if bool_decide (current s = []) then Ok (parts s)
  else push_part (parts s) (current s) (current_estimate s) false.
End Packing.

(** ** Order of the candidates *)

#[global] Instance candidate_cmp_laws : CmpLaws candidate_cmp.
Proof. unfold candidate_cmp, ItemKey_cmp, String_cmp. apply _. Qed.

Lemma candidate_cmp_key x y : candidate_cmp x y = Eq -> key x = key y.
Proof.
  unfold candidate_cmp, ItemKey_cmp, lex_cmp, by_key, id.
  intros [_ [_ H]%then_with_refl]%then_with_refl.
  apply then_with_refl in H as [Hp [Hs [Hr Ho]%then_with_refl]%then_with_refl].
  apply cmp_eq in Hp, Hs, Hr, Ho.
  destruct (key x) as [p1 s1 r1 o1], (key y) as [p2 s2 r2 o2]; cbn in *; subst.
  f_equal. by destruct p1, p2.
Qed.

Lemma check_duplicates_ok keys l u :
  check_duplicates keys l = Ok u <-> NoDup (key <$> l) /\ Forall (fun c => key c ∉ keys) l.
Proof.
  destruct u. revert keys. induction l as [|c l IH]; intros keys; cbn.
  { split; [intros _; split; constructor|done]. }
  case_bool_decide as Hin; rewrite NoDup_cons, Forall_cons.
  { split; [done|]. tauto. }
  rewrite IH, !Forall_forall. split.
  - intros [Hnd Hk]. split; [split; [|done]|split; [done|]].
    + intros (d & Ed & Hd)%list_elem_of_fmap. apply (Hk d Hd). rewrite Ed. by left.
    + intros d Hd Hd'. apply (Hk d Hd). by right.
  - intros [[Hc Hnd] [_ Hk]]. split; [done|]. intros d Hd [E|Hd']%elem_of_cons.
    + apply Hc, list_elem_of_fmap. eauto.
    + by apply (Hk d Hd).
Qed.

(** The outcome depends on the keys only. *)
Lemma check_duplicates_keys keys l k :
  key <$> l = key <$> k -> check_duplicates keys l = check_duplicates keys k.
Proof.
  revert keys k. induction l as [|c l IH]; intros keys [|d k]; cbn; try done.
  intros [= E1 E2]. rewrite E1. case_bool_decide; [done|by apply IH].
Qed.

Lemma check_duplicates_cases keys l :
  check_duplicates keys l = Ok tt \/ exists k, check_duplicates keys l = Err (DuplicateCandidate k).
Proof.
  revert keys. induction l as [|c l IH]; intros keys; cbn; [by left|].
  case_bool_decide; [eauto|apply IH].
Qed.

(** What a candidate is sorted by. *)
Definition candidate_order (c : PackCandidate) : CanonicalFolderLocation * list String_ * ItemKey :=
  (folder_location c, folder_path c, key c).

Lemma sorted_keys_perm l k :
  Permutation l k -> key <$> sort_by candidate_cmp l = key <$> sort_by candidate_cmp k.
Proof.
  intros Hp.
  set (cmpB := fun x y : CanonicalFolderLocation * list String_ * ItemKey =>
    candidate_cmp (mk_PackCandidate x.2 x.1.1 x.1.2 0) (mk_PackCandidate y.2 y.1.1 y.1.2 0)).
  assert (candidate_order <$> sort_by candidate_cmp l = candidate_order <$> sort_by candidate_cmp k) as E.
  { apply (sort_by_fmap candidate_order candidate_cmp cmpB); [apply _| |done|done].
    intros [[l1 p1] k1] [[l2 p2] k2] E. pose proof (candidate_cmp_key _ _ E) as Ek. cbn in Ek.
    unfold cmpB, candidate_cmp, lex_cmp, by_key, id in E. cbn in E.
    apply then_with_refl in E as [E1%cmp_eq [E2 _]%then_with_refl].
    apply (cmp_eq (CmpEq := list_cmp_eq _ (list_cmp_eq _ Z_cmp_eq))) in E2.
    f_equal; [f_equal|done]; [by destruct l1, l2|done]. }
  apply (f_equal (fmap snd)) in E. by rewrite <- !list_fmap_compose in E.
Qed.

(** ** The packing loop *)

Lemma push_part_ok ps cs e o ps' :
  push_part ps cs e o = Ok ps' <->
  ps' = ps ++ [mk_PartAssignment (Z.of_nat (length ps) + 1) cs e o] /\
  Z.of_nat (length ps) + 1 < 2 ^ 32.
Proof.
  unfold push_part, uint_b, checked_add.
  destruct (Z.ltb_spec (Z.of_nat (length ps)) (2 ^ 32)), (Z.leb_spec 0 (Z.of_nat (length ps))); try lia;
    cbn [andb].
  - destruct (Z.ltb_spec (Z.of_nat (length ps) + 1) (2 ^ 32)); cbn [ok_or rbind].
    + split; [by intros [= <-]|by intros [-> _]].
    + split; [done|lia].
  - cbn [ok_or rbind]. split; [done|lia].
Qed.

Section Loop.
Context (estimate_part_bytes : list PackCandidate -> pres Z) (limit : Z).

(** A part is not empty, carries its estimate, and keeps to the limit
    unless it is a single item above it. *)
Definition part_fits (p : PartAssignment) : Prop :=
  candidates p <> [] /\
  estimate_part_bytes (candidates p) = Ok (estimated_bytes p) /\
  if oversize p then limit < estimated_bytes p /\ length (candidates p) = 1%nat
  else estimated_bytes p <= limit.

(** A part was closed before candidate [c] for a reason. *)
Definition closes (p : PartAssignment) (c : PackCandidate) : Prop :=
  oversize p = true \/ exists e, estimate_part_bytes (candidates p ++ [c]) = Ok e /\ limit < e.

Record parts_ok (ps : list PartAssignment) : Prop := {
  po_fits : Forall part_fits ps;
  po_index i p : ps !! i = Some p -> part_index p = Z.of_nat i + 1;
  po_closed i p q c : ps !! i = Some p -> ps !! S i = Some q ->
    head (candidates q) = Some c -> closes p c;
}.

Lemma parts_ok_snoc ps cs e o :
  parts_ok ps -> part_fits (mk_PartAssignment (Z.of_nat (length ps) + 1) cs e o) ->
  (forall q c, last ps = Some q -> head cs = Some c -> closes q c) ->
  parts_ok (ps ++ [mk_PartAssignment (Z.of_nat (length ps) + 1) cs e o]).
Proof.
  intros [Hf Hi Hc] Hp Hl. split.
  - apply Forall_app; split; [done|]. by constructor.
  - intros i p [H|[? H]]%lookup_app_Some; [by apply Hi|].
    apply list_lookup_singleton_Some in H as [? <-]. cbn. lia.
  - intros i p q c [H|[? H]]%lookup_app_Some [H'|[? H']]%lookup_app_Some Hh.
    + by eapply Hc.
    + apply list_lookup_singleton_Some in H' as [? <-]. apply lookup_lt_Some in H as Hlt.
      apply Hl; [|done]. rewrite last_lookup. by replace (Init.Nat.pred (length ps)) with i by lia.
    + apply lookup_lt_Some in H'. lia.
    + apply list_lookup_singleton_Some in H as [? _], H' as [? _]. lia.
Qed.

(** The state of the loop after the candidates [l]. *)
Record pack_inv (l : list PackCandidate) (s : PackState) : Prop := {
  pi_all : concat (candidates <$> parts s) ++ current s = l;
  pi_parts : parts_ok (parts s);
  pi_current : current s <> [] ->
    estimate_part_bytes (current s) = Ok (current_estimate s) /\ current_estimate s <= limit;
  pi_pending p : last (parts s) = Some p ->
    match current s with [] => oversize p = true | c :: _ => closes p c end;
}.

Lemma pi_head l s p c : pack_inv l s -> last (parts s) = Some p -> head (current s) = Some c -> closes p c.
Proof. intros H Hp Hc. pose proof (pi_pending _ _ H p Hp). destruct (current s); naive_solver. Qed.

(** Closing the current part. *)
Lemma pack_inv_push l s ps :
  pack_inv l s -> current s <> [] ->
  push_part (parts s) (current s) (current_estimate s) false = Ok ps ->
  parts_ok ps /\ concat (candidates <$> ps) = l /\
  exists p, last ps = Some p /\ candidates p = current s.
Proof.
  intros Hi Hne [-> _]%push_part_ok. destruct (pi_current _ _ Hi Hne) as [He Hl].
  split_and!.
  - apply parts_ok_snoc; [apply Hi|by split|].
    intros q c. by apply pi_head with l.
  - rewrite fmap_app, concat_app, <- (pi_all _ _ Hi). cbn. by rewrite app_nil_r.
  - eexists. by rewrite last_snoc.
Qed.

Lemma pack_step_inv l s c s' :
  pack_inv l s -> pack_step estimate_part_bytes limit s c = Ok s' -> pack_inv (l ++ [c]) s'.
Proof.
  intros Hi H. unfold pack_step in H. res_step. rename a into pe.
  destruct (bool_decide (current s = [])) eqn:Ec.
  - apply bool_decide_eq_true in Ec. cbn [negb andb] in H. rewrite Ec in *. cbn [app] in *.
    pose proof (pi_all _ _ Hi) as Hall. rewrite Ec, app_nil_r in Hall.
    assert (forall q, last (parts s) = Some q -> oversize q = true) as Hlast.
    { intros q Hq. pose proof (pi_pending _ _ Hi q Hq) as Hp. by rewrite Ec in Hp. }
    destruct (Z.ltb_spec limit pe).
    + res_step. inv_ok. apply push_part_ok in E0 as [-> _]. split; cbn -[fmap].
      * rewrite app_nil_r, fmap_app, concat_app. by cbn.
      * apply parts_ok_snoc; [apply Hi|by split|]. intros q d Hq _. left. by apply Hlast.
      * done.
      * intros p. rewrite last_snoc. by intros [= <-].
    + inv_ok. split; cbn -[fmap]; [done|apply Hi|done|]. intros p Hp. left. by apply Hlast.
  - apply bool_decide_eq_false in Ec. cbn [negb andb] in H.
    destruct (Z.ltb_spec limit pe).
    + res_step. destruct (pack_inv_push l s a Hi Ec E0) as (Hok & Hl & p & Hp & Hc).
      assert (closes p c) by (right; exists pe; by rewrite Hc).
      res_step. destruct (Z.ltb_spec limit a0).
      * res_step. inv_ok. apply push_part_ok in E2 as [-> _]. split; cbn -[fmap].
        -- rewrite app_nil_r, fmap_app, concat_app. by cbn.
        -- apply parts_ok_snoc; [done|by split|]. intros q d Hq [= <-]. naive_solver.
        -- done.
        -- intros q. rewrite last_snoc. by intros [= <-].
      * inv_ok. split; cbn -[fmap]; [done..|]. naive_solver.
    + inv_ok. split; cbn -[fmap].
      * by rewrite app_assoc, (pi_all _ _ Hi).
      * apply Hi.
      * done.
      * intros p Hp. pose proof (pi_pending _ _ Hi p Hp). by destruct (current s).
Qed.

Lemma pack_loop_inv l k s s' :
  pack_inv l s -> rfold (pack_step estimate_part_bytes limit) k s = Ok s' -> pack_inv (l ++ k) s'.
Proof.
  revert l s. induction k as [|c k IH]; intros l s Hi H; cbn in H.
  { inv_ok. by rewrite app_nil_r. }
  res_step. change (c :: k) with ([c] ++ k). rewrite app_assoc. eapply IH; [|done].
  by eapply pack_step_inv.
Qed.

Lemma pack_inv_init : pack_inv [] (mk_PackState [] [] 0).
Proof. by repeat split. Qed.


(** Each part holds at least one of the candidates. *)
Lemma pack_inv_length l s : pack_inv l s -> (length (parts s) + length (current s) <= length l)%nat.
Proof.
  intros Hi. rewrite <- (pi_all _ _ Hi), length_app, length_concat.
  pose proof (po_fits _ (pi_parts _ _ Hi)) as Hf. clear Hi.
  enough (length (parts s) <= list_sum (map length (candidates <$> parts s)))%nat by lia.
  induction Hf as [|p ps [Hp _] _ IH]; [done|]. rewrite fmap_cons. cbn [map list_sum fold_right length].
  assert (length (candidates p) <> 0)%nat by (by destruct (candidates p)).
  unfold list_sum in *. lia.
Qed.

(** With an estimate for every proposed part and few enough candidates a
    turn does not fail. *)
Lemma pack_step_total l s c :
  (forall cs, exists e, estimate_part_bytes cs = Ok e) ->
  pack_inv l s -> Z.of_nat (length l) + 1 < 2 ^ 32 ->
  exists s', pack_step estimate_part_bytes limit s c = Ok s'.
Proof.
  intros He Hi%pack_inv_length Hl. unfold pack_step.
  assert (forall ps cs e o, Z.of_nat (length ps) + 1 < 2 ^ 32 ->
    push_part ps cs e o = Ok (ps ++ [mk_PartAssignment (Z.of_nat (length ps) + 1) cs e o])) as Hpush.
  { intros. by apply push_part_ok. }
  destruct (He (current s ++ [c])) as [pe ->]. cbn [rbind].
  case_bool_decide as Ec; cbn [negb andb].
  - destruct (limit <? pe); [rewrite Hpush by lia|]; cbn [rbind]; eauto.
  - assert (length (current s) <> 0)%nat by (by destruct (current s)).
    destruct (limit <? pe); [|eauto].
    rewrite Hpush by lia. cbn [rbind]. destruct (He [c]) as [e ->]. cbn [rbind].
    destruct (limit <? e); [|eauto].
    rewrite Hpush by (rewrite length_app; cbn [length]; lia). cbn [rbind]. eauto.
Qed.

Lemma pack_loop_total l k s :
  (forall cs, exists e, estimate_part_bytes cs = Ok e) ->
  pack_inv l s -> Z.of_nat (length (l ++ k)) < 2 ^ 32 ->
  exists s', rfold (pack_step estimate_part_bytes limit) k s = Ok s'.
Proof.
  intros He. revert l s. induction k as [|c k IH]; intros l s Hi Hl; cbn; [eauto|].
  rewrite length_app in Hl. cbn [length] in Hl.
  destruct (pack_step_total l s c He Hi ltac:(lia)) as [s' Es]. rewrite Es. cbn [rbind].
  apply (IH (l ++ [c])); [by eapply pack_step_inv|]. rewrite !length_app. cbn [length]. lia.
Qed.
End Loop.

(** ** Properties *)

(** An estimator for examples: a store and the payloads. *)
Definition sample_estimate (cs : list PackCandidate) : pres Z :=
  Ok (foldr (fun c n => payload_bytes c + n) 100 cs).

(** C13: a part list that is returned holds every candidate once, in
    canonical order, none split or lost; part [i] has index [i + 1], is not
    empty and carries the estimate of its candidates; a part marked oversize
    is a single candidate estimated above the maximum less the reserve, every
    other part keeps to it; and a part that is not oversize was closed only
    because the estimate with the first candidate of the next part is above
    the limit. *)
Theorem pack_candidates_correct est cs maximum reserve ps :
  pack_candidates est cs maximum reserve = Ok ps ->
  concat (candidates <$> ps) = sort_by candidate_cmp cs /\
  Permutation (concat (candidates <$> ps)) cs /\
  StronglySorted (cmp_le candidate_cmp) (concat (candidates <$> ps)) /\
  NoDup (key <$> cs) /\ parts_ok est (maximum - reserve) ps.
Proof.
  unfold pack_candidates. intros H. res_step. res_step. rename a0 into limit.
  assert (limit = maximum - reserve) as ->.
  { revert E0. unfold checked_sub. by destruct (reserve <=? maximum); intros [= <-]. }
  do 3 res_step. rename a2 into s.
  apply check_duplicates_ok in E2 as [Hnd _].
  apply (pack_loop_inv _ _ []) in E3 as Hi; [|apply pack_inv_init]. cbn [app] in Hi.
  assert (parts_ok est (maximum - reserve) ps /\ concat (candidates <$> ps) = sort_by candidate_cmp cs)
    as [Hok Hall].
  { case_bool_decide as Ec.
    - inv_ok. split; [apply Hi|]. rewrite <- (pi_all _ _ _ _ Hi), Ec. by rewrite app_nil_r.
    - by destruct (pack_inv_push _ _ _ _ _ Hi Ec H) as (? & ? & _). }
  rewrite Hall. split_and!; [done|apply sort_by_perm|apply sort_by_sorted| |done]; try apply _.
  by rewrite <- (fmap_Permutation key _ _ (sort_by_perm candidate_cmp cs)).
Qed.

(** The parts, or the error, do not depend on the order in which the
    candidates were discovered. *)
Theorem pack_candidates_order_independent est cs cs' maximum reserve :
  Permutation cs cs' ->
  pack_candidates est cs maximum reserve = pack_candidates est cs' maximum reserve.
Proof.
  intros Hp. unfold pack_candidates.
  assert (existsb has_empty_component cs = existsb has_empty_component cs') as ->.
  { apply eq_iff_eq_true. rewrite !existsb_exists. by setoid_rewrite <- list_elem_of_In; setoid_rewrite Hp. }
  destruct (ensure _ ZeroMaximumSize); cbn [rbind]; try done.
  destruct (ok_or _ _); cbn [rbind]; try done.
  destruct (ensure _ InvalidFolderPath); cbn [rbind]; try done.
  rewrite (check_duplicates_keys _ _ _ (sorted_keys_perm _ _ Hp)).
  destruct (check_duplicates _ _) eqn:Ed; cbn [rbind]; try done.
  apply check_duplicates_ok in Ed as [Hnd _].
  rewrite (sort_by_unique candidate_cmp cs cs'); [done| |done].
  intros x y Hx Hy E%candidate_cmp_key.
  rewrite (sort_by_perm candidate_cmp cs'), <- Hp in Hnd.
  apply list_elem_of_lookup in Hx as [i Hx], Hy as [j Hy].
  assert (i = j) as ->; [|congruence].
  apply (NoDup_lookup _ _ _ (key x) Hnd); rewrite list_lookup_fmap; [by rewrite Hx|by rewrite Hy, E].
Qed.

(** Which outcome: the four errors in the order the code checks them,
    and otherwise, when every estimate can be computed and the number of
    candidates fits a [u32], a list of parts. *)
Theorem pack_candidates_outcome est cs maximum reserve :
  0 <= reserve -> 0 <= maximum ->
  (forall l, exists e, est l = Ok e) -> Z.of_nat (length cs) < 2 ^ 32 ->
  let r := pack_candidates est cs maximum reserve in
  if maximum =? 0 then r = Err ZeroMaximumSize
  else if maximum <? reserve then r = Err (ReserveExceedsMaximum reserve maximum)
  else if existsb has_empty_component cs then r = Err InvalidFolderPath
  else if bool_decide (NoDup (key <$> cs)) then exists ps, r = Ok ps
  else exists k, r = Err (DuplicateCandidate k).
Proof.
  intros Hr Hm He Hl r. subst r. unfold pack_candidates, checked_sub.
  destruct (Z.eqb_spec maximum 0); cbn [negb ensure rbind]; [done|].
  destruct (Z.ltb_spec maximum reserve), (Z.leb_spec reserve maximum); try lia; [done|].
  cbn [ok_or rbind].
  destruct (existsb has_empty_component cs); cbn [negb ensure rbind]; [done|].
  pose proof (fmap_Permutation key _ _ (sort_by_perm candidate_cmp cs)) as Hp.
  case_bool_decide as Hnd.
  - replace (check_duplicates [] (sort_by candidate_cmp cs)) with (Ok tt : pres unit).
    2: { symmetry. apply check_duplicates_ok. rewrite Hp. split; [done|]. apply Forall_true. intros d Hd. inversion Hd. }
    cbn [rbind].
    assert (length (sort_by candidate_cmp cs) = length cs) as El by apply Permutation_length, sort_by_perm, _.
    destruct (pack_loop_total est (maximum - reserve) [] (sort_by candidate_cmp cs)
      (mk_PackState [] [] 0) He (pack_inv_init _ _)) as [s Es]; [cbn; lia|].
    rewrite Es. cbn [rbind]. case_bool_decide as Ec; [eauto|].
    apply (pack_loop_inv _ _ []) in Es; [|apply pack_inv_init].
    apply pack_inv_length in Es as Hi. cbn [app] in Hi. assert (length (current s) <> 0)%nat by (by destruct (current s)).
    eexists. apply push_part_ok. split; [done|lia].
  - destruct (check_duplicates_cases [] (sort_by candidate_cmp cs)) as [E|[k E]]; [|rewrite E; cbn [rbind]; eauto].
    apply check_duplicates_ok in E as [E _]. by rewrite Hp in E.
Qed.

(** ** Examples *)

Definition sample_candidate (path : list String_) (node bytes : Z) : PackCandidate :=
  mk_PackCandidate (mk_ItemKey Normal (Some node) None 0) IpmSubtree path bytes.

(** An oversize item, and two that share a part, in discovery order. *)
Definition sample_candidates : list PackCandidate :=
  [sample_candidate [[90]] 9 30; sample_candidate [[65]] 5 500; sample_candidate [[90]] 2 40].

Definition sample_parts : list PartAssignment :=
  [mk_PartAssignment 1 [sample_candidate [[65]] 5 500] 600 true;
   mk_PartAssignment 2 [sample_candidate [[90]] 2 40; sample_candidate [[90]] 9 30] 170 false].

Lemma pack_candidates_correct_witness :
  pack_candidates sample_estimate sample_candidates 200 10 = Ok sample_parts /\
  parts_ok sample_estimate (200 - 10) sample_parts.
Proof.
  split; [by vm_compute|].
  apply (pack_candidates_correct sample_estimate sample_candidates 200 10 sample_parts). by vm_compute.
Defined.

Lemma pack_candidates_order_independent_witness :
  Permutation sample_candidates (rev sample_candidates) /\
  pack_candidates sample_estimate sample_candidates 200 10 =
  pack_candidates sample_estimate (rev sample_candidates) 200 10.
Proof.
  assert (Permutation sample_candidates (rev sample_candidates)) as Hp by apply Permutation_rev.
  split; [exact Hp|]. by apply (pack_candidates_order_independent sample_estimate).
Defined.

Lemma pack_candidates_outcome_witness :
  exists k, pack_candidates sample_estimate (sample_candidates ++ sample_candidates) 200 10
    = Err (DuplicateCandidate k).
Proof.
  apply (pack_candidates_outcome sample_estimate (sample_candidates ++ sample_candidates) 200 10); try lia.
  - intros l. eexists. reflexivity.
  - by vm_compute.
Defined.
