(* ===== verification/Split.v ===== *)
(** * Planning of direct output parts

    The part of [pstforge-core/src/split.rs] that decides how many recovered
    candidates the next output part takes: the size estimate of a layout, its
    calibration with the sizes observed so far ([AdaptiveSizeModel]), and the
    three searches for a fitting prefix of the candidate queue. The searches
    probe few lengths; the file shows that they return what trying every
    length returns, that a queue is only ever cut, never reordered, and that
    the loops end. *)
From S2P Require Import Prelude Order Packing.
#[local] Open Scope Z_scope.

(** ** Candidate order *)

(** [canonical_candidate_order]: the guards and the sort of the packer. *)
Definition canonical_candidate_order (cs : list PackCandidate) : pres (list PackCandidate) :=
  let? _ := ensure (negb (existsb has_empty_component cs)) InvalidFolderPath in
  let cs := sort_by candidate_cmp cs in
  let? _ := check_duplicates [] cs in
  Ok cs.

(** ** Estimates *)

Definition ESTIMATED_STORE_BYTES : Z := 1024 * 1024.
Definition ESTIMATED_MESSAGE_BYTES : Z := 64 * 1024.
Definition ESTIMATED_FOLDER_BYTES : Z := 16 * 1024.

(** [u64::MAX], and [saturating_mul] on [u64]. *)
Definition u64_MAX : Z := 2 ^ 64 - 1.
Definition saturating_mul (x y : Z) : Z := Z.min u64_MAX (x * y).
Definition saturating_add (x y : Z) : Z := Z.min u64_MAX (x + y).

(** [u64::try_from(value).unwrap_or(u64::MAX)] *)
Definition saturating_len (n : nat) : Z := if uint_b 64 (Z.of_nat n) then Z.of_nat n else u64_MAX.

(** [folder_path[..length]] for [length] in [1..=folder_path.len()]. *)
Definition path_prefixes (path : list String_) : list (list String_) :=
  (fun length => take length path) <$> seq 1 (length path).

(** One turn of the loop of [estimate_candidate_iter]. *)
Definition estimate_step (s : gset (list String_) * Z) (c : PackCandidate)
    : pres (gset (list String_) * Z) :=
  let '(folders, estimated) := s in
  let folders := folders ∪ list_to_set (path_prefixes (folder_path c)) in
  let? estimated := ok_or
    (estimated ← checked_add 64 estimated (payload_bytes c);
     checked_add 64 estimated ESTIMATED_MESSAGE_BYTES) SizeOverflow in
  Ok (folders, estimated).

Definition estimate_candidate_iter (cs : list PackCandidate) : pres Z :=
  let? s := rfold estimate_step cs (∅, ESTIMATED_STORE_BYTES) in
  let '(folders, estimated) := s in
  ok_or (checked_add 64 estimated
    (saturating_mul (saturating_len (size folders)) ESTIMATED_FOLDER_BYTES)) SizeOverflow.

(** [observed: Option<(u64, u64)>]. *)
Record AdaptiveSizeModel := mk_AdaptiveSizeModel { observed : option (Z * Z) }.

(** [AdaptiveSizeModel::predict]; dividing by a zero estimate panics. *)
Definition predict (m : AdaptiveSizeModel) (estimated_bytes : Z) : pres Z :=
  match observed m with
  | None => Ok estimated_bytes
  | Some (observed_estimate, observed_actual) =>
      let? numerator := ok_or (checked_mul 128 estimated_bytes observed_actual) SizeOverflow in
      let? n := ok_or (checked_add 128 numerator (saturating_sub observed_estimate 1)) SizeOverflow in
      if observed_estimate =? 0 then Panic else
      let predicted := n / observed_estimate in
      if uint_b 64 predicted then Ok predicted else Err SizeOverflow
  end.

(** [AdaptiveSizeModel::observe]; the text of the error is not modelled. *)
Definition observe (estimated_bytes actual_bytes : Z) : pres AdaptiveSizeModel :=
  if estimated_bytes =? 0 then Err (Estimator [])
  else Ok (mk_AdaptiveSizeModel (Some (estimated_bytes, actual_bytes))).

(** ** Searches *)

(** [while low + 1 < high { .. }]: the bisection the searches share. Running
    out of fuel is [Panic], which the theorems exclude. *)
Fixpoint bisect (fits : Z -> pres bool) (fuel : nat) (low high : Z) : pres Z :=
  if low + 1 <? high then
    match fuel with
    | O => Panic
    | S fuel =>
        let middle := low + (high - low) / 2 in
        let? b := fits middle in
        if b then bisect fits fuel middle high else bisect fits fuel low middle
    end
  else Ok low.

(** What both closures [fits] compute of the candidates they select. *)
Definition fits_list (maximum : Z) (m : AdaptiveSizeModel) (cs : list PackCandidate) : pres bool :=
  let? estimated := estimate_candidate_iter cs in
  let? p := predict m estimated in
  Ok (p <=? maximum).

(** The closure [fits] of [fitting_prefix_len]; slicing past the end panics. *)
Definition fits_prefix (cs : list PackCandidate) (maximum : Z) (m : AdaptiveSizeModel) (len : Z)
    : pres bool :=
  if Z.of_nat (length cs) <? len then Panic else
  fits_list maximum m (take (Z.to_nat len) cs).

Definition fitting_prefix_len (cs : list PackCandidate) (maximum : Z) (m : AdaptiveSizeModel)
    : pres Z :=
  if bool_decide (cs = []) then Ok 0 else
  let fits := fits_prefix cs maximum m in
  let? b := fits 1 in
  if negb b then Ok 1 else
  bisect fits (length cs) 1 (Z.of_nat (length cs) + 1).

(** [for _ in 0..count { selected.push(remaining.pop_front().ok_or(..)?) }] *)
Fixpoint pop_front_n (count : nat) (selected remaining : list PackCandidate)
    : pres (list PackCandidate * list PackCandidate) :=
  match count with
  | O => Ok (selected, remaining)
  | S count =>
      match remaining with
      | [] => Err (Estimator [])
      | c :: remaining => pop_front_n count (selected ++ [c]) remaining
      end
  end.

(** [take_fitting_prefix]: the selected candidates and the rest of the queue. *)
Definition take_fitting_prefix (remaining : list PackCandidate) (maximum : Z)
    (m : AdaptiveSizeModel) : pres (list PackCandidate * list PackCandidate) :=
  let? count := fitting_prefix_len remaining maximum m in
  pop_front_n (Z.to_nat count) [] remaining.

(** [while high < maximum_additional && fits(high)? { .. }] *)
Fixpoint double_while (fits : Z -> pres bool) (maximum_additional : Z) (fuel : nat) (low high : Z)
    : pres (Z * Z) :=
  if high <? maximum_additional then
    let? b := fits high in
    if b then
      match fuel with
      | O => Panic
      | S fuel => double_while fits maximum_additional fuel high
                    (Z.min (saturating_mul high 2) maximum_additional)
      end
    else Ok (low, high)
  else Ok (low, high).

(** The closure [fits] of [extend_to_fitting_prefix]. *)
Definition fits_extended (selected remaining : list PackCandidate) (maximum : Z)
    (m : AdaptiveSizeModel) (additional : Z) : pres bool :=
  fits_list maximum m (selected ++ take (Z.to_nat additional) remaining).

(** The number of candidates [extend_to_fitting_prefix] adds; [None] where
    it returns [false] without changing the queues. *)
Definition extension_len (selected remaining : list PackCandidate) (maximum : Z)
    (m : AdaptiveSizeModel) (rejected_prefix_len : option Z) : pres (option Z) :=
  if bool_decide (remaining = []) then Ok None else
  let selected_len := Z.of_nat (length selected) in
  let maximum_count := match rejected_prefix_len with
    | Some count => saturating_sub count 1
    | None => saturating_add selected_len (Z.of_nat (length remaining))
    end in
  if maximum_count <=? selected_len then Ok None else
  let maximum_additional :=
    Z.min (saturating_sub maximum_count selected_len) (Z.of_nat (length remaining)) in
  let fits := fits_extended selected remaining maximum m in
  if maximum_additional =? 0 then Ok None else
  let? b := fits 1 in
  if negb b then Ok None else
  let? lh := double_while fits maximum_additional (length remaining) 1 (Z.min 2 maximum_additional) in
  let '(low, high) := lh in
  let? b := fits high in
  let? low := (if b then Ok high else bisect fits (length remaining) low high) in
  Ok (Some low).

Definition extend_to_fitting_prefix (selected remaining : list PackCandidate) (maximum : Z)
    (m : AdaptiveSizeModel) (rejected_prefix_len : option Z)
    : pres (bool * list PackCandidate * list PackCandidate) :=
  let? o := extension_len selected remaining maximum m rejected_prefix_len in
  match o with
  | None => Ok (false, selected, remaining)
  | Some low =>
      let? q := pop_front_n (Z.to_nat low) selected remaining in
      Ok (true, q.1, q.2)
  end.

(** [shrink_to_fitting_prefix]: [split_off] panics past the end. *)
Definition shrink_to_fitting_prefix (selected remaining : list PackCandidate) (maximum : Z)
    (m : AdaptiveSizeModel) : pres (list PackCandidate * list PackCandidate) :=
  let? count := fitting_prefix_len selected maximum m in
  let len := Z.of_nat (length selected) in
  let count := if len <=? count then Z.max (saturating_sub len 1) 1 else count in
  if len <? count then Panic else
  let returned := drop (Z.to_nat count) selected in
  Ok (take (Z.to_nat count) selected,
      fold_left (fun remaining c => c :: remaining) (rev returned) remaining).

(** ** Thresholds *)

Definition projection_batch_byte_target (maximum_pst_bytes private_file_eof : Z) : Z :=
  let finalization_reserve := Z.max (maximum_pst_bytes / 16) 1 in
  if saturating_sub maximum_pst_bytes finalization_reserve <=? private_file_eof
  then Z.max (maximum_pst_bytes / 256) 1
  else Z.max (maximum_pst_bytes / 16) 1.

Definition direct_exact_projection_required (maximum_pst_bytes projected_private_eof : Z) : bool :=
  let finalization_boundary := Z.max (maximum_pst_bytes / 16) 1 in
  saturating_sub maximum_pst_bytes finalization_boundary <=? projected_private_eof.

Definition direct_required_capacity (source_bytes : Z) : Z :=
  saturating_add source_bytes (source_bytes / 4).

(** The bytes [disk_preflight] requires; the file system it asks is not
    modelled. *)
Definition preflight_required_bytes (source_bytes existing_job_bytes : Z) (restartable : bool) : Z :=
  if restartable then saturating_sub (saturating_mul source_bytes 3) existing_job_bytes
  else direct_required_capacity source_bytes.

(** ** The estimate grows with the candidates *)

Definition candidate_ok (c : PackCandidate) : Prop := uint 64 (payload_bytes c).
Definition model_ok (m : AdaptiveSizeModel) : Prop :=
  match observed m with Some (e, a) => 0 < e /\ 0 <= a | None => True end.

Lemma observe_ok e a m : 0 <= e -> 0 <= a -> observe e a = Ok m -> model_ok m.
Proof.
  unfold observe, model_ok. intros He Ha. destruct (Z.eqb_spec e 0); intros [= <-]. cbn. lia.
Qed.

Lemma estimate_step_ok s c s' :
  candidate_ok c -> estimate_step s c = Ok s' -> s.1 ⊆ s'.1 /\ s.2 <= s'.2.
Proof.
  unfold estimate_step, checked_add, candidate_ok, uint, ESTIMATED_MESSAGE_BYTES. destruct s as [f e].
  intros [Hc _] H. res_step. inv_ok. cbn [fst snd].
  destruct (e + payload_bytes c <? 2 ^ 64) eqn:E1; cbn in E; [|done].
  destruct (_ <? _) eqn:E2 in E; cbn in E; [|done]. inv_ok. split; [set_solver|lia].
Qed.

Lemma estimate_loop_ok cs s s' :
  Forall candidate_ok cs -> rfold estimate_step cs s = Ok s' -> s.1 ⊆ s'.1 /\ s.2 <= s'.2.
Proof.
  intros Hc. revert s. induction Hc as [|c cs Hc _ IH]; intros s H; cbn in H; [by inv_ok|].
  res_step. apply IH in H as [? ?]. apply estimate_step_ok in E as [? ?]; [|done].
  split; [by transitivity a.1|lia].
Qed.

Lemma saturating_folders (f f' : gset (list String_)) :
  f ⊆ f' -> saturating_mul (saturating_len (size f)) ESTIMATED_FOLDER_BYTES
    <= saturating_mul (saturating_len (size f')) ESTIMATED_FOLDER_BYTES.
Proof.
  intros H%subseteq_size. unfold saturating_mul, saturating_len, uint_b, u64_MAX, ESTIMATED_FOLDER_BYTES.
  generalize dependent (size f). generalize (size f'). intros n k H.
  destruct (Z.ltb_spec (Z.of_nat n) (2 ^ 64)), (Z.ltb_spec (Z.of_nat k) (2 ^ 64)),
    (Z.leb_spec 0 (Z.of_nat n)), (Z.leb_spec 0 (Z.of_nat k)); cbn [andb]; lia.
Qed.

Lemma estimate_prefix l k e :
  Forall candidate_ok k -> estimate_candidate_iter (l ++ k) = Ok e ->
  exists e', estimate_candidate_iter l = Ok e' /\ e' <= e.
Proof.
  intros Hk H. unfold estimate_candidate_iter in *. rewrite rfold_app in H.
  destruct (rfold estimate_step l _) as [[f1 e1]| |]; [|done..]. cbn [rbind] in *.
  destruct (rfold estimate_step k _) as [[f2 e2]| |] eqn:Ek; [|done..]. cbn [rbind] in *.
  apply estimate_loop_ok in Ek as [Hf He]; [|done]. cbn in Hf, He.
  pose proof (saturating_folders _ _ Hf) as Hs.
  unfold checked_add in *. destruct (Z.ltb_spec (e2 + saturating_mul (saturating_len (size f2)) ESTIMATED_FOLDER_BYTES) (2 ^ 64)); [|done].
  destruct (Z.ltb_spec (e1 + saturating_mul (saturating_len (size f1)) ESTIMATED_FOLDER_BYTES) (2 ^ 64)); [|lia].
  cbn in *. eexists. split; [done|]. inv_ok. lia.
Qed.

Lemma estimate_nonneg l e : Forall candidate_ok l -> estimate_candidate_iter l = Ok e -> 0 <= e.
Proof.
  intros Hl H. apply (estimate_prefix [] l) in H as (e' & H & ?); [|done].
  assert (e' = ESTIMATED_STORE_BYTES) as -> by (revert H; vm_compute; congruence).
  unfold ESTIMATED_STORE_BYTES in *. lia.
Qed.

Lemma predict_mono m e e' p :
  model_ok m -> 0 <= e' <= e -> predict m e = Ok p -> exists p', predict m e' = Ok p' /\ p' <= p.
Proof.
  unfold predict, model_ok. destruct (observed m) as [[oe oa]|]; [|intros _ He [= ->]; exists e'; split; [done|lia]].
  intros [Ho Ha] He H. unfold checked_mul, checked_add, saturating_sub in *.
  destruct (Z.ltb_spec (e * oa) (2 ^ 128)); [|done].
  destruct (Z.ltb_spec (e' * oa) (2 ^ 128)); [|nia]. cbn [ok_or rbind] in *.
  destruct (Z.ltb_spec (e * oa + Z.max 0 (oe - 1)) (2 ^ 128)); [|done].
  destruct (Z.ltb_spec (e' * oa + Z.max 0 (oe - 1)) (2 ^ 128)); [|nia]. cbn [ok_or rbind] in *.
  destruct (Z.eqb_spec oe 0); [lia|].
  assert ((e' * oa + Z.max 0 (oe - 1)) / oe <= (e * oa + Z.max 0 (oe - 1)) / oe) by (apply Z.div_le_mono; nia).
  assert (0 <= (e' * oa + Z.max 0 (oe - 1)) / oe) by (apply Z.div_pos; nia).
  destruct (uint_b 64 _) eqn:E1 in H; [|done]. apply uint_b_spec in E1. inv_ok.
  replace (uint_b 64 ((e' * oa + Z.max 0 (oe - 1)) / oe)) with true; [eauto|].
  symmetry. apply uint_b_spec. unfold uint in *. lia.
Qed.

(** A computation of a size: it ends without a panic, and its only error is
    an overflow. *)
Definition size_result {A} (r : pres A) : Prop :=
  match r with Ok _ => True | Err e => e = SizeOverflow | Panic => False end.

Lemma size_bind {A B} (r : pres A) (k : A -> pres B) :
  size_result r -> (forall a, size_result (k a)) -> size_result (rbind r k).
Proof. destruct r; cbn; auto. Qed.

Lemma size_ok_or {A} (o : option A) : size_result (ok_or o SizeOverflow).
Proof. by destruct o. Qed.

Lemma estimate_size l : size_result (estimate_candidate_iter l).
Proof.
  apply size_bind; [|intros [f e]; apply size_ok_or].
  generalize (∅ : gset (list String_), ESTIMATED_STORE_BYTES).
  induction l as [|c l IH]; intros s; cbn [rfold]; [done|].
  apply size_bind; [|done]. destruct s. apply size_bind; [apply size_ok_or|done].
Qed.

Lemma predict_size m e : model_ok m -> size_result (predict m e).
Proof.
  unfold model_ok, predict. destruct (observed m) as [[oe oa]|]; [|done]. intros [Ho _].
  apply size_bind; [apply size_ok_or|intros n]. apply size_bind; [apply size_ok_or|intros k].
  destruct (Z.eqb_spec oe 0); [lia|]. by destruct (uint_b _ _).
Qed.

Lemma fits_list_size maximum m l : model_ok m -> size_result (fits_list maximum m l).
Proof. intros Hm. apply size_bind; [apply estimate_size|intros e]. by apply size_bind; [apply predict_size|]. Qed.

(** Candidates that fit still fit when the last ones are left out. *)
Lemma fits_list_prefix maximum m l k :
  model_ok m -> Forall candidate_ok (l ++ k) -> fits_list maximum m (l ++ k) = Ok true ->
  fits_list maximum m l = Ok true.
Proof.
  intros Hm [Hl Hk]%Forall_app H. unfold fits_list in *.
  res_step. apply estimate_prefix in E as (e' & El & He); [|done].
  assert (0 <= e') by (by apply (estimate_nonneg l)). rewrite El. cbn [rbind].
  res_step. destruct (predict_mono m a e' a0) as (p' & -> & Hp); [done|lia|done|]. cbn [rbind].
  inv_ok. f_equal. zb. apply Z.leb_le. lia.
Qed.

(** ** Bisection *)

(** Lengths are probed below one that does not fit. *)
Lemma bisect_spec fits fuel low high :
  low < high -> high - low <= Z.of_nat fuel + 1 ->
  (forall k, low < k < high -> size_result (fits k)) ->
  match bisect fits fuel low high with
  | Ok r => low <= r < high /\ (r = low \/ fits r = Ok true) /\ (r + 1 = high \/ fits (r + 1) = Ok false)
  | Err e => e = SizeOverflow
  | Panic => False
  end.
Proof.
  revert low high. induction fuel as [|fuel IH]; intros low high Hlt Hf Hs; cbn [bisect];
    destruct (Z.ltb_spec (low + 1) high); try lia.
  - set (mid := low + (high - low) / 2).
    assert (low < mid < high) as Hmid.
    { subst mid. pose proof (Z.div_lt (high - low) 2). pose proof (Z.div_le_lower_bound (high - low) 2 1). lia. }
    specialize (Hs mid Hmid) as Hsm. destruct (fits mid) as [[]| |] eqn:Em; cbn [rbind]; [..|done|done].
    + specialize (IH mid high ltac:(lia) ltac:(lia)).
      destruct (bisect fits fuel mid high); [|apply IH; intros; apply Hs; lia..].
      destruct IH as (? & ? & ?); [intros; apply Hs; lia|]. split_and!; [lia|lia| |done].
      right. destruct H1 as [->|?]; done.
    + specialize (IH low mid ltac:(lia) ltac:(lia)).
      destruct (bisect fits fuel low mid); [|apply IH; intros; apply Hs; lia..].
      destruct IH as (? & ? & ?); [intros; apply Hs; lia|]. split_and!; [lia|lia|done|].
      right. destruct H2 as [->|?]; done.
Qed.

(** What a search must find among the lengths [1 .. len]: the last one that
    fits, or one when none does. *)
Definition longest_fit (fits : Z -> pres bool) (len n : Z) : Prop :=
  1 <= n <= len /\ (n = 1 \/ fits n = Ok true) /\
  forall k, n < k <= len -> fits k <> Ok true.

(** Bisecting a predicate that holds below any point where it holds. *)
Lemma bisect_longest fits fuel low high len r :
  1 <= low -> low < high -> (low = 1 \/ fits low = Ok true) ->
  (forall j k, 1 <= j <= k -> k <= len -> fits k = Ok true -> fits j = Ok true) ->
  (forall k, high <= k <= len -> fits k <> Ok true) -> high <= len + 1 ->
  high - low <= Z.of_nat fuel + 1 -> (forall k, low < k < high -> size_result (fits k)) ->
  bisect fits fuel low high = Ok r -> longest_fit fits len r /\ low <= r.
Proof.
  intros H1 Hlt Hlow Hmono Hhigh Hle Hf Hs Hb.
  pose proof (bisect_spec fits fuel low high Hlt Hf Hs) as Hr. rewrite Hb in Hr.
  destruct Hr as (Hr & Hfit & Hnext). split; [|lia]. split_and!; [lia|lia| |].
  - destruct Hfit as [->|]; [done|by right].
  - intros k Hk Hfk. destruct Hnext as [Hn|Hn].
    + apply (Hhigh k); [lia|done].
    + enough (fits (r + 1) = Ok true) by congruence. apply (Hmono (r + 1) k); [lia..|done].
Qed.

Section Prefix.
Context (maximum : Z) (m : AdaptiveSizeModel) (Hm : model_ok m).
#[local] Set Default Proof Using "All".

Lemma fits_prefix_size cs k : k <= Z.of_nat (length cs) -> size_result (fits_prefix cs maximum m k).
Proof.
  intros Hk. unfold fits_prefix. destruct (Z.ltb_spec (Z.of_nat (length cs)) k); [lia|].
  by apply fits_list_size.
Qed.

Lemma fits_prefix_mono cs j k :
  Forall candidate_ok cs -> 1 <= j <= k -> k <= Z.of_nat (length cs) ->
  fits_prefix cs maximum m k = Ok true -> fits_prefix cs maximum m j = Ok true.
Proof.
  intros Hc Hjk Hk. unfold fits_prefix.
  destruct (Z.ltb_spec (Z.of_nat (length cs)) k), (Z.ltb_spec (Z.of_nat (length cs)) j); try lia.
  assert (take (Z.to_nat k) cs = take (Z.to_nat j) cs ++ drop (Z.to_nat j) (take (Z.to_nat k) cs)) as E.
  { rewrite <- (take_drop (Z.to_nat j) (take (Z.to_nat k) cs)) at 1.
    by rewrite take_take, Nat.min_l by lia. }
  rewrite E. apply fits_list_prefix; [done|]. rewrite <- E. by apply Forall_take.
Qed.

Lemma fitting_prefix_len_spec cs :
  Forall candidate_ok cs ->
  match fitting_prefix_len cs maximum m with
  | Ok n => (cs = [] /\ n = 0) \/
      (cs <> [] /\ longest_fit (fits_prefix cs maximum m) (Z.of_nat (length cs)) n)
  | Err e => e = SizeOverflow
  | Panic => False
  end.
Proof.
  intros Hc. unfold fitting_prefix_len. case_bool_decide as Ec; [by left|].
  assert (1 <= Z.of_nat (length cs)) by (destruct cs; [done|cbn [length]; lia]).
  pose proof (fits_prefix_size cs 1 ltac:(lia)) as H1.
  destruct (fits_prefix cs maximum m 1) as [[]| |] eqn:E1; cbn [rbind negb]; [| |done..].
  - destruct (bisect _ _ _ _) eqn:Eb.
    + right. split; [done|].
      eapply (bisect_longest _ (length cs) 1 (Z.of_nat (length cs) + 1)); try done; try lia.
      * intros. by eapply fits_prefix_mono.
      * intros. apply fits_prefix_size. lia.
    + pose proof (bisect_spec (fits_prefix cs maximum m) (length cs) 1 (Z.of_nat (length cs) + 1)) as Hb.
      rewrite Eb in Hb. apply Hb; [lia..|]. intros. apply fits_prefix_size. lia.
    + pose proof (bisect_spec (fits_prefix cs maximum m) (length cs) 1 (Z.of_nat (length cs) + 1)) as Hb.
      rewrite Eb in Hb. apply Hb; [lia..|]. intros. apply fits_prefix_size. lia.
  - right. split; [done|]. split_and!; [lia|lia|by left|].
    intros k Hk Hf. enough (fits_prefix cs maximum m 1 = Ok true) by congruence.
    apply (fits_prefix_mono cs 1 k); [done|lia..|done].
Qed.

(** ** Queues *)

Lemma pop_front_n_spec n selected remaining :
  (n <= length remaining)%nat ->
  pop_front_n n selected remaining = Ok (selected ++ take n remaining, drop n remaining).
Proof using Type.
  revert selected remaining. induction n as [|n IH]; intros selected remaining Hn; cbn.
  { by rewrite app_nil_r. }
  destruct remaining as [|c remaining]; cbn in *; [lia|].
  rewrite IH by lia. by rewrite <- app_assoc.
Qed.

(** C15: the next part takes the longest prefix of the queue whose predicted
    size is within the maximum, found by bisection, and at least one
    candidate; selected and remaining candidates are the queue, cut; the
    only error is an overflow of the estimate of some prefix. *)
Theorem take_fitting_prefix_correct cs :
  Forall candidate_ok cs ->
  match take_fitting_prefix cs maximum m with
  | Ok (selected, remaining) =>
      selected ++ remaining = cs /\
      (cs = [] \/ longest_fit (fits_prefix cs maximum m) (Z.of_nat (length cs))
                    (Z.of_nat (length selected)))
  | Err e => e = SizeOverflow
  | Panic => False
  end.
Proof.
  intros Hc%fitting_prefix_len_spec. unfold take_fitting_prefix.
  destruct (fitting_prefix_len cs maximum m) as [n| |]; cbn [rbind]; [|done..].
  assert (0 <= n <= Z.of_nat (length cs)).
  { destruct Hc as [[-> ->]|[_ [? _]]]; [done|lia]. }
  rewrite pop_front_n_spec by lia. cbn [app]. split; [apply take_drop|].
  destruct Hc as [[? _]|[_ Hl]]; [by left|right].
  by rewrite length_take_le, Z2Nat.id by lia.
Qed.

(** Shrinking a rejected selection keeps a non-empty proper prefix of it
    (of one candidate only when it has one) and puts the others back at the
    front of the queue in order, so that nothing is lost or reordered. *)
Theorem shrink_to_fitting_prefix_correct selected remaining :
  Forall candidate_ok selected -> selected <> [] ->
  match shrink_to_fitting_prefix selected remaining maximum m with
  | Ok (selected', remaining') =>
      selected' ++ remaining' = selected ++ remaining /\
      (1 <= length selected')%nat /\
      (length selected' < length selected \/ length selected = 1)%nat /\
      (length selected' = 1%nat \/ fits_list maximum m selected' = Ok true)
  | Err e => e = SizeOverflow
  | Panic => False
  end.
Proof.
  intros Hc Hne. pose proof (fitting_prefix_len_spec selected Hc) as Hf.
  unfold shrink_to_fitting_prefix.
  destruct (fitting_prefix_len selected maximum m) as [n| |]; cbn [rbind]; [|done..].
  destruct Hf as [[? _]|[_ (Hn & Hfit & Hmax)]]; [done|].
  assert (1 <= length selected)%nat by lia. unfold saturating_sub.
  set (count := if _ <=? n then _ else n).
  assert (1 <= count <= n) as Hcount by (subst count; destruct (Z.leb_spec (Z.of_nat (length selected)) n); lia).
  assert (count < Z.of_nat (length selected) \/ Z.of_nat (length selected) = 1) as Hsh.
  { subst count. destruct (Z.leb_spec (Z.of_nat (length selected)) n); lia. }
  destruct (Z.ltb_spec (Z.of_nat (length selected)) count); [lia|].
  rewrite length_take_le by lia. split_and!; [|lia|lia|].
  - assert (forall l k : list PackCandidate, fold_left (fun remaining c => c :: remaining) (rev l) k = l ++ k) as ->.
    { induction l as [|c l IH]; intros k; cbn; [done|]. rewrite fold_left_app, IH. done. }
    by rewrite app_assoc, take_drop.
  - destruct Hfit as [->|Hfit]; [left; lia|right].
    apply (fits_prefix_mono selected count) in Hfit; [|done|lia|lia].
    unfold fits_prefix in Hfit. by destruct (Z.ltb_spec (Z.of_nat (length selected)) count); [lia|].
Qed.
End Prefix.

(** ** Extending a selection *)

Lemma double_while_spec fits max fuel low high :
  1 <= low -> low <= high -> high <= max -> max <= u64_MAX -> fits low = Ok true ->
  (low < high \/ high = max) -> max - high <= Z.of_nat fuel ->
  (forall k, 1 <= k <= max -> size_result (fits k)) ->
  match double_while fits max fuel low high with
  | Ok (l, h) => 1 <= l /\ l <= h /\ h <= max /\ fits l = Ok true /\
      (l < h \/ h = max) /\ (h = max \/ fits h = Ok false)
  | Err e => e = SizeOverflow
  | Panic => False
  end.
Proof.
  revert low high. induction fuel as [|fuel IH]; intros low high H1 Hlh Hhm Hm Hfl Hor Hf Hs;
    cbn [double_while]; destruct (Z.ltb_spec high max); try lia; try (split_and!; auto with lia; lia).
  pose proof (Hs high ltac:(lia)) as Hsh.
  destruct (fits high) as [[]| |] eqn:Eh; cbn [rbind]; [|split_and!; auto with lia|done..].
  assert (high < Z.min (saturating_mul high 2) max) by (unfold saturating_mul; lia).
  apply IH; auto with lia.
Qed.

Section Extension.
Context (maximum : Z) (m : AdaptiveSizeModel) (Hm : model_ok m).
Context (selected remaining : list PackCandidate).
Context (Hsel : Forall candidate_ok (selected ++ remaining)).
Context (Hlen : Z.of_nat (length (selected ++ remaining)) <= u64_MAX).
#[local] Set Default Proof Using "All".

Abbreviation fits := (fits_extended selected remaining maximum m).

Lemma fits_extended_mono j k :
  1 <= j <= k -> k <= Z.of_nat (length remaining) -> fits k = Ok true -> fits j = Ok true.
Proof.
  intros Hjk Hk. unfold fits_extended.
  assert (take (Z.to_nat k) remaining =
    take (Z.to_nat j) remaining ++ drop (Z.to_nat j) (take (Z.to_nat k) remaining)) as E.
  { rewrite <- (take_drop (Z.to_nat j) (take (Z.to_nat k) remaining)) at 1.
    by rewrite take_take, Nat.min_l by lia. }
  rewrite E, app_assoc. apply fits_list_prefix; [done|]. rewrite <- app_assoc, <- E.
  apply Forall_app in Hsel as [? ?]. apply Forall_app; split; [done|by apply Forall_take].
Qed.

(** How many candidates may be added. *)
Definition addable (rejected_prefix_len : option Z) : Z :=
  Z.min (match rejected_prefix_len with
         | Some count => count - 1 - Z.of_nat (length selected)
         | None => Z.of_nat (length remaining)
         end) (Z.of_nat (length remaining)).

Lemma extension_len_spec rejected :
  match rejected with Some c => 0 <= c | None => True end ->
  match extension_len selected remaining maximum m rejected with
  | Ok None => addable rejected <= 0 \/ fits 1 = Ok false
  | Ok (Some n) => fits n = Ok true /\ longest_fit fits (addable rejected) n
  | Err e => e = SizeOverflow
  | Panic => False
  end.
Proof.
  intros Hrej. unfold extension_len. pose proof Hlen as Hln. rewrite length_app in Hln. unfold u64_MAX in Hln.
  case_bool_decide as Er.
  { left. unfold addable. rewrite Er. cbn [length]. lia. }
  assert (1 <= Z.of_nat (length remaining)) by (destruct remaining; [done|cbn [length]; lia]).
  set (count := match rejected with Some _ => _ | None => _ end).
  destruct (Z.leb_spec count (Z.of_nat (length selected))).
  { left. unfold addable, count, saturating_sub, saturating_add, u64_MAX in *. destruct rejected; lia. }
  assert (Z.min (saturating_sub count (Z.of_nat (length selected))) (Z.of_nat (length remaining))
    = addable rejected) as ->.
  { unfold addable, count, saturating_sub, saturating_add, u64_MAX in *. destruct rejected; lia. }
  assert (1 <= addable rejected <= Z.of_nat (length remaining)) as Ha.
  { unfold addable, count, saturating_sub, saturating_add, u64_MAX in *. destruct rejected; lia. }
  generalize dependent (addable rejected). clear count H0. intros max Ha.
  destruct (Z.eqb_spec max 0); [lia|].
  assert (forall k, 1 <= k <= max -> size_result (fits k)) as Hs by (intros; by apply fits_list_size).
  assert (forall j k, 1 <= j <= k -> k <= max -> fits k = Ok true -> fits j = Ok true) as Hmono.
  { intros j k Hjk Hk. apply fits_extended_mono; lia. }
  pose proof (Hs 1 ltac:(lia)) as Hs1.
  destruct (fits 1) as [[]| |] eqn:E1; cbn [rbind negb]; [|by right|done..].
  pose proof (double_while_spec fits max (length remaining) 1 (Z.min 2 max)) as Hd.
  destruct (double_while _ _ _ _ _) as [[l h]| |]; cbn [rbind];
    [|apply Hd; unfold u64_MAX; auto with lia..].
  destruct Hd as (Hl & Hlh & Hh & Hfl & Hor & Hend); [unfold u64_MAX; auto with lia..|].
  pose proof (Hs h ltac:(lia)) as Hsh.
  destruct (fits h) as [[]| |] eqn:Eh; cbn [rbind]; [..|done|done].
  - assert (h = max) as -> by (destruct Hend; congruence). split; [done|]. split_and!; [lia..|by right|lia].
  - assert (l < h) by (assert (l <> h) by (intros ->; congruence); lia).
    assert (forall k, h <= k <= max -> fits k <> Ok true) as Hno.
    { intros k Hk Hfk. enough (fits h = Ok true) by congruence. apply (Hmono h k); [lia..|done]. }
    destruct (bisect _ _ _ _) as [r| |] eqn:Eb; cbn [rbind].
    + apply (bisect_longest fits (length remaining) l h max r) in Eb as [Hlf Hle]; [|auto with lia..].
      split; [|done]. by destruct Hlf as (_ & [->|?] & _).
    + pose proof (bisect_spec fits (length remaining) l h) as Hb. rewrite Eb in Hb.
      apply Hb; [lia..|]. intros; apply Hs; lia.
    + pose proof (bisect_spec fits (length remaining) l h) as Hb. rewrite Eb in Hb.
      apply Hb; [lia..|]. intros; apply Hs; lia.
Qed.

(** Extending a selection moves the longest run of candidates from the
    front of the queue that still fits, below a length already rejected,
    found by doubling and bisection; the concatenation of the selection and
    the queue does not change; [false] means that no candidate may be added
    or that one more does not fit. *)
Theorem extend_to_fitting_prefix_correct rejected :
  match rejected with Some c => 0 <= c | None => True end ->
  match extend_to_fitting_prefix selected remaining maximum m rejected with
  | Ok (true, selected', remaining') =>
      selected' ++ remaining' = selected ++ remaining /\
      (length selected < length selected')%nat /\
      fits_list maximum m selected' = Ok true /\
      longest_fit fits (addable rejected) (Z.of_nat (length selected' - length selected)) /\
      match rejected with Some c => Z.of_nat (length selected') < c | None => True end
  | Ok (false, selected', remaining') =>
      selected' = selected /\ remaining' = remaining /\
      (addable rejected <= 0 \/ fits 1 = Ok false)
  | Err e => e = SizeOverflow
  | Panic => False
  end.
Proof.
  intros Hrej. pose proof (extension_len_spec rejected Hrej) as He. clear Hrej. unfold extend_to_fitting_prefix.
  destruct (extension_len _ _ _ _ _) as [[n|]| |]; cbn [rbind]; [|done..].
  destruct He as [Hfit Hlong]. pose proof Hlong as (Hn & _).
  assert (n <= Z.of_nat (length remaining)) by (unfold addable in Hn; lia).
  rewrite pop_front_n_spec by lia. cbn [rbind fst snd].
  assert (length (selected ++ take (Z.to_nat n) remaining) = length selected + Z.to_nat n)%nat as El
    by (rewrite length_app, length_take_le; lia).
  rewrite El. split_and!.
  - by rewrite <- app_assoc, take_drop.
  - lia.
  - exact Hfit.
  - by replace (Z.of_nat (length selected + Z.to_nat n - length selected)) with n by lia.
  - destruct rejected; [|done]. unfold addable in Hn. lia.
Qed.
End Extension.

(** ** Thresholds *)

(** The target of a projection batch is positive and within the part, and an
    exact projection is required exactly where the smaller target applies. *)
Lemma projection_batch_spec maximum eof :
  uint 64 maximum -> uint 64 eof ->
  1 <= projection_batch_byte_target maximum eof <= Z.max 1 maximum /\
  (direct_exact_projection_required maximum eof = false ->
   eof + projection_batch_byte_target maximum eof < Z.max 2 maximum).
Proof.
  unfold uint, projection_batch_byte_target, direct_exact_projection_required, saturating_sub.
  intros Hm He. pose proof (Z.div_mod maximum 16) as H16. pose proof (Z.mod_pos_bound maximum 16).
  pose proof (Z.div_mod maximum 256) as H256. pose proof (Z.mod_pos_bound maximum 256).
  destruct (Z.leb_spec (Z.max 0 (maximum - Z.max (maximum / 16) 1)) eof); split; try done; lia.
Qed.

(** ** Examples *)

Definition sample_queue : list PackCandidate :=
  (fun n => sample_candidate [[65]; [66]] n 1000000) <$> [1; 2; 3; 4; 5].

Definition sample_model : AdaptiveSizeModel := mk_AdaptiveSizeModel (Some (1048576, 2097152)).

Lemma sample_queue_ok : Forall candidate_ok sample_queue.
Proof. repeat constructor; unfold candidate_ok, uint; cbn; lia. Qed.

Lemma sample_model_ok : model_ok sample_model.
Proof. unfold model_ok; cbn; lia. Qed.

Lemma take_fitting_prefix_correct_witness :
  take_fitting_prefix sample_queue 7000000 sample_model = Ok (take 2 sample_queue, drop 2 sample_queue) /\
  longest_fit (fits_prefix sample_queue 7000000 sample_model) 5 2.
Proof.
  assert (take_fitting_prefix sample_queue 7000000 sample_model
    = Ok (take 2 sample_queue, drop 2 sample_queue)) as E by (by vm_compute).
  split; [exact E|].
  pose proof (take_fitting_prefix_correct 7000000 sample_model sample_model_ok sample_queue sample_queue_ok) as H.
  rewrite E in H. destruct H as [_ [H|H]]; [discriminate H|exact H].
Defined.

Lemma shrink_to_fitting_prefix_correct_witness :
  exists s r, shrink_to_fitting_prefix sample_queue sample_queue 7000000 sample_model = Ok (s, r) /\
    s ++ r = sample_queue ++ sample_queue /\ length s = 2%nat.
Proof.
  pose proof (shrink_to_fitting_prefix_correct 7000000 sample_model sample_model_ok
    sample_queue sample_queue sample_queue_ok ltac:(discriminate)) as H.
  assert (shrink_to_fitting_prefix sample_queue sample_queue 7000000 sample_model
    = Ok (take 2 sample_queue, drop 2 sample_queue ++ sample_queue)) as E by (by vm_compute).
  rewrite E in H. eexists _, _. split; [exact E|]. split; [apply H|reflexivity].
Defined.

Lemma extend_to_fitting_prefix_correct_witness :
  exists s r, extend_to_fitting_prefix (take 1 sample_queue) (drop 1 sample_queue) 9200000 sample_model (Some 5)
    = Ok (true, s, r) /\ s ++ r = sample_queue /\ length s = 3%nat.
Proof.
  pose proof (extend_to_fitting_prefix_correct 9200000 sample_model sample_model_ok
    (take 1 sample_queue) (drop 1 sample_queue) sample_queue_ok ltac:(vm_compute; discriminate)
    (Some 5) ltac:(discriminate)) as H.
  assert (extend_to_fitting_prefix (take 1 sample_queue) (drop 1 sample_queue) 9200000 sample_model (Some 5)
    = Ok (true, take 3 sample_queue, drop 3 sample_queue)) as E by (by vm_compute).
  rewrite E in H. eexists _, _. split; [exact E|]. split; [apply H|reflexivity].
Defined.
