(* ===== verification/Alloc.v ===== *)
(** * Space allocation of the writer

    The arithmetic of [writer.rs] that lays a new file out: where blocks and
    pages go ([allocate_extent]), where the file ends, how the entries of a
    B-tree are spread over pages and how many pages that takes. Allocation is
    shown to be first fit around the slots reserved for map pages, which are
    the slots [rebuild_allocation_map] reserves (file Amap). *)
From stdpp Require Export strings.
From S2P Require Import Prelude Errors Ids Header Page BTree Block Amap.
#[local] Open Scope Z_scope.

(** ** Errors *)

(** [WriterError]; the variants of publication and validation of a completed
    file, which is not modelled, are left out. [InvalidStructureOf] and
    [InvalidStructureOfLtp] are
    [InvalidStructure(error.to_string())]. *)
Inductive WriterError :=
| Interrupted
| ValueTooLarge (what : string)
| InvalidStructure (what : string)
| InvalidStructureOf (e : NdbError)
| InvalidStructureOfLtp (e : LtpError)
| WriterIo (e : io_error).

Abbreviation wres := (res WriterError).

(** [.map_err(|error| WriterError::InvalidStructure(error.to_string()))?] *)
Definition structure {A} (m : NdbResult A) : wres A := rmap_err InvalidStructureOf m.
Definition structure_ltp {A} (m : LtpResult A) : wres A := rmap_err InvalidStructureOfLtp m.
(** [?] on an [io::Result]. *)
Definition wio {A} (m : io_result A) : wres A := rmap_err WriterIo m.
(** [.ok_or(WriterError::ValueTooLarge(what))?] *)
Definition fits {A} (o : option A) (what : string) : wres A := ok_or o (ValueTooLarge what).

(** [check_interrupted], with the value the flag has at that moment. *)
Definition check_interrupted (interrupted : bool) : wres unit :=
  if interrupted then Err Interrupted else Ok tt.

(** ** Constants *)

Definition SLOT_SIZE : Z := 64.
Definition SLOTS_PER_AMAP : Z := 496 * 8.
Definition PAGE_SIZE : Z := 512.
Definition AMAP_DATA_SIZE : Z := SLOTS_PER_AMAP * SLOT_SIZE.
Definition FIRST_AMAP : Z := 0x4400.
Definition INITIAL_FILE_EOF : Z := FIRST_AMAP + AMAP_DATA_SIZE.
Definition FIRST_DATA : Z := 0x4800.
Definition FMAP_FIRST_AMAP : Z := 128.
Definition FMAP_AMAP_COUNT : Z := 496.
Definition FPMAP_FIRST_AMAP : Z := 128 * 64.
Definition FPMAP_AMAP_COUNT : Z := 496 * 64.

(** ** Extents *)

(** [value.div_ceil(alignment) * alignment] on [u64]. *)
Definition align_up (value alignment : Z) : Z := wrap 64 (div_ceil value alignment * alignment).

Definition saturating_mul64 (x y : Z) : Z := Z.min (2 ^ 64 - 1) (x * y).

Definition reserved_map_page_count (amap_index : Z) : Z :=
  let pages := 1 in
  if amap_index mod 8 =? 0 then
    let pages := pages + 1 in
    let pages := if (FMAP_FIRST_AMAP <=? amap_index) && ((amap_index - FMAP_FIRST_AMAP) mod FMAP_AMAP_COUNT =? 0)
                 then pages + 1 else pages in
    if (FPMAP_FIRST_AMAP <=? amap_index) && ((amap_index - FPMAP_FIRST_AMAP) mod FPMAP_AMAP_COUNT =? 0)
    then pages + 1 else pages
  else pages.

(** The [loop] of [allocate_extent]: the offset and the new cursor. Running
    out of fuel is [Panic]. *)
Fixpoint allocate_loop (fuel : nat) (size alignment offset : Z) : wres (Z * Z) :=
  match fuel with
  | O => Panic
  | S fuel =>
      let? d := ok_or (checked_sub offset FIRST_AMAP) (InvalidStructure "allocation before first AMap") in
      let amap_index := d / AMAP_DATA_SIZE in
      let? region_start := fits (checked_add 64 FIRST_AMAP (saturating_mul64 amap_index AMAP_DATA_SIZE))
        "allocation region" in
      let? reserved_end := fits (checked_add 64 region_start
        (saturating_mul64 (reserved_map_page_count amap_index) PAGE_SIZE)) "allocation map pages" in
      let offset := if offset <? reserved_end then align_up reserved_end alignment else offset in
      let? end_ := fits (checked_add 64 offset size) "allocation extent" in
      let? region_end := fits (checked_add 64 region_start AMAP_DATA_SIZE) "allocation region" in
      if end_ <=? region_end then Ok (offset, end_)
      else allocate_loop fuel size alignment region_end
  end.

(** An extent that fits in a region past its map pages is found in one of
    two rounds. *)
Definition ALLOCATE_FUEL : nat := 2.

Definition allocate_extent (cursor size alignment : Z) : wres (Z * Z) :=
  allocate_loop ALLOCATE_FUEL size alignment (align_up cursor alignment).

Definition allocation_file_eof (allocated_end : Z) : wres Z :=
  let? used := ok_or (checked_sub allocated_end FIRST_AMAP) (InvalidStructure "allocation end underflow") in
  fits (checked_add 64 FIRST_AMAP (saturating_mul64 (Z.max (div_ceil used AMAP_DATA_SIZE) 1) AMAP_DATA_SIZE))
    "file EOF".

(** ** Pages of a B-tree *)

(** The loop of [plan_leaf_pages] from page [page] on. *)
Fixpoint leaf_ranges (count : nat) (page minimum larger_pages start : Z) : list (Z * Z) :=
  match count with
  | O => []
  | S count =>
      let size := minimum + Z.b2z (page <? larger_pages) in
      (start, start + size) :: leaf_ranges count (page + 1) minimum larger_pages (start + size)
  end.

Definition plan_leaf_pages (entry_count capacity : Z) : wres (list (Z * Z)) :=
  if capacity =? 0 then Err (InvalidStructure "B-tree leaf capacity must be nonzero") else
  if entry_count =? 0 then Ok [] else
  let page_count := div_ceil entry_count capacity in
  Ok (leaf_ranges (Z.to_nat page_count) 0 (entry_count / page_count) (entry_count mod page_count) 0).

(** [while level > 1 { .. }]; running out of fuel is [Panic]. *)
Fixpoint count_levels (fuel : nat) (level pages intermediate_capacity : Z) : wres Z :=
  if 1 <? level then
    match fuel with
    | O => Panic
    | S fuel =>
        let level := div_ceil level intermediate_capacity in
        let? pages := fits (checked_add 64 pages level) "B-tree page count" in
        count_levels fuel level pages intermediate_capacity
    end
  else Ok pages.

(** Each level has at most half the pages of the one below it, of at most
    [2 ^ 64]. *)
Definition LEVEL_FUEL : nat := 64.

Definition btree_page_count (entries leaf_capacity intermediate_capacity : Z) : wres Z :=
  if (entries =? 0) || (leaf_capacity =? 0) || (intermediate_capacity =? 0) then
    Err (InvalidStructure "B-tree projection requires entries and nonzero capacities") else
  let level := div_ceil entries leaf_capacity in
  count_levels LEVEL_FUEL level level intermediate_capacity.

(** [u8::try_from(free_slots.min(0xFF)).unwrap_or(0xFF)] *)
Definition free_slot_class (free_slots : Z) : Z :=
  let m := Z.min free_slots 0xFF in if uint_b 8 m then m else 0xFF.

(** ** Lemmas on errors *)

Lemma fits_ok {A} (o : option A) what a : fits o what = Ok a <-> o = Some a.
Proof. unfold fits, ok_or. destruct o; split; congruence. Qed.

Lemma structure_ok {A} (m : NdbResult A) a : structure m = Ok a <-> m = Ok a.
Proof. unfold structure, rmap_err. destruct m; split; congruence. Qed.

Lemma wio_ok {A} (m : io_result A) a : wio m = Ok a <-> m = Ok a.
Proof. unfold wio, rmap_err. destruct m; split; congruence. Qed.

(** ** Lemmas on alignment *)

Lemma div_ceil_spec a b : 0 < b -> b * (div_ceil a b - 1) < a <= b * div_ceil a b.
Proof.
  intros Hb. unfold div_ceil. pose proof (Z.div_mod (a + b - 1) b). pose proof (Z.mod_pos_bound (a + b - 1) b). lia.
Qed.

Lemma div_ceil_least a b k : 0 < b -> a <= b * k -> div_ceil a b <= k.
Proof. intros Hb H. pose proof (div_ceil_spec a b Hb). nia. Qed.

(** The alignments of blocks and of pages. *)
Definition alignment_ok (a : Z) : Prop := a = SLOT_SIZE \/ a = PAGE_SIZE.

Lemma align_up_spec v a :
  alignment_ok a -> 0 <= v <= 2 ^ 63 ->
  v <= align_up v a < v + a /\ align_up v a mod a = 0 /\
  forall o, v <= o -> o mod a = 0 -> align_up v a <= o.
Proof.
  intros Ha Hv. assert (0 < a <= 512) as Hpos by (destruct Ha; subst; cbv; split; congruence).
  pose proof (div_ceil_spec v a ltac:(lia)) as [H1 H2].
  unfold align_up. rewrite wrap_small by (unfold uint; lia). split_and!; [lia|lia| |].
  - apply Z.mod_mul. lia.
  - intros o Ho Hm. pose proof (div_ceil_least v a (o / a) ltac:(lia)).
    pose proof (Z.div_mod o a ltac:(lia)). nia.
Qed.

Lemma align_up_id v a : alignment_ok a -> 0 <= v <= 2 ^ 63 -> v mod a = 0 -> align_up v a = v.
Proof. intros Ha Hv Hm. destruct (align_up_spec v a Ha Hv) as (? & _ & Hl). specialize (Hl v). lia. Qed.

(** ** Regions *)

(** The region of map [k], and the end of its map pages. *)
Definition region (k : Z) : Z := FIRST_AMAP + k * AMAP_DATA_SIZE.
Definition maps_end (k : Z) : Z := region k + reserved_map_page_count k * PAGE_SIZE.

(** An extent that a block or a page may have: aligned, in one region, past
    its map pages. *)
Definition free_at (size alignment offset : Z) : Prop :=
  offset mod alignment = 0 /\
  exists k, 0 <= k /\ maps_end k <= offset /\ offset + size <= region (k + 1).

Lemma reserved_map_page_count_range k : 1 <= reserved_map_page_count k <= 4.
Proof. unfold reserved_map_page_count. repeat case_match; lia. Qed.

(** The writer reserves the slots that [rebuild_allocation_map] reserves. *)
Lemma reserved_map_page_count_eq k : reserved_map_page_count k = reserved_pages k.
Proof.
  unfold reserved_map_page_count, reserved_pages, FMAP_FIRST_AMAP, FMAP_AMAP_COUNT,
    FPMAP_FIRST_AMAP, FPMAP_AMAP_COUNT.
  destruct (k mod 8 =? 0); cbn [andb]; [|done].
  change FMAP_FIRST_SIZE with 128. change FMAP_PAGE_COUNT with 496.
  change FPMAP_FIRST_SIZE with (128 * 64). change FPMAP_PAGE_COUNT with (496 * 64).
  destruct (_ && _), (_ && _); reflexivity.
Qed.

Lemma region_of o :
  FIRST_AMAP <= o -> let k := (o - FIRST_AMAP) / AMAP_DATA_SIZE in
  0 <= k /\ region k <= o < region (k + 1).
Proof.
  intros Ho k. unfold region. pose proof (Z.div_mod (o - FIRST_AMAP) AMAP_DATA_SIZE ltac:(done)).
  pose proof (Z.mod_pos_bound (o - FIRST_AMAP) AMAP_DATA_SIZE ltac:(done)).
  assert (0 <= k) by (apply Z.div_pos; [lia|done]). unfold k in *. lia.
Qed.

Lemma region_unique k j o :
  region k <= o < region (k + 1) -> region j <= o < region (j + 1) -> k = j.
Proof. unfold region. assert (0 < AMAP_DATA_SIZE) by done. nia. Qed.

(** The sizes of blocks and pages. *)
Definition extent_size_ok (size : Z) : Prop := 0 < size <= 8192.

(** One round, at an aligned offset in region [k]. *)
Definition round_offset (k offset : Z) : Z := Z.max offset (maps_end k).

Lemma aligned_constants a k : alignment_ok a -> region k mod a = 0 /\ maps_end k mod a = 0.
Proof.
  intros Ha. unfold maps_end, region.
  destruct Ha as [->| ->]; split; apply Z.mod_divide; try done.
  - exists (272 + k * 3968). cbv [FIRST_AMAP AMAP_DATA_SIZE SLOTS_PER_AMAP SLOT_SIZE]. lia.
  - exists (272 + k * 3968 + reserved_map_page_count k * 8).
    cbv [FIRST_AMAP AMAP_DATA_SIZE SLOTS_PER_AMAP SLOT_SIZE PAGE_SIZE]. lia.
  - exists (34 + k * 496). cbv [FIRST_AMAP AMAP_DATA_SIZE SLOTS_PER_AMAP SLOT_SIZE PAGE_SIZE]. lia.
  - exists (34 + k * 496 + reserved_map_page_count k).
    cbv [FIRST_AMAP AMAP_DATA_SIZE SLOTS_PER_AMAP SLOT_SIZE PAGE_SIZE]. lia.
Qed.

Lemma allocate_round fuel size a k offset :
  alignment_ok a -> extent_size_ok size -> 0 <= k -> region k <= offset < region (k + 1) ->
  offset <= 2 ^ 62 ->
  allocate_loop (S fuel) size a offset =
    if round_offset k offset + size <=? region (k + 1)
    then Ok (round_offset k offset, round_offset k offset + size)
    else allocate_loop fuel size a (region (k + 1)).
Proof.
  intros Ha Hs Hk Ho Hmax. unfold extent_size_ok in Hs. cbn [allocate_loop].
  assert (region k <= 2 ^ 62) as Hr by lia. pose proof Hr as Hr2. pose proof Ho as Ho2.
  pose proof (reserved_map_page_count_range k) as Hc.
  assert (AMAP_DATA_SIZE = 253952) as Hads by done. assert (PAGE_SIZE = 512) as Hps by done.
  assert (FIRST_AMAP = 17408) as Hfa by done.
  unfold checked_sub. destruct (Z.leb_spec FIRST_AMAP offset); [|unfold region in *; nia]. cbn [ok_or rbind].
  assert ((offset - FIRST_AMAP) / AMAP_DATA_SIZE = k) as ->.
  { destruct (region_of offset ltac:(done)) as [_ Hk']. by eapply region_unique. }
  unfold saturating_mul64, checked_add, fits. unfold region in Hr, Ho |- *.
  rewrite (Z.min_r (2 ^ 64 - 1) (k * AMAP_DATA_SIZE)) by lia.
  destruct (Z.ltb_spec (FIRST_AMAP + k * AMAP_DATA_SIZE) (2 ^ 64)); [|lia]. cbn [ok_or rbind].
  rewrite Z.min_r by lia.
  destruct (Z.ltb_spec (FIRST_AMAP + k * AMAP_DATA_SIZE + reserved_map_page_count k * PAGE_SIZE) (2 ^ 64)); [|lia].
  cbn [ok_or rbind]. change (FIRST_AMAP + k * AMAP_DATA_SIZE) with (region k).
  change (region k + reserved_map_page_count k * PAGE_SIZE) with (maps_end k).
  assert (region k + 512 <= maps_end k <= region k + 2048) by (unfold maps_end; lia).
  assert (region (k + 1) = region k + AMAP_DATA_SIZE) as Hnext by (unfold region; lia).
  assert (0 <= region k) by (unfold region; lia).
  assert ((if offset <? maps_end k then align_up (maps_end k) a else offset) = round_offset k offset) as ->.
  { unfold round_offset. rewrite align_up_id; [|done|lia|by apply aligned_constants].
    destruct (Z.ltb_spec offset (maps_end k)); lia. }
  assert (round_offset k offset < 2 ^ 63) by (unfold round_offset; lia).
  destruct (Z.ltb_spec (round_offset k offset + size) (2 ^ 64)); [|lia]. cbn [ok_or rbind].
  destruct (Z.ltb_spec (region k + AMAP_DATA_SIZE) (2 ^ 64)); [|lia]. cbn [ok_or rbind].
  change (FIRST_AMAP + (k + 1) * AMAP_DATA_SIZE) with (region (k + 1)). by rewrite Hnext.
Qed.

(** The first aligned place past the map pages at or after [cursor]. *)
Definition first_free (size a cursor offset : Z) : Prop :=
  cursor <= offset /\ free_at size a offset /\ forall o, cursor <= o < offset -> ~ free_at size a o.

Lemma free_at_region size a o k :
  0 < size -> region k <= o < region (k + 1) -> free_at size a o -> maps_end k <= o /\ o + size <= region (k + 1).
Proof.
  intros Hs Hr (_ & j & Hj & H1 & H2).
  assert (j = k) as ->; [|done]. apply (region_unique j k o); [|done].
  pose proof (reserved_map_page_count_range j). unfold maps_end, PAGE_SIZE in H1. lia.
Qed.

Lemma allocate_extent_first cursor size a :
  alignment_ok a -> extent_size_ok size -> FIRST_AMAP <= cursor <= 2 ^ 61 ->
  exists offset, allocate_extent cursor size a = Ok (offset, offset + size) /\
    first_free size a cursor offset /\ offset <= cursor + AMAP_DATA_SIZE.
Proof.
  intros Ha Hs Hc. assert (FIRST_AMAP = 17408) as Hfa by done. assert (AMAP_DATA_SIZE = 253952) as Hads by done.
  destruct (align_up_spec cursor a Ha ltac:(lia)) as (Hal & Hmod & Hleast).
  assert (0 < a <= 512) by (destruct Ha; subst; cbv; split; congruence).
  set (o0 := align_up cursor a) in *. unfold allocate_extent, ALLOCATE_FUEL. fold o0.
  destruct (region_of o0 ltac:(lia)) as [Hk Hr]. set (k := (o0 - FIRST_AMAP) / AMAP_DATA_SIZE) in *.
  unfold extent_size_ok in Hs.
  assert (forall j, region j + 512 <= maps_end j <= region j + 2048) as Hme.
  { intros j. pose proof (reserved_map_page_count_range j). unfold maps_end, PAGE_SIZE. lia. }
  assert (forall j, region (j + 1) = region j + AMAP_DATA_SIZE) as Hnext by (intros; unfold region; lia).
  assert (forall j o, o0 <= o -> region j <= o < region (j + 1) -> o < round_offset j o0 -> free_at size a o -> False)
    as Hskip.
  { intros j o Hge Hro Hlt Hfree. apply (free_at_region size a o j) in Hfree; [|lia|done].
    unfold round_offset in Hlt. lia. }
  rewrite (allocate_round 1 size a k) by (done || lia).
  destruct (Z.leb_spec (round_offset k o0 + size) (region (k + 1))) as [Hfit|Hnofit].
  - eexists. split; [reflexivity|]. split; [|specialize (Hme k); unfold round_offset; lia]. split_and!.
    + unfold round_offset. lia.
    + split; [|exists k; split; [lia|]; split; [unfold round_offset; lia|done]].
      unfold round_offset. destruct (Z.max_spec o0 (maps_end k)) as [[_ ->]|[_ ->]]; [|done].
      by apply aligned_constants.
    + intros o Ho Hfree. pose proof Hfree as [Hm _].
      apply (Hskip k o); [apply Hleast; [lia|done]| |lia|done].
      specialize (Hleast o ltac:(lia) Hm). lia.
  - rewrite (allocate_round 0 size a (k + 1)) by (done || (pose proof (Hnext k); pose proof (Hnext (k + 1)); lia)).
    assert (round_offset (k + 1) (region (k + 1)) = maps_end (k + 1)) as ->
      by (specialize (Hme (k + 1)); unfold round_offset; lia).
    pose proof (Hme (k + 1)). pose proof (Hnext (k + 1)).
    pose proof (Hnext k). pose proof (Hme k). unfold round_offset in Hnofit.
    destruct (Z.leb_spec (maps_end (k + 1) + size) (region (k + 1 + 1))); [|lia].
    eexists. split; [reflexivity|]. split; [|lia]. split_and!.
    + lia.
    + split; [by apply aligned_constants|]. exists (k + 1). split_and!; [lia|lia|done].
    + intros o Ho Hfree. pose proof Hfree as [Hm _]. specialize (Hleast o ltac:(lia) Hm).
      destruct (Z.lt_ge_cases o (region (k + 1))).
      * apply (free_at_region size a o k) in Hfree; lia.
      * apply (free_at_region size a o (k + 1)) in Hfree; lia.
Qed.

(** ** Sequences of allocations *)

(** What a run of the writer allocates: each step is an [allocate_extent]
    from the cursor the previous one left (or from a later one, when the
    writer aligns the cursor in between). *)
Inductive allocs : Z -> list (Z * Z) -> Z -> Prop :=
| allocs_nil c : allocs c [] c
| allocs_step c c1 size a o e exts c' :
    c <= c1 <= 2 ^ 61 -> alignment_ok a -> extent_size_ok size ->
    allocate_extent c1 size a = Ok (o, e) -> allocs e exts c' ->
    allocs c ((o, size) :: exts) c'.

(** Two extents share no byte. *)
Definition apart (x y : Z * Z) : Prop := x.1 + x.2 <= y.1 \/ y.1 + y.2 <= x.1.

(** The extent overlaps a map page. *)
Definition on_map (x : Z * Z) : Prop :=
  exists k, 0 <= k /\ x.1 < maps_end k /\ region k < x.1 + x.2.

Lemma free_at_not_on_map size a o : 0 < size -> free_at size a o -> ~ on_map (o, size).
Proof.
  intros Hs (_ & k & Hk & H1 & H2) (j & Hj & H3 & H4). cbn in *.
  assert (AMAP_DATA_SIZE = 253952) as Hads by done.
  assert (forall j, region j + 512 <= maps_end j <= region j + 2048) as Hme.
  { intros i. pose proof (reserved_map_page_count_range i). unfold maps_end, PAGE_SIZE. lia. }
  pose proof (Hme j). pose proof (Hme k). unfold region in *.
  assert (j = k) as ->; [|lia]. nia.
Qed.

Lemma allocs_bounds c exts c' :
  allocs c exts c' -> FIRST_AMAP <= c ->
  c <= c' /\ Forall (fun x => c <= x.1 /\ 0 < x.2 /\ x.1 + x.2 <= c' /\ ~ on_map x) exts.
Proof.
  induction 1 as [c|c c1 size a o e exts c' Hc Ha Hs He Hx IH]; intros Hf; [split; [lia|constructor]|].
  destruct (allocate_extent_first c1 size a Ha Hs ltac:(lia)) as (o' & E & (Ho & Hfree & _) & _).
  rewrite E in He. injection He as -> <-. unfold extent_size_ok in Hs.
  destruct IH as [Hc' Hall]; [lia|]. split; [lia|]. constructor.
  - cbn. split_and!; [lia|lia|lia|]. apply (free_at_not_on_map size a); [lia|done].
  - eapply Forall_impl; [exact Hall|]. cbn. intros x (? & ? & ? & ?). split_and!; [lia..|done].
Qed.

(** C16: [allocate_extent] is first fit: for the sizes of blocks and pages and
    their alignments it ends, and returns the first aligned offset at or after
    the cursor where the extent lies inside one region of an allocation map,
    past the map pages of the region, and the end of the extent as the new
    cursor. *)
Theorem allocate_extent_correct cursor size a :
  alignment_ok a -> extent_size_ok size -> FIRST_AMAP <= cursor <= 2 ^ 61 ->
  exists offset, allocate_extent cursor size a = Ok (offset, offset + size) /\
    cursor <= offset <= cursor + AMAP_DATA_SIZE /\ free_at size a offset /\
    forall o, cursor <= o < offset -> ~ free_at size a o.
Proof.
  intros Ha Hs Hc. destruct (allocate_extent_first cursor size a Ha Hs Hc) as (o & He & (? & ? & ?) & ?).
  exists o. split_and!; (done || lia).
Qed.

(** C14: the extents of any sequence of allocations are pairwise disjoint, and
    none overlaps a map page, where the map pages of region [k] are those that
    [rebuild_allocation_map] reserves. *)
Theorem allocations_disjoint c exts c' :
  allocs c exts c' -> FIRST_AMAP <= c ->
  (forall i j x y, exts !! i = Some x -> exts !! j = Some y -> i <> j -> apart x y) /\
  Forall (fun x => ~ on_map x) exts /\
  forall k, maps_end k = region k + reserved_pages k * PAGE_SIZE.
Proof.
  intros H Hf. split; [|split].
  - revert Hf. induction H as [c|c c1 size a o e exts c' Hc Ha Hs He Hx IH]; intros Hf i j x y; [done|].
    destruct (allocate_extent_first c1 size a Ha Hs ltac:(lia)) as (o' & E & (Ho & _ & _) & _).
    rewrite E in He. injection He as -> <-. unfold extent_size_ok in Hs.
    destruct (allocs_bounds _ _ _ Hx ltac:(lia)) as [_ Hall]. rewrite Forall_lookup in Hall.
    destruct i as [|i], j as [|j]; cbn; intros Hi Hj Hne; [done|..].
    + injection Hi as <-. apply Hall in Hj. left. cbn. lia.
    + injection Hj as <-. apply Hall in Hi. right. cbn. lia.
    + eapply IH; [lia|done|done|congruence].
  - destruct (allocs_bounds _ _ _ H Hf) as [_ Hall]. eapply Forall_impl; [exact Hall|].
    cbn. by intros x (_ & _ & _ & ?).
  - intros k. unfold maps_end. by rewrite reserved_map_page_count_eq.
Qed.

(** The file ends with the region the last extent is in. *)
Lemma allocation_file_eof_spec e :
  FIRST_AMAP <= e <= 2 ^ 62 ->
  exists n, 1 <= n /\ allocation_file_eof e = Ok (region n) /\ e <= region n /\
    (region (n - 1) < e \/ n = 1).
Proof.
  intros He. assert (FIRST_AMAP = 17408) as Hfa by done. assert (AMAP_DATA_SIZE = 253952) as Hads by done.
  unfold allocation_file_eof, checked_sub. destruct (Z.leb_spec FIRST_AMAP e); [|lia]. cbn [ok_or rbind].
  pose proof (div_ceil_spec (e - FIRST_AMAP) AMAP_DATA_SIZE ltac:(lia)).
  exists (Z.max (div_ceil (e - FIRST_AMAP) AMAP_DATA_SIZE) 1).
  set (n := Z.max _ 1). assert (1 <= n) by lia. split; [done|].
  unfold fits, checked_add, saturating_mul64, region. rewrite Z.min_r by nia.
  destruct (Z.ltb_spec (FIRST_AMAP + n * AMAP_DATA_SIZE) (2 ^ 64)); [|nia]. cbn [ok_or].
  split_and!; [done|nia|]. subst n.
  destruct (Z.max_spec (div_ceil (e - FIRST_AMAP) AMAP_DATA_SIZE) 1) as [[_ ->]|[_ ->]]; [by right|left; nia].
Qed.

(** ** Pages of a B-tree *)

(** The ranges follow each other from [start] to [stop]. *)
Fixpoint contiguous (start : Z) (rs : list (Z * Z)) (stop : Z) : Prop :=
  match rs with
  | [] => start = stop
  | r :: rs => r.1 = start /\ contiguous r.2 rs stop
  end.

Lemma leaf_ranges_spec count page min larger start :
  0 <= page -> 0 <= larger ->
  let n := Z.of_nat count in
  let rs := leaf_ranges count page min larger start in
  length rs = count /\
  contiguous start rs (start + n * min + (Z.min larger (page + n) - Z.min larger page)) /\
  Forall (fun r => r.2 - r.1 = min \/ (r.2 - r.1 = min + 1 /\ page < larger)) rs.
Proof.
  revert page start. induction count as [|count IH]; intros page start Hp Hl; cbn [leaf_ranges].
  { cbn. split_and!; [done|lia|constructor]. }
  destruct (IH (page + 1) (start + (min + Z.b2z (page <? larger))) ltac:(lia) Hl) as (E1 & E2 & E3).
  cbn [length contiguous fst snd]. split_and!; [by rewrite E1|done| |].
  - destruct (Z.ltb_spec page larger); cbn [Z.b2z] in *;
      match goal with H : contiguous _ _ ?x |- contiguous _ _ ?y => replace y with x by lia end; done.
  - constructor.
    + cbn. destruct (Z.ltb_spec page larger); cbn [Z.b2z]; [right|left]; lia.
    + eapply Forall_impl; [exact E3|]. cbn. intros r. lia.
Qed.

(** The entries of a B-tree level are spread over as few pages as the
    capacity allows: the ranges follow each other from the first entry to the
    last, none is empty or above the capacity, and their sizes differ by at
    most one. *)
Theorem plan_leaf_pages_correct n capacity :
  0 <= n < 2 ^ 63 -> 0 < capacity ->
  exists rs, plan_leaf_pages n capacity = Ok rs /\
    Z.of_nat (length rs) = div_ceil n capacity /\
    contiguous 0 rs n /\
    Forall (fun r => 1 <= r.2 - r.1 <= capacity) rs /\
    (forall r s, r ∈ rs -> s ∈ rs -> r.2 - r.1 <= s.2 - s.1 + 1).
Proof.
  intros Hn Hc. unfold plan_leaf_pages. destruct (Z.eqb_spec capacity 0); [lia|].
  pose proof (div_ceil_spec n capacity Hc) as Hd.
  destruct (Z.eqb_spec n 0) as [->|Hne].
  { exists []. assert (div_ceil 0 capacity = 0) as -> by (unfold div_ceil; apply Z.div_small; lia).
    split_and!; try done. intros r s Hr. inversion Hr. }
  set (pc := div_ceil n capacity) in *. assert (1 <= pc) by nia.
  pose proof (Z.div_mod n pc ltac:(lia)) as Hdm. pose proof (Z.mod_pos_bound n pc ltac:(lia)) as Hm.
  destruct (leaf_ranges_spec (Z.to_nat pc) 0 (n / pc) (n mod pc) 0 ltac:(lia) ltac:(lia)) as (E1 & E2 & E3).
  eexists. split; [reflexivity|]. rewrite E1. split_and!; [lia| | |].
  - rewrite Z2Nat.id in E2 by lia.
    by match type of E2 with contiguous _ _ ?x => replace x with n in E2 by lia end.
  - assert (1 <= n / pc) by (apply Z.div_le_lower_bound; nia).
    eapply Forall_impl; [exact E3|]. cbn. intros r Hr.
    assert (n / pc + Z.b2z (0 <? n mod pc) <= capacity); [|destruct (Z.ltb_spec 0 (n mod pc)); cbn in *; lia].
    destruct (Z.ltb_spec 0 (n mod pc)); cbn [Z.b2z]; nia.
  - rewrite Forall_forall in E3. intros r s Hr%E3 Hs%E3. cbn in *. lia.
Qed.

(** ** Examples *)

Lemma allocate_extent_correct_witness :
  exists offset, allocate_extent 271000 8192 SLOT_SIZE = Ok (offset, offset + 8192) /\
    offset = 271872 /\ free_at 8192 SLOT_SIZE offset.
Proof.
  destruct (allocate_extent_correct 271000 8192 SLOT_SIZE) as (o & He & _ & Hf & _);
    [by left|unfold extent_size_ok; lia|unfold FIRST_AMAP; lia|].
  exists o. split; [exact He|]. split; [|exact Hf].
  assert (allocate_extent 271000 8192 SLOT_SIZE = Ok (271872, 271872 + 8192)) as E by reflexivity.
  rewrite E in He. by injection He as <-.
Defined.

Definition sample_extents : list (Z * Z) := [(FIRST_DATA, 8192); (26624, 512); (27136, 64)].

Lemma sample_allocs : allocs FIRST_DATA sample_extents 27200.
Proof.
  eapply (allocs_step _ FIRST_DATA 8192 SLOT_SIZE); [cbv; split; congruence|by left|unfold extent_size_ok; lia|reflexivity|].
  eapply (allocs_step _ (FIRST_DATA + 8192) 512 PAGE_SIZE); [cbv; split; congruence|by right|unfold extent_size_ok; lia|reflexivity|].
  eapply (allocs_step _ 27136 64 SLOT_SIZE); [cbv; split; congruence|by left|unfold extent_size_ok; lia|reflexivity|].
  constructor.
Qed.

Lemma allocations_disjoint_witness :
  allocs FIRST_DATA sample_extents 27200 /\ Forall (fun x => ~ on_map x) sample_extents.
Proof.
  split; [exact sample_allocs|].
  apply (allocations_disjoint FIRST_DATA sample_extents 27200 sample_allocs). done.
Defined.

Lemma plan_leaf_pages_correct_witness :
  exists rs, plan_leaf_pages 43 20 = Ok rs /\ rs = [(0, 15); (15, 29); (29, 43)] /\ contiguous 0 rs 43.
Proof.
  destruct (plan_leaf_pages_correct 43 20) as (rs & E & _ & Hc & _); [lia|lia|].
  exists rs. split; [exact E|]. split; [|exact Hc].
  assert (plan_leaf_pages 43 20 = Ok [(0, 15); (15, 29); (29, 43)]) as E' by reflexivity.
  rewrite E' in E. by injection E as <-.
Defined.
