(* ===== verification/WriterBlocks.v ===== *)
(** * Blocks written to a new file

    [writer.rs]: block specifications, the numbering of blocks, [write_blocks]
    and the stream of blocks ([BlockStream::emit]), which either writes or
    only projects where the blocks would go, and the checkpoint that undoes
    the blocks of a message. The computations thread a state and keep it when
    they fail, as the code does through its [&mut] arguments. *)
From S2P Require Import Prelude Errors Io Crc Encode Ids Header Page BTree Block Amap Alloc.
#[local] Open Scope Z_scope.

(** ** Computations of the writer *)

(** A computation that may fail and changes the state either way. *)
Definition W (S A : Type) : Type := S -> wres A * S.

Definition w_ret {S A} (a : A) : W S A := fun s => (Ok a, s).
Definition w_lift {S A} (m : wres A) : W S A := fun s => (m, s).
Definition w_bind {S A B} (m : W S A) (k : A -> W S B) : W S B := fun s =>
  match m s with
  | (Ok a, s) => k a s
  | (Err e, s) => (Err e, s)
  | (Panic, s) => (Panic, s)
  end.
Definition w_get {S A} (g : S -> A) : W S A := fun s => (Ok (g s), s).
Definition w_modify {S} (g : S -> S) : W S unit := fun s => (Ok tt, g s).

Notation "'let^' x := m 'in' k" := (w_bind m (fun x => k))
  (at level 10, x binder, m at level 100, k at level 200) : pst_scope.

(** ** Block specifications *)

Abbreviation LeafEntry := (LeafSubNodeTreeEntry UnicodeBlockId).
Abbreviation IntermediateEntry := (IntermediateSubNodeTreeEntry UnicodeBlockId).

Inductive BlockPayload :=
| Data (data : list Z)
| ProjectedData (size : Z)
| Subnode (entries : list LeafEntry)
| IntermediateSubnode (level : Z) (entries : list IntermediateEntry)
| DataTreePayload (level total_size : Z) (entries : list UnicodeBlockId).

Record BlockSpec := mk_BlockSpec {
  bs_id : UnicodeBlockId;
  bs_payload : BlockPayload;
  bs_ref_count : Z;
}.

(** [saturating_add] and [saturating_mul] on [usize]. *)
Definition sat64 (x : Z) : Z := Z.min (2 ^ 64 - 1) x.

Definition logical_size (p : BlockPayload) : Z :=
  match p with
  | Data data => Z.of_nat (length data)
  | ProjectedData size => size
  | Subnode entries => sat64 (8 + sat64 (Z.of_nat (length entries) * 24))
  | IntermediateSubnode _ entries => sat64 (8 + sat64 (Z.of_nat (length entries) * 16))
  | DataTreePayload _ _ entries => sat64 (8 + sat64 (Z.of_nat (length entries) * 8))
  end.

Definition message_size_contribution (p : BlockPayload) : Z :=
  match p with
  | Data data => Z.of_nat (length data)
  | ProjectedData size => size
  | Subnode _ | IntermediateSubnode _ _ | DataTreePayload _ _ _ => 0
  end.

Record WrittenBlock := mk_WrittenBlock {
  wb_id : UnicodeBlockId;
  wb_offset : Z;
  wb_size : Z;
  wb_ref_count : Z;
}.

(** ** Block ids *)

Definition leaf_bid (index : Z) : wres UnicodeBlockId := structure (UnicodeBlockId.new false index).
Definition internal_bid (index : Z) : wres UnicodeBlockId := structure (UnicodeBlockId.new true index).

(** [next_block_index: &mut u64], a part of the state of every builder. *)
Class NextIndex (S : Type) := {
  next_block_index : S -> Z;
  set_next_block_index : Z -> S -> S;
}.

Definition take_block_id {S} `{!NextIndex S} (internal : bool) : W S UnicodeBlockId :=
  let^ index := w_get next_block_index in
  let^ next := w_lift (fits (checked_add 64 index 1) "block id") in
  let^ _ := w_modify (set_next_block_index next) in
  w_lift (if internal then internal_bid index else leaf_bid index).

(** The builders that push to [blocks: &mut Vec<BlockSpec>]. *)
Record VecState := mk_VecState { vs_next : Z; vs_blocks : list BlockSpec }.

#[export] Instance VecState_next : NextIndex VecState := {|
  next_block_index := vs_next;
  set_next_block_index n s := mk_VecState n (vs_blocks s)
|}.

Definition push_block (b : BlockSpec) : W VecState unit :=
  w_modify (fun s => mk_VecState (vs_next s) (vs_blocks s ++ [b])).

(** ** The stream of blocks *)

(** What [BlockStream] borrows, with [next_block_index], which is passed along
    with it. [ws_flags] are the values that the loads of [interrupted] will
    see, [false] once the list is used up. *)
Record WriteState := mk_WriteState {
  ws_next : Z;
  ws_cursor : Z;
  ws_written : list WrittenBlock;
  ws_file : option wfile;
  ws_flags : list bool;
}.

#[export] Instance WriteState_next : NextIndex WriteState := {|
  next_block_index := ws_next;
  set_next_block_index n s := mk_WriteState n (ws_cursor s) (ws_written s) (ws_file s) (ws_flags s)
|}.

Definition set_cursor (c : Z) (s : WriteState) : WriteState :=
  mk_WriteState (ws_next s) c (ws_written s) (ws_file s) (ws_flags s).
Definition push_written (l : list WrittenBlock) (s : WriteState) : WriteState :=
  mk_WriteState (ws_next s) (ws_cursor s) (ws_written s ++ l) (ws_file s) (ws_flags s).
Definition set_wfile (f : wfile) (s : WriteState) : WriteState :=
  mk_WriteState (ws_next s) (ws_cursor s) (ws_written s) (Some f) (ws_flags s).
Definition pop_flag (s : WriteState) : WriteState :=
  mk_WriteState (ws_next s) (ws_cursor s) (ws_written s) (ws_file s) (tail (ws_flags s)).

Definition check_flag : W WriteState unit :=
  let^ flags := w_get ws_flags in
  let^ _ := w_modify pop_flag in
  w_lift (check_interrupted (default false (head flags))).

(** [allocate_extent(cursor, ..)?] *)
Definition allocate (size alignment : Z) : W WriteState Z :=
  let^ cursor := w_get ws_cursor in
  let^ r := w_lift (allocate_extent cursor size alignment) in
  let^ _ := w_modify (set_cursor r.2) in
  w_ret r.1.

Definition try_u16 (n : Z) (what : string) : wres Z := fits (if uint_b 16 n then Some n else None) what.

(** The size of the data and of the block: [u16::try_from(logical_size)] and
    [block_size(size.saturating_add(16))]. *)
Definition block_sizes (p : BlockPayload) : wres (Z * Z) :=
  let? size := try_u16 (logical_size p) "data block" in
  let? physical_size := wio (block_size (Z.min (2 ^ 16 - 1) (size + 16))) in
  Ok (size, physical_size).

(** The [match] of [write_blocks] that builds the block and writes it at the
    position of the file. *)
Definition write_payload (p : BlockPayload) (trailer : UnicodeBlockTrailer) (f : wfile) : wres wfile :=
  match p with
  | Subnode entries =>
      let? n := try_u16 (Z.of_nat (length entries)) "subnode entry count" in
      let? b := structure (SubNodeTreeBlock.new (mk_SubNodeTreeBlockHeader (B := UnicodeBlockId) 0 n) entries trailer) in
      wio (IntermediateTreeBlock.write b f)
  | IntermediateSubnode level entries =>
      let? n := try_u16 (Z.of_nat (length entries)) "subnode entry count" in
      let? b := structure (SubNodeTreeBlock.new (mk_SubNodeTreeBlockHeader (B := UnicodeBlockId) level n) entries trailer) in
      wio (IntermediateTreeBlock.write b f)
  | DataTreePayload level total_size entries =>
      let? n := try_u16 (Z.of_nat (length entries)) "data-tree entry count" in
      let? b := structure (DataTreeBlock.new (mk_DataTreeBlockHeader level n total_size) entries trailer) in
      wio (IntermediateTreeBlock.write b f)
  | Data data =>
      let? b := structure (DataBlock.new Permute data trailer) in
      wio (DataBlock.write b f)
  | ProjectedData _ => Err (InvalidStructure "projected data block reached physical output")
  end.

(** The body of the loop of [write_blocks]. *)
Definition write_block (block : BlockSpec) : W WriteState WrittenBlock :=
  let^ _ := check_flag in
  match bs_payload block with
  | ProjectedData _ => w_lift (Err (InvalidStructure "projected data block reached physical output"))
  | payload =>
      let^ sizes := w_lift (block_sizes payload) in
      let '(size, physical_size) := sizes in
      let^ offset := allocate physical_size SLOT_SIZE in
      let^ file := w_get ws_file in
      match file with
      | None => w_lift Panic
      | Some f =>
          let f := wseek_start offset f in
          let signature := compute_sig (wrap 32 offset) (wrap 32 (unicode_block_id_0 (bs_id block))) in
          let^ trailer := w_lift (structure (UnicodeBlockTrailer.new size signature 0 (bs_id block))) in
          let^ f := w_lift (write_payload payload trailer f) in
          let^ _ := w_modify (set_wfile f) in
          w_ret (mk_WrittenBlock (bs_id block) offset size (bs_ref_count block))
      end
  end.

Fixpoint write_blocks (blocks : list BlockSpec) : W WriteState (list WrittenBlock) :=
  match blocks with
  | [] => w_ret []
  | block :: blocks =>
      let^ w := write_block block in
      let^ ws := write_blocks blocks in
      w_ret (w :: ws)
  end.

(** [BlockStream::emit] *)
Definition emit (block : BlockSpec) : W WriteState unit :=
  let^ file := w_get ws_file in
  match file with
  | Some _ =>
      let^ ws := write_blocks [block] in
      w_modify (push_written ws)
  | None =>
      let^ _ := check_flag in
      let^ sizes := w_lift (block_sizes (bs_payload block)) in
      let '(size, physical_size) := sizes in
      let^ offset := allocate physical_size SLOT_SIZE in
      w_modify (push_written [mk_WrittenBlock (bs_id block) offset size (bs_ref_count block)])
  end.

(** ** Checkpoints *)

Section checkpoint.
(** The types of the rows of folder tables and of the top-level nodes, which
    the checkpoint only counts. *)
Context {Row TopNode : Type}.

(** [MessageStreamState], with the file that is passed along with it: its
    [allocation_cursor], [written] and [next_block_index] are those of
    [ms_stream]. *)
Record MessageStreamState := mk_MessageStreamState {
  ms_file_len : Z;
  ms_stream : WriteState;
  ms_streamed_subnodes : list NodeId;
  ms_next_value_node : Z;
  ms_contents_rows : list Row;
  ms_associated_rows : list Row;
  ms_top_nodes : list TopNode;
}.

(** [MessageStreamState::new] for an empty file. *)
Definition message_stream_new (file : option wfile) (flags : list bool) : MessageStreamState :=
  mk_MessageStreamState INITIAL_FILE_EOF (mk_WriteState 28 FIRST_DATA [] file flags) [] 0x40000 [] [] [].

Record MessageAppendCheckpoint := mk_MessageAppendCheckpoint {
  cp_file_len : Z;
  cp_allocation_cursor : Z;
  cp_next_block_index : Z;
  cp_next_value_node : Z;
  cp_written_len : nat;
  cp_streamed_subnodes_len : nat;
  cp_contents_rows_len : nat;
  cp_associated_rows_len : nat;
  cp_top_nodes_len : nat;
}.

(** [MessageStreamState::checkpoint] and [MessageAppendCheckpoint::capture]. *)
Definition checkpoint (s : MessageStreamState) : MessageAppendCheckpoint :=
  mk_MessageAppendCheckpoint (ms_file_len s) (ws_cursor (ms_stream s)) (ws_next (ms_stream s))
    (ms_next_value_node s) (length (ws_written (ms_stream s))) (length (ms_streamed_subnodes s))
    (length (ms_contents_rows s)) (length (ms_associated_rows s)) (length (ms_top_nodes s)).

(** [MessageAppendCheckpoint::restore] *)
Definition restore (c : MessageAppendCheckpoint) (s : MessageStreamState) : MessageStreamState :=
  let w := ms_stream s in
  mk_MessageStreamState (ms_file_len s)
    (mk_WriteState (cp_next_block_index c) (cp_allocation_cursor c)
       (take (cp_written_len c) (ws_written w)) (ws_file w) (ws_flags w))
    (take (cp_streamed_subnodes_len c) (ms_streamed_subnodes s))
    (cp_next_value_node c)
    (take (cp_contents_rows_len c) (ms_contents_rows s))
    (take (cp_associated_rows_len c) (ms_associated_rows s))
    (take (cp_top_nodes_len c) (ms_top_nodes s)).

(** [file.set_len(len)]: the file is cut, or extended with zeros. *)
Definition set_len (len : Z) (f : wfile) : wfile :=
  let n := Z.to_nat len in
  mk_wfile (take n (wf_data f ++ replicate (n - length (wf_data f)) 0)) (wf_pos f).

(** [MessageAppendCheckpoint::rollback] *)
Definition rollback (c : MessageAppendCheckpoint) (s : MessageStreamState) : MessageStreamState :=
  let w := ms_stream s in
  restore c (mk_MessageStreamState (ms_file_len s)
    (mk_WriteState (ws_next w) (ws_cursor w) (ws_written w)
       (set_len (cp_file_len c) <$> ws_file w) (ws_flags w))
    (ms_streamed_subnodes s) (ms_next_value_node s) (ms_contents_rows s)
    (ms_associated_rows s) (ms_top_nodes s)).

Definition set_file_len (n : Z) (s : MessageStreamState) : MessageStreamState :=
  mk_MessageStreamState n (ms_stream s) (ms_streamed_subnodes s) (ms_next_value_node s)
    (ms_contents_rows s) (ms_associated_rows s) (ms_top_nodes s).

Definition rollback_message (c : MessageAppendCheckpoint) (s : MessageStreamState) : MessageStreamState :=
  set_file_len (cp_file_len c) (rollback c s).

Definition restore_projected_message (c : MessageAppendCheckpoint) (s : MessageStreamState)
    : MessageStreamState :=
  set_file_len (cp_file_len c) (restore c s).
End checkpoint.
Arguments MessageStreamState : clear implicits.

(** ** Lemmas on computations *)

Lemma w_bind_ok {S A B} (m : W S A) (k : A -> W S B) s b s' :
  w_bind m k s = (Ok b, s') <-> exists a s0, m s = (Ok a, s0) /\ k a s0 = (Ok b, s').
Proof.
  unfold w_bind. split.
  - destruct (m s) as [[a|e|] s0]; [eauto|done..].
  - by intros (a & s0 & -> & H).
Qed.

Lemma w_lift_ok {S A} (m : wres A) (s s' : S) a : w_lift m s = (Ok a, s') <-> m = Ok a /\ s = s'.
Proof. unfold w_lift. split; [by intros [= -> ->]|by intros [-> ->]]. Qed.

Lemma w_bind_eq {S A B} (m : W S A) (k : A -> W S B) s a s' : m s = (Ok a, s') -> w_bind m k s = k a s'.
Proof. unfold w_bind. by intros ->. Qed.

(** What a written block takes. *)
Lemma write_block_ok b s w s' :
  write_block b s = (Ok w, s') ->
  exists f f' size physical_size offset end_ trailer,
    ws_file s = Some f /\ default false (head (ws_flags s)) = false /\
    block_sizes (bs_payload b) = Ok (size, physical_size) /\
    allocate_extent (ws_cursor s) physical_size SLOT_SIZE = Ok (offset, end_) /\
    UnicodeBlockTrailer.new size (compute_sig (wrap 32 offset) (wrap 32 (unicode_block_id_0 (bs_id b)))) 0
      (bs_id b) = Ok trailer /\
    write_payload (bs_payload b) trailer (wseek_start offset f) = Ok f' /\
    w = mk_WrittenBlock (bs_id b) offset size (bs_ref_count b) /\
    s' = mk_WriteState (ws_next s) end_ (ws_written s) (Some f') (tail (ws_flags s)).
Proof.
  intros (? & s1 & Hc & H)%w_bind_ok.
  unfold check_flag, w_bind, w_get, w_modify, w_lift, check_interrupted in Hc. cbn in Hc.
  destruct (default false (head (ws_flags s))) eqn:Ef; [done|]. injection Hc as <- <-.
  destruct (bs_payload b) as [|? | | |] eqn:Ep; try (by apply w_lift_ok in H as [[=] _]);
    (apply w_bind_ok in H as ([size phys] & s1 & [Hs <-]%w_lift_ok & H); cbv beta iota in H;
     apply w_bind_ok in H as (offset & s2 & Ha & H);
     apply w_bind_ok in Ha as (cur & s3 & [= <- <-] & Ha);
     apply w_bind_ok in Ha as ([o e] & s4 & [Hal <-]%w_lift_ok & Ha); cbn in Ha; injection Ha as <- <-;
     apply w_bind_ok in H as (file & s5 & [= <- <-] & H); cbn [ws_file set_cursor pop_flag] in H;
     destruct (ws_file s) as [f|] eqn:Ew; [|by apply w_lift_ok in H as [[=] _]];
     apply w_bind_ok in H as (t & s6 & [Ht <-]%w_lift_ok & H);
     apply w_bind_ok in H as (f' & s7 & [Hw <-]%w_lift_ok & H); cbn in H; injection H as <- <-;
     apply structure_ok in Ht;
     exists f, f', size, phys, o, e, t; split_and!; done).
Qed.

Lemma emit_ok b s s' :
  emit b s = (Ok tt, s') -> ws_file s <> None ->
  exists w s1, write_block b s = (Ok w, s1) /\ s' = push_written [w] s1.
Proof.
  intros (file & s0 & [= <- <-] & H)%w_bind_ok Hf. destruct (ws_file s) as [f|]; [|done].
  apply w_bind_ok in H as (ws & s1 & H & [= <-]). cbn [write_blocks] in H.
  apply w_bind_ok in H as (w & s2 & Hw & H). cbn in H. injection H as <- <-. by exists w, s2.
Qed.

(** What emitting a block does to a stream that only projects. *)
Lemma emit_projected b s size physical_size offset end_ :
  ws_file s = None -> default false (head (ws_flags s)) = false ->
  block_sizes (bs_payload b) = Ok (size, physical_size) ->
  allocate_extent (ws_cursor s) physical_size SLOT_SIZE = Ok (offset, end_) ->
  emit b s = (Ok tt, mk_WriteState (ws_next s) end_
    (ws_written s ++ [mk_WrittenBlock (bs_id b) offset size (bs_ref_count b)]) None (tail (ws_flags s))).
Proof.
  intros Hf Hflag Hs Ha. unfold emit, allocate, check_flag, w_bind, w_get, w_modify, w_lift, w_ret.
  destruct s as [n c ws f flags]; cbn [ws_file ws_flags ws_cursor] in *; subst f.
  cbn -[allocate_extent block_sizes default head]. rewrite Hflag. cbn -[allocate_extent block_sizes].
  rewrite Hs. cbn -[allocate_extent]. by rewrite Ha.
Qed.
