(* ===== verification/WriterTree.v ===== *)
(** * Data trees and sub-node trees of a new file

    [writer.rs]: how a value is cut into blocks and the blocks are put under
    the internal blocks of a data tree, from memory ([append_data_tree] and
    its variants), from a reader ([append_reader_data_tree]) and as a
    projection of a declared length ([append_declared_data_tree]); and the
    trees of sub-node entries. *)
From S2P Require Import Prelude Order Errors Io Ids Page BTree Block Alloc WriterBlocks.
#[local] Open Scope Z_scope.

Definition MAX_DATA_BLOCK_PAYLOAD : Z := 8176.
Definition MAX_DATA_TREE_ENTRIES : Z := 1021.
Definition SUBNODE_LEAF_CAPACITY : Z := (MAX_DATA_BLOCK_PAYLOAD - 8) / 24.
Definition SUBNODE_INTERMEDIATE_CAPACITY : Z := (MAX_DATA_BLOCK_PAYLOAD - 8) / 16.
Definition MAX_SUBNODE_TREE_ENTRIES : Z := SUBNODE_LEAF_CAPACITY * SUBNODE_INTERMEDIATE_CAPACITY.

(** [slice.chunks(n)]: runs of [n] elements, the last one possibly shorter. *)
Fixpoint chunks_fuel {A} (fuel n : nat) (l : list A) : list (list A) :=
  match fuel, l with
  | O, _ | _, [] => []
  | S fuel, _ => take n l :: chunks_fuel fuel n (drop n l)
  end.
Definition chunks {A} (n : Z) (l : list A) : list (list A) :=
  chunks_fuel (length l) (Z.to_nat n) l.

(** [for x in xs { .. }] over a state, collecting what is pushed. *)
Fixpoint w_map {S A B} (f : A -> W S B) (l : list A) : W S (list B) :=
  match l with
  | [] => w_ret []
  | a :: l => let^ b := f a in let^ bs := w_map f l in w_ret (b :: bs)
  end.

(** [group.iter().try_fold(0_u32, |total, (_, size)| ..)] *)
Fixpoint total_sizes {A} (group : list (A * Z)) (total : Z) : option Z :=
  match group with
  | [] => Some total
  | (_, size) :: group =>
      if uint_b 32 size then
        match checked_add 32 total size with Some t => total_sizes group t | None => None end
      else None
  end.

Abbreviation Placed := (UnicodeBlockId * Z)%type.

Definition data_tree_spec (id : UnicodeBlockId) (level total_size : Z) (group : list Placed) : BlockSpec :=
  mk_BlockSpec id (DataTreePayload level total_size (map fst group)) 2.

(** ** From memory *)

(** One leaf: a block id and the block that holds the chunk. *)
Definition push_leaf (chunk : list Z) : W VecState Placed :=
  let^ id := take_block_id false in
  let^ _ := push_block (mk_BlockSpec id (Data chunk) 2) in
  w_ret (id, Z.of_nat (length chunk)).

(** One XBLOCK over a group of leaves, the id taken before the total is
    computed. *)
Definition push_xblock (group : list Placed) : W VecState Placed :=
  let^ id := take_block_id true in
  let^ total_size := w_lift (fits (total_sizes group 0) "data-tree size") in
  let^ _ := push_block (data_tree_spec id 1 total_size group) in
  w_ret (id, total_size).

(** The XXBLOCK over the XBLOCKs. *)
Definition push_xxblock (what_count what_size : string) (xblocks : list Placed) : W VecState UnicodeBlockId :=
  if MAX_DATA_TREE_ENTRIES <? Z.of_nat (length xblocks) then w_lift (Err (ValueTooLarge what_count)) else
  let^ total_size := w_lift (fits (total_sizes xblocks 0) what_size) in
  let^ id := take_block_id true in
  let^ _ := push_block (data_tree_spec id 2 total_size xblocks) in
  w_ret id.

Definition append_data_tree_sized (bytes : list Z) (chunk_size : Z) : W VecState UnicodeBlockId :=
  let^ leaves := w_map push_leaf (chunks chunk_size bytes) in
  match leaves with
  | [(id, _)] => w_ret id
  | _ =>
      let^ xblocks := w_map push_xblock (chunks MAX_DATA_TREE_ENTRIES leaves) in
      match xblocks with
      | [(id, _)] => w_ret id
      | _ => push_xxblock "XXBLOCK entry count" "XXBLOCK size" xblocks
      end
  end.

Definition append_data_tree (bytes : list Z) : W VecState UnicodeBlockId :=
  append_data_tree_sized bytes MAX_DATA_BLOCK_PAYLOAD.

(** The variant of heap pages computes the total first. *)
Definition push_heap_xblock (group : list Placed) : W VecState Placed :=
  let^ total_size := w_lift (fits (total_sizes group 0) "heap data-tree size") in
  let^ id := take_block_id true in
  let^ _ := push_block (data_tree_spec id 1 total_size group) in
  w_ret (id, total_size).

Definition push_page (page : list Z) : W VecState Placed :=
  if MAX_DATA_BLOCK_PAYLOAD <? Z.of_nat (length page) then w_lift (Err (ValueTooLarge "heap data page"))
  else push_leaf page.

Definition append_data_tree_pages (pages : list (list Z)) : W VecState UnicodeBlockId :=
  match pages with
  | [] => w_lift (Err (InvalidStructure "data tree must contain pages"))
  | _ =>
      let^ leaves := w_map push_page pages in
      match leaves with
      | [(id, _)] => w_ret id
      | _ =>
          let^ xblocks := w_map push_heap_xblock (chunks MAX_DATA_TREE_ENTRIES leaves) in
          match xblocks with
          | [(id, _)] => w_ret id
          | _ => push_xxblock "heap data-tree XBLOCK count" "heap data-tree size" xblocks
          end
      end
  end.

(** The rows, each run of whole rows but the last padded to a full block. *)
Fixpoint frame_rows (chunk_count index : nat) (cs : list (list Z)) : list Z :=
  match cs with
  | [] => []
  | c :: cs =>
      c ++ (if (index + 1 <? chunk_count)%nat
            then replicate (Z.to_nat MAX_DATA_BLOCK_PAYLOAD - length c) 0 else []) ++
      frame_rows chunk_count (index + 1) cs
  end.

(** [append_row_matrix_data_tree]; the lengths stay far below the overflow of
    a [usize] on which [checked_mul] and [checked_add] report the padding. *)
Definition append_row_matrix_data_tree (bytes : list Z) (row_size : Z) : W VecState UnicodeBlockId :=
  if (row_size =? 0) || (MAX_DATA_BLOCK_PAYLOAD <? row_size)
  then w_lift (Err (ValueTooLarge "table row size")) else
  let chunk_size := MAX_DATA_BLOCK_PAYLOAD / row_size * row_size in
  let chunk_count := div_ceil (Z.of_nat (length bytes)) chunk_size in
  let^ padding_capacity := w_lift (fits
    (checked_mul 64 (saturating_sub chunk_count 1) (MAX_DATA_BLOCK_PAYLOAD - chunk_size)) "row matrix padding") in
  let^ _ := w_lift (fits (checked_add 64 (Z.of_nat (length bytes)) padding_capacity) "row matrix padding") in
  append_data_tree (frame_rows (Z.to_nat chunk_count) 0 (chunks chunk_size bytes)).

(** ** From a stream *)

(** The XBLOCK over the leaves gathered so far: [what] is the error of its
    total. *)
Definition emit_xblock (what : string) (level : Z) (group : list Placed) : W WriteState Placed :=
  let^ total_size := w_lift (fits (total_sizes group 0) what) in
  let^ id := take_block_id true in
  let^ _ := emit (data_tree_spec id level total_size group) in
  w_ret (id, total_size).

(** The root over the XBLOCKs: the only one, or an XXBLOCK. *)
Definition emit_root (what_count what_size : string) (xblocks : list Placed) : W WriteState UnicodeBlockId :=
  match xblocks with
  | [(id, _)] => w_ret id
  | _ =>
      if MAX_DATA_TREE_ENTRIES <? Z.of_nat (length xblocks)
      then w_lift (Err (ValueTooLarge what_count)) else
      let^ x := emit_xblock what_size 2 xblocks in
      w_ret x.1
  end.

(** What follows the leaves: the last XBLOCK, and the XXBLOCK over them. *)
Definition finish_tree (what what_count what_size : string) (leaves xblocks : list Placed)
    : W WriteState UnicodeBlockId :=
  match xblocks, leaves with
  | [], [(id, _)] => w_ret id
  | _, _ =>
      let^ xblocks :=
        match leaves with
        | [] => w_ret xblocks
        | _ => let^ x := emit_xblock what 1 leaves in w_ret (xblocks ++ [x])
        end in
      emit_root what_count what_size xblocks
  end.

(** The leaves of the current XBLOCK and the XBLOCKs before it. *)
Definition Groups : Type := list Placed * list Placed.

(** [if leaves.len() == MAX_DATA_TREE_ENTRIES && remaining > 0 { .. }] *)
Definition close_group (what : string) (remaining : Z) (g : Groups) : W WriteState Groups :=
  let '(leaves, xblocks) := g in
  if (Z.of_nat (length leaves) =? MAX_DATA_TREE_ENTRIES) && (0 <? remaining) then
    let^ x := emit_xblock what 1 leaves in
    w_ret ([], xblocks ++ [x])
  else w_ret (leaves, xblocks).

(** One block of a payload of [remaining] bytes takes at most
    [MAX_DATA_BLOCK_PAYLOAD] of them. *)
Definition tree_fuel (byte_len : Z) : nat := S (Z.to_nat (byte_len / MAX_DATA_BLOCK_PAYLOAD)).

(** [while remaining > 0 { .. }] of [append_declared_data_tree]; running out of
    fuel is [Panic]. *)
Fixpoint declared_loop (fuel : nat) (remaining : Z) (g : Groups) : W WriteState Groups :=
  if 0 <? remaining then
    match fuel with
    | O => w_lift Panic
    | S fuel =>
        let length := Z.min remaining MAX_DATA_BLOCK_PAYLOAD in
        let^ id := take_block_id false in
        let^ _ := emit (mk_BlockSpec id (ProjectedData length) 2) in
        let remaining := remaining - length in
        let^ g := close_group "direct data tree" remaining (g.1 ++ [(id, length)], g.2) in
        declared_loop fuel remaining g
    end
  else w_ret g.

Definition append_declared_data_tree (byte_len : Z) : W WriteState (UnicodeBlockId * Z) :=
  let^ g := declared_loop (tree_fuel byte_len) byte_len ([], []) in
  let '(leaves, xblocks) := g in
  match leaves with
  | [] => w_lift (Err (InvalidStructure "direct payload must not be empty"))
  | _ =>
      let^ root := finish_tree "direct data tree" "direct XXBLOCK entry count" "direct XXBLOCK size"
                     leaves xblocks in
      w_ret (root, byte_len)
  end.

Section reader.
(** The hash function, of the crate [sha2]. *)
Context (sha256 : list Z -> list Z).

(** [reader.read_exact(&mut chunk)?] on a reader that will deliver [src]; on
    failure the code leaves with the error. *)
Definition read_chunk (n : Z) (src : list Z) : wres (list Z * list Z) := wio (read_exact (Z.to_nat n) src).

(** [while remaining > 0 { .. }] of [append_reader_data_tree]: the groups, the
    logical size, the bytes that were hashed and the rest of the source. *)
Fixpoint reader_loop (fuel : nat) (remaining : Z) (g : Groups) (size : Z) (hashed src : list Z)
    : W WriteState (Groups * Z * list Z * list Z) :=
  if 0 <? remaining then
    match fuel with
    | O => w_lift Panic
    | S fuel =>
        let length := Z.min remaining MAX_DATA_BLOCK_PAYLOAD in
        let^ r := w_lift (read_chunk length src) in
        let '(chunk, src) := r in
        let hashed := hashed ++ chunk in
        let^ id := take_block_id false in
        let^ size := w_lift (fits (checked_add 64 size (message_size_contribution (Data chunk)))
                               "spooled attachment size") in
        let^ _ := emit (mk_BlockSpec id (Data chunk) 2) in
        let remaining := remaining - length in
        let^ g := close_group "spooled data tree" remaining (g.1 ++ [(id, length)], g.2) in
        reader_loop fuel remaining g size hashed src
    end
  else w_ret (g, size, hashed, src).

Definition append_reader_data_tree (src : list Z) (byte_len : Z) (expected_sha256 : option (list Z))
    (require_eof : bool) : W WriteState (UnicodeBlockId * Z * list Z) :=
  let^ r := reader_loop (tree_fuel byte_len) byte_len ([], []) 0 [] src in
  let '(leaves, xblocks, size, hashed, src) := r in
  let actual_hash := sha256 hashed in
  let^ _ := w_lift (ensure (match expected_sha256 with
                            | Some expected => bool_decide (actual_hash = expected)
                            | None => true
                            end) (InvalidStructure "streamed payload hash mismatch")) in
  let^ _ := w_lift (ensure (negb (require_eof && negb (bool_decide (src = []))))
                      (InvalidStructure "streamed payload exceeds its declared length")) in
  match leaves with
  | [] =>
      let^ id := take_block_id false in
      let^ size := w_lift (fits (checked_add 64 size (message_size_contribution (Data [])))
                             "spooled attachment size") in
      let^ _ := emit (mk_BlockSpec id (Data []) 2) in
      w_ret (id, size, actual_hash)
  | _ =>
      let^ root := finish_tree "spooled data tree" "spooled XXBLOCK entry count" "spooled XXBLOCK size"
                     leaves xblocks in
      w_ret (root, size, actual_hash)
  end.

(** [DirectBlobSpec]: the id is for the source only. *)
Record DirectBlobSpec := mk_DirectBlobSpec { dbs_id : Z; dbs_byte_len : Z; dbs_sha256 : option (list Z) }.

(** [append_direct_data_tree]; [open_blob] is what the source gives for a
    blob: the bytes its reader will deliver, or an error. *)
Definition append_direct_data_tree (open_blob : DirectBlobSpec -> wres (list Z)) (blob : DirectBlobSpec)
    : W WriteState (UnicodeBlockId * Z * list Z) :=
  let^ src := w_lift (open_blob blob) in
  append_reader_data_tree src (dbs_byte_len blob) (dbs_sha256 blob) true.

(** [FileBlobSpec]; the path is replaced by what is found there. *)
Record FileBlobSpec := mk_FileBlobSpec { fbs_offset : Z; fbs_byte_len : Z; fbs_sha256 : list Z }.

(** [append_spooled_data_tree] of a path where there is a regular file or not,
    with these contents. *)
Definition append_spooled_data_tree (is_file : bool) (contents : list Z) (blob : FileBlobSpec)
    : W WriteState (UnicodeBlockId * Z) :=
  let^ end_ := w_lift (fits (checked_add 64 (fbs_offset blob) (fbs_byte_len blob)) "spooled attachment range") in
  if negb is_file || (Z.of_nat (length contents) <? end_)
  then w_lift (Err (InvalidStructure "spooled attachment identity mismatch")) else
  let^ r := append_reader_data_tree (drop (Z.to_nat (fbs_offset blob)) contents) (fbs_byte_len blob)
              (Some (fbs_sha256 blob)) false in
  w_ret (r.1.1, r.1.2).
End reader.

(** ** Sub-node trees *)

(** [entries.sort_by_key(|entry| u32::from(entry.node()))] *)
Definition sort_leaf_entries (entries : list LeafEntry) : list LeafEntry :=
  sort_by (by_key (fun e => node_id_0 (LeafSubNodeTreeEntry.node e)) Z.compare) entries.

(** [group[0].node()], for the runs of [chunks], which are not empty. *)
Definition first_node (group : list NodeId) : wres NodeId :=
  match group with [] => Panic | n :: _ => Ok n end.

Definition push_subnode_leaf (group : list LeafEntry) : W VecState IntermediateEntry :=
  let^ id := take_block_id true in
  let^ _ := push_block (mk_BlockSpec id (Subnode group) 2) in
  let^ node := w_lift (first_node (map LeafSubNodeTreeEntry.node group)) in
  w_ret (mk_IntermediateSubNodeTreeEntry node id).

Definition push_subnode_parent (level : Z) (group : list IntermediateEntry) : W VecState IntermediateEntry :=
  let^ id := take_block_id true in
  let^ _ := push_block (mk_BlockSpec id (IntermediateSubnode level group) 2) in
  let^ node := w_lift (first_node (map sie_node group)) in
  w_ret (mk_IntermediateSubNodeTreeEntry node id).

(** [while roots.len() > 1 { .. }]; running out of fuel is [Panic]. *)
Fixpoint subnode_levels (fuel : nat) (level : Z) (roots : list IntermediateEntry) : W VecState UnicodeBlockId :=
  match roots with
  | [] => w_lift Panic
  | [r] => w_ret (sie_block r)
  | _ =>
      match fuel with
      | O => w_lift Panic
      | S fuel =>
          let^ parents := w_map (push_subnode_parent level) (chunks SUBNODE_INTERMEDIATE_CAPACITY roots) in
          let^ level := w_lift (fits (checked_add 8 level 1) "subnode tree depth") in
          subnode_levels fuel level parents
      end
  end.

(** The guards of both builders. *)
Definition check_subnode_entries (entries : list LeafEntry) : wres unit :=
  if bool_decide (entries = []) then Err (InvalidStructure "subnode tree must contain entries") else
  if MAX_SUBNODE_TREE_ENTRIES <? Z.of_nat (length entries)
  then Err (ValueTooLarge "subnode tree entry count") else Ok tt.

(** At most [MAX_SUBNODE_TREE_ENTRIES] entries need one level of parents. *)
Definition append_subnode_tree (entries : list LeafEntry) : W VecState UnicodeBlockId :=
  let^ _ := w_lift (check_subnode_entries entries) in
  let entries := sort_leaf_entries entries in
  let^ roots := w_map push_subnode_leaf (chunks SUBNODE_LEAF_CAPACITY entries) in
  subnode_levels 1 1 roots.

Definition append_subnode_tree_at (entries : list LeafEntry) (root : UnicodeBlockId) : W VecState unit :=
  let^ _ := w_lift (check_subnode_entries entries) in
  let entries := sort_leaf_entries entries in
  if Z.of_nat (length entries) <=? SUBNODE_LEAF_CAPACITY then
    push_block (mk_BlockSpec root (Subnode entries) 2)
  else
    let^ leaves := w_map push_subnode_leaf (chunks SUBNODE_LEAF_CAPACITY entries) in
    push_block (mk_BlockSpec root (IntermediateSubnode 1 leaves) 2).

(** ** Runs of a slice *)

Lemma chunks_fuel_enough {A} fuel fuel' n (l : list A) :
  (0 < n)%nat -> (length l <= fuel)%nat -> (length l <= fuel')%nat ->
  chunks_fuel fuel n l = chunks_fuel fuel' n l.
Proof.
  intros Hn. revert fuel' l. induction fuel as [|fuel IH]; intros fuel' l Hl Hl'.
  { destruct l; [by destruct fuel'|cbn in Hl; lia]. }
  destruct l as [|a l]; [by destruct fuel'|]. destruct fuel' as [|fuel']; [cbn in Hl'; lia|].
  cbn [chunks_fuel]. f_equal. cbn [length] in *. apply IH; rewrite length_drop; cbn [length]; lia.
Qed.

Lemma chunks_cons {A} n (l : list A) :
  0 < n -> l <> [] -> chunks n l = take (Z.to_nat n) l :: chunks n (drop (Z.to_nat n) l).
Proof.
  intros Hn Hl. unfold chunks. destruct l as [|a l]; [done|]. cbn [length chunks_fuel]. f_equal.
  apply chunks_fuel_enough; [lia|rewrite length_drop; cbn [length]; lia|done].
Qed.

Lemma chunks_nil {A} n : chunks (A := A) n [] = [].
Proof. done. Qed.

(** The runs are the list, cut: each has from one to [n] elements, and all
    but the last have [n]. *)
Lemma chunks_spec {A} n (l : list A) :
  0 < n -> concat (chunks n l) = l /\ Forall (fun c => 1 <= Z.of_nat (length c) <= n) (chunks n l).
Proof.
  intros Hn. induction l as [l IH] using (induction_ltof1 _ (@length A)).
  destruct l as [|a l]; [by split; [|constructor]|]. rewrite chunks_cons by done.
  destruct (IH (drop (Z.to_nat n) (a :: l))) as [Hc Hf].
  { unfold ltof. rewrite length_drop. cbn [length]. lia. }
  cbn [concat]. rewrite Hc, take_drop. split; [done|]. constructor; [|done].
  rewrite length_take. cbn [length]. lia.
Qed.

Lemma chunks_nonempty {A} n (l : list A) : 0 < n -> l <> [] -> chunks n l <> [].
Proof. intros. by rewrite chunks_cons. Qed.

Lemma length_chunks {A} n (l : list A) : 0 < n -> Z.of_nat (length (chunks n l)) = div_ceil (Z.of_nat (length l)) n.
Proof.
  intros Hn. induction l as [l IH] using (induction_ltof1 _ (@length A)).
  destruct l as [|a l].
  { unfold div_ceil. cbn [length]. rewrite Z.div_small; [done|lia]. }
  rewrite chunks_cons by done. cbn [length]. rewrite Nat2Z.inj_succ, IH.
  2: { unfold ltof. rewrite length_drop. cbn [length]. lia. }
  rewrite length_drop. cbn [length]. unfold div_ceil.
  destruct (Z.le_gt_cases (Z.of_nat (S (length l))) n).
  - replace (Z.of_nat (S (length l) - Z.to_nat n)) with 0 by lia.
    rewrite (Z.div_small (0 + n - 1)) by lia.
    replace (Z.of_nat (S (length l)) + n - 1) with (Z.of_nat (length l) + 1 * n) by lia.
    rewrite Z.div_add, Z.div_small by lia. done.
  - rewrite Nat2Z.inj_sub by lia. rewrite Z2Nat.id by lia.
    replace (Z.of_nat (S (length l)) + n - 1) with (Z.of_nat (S (length l)) - n + n - 1 + 1 * n) by lia.
    rewrite (Z.div_add _ 1) by lia. lia.
Qed.

Lemma total_sizes_ok {A} (g : list (A * Z)) t0 t :
  total_sizes g t0 = Some t -> t = t0 + foldr (fun x n => x.2 + n) 0 g /\ Forall (fun x => uint 32 x.2) g.
Proof.
  revert t0. induction g as [|[a n] g IH]; intros t0; cbn; [intros [= ->]; split; [lia|constructor]|].
  destruct (uint_b 32 n) eqn:En; [|done]. apply uint_b_spec in En. unfold checked_add.
  destruct (t0 + n <? 2 ^ 32); [|done]. intros [-> Hg]%IH. split; [lia|by constructor].
Qed.

(** ** Emitted blocks *)

(** [s'] is [s] after taking ids for the blocks [l] and emitting them, in
    order. *)
Inductive emitted : WriteState -> list BlockSpec -> WriteState -> Prop :=
| emitted_nil s : emitted s [] s
| emitted_cons s internal id payload s0 s1 l s' :
    take_block_id internal s = (Ok id, s0) ->
    emit (mk_BlockSpec id payload 2) s0 = (Ok tt, s1) ->
    emitted s1 l s' -> emitted s (mk_BlockSpec id payload 2 :: l) s'.

(** The same for the builders that push to a vector. *)
Inductive pushed : VecState -> list BlockSpec -> VecState -> Prop :=
| pushed_nil s : pushed s [] s
| pushed_cons s internal id payload s0 s1 l s' :
    take_block_id internal s = (Ok id, s0) ->
    push_block (mk_BlockSpec id payload 2) s0 = (Ok tt, s1) ->
    pushed s1 l s' -> pushed s (mk_BlockSpec id payload 2 :: l) s'.

Lemma emitted_app s1 l1 s2 l2 s3 : emitted s1 l1 s2 -> emitted s2 l2 s3 -> emitted s1 (l1 ++ l2) s3.
Proof. induction 1; cbn; [done|]. intros. econstructor; eauto. Qed.

Lemma pushed_app s1 l1 s2 l2 s3 : pushed s1 l1 s2 -> pushed s2 l2 s3 -> pushed s1 (l1 ++ l2) s3.
Proof. induction 1; cbn; [done|]. intros. econstructor; eauto. Qed.

(** What a builder, when it succeeds, has emitted. *)
Definition logs {S A} (trace : S -> list BlockSpec -> S -> Prop) (m : W S A) (P : list BlockSpec -> A -> Prop)
    : Prop :=
  forall s a s', m s = (Ok a, s') -> exists l, trace s l s' /\ P l a.

Section logs.
Context {S : Type} (trace : S -> list BlockSpec -> S -> Prop).
Context (trace_nil : forall s, trace s [] s).
Context (trace_app : forall s1 l1 s2 l2 s3, trace s1 l1 s2 -> trace s2 l2 s3 -> trace s1 (l1 ++ l2) s3).

Lemma logs_ret {A} (a : A) : logs trace (w_ret a) (fun l b => l = [] /\ b = a).
Proof using trace_nil. intros s b s' [= -> ->]. eauto. Qed.

Lemma logs_lift {A} (m : wres A) : logs trace (w_lift m) (fun l a => l = [] /\ m = Ok a).
Proof using trace_nil. intros s a s' [? <-]%w_lift_ok. eauto. Qed.

Lemma logs_bind {A B} (m : W S A) (k : A -> W S B) P Q :
  logs trace m P -> (forall a, logs trace (k a) (Q a)) ->
  logs trace (w_bind m k) (fun l b => exists l1 l2 a, l = l1 ++ l2 /\ P l1 a /\ Q a l2 b).
Proof using trace_app.
  intros Hm Hk s b s' (a & s0 & Hma & Hkb)%w_bind_ok.
  apply Hm in Hma as (l1 & T1 & HP). apply Hk in Hkb as (l2 & T2 & HQ).
  exists (l1 ++ l2). split; [by eapply trace_app|]. by exists l1, l2, a.
Qed.

Lemma logs_weaken {A} (m : W S A) (P Q : list BlockSpec -> A -> Prop) :
  logs trace m P -> (forall l a, P l a -> Q l a) -> logs trace m Q.
Proof using Type. intros Hm H s a s' (l & ? & ?)%Hm. eauto. Qed.

(** A loop that pushes: each step's property holds of the whole log, when it
    is kept by larger logs, and the blocks that the steps name are in order. *)
Lemma logs_map {A B} (f : A -> W S B) (P : list BlockSpec -> A -> B -> Prop) (id : B -> UnicodeBlockId) xs :
  (forall l1 l2 l3 a b, P l2 a b -> P (l1 ++ l2 ++ l3) a b) ->
  (forall l a b, P l a b -> id b ∈ map bs_id l) ->
  (forall a, logs trace (f a) (fun l b => P l a b)) ->
  logs trace (w_map f xs) (fun l bs => Forall2 (P l) xs bs /\ map id bs `sublist_of` map bs_id l).
Proof using trace_nil trace_app.
  intros Hmono Hid Hf. induction xs as [|x xs IH]; cbn [w_map].
  - eapply logs_weaken; [apply logs_ret|]. intros l bs [-> ->]. split; constructor.
  - eapply logs_weaken.
    { apply logs_bind; [apply Hf|intros b]. apply logs_bind; [apply IH|intros bs]. apply logs_ret. }
    intros l bs (l1 & l2 & b & -> & Hb & l3 & l4 & bs' & -> & [Hbs Hs] & -> & ->). rewrite app_nil_r. split.
    + constructor; [by apply (Hmono [])|]. eapply Forall2_impl; [exact Hbs|]. intros a b' H.
      rewrite <- (app_nil_r l3). by apply Hmono.
    + rewrite map_app. cbn [map]. change (id b :: map id bs') with ([id b] ++ map id bs').
      apply sublist_app; [|exact Hs]. apply singleton_sublist_l. by eapply Hid.
Qed.
End logs.

(** *** Trees among the emitted blocks *)

Definition size_of (d : list Z) : Z := Z.of_nat (length d).
Definition sizes_sum (ds : list (list Z)) : Z := size_of (concat ds).

(** The blocks of [xs] are among [l], in order. *)
Definition in_order (xs : list Placed) (l : list BlockSpec) : Prop := map fst xs `sublist_of` map bs_id l.

(** The block [p.1] of [l] is a data block with the data [d]. *)
Definition leaf_holds (l : list BlockSpec) (d : list Z) (p : Placed) : Prop :=
  mk_BlockSpec p.1 (Data d) 2 ∈ l /\ p.2 = size_of d /\ UnicodeBlockId.is_internal p.1 = false.

(** The block [p.1] of [l] is an XBLOCK over data blocks with the data [ds]. *)
Definition xblock_holds (l : list BlockSpec) (ds : list (list Z)) (p : Placed) : Prop :=
  exists g, data_tree_spec p.1 1 p.2 g ∈ l /\ Forall2 (leaf_holds l) ds g /\ p.2 = sizes_sum ds /\
    Z.of_nat (length g) <= MAX_DATA_TREE_ENTRIES /\ UnicodeBlockId.is_internal p.1 = true.

(** The tree of root [root] among the blocks [l]: its data blocks hold [ds], in
    order. *)
Definition tree_holds (l : list BlockSpec) (root : UnicodeBlockId) (ds : list (list Z)) : Prop :=
  (exists d, ds = [d] /\ leaf_holds l d (root, size_of d)) \/
  xblock_holds l ds (root, sizes_sum ds) \/
  exists dss xs, ds = concat dss /\ data_tree_spec root 2 (sizes_sum ds) xs ∈ l /\
    Forall2 (xblock_holds l) dss xs /\ Z.of_nat (length xs) <= MAX_DATA_TREE_ENTRIES /\
    UnicodeBlockId.is_internal root = true /\ in_order xs l.

Lemma spec_in_ids spec l : spec ∈ l -> bs_id spec ∈ map bs_id l.
Proof. apply (list_elem_of_fmap_2 bs_id). Qed.

Lemma leaf_holds_id l d p : leaf_holds l d p -> p.1 ∈ map bs_id l.
Proof. intros (H & _). by apply spec_in_ids in H. Qed.

Lemma leaf_holds_mono l l' d p : l ⊆ l' -> leaf_holds l d p -> leaf_holds l' d p.
Proof. intros Hl (? & ? & ?). split_and!; [by apply Hl|done|done]. Qed.

Lemma xblock_holds_mono l l' ds p : l ⊆ l' -> xblock_holds l ds p -> xblock_holds l' ds p.
Proof.
  intros Hl (g & Hg & Hf & ? & ? & ?). exists g. split_and!; [by apply Hl| |done..].
  eapply Forall2_impl; [exact Hf|]. intros. by eapply leaf_holds_mono.
Qed.

Lemma sublist_elems {A} (l k : list A) : l `sublist_of` k -> l ⊆ k.
Proof. intros H x Hx. by eapply elem_of_sublist. Qed.

Lemma in_order_mono xs l l' : l `sublist_of` l' -> in_order xs l -> in_order xs l'.
Proof. unfold in_order. intros Hl Hx. etrans; [exact Hx|]. by apply (fmap_sublist bs_id). Qed.

Lemma tree_holds_mono l l' root ds : l `sublist_of` l' -> tree_holds l root ds -> tree_holds l' root ds.
Proof.
  intros Hs. pose proof (sublist_elems _ _ Hs) as Hl.
  intros [(d & ? & H)|[H|(dss & xs & ? & H & Hf & ? & ? & ?)]].
  - left. exists d. split; [done|]. by eapply leaf_holds_mono.
  - right. left. by eapply xblock_holds_mono.
  - right. right. exists dss, xs. split_and!; [done|by apply Hl| |done|done|by eapply in_order_mono].
    eapply Forall2_impl; [exact Hf|]. intros. by eapply xblock_holds_mono.
Qed.

Lemma tree_holds_app l l' root ds : tree_holds l root ds -> tree_holds (l ++ l') root ds.
Proof. apply tree_holds_mono. by apply sublist_inserts_r. Qed.

Lemma sizes_sum_app ds es : sizes_sum (ds ++ es) = sizes_sum ds + sizes_sum es.
Proof. unfold sizes_sum, size_of. rewrite concat_app, length_app. lia. Qed.

Lemma leaves_total l ds g t :
  Forall2 (leaf_holds l) ds g -> total_sizes g 0 = Some t -> t = sizes_sum ds.
Proof.
  intros Hf [-> _]%total_sizes_ok. rewrite Z.add_0_l.
  induction Hf as [|d p ds g (_ & Hp & _) _ IH]; [done|]. cbn [foldr]. rewrite IH, Hp.
  change (d :: ds) with ([d] ++ ds). rewrite sizes_sum_app. unfold sizes_sum at 2. cbn. by rewrite app_nil_r.
Qed.

Lemma xblocks_total l dss xs t :
  Forall2 (xblock_holds l) dss xs -> total_sizes xs 0 = Some t -> t = sizes_sum (concat dss).
Proof.
  intros Hf [-> _]%total_sizes_ok. rewrite Z.add_0_l.
  induction Hf as [|ds p dss xs (g & _ & _ & Hp & _) _ IH]; [done|]. cbn [foldr concat].
  by rewrite IH, Hp, sizes_sum_app.
Qed.

Lemma new_is_internal flag i b : UnicodeBlockId.new flag i = Ok b -> UnicodeBlockId.is_internal b = flag.
Proof.
  unfold UnicodeBlockId.new, UnicodeBlockId.is_internal. generalize (rotate_left 64 i 2) as x. intros x.
  destruct (Z.eqb_spec (Z.land x 3) 0) as [E|]; cbn [negb]; [|done].
  intros [= <-]. cbn [unicode_block_id_0]. rewrite Z.land_lor_distr_l.
  replace (Z.land x 2) with 0; [by destruct flag|].
  change 2 with (Z.land 3 2). by rewrite Z.land_assoc, E.
Qed.

Lemma take_block_id_ok {S} `{!NextIndex S} internal (s : S) id s' :
  take_block_id internal s = (Ok id, s') ->
  UnicodeBlockId.new internal (next_block_index s) = Ok id /\
  s' = set_next_block_index (next_block_index s + 1) s /\ next_block_index s + 1 < 2 ^ 64.
Proof.
  unfold take_block_id. intros (i & s0 & Hg & H)%w_bind_ok. unfold w_get in Hg. injection Hg as <- <-.
  apply w_bind_ok in H as (n & s1 & [Hn <-]%w_lift_ok & H).
  apply w_bind_ok in H as ([] & s2 & Hm & H). unfold w_modify in Hm. injection Hm as <-.
  apply w_lift_ok in H as [H <-]. unfold fits, checked_add in Hn.
  cbn [ok_or] in Hn.
  destruct (Z.ltb_spec (next_block_index s + 1) (2 ^ 64)); cbn [ok_or] in Hn; [|congruence]. injection Hn as <-.
  split_and!; [|done|done].
  unfold internal_bid, leaf_bid, structure in H.
  destruct internal; destruct (UnicodeBlockId.new _ _) as [b| |]; cbn in H; congruence.
Qed.

(** Taking an id for a block and emitting it, then the rest. *)
Lemma logs_emit {A} internal (payload : BlockPayload) (k : UnicodeBlockId -> W WriteState A) Q :
  (forall id, logs emitted (k id) (Q id)) ->
  logs emitted
    (let^ id := take_block_id internal in let^ _ := emit (mk_BlockSpec id payload 2) in k id)
    (fun l a => exists id l2, l = mk_BlockSpec id payload 2 :: l2 /\
       UnicodeBlockId.is_internal id = internal /\ Q id l2 a).
Proof.
  intros Hk s a s' (id & s0 & Ht & H)%w_bind_ok. apply w_bind_ok in H as ([] & s1 & He & H).
  apply Hk in H as (l & Hl & HQ). exists (mk_BlockSpec id payload 2 :: l).
  split; [by econstructor|]. exists id, l. split_and!; [done| |done].
  apply take_block_id_ok in Ht as (Hn & _). by eapply new_is_internal.
Qed.

Lemma logs_push {A} internal (payload : BlockPayload) (k : UnicodeBlockId -> W VecState A) Q :
  (forall id, logs pushed (k id) (Q id)) ->
  logs pushed
    (let^ id := take_block_id internal in let^ _ := push_block (mk_BlockSpec id payload 2) in k id)
    (fun l a => exists id l2, l = mk_BlockSpec id payload 2 :: l2 /\
       UnicodeBlockId.is_internal id = internal /\ Q id l2 a).
Proof.
  intros Hk s a s' (id & s0 & Ht & H)%w_bind_ok. apply w_bind_ok in H as ([] & s1 & He & H).
  apply Hk in H as (l & Hl & HQ). exists (mk_BlockSpec id payload 2 :: l).
  split; [by econstructor|]. exists id, l. split_and!; [done| |done].
  apply take_block_id_ok in Ht as (Hn & _). by eapply new_is_internal.
Qed.

Ltac logs_tac :=
  repeat first
    [ apply logs_emit; intros ?
    | apply logs_push; intros ?
    | eapply logs_bind; [apply emitted_app| |intros ?]
    | eapply logs_bind; [apply pushed_app| |intros ?]
    | apply (logs_ret _ emitted_nil) | apply (logs_ret _ pushed_nil)
    | apply (logs_lift _ emitted_nil) | apply (logs_lift _ pushed_nil) ].

(** *** Builders in memory *)

Lemma logs_push_leaf d : logs pushed (push_leaf d) (fun l p => leaf_holds l d p).
Proof.
  eapply logs_weaken; [unfold push_leaf; logs_tac|].
  intros l p (id & l2 & -> & Hi & -> & ->). split_and!; [by left|done|done].
Qed.

(** What an XBLOCK adds to a log that has its leaves. *)
Definition xblock_added (g : list Placed) (l : list BlockSpec) (p : Placed) : Prop :=
  data_tree_spec p.1 1 p.2 g ∈ l /\ total_sizes g 0 = Some p.2 /\ UnicodeBlockId.is_internal p.1 = true.

Lemma logs_push_xblock g : logs pushed (push_xblock g) (xblock_added g).
Proof.
  intros s p s' H. unfold push_xblock in H.
  apply w_bind_ok in H as (id & s0 & Ht & H). apply w_bind_ok in H as (t & s1 & [Hf%fits_ok <-]%w_lift_ok & H).
  apply w_bind_ok in H as ([] & s2 & Hp & H). unfold w_ret in H. injection H as <- <-.
  exists [data_tree_spec id 1 t g]. split; [econstructor; [done|done|constructor]|].
  apply take_block_id_ok in Ht as (Hn & _). split_and!; [by left|done|by eapply new_is_internal].
Qed.

Lemma logs_push_heap_xblock g : logs pushed (push_heap_xblock g) (xblock_added g).
Proof.
  eapply logs_weaken; [unfold push_heap_xblock, data_tree_spec; logs_tac|]. cbn beta.
  intros l p (? & ? & t & -> & [-> Hf%fits_ok] & id & l2 & -> & Hi & -> & ->).
  split_and!; [by left|done|done].
Qed.

Lemma xblock_added_mono g (l1 l2 l3 : list BlockSpec) p :
  xblock_added g l2 p -> xblock_added g (l1 ++ l2 ++ l3) p.
Proof. intros (? & ? & ?). split_and!; [set_solver|done|done]. Qed.

Lemma leaf_holds_app d (l1 l2 l3 : list BlockSpec) p : leaf_holds l2 d p -> leaf_holds (l1 ++ l2 ++ l3) d p.
Proof. apply leaf_holds_mono. set_solver. Qed.

(** Groups of leaves: the runs of leaves and the runs of their data. *)
Lemma Forall2_chunks {A B} (R : A -> B -> Prop) n xs ys :
  0 < n -> Forall2 R xs ys -> Forall2 (Forall2 R) (chunks n xs) (chunks n ys).
Proof.
  intros Hn. revert ys. induction xs as [xs IH] using (induction_ltof1 _ (@length A)). intros ys H.
  destruct (decide (xs = [])) as [->|Hne]; [by inversion H|].
  assert (ys <> []) by (intros ->; by inversion H). rewrite (chunks_cons n xs), (chunks_cons n ys) by done. constructor.
  - by apply Forall2_take.
  - apply IH; [|by apply Forall2_drop]. unfold ltof. rewrite length_drop.
    assert (length xs <> 0)%nat by (by destruct xs). lia.
Qed.

Lemma xblocks_hold l ds leaves xs :
  Forall2 (leaf_holds l) ds leaves ->
  Forall2 (fun g p => xblock_added g l p) (chunks MAX_DATA_TREE_ENTRIES leaves) xs ->
  Forall2 (xblock_holds l) (chunks MAX_DATA_TREE_ENTRIES ds) xs.
Proof.
  intros Hl. pose proof (Forall2_chunks _ MAX_DATA_TREE_ENTRIES _ _ ltac:(done) Hl) as Hc.
  pose proof (proj2 (chunks_spec MAX_DATA_TREE_ENTRIES leaves ltac:(done))) as Hlen.
  revert Hc Hlen. generalize (chunks MAX_DATA_TREE_ENTRIES leaves), (chunks MAX_DATA_TREE_ENTRIES ds).
  intros gs dss Hc Hlen Hx. revert dss Hc Hlen.
  induction Hx as [|g p gs xs (Hin & Ht & Hi) _ IH]; intros dss Hc Hlen; inversion Hc; subst; [constructor|].
  inversion Hlen; subst. constructor; [|by apply IH]. exists g. split_and!; try done; [|lia].
  by eapply leaves_total.
Qed.

(** What the root over XBLOCKs adds. *)
Definition xxblock_added (xs : list Placed) (l : list BlockSpec) (root : UnicodeBlockId) : Prop :=
  exists t, data_tree_spec root 2 t xs ∈ l /\ total_sizes xs 0 = Some t /\
    Z.of_nat (length xs) <= MAX_DATA_TREE_ENTRIES /\ UnicodeBlockId.is_internal root = true.

Lemma logs_push_xxblock c s xs : logs pushed (push_xxblock c s xs) (xxblock_added xs).
Proof.
  unfold push_xxblock. destruct (Z.ltb_spec MAX_DATA_TREE_ENTRIES (Z.of_nat (length xs))).
  { eapply logs_weaken; [apply (logs_lift _ pushed_nil)|]. by intros l r [_ [=]]. }
  eapply logs_weaken; [unfold data_tree_spec; logs_tac|]. cbn beta.
  intros l root (? & ? & t & -> & [-> Hf%fits_ok] & id & l2 & -> & Hi & -> & ->).
  exists t. split_and!; [by left|done|lia|done].
Qed.

(** The trees over given leaves: a single leaf, a single XBLOCK, or an
    XXBLOCK over them. *)
Definition tree_over (leaves : list Placed) (l : list BlockSpec) (root : UnicodeBlockId) : Prop :=
  forall l0 ds, l `sublist_of` l0 -> Forall2 (leaf_holds l0) ds leaves -> tree_holds l0 root ds.

Lemma tree_over_leaf id n l : tree_over [(id, n)] l id.
Proof.
  intros l0 ds _ H. inversion H as [|d p ds' ? Hp Hnil]; subst. inversion Hnil; subst. left.
  exists d. split; [done|]. destruct Hp as (? & ? & ?). split_and!; done.
Qed.

Lemma concat_chunks_single {A} n (l : list A) c : 0 < n -> chunks n l = [c] -> l = c.
Proof. intros Hn E. destruct (chunks_spec n l Hn) as [H _]. rewrite E in H. cbn in H. by rewrite app_nil_r in H. Qed.

Lemma tree_over_xblocks leaves xs l root :
  Forall2 (fun g p => xblock_added g l p) (chunks MAX_DATA_TREE_ENTRIES leaves) xs ->
  in_order xs l -> ((exists t, xs = [(root, t)]) \/ xxblock_added xs l root) ->
  tree_over leaves l root.
Proof.
  intros Hx Ho Hr l0 ds Hsub Hds. pose proof (sublist_elems _ _ Hsub) as Hl.
  assert (Forall2 (xblock_holds l0) (chunks MAX_DATA_TREE_ENTRIES ds) xs) as Hh.
  { eapply xblocks_hold; [done|]. eapply Forall2_impl; [exact Hx|].
    intros g p (? & ? & ?). split_and!; [by apply Hl|done|done]. }
  destruct Hr as [[t ->]|(t & Hin & Ht & Hlen & Hi)].
  - right. left. inversion Hh as [|c p cs ? Hp Hnil Ec]; subst. inversion Hnil; subst.
    assert (ds = c) as -> by (by apply (concat_chunks_single MAX_DATA_TREE_ENTRIES)).
    destruct Hp as (g & Hg & Hgl & Et & ? & ?). cbn in Et. subst t. by exists g.
  - right. right. exists (chunks MAX_DATA_TREE_ENTRIES ds), xs.
    destruct (chunks_spec MAX_DATA_TREE_ENTRIES ds ltac:(done)) as [Hc _]. rewrite Hc.
    split_and!; try done; [|by eapply in_order_mono].
    apply Hl. rewrite <- Hc at 1. by rewrite <- (xblocks_total _ _ _ _ Hh Ht).
Qed.

Lemma logs_tree_memory (f : list Placed -> W VecState Placed) c s leaves :
  (forall g, logs pushed (f g) (xblock_added g)) ->
  logs pushed
    (match leaves with
     | [(id, _)] => w_ret id
     | _ =>
         let^ xblocks := w_map f (chunks MAX_DATA_TREE_ENTRIES leaves) in
         match xblocks with
         | [(id, _)] => w_ret id
         | _ => push_xxblock c s xblocks
         end
     end) (tree_over leaves).
Proof.
  intros Hf.
  assert (logs pushed
    (let^ xblocks := w_map f (chunks MAX_DATA_TREE_ENTRIES leaves) in
     match xblocks with [(id, _)] => w_ret id | _ => push_xxblock c s xblocks end) (tree_over leaves)) as Hmany.
  { eapply logs_weaken.
    { eapply logs_bind; [apply pushed_app| |intros xs].
      { apply (logs_map _ pushed_nil pushed_app f (fun l g p => xblock_added g l p) fst); [| |apply Hf].
        - intros. by apply xblock_added_mono.
        - intros l g p (H & _). by apply spec_in_ids in H. }
      instantiate (1 := fun xs l root => (exists t, xs = [(root, t)]) \/ xxblock_added xs l root).
      destruct xs as [|[id t] [|p xs]].
      2: { eapply logs_weaken; [apply (logs_ret _ pushed_nil)|]. intros l r [-> ->]. left. by exists t. }
      all: eapply logs_weaken; [apply logs_push_xxblock|]; intros; by right. }
    intros l root (l1 & l2 & xs & -> & [Hx Ho] & Hr). apply (tree_over_xblocks leaves xs).
    - eapply Forall2_impl; [exact Hx|]. intros g p H. by apply (xblock_added_mono g []).
    - eapply in_order_mono; [|exact Ho]. by apply sublist_inserts_r.
    - destruct Hr as [?|(t & ? & ?)]; [by left|right]. exists t. split; [|done]. apply elem_of_app. by right. }
  destruct leaves as [|[id n] [|p leaves]]; [done| |done].
  eapply logs_weaken; [apply (logs_ret _ pushed_nil)|]. intros l r [-> ->]. apply tree_over_leaf.
Qed.

Lemma logs_append_data_tree_sized bytes chunk_size :
  0 < chunk_size ->
  logs pushed (append_data_tree_sized bytes chunk_size) (fun l root => tree_holds l root (chunks chunk_size bytes)).
Proof.
  intros Hn. unfold append_data_tree_sized. eapply logs_weaken.
  { eapply logs_bind; [apply pushed_app| |intros leaves].
    - apply (logs_map _ pushed_nil pushed_app _ (fun l d p => leaf_holds l d p) fst); [| |apply logs_push_leaf].
      + intros. by apply leaf_holds_app.
      + intros l d p. apply leaf_holds_id.
    - apply (logs_tree_memory push_xblock), logs_push_xblock. }
  intros l root (l1 & l2 & leaves & -> & [Hl _] & Ht). apply Ht; [by apply sublist_inserts_l|].
  eapply Forall2_impl; [exact Hl|]. intros d p H. by apply (leaf_holds_app d []).
Qed.

Lemma logs_append_data_tree_pages pages :
  logs pushed (append_data_tree_pages pages) (fun l root => tree_holds l root pages /\ pages <> [] /\
    Forall (fun p => size_of p <= MAX_DATA_BLOCK_PAYLOAD) pages).
Proof.
  unfold append_data_tree_pages. destruct pages as [|page pages].
  { eapply logs_weaken; [apply (logs_lift _ pushed_nil)|]. by intros l r [_ [=]]. }
  eapply logs_weaken.
  { eapply logs_bind; [apply pushed_app| |intros leaves].
    - apply (logs_map _ pushed_nil pushed_app _ (fun l d p => leaf_holds l d p /\ size_of d <= MAX_DATA_BLOCK_PAYLOAD) fst).
      { intros l1 l2 l3 d p [? ?]. split; [by apply leaf_holds_app|done]. }
      { intros l d p [H _]. by eapply leaf_holds_id. }
      intros d. unfold push_page. destruct (Z.ltb_spec MAX_DATA_BLOCK_PAYLOAD (Z.of_nat (length d))).
      + eapply logs_weaken; [apply (logs_lift _ pushed_nil)|]. by intros l r [_ [=]].
      + eapply logs_weaken; [apply logs_push_leaf|]. intros l p ?. by split.
    - apply (logs_tree_memory push_heap_xblock), logs_push_heap_xblock. }
  intros l root (l1 & l2 & leaves & -> & [Hl _] & Ht). split_and!; [|done|].
  - apply Ht; [by apply sublist_inserts_l|]. eapply Forall2_impl; [exact Hl|]. intros d p [H _]. by apply (leaf_holds_app d []).
  - rewrite Forall_forall. intros d Hd. apply list_elem_of_lookup in Hd as [i Hd].
    destruct (Forall2_lookup_l _ _ _ _ _ Hl Hd) as (p & _ & _ & ?). done.
Qed.

(** *** Builders from a stream *)

Lemma app_subseteq_l {A} (l k : list A) : l ⊆ l ++ k.
Proof. intros x Hx. apply elem_of_app. by left. Qed.
Lemma app_subseteq_r {A} (l k : list A) : k ⊆ l ++ k.
Proof. intros x Hx. apply elem_of_app. by right. Qed.

Lemma logs_emit_xblock what level g :
  logs emitted (emit_xblock what level g) (fun l p => data_tree_spec p.1 level p.2 g ∈ l /\
    total_sizes g 0 = Some p.2 /\ UnicodeBlockId.is_internal p.1 = true).
Proof.
  eapply logs_weaken; [unfold emit_xblock, data_tree_spec; logs_tac|]. cbn beta.
  intros l p (? & ? & t & -> & [-> Hf%fits_ok] & id & l2 & -> & Hi & -> & ->).
  split_and!; [by left|done|done].
Qed.

(** The blocks of [l] hold the data [ds] under the groups [g], with [remaining]
    bytes to come. *)
Definition groups_hold (l : list BlockSpec) (ds : list (list Z)) (remaining : Z) (g : Groups) : Prop :=
  exists dss ds1, ds = concat dss ++ ds1 /\ Forall2 (xblock_holds l) dss g.2 /\
    Forall2 (leaf_holds l) ds1 g.1 /\ in_order g.2 l /\ Z.of_nat (length g.1) <= MAX_DATA_TREE_ENTRIES /\
    (0 < remaining -> Z.of_nat (length g.1) < MAX_DATA_TREE_ENTRIES).

(** An XBLOCK over the current leaves. *)
Lemma groups_close l ds1 g p :
  Forall2 (leaf_holds l) ds1 g -> Z.of_nat (length g) <= MAX_DATA_TREE_ENTRIES ->
  data_tree_spec p.1 1 p.2 g ∈ l -> total_sizes g 0 = Some p.2 -> UnicodeBlockId.is_internal p.1 = true ->
  xblock_holds l ds1 p.
Proof. intros Hg Hl Hin Ht Hi. exists g. split_and!; try done. by eapply leaves_total. Qed.

Lemma in_order_snoc xs l1 l2 p spec :
  in_order xs l1 -> spec ∈ l2 -> bs_id spec = p.1 -> in_order (xs ++ [p]) (l1 ++ l2).
Proof.
  unfold in_order. intros H Hin E. rewrite !map_app. apply sublist_app; [done|]. cbn [map].
  apply singleton_sublist_l. rewrite <- E. by apply spec_in_ids.
Qed.

Lemma logs_close_group what remaining g :
  logs emitted (close_group what remaining g) (fun l g' =>
    (g.1 <> [] -> 0 < remaining \/ g'.1 <> []) /\ forall l0 ds,
    Z.of_nat (length g.1) <= MAX_DATA_TREE_ENTRIES ->
    (exists dss ds1, ds = concat dss ++ ds1 /\ Forall2 (xblock_holds l0) dss g.2 /\
       Forall2 (leaf_holds l0) ds1 g.1) -> in_order g.2 l0 ->
    groups_hold (l0 ++ l) ds remaining g').
Proof.
  destruct g as [leaves xblocks]. unfold close_group. cbn [fst snd].
  destruct (Z.eqb_spec (Z.of_nat (length leaves)) MAX_DATA_TREE_ENTRIES) as [E|E], (Z.ltb_spec 0 remaining);
    cbn [andb]; try (eapply logs_weaken; [apply (logs_ret _ emitted_nil)|];
      intros l g [-> ->]; split; [by right|]; intros l0 ds Hle (dss & ds1 & -> & H2 & H1) Ho; rewrite app_nil_r;
      exists dss, ds1; split_and!; try done; cbn [fst]; lia).
  eapply logs_weaken; [eapply logs_bind; [apply emitted_app|apply logs_emit_xblock|intros ?; apply (logs_ret _ emitted_nil)]|].
  cbn beta. intros l g (l1 & l2 & p & -> & (Hin & Ht & Hi) & -> & ->). split; [by left|].
  intros l0 ds Hle (dss & ds1 & -> & H2 & H1) Ho.
  rewrite app_nil_r. exists (dss ++ [ds1]), []. cbn [fst snd].
  rewrite concat_app. cbn [concat]. rewrite !app_nil_r.
  assert (l0 ⊆ l0 ++ l1) as Hsub by apply app_subseteq_l.
  split_and!; [done| |constructor|by eapply in_order_snoc|cbn; unfold MAX_DATA_TREE_ENTRIES; lia|cbn; unfold MAX_DATA_TREE_ENTRIES; lia].
  apply Forall2_app.
  - eapply Forall2_impl; [exact H2|]. intros. by eapply xblock_holds_mono.
  - constructor; [|constructor]. apply (groups_close _ _ leaves); [|exact Hle| |exact Ht|exact Hi].
    + eapply Forall2_impl; [exact H1|]. intros. by eapply leaf_holds_mono.
    + apply elem_of_app. by right.
Qed.

Lemma chunks_first {A} n (c d : list A) :
  0 < n -> c <> [] -> Z.of_nat (length c) = Z.min (Z.of_nat (length c) + Z.of_nat (length d)) n ->
  chunks n (c ++ d) = c :: chunks n d.
Proof.
  intros Hn Hc Hl. rewrite chunks_cons by (done || by destruct c).
  destruct (Z.eq_dec (Z.of_nat (length c)) n) as [E|E].
  - rewrite take_app_exact, drop_app_exact by lia. done.
  - assert (d = []) as -> by (destruct d; [done|cbn [length] in *; lia]). rewrite app_nil_r.
    rewrite take_ge, drop_ge by lia. done.
Qed.

Lemma read_chunk_ok n src c rest :
  read_chunk n src = Ok (c, rest) -> src = c ++ rest /\ length c = Z.to_nat n.
Proof.
  unfold read_chunk, wio. destruct (read_exact _ _) as [[? ?]| |] eqn:E; cbn; [|done..].
  intros [= -> ->]. by apply read_exact_ok in E.
Qed.

(** One more leaf under the groups. *)
Lemma groups_leaf l spec ds remaining g chunk id :
  groups_hold l ds remaining g -> 0 < remaining ->
  spec = mk_BlockSpec id (Data chunk) 2 -> UnicodeBlockId.is_internal id = false ->
  Z.of_nat (length (g.1 ++ [(id, size_of chunk)])) <= MAX_DATA_TREE_ENTRIES /\
  (exists dss ds1, ds ++ [chunk] = concat dss ++ ds1 /\ Forall2 (xblock_holds (l ++ [spec])) dss g.2 /\
    Forall2 (leaf_holds (l ++ [spec])) ds1 (g.1 ++ [(id, size_of chunk)])) /\ in_order g.2 (l ++ [spec]).
Proof.
  intros (dss & ds1 & -> & H2 & H1 & Ho & _ & Hlt) Hr -> Hi. specialize (Hlt Hr).
  split; [rewrite length_app; cbn [length]; lia|].
  split; [|eapply in_order_mono; [by apply sublist_inserts_r|exact Ho]].
  exists dss, (ds1 ++ [chunk]). split_and!; [by rewrite app_assoc| |].
  - eapply Forall2_impl; [exact H2|]. intros. eapply xblock_holds_mono; [apply app_subseteq_l|done].
  - apply Forall2_app.
    + eapply Forall2_impl; [exact H1|]. intros. eapply leaf_holds_mono; [apply app_subseteq_l|done].
    + constructor; [|constructor]. split_and!; [apply elem_of_app; right; by left|done|done].
Qed.

Lemma logs_reader_loop fuel : forall remaining g size hashed src,
  0 <= remaining ->
  logs emitted (reader_loop fuel remaining g size hashed src) (fun l r =>
    let '(g', size', hashed', src') := r in
    exists data, src = data ++ src' /\ Z.of_nat (length data) = remaining /\
      hashed' = hashed ++ data /\ size' = size + remaining /\
      (0 < remaining \/ g.1 <> [] -> g'.1 <> []) /\
      forall l0 ds, groups_hold l0 ds remaining g ->
        groups_hold (l0 ++ l) (ds ++ chunks MAX_DATA_BLOCK_PAYLOAD data) 0 g').
Proof.
  induction fuel as [|fuel IH]; intros remaining g size hashed src Hr; cbn [reader_loop];
    destruct (Z.ltb_spec 0 remaining) as [Hpos|Hz].
  1: { eapply logs_weaken; [apply (logs_lift _ emitted_nil)|]. by intros ? ? [_ [=]]. }
  1, 3: eapply logs_weaken; [apply (logs_ret _ emitted_nil)|]; intros l r [-> ->];
    exists []; split_and!; [done|cbn; lia|by rewrite app_nil_r|lia|intros [?|?]; [lia|done]|];
    intros l0 ds (dss & ds1 & H); rewrite !app_nil_r; exists dss, ds1; intuition lia.
  intros s r s' H.
  apply w_bind_ok in H as ([chunk src1] & s1 & [Hc <-]%w_lift_ok & H). cbv beta iota in H.
  apply read_chunk_ok in Hc as [-> Hlen].
  apply w_bind_ok in H as (id & s0 & Ht & H).
  apply w_bind_ok in H as (n' & s1 & [Hf%fits_ok <-]%w_lift_ok & H).
  apply w_bind_ok in H as ([] & s2 & He & H). apply w_bind_ok in H as (g1 & s3 & Hg & H).
  apply logs_close_group in Hg as (l2 & T2 & HN & HC).
  apply IH in H as (l3 & T3 & HR); [|unfold MAX_DATA_BLOCK_PAYLOAD; lia].
  set (spec := mk_BlockSpec id (Data chunk) 2) in *. exists (spec :: l2 ++ l3).
  split; [econstructor; [done|done|by eapply emitted_app]|].
  destruct r as [[[g' size'] hashed'] src']. destruct HR as (data & -> & Hd & -> & -> & HN' & HR).
  assert (n' = size + size_of chunk) as ->.
  { unfold checked_add in Hf. destruct (_ <? _); [|done]. by injection Hf. }
  assert (size_of chunk = Z.min remaining MAX_DATA_BLOCK_PAYLOAD) as Hsz
    by (unfold size_of, MAX_DATA_BLOCK_PAYLOAD in *; lia).
  exists (chunk ++ data). split_and!.
  - by rewrite <- app_assoc.
  - rewrite length_app. unfold size_of in Hsz. lia.
  - by rewrite <- app_assoc.
  - lia.
  - intros _. apply HN', HN. by destruct g as [[|? ?] ?].
  - intros l0 ds Hgr. rewrite chunks_first; [|done| |].
    2: { intros ->. unfold size_of, MAX_DATA_BLOCK_PAYLOAD in Hsz. cbn [length] in Hsz. lia. }
    2: { unfold size_of, MAX_DATA_BLOCK_PAYLOAD in *. lia. }
    apply take_block_id_ok in Ht as (Hn & _). apply new_is_internal in Hn.
    rewrite <- Hsz in HC, HR.
    destruct (groups_leaf l0 spec ds remaining g chunk id Hgr Hpos eq_refl Hn) as (Hle & Hex & Ho).
    specialize (HC (l0 ++ [spec]) (ds ++ [chunk]) Hle Hex Ho). apply HR in HC.
    rewrite <- !app_assoc in HC. exact HC.
Qed.

Lemma logs_emit_root c z xs :
  xs <> [] ->
  logs emitted (emit_root c z xs) (fun l root => forall l0 dss,
    Forall2 (xblock_holds l0) dss xs -> in_order xs l0 -> tree_holds (l0 ++ l) root (concat dss)).
Proof.
  intros Hxs.
  assert (logs emitted (if MAX_DATA_TREE_ENTRIES <? Z.of_nat (length xs) then w_lift (Err (ValueTooLarge c))
          else let^ x := emit_xblock z 2 xs in w_ret x.1)
    (fun l root => forall l0 dss, Forall2 (xblock_holds l0) dss xs -> in_order xs l0 ->
       tree_holds (l0 ++ l) root (concat dss))) as Hxx.
  { destruct (Z.ltb_spec MAX_DATA_TREE_ENTRIES (Z.of_nat (length xs))).
    { eapply logs_weaken; [apply (logs_lift _ emitted_nil)|]. by intros ? ? [_ [=]]. }
    eapply logs_weaken; [eapply logs_bind; [apply emitted_app|apply logs_emit_xblock|intros ?; apply (logs_ret _ emitted_nil)]|].
    cbn beta. intros l root (l1 & l2 & p & -> & (Hin & Ht & Hi) & -> & ->) l0 dss Hx Ho. rewrite app_nil_r.
    right. right. exists dss, xs.
    split_and!; [done| | |lia|done|eapply in_order_mono; [by apply sublist_inserts_r|exact Ho]].
    - apply elem_of_app. right. by rewrite <- (xblocks_total _ _ _ _ Hx Ht).
    - eapply Forall2_impl; [exact Hx|]. intros. eapply xblock_holds_mono; [apply app_subseteq_l|done]. }
  destruct xs as [|[id t] [|p xs]]; [done| |done].
  eapply logs_weaken; [apply (logs_ret _ emitted_nil)|]. intros l root [-> ->] l0 dss Hx _. rewrite app_nil_r.
  inversion Hx as [|ds p dss' ? Hp Hnil]; subst. inversion Hnil; subst. cbn [concat]. rewrite app_nil_r.
  right. left. pose proof Hp as (g & _ & _ & Et & _). cbn in Et. by subst t.
Qed.

(** The XBLOCKs with the one over the last leaves. *)
Lemma logs_last_xblock what leaves xblocks :
  (leaves <> [] \/ xblocks <> []) ->
  logs emitted
    (match leaves with
     | [] => w_ret xblocks
     | _ => let^ x := emit_xblock what 1 leaves in w_ret (xblocks ++ [x])
     end) (fun l xs => xs <> [] /\ forall l0 ds, groups_hold l0 ds 0 (leaves, xblocks) ->
      in_order xs (l0 ++ l) /\ exists dss, ds = concat dss /\ Forall2 (xblock_holds (l0 ++ l)) dss xs).
Proof.
  intros Hne. destruct leaves as [|p leaves].
  - eapply logs_weaken; [apply (logs_ret _ emitted_nil)|]. intros l xs [-> ->]. split; [by destruct Hne|].
    intros l0 ds (dss & ds1 & -> & H2 & H1 & Ho & _). inversion H1; subst. rewrite !app_nil_r.
    split; [done|]. by exists dss.
  - eapply logs_weaken; [eapply logs_bind; [apply emitted_app|apply logs_emit_xblock|intros ?; apply (logs_ret _ emitted_nil)]|].
    cbn beta. intros l xs (l1 & l2 & x & -> & (Hin & Ht & Hi) & -> & ->). rewrite app_nil_r.
    split; [by destruct xblocks|]. intros l0 ds (dss & ds1 & -> & H2 & H1 & Ho & Hle & _).
    split; [by eapply in_order_snoc|]. exists (dss ++ [ds1]). rewrite concat_app. cbn [concat]. rewrite app_nil_r. split; [done|].
    apply Forall2_app.
    + eapply Forall2_impl; [exact H2|]. intros. eapply xblock_holds_mono; [apply app_subseteq_l|done].
    + constructor; [|constructor]. apply (groups_close _ _ (p :: leaves)); [|exact Hle| |exact Ht|exact Hi].
      * eapply Forall2_impl; [exact H1|]. intros. eapply leaf_holds_mono; [apply app_subseteq_l|done].
      * apply elem_of_app. by right.
Qed.

Lemma logs_finish_tree what c z leaves xblocks :
  (leaves <> [] \/ xblocks <> []) ->
  logs emitted (finish_tree what c z leaves xblocks) (fun l root => forall l0 ds,
    groups_hold l0 ds 0 (leaves, xblocks) -> tree_holds (l0 ++ l) root ds).
Proof.
  intros Hne.
  assert (logs emitted
    (let^ xblocks := match leaves with [] => w_ret xblocks
       | _ => let^ x := emit_xblock what 1 leaves in w_ret (xblocks ++ [x]) end in emit_root c z xblocks)
    (fun l root => forall l0 ds, groups_hold l0 ds 0 (leaves, xblocks) -> tree_holds (l0 ++ l) root ds)) as Hmany.
  { intros s root s' (xs & s1 & Hx & H)%w_bind_ok.
    apply (logs_last_xblock what leaves xblocks Hne) in Hx as (l1 & T1 & Hxs & Hgr).
    apply (logs_emit_root c z xs Hxs) in H as (l2 & T2 & Htree). exists (l1 ++ l2). split; [by eapply emitted_app|].
    intros l0 ds (Ho & dss & -> & Hx2)%Hgr. apply Htree in Hx2; [|done]. by rewrite <- app_assoc in Hx2. }
  unfold finish_tree.
  destruct xblocks as [|x xblocks]; [|done]. destruct leaves as [|[id n] [|p leaves]]; [done| |done].
  eapply logs_weaken; [apply (logs_ret _ emitted_nil)|]. intros l root [-> ->] l0 ds (dss & ds1 & -> & H2 & H1 & _).
  inversion H2; subst. cbn [concat app]. rewrite app_nil_r. apply (tree_over_leaf id n l0); done.
Qed.

(** A payload that is not empty. *)
Lemma logs_append_reader sha256 src byte_len expected eof :
  0 < byte_len ->
  logs emitted (append_reader_data_tree sha256 src byte_len expected eof) (fun l r =>
    let '(root, size, hash) := r in
    exists data rest, src = data ++ rest /\ Z.of_nat (length data) = byte_len /\ size = byte_len /\
      hash = sha256 data /\ (forall h, expected = Some h -> hash = h) /\ (eof = true -> rest = []) /\
      tree_holds l root (chunks MAX_DATA_BLOCK_PAYLOAD data)).
Proof.
  intros Hlen s [[root size] hash] s' H. unfold append_reader_data_tree in H.
  apply w_bind_ok in H as ([[[[leaves xblocks] size1] hashed] rest] & s1 & Hl & H).
  apply logs_reader_loop in Hl as (l1 & T1 & data & -> & Hd & -> & -> & HN & Hg); [|lia]. cbv beta iota zeta in H.
  apply w_bind_ok in H as ([] & s2 & [He <-]%w_lift_ok & H). apply ensure_ok in He.
  apply w_bind_ok in H as ([] & s3 & [Hr <-]%w_lift_ok & H). apply ensure_ok in Hr.
  assert (groups_hold ([] ++ l1) ([] ++ chunks MAX_DATA_BLOCK_PAYLOAD data) 0 (leaves, xblocks)) as Hgr.
  { apply Hg. exists [], []. split_and!; try constructor. cbn. unfold MAX_DATA_TREE_ENTRIES. lia. }
  cbn [app] in *.
  destruct leaves as [|p leaves].
  { exfalso. apply HN; [by left|done]. }
  apply w_bind_ok in H as (root' & s4 & Hf & H). unfold w_ret in H. injection H as <- <- <- <-.
  apply logs_finish_tree in Hf as (l2 & T2 & Htree); [|by left].
  exists (l1 ++ l2). split; [by eapply emitted_app|]. exists data, rest. split_and!; try done; try lia.
  - intros h ->. by apply bool_decide_eq_true in He.
  - intros ->. cbn [andb] in Hr. rewrite negb_involutive in Hr. by apply bool_decide_eq_true in Hr.
  - by apply Htree.
Qed.

(** ** Projection *)

(** The state of a stream that only projects. *)
Definition project (s : WriteState) : WriteState :=
  mk_WriteState (ws_next s) (ws_cursor s) (ws_written s) None (ws_flags s).

(** When [m] succeeds on a stream with a file, [n] succeeds on the projected
    stream, with a related result and the same extents, ids and checks. *)
Definition simulates {A B} (m : W WriteState A) (n : W WriteState B) (R : A -> B -> Prop) : Prop :=
  forall s a s', ws_file s <> None -> m s = (Ok a, s') ->
    ws_file s' <> None /\ exists b, n (project s) = (Ok b, project s') /\ R a b.

Lemma sim_ret {A B} (R : A -> B -> Prop) a b : R a b -> simulates (w_ret a) (w_ret b) R.
Proof. intros HR s a' s' Hf [= <- <-]. eauto. Qed.

Lemma sim_bind {A B A' B'} (R : A -> B -> Prop) (R' : A' -> B' -> Prop) m n k k' :
  simulates m n R -> (forall a b, R a b -> simulates (k a) (k' b) R') ->
  simulates (w_bind m k) (w_bind n k') R'.
Proof.
  intros Hm Hk s a s' Hf (x & s1 & Hx & H)%w_bind_ok.
  destruct (Hm s x s1 Hf Hx) as (Hf1 & y & Hn & HR). destruct (Hk x y HR s1 a s' Hf1 H) as (Hf' & b & Hb & HR').
  split; [done|]. exists b. split; [|done]. by rewrite (w_bind_eq _ _ _ _ _ Hn).
Qed.

Lemma sim_lift {A B} (m : wres A) (n : wres B) (R : A -> B -> Prop) :
  (forall a, m = Ok a -> exists b, n = Ok b /\ R a b) -> simulates (w_lift m) (w_lift n) R.
Proof.
  intros H s a s' Hf [Hm <-]%w_lift_ok. apply H in Hm as (b & -> & HR). split; [done|]. by exists b.
Qed.

Lemma sim_take internal : simulates (take_block_id internal) (take_block_id internal) eq.
Proof.
  intros s id s' Hf H. pose proof H as (Hn & -> & Hlt)%take_block_id_ok. split; [done|]. exists id. split; [|done].
  unfold take_block_id, w_bind, w_get, w_lift, w_modify in *. cbn in *.
  destruct (fits _ _); [|done..]. cbn in *. destruct (if internal then _ else _); [|done..].
  by simplify_eq.
Qed.

(** Emitting a block and projecting one of the same id and size. *)
Lemma sim_emit id payload payload' rc :
  logical_size payload = logical_size payload' ->
  simulates (emit (mk_BlockSpec id payload rc)) (emit (mk_BlockSpec id payload' rc)) eq.
Proof.
  intros Hl s [] s' Hf H. apply emit_ok in H as (w & s1 & Hw & ->); [|done].
  apply write_block_ok in Hw as (f & f' & size & phys & o & e & t & Hf' & Hfl & Hs & Ha & _ & _ & -> & ->).
  split; [done|]. exists tt. split; [|done]. cbn [bs_payload bs_id bs_ref_count] in *.
  assert (block_sizes payload' = Ok (size, phys)) as Hs' by (unfold block_sizes in *; by rewrite <- Hl).
  by rewrite (emit_projected _ _ size phys o e).
Qed.

(** Results that are the same. *)
Lemma sim_emit_xblock what what' level g :
  simulates (emit_xblock what level g) (emit_xblock what' level g) eq.
Proof.
  unfold emit_xblock. apply (sim_bind eq); [|intros t ? <-].
  { apply sim_lift. intros t Ht. exists t. split; [|done]. apply fits_ok in Ht. by apply fits_ok. }
  apply (sim_bind eq); [apply sim_take|intros id ? <-].
  apply (sim_bind eq); [by apply sim_emit|intros ? ? _]. by apply sim_ret.
Qed.

Lemma sim_close_group what what' remaining g :
  simulates (close_group what remaining g) (close_group what' remaining g) eq.
Proof.
  destruct g as [leaves xblocks]. unfold close_group. destruct (_ && _); [|by apply sim_ret].
  apply (sim_bind eq); [apply sim_emit_xblock|intros x ? <-]. by apply sim_ret.
Qed.

Lemma sim_emit_root c z c' z' xblocks : simulates (emit_root c z xblocks) (emit_root c' z' xblocks) eq.
Proof.
  assert (simulates
    (if MAX_DATA_TREE_ENTRIES <? Z.of_nat (length xblocks) then w_lift (Err (ValueTooLarge c)) else
       let^ x := emit_xblock z 2 xblocks in w_ret x.1)
    (if MAX_DATA_TREE_ENTRIES <? Z.of_nat (length xblocks) then w_lift (Err (ValueTooLarge c')) else
       let^ x := emit_xblock z' 2 xblocks in w_ret x.1) eq) as Hxx.
  { destruct (_ <? _); [by apply sim_lift|].
    apply (sim_bind eq); [apply sim_emit_xblock|intros x ? <-]. by apply sim_ret. }
  destruct xblocks as [|[id t] [|x xblocks]]; [done|by apply sim_ret|done].
Qed.

Lemma sim_finish_tree what c z what' c' z' leaves xblocks :
  simulates (finish_tree what c z leaves xblocks) (finish_tree what' c' z' leaves xblocks) eq.
Proof.
  assert (simulates
    (let^ xblocks := match leaves with [] => w_ret xblocks
       | _ => let^ x := emit_xblock what 1 leaves in w_ret (xblocks ++ [x]) end in emit_root c z xblocks)
    (let^ xblocks := match leaves with [] => w_ret xblocks
       | _ => let^ x := emit_xblock what' 1 leaves in w_ret (xblocks ++ [x]) end in emit_root c' z' xblocks) eq)
    as Hmany.
  { apply (sim_bind eq); [|intros xs ? <-; apply sim_emit_root].
    destruct leaves; [by apply sim_ret|].
    apply (sim_bind eq); [apply sim_emit_xblock|intros x ? <-]. by apply sim_ret. }
  unfold finish_tree. destruct xblocks; [|done]. destruct leaves as [|[id n] [|p leaves]]; [done|by apply sim_ret|done].
Qed.

Lemma sim_loops fuel : forall remaining g size hashed src,
  simulates (reader_loop fuel remaining g size hashed src) (declared_loop fuel remaining g)
    (fun r g' => r.1.1.1 = g').
Proof.
  induction fuel as [|fuel IH]; intros remaining g size hashed src; cbn [reader_loop declared_loop];
    (destruct (Z.ltb_spec 0 remaining); [|by apply sim_ret]); [by apply sim_lift|].
  intros s r s' Hf H'.
  apply w_bind_ok in H' as ([chunk src1] & s1 & [Hc <-]%w_lift_ok & H'). cbv beta iota in H'.
  apply read_chunk_ok in Hc as [-> Hlen]. revert s r s' Hf H'.
  match goal with |- forall s r s', _ -> ?m s = _ -> _ => change (simulates m
    (let^ id := take_block_id false in
     let^ _ := emit (mk_BlockSpec id (ProjectedData (Z.min remaining MAX_DATA_BLOCK_PAYLOAD)) 2) in
     let^ g0 := close_group "direct data tree" (remaining - Z.min remaining MAX_DATA_BLOCK_PAYLOAD)
                  (g.1 ++ [(id, Z.min remaining MAX_DATA_BLOCK_PAYLOAD)], g.2) in
     declared_loop fuel (remaining - Z.min remaining MAX_DATA_BLOCK_PAYLOAD) g0) (fun r g' => r.1.1.1 = g')) end.
  apply (sim_bind eq); [apply sim_take|intros id ? <-].
  intros s r s' Hf (n & s1 & [_ <-]%w_lift_ok & H')%w_bind_ok. revert s r s' Hf H'.
  apply (sim_bind eq); [apply sim_emit|intros ? ? _].
  { cbn. unfold MAX_DATA_BLOCK_PAYLOAD in *. lia. }
  apply (sim_bind eq); [apply sim_close_group|intros g' ? <-]. apply IH.
Qed.

Lemma w_lift_run {S A B} (m : wres A) (k : A -> W S B) s b s' :
  w_bind (w_lift m) k s = (Ok b, s') -> exists a, m = Ok a /\ k a s = (Ok b, s').
Proof. intros (a & s0 & [Hm <-]%w_lift_ok & H)%w_bind_ok. eauto. Qed.

(** Projecting a payload of a declared length is writing it, without the
    file: whenever [append_reader_data_tree] streams a payload into a file, on
    the same stream without its file [append_declared_data_tree] of the length
    returns the same root and the same size and leaves the same cursor, block
    ids and written blocks, so that what was planned is what is written. *)
Theorem projection_is_writing sha256 src byte_len expected eof s root size hash s' :
  0 < byte_len -> ws_file s <> None ->
  append_reader_data_tree sha256 src byte_len expected eof s = (Ok (root, size, hash), s') ->
  append_declared_data_tree byte_len (project s) = (Ok (root, size), project s').
Proof.
  intros Hlen Hf H. pose proof H as (_ & _ & data & rest & _ & _ & -> & _)%logs_append_reader; [|done].
  unfold append_reader_data_tree in H.
  apply w_bind_ok in H as ([[[[leaves xblocks] size1] hashed] rest'] & s1 & Hl & H).
  pose proof Hl as (_ & _ & _ & _ & _ & _ & _ & HN & _)%logs_reader_loop; [|lia].
  destruct (sim_loops _ _ _ _ _ _ s _ s1 Hf Hl) as (Hf1 & g & Hd & E). cbn in E. subst g.
  cbv beta iota zeta in H.
  apply w_lift_run in H as ([] & _ & H). apply w_lift_run in H as ([] & _ & H).
  unfold append_declared_data_tree. erewrite w_bind_eq by exact Hd. cbv beta iota.
  destruct leaves as [|p leaves]; [exfalso; apply HN; [by left|done]|].
  apply w_bind_ok in H as (r & s2 & Hr & H). unfold w_ret in H. injection H as <- _ _ <-.
  destruct (sim_finish_tree _ _ _ "direct data tree" "direct XXBLOCK entry count" "direct XXBLOCK size"
    _ _ s1 r s2 Hf1 Hr) as (_ & r' & Hr' & <-).
  by erewrite w_bind_eq by exact Hr'.
Qed.

(** ** Trees in memory *)

Lemma pushed_vec s l s' :
  pushed s l s' -> vs_blocks s' = vs_blocks s ++ l /\ vs_next s' = vs_next s + Z.of_nat (length l).
Proof.
  induction 1 as [s|s internal id payload s0 s1 l s' Ht Hp _ [IHb IHn]].
  { rewrite app_nil_r. cbn. split; [done|lia]. }
  apply take_block_id_ok in Ht as (_ & -> & _). unfold push_block, w_modify in Hp. injection Hp as <-.
  rewrite IHb, IHn. cbn [vs_blocks vs_next set_next_block_index VecState_next next_block_index].
  rewrite <- app_assoc. cbn [length]. split; [done|lia].
Qed.

(** Block [i] of the runs of a list. *)
Lemma chunks_lookup {A} n (l : list A) i :
  0 < n -> (i < length (chunks n l))%nat ->
  chunks n l !! i = Some (take (Z.to_nat n) (drop (i * Z.to_nat n) l)).
Proof.
  intros Hn. revert l. induction i as [|i IH]; intros l Hi;
    (destruct (decide (l = [])) as [->|Hl]; [cbn in Hi; lia|]); rewrite chunks_cons in Hi by done;
    rewrite chunks_cons by done.
  { done. }
  cbn [lookup list_lookup]. cbn [length] in Hi. rewrite IH by lia. by rewrite drop_drop.
Qed.

(** Every run but the last, with its padding. *)
Fixpoint framed_blocks (cs : list (list Z)) : list (list Z) :=
  match cs with
  | [] => []
  | [c] => [c]
  | c :: cs => (c ++ replicate (Z.to_nat MAX_DATA_BLOCK_PAYLOAD - length c) 0) :: framed_blocks cs
  end.

Lemma frame_rows_blocks count index cs :
  Forall (fun c => 1 <= Z.of_nat (length c) <= MAX_DATA_BLOCK_PAYLOAD) cs ->
  (index + length cs = count)%nat ->
  chunks MAX_DATA_BLOCK_PAYLOAD (frame_rows count index cs) = framed_blocks cs.
Proof.
  intros Hcs. revert index. induction Hcs as [|c cs Hc Hcs IH]; intros index Hn; [done|].
  cbn [frame_rows length] in *. destruct cs as [|c' cs].
  - destruct (Nat.ltb_spec (index + 1) count); [cbn [length] in *; lia|]. cbn [frame_rows app].
    rewrite app_nil_r. assert (c <> []) by (intros ->; cbn in Hc; lia).
    rewrite <- (app_nil_r c) at 1. rewrite chunks_first; [done|done|done|cbn [length]; lia].
  - destruct (Nat.ltb_spec (index + 1) count); [|cbn [length] in *; lia]. rewrite app_assoc, chunks_first.
    + cbn [framed_blocks]. f_equal. apply IH. lia.
    + done.
    + destruct c; [cbn in Hc; lia|done].
    + rewrite length_app, length_replicate. unfold MAX_DATA_BLOCK_PAYLOAD in *. lia.
Qed.

Lemma framed_blocks_lookup cs i c :
  cs !! i = Some c -> exists pad, framed_blocks cs !! i = Some (c ++ pad).
Proof.
  revert i. induction cs as [|c' cs IH]; intros i Hi; [done|].
  destruct cs as [|c'' cs].
  { destruct i as [|i]; [|done]. cbn in *. injection Hi as ->. exists []. by rewrite app_nil_r. }
  destruct i as [|i]; [|by apply IH]. injection Hi as ->. by eexists.
Qed.

(** Building a data tree in memory.  When [append_data_tree] succeeds, it
    has pushed blocks with consecutive ids whose root is a data tree (a data
    block, an XBLOCK over data blocks or an XXBLOCK over XBLOCKs, none with
    more than 1021 entries) that holds exactly the bytes given, in order, in
    blocks of at most 8176 bytes. *)
Theorem append_data_tree_correct bytes s root s' :
  append_data_tree bytes s = (Ok root, s') ->
  exists l ds, vs_blocks s' = vs_blocks s ++ l /\ vs_next s' = vs_next s + Z.of_nat (length l) /\
    tree_holds l root ds /\ concat ds = bytes /\
    Forall (fun d => 1 <= Z.of_nat (length d) <= MAX_DATA_BLOCK_PAYLOAD) ds.
Proof.
  intros (l & [Hb Hn]%pushed_vec & Ht)%logs_append_data_tree_sized; [|done].
  destruct (chunks_spec MAX_DATA_BLOCK_PAYLOAD bytes ltac:(done)) as [Hc Hf].
  by exists l, (chunks MAX_DATA_BLOCK_PAYLOAD bytes).
Qed.

(** The blocks of a row matrix: runs of whole rows, each but the last padded
    to a full block. *)
Definition rows_chunk (row_size : Z) : Z := MAX_DATA_BLOCK_PAYLOAD / row_size * row_size.

Lemma append_row_matrix_blocks bytes row_size s root s' :
  0 <= row_size -> append_row_matrix_data_tree bytes row_size s = (Ok root, s') ->
  0 < row_size <= MAX_DATA_BLOCK_PAYLOAD /\ 1 <= MAX_DATA_BLOCK_PAYLOAD / row_size /\
  0 < rows_chunk row_size <= MAX_DATA_BLOCK_PAYLOAD /\
  exists l, pushed s l s' /\ tree_holds l root (framed_blocks (chunks (rows_chunk row_size) bytes)).
Proof.
  intros Hr H. unfold append_row_matrix_data_tree in H.
  destruct (Z.eqb_spec row_size 0) as [|Hr0]; [by apply w_lift_ok in H as [[=] _]|].
  destruct (Z.ltb_spec MAX_DATA_BLOCK_PAYLOAD row_size); [by apply w_lift_ok in H as [[=] _]|].
  cbn [orb] in H. fold (rows_chunk row_size) in H.
  apply w_lift_run in H as (? & _ & H). apply w_lift_run in H as (? & _ & H).
  assert (1 <= MAX_DATA_BLOCK_PAYLOAD / row_size) by (apply Z.div_le_lower_bound; lia).
  assert (0 < rows_chunk row_size <= MAX_DATA_BLOCK_PAYLOAD) as Hcs.
  { split; [unfold rows_chunk; nia|]. unfold rows_chunk. rewrite Z.mul_comm. apply Z.mul_div_le. lia. }
  split_and!; try lia. destruct (chunks_spec (rows_chunk row_size) bytes ltac:(lia)) as [_ Hf].
  apply logs_append_data_tree_sized in H as (l & Hp & Ht); [|done].
  rewrite <- length_chunks, Nat2Z.id in Ht by lia.
  rewrite frame_rows_blocks in Ht; [|eapply Forall_impl; [exact Hf|]; cbn; lia|done]. by exists l.
Qed.

(** A row matrix.  When [append_row_matrix_data_tree] succeeds, each row
    lies in one data block of the tree: row [k] is in block [k / n] at offset
    [(k mod n) * row_size], where [n] rows fit in a block. *)
Theorem append_row_matrix_correct bytes row_size s root s' :
  0 <= row_size -> append_row_matrix_data_tree bytes row_size s = (Ok root, s') ->
  exists l ds, vs_blocks s' = vs_blocks s ++ l /\ tree_holds l root ds /\
    let n := (Z.to_nat (MAX_DATA_BLOCK_PAYLOAD / row_size))%nat in
    let r := Z.to_nat row_size in
    forall k, ((k + 1) * r <= length bytes)%nat -> exists d, ds !! (k / n)%nat = Some d /\
      take r (drop (k mod n * r) d) = take r (drop (k * r) bytes).
Proof.
  intros Hr H. destruct (append_row_matrix_blocks _ _ _ _ _ Hr H) as (Hr0 & H1 & Hcs & l & [Hb _]%pushed_vec & Ht).
  set (chunk_size := rows_chunk row_size) in *. unfold rows_chunk in chunk_size.
  exists l, (framed_blocks (chunks chunk_size bytes)). split_and!; [done|done|].
  cbv zeta. set (n := Z.to_nat (MAX_DATA_BLOCK_PAYLOAD / row_size)). set (r := Z.to_nat row_size).
  assert (Z.to_nat chunk_size = n * r)%nat as Hnr by (unfold n, r, chunk_size; rewrite Z2Nat.inj_mul by lia; done).
  assert (0 < n)%nat as Hn by lia. intros k Hk.
  pose proof (Nat.div_mod k n ltac:(lia)) as Hdm. pose proof (Nat.mod_upper_bound k n ltac:(lia)) as Hm.
  set (q := (k / n)%nat) in *. set (o := (k mod n)%nat) in *.
  assert (q < length (chunks chunk_size bytes))%nat as Hq.
  { assert (q * (n * r) < length bytes)%nat by (unfold r in *; nia).
    pose proof (length_chunks chunk_size bytes ltac:(lia)) as Hlc.
    pose proof (div_ceil_spec (Z.of_nat (length bytes)) chunk_size ltac:(lia)) as Hdc. rewrite <- Hlc in Hdc.
    assert (chunk_size = Z.of_nat (n * r)) by lia. nia. }
  pose proof (chunks_lookup chunk_size bytes q ltac:(lia) Hq) as Hc.
  destruct (framed_blocks_lookup _ _ _ Hc) as [pad Hp]. eexists. split; [exact Hp|]. rewrite Hnr.
  assert (o * r + r <= n * r)%nat by nia. assert (q * (n * r) + o * r = k * r)%nat by nia.
  assert (k * r + r <= length bytes)%nat by lia.
  rewrite drop_app_le by (rewrite length_take, length_drop; lia).
  rewrite take_app_le by (rewrite length_drop, length_take, length_drop; lia).
  rewrite skipn_firstn_comm, take_take, drop_drop. do 2 f_equal; lia.
Qed.

(** ** Sub-node trees *)

Definition MAX_BLOCK_INDEX : Z := 2 ^ 62.

Lemma take_block_id_total {S} `{!NextIndex S} internal (s : S) :
  0 <= next_block_index s < MAX_BLOCK_INDEX ->
  exists id, take_block_id internal s = (Ok id, set_next_block_index (next_block_index s + 1) s).
Proof.
  unfold MAX_BLOCK_INDEX. intros Hn. pose proof (unicode_block_id_new internal (next_block_index s)) as H.
  change MAX_UNICODE_BLOCK_INDEX with (2 ^ 62 - 1) in H.
  destruct (Z.leb_spec (next_block_index s) (2 ^ 62 - 1)); [|lia].
  destruct H as (id & Hid & _); [split; lia|]. exists id.
  unfold take_block_id, w_bind, w_get, w_lift, w_modify, fits, checked_add.
  destruct (Z.ltb_spec (next_block_index s + 1) (2 ^ 64)); [|lia]. cbn [ok_or].
  unfold internal_bid, leaf_bid, structure. by destruct internal; rewrite Hid.
Qed.

(** The tree of root [root] among the blocks [l] has the entries [es], in
    order: in a leaf, or in leaves below a block of level 1. *)
Definition subnode_leaf_holds (l : list BlockSpec) (g : list LeafEntry) (p : IntermediateEntry) : Prop :=
  mk_BlockSpec (sie_block p) (Subnode g) 2 ∈ l /\ first_node (map LeafSubNodeTreeEntry.node g) = Ok (sie_node p) /\
  UnicodeBlockId.is_internal (sie_block p) = true.

Definition subnode_tree_holds (l : list BlockSpec) (root : UnicodeBlockId) (es : list LeafEntry) : Prop :=
  (mk_BlockSpec root (Subnode es) 2 ∈ l /\ Z.of_nat (length es) <= SUBNODE_LEAF_CAPACITY) \/
  exists gs ps, es = concat gs /\ mk_BlockSpec root (IntermediateSubnode 1 ps) 2 ∈ l /\
    Forall2 (subnode_leaf_holds l) gs ps /\
    Forall (fun g => 1 <= Z.of_nat (length g) <= SUBNODE_LEAF_CAPACITY) gs /\
    Z.of_nat (length ps) <= SUBNODE_INTERMEDIATE_CAPACITY.

Lemma subnode_leaf_mono l1 l2 l3 g p : subnode_leaf_holds l2 g p -> subnode_leaf_holds (l1 ++ l2 ++ l3) g p.
Proof. intros (? & ? & ?). split_and!; [set_solver|done|done]. Qed.

(** One leaf: it is pushed when there is an id. *)
Lemma push_subnode_leaf_run g s :
  g <> [] -> 0 <= vs_next s < MAX_BLOCK_INDEX ->
  exists p s', push_subnode_leaf g s = (Ok p, s') /\ vs_next s' = vs_next s + 1 /\
    vs_blocks s' = vs_blocks s ++ [mk_BlockSpec (sie_block p) (Subnode g) 2] /\
    first_node (map LeafSubNodeTreeEntry.node g) = Ok (sie_node p) /\
    UnicodeBlockId.is_internal (sie_block p) = true.
Proof.
  intros Hg Hn. destruct (take_block_id_total true s) as [id Hid]; [exact Hn|]. unfold push_subnode_leaf.
  erewrite w_bind_eq by exact Hid. destruct g as [|e g]; [done|]. cbn.
  do 2 eexists. split; [reflexivity|]. cbn. split_and!; try done.
  apply take_block_id_ok in Hid as (Hi & _). by eapply new_is_internal.
Qed.

Lemma push_subnode_leaves_run gs : forall s,
  Forall (fun g => g <> []) gs -> 0 <= vs_next s -> vs_next s + Z.of_nat (length gs) <= MAX_BLOCK_INDEX ->
  exists ps l s', w_map push_subnode_leaf gs s = (Ok ps, s') /\ vs_next s' = vs_next s + Z.of_nat (length gs) /\
    vs_blocks s' = vs_blocks s ++ l /\ Forall2 (subnode_leaf_holds l) gs ps.
Proof.
  induction gs as [|g gs IH]; intros s Hg H0 Hn; cbn [w_map length] in *.
  { exists [], [], s. rewrite app_nil_r. split_and!; try done. lia. }
  inversion Hg as [|? ? Hg1 Hgs]; subst.
  destruct (push_subnode_leaf_run g s Hg1 ltac:(lia)) as (p & s1 & Hp & Hn1 & Hb1 & Hf & Hi).
  destruct (IH s1 Hgs ltac:(lia) ltac:(lia)) as (ps & l & s2 & Hps & Hn2 & Hb2 & Hall).
  exists (p :: ps), ([mk_BlockSpec (sie_block p) (Subnode g) 2] ++ l), s2.
  erewrite w_bind_eq by exact Hp. erewrite w_bind_eq by exact Hps. split_and!; [done|lia| |].
  - by rewrite Hb2, Hb1, <- app_assoc.
  - constructor; [split_and!; [by left|done|done]|]. eapply Forall2_impl; [exact Hall|]. intros g' p' H.
    rewrite <- (app_nil_r l). by apply subnode_leaf_mono.
Qed.

(** The runs of a permitted number of entries. *)
Lemma subnode_runs (es : list LeafEntry) :
  es <> [] -> Z.of_nat (length es) <= MAX_SUBNODE_TREE_ENTRIES ->
  let gs := chunks SUBNODE_LEAF_CAPACITY es in
  concat gs = es /\ Forall (fun g => 1 <= Z.of_nat (length g) <= SUBNODE_LEAF_CAPACITY) gs /\
  gs <> [] /\ Z.of_nat (length gs) <= SUBNODE_INTERMEDIATE_CAPACITY.
Proof.
  intros Hne Hmax gs. destruct (chunks_spec SUBNODE_LEAF_CAPACITY es ltac:(done)) as [Hc Hf].
  split_and!; [done|done|by apply chunks_nonempty|]. unfold gs. rewrite length_chunks by done.
  apply div_ceil_least; [done|]. unfold MAX_SUBNODE_TREE_ENTRIES in Hmax. lia.
Qed.

Lemma chunks_one {A} n (l : list A) : l <> [] -> Z.of_nat (length l) <= n -> chunks n l = [l].
Proof.
  intros Hl Hn. assert (0 < n) by (destruct l; [done|cbn in Hn; lia]). rewrite chunks_cons by done.
  rewrite take_ge, drop_ge by lia. done.
Qed.

Lemma sort_leaf_entries_perm es : Permutation (sort_leaf_entries es) es.
Proof. apply (sort_by_perm (by_key _ Z.compare)). Qed.

Lemma sort_leaf_entries_sorted es :
  StronglySorted (fun a b => node_id_0 (LeafSubNodeTreeEntry.node a) <= node_id_0 (LeafSubNodeTreeEntry.node b))
    (sort_leaf_entries es).
Proof.
  pose proof (sort_by_sorted (by_key (fun e : LeafEntry => node_id_0 (LeafSubNodeTreeEntry.node e)) Z.compare) es) as H.
  unfold sort_leaf_entries. induction H as [|e l _ IH Hl]; constructor; [done|].
  eapply Forall_impl; [exact Hl|]. intros a. exact (fun H => H).
Qed.

(** *** What a builder that succeeds has pushed *)

Lemma logs_push_subnode_leaf g : logs pushed (push_subnode_leaf g) (fun l p => subnode_leaf_holds l g p).
Proof.
  eapply logs_weaken; [unfold push_subnode_leaf; logs_tac|].
  intros l p (id & l2 & -> & Hi & l3 & l4 & n & -> & [-> Hn] & -> & ->). by split_and!; [left|..].
Qed.

Lemma logs_push_subnode_parent level g :
  logs pushed (push_subnode_parent level g) (fun l p => l = [mk_BlockSpec (sie_block p) (IntermediateSubnode level g) 2]).
Proof.
  eapply logs_weaken; [unfold push_subnode_parent; logs_tac|].
  by intros l p (id & l2 & -> & Hi & l3 & l4 & n & -> & [-> Hn] & -> & ->).
Qed.

Lemma logs_append_subnode_tree entries :
  logs pushed (append_subnode_tree entries) (fun l root => subnode_tree_holds l root (sort_leaf_entries entries)).
Proof.
  intros s root s' H. unfold append_subnode_tree in H. apply w_lift_run in H as (u & Hc & H).
  unfold check_subnode_entries in Hc. destruct (bool_decide_reflect (entries = [])) as [|Hne]; [done|].
  destruct (Z.ltb_spec MAX_SUBNODE_TREE_ENTRIES (Z.of_nat (length entries))) as [|Hm]; [done|].
  pose proof (sort_leaf_entries_perm entries) as Hp. set (es := sort_leaf_entries entries) in *. clear Hc u.
  assert (es <> []) as Hes by (intros Ee; rewrite Ee in Hp; by apply Permutation_nil in Hp).
  pose proof (Permutation_length Hp) as Hpl. destruct (subnode_runs es Hes ltac:(lia)) as (Hc & Hf & Hg & Hgl).
  set (gs := chunks SUBNODE_LEAF_CAPACITY es) in *. apply w_bind_ok in H as (ps & s1 & Hps & H).
  apply (logs_map pushed pushed_nil pushed_app push_subnode_leaf subnode_leaf_holds sie_block) in Hps as (l & Hl & Hall & _);
    [|intros; by apply subnode_leaf_mono|intros l g p (Hin & _); by apply (spec_in_ids _ _ Hin)|apply logs_push_subnode_leaf].
  pose proof (Forall2_length _ _ _ Hall) as Hlen. destruct ps as [|p [|p2 ps]].
  - destruct gs; [done|cbn in Hlen; lia].
  - cbn [subnode_levels] in H. injection H as <- <-. exists l. split; [done|]. left.
    destruct gs as [|g [|g2 gs']] eqn:Eg; [done| |by inversion Hall as [|? ? ? ? _ Hnil]; inversion Hnil].
    cbn in Hc. rewrite app_nil_r in Hc. subst g. inversion Hall as [|? ? ? ? (Hin & _) _]; subst. split; [done|].
    inversion Hf. lia.
  - cbn [subnode_levels] in H. rewrite chunks_one in H by (done || lia). cbn [w_map] in H.
    apply w_bind_ok in H as (parents & s2 & Hpar & H). apply w_bind_ok in Hpar as (par & s3 & Hpar & Hr).
    injection Hr as <- <-. apply logs_push_subnode_parent in Hpar as (lp & Hlp & ->).
    apply w_lift_run in H as (lv & _ & H). injection H as <- <-.
    eexists (l ++ [_]). split; [by eapply pushed_app|]. right. exists gs, (p :: p2 :: ps).
    split_and!; [done|set_solver| |done|lia]. eapply Forall2_impl; [exact Hall|]. intros g q Hgq. by apply (subnode_leaf_mono []).
Qed.

(** Building a sub-node tree.  The entries must not be empty nor more than
    173400; within that, and while block ids last, [append_subnode_tree] ends
    and pushes blocks whose root is a tree of the entries sorted by node,
    stably: one leaf of at most 340 entries, or a block of level 1 over at most
    510 such leaves, each under the node of its first entry. *)
Theorem append_subnode_tree_correct entries s :
  0 <= vs_next s -> vs_next s + 511 <= MAX_BLOCK_INDEX ->
  match append_subnode_tree entries s with
  | (Ok root, s') => entries <> [] /\ Z.of_nat (length entries) <= MAX_SUBNODE_TREE_ENTRIES /\
      exists l, vs_blocks s' = vs_blocks s ++ l /\ subnode_tree_holds l root (sort_leaf_entries entries) /\
      Permutation (sort_leaf_entries entries) entries /\
      StronglySorted (fun a b => node_id_0 (LeafSubNodeTreeEntry.node a) <= node_id_0 (LeafSubNodeTreeEntry.node b))
        (sort_leaf_entries entries)
  | (Err e, s') => s' = s /\
      (entries = [] /\ e = InvalidStructure "subnode tree must contain entries" \/
       MAX_SUBNODE_TREE_ENTRIES < Z.of_nat (length entries) /\ e = ValueTooLarge "subnode tree entry count")
  | (Panic, _) => False
  end.
Proof.
  intros H0 Hn. unfold append_subnode_tree, check_subnode_entries.
  destruct (bool_decide_reflect (entries = [])) as [E|E]; [by split; [|left]|].
  destruct (Z.ltb_spec MAX_SUBNODE_TREE_ENTRIES (Z.of_nat (length entries))) as [Hm|Hm]; [by split; [|right]|].
  cbn [w_bind w_lift]. pose proof (sort_leaf_entries_perm entries) as Hp.
  set (es := sort_leaf_entries entries) in *.
  assert (es <> []) as Hes by (intros Ee; rewrite Ee in Hp; by apply Permutation_nil in Hp).
  pose proof (Permutation_length Hp) as Hpl.
  destruct (subnode_runs es Hes ltac:(lia)) as (Hc & Hf & Hg & Hgl).
  set (gs := chunks SUBNODE_LEAF_CAPACITY es) in *.
  destruct (push_subnode_leaves_run gs s) as (ps & l & s1 & Hps & Hn1 & Hb & Hall); [|done| |].
  { eapply Forall_impl; [exact Hf|]. intros g Hgg ->. cbn in Hgg. lia. }
  { change SUBNODE_INTERMEDIATE_CAPACITY with 510 in Hgl. lia. }
  erewrite w_bind_eq by exact Hps. pose proof (Forall2_length _ _ _ Hall) as Hlen.
  pose proof (sort_leaf_entries_sorted entries) as Hsorted. fold es in Hsorted.
  destruct ps as [|p [|p2 ps]].
  - destruct gs; [done|cbn in Hlen; lia].
  - cbn [subnode_levels]. split; [done|]. split; [lia|]. exists l. split_and!; [done| |done|done]. left.
    inversion Hall as [|g ? gs' ? (Hin & _) Hnil Egs]; subst. inversion Hnil; subst.
    rewrite <- Egs in Hc, Hf. cbn in Hc. rewrite app_nil_r in Hc. subst g. split; [done|]. inversion Hf. lia.
  - cbn [subnode_levels]. rewrite chunks_one by (done || lia). cbn [w_map].
    destruct (take_block_id_total true s1) as [id Hid].
    { cbn. change SUBNODE_INTERMEDIATE_CAPACITY with 510 in Hgl. lia. }
    unfold push_subnode_parent. unfold w_bind at 1 2 3. rewrite Hid. cbn.
    split; [done|]. split; [lia|].
    exists (l ++ [mk_BlockSpec id (IntermediateSubnode 1 (p :: p2 :: ps)) 2]).
    split_and!; [by rewrite Hb, <- app_assoc| |done|done]. right. exists gs, (p :: p2 :: ps).
    split_and!; [done|set_solver| |done|lia].
    eapply Forall2_impl; [exact Hall|]. intros g q H. by apply (subnode_leaf_mono []).
Qed.

(** ** Examples *)

Definition sample_stream : WriteState := mk_WriteState 28 FIRST_DATA [] (Some (mk_wfile [] 0)) [].

(** A payload of two data blocks, under an XBLOCK. *)
Lemma projection_is_writing_witness :
  exists s', append_declared_data_tree 8180 (project sample_stream) = (Ok (mk_UnicodeBlockId 122, 8180), project s') /\
    (length (ws_written s') = 3)%nat.
Proof.
  destruct (append_reader_data_tree (fun _ => []) (replicate (Z.to_nat 8180) 7) 8180 None true sample_stream)
    as [r s'] eqn:E.
  assert (r = Ok (mk_UnicodeBlockId 122, 8180, [])) as Er
    by (replace r with (fst (r, s')) by done; rewrite <- E; vm_compute; reflexivity).
  exists s'. split.
  - rewrite Er in E. by apply (projection_is_writing (fun _ => []) (replicate (Z.to_nat 8180) 7) 8180 None true sample_stream
      (mk_UnicodeBlockId 122) 8180 [] s' eq_refl).
  - replace s' with (snd (r, s')) by done. rewrite <- E. vm_compute. reflexivity.
Defined.

Lemma append_data_tree_correct_witness :
  exists s' l ds, append_data_tree [1; 2; 3] (mk_VecState 28 []) = (Ok (mk_UnicodeBlockId 112), s') /\
    vs_blocks s' = l /\ tree_holds l (mk_UnicodeBlockId 112) ds /\ concat ds = [1; 2; 3].
Proof.
  destruct (append_data_tree_correct [1; 2; 3] (mk_VecState 28 []) (mk_UnicodeBlockId 112)
    (mk_VecState 29 [mk_BlockSpec (mk_UnicodeBlockId 112) (Data [1; 2; 3]) 2]))
    as (l & ds & Hl & _ & Ht & Hc & _); [vm_compute; reflexivity|].
  exists (mk_VecState 29 [mk_BlockSpec (mk_UnicodeBlockId 112) (Data [1; 2; 3]) 2]), l, ds.
  split_and!; [vm_compute; reflexivity|exact Hl|exact Ht|exact Hc].
Defined.

(** Two rows of 5000 bytes, each in a block of its own. *)
Lemma append_row_matrix_correct_witness :
  exists s' l ds, append_row_matrix_data_tree (replicate (Z.to_nat 10000) 9) 5000 (mk_VecState 28 []) =
      (Ok (mk_UnicodeBlockId 122), s') /\ tree_holds l (mk_UnicodeBlockId 122) ds /\
    exists d, ds !! 1%nat = Some d /\ take (Z.to_nat 5000) (drop 0 d) =
      take (Z.to_nat 5000) (drop (1 * Z.to_nat 5000) (replicate (Z.to_nat 10000) 9)).
Proof.
  destruct (append_row_matrix_data_tree (replicate (Z.to_nat 10000) 9) 5000 (mk_VecState 28 [])) as [r s'] eqn:E.
  assert (r = Ok (mk_UnicodeBlockId 122)) as Er
    by (replace r with (fst (r, s')) by done; rewrite <- E; vm_compute; reflexivity).
  rewrite Er in E |- *.
  destruct (append_row_matrix_correct (replicate (Z.to_nat 10000) 9) 5000 (mk_VecState 28 []) (mk_UnicodeBlockId 122) s'
    ltac:(lia) E) as (l & ds & _ & Ht & Hrow). exists s', l, ds. split; [reflexivity|]. split; [exact Ht|].
  destruct (Hrow 1%nat) as (d & Hd & Hrows); [apply Nat.leb_le; vm_compute; reflexivity|].
  exists d. split; [exact Hd|exact Hrows].
Defined.

Definition sample_leaf_entry (node : Z) : LeafEntry :=
  LeafSubNodeTreeEntry.new (mk_NodeId node) (mk_UnicodeBlockId 4) None.

Lemma append_subnode_tree_correct_witness :
  exists s' l, append_subnode_tree [sample_leaf_entry 9; sample_leaf_entry 5] (mk_VecState 28 []) =
      (Ok (mk_UnicodeBlockId 114), s') /\ vs_blocks s' = l /\
    subnode_tree_holds l (mk_UnicodeBlockId 114) [sample_leaf_entry 5; sample_leaf_entry 9].
Proof.
  pose proof (append_subnode_tree_correct [sample_leaf_entry 9; sample_leaf_entry 5] (mk_VecState 28 [])
    ltac:(done) ltac:(done)) as H.
  assert (append_subnode_tree [sample_leaf_entry 9; sample_leaf_entry 5] (mk_VecState 28 []) =
    (Ok (mk_UnicodeBlockId 114), mk_VecState 29 [mk_BlockSpec (mk_UnicodeBlockId 114)
      (Subnode [sample_leaf_entry 5; sample_leaf_entry 9]) 2])) as E by (vm_compute; reflexivity).
  rewrite E in H. destruct H as (_ & _ & l & Hl & Ht & _).
  eexists _, l. split; [exact E|]. split; [exact Hl|].
  assert (sort_leaf_entries [sample_leaf_entry 9; sample_leaf_entry 5] = [sample_leaf_entry 5; sample_leaf_entry 9])
    as <- by (vm_compute; reflexivity). exact Ht.
Defined.
