(* ===== verification/WriterDisk.v ===== *)
(** * What the writer leaves in the file

    The blocks that [BlockStream::emit] writes are read back by the readers of
    the file ([DataTree.read], [SubNodeTree.read]), stay readable whatever is
    emitted after them, and a data tree that was streamed into a file is
    delivered byte for byte by [streaming_reader]. *)
From S2P Require Import Prelude Errors Io Crc Encode Ids Header Page BTree Block Lookup DataTree.
From S2P Require Import Amap Alloc WriterBlocks WriterTree.
#[local] Open Scope Z_scope.

(** ** Reading a part of the file that did not change *)

Lemma read_exact_frame Q d d' p n bs u :
  agree Q d d' -> (forall o, span (Z.of_nat p) (Z.of_nat n) o -> ~ Q o) ->
  read_exact n (drop p d) = Ok (bs, u) -> exists u', read_exact n (drop p d') = Ok (bs, u').
Proof.
  intros Hq Hs [E Hn]%read_exact_ok. exists (drop (p + n) d'). apply read_exact_ok. split; [|done].
  assert (length d = p + (n + length u) \/ n = 0)%nat as Hd.
  { apply (f_equal length) in E. rewrite length_drop, length_app, Hn in E. lia. }
  rewrite <- (take_drop n (drop p d')) at 1. rewrite drop_drop. f_equal.
  apply list_eq. intros i. destruct (Nat.lt_ge_cases i n) as [Hi|Hi].
  - rewrite lookup_take_lt by done. rewrite lookup_drop, Hq; [|lia|apply Hs; unfold span; lia].
    rewrite <- lookup_drop, E, lookup_app_l by lia. done.
  - rewrite lookup_take_ge, lookup_ge_None_2 by lia. done.
Qed.

Abbreviation Entry := UnicodeBlockBTreeEntry.t.

(** The entry of the block B-tree for a written block, as [write_bbt] makes
    it. *)
Definition entry_of (w : WrittenBlock) : Entry :=
  UnicodeBlockBTreeEntry.new_with_ref_count
    (mk_BlockRef (wb_id w) (mk_UnicodeByteIndex (wb_offset w))) (wb_size w) (wb_ref_count w).

(** The bytes that a block takes. *)
Definition physical (size : Z) : Z := div_ceil (size + 16) 64 * 64.

Lemma block_size_physical size n : block_size (size + 16) = Ok n -> n = physical size.
Proof. unfold block_size, physical. destruct (_ || _); congruence. Qed.

Lemma read_physical_frame Q d d' e bs u :
  0 <= bi_index (bref_index (bbe_block (E := Entry) e)) ->
  agree Q d d' ->
  (forall o, span (bi_index (bref_index (bbe_block e))) (physical (bbe_size e)) o -> ~ Q o) ->
  read_physical e (drop (Z.to_nat (bi_index (bref_index (bbe_block e)))) d) = Ok (bs, u) ->
  exists u', read_physical e (drop (Z.to_nat (bi_index (bref_index (bbe_block e)))) d') = Ok (bs, u').
Proof.
  intros H0 Hq Hs H. unfold read_physical in *.
  apply rd_bind_ok in H as (n & u1 & [Hn <-]%rd_lift_ok & H).
  apply rd_bind_ok in H as (b & u1 & [Hb <-]%rd_lift_ok & H).
  eapply read_exact_frame in H as [u' H]; [|exact Hq|].
  - exists u'. unfold rd_bind, rd_lift. rewrite Hn. cbn [rbind]. rewrite Hb. cbn [rbind]. exact H.
  - apply ndb_ok in Hn. unfold checked_add in Hn. destruct (_ <? _) in Hn; [|done]. injection Hn as <-.
    change (TRAILER_SIZE (B := UnicodeBlockId)) with 16 in Hb. apply block_size_physical in Hb as ->.
    intros o Ho. apply Hs. unfold span in *. cbn [bbe_size UnicodeBlockBTreeEntry_block] in *. lia.
Qed.

(** The bytes of the block of an entry. *)
Definition block_span (e : Entry) : Z -> Prop := span (bi_index (bref_index (bbe_block e))) (physical (bbe_size e)).

(** Blocks outside the changed part read as before. *)
Lemma data_tree_read_frame Q d d' enc (e : Entry) t :
  0 <= bi_index (bref_index (bbe_block e)) -> agree Q d d' -> (forall o, block_span e o -> ~ Q o) ->
  DataTree.read d enc e = Ok t -> DataTree.read d' enc e = Ok t.
Proof.
  unfold DataTree.read, read_at, DataTree.read_block. intros H0 Hq Hs H.
  apply rbind_ok in H as ([t' u] & H & [= <-]). apply rd_bind_ok in H as (bs & u1 & Hb & H).
  eapply read_physical_frame in Hb as [u' Hb]; [|done..].
  assert (exists u2, (if bid_is_internal (bref_block (bbe_block e))
     then header <- with_cursor bs (ser_read (A := DataTreeBlockHeader));;
          b <- with_cursor bs (IntermediateTreeBlock.read header (bbe_size e));;
          rd_ret (DataTree_Intermediate b)
     else b <- with_cursor bs (DataBlock.read (bbe_size e) enc);; rd_ret (DataTree_Leaf b)) u' = Ok (t', u2)) as [u2 H2].
  { destruct (bid_is_internal _).
    - apply rd_bind_ok in H as (h & u2 & [Hh _]%with_cursor_ok & H).
      apply rd_bind_ok in H as (b & u3 & [Hi _]%with_cursor_ok & [= <- _]).
      destruct Hh as [? Hh], Hi as [? Hi].
      erewrite rd_bind_eq by (by eapply with_cursor_eq). erewrite rd_bind_eq by (by eapply with_cursor_eq).
      by eexists.
    - apply rd_bind_ok in H as (b & u3 & [[? Hi] _]%with_cursor_ok & [= <- _]).
      erewrite rd_bind_eq by (by eapply with_cursor_eq). by eexists. }
  erewrite rd_bind_eq by exact Hb. by rewrite H2.
Qed.

Lemma sub_node_tree_read_frame Q d d' (e : Entry) t :
  0 <= bi_index (bref_index (bbe_block e)) -> agree Q d d' -> (forall o, block_span e o -> ~ Q o) ->
  SubNodeTree.read d e = Ok t -> SubNodeTree.read d' e = Ok t.
Proof.
  unfold SubNodeTree.read, read_at, SubNodeTree.read_block. intros H0 Hq Hs H.
  apply rbind_ok in H as ([t' u] & H & [= <-]). apply rd_bind_ok in H as (bs & u1 & Hb & H).
  eapply read_physical_frame in Hb as [u' Hb]; [|done..].
  apply rd_bind_ok in H as (h & u2 & [[? Hh] _]%with_cursor_ok & H).
  erewrite rd_bind_eq by exact Hb. erewrite rd_bind_eq by (by eapply with_cursor_eq).
  destruct (0 <? _);
    (apply rd_bind_ok in H as (b & u3 & [[? Hi] _]%with_cursor_ok & [= <- _]);
     by erewrite rd_bind_eq by (by eapply with_cursor_eq)).
Qed.

(** ** Where a block writes *)

Lemma write_gap_frame a b gap pos f n :
  0 <= pos -> 0 <= gap -> Z.of_nat (length a) + gap + Z.of_nat (length b) = n ->
  frame (span pos n) (wf_data f) (wf_data (write_all b (wseek_current gap (write_all a (wseek_start pos f))))).
Proof.
  intros Hp Hg Hn. set (f1 := write_all a (wseek_start pos f)). etrans.
  { eapply frame_weaken; [|apply (frame_write pos a); done]. unfold span. intros o. lia. }
  change (wf_data (write_all a (wseek_start pos f))) with (wf_data f1).
  assert (wseek_current gap f1 = wseek_start (pos + Z.of_nat (length a) + gap) f1) as ->.
  { unfold wseek_current, wseek_start. f_equal. unfold f1. cbn. lia. }
  eapply frame_weaken; [|apply frame_write; lia]. unfold span. intros o. lia.
Qed.

(** The gap before the trailer of a block of admissible size. *)
Lemma trailer_gap_physical size gap :
  trailer_gap size 16 = Ok gap -> 0 <= gap /\ size + gap + 16 = physical size.
Proof.
  unfold trailer_gap, checked_add. destruct (_ <? _); [|done]. cbn [ok_or ndb rmap_err rbind].
  destruct (block_size (size + 16)) as [n| |] eqn:E; [|done..]. cbn [rbind]. intros [= <-].
  apply block_size_physical in E as ->. unfold physical.
  pose proof (div_ceil_spec (size + 16) 64 ltac:(lia)). lia.
Qed.

Lemma data_block_write_frame (b : DataBlock UnicodeBlockId) pos f f' :
  0 <= pos -> Z.of_nat (length (db_data b)) < 2 ^ 16 -> DataBlock.write b (wseek_start pos f) = Ok f' ->
  frame (span pos (physical (Z.of_nat (length (db_data b))))) (wf_data f) (wf_data f').
Proof.
  intros Hp Hl H. unfold DataBlock.write in H. apply rbind_ok in H as (t & _ & H).
  apply rbind_ok in H as (gap & Hg & [= <-]). rewrite length_encode, wrap_small in Hg by (unfold uint; lia).
  apply trailer_gap_physical in Hg as [Hg0 Hg]. apply write_gap_frame; [done|done|].
  rewrite length_encode. pose proof (rt_size t) as Ht. cbn in Ht |- *. lia.
Qed.

Section internal.
Context {T H E : Type} `{!IntermediateTreeBlock T H E UnicodeBlockId, !IntermediateTreeHeader H, !IntermediateTreeEntry E}.
Context `{!TreeEntryLaws E, !TreeHeaderLaws H, !TreeBlockLaws T H E UnicodeBlockId}.

Lemma internal_block_write_frame (b : T) pos f f' :
  0 <= pos -> Z.of_nat (length (internal_data (B := UnicodeBlockId) b)) < 2 ^ 16 ->
  IntermediateTreeBlock.write b (wseek_start pos f) = Ok f' ->
  frame (span pos (physical (Z.of_nat (length (internal_data (B := UnicodeBlockId) b))))) (wf_data f) (wf_data f').
Proof using All.
  intros Hp Hl Hw. unfold IntermediateTreeBlock.write in Hw. fold (internal_data (B := UnicodeBlockId) b) in Hw.
  pose proof (length_internal_data (B := UnicodeBlockId) b) as Hlen.
  rewrite vec_buffer_exact in Hw by (rewrite th_size, te_size in *; lia).
  rewrite wrap_small in Hw by (unfold uint; lia).
  apply rbind_ok in Hw as (t & Ht & Hw). apply ndb_ok in Ht. rewrite bt_new_spec in Ht.
  destruct (trailer_size_ok _ _) in Ht; [|done]. injection Ht as <-. cbn [bt_size] in Hw.
  apply rbind_ok in Hw as (gap & Hg & [= <-]). apply trailer_gap_physical in Hg as [Hg0 Hg].
  apply write_gap_frame; [done|done|].
  match goal with |- context [UnicodeBlockTrailer.write ?t] => pose proof (rt_size t) as Ht end.
  cbn in Ht |- *. lia.
Qed.
End internal.

(** ** What is stored for a block *)

(** The values that the fields of a block can hold in the program, and the
    kind of id that the readers expect. *)
Definition storable (b : BlockSpec) : Prop :=
  ser_wf (bs_id b) /\
  match bs_payload b with
  | Data data => bytes_ok data /\ UnicodeBlockId.is_internal (bs_id b) = false
  | ProjectedData _ => False
  | Subnode entries => Forall ser_wf entries /\ UnicodeBlockId.is_internal (bs_id b) = true
  | IntermediateSubnode level entries =>
      0 < level < 2 ^ 8 /\ Forall ser_wf entries /\ UnicodeBlockId.is_internal (bs_id b) = true
  | DataTreePayload level total entries =>
      uint 8 level /\ uint 32 total /\ Forall ser_wf entries /\ UnicodeBlockId.is_internal (bs_id b) = true
  end.

(** The file has the block [b] where [w] says. *)
Definition stored (d : list Z) (b : BlockSpec) (w : WrittenBlock) : Prop :=
  match bs_payload b with
  | Data data => exists x, DataTree.read d Permute (entry_of w) = Ok (DataTree_Leaf x) /\ db_data x = data
  | ProjectedData _ => False
  | Subnode entries => exists x, SubNodeTree.read d (entry_of w) = Ok (SubNodeTree_Leaf x) /\ sn_entries x = entries
  | IntermediateSubnode level entries => exists x,
      SubNodeTree.read d (entry_of w) = Ok (SubNodeTree_Intermediate x) /\
      snh_level (sn_header x) = level /\ sn_entries x = entries
  | DataTreePayload level total entries => exists x,
      DataTree.read d Permute (entry_of w) = Ok (DataTree_Intermediate x) /\
      dt_header x = mk_DataTreeBlockHeader level (Z.of_nat (length entries)) total /\ dt_entries x = entries
  end.

Lemma stored_frame Q d d' b w :
  0 <= wb_offset w -> agree Q d d' -> (forall o, span (wb_offset w) (physical (wb_size w)) o -> ~ Q o) ->
  stored d b w -> stored d' b w.
Proof.
  intros H0 Hq Hs. unfold stored.
  destruct (bs_payload b); [|done|..]; intros (x & Hx & Hr); exists x; (split; [|exact Hr]);
    first [eapply data_tree_read_frame | eapply sub_node_tree_read_frame]; done.
Qed.

Lemma compute_sig_uint x y : uint 16 (compute_sig x y).
Proof. unfold compute_sig. apply uint_lxor; [done|by apply wrap_uint..]. Qed.

(** ** Writing a payload *)

Lemma try_u16_ok n what m : try_u16 n what = Ok m <-> m = n /\ uint 16 n.
Proof.
  unfold try_u16. rewrite fits_ok. destruct (uint_b 16 n) eqn:E.
  - apply uint_b_spec in E. split; [intros [= ->]; done|intros [-> _]; done].
  - split; [done|]. intros [_ H%uint_b_spec]. congruence.
Qed.

Lemma block_sizes_ok p size phys :
  block_sizes p = Ok (size, phys) ->
  size = logical_size p /\ 0 <= size <= 8176 /\ phys = physical size /\ extent_size_ok phys.
Proof.
  intros (s & [-> Hu]%try_u16_ok & H)%rbind_ok. apply rbind_ok in H as (n & Hn%wio_ok & [= <- <-]).
  unfold uint in Hu. unfold block_size, MAX_BLOCK_SIZE in Hn. unfold physical, extent_size_ok.
  destruct (Z.eqb_spec (Z.min (2 ^ 16 - 1) (logical_size p + 16)) 0); [done|].
  destruct (Z.ltb_spec 8192 (Z.min (2 ^ 16 - 1) (logical_size p + 16))); [done|]. cbn [orb] in Hn.
  injection Hn as <-. rewrite Z.min_r by lia. pose proof (div_ceil_spec (logical_size p + 16) 64 ltac:(lia)).
  split_and!; lia.
Qed.

Lemma trailer_new_ok size sig crc (id : UnicodeBlockId) t :
  UnicodeBlockTrailer.new size sig crc id = Ok t -> t = mk_BlockTrailer size sig crc id /\ 1 <= size <= 8176.
Proof.
  unfold UnicodeBlockTrailer.new, trailer_size_ok, UnicodeBlockTrailer.SIZE, MAX_BLOCK_SIZE.
  destruct (_ && _) eqn:E; [|done]. cbn [negb]. intros [= <-]. split; [done|]. zb. lia.
Qed.

Lemma sat64_small x : 0 <= x < 2 ^ 64 -> sat64 x = x.
Proof. unfold sat64. lia. Qed.

(** The sizes of internal blocks, which no saturation cuts. *)
Lemma logical_size_entries n k : 
  0 <= n -> 0 <= k <= 24 -> sat64 (8 + sat64 (n * k)) <= 8176 -> sat64 (8 + sat64 (n * k)) = 8 + n * k.
Proof. unfold sat64. nia. Qed.

Section write.
Context (id : UnicodeBlockId) (rc pos size sig : Z) (f f' : wfile).
Context (Hpos : 0 <= pos) (Hsig : uint 16 sig).
Abbreviation trailer := (mk_BlockTrailer size sig 0 id).
Abbreviation placed := (mk_WrittenBlock id pos size rc).

Lemma store_data data :
  size = Z.of_nat (length data) -> 1 <= size <= 8176 ->
  write_payload (Data data) trailer (wseek_start pos f) = Ok f' ->
  frame (span pos (physical size)) (wf_data f) (wf_data f') /\
  (storable (mk_BlockSpec id (Data data) rc) -> stored (wf_data f') (mk_BlockSpec id (Data data) rc) placed).
Proof using Hpos Hsig.
  intros Hsz Hl (b & Hb%structure_ok & Hw%wio_ok)%rbind_ok. injection Hb as <-. split.
  - apply (data_block_write_frame _ pos f f') in Hw; [by rewrite Hsz|done|cbn; lia].
  - intros (Hid & Hd & Hi). cbn in Hid, Hd, Hi.
    assert (data_tree_wf (DataTree_Leaf (mk_DataBlock Permute data trailer)) Permute (entry_of placed)) as Hwf.
    { split_and!; [|done|done|done]. split_and!; [done|cbn; unfold MAX_BLOCK_SIZE, UnicodeBlockTrailer.SIZE; lia..|done|done|done]. }
    destruct (data_tree_round_trip _ Permute (entry_of placed) f Hwf) as (f1 & Hw1 & Hr).
    assert (Ok f' = Ok f1) as [= <-] by (rewrite <- Hw, <- Hw1; done). eexists. split; [exact Hr|done].
Qed.

Lemma store_data_tree level total entries :
  size = logical_size (DataTreePayload level total entries) -> 1 <= size <= 8176 ->
  write_payload (DataTreePayload level total entries) trailer (wseek_start pos f) = Ok f' ->
  frame (span pos (physical size)) (wf_data f) (wf_data f') /\
  (storable (mk_BlockSpec id (DataTreePayload level total entries) rc) ->
   stored (wf_data f') (mk_BlockSpec id (DataTreePayload level total entries) rc) placed).
Proof using Hpos Hsig.
  intros Hsz Hl (n & [-> Hn]%try_u16_ok & H)%rbind_ok. apply rbind_ok in H as (b & Hb%structure_ok & Hw%wio_ok).
  cbn [logical_size] in Hsz. rewrite logical_size_entries in Hsz by lia.
  set (h := mk_DataTreeBlockHeader level (Z.of_nat (length entries)) total) in *.
  assert (b = mk_DataTreeBlock h entries trailer /\ (level = 1 \/ level = 2) /\
    Forall (fun e => bid_is_internal e = (level =? 2)) entries) as (-> & Hlv & Hk).
  { unfold DataTreeBlock.new in Hb. apply rbind_ok in Hb as (us & Hus & Hb).
    unfold DataTreeBlock.inner_new in Hb. repeat res_step. inv_ok. split; [done|]. subst h. cbn in *. zb.
    assert (level = 1 \/ level = 2) as Hlv by lia. split; [done|]. apply rmapM_Forall2 in Hus.
    clear - Hus Hlv. induction Hus as [|e u es us He _ IH]; constructor; [|done].
    unfold validate_data_tree_child_kind in He. by destruct Hlv as [-> | ->], (UnicodeBlockId.is_internal e). }
  assert (Z.of_nat (length (internal_data (B := UnicodeBlockId) (mk_DataTreeBlock h entries trailer))) = size) as Hlen.
  { rewrite length_internal_data. cbn. unfold DataTreeBlockHeader.HEADER_SIZE. lia. }
  split.
  - apply (internal_block_write_frame _ pos f f') in Hw; [by rewrite Hlen in Hw|done|lia].
  - intros (Hid & Hu & Ht & Hes & Hi). cbn in Hid, Hu, Ht, Hes, Hi.
    assert (data_tree_wf (DataTree_Intermediate (mk_DataTreeBlock h entries trailer)) Permute (entry_of placed)) as Hwf.
    { split_and!; [|by rewrite Hlen|done]. split_and!; try done; [lia|rewrite Hlen; cbn; unfold MAX_BLOCK_SIZE, UnicodeBlockTrailer.SIZE; lia|].
      split_and!; try done; cbn [internal_trailer bt_size]; rewrite ?Hlen; cbn; unfold DataTreeBlockHeader.HEADER_SIZE; lia. }
    destruct (data_tree_round_trip _ Permute (entry_of placed) f Hwf) as (f1 & Hw1 & Hr).
    assert (Ok f' = Ok f1) as [= <-] by (rewrite <- Hw, <- Hw1; done). eexists. split; [exact Hr|]. by split.
Qed.

(** Both kinds of blocks of sub-node trees. *)
Lemma store_subnode entries :
  size = logical_size (Subnode entries) -> 1 <= size <= 8176 ->
  write_payload (Subnode entries) trailer (wseek_start pos f) = Ok f' ->
  frame (span pos (physical size)) (wf_data f) (wf_data f') /\
  (storable (mk_BlockSpec id (Subnode entries) rc) ->
   stored (wf_data f') (mk_BlockSpec id (Subnode entries) rc) placed).
Proof using Hpos Hsig.
  intros Hsz Hl (n & [-> Hn]%try_u16_ok & H)%rbind_ok. apply rbind_ok in H as (b & Hb%structure_ok & Hw%wio_ok).
  cbn [logical_size] in Hsz. rewrite logical_size_entries in Hsz by lia.
  set (h := mk_SubNodeTreeBlockHeader 0 (Z.of_nat (length entries))) in *.
  assert (b = mk_SubNodeTreeBlock h entries trailer) as ->.
  { unfold SubNodeTreeBlock.new in Hb. by apply rbind_ok in Hb as (? & _ & [= <-]). }
  assert (Z.of_nat (length (internal_data (B := UnicodeBlockId) (mk_SubNodeTreeBlock h entries trailer))) = size) as Hlen.
  { rewrite length_internal_data. cbn. unfold UnicodeSubNodeTreeBlockHeader.HEADER_SIZE. lia. }
  split.
  - apply (internal_block_write_frame _ pos f f') in Hw; [by rewrite Hlen in Hw|done|lia].
  - intros (Hid & Hes & Hi). cbn in Hid, Hes, Hi.
    assert (sub_node_tree_wf (SubNodeTree_Leaf (mk_SubNodeTreeBlock h entries trailer)) (entry_of placed)) as Hwf.
    { split_and!; [|by rewrite Hlen|done]. split_and!; try done; [lia|].
      rewrite Hlen. cbn. unfold MAX_BLOCK_SIZE, UnicodeBlockTrailer.SIZE. lia. }
    destruct (sub_node_tree_round_trip _ (entry_of placed) f Hwf) as (f1 & Hw1 & Hr).
    assert (Ok f' = Ok f1) as [= <-] by (rewrite <- Hw, <- Hw1; done). eexists. by split; [exact Hr|].
Qed.

Lemma store_intermediate_subnode level entries :
  size = logical_size (IntermediateSubnode level entries) -> 1 <= size <= 8176 ->
  write_payload (IntermediateSubnode level entries) trailer (wseek_start pos f) = Ok f' ->
  frame (span pos (physical size)) (wf_data f) (wf_data f') /\
  (storable (mk_BlockSpec id (IntermediateSubnode level entries) rc) ->
   stored (wf_data f') (mk_BlockSpec id (IntermediateSubnode level entries) rc) placed).
Proof using Hpos Hsig.
  intros Hsz Hl (n & [-> Hn]%try_u16_ok & H)%rbind_ok. apply rbind_ok in H as (b & Hb%structure_ok & Hw%wio_ok).
  cbn [logical_size] in Hsz. rewrite logical_size_entries in Hsz by lia.
  set (h := mk_SubNodeTreeBlockHeader level (Z.of_nat (length entries))) in *.
  assert (b = mk_SubNodeTreeBlock h entries trailer) as ->.
  { unfold SubNodeTreeBlock.new in Hb. by apply rbind_ok in Hb as (? & _ & [= <-]). }
  assert (Z.of_nat (length (internal_data (B := UnicodeBlockId) (mk_SubNodeTreeBlock h entries trailer))) = size) as Hlen.
  { rewrite length_internal_data. cbn. unfold UnicodeSubNodeTreeBlockHeader.HEADER_SIZE. lia. }
  split.
  - apply (internal_block_write_frame _ pos f f') in Hw; [by rewrite Hlen in Hw|done|lia].
  - intros (Hid & Hlv & Hes & Hi). cbn in Hid, Hlv, Hes, Hi.
    assert (sub_node_tree_wf (SubNodeTree_Intermediate (mk_SubNodeTreeBlock h entries trailer)) (entry_of placed)) as Hwf.
    { split_and!; [|by rewrite Hlen|cbn; lia]. split_and!; try done; [cbn; unfold uint in *; lia|lia|].
      rewrite Hlen. cbn. unfold MAX_BLOCK_SIZE, UnicodeBlockTrailer.SIZE. lia. }
    destruct (sub_node_tree_round_trip _ (entry_of placed) f Hwf) as (f1 & Hw1 & Hr).
    assert (Ok f' = Ok f1) as [= <-] by (rewrite <- Hw, <- Hw1; done). eexists. by split; [exact Hr|].
Qed.

Lemma store_payload p :
  size = logical_size p -> 1 <= size <= 8176 -> write_payload p trailer (wseek_start pos f) = Ok f' ->
  frame (span pos (physical size)) (wf_data f) (wf_data f') /\
  (storable (mk_BlockSpec id p rc) -> stored (wf_data f') (mk_BlockSpec id p rc) placed).
Proof using Hpos Hsig.
  destruct p; [apply store_data|done|apply store_subnode|apply store_intermediate_subnode|apply store_data_tree].
Qed.
End write.

(** ** Streams *)

Definition stream_data (s : WriteState) : list Z := match ws_file s with Some f => wf_data f | None => [] end.

Definition block_key (w : WrittenBlock) : Z := UnicodeBlockId.search_key (wb_id w).

(** A block below the cursor [c]: in a place that the allocation gave it, with
    an entry for the block B-tree whose fields are in range. *)
Definition settled (c : Z) (w : WrittenBlock) : Prop :=
  0 <= wb_offset w /\ wb_offset w + physical (wb_size w) <= c /\
  free_at (physical (wb_size w)) SLOT_SIZE (wb_offset w) /\ 0 < physical (wb_size w) /\ ser_wf (entry_of w).

Lemma entry_of_wf w :
  ser_wf (wb_id w) -> uint 64 (wb_offset w) -> uint 16 (wb_size w) -> uint 16 (wb_ref_count w) -> ser_wf (entry_of w).
Proof. by intros Hid Ho Hs Hr. Qed.

Lemma settled_later c c' w : c <= c' -> settled c w -> settled c' w.
Proof. intros Hc (? & ? & ?). split_and!; [done|lia|tauto..]. Qed.

(** A stream that writes to a file: the blocks written lie below the cursor,
    and their keys are distinct and below those of the ids to come. A block
    moves the cursor by at most [2 ^ 18]. *)
Record stream_ok (s : WriteState) : Prop := {
  so_file : ws_file s <> None;
  so_cursor : FIRST_AMAP <= ws_cursor s <= 2 ^ 19 * ws_next s;
  so_written : Forall (fun w => settled (ws_cursor s) w /\ 0 <= block_key w < 4 * ws_next s) (ws_written s);
  so_keys : NoDup (map block_key (ws_written s))
}.

(** The number of blocks up to which the positions stay far from the end of
    the range of [u64]. *)
Definition MAX_BLOCKS : Z := 2 ^ 40.

Lemma new_id_key internal i id :
  0 <= i <= MAX_BLOCKS -> UnicodeBlockId.new internal i = Ok id ->
  4 * i <= UnicodeBlockId.search_key id < 4 * (i + 1) /\ ser_wf id /\ UnicodeBlockId.is_internal id = internal.
Proof.
  unfold MAX_BLOCKS. intros Hi H. assert (uint 64 i) as Hu by (unfold uint; lia).
  pose proof (unicode_block_id_new internal i Hu) as Hn. pose proof (unicode_block_id_value internal i id Hu H) as [Hv _].
  change MAX_UNICODE_BLOCK_INDEX with (2 ^ 62 - 1) in Hn. destruct (Z.leb_spec i (2 ^ 62 - 1)); [|lia].
  destruct Hn as (b & Hb & Hint & _ & Hk & _). rewrite H in Hb. injection Hb as <-.
  rewrite Hk, Hv. cbn. unfold uint. rewrite Hv. destruct internal; split_and!; lia || done.
Qed.

(** Taking an id and emitting a block. *)
Lemma emit_stored internal payload s id s0 s1 :
  stream_ok s -> take_block_id internal s = (Ok id, s0) -> emit (mk_BlockSpec id payload 2) s0 = (Ok tt, s1) ->
  ws_next s1 <= MAX_BLOCKS ->
  exists w, ws_written s1 = ws_written s ++ [w] /\ ws_next s1 = ws_next s + 1 /\ stream_ok s1 /\
    wb_id w = id /\ ser_wf id /\ wb_size w = logical_size payload /\
    wb_offset w + physical (wb_size w) <= ws_cursor s1 /\ ws_cursor s <= wb_offset w /\ 0 < physical (wb_size w) /\
    frame (fun o => ws_cursor s <= o) (stream_data s) (stream_data s1) /\
    (storable (mk_BlockSpec id payload 2) -> stored (stream_data s1) (mk_BlockSpec id payload 2) w).
Proof.
  intros [Hf Hc Hw Hk] Ht He Hmax. unfold MAX_BLOCKS in Hmax.
  pose proof Ht as (Hid & -> & _)%take_block_id_ok.
  assert (FIRST_AMAP = 17408) as Hfa by done. assert (AMAP_DATA_SIZE = 253952) as Hads by done.
  apply emit_ok in He as (w & s2 & Hwb & ->); [|done].
  apply write_block_ok in Hwb as (f & f' & size & phys & o & e & t & Hfile & _ & Hs & Ha & Htr & Hwp & -> & ->).
  cbn [ws_next ws_cursor ws_written ws_file set_next_block_index WriteState_next next_block_index bs_id bs_payload push_written bs_ref_count] in *.
  apply block_sizes_ok in Hs as (-> & Hsz & -> & Hext). apply trailer_new_ok in Htr as [-> Hsz1].
  destruct (allocate_extent_first (ws_cursor s) (physical (logical_size payload)) SLOT_SIZE (or_introl eq_refl) Hext)
    as (o' & Ho' & (Hge & Hfree & _) & Hle); [lia|].
  rewrite Ho' in Ha. injection Ha as <- <-. unfold extent_size_ok in Hext.
  apply (store_payload id 2 o' _ _ f f') in Hwp as [Hfr Hst]; [|lia|apply compute_sig_uint|done|done].
  pose proof (new_id_key internal (ws_next s) id ltac:(unfold MAX_BLOCKS; lia) Hid) as (Hkey & Hser & _).
  eexists. split; [done|]. split; [done|]. split; [|split_and!; try done].
  - split; [done|cbn; lia| |].
    + cbn. apply Forall_app. split; [|constructor; [|constructor]].
      * eapply Forall_impl; [exact Hw|]. cbn. intros w [Hset ?]. split; [eapply settled_later; [|exact Hset]; lia|lia].
      * split; [|unfold block_key; cbn; lia]. unfold settled. cbn [wb_offset wb_size].
        split_and!; [lia|lia|done|lia|]. apply entry_of_wf; [done|cbn; unfold uint; lia..].
    + cbn. rewrite map_app. cbn. apply NoDup_app. split; [done|]. split; [|apply NoDup_singleton].
      intros k Hin Hk1. apply list_elem_of_singleton in Hk1. subst k.
      apply (list_elem_of_fmap_1 block_key) in Hin as (w & E & Hin). rewrite Forall_forall in Hw.
      apply Hw in Hin. unfold block_key in *. cbn in E. lia.
  - cbn [wb_offset wb_size ws_cursor push_written]. lia.
  - unfold stream_data. cbn. rewrite Hfile. eapply frame_weaken; [|exact Hfr]. unfold span. intros x. lia.
Qed.

Lemma stored_later s1 s2 b w :
  stream_ok s1 -> frame (fun o => ws_cursor s1 <= o) (stream_data s1) (stream_data s2) ->
  0 <= wb_offset w -> wb_offset w + physical (wb_size w) <= ws_cursor s1 ->
  stored (stream_data s1) b w -> stored (stream_data s2) b w.
Proof. intros Hs Hf H0 Hw. eapply stored_frame; [done|exact (frame_agree _ _ _ Hf)|]. unfold span. intros o. lia. Qed.

Lemma emitted_next s l s' : emitted s l s' -> ws_file s <> None -> ws_next s <= ws_next s' /\ ws_file s' <> None.
Proof.
  induction 1 as [|s internal id payload s0 s1 l s' Ht He _ IH]; intros Hf; [done|].
  apply take_block_id_ok in Ht as (_ & -> & _). apply emit_ok in He as (w & s2 & Hw & ->); [|done].
  apply write_block_ok in Hw as (f & f' & size & phys & o & e & t & _ & _ & _ & _ & _ & _ & _ & ->).
  destruct IH as [IH ?]; [done|]. cbn in IH. split; [lia|done].
Qed.

(** The blocks of a run are stored, in the places the stream recorded. *)
Lemma emitted_stored s l s' :
  emitted s l s' -> stream_ok s -> ws_next s' <= MAX_BLOCKS ->
  exists ws, ws_written s' = ws_written s ++ ws /\ ws_next s' = ws_next s + Z.of_nat (length l) /\ stream_ok s' /\
    ws_cursor s <= ws_cursor s' /\ frame (fun o => ws_cursor s <= o) (stream_data s) (stream_data s') /\
    Forall2 (fun b w => wb_id w = bs_id b /\ ser_wf (bs_id b) /\ wb_size w = logical_size (bs_payload b) /\
      ws_cursor s <= wb_offset w /\
      (storable b -> stored (stream_data s') b w)) l ws.
Proof.
  induction 1 as [s|s internal id payload s0 s1 l s' Ht He Hem IH]; intros Hok Hmax.
  { exists []. rewrite app_nil_r. split_and!; try done. cbn. lia. }
  assert (ws_file s1 <> None) as Hf1.
  { pose proof Ht as (_ & -> & _)%take_block_id_ok. apply (emitted_next s [mk_BlockSpec id payload 2]); [|apply Hok].
    econstructor; [done|done|constructor]. }
  destruct (emitted_next _ _ _ Hem Hf1) as [Hn1 _].
  destruct (emit_stored _ _ _ _ _ _ Hok Ht He ltac:(lia)) as (w & Hw & Hn & Hok1 & Hid & Hser & Hsz & Hb & Hc & Hp & Hfr & Hst).
  destruct (IH Hok1 Hmax) as (ws & Hws & Hn2 & Hok' & Hc' & Hfr' & Hall).
  pose proof (so_cursor _ Hok) as Hcur. change FIRST_AMAP with 17408 in Hcur.
  exists (w :: ws). split_and!.
  - by rewrite Hws, Hw, <- app_assoc.
  - cbn [length]. lia.
  - done.
  - lia.
  - etrans; [exact Hfr|]. eapply frame_weaken; [|exact Hfr']. cbn beta. lia.
  - constructor.
    + split_and!; [done|done|done|done|]. intros Hs%Hst. apply (stored_later s1); [done|done|lia|lia|done].
    + eapply Forall2_impl; [exact Hall|]. intros b w' (? & ? & ? & ? & ?). split_and!; [done|done|done|lia|done].
Qed.

(** ** Trees among the stored blocks *)

Lemma checked_sum_spec l acc :
  Forall (fun x => 0 <= x) l -> 0 <= acc -> acc + foldr Z.add 0 l < 2 ^ 64 -> checked_sum l acc = Some (acc + foldr Z.add 0 l).
Proof.
  revert acc. induction l as [|x l IH]; intros acc Hl H0 Hs; cbn in *; [f_equal; lia|].
  inversion Hl as [|? ? Hx Hl']; subst.
  assert (0 <= foldr Z.add 0 l) by (clear - Hl'; induction Hl'; cbn; lia).
  unfold checked_add. destruct (Z.ltb_spec (acc + x) (2 ^ 64)); [|lia]. rewrite IH by (done || lia). f_equal. lia.
Qed.

Lemma sizes_sum_foldr ds : sizes_sum ds = foldr Z.add 0 (map size_of ds).
Proof.
  induction ds as [|d ds IH]; [done|]. cbn. rewrite <- IH. change (d :: ds) with ([d] ++ ds).
  rewrite sizes_sum_app. unfold sizes_sum at 1. cbn. by rewrite app_nil_r.
Qed.

Section stored_trees.
Context {S : Type} `{!BlockFind Entry S, !BlockFindLaws Entry UnicodeBlockId UnicodeByteIndex S}.
Context (f : list Z) (L : list BlockSpec) (ws : list WrittenBlock).
(** The blocks [L] are stored in [f] where [ws] says, and the lookup finds
    them. *)
Context (Hstored : Forall2 (fun b w => wb_id w = bs_id b /\ ser_wf (bs_id b) /\
  wb_size w = logical_size (bs_payload b) /\ (storable b -> stored f b w)) L ws).
Context (Hfind : forall w, w ∈ ws -> bl_spec (block_key w) = Ok (entry_of w)).
Context (Hids : NoDup (map bs_id L)).
#[local] Set Default Proof Using "All".

Lemma spec_stored b :
  b ∈ L -> exists w, wb_id w = bs_id b /\ wb_size w = logical_size (bs_payload b) /\ ser_wf (bs_id b) /\
    (storable b -> stored f b w) /\ bl_spec (bid_search_key (bs_id b)) = Ok (entry_of w).
Proof.
  intros [i Hb]%list_elem_of_lookup. destruct (Forall2_lookup_l _ _ _ _ _ Hstored Hb) as (w & Hw & Hid & Hser & Hsz & Hst).
  exists w. split_and!; try done. rewrite <- Hid. apply Hfind. apply list_elem_of_lookup. by exists i.
Qed.

Lemma leaf_read d p :
  leaf_holds L d p -> bytes_ok d ->
  exists e x, leaf_lookup p.1 e /\ leaf_block f Permute e x /\ db_data x = d /\ bbe_size e = size_of d.
Proof.
  intros (Hin & _ & Hi) Hd. destruct (spec_stored _ Hin) as (w & Hid & Hsz & Hser & Hst & Hl).
  destruct Hst as (x & Hx & Hdx); [by split|]. exists (entry_of w), x. by split_and!.
Qed.

Lemma leaves_read ds g :
  Forall2 (leaf_holds L) ds g -> Forall bytes_ok ds ->
  exists es bs, Forall2 leaf_lookup (map fst g) es /\ Forall2 (leaf_block f Permute) es bs /\
    map db_data bs = ds /\ map bbe_size es = map size_of ds.
Proof.
  induction 1 as [|d p ds g Hp _ IH]; intros Hd.
  { exists [], []. split_and!; constructor. }
  inversion Hd as [|? ? Hd1 Hds]; subst. destruct (leaf_read d p Hp Hd1) as (e & x & Hl & Hx & Hdx & Hsz).
  destruct (IH Hds) as (es & bs & Hes & Hbs & Hdb & Hsizes). exists (e :: es), (x :: bs).
  split_and!; [by constructor|by constructor| |]; cbn [map]; congruence.
Qed.

Lemma ids_wf g ds : Forall2 (leaf_holds L) ds g -> Forall ser_wf (map fst g).
Proof.
  induction 1 as [|d p ds g (Hin & _) _ IH]; constructor; [|done].
  by destruct (spec_stored _ Hin) as (_ & _ & _ & Hser & _).
Qed.

Lemma xblock_read ds p :
  xblock_holds L ds p -> Forall bytes_ok ds -> sizes_sum ds < 2 ^ 32 ->
  exists e c es bs, bl_spec (bid_search_key p.1) = Ok e /\
    DataTree.read f Permute e = Ok (DataTree_Intermediate c) /\ child_entries c es /\
    dth_total_size (dt_header c) = sizes_sum ds /\ (length (dt_entries c) <= Z.to_nat WriterTree.MAX_DATA_TREE_ENTRIES)%nat /\
    length es = length ds /\ Forall2 (leaf_block f Permute) es bs /\ map db_data bs = ds.
Proof.
  intros (g & Hin & Hg & Ht & Hlen & Hi) Hd Hs. destruct (spec_stored _ Hin) as (w & Hid & Hsz & Hser & Hst & Hl).
  assert (0 <= sizes_sum ds) as H0 by (unfold sizes_sum, size_of; lia).
  destruct Hst as (c & Hc & Hh & He).
  { split; [done|]. cbn. unfold uint. split_and!; [lia..|by eapply ids_wf|done]. }
  destruct (leaves_read ds g Hg Hd) as (es & bs & Hes & Hbs & Hdb & Hsizes).
  exists (entry_of w), c, es, bs. split_and!; try done.
  - split_and!; [by rewrite Hh|by rewrite He|]. rewrite Hh, Hsizes. cbn [dth_total_size]. rewrite Ht.
    rewrite checked_sum_spec; [by rewrite <- sizes_sum_foldr|..]; [|lia|rewrite <- sizes_sum_foldr; lia].
    clear. induction ds; constructor; [unfold size_of; lia|done].
  - by rewrite Hh.
  - rewrite He, length_map. lia.
  - rewrite <- (length_map bbe_size es), Hsizes, length_map. done.
Qed.

Lemma xblocks_read dss xs :
  Forall2 (xblock_holds L) dss xs -> Forall (Forall bytes_ok) dss -> Forall (fun ds => sizes_sum ds < 2 ^ 32) dss ->
  exists ess bs, Forall2 (child_lookup f Permute) (map fst xs) ess /\ Forall2 (leaf_block f Permute) (concat ess) bs /\
    map db_data bs = concat dss /\ length (concat ess) = length (concat dss).
Proof.
  induction 1 as [|ds p dss xs Hp _ IH]; intros Hd Hs.
  { exists [], []. split_and!; constructor. }
  inversion Hd as [|? ? Hd1 Hds]; inversion Hs as [|? ? Hs1 Hss]; subst.
  destruct (xblock_read ds p Hp Hd1 Hs1) as (e & c & es & bs & Hl & Hr & Hc & _ & _ & Hlen & Hbs & Hdb).
  destruct (IH Hds Hss) as (ess & bs2 & Hess & Hbs2 & Hdb2 & Hlen2). exists (es :: ess), (bs ++ bs2). split_and!.
  - constructor; [|done]. destruct Hp as (? & _ & _ & _ & _ & Hi). split; [done|]. exists c. split; [|done]. by exists e.
  - by apply Forall2_app.
  - by rewrite map_app, Hdb, Hdb2.
  - cbn [concat]. rewrite !length_app. lia.
Qed.

(** A tree with the data [ds] is read from the file, and opens as a reader
    that holds the data. *)
Lemma tree_read root ds max :
  tree_holds L root ds -> Forall bytes_ok ds -> sizes_sum ds < 2 ^ 32 ->
  WriterTree.MAX_DATA_TREE_ENTRIES + Z.of_nat (length ds) <= max ->
  exists e t, bl_spec (bid_search_key root) = Ok e /\ DataTree.read f Permute e = Ok t /\ level_ok t /\
    exists r, tree_reader f Permute t max r /\ reader_holds f Permute r (concat ds) /\
      rdr_total_read r = 0 /\ rdr_expected_size r = sizes_sum ds.
Proof.
  intros Ht Hd Hs Hmax. unfold WriterTree.MAX_DATA_TREE_ENTRIES in *.
  destruct Ht as [(d & -> & Hl)|[Hx|(dss & xs & -> & Hin & Hx & Hlen & Hi & Ho)]].
  - inversion Hd as [|? ? Hd1 _]; subst.
    destruct (leaf_read d _ Hl Hd1) as (e & x & [_ Hk] & Hx & Hdx & _).
    exists e, (DataTree_Leaf x). split_and!; try done. eexists. split; [done|]. split_and!.
    + exists []. split; [constructor|]. cbn. by rewrite Hdx.
    + done.
    + cbn. rewrite Hdx. unfold sizes_sum, size_of. cbn. by rewrite app_nil_r.
  - destruct (xblock_read ds _ Hx Hd Hs) as (e & c & es & bs & Hl & Hr & Hc & Htot & Hlen & Hes & Hbs & Hdb).
    exists e, (DataTree_Intermediate c). pose proof Hc as (Hlv & Hlk & _). split_and!; [done|done|by left|].
    exists (mk_DataTreeReader [] es (sizes_sum ds) 0). split_and!; [|by exists bs; unfold blocks_data; rewrite Hdb|done|done].
    exists es. split; [|by rewrite <- Htot]. split; [unfold WriterTree.MAX_DATA_TREE_ENTRIES in *; lia|].
    by rewrite Hlv.
  - assert (Forall (Forall bytes_ok) dss) as Hdd.
    { clear - Hd. induction dss as [|ds dss IH]; [constructor|]. cbn in Hd. apply Forall_app in Hd as [? ?].
      constructor; auto. }
    assert (Forall (fun ds => sizes_sum ds < 2 ^ 32) dss) as Hss.
    { clear - Hs. induction dss as [|ds dss IH]; [constructor|]. cbn [concat] in Hs. rewrite sizes_sum_app in Hs.
      assert (0 <= sizes_sum ds /\ 0 <= sizes_sum (concat dss)) by (unfold sizes_sum, size_of; lia).
      constructor; [lia|apply IH; lia]. }
    destruct (xblocks_read dss xs Hx Hdd Hss) as (ess & bs & Hess & Hbs & Hdb & Hlen2).
    destruct (spec_stored _ Hin) as (w & Hid & Hsz & Hser & Hst & Hl).
    assert (0 <= sizes_sum (concat dss)) as H0 by (unfold sizes_sum, size_of; lia).
    destruct Hst as (c & Hc & Hh & He).
    { split; [done|]. cbn. unfold uint. split_and!; [lia..| |done].
      clear - Hx Hstored Hfind Hids. induction Hx as [|ds p dss xs (g & Hin & _) _ IH]; constructor; [|done].
      by destruct (spec_stored _ Hin) as (_ & _ & _ & Hser & _). }
    exists (entry_of w), (DataTree_Intermediate c). split_and!; [done|done|right; by rewrite Hh|].
    exists (mk_DataTreeReader [] (concat ess) (sizes_sum (concat dss)) 0).
    split_and!; [|by exists bs; unfold blocks_data; rewrite Hdb|done|done].
    unfold WriterTree.MAX_DATA_TREE_ENTRIES in *.
    exists (concat ess). split; [|cbn; by rewrite Hh]. split; rewrite He, ?length_map; [lia|].
    rewrite Hh. cbn [dth_level Z.eqb Pos.eqb]. exists ess. split_and!; [done|done| |lia].
    eapply sublist_NoDup; [exact Hids|exact Ho].
Qed.
End stored_trees.

(** ** A streamed payload *)

Lemma emitted_keeps s l s' : emitted s l s' -> stream_ok s -> ws_next s' <= MAX_BLOCKS -> stream_ok s'.
Proof. intros H Hs Hm. by destruct (emitted_stored _ _ _ H Hs Hm) as (ws & _ & _ & ? & _). Qed.

Lemma emitted_ids l ws b0 k0 :
  Forall2 (fun b w => wb_id w = bs_id b /\ b0 b w) l ws -> NoDup (k0 ++ map block_key ws) -> NoDup (map bs_id l).
Proof.
  intros Hall [_ [_ Hnd]]%NoDup_app.
  assert (map bs_id l = map wb_id ws) as ->.
  { clear Hnd. induction Hall as [|b w l ws [E _] _ IH]; cbn; [done|]. by rewrite E, IH. }
  assert (map block_key ws = UnicodeBlockId.search_key <$> (map wb_id ws)) as E.
  { clear. induction ws as [|w ws IH]; [done|]. cbn. by f_equal. }
  rewrite E in Hnd. by apply NoDup_fmap_1 in Hnd.
Qed.

(** The data of a payload of at most [2 ^ 31] bytes fits the limits of
    [streaming_reader]. *)
Lemma payload_blocks (data : list Z) :
  Z.of_nat (length data) <= 2 ^ 31 ->
  WriterTree.MAX_DATA_TREE_ENTRIES + Z.of_nat (length (chunks MAX_DATA_BLOCK_PAYLOAD data)) <=
    MAX_STREAMING_DATA_TREE_ENTRIES.
Proof.
  intros H. rewrite length_chunks by done.
  pose proof (div_ceil_least (Z.of_nat (length data)) MAX_DATA_BLOCK_PAYLOAD 262658 ltac:(done)) as Hd.
  unfold WriterTree.MAX_DATA_TREE_ENTRIES, MAX_STREAMING_DATA_TREE_ENTRIES, MAX_DATA_BLOCK_PAYLOAD in *. lia.
Qed.

Section payload.
Context {S : Type} `{!BlockFind Entry S, !BlockFindLaws Entry UnicodeBlockId UnicodeByteIndex S}.

(** The payload is read from [d], which may be a later state of the file. *)
Lemma streamed_payload_reader d sha256 src byte_len expected eof s root size hash s' l s'' :
  0 < byte_len <= 2 ^ 31 -> stream_ok s -> bytes_ok src ->
  append_reader_data_tree sha256 src byte_len expected eof s = (Ok (root, size, hash), s') ->
  emitted s' l s'' -> ws_next s'' <= MAX_BLOCKS ->
  (forall w, w ∈ ws_written s'' -> bl_spec (block_key w) = Ok (entry_of w)) ->
  (forall b w, w ∈ ws_written s'' -> stored (stream_data s'') b w -> stored d b w) ->
  exists e t r, bl_spec (bid_search_key root) = Ok e /\ DataTree.read d Permute e = Ok t /\ level_ok t /\
    tree_reader d Permute t MAX_STREAMING_DATA_TREE_ENTRIES r /\
    reader_holds d Permute r (take (Z.to_nat byte_len) src) /\
    rdr_total_read r = 0 /\ rdr_expected_size r = byte_len.
Proof.
  intros Hlen Hok Hsrc H Hl Hmax Hfind Hkeep.
  apply logs_append_reader in H as (l0 & T & data & rest & -> & Hd & _ & _ & _ & _ & Ht); [|lia].
  pose proof (emitted_app _ _ _ _ _ T Hl) as Tall.
  destruct (emitted_stored _ _ _ Tall Hok Hmax) as (ws & Hws & _ & [_ _ _ Hkeys] & _ & _ & Hall).
  rewrite Hws, map_app in Hkeys. pose proof (emitted_ids _ _ _ _ Hall Hkeys) as Hids.
  destruct (chunks_spec MAX_DATA_BLOCK_PAYLOAD data ltac:(done)) as [Hc _].
  assert (tree_holds (l0 ++ l) root (chunks MAX_DATA_BLOCK_PAYLOAD data)) as Ht'.
  { by apply (tree_holds_app l0 l). }
  apply Forall_app in Hsrc as [Hdata _].
  assert (Forall bytes_ok (chunks MAX_DATA_BLOCK_PAYLOAD data)) as Hbytes.
  { rewrite <- Hc in Hdata. clear - Hdata. induction (chunks _ _) as [|c cs IH]; [constructor|].
    cbn in Hdata. apply Forall_app in Hdata as [? ?]. constructor; auto. }
  assert (sizes_sum (chunks MAX_DATA_BLOCK_PAYLOAD data) = byte_len) as Hsum by (unfold sizes_sum; by rewrite Hc).
  assert (Forall2 (fun b w => wb_id w = bs_id b /\ ser_wf (bs_id b) /\ wb_size w = logical_size (bs_payload b) /\
    (storable b -> stored d b w)) (l0 ++ l) ws) as Hstored.
  { apply Forall2_same_length_lookup. split; [by eapply Forall2_length|]. intros i b w Hb Hw.
    destruct (Forall2_lookup_lr _ _ _ _ _ _ Hall Hb Hw) as (? & ? & ? & _ & Hst).
    apply list_elem_of_lookup_2 in Hw. split_and!; [done..|]. intros Hs%Hst. apply Hkeep; [|exact Hs]. rewrite Hws. apply elem_of_app. by right. }
  destruct (tree_read d (l0 ++ l) ws) with (root := root) (ds := chunks MAX_DATA_BLOCK_PAYLOAD data)
    (max := MAX_STREAMING_DATA_TREE_ENTRIES) as (e & t & He & Hr & Hlv & r & Htr & Hh & H0 & Hx).
  - exact Hstored.
  - intros w Hw. apply Hfind. rewrite Hws. apply elem_of_app. by right.
  - done.
  - done.
  - done.
  - lia.
  - apply payload_blocks. lia.
  - exists e, t, r. rewrite Hc in Hh. rewrite take_app_length' by lia. by rewrite Hx, Hsum.
Qed.
End payload.

(** C6: what is streamed in is streamed out.  A payload of up to 2 GiB that
    [append_reader_data_tree] wrote is, in the file at that point and after
    any further blocks, found under its root by a lookup that knows the
    blocks that were written; [streaming_reader] opens it, and the chunks that
    its [read] returns for any sequence of buffers are together the bytes of
    the payload, each once and in order. *)
Theorem streamed_payload_reads_back {S : Type}
    `{!BlockFind Entry S, !BlockFindLaws Entry UnicodeBlockId UnicodeByteIndex S}
    sha256 src byte_len expected eof s root size hash s' l s'' :
  0 < byte_len <= 2 ^ 31 -> stream_ok s -> bytes_ok src ->
  append_reader_data_tree sha256 src byte_len expected eof s = (Ok (root, size, hash), s') ->
  emitted s' l s'' -> ws_next s'' <= MAX_BLOCKS ->
  (forall w, w ∈ ws_written s'' -> bl_spec (block_key w) = Ok (entry_of w)) ->
  exists e t, bl_spec (bid_search_key root) = Ok e /\ DataTree.read (stream_data s'') Permute e = Ok t /\
    forall c, coherent (E := Entry) (stream_data s'') Permute c -> exists r c',
      streaming_reader (stream_data s'') Permute t c = Some (Ok r, c') /\
      forall lens, read_all (stream_data s'') Permute lens r =
        Ok (take (sum_list lens) (take (Z.to_nat byte_len) src)).
Proof.
  intros Hlen Hok Hsrc H Hl Hmax Hfind.
  pose proof H as (_ & _ & data & rest & Es & Hd & _)%logs_append_reader; [|lia].
  destruct (streamed_payload_reader (stream_data s'') _ _ _ _ _ _ _ _ _ _ _ _ Hlen Hok Hsrc H Hl Hmax Hfind ltac:(done))
    as (e & t & r & He & Hr & Hlv & Htr & Hh & H0 & Hx).
  exists e, t. split_and!; [done|done|]. intros c Hc.
  destruct (computes_reader_new (stream_data s'') Permute t MAX_STREAMING_DATA_TREE_ENTRIES ltac:(done) Hlv c Hc)
    as (r' & c' & Hrun & _ & Hspec).
  apply Hspec in Htr as ->. exists r, c'. split; [exact Hrun|]. intros lens.
  apply read_all_exact; [done|lia|lia|]. rewrite length_take, Es, length_app. lia.
Qed.

(** ** A lookup among the blocks written *)

Definition written_find (ws : list WrittenBlock) : BlockFind Entry unit :=
  fun k s => Some (btree_lookup (map entry_of ws) k, s).

Definition written_find_laws (ws : list WrittenBlock) :
  BlockFindLaws Entry UnicodeBlockId UnicodeByteIndex unit (BlockFind0 := written_find ws).
Proof.
  refine {| bl_inv _ := True; bl_spec := btree_lookup (map entry_of ws) |}.
  - intros k s _. by exists s.
  - intros k e H. unfold btree_lookup in H. destruct (List.find _ _) as [e'|] eqn:Hf; [|done].
    injection H as ->. apply find_some in Hf as [_ Hk]. by apply Z.eqb_eq in Hk.
Defined.

Lemma written_find_ok ws w :
  NoDup (map block_key ws) -> w ∈ ws -> btree_lookup (map entry_of ws) (block_key w) = Ok (entry_of w).
Proof.
  unfold btree_lookup. intros Hk Hw. induction ws as [|w0 ws IH]; [by inversion Hw|]. cbn [map List.find].
  inversion Hk as [|? ? Hn Hk']; subst.
  change (be_key (entry_of w0)) with (block_key w0). destruct (Z.eqb_spec (block_key w0) (block_key w)) as [E|E].
  - apply list_elem_of_In in Hw as [->|Hw]; [done|]. exfalso. apply Hn. rewrite E.
    apply (list_elem_of_fmap_2 block_key). by apply list_elem_of_In.
  - apply IH; [done|]. apply list_elem_of_In in Hw as [->|Hw]; [done|]. by apply list_elem_of_In.
Qed.

(** ** Examples *)

Lemma sample_stream_ok : stream_ok sample_stream.
Proof. split; [done|cbv; split; congruence|constructor|constructor]. Qed.

Lemma streamed_payload_reads_back_witness :
  exists s' e t r c', append_reader_data_tree (fun _ => []) (replicate (Z.to_nat 8180) 7) 8180 None true sample_stream =
      (Ok (mk_UnicodeBlockId 122, 8180, []), s') /\
    btree_lookup (map entry_of (ws_written s')) 122 = Ok e /\
    DataTree.read (stream_data s') Permute e = Ok t /\
    streaming_reader (BlockFind0 := written_find (ws_written s')) (stream_data s') Permute t (tt, ∅) = Some (Ok r, c') /\
    read_all (stream_data s') Permute [2; 3]%nat r = Ok [7; 7; 7; 7; 7].
Proof.
  destruct (append_reader_data_tree (fun _ => []) (replicate (Z.to_nat 8180) 7) 8180 None true sample_stream)
    as [r s'] eqn:E.
  assert (r = Ok (mk_UnicodeBlockId 122, 8180, [])) as Er
    by (replace r with (fst (r, s')) by done; rewrite <- E; vm_compute; reflexivity).
  assert (ws_next s' <= MAX_BLOCKS) as Hn.
  { replace s' with (snd (r, s')) by done. rewrite <- E. vm_compute. discriminate. }
  assert (NoDup (map block_key (ws_written s'))) as Hk.
  { replace s' with (snd (r, s')) by done. rewrite <- E.
    apply (bool_decide_unpack (NoDup _)). vm_compute. exact I. }
  rewrite Er in E |- *. clear Er r.
  destruct (streamed_payload_reads_back (BlockFindLaws0 := written_find_laws (ws_written s')) (fun _ => [])
    (replicate (Z.to_nat 8180) 7) 8180 None true sample_stream (mk_UnicodeBlockId 122) 8180 [] s' [] s')
    as (e & t & He & Ht & Hread); [lia|exact sample_stream_ok| |exact E|constructor|exact Hn| |].
  - apply bytes_ok_b. vm_compute. reflexivity.
  - intros w Hw. by apply written_find_ok.
  - destruct (Hread (tt, ∅)) as (r & c' & Hr & Hall).
    { split; [exact I|]. intros id t' H. exfalso. exact (lookup_empty_Some (M := gmap Z) _ _ H). }
    exists s', e, t, r, c'. split_and!; [reflexivity|exact He|exact Ht|exact Hr|].
    rewrite Hall. vm_compute. reflexivity.
Defined.
