(* ===== verification/WriterCheckpoint.v ===== *)
(** * Undoing the blocks of a message

    [MessageAppendCheckpoint]: whatever the writer emitted after a checkpoint,
    with success or not, [rollback_message] brings the state back and leaves
    every earlier block in the file; so does [restore_projected_message] on a
    projected stream. *)
From S2P Require Import Prelude Errors Io Ids Block BTree DataTree Alloc WriterBlocks WriterTree WriterDisk.
#[local] Open Scope Z_scope.

(** ** Steps of a stream *)

(** [s'] is [s] with more blocks, none of them below the cursor of [s]. *)
Record extends (s s' : WriteState) : Prop := {
  ext_cursor : ws_cursor s <= ws_cursor s';
  ext_written : exists l, ws_written s' = ws_written s ++ l;
  ext_file : is_Some (ws_file s') <-> is_Some (ws_file s);
  ext_data : frame (fun o => ws_cursor s <= o) (stream_data s) (stream_data s')
}.

#[export] Instance extends_preorder : PreOrder extends.
Proof.
  split; [intros s; split; [lia|exists []; by rewrite app_nil_r|done|done]|].
  intros s1 s2 s3 [Hc (l & Hl) Hf Hd] [Hc' (l' & Hl') Hf' Hd']. split; [lia| |by rewrite Hf'|].
  - exists (l ++ l'). by rewrite Hl', Hl, app_assoc.
  - etrans; [exact Hd|]. eapply frame_weaken; [|exact Hd']. cbn beta. lia.
Qed.

(** A change that is not seen by [extends]. *)
Lemma extends_same s s' :
  ws_cursor s' = ws_cursor s -> ws_written s' = ws_written s -> ws_file s' = ws_file s -> extends s s'.
Proof.
  intros Hc Hw Hf. split; [lia|exists []; by rewrite app_nil_r|by rewrite Hf|].
  unfold stream_data. by rewrite Hf.
Qed.

(** One call, whatever it returns: taking an id, or emitting a block. *)
Inductive step : WriteState -> WriteState -> Prop :=
| step_take internal s r s' : take_block_id internal s = (r, s') -> step s s'
| step_emit b s r s' : emit b s = (r, s') -> step s s'.

(** A bound on how far one block moves the cursor. *)
Definition MAX_STEP : Z := 2 ^ 18.

(** A run of [n] calls. *)
Inductive steps : nat -> WriteState -> WriteState -> Prop :=
| steps_refl s : steps 0 s s
| steps_step n s1 s2 s3 : step s1 s2 -> steps n s2 s3 -> steps (S n) s1 s3.

Lemma w_bind_any {S A B} (m : W S A) (k : A -> W S B) s r s' :
  w_bind m k s = (r, s') ->
  (exists a s1, m s = (Ok a, s1) /\ k a s1 = (r, s')) \/ exists x, m s = (x, s') /\ forall a, x <> Ok a.
Proof.
  unfold w_bind. destruct (m s) as [[a|e|] s1]; intros H.
  - left. eauto.
  - right. injection H as <- <-. by exists (Err e).
  - right. injection H as <- <-. by exists Panic.
Qed.

Lemma take_any {S} `{!NextIndex S} internal (s : S) r s' :
  take_block_id internal s = (r, s') -> s' = s \/ s' = set_next_block_index (next_block_index s + 1) s.
Proof.
  intros H. unfold take_block_id, w_bind, w_get, w_lift, w_modify, fits, checked_add in H.
  destruct (_ <? _) in H; cbn in H; [right|left]; congruence.
Qed.

Lemma check_flag_any s r s' : check_flag s = (r, s') -> s' = pop_flag s.
Proof. unfold check_flag, w_bind, w_get, w_modify, w_lift. congruence. Qed.

Lemma allocate_any size a s r s' :
  FIRST_AMAP <= ws_cursor s <= 2 ^ 61 -> extent_size_ok size -> alignment_ok a ->
  allocate size a s = (r, s') -> exists o, r = Ok o /\ s' = set_cursor (o + size) s /\
    ws_cursor s <= o /\ o + size <= ws_cursor s + MAX_STEP.
Proof.
  intros Hc Hs Ha H. destruct (allocate_extent_first (ws_cursor s) size a Ha Hs Hc) as (o & Ho & (Hge & _) & Hle).
  unfold allocate, w_bind, w_get, w_lift, w_modify, w_ret in H. rewrite Ho in H. cbn in H. injection H as <- <-.
  exists o. unfold extent_size_ok, AMAP_DATA_SIZE, SLOTS_PER_AMAP, SLOT_SIZE, MAX_STEP in *. split_and!; lia || done.
Qed.

(** The writing of a block, from the sizes on, once the flag was read. *)
Lemma write_sized_any p b s r s' :
  FIRST_AMAP <= ws_cursor s <= 2 ^ 61 ->
  (let^ sizes := w_lift (block_sizes p) in
   let '(size, physical_size) := sizes in
   let^ offset := allocate physical_size SLOT_SIZE in
   let^ file := w_get ws_file in
   match file with
   | None => w_lift Panic
   | Some f =>
       let f := wseek_start offset f in
       let signature := compute_sig (wrap 32 offset) (wrap 32 (unicode_block_id_0 (bs_id b))) in
       let^ trailer := w_lift (structure (UnicodeBlockTrailer.new size signature 0 (bs_id b))) in
       let^ f := w_lift (write_payload p trailer f) in
       let^ _ := w_modify (set_wfile f) in
       w_ret (mk_WrittenBlock (bs_id b) offset size (bs_ref_count b))
   end) s = (r, s') ->
  extends s s' /\ ws_cursor s' <= ws_cursor s + MAX_STEP /\ ws_written s' = ws_written s.
Proof.
  intros Hc H.
  assert (forall s', s' = s -> extends s s' /\ ws_cursor s' <= ws_cursor s + MAX_STEP /\ ws_written s' = ws_written s)
    as Hsame by (intros ? ->; split_and!; [done|unfold MAX_STEP; lia|done]).
  apply w_bind_any in H as [([size phys] & s1 & [Hs <-]%w_lift_ok & H)|(x & Hx & _)]; [|apply Hsame; by injection Hx].
  apply block_sizes_ok in Hs as (-> & Hsz & -> & Hext). cbv beta iota in H.
  apply w_bind_any in H as [(o & s1 & Ha & H)|(y & Ha & Hno)];
    (apply allocate_any in Ha as (o' & Ho & -> & Hge & Hle); [|done|done|by left]); [|by destruct (Hno o')].
  injection Ho as <-. unfold extent_size_ok in Hext.
  assert (extends s (set_cursor (o + physical (logical_size p)) s)) as Hcur.
  { split; [cbn; lia|exists []; by rewrite app_nil_r|done|done]. }
  set (s1 := set_cursor (o + physical (logical_size p)) s) in *.
  assert (forall s', s' = s1 -> extends s s' /\ ws_cursor s' <= ws_cursor s + MAX_STEP /\ ws_written s' = ws_written s)
    as Hsame1 by (intros ? ->; split_and!; [done|subst s1; cbn; lia|done]).
  apply w_bind_any in H as [(file & s2 & [= <- <-] & H)|(x & [= <- _] & Hno)]; [|by destruct (Hno (ws_file s1))].
  cbn [s1 ws_file set_cursor] in H.
  destruct (ws_file s) as [f|] eqn:Hf; [|apply Hsame1; by injection H].
  apply w_bind_any in H as [(t & s2 & [Ht <-]%w_lift_ok & H)|(x & Hx & _)]; [|apply Hsame1; by injection Hx].
  apply w_bind_any in H as [(f' & s2 & [Hw <-]%w_lift_ok & H)|(x & Hx & _)]; [|apply Hsame1; by injection Hx].
  cbn in H. injection H as _ <-. apply structure_ok, trailer_new_ok in Ht as [-> Hsz1].
  change FIRST_AMAP with 17408 in Hc.
  apply (store_payload (bs_id b) 2 o _ _ f f') in Hw as [Hfr _]; [|lia|apply compute_sig_uint|done|done].
  split_and!; [|cbn; lia|done]. split; [cbn; lia|exists []; by rewrite app_nil_r|cbn; by rewrite Hf|].
  unfold stream_data. cbn [ws_file set_wfile]. rewrite Hf. eapply frame_weaken; [|exact Hfr]. unfold span. lia.
Qed.

Lemma write_block_any b s r s' :
  write_block b s = (r, s') -> FIRST_AMAP <= ws_cursor s <= 2 ^ 61 ->
  extends s s' /\ ws_cursor s' <= ws_cursor s + MAX_STEP /\ ws_written s' = ws_written s.
Proof.
  intros H Hc. unfold write_block in H.
  assert (extends s (pop_flag s)) as Hpop by by apply extends_same.
  assert (forall s', extends (pop_flag s) s' /\ ws_cursor s' <= ws_cursor (pop_flag s) + MAX_STEP /\
      ws_written s' = ws_written (pop_flag s) ->
    extends s s' /\ ws_cursor s' <= ws_cursor s + MAX_STEP /\ ws_written s' = ws_written s) as Hup.
  { intros s1 (? & ? & ?). split_and!; [by etrans|done|done]. }
  apply w_bind_any in H as [(? & s1 & Hf%check_flag_any & H)|(x & Hf%check_flag_any & _)]; subst; apply Hup.
  2: { split_and!; [done|unfold MAX_STEP; lia|done]. }
  destruct (bs_payload b) eqn:E; [|injection H as _ <-; split_and!; [done|unfold MAX_STEP; lia|done]|..];
    (eapply (write_sized_any _ b); [|exact H]; done).
Qed.

Lemma emit_any b s r s' :
  emit b s = (r, s') -> FIRST_AMAP <= ws_cursor s <= 2 ^ 61 ->
  extends s s' /\ ws_cursor s' <= ws_cursor s + MAX_STEP.
Proof.
  intros H Hc. apply w_bind_any in H as [(file & s1 & [= <- <-] & H)|(x & [= <- _] & Hno)]; [|by destruct (Hno (ws_file s))].
  destruct (ws_file s) as [f|] eqn:Hf.
  - apply w_bind_any in H as [(ws & s1 & H & [= _ <-])|(x & H & _)].
    + cbn [write_blocks] in H. apply w_bind_ok in H as (w & s2 & Hw & H). cbn in H. injection H as <- <-.
      apply write_block_any in Hw as ([Hc1 (l & Hl) Hfi Hd] & Hle & _); [|done]. split; [|done].
      split; [done| |done|done]. exists (l ++ [w]). cbn. by rewrite Hl, app_assoc.
    + cbn [write_blocks] in H. apply w_bind_any in H as [(w & s2 & Hw & H)|(y & H & _)].
      * cbn in H. injection H as _ <-. by apply write_block_any in Hw as (? & ? & _).
      * by apply write_block_any in H as (? & ? & _).
  - assert (forall s', ws_cursor s' = ws_cursor s -> ws_written s' = ws_written s -> ws_file s' = ws_file s ->
      extends s s' /\ ws_cursor s' <= ws_cursor s + MAX_STEP) as Hsame.
    { intros s1 H1 H2 H3. split; [by apply extends_same|unfold MAX_STEP; lia]. }
    apply w_bind_any in H as [([] & s1 & Hp%check_flag_any & H)|(x & Hp%check_flag_any & _)]; subst; [|by apply Hsame].
    apply w_bind_any in H as [([size phys] & s1 & [Hs <-]%w_lift_ok & H)|(y & Hx & _)];
      [|injection Hx as _ <-; by apply Hsame].
    apply block_sizes_ok in Hs as (-> & Hsz & -> & Hext). cbv beta iota in H.
    apply w_bind_any in H as [(o & s1 & Ha & H)|(y & Ha & Hno)];
      (apply allocate_any in Ha as (o' & Ho & -> & Hge & Hle); [|done|done|by left]); [|by destruct (Hno o')].
    injection H as _ <-. unfold extent_size_ok in Hext. cbn in Hge, Hle. split; [|done].
    split; [cbn; lia|by eexists|by cbn|unfold stream_data; cbn; by rewrite Hf].
Qed.

Lemma steps_extends n s s' :
  steps n s s' -> FIRST_AMAP <= ws_cursor s -> ws_cursor s + Z.of_nat n * MAX_STEP <= 2 ^ 61 -> extends s s'.
Proof.
  induction 1 as [s|n s1 s2 s3 H12 H23 IH]; intros Hc Hmax; [done|].
  assert (extends s1 s2 /\ ws_cursor s2 <= ws_cursor s1 + MAX_STEP) as [He Hle].
  { inversion H12 as [internal ? r ? Ht|b ? r ? He]; subst.
    - apply take_any in Ht as [->| ->]; (split; [by apply extends_same|cbn; unfold MAX_STEP; lia]).
    - apply emit_any in He; [done|unfold MAX_STEP in *; lia]. }
  etrans; [exact He|]. destruct He as [Hge _ _ _]. apply IH; lia.
Qed.

(** ** Rolling back *)

Section rollback.
Context {Row TopNode : Type}.

(** What [append_message] may do to the state: calls on the stream, with any
    result, and pushes to the lists. *)
Record appended (n : nat) (s s' : MessageStreamState Row TopNode) : Prop := {
  app_stream : steps n (ms_stream s) (ms_stream s');
  app_subnodes : ms_streamed_subnodes s `prefix_of` ms_streamed_subnodes s';
  app_contents : ms_contents_rows s `prefix_of` ms_contents_rows s';
  app_associated : ms_associated_rows s `prefix_of` ms_associated_rows s';
  app_nodes : ms_top_nodes s `prefix_of` ms_top_nodes s'
}.

(** The state between messages: the file ends at or before [file_len], past
    the last block. *)
Record message_ok (n : nat) (s : MessageStreamState Row TopNode) : Prop := {
  mo_cursor : FIRST_AMAP <= ws_cursor (ms_stream s) <= ms_file_len s;
  mo_room : ws_cursor (ms_stream s) + Z.of_nat n * MAX_STEP <= 2 ^ 61;
  mo_len : Z.of_nat (length (stream_data (ms_stream s))) <= ms_file_len s
}.

(** [s] with the file and the flags of the stream replaced. *)
Definition with_file (file : option wfile) (flags : list bool) (s : MessageStreamState Row TopNode)
    : MessageStreamState Row TopNode :=
  let w := ms_stream s in
  mk_MessageStreamState (ms_file_len s) (mk_WriteState (ws_next w) (ws_cursor w) (ws_written w) file flags)
    (ms_streamed_subnodes s) (ms_next_value_node s) (ms_contents_rows s) (ms_associated_rows s) (ms_top_nodes s).

Lemma prefix_take {A} (l k : list A) : l `prefix_of` k -> take (length l) k = l.
Proof. intros [r ->]. by apply take_app_exact. Qed.

(** The lists of the state are cut back to those of the checkpoint. *)
Lemma restore_appended n s s' :
  appended n s s' -> message_ok n s ->
  set_file_len (cp_file_len (checkpoint s)) (restore (checkpoint s) s') =
    with_file (ws_file (ms_stream s')) (ws_flags (ms_stream s')) s.
Proof using Type.
  intros [Hs H1 H2 H3 H4] [[Hc _] Hr _]. destruct (steps_extends _ _ _ Hs Hc Hr) as [_ (l & Hl) _ _].
  unfold restore, set_file_len, with_file, checkpoint. cbn. rewrite Hl, take_app_length, !prefix_take by done. done.
Qed.

Lemma set_len_frame Q d f c n :
  frame Q d (wf_data f) -> (forall o, Q o -> c <= o) -> c <= n -> Z.of_nat (length d) <= n ->
  length (wf_data (set_len n f)) = Z.to_nat n /\ frame (fun o => c <= o) d (wf_data (set_len n f)).
Proof using Type.
  intros [Hl Hq] Hc Hn Hd. unfold set_len. cbn [wf_data].
  set (k := Z.to_nat n). assert (length (take k (wf_data f ++ replicate (k - length (wf_data f)) 0)) = k) as Hk.
  { rewrite length_take, length_app, length_replicate. lia. }
  split; [done|]. split; [lia|]. intros i Hi Hni.
  rewrite lookup_take_lt by lia. rewrite lookup_app_l by lia. apply Hq; [done|]. intros Ho%Hc. done.
Qed.
End rollback.

(** C10: undoing a message.  Whatever was done to the stream and the lists
    after a checkpoint, successful or not, [rollback_message] brings back the
    length, the cursor, the ids, the lists and the nodes of the checkpoint,
    cuts the file to the recorded length, and every block that was stored in
    the file before is still stored there; on a projected stream
    [restore_projected_message] brings the same back. *)
Theorem rollback_message_restores {Row TopNode} n (s s' : MessageStreamState Row TopNode) :
  appended n s s' -> message_ok n s ->
  (exists file, rollback_message (checkpoint s) s' = with_file file (ws_flags (ms_stream s')) s /\
    forall f, ws_file (ms_stream s) = Some f -> exists f', file = Some f' /\
      Z.of_nat (length (wf_data f')) = ms_file_len s /\
      forall b w, 0 <= wb_offset w -> wb_offset w + physical (wb_size w) <= ws_cursor (ms_stream s) ->
        stored (wf_data f) b w -> stored (wf_data f') b w) /\
  (ws_file (ms_stream s) = None ->
    restore_projected_message (checkpoint s) s' = with_file None (ws_flags (ms_stream s')) s).
Proof.
  intros Ha Hm. pose proof (restore_appended n s s' Ha Hm) as Hr.
  destruct Ha as [Hs _ _ _ _], Hm as [[Hc Hlen] Hroom Hd].
  destruct (steps_extends _ _ _ Hs Hc Hroom) as [_ _ Hfile Hdata]. split.
  - exists (set_len (ms_file_len s) <$> ws_file (ms_stream s')). split.
    + unfold rollback_message, rollback. revert Hr. unfold set_file_len, restore, with_file. cbn.
      intros Hr. injection Hr. intros. by repeat f_equal.
    + intros f Hf. destruct (proj2 Hfile (ex_intro _ f Hf)) as [f' Hf']. rewrite Hf'. cbn. eexists. split; [done|].
      unfold stream_data in Hdata, Hd. rewrite Hf, ?Hf' in Hdata. rewrite Hf in Hd.
      destruct (set_len_frame _ (wf_data f) f' (ws_cursor (ms_stream s)) (ms_file_len s) Hdata) as [Hl Hfr]; [done|done|done|].
      change FIRST_AMAP with 17408 in Hc. split; [lia|]. intros b w H0 Hw.
      apply (stored_frame _ _ _ _ _ H0 (frame_agree _ _ _ Hfr)). unfold span. lia.
  - intros Hn. unfold restore_projected_message. rewrite Hr.
    assert (ws_file (ms_stream s') = None) as ->; [|done].
    destruct (ws_file (ms_stream s')) as [f|]; [|done]. destruct (proj1 Hfile) as [x Hx]; [by eexists|congruence].
Qed.

(** ** Example *)

Definition sample_message : MessageStreamState unit unit := message_stream_new (Some (mk_wfile [] 0)) [].

(** The sample after a block of three bytes, and a second one that fails
    because it is empty. *)
Definition sample_appended : MessageStreamState unit unit :=
  let s := ms_stream sample_message in
  let s := (emit (mk_BlockSpec (mk_UnicodeBlockId 112) (Data [1; 2; 3]) 2) s).2 in
  let s := (emit (mk_BlockSpec (mk_UnicodeBlockId 116) (Data []) 2) s).2 in
  mk_MessageStreamState INITIAL_FILE_EOF s [mk_NodeId 5] 7 [tt] [] [tt].

Lemma rollback_message_restores_witness :
  (length (ws_written (ms_stream sample_appended)) = 1)%nat /\
  exists file, rollback_message (checkpoint sample_message) sample_appended = with_file file [] sample_message /\
    exists f', file = Some f' /\ Z.of_nat (length (wf_data f')) = INITIAL_FILE_EOF.
Proof.
  split; [vm_compute; reflexivity|].
  destruct (rollback_message_restores 2 sample_message sample_appended) as [(file & Hr & Hf) _].
  - split; [|by apply prefix_nil..].
    set (b1 := mk_BlockSpec (mk_UnicodeBlockId 112) (Data [1; 2; 3]) 2).
    set (b2 := mk_BlockSpec (mk_UnicodeBlockId 116) (Data []) 2).
    change (ms_stream sample_appended) with (emit b2 (emit b1 (ms_stream sample_message)).2).2.
    eapply steps_step; [eapply (step_emit b1); apply surjective_pairing|].
    eapply steps_step; [eapply (step_emit b2); apply surjective_pairing|constructor].
  - split; cbv; try split; discriminate.
  - exists file. split; [exact Hr|]. destruct (Hf (mk_wfile [] 0) eq_refl) as (f' & -> & Hl & _).
    exists f'. split; [reflexivity|exact Hl].
Defined.
