(* ===== verification/WriterBTree.v ===== *)
(** * B-trees written to a new file

    [write_bbt] and [write_nbt] of [writer.rs]: the entries are spread over
    leaf pages, the leaf pages over pages of entries, level by level, until
    one page is left. The tree that the file then holds is the search tree of
    file BTree, with all the entries, under page ids that are used once. *)
From stdpp Require Import sorting.
From S2P Require Import Prelude Search Errors Io Ids Page BTree Block Amap Alloc WriterBlocks WriterDisk.
#[local] Open Scope Z_scope.

(** ** Pages *)

Definition page_trailer (t : PageType) (offset : Z) (page_id : UnicodePageId) : UnicodePageTrailer :=
  let signature := PageType_signature t offset (unicode_page_id_0 page_id) in
  UnicodePageTrailer.new t signature page_id 0.

(** [next_offset], [next_page] and [file]. *)
Record PageState := mk_PageState { ps_offset : Z; ps_page : Z; ps_file : wfile }.

(** [allocate_extent(&mut next_offset, PAGE_SIZE, PAGE_SIZE)?] *)
Definition allocate_page : W PageState Z :=
  let^ cursor := w_get ps_offset in
  let^ r := w_lift (allocate_extent cursor PAGE_SIZE PAGE_SIZE) in
  let^ _ := w_modify (fun s => mk_PageState r.2 (ps_page s) (ps_file s)) in
  w_ret r.1.

(** [&entries[range]] *)
Definition index_range {A} (entries : list A) (range : Z * Z) : wres (list A) :=
  if (0 <=? range.1) && (range.1 <=? range.2) && (range.2 <=? Z.of_nat (length entries))
  then Ok (take (Z.to_nat (range.2 - range.1)) (drop (Z.to_nat range.1) entries)) else Panic.

(** [entries[index]] *)
Definition index_at {A} (entries : list A) (index : Z) : wres A :=
  match entries !! Z.to_nat index with Some e => Ok e | None => Panic end.

Section put.
Context {Pg E : Type} `{!BTreePageReadWrite Pg E UnicodePageId, !BTreeEntry E}.
Context (t : PageType) (page_id_name : string) (level max_entries entry_size : Z).

(** The body of [for range in ranges]: one page and the entry that leads to
    it. *)
Definition put_page (entries : list E) (range : Z * Z) : W PageState UnicodeBTreePageEntry :=
  let^ offset := allocate_page in
  let^ next_page := w_get ps_page in
  let page_id := mk_UnicodePageId next_page in
  let^ chunk := w_lift (index_range entries range) in
  let^ page := w_lift (structure (btp_new level max_entries entry_size chunk (page_trailer t offset page_id))) in
  let^ file := w_get ps_file in
  let^ bytes := w_lift (wio (BTreePage.write page)) in
  let file := write_all bytes (wseek_start offset file) in
  let^ _ := w_modify (fun s => mk_PageState (ps_offset s) (ps_page s) file) in
  let^ first := w_lift (index_at entries range.1) in
  let^ next_page := w_lift (fits (checked_add 64 next_page 1) page_id_name) in
  let^ _ := w_modify (fun s => mk_PageState (ps_offset s) next_page (ps_file s)) in
  w_ret (UnicodeBTreePageEntry.new (be_key first) (mk_BlockRef page_id (mk_UnicodeByteIndex offset))).

Fixpoint put_pages (entries : list E) (ranges : list (Z * Z)) : W PageState (list UnicodeBTreePageEntry) :=
  match ranges with
  | [] => w_ret []
  | range :: ranges =>
      let^ root := put_page entries range in
      let^ roots := put_pages entries ranges in
      w_ret (root :: roots)
  end.
End put.

(** [while roots.len() > 1 { .. }]; running out of fuel is [Panic]. The level
    of a page is at most 8. *)
Fixpoint write_levels (t : PageType) (page_id_name depth_name : string) (fuel : nat) (level : Z)
    (roots : list UnicodeBTreePageEntry) : W PageState (list UnicodeBTreePageEntry) :=
  if 1 <? Z.of_nat (length roots) then
    match fuel with
    | O => w_lift Panic
    | S fuel =>
        let^ ranges := w_lift (plan_leaf_pages (Z.of_nat (length roots)) 20) in
        let^ parents := put_pages (Pg := UnicodeBTreeEntryPage) t page_id_name level 20 24 roots ranges in
        let^ level := w_lift (fits (checked_add 8 level 1) depth_name) in
        write_levels t page_id_name depth_name fuel level parents
    end
  else w_ret roots.

(** What [write_bbt] and [write_nbt] do, which differ in the leaf pages and in
    their messages. *)
Definition write_tree {t : PageType} {LE : Type} `{!BTreeEntry LE} (empty page_id_name depth_name : string)
    (capacity entry_size : Z) (entries : list LE) : W PageState (UnicodePageRef * Z * Z) :=
  let^ pages := w_lift (plan_leaf_pages (Z.of_nat (length entries)) capacity) in
  match pages with
  | [] => w_lift (Err (InvalidStructure empty))
  | _ =>
      let^ roots := put_pages (Pg := BTreeLeafPage t LE UnicodePageId) t page_id_name 0 capacity entry_size entries pages in
      let^ roots := write_levels t page_id_name depth_name LEVEL_FUEL 1 roots in
      let^ root := w_lift (index_at roots 0) in
      let^ next_offset := w_get ps_offset in
      let^ next_page := w_get ps_page in
      w_ret (bpe_block root, next_offset, next_page)
  end.

Definition write_bbt (file : wfile) (first_offset first_page_id : Z) (blocks : list WrittenBlock) :
    wres (UnicodePageRef * Z * Z) * PageState :=
  write_tree (t := BlockBTree) "BBT is empty" "BBT page id" "BBT depth" 20 24 (map entry_of blocks)
    (mk_PageState first_offset first_page_id file).

Definition write_nbt (file : wfile) (first_offset first_page_id : Z) (entries : list UnicodeNodeBTreeEntry.t) :
    wres (UnicodePageRef * Z * Z) * PageState :=
  write_tree (t := NodeBTree) "NBT is empty" "NBT page id" "NBT depth" 15 32 entries
    (mk_PageState first_offset first_page_id file).

(** ** Computations *)

Lemma index_range_ok {A} (entries : list A) a b :
  0 <= a <= b -> b <= Z.of_nat (length entries) ->
  index_range entries (a, b) = Ok (take (Z.to_nat (b - a)) (drop (Z.to_nat a) entries)).
Proof.
  intros Ha Hb. unfold index_range. cbn [fst snd].
  destruct (Z.leb_spec 0 a); [|lia]. destruct (Z.leb_spec a b); [|lia].
  by destruct (Z.leb_spec b (Z.of_nat (length entries))); [|lia].
Qed.

Lemma checked_add_ok w x y : x + y < 2 ^ w -> checked_add w x y = Some (x + y).
Proof. intros H. unfold checked_add. by destruct (Z.ltb_spec (x + y) (2 ^ w)); [|lia]. Qed.

(** A page moves the cursor by less than this. *)
Definition PAGE_STEP : Z := 2 ^ 18.

(** [n] pages in a row: where the cursor is left. *)
Fixpoint alloc_pages (n : nat) (cursor : Z) : wres Z :=
  match n with
  | O => Ok cursor
  | S n => let? r := allocate_extent cursor PAGE_SIZE PAGE_SIZE in alloc_pages n r.2
  end.

Lemma alloc_pages_add n m c : alloc_pages (n + m) c = rbind (alloc_pages n c) (alloc_pages m).
Proof.
  revert c. induction n as [|n IH]; intros c; cbn [alloc_pages Nat.add]; [done|].
  destruct (allocate_extent c PAGE_SIZE PAGE_SIZE) as [r| |]; cbn [rbind]; [apply IH|done..].
Qed.

Lemma allocate_page_ok c :
  FIRST_AMAP <= c <= 2 ^ 61 ->
  exists o, allocate_extent c PAGE_SIZE PAGE_SIZE = Ok (o, o + PAGE_SIZE) /\
    c <= o /\ o + PAGE_SIZE <= c + PAGE_STEP /\ first_free PAGE_SIZE PAGE_SIZE c o.
Proof.
  intros Hc. destruct (allocate_extent_first c PAGE_SIZE PAGE_SIZE) as (o & E & Hf & Ho);
    [by right|unfold extent_size_ok, PAGE_SIZE; lia|done|].
  exists o. split; [exact E|]. split; [apply Hf|]. split; [|exact Hf].
  unfold PAGE_SIZE, PAGE_STEP. assert (AMAP_DATA_SIZE = 253952) as Hads by done. lia.
Qed.

(** ** Reading pages of a file that changed elsewhere *)

Section mono.
Context {P : PageType} {LE : Type} `{!BTreeEntry LE}.
Abbreviation page := (RootBTreePage.t (P := P) (LE := LE) (B := UnicodePageId) (I := UnicodeByteIndex)).

Lemma page_read_frame Q d d' (r : UnicodePageRef) (p : page) :
  0 <= bi_index (bref_index r) -> agree Q d d' ->
  (forall o, span (bi_index (bref_index r)) 512 o -> ~ Q o) ->
  RootBTreePage.read d r = Ok p -> RootBTreePage.read d' r = Ok p.
Proof.
  unfold RootBTreePage.read, read_at. intros H0 Hq Hs H.
  apply rbind_ok in H as ([p' u] & H & [= <-]). unfold RootBTreePage.read_page in *.
  apply rd_bind_ok in H as (bs & u1 & Hb & H).
  eapply read_exact_frame in Hb as [u' Hb]; [|exact Hq|].
  2:{ intros o Ho. apply Hs. unfold span in *. change (Z.to_nat Page.PAGE_SIZE) with 512%nat in Ho. lia. }
  apply rd_bind_ok in H as (lv & u2 & [[? Hl] _]%with_cursor_ok & H).
  erewrite rd_bind_eq by exact Hb. erewrite rd_bind_eq by (by eapply with_cursor_eq).
  destruct (lv =? 0);
    (apply rd_bind_ok in H as (q & u3 & [[? Hi] _]%with_cursor_ok & [= <- _]);
     by erewrite rd_bind_eq by (by eapply with_cursor_eq)).
Qed.

Lemma btree_mono d d' (K K' : UnicodePageRef -> Prop) n (p : page) lo hi es :
  (forall r, K r -> K' r) ->
  (forall r q, K r -> RootBTreePage.read (P := P) (LE := LE) d r = Ok q -> RootBTreePage.read d' r = Ok q) ->
  btree d K n p lo hi es -> btree d' K' n p lo hi es.
Proof.
  intros HK Hr. revert p lo hi es. induction n as [|n IH]; intros [i|l] lo hi es; cbn; try done.
  generalize (bte_entries i). intros pes. revert lo es. induction pes as [|e pes IHp]; intros lo es; cbn; [done|].
  intros (c & mid & es1 & es2 & H1 & H2 & [H3 H4] & H5 & H6 & ->).
  exists c, mid, es1, es2. do 2 (split; [done|]).
  split; [split; [by apply HK|by apply Hr]|]. split; [by apply IH|]. split; [by apply IHp|done].
Qed.
End mono.

(** ** Splitting the entries of a level *)

Section split.
Context {T PE LE : Type} (pkey : PE -> Z) (lkey : LE -> Z) (child_of : PE -> T -> Prop).
Context (R : T -> Z -> Z -> list LE -> Prop).

Lemma children_split pes1 pes2 e lo hi es :
  children pkey child_of R ((e :: pes1) ++ pes2) lo hi es ->
  exists mid es1 es2, lo <= pkey e <= mid /\ mid <= hi /\ es = es1 ++ es2 /\
    children pkey child_of R (e :: pes1) (pkey e) mid es1 /\ children pkey child_of R pes2 mid hi es2.
Proof.
  revert e lo es. induction pes1 as [|e' pes1 IH]; intros e lo es.
  - cbn [app]. intros (c & mid & es1 & es2 & H1 & H2 & H3 & H4 & H5 & ->).
    exists mid, es1, es2. split_and!; try done; [lia..|].
    exists c, mid, es1, []. rewrite app_nil_r. split_and!; done || lia.
  - intros (c & mid & es1 & es2 & H1 & H2 & H3 & H4 & H5 & ->).
    destruct (IH e' mid es2 H5) as (mid' & es2' & es3 & H6 & H7 & -> & H8 & H9).
    exists mid', (es1 ++ es2'), es3. split_and!; try done; [lia..|by rewrite app_assoc|].
    exists c, mid, es1, es2'. split_and!; try done; try lia. cbn in H8 |- *.
    destruct H8 as (c' & m' & f1 & f2 & ? & ? & ? & ? & ? & ->). exists c', m', f1, f2. split_and!; done || lia.
Qed.
End split.

(** The entries of a leaf level, in ascending order. *)
Definition sorted_in {LE} (lkey : LE -> Z) (lo hi : Z) (es : list LE) : Prop :=
  StronglySorted (fun a b => lkey a < lkey b) es /\ keys_in lkey lo hi es.

Lemma sorted_in_split {LE} (lkey : LE -> Z) es1 es2 e lo hi :
  sorted_in lkey lo hi ((e :: es1) ++ es2) ->
  exists mid, lo <= lkey e <= mid /\ mid <= hi /\
    sorted_in lkey (lkey e) mid (e :: es1) /\ sorted_in lkey mid hi es2.
Proof.
  intros [Hs Hk]. apply StronglySorted_app in Hs as (Hlt & Hs1 & Hs2).
  apply Forall_app in Hk as [Hk1 Hk2]. pose proof Hs1 as [He _]%StronglySorted_cons.
  apply Forall_cons in Hk1 as [Hke Hk1].
  assert (forall mid, lkey e < mid -> (forall x, x ∈ e :: es1 -> lkey x < mid) ->
    sorted_in lkey (lkey e) mid (e :: es1)) as H1.
  { intros mid Hm Hx. split; [done|]. apply Forall_cons. split; [lia|]. rewrite Forall_forall in He |- *.
    intros x Hin. specialize (He x Hin). cbn in He. specialize (Hx x). assert (x ∈ e :: es1) as Hin2 by by constructor. specialize (Hx Hin2). lia. }
  assert (forall x, x ∈ e :: es1 -> lo <= lkey x < hi) as Hall.
  { intros x [->|Hx]%elem_of_cons; [done|]. rewrite Forall_forall in Hk1. by apply Hk1. }
  destruct es2 as [|e2 es2].
  - exists hi. do 2 (split; [lia|]). split; [|split; constructor]. apply H1; [lia|]. intros x Hx. by apply Hall.
  - pose proof Hs2 as [He2 _]%StronglySorted_cons. apply Forall_cons in Hk2 as [Hke2 Hk2].
    pose proof (Hlt e e2 ltac:(constructor) ltac:(constructor)) as Hlt2. cbn in Hlt2.
    exists (lkey e2). do 2 (split; [lia|]). split.
    + apply H1; [lia|]. intros x Hx. apply (Hlt x e2); [done|constructor].
    + split; [done|]. apply Forall_cons. split; [lia|]. rewrite Forall_forall in He2, Hk2 |- *.
      intros x Hx. specialize (He2 x Hx). specialize (Hk2 x Hx). cbn in *. lia.
Qed.

Lemma contiguous_le start rs stop :
  contiguous start rs stop -> Forall (fun r => r.1 <= r.2) rs -> start <= stop.
Proof.
  revert start. induction rs as [|r rs IH]; intros start; cbn [contiguous]; [lia|].
  intros [<- Hc] [Hr Hrs]%Forall_cons. specialize (IH _ Hc Hrs). lia.
Qed.

(** ** Progress *)

(** The entries [roots] lead to trees of depth [depth] which together hold
    the entries [es], over the keys [[lo..hi)]. *)
Definition forest {t LE} `{!BTreeEntry LE} (d : list Z) (K : UnicodePageRef -> Prop) (depth : nat)
    (roots : list UnicodeBTreePageEntry) (lo hi : Z) (es : list LE) : Prop :=
  children be_key (page_of (P := t) (LE := LE) d K) (btree d K depth) roots lo hi es.

(** The known pages were given ids from [first] on, each one once, and lie
    below the cursor. *)
Record pages_ok (first : Z) (K : UnicodePageRef -> Prop) (s : PageState) : Prop := {
  po_cursor : FIRST_AMAP <= ps_offset s;
  po_ids : 0 <= first <= ps_page s;
  po_range r : K r -> first <= unicode_page_id_0 (bref_block r) < ps_page s /\
    0 <= bi_index (bref_index r) /\ bi_index (bref_index r) + PAGE_SIZE <= ps_offset s /\
    free_at PAGE_SIZE PAGE_SIZE (bi_index (bref_index r));
  po_unique r1 r2 : K r1 -> K r2 -> bref_block r1 = bref_block r2 -> r1 = r2
}.

Abbreviation ps_data := (fun s : PageState => wf_data (ps_file s)).

(** [n] pages were put. *)
Record put (n : nat) (K : UnicodePageRef -> Prop) (s : PageState) (K' : UnicodePageRef -> Prop) (s' : PageState) : Prop := {
  put_alloc : alloc_pages n (ps_offset s) = Ok (ps_offset s');
  put_ids : ps_page s' = ps_page s + Z.of_nat n;
  put_cursor : ps_offset s <= ps_offset s' <= ps_offset s + Z.of_nat n * PAGE_STEP;
  put_frame : frame (fun o => ps_offset s <= o) (ps_data s) (ps_data s');
  put_known r : K r -> K' r
}.

Lemma put_refl K s : put 0 K s K s.
Proof. split; [done|lia|lia|reflexivity|done]. Qed.

Lemma put_trans n m K1 s1 K2 s2 K3 s3 : put n K1 s1 K2 s2 -> put m K2 s2 K3 s3 -> put (n + m) K1 s1 K3 s3.
Proof.
  intros [Ha1 Hi1 Hc1 Hf1 Hk1] [Ha2 Hi2 Hc2 Hf2 Hk2]. split; [|lia|lia| |by auto].
  - by rewrite alloc_pages_add, Ha1.
  - etrans; [exact Hf1|]. eapply frame_weaken; [|exact Hf2]. cbn. lia.
Qed.

(** Known pages are read as before. *)
Lemma put_read {P LE} `{!BTreeEntry LE} first n K s K' s' r q :
  pages_ok first K s -> put n K s K' s' -> K r ->
  RootBTreePage.read (P := P) (LE := LE) (ps_data s) r = Ok q -> RootBTreePage.read (ps_data s') r = Ok q.
Proof.
  intros Hok Hput Hr. destruct (po_range _ _ _ Hok r Hr) as (_ & H0 & Hlt & _).
  eapply page_read_frame; [done|apply frame_agree, (put_frame _ _ _ _ _ Hput)|].
  unfold span, PAGE_SIZE in *. cbn beta. lia.
Qed.

Lemma put_btree {P LE} `{!BTreeEntry LE} first n K s K' s' depth (p : RootBTreePage.t (P := P) (LE := LE)) lo hi es :
  pages_ok first K s -> put n K s K' s' -> btree (ps_data s) K depth p lo hi es -> btree (ps_data s') K' depth p lo hi es.
Proof.
  intros Hok Hput. apply btree_mono; [apply (put_known _ _ _ _ _ Hput)|]. intros r q Hr. by eapply put_read.
Qed.

(** The page at [o] becomes known. *)
Lemma put_page_known first K s o f :
  pages_ok first K s -> allocate_extent (ps_offset s) PAGE_SIZE PAGE_SIZE = Ok (o, o + PAGE_SIZE) ->
  ps_offset s <= o -> o + PAGE_SIZE <= ps_offset s + PAGE_STEP -> free_at PAGE_SIZE PAGE_SIZE o ->
  frame (span o PAGE_SIZE) (ps_data s) (wf_data f) ->
  let r := mk_BlockRef (mk_UnicodePageId (ps_page s)) (mk_UnicodeByteIndex o) in
  let s' := mk_PageState (o + PAGE_SIZE) (ps_page s + 1) f in
  let K' := fun r' => K r' \/ r' = r in
  put 1 K s K' s' /\ pages_ok first K' s'.
Proof.
  intros [Hc Hi Hr Hu] Ha Ho Ho' Hfree Hf r s' K'. assert (PAGE_SIZE = 512) as Hps by done.
  assert (FIRST_AMAP = 17408) as Hfa by done. split; split; cbn [ps_offset ps_page ps_file s'].
  - cbn [alloc_pages]. by rewrite Ha.
  - lia.
  - lia.
  - eapply frame_weaken; [|exact Hf]. unfold span. cbn. lia.
  - by left.
  - lia.
  - lia.
  - intros r' [Hr'| ->].
    + destruct (Hr r' Hr') as (H1 & H2 & H3 & H4). split_and!; done || lia.
    + cbn. split_and!; done || lia.
  - intros r1 r2 [H1| ->] [H2| ->] Heq; [by apply Hu| | |done]; exfalso.
    + specialize (Hr r1 H1). rewrite Heq in Hr. cbn in Hr. lia.
    + specialize (Hr r2 H2). rewrite <- Heq in Hr. cbn in Hr. lia.
Qed.

(** ** One page *)

(** What is used of a level of pages: its pages can be made of up to [cap]
    entries, and are pages of the tree. *)
Section level.
Context {t : PageType} {LE : Type} `{!BTreeEntry LE, !BTreeEntryLaws LE}.
Context {Pg E : Type} `{!BTreePageReadWrite Pg E UnicodePageId, !BTreeEntry E}.
Context `{!BTreePageLaws Pg E UnicodePageId, !BTreeEntryLaws E}.
Context (page_id_name : string) (level cap size : Z).

Abbreviation page := (RootBTreePage.t (P := t) (LE := LE) (B := UnicodePageId) (I := UnicodeByteIndex)).
Context (mk_root : Pg -> page).

Hypothesis root_wf : forall pg, btree_page_wf pg -> root_page_wf (mk_root pg).
Hypothesis root_write : forall pg r f, RootBTreePage.write (mk_root pg) r f =
  let? bs := BTreePage.write pg in Ok (write_all bs (wseek_start (bi_index (bref_index r)) f)).
Hypothesis page_new : forall chunk o id,
  1 <= Z.of_nat (length chunk) <= cap -> Forall ser_wf chunk -> uint 64 id ->
  exists pg, btp_new level cap size chunk (page_trailer t o (mk_UnicodePageId id)) = Ok pg /\
    btree_page_wf pg /\ btp_entries pg = chunk.

Abbreviation put_one := (put_page (Pg := Pg) t page_id_name level cap size).
Abbreviation put_all := (put_pages (Pg := Pg) t page_id_name level cap size).

Lemma put_page_ok s e chunk pre post :
  1 <= Z.of_nat (length (e :: chunk)) <= cap -> Forall ser_wf (e :: chunk) ->
  FIRST_AMAP <= ps_offset s <= 2 ^ 61 -> 0 <= ps_page s -> ps_page s + 1 < 2 ^ 64 ->
  exists o f' pg c, let r := mk_BlockRef (mk_UnicodePageId (ps_page s)) (mk_UnicodeByteIndex o) in
    allocate_extent (ps_offset s) PAGE_SIZE PAGE_SIZE = Ok (o, o + PAGE_SIZE) /\
    ps_offset s <= o /\ o + PAGE_SIZE <= ps_offset s + PAGE_STEP /\ free_at PAGE_SIZE PAGE_SIZE o /\
    put_one (pre ++ (e :: chunk) ++ post) (Z.of_nat (length pre), Z.of_nat (length pre) + Z.of_nat (length (e :: chunk))) s =
      (Ok (mk_BTreePageEntry (be_key e) r), mk_PageState (o + PAGE_SIZE) (ps_page s + 1) f') /\
    frame (span o PAGE_SIZE) (wf_data (ps_file s)) (wf_data f') /\
    btp_entries pg = e :: chunk /\ RootBTreePage.read (wf_data f') r = Ok (root_page_with_crc (mk_root pg) c).
Proof using All.
  intros Hlen Hwf Ho Hp Hp'. destruct (allocate_page_ok (ps_offset s) Ho) as (o & Ha & Ho1 & Ho2 & (_ & Hfree & _)).
  destruct (page_new (e :: chunk) o (ps_page s) Hlen Hwf ltac:(unfold uint; lia)) as (pg & Hnew & Hpg & Hes).
  set (r := mk_BlockRef (mk_UnicodePageId (ps_page s)) (mk_UnicodeByteIndex o)).
  destruct (root_page_round_trip (P := t) (LE := LE) (B := UnicodePageId) (I := UnicodeByteIndex) ltac:(done) (mk_root pg) r (ps_file s) (root_wf pg Hpg)) as (f' & c & Hw & Hr).
  destruct (page_round_trip pg [] Hpg) as (bs & c' & Hbs & Hbl & _).
  rewrite root_write, Hbs in Hw. cbn [rbind] in Hw. injection Hw as <-.
  exists o, (write_all bs (wseek_start o (ps_file s))), pg, c. cbv zeta. fold r.
  do 4 (split; [done|]). split; [|split; [|by split]].
  - unfold put_page, allocate_page, w_bind, w_get, w_lift, w_modify, w_ret. rewrite Ha. cbn [fst snd ps_page ps_file ps_offset].
    rewrite index_range_ok by (rewrite ?length_app; cbn [length]; lia).
    rewrite Nat2Z.id, drop_app_length.
    replace (Z.to_nat _) with (length (e :: chunk)) by (cbn [length]; lia).
    rewrite take_app_length, Hnew. cbn [structure rmap_err].
    rewrite Hbs. cbn [wio rmap_err]. unfold index_at.
    rewrite lookup_app_r, Nat2Z.id, Nat.sub_diag by lia. cbn [lookup app list_lookup].
    rewrite checked_add_ok by lia. cbn [fits ok_or]. done.
  - assert (0 <= o) by (assert (FIRST_AMAP = 17408) by done; lia).
    pose proof (frame_write o bs (ps_file s) ltac:(done)) as H2. by rewrite Hbl in H2.
Qed.

(** [R] is the order of the entries of a page over a range of keys. *)
Context (R : list Z -> (UnicodePageRef -> Prop) -> list E -> Z -> Z -> list LE -> Prop) (depth : nat).
Hypothesis R_nil : forall d K lo hi es, R d K [] lo hi es -> es = [].
Hypothesis R_split : forall d K e a b lo hi es, R d K ((e :: a) ++ b) lo hi es ->
  exists mid es1 es2, lo <= be_key e <= mid /\ mid <= hi /\ es = es1 ++ es2 /\
    R d K (e :: a) (be_key e) mid es1 /\ R d K b mid hi es2.
Hypothesis R_put : forall first n K s K' s' xs lo hi es,
  pages_ok first K s -> put n K s K' s' -> R (ps_data s) K xs lo hi es -> R (ps_data s') K' xs lo hi es.
Hypothesis R_page : forall d K pg c lo hi es,
  R d K (btp_entries pg) lo hi es -> btree d K depth (root_page_with_crc (mk_root pg) c) lo hi es.
Hypothesis key_wf : forall e : E, ser_wf e -> uint 64 (be_key e).

(** The pages of a level hold the entries, and the new entries lead to
    them. *)
Lemma put_pages_ok first ranges : forall s K pre xs lo hi es,
  contiguous (Z.of_nat (length pre)) ranges (Z.of_nat (length (pre ++ xs))) ->
  Forall (fun r => 1 <= r.2 - r.1 <= cap) ranges -> Forall ser_wf xs ->
  ps_offset s + Z.of_nat (length ranges) * PAGE_STEP <= 2 ^ 61 ->
  ps_page s + Z.of_nat (length ranges) < 2 ^ 64 ->
  pages_ok first K s -> R (ps_data s) K xs lo hi es ->
  exists roots s' K', put_all (pre ++ xs) ranges s = (Ok roots, s') /\
    length roots = length ranges /\ Forall ser_wf roots /\
    put (length ranges) K s K' s' /\ pages_ok first K' s' /\
    forest (t := t) (ps_data s') K' depth roots lo hi es.
Proof using All.
  induction ranges as [|[a b] ranges IH]; intros s K pre xs lo hi es Hct Hsz Hwf Ho Hp Hok HR.
  { cbn in Hct. rewrite length_app in Hct. destruct xs; [|cbn in Hct; lia]. apply R_nil in HR as ->.
    exists [], s, K. split_and!; try done. apply put_refl. }
  destruct Hct as [Ha Hct]. apply Forall_cons in Hsz as [Hab Hsz]. cbn [fst snd] in *. subst a.
  cbn [length] in Ho, Hp. assert (PAGE_STEP = 262144 /\ PAGE_SIZE = 512 /\ FIRST_AMAP = 17408) as (Hstep & Hps & Hfa) by done.
  assert (b <= Z.of_nat (length (pre ++ xs))) as Hb 
    by (eapply contiguous_le; [exact Hct|]; eapply Forall_impl; [exact Hsz|]; cbn; lia).
  set (n := Z.to_nat (b - Z.of_nat (length pre))). assert (1 <= n)%nat by lia.
  assert (Z.of_nat n = b - Z.of_nat (length pre)) as Hnz by lia. clearbody n.
  rewrite length_app in Hb. rewrite <- (take_drop n xs) in Hwf, HR, Hct |- *.
  assert (length (take n xs) = n) as Hn by (rewrite length_take; lia).
  set (post := drop n xs) in *. clearbody post. set (chunk := take n xs) in *. clearbody chunk.
  destruct chunk as [|e chunk]; [cbn in Hn; lia|].
  apply Forall_app in Hwf as [Hwf Hwf2]. destruct (R_split _ _ _ _ _ _ _ _ HR) as (mid & es1 & es2 & Hlo & Hhi & -> & HR1 & HR2).
  pose proof (po_cursor _ _ _ Hok). pose proof (po_ids _ _ _ Hok).
  destruct (put_page_ok s e chunk pre post) as (o & f' & pg & c & Hal & Ho1 & Ho2 & Hfree & Hput & Hfr & Hpg & Hrd);
    [lia|done|lia|lia|lia|].
  destruct (put_page_known first K s o f' Hok Hal Ho1 Ho2 Hfree Hfr) as [Hp1 Hok1].
  set (r := mk_BlockRef _ _) in *. set (s1 := mk_PageState _ _ f') in *. set (K1 := fun r' : UnicodePageRef => K r' \/ r' = r) in *.
  destruct (IH s1 K1 (pre ++ e :: chunk) post mid hi es2) as (roots & s' & K' & Hrest & Hlen & Hrw & Hp2 & Hok2 & Hch).
  { rewrite <- app_assoc. replace (Z.of_nat (length (pre ++ e :: chunk))) with b by (rewrite length_app; lia). exact Hct. }
  { done. } { done. } { subst s1. cbn. lia. } { subst s1. cbn. lia. } { done. } { exact (R_put first 1 K s K1 s1 post mid hi es2 Hok Hp1 HR2). }
  exists (mk_BTreePageEntry (be_key e) r :: roots), s', K'. split_and!.
  - cbn [put_pages]. replace b with (Z.of_nat (length pre) + Z.of_nat (length (e :: chunk))) by lia.
    unfold w_bind. rewrite Hput. rewrite <- app_assoc in Hrest. cbn [app] in Hrest |- *. by rewrite Hrest.
  - cbn. by rewrite Hlen.
  - constructor; [|done]. split; [by apply key_wf, (Forall_inv Hwf)|]. split; cbn; unfold uint; lia.
  - eapply (put_trans 1); eassumption.
  - done.
  - exists (root_page_with_crc (mk_root pg) c), mid, es1, es2. split; [done|]. split; [done|]. split; [|split; [|by split]].
    + split; [apply (put_known _ _ _ _ _ Hp2); by right|]. eapply put_read; [exact Hok1|exact Hp2|by right|exact Hrd].
    + eapply put_btree; [exact Hok1|exact Hp2|]. apply R_page. rewrite Hpg. exact (R_put first 1 K s K1 s1 _ _ _ _ Hok Hp1 HR1).
Qed.
End level.

(** ** The two kinds of levels *)

Lemma page_trailer_wf t o id :
  is_btree_type t = true -> uint 64 id -> ser_wf (page_trailer t o (mk_UnicodePageId id)).
Proof.
  intros Ht Hid. split_and!; cbn; [by intros ->| |done|exact Hid].
  destruct t; cbn; try (by split); apply compute_sig_uint.
Qed.

Section levels.
Context {t : PageType} {LE : Type} `{!BTreeEntry LE, !BTreeEntryLaws LE}.
Context (Ht : is_btree_type t = true).

Lemma leaf_page_new cap size (chunk : list LE) o id :
  Z.of_nat (ENTRY_SIZE (E := LE)) <= size < 256 -> cap < 256 -> cap <= 488 / size ->
  1 <= Z.of_nat (length chunk) <= cap -> Forall ser_wf chunk -> uint 64 id ->
  exists pg : BTreeLeafPage t LE UnicodePageId,
    btp_new 0 cap size chunk (page_trailer t o (mk_UnicodePageId id)) = Ok pg /\ btree_page_wf pg /\ btp_entries pg = chunk.
Proof using All.
  intros Hs Hc Hq Hl Hwf Hid. eexists. split.
  - cbn [btp_new BTreeLeafPage_page]. unfold BTreeLeafPage.new. cbn [Z.eqb negb].
    destruct (Z.ltb_spec cap (Z.of_nat (length chunk))); [lia|].
    cbn [page_type page_trailer UnicodePageTrailer.new]. by rewrite bool_decide_eq_true_2.
  - split; [|done]. split; [by split|]. split_and!; cbn; try lia; [exact Hq|done|].
    by apply (page_trailer_wf t o id).
Qed.

Lemma inner_page_new level (chunk : list UnicodeBTreePageEntry) o id :
  1 <= level <= 8 -> 1 <= Z.of_nat (length chunk) <= 20 -> Forall ser_wf chunk -> uint 64 id ->
  exists pg : UnicodeBTreeEntryPage,
    btp_new level 20 24 chunk (page_trailer t o (mk_UnicodePageId id)) = Ok pg /\
    btree_page_wf pg /\ btp_entries pg = chunk.
Proof using Ht.
  intros Hlv Hl Hwf Hid. eexists. split.
  - cbn [btp_new BTreeEntryPage_page]. unfold BTreeEntryPage.new.
    destruct (Z.leb_spec 1 level); [|lia]. destruct (Z.leb_spec level 8); [|lia]. cbn [negb andb].
    destruct (Z.ltb_spec 20 (Z.of_nat (length chunk))); [lia|].
    cbn [page_type page_trailer UnicodePageTrailer.new]. by rewrite Ht.
  - split; [|done]. split; [by split|]. split_and!; try (cbn; lia); [by apply Z.leb_le|by apply Z.leb_le|done|].
    by apply (page_trailer_wf t o id).
Qed.

Context (page_id_name : string).

(** The leaf pages of sorted entries. *)
Lemma put_leaf_pages_ok cap size first ranges s (es : list LE) lo hi :
  Z.of_nat (ENTRY_SIZE (E := LE)) <= size < 256 -> cap < 256 -> cap <= 488 / size ->
  (forall e : LE, ser_wf e -> uint 64 (be_key e)) ->
  contiguous 0 ranges (Z.of_nat (length es)) -> Forall (fun r => 1 <= r.2 - r.1 <= cap) ranges ->
  Forall ser_wf es -> sorted_in be_key lo hi es ->
  ps_offset s + Z.of_nat (length ranges) * PAGE_STEP <= 2 ^ 61 ->
  ps_page s + Z.of_nat (length ranges) < 2 ^ 64 -> pages_ok first (fun _ => False) s ->
  exists roots s' K', put_pages (Pg := BTreeLeafPage t LE UnicodePageId) t page_id_name 0 cap size es ranges s = (Ok roots, s') /\
    length roots = length ranges /\ Forall ser_wf roots /\
    put (length ranges) (fun _ => False) s K' s' /\ pages_ok first K' s' /\
    forest (t := t) (ps_data s') K' 0 roots lo hi es.
Proof using All.
  intros Hs Hc Hq Hk Hct Hr Hwf Hso Ho Hp Hok.
  apply (put_pages_ok page_id_name 0 cap size Leaf) with (pre := [])
    (R := fun _ _ xs lo hi es => es = xs /\ sorted_in be_key lo hi xs); try done.
  - intros. by apply leaf_page_new.
  - by intros ? ? ? ? ? [-> _].
  - intros ? ? e a b lo' hi' es' [-> (mid & H1 & H2 & H3 & H4)%sorted_in_split].
    exists mid, (e :: a), b. done.
  - intros ? ? pg c lo' hi' es' [-> [_ H]]. done.
Qed.

(** The pages above a level. *)
Lemma put_inner_pages_ok level depth first ranges s K roots (es : list LE) lo hi :
  1 <= level <= 8 -> contiguous 0 ranges (Z.of_nat (length roots)) ->
  Forall (fun r => 1 <= r.2 - r.1 <= 20) ranges -> Forall ser_wf roots ->
  forest (t := t) (ps_data s) K depth roots lo hi es ->
  ps_offset s + Z.of_nat (length ranges) * PAGE_STEP <= 2 ^ 61 ->
  ps_page s + Z.of_nat (length ranges) < 2 ^ 64 -> pages_ok first K s ->
  exists parents s' K', put_pages (Pg := UnicodeBTreeEntryPage) t page_id_name level 20 24 roots ranges s = (Ok parents, s') /\
    length parents = length ranges /\ Forall ser_wf parents /\
    put (length ranges) K s K' s' /\ pages_ok first K' s' /\
    forest (t := t) (ps_data s') K' (S depth) parents lo hi es.
Proof using All.
  intros Hlv Hct Hr Hwf Hf Ho Hp Hok.
  apply (put_pages_ok page_id_name level 20 24 Intermediate) with (pre := [])
    (R := fun d K xs lo hi es => forest (t := t) d K depth xs lo hi es); try done.
  - intros. by apply inner_page_new.
  - intros d K' e a b lo' hi' es' (mid & es1 & es2 & ? & ? & ? & ? & ?)%children_split. by exists mid, es1, es2.
  - intros fs n K1 s1 K2 s2 xs lo' hi' es' Hok1 Hput Hx.
    apply (put_btree fs n K1 s1 K2 s2 (S depth) (Intermediate (mk_BTreeEntryPage 0 0 0 xs (page_trailer t 0 (mk_UnicodePageId 0)))) lo' hi' es' Hok1 Hput Hx).
  - by intros e [? _].
Qed.
End levels.

(** ** Whole trees *)

Lemma div_ceil_20 n k : 1 < n -> 0 <= k -> n <= 20 ^ (k + 1) -> 1 <= div_ceil n 20 <= 20 ^ k /\ 2 * div_ceil n 20 <= n.
Proof.
  intros Hn Hk Hle. pose proof (div_ceil_spec n 20 ltac:(lia)). rewrite Z.pow_add_r, Z.pow_1_r in Hle by lia.
  pose proof (div_ceil_least n 20 (20 ^ k) ltac:(lia) ltac:(lia)). lia.
Qed.

Section whole.
Context {t : PageType} {LE : Type} `{!BTreeEntry LE, !BTreeEntryLaws LE}.
Context (Ht : is_btree_type t = true) (page_id_name depth_name : string).

(** At level [9] one page is left, at the latest. *)
Lemma write_levels_ok first lo hi (es : list LE) fuel : forall depth s K roots,
  let level := Z.of_nat depth + 1 in let len := Z.of_nat (length roots) in
  level <= 9 <= level + Z.of_nat fuel -> 1 <= len <= 20 ^ (9 - level) -> Forall ser_wf roots ->
  forest (t := t) (ps_data s) K depth roots lo hi es -> pages_ok first K s ->
  ps_offset s + len * PAGE_STEP <= 2 ^ 61 -> ps_page s + len < 2 ^ 64 ->
  exists n e s' K' depth', write_levels t page_id_name depth_name fuel level roots s = (Ok [e], s') /\
    (depth' <= 8)%nat /\ Z.of_nat n < len /\ put n K s K' s' /\ pages_ok first K' s' /\
    forest (t := t) (ps_data s') K' depth' [e] lo hi es /\
    forall pages, pages + Z.of_nat n < 2 ^ 64 -> count_levels fuel len pages 20 = Ok (pages + Z.of_nat n).
Proof using All.
  assert (PAGE_STEP = 262144 /\ FIRST_AMAP = 17408) as [Hstep Hfa] by done.
  induction fuel as [|fuel IH]; intros depth s K roots level len Hlv Hlen Hwf Hf Hok Ho Hp;
    cbn [write_levels count_levels]; fold len; (destruct (Z.ltb_spec 1 len) as [Hmany|Hone];
      [|destruct roots as [|e [|e' roots]]; subst len; cbn [length] in *; try lia;
        exists 0%nat, e, s, K, depth; split_and!; try done; [subst level; lia|apply put_refl|
          intros pages _; by rewrite Z.add_0_r]]).
  { replace (9 - level) with 0 in Hlen by lia. lia. }
  assert (level <= 8) as Hlv8.
  { destruct (Z.eq_dec level 9) as [E|E]; [|lia]. rewrite E in Hlen. cbn in Hlen. lia. }
  destruct (div_ceil_20 len (8 - level)) as [Hd Hd2]; [done|lia|replace (8 - level + 1) with (9 - level) by lia; lia|].
  pose proof (po_cursor _ _ _ Hok).
  destruct (plan_leaf_pages_correct len 20) as (ranges & Hpl & Hrl & Hct & Hsz & _); [lia|lia|].
  destruct (put_inner_pages_ok Ht page_id_name level depth first ranges s K roots es lo hi) as
    (parents & s1 & K1 & Hput & Hpl1 & Hpwf & Hp1 & Hok1 & Hf1); [subst level; lia|done..|lia|lia|done|].
  pose proof (put_cursor _ _ _ _ _ Hp1). pose proof (put_ids _ _ _ _ _ Hp1).
  specialize (IH (S depth) s1 K1 parents). cbv zeta in IH. rewrite Hpl1, Hrl in IH.
  replace (Z.of_nat (S depth) + 1) with (level + 1) in IH by (subst level; lia).
  destruct IH as (n & e & s' & K' & depth' & Hw & Hd8 & Hn & Hp2 & Hok2 & Hf2 & Hcount);
    [lia|by replace (9 - (level + 1)) with (8 - level) by lia|done|done|done|nia|nia|].
  exists (length ranges + n)%nat, e, s', K', depth'. split_and!; try done; [|lia|by eapply put_trans|].
  - unfold w_bind, w_lift. rewrite Hpl, Hput. rewrite checked_add_ok by lia. exact Hw.
  - intros pages Hb. rewrite checked_add_ok by lia. cbn [fits ok_or rbind].
    rewrite Hcount by lia. f_equal. lia.
Qed.

(** What the tree of a file is. *)
Definition holds_tree (d : list Z) (K : UnicodePageRef -> Prop) (root : UnicodePageRef) (es : list LE) : Prop :=
  exists p depth lo hi, K root /\ RootBTreePage.read (P := t) (LE := LE) d root = Ok p /\ (depth <= 8)%nat /\
    btree d K depth p lo hi es.

Lemma write_tree_ok empty cap size first s (es : list LE) :
  Z.of_nat (ENTRY_SIZE (E := LE)) <= size < 256 -> 0 < cap <= 20 -> cap <= 488 / size ->
  (forall e : LE, ser_wf e -> uint 64 (be_key e)) ->
  1 <= Z.of_nat (length es) <= cap * 20 ^ 8 -> Forall ser_wf es ->
  StronglySorted (fun a b => be_key a < be_key b) es ->
  ps_offset s <= 2 ^ 60 -> ps_page s <= 2 ^ 63 -> pages_ok first (fun _ => False) s ->
  exists root K s' n, write_tree (t := t) empty page_id_name depth_name cap size es s = (Ok (root, ps_offset s', ps_page s'), s') /\
    btree_page_count (Z.of_nat (length es)) cap 20 = Ok (Z.of_nat n) /\
    put n (fun _ => False) s K s' /\ pages_ok first K s' /\ holds_tree (ps_data s') K root es.
Proof using All.
  intros Hs Hc Hq Hk Hlen Hwf Hso Ho Hp Hok. assert (PAGE_STEP = 262144) as Hstep by done.
  change (20 ^ 8) with 25600000000 in Hlen. set (len := Z.of_nat (length es)) in *.
  destruct (plan_leaf_pages_correct len cap) as (ranges & Hpl & Hrl & Hct & Hsz & _); [lia|lia|].
  pose proof (div_ceil_spec len cap ltac:(lia)) as Hd.
  pose proof (div_ceil_least len cap 25600000000 ltac:(lia) ltac:(lia)) as Hd2.
  assert (1 <= div_ceil len cap) as Hd1 by nia.
  assert (sorted_in be_key 0 (2 ^ 64) es) as Hin.
  { split; [done|]. eapply Forall_impl; [exact Hwf|]. intros e He. by apply Hk. }
  destruct (put_leaf_pages_ok Ht page_id_name cap size first ranges s es 0 (2 ^ 64)) as
    (roots & s1 & K1 & Hput & Hl1 & Hw1 & Hp1 & Hok1 & Hf1); [done|lia|done..|lia|lia|done|].
  pose proof (put_cursor _ _ _ _ _ Hp1). pose proof (put_ids _ _ _ _ _ Hp1).
  destruct (write_levels_ok first 0 (2 ^ 64) es LEVEL_FUEL 0 s1 K1 roots) as
    (n & e & s' & K' & depth & Hw & Hd8 & Hn & Hp2 & Hok2 & Hf2 & Hcount);
    [unfold LEVEL_FUEL; lia|rewrite Hl1, Hrl; cbn; lia|done|done|done|lia|lia|].
  destruct Hf2 as (p & mid & es1 & es2 & _ & _ & [Hkn Hrd] & Hbt & -> & Hes).
  rewrite app_nil_r in Hes. subst es1.
  exists (bpe_block e), K', s', (length ranges + n)%nat. split_and!; [| |by eapply put_trans|done|].
  - unfold write_tree. fold len. unfold w_bind, w_lift, w_get. rewrite Hpl.
    destruct ranges as [|r ranges]; [cbn in Hrl; lia|]. rewrite Hput. change (Z.of_nat 0 + 1) with 1 in Hw. by rewrite Hw.
  - unfold btree_page_count. destruct (Z.eqb_spec len 0); [lia|]. destruct (Z.eqb_spec cap 0); [lia|]. cbn [orb Z.eqb].
    rewrite Hl1, Hrl in Hcount. rewrite Hcount by lia. f_equal. lia.
  - by exists p, depth, (be_key e), mid.
Qed.
End whole.

(** ** Looking entries up in the written tree *)

Lemma pages_ids_unique {P LE} `{!BTreeEntry LE} first K s d :
  pages_ok first K s -> ids_unique (P := P) (LE := LE) (B := UnicodePageId) (I := UnicodeByteIndex) d K.
Proof.
  intros Hok r1 r2 H1 H2 Heq. assert (r1 = r2) as ->; [|done]. apply (po_unique _ _ _ Hok); try done.
  destruct r1 as [[] ?], r2 as [[] ?]. cbn in Heq. cbn. congruence.
Qed.

Lemma cache_ok_empty {P LE} `{!BTreeEntry LE} d (K : UnicodePageRef -> Prop) :
  cache_ok (P := P) (LE := LE) (B := UnicodePageId) (I := UnicodeByteIndex) d K ∅.
Proof. intros r p _ H. exfalso. exact (lookup_empty_Some (M := gmap Z) _ _ H). Qed.

(** The tree has at most 9 levels of pages. *)
Definition TREE_LEVELS : nat := 9.

Definition finds_all {t LE} `{!BTreeEntry LE} (d : list Z) (root : UnicodePageRef) (es : list LE) : Prop :=
  exists page, RootBTreePage.read (P := t) (LE := LE) d root = Ok page /\
    forall k, exists c, RootBTreePage.find_entry TREE_LEVELS d page k ∅ = Some (btree_lookup es k, c).

Lemma holds_tree_finds {t LE} `{!BTreeEntry LE} first K s d root (es : list LE) :
  pages_ok first K s -> holds_tree (t := t) d K root es -> finds_all (t := t) d root es.
Proof.
  intros Hok (p & depth & lo & hi & _ & Hr & Hd & Hb). exists p. split; [done|]. intros k.
  destruct (find_entry_tree d K depth p lo hi es k ∅ TREE_LEVELS) as (c & Hc & _);
    [by eapply pages_ids_unique|apply cache_ok_empty|done|unfold TREE_LEVELS; lia|]. by exists c.
Qed.

Lemma block_entry_key (e : UnicodeBlockBTreeEntry.t) : ser_wf e -> uint 64 (be_key e).
Proof.
  intros [[Hid _] _]. apply uint_land; [lia|exact Hid|by vm_compute].
Qed.

Lemma node_entry_key (e : UnicodeNodeBTreeEntry.t) : ser_wf e -> uint 64 (be_key e).
Proof. intros [Hid _]. by apply (uint_le 32). Qed.

(** What a call of [write_bbt] or [write_nbt] leaves: the pages it projects,
    nothing changed below [first_offset], and a tree in which every key is
    found. *)
Definition tree_written {t LE} `{!BTreeEntry LE} (capacity : Z) (f : wfile) (first_offset first_page_id : Z)
    (es : list LE) (r : wres (UnicodePageRef * Z * Z) * PageState) : Prop :=
  exists root next_offset n s', r = (Ok (root, next_offset, first_page_id + Z.of_nat n), s') /\
    btree_page_count (Z.of_nat (length es)) capacity 20 = Ok (Z.of_nat n) /\
    alloc_pages n first_offset = Ok next_offset /\
    frame (fun o => first_offset <= o) (wf_data f) (wf_data (ps_file s')) /\
    finds_all (t := t) (wf_data (ps_file s')) root es.

Lemma pages_ok_start f first_offset first_page_id :
  FIRST_AMAP <= first_offset -> 0 <= first_page_id ->
  pages_ok first_page_id (fun _ => False) (mk_PageState first_offset first_page_id f).
Proof. intros H1 H2. split; cbn; done || lia. Qed.

Section tree_written.
Context {t : PageType} {LE : Type} `{!BTreeEntry LE, !BTreeEntryLaws LE}.
Context (Ht : is_btree_type t = true) (Hkey : forall e : LE, ser_wf e -> uint 64 (be_key e)).

Lemma write_tree_written empty page_id_name depth_name cap size f first_offset first_page_id (es : list LE) :
  Z.of_nat (ENTRY_SIZE (E := LE)) <= size < 256 -> 0 < cap <= 20 -> cap <= 488 / size ->
  1 <= Z.of_nat (length es) <= cap * 20 ^ 8 -> Forall ser_wf es ->
  StronglySorted (fun a b => be_key a < be_key b) es ->
  FIRST_AMAP <= first_offset <= 2 ^ 60 -> 0 <= first_page_id <= 2 ^ 63 ->
  tree_written (t := t) cap f first_offset first_page_id es
    (write_tree (t := t) empty page_id_name depth_name cap size es (mk_PageState first_offset first_page_id f)).
Proof using All.
  intros Hs Hc Hq Hl Hwf Hso Ho Hp.
  destruct (write_tree_ok Ht page_id_name depth_name empty cap size first_page_id
    (mk_PageState first_offset first_page_id f) es) as (root & K & s' & n & Hw & Hn & Hput & Hok & Hh);
    [done..|cbn; lia|cbn; lia|apply pages_ok_start; lia|].
  exists root, (ps_offset s'), n, s'. rewrite Hw, (put_ids _ _ _ _ _ Hput).
  split_and!; [done|done|apply (put_alloc _ _ _ _ _ Hput)|apply (put_frame _ _ _ _ _ Hput)|].
  by eapply holds_tree_finds.
Qed.
End tree_written.

Lemma bbt_written f first_offset first_page_id (blocks : list WrittenBlock) :
  1 <= Z.of_nat (length blocks) <= 20 ^ 9 -> Forall (fun w => ser_wf (entry_of w)) blocks ->
  StronglySorted (fun a b => be_key (entry_of a) < be_key (entry_of b)) blocks ->
  FIRST_AMAP <= first_offset <= 2 ^ 60 -> 0 <= first_page_id <= 2 ^ 63 ->
  tree_written (t := BlockBTree) 20 f first_offset first_page_id (map entry_of blocks)
    (write_bbt f first_offset first_page_id blocks).
Proof.
  intros Hl Hwf Hso Ho Hp. apply write_tree_written; [done|exact block_entry_key|done|lia|by apply Z.leb_le| | | |done|done].
  - rewrite length_map. lia.
  - by apply Forall_fmap.
  - eapply StronglySorted_fmap; [|exact Hso]. done.
Qed.

Lemma nbt_written f first_offset first_page_id (entries : list UnicodeNodeBTreeEntry.t) :
  1 <= Z.of_nat (length entries) <= 15 * 20 ^ 8 -> Forall ser_wf entries ->
  StronglySorted (fun a b => be_key a < be_key b) entries ->
  FIRST_AMAP <= first_offset <= 2 ^ 60 -> 0 <= first_page_id <= 2 ^ 63 ->
  tree_written (t := NodeBTree) 15 f first_offset first_page_id entries
    (write_nbt f first_offset first_page_id entries).
Proof.
  intros Hl Hwf Hso Ho Hp. apply write_tree_written; [done|exact node_entry_key|done|lia|by apply Z.leb_le|lia|done..].
Qed.

(** ** Properties *)

(** C5: the block B-tree. For the blocks of a file, sorted by id as
    [write_bbt] is called, every block id is looked up in the written pages,
    through [find_entry] from the returned root, as in the list of the blocks:
    the entry is found when the block exists, and nothing when it does not.
    The pages are as many as [btree_page_count] projects and are allocated in
    order from [first_offset], page ids are consecutive, and nothing below
    [first_offset] changes. *)
Theorem write_bbt_correct f first_offset first_page_id (blocks : list WrittenBlock) :
  1 <= Z.of_nat (length blocks) <= 20 ^ 9 -> Forall (fun w => ser_wf (entry_of w)) blocks ->
  StronglySorted (fun a b => be_key (entry_of a) < be_key (entry_of b)) blocks ->
  FIRST_AMAP <= first_offset <= 2 ^ 60 -> 0 <= first_page_id <= 2 ^ 63 ->
  tree_written (t := BlockBTree) 20 f first_offset first_page_id (map entry_of blocks)
    (write_bbt f first_offset first_page_id blocks).
Proof. apply bbt_written. Qed.

(** The node B-tree. For the nodes of a file, sorted by id as
    [node_entries] returns them, every node id is looked up in the written
    pages as in the list of the nodes; pages, page ids and the rest of the
    file are as for the block B-tree. *)
Theorem write_nbt_correct f first_offset first_page_id (entries : list UnicodeNodeBTreeEntry.t) :
  1 <= Z.of_nat (length entries) <= 15 * 20 ^ 8 -> Forall ser_wf entries ->
  StronglySorted (fun a b => be_key a < be_key b) entries ->
  FIRST_AMAP <= first_offset <= 2 ^ 60 -> 0 <= first_page_id <= 2 ^ 63 ->
  tree_written (t := NodeBTree) 15 f first_offset first_page_id entries
    (write_nbt f first_offset first_page_id entries).
Proof. apply nbt_written. Qed.

(** ** Examples *)

Definition sample_written : list WrittenBlock :=
  map (fun i => mk_WrittenBlock (mk_UnicodeBlockId (4 * Z.of_nat i)) (FIRST_DATA + 64 * Z.of_nat i) 40 2) (seq 1 21).

Definition sample_nodes : list UnicodeNodeBTreeEntry.t :=
  map (fun i => UnicodeNodeBTreeEntry.new (mk_NodeId (32 * Z.of_nat i + 2)) (mk_UnicodeBlockId (4 * Z.of_nat i)) None
    (Some (mk_NodeId 0x122))) (seq 1 16).

Lemma write_bbt_correct_witness :
  tree_written (t := BlockBTree) 20 (mk_wfile [] 0) 0x5000 0x100 (map entry_of sample_written)
    (write_bbt (mk_wfile [] 0) 0x5000 0x100 sample_written).
Proof.
  apply write_bbt_correct.
  - vm_compute. split; discriminate.
  - repeat constructor; vm_compute; discriminate.
  - repeat constructor.
  - vm_compute. split; discriminate.
  - vm_compute. split; discriminate.
Defined.

Lemma write_nbt_correct_witness :
  tree_written (t := NodeBTree) 15 (mk_wfile [] 0) 0x5600 0x103 sample_nodes
    (write_nbt (mk_wfile [] 0) 0x5600 0x103 sample_nodes).
Proof.
  apply write_nbt_correct.
  - vm_compute. split; discriminate.
  - repeat constructor; vm_compute; discriminate.
  - repeat constructor.
  - vm_compute. split; discriminate.
  - vm_compute. split; discriminate.
Defined.
