(* ===== verification/WriterFile.v ===== *)
(** * Completing a file

    The end of a run of [writer.rs]: the last blocks, the two B-trees, the
    allocation maps with the density list, and the header. The extent that
    was projected before is the extent that is written, so the check that
    compares them never fails; in the completed file the header leads to the
    two trees, every block written before is still readable, and the
    allocation maps cover all of them. *)
From stdpp Require Import sorting.
From S2P Require Import Prelude Errors Io Crc Encode Ids Header Page FreeBits BTree Block Lookup DataTree Amap Order Alloc WriterBlocks WriterTree WriterDisk WriterBTree.
#[local] Open Scope Z_scope.

(** ** Allocation maps *)

Definition write_map_page (PAGE_TYPE : Z) (file : wfile) (offset : Z) (page_type : PageType) (bits : list Z) :
    wres wfile :=
  let file := wseek_start offset file in
  let trailer := page_trailer page_type offset (mk_UnicodePageId offset) in
  let? page := structure (UnicodeMapPage.new PAGE_TYPE bits trailer) in
  Ok (write_all (UnicodeMapPage.write page) file).

(** [for i in 0..n] *)
Definition range (n : Z) : list Z := map Z.of_nat (seq 0 (Z.to_nat n)).

Definition amap_start (amap_index : Z) (what : string) : wres Z :=
  fits (checked_add 64 FIRST_AMAP (saturating_mul64 amap_index AMAP_DATA_SIZE)) what.

(** The body of the first loop: the free slots of a region. *)
Definition region_free_slots (allocated_end amap_index : Z) : wres Z :=
  let? region_start := amap_start amap_index "allocation map offset" in
  let? region_end := fits (checked_add 64 region_start AMAP_DATA_SIZE) "allocation map extent" in
  let used_end := Z.max (Z.min allocated_end region_end) region_start in
  let allocated_slots := div_ceil (Z.max 0 (used_end - region_start)) SLOT_SIZE in
  let? free := fits (checked_sub SLOTS_PER_AMAP allocated_slots) "allocation map free slots" in
  fits (if uint_b 16 free then Some free else None) "allocation map free slots".

(** [amap_bits[byte] |= 0x80 >> bit] for each allocated slot. *)
Definition amap_bits (allocated_slots : Z) : wres (list Z) :=
  rfold (fun bits slot => wio (or_byte bits (slot / 8) (Z.shiftr 0x80 (slot mod 8))))
    (range allocated_slots) (replicate 496 0).

(** [bits.iter_mut().zip(free_slots)] over an array of [n] zeros. *)
Definition free_slot_classes (n : nat) (free_slots : list Z) : list Z :=
  take n (map free_slot_class free_slots ++ replicate n 0).

(** The body of the second loop: the map pages of a region. *)
Definition write_region_maps (free_slots : list Z) (file : wfile) (amap_index : Z) : wres wfile :=
  let? region_start := amap_start amap_index "allocation map offset" in
  let? free := ok_or (free_slots !! Z.to_nat amap_index)
    (InvalidStructure "allocation free map is incomplete") in
  let allocated_slots := Z.max 0 (SLOTS_PER_AMAP - free) in
  let? bits := amap_bits allocated_slots in
  let? file := write_map_page (PageType_as_u8 AllocationMap) file region_start AllocationMap bits in
  let reserved_offset := region_start + PAGE_SIZE in
  if amap_index mod 8 =? 0 then
    let? file := write_map_page (PageType_as_u8 AllocationPageMap) file reserved_offset
      AllocationPageMap (replicate 496 0xFF) in
    let reserved_offset := reserved_offset + PAGE_SIZE in
    let? '(file, reserved_offset) :=
      if (FMAP_FIRST_AMAP <=? amap_index) && ((amap_index - FMAP_FIRST_AMAP) mod FMAP_AMAP_COUNT =? 0) then
        let bits := free_slot_classes 496 (drop (Z.to_nat amap_index) free_slots) in
        let? file := write_map_page (PageType_as_u8 FreeMap) file reserved_offset FreeMap bits in
        Ok (file, reserved_offset + PAGE_SIZE)
      else Ok (file, reserved_offset) in
    if (FPMAP_FIRST_AMAP <=? amap_index) && ((amap_index - FPMAP_FIRST_AMAP) mod FPMAP_AMAP_COUNT =? 0) then
      write_map_page (PageType_as_u8 FreePageMap) file reserved_offset FreePageMap (replicate 496 0xFF)
    else Ok file
  else Ok file.

(** The density list of a new file. *)
Definition write_density_list (amap_count : Z) (free_slots : list Z) (next_page_id : UnicodePageId)
    (file : wfile) : wres wfile :=
  let density_trailer := page_trailer DensityList DENSITY_LIST_FILE_OFFSET next_page_id in
  if amap_count =? 1 then
    let? free := index_at free_slots 0 in
    let? entry := structure (DensityListPageEntry.new 0 free) in
    let? page := structure (UnicodeDensityListPage.new true 1 [entry] density_trailer) in
    wio (UnicodeDensityListPage.write page file)
  else
    let? current_page := fits (if uint_b 32 (amap_count - 1) then Some (amap_count - 1) else None)
      "density list current page" in
    let? page := structure (UnicodeDensityListPage.new false current_page [] density_trailer) in
    wio (UnicodeDensityListPage.write page file).

Record ConstructedAllocation := mk_ConstructedAllocation {
  ca_free_bytes : Z;
  ca_first_free_map : list Z;
}.

Definition write_allocation_pages (file : wfile) (allocated_end : Z) (next_page_id : UnicodePageId) :
    wres (ConstructedAllocation * wfile) :=
  let? used := ok_or (checked_sub allocated_end FIRST_AMAP) (InvalidStructure "allocation start underflow") in
  let used := Z.max used 1 in
  let amap_count := Z.max (div_ceil used AMAP_DATA_SIZE) 1 in
  let? free_slots := rmapM (region_free_slots allocated_end) (range amap_count) in
  let? file := rfold (write_region_maps free_slots) (range amap_count) file in
  let? file := write_density_list amap_count free_slots next_page_id file in
  let first_free_map := free_slot_classes 128 free_slots in
  let? free_bytes := rfold (fun total free =>
    fits (checked_add 64 total (saturating_mul64 free SLOT_SIZE)) "allocation free byte count") free_slots 0 in
  Ok (mk_ConstructedAllocation free_bytes first_free_map, file).

(** ** The header *)

Definition write_header (file : wfile) (nbt bbt : UnicodePageRef) (allocated_end : Z)
    (next_page_id : UnicodePageId) (next_block_id : UnicodeBlockId) (nids : list Z)
    (allocation : ConstructedAllocation) : wres wfile :=
  let? file_eof := allocation_file_eof allocated_end in
  let root := Root.new (mk_UnicodeByteIndex file_eof) (mk_UnicodeByteIndex (wrapping_sub 64 file_eof AMAP_DATA_SIZE))
    (mk_UnicodeByteIndex (ca_free_bytes allocation)) (mk_UnicodeByteIndex 0) nbt bbt AMap_Valid2 in
  let header := UnicodeHeader.new_store root Permute next_page_id next_block_id 2 nids in
  let header := UnicodeHeader.mk (UnicodeHeader.next_page header) (UnicodeHeader.unique header)
    (UnicodeHeader.nids header) (UnicodeHeader.root header) (ca_first_free_map allocation)
    (UnicodeHeader.free_page_map header) (UnicodeHeader.crypt_method header) (UnicodeHeader.next_block header)
    (UnicodeHeader.reserved1 header) (UnicodeHeader.reserved2 header) (UnicodeHeader.unused1 header)
    (UnicodeHeader.unused2 header) (UnicodeHeader.reserved3 header) in
  let file := wseek_start 0 file in
  let? bytes := wio (UnicodeHeader.write header) in
  Ok (write_all bytes file).

(** ** Counters of node ids *)

Definition NID_CONTENTS_INDEX_TEMPLATE : Z := 0x6B6.
Definition NID_SEARCH_INDEX_TEMPLATE : Z := 0x6D7.
Definition NID_ATTACHMENT_INDEX_TEMPLATE : Z := 0x6F8.

Definition INITIAL_NID_COUNTERS : list Z :=
  [0x400; 0x400; 0x400; 0x4000; 0x10000; 0x400; 0x400; 0x400; 0x8000; 0x400; 0x400; 0x400; 0x400;
   0x400; 0x400; 0x400; 0x400; 0x400; 0x400; 0x400; 0x400; 0x400; 0x400; 0x400; 0x400; 0x400;
   0x400; 0x400; 0x400; 0x400; 0x400; 0x400].

Definition is_index_template (node : NodeId) : bool :=
  (node_id_0 node =? NID_CONTENTS_INDEX_TEMPLATE) || (node_id_0 node =? NID_SEARCH_INDEX_TEMPLATE) ||
  (node_id_0 node =? NID_ATTACHMENT_INDEX_TEMPLATE).

Definition update_nid_counter (counters : list Z) (node : NodeId) (top_level : bool) : wres (list Z) :=
  match NodeId.id_type node with
  | Ok kind =>
      let? index := structure (usize_try_from_NodeIdType kind) in
      let? high_water := if top_level then fits (checked_add 32 (NodeId.index node) 1) "node counter"
                         else Ok (NodeId.index node) in
      match counters !! Z.to_nat index with
      | Some c => Ok (<[Z.to_nat index := Z.max c high_water]> counters)
      | None => Panic
      end
  | Err e => if is_index_template node then Ok counters else Err (InvalidStructureOf e)
  | Panic => Panic
  end.

(** The nodes of the leaf blocks of sub-node trees. *)
Definition subnode_ids (blocks : list BlockSpec) : list NodeId :=
  flat_map (fun b => match bs_payload b with Subnode entries => map (fun e => sie_node (sle_inner e)) entries | _ => [] end) blocks.

Definition nid_counters (entries : list UnicodeNodeBTreeEntry.t) (blocks : list BlockSpec)
    (streamed_subnodes : list NodeId) : wres (list Z) :=
  let? counters := rfold (fun c e => update_nid_counter c (UnicodeNodeBTreeEntry.node e) true) entries
    INITIAL_NID_COUNTERS in
  let? counters := rfold (fun c n => update_nid_counter c n false) (subnode_ids blocks) counters in
  rfold (fun c n => update_nid_counter c n false) streamed_subnodes counters.

(** ** The projected end of the file *)

Definition projected_block (cursor : Z) (block : BlockSpec) : wres Z :=
  let? size := try_u16 (logical_size (bs_payload block)) "data block" in
  let? physical_size := wio (block_size (Z.min (2 ^ 16 - 1) (size + 16))) in
  let? r := allocate_extent cursor physical_size SLOT_SIZE in
  Ok r.2.

Definition projected_finalized_file_eof (allocation_cursor written_block_count : Z) (final_blocks : list BlockSpec)
    (node_count : Z) : wres Z :=
  let? cursor := rfold projected_block final_blocks allocation_cursor in
  let cursor := align_up cursor PAGE_SIZE in
  let? block_count := fits (checked_add 64 written_block_count (Z.of_nat (length final_blocks))) "BBT entry count" in
  let? n := btree_page_count block_count 20 20 in
  let? cursor := alloc_pages (Z.to_nat n) cursor in
  let? n := btree_page_count node_count 15 20 in
  let? cursor := alloc_pages (Z.to_nat n) cursor in
  allocation_file_eof cursor.

(** ** The end of a run *)

(** [written.sort_by_key(|block| u64::from(block.id))] *)
Definition sort_written (l : list WrittenBlock) : list WrittenBlock :=
  sort_by (by_key (fun w => unicode_block_id_0 (wb_id w)) Z.compare) l.

(** From the last [write_blocks] to [write_header], with the stream that
    [MessageStreamState] holds and the parts of the [FinalizationPlan]. *)
Definition write_completed (stream : WriteState) (streamed_subnodes : list NodeId) (blocks : list BlockSpec)
    (nodes : list UnicodeNodeBTreeEntry.t) (next_block_index projected_file_eof : Z) : wres wfile :=
  match write_blocks blocks stream with
  | (Ok ws, s) =>
      match ws_file s with
      | None => Panic
      | Some file =>
          let written := sort_written (ws_written s ++ ws) in
          let page_offset := align_up (ws_cursor s) PAGE_SIZE in
          let '(r, ps) := write_bbt file page_offset 0x100 written in
          let? '(bbt, nbt_offset, next_page_id) := r in
          let '(r, ps) := write_nbt (ps_file ps) nbt_offset next_page_id nodes in
          let? '(nbt, allocated_end, next_page_id) := r in
          let? file_eof := allocation_file_eof allocated_end in
          if negb (file_eof =? projected_file_eof)
          then Err (InvalidStructure "projected and written PST extents disagree") else
          let file := set_len file_eof (ps_file ps) in
          let? '(allocation, file) := write_allocation_pages file allocated_end (mk_UnicodePageId next_page_id) in
          let? next_block_id := leaf_bid next_block_index in
          let? nids := nid_counters nodes blocks streamed_subnodes in
          write_header file nbt bbt allocated_end (mk_UnicodePageId next_page_id) next_block_id nids allocation
      end
  | (Err e, _) => Err e
  | (Panic, _) => Panic
  end.

(** ** Lemmas on map pages *)

Lemma range_S n : 0 <= n -> range (n + 1) = range n ++ [n].
Proof.
  intros Hn. unfold range. replace (Z.to_nat (n + 1)) with (S (Z.to_nat n)) by lia.
  rewrite seq_S, map_app. cbn. do 2 f_equal. lia.
Qed.

(** The bits of a map whose first [n] slots are in use. *)
Lemma amap_bits_spec n :
  0 <= n <= SLOTS_PER_AMAP ->
  exists bits, amap_bits n = Ok bits /\ length bits = 496%nat /\ bytes_ok bits /\
    forall p, 0 <= p < SLOTS_PER_AMAP -> map_bit bits p = (p <? n).
Proof.
  assert (SLOTS_PER_AMAP = 3968) as -> by done. intros [H0 Hn]. revert n H0 Hn. refine (natlike_ind _ _ _).
  - intros _. exists (replicate 496 0). split_and!; [done|apply length_replicate|by apply Forall_replicate|].
    intros p Hp. rewrite map_bit_lookup with (b := 0); [|apply lookup_replicate; pose proof (Z.div_lt_upper_bound p 8 496); lia].
    rewrite Z.testbit_0_l. by destruct (Z.ltb_spec p 0); [lia|].
  - intros n H0 IH Hn. destruct IH as (bits & Hb & Hl & Hok & Hbits); [lia|].
    assert (0 <= n / 8 < 496) by (split; [apply Z.div_pos; lia|apply Z.div_lt_upper_bound; lia]).
    pose proof (Z.mod_pos_bound n 8 ltac:(lia)).
    destruct (or_byte_spec bits (n / 8) (Z.shiftr 0x80 (n mod 8))) as (bits' & Hor & Hl' & Hok' & Hbits');
      [done|apply (uint_shiftr 8); [lia|lia|unfold uint; split; [lia|]; apply Z.pow_lt_mono_r with (a := 2) (b := 7); lia]|lia|].
    exists bits'. unfold amap_bits in *. rewrite <- Z.add_1_r, range_S, rfold_app, Hb by lia.
    cbn [rbind rfold]. rewrite Hor. split_and!; [done|congruence|done|]. intros p Hp.
    rewrite Hbits', Hbits by lia. replace 0x80 with (2 ^ 7) by done.
    rewrite Z.shiftr_spec by (pose proof (Z.mod_pos_bound p 8); lia).
    pose proof (Z.mod_pos_bound p 8 ltac:(lia)).
    rewrite Z.pow2_bits_eqb by lia. pose proof (Z.div_mod n 8). pose proof (Z.div_mod p 8).
    destruct (Z.ltb_spec p n), (Z.ltb_spec p (n + 1)), (Z.eqb_spec (p / 8) (n / 8)), (Z.eqb_spec 7 (7 - p mod 8 + n mod 8)); lia || done.
Qed.

(** ** Bytes in a file *)

(** The bytes [bs] are in the file from [offset] on. *)
Definition bytes_at (d : list Z) (offset : Z) (bs : list Z) : Prop :=
  exists s, drop (Z.to_nat offset) d = bs ++ s.

Lemma bytes_at_write bs offset f : bytes_at (wf_data (write_all bs (wseek_start offset f))) offset bs.
Proof.
  destruct (read_at_write_all bs (wseek_start offset f) []) as [t Ht]. exists t. by rewrite !app_nil_r in Ht.
Qed.

Lemma bytes_at_agree Q d d' offset bs :
  0 <= offset -> agree Q d d' -> (forall o, span offset (Z.of_nat (length bs)) o -> ~ Q o) ->
  bytes_at d offset bs -> bytes_at d' offset bs.
Proof.
  intros H0 Hq Hs [s H].
  destruct (read_exact_frame Q d d' (Z.to_nat offset) (length bs) bs s) as [u Hu].
  - done.
  - by rewrite Z2Nat.id.
  - rewrite H. by apply read_exact_app.
  - apply read_exact_ok in Hu as [Hu _]. by exists u.
Qed.

Lemma bytes_at_read {A} (m : reader A) d offset bs a :
  (forall s, m (bs ++ s) = Ok (a, s)) -> bytes_at d offset bs -> read_at d offset m = Ok a.
Proof. intros Hm [s Hs]. unfold read_at. by rewrite Hs, Hm. Qed.

(** A map page in the file, and what a reader gets of it. *)
Definition map_page_at (t : PageType) (d : list Z) (offset : Z) (bits : list Z) : Prop :=
  bytes_at d offset (UnicodeMapPage.write (UnicodeMapPage.mk bits (page_trailer t offset (mk_UnicodePageId offset)))).

Definition is_map_type (t : PageType) : bool :=
  match t with AllocationMap | AllocationPageMap | FreeMap | FreePageMap => true | _ => false end.

Lemma map_page_wf t offset bits :
  is_map_type t = true -> uint 64 offset -> length bits = 496%nat -> bytes_ok bits ->
  unicode_map_wf (UnicodeMapPage.mk bits (page_trailer t offset (mk_UnicodePageId offset))).
Proof. intros Ht Ho Hl Hb. split; [by split|]. split; [by destruct t|]. split; [by destruct t|]. by split. Qed.

Lemma map_page_reads t d offset bits :
  is_map_type t = true -> uint 64 offset -> length bits = 496%nat -> bytes_ok bits -> map_page_at t d offset bits ->
  exists p, read_at d offset (UnicodeMapPage.read (PageType_as_u8 t)) = Ok p /\ UnicodeMapPage.map_bits p = bits.
Proof.
  intros Ht Ho Hl Hb H. eexists. split; [eapply bytes_at_read; [|exact H]|].
  - intros s. by apply (UnicodeMapPage_round_trip _ s (map_page_wf t offset bits Ht Ho Hl Hb)).
  - done.
Qed.

Lemma length_map_page t offset bits :
  length bits = 496%nat -> length (UnicodeMapPage.write (UnicodeMapPage.mk bits (page_trailer t offset (mk_UnicodePageId offset)))) = 512%nat.
Proof. intros H. unfold UnicodeMapPage.write. cbn [UnicodeMapPage.map_bits]. rewrite length_app, H. done. Qed.

Lemma write_map_page_ok t f offset bits :
  0 <= offset -> length bits = 496%nat ->
  exists f', write_map_page (PageType_as_u8 t) f offset t bits = Ok f' /\
    frame (span offset PAGE_SIZE) (wf_data f) (wf_data f') /\ map_page_at t (wf_data f') offset bits.
Proof.
  intros Ho Hl. unfold write_map_page, UnicodeMapPage.new. cbn [page_type page_trailer UnicodePageTrailer.new].
  rewrite Z.eqb_refl. cbn [negb structure rmap_err rbind]. eexists. split; [done|]. split; [|apply bytes_at_write].
  set (page := UnicodeMapPage.mk _ _). pose proof (frame_write offset (UnicodeMapPage.write page) f Ho) as Hf.
  subst page. by rewrite length_map_page in Hf.
Qed.

Lemma map_page_agree t Q d d' offset bits :
  0 <= offset -> length bits = 496%nat -> agree Q d d' -> (forall o, span offset PAGE_SIZE o -> ~ Q o) ->
  map_page_at t d offset bits -> map_page_at t d' offset bits.
Proof.
  intros H0 Hl Hq Hs. apply (bytes_at_agree Q); [done|done|]. by rewrite length_map_page.
Qed.

(** ** The maps of a region *)

(** The slots of region [k] that begin below the allocated end [e]. *)
Definition used_slots (e k : Z) : Z := div_ceil (Z.max (Z.min e (region (k + 1))) (region k) - region k) SLOT_SIZE.

Lemma alloc_constants :
  FIRST_AMAP = 17408 /\ AMAP_DATA_SIZE = 253952 /\ PAGE_SIZE = 512 /\ SLOT_SIZE = 64 /\ SLOTS_PER_AMAP = 3968.
Proof. done. Qed.

Lemma used_slots_bound e k : 0 <= used_slots e k <= SLOTS_PER_AMAP.
Proof.
  destruct alloc_constants as (Hfa & Hads & _ & Hss & Hspa). unfold used_slots.
  assert (region (k + 1) = region k + 253952) as Hr by (unfold region; lia).
  set (x := Z.max _ _ - _). assert (0 <= x <= 253952) by lia. rewrite Hss, Hspa.
  pose proof (div_ceil_spec x 64 ltac:(lia)). lia.
Qed.

Lemma amap_start_ok k what : 0 <= k <= 2 ^ 44 -> amap_start k what = Ok (region k).
Proof.
  intros Hk. destruct alloc_constants as (Hfa & Hads & _). unfold amap_start, saturating_mul64, region.
  rewrite Z.min_r by lia. rewrite checked_add_ok by lia. done.
Qed.

Lemma region_free_slots_ok e k :
  0 <= k <= 2 ^ 44 -> region_free_slots e k = Ok (SLOTS_PER_AMAP - used_slots e k).
Proof.
  intros Hk. destruct alloc_constants as (Hfa & Hads & _ & Hss & Hspa). pose proof (used_slots_bound e k).
  unfold region_free_slots. rewrite amap_start_ok by done. cbn [rbind].
  assert (region (k + 1) = region k + AMAP_DATA_SIZE) as Hr by (unfold region; lia).
  rewrite checked_add_ok by (unfold region; lia). cbn [fits ok_or rbind]. rewrite <- Hr.
  unfold used_slots in *. rewrite (Z.max_r 0) by lia. unfold checked_sub.
  match goal with |- context [?a <=? ?b] => destruct (Z.leb_spec a b); [|lia] end. cbn [fits ok_or rbind].
  match goal with |- context [uint_b 16 ?x] => assert (uint_b 16 x = true) as -> by (apply uint_b_spec; unfold uint; lia) end.
  done.
Qed.

Lemma length_free_slot_classes n l : length (free_slot_classes n l) = n.
Proof. unfold free_slot_classes. rewrite length_take, length_app, length_replicate. lia. Qed.

(** The bytes of the map pages of region [k]. *)
Definition map_span (k : Z) : Z -> Prop := span (region k) (reserved_map_page_count k * PAGE_SIZE).

Lemma write_region_maps_ok fs f k e :
  0 <= k <= 2 ^ 44 -> fs !! Z.to_nat k = Some (SLOTS_PER_AMAP - used_slots e k) ->
  exists f' bits, write_region_maps fs f k = Ok f' /\ amap_bits (used_slots e k) = Ok bits /\
    frame (map_span k) (wf_data f) (wf_data f') /\ map_page_at AllocationMap (wf_data f') (region k) bits.
Proof.
  intros Hk Hfs. destruct alloc_constants as (Hfa & Hads & Hps & _). pose proof (used_slots_bound e k) as Hu.
  destruct (amap_bits_spec (used_slots e k) Hu) as (bits & Hb & Hl & _).
  assert (0 <= region k) as H0 by (unfold region; lia).
  unfold write_region_maps. rewrite amap_start_ok by done. cbn [rbind]. rewrite Hfs. cbn [ok_or rbind].
  replace (Z.max 0 _) with (used_slots e k) by lia. rewrite Hb. cbn [rbind].
  destruct (write_map_page_ok AllocationMap f (region k) bits) as (f1 & -> & Hf1 & Hm1); [done|done|]. cbn [rbind].
  assert (forall t f i bits', 1 <= i -> length bits' = 496%nat -> map_page_at AllocationMap (wf_data f) (region k) bits ->
    exists f', write_map_page (PageType_as_u8 t) f (region k + i * PAGE_SIZE) t bits' = Ok f' /\
      frame (span (region k + i * PAGE_SIZE) PAGE_SIZE) (wf_data f) (wf_data f') /\
      map_page_at AllocationMap (wf_data f') (region k) bits) as Hnext.
  { intros t g i bits' Hi Hl' Hm. destruct (write_map_page_ok t g (region k + i * PAGE_SIZE) bits') as (g' & Hg & Hfg & _);
      [lia|done|]. exists g'. split_and!; [done|done|]. eapply map_page_agree; [done|done|exact (frame_agree _ _ _ Hfg)| |done].
    unfold span. lia. }
  assert (forall d d' i, 0 <= i < reserved_map_page_count k -> frame (span (region k + i * PAGE_SIZE) PAGE_SIZE) d d' ->
    frame (map_span k) d d') as Hin.
  { intros d d' i Hi. apply frame_weaken. unfold map_span, span. nia. }
  replace (region k) with (region k + 0 * PAGE_SIZE) in Hf1 by lia. unfold reserved_map_page_count in Hin.
  replace (region k + PAGE_SIZE) with (region k + 1 * PAGE_SIZE) by lia.
  replace (region k + 1 * PAGE_SIZE + PAGE_SIZE) with (region k + 2 * PAGE_SIZE) by lia.
  destruct (k mod 8 =? 0); [|exists f1, bits; split_and!; [done|done|by eapply Hin; [|exact Hf1]; lia|done]].
  destruct (Hnext AllocationPageMap f1 1 (replicate 496 0xFF) ltac:(lia) (length_replicate _ _) Hm1) as (f2 & -> & Hf2 & Hm2).
  cbn [rbind]. set (c1 := (FMAP_FIRST_AMAP <=? k) && _) in *. set (c2 := (FPMAP_FIRST_AMAP <=? k) && _) in *.
  pose proof (length_free_slot_classes 496 (drop (Z.to_nat k) fs)) as Hlc. set (cls := free_slot_classes _ _) in *.
  assert (exists f3 i, (if c1 then let? file := write_map_page (PageType_as_u8 FreeMap) f2 (region k + 2 * PAGE_SIZE) FreeMap cls in
      Ok (file, region k + 2 * PAGE_SIZE + PAGE_SIZE) else Ok (f2, region k + 2 * PAGE_SIZE)) = Ok (f3, region k + i * PAGE_SIZE) /\
      i = (if c1 then 3 else 2) /\ frame (map_span k) (wf_data f2) (wf_data f3) /\
      map_page_at AllocationMap (wf_data f3) (region k) bits) as (f3 & i & -> & Hi & Hf3 & Hm3).
  { destruct c1; [|by exists f2, 2].
    destruct (Hnext FreeMap f2 2 cls ltac:(lia) Hlc Hm2) as (f3 & -> & Hf3 & Hm3).
    exists f3, 3. cbn [rbind]. split_and!; [do 2 f_equal; lia|done| |done]. eapply Hin; [|exact Hf3]. destruct c2; lia. }
  cbn [rbind]. assert (frame (map_span k) (wf_data f) (wf_data f3)) as Hf03.
  { etrans; [eapply Hin; [|exact Hf1]; destruct c1, c2; lia|]. etrans; [|exact Hf3].
    eapply Hin; [|exact Hf2]; destruct c1, c2; lia. }
  destruct c2; [|by exists f3, bits].
  destruct (Hnext FreePageMap f3 i (replicate 496 0xFF) ltac:(destruct c1; lia) (length_replicate _ _) Hm3) as (f4 & -> & Hf4 & Hm4).
  exists f4, bits. split_and!; [done|done| |done]. etrans; [exact Hf03|]. eapply Hin; [|exact Hf4]. destruct c1; lia.
Qed.

Lemma map_span_apart j k o : 0 <= j -> 0 <= k -> map_span j o -> map_span k o -> j = k.
Proof.
  destruct alloc_constants as (Hfa & Hads & Hps & _). unfold map_span, span, region. intros Hj Hk H1 H2.
  pose proof (reserved_map_page_count_range j). pose proof (reserved_map_page_count_range k). nia.
Qed.

Lemma write_maps_ok fs e f n :
  0 <= n -> n <= 2 ^ 44 -> (forall k, 0 <= k < n -> fs !! Z.to_nat k = Some (SLOTS_PER_AMAP - used_slots e k)) ->
  exists f', rfold (write_region_maps fs) (range n) f = Ok f' /\
    frame (fun o => exists k, 0 <= k < n /\ map_span k o) (wf_data f) (wf_data f') /\
    forall k, 0 <= k < n -> exists bits, amap_bits (used_slots e k) = Ok bits /\
      map_page_at AllocationMap (wf_data f') (region k) bits.
Proof.
  intros Hn. revert n Hn. refine (natlike_ind _ _ _).
  { intros _ _. exists f. split_and!; [done|reflexivity|lia]. }
  intros n Hn IH Hmax Hfs. destruct IH as (f1 & Hf1 & Hfr1 & Hm1); [lia|intros; apply Hfs; lia|].
  destruct (write_region_maps_ok fs f1 n e ltac:(lia) (Hfs n ltac:(lia))) as (f2 & bits & Hf2 & Hb & Hfr2 & Hm2).
  exists f2. rewrite <- Z.add_1_r, range_S, rfold_app, Hf1 by done. cbn [rbind rfold]. rewrite Hf2. split_and!; [done| |].
  - etrans; [eapply frame_weaken; [|exact Hfr1]|eapply frame_weaken; [|exact Hfr2]].
    + intros o (k & ? & ?). exists k. split; [lia|done].
    + intros o Ho. exists n. split; [lia|done].
  - intros k Hk. destruct (Z.eq_dec k n) as [->|Hne]; [by exists bits|].
    destruct (Hm1 k ltac:(lia)) as (bk & Hbk & Hmk). exists bk. split; [done|].
    destruct (amap_bits_spec (used_slots e k) (used_slots_bound e k)) as (b' & Hb' & Hl & _).
    rewrite Hb' in Hbk. injection Hbk as ->.
    eapply map_page_agree; [unfold region; destruct alloc_constants as (-> & -> & _); lia|done|exact (frame_agree _ _ _ Hfr2)| |done].
    intros o Ho Ho'. apply Hne. apply (map_span_apart k n o); [lia|lia| |done].
    pose proof (reserved_map_page_count_range k). unfold map_span, span in *.
    destruct alloc_constants as (_ & _ & Hps & _). rewrite Hps in *. lia.
Qed.

Lemma free_slots_ok e n :
  0 <= n <= 2 ^ 44 ->
  rmapM (region_free_slots e) (range n) = Ok (map (fun k => SLOTS_PER_AMAP - used_slots e k) (range n)).
Proof.
  intros [Hn Hmax]. revert n Hn Hmax. refine (natlike_ind _ _ _); [done|].
  intros n Hn IH Hmax. rewrite <- Z.add_1_r, range_S by done.
  assert (forall l1 l2 (g : Z -> wres Z) r1 r2, rmapM g l1 = Ok r1 -> rmapM g l2 = Ok r2 -> rmapM g (l1 ++ l2) = Ok (r1 ++ r2)) as Happ.
  { intros l1 l2 g. induction l1 as [|x l1 IHl]; intros r1 r2; cbn; [by intros [= <-]|].
    intros (y & Hy & (ys & Hys & [= <-])%rbind_ok)%rbind_ok H2. rewrite Hy. cbn [rbind]. by rewrite (IHl _ _ Hys H2). }
  rewrite map_app. apply Happ; [apply IH; lia|]. cbn [rmapM map]. by rewrite region_free_slots_ok by lia.
Qed.

Lemma range_lookup n k : 0 <= k < n -> range n !! Z.to_nat k = Some k.
Proof.
  intros Hk. unfold range. change (map Z.of_nat) with (fmap (M := list) Z.of_nat). rewrite list_lookup_fmap, lookup_seq_lt by lia.
  cbn. f_equal. lia.
Qed.

(** Only the last region has free slots. *)
Lemma used_slots_full e k : region (k + 1) <= e -> 0 <= k -> used_slots e k = SLOTS_PER_AMAP.
Proof.
  intros He Hk. destruct alloc_constants as (Hfa & Hads & _ & Hss & Hspa). unfold used_slots.
  rewrite Z.min_r by lia. unfold region in *. rewrite Z.max_l by lia. rewrite Hss, Hspa.
  replace (_ - _) with 253952 by lia. done.
Qed.

Lemma free_bytes_ok e n :
  FIRST_AMAP <= e <= 2 ^ 48 -> e mod SLOT_SIZE = 0 -> 1 <= n <= 2 ^ 44 -> e <= region n -> (region (n - 1) < e \/ n = 1) ->
  rfold (fun total free => fits (checked_add 64 total (saturating_mul64 free SLOT_SIZE)) "allocation free byte count")
    (map (fun k => SLOTS_PER_AMAP - used_slots e k) (range n)) 0 = Ok (region n - e).
Proof.
  intros He Hmod Hn Hle Hlast. destruct alloc_constants as (Hfa & Hads & _ & Hss & Hspa).
  replace n with (n - 1 + 1) at 1 by lia. rewrite range_S, map_app, rfold_app by lia.
  assert (forall m, 0 <= m -> m <= n - 1 -> rfold (fun total free => fits (checked_add 64 total (saturating_mul64 free SLOT_SIZE))
    "allocation free byte count") (map (fun k => SLOTS_PER_AMAP - used_slots e k) (range m)) 0 = Ok 0) as Hz.
  { refine (natlike_ind _ _ _); [done|]. intros m Hm IH Hmn. rewrite <- Z.add_1_r, range_S, map_app, rfold_app, IH by lia.
    cbn [rbind rfold map]. rewrite used_slots_full; [by rewrite Z.sub_diag|unfold region in *; lia|done]. }
  rewrite Hz by lia. cbn [rbind rfold map].
  assert (region (n - 1) <= e) as Hge by (destruct Hlast as [| ->]; [lia|unfold region; lia]).
  assert (used_slots e (n - 1) * 64 = e - region (n - 1)) as Hu.
  { unfold used_slots. replace (n - 1 + 1) with n by lia. rewrite Z.min_l, Z.max_l, Hss by lia.
    pose proof (Z.div_mod e 64 ltac:(lia)) as Hd. rewrite Hss in Hmod. set (q := e / 64) in *. unfold region in *.
    pose proof (div_ceil_spec (e - (FIRST_AMAP + (n - 1) * AMAP_DATA_SIZE)) 64 ltac:(lia)). lia. }
  pose proof (used_slots_bound e (n - 1)) as Hub. unfold saturating_mul64. rewrite Hss, Hspa in *.
  rewrite Z.min_r by lia. rewrite checked_add_ok by lia. cbn [fits ok_or rbind]. f_equal. unfold region in *. lia.
Qed.

Lemma density_written b cur entries (trailer : UnicodePageTrailer) f :
  uint 32 cur -> Forall ser_wf entries -> ser_wf trailer -> (length entries <= 119)%nat -> page_type trailer = DensityList ->
  exists p f', UnicodeDensityListPage.new b cur entries trailer = Ok p /\ UnicodeDensityListPage.write p f = Ok f' /\
    frame (span DENSITY_LIST_FILE_OFFSET PAGE_SIZE) (wf_data f) (wf_data f').
Proof.
  intros Hc Hes Ht Hl Hp. destruct (DensityListPage_round_trip f) as [Hu _].
  destruct (Hu b cur entries trailer Hc Hes Ht Hl Hp) as (p & f' & c & Hn & _ & Hw & _).
  exists p, f'. split_and!; [done|done|]. unfold UnicodeDensityListPage.write, DensityListPage.write in Hw.
  apply rbind_ok in Hw as (buf & Hb & Hw). rewrite write_all_app in Hw. injection Hw as <-.
  set (bs := buf ++ _). assert (length bs = 512%nat) as Hlen by (subst bs; by rewrite length_app, (fixed_buffer_length _ _ _ Hb)).
  pose proof (frame_write DENSITY_LIST_FILE_OFFSET bs f ltac:(done)) as Hf. by rewrite Hlen in Hf.
Qed.

Lemma page_trailer_density o id : uint 64 id -> ser_wf (page_trailer DensityList o (mk_UnicodePageId id)).
Proof.
  intros Hid. split; [done|]. split; [apply compute_sig_uint|]. by split.
Qed.

Lemma write_density_ok n free fs id f :
  1 <= n <= 2 ^ 32 -> fs !! 0%nat = Some free -> 0 <= free < 2 ^ 12 -> uint 64 id ->
  exists f', write_density_list n fs (mk_UnicodePageId id) f = Ok f' /\
    frame (span DENSITY_LIST_FILE_OFFSET PAGE_SIZE) (wf_data f) (wf_data f').
Proof.
  intros Hn Hfs Hfree Hid. unfold write_density_list, index_at.
  pose proof (page_trailer_density DENSITY_LIST_FILE_OFFSET id Hid) as Ht. destruct (Z.eqb_spec n 1).
  - change (Z.to_nat 0) with 0%nat. rewrite Hfs. cbn [rbind].
    pose proof (DensityListPageEntry_new_spec 0 free ltac:(done) ltac:(unfold uint; lia)) as He.
    destruct (DensityListPageEntry.new 0 free) as [entry|er|]; [|lia|done].
    destruct He as (_ & _ & Hwf & _). cbn [structure rmap_err rbind].
    destruct (density_written true 1 [entry] _ f ltac:(done) (proj2 (Forall_singleton _ _) Hwf) Ht ltac:(cbn; lia) eq_refl)
      as (p & f' & -> & Hw & Hfr). cbn [structure rmap_err rbind]. rewrite Hw. by exists f'.
  - assert (uint_b 32 (n - 1) = true) as -> by (apply uint_b_spec; unfold uint; lia). cbn [fits ok_or rbind].
    destruct (density_written false (n - 1) [] _ f ltac:(unfold uint; lia) (@List.Forall_nil _ ser_wf) Ht ltac:(cbn; lia) eq_refl)
      as (p & f' & -> & Hw & Hfr). cbn [structure rmap_err rbind]. rewrite Hw. by exists f'.
Qed.

(** The parts of a file that hold no blocks and no pages of the trees. *)
Definition reserved_for_maps (o : Z) : Prop := o < FIRST_AMAP \/ exists k, 0 <= k /\ map_span k o.

(** The allocation maps of a file that is allocated up to [e]: slot [p] of
    region [k] is in use when it begins below [e]. *)
Definition maps_cover (e n : Z) (d : list Z) : Prop :=
  forall k, 0 <= k < n -> exists bits, map_page_at AllocationMap d (region k) bits /\
    length bits = 496%nat /\ bytes_ok bits /\
    forall p, 0 <= p < SLOTS_PER_AMAP -> map_bit bits p = (p <? used_slots e k).

Lemma maps_cover_agree Q e n d d' :
  agree Q d d' -> (forall k o, 0 <= k < n -> map_span k o -> ~ Q o) -> maps_cover e n d -> maps_cover e n d'.
Proof.
  intros Hq Hs H k Hk. destruct (H k Hk) as (bits & Hm & Hl & Hr). exists bits. split_and!; [|done|apply Hr..].
  destruct alloc_constants as (Hfa & Hads & Hps & _).
  eapply map_page_agree; [unfold region; lia|done|exact Hq| |done]. intros o Ho. apply (Hs k o Hk).
  pose proof (reserved_map_page_count_range k). unfold map_span, span in *. rewrite Hps in *. lia.
Qed.

Lemma free_slot_classes_bytes n l : bytes_ok (free_slot_classes n l).
Proof.
  unfold free_slot_classes. apply Forall_take, Forall_app. split; [|by apply Forall_replicate].
  apply Forall_fmap. apply Forall_true. intros x. unfold free_slot_class. cbn.
  destruct (uint_b 8 (Z.min x 255)) eqn:E; [by apply uint_b_spec|done].
Qed.

Lemma write_allocation_pages_ok f e id n :
  FIRST_AMAP <= e <= 2 ^ 48 -> e mod SLOT_SIZE = 0 -> uint 64 id ->
  1 <= n -> e <= region n -> (region (n - 1) < e \/ n = 1) ->
  exists ca f', write_allocation_pages f e (mk_UnicodePageId id) = Ok (ca, f') /\
    ca_free_bytes ca = region n - e /\ array_wf 128 (ca_first_free_map ca) /\
    frame reserved_for_maps (wf_data f) (wf_data f') /\ maps_cover e n (wf_data f').
Proof.
  intros He Hmod Hid Hn Hle Hlast. destruct alloc_constants as (Hfa & Hads & Hps & Hss & Hspa).
  assert (n <= 2 ^ 32) as Hn2 by (unfold region in *; lia).
  assert (Z.max (div_ceil (Z.max (e - FIRST_AMAP) 1) AMAP_DATA_SIZE) 1 = n) as Hcount.
  { unfold region in *. pose proof (div_ceil_spec (Z.max (e - FIRST_AMAP) 1) AMAP_DATA_SIZE ltac:(lia)). rewrite Hads in *. nia. }
  unfold write_allocation_pages, checked_sub. destruct (Z.leb_spec FIRST_AMAP e); [|lia]. cbn [ok_or rbind].
  rewrite Hcount, free_slots_ok by lia. cbn [rbind]. set (fs := map _ (range n)).
  assert (forall k, 0 <= k < n -> fs !! Z.to_nat k = Some (SLOTS_PER_AMAP - used_slots e k)) as Hfs.
  { intros k Hk. unfold fs. change (map ?g ?l) with (g <$> l). by rewrite list_lookup_fmap, range_lookup. }
  destruct (write_maps_ok fs e f n ltac:(lia) ltac:(lia) Hfs) as (f1 & -> & Hfr1 & Hm). cbn [rbind].
  pose proof (used_slots_bound e 0).
  destruct (write_density_ok n _ fs id f1 ltac:(lia) (Hfs 0 ltac:(lia)) ltac:(lia) Hid) as (f2 & -> & Hfr2). cbn [rbind].
  unfold fs at 1. rewrite (free_bytes_ok e n) by (done || lia). cbn [rbind].
  do 2 eexists. split; [done|]. cbn [ca_free_bytes ca_first_free_map]. split_and!; [done| | |].
  - split; [apply length_free_slot_classes|apply free_slot_classes_bytes].
  - etrans; [eapply frame_weaken; [|exact Hfr1]|eapply frame_weaken; [|exact Hfr2]].
    + intros o (k & ? & ?). right. exists k. split; [lia|done].
    + intros o Ho. left. unfold span, DENSITY_LIST_FILE_OFFSET in Ho. lia.
  - eapply maps_cover_agree; [exact (frame_agree _ _ _ Hfr2)| |].
    + intros k o Hk Ho. unfold map_span, span, DENSITY_LIST_FILE_OFFSET, region in *. rewrite Hps. lia.
    + intros k Hk. destruct (Hm k Hk) as (bits & Hb & Hp).
      destruct (amap_bits_spec (used_slots e k) (used_slots_bound e k)) as (b' & Hb' & Hl & Hok & Hbits).
      rewrite Hb' in Hb. injection Hb as ->. by exists bits.
Qed.

(** ** The last blocks *)

Lemma write_block_settled b s w s' f0 :
  write_block b s = (Ok w, s') -> ws_file s = Some f0 -> FIRST_AMAP <= ws_cursor s <= 2 ^ 61 ->
  ser_wf (bs_id b) -> uint 16 (bs_ref_count b) ->
  ws_file s' <> None /\ ws_written s' = ws_written s /\ wb_id w = bs_id b /\
  projected_block (ws_cursor s) b = Ok (ws_cursor s') /\
  ws_cursor s <= wb_offset w /\ ws_cursor s <= ws_cursor s' <= ws_cursor s + PAGE_STEP /\ settled (ws_cursor s') w /\
  frame (fun o => ws_cursor s <= o) (stream_data s) (stream_data s') /\
  (storable b -> stored (stream_data s') b w).
Proof.
  intros Hwb Hfile Hc Hid Hrc. assert (PAGE_STEP = 262144) as Hstep by done. destruct alloc_constants as (Hfa & Hads & _).
  apply write_block_ok in Hwb as (f & f' & size & phys & o & e & t & Hf & _ & Hs & Ha & Htr & Hwp & -> & ->).
  pose proof Hs as Hs0. apply block_sizes_ok in Hs as (-> & Hsz & -> & Hext). apply trailer_new_ok in Htr as [-> Hsz1].
  destruct (allocate_extent_first (ws_cursor s) (physical (logical_size (bs_payload b))) SLOT_SIZE (or_introl eq_refl) Hext)
    as (o' & Ho' & (Hge & Hfree & _) & Hle); [lia|].
  rewrite Ho' in Ha. injection Ha as <- <-. unfold extent_size_ok in Hext.
  destruct b as [id payload rc]. cbn [bs_id bs_payload bs_ref_count] in *.
  apply (store_payload id rc o' _ _ f f') in Hwp as [Hfr Hst]; [|lia|apply compute_sig_uint|done|done].
  cbn [ws_file ws_written ws_cursor wb_id wb_offset]. split; [done|]. split; [done|]. split; [done|]. split.
  { unfold projected_block. cbn [bs_payload]. unfold block_sizes in Hs0.
    apply rbind_ok in Hs0 as (x & -> & (y & Hy & [= -> ->])%rbind_ok). cbn [rbind]. rewrite Hy. cbn [rbind]. by rewrite Ho'. }
  split; [lia|]. split; [lia|]. split; [|split].
  - unfold settled. cbn [wb_offset wb_size]. split_and!; [lia|lia|done|lia|]. apply entry_of_wf; [done|cbn; unfold uint; lia..|done].
  - unfold stream_data. cbn [ws_file]. rewrite Hf. eapply frame_weaken; [|exact Hfr]. unfold span. lia.
  - exact Hst.
Qed.

Lemma write_blocks_settled blocks : forall s ws s',
  write_blocks blocks s = (Ok ws, s') -> ws_file s <> None -> FIRST_AMAP <= ws_cursor s ->
  ws_cursor s + Z.of_nat (length blocks) * PAGE_STEP <= 2 ^ 61 ->
  Forall (fun b => ser_wf (bs_id b) /\ uint 16 (bs_ref_count b)) blocks ->
  ws_file s' <> None /\ ws_written s' = ws_written s /\
  rfold projected_block blocks (ws_cursor s) = Ok (ws_cursor s') /\
  ws_cursor s <= ws_cursor s' <= ws_cursor s + Z.of_nat (length blocks) * PAGE_STEP /\
  frame (fun o => ws_cursor s <= o) (stream_data s) (stream_data s') /\
  Forall2 (fun b w => wb_id w = bs_id b /\ settled (ws_cursor s') w /\ (storable b -> stored (stream_data s') b w)) blocks ws.
Proof.
  assert (PAGE_STEP = 262144) as Hstep by done.
  induction blocks as [|b blocks IH]; intros s ws s' H Hf Hc Hmax Hwf; cbn [write_blocks length rfold] in *.
  { injection H as <- <-. split_and!; try done; lia. }
  apply Forall_cons in Hwf as [[Hid Hrc] Hwf]. destruct (ws_file s) as [f0|] eqn:Hfile; [|done].
  apply w_bind_ok in H as (w & s1 & Hw & H). apply w_bind_ok in H as (ws' & s2 & Hws & H). injection H as <- <-.
  destruct (write_block_settled b s w s1 f0 Hw Hfile ltac:(lia) Hid Hrc) as (Hf1 & Hwr1 & Hwid & Hp1 & Hge & Hc1 & Hset & Hfr1 & Hst).
  destruct (IH s1 ws' s2 Hws Hf1 ltac:(lia) ltac:(lia) Hwf) as (Hf2 & Hwr2 & Hp2 & Hc2 & Hfr2 & Hall).
  split_and!; [done|congruence|by rewrite Hp1|lia|lia| |constructor; [|done]].
  - etrans; [exact Hfr1|]. eapply frame_weaken; [|exact Hfr2]. cbn beta. lia.
  - split; [done|]. split; [eapply settled_later; [|exact Hset]; lia|]. intros Hb%Hst.
    destruct Hset as (H0 & H1 & _). eapply stored_frame; [done|exact (frame_agree _ _ _ Hfr2)| |exact Hb]. unfold span. lia.
Qed.

(** ** The blocks in the order of their ids *)

Lemma search_key_even id : uint 64 (unicode_block_id_0 id) -> UnicodeBlockId.search_key id = 2 * (unicode_block_id_0 id / 2).
Proof.
  intros Hid. unfold UnicodeBlockId.search_key. set (x := unicode_block_id_0 id) in *.
  change (lnot_w 64 0x1) with (2 * Z.ones 63). rewrite (Z.div_mod x 2) at 1 by lia.
  pose proof (Z.mod_pos_bound x 2 ltac:(lia)). assert (0 <= x / 2 < 2 ^ 63) as Hq.
  { unfold uint in Hid. split; [apply Z.div_pos; lia|apply Z.div_lt_upper_bound; lia]. }
  assert (Z.land (2 * (x / 2)) (2 * Z.ones 63) = 2 * (x / 2)) as He.
  { rewrite !(Z.mul_comm 2), <- !(Z.shiftl_mul_pow2 _ 1), <- Z.shiftl_land by lia.
    rewrite Z.land_ones, Z.mod_small by lia. done. }
  destruct (Z.eq_dec (x mod 2) 0) as [->|]; [by rewrite Z.add_0_r|]. replace (x mod 2) with 1 by lia.
  rewrite <- He at 2. apply Z.bits_inj'. intros i Hi. rewrite !Z.land_spec.
  destruct (Z.eq_dec i 0) as [->|]; [by rewrite !Z.testbit_even_0, !andb_false_r|].
  replace i with (Z.succ (i - 1)) by lia. by rewrite Z.testbit_odd_succ, !Z.testbit_even_succ by lia.
Qed.

Lemma sort_written_perm l : Permutation (sort_written l) l.
Proof. apply (sort_by_perm _). Qed.

Lemma sort_written_sorted l :
  Forall (fun w => ser_wf (entry_of w)) l -> NoDup (map block_key l) ->
  StronglySorted (fun a b => be_key (entry_of a) < be_key (entry_of b)) (sort_written l).
Proof.
  intros Hwf Hnd. pose proof (sort_by_sorted (by_key (fun w => unicode_block_id_0 (wb_id w)) Z.compare) l) as Hs.
  fold (sort_written l) in Hs. pose proof (sort_written_perm l) as Hp.
  rewrite <- Hp in Hwf. assert (NoDup (map block_key (sort_written l))) as Hnd'.
  { assert (Permutation (map block_key (sort_written l)) (map block_key l)) as -> by (apply (fmap_Permutation block_key), Hp). done. }
  clear Hp Hnd. induction Hs as [|w ws Hs IH Hall]; constructor; cbn in Hnd'.
  - apply IH; [by inversion Hwf|by inversion Hnd'].
  - inversion Hwf as [|? ? Hw Hws]; inversion Hnd' as [|? ? Hnin _]; subst. rewrite Forall_forall in Hall, Hws |- *.
    intros w' Hw'. specialize (Hall w' Hw'). specialize (Hws w' Hw'). cbn beta in Hws.
    change (be_key (entry_of w)) with (block_key w). change (be_key (entry_of w')) with (block_key w').
    assert (block_key w <> block_key w') as Hne.
    { intros E. apply Hnin. rewrite E. by apply (list_elem_of_fmap_2 block_key). }
    unfold cmp_le, by_key in Hall. pose proof (Z.compare_spec (unicode_block_id_0 (wb_id w)) (unicode_block_id_0 (wb_id w'))) as Hcmp.
    unfold block_key in *. rewrite !search_key_even in * by (apply Hw || apply Hws).
    assert (unicode_block_id_0 (wb_id w) <= unicode_block_id_0 (wb_id w')) as Hle by (destruct Hcmp; [lia|lia|done]).
    pose proof (Z.div_le_mono _ _ 2 ltac:(lia) Hle). lia.
Qed.

(** ** The counters of node ids *)

Definition counters_ok (counters : list Z) : Prop := length counters = 32%nat /\ Forall (uint 32) counters.

Lemma node_index_uint (n : NodeId) : uint 32 (node_id_0 n) -> uint 32 (NodeId.index n).
Proof.
  unfold uint. intros Hn. unfold NodeId.index. rewrite Z.shiftr_div_pow2 by lia.
  split; [apply Z.div_pos; lia|]. apply Z.div_lt_upper_bound; lia.
Qed.

Lemma update_counter_ok c n top c' :
  counters_ok c -> uint 32 (node_id_0 n) -> update_nid_counter c n top = Ok c' -> counters_ok c'.
Proof.
  intros [Hl Hc] Hn H. unfold update_nid_counter in H.
  destruct (NodeId.id_type n) as [kind|e|]; [|destruct (is_index_template n); [by injection H as <-|done]|done].
  apply rbind_ok in H as (i & _ & H). apply rbind_ok in H as (hw & Hhw & H).
  destruct (c !! Z.to_nat i) as [x|] eqn:Hx; [|done]. injection H as <-. split; [by rewrite length_insert|].
  apply Forall_insert; [done|]. assert (uint 32 x) by by eapply Forall_lookup_1.
  assert (uint 32 hw).
  { pose proof (node_index_uint n Hn). destruct top; [|by injection Hhw as <-].
    apply fits_ok in Hhw. unfold checked_add in Hhw. destruct (Z.ltb_spec (NodeId.index n + 1) (2 ^ 32)); [|done].
    injection Hhw as <-. unfold uint in *. lia. }
  unfold uint in *. lia.
Qed.

Lemma rfold_counters {A} (g : A -> NodeId) top l : forall c c',
  Forall (fun x => uint 32 (node_id_0 (g x))) l -> counters_ok c ->
  rfold (fun c x => update_nid_counter c (g x) top) l c = Ok c' -> counters_ok c'.
Proof.
  induction l as [|a l IH]; intros c c' Hl Hc; cbn [rfold]; [by intros [= <-]|].
  apply Forall_cons in Hl as [Ha Hl]. intros (c1 & H1 & H)%rbind_ok. apply (IH c1); [done| |done].
  by apply (update_counter_ok c (g a) top).
Qed.

Lemma nid_counters_ok entries blocks streamed c :
  Forall (fun e => uint 32 (node_id_0 (UnicodeNodeBTreeEntry.node e))) entries ->
  Forall (fun n => uint 32 (node_id_0 n)) (subnode_ids blocks) -> Forall (fun n => uint 32 (node_id_0 n)) streamed ->
  nid_counters entries blocks streamed = Ok c -> counters_ok c.
Proof.
  intros He Hb Hs (c1 & H1 & (c2 & H2 & H3)%rbind_ok)%rbind_ok.
  assert (counters_ok INITIAL_NID_COUNTERS) as H0 by (split; [done|]; repeat (apply Forall_cons; split; [by split|]); constructor).
  apply rfold_counters in H1; [|done|done]. apply rfold_counters in H2; [|done|done].
  by apply rfold_counters in H3.
Qed.

(** ** The header of the new file *)

Lemma write_header_ok f nbt bbt e n id next nids ca :
  FIRST_AMAP <= e <= 2 ^ 48 -> 1 <= n -> allocation_file_eof e = Ok (region n) -> region n <= 2 ^ 50 ->
  uint 64 id -> ser_wf next -> counters_ok nids -> ser_wf nbt -> ser_wf bbt ->
  0 <= ca_free_bytes ca < 2 ^ 64 -> array_wf 128 (ca_first_free_map ca) ->
  exists f' h, write_header f nbt bbt e (mk_UnicodePageId id) next nids ca = Ok f' /\
    read_at (wf_data f') 0 UnicodeHeader.read = Ok h /\
    UnicodeHeader.root h = Root.new (mk_UnicodeByteIndex (region n)) (mk_UnicodeByteIndex (region (n - 1)))
      (mk_UnicodeByteIndex (ca_free_bytes ca)) (mk_UnicodeByteIndex 0) nbt bbt AMap_Valid2 /\
    UnicodeHeader.crypt_method h = Permute /\ UnicodeHeader.nids h = nids /\
    UnicodeHeader.next_page h = mk_UnicodePageId id /\ UnicodeHeader.next_block h = next /\
    frame (span 0 564) (wf_data f) (wf_data f').
Proof.
  intros He Hn Heof Hr Hid Hnext Hnids Hnbt Hbbt Hfree Hmap. destruct alloc_constants as (Hfa & Hads & _).
  unfold write_header. rewrite Heof. cbn [rbind].
  assert (wrapping_sub 64 (region n) AMAP_DATA_SIZE = region (n - 1)) as ->.
  { unfold wrapping_sub, region in *. rewrite wrap_small by (unfold uint; lia). lia. }
  set (root := Root.new _ _ _ _ _ _ _). set (h := UnicodeHeader.mk _ _ _ _ _ _ _ _ _ _ _ _ _).
  assert (UnicodeHeader.wf h) as Hwf.
  { destruct Hnids as [Hl Hu]. split; [exact Hid|]. do 3 (split; [done|]). split.
    { unfold region in *. destruct Hnbt as [[] []], Hbbt as [[] []]. split; [done|]. cbn. unfold uint.
      repeat split; done || lia. }
    split; [exact Hmap|]. split; [split; [done|by apply (Forall_replicate _ 128)]|]. split; [exact Hnext|].
    do 4 (split; [done|]). split; [done|by apply (Forall_replicate _ 36)]. }
  destruct (unicode_header_codec h Hwf) as (bs & Hw & Hlen & Hread). rewrite Hw. cbn [wio rmap_err rbind].
  exists (write_all bs (wseek_start 0 f)), h. split_and!; [done| |done|done|done|done|done|].
  - eapply bytes_at_read; [exact Hread|]. apply bytes_at_write.
  - pose proof (frame_write 0 bs f ltac:(lia)) as Hf. by rewrite Hlen in Hf.
Qed.

(** There are at most twice as many pages as entries. *)
Lemma count_levels_bound fuel : forall level pages n,
  1 <= level -> count_levels fuel level pages 20 = Ok n -> pages <= n < pages + level.
Proof.
  induction fuel as [|fuel IH]; intros level pages n Hl; cbn [count_levels];
    (destruct (Z.ltb_spec 1 level); [|intros [= <-]; lia]); [done|].
  intros (p & Hp%fits_ok & Hn)%rbind_ok. unfold checked_add in Hp. destruct (_ <? _) in Hp; [|done]. injection Hp as <-.
  pose proof (div_ceil_spec level 20 ltac:(lia)). apply IH in Hn; lia.
Qed.

Lemma btree_pages_bound entries cap n :
  btree_page_count entries cap 20 = Ok n -> 1 <= entries -> 1 <= cap -> 1 <= n <= 2 * entries.
Proof.
  intros H He Hc. unfold btree_page_count in H. destruct (_ || _); [done|].
  pose proof (div_ceil_spec entries cap ltac:(lia)). pose proof (div_ceil_least entries cap entries ltac:(lia) ltac:(nia)).
  apply count_levels_bound in H; [lia|]. nia.
Qed.

(** ** The two trees *)

Lemma alloc_pages_aligned n : forall c c',
  FIRST_AMAP <= c -> c + Z.of_nat n * PAGE_STEP <= 2 ^ 61 -> c mod PAGE_SIZE = 0 -> alloc_pages n c = Ok c' -> c' mod PAGE_SIZE = 0.
Proof.
  assert (PAGE_STEP = 262144) as Hstep by done.
  induction n as [|n IH]; intros c c' Hc Hmax Hm; cbn [alloc_pages]; [by intros [= <-]|].
  destruct (allocate_page_ok c ltac:(lia)) as (o & -> & Ho & Ho' & (_ & [Hmo _] & _)). cbn [rbind snd].
  destruct alloc_constants as (_ & _ & Hps & _). apply IH; [lia|lia|]. rewrite Hps in *.
  rewrite Z.add_mod, Hmo by lia. done.
Qed.

Lemma holds_tree_agree {t LE} `{!BTreeEntry LE} Q first K s d' root (es : list LE) :
  pages_ok first K s -> agree Q (wf_data (ps_file s)) d' ->
  (forall r o, K r -> span (bi_index (bref_index r)) PAGE_SIZE o -> ~ Q o) ->
  holds_tree (t := t) (wf_data (ps_file s)) K root es -> holds_tree (t := t) d' K root es.
Proof.
  intros Hok Hq Hs (p & depth & lo & hi & Hk & Hr & Hd & Hb).
  assert (forall r (q : RootBTreePage.t (P := t) (LE := LE) (B := UnicodePageId) (I := UnicodeByteIndex)), K r ->
    RootBTreePage.read (wf_data (ps_file s)) r = Ok q -> RootBTreePage.read d' r = Ok q) as Hread.
  { intros r q Hkr. destruct (po_range _ _ _ Hok r Hkr) as (_ & H0 & _).
    eapply page_read_frame; [done|exact Hq|]. intros o. by apply Hs. }
  exists p, depth, lo, hi. split_and!; [done|by apply Hread|done|]. by eapply btree_mono.
Qed.

(** Where blocks and pages are there is no map. *)
Lemma free_not_reserved size a o x :
  0 < size -> free_at size a o -> span o size x -> ~ reserved_for_maps x.
Proof.
  destruct alloc_constants as (Hfa & Hads & Hps & _).
  intros Hs (Hm & k & Hk & H1 & H2) Hx [Hlt|(j & Hj & Hjx)].
  - pose proof (reserved_map_page_count_range k). unfold maps_end, region, span in *. lia.
  - pose proof (reserved_map_page_count_range k). pose proof (reserved_map_page_count_range j).
    unfold maps_end, map_span, span, region in *. assert (j = k) as -> by nia. lia.
Qed.

(** The limits of a file: the position of the end of the blocks, the numbers
    of blocks and of nodes. *)
Definition MAX_END : Z := 2 ^ 46.
Definition MAX_ENTRIES : Z := 2 ^ 26.

Lemma write_trees_ok f cursor (written : list WrittenBlock) (nodes : list UnicodeNodeBTreeEntry.t) :
  FIRST_AMAP <= cursor <= MAX_END ->
  1 <= Z.of_nat (length written) <= MAX_ENTRIES -> Forall (fun w => ser_wf (entry_of w)) written -> NoDup (map block_key written) ->
  1 <= Z.of_nat (length nodes) <= MAX_ENTRIES -> Forall ser_wf nodes -> StronglySorted (fun a b => be_key a < be_key b) nodes ->
  let po := align_up cursor PAGE_SIZE in
  exists bbt nbt s1 s2 K1 K2 n1 n2,
    write_bbt f po 0x100 (sort_written written) = (Ok (bbt, ps_offset s1, ps_page s1), s1) /\
    write_nbt (ps_file s1) (ps_offset s1) (ps_page s1) nodes = (Ok (nbt, ps_offset s2, ps_page s2), s2) /\
    btree_page_count (Z.of_nat (length written)) 20 20 = Ok (Z.of_nat n1) /\ alloc_pages n1 po = Ok (ps_offset s1) /\
    btree_page_count (Z.of_nat (length nodes)) 15 20 = Ok (Z.of_nat n2) /\ alloc_pages n2 (ps_offset s1) = Ok (ps_offset s2) /\
    cursor <= po <= ps_offset s1 /\ ps_offset s1 <= ps_offset s2 <= 2 ^ 48 /\ ps_offset s2 mod SLOT_SIZE = 0 /\ ps_page s2 < 2 ^ 64 /\
    frame (fun o => po <= o) (wf_data f) (wf_data (ps_file s1)) /\
    frame (fun o => ps_offset s1 <= o) (wf_data (ps_file s1)) (wf_data (ps_file s2)) /\
    pages_ok 0x100 K1 s1 /\ pages_ok (ps_page s1) K2 s2 /\
    holds_tree (t := BlockBTree) (wf_data (ps_file s1)) K1 bbt (map entry_of (sort_written written)) /\
    holds_tree (t := NodeBTree) (wf_data (ps_file s2)) K2 nbt nodes.
Proof.
  intros Hc Hl Hwf Hnd Hln Hwfn Hson po. unfold MAX_END, MAX_ENTRIES in *.
  destruct alloc_constants as (Hfa & Hads & Hps & Hss & _). assert (PAGE_STEP = 262144) as Hstep by done.
  destruct (align_up_spec cursor PAGE_SIZE (or_intror eq_refl) ltac:(lia)) as ((Hpo & Hpo') & Hmod & _). fold po in Hpo, Hpo', Hmod.
  assert (length (sort_written written) = length written) as Hlen by apply Permutation_length, sort_written_perm.
  pose proof (sort_written_sorted written Hwf Hnd) as Hso. rewrite <- sort_written_perm in Hwf.
  destruct (write_tree_ok (t := BlockBTree) eq_refl "BBT page id" "BBT depth" "BBT is empty" 20 24 0x100 (mk_PageState po 0x100 f)
    (map entry_of (sort_written written))) as (bbt & K1 & s1 & n1 & Hw1 & Hn1 & Hp1 & Hok1 & Ht1);
    [done|lia|by apply Z.leb_le|exact block_entry_key|rewrite length_map; lia|by apply Forall_fmap|
     eapply StronglySorted_fmap; [|exact Hso]; done|cbn; lia|done|apply pages_ok_start; lia|].
  rewrite length_map, Hlen in Hn1. pose proof (btree_pages_bound _ _ _ Hn1 ltac:(lia) ltac:(lia)) as Hb1.
  pose proof (put_cursor _ _ _ _ _ Hp1) as Hc1. pose proof (put_ids _ _ _ _ _ Hp1) as Hi1. cbn [ps_offset ps_page] in Hc1, Hi1.
  destruct (write_tree_ok (t := NodeBTree) eq_refl "NBT page id" "NBT depth" "NBT is empty" 15 32 (ps_page s1)
    (mk_PageState (ps_offset s1) (ps_page s1) (ps_file s1)) nodes) as (nbt & K2 & s2 & n2 & Hw2 & Hn2 & Hp2 & Hok2 & Ht2);
    [done|lia|by apply Z.leb_le|exact node_entry_key|lia|done|done|cbn; lia|cbn; lia|apply pages_ok_start; lia|].
  pose proof (btree_pages_bound _ _ _ Hn2 ltac:(lia) ltac:(lia)) as Hb2.
  pose proof (put_cursor _ _ _ _ _ Hp2) as Hc2. pose proof (put_ids _ _ _ _ _ Hp2) as Hi2. cbn [ps_offset ps_page] in Hc2, Hi2.
  pose proof (put_alloc _ _ _ _ _ Hp1) as Ha1. pose proof (put_alloc _ _ _ _ _ Hp2) as Ha2. cbn [ps_offset] in Ha1, Ha2.
  assert (ps_offset s2 mod PAGE_SIZE = 0) as Hm2.
  { eapply alloc_pages_aligned; [..|exact Ha2]; [lia|lia|]. eapply alloc_pages_aligned; [..|exact Ha1]; [lia|lia|done]. }
  exists bbt, nbt, s1, s2, K1, K2, n1, n2. split_and!; try done; try lia.
  - rewrite Hss. rewrite Hps in Hm2. pose proof (Z.div_mod (ps_offset s2) 512 ltac:(lia)) as Hd.
    rewrite Hd, Hm2, Z.add_0_r. replace (512 * (ps_offset s2 / 512)) with (ps_offset s2 / 512 * 8 * 64) by lia. by apply Z.mod_mul.
  - apply (put_frame _ _ _ _ _ Hp1).
  - apply (put_frame _ _ _ _ _ Hp2).
Qed.

(** ** The completed file *)

Lemma set_len_agree len f : 0 <= len -> agree (fun o => len <= o) (wf_data f) (wf_data (set_len len f)).
Proof.
  intros Hl i Hi Hn. unfold set_len. cbn [wf_data]. rewrite lookup_take_lt by lia. by rewrite lookup_app_l.
Qed.

(** What the header of a completed file says, and the maps: [e] is the end of
    the last page, [n] the number of regions. *)
Record file_completed (d : list Z) (h : UnicodeHeader.t) (nbt bbt : UnicodePageRef) (e n : Z) : Prop := {
  fc_header : read_at d 0 UnicodeHeader.read = Ok h;
  fc_root : UnicodeHeader.root h = Root.new (mk_UnicodeByteIndex (region n)) (mk_UnicodeByteIndex (region (n - 1)))
    (mk_UnicodeByteIndex (region n - e)) (mk_UnicodeByteIndex 0) nbt bbt AMap_Valid2;
  fc_crypt : UnicodeHeader.crypt_method h = Permute;
  fc_end : e <= region n /\ (region (n - 1) < e \/ n = 1);
  fc_maps : maps_cover e n d
}.

Lemma known_ref_wf first K s r : pages_ok first K s -> K r -> ps_offset s <= 2 ^ 62 -> ps_page s < 2 ^ 64 -> ser_wf r.
Proof.
  intros Hok Hr Ho Hp. destruct (po_range _ _ _ Hok r Hr) as (Hid & H0 & H1 & _). pose proof (po_ids _ _ _ Hok).
  destruct alloc_constants as (_ & _ & Hps & _). destruct r as [[id] [ix]]. cbn in *. unfold uint. lia.
Qed.

(** The maps and the header, after the trees. *)
Lemma complete_ok f e id nbt bbt next nids :
  FIRST_AMAP <= e <= 2 ^ 48 -> e mod SLOT_SIZE = 0 -> uint 64 id -> ser_wf next -> counters_ok nids -> ser_wf nbt -> ser_wf bbt ->
  exists n f', allocation_file_eof e = Ok (region n) /\ 1 <= n /\ e <= region n /\
    (let? '(allocation, file) := write_allocation_pages (set_len (region n) f) e (mk_UnicodePageId id) in
     let? nids := Ok nids in
     write_header file nbt bbt e (mk_UnicodePageId id) next nids allocation) = Ok f' /\
    agree (fun o => e <= o \/ reserved_for_maps o) (wf_data f) (wf_data f') /\
    exists h, file_completed (wf_data f') h nbt bbt e n /\ UnicodeHeader.nids h = nids.
Proof.
  intros He Hmod Hid Hnext Hnids Hnbt Hbbt. destruct alloc_constants as (Hfa & Hads & _).
  destruct (allocation_file_eof_spec e ltac:(lia)) as (n & Hn & Heof & Hle & Hlast).
  assert (region n <= 2 ^ 50) as Hr by (unfold region in *; lia).
  destruct (write_allocation_pages_ok (set_len (region n) f) e id n He Hmod Hid Hn Hle Hlast)
    as (ca & f1 & Hca & Hfree & Hmap & Hfr1 & Hcov).
  destruct (write_header_ok f1 nbt bbt e n id next nids ca He Hn Heof Hr Hid Hnext Hnids Hnbt Hbbt ltac:(lia) Hmap)
    as (f2 & h & Hh & Hread & Hroot & Hcrypt & Hhn & _ & _ & Hfr2).
  exists n, f2. split; [done|]. split; [done|]. split; [done|]. split; [by rewrite Hca|]. split.
  - etrans; [eapply agree_weaken; [|apply (set_len_agree (region n)); unfold region; lia]; cbn; lia|].
    etrans; [eapply agree_weaken; [|exact (frame_agree _ _ _ Hfr1)]; by right|].
    eapply agree_weaken; [|exact (frame_agree _ _ _ Hfr2)]. intros o Ho. right. left. unfold span in Ho. lia.
  - exists h. split; [|done]. rewrite Hfree in Hroot. split; [done|done|done|done|].
    eapply maps_cover_agree; [exact (frame_agree _ _ _ Hfr2)| |exact Hcov].
    unfold map_span, span, region. lia.
Qed.

(** The state of a run at its end: [blocks] are the last ones, and what they
    were written as. *)
Record ready (stream : WriteState) (blocks : list BlockSpec) (nodes : list UnicodeNodeBTreeEntry.t)
    (streamed : list NodeId) (next_index : Z) (ws : list WrittenBlock) (s : WriteState) : Prop := {
  rd_stream : stream_ok stream;
  rd_written : write_blocks blocks stream = (Ok ws, s);
  rd_blocks : Forall (fun b => ser_wf (bs_id b) /\ uint 16 (bs_ref_count b)) blocks;
  rd_keys : NoDup (map block_key (ws_written stream ++ ws));
  rd_count : 1 <= Z.of_nat (length (ws_written stream) + length blocks) <= MAX_ENTRIES;
  rd_cursor : ws_cursor stream + Z.of_nat (length blocks) * PAGE_STEP <= MAX_END;
  rd_nodes : 1 <= Z.of_nat (length nodes) <= MAX_ENTRIES;
  rd_nodes_wf : Forall ser_wf nodes;
  rd_nodes_sorted : StronglySorted (fun a b => be_key a < be_key b) nodes;
  rd_subnodes : Forall (fun n => uint 32 (node_id_0 n)) (subnode_ids blocks ++ streamed);
  rd_next : exists id, leaf_bid next_index = Ok id /\ ser_wf id;
  rd_counters : exists nids, nid_counters nodes blocks streamed = Ok nids
}.

Lemma node_uint32 (nodes : list UnicodeNodeBTreeEntry.t) :
  Forall ser_wf nodes -> Forall (fun e => uint 32 (node_id_0 (UnicodeNodeBTreeEntry.node e))) nodes.
Proof. intros H. eapply Forall_impl; [exact H|]. by intros e [? _]. Qed.

Lemma agree_join Q1 Q2 d1 d2 d3 : agree Q1 d1 d2 -> agree Q2 d2 d3 -> agree (fun o => Q1 o \/ Q2 o) d1 d3.
Proof. intros H1 H2. etrans; [eapply agree_weaken; [|exact H1]; by left|eapply agree_weaken; [|exact H2]; by right]. Qed.

(** A tree whose page ids are used once. *)
Definition tree_in {t LE} `{!BTreeEntry LE} (d : list Z) (root : UnicodePageRef) (es : list LE) : Prop :=
  exists K, ids_unique (P := t) (LE := LE) (B := UnicodePageId) (I := UnicodeByteIndex) d K /\ holds_tree (t := t) d K root es.

Lemma pages_below_end first K s r o :
  pages_ok first K s -> K r -> span (bi_index (bref_index r)) PAGE_SIZE o -> o < ps_offset s /\ ~ reserved_for_maps o.
Proof.
  intros Hok Hr Ho. destruct (po_range _ _ _ Hok r Hr) as (_ & _ & H1 & Hfree). split; [unfold span in Ho; lia|].
  by apply (free_not_reserved PAGE_SIZE PAGE_SIZE (bi_index (bref_index r))).
Qed.

Lemma tree_in_agree {t LE} `{!BTreeEntry LE} Q first K s d' root (es : list LE) :
  pages_ok first K s -> agree Q (wf_data (ps_file s)) d' -> (forall o, o < ps_offset s -> ~ reserved_for_maps o -> ~ Q o) ->
  holds_tree (t := t) (wf_data (ps_file s)) K root es -> tree_in (t := t) d' root es.
Proof.
  intros Hok Hq Hout Hh. exists K. split; [by eapply pages_ids_unique|].
  eapply holds_tree_agree; [done|done| |done]. intros r o Hr Ho. destruct (pages_below_end _ _ _ _ _ Hok Hr Ho). by apply Hout.
Qed.

Lemma ready_written stream blocks nodes streamed next ws s :
  ready stream blocks nodes streamed next ws s ->
  ws_file s <> None /\ ws_written s = ws_written stream /\
  rfold projected_block blocks (ws_cursor stream) = Ok (ws_cursor s) /\
  FIRST_AMAP <= ws_cursor s <= MAX_END /\ length (ws_written s ++ ws) = (length (ws_written stream) + length blocks)%nat /\
  Forall (settled (ws_cursor s)) (ws_written s ++ ws).
Proof.
  intros [[Hf [Hc _] Hsw _] Hw Hb _ _ Hmax _ _ _ _ _ _].
  assert (MAX_END <= 2 ^ 61) as Hm by (unfold MAX_END; lia).
  destruct (write_blocks_settled blocks stream ws s Hw Hf Hc ltac:(lia) Hb) as (Hf' & Hwr & Hp & Hc' & _ & Hall).
  split_and!; [done|done|done|lia|lia| |].
  - by rewrite length_app, Hwr, (Forall2_length _ _ _ Hall).
  - rewrite Hwr. apply Forall_app. split.
    + eapply Forall_impl; [exact Hsw|]. intros w [Hset _]. eapply settled_later; [|exact Hset]. lia.
    + apply Forall_forall. intros w [i Hi]%list_elem_of_lookup.
      destruct (Forall2_lookup_r _ _ _ _ _ Hall Hi) as (b & _ & _ & Hset & _). done.
Qed.

Lemma completed stream blocks nodes streamed next ws s :
  ready stream blocks nodes streamed next ws s ->
  exists e n f h nbt bbt,
    projected_finalized_file_eof (ws_cursor stream) (Z.of_nat (length (ws_written stream))) blocks (Z.of_nat (length nodes)) = Ok (region n) /\
    write_completed stream streamed blocks nodes next (region n) = Ok f /\ file_completed (wf_data f) h nbt bbt e n /\
    nid_counters nodes blocks streamed = Ok (UnicodeHeader.nids h) /\ ws_cursor s <= e /\
    tree_in (t := BlockBTree) (wf_data f) bbt (map entry_of (sort_written (ws_written stream ++ ws))) /\
    tree_in (t := NodeBTree) (wf_data f) nbt nodes /\
    forall b w, w ∈ ws_written stream ++ ws -> stored (stream_data s) b w -> stored (wf_data f) b w.
Proof.
  intros H. destruct (ready_written _ _ _ _ _ _ _ H) as (Hf & Hwr & Hproj & Hc & Hlen & Hset).
  destruct H as [_ Hw _ Hk Hcnt _ Hn Hnwf Hns Hsub (id & Hid & Hidwf) (nids & Hnids)].
  pose proof Hsub as [Hsub1 Hsub2]%Forall_app.
  pose proof (nid_counters_ok _ _ _ _ (node_uint32 _ Hnwf) Hsub1 Hsub2 Hnids) as Hco.
  destruct (ws_file s) as [f0|] eqn:Hfile; [|done]. rewrite <- Hwr in Hk.
  destruct (write_trees_ok f0 (ws_cursor s) (ws_written s ++ ws) nodes) as (bbt & nbt & s1 & s2 & K1 & K2 & n1 & n2 &
    Hw1 & Hw2 & Hc1 & Ha1 & Hc2 & Ha2 & Hpo & Hends & Hmod & Hpage & Hfr1 & Hfr2 & Hok1 & Hok2 & Ht1 & Ht2);
    [done|lia|eapply Forall_impl; [exact Hset|]; by intros w (_ & _ & _ & _ & ?)|done|done|done|done|].
  pose proof (po_cursor _ _ _ Hok2). pose proof (po_ids _ _ _ Hok2). pose proof (po_ids _ _ _ Hok1).
  destruct Ht1 as (p1 & d1 & lo1 & hi1 & Hk1 & Ht1), Ht2 as (p2 & d2 & lo2 & hi2 & Hk2 & Ht2).
  destruct (complete_ok (ps_file s2) (ps_offset s2) (ps_page s2) nbt bbt id nids) as (n & f & Heof & Hn1 & Hle & Hrun & Hagr & h & Hfc & Hhn);
    [lia|done|unfold uint; lia|done|done|by eapply known_ref_wf; [exact Hok2| |lia|]|
     by eapply known_ref_wf; [exact Hok1| |lia|lia]|].
  exists (ps_offset s2), n, f, h, nbt, bbt. split_and!; [| |done|by rewrite Hhn|lia| | |].
  - unfold projected_finalized_file_eof. rewrite Hproj. cbn [rbind]. rewrite checked_add_ok by (unfold MAX_ENTRIES in Hcnt; lia).
    cbn [fits ok_or rbind]. replace (_ + _) with (Z.of_nat (length (ws_written s ++ ws))) by (rewrite Hlen; lia).
    rewrite Hc1. cbn [rbind]. rewrite Nat2Z.id, Ha1. cbn [rbind]. rewrite Hc2. cbn [rbind]. rewrite Nat2Z.id, Ha2. done.
  - unfold write_completed. rewrite Hw, Hfile. cbn zeta. rewrite Hw1. cbn [rbind]. rewrite Hw2. cbn [rbind].
    rewrite Heof. cbn [rbind]. rewrite Z.eqb_refl. cbn [negb]. rewrite <- Hrun.
    destruct (write_allocation_pages _ _ _) as [[ca f1]| |]; [|done..]. cbn [rbind]. by rewrite Hid, Hnids.
  - rewrite <- Hwr. eapply (tree_in_agree _ _ K1 s1); [exact Hok1|exact (agree_join _ _ _ _ _ (frame_agree _ _ _ Hfr2) Hagr)| |].
    + intros o Ho Hr [Hx|[Hx|Hx]]; [lia|lia|done].
    + by exists p1, d1, lo1, hi1.
  - eapply (tree_in_agree _ _ K2 s2); [exact Hok2|exact Hagr| |by exists p2, d2, lo2, hi2]. intros o Ho Hr [Hx|Hx]; [lia|done].
  - intros b w Hin Hst. rewrite Forall_forall in Hset. rewrite <- Hwr in Hin. destruct (Hset w Hin) as (Hw0 & Hwe & Hfree & Hpos & _).
    eapply stored_frame; [done|exact (agree_join _ _ _ _ _ (agree_join _ _ _ _ _ (frame_agree _ _ _ Hfr1) (frame_agree _ _ _ Hfr2)) Hagr)| |].
    + intros o Ho. pose proof (free_not_reserved _ _ _ o Hpos Hfree Ho). unfold span in Ho. intros [[Hx|Hx]|[Hx|Hx]]; lia || done.
    + unfold stream_data in Hst. by rewrite Hfile in Hst.
Qed.

Lemma ready_blocks_keep stream blocks nodes streamed next ws s :
  ready stream blocks nodes streamed next ws s ->
  frame (fun o => ws_cursor stream <= o) (stream_data stream) (stream_data s) /\
  Forall2 (fun b w => wb_id w = bs_id b /\ settled (ws_cursor s) w /\ (storable b -> stored (stream_data s) b w)) blocks ws.
Proof.
  intros [[Hf [Hc _] Hsw _] Hw Hb _ _ Hmax _ _ _ _ _ _].
  assert (MAX_END <= 2 ^ 61) as Hm by (unfold MAX_END; lia).
  by destruct (write_blocks_settled blocks stream ws s Hw Hf Hc ltac:(lia) Hb) as (_ & _ & _ & _ & Hfr & Hall).
Qed.

(** ** Properties *)

(** What a reader finds of a tree. *)
Lemma tree_in_finds {t LE} `{!BTreeEntry LE} d root (es : list LE) : tree_in (t := t) d root es -> finds_all (t := t) d root es.
Proof.
  intros (K & Hids & p & depth & lo & hi & _ & Hr & Hd & Hb). exists p. split; [done|]. intros k.
  destruct (find_entry_tree d K depth p lo hi es k ∅ TREE_LEVELS) as (c & Hc & _);
    [done|apply cache_ok_empty|done|unfold TREE_LEVELS; lia|]. by exists c.
Qed.

(** C2: completing a file. When the blocks and the nodes of a run are within
    the limits of a file, the file end that was projected before the last
    blocks were written is the one that results, so that the run does not fail
    with a disagreement of the extents; the header can then be read, leads to
    the block B-tree and to the node B-tree, in which every id is looked up as
    in the list of the blocks and of the nodes; the allocation maps mark
    exactly the slots that begin below the end of the last page, and the header
    counts the rest as free; and every block stored by then can still be
    read. *)
Theorem write_completed_correct stream blocks nodes streamed next_index ws s :
  ready stream blocks nodes streamed next_index ws s ->
  let projected := projected_finalized_file_eof (ws_cursor stream) (Z.of_nat (length (ws_written stream))) blocks
    (Z.of_nat (length nodes)) in
  exists eof f h e n, projected = Ok eof /\ write_completed stream streamed blocks nodes next_index eof = Ok f /\
    file_completed (wf_data f) h (Header.node_btree (UnicodeHeader.root h)) (Header.block_btree (UnicodeHeader.root h)) e n /\
    eof = region n /\ ws_cursor s <= e /\ nid_counters nodes blocks streamed = Ok (UnicodeHeader.nids h) /\
    finds_all (t := BlockBTree) (wf_data f) (Header.block_btree (UnicodeHeader.root h))
      (map entry_of (sort_written (ws_written stream ++ ws))) /\
    finds_all (t := NodeBTree) (wf_data f) (Header.node_btree (UnicodeHeader.root h)) nodes /\
    forall b w, w ∈ ws_written stream ++ ws -> stored (stream_data s) b w -> stored (wf_data f) b w.
Proof.
  intros H projected. destruct (completed _ _ _ _ _ _ _ H) as (e & n & f & h & nbt & bbt & Hp & Hw & Hfc & Hnid & Hc & Hb & Hn & Hst).
  exists (region n), f, h, e, n. pose proof (fc_root _ _ _ _ _ _ Hfc) as Hroot. rewrite Hroot. cbn [Header.node_btree Header.block_btree Root.new].
  split_and!; [done|done|done|done|done|done|by apply tree_in_finds|by apply tree_in_finds|done].
Qed.

(** C1: from end to end. A payload of up to 2 GiB that was streamed into a file
    is, once the file is completed, whatever was written in between, delivered
    byte for byte by [streaming_reader], which a reader of the file reaches
    through the header, the block B-tree of the file and the data tree found
    under the id of the payload. *)
Theorem completed_file_delivers sha256 src byte_len expected eof s root size hash s' l stream blocks nodes streamed next_index ws fin :
  0 < byte_len <= 2 ^ 31 -> stream_ok s -> bytes_ok src ->
  append_reader_data_tree sha256 src byte_len expected eof s = (Ok (root, size, hash), s') ->
  emitted s' l stream -> ws_next stream <= MAX_BLOCKS -> ready stream blocks nodes streamed next_index ws fin ->
  exists file_eof f h p e c t r c', write_completed stream streamed blocks nodes next_index file_eof = Ok f /\
    read_at (wf_data f) 0 UnicodeHeader.read = Ok h /\
    RootBTreePage.read (P := BlockBTree) (LE := Entry) (wf_data f) (Header.block_btree (UnicodeHeader.root h)) = Ok p /\
    RootBTreePage.find_entry TREE_LEVELS (wf_data f) p (bid_search_key root) ∅ = Some (Ok e, c) /\
    DataTree.read (wf_data f) (UnicodeHeader.crypt_method h) e = Ok t /\
    streaming_reader (BlockFind0 := btree_find (wf_data f) p TREE_LEVELS) (wf_data f) (UnicodeHeader.crypt_method h) t (c, ∅) =
      Some (Ok r, c') /\
    forall lens, read_all (wf_data f) (UnicodeHeader.crypt_method h) lens r =
      Ok (take (sum_list lens) (take (Z.to_nat byte_len) src)).
Proof.
  intros Hlen Hok Hsrc Happ Hl Hmax Hready.
  pose proof Happ as (_ & _ & data & rest & Es & Hd & _)%logs_append_reader; [|lia].
  destruct (completed _ _ _ _ _ _ _ Hready) as (e & n & f & h & nbt & bbt & Hp & Hw & Hfc & _ & _ & Hb & _ & Hst).
  pose proof (fc_root _ _ _ _ _ _ Hfc) as Hroot.
  destruct Hb as (K & Hids & p & depth & lo & hi & _ & Hrd & Hdep & Hbt).
  assert (depth < TREE_LEVELS)%nat as Hfuel by (unfold TREE_LEVELS; lia).
  set (laws := btree_find_laws (wf_data f) p TREE_LEVELS K depth lo hi _ Hids Hbt Hfuel unicode_block_key).
  pose proof (rd_keys _ _ _ _ _ _ _ Hready) as Hkeys.
  destruct (streamed_payload_reader (BlockFindLaws0 := laws) (wf_data f) _ _ _ _ _ _ _ _ _ _ _ _ Hlen Hok Hsrc Happ Hl Hmax)
    as (entry & t & r & He & Ht & Hlv & Htr & Hh & H0 & Hx).
  - intros w Hin. apply written_find_ok.
    + assert (Permutation (map block_key (sort_written (ws_written stream ++ ws))) (map block_key (ws_written stream ++ ws))) as ->
        by (apply (fmap_Permutation block_key), sort_written_perm). done.
    + rewrite sort_written_perm. apply elem_of_app. by left.
  - intros b w Hin Hs. apply Hst; [apply elem_of_app; by left|].
    pose proof (rd_stream _ _ _ _ _ _ _ Hready) as Hsok. destruct (ready_blocks_keep _ _ _ _ _ _ _ Hready) as [Hfr _].
    pose proof (so_written _ Hsok) as Hsw. rewrite Forall_forall in Hsw. destruct (Hsw w Hin) as [(Hw0 & Hwe & _) _].
    by eapply stored_later; [|exact Hfr| | |].
  - destruct (find_entry_tree (wf_data f) K depth p lo hi _ (bid_search_key root) ∅ TREE_LEVELS Hids (cache_ok_empty _ _) Hbt Hfuel)
      as (c & Hc & Hcok).
    destruct (computes_reader_new (BlockFindLaws0 := laws) (wf_data f) Permute t MAX_STREAMING_DATA_TREE_ENTRIES ltac:(done) Hlv (c, ∅))
      as (r' & c' & Hrun & _ & Hspec).
    { split; [exact Hcok|]. intros id t' H. exfalso. exact (lookup_empty_Some (M := gmap Z) _ _ H). }
    apply Hspec in Htr as ->. exists (region n), f, h, p, entry, c, t, r, c'.
    rewrite (fc_crypt _ _ _ _ _ _ Hfc), Hroot. cbn [Header.block_btree Root.new].
    split; [exact Hw|]. split; [apply (fc_header _ _ _ _ _ _ Hfc)|]. split; [exact Hrd|]. split; [exact (eq_trans Hc (f_equal (fun x => Some (x, c)) He))|].
    split; [exact Ht|]. split; [exact Hrun|]. intros lens.
    apply read_all_exact; [done|lia|lia|]. rewrite length_take, Es, length_app. lia.
Qed.

(** ** Examples *)

Definition sample_last_blocks : list BlockSpec := [mk_BlockSpec (mk_UnicodeBlockId 4) (Data [1; 2; 3]) 2].

(** A stream with one payload of two blocks. *)
Abbreviation sample_run :=
  (append_reader_data_tree (fun _ => []) (replicate (Z.to_nat 8180) 7) 8180 None true sample_stream).

Lemma sample_payload_run : sample_run = (Ok (mk_UnicodeBlockId 122, 8180, []), snd sample_run).
Proof.
  assert (fst sample_run = Ok (mk_UnicodeBlockId 122, 8180, [])) as H by (vm_compute; reflexivity).
  rewrite <- H. apply surjective_pairing.
Qed.

Definition sample_last_written : list WrittenBlock := [mk_WrittenBlock (mk_UnicodeBlockId 4) 26752 3 2].

Lemma sample_last_ok :
  write_blocks sample_last_blocks (snd sample_run) =
    (Ok sample_last_written, snd (write_blocks sample_last_blocks (snd sample_run))).
Proof.
  assert (fst (write_blocks sample_last_blocks (snd sample_run)) = Ok sample_last_written) as H by (vm_compute; reflexivity).
  rewrite <- H. apply surjective_pairing.
Qed.

Lemma sample_keys : map block_key (ws_written (snd sample_run)) = [112; 116; 122].
Proof. vm_compute. reflexivity. Qed.

Lemma sample_bytes : bytes_ok (replicate (Z.to_nat 8180) 7).
Proof. apply bytes_ok_b. vm_compute. reflexivity. Qed.

Lemma sample_run_stream : stream_ok (snd sample_run) /\ ws_next (snd sample_run) <= MAX_BLOCKS.
Proof.
  assert (ws_next (snd sample_run) <= MAX_BLOCKS) as Hn by (vm_compute; discriminate). split; [|exact Hn].
  pose proof sample_payload_run as E. apply logs_append_reader in E as (l0 & T & _); [|lia]. eapply emitted_keeps; [exact T|exact sample_stream_ok|exact Hn].
Qed.

Lemma sample_ready :
  ready (snd sample_run) sample_last_blocks sample_nodes [] 40 sample_last_written
    (snd (write_blocks sample_last_blocks (snd sample_run))).
Proof.
  split.
  - apply sample_run_stream.
  - exact sample_last_ok.
  - repeat constructor; vm_compute; discriminate.
  - rewrite map_app, sample_keys. apply (bool_decide_unpack (NoDup _)). vm_compute. exact I.
  - vm_compute. split; discriminate.
  - vm_compute. discriminate.
  - vm_compute. split; discriminate.
  - repeat constructor; vm_compute; discriminate.
  - repeat constructor.
  - constructor.
  - eexists. split; [vm_compute; reflexivity|]. vm_compute. split; [discriminate|reflexivity].
  - eexists. vm_compute. reflexivity.
Qed.

Lemma write_completed_correct_witness :
  exists f h, write_completed (snd sample_run) [] sample_last_blocks sample_nodes 40 (region 1) = Ok f /\
    read_at (wf_data f) 0 UnicodeHeader.read = Ok h /\
    finds_all (t := NodeBTree) (wf_data f) (Header.node_btree (UnicodeHeader.root h)) sample_nodes.
Proof.
  destruct (write_completed_correct _ _ _ _ _ _ _ sample_ready) as (eof & f & h & e & n & Hp & Hw & Hfc & He & _ & _ & _ & Hn & _).
  assert (eof = region 1) as ->; [|exists f, h; split; [exact Hw|]; split; [apply (fc_header _ _ _ _ _ _ Hfc)|exact Hn]].
  assert (Ok eof = Ok (region 1) :> wres Z) as Heq; [rewrite <- Hp; vm_compute; reflexivity|]. by injection Heq.
Defined.

Lemma completed_file_delivers_witness :
  exists eof f h r, write_completed (snd sample_run) [] sample_last_blocks sample_nodes 40 eof = Ok f /\
    read_at (wf_data f) 0 UnicodeHeader.read = Ok h /\
    read_all (E := Entry) (wf_data f) (UnicodeHeader.crypt_method h) [2; 3]%nat r = Ok [7; 7; 7; 7; 7].
Proof.
  destruct sample_run_stream as [_ Hn].
  destruct (completed_file_delivers (fun _ => []) (replicate (Z.to_nat 8180) 7) 8180 None true sample_stream
    (mk_UnicodeBlockId 122) 8180 [] (snd sample_run) [] (snd sample_run) sample_last_blocks sample_nodes [] 40 sample_last_written
    (snd (write_blocks sample_last_blocks (snd sample_run))))
    as (eof & f & h & p & e & c & t & r & c' & Hw & Hh & _ & _ & _ & _ & Hall);
    [lia|exact sample_stream_ok|exact sample_bytes|exact sample_payload_run|constructor|exact Hn|exact sample_ready|].
  exists eof, f, h, r. split; [exact Hw|]. split; [exact Hh|]. rewrite Hall. vm_compute. reflexivity.
Defined.
