(* ===== verification/Heap.v ===== *)
(** * The heap on a node

    [ltp/heap.rs]: heap ids, the headers of the pages of a heap, the page
    map that cuts a page into allocations and the lookup of an allocation.
    Shown: heap ids pack and unpack, the page map read from a page is exactly
    the runs between its offsets, headers and page maps round trip, and a
    page laid out as header, allocations and map delivers each allocation. *)
From S2P Require Import Prelude Errors Io Ids Page BTree Block Lookup DataTree.
#[local] Open Scope Z_scope.

(** ** Heap ids *)

Record HeapId := mk_HeapId { heap_id_0 : NodeId }.

Definition HEAP_INDEX_MASK : Z := rotate_right 16 1 5 - 1.

Module HeapId.

Definition new (index block_index : Z) : LtpResult HeapId :=
  let shifted_index := rotate_left 16 index 5 in
  if negb (Z.land shifted_index 0x1F =? 0) then Err (InvalidHeapIndex index) else
  let node_index := Z.lor (wrap 32 (Z.shiftl block_index 11)) index in
  let? id := rmap_err LtpNodeDatabaseError (NodeId.new HeapNode node_index) in
  Ok (mk_HeapId id).

Definition index (h : HeapId) : LtpResult Z :=
  let index := wrap 16 (Z.land (NodeId.index (heap_id_0 h)) HEAP_INDEX_MASK) in
  if index <? 1 then Err (InvalidHeapIndex index) else Ok (index - 1).

Definition block_index (h : HeapId) : Z := wrap 16 (Z.shiftr (NodeId.index (heap_id_0 h)) 11).

Definition read : reader HeapId :=
  value <- NodeId.read;;
  id_type <- rd_lift (ndb (NodeId.id_type value));;
  rd_lift (ltp (ensure (NodeIdType_as_u8 id_type =? NodeIdType_as_u8 HeapNode)
                  (InvalidNodeType (NodeIdType_as_u8 id_type))));;;
  rd_ret (mk_HeapId value).

Definition write (h : HeapId) : list Z := NodeId.write (heap_id_0 h).

Definition from_u32 (value : Z) : HeapId := mk_HeapId (mk_NodeId value).
Definition into_u32 (h : HeapId) : Z := node_id_0 (heap_id_0 h).

End HeapId.

#[export] Instance HeapId_serial : Serial HeapId := {|
  ser_read := HeapId.read;
  ser_write := HeapId.write;
  ser_wf h := uint 32 (HeapId.into_u32 h) /\ NodeId.id_type (heap_id_0 h) = Ok HeapNode;
  ser_size := 4
|}.

(** ** Enumerations *)

Definition HeapNodeType_as_u8 (t : HeapNodeType) : Z :=
  match t with
  | HN_Reserved1 => 0x6C | HN_Table => 0x7C | HN_Reserved2 => 0x8C | HN_Reserved3 => 0x9C
  | HN_Reserved4 => 0xA5 | HN_Reserved5 => 0xAC | HN_Tree => 0xB5 | HN_Properties => 0xBC
  | HN_Reserved6 => 0xCC
  end.

Definition HeapNodeType_try_from (value : Z) : LtpResult HeapNodeType :=
  match value with
  | 0x6C => Ok HN_Reserved1 | 0x7C => Ok HN_Table | 0x8C => Ok HN_Reserved2
  | 0x9C => Ok HN_Reserved3 | 0xA5 => Ok HN_Reserved4 | 0xAC => Ok HN_Reserved5
  | 0xB5 => Ok HN_Tree | 0xBC => Ok HN_Properties | 0xCC => Ok HN_Reserved6
  | _ => Err (InvalidHeapNodeTypeSignature value)
  end.

Inductive HeapFillLevel :=
| FillEmpty | Level1 | Level2 | Level3 | Level4 | Level5 | Level6 | Level7
| Level8 | Level9 | Level10 | Level11 | Level12 | Level13 | Level14 | Level15.

#[export] Instance HeapFillLevel_eq_dec : EqDecision HeapFillLevel.
Proof. solve_decision. Defined.

Module HeapFillLevel.

Definition as_u8 (l : HeapFillLevel) : Z :=
  match l with
  | FillEmpty => 0x00 | Level1 => 0x01 | Level2 => 0x02 | Level3 => 0x03
  | Level4 => 0x04 | Level5 => 0x05 | Level6 => 0x06 | Level7 => 0x07
  | Level8 => 0x08 | Level9 => 0x09 | Level10 => 0x0A | Level11 => 0x0B
  | Level12 => 0x0C | Level13 => 0x0D | Level14 => 0x0E | Level15 => 0x0F
  end.

Definition try_from (value : Z) : LtpResult HeapFillLevel :=
  match value with
  | 0x00 => Ok FillEmpty | 0x01 => Ok Level1 | 0x02 => Ok Level2 | 0x03 => Ok Level3
  | 0x04 => Ok Level4 | 0x05 => Ok Level5 | 0x06 => Ok Level6 | 0x07 => Ok Level7
  | 0x08 => Ok Level8 | 0x09 => Ok Level9 | 0x0A => Ok Level10 | 0x0B => Ok Level11
  | 0x0C => Ok Level12 | 0x0D => Ok Level13 | 0x0E => Ok Level14 | 0x0F => Ok Level15
  | _ => Err (InvalidHeapFillLevel value)
  end.

Definition LEVELS : list HeapFillLevel :=
  [FillEmpty; Level1; Level2; Level3; Level4; Level5; Level6; Level7;
   Level8; Level9; Level10; Level11; Level12; Level13; Level14; Level15].

(** The index into [LEVELS] is masked to four bits, so it is in range. *)
Definition unpack_fill_levels (value : Z) : list HeapFillLevel :=
  map (fun i => List.nth (Z.to_nat (Z.land (Z.shiftr value (Z.of_nat i * 4)) 0x0F)) LEVELS FillEmpty)
      (seq 0 8).

Definition pack_fill_levels (fill_levels : list HeapFillLevel) : Z :=
  foldl (fun acc '(index, level) => Z.lor acc (wrap 32 (Z.shiftl (as_u8 level) (Z.of_nat index * 4))))
        0 (imap pair fill_levels).

End HeapFillLevel.

(** ** Page headers *)

Record HeapNodeHeader := mk_HeapNodeHeader {
  hnh_page_map_offset : Z;
  hnh_client_signature : HeapNodeType;
  hnh_user_root : HeapId;
  hnh_fill_levels : list HeapFillLevel;
}.

Module HeapNodeHeader.

Definition read : reader HeapNodeHeader :=
  page_map_offset <- read_u16;;
  heap_signature <- read_u8;;
  rd_lift (ltp (ensure (heap_signature =? 0xEC) (InvalidHeapNodeSignature heap_signature)));;;
  client <- read_u8;;
  client_signature <- rd_lift (ltp (HeapNodeType_try_from client));;
  user_root <- ser_read;;
  fill_levels <- read_u32;;
  rd_ret (mk_HeapNodeHeader page_map_offset client_signature user_root
            (HeapFillLevel.unpack_fill_levels fill_levels)).

Definition write (h : HeapNodeHeader) : list Z :=
  write_u16 (hnh_page_map_offset h) ++ write_u8 0xEC ++
  write_u8 (HeapNodeType_as_u8 (hnh_client_signature h)) ++ ser_write (hnh_user_root h) ++
  write_u32 (HeapFillLevel.pack_fill_levels (hnh_fill_levels h)).

End HeapNodeHeader.

Record HeapNodePageHeader := mk_HeapNodePageHeader { hnp_page_map_offset : Z }.

Module HeapNodePageHeader.
Definition read : reader HeapNodePageHeader :=
  page_index <- read_u16;; rd_ret (mk_HeapNodePageHeader page_index).
Definition write (h : HeapNodePageHeader) : list Z := write_u16 (hnp_page_map_offset h).
End HeapNodePageHeader.

Record HeapNodeBitmapHeader := mk_HeapNodeBitmapHeader {
  hnb_page_map_offset : Z;
  hnb_fill_levels : list HeapFillLevel;
}.

Module HeapNodeBitmapHeader.

(** The sixteen words that hold the 128 levels, eight each. *)
Definition read : reader HeapNodeBitmapHeader :=
  page_map_offset <- read_u16;;
  words <- rd_repeat 16 read_u32;;
  rd_ret (mk_HeapNodeBitmapHeader page_map_offset
            (concat (map HeapFillLevel.unpack_fill_levels words))).

Definition write (h : HeapNodeBitmapHeader) : list Z :=
  write_u16 (hnb_page_map_offset h) ++
  concat (map (fun i => write_u32 (HeapFillLevel.pack_fill_levels
                                     (take 8 (drop (i * 8) (hnb_fill_levels h)))))
              (seq 0 16)).

End HeapNodeBitmapHeader.

#[export] Instance HeapNodeHeader_serial : Serial HeapNodeHeader := {|
  ser_read := HeapNodeHeader.read;
  ser_write := HeapNodeHeader.write;
  ser_wf h := uint 16 (hnh_page_map_offset h) /\ ser_wf (hnh_user_root h) /\
              length (hnh_fill_levels h) = 8%nat;
  ser_size := 12
|}.

#[export] Instance HeapNodePageHeader_serial : Serial HeapNodePageHeader := {|
  ser_read := HeapNodePageHeader.read;
  ser_write := HeapNodePageHeader.write;
  ser_wf h := uint 16 (hnp_page_map_offset h);
  ser_size := 2
|}.

#[export] Instance HeapNodeBitmapHeader_serial : Serial HeapNodeBitmapHeader := {|
  ser_read := HeapNodeBitmapHeader.read;
  ser_write := HeapNodeBitmapHeader.write;
  ser_wf h := uint 16 (hnb_page_map_offset h) /\ length (hnb_fill_levels h) = 128%nat;
  ser_size := 66
|}.

(** ** The page map *)

Record HeapNodePageAlloc := mk_HeapNodePageAlloc { alloc_offset : Z; alloc_size : Z }.

Record HeapNodePageMap := mk_HeapNodePageMap {
  pm_allocations : list HeapNodePageAlloc;
  pm_next_offset : Z;
  pm_free_count : Z;
}.

Module HeapNodePageMap.

(** The [filter_map] over the offsets, with the two variables its closure
    updates: the allocations, the last offset and the number of empty
    allocations. *)
Fixpoint collect (offsets : list Z) (offset : option Z) (free_count : Z) :
    LtpResult (list HeapNodePageAlloc * option Z * Z) :=
  match offsets with
  | [] => Ok ([], offset, free_count)
  | next_offset :: offsets =>
      match offset with
      | None => collect offsets (Some next_offset) free_count
      | Some last_offset =>
          if next_offset <? last_offset then Err (InvalidHeapPageAllocOffset next_offset) else
          let size := next_offset - last_offset in
          let alloc := mk_HeapNodePageAlloc last_offset size in
          if size =? 0 then
            if negb (uint_b 16 (1 + free_count)) then Err HeapPageOutOfSpace else
            let? '(allocations, offset, free_count) := collect offsets offset (1 + free_count) in
            Ok (alloc :: allocations, offset, free_count)
          else
            let? '(allocations, offset, free_count) := collect offsets (Some next_offset) free_count in
            Ok (alloc :: allocations, offset, free_count)
      end
  end.

Definition try_from (offsets : list Z) : LtpResult HeapNodePageMap :=
  let? '(allocations, offset, free_count) := collect offsets None 0 in
  let? next_offset := ok_or offset EmptyHeapPageAlloc in
  Ok (mk_HeapNodePageMap allocations next_offset free_count).

Definition new (alloc_count free_count : Z) (offsets : list Z) : LtpResult HeapNodePageMap :=
  let? page_map := try_from offsets in
  if negb (alloc_count =? Z.of_nat (length (pm_allocations page_map)))
  then Err (InvalidHeapPageAllocCount alloc_count) else
  if negb (free_count =? pm_free_count page_map) then Err (InvalidHeapPageFreeCount free_count) else
  Ok page_map.

Definition read : reader HeapNodePageMap :=
  alloc_count <- read_u16;;
  free_count <- read_u16;;
  allocations <- rd_repeat (S (Z.to_nat alloc_count)) read_u16;;
  rd_lift (ltp (new alloc_count free_count allocations)).

(** The offset that ends the page map is the end of the last allocation,
    computed on [u16]. *)
Definition write (m : HeapNodePageMap) : io_result (list Z) :=
  let count := Z.of_nat (length (pm_allocations m)) in
  if negb (uint_b 16 count) then Err (LtpData HeapPageOutOfSpace) else
  let last_offset := match last (pm_allocations m) with
                     | Some a => wrapping_add 16 (alloc_offset a) (alloc_size a)
                     | None => 0
                     end in
  Ok (write_u16 count ++ write_u16 (pm_free_count m) ++
      concat (map (fun a => write_u16 (alloc_offset a)) (pm_allocations m)) ++
      write_u16 last_offset).

End HeapNodePageMap.

(** ** The heap *)

(** [HeapNodeInner]: the data blocks of the node, in order. *)
Record HeapNodeInner (B : Type) := mk_HeapNodeInner { hn_data : list (DataBlock B) }.
Arguments mk_HeapNodeInner {B}.
Arguments hn_data {B}.

(** [&bytes[start..end]] *)
Definition slice {E} (bytes : list Z) (start end_ : Z) : res E (list Z) :=
  if (start <=? end_) && (end_ <=? Z.of_nat (length bytes))
  then Ok (take (Z.to_nat (end_ - start)) (drop (Z.to_nat start) bytes)) else Panic.

Module HeapNodeInner.

Section heap.
Context {B : Type}.

Definition header (self : HeapNodeInner B) : io_result HeapNodeHeader :=
  let? data := ok_or (head (hn_data self)) UnexpectedEof in
  let? '(header, _) := HeapNodeHeader.read (db_data data) in
  Ok header.

(** The header of a page gives the offset of its map. *)
Definition read_page_map_offset (block_index : Z) : reader Z :=
  if block_index =? 0 then header <- HeapNodeHeader.read;; rd_ret (hnh_page_map_offset header)
  else if block_index mod 128 =? 8 then
    header <- HeapNodeBitmapHeader.read;; rd_ret (hnb_page_map_offset header)
  else header <- HeapNodePageHeader.read;; rd_ret (hnp_page_map_offset header).

Definition find_entry (self : HeapNodeInner B) (heap_id : HeapId) : io_result (list Z) :=
  let block_index := HeapId.block_index heap_id in
  let? data := ltp (ok_or (hn_data self !! Z.to_nat block_index) (HeapBlockIndexNotFound block_index)) in
  let block := db_data data in
  let? '(page_map_offset, _) := read_page_map_offset block_index block in
  let? page_map := read_at block page_map_offset HeapNodePageMap.read in
  let allocations := pm_allocations page_map in
  let? index := ltp (HeapId.index heap_id) in
  if Z.of_nat (length allocations) <=? index then Err (LtpData (HeapAllocIndexNotFound index)) else
  let? alloc := Prelude.index allocations index in
  let start := alloc_offset alloc in
  let end_ := start + alloc_size alloc in
  slice block start end_.

End heap.

(** [read]: the blocks of the data tree the key names. *)
Section read.
Context {E B I S : Type} `{!Ids.BlockId B, !ByteIndex I, !BlockBTreeEntry E B I}.
Context `{!BlockTrailerReadWrite B, !IntermediateTreeEntry B, !BlockFind E S}.
Context (f : list Z) (encoding : NdbCryptMethod).

(** The lookups share [page_cache]; [blocks] starts with an empty block
    cache, which is dropped. *)
Definition read (key : Z) : M S (HeapNodeInner B) :=
  let! block := bl_find key in
  let! data_tree := m_lift (DataTree.read f encoding block) in
  fun pages =>
    match blocks f encoding data_tree (pages, ∅) with
    | Some (r, (pages, _)) =>
        Some (let? data := r in Ok (mk_HeapNodeInner data), pages)
    | None => None
    end.

End read.

End HeapNodeInner.

(** ** Heap ids pack and unpack *)

Lemma lor_shiftl_add x n t : 0 <= n -> 0 <= x -> uint n t -> Z.lor (Z.shiftl x n) t = x * 2 ^ n + t.
Proof.
  intros Hn Hx Ht. assert (Z.land (Z.shiftl x n) t = 0) as Hz.
  { zbits. rewrite Z.land_spec, Z.bits_0. destruct (Z.lt_ge_cases n0 n).
    - by rewrite Z.shiftl_spec_low by lia.
    - by rewrite (uint_testbit_high n t), andb_false_r by done. }
  rewrite <- Z.lxor_lor, <- Z.add_nocarry_lxor by done. by rewrite Z.shiftl_mul_pow2.
Qed.

(** An index is at most eleven bits; the index that is read back counts from
    zero. *)
Lemma heap_id_new index block_index :
  uint 11 index -> uint 16 block_index ->
  exists h, HeapId.new index block_index = Ok h /\
    HeapId.into_u32 h = (block_index * 2 ^ 11 + index) * 32 /\ ser_wf h /\
    HeapId.block_index h = block_index /\
    HeapId.index h = (if index <? 1 then Err (InvalidHeapIndex index) else Ok (index - 1)).
Proof.
  intros Hi Hb. assert (Hi16 : uint 16 index) by (by apply (uint_le 11)).
  unfold uint in Hi, Hb. unfold HeapId.new. change 0x1F with (Z.ones 5).
  rewrite rotate_left_low by (done || lia).
  rewrite (proj2 (shiftr_eq_0 16 index 5 ltac:(lia) Hi16)) by lia. cbn [negb Z.eqb].
  rewrite (wrap_small 32) by (rewrite Z.shiftl_mul_pow2 by lia; unfold uint; lia).
  rewrite lor_shiftl_add by (unfold uint; lia).
  set (n := block_index * 2 ^ 11 + index).
  assert (Hn : 0 <= n < 2 ^ 27) by (unfold n; lia).
  rewrite NodeId_new_ok by (unfold uint; change MAX_NODE_INDEX with (2 ^ 27 - 1); lia).
  cbn [rmap_err rbind]. eexists. split; [done|].
  destruct (shiftl_lor_low n 5 0) as [Hl Hr]; [done|lia|done|].
  unfold HeapId.into_u32, HeapId.block_index, HeapId.index, NodeId.index, NodeId.id_type, NodeIdType_as_u8 in *.
  cbn [heap_id_0 node_id_0 ser_wf HeapId_serial]. unfold HeapId.into_u32, NodeId.id_type.
  cbn [heap_id_0 node_id_0]. change 0x1F with (Z.ones 5). rewrite Hl, Hr, Z.lor_0_r.
  rewrite Z.shiftl_mul_pow2 by lia. change (2 ^ 5) with 32.
  change HEAP_INDEX_MASK with (Z.ones 11). rewrite Z.land_ones by lia.
  rewrite Z.shiftr_div_pow2 by lia.
  assert (n mod 2 ^ 11 = index /\ n / 2 ^ 11 = block_index) as [-> ->].
  { unfold n. rewrite (Z.add_comm _ index), Z.mod_add, Z.div_add by lia.
    rewrite Z.mod_small, Z.div_small by lia. lia. }
  rewrite !wrap_small by done. split_and!; [done| | |done|done].
  - unfold uint. lia.
  - done.
Qed.

Lemma heap_id_new_large index block_index :
  uint 16 index -> 2 ^ 11 <= index -> HeapId.new index block_index = Err (InvalidHeapIndex index).
Proof.
  intros Hi Hge. unfold HeapId.new. change 0x1F with (Z.ones 5).
  rewrite rotate_left_low by (done || lia).
  destruct (Z.eqb_spec (Z.shiftr index (16 - 5)) 0) as [H|H]; [|done].
  apply shiftr_eq_0 in H; [lia|lia|done].
Qed.

(** ** Fill levels *)

(** The levels as the digits of a number. *)
Fixpoint fill_value (l : list HeapFillLevel) : Z :=
  match l with [] => 0 | a :: l => HeapFillLevel.as_u8 a + 16 * fill_value l end.

Lemma fill_level_range a : 0 <= HeapFillLevel.as_u8 a < 16.
Proof. by destruct a. Qed.

Lemma fill_value_range l : 0 <= fill_value l < 2 ^ (4 * Z.of_nat (length l)).
Proof.
  induction l as [|a l IH]; [done|]. cbn [fill_value length].
  replace (4 * Z.of_nat (S (length l))) with (4 + 4 * Z.of_nat (length l)) by lia.
  rewrite Z.pow_add_r by lia. pose proof (fill_level_range a). lia.
Qed.

Lemma pack_fill_from k l acc :
  (k + length l <= 8)%nat -> 0 <= acc < 2 ^ (4 * Z.of_nat k) ->
  foldl (fun acc '(i, level) =>
    Z.lor acc (wrap 32 (Z.shiftl (HeapFillLevel.as_u8 level) (Z.of_nat i * 4))))
    acc (imap (fun i a => ((k + i)%nat, a)) l) = acc + 2 ^ (4 * Z.of_nat k) * fill_value l.
Proof.
  revert k acc. induction l as [|a l IH]; intros k acc Hk Hacc; [cbn; lia|].
  rewrite imap_cons. cbn [foldl]. rewrite Nat.add_0_r.
  pose proof (fill_level_range a). cbn [length] in Hk.
  assert (Hp : 2 ^ (4 * Z.of_nat k) * 16 <= 2 ^ 32).
  { change 16 with (2 ^ 4). rewrite <- Z.pow_add_r by lia. apply Z.pow_le_mono_r; lia. }
  rewrite (wrap_small 32).
  2: { rewrite Z.shiftl_mul_pow2, (Z.mul_comm (Z.of_nat k)) by lia. unfold uint. nia. }
  rewrite Z.lor_comm, (Z.mul_comm (Z.of_nat k)), lor_shiftl_add by (unfold uint; lia).
  assert (He : imap ((fun (i : nat) a => ((k + i)%nat, a)) ∘ S) l = imap (fun i a => ((S k + i)%nat, a)) l).
  { apply imap_ext. intros i x _. cbn. f_equal. lia. }
  rewrite He, IH; [|lia|].
  - cbn [fill_value]. replace (4 * Z.of_nat (S k)) with (4 * Z.of_nat k + 4) by lia.
    rewrite Z.pow_add_r by lia. nia.
  - replace (4 * Z.of_nat (S k)) with (4 * Z.of_nat k + 4) by lia. rewrite Z.pow_add_r by lia. nia.
Qed.

Lemma pack_fill_levels_value l :
  (length l <= 8)%nat -> HeapFillLevel.pack_fill_levels l = fill_value l.
Proof.
  intros Hl. unfold HeapFillLevel.pack_fill_levels.
  pose proof (pack_fill_from 0 l 0 Hl ltac:(cbn; lia)) as H. cbn [Nat.add Z.of_nat Z.mul] in H.
  rewrite Z.pow_0_r in H. etransitivity; [exact H|lia].
Qed.

Lemma fill_value_digit l i a :
  l !! i = Some a -> Z.land (Z.shiftr (fill_value l) (Z.of_nat i * 4)) 0x0F = HeapFillLevel.as_u8 a.
Proof.
  change 0x0F with (Z.ones 4). rewrite Z.land_ones, Z.shiftr_div_pow2 by lia. change (2 ^ 4) with 16.
  revert i. induction l as [|b l IH]; intros i Hi; [done|]. cbn [fill_value].
  pose proof (fill_level_range b). destruct i as [|i].
  - injection Hi as ->. cbn [Z.of_nat Z.mul]. rewrite Z.pow_0_r, Z.div_1_r.
    rewrite (Z.mul_comm 16), Z.mod_add, Z.mod_small by lia. done.
  - rewrite <- (IH i Hi). f_equal. replace (Z.of_nat (S i) * 4) with (4 + Z.of_nat i * 4) by lia.
    rewrite Z.pow_add_r, <- Z.div_div by lia. f_equal. change (2 ^ 4) with 16.
    rewrite (Z.mul_comm 16), Z.div_add, Z.div_small by lia. lia.
Qed.

Lemma unpack_pack_fill_levels l :
  length l = 8%nat -> HeapFillLevel.unpack_fill_levels (HeapFillLevel.pack_fill_levels l) = l.
Proof.
  intros Hl. rewrite pack_fill_levels_value by lia. apply list_eq_same_length with 8%nat; [done| |].
  - unfold HeapFillLevel.unpack_fill_levels. by rewrite length_map, length_seq.
  - intros i x y Hi Hx Hy. unfold HeapFillLevel.unpack_fill_levels in Hx.
    rewrite list_lookup_fmap in Hx. rewrite lookup_seq_lt in Hx by done. cbn in Hx.
    rewrite (fill_value_digit l i y Hy) in Hx. injection Hx as <-. by destruct y.
Qed.

Lemma pack_fill_levels_uint l : (length l <= 8)%nat -> uint 32 (HeapFillLevel.pack_fill_levels l).
Proof.
  intros Hl. rewrite pack_fill_levels_value by done. pose proof (fill_value_range l) as [H0 H1].
  split; [done|]. eapply Z.lt_le_trans; [done|]. apply Z.pow_le_mono_r; lia.
Qed.

(** ** Codec laws *)

Lemma HeapNodeType_round t : HeapNodeType_try_from (HeapNodeType_as_u8 t) = Ok t.
Proof. by destruct t. Qed.

Lemma HeapNodeType_uint t : uint 8 (HeapNodeType_as_u8 t).
Proof. by destruct t. Qed.

#[export] Instance HeapId_rt : RoundTrip HeapId.
Proof.
  split; cbn.
  - intros [[x]] s [Hx Ht]. unfold HeapId.read, HeapId.write, NodeId.read, NodeId.write. cbn in *.
    unfold rd_bind, rd_lift, rd_ret. rewrite read_u32_app by done. cbn [rbind]. by rewrite Ht.
  - done.
  - intros [[x]]. apply le_bytes_ok.
Qed.

#[export] Instance HeapNodeHeader_rt : RoundTrip HeapNodeHeader.
Proof.
  split; cbn.
  - intros [o c r l] s (Ho & Hr & Hl); cbn [hnh_page_map_offset hnh_user_root hnh_fill_levels] in *.
    unfold HeapNodeHeader.read, HeapNodeHeader.write.
    cbn [hnh_page_map_offset hnh_client_signature hnh_user_root hnh_fill_levels].
    pose proof (HeapNodeType_uint c). pose proof (pack_fill_levels_uint l ltac:(lia)).
    rd_run. unfold rd_bind at 1. unfold rd_lift at 1. cbn [ensure Z.eqb Pos.eqb ltp rmap_err rbind].
    rd_run. unfold rd_bind at 1. unfold rd_lift at 1.
    rewrite HeapNodeType_round. cbn [ltp rmap_err rbind]. rd_run.
    by rewrite unpack_pack_fill_levels.
  - intros [o c r l]. done.
  - intros [o c r l]. unfold HeapNodeHeader.write. bytes_tac.
Qed.

#[export] Instance HeapNodePageHeader_rt : RoundTrip HeapNodePageHeader.
Proof.
  split; cbn.
  - intros [o] s Ho. unfold HeapNodePageHeader.read, HeapNodePageHeader.write. cbn in *. by rd_run.
  - done.
  - intros [o]. apply le_bytes_ok.
Qed.

(** A list cut in runs of eight and put together again. *)
Lemma chop_concat {A} n k (l : list A) :
  length l = (n * k)%nat -> concat (map (fun i => take k (drop (i * k) l)) (seq 0 n)) = l.
Proof.
  revert l. induction n as [|n IH]; intros l Hl; [by apply nil_length_inv in Hl|].
  cbn [seq map concat Nat.mul]. rewrite drop_0, <- seq_shift, map_map.
  etransitivity; [|apply (take_drop k l)]. f_equal.
  etransitivity; [|apply (IH (drop k l)); rewrite length_drop; lia].
  f_equal. apply map_ext. intros i. by rewrite drop_drop.
Qed.

#[export] Instance HeapNodeBitmapHeader_rt : RoundTrip HeapNodeBitmapHeader.
Proof.
  split; cbn -[seq].
  - intros [o l] s (Ho & Hl); cbn [hnb_page_map_offset hnb_fill_levels] in *.
    unfold HeapNodeBitmapHeader.read, HeapNodeBitmapHeader.write. cbn [hnb_page_map_offset hnb_fill_levels].
    rd_run. set (words := map (fun i => HeapFillLevel.pack_fill_levels (take 8 (drop (i * 8) l))) (seq 0 16)).
    assert (Hw : concat (map (fun i => write_u32 (HeapFillLevel.pack_fill_levels (take 8 (drop (i * 8) l))))
      (seq 0 16)) = concat (map write_u32 words)) by (unfold words; by rewrite map_map).
    rewrite Hw. unfold rd_bind. change 16%nat with (length words) at 1.
    rewrite rd_repeat_u32_app.
    + cbn [rbind]. unfold rd_ret. do 3 f_equal. unfold words. rewrite map_map.
      etransitivity; [|apply (chop_concat 16 8 l Hl)]. f_equal. apply map_ext_in. intros i Hi.
      apply in_seq in Hi. apply unpack_pack_fill_levels. rewrite length_take, length_drop. lia.
    + unfold words. apply Forall_forall. intros x Hx. apply list_elem_of_fmap in Hx as (i & -> & _).
      apply pack_fill_levels_uint. rewrite length_take. lia.
  - intros [o l]. unfold HeapNodeBitmapHeader.write. rewrite length_app.
    rewrite (length_concat_map _ 4) by done. by rewrite length_seq.
  - intros [o l]. unfold HeapNodeBitmapHeader.write. bytes_tac. constructor.
Qed.

(** ** The page map *)

(** The runs between successive offsets. *)
Fixpoint runs (last : Z) (offsets : list Z) : list HeapNodePageAlloc :=
  match offsets with
  | [] => []
  | o :: offsets => mk_HeapNodePageAlloc last (o - last) :: runs o offsets
  end.

(** No offset is below the one before it. *)
Fixpoint ascending (last : Z) (offsets : list Z) : bool :=
  match offsets with
  | [] => true
  | o :: offsets => (last <=? o) && ascending o offsets
  end.

Definition empty_runs (l : list HeapNodePageAlloc) : Z :=
  Z.of_nat (length (filter (fun a => alloc_size a = 0) l)).

Lemma empty_runs_cons a l :
  empty_runs (a :: l) = (if alloc_size a =? 0 then 1 else 0) + empty_runs l.
Proof.
  unfold empty_runs. rewrite filter_cons.
  destruct (Z.eqb_spec (alloc_size a) 0), (decide (alloc_size a = 0)); try done; cbn [length]; lia.
Qed.

Lemma runs_length last os : length (runs last os) = length os.
Proof. revert last. induction os; intros; cbn; [done|]. by rewrite IHos. Qed.

Lemma collect_runs os last free :
  ascending last os = true -> 0 <= free -> free + empty_runs (runs last os) < 2 ^ 16 ->
  HeapNodePageMap.collect os (Some last) free =
    Ok (runs last os, Some (default last (list.last os)), free + empty_runs (runs last os)).
Proof.
  revert last free. induction os as [|o os IH]; intros last free Ha Hf Hlt; cbn [HeapNodePageMap.collect].
  { cbn. do 2 f_equal. unfold empty_runs. cbn. lia. }
  cbn [ascending runs] in *. rewrite empty_runs_cons in *. cbn [alloc_size] in *. zb.
  assert (He : 0 <= empty_runs (runs o os)) by (unfold empty_runs; lia).
  rewrite (proj2 (Z.ltb_ge o last)) by done.
  assert (Hl : default last (list.last (o :: os)) = default o (list.last os)) by (rewrite last_cons; by destruct (list.last os)).
  rewrite Hl. revert Hlt. destruct (Z.eqb_spec (o - last) 0) as [Hz|Hz]; intros Hlt.
  - rewrite (proj2 (uint_b_spec 16 (1 + free))) by (unfold uint; lia). cbn [negb].
    assert (last = o) as -> by lia. rewrite IH by (done || lia). cbn [rbind].
    by rewrite Z.add_assoc, (Z.add_comm free).
  - rewrite IH by (done || lia). cbn [rbind]. by rewrite Z.add_0_l.
Qed.

Lemma collect_ok os last free l o f :
  0 <= free < 2 ^ 16 -> HeapNodePageMap.collect os (Some last) free = Ok (l, o, f) ->
  ascending last os = true /\ free + empty_runs (runs last os) < 2 ^ 16.
Proof.
  revert last free l o f. induction os as [|x os IH]; intros last free l o f Hf H; cbn [HeapNodePageMap.collect] in H.
  { split; [done|]. unfold empty_runs. cbn. lia. }
  cbn [ascending runs]. rewrite empty_runs_cons. cbn [alloc_size].
  destruct (Z.ltb_spec x last); [done|]. rewrite (proj2 (Z.leb_le last x)) by done. cbn [andb].
  destruct (Z.eqb_spec (x - last) 0) as [Hz|Hz].
  - destruct (uint_b 16 (1 + free)) eqn:Hu; [|done]. apply uint_b_spec in Hu. cbn [negb] in H.
    res_step. destruct a as [[l' o'] f']. apply IH in E as [Ha Hs]; [|done].
    assert (last = x) as -> by lia. split; [done|lia].
  - res_step. destruct a as [[l' o'] f']. apply IH in E as [Ha Hs]; [|done]. split; [done|lia].
Qed.

(** The map of a page is exactly the runs between its offsets, and is
    accepted exactly when these ascend and the two counts are right. *)
Lemma page_map_new count free os m :
  HeapNodePageMap.new count free os = Ok m <->
  exists o rest, os = o :: rest /\ ascending o rest = true /\ count = Z.of_nat (length rest) /\
    free = empty_runs (runs o rest) /\ free < 2 ^ 16 /\
    m = mk_HeapNodePageMap (runs o rest) (default o (list.last rest)) free.
Proof.
  unfold HeapNodePageMap.new, HeapNodePageMap.try_from. split.
  - intros H. destruct os as [|o rest]; [done|]. cbn [HeapNodePageMap.collect] in H.
    destruct (HeapNodePageMap.collect rest (Some o) 0) as [[[l o'] f]|e|] eqn:Hc; [|done..].
    pose proof Hc as Hk. apply collect_ok in Hc as [Ha Hf]; [|lia].
    rewrite collect_runs in Hk by (done || lia). injection Hk as <- <- <-. cbn [rbind ok_or pm_allocations pm_free_count] in H.
    repeat res_step. zb. rewrite runs_length in *. injection H as <-.
    exists o, rest. rewrite !Z.add_0_l in *. by subst.
  - intros (o & rest & -> & Ha & -> & -> & Hf & ->). cbn [HeapNodePageMap.collect].
    rewrite collect_runs by (done || lia). cbn [rbind ok_or pm_allocations pm_free_count].
    by rewrite runs_length, Z.add_0_l, !Z.eqb_refl.
Qed.

(** The bytes of a page map. *)
Definition page_map_bytes (free : Z) (offsets : list Z) : list Z :=
  write_u16 (Z.of_nat (length offsets) - 1) ++ write_u16 free ++ concat (map write_u16 offsets).

Lemma page_map_read free o rest s :
  Forall (uint 16) (o :: rest) -> Z.of_nat (length rest) < 2 ^ 16 -> ascending o rest = true ->
  free = empty_runs (runs o rest) ->
  HeapNodePageMap.read (page_map_bytes free (o :: rest) ++ s) =
    Ok (mk_HeapNodePageMap (runs o rest) (default o (list.last rest)) free, s).
Proof.
  intros Hu Hn Ha Hf. unfold HeapNodePageMap.read, page_map_bytes.
  assert (Hf16 : uint 16 free).
  { subst free. unfold uint, empty_runs.
    pose proof (length_filter (fun a => alloc_size a = 0) (runs o rest)) as Hl.
    rewrite runs_length in Hl. lia. }
  assert (Hn16 : uint 16 (Z.of_nat (length (o :: rest)) - 1)) by (cbn [length]; unfold uint; lia).
  rd_run. replace (S (Z.to_nat (Z.of_nat (length (o :: rest)) - 1))) with (length (o :: rest)) by (cbn [length]; lia).
  unfold rd_bind at 1. rewrite rd_repeat_app; [|intros a t Hin; apply read_u16_app; by apply (proj1 (Forall_forall _ _) Hu)].
  cbn [rbind]. unfold rd_lift.
  rewrite (proj2 (page_map_new _ free (o :: rest) (mk_HeapNodePageMap (runs o rest) (default o (list.last rest)) free))); [done|].
  exists o, rest. split_and!; try done; [cbn [length]; lia|by destruct Hf16].
Qed.

(** [write] on a map that was read, with at least one allocation: the bytes
    are those of the map. *)
Lemma page_map_write count free os m :
  Forall (uint 16) os -> HeapNodePageMap.new count free os = Ok m -> pm_allocations m <> [] ->
  uint 16 count -> HeapNodePageMap.write m = Ok (page_map_bytes free os).
Proof.
  intros Hu Hm Hne Hc. apply page_map_new in Hm as (o & rest & -> & Ha & -> & Hf & Hf2 & ->).
  unfold HeapNodePageMap.write, page_map_bytes. cbn [pm_allocations pm_free_count] in *.
  rewrite runs_length, (proj2 (uint_b_spec 16 _) Hc). cbn [negb length].
  replace (Z.of_nat (S (length rest)) - 1) with (Z.of_nat (length rest)) by lia.
  assert (Hmap : forall o rest, rest <> [] -> Forall (uint 16) (o :: rest) ->
    concat (map (fun a => write_u16 (alloc_offset a)) (runs o rest)) ++
    write_u16 (match list.last (runs o rest) with
               | Some a => wrapping_add 16 (alloc_offset a) (alloc_size a) | None => 0 end) =
    concat (map write_u16 (o :: rest))).
  { clear. intros o rest. revert o. induction rest as [|x rest IH]; intros o Hne Hu; [done|].
    inversion Hu as [|? ? Ho Hr]; subst. cbn [runs map concat alloc_offset]. rewrite <- app_assoc. f_equal.
    destruct rest as [|y rest].
    - cbn. inversion Hr; subst. unfold wrapping_add. rewrite wrap_small by (by replace (o + (x - o)) with x by lia).
      rewrite app_nil_r. f_equal. lia.
    - apply (IH x); done. }
  rewrite Hmap; [done| |done]. intros ->. done.
Qed.

(** ** Pages *)

(** The offsets at which the allocations end. *)
Fixpoint ends (base : Z) (allocs : list (list Z)) : list Z :=
  match allocs with
  | [] => []
  | a :: allocs => let e := base + Z.of_nat (length a) in e :: ends e allocs
  end.

(** The reader finds the allocations [allocs] in the page. *)
Definition page_holds (block_index : Z) (block : list Z) (allocs : list (list Z)) : Prop :=
  exists off t m,
    HeapNodeInner.read_page_map_offset block_index block = Ok (off, t) /\
    read_at block off HeapNodePageMap.read = Ok m /\
    Forall2 (fun a alloc => slice (E := io_error) block (alloc_offset a) (alloc_offset a + alloc_size a) = Ok alloc)
      (pm_allocations m) allocs.

Lemma length_ends base allocs : length (ends base allocs) = length allocs.
Proof. revert base. induction allocs; intros; cbn; [done|]. by rewrite IHallocs. Qed.

Lemma ends_ascending base allocs : ascending base (ends base allocs) = true.
Proof.
  revert base. induction allocs as [|a l IH]; intros base; cbn [ends ascending]; [done|].
  rewrite IH, andb_true_r. apply Z.leb_le. lia.
Qed.

Lemma ends_bound base allocs :
  Forall (fun e => base <= e <= base + Z.of_nat (length (concat allocs))) (ends base allocs).
Proof.
  revert base. induction allocs as [|a l IH]; intros base; cbn [ends concat]; constructor.
  - rewrite length_app. lia.
  - eapply Forall_impl; [apply IH|]. intros e. cbn beta. rewrite length_app. lia.
Qed.

Lemma ends_empty_runs base allocs :
  empty_runs (runs base (ends base allocs)) = Z.of_nat (length (filter (fun a => a = []) allocs)).
Proof.
  revert base. induction allocs as [|a l IH]; intros base; [done|]. cbn [ends runs].
  rewrite empty_runs_cons, IH, filter_cons. cbn [alloc_size].
  destruct a as [|b a].
  - rewrite (proj2 (Z.eqb_eq _ 0)) by (cbn [length]; lia). rewrite decide_True by done. cbn [length]. lia.
  - rewrite (proj2 (Z.eqb_neq _ 0)) by (cbn [length]; lia). by rewrite decide_False.
Qed.

Lemma ends_slices pre allocs post :
  Forall2 (fun a alloc => slice (E := io_error) (pre ++ concat allocs ++ post)
                            (alloc_offset a) (alloc_offset a + alloc_size a) = Ok alloc)
    (runs (Z.of_nat (length pre)) (ends (Z.of_nat (length pre)) allocs)) allocs.
Proof.
  revert pre. induction allocs as [|a l IH]; intros pre; [constructor|].
  cbn [ends runs concat]. constructor.
  - cbn [alloc_offset alloc_size]. unfold slice.
    rewrite (proj2 (Z.leb_le _ _)), (proj2 (Z.leb_le _ _)) by (rewrite ?length_app; lia). cbn [andb].
    rewrite Nat2Z.id, drop_app_length, <- app_assoc. f_equal. apply take_app_exact. lia.
  - specialize (IH (pre ++ a)). rewrite length_app, Nat2Z.inj_add in IH.
    rewrite <- !app_assoc in *. exact IH.
Qed.

(** A page laid out as header, allocations, padding and map. *)
Lemma page_layout block_index block hdr allocs pad tail t free :
  block = hdr ++ concat allocs ++ pad ++
    page_map_bytes free (Z.of_nat (length hdr) :: ends (Z.of_nat (length hdr)) allocs) ++ tail ->
  let off := Z.of_nat (length (hdr ++ concat allocs ++ pad)) in
  off < 2 ^ 16 -> Z.of_nat (length allocs) < 2 ^ 16 ->
  free = Z.of_nat (length (filter (fun a => a = []) allocs)) ->
  HeapNodeInner.read_page_map_offset block_index block = Ok (off, t) ->
  page_holds block_index block allocs.
Proof.
  intros Hb off Hoff Hn Hf Hr. exists off, t. eexists. split; [done|].
  set (base := Z.of_nat (length hdr)) in *.
  assert (Hoffs : base + Z.of_nat (length (concat allocs)) <= off)
    by (unfold off, base; rewrite !length_app; lia).
  split.
  - unfold read_at. rewrite Hb. unfold off. rewrite Nat2Z.id.
    replace (hdr ++ concat allocs ++ pad ++ page_map_bytes free (base :: ends base allocs) ++ tail)
      with ((hdr ++ concat allocs ++ pad) ++ page_map_bytes free (base :: ends base allocs) ++ tail)
      by (by rewrite <- !app_assoc).
    rewrite drop_app_length, page_map_read.
    + done.
    + constructor; [unfold uint, base in *; lia|]. eapply Forall_impl; [apply ends_bound|].
      intros e He. cbn in He. unfold uint, base in *. lia.
    + by rewrite length_ends.
    + apply ends_ascending.
    + by rewrite ends_empty_runs.
  - cbn [pm_allocations]. rewrite Hb. apply ends_slices.
Qed.

(** ** Lookups *)

Lemma heap_index_nonneg h j : HeapId.index h = Ok j -> 0 <= j.
Proof. unfold HeapId.index. intros H. res_step. zb. injection H as <-. lia. Qed.

Lemma runs_sizes o rest : ascending o rest = true -> Forall (fun a => 0 <= alloc_size a) (runs o rest).
Proof.
  revert o. induction rest as [|x rest IH]; intros o H; cbn [runs ascending] in *; constructor.
  - cbn. zb. lia.
  - apply IH. by zb.
Qed.

Lemma page_map_sizes s m t :
  HeapNodePageMap.read s = Ok (m, t) -> Forall (fun a => 0 <= alloc_size a) (pm_allocations m).
Proof.
  intros H. unfold HeapNodePageMap.read in H. rd_inv. apply ltp_ok in H.
  apply page_map_new in H as (o & rest & _ & Ha & _ & _ & _ & ->). by apply runs_sizes.
Qed.

Section lookups.
Context {B : Type} (self : HeapNodeInner B) (h : HeapId).

(** What a lookup does once the page map is read. *)
Lemma find_entry_in_map data off t m j :
  hn_data self !! Z.to_nat (HeapId.block_index h) = Some data ->
  HeapNodeInner.read_page_map_offset (HeapId.block_index h) (db_data data) = Ok (off, t) ->
  read_at (db_data data) off HeapNodePageMap.read = Ok m -> HeapId.index h = Ok j ->
  HeapNodeInner.find_entry self h =
    match pm_allocations m !! Z.to_nat j with
    | Some a => slice (db_data data) (alloc_offset a) (alloc_offset a + alloc_size a)
    | None => Err (LtpData (HeapAllocIndexNotFound j))
    end.
Proof using All.
  intros Hd Ho Hm Hj. unfold HeapNodeInner.find_entry. rewrite Hd. cbn [ok_or ltp rmap_err rbind].
  rewrite Ho. cbn [rbind]. rewrite Hm. cbn [rbind]. rewrite Hj. cbn [ltp rmap_err rbind].
  pose proof (heap_index_nonneg h j Hj).
  destruct (pm_allocations m !! Z.to_nat j) as [a|] eqn:Ha.
  - pose proof (lookup_lt_Some _ _ _ Ha). rewrite (proj2 (Z.leb_gt _ _)) by lia.
    unfold Prelude.index. rewrite (proj2 (Z.ltb_ge j 0)), Ha by lia. done.
  - apply lookup_ge_None in Ha. by rewrite (proj2 (Z.leb_le _ _)) by lia.
Qed.

Lemma find_entry_holds data allocs j :
  hn_data self !! Z.to_nat (HeapId.block_index h) = Some data ->
  page_holds (HeapId.block_index h) (db_data data) allocs -> HeapId.index h = Ok j ->
  HeapNodeInner.find_entry self h =
    match allocs !! Z.to_nat j with
    | Some a => Ok a
    | None => Err (LtpData (HeapAllocIndexNotFound j))
    end.
Proof using All.
  intros Hd (off & t & m & Ho & Hm & Ha) Hj. rewrite (find_entry_in_map _ _ _ _ _ Hd Ho Hm Hj).
  destruct (allocs !! Z.to_nat j) as [a|] eqn:E.
  - destruct (Forall2_lookup_r _ _ _ _ _ Ha E) as (r & Hr & Hs). by rewrite Hr.
  - apply lookup_ge_None in E. rewrite (proj2 (lookup_ge_None _ _)); [done|].
    by rewrite (Forall2_length _ _ _ Ha).
Qed.

End lookups.

(** ** Properties *)

(** The page map that is read from a page is accepted exactly when its
    offsets ascend and its counts of allocations and of empty allocations are
    those of the offsets; the allocations are then the runs between the
    offsets, so they neither overlap nor leave a gap, and the map is written
    back with the bytes it was read from. *)
Theorem page_map_correct (count free : Z) (offsets : list Z) (m : HeapNodePageMap) (s : list Z)
  (Hoffsets : Forall (uint 16) offsets) (Hcount : uint 16 count) :
  (HeapNodePageMap.new count free offsets = Ok m <->
    exists first rest, offsets = first :: rest /\ ascending first rest = true /\
      count = Z.of_nat (length rest) /\ free = empty_runs (runs first rest) /\ free < 2 ^ 16 /\
      m = mk_HeapNodePageMap (runs first rest) (default first (list.last rest)) free) /\
  (HeapNodePageMap.new count free offsets = Ok m -> pm_allocations m <> [] ->
    exists bytes, HeapNodePageMap.write m = Ok bytes /\
      HeapNodePageMap.read (bytes ++ s) = Ok (m, s)).
Proof.
  split; [apply page_map_new|]. intros Hm Hne. eexists. split; [by eapply page_map_write|].
  apply page_map_new in Hm as (o & rest & -> & Ha & -> & Hf & Hf2 & ->).
  apply page_map_read; try done. by destruct Hcount.
Qed.

Lemma page_map_correct_witness :
  exists m bytes, HeapNodePageMap.new 2 1 [12; 12; 20] = Ok m /\
    HeapNodePageMap.write m = Ok bytes /\ HeapNodePageMap.read (bytes ++ [7]) = Ok (m, [7]).
Proof.
  eexists. destruct (page_map_correct 2 1 [12; 12; 20]
    (mk_HeapNodePageMap [mk_HeapNodePageAlloc 12 0; mk_HeapNodePageAlloc 12 8] 20 1) [7]) as [_ H].
  - repeat constructor; done.
  - done.
  - destruct H as (bytes & Hw & Hr); [done|done|]. exists bytes. split; [|by split]. done.
Defined.

(** C30: A lookup in a page whose map can be read returns the bytes of the
    allocation when it ends within the page; when it does not, the lookup
    panics, since nothing compares the offsets of the map with the length of
    the page. *)
Theorem find_entry_panics_beyond_page {B : Type} (self : HeapNodeInner B) (h : HeapId)
  (data : DataBlock B) (off : Z) (t : list Z) (m : HeapNodePageMap) (j : Z) (a : HeapNodePageAlloc)
  (Hdata : hn_data self !! Z.to_nat (HeapId.block_index h) = Some data)
  (Hoff : HeapNodeInner.read_page_map_offset (HeapId.block_index h) (db_data data) = Ok (off, t))
  (Hmap : read_at (db_data data) off HeapNodePageMap.read = Ok m)
  (Hindex : HeapId.index h = Ok j) (Ha : pm_allocations m !! Z.to_nat j = Some a) :
  HeapNodeInner.find_entry self h =
    if alloc_offset a + alloc_size a <=? Z.of_nat (length (db_data data))
    then Ok (take (Z.to_nat (alloc_size a)) (drop (Z.to_nat (alloc_offset a)) (db_data data)))
    else Panic.
Proof.
  rewrite (find_entry_in_map _ _ _ _ _ _ _ Hdata Hoff Hmap Hindex), Ha. unfold slice.
  assert (0 <= alloc_size a) as Hs.
  { unfold read_at in Hmap. repeat res_step. destruct a0 as [m' u]. injection Hmap as ->.
    apply page_map_sizes in E. by apply (Forall_lookup_1 _ _ _ _ E Ha). }
  rewrite (proj2 (Z.leb_le _ _)) by lia. cbn [andb].
  by replace (alloc_offset a + alloc_size a - alloc_offset a) with (alloc_size a) by lia.
Qed.

(** A heap of one page of 20 bytes whose map says that the only allocation
    ends at 400. *)
Definition sample_page : list Z :=
  HeapNodeHeader.write (mk_HeapNodeHeader 12 HN_Table (HeapId.from_u32 0x20) (replicate 8 FillEmpty)) ++
  page_map_bytes 0 [12; 400].
Definition sample_heap : HeapNodeInner UnicodeBlockId :=
  mk_HeapNodeInner [mk_DataBlock Crypt_None sample_page (mk_BlockTrailer 0 0 0 (mk_UnicodeBlockId 4))].

Lemma find_entry_panics_beyond_page_witness :
  HeapNodeInner.find_entry sample_heap (HeapId.from_u32 0x20) = Panic.
Proof.
  refine (eq_trans (find_entry_panics_beyond_page sample_heap (HeapId.from_u32 0x20)
    (mk_DataBlock Crypt_None sample_page (mk_BlockTrailer 0 0 0 (mk_UnicodeBlockId 4))) 12
    (page_map_bytes 0 [12; 400]) (mk_HeapNodePageMap [mk_HeapNodePageAlloc 12 388] 400 0) 0
    (mk_HeapNodePageAlloc 12 388) _ _ _ _ _) _); by vm_compute.
Defined.
