(* ===== verification/HeapTree.v ===== *)
(** * The B-tree on a heap

    [ltp/tree.rs]: the header of a BTH, its intermediate and leaf entries and
    the listing of all leaf entries.  Shown: the listing of a tree whose
    nodes are allocations of the heap is the list of the entries of its
    leaves, in order. *)
From S2P Require Import Prelude Errors Io Ids Block Heap.
#[local] Open Scope Z_scope.

(** ** The header *)

Record HeapTreeHeader := mk_HeapTreeHeader {
  hth_key_size : Z;
  hth_entry_size : Z;
  hth_levels : Z;
  hth_root : HeapId;
}.

Module HeapTreeHeader.

Definition new (key_size entry_size levels : Z) (root : HeapId) : LtpResult HeapTreeHeader :=
  if negb ((key_size =? 2) || (key_size =? 4) || (key_size =? 8) || (key_size =? 16))
  then Err (InvalidHeapTreeKeySize key_size) else
  if negb ((1 <=? entry_size) && (entry_size <=? 32))
  then Err (InvalidHeapTreeDataSize entry_size) else
  Ok (mk_HeapTreeHeader key_size entry_size levels root).

Definition read : reader HeapTreeHeader :=
  heap_type <- read_u8;;
  heap_type <- rd_lift (ltp (HeapNodeType_try_from heap_type));;
  rd_lift (ltp (ensure (bool_decide (heap_type = HN_Tree)) (InvalidHeapTreeNodeType heap_type)));;;
  key_size <- read_u8;;
  entry_size <- read_u8;;
  levels <- read_u8;;
  root <- HeapId.read;;
  rd_lift (ltp (new key_size entry_size levels root)).

Definition write (h : HeapTreeHeader) : list Z :=
  write_u8 (HeapNodeType_as_u8 HN_Tree) ++ write_u8 (hth_key_size h) ++ write_u8 (hth_entry_size h) ++
  write_u8 (hth_levels h) ++ HeapId.write (hth_root h).

End HeapTreeHeader.

(** ** Entries *)

(** [HeapTreeEntryKey] and [HeapTreeEntryValue]: serialisable types with the
    size the header must name. *)
Class HeapTreeEntry (A : Type) := {
  hte_serial :: Serial A;
  hte_SIZE : Z
}.

Record HeapTreeIntermediateEntry (K : Type) := mk_HeapTreeIntermediateEntry {
  hti_key : K;
  hti_next_level : HeapId
}.
Arguments mk_HeapTreeIntermediateEntry {K}.
Arguments hti_key {K}.
Arguments hti_next_level {K}.

Module HeapTreeIntermediateEntry.
Definition read {K} `{!HeapTreeEntry K} : reader (HeapTreeIntermediateEntry K) :=
  key <- ser_read;; next_level <- HeapId.read;; rd_ret (mk_HeapTreeIntermediateEntry key next_level).
Definition write {K} `{!HeapTreeEntry K} (e : HeapTreeIntermediateEntry K) : list Z :=
  ser_write (hti_key e) ++ HeapId.write (hti_next_level e).
End HeapTreeIntermediateEntry.

Record HeapTreeLeafEntry (K V : Type) := mk_HeapTreeLeafEntry {
  htl_key : K;
  htl_data : V
}.
Arguments mk_HeapTreeLeafEntry {K V}.
Arguments htl_key {K V}.
Arguments htl_data {K V}.

Module HeapTreeLeafEntry.
Definition read {K V} `{!HeapTreeEntry K, !HeapTreeEntry V} : reader (HeapTreeLeafEntry K V) :=
  key <- ser_read;; data <- ser_read;; rd_ret (mk_HeapTreeLeafEntry key data).
Definition write {K V} `{!HeapTreeEntry K, !HeapTreeEntry V} (e : HeapTreeLeafEntry K V) : list Z :=
  ser_write (htl_key e) ++ ser_write (htl_data e).
End HeapTreeLeafEntry.

(** ** The tree *)

(** [while let Ok(row) = read(&mut cursor)]: the rows up to the first that
    cannot be read. A row is at least one byte, so as many rounds as there
    are bytes, and one more, are enough. *)
Fixpoint read_rows {A} (fuel : nat) (m : reader A) (s : list Z) : io_result (list A) :=
  match fuel with
  | O => Ok []
  | S fuel =>
      match m s with
      | Ok (row, s) => let? rows := read_rows fuel m s in Ok (row :: rows)
      | Err _ => Ok []
      | Panic => Panic
      end
  end.

Definition rows {A} (m : reader A) (s : list Z) : io_result (list A) := read_rows (S (length s)) m s.

Record HeapTreeInner (B : Type) := mk_HeapTreeInner {
  ht_heap : HeapNodeInner B;
  ht_user_root : HeapId
}.
Arguments mk_HeapTreeInner {B}.
Arguments ht_heap {B}.
Arguments ht_user_root {B}.

Module HeapTreeInner.

Section tree.
Context {B K V : Type} `{!HeapTreeEntry K, !HeapTreeEntry V}.

Definition header (self : HeapTreeInner B) : io_result HeapTreeHeader :=
  let? data := HeapNodeInner.find_entry (ht_heap self) (ht_user_root self) in
  let? '(header, _) := HeapTreeHeader.read data in
  Ok header.

(** The rows of each allocation, one after the other. *)
Definition gather {A} (self : HeapTreeInner B) (m : reader A) (ids : list HeapId) : io_result (list A) :=
  let? parts := rmapM (fun heap_id =>
    let? data := HeapNodeInner.find_entry (ht_heap self) heap_id in rows m data) ids in
  Ok (concat parts).

(** [while level > 0 { .. }] *)
Fixpoint descend (self : HeapTreeInner B) (level : nat) (next_level : list HeapId) : io_result (list HeapId) :=
  match level with
  | O => Ok next_level
  | S level =>
      let? entries := gather self (HeapTreeIntermediateEntry.read (K := K)) next_level in
      descend self level (map hti_next_level entries)
  end.

Definition entries (self : HeapTreeInner B) : io_result (list (HeapTreeLeafEntry K V)) :=
  let? header := header self in
  if negb (hth_key_size header =? hte_SIZE (A := K))
  then Err (LtpData (InvalidHeapTreeKeySize (hth_key_size header))) else
  if negb (hth_entry_size header =? hte_SIZE (A := V))
  then Err (LtpData (InvalidHeapTreeDataSize (hth_entry_size header))) else
  if HeapId.into_u32 (hth_root header) =? 0 then Ok [] else
  let? next_level := descend self (Z.to_nat (hth_levels header)) [hth_root header] in
  gather self HeapTreeLeafEntry.read next_level.

End tree.

End HeapTreeInner.

(** ** Rows *)

(** Rows of a fixed positive size, one after the other: all of them are
    read, and the reading ends at the end of the bytes. *)
Lemma read_rows_concat {A} (m : reader A) (wr : A -> list Z) l fuel :
  (forall a s, a ∈ l -> m (wr a ++ s) = Ok (a, s)) -> (exists e, m [] = Err e) ->
  (length l < fuel)%nat -> read_rows fuel m (concat (map wr l)) = Ok l.
Proof.
  intros Hm [e He]. revert fuel. induction l as [|a l IH]; intros fuel Hf; (destruct fuel as [|fuel]; [lia|]);
    cbn [read_rows map concat].
  - by rewrite He.
  - rewrite Hm by set_solver. rewrite IH; [done| |cbn in Hf; lia]. intros; apply Hm. set_solver.
Qed.

Lemma rows_concat {A} (m : reader A) (wr : A -> list Z) l :
  (forall a s, a ∈ l -> m (wr a ++ s) = Ok (a, s)) -> (exists e, m [] = Err e) ->
  (forall a, a ∈ l -> (0 < length (wr a))%nat) -> rows m (concat (map wr l)) = Ok l.
Proof.
  intros Hm He Hp. unfold rows. eapply read_rows_concat; [done|done|]. clear Hm.
  induction l as [|a l IH]; cbn [map concat length]; [lia|]. rewrite length_app.
  specialize (Hp a) as H. rewrite elem_of_cons in H. specialize (H (or_introl eq_refl)).
  assert (forall b, b ∈ l -> (0 < length (wr b))%nat) by (intros; apply Hp, elem_of_cons; by right).
  specialize (IH ltac:(done)). lia.
Qed.

Section laws.
Context {K V : Type} `{!HeapTreeEntry K, !HeapTreeEntry V, !RoundTrip K, !RoundTrip V}.

Lemma intermediate_entry_rt (e : HeapTreeIntermediateEntry K) s :
  ser_wf (hti_key e) -> ser_wf (hti_next_level e) ->
  HeapTreeIntermediateEntry.read (HeapTreeIntermediateEntry.write e ++ s) = Ok (e, s).
Proof using All.
  destruct e as [k h]. intros Hk Hh. cbn in Hk, Hh.
  unfold HeapTreeIntermediateEntry.read, HeapTreeIntermediateEntry.write. cbn [hti_key hti_next_level].
  change HeapId.read with (ser_read (A := HeapId)). change HeapId.write with (ser_write (A := HeapId)).
  by rd_run.
Qed.

Lemma leaf_entry_rt (e : HeapTreeLeafEntry K V) s :
  ser_wf (htl_key e) -> ser_wf (htl_data e) ->
  HeapTreeLeafEntry.read (HeapTreeLeafEntry.write e ++ s) = Ok (e, s).
Proof using All.
  destruct e as [k v]. intros Hk Hv. cbn in Hk, Hv.
  unfold HeapTreeLeafEntry.read, HeapTreeLeafEntry.write. cbn [htl_key htl_data]. by rd_run.
Qed.

(** The entries below the nodes [ids], [level] levels above the leaves. *)
Fixpoint bth_level {B} (self : HeapTreeInner B) (level : nat) (ids : list HeapId)
    (es : list (HeapTreeLeafEntry K V)) : Prop :=
  match level with
  | O => exists ess, es = concat ess /\
      Forall2 (fun id es => HeapNodeInner.find_entry (ht_heap self) id =
                              Ok (concat (map HeapTreeLeafEntry.write es))) ids ess
  | S level => exists iss : list (list (HeapTreeIntermediateEntry K)),
      Forall2 (fun id ns => HeapNodeInner.find_entry (ht_heap self) id =
                              Ok (concat (map HeapTreeIntermediateEntry.write ns))) ids iss /\
      Forall (fun e => ser_wf (hti_key e) /\ ser_wf (hti_next_level e)) (concat iss) /\
      bth_level self level (map hti_next_level (concat iss)) es
  end.

Lemma gather_concat {B A} (self : HeapTreeInner B) (m : reader A) (wr : A -> list Z) (P : A -> Prop) ids ls :
  (forall a s, P a -> m (wr a ++ s) = Ok (a, s)) -> (exists e, m [] = Err e) ->
  (forall a, (0 < length (wr a))%nat) -> Forall P (concat ls) ->
  Forall2 (fun id l => HeapNodeInner.find_entry (ht_heap self) id = Ok (concat (map wr l))) ids ls ->
  HeapTreeInner.gather self m ids = Ok (concat ls).
Proof.
  intros Hm He Hp HP Hf. unfold HeapTreeInner.gather.
  erewrite (proj2 (rmapM_Forall2 _ _ ls)); [done|].
  induction Hf as [|id l ids ls Hid _ IH]; constructor.
  - rewrite Hid. cbn [rbind]. cbn [concat] in HP. apply Forall_app in HP as [HP _].
    apply rows_concat; [|done|done]. intros a s Ha. apply Hm. by apply (proj1 (Forall_forall _ _) HP).
  - apply IH. cbn [concat] in HP. by apply Forall_app in HP as [_ HP].
Qed.

(** A key cannot be read from nothing. *)
Context (key_empty : exists e, ser_read (A := K) [] = Err e) (key_size : (0 < ser_size (A := K))%nat).

Lemma descend_level {B} (self : HeapTreeInner B) level ids es :
  bth_level self level ids es -> exists ids',
    HeapTreeInner.descend (K := K) self level ids = Ok ids' /\ bth_level self 0 ids' es.
Proof using All.
  revert ids. induction level as [|level IH]; intros ids H; [by exists ids|].
  destruct H as (iss & Hi & Hw & H). cbn [HeapTreeInner.descend].
  rewrite (gather_concat self _ HeapTreeIntermediateEntry.write (fun e => ser_wf (hti_key e) /\ ser_wf (hti_next_level e)) ids iss); try done.
  - cbn [rbind]. by apply IH.
  - intros e s [Hk Hn]. by apply intermediate_entry_rt.
  - destruct key_empty as [e He]. exists e. unfold HeapTreeIntermediateEntry.read, rd_bind. by rewrite He.
  - intros e. unfold HeapTreeIntermediateEntry.write. rewrite length_app, rt_size. lia.
Qed.

(** The listing of a well-formed tree. *)
Lemma entries_bth {B} (self : HeapTreeInner B) levels root es :
  HeapTreeInner.header self =
    Ok (mk_HeapTreeHeader (hte_SIZE (A := K)) (hte_SIZE (A := V)) levels root) ->
  HeapId.into_u32 root <> 0 -> bth_level self (Z.to_nat levels) [root] es ->
  Forall (fun e => ser_wf (htl_key e) /\ ser_wf (htl_data e)) es ->
  HeapTreeInner.entries self = Ok es.
Proof using All.
  intros Hh Hr Hb He. unfold HeapTreeInner.entries. rewrite Hh.
  cbn [rbind hth_key_size hth_entry_size hth_root hth_levels]. rewrite !Z.eqb_refl. cbn [negb].
  rewrite (proj2 (Z.eqb_neq _ _) Hr).
  destruct (descend_level _ _ _ _ Hb) as (ids & -> & ess & -> & Hids). cbn [rbind].
  apply (gather_concat self _ HeapTreeLeafEntry.write (fun e => ser_wf (htl_key e) /\ ser_wf (htl_data e))); try done.
  - intros e s [Hk Hv]. by apply leaf_entry_rt.
  - destruct key_empty as [e Hk]. exists e. unfold HeapTreeLeafEntry.read, rd_bind. by rewrite Hk.
  - intros e. unfold HeapTreeLeafEntry.write. rewrite length_app, rt_size. lia.
Qed.

End laws.

(** A header with sizes in range round trips. *)
Lemma HeapTreeHeader_new_ok key_size entry_size levels root :
  key_size ∈ [2; 4; 8; 16] -> 1 <= entry_size <= 32 ->
  HeapTreeHeader.new key_size entry_size levels root = Ok (mk_HeapTreeHeader key_size entry_size levels root).
Proof.
  intros Hk He. unfold HeapTreeHeader.new.
  rewrite (proj2 (Z.leb_le 1 _)), (proj2 (Z.leb_le _ 32)) by lia.
  repeat (apply elem_of_cons in Hk as [->|Hk]; [done|]). by apply elem_of_nil in Hk.
Qed.

Lemma HeapTreeHeader_read_write key_size entry_size levels root s :
  key_size ∈ [2; 4; 8; 16] -> 1 <= entry_size <= 32 -> uint 8 levels -> ser_wf root ->
  HeapTreeHeader.read (HeapTreeHeader.write (mk_HeapTreeHeader key_size entry_size levels root) ++ s) =
    Ok (mk_HeapTreeHeader key_size entry_size levels root, s).
Proof.
  intros Hk He Hl Hr. unfold HeapTreeHeader.read, HeapTreeHeader.write.
  cbn [hth_key_size hth_entry_size hth_levels hth_root].
  change HeapId.read with (ser_read (A := HeapId)). change HeapId.write with (ser_write (A := HeapId)).
  assert (uint 8 entry_size) by (unfold uint; lia).
  assert (uint 8 key_size).
  { repeat (apply elem_of_cons in Hk as [->|Hk]; [done|]). by apply elem_of_nil in Hk. }
  rd_run. unfold rd_bind at 1. unfold rd_lift at 1. cbn [HeapNodeType_as_u8 HeapNodeType_try_from ltp rmap_err rbind].
  unfold rd_bind at 1. unfold rd_lift at 1. rewrite bool_decide_true by done. cbn [ensure ltp rmap_err rbind].
  rd_run. unfold rd_lift. by rewrite HeapTreeHeader_new_ok.
Qed.
