(* ===== verification/PropValue.v ===== *)
(** * Property types and values

    [ltp/prop_type.rs] and the values of [ltp/prop_context.rs]: the numbers
    of the property types, and the reading and writing of the values that are
    stored out of line. Floating-point values are their bits. Shown: a value
    that is read has the type asked for, and a written value is read back. *)
From S2P Require Import Prelude Errors Io Ids.
#[local] Open Scope Z_scope.

(** ** [ltp/prop_type.rs] *)

Module PropertyType.

(** [value as u16]: the discriminants. *)
Definition into_u16 (t : PropertyType) : Z :=
  match t with
  | PT_Null => 0x0001 | PT_Integer16 => 0x0002 | PT_Integer32 => 0x0003
  | PT_Floating32 => 0x0004 | PT_Floating64 => 0x0005 | PT_Currency => 0x0006
  | PT_FloatingTime => 0x0007 | PT_ErrorCode => 0x000A | PT_Boolean => 0x000B
  | PT_Integer64 => 0x0014 | PT_String8 => 0x001E | PT_Unicode => 0x001F
  | PT_Time => 0x0040 | PT_Guid => 0x0048 | PT_Binary => 0x0102 | PT_Object => 0x000D
  | PT_MultipleInteger16 => 0x1002 | PT_MultipleInteger32 => 0x1003
  | PT_MultipleFloating32 => 0x1004 | PT_MultipleFloating64 => 0x1005
  | PT_MultipleCurrency => 0x1006 | PT_MultipleFloatingTime => 0x1007
  | PT_MultipleInteger64 => 0x1014 | PT_MultipleString8 => 0x101E
  | PT_MultipleUnicode => 0x101F | PT_MultipleTime => 0x1040 | PT_MultipleGuid => 0x1048
  | PT_MultipleBinary => 0x1102
  end.

Definition try_from (value : Z) : LtpResult PropertyType :=
  match value with
  | 0x0001 => Ok PT_Null | 0x0002 => Ok PT_Integer16 | 0x0003 => Ok PT_Integer32
  | 0x0004 => Ok PT_Floating32 | 0x0005 => Ok PT_Floating64 | 0x0006 => Ok PT_Currency
  | 0x0007 => Ok PT_FloatingTime | 0x000A => Ok PT_ErrorCode | 0x000B => Ok PT_Boolean
  | 0x000D => Ok PT_Object | 0x0014 => Ok PT_Integer64 | 0x001E => Ok PT_String8
  | 0x001F => Ok PT_Unicode | 0x0040 => Ok PT_Time | 0x0048 => Ok PT_Guid
  | 0x0102 => Ok PT_Binary
  | 0x1002 => Ok PT_MultipleInteger16 | 0x1003 => Ok PT_MultipleInteger32
  | 0x1004 => Ok PT_MultipleFloating32 | 0x1005 => Ok PT_MultipleFloating64
  | 0x1006 => Ok PT_MultipleCurrency | 0x1007 => Ok PT_MultipleFloatingTime
  | 0x1014 => Ok PT_MultipleInteger64 | 0x101E => Ok PT_MultipleString8
  | 0x101F => Ok PT_MultipleUnicode | 0x1040 => Ok PT_MultipleTime
  | 0x1048 => Ok PT_MultipleGuid | 0x1102 => Ok PT_MultipleBinary
  | _ => Err (InvalidPropertyType value)
  end.

End PropertyType.

(** ** Values *)

Record GuidValue := mk_GuidValue { data1 : Z; data2 : Z; data3 : Z; data4 : list Z }.

Module GuidValue.
Definition to_le_bytes (g : GuidValue) : list Z :=
  le_bytes 4 (data1 g) ++ le_bytes 2 (data2 g) ++ le_bytes 2 (data3 g) ++ data4 g.
End GuidValue.

Record ObjectValue := mk_ObjectValue { object_node : NodeId; object_size : Z }.

Module PropertyValue.

(** The payloads of [String8Value], [UnicodeValue] and [BinaryValue] are
    their buffers: bytes, code units and bytes. *)
Inductive t :=
| Null
| Integer16 (v : Z)
| Integer32 (v : Z)
| Floating32 (bits : Z)
| Floating64 (bits : Z)
| Currency (v : Z)
| FloatingTime (bits : Z)
| ErrorCode (v : Z)
| Boolean (v : bool)
| Integer64 (v : Z)
| String8 (buffer : list Z)
| Unicode (buffer : list Z)
| Time (v : Z)
| Guid (v : GuidValue)
| Binary (buffer : list Z)
| Object (v : ObjectValue)
| MultipleInteger16 (l : list Z)
| MultipleInteger32 (l : list Z)
| MultipleFloating32 (l : list Z)
| MultipleFloating64 (l : list Z)
| MultipleCurrency (l : list Z)
| MultipleFloatingTime (l : list Z)
| MultipleInteger64 (l : list Z)
| MultipleString8 (l : list (list Z))
| MultipleUnicode (l : list (list Z))
| MultipleTime (l : list Z)
| MultipleGuid (l : list GuidValue)
| MultipleBinary (l : list (list Z)).

(** [impl From<&PropertyValue> for PropertyType]. *)
Definition prop_type (v : t) : PropertyType :=
  match v with
  | Null => PT_Null | Integer16 _ => PT_Integer16 | Integer32 _ => PT_Integer32
  | Floating32 _ => PT_Floating32 | Floating64 _ => PT_Floating64 | Currency _ => PT_Currency
  | FloatingTime _ => PT_FloatingTime | ErrorCode _ => PT_ErrorCode | Boolean _ => PT_Boolean
  | Integer64 _ => PT_Integer64 | String8 _ => PT_String8 | Unicode _ => PT_Unicode
  | Time _ => PT_Time | Guid _ => PT_Guid | Binary _ => PT_Binary | Object _ => PT_Object
  | MultipleInteger16 _ => PT_MultipleInteger16 | MultipleInteger32 _ => PT_MultipleInteger32
  | MultipleFloating32 _ => PT_MultipleFloating32 | MultipleFloating64 _ => PT_MultipleFloating64
  | MultipleCurrency _ => PT_MultipleCurrency | MultipleFloatingTime _ => PT_MultipleFloatingTime
  | MultipleInteger64 _ => PT_MultipleInteger64 | MultipleString8 _ => PT_MultipleString8
  | MultipleUnicode _ => PT_MultipleUnicode | MultipleTime _ => PT_MultipleTime
  | MultipleGuid _ => PT_MultipleGuid | MultipleBinary _ => PT_MultipleBinary
  end.

End PropertyValue.

(** ** Readers *)

(** [iN::from_le_bytes] of a word read as unsigned. *)
Definition signed (w x : Z) : Z := if x <? 2 ^ (w - 1) then x else x - 2 ^ w.

Definition read_i16 : reader Z := v <- read_u16;; rd_ret (signed 16 v).
Definition read_i32 : reader Z := v <- read_u32;; rd_ret (signed 32 v).
Definition read_i64 : reader Z := v <- read_u64;; rd_ret (signed 64 v).

(** [read_to_end] on a cursor. *)
Definition read_to_end : reader (list Z) := fun s => Ok (s, []).

(** [buffer.truncate(buffer.iter().position(|&b| b == 0))]. *)
Fixpoint truncate_nul (l : list Z) : list Z :=
  match l with
  | [] => []
  | b :: l => if b =? 0 then [] else b :: truncate_nul l
  end.

(** [while let Ok(ch) = f.read_u16()]: the units up to a zero unit or to the
    end; what is left of the cursor is not read again. *)
Fixpoint read_units (fuel : nat) : reader (list Z) := fun s =>
  match fuel with
  | O => Ok ([], [])
  | S fuel =>
      match read_u16 s with
      | Ok (ch, s) => if ch =? 0 then Ok ([], []) else
          let? '(l, s) := read_units fuel s in Ok (ch :: l, s)
      | Err _ => Ok ([], [])
      | Panic => Panic
      end
  end.

(** [read_fixed_values]: elements of [width] bytes up to the end. Each round
    consumes at least a byte. *)
Fixpoint read_fixed {A} (fuel width : nat) (decode : list Z -> A) (s : list Z) : io_result (list A * list Z) :=
  match fuel with
  | O => Ok ([], [])
  | S fuel =>
      match s with
      | [] => Ok ([], [])
      | b :: s =>
          let? '(bytes, s) := read_exact (width - 1) s in
          let? '(values, s) := read_fixed fuel width decode s in
          Ok (decode (b :: bytes) :: values, s)
      end
  end.

Definition read_fixed_values {A} (width : nat) (decode : list Z -> A) : reader (list A) :=
  fun s => read_fixed (S (length s)) width decode s.

Definition require_eof : reader unit := fun s =>
  match s with [] => Ok (tt, []) | _ => Err InvalidData_msg end.

Definition MAX_MULTI_VALUE_ELEMENTS : Z := 65536.

Definition rd_ltp_ensure (b : bool) (e : LtpError) : reader unit := rd_lift (ltp (ensure b e)).

Definition read_multivalue_count : reader Z :=
  count <- read_u32;;
  rd_ltp_ensure (count <=? MAX_MULTI_VALUE_ELEMENTS) (InvalidMultiValuePropertyCount count);;;
  rd_ret count.

(** The count and the offsets of a variable-size multi-value. *)
Definition read_offsets : reader (list Z) :=
  count <- read_multivalue_count;;
  offsets <- rd_repeat (Z.to_nat count) read_u32;;
  (match offsets with [] => require_eof | _ => rd_ret tt end);;;
  rd_ret offsets.

(** Where the items start; the product cannot overflow a [usize], the count
    being bounded. *)
Definition items_start (count : nat) : Z := (Z.of_nat count + 1) * 4.

(** The items of bytes from the offset [start] on: every offset must be where
    the previous item ended, the last item runs to the end. *)
Fixpoint read_items (offsets : list Z) (start : Z) : reader (list (list Z)) :=
  match offsets with
  | [] => rd_ret []
  | next :: offsets =>
      rd_ltp_ensure (next =? start) (InvalidMultiValuePropertyOffset next);;;
      match offsets with
      | [] => buffer <- read_to_end;; rd_ret [buffer]
      | next :: _ =>
          rd_ltp_ensure (start <=? next) (InvalidMultiValuePropertyOffset next);;;
          if start <? next then
            buffer <- read_exact (Z.to_nat (next - start));;
            items <- read_items offsets next;; rd_ret (buffer :: items)
          else items <- read_items offsets start;; rd_ret ([] :: items)
      end
  end.

(** [chunks_exact(2)] to code units. *)
Fixpoint le_units (l : list Z) : list Z :=
  match l with
  | a :: b :: l => le_val [a; b] :: le_units l
  | _ => []
  end.

(** The same for items of code units. *)
Fixpoint read_unit_items (offsets : list Z) (start : Z) : reader (list (list Z)) :=
  match offsets with
  | [] => rd_ret []
  | next :: offsets =>
      rd_ltp_ensure (next =? start) (InvalidMultiValuePropertyOffset next);;;
      match offsets with
      | [] =>
          remaining <- read_to_end;;
          rd_lift (if Z.of_nat (length remaining) mod 2 =? 0 then Ok tt else Err UnexpectedEof);;;
          rd_ret [truncate_nul (le_units remaining)]
      | next :: _ =>
          rd_ltp_ensure (start <=? next) (InvalidMultiValuePropertyOffset next);;;
          rd_ltp_ensure ((next - start) mod 2 =? 0) (InvalidMultiValuePropertyOffset next);;;
          buffer <- rd_repeat (Z.to_nat ((next - start) / 2)) read_u16;;
          items <- read_unit_items offsets next;; rd_ret (truncate_nul buffer :: items)
      end
  end.

Definition guid_of_bytes (b : list Z) : GuidValue :=
  mk_GuidValue (le_val (take 4 b)) (le_val (take 2 (drop 4 b))) (le_val (take 2 (drop 6 b))) (drop 8 b).

Module PropertyValueIo.
Import PropertyValue.

Definition read (prop_type : PropertyType) : reader PropertyValue.t :=
  match prop_type with
  | PT_Floating64 => value <- read_u64;; rd_ret (Floating64 value)
  | PT_Currency => value <- read_i64;; rd_ret (Currency value)
  | PT_FloatingTime => value <- read_u64;; rd_ret (FloatingTime value)
  | PT_Integer64 => value <- read_i64;; rd_ret (Integer64 value)
  | PT_String8 => buffer <- read_to_end;; rd_ret (String8 (truncate_nul buffer))
  | PT_Unicode => fun s => let? '(buffer, s) := read_units (S (length s)) s in Ok (Unicode buffer, s)
  | PT_Time => value <- read_i64;; rd_ret (Time value)
  | PT_Guid =>
      data1 <- read_u32;; data2 <- read_u16;; data3 <- read_u16;; data4 <- read_exact 8;;
      rd_ret (Guid (mk_GuidValue data1 data2 data3 data4))
  | PT_Binary => buffer <- read_to_end;; rd_ret (Binary buffer)
  | PT_Object =>
      node_id <- NodeId.read;; size <- read_u32;; rd_ret (Object (mk_ObjectValue node_id size))
  | PT_MultipleInteger16 =>
      l <- read_fixed_values 2 (fun b => signed 16 (le_val b));; rd_ret (MultipleInteger16 l)
  | PT_MultipleInteger32 =>
      l <- read_fixed_values 4 (fun b => signed 32 (le_val b));; rd_ret (MultipleInteger32 l)
  | PT_MultipleFloating32 => l <- read_fixed_values 4 le_val;; rd_ret (MultipleFloating32 l)
  | PT_MultipleFloating64 => l <- read_fixed_values 8 le_val;; rd_ret (MultipleFloating64 l)
  | PT_MultipleCurrency =>
      l <- read_fixed_values 8 (fun b => signed 64 (le_val b));; rd_ret (MultipleCurrency l)
  | PT_MultipleFloatingTime => l <- read_fixed_values 8 le_val;; rd_ret (MultipleFloatingTime l)
  | PT_MultipleInteger64 =>
      l <- read_fixed_values 8 (fun b => signed 64 (le_val b));; rd_ret (MultipleInteger64 l)
  | PT_MultipleString8 =>
      offsets <- read_offsets;;
      items <- read_items offsets (items_start (length offsets));;
      rd_ret (MultipleString8 (map truncate_nul items))
  | PT_MultipleUnicode =>
      offsets <- read_offsets;;
      items <- read_unit_items offsets (items_start (length offsets));;
      rd_ret (MultipleUnicode items)
  | PT_MultipleTime =>
      l <- read_fixed_values 8 (fun b => signed 64 (le_val b));; rd_ret (MultipleTime l)
  | PT_MultipleGuid => l <- read_fixed_values 16 guid_of_bytes;; rd_ret (MultipleGuid l)
  | PT_MultipleBinary =>
      offsets <- read_offsets;;
      items <- read_items offsets (items_start (length offsets));;
      rd_ret (MultipleBinary items)
  | _ => rd_lift (Err (LtpData (InvalidVariableLengthPropertyType prop_type)))
  end.

(** The offset table of a variable-size multi-value, from the sizes of its
    items. *)
Fixpoint write_offsets (sizes : list Z) (start : Z) : io_result (list Z) :=
  match sizes with
  | [] => Ok []
  | size :: sizes =>
      if negb (uint_b 32 start) then Err (LtpData (InvalidMultiValuePropertyOffset start)) else
      let? rest := write_offsets sizes (start + size) in
      Ok (write_u32 start ++ rest)
  end.

Definition write_items (items : list (list Z)) : io_result (list Z) :=
  let count := Z.of_nat (length items) in
  if negb (uint_b 32 count) then Err (LtpData (InvalidMultiValuePropertyCount count)) else
  let? offsets := write_offsets (map (fun i => Z.of_nat (length i)) items) (items_start (length items)) in
  Ok (write_u32 count ++ offsets ++ concat items).

Definition units_bytes (l : list Z) : list Z := concat (map write_u16 l).

Definition write (v : PropertyValue.t) : io_result (list Z) :=
  match v with
  | Floating64 value | FloatingTime value => Ok (write_u64 value)
  | Currency value | Integer64 value | Time value => Ok (write_u64 (wrap 64 value))
  | String8 buffer | Binary buffer => Ok buffer
  | Unicode buffer => Ok (units_bytes buffer)
  | Guid value =>
      Ok (write_u32 (data1 value) ++ write_u16 (data2 value) ++ write_u16 (data3 value) ++ data4 value)
  | Object value => Ok (NodeId.write (object_node value) ++ write_u32 (object_size value))
  | MultipleInteger16 values => Ok (concat (map (fun v => write_u16 (wrap 16 v)) values))
  | MultipleInteger32 values => Ok (concat (map (fun v => write_u32 (wrap 32 v)) values))
  | MultipleFloating32 values => Ok (concat (map write_u32 values))
  | MultipleFloating64 values | MultipleFloatingTime values => Ok (concat (map write_u64 values))
  | MultipleCurrency values | MultipleInteger64 values | MultipleTime values =>
      Ok (concat (map (fun v => write_u64 (wrap 64 v)) values))
  | MultipleString8 values | MultipleBinary values => write_items values
  | MultipleUnicode values => write_items (map units_bytes values)
  | MultipleGuid values => Ok (concat (map GuidValue.to_le_bytes values))
  | v => Err (LtpData (InvalidVariableLengthPropertyType (prop_type v)))
  end.

End PropertyValueIo.

(** ** Numbers and units *)

(** The range of an [iN]. *)
Definition sint (w v : Z) : Prop := - 2 ^ (w - 1) <= v < 2 ^ (w - 1).

Lemma signed_wrap w v : 0 < w -> sint w v -> signed w (wrap w v) = v.
Proof.
  intros Hw [Hlo Hhi]. unfold signed, wrap.
  assert (Hp : 2 ^ w = 2 * 2 ^ (w - 1)) by (rewrite <- Z.pow_succ_r by lia; f_equal; lia).
  destruct (Z.lt_ge_cases v 0).
  - rewrite <- (Z.mod_add v 1) by lia. rewrite Z.mod_small by lia.
    rewrite (proj2 (Z.ltb_ge _ _)) by lia. lia.
  - rewrite Z.mod_small by lia. by rewrite (proj2 (Z.ltb_lt _ _)).
Qed.

Lemma PropertyType_round t : PropertyType.try_from (PropertyType.into_u16 t) = Ok t.
Proof. by destruct t. Qed.

Lemma PropertyType_uint t : uint 16 (PropertyType.into_u16 t).
Proof. by destruct t. Qed.

Lemma truncate_nul_id l : Forall (fun b => b <> 0) l -> truncate_nul l = l.
Proof.
  induction 1 as [|b l Hb _ IH]; cbn; [done|]. by rewrite (proj2 (Z.eqb_neq b 0)), IH.
Qed.

Lemma le_val_write_u16 u : uint 16 u -> le_val (write_u16 u) = u.
Proof. apply (le_val_bytes 2). Qed.
Lemma le_val_write_u32 u : uint 32 u -> le_val (write_u32 u) = u.
Proof. apply (le_val_bytes 4). Qed.
Lemma le_val_write_u64 u : uint 64 u -> le_val (write_u64 u) = u.
Proof. apply (le_val_bytes 8). Qed.

Lemma le_units_bytes l : Forall (uint 16) l -> le_units (PropertyValueIo.units_bytes l) = l.
Proof.
  induction 1 as [|u l Hu _ IH]; [done|]. unfold PropertyValueIo.units_bytes in *.
  cbn [map concat]. unfold write_u16 at 1. cbn [le_bytes app le_units]. rewrite IH. f_equal.
  by apply le_val_write_u16.
Qed.

Lemma length_units_bytes l : length (PropertyValueIo.units_bytes l) = (2 * length l)%nat.
Proof. by apply length_concat_map. Qed.

Lemma read_units_bytes l fuel :
  Forall (fun u => uint 16 u /\ u <> 0) l -> (length l < fuel)%nat ->
  read_units fuel (PropertyValueIo.units_bytes l) = Ok (l, []).
Proof.
  intros Hl. revert fuel. induction Hl as [|u l [Hu Hz] _ IH]; intros fuel Hf; (destruct fuel as [|fuel]; [lia|]).
  - done.
  - unfold PropertyValueIo.units_bytes in *. cbn [read_units map concat].
    rewrite read_u16_app by done. rewrite (proj2 (Z.eqb_neq u 0)) by done.
    rewrite IH by (cbn in Hf; lia). done.
Qed.

Lemma read_fixed_concat {A} (width : nat) (decode : list Z -> A) (wr : A -> list Z) l :
  (forall a, a ∈ l -> length (wr a) = width /\ decode (wr a) = a) -> (0 < width)%nat ->
  read_fixed_values width decode (concat (map wr l)) = Ok (l, []).
Proof.
  intros Hl Hw. unfold read_fixed_values.
  assert (Hf : (length l < S (length (concat (map wr l))))%nat).
  { induction l as [|a l IH]; cbn [map concat length]; [lia|]. rewrite length_app.
    destruct (Hl a) as [Ha _]; [apply elem_of_cons; by left|].
    specialize (IH ltac:(intros; apply Hl, elem_of_cons; by right)). lia. }
  revert Hf. generalize (S (length (concat (map wr l)))) as fuel.
  induction l as [|a l IH]; intros fuel Hf; (destruct fuel as [|fuel]; [lia|]); [done|].
  cbn [map concat read_fixed]. destruct (Hl a) as [Ha Hd]; [apply elem_of_cons; by left|].
  destruct (wr a) as [|b bs] eqn:E; [cbn in Ha; lia|]. cbn [app].
  rewrite read_exact_app by (cbn in Ha; lia). cbn [rbind].
  rewrite IH; [|intros; apply Hl, elem_of_cons; by right|cbn in Hf; lia]. cbn [rbind]. by rewrite Hd.
Qed.

(** ** Variable-size items *)

(** The offsets of items of the given sizes. *)
Fixpoint starts (sizes : list Z) (start : Z) : list Z :=
  match sizes with
  | [] => []
  | size :: sizes => start :: starts sizes (start + size)
  end.

Definition sizes_of (items : list (list Z)) : list Z := map (fun i => Z.of_nat (length i)) items.

Lemma write_offsets_ok sizes start bytes :
  PropertyValueIo.write_offsets sizes start = Ok bytes ->
  Forall (uint 32) (starts sizes start) /\ bytes = concat (map write_u32 (starts sizes start)).
Proof.
  revert start bytes. induction sizes as [|n sizes IH]; intros start bytes H; cbn [PropertyValueIo.write_offsets] in H.
  { by injection H as <-. }
  destruct (uint_b 32 start) eqn:Hu; [|done]. apply uint_b_spec in Hu. cbn [negb] in H.
  res_step. injection H as <-. apply IH in E as [Hs ->]. split; [by constructor|done].
Qed.

Lemma length_starts sizes start : length (starts sizes start) = length sizes.
Proof. revert start. induction sizes; intros; cbn; [done|]. by rewrite IHsizes. Qed.

Lemma rd_ltp_ensure_true b e (Hb : b = true) {B} (k : unit -> reader B) s :
  rd_bind (rd_ltp_ensure b e) k s = k tt s.
Proof. by rewrite Hb. Qed.

Lemma read_items_concat items start :
  read_items (starts (sizes_of items) start) start (concat items) = Ok (items, []).
Proof.
  revert start. induction items as [|i items IH]; intros start; [done|].
  cbn [sizes_of map starts read_items]. rewrite rd_ltp_ensure_true by apply Z.eqb_refl.
  specialize (IH (start + Z.of_nat (length i))). unfold sizes_of in *.
  destruct items as [|j items]; cbn [map starts] in *.
  { cbn. by rewrite app_nil_r. }
  rewrite rd_ltp_ensure_true by (apply Z.leb_le; lia).
  destruct (Z.ltb_spec start (start + Z.of_nat (length i))).
  - cbn [concat]. unfold rd_bind at 1. rewrite read_exact_app by lia. cbn [rbind].
    unfold rd_bind. cbn [concat] in IH. by rewrite IH.
  - assert (i = []) as -> by (apply nil_length_inv; lia).
    cbn [length Z.of_nat app concat] in *. rewrite Z.add_0_r in *. unfold rd_bind. by rewrite IH.
Qed.

Lemma rd_repeat_u16_units l s :
  Forall (uint 16) l -> rd_repeat (length l) read_u16 (PropertyValueIo.units_bytes l ++ s) = Ok (l, s).
Proof.
  intros Hl. apply rd_repeat_app. intros u t Hu. apply read_u16_app.
  by apply (proj1 (Forall_forall _ _) Hl).
Qed.

Lemma read_unit_items_concat items start :
  Forall (Forall (fun u => uint 16 u /\ u <> 0)) items ->
  read_unit_items (starts (sizes_of (map PropertyValueIo.units_bytes items)) start) start
    (concat (map PropertyValueIo.units_bytes items)) = Ok (items, []).
Proof.
  intros Hi. revert start. induction Hi as [|i items Hw Hi IH]; intros start; [done|].
  assert (Hu : Forall (uint 16) i) by (eapply Forall_impl; [exact Hw|]; by intros ? []).
  assert (Hz : Forall (fun u => u <> 0) i) by (eapply Forall_impl; [exact Hw|]; by intros ? []).
  cbn [sizes_of map starts read_unit_items]. rewrite rd_ltp_ensure_true by apply Z.eqb_refl.
  specialize (IH (start + Z.of_nat (length (PropertyValueIo.units_bytes i)))). unfold sizes_of in *.
  assert (Hm : Z.of_nat (length (PropertyValueIo.units_bytes i)) = Z.of_nat (length i) * 2)
    by (rewrite length_units_bytes; lia).
  destruct items as [|j items]; cbn [map starts] in *.
  { cbn [concat]. rewrite app_nil_r. unfold rd_bind, rd_lift, read_to_end, rd_ret. cbn [rbind].
    rewrite Hm, Z.mod_mul by lia. cbn [Z.eqb rbind]. by rewrite le_units_bytes, truncate_nul_id. }
  rewrite rd_ltp_ensure_true by (apply Z.leb_le; lia).
  set (n := start + Z.of_nat (length (PropertyValueIo.units_bytes i))) in *.
  replace (n - start) with (Z.of_nat (length i) * 2) by lia.
  rewrite rd_ltp_ensure_true by (rewrite Z.mod_mul by lia; done).
  rewrite Z.div_mul, Nat2Z.id by lia. cbn [concat]. unfold rd_bind at 1.
  rewrite rd_repeat_u16_units by done. cbn [rbind]. unfold rd_bind.
  cbn [concat] in IH. rewrite IH. cbn [rbind]. unfold rd_ret. by rewrite truncate_nul_id.
Qed.

Lemma read_offsets_starts sizes start s :
  Z.of_nat (length sizes) <= MAX_MULTI_VALUE_ELEMENTS -> Forall (uint 32) (starts sizes start) ->
  (sizes = [] -> s = []) ->
  read_offsets (write_u32 (Z.of_nat (length sizes)) ++ concat (map write_u32 (starts sizes start)) ++ s) =
    Ok (starts sizes start, s).
Proof.
  intros Hn Hu Hs. unfold read_offsets, read_multivalue_count. unfold MAX_MULTI_VALUE_ELEMENTS in Hn.
  unfold rd_bind at 1 2. rewrite read_u32_app by (unfold uint; lia). cbn [rbind].
  rewrite rd_ltp_ensure_true by (apply Z.leb_le; unfold MAX_MULTI_VALUE_ELEMENTS; lia).
  unfold rd_ret at 1. cbn [rbind]. rewrite Nat2Z.id. unfold rd_bind at 1.
  rewrite <- (length_starts sizes start), rd_repeat_u32_app by done. cbn [rbind].
  destruct sizes as [|n sizes]; [by rewrite (Hs eq_refl)|]. done.
Qed.

(** The items written with their count and offsets. *)
Lemma write_items_read items bytes :
  Z.of_nat (length items) <= MAX_MULTI_VALUE_ELEMENTS -> PropertyValueIo.write_items items = Ok bytes ->
  read_offsets bytes = Ok (starts (sizes_of items) (items_start (length items)), concat items).
Proof.
  intros Hn H. unfold PropertyValueIo.write_items in H. repeat res_step.
  apply write_offsets_ok in E0 as [Hu ->]. fold (sizes_of items) in *.
  assert (Hl : length items = length (sizes_of items)) by (unfold sizes_of; by rewrite length_map).
  assert (bytes = write_u32 (Z.of_nat (length (sizes_of items))) ++
    concat (map write_u32 (starts (sizes_of items) (items_start (length items)))) ++ concat items) as ->
    by (rewrite <- Hl; congruence).
  apply read_offsets_starts; [by rewrite <- Hl|done|].
  destruct items; [done|discriminate].
Qed.

(** ** Values that are written and read back *)

Definition guid_wf (g : GuidValue) : Prop :=
  uint 32 (data1 g) /\ uint 16 (data2 g) /\ uint 16 (data3 g) /\ length (data4 g) = 8%nat.

Definition unit_wf (u : Z) : Prop := uint 16 u /\ u <> 0.

(** The values of the types that are stored out of line, each number in its
    range, strings without zeros (a reader stops at the first) and
    multi-values of at most [MAX_MULTI_VALUE_ELEMENTS] items. *)
Definition value_wf (v : PropertyValue.t) : Prop :=
  match v with
  | PropertyValue.Floating64 b | PropertyValue.FloatingTime b => uint 64 b
  | PropertyValue.Currency v | PropertyValue.Integer64 v | PropertyValue.Time v => sint 64 v
  | PropertyValue.String8 l => Forall (fun b => b <> 0) l
  | PropertyValue.Unicode l => Forall unit_wf l
  | PropertyValue.Guid g => guid_wf g
  | PropertyValue.Binary _ => True
  | PropertyValue.Object o => uint 32 (node_id_0 (object_node o)) /\ uint 32 (object_size o)
  | PropertyValue.MultipleInteger16 l => Forall (sint 16) l
  | PropertyValue.MultipleInteger32 l => Forall (sint 32) l
  | PropertyValue.MultipleFloating32 l => Forall (uint 32) l
  | PropertyValue.MultipleFloating64 l | PropertyValue.MultipleFloatingTime l => Forall (uint 64) l
  | PropertyValue.MultipleCurrency l | PropertyValue.MultipleInteger64 l
  | PropertyValue.MultipleTime l => Forall (sint 64) l
  | PropertyValue.MultipleString8 l =>
      Forall (Forall (fun b => b <> 0)) l /\ Z.of_nat (length l) <= MAX_MULTI_VALUE_ELEMENTS
  | PropertyValue.MultipleUnicode l =>
      Forall (Forall unit_wf) l /\ Z.of_nat (length l) <= MAX_MULTI_VALUE_ELEMENTS
  | PropertyValue.MultipleGuid l => Forall guid_wf l
  | PropertyValue.MultipleBinary l => Z.of_nat (length l) <= MAX_MULTI_VALUE_ELEMENTS
  | _ => False
  end.

Lemma read_exact_all l n : length l = n -> read_exact n l = Ok (l, []).
Proof. intros Hl. rewrite <- (app_nil_r l) at 1. by apply read_exact_app. Qed.

Lemma read_i64_wrap v : sint 64 v -> read_i64 (write_u64 (wrap 64 v)) = Ok (v, []).
Proof.
  intros Hv. unfold read_i64, rd_bind. rewrite <- (app_nil_r (write_u64 _)).
  rewrite read_u64_app by (by apply wrap_uint). cbn [rbind]. unfold rd_ret. by rewrite signed_wrap.
Qed.

Lemma guid_of_bytes_le g : guid_wf g -> guid_of_bytes (GuidValue.to_le_bytes g) = g.
Proof.
  destruct g as [a b c d]. intros (Ha & Hb & Hc & Hd). cbn [data1 data2 data3 data4] in *. unfold guid_of_bytes, GuidValue.to_le_bytes.
  cbn [data1 data2 data3 data4].
  rewrite take_app_exact, drop_app_exact by apply length_le_bytes.
  rewrite take_app_exact by apply length_le_bytes.
  assert (Hx : drop 6 (le_bytes 4 a ++ le_bytes 2 b ++ le_bytes 2 c ++ d) = le_bytes 2 c ++ d).
  { change 6%nat with (4 + 2)%nat. rewrite <- drop_drop.
    rewrite drop_app_exact by apply length_le_bytes. by rewrite drop_app_exact by apply length_le_bytes. }
  assert (Hy : drop 8 (le_bytes 4 a ++ le_bytes 2 b ++ le_bytes 2 c ++ d) = d).
  { change 8%nat with (6 + 2)%nat. rewrite <- drop_drop, Hx. by rewrite drop_app_exact by apply length_le_bytes. }
  rewrite Hx, Hy, take_app_exact by apply length_le_bytes.
  f_equal; by apply le_val_bytes.
Qed.

(** One element of a list of fixed-size values. *)
Lemma read_signed_list n w l :
  w = 8 * Z.of_nat n -> (0 < n)%nat -> Forall (sint w) l ->
  read_fixed_values n (fun b => signed w (le_val b)) (concat (map (fun v => le_bytes n (wrap w v)) l)) = Ok (l, []).
Proof.
  intros -> Hn Hl. apply (read_fixed_concat n _ (fun v => le_bytes n (wrap (8 * Z.of_nat n) v))); [|done].
  intros v Hv. split; [apply length_le_bytes|]. rewrite le_val_bytes by (apply wrap_uint; lia).
  apply signed_wrap; [lia|]. by apply (proj1 (Forall_forall _ _) Hl).
Qed.

Lemma read_unsigned_list n w l :
  w = 8 * Z.of_nat n -> (0 < n)%nat -> Forall (uint w) l ->
  read_fixed_values n le_val (concat (map (fun v => le_bytes n v) l)) = Ok (l, []).
Proof.
  intros -> Hn Hl. apply (read_fixed_concat n _ (fun v => le_bytes n v)); [|done].
  intros v Hv. split; [apply length_le_bytes|]. apply le_val_bytes. by apply (proj1 (Forall_forall _ _) Hl).
Qed.

Lemma map_truncate_id l : Forall (Forall (fun b => b <> 0)) l -> map truncate_nul l = l.
Proof. induction 1 as [|b l Hb _ IH]; cbn; [done|]. by rewrite truncate_nul_id, IH. Qed.

(** A multi-value of strings or of binary values. *)
Lemma read_write_items {A} items bytes (k : list (list Z) -> A) :
  Z.of_nat (length items) <= MAX_MULTI_VALUE_ELEMENTS -> PropertyValueIo.write_items items = Ok bytes ->
  (offsets <- read_offsets;; items <- read_items offsets (items_start (length offsets));; rd_ret (k items))
    bytes = Ok (k items, []).
Proof.
  intros Hn Hb. unfold rd_bind. rewrite (write_items_read _ _ Hn Hb). cbn [rbind].
  assert (Hl : length (starts (sizes_of items) (items_start (length items))) = length items).
  { rewrite length_starts. unfold sizes_of. by rewrite length_map. }
  rewrite Hl, read_items_concat. done.
Qed.

(** [injection] without the reduction of the two sides. *)
Lemma ok_inj {E A} (a b : A) : Ok (E := E) a = Ok b -> a = b.
Proof. congruence. Qed.

Lemma value_read_write v bytes :
  value_wf v -> PropertyValueIo.write v = Ok bytes ->
  PropertyValueIo.read (PropertyValue.prop_type v) bytes = Ok (v, []).
Proof.
  destruct v as [|v|v|v|v|v|v|v|v|v|l|l|v|g|l|o|l|l|l|l|l|l|l|l|l|l|l|l];
    intros Hw Hb; cbn [value_wf] in Hw; try done; cbn [PropertyValueIo.write] in Hb;
    try (apply ok_inj in Hb; subst bytes); cbn [PropertyValue.prop_type PropertyValueIo.read].
  - unfold rd_bind. rewrite <- (app_nil_r (write_u64 _)), read_u64_app by done. done.
  - unfold rd_bind. by rewrite read_i64_wrap.
  - unfold rd_bind. rewrite <- (app_nil_r (write_u64 _)), read_u64_app by done. done.
  - unfold rd_bind. by rewrite read_i64_wrap.
  - unfold rd_bind, read_to_end, rd_ret. cbn [rbind]. by rewrite truncate_nul_id.
  - rewrite read_units_bytes; [done|done|rewrite length_units_bytes; lia].
  - unfold rd_bind. by rewrite read_i64_wrap.
  - destruct g as [a b c d], Hw as (Ha & Hb & Hc & Hd). cbn [data1 data2 data3 data4] in *.
    rd_run. unfold rd_bind. by rewrite read_exact_all.
  - done.
  - destruct o as [[n] s], Hw as [Hn Hs]. cbn [object_node object_size node_id_0] in *.
    change NodeId.read with (ser_read (A := NodeId)). change NodeId.write with (ser_write (A := NodeId)).
    rd_run. unfold rd_bind. rewrite <- (app_nil_r (write_u32 _)), read_u32_app by done. done.
  - unfold rd_bind. by rewrite (read_signed_list 2 16) by (done || lia).
  - unfold rd_bind. by rewrite (read_signed_list 4 32) by (done || lia).
  - unfold rd_bind. by rewrite (read_unsigned_list 4 32) by (done || lia).
  - unfold rd_bind. by rewrite (read_unsigned_list 8 64) by (done || lia).
  - unfold rd_bind. by rewrite (read_signed_list 8 64) by (done || lia).
  - unfold rd_bind. by rewrite (read_unsigned_list 8 64) by (done || lia).
  - unfold rd_bind. by rewrite (read_signed_list 8 64) by (done || lia).
  - destruct Hw as [Hz Hn]. rewrite (read_write_items l bytes (fun i => PropertyValue.MultipleString8 (map truncate_nul i))) by done.
    by rewrite map_truncate_id.
  - destruct Hw as [Hz Hn]. unfold rd_bind.
    rewrite (write_items_read _ _ ltac:(by rewrite length_map) Hb). cbn [rbind].
    rewrite length_starts. unfold sizes_of at 2. rewrite !length_map.
    rewrite read_unit_items_concat by done. done.
  - unfold rd_bind. by rewrite (read_signed_list 8 64) by (done || lia).
  - unfold rd_bind. rewrite (read_fixed_concat 16 guid_of_bytes GuidValue.to_le_bytes); [done| |lia].
    intros g Hg. pose proof (proj1 (Forall_forall _ _) Hw g Hg) as Hgw. split; [|by apply guid_of_bytes_le].
    destruct Hgw as (_ & _ & _ & Hd). unfold GuidValue.to_le_bytes. rewrite !length_app, !length_le_bytes. lia.
  - by apply (read_write_items l bytes PropertyValue.MultipleBinary).
Qed.

(** ** Values that are read are well formed *)

Lemma signed_range w x : 0 < w -> uint w x -> sint w (signed w x).
Proof.
  intros Hw [H0 H1]. unfold signed, sint.
  assert (Hp : 2 ^ w = 2 * 2 ^ (w - 1)) by (rewrite <- Z.pow_succ_r by lia; f_equal; lia).
  destruct (Z.ltb_spec x (2 ^ (w - 1))); lia.
Qed.

Lemma truncate_nul_nonzero l : Forall (fun b => b <> 0) (truncate_nul l).
Proof. induction l as [|b l IH]; cbn; [done|]. destruct (Z.eqb_spec b 0); by constructor. Qed.

Lemma truncate_nul_Forall (P : Z -> Prop) l : Forall P l -> Forall P (truncate_nul l).
Proof. induction 1 as [|b l Hb _ IH]; cbn; [done|]. destruct (b =? 0); by constructor. Qed.

Lemma truncate_nul_units l : Forall (uint 16) l -> Forall unit_wf (truncate_nul l).
Proof. intros Hl. apply Forall_and. split; [by apply truncate_nul_Forall|apply truncate_nul_nonzero]. Qed.

Lemma le_units_wf l : bytes_ok l -> Forall (uint 16) (le_units l).
Proof.
  assert (H : forall n l, (length l <= n)%nat -> bytes_ok l -> Forall (uint 16) (le_units l)).
  { clear. induction n as [|n IH]; intros l Hn Hl; (destruct l as [|a [|b l]]; [constructor|constructor|]).
    - cbn in Hn. lia.
    - cbn [le_units]. inversion Hl as [|? ? Ha Hl']; subst. inversion Hl' as [|? ? Hb Hl'']; subst. constructor.
      + apply (le_val_uint [a; b]). by rewrite !Forall_cons.
      + apply IH; [cbn in Hn; lia|done]. }
  by apply (H (length l)).
Qed.

Lemma read_units_wf fuel s l t : bytes_ok s -> read_units fuel s = Ok (l, t) -> Forall unit_wf l.
Proof.
  revert s l t. induction fuel as [|fuel IH]; intros s l t Hs H; cbn [read_units] in H; [by injection H as <- _|].
  destruct (read_u16 s) as [[ch u]|e|] eqn:Hr; [|by injection H as <- _|done].
  apply read_u16_ok in Hr as [-> Hc]; [|done]. apply Forall_app in Hs as [_ Hu].
  destruct (Z.eqb_spec ch 0); [by injection H as <- _|].
  res_step. destruct a as [l' t']. injection H as <- _. constructor; [done|]. by eapply IH.
Qed.

Lemma read_fixed_wf {A} (P : A -> Prop) fuel width decode s l t :
  (forall b, length b = width -> bytes_ok b -> P (decode b)) -> (0 < width)%nat -> bytes_ok s ->
  read_fixed fuel width decode s = Ok (l, t) -> Forall P l.
Proof.
  intros Hd Hw. revert s l t. induction fuel as [|fuel IH]; intros s l t Hs H; cbn [read_fixed] in H;
    [by injection H as <- _|].
  destruct s as [|b s]; [by injection H as <- _|]. inversion Hs as [|? ? Hb Hs']; subst.
  repeat (res_step; repeat match goal with p : _ * _ |- _ => destruct p end). injection H as <- _.
  apply read_exact_ok in E as [-> Hl]. apply Forall_app in Hs' as [Hl' Hz].
  constructor; [apply Hd; [cbn; lia|by constructor]|]. by eapply IH.
Qed.

Lemma read_fixed_values_wf {A} (P : A -> Prop) width decode s l t :
  (forall b, length b = width -> bytes_ok b -> P (decode b)) -> (0 < width)%nat -> bytes_ok s ->
  read_fixed_values width decode s = Ok (l, t) -> Forall P l.
Proof. intros Hd Hw Hs H. by eapply read_fixed_wf. Qed.

Lemma rd_ltp_ensure_ok b e s u t : rd_ltp_ensure b e s = Ok (u, t) <-> b = true /\ s = t.
Proof. unfold rd_ltp_ensure. rewrite rd_lift_ok, ltp_ok, ensure_ok. done. Qed.

(** Splits a run of guarded reads. *)
Ltac rd_inv_ltp :=
  repeat (rd_inv; match goal with
  | H : rd_ltp_ensure _ _ _ = Ok (_, _) |- _ => apply rd_ltp_ensure_ok in H as [? ?]; subst
  end); rd_inv.

Lemma read_offsets_length s offsets t :
  read_offsets s = Ok (offsets, t) -> Z.of_nat (length offsets) <= MAX_MULTI_VALUE_ELEMENTS.
Proof.
  intros H. unfold read_offsets, read_multivalue_count in H. rd_inv_ltp. zb.
  match goal with H : rd_repeat _ _ _ = _ |- _ => apply rd_repeat_length in H end.
  unfold MAX_MULTI_VALUE_ELEMENTS in *. lia.
Qed.

Lemma read_items_length offsets start s items t :
  read_items offsets start s = Ok (items, t) -> length items = length offsets.
Proof.
  revert start s items t. induction offsets as [|o offsets IH]; intros start s items t H; cbn [read_items] in H.
  { rd_inv. done. }
  destruct offsets as [|n offsets]; [rd_inv_ltp; done|].
  apply rd_bind_ok in H as (? & ? & _ & H). apply rd_bind_ok in H as (? & ? & _ & H).
  destruct (start <? n).
  - apply rd_bind_ok in H as (? & ? & _ & H). apply rd_bind_ok in H as (? & ? & Hi & H).
    rd_inv. cbn. f_equal. by eapply IH.
  - apply rd_bind_ok in H as (? & ? & Hi & H). rd_inv. cbn. f_equal. by eapply IH.
Qed.

Lemma rd_repeat_u16_wf n s l t : bytes_ok s -> rd_repeat n read_u16 s = Ok (l, t) -> Forall (uint 16) l /\ bytes_ok t.
Proof.
  intros Hs H. apply (rd_repeat_ok read_u16 write_u16 (uint 16)) in H as [-> Hl]; [|apply read_u16_ok|done].
  split; [done|]. by apply Forall_app in Hs as [_ ?].
Qed.

Lemma read_unit_items_wf offsets start s items t :
  bytes_ok s -> read_unit_items offsets start s = Ok (items, t) ->
  Forall (Forall unit_wf) items /\ length items = length offsets.
Proof.
  revert start s items t. induction offsets as [|o offsets IH]; intros start s items t Hs H;
    cbn [read_unit_items] in H; [rd_inv; by split|].
  destruct offsets as [|n offsets].
  - rd_inv_ltp. split; [|done]. constructor; [|done]. apply truncate_nul_units, le_units_wf.
    match goal with H : read_to_end _ = _ |- _ => unfold read_to_end in H; by injection H as <- _ end.
  - rd_inv_ltp.
    match goal with H : rd_repeat _ _ _ = _ |- _ => apply rd_repeat_u16_wf in H as [Hw Hu]; [|done] end.
    match goal with H : read_unit_items _ _ _ = _ |- _ => apply IH in H as [Hi Hl]; [|done] end.
    split; [constructor; [by apply truncate_nul_units|done]|]. cbn. by f_equal.
Qed.

Lemma guid_of_bytes_wf b : length b = 16%nat -> bytes_ok b -> guid_wf (guid_of_bytes b).
Proof.
  intros Hl Hb. unfold guid_wf, guid_of_bytes. cbn [data1 data2 data3 data4].
  assert (Hv : forall i n, (i + n <= 16)%nat -> uint (8 * Z.of_nat n) (le_val (take n (drop i b)))).
  { intros i n Hn. replace n with (length (take n (drop i b))) at 1 by (rewrite length_take, length_drop; lia).
    apply le_val_uint. by apply Forall_take, Forall_drop. }
  split_and!; [apply (Hv 0 4)%nat; lia|apply (Hv 4 2)%nat; lia|apply (Hv 6 2)%nat; lia|].
  rewrite length_drop. lia.
Qed.

Lemma value_read_wf t s v u :
  bytes_ok s -> PropertyValueIo.read t s = Ok (v, u) -> PropertyValue.prop_type v = t /\ value_wf v.
Proof.
  intros Hs H. destruct t; cbn [PropertyValueIo.read] in H; unfold read_i64 in H; rd_inv; try done;
    try (split; [done|]; cbn [value_wf]).
  all: try match goal with H : read_u64 _ = Ok (_, _) |- _ =>
         apply read_u64_ok in H as [_ ?]; [|done]; first [done|by apply signed_range] end.
  all: try match goal with H : read_fixed_values _ _ _ = Ok (_, _) |- _ =>
         eapply read_fixed_values_wf; [|..|exact H]; [|lia|done]; intros b Hl Hb;
         pose proof (le_val_uint b Hb) as Hv; rewrite Hl in Hv;
         first [exact Hv|apply signed_range; [lia|exact Hv]|by apply guid_of_bytes_wf] end.
  - apply truncate_nul_nonzero.
  - res_step. destruct a as [l x]. apply ok_inj in H. simplify_eq. split; [done|]. by eapply read_units_wf.
  - repeat match goal with H : _ _ = Ok (?x, _) |- _ =>
      first [apply read_u32_ok in H as [-> ?]; [|done]|apply read_u16_ok in H as [-> ?]; [|done]];
      match goal with Hs : bytes_ok (_ ++ _) |- _ => apply Forall_app in Hs as [_ Hs] end end.
    split_and!; cbn; try done. match goal with H : read_exact _ _ = _ |- _ => by apply read_exact_ok in H as [_ ?] end.
  - unfold NodeId.read in *. rd_inv.
    repeat match goal with H : read_u32 _ = Ok (?x, _) |- _ =>
      apply read_u32_ok in H as [-> ?]; [|done];
      match goal with Hs : bytes_ok (_ ++ _) |- _ => apply Forall_app in Hs as [_ Hs] end end.
    done.
  - match goal with H : read_items _ _ _ = _ |- _ => apply read_items_length in H end.
    match goal with H : read_offsets _ = _ |- _ => apply read_offsets_length in H end.
    rewrite length_map. split; [|lia]. apply Forall_map, Forall_forall. intros l _. apply truncate_nul_nonzero.
  - match goal with H : read_offsets _ = _ |- _ => pose proof (read_offsets_length _ _ _ H) end.
    assert (Hz : bytes_ok x0).
    { unfold read_offsets, read_multivalue_count in *. rd_inv_ltp.
      repeat match goal with
      | H : read_u32 _ = Ok (_, _) |- _ => apply read_u32_ok in H as [-> _]; [|done]
      | H : rd_repeat _ read_u32 _ = Ok (_, _) |- _ =>
          apply (rd_repeat_ok read_u32 write_u32 (uint 32)) in H as [-> _]; [|apply read_u32_ok|done]
      | H : bytes_ok (_ ++ _) |- _ => apply Forall_app in H as [_ H]
      end. destruct x; [|by rd_inv]. unfold require_eof in *. repeat res_step. by simplify_eq. }
    match goal with H : read_unit_items _ _ _ = _ |- _ => apply read_unit_items_wf in H as [Hi Hl]; [|done] end.
    split; [done|lia].
  - match goal with H : read_items _ _ _ = _ |- _ => apply read_items_length in H end.
    match goal with H : read_offsets _ = _ |- _ => apply read_offsets_length in H end. lia.
Qed.

(** ** Properties *)

(** C26: A value read as a value of a type has that type, its numbers are in
    the range of their width, its strings end before their first zero and its
    multi-values have at most 65536 items, whatever the bytes. *)
Theorem read_value_has_type (t : PropertyType) (s u : list Z) (v : PropertyValue.t)
  (Hs : bytes_ok s) (Hread : PropertyValueIo.read t s = Ok (v, u)) :
  PropertyValue.prop_type v = t /\ value_wf v.
Proof. by eapply value_read_wf. Qed.

Lemma read_value_has_type_witness :
  exists v, PropertyValueIo.read PT_MultipleUnicode (write_u32 1 ++ write_u32 8 ++ [72; 0; 105; 0; 0; 0; 9; 0]) = Ok (v, []) /\
    PropertyValue.prop_type v = PT_MultipleUnicode /\ value_wf v.
Proof.
  eexists. split; [reflexivity|].
  eapply (read_value_has_type PT_MultipleUnicode (write_u32 1 ++ write_u32 8 ++ [72; 0; 105; 0; 0; 0; 9; 0]) []).
  - by apply bytes_ok_b.
  - reflexivity.
Defined.

(** C25: A value of a type that is stored out of line, with its numbers in
    range, its strings free of zeros and at most 65536 items, is read back
    from the bytes it is written as, of which none are left. *)
Theorem value_round_trip (v : PropertyValue.t) (bytes : list Z)
  (Hv : value_wf v) (Hwrite : PropertyValueIo.write v = Ok bytes) :
  PropertyValueIo.read (PropertyValue.prop_type v) bytes = Ok (v, []).
Proof. by apply value_read_write. Qed.

Definition sample_strings : PropertyValue.t := PropertyValue.MultipleUnicode [[72; 105]; []; [0xD83D; 0xDE00]].

Lemma value_round_trip_witness :
  exists bytes, PropertyValueIo.write sample_strings = Ok bytes /\ length bytes = 24%nat /\
    PropertyValueIo.read PT_MultipleUnicode bytes = Ok (sample_strings, []).
Proof.
  eexists. split; [reflexivity|]. split; [reflexivity|].
  apply (value_round_trip sample_strings); [|reflexivity].
  split; [|done]. repeat constructor; done.
Defined.
