(* ===== verification/PropContext.v ===== *)
(** * Property contexts

    [ltp/prop_context.rs]: the records of a property context, which hold small
    values, heap ids or sub-node ids, the map of all properties and the
    reading of one property, from the record, from the heap or from a
    sub-node. Shown: records round trip, the map of a context is the map of
    its records, and a property is decoded from exactly the bytes stored for
    it, wherever they are, and refused as soon as its bytes or its decoded
    size exceed the budget it is read with. *)
From S2P Require Import Prelude Errors Io Ids Page BTree Block Lookup DataTree SubNode Heap HeapTree PropValue.
#[local] Open Scope Z_scope.

(** ** Records *)

Inductive PropertyValueRecord :=
| Small (value : Z)
| InHeap (heap_id : HeapId)
| InNode (node_id : NodeId).

Module PropertyValueRecord.

(** [*value as i32] and the like reinterpret the bits. *)
Definition small_value (r : PropertyValueRecord) (prop_type : PropertyType) : option PropertyValue.t :=
  match r, prop_type with
  | Small value, PT_Integer16 => Some (PropertyValue.Integer16 (signed 16 (Z.land value 0xFFFF)))
  | Small value, PT_Integer32 => Some (PropertyValue.Integer32 (signed 32 value))
  | Small value, PT_Floating32 => Some (PropertyValue.Floating32 value)
  | Small value, PT_ErrorCode => Some (PropertyValue.ErrorCode (signed 32 value))
  | Small value, PT_Boolean => Some (PropertyValue.Boolean (negb (Z.land value 0xFF =? 0)))
  | _, _ => None
  end.

Definition into_u32 (r : PropertyValueRecord) : Z :=
  match r with
  | Small value => value
  | InHeap heap_id => HeapId.into_u32 heap_id
  | InNode node_id => node_id_0 node_id
  end.

End PropertyValueRecord.

(** [u16]. *)
Abbreviation PropertyTreeRecordKey := Z (only parsing).

Record PropertyTreeRecordValue := mk_PropertyTreeRecordValue {
  ptr_prop_type : PropertyType;
  ptr_value : PropertyValueRecord
}.

Module PropertyTreeRecordValue.

(** What the 32-bit value of a record means for its type. *)
Definition record_of (prop_type : PropertyType) (value : Z) : PropertyValueRecord :=
  match prop_type with
  | PT_Null => Small 0
  | PT_Integer16 => Small (Z.land value 0xFFFF)
  | PT_Integer32 | PT_Floating32 | PT_ErrorCode => Small value
  | PT_Boolean => Small (Z.land value 0xFF)
  | PT_Floating64 | PT_Currency | PT_FloatingTime | PT_Integer64 | PT_Time | PT_Guid | PT_Object =>
      InHeap (HeapId.from_u32 value)
  | _ =>
      match NodeId.id_type (mk_NodeId value) with
      | Ok HeapNode => InHeap (HeapId.from_u32 value)
      | _ => InNode (mk_NodeId value)
      end
  end.

Definition read : reader PropertyTreeRecordValue :=
  prop_type <- read_u16;;
  prop_type <- rd_lift (ltp (PropertyType.try_from prop_type));;
  value <- read_u32;;
  rd_ret (mk_PropertyTreeRecordValue prop_type (record_of prop_type value)).

Definition write (v : PropertyTreeRecordValue) : list Z :=
  write_u16 (PropertyType.into_u16 (ptr_prop_type v)) ++
  write_u32 (PropertyValueRecord.into_u32 (ptr_value v)).

End PropertyTreeRecordValue.

(** The records a reader can return: the value is the one its 32 bits mean
    for its type. *)
Definition record_wf (v : PropertyTreeRecordValue) : Prop :=
  uint 32 (PropertyValueRecord.into_u32 (ptr_value v)) /\
  PropertyTreeRecordValue.record_of (ptr_prop_type v) (PropertyValueRecord.into_u32 (ptr_value v)) = ptr_value v.

#[export] Instance PropertyTreeRecordKey_entry : HeapTreeEntry PropertyTreeRecordKey := {|
  hte_serial := {|
    ser_read := read_u16;
    ser_write := write_u16;
    ser_wf := uint 16;
    ser_size := 2 |};
  hte_SIZE := 2
|}.

#[export] Instance PropertyTreeRecordValue_entry : HeapTreeEntry PropertyTreeRecordValue := {|
  hte_serial := {|
    ser_read := PropertyTreeRecordValue.read;
    ser_write := PropertyTreeRecordValue.write;
    ser_wf := record_wf;
    ser_size := 6 |};
  hte_SIZE := 6
|}.

(** [PropertyTreeRecord]: a leaf entry of the tree. *)
Abbreviation PropertyTreeRecord := (HeapTreeLeafEntry PropertyTreeRecordKey PropertyTreeRecordValue).

(** ** The budget *)

Definition MAX_PROPERTY_MATERIALIZATION_BYTES : Z := 64 * 1024 * 1024.

Module PropertyMaterializationBudget.
Definition new : Z := 0.
(** The result and the new [materialized]. *)
Definition charge (bytes materialized : Z) : io_result unit * Z :=
  match checked_add 64 materialized bytes with
  | None => (Err InvalidData_msg, materialized)
  | Some m => (if MAX_PROPERTY_MATERIALIZATION_BYTES <? m then Err InvalidData_msg else Ok tt, m)
  end.
End PropertyMaterializationBudget.

(** ** The context *)

(** [PropertyContextInner]: of the node entry only the sub-node is used. *)
Record PropertyContextInner (B : Type) := mk_PropertyContextInner {
  pc_sub_node : option B;
  pc_tree : HeapTreeInner B
}.
Arguments mk_PropertyContextInner {B}.
Arguments pc_sub_node {B}.
Arguments pc_tree {B}.

(** [collect] into a [BTreeMap]: the last of several entries stays. *)
Definition collect_map (es : list PropertyTreeRecord) : gmap Z PropertyTreeRecordValue :=
  foldl (fun m e => <[htl_key e := htl_data e]> m) ∅ es.

Definition properties {B} (self : PropertyContextInner B) : io_result (gmap Z PropertyTreeRecordValue) :=
  let? entries := HeapTreeInner.entries (pc_tree self) in
  Ok (collect_map entries).

Section read.
Context {E B I S : Type} `{!BlockId B, !ByteIndex I, !BlockBTreeEntry E B I}.
Context `{!BlockTrailerReadWrite B, !IntermediateTreeHeader (SubNodeTreeBlockHeader B)}.
Context `{!IntermediateTreeEntry B, !IntermediateTreeEntry (IntermediateSubNodeTreeEntry B)}.
Context `{!IntermediateTreeEntry (LeafSubNodeTreeEntry B), !BlockFind E S}.
Context (f : list Z) (encoding : NdbCryptMethod).
(** [PropertyValue::materialized_size], which depends on the capacities of
    the vectors and the layout of the type, and the lengths of the buffers
    that [read_to_end] reads into. *)
Context (materialized_size : PropertyValue.t -> option Z) (buffer_len : nat -> nat).

(** The caches and the budget. *)
Definition read_state : Type := traversal_state (B := B) (S := S) * option Z.

Definition traversing {A} (m : M (traversal_state (B := B) (S := S)) A) : M read_state A := fun '(s, budget) =>
  match m s with
  | Some (r, s) => Some (r, (s, budget))
  | None => None
  end.

(** A lookup that leaves the block cache alone. *)
Definition looking_up {A} (m : M S A) : M (traversal_state (B := B) (S := S)) A := fun '(pages, blocks) =>
  match m pages with
  | Some (r, pages) => Some (r, (pages, blocks))
  | None => None
  end.

(** [if let Some(budget) = budget.as_deref_mut() { budget.charge(bytes)?; }] *)
Definition charge (bytes : Z) : M read_state unit := fun '(s, budget) =>
  match budget with
  | None => Some (Ok tt, (s, None))
  | Some m =>
      let '(r, m) := PropertyMaterializationBudget.charge bytes m in Some (r, (s, Some m))
  end.

(** [read_to_end] on the reader of a data tree; a round reads at least a byte
    or ends. *)
Fixpoint read_all_rounds (fuel round : nat) (r : DataTreeReader (E := E)) : io_result (list Z) :=
  match fuel with
  | O => Panic
  | Datatypes.S fuel =>
      match reader_read f encoding (buffer_len round) r with
      | (Ok [], _) => Ok []
      | (Ok chunk, r) => let? rest := read_all_rounds fuel (Datatypes.S round) r in Ok (chunk ++ rest)
      | (Err e, _) => Err e
      | (Panic, _) => Panic
      end
  end.

Definition read_tree_to_end (t : DataTree B) : M (traversal_state (B := B) (S := S)) (list Z) :=
  let! r := open_reader f encoding t in
  m_lift (read_all_rounds (Datatypes.S (Z.to_nat (DataTree.declared_size t))) 0 r).

(** A computation whose errors are kept for later. *)
Definition caught {St A} (m : M St A) : M St (io_result A) := fun s =>
  match m s with
  | Some (r, s) => Some (Ok r, s)
  | None => None
  end.

(** The data tree of a block: taken from the cache or read. *)
Definition take_tree (block : E) : M (traversal_state (B := B) (S := S)) (DataTree B) :=
  let! cached := cache_remove (bref_block (bbe_block block)) in
  match cached with
  | Some data_tree => m_ret data_tree
  | None => m_lift (DataTree.read f encoding block)
  end.

(** The block that holds the value of a sub-node. *)
Definition value_block (sub_node : option B) (sub_node_id : NodeId) : M S E :=
  let! sub_node := m_lift (ltp (ok_or sub_node (PropertySubNodeValueNotFound (node_id_0 sub_node_id)))) in
  let! block := bl_find (E := E) (bid_search_key sub_node) in
  let! sub_node_tree := m_lift (SubNodeTree.read f block) in
  let! block := SubNode.find_entry (E := E) f sub_node_tree sub_node_id in
  bl_find (E := E) (bid_search_key block).

(** Decoding the bytes of a value. *)
Definition decode (prop_type : PropertyType) (data : list Z) : io_result PropertyValue.t :=
  let? '(v, _) := PropertyValueIo.read prop_type data in Ok v.

Definition read_from_node (sub_node : option B) (sub_node_id : NodeId) (prop_type : PropertyType) :
    M read_state (io_result PropertyValue.t * Z) :=
  let! block := traversing (looking_up (value_block sub_node sub_node_id)) in
  let! data_tree := traversing (take_tree block) in
  let reserved := DataTree.declared_size data_tree in
  let! _ := charge reserved in
  let! result := traversing (caught (read_tree_to_end data_tree)) in
  let! _ := traversing (cache_insert (bref_block (bbe_block block)) data_tree) in
  let! data := m_lift result in
  m_ret (decode prop_type data, reserved).

Definition read_property (self : PropertyContextInner B) (value : PropertyTreeRecordValue) :
    M read_state PropertyValue.t :=
  let finish (decoded : io_result PropertyValue.t) (reserved : Z) : M read_state PropertyValue.t :=
    let! decoded := m_lift decoded in
    fun '(s, budget) =>
      match budget with
      | None => Some (Ok decoded, (s, None))
      | Some _ =>
          (let! actual := m_lift (ok_or (materialized_size decoded) InvalidData_msg) in
           let! _ := (if reserved <? actual then charge (actual - reserved) else m_ret tt) in
           m_ret decoded) (s, budget)
      end in
  match ptr_value value with
  | InHeap heap_id =>
      if HeapId.into_u32 heap_id =? 0 then m_ret PropertyValue.Null else
      let! data := m_lift (HeapNodeInner.find_entry (ht_heap (pc_tree self)) heap_id) in
      let reserved := Z.of_nat (length data) in
      let! _ := charge reserved in
      finish (decode (ptr_prop_type value) data) reserved
  | InNode sub_node_id =>
      let! r := read_from_node (pc_sub_node self) sub_node_id (ptr_prop_type value) in
      finish r.1 r.2
  | small =>
      finish (ltp (ok_or (PropertyValueRecord.small_value small (ptr_prop_type value))
                     (InvalidSmallPropertyType (ptr_prop_type value)))) 0
  end.

(** [stream_property_identity]: the type, the length and the digest of a
    value in a sub-node. *)
Context (sha256 : list Z -> list Z).

Fixpoint stream_rounds (fuel : nat) (r : DataTreeReader (E := E)) (hashed : list Z) (byte_len : Z) :
    io_result (list Z * Z) :=
  match fuel with
  | O => Panic
  | Datatypes.S fuel =>
      match reader_read f encoding (Z.to_nat 8192) r with
      | (Ok [], _) => Ok (hashed, byte_len)
      | (Ok chunk, r) =>
          let? byte_len := ok_or (checked_add 64 byte_len (Z.of_nat (length chunk))) InvalidData_msg in
          stream_rounds fuel r (hashed ++ chunk) byte_len
      | (Err e, _) => Err e
      | (Panic, _) => Panic
      end
  end.

Definition stream_property_identity (self : PropertyContextInner B) (value : PropertyTreeRecordValue) :
    M (traversal_state (B := B) (S := S)) (Z * Z * list Z) :=
  match ptr_value value with
  | InNode sub_node_id =>
      let! block := looking_up (value_block (pc_sub_node self) sub_node_id) in
      let! data_tree := m_lift (DataTree.read f encoding block) in
      let! r := streaming_reader f encoding data_tree in
      let! h := m_lift (stream_rounds (Datatypes.S (Z.to_nat (DataTree.declared_size data_tree))) r [] 0) in
      m_ret (PropertyType.into_u16 (ptr_prop_type value), h.2, sha256 h.1)
  | _ => m_lift (Err InvalidData_msg)
  end.

End read.

(** ** Records round trip *)

#[export] Instance PropertyTreeRecordKey_rt : RoundTrip (H := hte_serial) PropertyTreeRecordKey.
Proof.
  split; cbn.
  - intros a s Ha. by apply read_u16_app.
  - done.
  - intros a. apply le_bytes_ok.
Qed.

#[export] Instance PropertyTreeRecordValue_rt : RoundTrip PropertyTreeRecordValue.
Proof.
  split; cbn.
  - intros [t v] s [Hv Hr]; cbn [ptr_prop_type ptr_value] in *.
    unfold PropertyTreeRecordValue.read, PropertyTreeRecordValue.write. cbn [ptr_prop_type ptr_value].
    pose proof (PropertyType_uint t). rd_run. unfold rd_bind at 1. unfold rd_lift at 1.
    rewrite PropertyType_round. cbn [ltp rmap_err rbind]. rd_run. by rewrite Hr.
  - intros [t v]. done.
  - intros [t v]. unfold PropertyTreeRecordValue.write. bytes_tac.
Qed.

Lemma property_key_empty : exists e, ser_read (A := PropertyTreeRecordKey) [] = Err e.
Proof. by eexists. Qed.

(** ** The map of the properties *)

(** The map has exactly the entries, when no key occurs twice. *)
Lemma collect_map_lookup (es : list PropertyTreeRecord) k v :
  NoDup (map htl_key es) ->
  collect_map es !! k = Some v <-> mk_HeapTreeLeafEntry k v ∈ es.
Proof.
  intros Hnd. unfold collect_map. rewrite foldl_insert_lookup; [|done|intros; apply lookup_empty].
  rewrite lookup_empty. split; [|intros H; right; by eexists].
  intros [H|(e & He & <- & <-)]; [done|by destruct e].
Qed.

(** ** Reading a property *)

Section nodes.
Set Default Proof Using "All".
Context {E B I S : Type} `{!BlockId B, !ByteIndex I, !BlockBTreeEntry E B I}.
Context `{!BlockTrailerReadWrite B, !BlockTrailerLaws B, !IntermediateTreeHeader (SubNodeTreeBlockHeader B)}.
Context `{!IntermediateTreeEntry B, !IntermediateTreeEntry (IntermediateSubNodeTreeEntry B)}.
Context `{!IntermediateTreeEntry (LeafSubNodeTreeEntry B), !BlockFind E S}.
Context `{!BlockIdLaws B, !BlockFindLaws E B I S}.
Context (f : list Z) (encoding : NdbCryptMethod).

(** The data blocks of a value in a sub-node: the sub-node tree of the node
    has an entry of the id, whose block is the root of a data tree with these
    blocks. *)
Definition node_blocks (sub_node : option B) (id : NodeId) (bs : list (DataBlock B)) : Prop :=
  exists b e0 t d lo hi ls leaf e dt,
    sub_node = Some b /\ bl_spec (bid_search_key b) = Ok e0 /\ SubNodeTree.read f e0 = Ok t /\
    ordered_tree f d t lo hi ls /\ Z.of_nat d <= MAX_SUBNODE_TREE_DEPTH /\ tree_leaves f t ls /\
    node_lookup ls id = Ok leaf /\ bl_spec (bid_search_key (LeafSubNodeTreeEntry.block leaf)) = Ok e /\
    DataTree.read f encoding e = Ok dt /\ level_ok dt /\ tree_blocks (E := E) f encoding dt bs /\
    DataTree.declared_size dt <= MAX_MATERIALIZED_DATA_TREE_BYTES.

Definition node_data (sub_node : option B) (id : NodeId) (data : list Z) : Prop :=
  exists bs, node_blocks sub_node id bs /\ data = blocks_data bs.

Lemma tree_blocks_size dt bs :
  tree_blocks (E := E) f encoding dt bs -> DataTree.declared_size dt = Z.of_nat (length (blocks_data bs)).
Proof.
  destruct dt as [c|b]; cbn [tree_blocks]; [by intros (_ & _ & ->)|]. intros ->.
  unfold blocks_data. cbn. by rewrite app_nil_r.
Qed.

Lemma value_block_ok sub_node id b e0 t d lo hi ls leaf (e : E) pages :
  sub_node = Some b -> bl_spec (bid_search_key b) = Ok e0 -> SubNodeTree.read f e0 = Ok t ->
  ordered_tree f d t lo hi ls -> Z.of_nat d <= MAX_SUBNODE_TREE_DEPTH -> tree_leaves f t ls ->
  node_lookup ls id = Ok leaf -> bl_spec (bid_search_key (LeafSubNodeTreeEntry.block leaf)) = Ok e ->
  bl_inv (E := E) pages ->
  exists pages', value_block f sub_node id pages = Some (Ok e, pages') /\ bl_inv (E := E) pages'.
Proof.
  intros -> Hb Ht Ho Hd Hl Hleaf He Hp. unfold value_block.
  rewrite (m_bind_eq _ _ pages b pages) by done.
  destruct (bl_ok (bid_search_key b) pages Hp) as (p1 & Hf1 & Hp1). rewrite Hb in Hf1.
  rewrite (m_bind_eq _ _ _ _ _ Hf1). rewrite (m_bind_eq _ _ p1 t p1) by (unfold m_lift; by rewrite Ht).
  destruct (find_leaf_entry_ordered f t id p1 d lo hi ls Hp1 Ho Hd Hl) as (p2 & Hf2 & Hp2).
  rewrite Hleaf in Hf2.
  rewrite (m_bind_eq _ _ p1 (LeafSubNodeTreeEntry.block leaf) p2)
    by (unfold SubNode.find_entry; by rewrite (m_bind_eq _ _ _ _ _ Hf2)).
  destruct (bl_ok (bid_search_key (LeafSubNodeTreeEntry.block leaf)) p2 Hp2) as (p3 & Hf3 & Hp3).
  rewrite He in Hf3. by exists p3.
Qed.

Lemma take_tree_ok (e : E) dt s :
  entry_self e -> DataTree.read f encoding e = Ok dt -> coherent (E := E) f encoding s ->
  exists s', take_tree f encoding e s = Some (Ok dt, s') /\ coherent (E := E) f encoding s'.
Proof.
  destruct s as [pages blocks]. intros He Hdt Hs. unfold take_tree, m_bind at 1. cbn [cache_remove].
  assert (Hd := coherent_delete f encoding _ _ (bid_into_u64 (bref_block (bbe_block e))) Hs).
  destruct (blocks !! bid_into_u64 (bref_block (bbe_block e))) as [t|] eqn:Hl.
  - destruct Hs as [_ Hc]. destruct (Hc _ t Hl) as (e' & He' & Ht). unfold entry_self in He.
    assert (t = dt) as -> by congruence. eexists. by split.
  - eexists. unfold m_lift. rewrite Hdt. by split.
Qed.

(** The block and the tree of a value in a sub-node are found, and the tree
    may be put back into the cache. *)
Lemma node_tree_ok sub_node id bs s :
  node_blocks sub_node id bs -> coherent (E := E) f encoding s ->
  exists e dt s1 s2, looking_up (value_block (E := E) f sub_node id) s = Some (Ok e, s1) /\
    take_tree f encoding e s1 = Some (Ok dt, s2) /\ coherent (E := E) f encoding s2 /\
    level_ok dt /\ tree_blocks (E := E) f encoding dt bs /\
    DataTree.declared_size dt <= MAX_MATERIALIZED_DATA_TREE_BYTES /\
    forall s3, coherent (E := E) f encoding s3 -> exists s4,
      cache_insert (bref_block (bbe_block e)) dt s3 = Some (Ok tt, s4) /\ coherent (E := E) f encoding s4.
Proof.
  intros (b & e0 & st & d & lo & hi & ls & leaf & e & dt & Hb & He0 & Hst & Ho & Hd & Hls & Hleaf & He & Hdt & Hlv & Hbs & Hmax)
    Hs. destruct s as [pages blocks].
  destruct (value_block_ok sub_node id b e0 st d lo hi ls leaf e pages Hb He0 Hst Ho Hd Hls Hleaf He (proj1 Hs))
    as (p1 & Hv & Hp1).
  assert (Hs1 : coherent (E := E) f encoding (p1, blocks)) by (split; [done|apply Hs]).
  assert (Hself : entry_self e) by (unfold entry_self; by rewrite (bl_key _ _ He)).
  destruct (take_tree_ok e dt _ Hself Hdt Hs1) as (s2 & Ht & Hs2).
  exists e, dt, (p1, blocks), s2. split; [unfold looking_up; by rewrite Hv|]. split_and!; try done.
  intros [p3 b3] Hs3. eexists. split; [done|]. by eapply coherent_insert.
Qed.

End nodes.

Section reading.
Set Default Proof Using "All".
Context {E B I S : Type} `{!BlockId B, !ByteIndex I, !BlockBTreeEntry E B I}.
Context `{!BlockTrailerReadWrite B, !BlockTrailerLaws B, !IntermediateTreeHeader (SubNodeTreeBlockHeader B)}.
Context `{!IntermediateTreeEntry B, !IntermediateTreeEntry (IntermediateSubNodeTreeEntry B)}.
Context `{!IntermediateTreeEntry (LeafSubNodeTreeEntry B), !BlockFind E S}.
Context `{!BlockIdLaws B, !BlockFindLaws E B I S}.
Context (f : list Z) (encoding : NdbCryptMethod).
Context (materialized_size : PropertyValue.t -> option Z) (buffer_len : nat -> nat).
Context (Hbuffer : forall n, (0 < buffer_len n)%nat).

(** The bytes stored for a property, out of its record. *)
Definition property_data (self : PropertyContextInner B) (value : PropertyTreeRecordValue) (data : list Z) : Prop :=
  match ptr_value value with
  | Small _ => False
  | InHeap heap_id => HeapId.into_u32 heap_id <> 0 /\
      HeapNodeInner.find_entry (ht_heap (pc_tree self)) heap_id = Ok data
  | InNode id => node_data (E := E) (S := S) f encoding (pc_sub_node self) id data
  end.

Lemma read_all_rounds_data fuel round r data :
  reader_holds f encoding r data -> 0 <= rdr_total_read r -> rdr_expected_size r < 2 ^ 64 ->
  rdr_expected_size r - rdr_total_read r = Z.of_nat (length data) -> (length data < fuel)%nat ->
  read_all_rounds f encoding buffer_len fuel round r = Ok data.
Proof.
  revert round r data. induction fuel as [|fuel IH]; intros round r data Hr H0 Hmax Hd Hf; [lia|].
  cbn [read_all_rounds]. pose proof (Hbuffer round) as Hb.
  destruct (Nat.eq_dec (length data) 0) as [Hnil|Hne].
  - apply length_zero_iff_nil in Hnil as ->. cbn in Hd.
    rewrite (reader_read_end f encoding (buffer_len round) r []) by (done || lia). done.
  - destruct (reader_read_some f encoding (buffer_len round) r data) as (r' & -> & Hr' & He & Ht); [done..|lia|].
    set (n := Nat.min _ _) in *. assert (Hn : (0 < n)%nat) by lia.
    destruct (take n data) as [|b chunk] eqn:Htk.
    { apply (f_equal length) in Htk. rewrite length_take in Htk. cbn in Htk. lia. }
    rewrite (IH _ r' (drop n data)) by (rewrite ?length_drop; (done || lia)). cbn [rbind].
    rewrite <- Htk. by rewrite take_drop.
Qed.

Lemma read_tree_to_end_ok dt bs s :
  level_ok dt -> tree_blocks (E := E) f encoding dt bs ->
  DataTree.declared_size dt <= MAX_MATERIALIZED_DATA_TREE_BYTES -> coherent (E := E) f encoding s ->
  exists s', read_tree_to_end f encoding buffer_len dt s = Some (Ok (blocks_data bs), s') /\
    coherent (E := E) f encoding s'.
Proof.
  intros Hl Hbs Hd Hs. unfold read_tree_to_end.
  destruct (open_reader_holds f encoding dt s bs Hs Hl Hd Hbs) as (r & s' & Ho & Hs' & Hh & H0 & He & Hm).
  rewrite (m_bind_eq _ _ _ _ _ Ho). exists s'. split; [|done]. unfold m_lift.
  rewrite (read_all_rounds_data _ 0 r (blocks_data bs)); [done|done|lia|lia|lia|].
  pose proof (tree_blocks_size f encoding dt bs Hbs). lia.
Qed.

(** A budget that was not exceeded, and sizes of values in memory. *)
Definition budget_ok (budget : option Z) : Prop :=
  match budget with None => True | Some m => 0 <= m <= MAX_PROPERTY_MATERIALIZATION_BYTES end.

Definition spent (n : Z) (budget : option Z) : option Z := option_map (fun m => m + n) budget.

Definition over (budget : option Z) : bool :=
  match budget with None => false | Some m => MAX_PROPERTY_MATERIALIZATION_BYTES <? m end.

(** What a budget makes of a value whose bytes are as many as [reserved]:
    they are charged before it is decoded, and what it takes beyond them
    when it is decoded is charged after that; without a budget the value is
    returned whatever it takes. *)
Definition budgeted (decoded : io_result PropertyValue.t) (reserved : Z) (budget : option Z) :
    io_result PropertyValue.t * option Z :=
  if over (spent reserved budget) then (Err InvalidData_msg, spent reserved budget) else
  match decoded, budget with
  | Ok v, Some _ =>
      match materialized_size v with
      | None => (Err InvalidData_msg, spent reserved budget)
      | Some actual =>
          let total := spent (Z.max reserved actual) budget in
          (if over total then Err InvalidData_msg else Ok v, total)
      end
  | _, _ => (decoded, spent reserved budget)
  end.

Lemma charge_spent n s budget : budget_ok budget -> 0 <= n < 2 ^ 63 ->
  charge (B := B) (S := S) n (s, budget) =
    Some (if over (spent n budget) then Err InvalidData_msg else Ok tt, (s, spent n budget)).
Proof.
  destruct budget as [m|]; [|done]. cbn [budget_ok spent option_map over]. intros Hm Hn.
  unfold charge, PropertyMaterializationBudget.charge, checked_add, MAX_PROPERTY_MATERIALIZATION_BYTES in *.
  rewrite (proj2 (Z.ltb_lt (m + n) (2 ^ 64))) by lia. by case_match.
Qed.

(** The end of [read_property], where the decoded size is charged. *)
Lemma finish_budgeted decoded reserved s budget :
  (forall v n, materialized_size v = Some n -> 0 <= n < 2 ^ 63) ->
  budget_ok (spent reserved budget) -> 0 <= reserved ->
  m_bind (m_lift decoded) (fun decoded => fun '(s, budget) =>
      match budget with
      | None => Some (Ok decoded, (s, None))
      | Some _ =>
          (let! actual := m_lift (ok_or (materialized_size decoded) InvalidData_msg) in
           let! _ := (if reserved <? actual then charge (B := B) (S := S) (actual - reserved) else m_ret tt) in
           m_ret decoded) (s, budget)
      end) (s, spent reserved budget) =
    Some ((budgeted decoded reserved budget).1, (s, (budgeted decoded reserved budget).2)).
Proof.
  intros Hsize Hb Hr. unfold budgeted.
  replace (over (spent reserved budget)) with false
    by (destruct budget as [m|]; [|done]; cbn [over spent option_map budget_ok] in *; symmetry; apply Z.ltb_ge; lia).
  unfold m_bind at 1, m_lift at 1. destruct decoded as [v|e|]; [|done..]. destruct budget as [m|]; [|done].
  cbn [spent option_map]. destruct (materialized_size v) as [actual|] eqn:Ev; [|done]. specialize (Hsize v actual Ev).
  unfold m_bind at 1, m_lift. cbn [ok_or]. destruct (Z.ltb_spec reserved actual) as [Hlt|Hge].
  - unfold m_bind. rewrite (charge_spent (actual - reserved) s (Some (m + reserved)) Hb) by lia.
    rewrite Z.max_r by lia. cbn [spent option_map]. replace (m + reserved + (actual - reserved)) with (m + actual) by lia.
    by destruct (over _).
  - rewrite Z.max_l by lia. cbn [budget_ok spent option_map over] in *. by rewrite (proj2 (Z.ltb_ge _ _)) by lia.
Qed.

(** Reading from a sub-node with any budget. *)
Lemma read_from_node_ok sub_node id t data s budget :
  node_data (E := E) (S := S) f encoding sub_node id data -> coherent (E := E) f encoding s -> budget_ok budget ->
  exists s', read_from_node f encoding buffer_len sub_node id t (s, budget) =
      Some (if over (spent (Z.of_nat (length data)) budget) then Err InvalidData_msg
            else Ok (decode t data, Z.of_nat (length data)), (s', spent (Z.of_nat (length data)) budget)) /\
    Z.of_nat (length data) < 2 ^ 63 /\ coherent (E := E) f encoding s'.
Proof.
  intros (bs & Hnode & ->) Hs Hbud. unfold read_from_node.
  destruct (node_tree_ok f encoding sub_node id bs s Hnode Hs) as (e & dt & s1 & s2 & Hv & Ht & Hs2 & Hlv & Hbs & Hmax & Hins).
  rewrite (m_bind_eq _ _ (s, budget) e (s1, budget)) by (unfold traversing; by rewrite Hv).
  rewrite (m_bind_eq _ _ _ dt (s2, budget)) by (unfold traversing; by rewrite Ht).
  pose proof (tree_blocks_size f encoding dt bs Hbs) as Hn. cbv zeta. pose proof Hmax as Hmax'. rewrite Hn in Hmax' |- *.
  set (n := Z.of_nat (length (blocks_data bs))) in *.
  assert (n < 2 ^ 63) as Hn63 by (unfold MAX_MATERIALIZED_DATA_TREE_BYTES in Hmax'; lia).
  unfold m_bind at 1. rewrite (charge_spent n s2 budget Hbud) by lia.
  destruct (over (spent n budget)); [by exists s2|].
  destruct (read_tree_to_end_ok dt bs s2 Hlv Hbs Hmax Hs2) as (s3 & Hr & Hs3).
  rewrite (m_bind_eq _ _ _ (Ok (blocks_data bs)) (s3, spent n budget)) by (unfold traversing, caught; by rewrite Hr).
  destruct (Hins s3 Hs3) as (s4 & Hi & Hs4).
  rewrite (m_bind_eq _ _ _ tt (s4, spent n budget)) by (unfold traversing; by rewrite Hi).
  rewrite (m_bind_eq _ _ _ (blocks_data bs) (s4, spent n budget)) by done.
  eexists. by split_and!.
Qed.

(** A property whose bytes are stored is read as its budget makes of it. *)
Lemma read_property_data self value data s budget :
  (forall v n, materialized_size v = Some n -> 0 <= n < 2 ^ 63) ->
  property_data self value data -> Z.of_nat (length data) < 2 ^ 63 -> coherent (E := E) f encoding s -> budget_ok budget ->
  let r := budgeted (decode (ptr_prop_type value) data) (Z.of_nat (length data)) budget in
  exists s', read_property f encoding materialized_size buffer_len self value (s, budget) = Some (r.1, (s', r.2)) /\
    coherent (E := E) f encoding s'.
Proof.
  intros Hsize Hd Hl Hs Hb r. unfold property_data in Hd. unfold read_property. cbv zeta.
  assert (if over (spent (Z.of_nat (length data)) budget) then r = (Err InvalidData_msg, spent (Z.of_nat (length data)) budget)
          else budget_ok (spent (Z.of_nat (length data)) budget)) as Hover.
  { unfold r, budgeted. destruct (over _) eqn:Eo; [done|]. destruct budget as [m|]; [|done].
    cbn [over spent option_map budget_ok] in *. apply Z.ltb_ge in Eo. lia. }
  destruct (ptr_value value) as [v|h|id]; [done| |].
  - destruct Hd as [Hne Hf]. rewrite (proj2 (Z.eqb_neq _ _) Hne), Hf. exists s. split; [|done].
    unfold m_bind at 1, m_lift at 1. unfold m_bind at 1. rewrite (charge_spent _ s budget Hb) by lia.
    destruct (over _); [by rewrite Hover|]. apply (finish_budgeted _ _ s budget Hsize Hover). lia.
  - destruct (read_from_node_ok (pc_sub_node self) id (ptr_prop_type value) data s budget Hd Hs Hb) as (s' & Hr & _ & Hs').
    exists s'. split; [|done]. unfold m_bind at 1. rewrite Hr.
    destruct (over _); [by rewrite Hover|]. apply (finish_budgeted _ _ s' budget Hsize Hover). lia.
Qed.
End reading.

(** ** A concrete context *)

(** A sub-node of the id [0x3F] whose value is two code units, in a file of a
    sub-node block and a data block; the heap is empty. *)
Definition sample_sub_node : SubNodeTree UnicodeBlockId :=
  SubNodeTree_Leaf (mk_SubNodeTreeBlock (mk_SubNodeTreeBlockHeader 0 1)
    [LeafSubNodeTreeEntry.new (mk_NodeId 0x3F) (mk_UnicodeBlockId 8) None]
    (mk_BlockTrailer 0 0 0 (mk_UnicodeBlockId 6))).

Definition context_entries : list UnicodeBlockBTreeEntry.t :=
  [sample_entry 6 0 32; sample_entry 8 64 4].

Definition context_file : list Z :=
  match
    (let? w := SubNodeTree.write sample_sub_node (sample_entry 6 0 32) (mk_wfile [] 0) in
     DataTree.write (DataTree.sample_leaf 8 [72; 0; 105; 0]) (sample_entry 8 64 4) w)
  with Ok w => wf_data w | _ => [] end.

Definition context_root : RootBTreePage.t (P := Errors.BlockBTree) (LE := UnicodeBlockBTreeEntry.t)
    (B := UnicodePageId) (I := UnicodeByteIndex) :=
  Leaf (mk_BTreeLeafPage 20 24 context_entries (sample_trailer Errors.BlockBTree 1)).

Definition context_find := btree_find context_file context_root 1.
#[local] Existing Instance context_find.

Definition context_laws : BlockFindLaws UnicodeBlockBTreeEntry.t UnicodeBlockId UnicodeByteIndex _.
Proof.
  refine (btree_find_laws context_file context_root 1 (fun _ => False) 0 0 0x100 context_entries
    _ _ _ unicode_block_key).
  - by intros r1 r2 H.
  - split; [done|]. apply Forall_forall. intros e He.
    unfold context_entries in He. rewrite !elem_of_cons in He.
    destruct He as [-> | [-> | He%elem_of_nil]]; done.
  - lia.
Defined.
#[local] Existing Instance context_laws.

Definition sample_context : PropertyContextInner UnicodeBlockId :=
  mk_PropertyContextInner (Some (mk_UnicodeBlockId 6))
    (mk_HeapTreeInner (mk_HeapNodeInner []) (HeapId.from_u32 0x20)).

Definition sample_value : PropertyTreeRecordValue :=
  mk_PropertyTreeRecordValue PT_Unicode (InNode (mk_NodeId 0x3F)).

Lemma context_coherent : coherent (E := UnicodeBlockBTreeEntry.t) context_file Permute DataTree.sample_state.
Proof.
  split.
  - intros r p _ H. exfalso. exact (lookup_empty_Some (M := gmap Z) _ _ H).
  - intros id t H. exfalso. exact (lookup_empty_Some (M := gmap Z) _ _ H).
Qed.

Lemma context_data :
  property_data (E := UnicodeBlockBTreeEntry.t) context_file Permute sample_context sample_value [72; 0; 105; 0].
Proof.
  assert (exists dt e, DataTree.read context_file Permute (sample_entry 8 64 4) = Ok dt /\
    bl_spec (E := UnicodeBlockBTreeEntry.t) 8 = Ok e /\ e = sample_entry 8 64 4 /\
    exists b, dt = DataTree_Leaf b /\ db_data b = [72; 0; 105; 0]) as (dt & e & Hdt & He & -> & b & -> & Hb).
  { do 2 eexists. split; [vm_compute; reflexivity|]. split; [vm_compute; reflexivity|].
    split; [reflexivity|]. eexists. split; reflexivity. }
  assert (exists t, SubNodeTree.read context_file (sample_entry 6 0 32) = Ok t /\
    exists c, t = SubNodeTree_Leaf c /\
      sn_entries c = [LeafSubNodeTreeEntry.new (mk_NodeId 0x3F) (mk_UnicodeBlockId 8) None]) as (t & Ht & c & -> & Hc).
  { eexists. split; [vm_compute; reflexivity|]. eexists. split; reflexivity. }
  exists [b]. split; [|unfold blocks_data; cbn; by rewrite Hb].
  exists (mk_UnicodeBlockId 6), (sample_entry 6 0 32), (SubNodeTree_Leaf c), 0%nat, 0, 0x100, (sn_entries c),
    (LeafSubNodeTreeEntry.new (mk_NodeId 0x3F) (mk_UnicodeBlockId 8) None), (sample_entry 8 64 4),
    (DataTree_Leaf b).
  split; [reflexivity|]. split; [vm_compute; reflexivity|]. split; [exact Ht|].
  split; [cbn [ordered_tree]; split; [reflexivity|]; rewrite Hc; apply Forall_singleton; by split|].
  split; [discriminate|].
  split.
  { exists [], (Z.of_nat (length (sn_entries c))). rewrite Hc. split_and!; [|constructor|done].
    change (Z.to_nat MAX_SUBNODE_TREE_DEPTH) with 32%nat. cbn. unfold entry_count. by rewrite Hc. }
  split; [by rewrite Hc|]. split; [exact He|]. split; [exact Hdt|]. split; [exact Logic.I|].
  split; [reflexivity|]. cbn. by rewrite Hb.
Qed.

(** ** Properties *)

(** C24: A property is decoded from exactly the bytes stored for it, in an
    allocation of the heap or in the data tree of a sub-node; a small value
    is decoded from its record, or reported when its type has no small
    values, and the heap id 0 stands for no value. Without a budget this is
    the result whatever its size. With a budget ([budgeted]) the stored bytes
    of a value in the heap or in a sub-node are charged before it is decoded,
    and what the decoded value takes beyond them afterwards, so that the
    larger of the two is spent; as soon as that exceeds
    [MAX_PROPERTY_MATERIALIZATION_BYTES] the value is refused, and so is a
    value whose size cannot be computed. The caches stay coherent. *)
Theorem read_property_correct {E B I S : Type} `{!BlockId B, !ByteIndex I, !BlockBTreeEntry E B I}
    `{!BlockTrailerReadWrite B, !BlockTrailerLaws B, !IntermediateTreeHeader (SubNodeTreeBlockHeader B)}
    `{!IntermediateTreeEntry B, !IntermediateTreeEntry (IntermediateSubNodeTreeEntry B)}
    `{!IntermediateTreeEntry (LeafSubNodeTreeEntry B), !BlockFind E S}
    `{!BlockIdLaws B, !BlockFindLaws E B I S}
    (f : list Z) (encoding : NdbCryptMethod) (materialized_size : PropertyValue.t -> option Z)
    (Hsize : forall v n, materialized_size v = Some n -> 0 <= n < 2 ^ 63)
    (buffer_len : nat -> nat) (Hbuffer : forall n, (0 < buffer_len n)%nat)
    (self : PropertyContextInner B) (value : PropertyTreeRecordValue)
    (s : traversal_state (B := B) (S := S)) (Hs : coherent (E := E) f encoding s)
    (budget : option Z) (Hbudget : budget_ok budget) :
  let read := read_property (E := E) f encoding materialized_size buffer_len self value in
  (forall data, property_data (E := E) f encoding self value data -> Z.of_nat (length data) < 2 ^ 63 ->
    let r := budgeted materialized_size (decode (ptr_prop_type value) data) (Z.of_nat (length data)) budget in
    exists s', read (s, budget) = Some (r.1, (s', r.2)) /\ coherent (E := E) f encoding s') /\
  (forall v, ptr_value value = Small v ->
    let r := budgeted materialized_size
      (match PropertyValueRecord.small_value (Small v) (ptr_prop_type value) with
       | Some x => Ok x
       | None => Err (LtpData (InvalidSmallPropertyType (ptr_prop_type value)))
       end) 0 budget in
    read (s, budget) = Some (r.1, (s, r.2))) /\
  (forall h, ptr_value value = InHeap h -> HeapId.into_u32 h = 0 ->
    read (s, budget) = Some (Ok PropertyValue.Null, (s, budget))).
Proof.
  intros read. split_and!.
  - intros data Hd Hl. by apply read_property_data.
  - intros v Hv r. unfold read, read_property. rewrite Hv. cbv zeta.
    assert (spent 0 budget = budget) as E0 by (destruct budget as [m|]; [unfold spent; cbn; by rewrite Z.add_0_r|done]).
    rewrite <- E0 at 1. unfold r.
    rewrite <- (finish_budgeted f encoding materialized_size buffer_len Hbuffer _ 0 s budget Hsize) by (rewrite ?E0; done).
    by destruct (PropertyValueRecord.small_value (Small v) (ptr_prop_type value)).
  - intros h Hv Hz. unfold read, read_property. by rewrite Hv, Hz.
Qed.

(** A value of 4 bytes in a sub-node that takes 40 when it is decoded: it is
    read and 40 bytes are spent, it is refused for its 4 bytes, or for the
    36 others. *)
Lemma read_property_correct_witness :
  let read budget := read_property (E := UnicodeBlockBTreeEntry.t) context_file Permute (fun _ => Some 40) (fun _ => 3%nat)
      sample_context sample_value (DataTree.sample_state, Some budget) in
  let limit := MAX_PROPERTY_MATERIALIZATION_BYTES in
  (exists s', read 0 = Some (Ok (PropertyValue.Unicode [72; 105]), (s', Some 40))) /\
  (exists s', read (limit - 3) = Some (Err InvalidData_msg, (s', Some (limit + 1)))) /\
  (exists s', read (limit - 39) = Some (Err InvalidData_msg, (s', Some (limit + 1)))).
Proof.
  assert (forall v n, (fun _ : PropertyValue.t => Some 40) v = Some n -> 0 <= n < 2 ^ 63) as Hsize
    by (intros v n Hn; injection Hn as <-; lia).
  assert (forall m, 0 <= m <= MAX_PROPERTY_MATERIALIZATION_BYTES ->
    let r := budgeted (fun _ => Some 40) (decode (ptr_prop_type sample_value) [72; 0; 105; 0]) 4 (Some m) in
    exists s', read_property (E := UnicodeBlockBTreeEntry.t) context_file Permute (fun _ => Some 40) (fun _ => 3%nat)
      sample_context sample_value (DataTree.sample_state, Some m) = Some (r.1, (s', r.2))) as H.
  { intros m Hm r.
    destruct (read_property_correct (E := UnicodeBlockBTreeEntry.t) context_file Permute (fun _ => Some 40) Hsize
      (fun _ => 3%nat) (fun _ => Nat.lt_0_succ 2) sample_context sample_value DataTree.sample_state context_coherent (Some m) Hm)
      as (H & _). destruct (H _ context_data) as (s' & Hr & _); [reflexivity|]. exists s'. exact Hr. }
  intros read limit. split; [|split]; apply H; (split; [discriminate|discriminate]).
Defined.

(** A property context whose tree has the records [es] in its leaves, no
    id twice, maps exactly their ids to their values. *)
Theorem properties_correct {B : Type} (self : PropertyContextInner B) (levels : Z) (root : HeapId)
  (es : list PropertyTreeRecord)
  (Hheader : HeapTreeInner.header (pc_tree self) = Ok (mk_HeapTreeHeader 2 6 levels root))
  (Hroot : HeapId.into_u32 root <> 0)
  (Htree : bth_level (pc_tree self) (Z.to_nat levels) [root] es)
  (Hes : Forall (fun e => uint 16 (htl_key e) /\ record_wf (htl_data e)) es)
  (Hids : NoDup (map htl_key es)) :
  exists m, properties self = Ok m /\
    forall id v, m !! id = Some v <-> mk_HeapTreeLeafEntry id v ∈ es.
Proof.
  exists (collect_map es). split; [|intros; by apply collect_map_lookup].
  unfold properties. erewrite (entries_bth property_key_empty); [done|apply Nat.lt_0_succ|exact Hheader|exact Hroot|exact Htree|exact Hes].
Qed.

(** A heap of one page with a property context of two small properties. *)
Definition sample_records : list PropertyTreeRecord :=
  [mk_HeapTreeLeafEntry 0x0E07 (mk_PropertyTreeRecordValue PT_Integer32 (Small 9));
   mk_HeapTreeLeafEntry 0x0E1B (mk_PropertyTreeRecordValue PT_Boolean (Small 1))].
Definition records_page : list Z :=
  HeapNodeHeader.write (mk_HeapNodeHeader 36 HN_Properties (HeapId.from_u32 0x20) (replicate 8 FillEmpty)) ++
  HeapTreeHeader.write (mk_HeapTreeHeader 2 6 0 (HeapId.from_u32 0x40)) ++
  concat (map HeapTreeLeafEntry.write sample_records) ++ page_map_bytes 0 [12; 20; 36].
Definition records_context : PropertyContextInner UnicodeBlockId :=
  mk_PropertyContextInner None (mk_HeapTreeInner
    (mk_HeapNodeInner [mk_DataBlock Crypt_None records_page (mk_BlockTrailer 0 0 0 (mk_UnicodeBlockId 4))])
    (HeapId.from_u32 0x20)).

Lemma properties_correct_witness :
  exists m, properties records_context = Ok m /\
    forall id v, m !! id = Some v <-> mk_HeapTreeLeafEntry id v ∈ sample_records.
Proof.
  apply (properties_correct records_context 0 (HeapId.from_u32 0x40) sample_records).
  - vm_compute. reflexivity.
  - discriminate.
  - exists [sample_records]. split; [reflexivity|]. constructor; [vm_compute; reflexivity|constructor].
  - repeat constructor; done.
  - apply (bool_decide_unpack _). by vm_compute.
Defined.
