(* ===== verification/TableContext.v ===== *)
(** * Table contexts

    [ltp/table_context.rs]: the description of a table with its columns, the
    rows of its matrix, the index from row ids to rows and the reading of the
    value of a column, from its row, from the heap or from a sub-node. Shown:
    descriptions and rows round trip, the matrix is cut into its rows, a row
    is found by its id exactly when the index and the matrix agree on it, and
    a value is decoded from the bytes stored for it. *)
From S2P Require Import Prelude Errors Io Ids Page BTree Block Lookup DataTree SubNode Heap HeapTree PropValue PropContext.
#[local] Open Scope Z_scope.

Definition LTP_ROW_ID_PROP_ID : Z := 0x67F2.
Definition LTP_ROW_VERSION_PROP_ID : Z := 0x67F3.

(** ** The existence bitmap *)

Definition existence_bitmap_size (column_count : Z) : Z :=
  column_count / 8 + (if column_count mod 8 =? 0 then 0 else 1).

Definition check_existence_bitmap (column : Z) (existence_bitmap : list Z) : LtpResult bool :=
  if Z.of_nat (length existence_bitmap) * 8 <=? column then Err (InvalidTableContextColumnCount column) else
  let? byte := index existence_bitmap (column / 8) in
  Ok (negb (Z.land byte (Z.shiftl 1 (7 - column mod 8)) =? 0)).

(** ** Columns *)

Record TableColumnDescriptor := mk_TableColumnDescriptor {
  tcd_prop_type : PropertyType;
  tcd_prop_id : Z;
  tcd_offset : Z;
  tcd_size : Z;
  tcd_existence_bitmap_index : Z
}.

Module TableColumnDescriptor.

Definition read : reader TableColumnDescriptor :=
  prop_type <- read_u16;;
  prop_type <- rd_lift (ltp (PropertyType.try_from prop_type));;
  prop_id <- read_u16;;
  offset <- read_u16;;
  size <- read_u8;;
  existence_bitmap_index <- read_u8;;
  rd_ret (mk_TableColumnDescriptor prop_type prop_id offset size existence_bitmap_index).

Definition write (c : TableColumnDescriptor) : list Z :=
  write_u16 (PropertyType.into_u16 (tcd_prop_type c)) ++ write_u16 (tcd_prop_id c) ++
  write_u16 (tcd_offset c) ++ write_u8 (tcd_size c) ++ write_u8 (tcd_existence_bitmap_index c).

End TableColumnDescriptor.

#[export] Instance TableColumnDescriptor_serial : Serial TableColumnDescriptor := {|
  ser_read := TableColumnDescriptor.read;
  ser_write := TableColumnDescriptor.write;
  ser_wf c := uint 16 (tcd_prop_id c) /\ uint 16 (tcd_offset c) /\ uint 8 (tcd_size c) /\
    uint 8 (tcd_existence_bitmap_index c);
  ser_size := 8
|}.

(** ** The description of a table *)

Record TableContextInfo := mk_TableContextInfo {
  tci_end_4byte_values : Z;
  tci_end_2byte_values : Z;
  tci_end_1byte_values : Z;
  tci_end_existence_bitmap : Z;
  tci_row_index : HeapId;
  tci_rows : option NodeId;
  tci_deprecated_index : Z;
  tci_columns : list TableColumnDescriptor
}.

(** The types whose values take 8 bytes of a row, and those that take 4,
    either a small value or the id of where the value is. *)
Definition column_8byte (t : PropertyType) : bool :=
  match t with
  | PT_Floating64 | PT_Currency | PT_FloatingTime | PT_Integer64 | PT_Time => true
  | _ => false
  end.

Definition column_4byte (t : PropertyType) : bool :=
  match t with
  | PT_Null | PT_Integer16 | PT_Boolean => false
  | t => negb (column_8byte t)
  end.

Module TableContextInfo.

(** The row id is at 0 with bit 0, the row version at 4 with bit 1. *)
Definition check_reserved (column : TableColumnDescriptor) : LtpResult unit :=
  let err := InvalidTableContextRowIdColumn (tcd_prop_id column) (tcd_prop_type column) in
  match tcd_prop_type column with
  | PT_Integer32 =>
      if tcd_prop_id column =? LTP_ROW_ID_PROP_ID
      then ensure ((tcd_offset column =? 0) && (tcd_existence_bitmap_index column =? 0)) err
      else if tcd_prop_id column =? LTP_ROW_VERSION_PROP_ID
      then ensure ((tcd_offset column =? 4) && (tcd_existence_bitmap_index column =? 1)) err
      else Ok tt
  | _ => Ok tt
  end.

(** The offset of a column is aligned and within the values of its width; the
    sums are those of a [u16]. *)
Definition offset_ok (end_4byte end_2byte end_1byte : Z) (column : TableColumnDescriptor) : bool :=
  let offset := tcd_offset column in
  match tcd_prop_type column with
  | PT_Boolean => (end_2byte <=? offset) && (offset <? end_1byte)
  | PT_Integer16 => (offset mod 2 =? 0) && (end_4byte <=? offset) && (wrapping_add 16 offset 2 <=? end_2byte)
  | t =>
      if column_4byte t then (offset mod 4 =? 0) && (wrapping_add 16 offset 4 <=? end_4byte)
      else column_8byte t && ((offset mod 4 =? 0) && (wrapping_add 16 offset 8 <=? end_4byte))
  end.

Definition size_ok (column : TableColumnDescriptor) : bool :=
  match tcd_prop_type column with
  | PT_Boolean => tcd_size column =? 1
  | PT_Integer16 => tcd_size column =? 2
  | t => if column_4byte t then tcd_size column =? 4 else column_8byte t && (tcd_size column =? 8)
  end.

Definition check_column (end_4byte end_2byte end_1byte count : Z) (column : TableColumnDescriptor) : LtpResult unit :=
  let? _ := check_reserved column in
  let? _ := ensure (negb (bool_decide (tcd_prop_type column = PT_Null)))
    (InvalidTableColumnPropertyType (tcd_prop_type column)) in
  let? _ := ensure (offset_ok end_4byte end_2byte end_1byte column) (InvalidTableColumnOffset (tcd_offset column)) in
  let? _ := ensure (size_ok column) (InvalidTableColumnSize (tcd_size column)) in
  ensure (tcd_existence_bitmap_index column <=? count)
    (InvalidTableColumnBitmaskOffset (tcd_existence_bitmap_index column)).

Definition new (end_4byte end_2byte end_1byte end_bitmap : Z) (row_index : HeapId) (rows : option NodeId)
    (columns : list TableColumnDescriptor) : LtpResult TableContextInfo :=
  let count := Z.of_nat (length columns) in
  if 0xFF <? count then Err (InvalidTableContextColumnCount count) else
  if negb (end_4byte mod 4 =? 0) then Err (InvalidTableContext4ByteOffset end_4byte) else
  if negb (end_2byte mod 2 =? 0) || (end_2byte <? end_4byte) then Err (InvalidTableContext2ByteOffset end_2byte) else
  if end_1byte <? end_2byte then Err (InvalidTableContext1ByteOffset end_1byte) else
  if (end_bitmap <? end_1byte) || negb (end_bitmap - end_1byte =? existence_bitmap_size count)
  then Err (InvalidTableContextBitmaskOffset end_bitmap) else
  let? _ := rmapM (check_column end_4byte end_2byte end_1byte count) columns in
  Ok (mk_TableContextInfo end_4byte end_2byte end_1byte end_bitmap row_index rows 0 columns).

Definition read : reader TableContextInfo :=
  signature <- read_u8;;
  signature <- rd_lift (ltp (HeapNodeType_try_from signature));;
  rd_lift (ltp (ensure (HeapNodeType_as_u8 signature =? HeapNodeType_as_u8 HN_Table)
    (InvalidTableContextHeapTreeNodeType signature)));;;
  column_count <- read_u8;;
  end_4byte <- read_u16;;
  end_2byte <- read_u16;;
  end_1byte <- read_u16;;
  end_bitmap <- read_u16;;
  row_index <- HeapId.read;;
  rows <- NodeId.read;;
  deprecated_index <- read_u32;;
  columns <- rd_repeat (Z.to_nat column_count) TableColumnDescriptor.read;;
  rd_lift (
    let rows := if node_id_0 rows =? 0 then None else Some rows in
    let? info := ltp (new end_4byte end_2byte end_1byte end_bitmap row_index rows columns) in
    Ok (mk_TableContextInfo (tci_end_4byte_values info) (tci_end_2byte_values info) (tci_end_1byte_values info)
          (tci_end_existence_bitmap info) (tci_row_index info) (tci_rows info) deprecated_index (tci_columns info))).

Definition write (t : TableContextInfo) : io_result (list Z) :=
  let count := Z.of_nat (length (tci_columns t)) in
  if 0xFF <? count then Err (LtpData (InvalidTableContextColumnCount count)) else
  Ok (write_u8 (HeapNodeType_as_u8 HN_Table) ++ write_u8 (wrap 8 count) ++
      write_u16 (tci_end_4byte_values t) ++ write_u16 (tci_end_2byte_values t) ++
      write_u16 (tci_end_1byte_values t) ++ write_u16 (tci_end_existence_bitmap t) ++
      HeapId.write (tci_row_index t) ++ NodeId.write (from_option id (mk_NodeId 0) (tci_rows t)) ++
      write_u32 (tci_deprecated_index t) ++ concat (map TableColumnDescriptor.write (tci_columns t))).

End TableContextInfo.

(** ** Row ids and the index of the rows *)

Record TableRowId := mk_TableRowId { row_id : Z }.

#[export] Instance TableRowId_entry : HeapTreeEntry TableRowId := {|
  hte_serial := {|
    ser_read := id <- read_u32;; rd_ret (mk_TableRowId id);
    ser_write i := write_u32 (row_id i);
    ser_wf i := uint 32 (row_id i);
    ser_size := 4 |};
  hte_SIZE := 4
|}.

Record UnicodeTableRowIndex := mk_UnicodeTableRowIndex { unicode_row_index : Z }.
Record AnsiTableRowIndex := mk_AnsiTableRowIndex { ansi_row_index : Z }.

#[export] Instance UnicodeTableRowIndex_entry : HeapTreeEntry UnicodeTableRowIndex := {|
  hte_serial := {|
    ser_read := index <- read_u32;; rd_ret (mk_UnicodeTableRowIndex index);
    ser_write i := write_u32 (unicode_row_index i);
    ser_wf i := uint 32 (unicode_row_index i);
    ser_size := 4 |};
  hte_SIZE := 4
|}.

#[export] Instance AnsiTableRowIndex_entry : HeapTreeEntry AnsiTableRowIndex := {|
  hte_serial := {|
    ser_read := index <- read_u16;; rd_ret (mk_AnsiTableRowIndex index);
    ser_write i := write_u16 (ansi_row_index i);
    ser_wf i := uint 16 (ansi_row_index i);
    ser_size := 2 |};
  hte_SIZE := 2
|}.

(** [TableRowIndex]: the index of a row in either format, as a [u32]. *)
Class TableRowIndex (V : Type) := {
  tri_entry :: HeapTreeEntry V;
  tri_into_u32 : V -> Z
}.

#[export] Instance Unicode_row_index : TableRowIndex UnicodeTableRowIndex := {| tri_into_u32 := unicode_row_index |}.
#[export] Instance Ansi_row_index : TableRowIndex AnsiTableRowIndex := {| tri_into_u32 := ansi_row_index |}.

(** ** Rows *)

Inductive TableRowColumnValue :=
| ColumnSmall (value : PropertyValue.t)
| ColumnHeap (heap_id : HeapId)
| ColumnNode (node_id : NodeId).

Record TableRowData := mk_TableRowData {
  trd_id : TableRowId;
  trd_unique : Z;
  trd_align_4byte : list Z;
  trd_align_2byte : list Z;
  trd_align_1byte : list Z;
  trd_existence_bitmap : list Z
}.

Module TableRowData.

(** The values of 8 bytes and of 4 bytes share [align_4byte], which starts at
    offset 8 of the row. *)
Definition read_wide_offset (width : Z) (self : TableRowData) (offset : Z) : LtpResult (list Z) :=
  if offset <? 8 then Err (InvalidTableColumnOffset offset) else
  let offset_4byte := offset - 8 in
  if Z.of_nat (length (trd_align_4byte self)) <? offset_4byte + width
  then Err (InvalidTableColumnOffset offset) else
  slice (trd_align_4byte self) offset_4byte (offset_4byte + width).

Definition read_4byte_offset := read_wide_offset 4.
Definition read_8byte_offset := read_wide_offset 8.

Definition read_2byte_offset (self : TableRowData) (context : TableContextInfo) (offset : Z) : LtpResult (list Z) :=
  if offset <? tci_end_4byte_values context then Err (InvalidTableColumnOffset offset) else
  let offset_2byte := offset - tci_end_4byte_values context in
  if Z.of_nat (length (trd_align_2byte self)) <? offset_2byte + 2 then Err (InvalidTableColumnOffset offset) else
  slice (trd_align_2byte self) offset_2byte (offset_2byte + 2).

Definition read_1byte_offset (self : TableRowData) (context : TableContextInfo) (offset : Z) : LtpResult Z :=
  if offset <? tci_end_2byte_values context then Err (InvalidTableColumnOffset offset) else
  let offset_1byte := offset - tci_end_2byte_values context in
  if Z.of_nat (length (trd_align_1byte self)) <=? offset_1byte then Err (InvalidTableColumnOffset offset) else
  index (trd_align_1byte self) offset_1byte.

(** A read from the bytes of a value. *)
Definition small {A} (bytes : LtpResult (list Z)) (m : reader A) (value : A -> PropertyValue.t) :
    io_result (option TableRowColumnValue) :=
  let? cursor := ltp bytes in
  let? '(v, _) := m cursor in
  Ok (Some (ColumnSmall (value v))).

Definition heap_or_node (self : TableRowData) (offset : Z) : io_result (option TableRowColumnValue) :=
  let? cursor := ltp (read_4byte_offset self offset) in
  let? '(value, _) := read_u32 cursor in
  let node_id := mk_NodeId value in
  Ok (Some (match NodeId.id_type node_id with
            | Ok HeapNode => ColumnHeap (HeapId.from_u32 (node_id_0 node_id))
            | _ => ColumnNode node_id
            end)).

Definition boolean (value : Z) : io_result (option TableRowColumnValue) :=
  if value =? 0 then Ok (Some (ColumnSmall (PropertyValue.Boolean false))) else
  if value =? 1 then Ok (Some (ColumnSmall (PropertyValue.Boolean true)))
  else Err (LtpData (InvalidTableColumnBooleanValue value)).

(** The match on the type, the offset and the size of a column that exists. *)
Definition column_value (self : TableRowData) (context : TableContextInfo) (column : TableColumnDescriptor) :
    io_result (option TableRowColumnValue) :=
  let offset := tcd_offset column in
  let size := tcd_size column in
  let invalid := Err (LtpData (InvalidTableColumnSize size)) in
  match tcd_prop_type column with
  | PT_Null => if size =? 0 then Ok None else invalid
  | PT_Integer16 =>
      if size =? 2 then small (read_2byte_offset self context offset) read_i16 PropertyValue.Integer16 else invalid
  | PT_Integer32 =>
      if negb (size =? 4) then invalid else
      if offset =? 0 then Ok (Some (ColumnSmall (PropertyValue.Integer32 (signed 32 (row_id (trd_id self)))))) else
      if offset =? 4 then Ok (Some (ColumnSmall (PropertyValue.Integer32 (signed 32 (trd_unique self)))))
      else small (read_4byte_offset self offset) read_i32 PropertyValue.Integer32
  | PT_Floating32 =>
      if size =? 4 then small (read_4byte_offset self offset) read_u32 PropertyValue.Floating32 else invalid
  | PT_Floating64 =>
      if size =? 8 then small (read_8byte_offset self offset) read_u64 PropertyValue.Floating64 else invalid
  | PT_Currency =>
      if size =? 8 then small (read_8byte_offset self offset) read_i64 PropertyValue.Currency else invalid
  | PT_FloatingTime =>
      if size =? 8 then small (read_8byte_offset self offset) read_u64 PropertyValue.FloatingTime else invalid
  | PT_ErrorCode =>
      if size =? 4 then small (read_4byte_offset self offset) read_i32 PropertyValue.ErrorCode else invalid
  | PT_Boolean =>
      if negb (size =? 1) then invalid else
      let? value := ltp (read_1byte_offset self context offset) in boolean value
  | PT_Integer64 =>
      if size =? 8 then small (read_8byte_offset self offset) read_i64 PropertyValue.Integer64 else invalid
  | PT_Time =>
      if size =? 8 then small (read_8byte_offset self offset) read_i64 PropertyValue.Time else invalid
  | _ => if size =? 4 then heap_or_node self offset else invalid
  end.

Definition column (self : TableRowData) (context : TableContextInfo) (column : TableColumnDescriptor) :
    io_result (option TableRowColumnValue) :=
  let? exists_ := ltp (check_existence_bitmap (tcd_existence_bitmap_index column) (trd_existence_bitmap self)) in
  if negb exists_ then Ok None else column_value self context column.

Definition columns (self : TableRowData) (context : TableContextInfo) :
    io_result (list (option TableRowColumnValue)) :=
  rmapM (column self context) (tci_columns context).

(** [vec![0; n]] with a size that underflowed is more than the address space
    holds. *)
Definition read (context : TableContextInfo) : reader TableRowData :=
  id <- read_u32;;
  unique <- read_u32;;
  n4 <- rd_lift (if tci_end_4byte_values context <? 8 then Panic else Ok (tci_end_4byte_values context - 8));;
  align_4byte <- read_exact (Z.to_nat n4);;
  align_2byte <- read_exact (Z.to_nat (tci_end_2byte_values context - tci_end_4byte_values context));;
  align_1byte <- read_exact (Z.to_nat (tci_end_1byte_values context - tci_end_2byte_values context));;
  existence_bitmap <- read_exact (Z.to_nat (existence_bitmap_size (Z.of_nat (length (tci_columns context)))));;
  rd_ret (mk_TableRowData (mk_TableRowId id) unique align_4byte align_2byte align_1byte existence_bitmap).

Definition write (self : TableRowData) : list Z :=
  write_u32 (row_id (trd_id self)) ++ write_u32 (trd_unique self) ++ trd_align_4byte self ++
  trd_align_2byte self ++ trd_align_1byte self ++ trd_existence_bitmap self.

End TableRowData.

(** ** The matrix of the rows *)

Definition read_row_matrix (context : TableContextInfo) (byte_len : Z) : reader (list TableRowData) :=
  let row_size := tci_end_existence_bitmap context in
  if (row_size =? 0) || negb (byte_len mod row_size =? 0)
  then rd_lift (Err (LtpData (InvalidTableRowMatrixSize byte_len row_size)))
  else rd_repeat (Z.to_nat (byte_len / row_size)) (TableRowData.read context).

(** What is left of a block after its last whole row is padding. *)
Definition read_row_matrix_block (context : TableContextInfo) (data : list Z) : io_result (list TableRowData) :=
  let row_size := tci_end_existence_bitmap context in
  let size := Z.of_nat (length data) in
  if row_size =? 0 then Err (LtpData (InvalidTableRowMatrixSize size row_size)) else
  let row_bytes := size - size mod row_size in
  let? '(rows, _) := read_row_matrix context row_bytes (take (Z.to_nat row_bytes) data) in
  Ok rows.

Definition indexed_row (rows : list TableRowData) (id : TableRowId) (index : Z) : LtpResult TableRowData :=
  match rows !! Z.to_nat index with
  | None => Err (InvalidTableRowIndex (row_id id) index (Z.of_nat (length rows)))
  | Some row =>
      if row_id (trd_id row) =? row_id id then Ok row
      else Err (TableRowIdMismatch (row_id id) (row_id (trd_id row)))
  end.

(** ** Table contexts *)

(** [TableContextInner]: of the node entry only the sub-node is used; the
    block cache is part of the state that [read_column] threads. *)
Record TableContextInner (B V : Type) := mk_TableContextInner {
  tc_sub_node : option B;
  tc_context : TableContextInfo;
  tc_heap : HeapNodeInner B;
  tc_row_index : gmap Z V;
  tc_rows : list TableRowData
}.
Arguments mk_TableContextInner {B V}.
Arguments tc_sub_node {B V}.
Arguments tc_context {B V}.
Arguments tc_heap {B V}.
Arguments tc_row_index {B V}.
Arguments tc_rows {B V}.

(** [collect] into a [BTreeMap]. *)
Definition collect_rows {V} (es : list (HeapTreeLeafEntry TableRowId V)) : gmap Z V :=
  foldl (fun m e => <[row_id (htl_key e) := htl_data e]> m) ∅ es.

Definition find_row {B V} `{!TableRowIndex V} (self : TableContextInner B V) (id : TableRowId) : LtpResult TableRowData :=
  let? index := ok_or (tc_row_index self !! row_id id) (TableRowIdNotFound (row_id id)) in
  indexed_row (tc_rows self) id (tri_into_u32 index).

Section read.
Context {E B I S V : Type} `{!BlockId B, !ByteIndex I, !BlockBTreeEntry E B I}.
Context `{!BlockTrailerReadWrite B, !IntermediateTreeHeader (SubNodeTreeBlockHeader B)}.
Context `{!IntermediateTreeEntry B, !IntermediateTreeEntry (IntermediateSubNodeTreeEntry B)}.
Context `{!IntermediateTreeEntry (LeafSubNodeTreeEntry B), !BlockFind E S}.
Context `{!TableRowIndex V}.
Context (f : list Z) (encoding : NdbCryptMethod).

(** The rows of a matrix in the heap or in a sub-node; the data tree goes
    back to the cache whether its blocks can be read or not. *)
Definition read_rows (sub_node : option B) (heap : HeapNodeInner B) (context : TableContextInfo) :
    M (traversal_state (B := B) (S := S)) (list TableRowData) :=
  match tci_rows context with
  | None => m_ret []
  | Some rows =>
      match NodeId.id_type rows with
      | Ok HeapNode =>
          m_lift (let? data := HeapNodeInner.find_entry heap (HeapId.from_u32 (node_id_0 rows)) in
                  let? '(rows, _) := read_row_matrix context (Z.of_nat (length data)) data in
                  Ok rows)
      | _ =>
          let! block := looking_up (value_block (E := E) f sub_node rows) in
          let! data_tree := take_tree f encoding block in
          let! result := caught (let! bs := blocks (E := E) f encoding data_tree in
                                 m_lift (let? rows := rmapM (fun block => read_row_matrix_block context (db_data block)) bs in
                                         Ok (concat rows))) in
          let! _ := cache_insert (bref_block (bbe_block block)) data_tree in
          m_lift result
      end
  end.

(** The description is the user root of the heap. *)
Definition read_info (heap : HeapNodeInner B) : io_result TableContextInfo :=
  let? header := HeapNodeInner.header heap in
  let? data := HeapNodeInner.find_entry heap (hnh_user_root header) in
  let? '(context, _) := TableContextInfo.read data in
  Ok context.

(** [read]: the heap, the description, the rows and their index. The block
    cache starts empty and is kept in the context. *)
Definition read (sub_node : option B) (key : Z) (page_cache : S) :
    option (io_result (TableContextInner B V) * traversal_state (B := B) (S := S)) :=
  (let! heap := looking_up (HeapNodeInner.read (E := E) f encoding key) in
   let! context := m_lift (read_info heap) in
   let! rows := read_rows sub_node heap context in
   let! entries := m_lift (HeapTreeInner.entries (mk_HeapTreeInner heap (tci_row_index context))) in
   m_ret (mk_TableContextInner sub_node context heap (collect_rows entries) rows)) (page_cache, ∅).

Definition is_panic {X} (r : io_result X) : bool := match r with Panic => true | _ => false end.

(** The bytes that a reader delivers and how they end: a value is decoded
    while it is delivered. *)
Fixpoint stream_bytes (fuel : nat) (r : DataTreeReader (E := E)) : list Z * io_result unit :=
  match fuel with
  | O => ([], Panic)
  | Datatypes.S fuel =>
      match reader_read f encoding 1 r with
      | (Ok [], _) => ([], Ok tt)
      | (Ok chunk, r) => let '(bytes, ending) := stream_bytes fuel r in (chunk ++ bytes, ending)
      | (Err e, _) => ([], Err e)
      | (Panic, _) => ([], Panic)
      end
  end.

(** Decoding from a stream that ends with an error or a panic: the loop over
    the units of a string stops at an error as at the end, a value of fixed
    size does not see it when its bytes were delivered, every other value
    reads up to it unless what was delivered is malformed. *)
Definition decode_stream (prop_type : PropertyType) (bytes : list Z) (ending : io_result unit) :
    io_result PropertyValue.t :=
  let stop := match ending with Err e => Err e | _ => Panic end in
  match ending with
  | Ok _ => decode prop_type bytes
  | _ =>
      match prop_type, decode prop_type bytes with
      | PT_Unicode, r => if is_panic ending then Panic else r
      | _, Err UnexpectedEof => stop
      | (PT_Floating64 | PT_Currency | PT_FloatingTime | PT_Integer64 | PT_Time | PT_Guid | PT_Object), r => r
      | _, Ok _ => stop
      | _, r => r
      end
  end.

Definition read_column (self : TableContextInner B V) (value : TableRowColumnValue) (prop_type : PropertyType) :
    M (traversal_state (B := B) (S := S)) PropertyValue.t :=
  match value with
  | ColumnSmall small => m_ret small
  | ColumnHeap heap_id =>
      m_lift (let? data := HeapNodeInner.find_entry (tc_heap self) heap_id in decode prop_type data)
  | ColumnNode sub_node_id =>
      let! block := looking_up (value_block (E := E) f (tc_sub_node self) sub_node_id) in
      let! data_tree := take_tree f encoding block in
      let! result := caught (
        let! r := open_reader f encoding data_tree in
        let '(bytes, ending) := stream_bytes (Datatypes.S (Z.to_nat (DataTree.declared_size data_tree))) r in
        m_lift (decode_stream prop_type bytes ending)) in
      let! _ := cache_insert (bref_block (bbe_block block)) data_tree in
      m_lift result
  end.
End read.

(** ** Round trips *)

#[export] Instance TableColumnDescriptor_rt : RoundTrip TableColumnDescriptor.
Proof.
  split; cbn.
  - intros [t i o n b] s (Hi & Ho & Hn & Hb). cbn in Hi, Ho, Hn, Hb.
    unfold TableColumnDescriptor.read, TableColumnDescriptor.write.
    cbn [tcd_prop_type tcd_prop_id tcd_offset tcd_size tcd_existence_bitmap_index].
    pose proof (PropertyType_uint t). rd_run. unfold rd_bind at 1. unfold rd_lift at 1.
    rewrite PropertyType_round. cbn [ltp rmap_err rbind]. by rd_run.
  - intros [t i o n b]. done.
  - intros [t i o n b]. unfold TableColumnDescriptor.write. bytes_tac.
Qed.

#[export] Instance TableRowId_rt : RoundTrip TableRowId.
Proof.
  split; cbn.
  - intros [i] s Hi. cbn in Hi. cbn [row_id]. by rd_run.
  - done.
  - intros [i]. apply le_bytes_ok.
Qed.

#[export] Instance UnicodeTableRowIndex_rt : RoundTrip UnicodeTableRowIndex.
Proof.
  split; cbn.
  - intros [i] s Hi. cbn in Hi. cbn [unicode_row_index]. by rd_run.
  - done.
  - intros [i]. apply le_bytes_ok.
Qed.

#[export] Instance AnsiTableRowIndex_rt : RoundTrip AnsiTableRowIndex.
Proof.
  split; cbn.
  - intros [i] s Hi. cbn in Hi. cbn [ansi_row_index]. by rd_run.
  - done.
  - intros [i]. apply le_bytes_ok.
Qed.

Lemma row_id_empty : exists e, ser_read (A := TableRowId) [] = Err e.
Proof. by eexists. Qed.

(** What [new] ensures. *)
Record info_laid_out (t : TableContextInfo) : Prop := mk_info_laid_out {
  lo_count : Z.of_nat (length (tci_columns t)) <= 0xFF;
  lo_4 : tci_end_4byte_values t mod 4 = 0;
  lo_2 : tci_end_2byte_values t mod 2 = 0 /\ tci_end_4byte_values t <= tci_end_2byte_values t;
  lo_1 : tci_end_2byte_values t <= tci_end_1byte_values t;
  lo_bitmap : tci_end_existence_bitmap t =
    tci_end_1byte_values t + existence_bitmap_size (Z.of_nat (length (tci_columns t)));
  lo_columns : Forall (fun c => TableContextInfo.check_column (tci_end_4byte_values t) (tci_end_2byte_values t)
    (tci_end_1byte_values t) (Z.of_nat (length (tci_columns t))) c = Ok tt) (tci_columns t)
}.

Lemma rmapM_unit {E A} (g : A -> res E unit) l :
  (exists us, rmapM g l = Ok us) <-> Forall (fun a => g a = Ok tt) l.
Proof.
  induction l as [|a l IH]; cbn [rmapM]; [split; [constructor|by exists []]|].
  rewrite Forall_cons. split.
  - intros [us H]. destruct (g a) as [[]|e|]; [|done..]. cbn [rbind] in H. split; [done|]. apply IH.
    destruct (rmapM g l) as [vs|e|]; [by exists vs|done..].
  - intros [-> H]. apply IH in H as [us ->]. by eexists.
Qed.

Lemma bitmap_size_nonneg n : 0 <= existence_bitmap_size (Z.of_nat n).
Proof. unfold existence_bitmap_size. pose proof (Z.div_pos (Z.of_nat n) 8 ltac:(lia) ltac:(lia)). destruct (_ =? 0); lia. Qed.

Lemma info_new_ok e4 e2 e1 eb index rows columns t :
  TableContextInfo.new e4 e2 e1 eb index rows columns = Ok t <->
  t = mk_TableContextInfo e4 e2 e1 eb index rows 0 columns /\ info_laid_out t.
Proof.
  unfold TableContextInfo.new. cbv zeta. split.
  - intros H. repeat res_step. zb. apply ok_inj in H as <-. split; [done|].
    assert (Hc := proj1 (rmapM_unit _ _) (ex_intro _ _ E4)). by split; cbn; try lia.
  - intros [-> [Hc H4 [H2 H42] H1 Hb Hcols]]. cbn [tci_columns tci_end_4byte_values tci_end_2byte_values tci_end_1byte_values tci_end_existence_bitmap] in *.
    pose proof (bitmap_size_nonneg (length columns)).
    rewrite (proj2 (Z.ltb_ge _ _)), H4, H2, (proj2 (Z.ltb_ge e2 _)), (proj2 (Z.ltb_ge e1 _)), (proj2 (Z.ltb_ge eb _)) by lia.
    cbn [Z.eqb negb orb]. rewrite (proj2 (Z.eqb_eq _ _)) by lia. cbn [negb].
    destruct (proj2 (rmapM_unit _ _) Hcols) as [us ->]. done.
Qed.

Definition info_wf (t : TableContextInfo) : Prop :=
  uint 16 (tci_end_4byte_values t) /\ uint 16 (tci_end_2byte_values t) /\ uint 16 (tci_end_1byte_values t) /\
  uint 16 (tci_end_existence_bitmap t) /\ ser_wf (tci_row_index t) /\
  (forall n, tci_rows t = Some n -> uint 32 (node_id_0 n) /\ node_id_0 n <> 0) /\
  uint 32 (tci_deprecated_index t) /\ Forall ser_wf (tci_columns t).

Lemma info_read_write t s :
  info_laid_out t -> info_wf t ->
  exists bytes, TableContextInfo.write t = Ok bytes /\ TableContextInfo.read (bytes ++ s) = Ok (t, s).
Proof.
  intros Hl (Hu4 & Hu2 & Hu1 & Hub & Hi & Hr & Hd & Hc). destruct t as [e4 e2 e1 eb ix rows dep cols]. cbn in *.
  pose proof (lo_count _ Hl) as Hn. cbn in Hn. unfold TableContextInfo.write. cbn [tci_columns].
  rewrite (proj2 (Z.ltb_ge _ _)) by lia. eexists. split; [done|].
  cbn [tci_end_4byte_values tci_end_2byte_values tci_end_1byte_values tci_end_existence_bitmap tci_row_index tci_rows tci_deprecated_index].
  assert (Hw : wrap 8 (Z.of_nat (length cols)) = Z.of_nat (length cols)) by (apply Z.mod_small; lia).
  assert (uint 8 (Z.of_nat (length cols))) by (unfold uint; lia). rewrite Hw.
  unfold TableContextInfo.read. change HeapId.read with (ser_read (A := HeapId)). change HeapId.write with (ser_write (A := HeapId)).
  change NodeId.read with (ser_read (A := NodeId)). change NodeId.write with (ser_write (A := NodeId)).
  set (rw := from_option id (mk_NodeId 0) rows). assert (Hrw : ser_wf rw).
  { unfold rw. destruct rows as [n|]; cbn; [|split; done]. by apply (Hr n). }
  rd_run. unfold rd_bind at 1. unfold rd_lift at 1. cbn [HeapNodeType_as_u8 HeapNodeType_try_from ltp rmap_err rbind].
  change (HeapNodeType_try_from 0x7C) with (Ok (E := LtpError) HN_Table). cbn [ltp rmap_err rbind].
  unfold rd_bind at 1. unfold rd_lift at 1. cbn [HeapNodeType_as_u8]. rewrite Z.eqb_refl. cbn [ensure ltp rmap_err rbind].
  rd_run. erewrite rd_bind_eq; [|rewrite Nat2Z.id; exact (rd_repeat_ser (A := TableColumnDescriptor) _ cols s eq_refl Hc)].
  unfold rd_lift. assert (Hrows : (if node_id_0 rw =? 0 then None else Some rw) = rows).
  { unfold rw. destruct rows as [n|]; cbn; [|done]. by rewrite (proj2 (Z.eqb_neq _ _)) by apply (Hr n eq_refl). }
  rewrite Hrows. rewrite (proj2 (info_new_ok _ _ _ _ _ _ _ (mk_TableContextInfo e4 e2 e1 eb ix rows 0 cols))); [done|].
  split; [done|]. destruct Hl; by split.
Qed.

(** ** Rows are fields of their bytes *)

Definition field (bytes : list Z) (offset width : Z) : list Z :=
  take (Z.to_nat width) (drop (Z.to_nat offset) bytes).

Lemma length_field bytes offset width :
  0 <= offset -> 0 <= width -> offset + width <= Z.of_nat (length bytes) ->
  length (field bytes offset width) = Z.to_nat width.
Proof. intros. unfold field. rewrite length_take, length_drop. lia. Qed.

Lemma slice_field {E} bytes a n x y :
  0 <= a -> 0 <= x <= y -> y <= n -> a + n <= Z.of_nat (length bytes) ->
  slice (E := E) (field bytes a n) x y = Ok (field bytes (a + x) (y - x)).
Proof.
  intros Ha Hx Hy Hn. unfold slice. rewrite length_field by lia.
  rewrite (proj2 (Z.leb_le _ _)), (proj2 (Z.leb_le _ _)) by lia. cbn [andb]. f_equal. unfold field.
  rewrite skipn_firstn_comm, drop_drop, take_take. f_equal; [lia|f_equal; lia].
Qed.

Lemma index_field {E} bytes a n x :
  0 <= a -> 0 <= x < n -> a + n <= Z.of_nat (length bytes) ->
  exists b, index (E := E) (field bytes a n) x = Ok b /\ bytes !! Z.to_nat (a + x) = Some b.
Proof.
  intros Ha Hx Hn. unfold index. rewrite (proj2 (Z.ltb_ge _ _)) by lia.
  destruct (lookup_lt_is_Some_2 bytes (Z.to_nat (a + x)) ltac:(lia)) as [b Hb]. exists b. split; [|done].
  unfold field. rewrite lookup_take, lookup_drop, decide_True by lia.
  replace (Z.to_nat a + Z.to_nat x)%nat with (Z.to_nat (a + x)) by lia. by rewrite Hb.
Qed.

Lemma read_exact_field n k bytes s :
  (k + n <= length bytes)%nat ->
  read_exact n (drop k bytes ++ s) = Ok (field bytes (Z.of_nat k) (Z.of_nat n), drop (k + n) bytes ++ s).
Proof.
  intros H. unfold field. rewrite !Nat2Z.id. rewrite <- (take_drop n (drop k bytes)) at 1.
  rewrite <- app_assoc, drop_drop. apply read_exact_app. rewrite length_take, length_drop. lia.
Qed.

Lemma read_uint_field n k bytes s :
  (k + n <= length bytes)%nat ->
  read_uint n (drop k bytes ++ s) = Ok (le_val (field bytes (Z.of_nat k) (Z.of_nat n)), drop (k + n) bytes ++ s).
Proof. intros H. unfold read_uint, rd_bind. by rewrite read_exact_field. Qed.

(** The row with given bytes. *)
Definition row_of (t : TableContextInfo) (bytes : list Z) : TableRowData :=
  let e4 := tci_end_4byte_values t in
  let e2 := tci_end_2byte_values t in
  let e1 := tci_end_1byte_values t in
  mk_TableRowData (mk_TableRowId (le_val (field bytes 0 4))) (le_val (field bytes 4 4))
    (field bytes 8 (e4 - 8)) (field bytes e4 (e2 - e4)) (field bytes e2 (e1 - e2))
    (field bytes e1 (existence_bitmap_size (Z.of_nat (length (tci_columns t))))).

Lemma row_read t bytes s :
  info_laid_out t -> 8 <= tci_end_4byte_values t -> Z.of_nat (length bytes) = tci_end_existence_bitmap t ->
  TableRowData.read t (bytes ++ s) = Ok (row_of t bytes, s).
Proof.
  intros [_ _ [_ H42] H21 Hb _] H8 Hl. pose proof (bitmap_size_nonneg (length (tci_columns t))) as Hbz.
  unfold TableRowData.read, row_of. cbv zeta. set (e4 := tci_end_4byte_values t) in *.
  set (e2 := tci_end_2byte_values t) in *. set (e1 := tci_end_1byte_values t) in *.
  set (bz := existence_bitmap_size (Z.of_nat (length (tci_columns t)))) in *.
  change (bytes ++ s) with (drop 0 bytes ++ s).
  erewrite rd_bind_eq; [|apply (read_uint_field 4 0); lia]. erewrite rd_bind_eq; [|apply (read_uint_field 4); lia].
  rewrite (proj2 (Z.ltb_ge _ _)) by lia. unfold rd_bind at 1, rd_lift at 1. cbn [rbind].
  erewrite rd_bind_eq; [|apply read_exact_field; lia]. erewrite rd_bind_eq; [|apply read_exact_field; lia].
  erewrite rd_bind_eq; [|apply read_exact_field; lia]. erewrite rd_bind_eq; [|apply read_exact_field; lia].
  unfold rd_ret. f_equal. f_equal.
  - f_equal; f_equal; lia.
  - by rewrite drop_ge by lia.
Qed.

(** The rows of a matrix. *)
Lemma row_matrix_read t rows s :
  info_laid_out t -> 8 <= tci_end_4byte_values t ->
  Forall (fun bytes => Z.of_nat (length bytes) = tci_end_existence_bitmap t) rows ->
  read_row_matrix t (Z.of_nat (length (concat rows))) (concat rows ++ s) = Ok (map (row_of t) rows, s).
Proof.
  intros Hl H8 Hr. pose proof Hl as [_ _ [_ H42] H21 Hb _]. pose proof (bitmap_size_nonneg (length (tci_columns t))).
  assert (Hlen : Z.of_nat (length (concat rows)) = Z.of_nat (length rows) * tci_end_existence_bitmap t).
  { clear -Hr. induction Hr as [|r rows Hr _ IH]; [done|]. cbn [concat length]. rewrite length_app. lia. }
  unfold read_row_matrix. rewrite (proj2 (Z.eqb_neq (tci_end_existence_bitmap t) 0)) by lia.
  rewrite Hlen, Z.mod_mul, Z.div_mul, Nat2Z.id by lia. cbn [Z.eqb negb orb].
  clear Hlen. induction Hr as [|r rows Hr _ IH]; [done|]. cbn [length rd_repeat map concat].
  rewrite <- app_assoc. erewrite rd_bind_eq; [|by apply row_read]. by erewrite rd_bind_eq; [|exact IH].
Qed.

(** A block of whole rows and some padding shorter than a row. *)
Lemma row_matrix_block_read t rows pad :
  info_laid_out t -> 8 <= tci_end_4byte_values t ->
  Forall (fun bytes => Z.of_nat (length bytes) = tci_end_existence_bitmap t) rows ->
  Z.of_nat (length pad) < tci_end_existence_bitmap t ->
  read_row_matrix_block t (concat rows ++ pad) = Ok (map (row_of t) rows).
Proof.
  intros Hl H8 Hr Hp. unfold read_row_matrix_block. rewrite (proj2 (Z.eqb_neq _ _)) by lia.
  assert (Hlen : Z.of_nat (length (concat rows)) = Z.of_nat (length rows) * tci_end_existence_bitmap t).
  { clear -Hr. induction Hr as [|r rows Hr _ IH]; [done|]. cbn [concat length]. rewrite length_app. lia. }
  assert (Hn : Z.of_nat (length (concat rows ++ pad)) -
      Z.of_nat (length (concat rows ++ pad)) mod tci_end_existence_bitmap t = Z.of_nat (length (concat rows))).
  { rewrite length_app, Nat2Z.inj_add, Hlen, (Z.add_comm (_ * _)), Z.mod_add, Z.mod_small by lia. lia. }
  rewrite Hn, Nat2Z.id, take_app_length. rewrite <- (app_nil_r (concat rows)) at 2.
  by rewrite row_matrix_read.
Qed.

(** ** The values of a row *)

(** What the bytes of a column are for its type. *)
Definition cell (t : PropertyType) (raw : list Z) : io_result (option TableRowColumnValue) :=
  let value := le_val raw in
  let small v := Ok (Some (ColumnSmall v)) in
  match t with
  | PT_Null => Err (LtpData (InvalidTableColumnPropertyType PT_Null))
  | PT_Integer16 => small (PropertyValue.Integer16 (signed 16 value))
  | PT_Integer32 => small (PropertyValue.Integer32 (signed 32 value))
  | PT_Floating32 => small (PropertyValue.Floating32 value)
  | PT_Floating64 => small (PropertyValue.Floating64 value)
  | PT_Currency => small (PropertyValue.Currency (signed 64 value))
  | PT_FloatingTime => small (PropertyValue.FloatingTime value)
  | PT_ErrorCode => small (PropertyValue.ErrorCode (signed 32 value))
  | PT_Boolean => TableRowData.boolean value
  | PT_Integer64 => small (PropertyValue.Integer64 (signed 64 value))
  | PT_Time => small (PropertyValue.Time (signed 64 value))
  | _ => Ok (Some (match NodeId.id_type (mk_NodeId value) with
                   | Ok HeapNode => ColumnHeap (HeapId.from_u32 value)
                   | _ => ColumnNode (mk_NodeId value)
                   end))
  end.

(** A column whose bytes are in the part of the row for its width. *)
Definition column_in (t : TableContextInfo) (c : TableColumnDescriptor) : Prop :=
  let o := tcd_offset c in
  0 <= tcd_existence_bitmap_index c < 8 * existence_bitmap_size (Z.of_nat (length (tci_columns t))) /\
  match tcd_prop_type c with
  | PT_Null => False
  | PT_Boolean => tci_end_2byte_values t <= o < tci_end_1byte_values t /\ tcd_size c = 1
  | PT_Integer16 => tci_end_4byte_values t <= o /\ o + 2 <= tci_end_2byte_values t /\ tcd_size c = 2
  | ty =>
      (8 <= o \/ ty = PT_Integer32 /\ (o = 0 \/ o = 4)) /\
      tcd_size c = (if column_8byte ty then 8 else 4) /\ o + tcd_size c <= tci_end_4byte_values t
  end.

(** Whether the bit of a column is set in the last bytes of a row. *)
Definition column_bit (t : TableContextInfo) (bytes : list Z) (bit : Z) : bool :=
  Z.testbit (List.nth (Z.to_nat (tci_end_1byte_values t + bit / 8)) bytes 0) (7 - bit mod 8).

Lemma land_bit x n : 0 <= n -> negb (Z.land x (Z.shiftl 1 n) =? 0) = Z.testbit x n.
Proof.
  intros Hn. rewrite Z.shiftl_1_l. destruct (Z.testbit x n) eqn:Hb.
  - destruct (Z.eqb_spec (Z.land x (2 ^ n)) 0) as [He|]; [|done].
    apply (f_equal (fun z => Z.testbit z n)) in He. rewrite Z.land_spec, Hb, Z.pow2_bits_true, Z.bits_0 in He by done. done.
  - apply negb_false_iff, Z.eqb_eq. apply Z.bits_inj'. intros m Hm. rewrite Z.land_spec, Z.bits_0.
    destruct (Z.eq_dec n m) as [<-|Hne]; [by rewrite Hb|]. rewrite Z.pow2_bits_false by done. apply andb_false_r.
Qed.

Section row.
Context (t : TableContextInfo) (bytes : list Z).
Context (Hl : info_laid_out t) (H8 : 8 <= tci_end_4byte_values t).
Context (Hlen : Z.of_nat (length bytes) = tci_end_existence_bitmap t).
Set Default Proof Using "All".

Lemma row_sizes :
  tci_end_4byte_values t <= tci_end_2byte_values t <= tci_end_1byte_values t /\
  tci_end_1byte_values t + existence_bitmap_size (Z.of_nat (length (tci_columns t))) = Z.of_nat (length bytes).
Proof. destruct Hl as [_ _ [_ ?] ? ? _]. lia. Qed.

Lemma row_bit bit :
  0 <= bit < 8 * existence_bitmap_size (Z.of_nat (length (tci_columns t))) ->
  check_existence_bitmap bit (trd_existence_bitmap (row_of t bytes)) = Ok (column_bit t bytes bit).
Proof.
  intros Hb. destruct row_sizes as [Hs Hz]. unfold row_of. cbn [trd_existence_bitmap].
  pose proof (bitmap_size_nonneg (length (tci_columns t))). set (bz := existence_bitmap_size _) in *.
  unfold check_existence_bitmap. rewrite length_field, Z2Nat.id by lia. rewrite (proj2 (Z.leb_gt _ _)) by lia.
  pose proof (Z.div_mod bit 8 ltac:(lia)). pose proof (Z.mod_pos_bound bit 8 ltac:(lia)).
  destruct (index_field (E := LtpError) bytes (tci_end_1byte_values t) bz (bit / 8)) as (b & -> & Hn); [lia..|].
  cbn [rbind]. f_equal. rewrite land_bit by lia. unfold column_bit.
  by rewrite nth_lookup, Hn.
Qed.

Lemma row_wide offset width :
  8 <= offset -> 0 <= width -> offset + width <= tci_end_4byte_values t ->
  TableRowData.read_wide_offset width (row_of t bytes) offset = Ok (field bytes offset width).
Proof.
  intros Ho Hw Hb. destruct row_sizes as [Hs Hz]. pose proof (bitmap_size_nonneg (length (tci_columns t))).
  unfold TableRowData.read_wide_offset, row_of. cbn [trd_align_4byte].
  rewrite (proj2 (Z.ltb_ge _ _)) by lia. cbv zeta. rewrite length_field by lia.
  rewrite (proj2 (Z.ltb_ge _ _)) by lia. rewrite slice_field by lia. do 2 f_equal; lia.
Qed.

Lemma row_2byte offset :
  tci_end_4byte_values t <= offset -> offset + 2 <= tci_end_2byte_values t ->
  TableRowData.read_2byte_offset (row_of t bytes) t offset = Ok (field bytes offset 2).
Proof.
  intros Ho Hb. destruct row_sizes as [Hs Hz]. pose proof (bitmap_size_nonneg (length (tci_columns t))).
  unfold TableRowData.read_2byte_offset, row_of. cbn [trd_align_2byte].
  rewrite (proj2 (Z.ltb_ge _ _)) by lia. cbv zeta. rewrite length_field by lia.
  rewrite (proj2 (Z.ltb_ge _ _)) by lia. rewrite slice_field by lia. do 2 f_equal; lia.
Qed.

Lemma row_1byte offset :
  tci_end_2byte_values t <= offset < tci_end_1byte_values t ->
  TableRowData.read_1byte_offset (row_of t bytes) t offset = Ok (le_val (field bytes offset 1)).
Proof.
  intros Ho. destruct row_sizes as [Hs Hz]. pose proof (bitmap_size_nonneg (length (tci_columns t))).
  unfold TableRowData.read_1byte_offset, row_of. cbn [trd_align_1byte].
  rewrite (proj2 (Z.ltb_ge _ _)) by lia. cbv zeta. rewrite length_field by lia.
  rewrite (proj2 (Z.leb_gt _ _)) by lia.
  edestruct (index_field (E := LtpError) bytes (tci_end_2byte_values t)) as (b & -> & Hn); [lia..|].
  f_equal. unfold field. replace (tci_end_2byte_values t + (offset - tci_end_2byte_values t)) with offset in Hn by lia.
  rewrite (drop_S bytes b _ Hn). change (Z.to_nat 1) with 1%nat. cbn [take]. rewrite take_0. cbn [le_val]. lia.
Qed.

Lemma small_field {A} offset width (m : reader A) (v : A) value :
  m (field bytes offset width) = Ok (v, []) ->
  TableRowData.small (Ok (field bytes offset width)) m value = Ok (Some (ColumnSmall (value v))).
Proof. intros H. unfold TableRowData.small. cbn [ltp rmap_err rbind]. by rewrite H. Qed.

Lemma read_uint_whole n offset :
  0 <= offset -> offset + Z.of_nat n <= Z.of_nat (length bytes) ->
  read_uint n (field bytes offset (Z.of_nat n)) = Ok (le_val (field bytes offset (Z.of_nat n)), []).
Proof.
  intros Ho Hn. unfold read_uint, rd_bind. rewrite <- (app_nil_r (field _ _ _)) at 1.
  rewrite read_exact_app; [done|]. rewrite length_field by lia. lia.
Qed.

Lemma row_column_value c :
  column_in t c ->
  TableRowData.column_value (row_of t bytes) t c = cell (tcd_prop_type c) (field bytes (tcd_offset c) (tcd_size c)).
Proof.
  intros [_ Hc]. destruct row_sizes as [Hs Hz]. pose proof (bitmap_size_nonneg (length (tci_columns t))).
  destruct c as [ty id o sz bit]. cbn [tcd_prop_type tcd_offset tcd_size] in *. unfold TableRowData.column_value.
  cbn [tcd_prop_type tcd_offset tcd_size]. cbv zeta.
  destruct ty; try done; cbn [column_8byte] in Hc;
    try (destruct Hc as ([Ho|[Hty Ho]] & -> & He); [|try discriminate Hty]);
    try (destruct Hc as (Ho & He & ->)); try (destruct Hc as [Ho ->]); cbn [Z.eqb negb Pos.eqb];
    try rewrite row_2byte by lia; try rewrite row_1byte by lia;
    rewrite ?(proj2 (Z.eqb_neq o 0)), ?(proj2 (Z.eqb_neq o 4)) by lia;
    unfold TableRowData.heap_or_node, TableRowData.read_8byte_offset, TableRowData.read_4byte_offset;
    rewrite ?row_wide by lia; cbn [ltp rmap_err rbind];
    try (apply small_field; unfold read_i16, read_i32, read_i64, rd_bind;
         rewrite ?(read_uint_whole 2), ?(read_uint_whole 4), ?(read_uint_whole 8) by lia; done);
    try (rewrite (read_uint_whole 4) by lia; done); try done.
  destruct Ho as [-> | ->]; done.
Qed.

(** A column of a row is decoded from its bytes when its bit is set. *)
Lemma row_column c :
  column_in t c ->
  TableRowData.column (row_of t bytes) t c =
    if column_bit t bytes (tcd_existence_bitmap_index c)
    then cell (tcd_prop_type c) (field bytes (tcd_offset c) (tcd_size c)) else Ok None.
Proof.
  intros Hc. unfold TableRowData.column. rewrite row_bit by apply Hc. cbn [ltp rmap_err rbind].
  destruct (column_bit _ _ _); [|done]. cbn [negb]. by apply row_column_value.
Qed.

End row.

(** ** Reading a table *)

Section reading.
Set Default Proof Using "All".
Context {E B I S V : Type} `{!BlockId B, !ByteIndex I, !BlockBTreeEntry E B I}.
Context `{!BlockTrailerReadWrite B, !BlockTrailerLaws B, !IntermediateTreeHeader (SubNodeTreeBlockHeader B)}.
Context `{!IntermediateTreeEntry B, !IntermediateTreeEntry (IntermediateSubNodeTreeEntry B)}.
Context `{!IntermediateTreeEntry (LeafSubNodeTreeEntry B), !BlockFind E S}.
Context `{!BlockIdLaws B, !BlockFindLaws E B I S, !TableRowIndex V}.
Context (f : list Z) (encoding : NdbCryptMethod).

(** A block of a matrix: whole rows and padding shorter than a row. *)
Definition matrix_block (t : TableContextInfo) (rows : list (list Z)) (b : DataBlock B) : Prop :=
  exists pad, db_data b = concat rows ++ pad /\ Z.of_nat (length pad) < tci_end_existence_bitmap t /\
    Forall (fun bytes => Z.of_nat (length bytes) = tci_end_existence_bitmap t) rows.

Lemma matrix_blocks_read t rowss bs :
  info_laid_out t -> 8 <= tci_end_4byte_values t -> Forall2 (matrix_block t) rowss bs ->
  rmapM (fun block => read_row_matrix_block t (db_data block)) bs = Ok (map (map (row_of t)) rowss).
Proof.
  intros Hl H8 Hb. induction Hb as [|rows b rowss bs (pad & Hd & Hp & Hr) _ IH]; [done|].
  cbn [rmapM map]. rewrite Hd, row_matrix_block_read by done. cbn [rbind]. by rewrite IH.
Qed.

(** The rows of a matrix in a sub-node. *)
Lemma read_rows_node t sub_node heap n rowss bs s :
  info_laid_out t -> 8 <= tci_end_4byte_values t -> tci_rows t = Some n -> NodeId.id_type n <> Ok HeapNode ->
  node_blocks (E := E) (S := S) f encoding sub_node n bs -> Forall2 (matrix_block t) rowss bs ->
  coherent (E := E) f encoding s ->
  exists s', read_rows (E := E) f encoding sub_node heap t s = Some (Ok (map (row_of t) (concat rowss)), s') /\
    coherent (E := E) f encoding s'.
Proof.
  intros Hl H8 Hn Hty Hnode Hbs Hs. unfold read_rows. rewrite Hn.
  destruct (node_tree_ok f encoding sub_node n bs s Hnode Hs) as (e & dt & s1 & s2 & Hv & Ht & Hs2 & Hlv & Htb & Hmax & Hins).
  assert (Hd : 0 <= DataTree.declared_size dt) by (rewrite (tree_blocks_size f encoding dt bs Htb); lia).
  destruct (computes_blocks f encoding dt Hlv Hd s2 Hs2) as (r & s3 & Hr & Hs3 & Hok).
  apply Hok in Htb as ->. destruct (Hins s3 Hs3) as (s4 & Hi & Hs4). exists s4. split; [|done].
  assert (Hgo : (let! block := looking_up (value_block (E := E) f sub_node n) in
    let! data_tree := take_tree f encoding block in
    let! result := caught (let! bs := blocks (E := E) f encoding data_tree in
                           m_lift (let? rows := rmapM (fun block => read_row_matrix_block t (db_data block)) bs in
                                   Ok (concat rows))) in
    let! _ := cache_insert (bref_block (bbe_block block)) data_tree in
    m_lift result) s = Some (Ok (map (row_of t) (concat rowss)), s4)); [|destruct (NodeId.id_type n) as [[]|x|]; done].
  rewrite (m_bind_eq _ _ _ _ _ Hv), (m_bind_eq _ _ _ _ _ Ht).
  rewrite (m_bind_eq _ _ s2 (Ok (map (row_of t) (concat rowss))) s3).
  - by rewrite (m_bind_eq _ _ _ _ _ Hi).
  - unfold caught. rewrite (m_bind_eq _ _ _ _ _ Hr). unfold m_lift.
    rewrite (matrix_blocks_read t rowss bs) by done. cbn [rbind]. by rewrite concat_map.
Qed.

Lemma stream_bytes_data fuel r data :
  reader_holds f encoding r data -> 0 <= rdr_total_read r -> rdr_expected_size r < 2 ^ 64 ->
  rdr_expected_size r - rdr_total_read r = Z.of_nat (length data) -> (length data < fuel)%nat ->
  stream_bytes f encoding fuel r = (data, Ok tt).
Proof.
  revert r data. induction fuel as [|fuel IH]; intros r data Hr H0 Hmax Hd Hf; [lia|]. cbn [stream_bytes].
  destruct (Nat.eq_dec (length data) 0) as [Hnil|Hne].
  - apply length_zero_iff_nil in Hnil as ->. cbn in Hd.
    rewrite (reader_read_end f encoding 1 r []) by (done || lia). done.
  - destruct (reader_read_some f encoding 1 r data) as (r' & -> & Hr' & He & Ht); [done..|lia|].
    set (n := Nat.min _ _) in *. assert (Hn : (0 < n <= length data)%nat) by lia. clearbody n.
    destruct (take n data) as [|b chunk] eqn:Htk.
    { apply (f_equal length) in Htk. rewrite length_take in Htk. cbn in Htk. lia. }
    rewrite (IH r' (drop n data)) by (rewrite ?length_drop; (done || lia)).
    rewrite <- Htk. by rewrite take_drop.
Qed.

(** The bytes of a value that is not in its row. *)
Definition column_data (self : TableContextInner B V) (value : TableRowColumnValue) (data : list Z) : Prop :=
  match value with
  | ColumnSmall _ => False
  | ColumnHeap h => HeapNodeInner.find_entry (tc_heap self) h = Ok data
  | ColumnNode id => node_data (E := E) (S := S) f encoding (tc_sub_node self) id data
  end.

Lemma read_column_data self value ty data s :
  column_data self value data -> coherent (E := E) f encoding s ->
  exists s', read_column (E := E) f encoding self value ty s = Some (decode ty data, s') /\
    coherent (E := E) f encoding s'.
Proof.
  intros Hd Hs. destruct value as [v|h|id]; [done| |]; cbn [column_data] in Hd; unfold read_column.
  { rewrite Hd. by exists s. }
  destruct Hd as (bs & Hnode & ->).
  destruct (node_tree_ok f encoding (tc_sub_node self) id bs s Hnode Hs) as (e & dt & s1 & s2 & Hv & Ht & Hs2 & Hlv & Htb & Hmax & Hins).
  destruct (open_reader_holds f encoding dt s2 bs Hs2 Hlv Hmax Htb) as (r & s3 & Ho & Hs3 & Hh & H0 & He & Hm).
  destruct (Hins s3 Hs3) as (s4 & Hi & Hs4). exists s4. split; [|done].
  rewrite (m_bind_eq _ _ _ _ _ Hv), (m_bind_eq _ _ _ _ _ Ht).
  rewrite (m_bind_eq _ _ s2 (decode ty (blocks_data bs)) s3).
  - by rewrite (m_bind_eq _ _ _ _ _ Hi).
  - unfold caught. rewrite (m_bind_eq _ _ _ _ _ Ho).
    pose proof (tree_blocks_size f encoding dt bs Htb) as Hn.
    rewrite (stream_bytes_data _ r (blocks_data bs)) by (done || lia). done.
Qed.
End reading.

(** ** Properties *)

Lemma check_column_in t c :
  TableContextInfo.check_column (tci_end_4byte_values t) (tci_end_2byte_values t) (tci_end_1byte_values t)
    (Z.of_nat (length (tci_columns t))) c = Ok tt ->
  0 <= tcd_existence_bitmap_index c < 8 * existence_bitmap_size (Z.of_nat (length (tci_columns t))) ->
  0 <= tcd_offset c -> tcd_offset c + tcd_size c < 2 ^ 16 ->
  (8 <= tcd_offset c \/ tcd_prop_type c = PT_Integer32 /\ (tcd_offset c = 0 \/ tcd_offset c = 4)) ->
  8 <= tci_end_4byte_values t <= tci_end_2byte_values t ->
  column_in t c.
Proof.
  intros H Hb Ho Hw H8 He. split; [done|]. unfold TableContextInfo.check_column in H.
  repeat (res_step; unfold ensure in * ). destruct c as [ty id o sz bit].
  unfold TableContextInfo.offset_ok, TableContextInfo.size_ok in *. cbn [tcd_offset tcd_size tcd_prop_type] in *.
  unfold wrapping_add, wrap in *.
  destruct ty; cbn [column_4byte column_8byte negb andb] in *; try done; zb;
    (split; [try done; try lia|]); try lia; try (rewrite Z.mod_small in * by lia; lia).
Qed.

(** C34: In a row read with a description that [new] accepts, every column
    that lies past the ids of the row, or is one of them, and whose bit is
    within the bitmap is decoded from its own bytes at its offset, with its
    width and its type, when its bit is set, and has no value otherwise. *)
Theorem columns_correct (e4 e2 e1 eb : Z) (row_index : HeapId) (rows : option NodeId)
  (columns : list TableColumnDescriptor) (t : TableContextInfo) (bytes s : list Z)
  (Hnew : TableContextInfo.new e4 e2 e1 eb row_index rows columns = Ok t) (H8 : 8 <= e4)
  (Hlen : Z.of_nat (length bytes) = eb)
  (Hcolumns : Forall (fun c => 0 <= tcd_existence_bitmap_index c < 8 * existence_bitmap_size (Z.of_nat (length columns)) /\
    0 <= tcd_offset c /\ tcd_offset c + tcd_size c < 2 ^ 16 /\
    (8 <= tcd_offset c \/ tcd_prop_type c = PT_Integer32 /\ (tcd_offset c = 0 \/ tcd_offset c = 4))) columns) :
  exists row, TableRowData.read t (bytes ++ s) = Ok (row, s) /\
    TableRowData.columns row t =
      rmapM (fun c => if column_bit t bytes (tcd_existence_bitmap_index c)
                      then cell (tcd_prop_type c) (field bytes (tcd_offset c) (tcd_size c)) else Ok None) columns.
Proof.
  apply info_new_ok in Hnew as [-> Hl]. exists (row_of (mk_TableContextInfo e4 e2 e1 eb row_index rows 0 columns) bytes).
  split; [by apply row_read|]. unfold TableRowData.columns. cbn [tci_columns].
  pose proof Hl as [_ _ [_ H42] _ _ Hc]. cbn in H42, Hc.
  set (t := mk_TableContextInfo e4 e2 e1 eb row_index rows 0 columns) in *.
  apply rmapM_ext_in. intros c Hin. apply row_column; try done.
  pose proof (proj1 (Forall_forall _ _) Hcolumns c Hin) as (Hb & Ho & Hw & Hx).
  apply check_column_in; try done. exact (proj1 (Forall_forall _ _) Hc c Hin).
Qed.

(** A table with a row id, a row version, a number, a flag and a string. *)
Definition sample_columns : list TableColumnDescriptor :=
  [mk_TableColumnDescriptor PT_Integer32 0x67F2 0 4 0; mk_TableColumnDescriptor PT_Integer32 0x67F3 4 4 1;
   mk_TableColumnDescriptor PT_Integer32 0x3602 8 4 2; mk_TableColumnDescriptor PT_Boolean 0x360A 16 1 3;
   mk_TableColumnDescriptor PT_Unicode 0x3001 12 4 4].
Definition sample_row : list Z :=
  write_u32 7 ++ write_u32 1 ++ write_u32 42 ++ write_u32 0x60 ++ [1; 0xF8].

Lemma columns_correct_witness :
  exists t row, TableContextInfo.new 16 16 17 18 (HeapId.from_u32 0x40) None sample_columns = Ok t /\
    TableRowData.read t (sample_row ++ []) = Ok (row, []) /\
    TableRowData.columns row t = Ok [Some (ColumnSmall (PropertyValue.Integer32 7));
      Some (ColumnSmall (PropertyValue.Integer32 1)); Some (ColumnSmall (PropertyValue.Integer32 42));
      Some (ColumnSmall (PropertyValue.Boolean true)); Some (ColumnHeap (HeapId.from_u32 0x60))].
Proof.
  destruct (columns_correct 16 16 17 18 (HeapId.from_u32 0x40) None sample_columns
    (mk_TableContextInfo 16 16 17 18 (HeapId.from_u32 0x40) None 0 sample_columns) sample_row [])
    as (row & Hr & Hc); [vm_compute; reflexivity|lia|vm_compute; reflexivity| |].
  - apply Forall_forall. intros c Hc. repeat (apply elem_of_cons in Hc as [->|Hc]; [cbn; (split; [vm_compute; split; [discriminate|reflexivity]|]); (split; [lia|]); (split; [lia|]); try (left; lia); right; (split; [reflexivity|lia])|]). by apply elem_of_nil in Hc.
  - exists (mk_TableContextInfo 16 16 17 18 (HeapId.from_u32 0x40) None 0 sample_columns), row. split; [vm_compute; reflexivity|]. split; [exact Hr|]. rewrite Hc. vm_compute. reflexivity.
Defined.

(** The index has the entries, when no id is twice in them. *)
Lemma collect_rows_lookup {V} (es : list (HeapTreeLeafEntry TableRowId V)) id v :
  NoDup (map (fun e => row_id (htl_key e)) es) ->
  collect_rows es !! row_id id = Some v <-> mk_HeapTreeLeafEntry id v ∈ es.
Proof.
  intros Hids. unfold collect_rows.
  rewrite (foldl_insert_lookup (fun e => row_id (htl_key e))) by (done || (intros; apply lookup_empty)).
  rewrite lookup_empty. split; [|intros H; right; by eexists].
  intros [H|([[i] v'] & He & Hi & <-)]; [done|]. cbn in Hi. subst i. by destruct id.
Qed.

(** C35: A row is found by its id exactly when the index, whose entries have
    distinct ids, has an entry for the id with the number of a row of the
    matrix that has this id; an id that is not in the index, a number past
    the rows and a row with another id are told apart. *)
Theorem find_row_correct {B V : Type} `{!TableRowIndex V} (self : TableContextInner B V)
  (es : list (HeapTreeLeafEntry TableRowId V)) (id : TableRowId)
  (Hindex : tc_row_index self = collect_rows es) (Hids : NoDup (map (fun e => row_id (htl_key e)) es)) :
  let number v := Z.to_nat (tri_into_u32 v) in
  (forall row, find_row self id = Ok row <-> exists v, mk_HeapTreeLeafEntry id v ∈ es /\
    tc_rows self !! number v = Some row /\ row_id (trd_id row) = row_id id) /\
  ((forall e, e ∈ es -> row_id (htl_key e) <> row_id id) -> find_row self id = Err (TableRowIdNotFound (row_id id))) /\
  (forall v, mk_HeapTreeLeafEntry id v ∈ es ->
    (tc_rows self !! number v = None ->
      find_row self id = Err (InvalidTableRowIndex (row_id id) (tri_into_u32 v) (Z.of_nat (length (tc_rows self))))) /\
    (forall row, tc_rows self !! number v = Some row -> row_id (trd_id row) <> row_id id ->
      find_row self id = Err (TableRowIdMismatch (row_id id) (row_id (trd_id row))))).
Proof.
  intros number. assert (Hin : forall v, tc_row_index self !! row_id id = Some v <-> mk_HeapTreeLeafEntry id v ∈ es)
    by (intros v; rewrite Hindex; by apply collect_rows_lookup).
  unfold find_row. split; [|split].
  - intros row. split.
    + intros H. destruct (tc_row_index self !! row_id id) as [v|]; [|done]. exists v. split; [by apply Hin|].
      cbn [ok_or rbind] in H. unfold indexed_row in H. fold (number v) in H.
      destruct (tc_rows self !! number v) as [r|]; [|done].
      destruct (Z.eqb_spec (row_id (trd_id r)) (row_id id)); [|done]. apply ok_inj in H as ->. by split.
    + intros (v & He & Hr & Hi). apply Hin in He as ->. cbn [ok_or rbind]. unfold indexed_row. fold (number v).
      by rewrite Hr, Hi, Z.eqb_refl.
  - intros Hno. destruct (tc_row_index self !! row_id id) as [v|]; [|done].
    by destruct (Hno _ (proj1 (Hin v) eq_refl)).
  - intros v He. apply Hin in He as ->. cbn [ok_or rbind]. unfold indexed_row. fold (number v). split.
    + by intros ->.
    + intros row -> Hne. by rewrite (proj2 (Z.eqb_neq _ _) Hne).
Qed.

Lemma find_row_correct_witness :
  let row := mk_TableRowData (mk_TableRowId 7) 1 [] [] [] [] in
  let es := [mk_HeapTreeLeafEntry (mk_TableRowId 7) (mk_UnicodeTableRowIndex 0);
             mk_HeapTreeLeafEntry (mk_TableRowId 9) (mk_UnicodeTableRowIndex 0)] in
  let self := mk_TableContextInner (B := UnicodeBlockId) None
    (mk_TableContextInfo 8 8 8 8 (HeapId.from_u32 0x40) None 0 []) (mk_HeapNodeInner []) (collect_rows es) [row] in
  find_row self (mk_TableRowId 7) = Ok row /\
  find_row self (mk_TableRowId 9) = Err (TableRowIdMismatch 9 7).
Proof.
  intros row es self. assert (Hids : NoDup (map (fun e => row_id (htl_key e)) es)) by (apply (bool_decide_unpack _); by vm_compute).
  split.
  - apply (find_row_correct self es (mk_TableRowId 7) eq_refl Hids). exists (mk_UnicodeTableRowIndex 0). split; [by left|]. by split.
  - destruct (find_row_correct self es (mk_TableRowId 9) eq_refl Hids) as (_ & _ & H).
    apply (H (mk_UnicodeTableRowIndex 0)) with (row := row); [by right; left|done|done].
Defined.

(** A column whose value is the heap id 0, which is how an empty value is
    stored and what a property context reads as no value, is never read: the
    id has no index in a page, whatever the heap and the type are. *)
Theorem empty_column_unreadable {E B I S V : Type} `{!BlockId B, !ByteIndex I, !BlockBTreeEntry E B I}
  `{!BlockTrailerReadWrite B, !IntermediateTreeHeader (SubNodeTreeBlockHeader B)}
  `{!IntermediateTreeEntry B, !IntermediateTreeEntry (IntermediateSubNodeTreeEntry B)}
  `{!IntermediateTreeEntry (LeafSubNodeTreeEntry B), !BlockFind E S}
  (f : list Z) (encoding : NdbCryptMethod) (self : TableContextInner B V) (ty : PropertyType)
  (s s' : traversal_state (B := B) (S := S)) (r : io_result PropertyValue.t)
  (Hread : read_column (E := E) f encoding self (ColumnHeap (HeapId.from_u32 0)) ty s = Some (r, s')) :
  (forall v, r <> Ok v) /\ s' = s /\
  (forall first rest off t m, hn_data (tc_heap self) = first :: rest ->
    HeapNodeInner.read_page_map_offset 0 (db_data first) = Ok (off, t) ->
    read_at (db_data first) off HeapNodePageMap.read = Ok m -> r = Err (LtpData (InvalidHeapIndex 0))).
Proof.
  unfold read_column, m_lift in Hread. injection Hread as <- <-.
  unfold HeapNodeInner.find_entry. change (HeapId.block_index (HeapId.from_u32 0)) with 0.
  change (HeapId.index (HeapId.from_u32 0)) with (Err (A := Z) (InvalidHeapIndex 0)). split; [|split; [done|]].
  - intros v. change (Z.to_nat 0) with 0%nat. destruct (hn_data (tc_heap self)) as [|first rest]; [done|]. cbn [lookup list_lookup ok_or ltp rmap_err rbind].
    destruct (HeapNodeInner.read_page_map_offset _ _) as [[off t]|e|]; [|done..]. cbn [rbind].
    by destruct (read_at _ _ _).
  - intros first rest off t m -> Ho Hm. change (Z.to_nat 0) with 0%nat. cbn [lookup list_lookup ok_or ltp rmap_err rbind].
    rewrite Ho. cbn [rbind]. by rewrite Hm.
Qed.

#[local] Existing Instance context_find.

(** A page with one allocation of four bytes. *)
Definition sample_table_page : list Z :=
  HeapNodeHeader.write (mk_HeapNodeHeader 16 HN_Table (HeapId.from_u32 0x20) (replicate 8 FillEmpty)) ++
  [72; 0; 105; 0] ++ page_map_bytes 0 [12; 16].

Definition sample_table_block : DataBlock UnicodeBlockId :=
  mk_DataBlock Crypt_None sample_table_page (mk_BlockTrailer 0 0 0 (mk_UnicodeBlockId 4)).

Lemma sample_table_page_reads :
  exists t m, HeapNodeInner.read_page_map_offset 0 sample_table_page = Ok (16, t) /\
    read_at sample_table_page 16 HeapNodePageMap.read = Ok m.
Proof. do 2 eexists. split; vm_compute; reflexivity. Qed.

Lemma empty_column_unreadable_witness :
  let self := mk_TableContextInner (V := UnicodeTableRowIndex) None
    (mk_TableContextInfo 8 8 8 8 (HeapId.from_u32 0x40) None 0 []) (mk_HeapNodeInner [sample_table_block]) ∅ [] in
  let read id := read_column (E := UnicodeBlockBTreeEntry.t) context_file Permute self
    (ColumnHeap (HeapId.from_u32 id)) PT_Unicode DataTree.sample_state in
  read 0x20 = Some (Ok (PropertyValue.Unicode [72; 105]), DataTree.sample_state) /\
  read 0 = Some (Err (LtpData (InvalidHeapIndex 0)), DataTree.sample_state).
Proof.
  intros self read. split; [vm_compute; reflexivity|].
  assert (exists r, read 0 = Some (r, DataTree.sample_state)) as [r Hr] by (eexists; reflexivity). rewrite Hr. do 2 f_equal.
  destruct (empty_column_unreadable (E := UnicodeBlockBTreeEntry.t) context_file Permute self PT_Unicode
    DataTree.sample_state DataTree.sample_state r Hr) as (_ & _ & H).
  destruct sample_table_page_reads as (t & m & Ho & Hm).
  exact (H sample_table_block [] 16 t m eq_refl Ho Hm).
Defined.
