(* ===== verification/WriterHeap.v ===== *)
(** * Heap pages of the writer

    [writer.rs]: the pages of a heap ([heap_page],
    [heap_continuation_page_allocations]), the placing of an allocation
    ([push_heap_allocation]), the filling of a page to the size of a data
    block ([fill_heap_page]) and the fill levels in the headers. Shown: every
    page that is built holds its allocations as the reader of file Heap
    finds them, filling a page and setting its levels keeps them, and an
    allocation stays where it was placed. *)
From S2P Require Import Prelude Errors Io Ids Page BTree Block Lookup DataTree Heap Alloc WriterBlocks WriterTree.
#[local] Open Scope Z_scope.

Definition MAX_HEAP_ALLOCATION : Z := 3580.

(** ** Building a page *)

Definition size_z {A} (l : list A) : Z := Z.of_nat (length l).

(** [try_fold] over the lengths with [checked_add]. *)
Fixpoint allocation_end (allocations : list (list Z)) (size : Z) : option Z :=
  match allocations with
  | [] => Some size
  | a :: allocations =>
      match checked_add 64 size (size_z a) with
      | Some size => allocation_end allocations size
      | None => None
      end
  end.

(** [u16::try_from(x).map_err(|_| WriterError::ValueTooLarge(what))?] *)
Definition to_u16 (x : Z) (what : string) : wres Z :=
  if uint_b 16 x then Ok x else Err (ValueTooLarge what).

(** The offset of the first allocation and the offsets at which the
    allocations end. *)
Definition page_offsets (what : string) (base : Z) (allocations : list (list Z)) : wres (list Z) :=
  rmapM (fun o => to_u16 o what) (base :: ends base allocations).

(** [Vec::resize(n, 0)] *)
Definition resize (n : Z) (l : list Z) : list Z :=
  take (Z.to_nat n) l ++ replicate (Z.to_nat n - length l) 0.

(** The size of the page map of [count] allocations. *)
Definition page_map_size (count : Z) : option Z :=
  match checked_add 64 count 1 with
  | Some n => match checked_mul 64 n 2 with Some n => checked_add 64 n 4 | None => None end
  | None => None
  end.

Definition free_count (allocations : list (list Z)) : Z :=
  size_z (filter (fun a => a = []) allocations).

Definition heap_page (kind : HeapNodeType) (allocations : list (list Z)) : wres (list Z) :=
  let header_size := 12 in
  let? allocation_end := fits (allocation_end allocations header_size) "heap page" in
  let payload_size := align_up allocation_end 2 in
  let? page_map_size := fits (page_map_size (size_z allocations)) "heap page map" in
  let? total := fits (checked_add 64 payload_size page_map_size) "heap page" in
  if 8176 <? total then Err (ValueTooLarge "heap page") else
  let? page_map_offset := to_u16 payload_size "heap page offset" in
  let? user_root := structure_ltp (HeapId.new 1 0) in
  let data := HeapNodeHeader.write (mk_HeapNodeHeader page_map_offset kind user_root (replicate 8 FillEmpty)) in
  let? offsets := page_offsets "heap" (size_z data) allocations in
  let data := resize payload_size (data ++ concat allocations) in
  let? count := to_u16 (size_z allocations) "heap allocation count" in
  let? free := to_u16 (free_count allocations) "heap free allocation count" in
  Ok (data ++ write_u16 count ++ write_u16 free ++ concat (map write_u16 offsets)).

Definition is_bitmap_page (page_index : Z) : bool := page_index mod 128 =? 8.

Definition heap_continuation_page_allocations (page_index : Z) (allocations : list (list Z)) : wres (list Z) :=
  let bitmap := is_bitmap_page page_index in
  let header_size := if bitmap then 66 else 2 in
  let? allocation_end := fits (allocation_end allocations header_size) "heap continuation page" in
  let payload_size := align_up allocation_end 2 in
  let? page_map_size := fits (page_map_size (size_z allocations)) "heap continuation page" in
  let? total := fits (checked_add 64 payload_size page_map_size) "heap continuation page" in
  if MAX_DATA_BLOCK_PAYLOAD <? total then Err (ValueTooLarge "heap continuation page") else
  let? page_map_offset := to_u16 payload_size "heap continuation page" in
  let data := if bitmap then HeapNodeBitmapHeader.write (mk_HeapNodeBitmapHeader page_map_offset (replicate 128 FillEmpty))
              else HeapNodePageHeader.write (mk_HeapNodePageHeader page_map_offset) in
  let? offsets := page_offsets "heap continuation offset" (size_z data) allocations in
  let data := resize payload_size (data ++ concat allocations) in
  let? count := to_u16 (size_z allocations) "heap allocation count" in
  Ok (data ++ write_u16 count ++ write_u16 0 ++ concat (map write_u16 offsets)).

(** ** Placing an allocation *)

Definition WriterError_eqb_too_large (e : WriterError) (what : string) : bool :=
  match e with ValueTooLarge w => bool_decide (w = what) | _ => false end.

(** A new page with the allocation. *)
Definition push_new_page (pages : list (list (list Z))) (allocation : list Z) :
    wres (HeapId * list (list (list Z))) :=
  let pages := pages ++ [[allocation]] in
  let? page_index := to_u16 (size_z pages) "heap page index" in
  let? allocations := ok_or (last pages) (InvalidStructure "heap allocation page is missing") in
  let? _ := heap_continuation_page_allocations page_index allocations in
  let? id := structure_ltp (HeapId.new 1 page_index) in
  Ok (id, pages).

(** The allocations of the pages after the first are grown; the caller gives
    up when this fails, so the pages of a failed call are not kept. *)
Definition push_heap_allocation (pages : list (list (list Z))) (allocation : list Z) :
    wres (HeapId * list (list (list Z))) :=
  if (size_z allocation =? 0) || (MAX_HEAP_ALLOCATION <? size_z allocation)
  then Err (ValueTooLarge "heap allocation") else
  let? page_index := to_u16 (size_z pages) "heap page index" in
  match last pages with
  | None => push_new_page pages allocation
  | Some current =>
      let grown := current ++ [allocation] in
      match heap_continuation_page_allocations page_index grown with
      | Ok page =>
          if sat64 (size_z page + 3) <=? MAX_DATA_BLOCK_PAYLOAD then
            let? allocation_index := to_u16 (size_z grown) "heap allocation count" in
            let? id := structure_ltp (HeapId.new allocation_index page_index) in
            Ok (id, removelast pages ++ [grown])
          else push_new_page pages allocation
      | Err e =>
          if WriterError_eqb_too_large e "heap continuation page" then push_new_page pages allocation
          else Err e
      | Panic => Panic
      end
  end.

(** ** Filling a page *)

(** The loop over [padding_allocations]: the offset of the filled map, the
    size of the padding and the number of padding allocations. *)
Fixpoint padding_loop (fuel : nat) (map_size allocation_end padding_allocations : Z) : wres (Z * Z * Z) :=
  match fuel with
  | O => Panic
  | S fuel =>
      let? padding_map_size := fits (checked_mul 64 padding_allocations 2) "heap page map" in
      let? expanded_map_size := fits (checked_add 64 map_size padding_map_size) "heap page map" in
      let? filled_map_offset := fits (checked_sub MAX_DATA_BLOCK_PAYLOAD expanded_map_size) "heap page map" in
      let? padding_size := ok_or (checked_sub filled_map_offset allocation_end)
        (InvalidStructure "heap page allocations overlap the filled map") in
      let? padding_capacity := fits (checked_mul 64 padding_allocations MAX_HEAP_ALLOCATION)
        "heap padding allocations" in
      if padding_size <? padding_allocations
      then Err (InvalidStructure "heap page has no room for non-empty padding allocations") else
      if padding_size <=? padding_capacity then Ok (filled_map_offset, padding_size, padding_allocations) else
      let? next := fits (checked_add 64 padding_allocations 1) "heap padding allocations" in
      padding_loop fuel map_size allocation_end next
  end.

(** A page of 8176 bytes needs at most three paddings of 3580. *)
Definition PADDING_FUEL : nat := 4.

(** The loop over [0..padding_allocations]: the end offsets appended to the
    map, the last end and what remains. [left] counts the allocations left. *)
Fixpoint padding_offsets (left : nat) (padding_end padding_remaining : Z) : wres (list Z * Z * Z) :=
  match left with
  | O => Ok ([], padding_end, padding_remaining)
  | S left' =>
      let allocation_size := Z.min (saturating_sub padding_remaining (Z.of_nat left')) MAX_HEAP_ALLOCATION in
      let? padding_end := fits (checked_add 64 padding_end allocation_size) "heap padding allocation" in
      let? end16 := to_u16 padding_end "heap padding endpoint" in
      let? '(l, e, r) := padding_offsets left' padding_end (wrapping_sub 64 padding_remaining allocation_size) in
      Ok (end16 :: l, e, r)
  end.

(** [bytes.get(..2)] read as a [u16]. *)
Definition head_u16 (bytes : list Z) (what : string) : wres Z :=
  if (2 <=? length bytes)%nat then Ok (le_val (take 2 bytes)) else Err (InvalidStructure what).

Definition fill_heap_page (page : list Z) : wres (list Z) :=
  if MAX_DATA_BLOCK_PAYLOAD <=? size_z page then
    if size_z page =? MAX_DATA_BLOCK_PAYLOAD then Ok page else Err (ValueTooLarge "heap page")
  else
  let? page_map_offset := head_u16 page "heap page has no map offset" in
  let? page_map := ok_or (if page_map_offset <=? size_z page then Some (drop (Z.to_nat page_map_offset) page) else None)
    (InvalidStructure "heap map exceeds its page") in
  let? allocation_count := head_u16 page_map "heap page map has no count" in
  let? expected_map_size := fits (page_map_size allocation_count) "heap page map" in
  if negb (size_z page_map =? expected_map_size)
  then Err (InvalidStructure "heap page map size does not match its allocation count") else
  let allocation_end := le_val (drop (length page_map - 2) page_map) in
  let? '(filled_map_offset, padding_size, padding_allocations) :=
    padding_loop PADDING_FUEL (size_z page_map) allocation_end 1 in
  let? padding16 := to_u16 padding_allocations "heap allocation count" in
  let? allocation_count := fits (checked_add 16 allocation_count padding16) "heap allocation count" in
  let? '(offsets, padding_end, padding_remaining) :=
    padding_offsets (Z.to_nat padding_allocations) allocation_end padding_size in
  let page_map := write_u16 allocation_count ++ drop 2 page_map ++ concat (map write_u16 offsets) in
  if negb (padding_remaining =? 0) || negb (padding_end =? filled_map_offset)
  then Err (InvalidStructure "heap padding does not reach the page map") else
  let? filled16 := to_u16 filled_map_offset "heap page map offset" in
  let page := resize filled16 (take (Z.to_nat page_map_offset) page) ++ page_map in
  Ok (write_u16 filled16 ++ drop 2 page).

(** ** Fill levels *)

Definition heap_fill_level (page_size : Z) : wres HeapFillLevel :=
  let? free := fits (checked_sub MAX_DATA_BLOCK_PAYLOAD page_size) "heap page" in
  Ok (if 3584 <=? free then FillEmpty else if 2560 <=? free then Level1 else
      if 2048 <=? free then Level2 else if 1792 <=? free then Level3 else
      if 1536 <=? free then Level4 else if 1280 <=? free then Level5 else
      if 1024 <=? free then Level6 else if 768 <=? free then Level7 else
      if 512 <=? free then Level8 else if 256 <=? free then Level9 else
      if 128 <=? free then Level10 else if 64 <=? free then Level11 else
      if 32 <=? free then Level12 else if 16 <=? free then Level13 else
      if 8 <=? free then Level14 else Level15).

(** Writing through a cursor on a slice: nothing grows. *)
Definition write_in_place (bytes page : list Z) : wres (list Z) :=
  if (length bytes <=? length page)%nat then Ok (bytes ++ drop (length bytes) page) else Err (WriterIo WriteZero).

(** The first [n] of the levels, padded with [FillEmpty]. *)
Definition padded_levels (n : nat) (levels : list HeapFillLevel) : list HeapFillLevel :=
  take n levels ++ replicate (n - length levels) FillEmpty.

Definition update_root_page (levels : list HeapFillLevel) (page : list Z) : wres (list Z) :=
  let? '(h, _) := wio (HeapNodeHeader.read page) in
  write_in_place (HeapNodeHeader.write (mk_HeapNodeHeader (hnh_page_map_offset h) (hnh_client_signature h)
    (hnh_user_root h) (padded_levels 8 levels))) page.

(** A bitmap page holds the levels of itself and of the pages that follow. *)
Definition update_bitmap_page (levels : list HeapFillLevel) (bitmap_index : nat) (page : list Z) : wres (list Z) :=
  let? '(h, _) := wio (HeapNodeBitmapHeader.read page) in
  write_in_place (HeapNodeBitmapHeader.write
    (mk_HeapNodeBitmapHeader (hnb_page_map_offset h) (padded_levels 128 (drop bitmap_index levels)))) page.

(** One page of the loop [(8..pages.len()).step_by(128)]. *)
Definition update_page (levels : list HeapFillLevel) (index : nat) (page : list Z) : wres (list Z) :=
  if (index mod 128 =? 8)%nat then update_bitmap_page levels index page else Ok page.

Definition update_heap_fill_levels (pages : list (list Z)) : wres (list (list Z)) :=
  let? levels := rmapM (fun page => heap_fill_level (size_z page)) pages in
  match pages with
  | [] => Err (InvalidStructure "heap has no root page")
  | root_page :: pages =>
      let? root_page := update_root_page levels root_page in
      let? pages := rmapM (fun '(i, page) => update_page levels (S i) page) (imap pair pages) in
      Ok (root_page :: pages)
  end.

(** The pages of a heap from its allocations: the tail that
    [property_context_external] and [external_table_context] share. Page [k]
    of the list has the index [k + 1]; all pages but the last are filled. *)
Definition finish_heap (kind : HeapNodeType) (root : list (list Z)) (page_allocations : list (list (list Z))) :
    wres (list (list Z)) :=
  let? first := heap_page kind root in
  let? others := rmapM (fun '(i, allocations) =>
    let? page_index := to_u16 (Z.of_nat i + 1) "heap page index" in
    heap_continuation_page_allocations page_index allocations) (imap pair page_allocations) in
  let pages := first :: others in
  let non_final := (length pages - 1)%nat in
  let? filled := rmapM fill_heap_page (take non_final pages) in
  update_heap_fill_levels (filled ++ drop non_final pages).

(** ** The shape of a page *)

Inductive PageHeader :=
| RootHeader (kind : HeapNodeType) (root : HeapId) (levels : list HeapFillLevel)
| BitmapHeader (levels : list HeapFillLevel)
| PlainHeader.

Definition header_bytes (h : PageHeader) (off : Z) : list Z :=
  match h with
  | RootHeader kind root levels => HeapNodeHeader.write (mk_HeapNodeHeader off kind root levels)
  | BitmapHeader levels => HeapNodeBitmapHeader.write (mk_HeapNodeBitmapHeader off levels)
  | PlainHeader => HeapNodePageHeader.write (mk_HeapNodePageHeader off)
  end.

Definition header_size (h : PageHeader) : Z :=
  match h with RootHeader _ _ _ => 12 | BitmapHeader _ => 66 | PlainHeader => 2 end.

(** The header that a page of this index has. *)
Definition header_for (i : Z) (h : PageHeader) : Prop :=
  match h with
  | RootHeader _ root levels => i = 0 /\ ser_wf root /\ length levels = 8%nat
  | BitmapHeader levels => i <> 0 /\ i mod 128 = 8 /\ length levels = 128%nat
  | PlainHeader => i <> 0 /\ i mod 128 <> 8
  end.

Definition map_of (base : Z) (allocs : list (list Z)) : list Z :=
  page_map_bytes (free_count allocs) (base :: ends base allocs).

(** The page with its map at [off]. *)
Definition page_bytes (h : PageHeader) (off : Z) (allocs : list (list Z)) (pad : list Z) : list Z :=
  header_bytes h off ++ concat allocs ++ pad ++ map_of (header_size h) allocs.

Definition map_offset (h : PageHeader) (allocs : list (list Z)) (pad : list Z) : Z :=
  header_size h + size_z (concat allocs) + size_z pad.

(** The page of index [i] has the header [h], the allocations [allocs] and
    [pad] before its map. *)
Definition shaped (i : Z) (h : PageHeader) (allocs : list (list Z)) (pad page : list Z) : Prop :=
  header_for i h /\ page = page_bytes h (map_offset h allocs pad) allocs pad /\
  size_z page <= MAX_DATA_BLOCK_PAYLOAD.

Lemma size_app {A} (l k : list A) : size_z (l ++ k) = size_z l + size_z k.
Proof. unfold size_z. rewrite length_app. lia. Qed.

Lemma size_nonneg {A} (l : list A) : 0 <= size_z l.
Proof. unfold size_z. lia. Qed.

Lemma size_nil {A} (l : list A) : size_z l = 0 -> l = [].
Proof. destruct l; [done|]. unfold size_z. cbn [length]. lia. Qed.

Lemma size_replicate {A} n (x : A) : 0 <= n -> size_z (replicate (Z.to_nat n) x) = n.
Proof. unfold size_z. rewrite length_replicate. lia. Qed.

(** The first two bytes of a header are the offset of the map. *)
Definition header_rest (h : PageHeader) : list Z := drop 2 (header_bytes h 0).

Lemma header_bytes_split h off : header_bytes h off = write_u16 off ++ header_rest h.
Proof. by destruct h. Qed.

Lemma size_header h off : size_z (header_bytes h off) = header_size h.
Proof.
  destruct h as [k r l|l|]; [done| |done]. cbn [header_bytes header_size]. unfold size_z.
  pose proof (rt_size (A := HeapNodeBitmapHeader) (mk_HeapNodeBitmapHeader off l)) as H. cbn in H. by rewrite H.
Qed.

Lemma header_read i h off s :
  header_for i h -> uint 16 off -> HeapNodeInner.read_page_map_offset i (header_bytes h off ++ s) = Ok (off, s).
Proof.
  intros Hh Ho. unfold HeapNodeInner.read_page_map_offset. destruct h as [k r l|l|]; cbn [header_bytes header_for] in *.
  - destruct Hh as (-> & Hr & Hl). cbn [Z.eqb].
    rewrite (rd_bind_eq _ _ _ (mk_HeapNodeHeader off k r l) s); [done|]. exact (rt_read (mk_HeapNodeHeader off k r l) s (conj Ho (conj Hr Hl))).
  - destruct Hh as (Hi & -> & Hl). rewrite (proj2 (Z.eqb_neq _ _) Hi). cbn [Z.eqb Pos.eqb].
    rewrite (rd_bind_eq _ _ _ (mk_HeapNodeBitmapHeader off l) s); [done|]. exact (rt_read (mk_HeapNodeBitmapHeader off l) s (conj Ho Hl)).
  - destruct Hh as (Hi & Hm). rewrite (proj2 (Z.eqb_neq _ _) Hi), (proj2 (Z.eqb_neq _ _) Hm).
    rewrite (rd_bind_eq _ _ _ (mk_HeapNodePageHeader off) s); [done|]. exact (rt_read (mk_HeapNodePageHeader off) s Ho).
Qed.

Lemma size_map base allocs : size_z (map_of base allocs) = 2 * size_z allocs + 6.
Proof.
  unfold map_of, page_map_bytes, size_z. rewrite !length_app, (length_concat_map _ 2); [|done].
  rewrite !length_write_u16. cbn [length]. rewrite length_ends. lia.
Qed.

Lemma size_page h off allocs pad :
  size_z (page_bytes h off allocs pad) = map_offset h allocs pad + 2 * size_z allocs + 6.
Proof. unfold page_bytes, map_offset. rewrite !size_app, size_header, size_map. lia. Qed.

Lemma header_size_range h : 2 <= header_size h <= 66.
Proof. destruct h; cbn; lia. Qed.

(** The sizes of the parts of a page. *)
Lemma shaped_sizes i h allocs pad page :
  shaped i h allocs pad page ->
  map_offset h allocs pad + 2 * size_z allocs + 6 = size_z page /\ size_z page <= MAX_DATA_BLOCK_PAYLOAD.
Proof. intros (_ & -> & Hs). split; [symmetry; apply size_page|done]. Qed.

(** A page of the shape holds its allocations. *)
Lemma shaped_holds i h allocs pad page : shaped i h allocs pad page -> page_holds i page allocs.
Proof.
  intros Hs. pose proof (shaped_sizes _ _ _ _ _ Hs) as Hz. destruct Hs as (Hh & Hp & Hle).
  unfold MAX_DATA_BLOCK_PAYLOAD in *. pose proof (header_size_range h). pose proof (size_nonneg (concat allocs)).
  pose proof (size_nonneg pad). pose proof (size_nonneg allocs). unfold map_offset in *.
  set (off := header_size h + size_z (concat allocs) + size_z pad) in *.
  assert (Hsz : Z.of_nat (length (header_bytes h off)) = header_size h) by apply size_header.
  apply (page_layout i page (header_bytes h off) allocs pad [] (concat allocs ++ pad ++ map_of (header_size h) allocs) (free_count allocs)).
  - rewrite Hp, Hsz, app_nil_r. done.
  - rewrite !length_app, !Nat2Z.inj_add, Hsz. unfold size_z in *. lia.
  - unfold size_z in *. lia.
  - done.
  - rewrite Hp. replace (Z.of_nat (length (header_bytes h off ++ concat allocs ++ pad))) with off
      by (rewrite !length_app, !Nat2Z.inj_add, Hsz; unfold off, size_z; lia).
    apply header_read; [done|]. unfold uint. lia.
Qed.

(** ** Building pages *)

#[local] Ltac Zify.zify_post_hook ::= Z.to_euclidean_division_equations.

(** Sizes that fit in memory. *)
Definition addressable (allocs : list (list Z)) : Prop := size_z (concat allocs) + size_z allocs < 2 ^ 62.

Lemma allocation_end_eq allocs base :
  0 <= base -> base + size_z (concat allocs) < 2 ^ 64 ->
  allocation_end allocs base = Some (base + size_z (concat allocs)).
Proof.
  revert base. induction allocs as [|a l IH]; intros base Hb Hs; cbn [allocation_end concat] in *.
  { f_equal. unfold size_z. cbn. lia. }
  rewrite size_app in *. pose proof (size_nonneg a). pose proof (size_nonneg (concat l)).
  unfold checked_add. rewrite (proj2 (Z.ltb_lt _ _)) by lia. rewrite IH by lia. f_equal. lia.
Qed.

Lemma page_map_size_eq n : 0 <= n < 2 ^ 62 -> page_map_size n = Some (2 * n + 6).
Proof.
  intros Hn. unfold page_map_size, checked_add, checked_mul.
  rewrite (proj2 (Z.ltb_lt (n + 1) _)), (proj2 (Z.ltb_lt ((n + 1) * 2) _)), (proj2 (Z.ltb_lt ((n + 1) * 2 + 4) _)) by lia.
  f_equal. lia.
Qed.

Lemma align_up_even x : 0 <= x < 2 ^ 63 -> align_up x 2 = x + x mod 2.
Proof.
  intros Hx. unfold align_up, div_ceil.
  rewrite wrap_small by (unfold uint; Z.to_euclidean_division_equations; lia).
  Z.to_euclidean_division_equations. lia.
Qed.

Lemma to_u16_ok x what : uint 16 x -> to_u16 x what = Ok x.
Proof. intros H. unfold to_u16. by rewrite (proj2 (uint_b_spec 16 x) H). Qed.

Lemma page_offsets_eq what base allocs :
  0 <= base -> base + size_z (concat allocs) < 2 ^ 16 ->
  page_offsets what base allocs = Ok (base :: ends base allocs).
Proof.
  intros Hb Hs. unfold page_offsets. apply rmapM_Forall2.
  assert (Hu : Forall (uint 16) (base :: ends base allocs)).
  { pose proof (size_nonneg (concat allocs)). constructor; [unfold uint; lia|].
    eapply Forall_impl; [apply ends_bound|]. intros e. cbn. unfold uint, size_z in *. lia. }
  induction Hu as [|x l Hx _ IH]; constructor; [by apply to_u16_ok|done].
Qed.

Lemma resize_pad l n : size_z l <= n -> resize n l = l ++ replicate (Z.to_nat (n - size_z l)) 0.
Proof.
  intros H. unfold resize, size_z in *. rewrite take_ge by lia. do 2 f_equal. lia.
Qed.

(** The padding that makes the offset of the map even. *)
Definition even_pad (base : Z) (allocs : list (list Z)) : list Z :=
  replicate (Z.to_nat ((base + size_z (concat allocs)) mod 2)) 0.

Definition page_total (base : Z) (allocs : list (list Z)) : Z :=
  base + size_z (concat allocs) + (base + size_z (concat allocs)) mod 2 + 2 * size_z allocs + 6.

Lemma size_even_pad base allocs : 0 <= base -> size_z (even_pad base allocs) = (base + size_z (concat allocs)) mod 2.
Proof. intros Hb. apply size_replicate. lia. Qed.

Lemma free_count_le allocs : 0 <= free_count allocs <= size_z allocs.
Proof.
  unfold free_count, size_z. pose proof (length_filter (fun a => a = []) allocs). lia.
Qed.

Lemma built_shaped i h allocs :
  header_for i h -> page_total (header_size h) allocs <= MAX_DATA_BLOCK_PAYLOAD ->
  let pad := even_pad (header_size h) allocs in
  shaped i h allocs pad (page_bytes h (map_offset h allocs pad) allocs pad).
Proof.
  intros Hh Ht pad. split_and!; [done|done|]. rewrite size_page. unfold map_offset, page_total in *.
  pose proof (header_size_range h). unfold pad. rewrite size_even_pad by lia. lia.
Qed.

Definition root_header (kind : HeapNodeType) : PageHeader :=
  RootHeader kind (HeapId.from_u32 0x20) (replicate 8 FillEmpty).

(** The first page: built exactly when it fits in a block. *)
Lemma heap_page_eq kind allocs :
  addressable allocs ->
  let h := root_header kind in let pad := even_pad 12 allocs in
  heap_page kind allocs =
    if page_total 12 allocs <=? MAX_DATA_BLOCK_PAYLOAD
    then Ok (page_bytes h (map_offset h allocs pad) allocs pad)
    else Err (ValueTooLarge "heap page").
Proof.
  intros Ha h pad. unfold addressable in Ha. unfold heap_page, page_total. set (s := size_z (concat allocs)) in *.
  pose proof (size_nonneg (concat allocs)). pose proof (size_nonneg allocs). fold s in H.
  rewrite allocation_end_eq by (fold s; lia). fold s. cbn [fits ok_or rbind].
  rewrite align_up_even, page_map_size_eq by lia. cbn [fits ok_or rbind].
  unfold checked_add. rewrite (proj2 (Z.ltb_lt _ _)) by lia. cbn [fits ok_or rbind].
  rewrite (Z.ltb_antisym). replace (12 + s + (12 + s) mod 2 + (2 * size_z allocs + 6)) with (12 + s + (12 + s) mod 2 + 2 * size_z allocs + 6) by lia.
  change 8176 with MAX_DATA_BLOCK_PAYLOAD. destruct (Z.leb_spec (12 + s + (12 + s) mod 2 + 2 * size_z allocs + 6) MAX_DATA_BLOCK_PAYLOAD) as [Hle|Hgt]; cbn [negb]; [|done].
  unfold MAX_DATA_BLOCK_PAYLOAD in Hle.
  assert (Hoff : map_offset h allocs pad = 12 + s + (12 + s) mod 2).
  { unfold map_offset, h, pad. cbn [header_size root_header]. rewrite size_even_pad by lia. done. }
  rewrite to_u16_ok by (unfold uint; lia). cbn [rbind]. change (HeapId.new 1 0) with (Ok (E := LtpError) (HeapId.from_u32 0x20)).
  cbn [structure_ltp rmap_err rbind]. change (size_z (HeapNodeHeader.write _)) with 12.
  rewrite page_offsets_eq by (fold s; lia). cbn [rbind].
  rewrite resize_pad by (rewrite size_app; change (size_z (HeapNodeHeader.write _)) with 12; fold s; lia).
  pose proof (free_count_le allocs). rewrite !to_u16_ok by (unfold uint; lia). cbn [rbind]. f_equal.
  unfold page_bytes, map_of, page_map_bytes. rewrite Hoff, <- !app_assoc. unfold header_bytes, h, root_header at 1.
  f_equal. f_equal. f_equal.
  - unfold pad, even_pad. do 2 f_equal. rewrite size_app. change (size_z (HeapNodeHeader.write _)) with 12. fold s. lia.
  - cbn [header_size root_header length]. rewrite length_ends. do 2 f_equal. unfold size_z. lia.
Qed.

Definition page_header (i : Z) : PageHeader :=
  if is_bitmap_page i then BitmapHeader (replicate 128 FillEmpty) else PlainHeader.

Lemma page_header_for i : i <> 0 -> header_for i (page_header i).
Proof.
  intros Hi. unfold page_header, is_bitmap_page. destruct (Z.eqb_spec (i mod 128) 8); cbn; by split_and?.
Qed.

Lemma no_empty_allocations allocs : Forall (fun a => a <> []) allocs -> free_count allocs = 0.
Proof.
  intros H. unfold free_count. induction H as [|a l Ha _ IH]; [done|].
  rewrite filter_cons, decide_False by done. exact IH.
Qed.

(** A page after the first, of allocations that are not empty. *)
Lemma continuation_page_eq i allocs :
  addressable allocs -> Forall (fun a => a <> []) allocs ->
  let h := page_header i in let pad := even_pad (header_size h) allocs in
  heap_continuation_page_allocations i allocs =
    if page_total (header_size h) allocs <=? MAX_DATA_BLOCK_PAYLOAD
    then Ok (page_bytes h (map_offset h allocs pad) allocs pad)
    else Err (ValueTooLarge "heap continuation page").
Proof.
  intros Ha Hne h pad. unfold addressable in Ha. unfold heap_continuation_page_allocations, page_total.
  pose proof (size_nonneg (concat allocs)). pose proof (size_nonneg allocs). pose proof (header_size_range h) as Hr.
  replace (if is_bitmap_page i then 66 else 2) with (header_size h)
    by (unfold h, page_header; by destruct (is_bitmap_page i)).
  set (s := size_z (concat allocs)) in *. set (b := header_size h) in *.
  rewrite allocation_end_eq by (fold s; lia). fold s. cbn [fits ok_or rbind].
  rewrite align_up_even, page_map_size_eq by lia. cbn [fits ok_or rbind].
  unfold checked_add. rewrite (proj2 (Z.ltb_lt _ _)) by lia. cbn [fits ok_or rbind].
  rewrite Z.ltb_antisym, Z.add_assoc.
  destruct (Z.leb_spec (b + s + (b + s) mod 2 + 2 * size_z allocs + 6) MAX_DATA_BLOCK_PAYLOAD) as [Hle|Hgt]; cbn [negb]; [|done].
  unfold MAX_DATA_BLOCK_PAYLOAD in Hle.
  assert (Hoff : map_offset h allocs pad = b + s + (b + s) mod 2).
  { unfold map_offset, pad. rewrite size_even_pad by lia. done. }
  rewrite to_u16_ok by (unfold uint; lia). cbn [rbind]. rewrite <- Hoff.
  match goal with |- context [page_offsets _ (size_z ?d)] => replace d with (header_bytes h (map_offset h allocs pad))
    by (unfold h, page_header; by destruct (is_bitmap_page i)) end.
  rewrite size_header. fold b. rewrite page_offsets_eq by (fold s; lia). cbn [rbind].
  rewrite resize_pad by (rewrite size_app, size_header, Hoff; fold s b; lia).
  rewrite !to_u16_ok by (unfold uint; lia). cbn [rbind]. f_equal.
  unfold page_bytes, map_of, page_map_bytes. rewrite (no_empty_allocations _ Hne), <- !app_assoc. f_equal. f_equal. f_equal.
  - rewrite size_app, size_header, Hoff. unfold pad, even_pad. fold s b. do 2 f_equal. lia.
  - fold b. cbn [length]. rewrite length_ends. do 2 f_equal. unfold size_z. lia.
Qed.

(** ** Filling a page *)

Lemma ends_app base allocs pads :
  ends base (allocs ++ pads) = ends base allocs ++ ends (base + size_z (concat allocs)) pads.
Proof.
  revert base. induction allocs as [|a l IH]; intros base; cbn [ends concat app].
  - unfold size_z. cbn. by rewrite Z.add_0_r.
  - rewrite IH, size_app. do 3 f_equal. unfold size_z. lia.
Qed.

Lemma ends_last base allocs :
  exists l, base :: ends base allocs = l ++ [base + size_z (concat allocs)] /\ length l = length allocs.
Proof.
  revert base. induction allocs as [|a allocs IH]; intros base; cbn [ends concat].
  - exists []. unfold size_z. cbn. by rewrite Z.add_0_r.
  - destruct (IH (base + Z.of_nat (length a))) as (l & Hl & Hn). exists (base :: l).
    cbn [app length]. rewrite Hl, size_app, Hn. unfold size_z. split; [|done]. do 3 f_equal. lia.
Qed.

(** The last two bytes of a map are the end of the last allocation. *)
Lemma map_last base allocs : exists l, map_of base allocs = l ++ write_u16 (base + size_z (concat allocs)).
Proof.
  destruct (ends_last base allocs) as (l & Hl & _). unfold map_of, page_map_bytes. rewrite Hl, map_app, concat_app.
  cbn [map concat]. rewrite app_nil_r, !app_assoc. by eexists.
Qed.

Lemma le_val_u16 x : uint 16 x -> le_val (write_u16 x) = x.
Proof. intros H. by apply (le_val_bytes 2). Qed.

Lemma head_u16_app x s what : uint 16 x -> head_u16 (write_u16 x ++ s) what = Ok x.
Proof.
  intros H. unfold head_u16. rewrite length_app, length_write_u16. cbn [Nat.leb plus].
  rewrite (take_app_exact _ _ 2) by done. by rewrite le_val_u16.
Qed.

(** The rounds of the loop: the first number of paddings that can take the
    rest of the page. *)
Lemma padding_loop_ok map_size e :
  0 <= e -> 0 <= map_size -> map_size + e + 3 <= MAX_DATA_BLOCK_PAYLOAD ->
  exists k, 1 <= k <= 3 /\
    let size := MAX_DATA_BLOCK_PAYLOAD - map_size - 2 * k - e in
    padding_loop PADDING_FUEL map_size e 1 = Ok (e + size, size, k) /\ k <= size <= k * MAX_HEAP_ALLOCATION.
Proof.
  unfold MAX_DATA_BLOCK_PAYLOAD, MAX_HEAP_ALLOCATION. intros He Hm Hs.
  assert (Hround : forall fuel k, 1 <= k <= 3 -> k <= 8176 - map_size - 2 * k - e ->
    padding_loop (S fuel) map_size e k =
      if 8176 - map_size - 2 * k - e <=? k * 3580
      then Ok (e + (8176 - map_size - 2 * k - e), 8176 - map_size - 2 * k - e, k)
      else padding_loop fuel map_size e (k + 1)).
  { intros fuel k Hk Hp. cbn [padding_loop]. unfold checked_mul, checked_add, checked_sub, MAX_DATA_BLOCK_PAYLOAD, MAX_HEAP_ALLOCATION.
    rewrite (proj2 (Z.ltb_lt (k * 2) _)) by lia. cbn [fits ok_or rbind].
    rewrite (proj2 (Z.ltb_lt (map_size + k * 2) _)) by lia. cbn [fits ok_or rbind].
    rewrite (proj2 (Z.leb_le (map_size + k * 2) _)) by lia. cbn [fits ok_or rbind].
    rewrite (proj2 (Z.leb_le e _)) by lia. cbn [fits ok_or rbind].
    rewrite (proj2 (Z.ltb_lt (k * 3580) _)) by lia. cbn [fits ok_or rbind].
    replace (8176 - (map_size + k * 2) - e) with (8176 - map_size - 2 * k - e) by lia.
    rewrite (proj2 (Z.ltb_ge _ k)) by lia.
    replace (e + (8176 - map_size - 2 * k - e)) with (8176 - (map_size + k * 2)) by lia.
    destruct (Z.leb _ _); [done|]. by rewrite (proj2 (Z.ltb_lt (k + 1) _)) by lia. }
  unfold PADDING_FUEL. rewrite Hround by lia.
  destruct (Z.leb_spec (8176 - map_size - 2 * 1 - e) (1 * 3580)); [exists 1; cbv zeta; split; [lia|split; [reflexivity|lia]]|].
  rewrite Hround by lia.
  destruct (Z.leb_spec (8176 - map_size - 2 * (1 + 1) - e) ((1 + 1) * 3580)); [exists 2; cbv zeta; split; [lia|split; [reflexivity|lia]]|].
  rewrite Hround by lia. rewrite (proj2 (Z.leb_le _ _)) by lia. exists 3. cbv zeta. split; [lia|split; [reflexivity|lia]].
Qed.

(** Allocations of zeros that fill a gap. *)
Definition paddings (pads : list (list Z)) : Prop :=
  Forall (fun p => 0 < size_z p <= MAX_HEAP_ALLOCATION /\ p = replicate (length p) 0) pads.

Lemma padding_offsets_ok left : forall e size,
  0 <= e -> e + size < 2 ^ 16 -> Z.of_nat left <= size <= Z.of_nat left * MAX_HEAP_ALLOCATION ->
  exists pads, padding_offsets left e size = Ok (ends e pads, e + size, 0) /\ paddings pads /\
    length pads = left /\ concat pads = replicate (Z.to_nat size) 0.
Proof.
  induction left as [|left IH]; intros e size He Hs Hl; cbn [padding_offsets].
  { exists []. assert (size = 0) as -> by lia. cbn. rewrite Z.add_0_r. split_and!; [done|constructor|done|done]. }
  unfold saturating_sub. rewrite Z.max_r by lia. set (a := Z.min (size - Z.of_nat left) MAX_HEAP_ALLOCATION).
  unfold MAX_HEAP_ALLOCATION in *. assert (Ha : 0 < a <= size) by lia.
  destruct (IH (e + a) (size - a)) as (pads & Hp & Hpads & Hn & Hc); [lia..|].
  unfold checked_add. rewrite (proj2 (Z.ltb_lt _ _)) by lia. cbn [fits ok_or rbind].
  rewrite to_u16_ok by (unfold uint; lia). cbn [rbind]. unfold wrapping_sub.
  rewrite wrap_small by (unfold uint; lia). rewrite Hp. cbn [rbind].
  exists (replicate (Z.to_nat a) 0 :: pads). split_and!.
  - cbn [ends]. rewrite length_replicate, Z2Nat.id by lia. do 3 f_equal. lia.
  - constructor; [|done]. rewrite size_replicate, length_replicate by lia. split; [unfold MAX_HEAP_ALLOCATION; lia|done].
  - cbn. by rewrite Hn.
  - cbn [concat]. rewrite Hc, <- replicate_add. f_equal. lia.
Qed.

Lemma replicate_resize (l : list Z) k n :
  size_z l <= n -> resize n (l ++ replicate k 0) = l ++ replicate (Z.to_nat (n - size_z l)) 0.
Proof.
  unfold resize, size_z. intros H. rewrite take_app, take_ge by lia. rewrite length_app, length_replicate, <- app_assoc, take_replicate.
  f_equal. rewrite <- replicate_add. f_equal. lia.
Qed.

Lemma size_header_rest h : size_z (header_rest h) = header_size h - 2.
Proof. pose proof (size_header h 0) as H. rewrite header_bytes_split, size_app in H. change (size_z (write_u16 0)) with 2 in H. lia. Qed.

Lemma paddings_free allocs pads : paddings pads -> free_count (allocs ++ pads) = free_count allocs.
Proof.
  intros H. unfold free_count. rewrite filter_app.
  assert (filter (fun a : list Z => a = []) pads = []) as ->; [|by rewrite app_nil_r].
  induction H as [|p l [Hp _] _ IH]; [done|]. rewrite filter_cons, decide_False; [done|]. intros ->. by destruct Hp.
Qed.

Lemma map_extend base allocs pads :
  paddings pads -> uint 16 (size_z allocs + size_z pads) ->
  write_u16 (size_z allocs + size_z pads) ++ drop 2 (map_of base allocs) ++
    concat (map write_u16 (ends (base + size_z (concat allocs)) pads)) = map_of base (allocs ++ pads).
Proof.
  intros Hp Hu. unfold map_of, page_map_bytes. rewrite (drop_app_exact _ _ 2) by done.
  rewrite ends_app, (paddings_free _ _ Hp). cbn [map concat length].
  rewrite map_app, concat_app, length_app, !length_ends, <- !app_assoc.
  replace (Z.of_nat (S (length allocs + length pads)) - 1) with (size_z allocs + size_z pads) by (unfold size_z; lia).
  done.
Qed.

(** What [fill_heap_page] reads from a page. *)
Lemma page_reads h off allocs pad :
  uint 16 off -> off = map_offset h allocs pad -> size_z allocs < 2 ^ 16 ->
  let page := page_bytes h off allocs pad in let m := map_of (header_size h) allocs in
  head_u16 page "heap page has no map offset" = Ok off /\
  take (Z.to_nat off) page = write_u16 off ++ header_rest h ++ concat allocs ++ pad /\
  drop (Z.to_nat off) page = m /\
  head_u16 m "heap page map has no count" = Ok (size_z allocs) /\
  le_val (drop (length m - 2) m) = header_size h + size_z (concat allocs).
Proof.
  intros Ho Hoff Hn page m. pose proof (size_nonneg (concat allocs)). pose proof (size_nonneg allocs).
  pose proof (size_nonneg pad). pose proof (header_size_range h).
  assert (Hpre : length (header_bytes h off ++ concat allocs ++ pad) = Z.to_nat off).
  { enough (size_z (header_bytes h off ++ concat allocs ++ pad) = off) by (unfold size_z in *; lia).
    rewrite !size_app, size_header, Hoff. unfold map_offset. lia. }
  assert (Hpage : page = (header_bytes h off ++ concat allocs ++ pad) ++ m) by (unfold page, page_bytes; by rewrite <- !app_assoc).
  split_and!.
  - rewrite Hpage, header_bytes_split, <- !app_assoc. by apply head_u16_app.
  - rewrite Hpage, take_app_exact by done. by rewrite header_bytes_split, <- !app_assoc.
  - rewrite Hpage. by apply drop_app_exact.
  - unfold m, map_of, page_map_bytes. cbn [length]. rewrite length_ends.
    replace (Z.of_nat (S (length allocs)) - 1) with (size_z allocs) by (unfold size_z; lia).
    apply head_u16_app. unfold uint. lia.
  - destruct (map_last (header_size h) allocs) as (l & Hl). unfold m. rewrite Hl, length_app, length_write_u16.
    rewrite Nat.add_sub, drop_app_length. apply le_val_u16. unfold uint, map_offset in *. lia.
Qed.

(** The paddings of a page: they fill the gap up to the map. *)
Lemma fill_paddings used n :
  0 <= used -> 0 <= n -> used + 2 * n + 6 + 3 <= MAX_DATA_BLOCK_PAYLOAD ->
  exists pads gap, paddings pads /\ pads <> [] /\ concat pads = replicate (Z.to_nat gap) 0 /\ 0 < gap /\
    used + gap + 2 * (n + size_z pads) + 6 = MAX_DATA_BLOCK_PAYLOAD /\
    padding_loop PADDING_FUEL (2 * n + 6) used 1 = Ok (used + gap, gap, size_z pads) /\
    padding_offsets (Z.to_nat (size_z pads)) used gap = Ok (ends used pads, used + gap, 0).
Proof.
  intros Hu Hn Hroom. destruct (padding_loop_ok (2 * n + 6) used) as (p & Hp3 & Hloop & Hsz); [lia..|].
  cbv zeta in Hloop, Hsz. unfold MAX_DATA_BLOCK_PAYLOAD in *.
  set (gap := 8176 - (2 * n + 6) - 2 * p - used) in *.
  destruct (padding_offsets_ok (Z.to_nat p) used gap) as (pads & Hpo & Hpads & Hl & Hc); [lia..|].
  assert (Hnp : size_z pads = p) by (unfold size_z; lia). exists pads, gap. rewrite Hnp.
  split_and!; [done|intros ->; cbn in Hl; lia|done|lia|lia|done|done].
Qed.

(** Filling keeps the header and the allocations and ends with padding
    allocations, with no gap before the map; only a page that leaves no room
    for one padding and its offset cannot be filled. *)
Lemma fill_heap_page_eq i h allocs k page :
  shaped i h allocs (replicate k 0) page -> size_z page < MAX_DATA_BLOCK_PAYLOAD ->
  size_z page - Z.of_nat k + 3 <= MAX_DATA_BLOCK_PAYLOAD ->
  exists pads page', fill_heap_page page = Ok page' /\ shaped i h (allocs ++ pads) [] page' /\
    paddings pads /\ pads <> [] /\ size_z page' = MAX_DATA_BLOCK_PAYLOAD.
Proof.
  intros Hs Hlt Hroom. pose proof (shaped_sizes _ _ _ _ _ Hs) as [Hz _]. destruct Hs as (Hh & Hp & _).
  pose proof (header_size_range h). pose proof (size_nonneg (concat allocs)). pose proof (size_nonneg allocs).
  assert (Hk : size_z (replicate k 0) = Z.of_nat k) by (unfold size_z; by rewrite length_replicate).
  set (off := map_offset h allocs (replicate k 0)) in *. assert (Ho : off = header_size h + size_z (concat allocs) + Z.of_nat k) by (unfold off, map_offset; lia).
  set (used := header_size h + size_z (concat allocs)) in *.
  destruct (fill_paddings used (size_z allocs)) as (pads & gap & Hpads & Hne & Hc & Hg & Hfull & Hloop & Hpo); [lia..|].
  unfold MAX_DATA_BLOCK_PAYLOAD in Hlt, Hroom, Hfull. pose proof (size_nonneg pads).
  assert (Hcp : size_z (concat pads) = gap) by (rewrite Hc; apply size_replicate; lia).
  assert (Hoff' : map_offset h (allocs ++ pads) [] = used + gap).
  { unfold map_offset. rewrite concat_app, size_app, Hcp. unfold used. change (size_z (@nil Z)) with 0. lia. }
  assert (Hsize : size_z (page_bytes h (used + gap) (allocs ++ pads) []) = 8176) by (rewrite size_page, size_app, Hoff'; lia).
  exists pads, (page_bytes h (used + gap) (allocs ++ pads) []).
  split; [|split; [split; [done|]; rewrite Hoff', Hsize; done|by rewrite Hsize]].
  destruct (page_reads h off allocs (replicate k 0)) as (R1 & R2 & R3 & R4 & R5); [unfold uint; lia|done|lia|].
  rewrite <- Hp in R1, R2, R3. unfold fill_heap_page.
  rewrite (proj2 (Z.leb_gt _ (size_z page))) by (unfold MAX_DATA_BLOCK_PAYLOAD; lia). rewrite R1. cbn [rbind].
  rewrite (proj2 (Z.leb_le _ (size_z page))), R3 by lia. cbn [ok_or rbind]. rewrite R4. cbn [rbind].
  rewrite page_map_size_eq by lia. cbn [fits ok_or rbind]. rewrite size_map, Z.eqb_refl, R5. cbn [negb]. fold used.
  rewrite Hloop. cbn [rbind]. rewrite to_u16_ok by (unfold uint; lia). cbn [rbind].
  unfold checked_add at 1. rewrite (proj2 (Z.ltb_lt _ _)) by lia. cbn [fits ok_or rbind].
  rewrite Hpo. cbn [rbind]. rewrite !Z.eqb_refl. cbn [negb orb]. rewrite to_u16_ok by (unfold uint; lia). cbn [rbind]. f_equal.
  unfold used. rewrite (map_extend _ _ _ Hpads), R2 by (unfold uint; lia). fold used.
  rewrite !app_assoc, replicate_resize by (rewrite !size_app, size_header_rest; change (size_z (write_u16 off)) with 2; lia).
  rewrite <- !app_assoc. unfold page_bytes. rewrite header_bytes_split, (drop_app_exact _ _ 2), concat_app, Hc, <- !app_assoc by done.
  do 5 f_equal. rewrite !size_app, size_header_rest. change (size_z (write_u16 off)) with 2. lia.
Qed.

(** ** Placing allocations *)

Definition allocation_ok (a : list Z) : Prop := 0 < size_z a <= MAX_HEAP_ALLOCATION.

(** Room for one padding is left on a page of index [i]. *)
Definition page_fits (i : Z) (allocs : list (list Z)) : Prop :=
  page_total (header_size (page_header i)) allocs + 3 <= MAX_DATA_BLOCK_PAYLOAD /\ Forall allocation_ok allocs.

(** The pages after the first, page [k] of the list having the index
    [k + 1]. *)
Definition pages_fit (pages : list (list (list Z))) : Prop :=
  forall k allocs, pages !! k = Some allocs -> page_fits (Z.of_nat k + 1) allocs.

(** The heap id of an allocation. *)
Definition located (pages : list (list (list Z))) (id : HeapId) (a : list Z) : Prop :=
  exists k j allocs, pages !! k = Some allocs /\ allocs !! j = Some a /\
    HeapId.block_index id = Z.of_nat k + 1 /\ HeapId.index id = Ok (Z.of_nat j) /\
    HeapId.into_u32 id <> 0 /\ ser_wf id.

Definition extends (pages pages' : list (list (list Z))) : Prop :=
  forall k allocs, pages !! k = Some allocs -> exists more, pages' !! k = Some (allocs ++ more).

#[export] Instance extends_pre : PreOrder extends.
Proof.
  split.
  - intros pages k allocs H. exists []. by rewrite app_nil_r.
  - intros p q r Hpq Hqr k allocs H. destruct (Hpq _ _ H) as (m & Hq). destruct (Hqr _ _ Hq) as (n & Hr).
    exists (m ++ n). by rewrite app_assoc.
Qed.

Lemma located_extends pages pages' id a : extends pages pages' -> located pages id a -> located pages' id a.
Proof.
  intros He (k & j & allocs & Hk & Hj & H). destruct (He _ _ Hk) as (more & Hk').
  exists k, j, (allocs ++ more). split_and!; try apply H; [done|]. by apply lookup_app_l_Some.
Qed.

Lemma allocations_nonempty allocs : Forall allocation_ok allocs -> Forall (fun a => a <> []) allocs.
Proof. intros H. eapply Forall_impl; [exact H|]. intros a [Ha _] ->. by cbn in Ha. Qed.

Lemma page_total_mono base allocs : 0 <= base -> base + size_z (concat allocs) + 2 * size_z allocs + 6 <= page_total base allocs.
Proof. intros Hb. pose proof (size_nonneg (concat allocs)). unfold page_total. lia. Qed.

Lemma size_snoc {A} (l : list A) x : size_z (l ++ [x]) = size_z l + 1.
Proof. by rewrite size_app. Qed.

Lemma concat_snoc {A} (l : list (list A)) x : concat (l ++ [x]) = concat l ++ x.
Proof. rewrite concat_app. cbn. by rewrite app_nil_r. Qed.

Lemma grown_addressable i allocs a : page_fits i allocs -> allocation_ok a -> addressable (allocs ++ [a]).
Proof.
  intros [Ht _] [_ Ha]. pose proof (header_size_range (page_header i)). pose proof (size_nonneg allocs).
  pose proof (page_total_mono (header_size (page_header i)) allocs ltac:(lia)).
  unfold addressable, MAX_DATA_BLOCK_PAYLOAD, MAX_HEAP_ALLOCATION in *. rewrite concat_snoc, size_app, size_snoc. lia.
Qed.

(** What a new allocation does to the last page. *)
Lemma push_heap_allocation_eq ps current a :
  page_fits (size_z ps + 1) current -> allocation_ok a -> size_z ps + 1 < 2 ^ 16 ->
  let i := size_z ps + 1 in let grown := current ++ [a] in
  push_heap_allocation (ps ++ [current]) a =
    if page_total (header_size (page_header i)) grown + 3 <=? MAX_DATA_BLOCK_PAYLOAD
    then let? id := structure_ltp (HeapId.new (size_z grown) i) in Ok (id, ps ++ [grown])
    else push_new_page (ps ++ [current]) a.
Proof.
  intros Hfit Ha Hps i grown. pose proof (grown_addressable _ _ _ Hfit Ha) as Hg.
  assert (Hne : Forall (fun a => a <> []) grown).
  { apply Forall_app. split; [apply allocations_nonempty, Hfit|]. constructor; [|done]. destruct Ha as [Ha _]. by intros ->. }
  unfold push_heap_allocation, allocation_ok in *. rewrite (proj2 (Z.eqb_neq _ 0)), (proj2 (Z.ltb_ge _ _)) by lia. cbn [orb].
  pose proof (size_nonneg ps). pose proof (size_nonneg grown).
  rewrite size_snoc, to_u16_ok by (unfold uint; lia). cbn [rbind]. rewrite last_snoc. fold grown i.
  rewrite (continuation_page_eq i grown Hg Hne). rewrite removelast_last.
  pose proof (header_size_range (page_header i)). pose proof (page_total_mono (header_size (page_header i)) grown ltac:(lia)).
  pose proof (size_nonneg (concat grown)).
  destruct (Z.leb_spec (page_total (header_size (page_header i)) grown) MAX_DATA_BLOCK_PAYLOAD) as [Hle|Hgt].
  - rewrite size_page. unfold sat64, map_offset. rewrite size_even_pad by lia.
    replace (header_size (page_header i) + size_z (concat grown) + (header_size (page_header i) + size_z (concat grown)) mod 2 +
      2 * size_z grown + 6) with (page_total (header_size (page_header i)) grown) by (unfold page_total; lia).
    unfold MAX_DATA_BLOCK_PAYLOAD in *. rewrite Z.min_r by lia.
    destruct (Z.leb_spec (page_total (header_size (page_header i)) grown + 3) 8176); [|done].
    by rewrite to_u16_ok by (unfold uint; lia).
  - rewrite (proj2 (Z.leb_gt _ _)) by lia. done.
Qed.

(** A new page for an allocation. *)
Lemma push_new_page_eq pages a :
  allocation_ok a -> size_z pages + 1 < 2 ^ 16 ->
  push_new_page pages a =
    (let? id := structure_ltp (HeapId.new 1 (size_z pages + 1)) in Ok (id, pages ++ [[a]])) /\
  page_fits (size_z pages + 1) [a].
Proof.
  intros Ha Hp. pose proof (size_nonneg pages). set (i := size_z pages + 1).
  pose proof (header_size_range (page_header i)).
  assert (Hfit : page_fits i [a]).
  { unfold page_fits, page_total, allocation_ok, MAX_DATA_BLOCK_PAYLOAD, MAX_HEAP_ALLOCATION in *. cbn [concat]. rewrite app_nil_r.
    change (size_z [a]) with 1. split; [lia|by constructor]. }
  split; [|done]. unfold push_new_page. rewrite size_snoc, to_u16_ok by (unfold uint; lia). cbn [rbind].
  rewrite last_snoc. cbn [ok_or rbind]. fold i. rewrite continuation_page_eq.
  - rewrite (proj2 (Z.leb_le _ _)) by (destruct Hfit; lia). done.
  - apply (grown_addressable i []); [|done]. split; [|constructor]. unfold page_total, MAX_DATA_BLOCK_PAYLOAD. change (size_z (concat [])) with 0. change (size_z (@nil (list Z))) with 0. lia.
  - constructor; [|done]. destruct Ha as [Ha _]. by intros ->.
Qed.

Lemma located_new ps allocs a id n i :
  n = size_z allocs + 1 -> i = size_z ps + 1 -> n < 2 ^ 11 -> i < 2 ^ 16 ->
  HeapId.new n i = Ok id -> located (ps ++ [allocs ++ [a]]) id a.
Proof.
  intros -> -> Hn Hi Hid. pose proof (size_nonneg allocs). pose proof (size_nonneg ps).
  destruct (heap_id_new (size_z allocs + 1) (size_z ps + 1)) as (h & Hh & Hu & Hwf & Hb & Hj); [unfold uint; lia..|].
  rewrite Hid in Hh. injection Hh as ->. exists (length ps), (length allocs), (allocs ++ [a]). split_and!.
  - apply list_lookup_middle. done.
  - apply list_lookup_middle. done.
  - done.
  - rewrite Hj. rewrite (proj2 (Z.ltb_ge _ _)) by lia. unfold size_z. f_equal. lia.
  - rewrite Hu. lia.
  - done.
Qed.

Lemma extends_snoc ps allocs more : extends (ps ++ [allocs]) (ps ++ [allocs ++ more]).
Proof.
  intros k l H. apply lookup_app_Some in H as [H|[Hk H]].
  - exists []. rewrite app_nil_r. by apply lookup_app_l_Some.
  - apply list_lookup_singleton_Some in H as [Hz <-]. exists more. rewrite lookup_app_r by lia.
    by rewrite Hz.
Qed.

Lemma extends_app ps more : extends ps (ps ++ more).
Proof. intros k l H. exists []. rewrite app_nil_r. by apply lookup_app_l_Some. Qed.

Lemma pages_fit_snoc ps allocs :
  pages_fit ps -> page_fits (size_z ps + 1) allocs -> pages_fit (ps ++ [allocs]).
Proof.
  intros Hp Ha k l H. apply lookup_app_Some in H as [H|[Hk H]]; [by apply Hp|].
  apply list_lookup_singleton_Some in H as [Hz <-]. replace (Z.of_nat k) with (size_z ps) by (unfold size_z; lia). done.
Qed.

Lemma pages_fit_init ps allocs : pages_fit (ps ++ [allocs]) -> pages_fit ps /\ page_fits (size_z ps + 1) allocs.
Proof.
  intros H. split.
  - intros k l Hk. apply H. by apply lookup_app_l_Some.
  - apply (H (length ps)). by apply list_lookup_middle.
Qed.

Lemma heap_id_new_index n i id : uint 16 n -> HeapId.new n i = Ok id -> n < 2 ^ 11.
Proof.
  intros Hn Hid. destruct (Z.lt_ge_cases n (2 ^ 11)) as [|Hge]; [done|]. by rewrite heap_id_new_large in Hid.
Qed.

Lemma push_new_page_ok pages a id pages' :
  pages_fit pages -> allocation_ok a -> push_new_page pages a = Ok (id, pages') ->
  pages_fit pages' /\ extends pages pages' /\ located pages' id a /\ size_z pages' < 2 ^ 16.
Proof.
  intros Hf Ha H. assert (Hn : size_z pages + 1 < 2 ^ 16).
  { unfold push_new_page, to_u16 in H. rewrite size_snoc in H. destruct (uint_b 16 _) eqn:Hu; [|done].
    apply uint_b_spec in Hu. apply Hu. }
  destruct (push_new_page_eq pages a Ha Hn) as [Heq Hfit]. rewrite Heq in H. clear Heq.
  destruct (HeapId.new 1 (size_z pages + 1)) as [id'|e|] eqn:Hid; cbn in H; [|done..]. injection H as <- <-.
  split_and!; [by apply pages_fit_snoc|apply extends_app| |by rewrite size_snoc].
  apply (located_new pages [] a id' 1 (size_z pages + 1)); [done|done|lia|done|done].
Qed.

(** A placed allocation is found under its id, and those placed before stay
    where they were. *)
Lemma push_heap_allocation_ok pages a id pages' :
  pages_fit pages -> size_z pages < 2 ^ 16 -> push_heap_allocation pages a = Ok (id, pages') ->
  allocation_ok a /\ pages_fit pages' /\ extends pages pages' /\ located pages' id a /\ size_z pages' < 2 ^ 16.
Proof.
  intros Hf Hn H. assert (Ha : allocation_ok a).
  { unfold push_heap_allocation in H. destruct (_ || _) eqn:E; [done|]. zb. unfold allocation_ok. pose proof (size_nonneg a). lia. }
  split; [done|]. destruct pages as [|current ps _] using rev_ind.
  - assert (push_heap_allocation [] a = push_new_page [] a) as Heq.
    { unfold push_heap_allocation, allocation_ok in *. by rewrite (proj2 (Z.eqb_neq _ 0)), (proj2 (Z.ltb_ge _ _)) by lia. }
    rewrite Heq in H. by apply push_new_page_ok.
  - apply pages_fit_init in Hf as [Hps Hcur]. rewrite size_snoc in *.
    rewrite push_heap_allocation_eq in H by (done || lia). destruct (Z.leb_spec (page_total (header_size (page_header (size_z ps + 1))) (current ++ [a]) + 3) MAX_DATA_BLOCK_PAYLOAD) as [Hle|Hgt].
    + destruct (HeapId.new _ _) as [id'|e|] eqn:Hid in H; cbn in H; [|done..]. injection H as <- <-.
      assert (Hfit : page_fits (size_z ps + 1) (current ++ [a])).
      { split; [done|]. apply Forall_app. split; [apply Hcur|by constructor]. }
      pose proof (header_size_range (page_header (size_z ps + 1))). pose proof (size_nonneg (concat (current ++ [a]))).
      pose proof (page_total_mono (header_size (page_header (size_z ps + 1))) (current ++ [a]) ltac:(lia)).
      rewrite size_snoc in Hid, H1. pose proof (size_nonneg current). unfold MAX_DATA_BLOCK_PAYLOAD in Hle.
      assert (size_z current + 1 < 2 ^ 11) by (eapply heap_id_new_index; [|exact Hid]; unfold uint; lia).
      split_and!; [by apply pages_fit_snoc|apply extends_snoc| |by rewrite size_snoc].
      by apply (located_new ps current a id' (size_z current + 1) (size_z ps + 1)); try lia.
    + apply (push_new_page_ok (ps ++ [current])); [by apply pages_fit_snoc|done|done].
Qed.

(** ** Fill levels *)

(** Rows that succeed one by one. *)
Lemma rmapM_exists {E A B} (f : A -> res E B) (P : nat -> B -> Prop) l :
  (forall i x, l !! i = Some x -> exists y, f x = Ok y /\ P i y) ->
  exists ys, rmapM f l = Ok ys /\ length ys = length l /\ forall i y, ys !! i = Some y -> P i y.
Proof.
  revert P. induction l as [|x l IH]; intros P H; cbn [rmapM].
  { exists []. split_and!; [done|done|]. intros i y Hy. by rewrite lookup_nil in Hy. }
  destruct (H 0%nat x eq_refl) as (y & Hf & Hy). destruct (IH (fun i => P (S i))) as (ys & Hr & Hl & Hp).
  { intros i z Hz. by apply (H (S i)). }
  rewrite Hf. cbn [rbind]. rewrite Hr. cbn [rbind]. exists (y :: ys). split_and!; [done|cbn; by rewrite Hl|].
  intros [|i] z Hz; cbn in Hz; [by injection Hz as <-|by apply Hp].
Qed.

Lemma padded_levels_length n levels : length (padded_levels n levels) = n.
Proof. unfold padded_levels. rewrite length_app, length_take, length_replicate. lia. Qed.

Lemma heap_fill_level_ok size : size <= MAX_DATA_BLOCK_PAYLOAD -> exists l, heap_fill_level size = Ok l.
Proof.
  intros H. unfold heap_fill_level, checked_sub. rewrite (proj2 (Z.leb_le _ _)) by done. cbn [fits ok_or rbind]. by eexists.
Qed.

(** The client signature and the root of the heap stay in the header. *)
Definition kept_root (kind : HeapNodeType) (h : PageHeader) : Prop :=
  match h with RootHeader k root _ => k = kind /\ root = HeapId.from_u32 0x20 | _ => True end.

(** The page holds the allocations, and after them padding ones. *)
Definition page_built (kind : HeapNodeType) (i : Z) (allocs : list (list Z)) (page : list Z) : Prop :=
  exists h pads pad, shaped i h (allocs ++ pads) pad page /\ kept_root kind h.

(** A header written over another of its kind. *)
Lemma write_header h h' off allocs pad :
  header_size h' = header_size h -> map_offset h allocs pad = off ->
  write_in_place (header_bytes h' off) (page_bytes h off allocs pad) = Ok (page_bytes h' off allocs pad).
Proof.
  intros Hs Ho. unfold write_in_place. pose proof (size_header h off) as H. pose proof (size_header h' off) as H'.
  assert (Hl : length (header_bytes h' off) = length (header_bytes h off)) by (unfold size_z in *; lia).
  unfold page_bytes. rewrite (proj2 (Nat.leb_le _ _)) by (rewrite !length_app; lia).
  by rewrite (drop_app_exact _ _ _ (eq_sym Hl)), Hs.
Qed.

Lemma shaped_header i h h' allocs pad page off :
  shaped i h allocs pad page -> header_size h' = header_size h -> header_for i h' ->
  off = map_offset h allocs pad -> shaped i h' allocs pad (page_bytes h' off allocs pad).
Proof.
  intros Hs Hh Hf ->. pose proof (shaped_sizes _ _ _ _ _ Hs) as [Hz Hle]. split_and!; [done|unfold map_offset; by rewrite Hh|].
  rewrite size_page. unfold map_offset in *. rewrite Hh. lia.
Qed.

Lemma update_root_page_ok levels kind allocs page :
  page_built kind 0 allocs page ->
  exists page', update_root_page levels page = Ok page' /\ page_built kind 0 allocs page'.
Proof.
  intros (h & pads & pad & Hs & Hk). pose proof (shaped_sizes _ _ _ _ _ Hs) as [Hz Hle]. pose proof Hs as (Hh & Hp & _).
  destruct h as [k root lv|lv|]; [|by destruct Hh|by destruct Hh]. destruct Hh as (_ & Hroot & Hlv).
  pose proof (size_nonneg (concat (allocs ++ pads))). pose proof (size_nonneg pad). pose proof (size_nonneg (allocs ++ pads)).
  remember (map_offset (RootHeader k root lv) (allocs ++ pads) pad) as off eqn:Ho.
  assert (Hu : uint 16 off) by (unfold map_offset, MAX_DATA_BLOCK_PAYLOAD in *; cbn [header_size] in *; unfold uint; lia).
  set (h' := RootHeader k root (padded_levels 8 levels)).
  exists (page_bytes h' off (allocs ++ pads) pad). split.
  - unfold update_root_page. rewrite Hp at 1. unfold page_bytes at 1. cbn [header_bytes].
    assert (HeapNodeHeader.read (HeapNodeHeader.write (mk_HeapNodeHeader off k root lv) ++ (concat (allocs ++ pads) ++ pad ++ map_of (header_size (RootHeader k root lv)) (allocs ++ pads))) = Ok (mk_HeapNodeHeader off k root lv, concat (allocs ++ pads) ++ pad ++ map_of (header_size (RootHeader k root lv)) (allocs ++ pads))) as ->
      by exact (rt_read (mk_HeapNodeHeader off k root lv) _ (conj Hu (conj Hroot Hlv))).
    cbn [wio rmap_err rbind hnh_page_map_offset hnh_client_signature hnh_user_root]. rewrite Hp.
    by apply (write_header (RootHeader k root lv) h').
  - exists h', pads, pad. split; [|done].
    apply (shaped_header _ _ h' _ _ _ _ Hs); [done|split_and!; [done|done|apply padded_levels_length]|done].
Qed.

Lemma update_page_ok levels kind i allocs page :
  (0 < i)%nat -> page_built kind (Z.of_nat i) allocs page ->
  exists page', update_page levels i page = Ok page' /\ page_built kind (Z.of_nat i) allocs page'.
Proof.
  intros Hi (h & pads & pad & Hs & Hk). unfold update_page.
  destruct (Nat.eqb_spec (i mod 128) 8) as [Hm|Hm]; [|by exists page; split; [|exists h, pads, pad]].
  pose proof (shaped_sizes _ _ _ _ _ Hs) as [Hz Hle]. pose proof Hs as (Hh & Hp & _).
  assert (Z.of_nat i mod 128 = 8) as Hmz by (change 128 with (Z.of_nat 128); rewrite <- Nat2Z.inj_mod, Hm; done).
  destruct h as [k root lv|lv|]; [destruct Hh; lia| |by destruct Hh]. destruct Hh as (_ & _ & Hlv).
  pose proof (size_nonneg (concat (allocs ++ pads))). pose proof (size_nonneg pad). pose proof (size_nonneg (allocs ++ pads)).
  remember (map_offset (BitmapHeader lv) (allocs ++ pads) pad) as off eqn:Ho.
  assert (Hu : uint 16 off) by (unfold map_offset, MAX_DATA_BLOCK_PAYLOAD in *; cbn [header_size] in *; unfold uint; lia).
  set (h' := BitmapHeader (padded_levels 128 (drop i levels))).
  exists (page_bytes h' off (allocs ++ pads) pad). split.
  - unfold update_bitmap_page. rewrite Hp at 1. unfold page_bytes at 1. cbn [header_bytes].
    assert (HeapNodeBitmapHeader.read (HeapNodeBitmapHeader.write (mk_HeapNodeBitmapHeader off lv) ++ (concat (allocs ++ pads) ++ pad ++ map_of (header_size (BitmapHeader lv)) (allocs ++ pads))) = Ok (mk_HeapNodeBitmapHeader off lv, concat (allocs ++ pads) ++ pad ++ map_of (header_size (BitmapHeader lv)) (allocs ++ pads))) as ->
      by exact (rt_read (mk_HeapNodeBitmapHeader off lv) _ (conj Hu Hlv)).
    cbn [wio rmap_err rbind hnb_page_map_offset]. rewrite Hp. by apply (write_header (BitmapHeader lv) h').
  - exists h', pads, pad. split; [|done].
    apply (shaped_header _ _ h' _ _ _ _ Hs); [done|split_and!; [lia|done|apply padded_levels_length]|done].
Qed.

(** ** A whole heap *)

(** A page as it is built: its padding is of zeros, and there is room for
    one more allocation. *)
Definition page_fresh (kind : HeapNodeType) (i : Z) (allocs : list (list Z)) (page : list Z) : Prop :=
  exists h k, shaped i h allocs (replicate k 0) page /\ kept_root kind h /\ size_z page + 3 <= MAX_DATA_BLOCK_PAYLOAD.

Lemma fresh_built kind i allocs page : page_fresh kind i allocs page -> page_built kind i allocs page.
Proof. intros (h & k & Hs & Hk & _). exists h, [], (replicate k 0). by rewrite app_nil_r. Qed.

Lemma fresh_filled kind i allocs page :
  page_fresh kind i allocs page -> exists page', fill_heap_page page = Ok page' /\ page_built kind i allocs page'.
Proof.
  intros (h & k & Hs & Hk & Hr). destruct (fill_heap_page_eq i h allocs k page Hs) as (pads & page' & Hf & Hs' & _); [lia..|].
  exists page'. split; [done|]. by exists h, pads, [].
Qed.

Lemma built_fresh kind i h allocs :
  header_for i h -> kept_root kind h -> page_total (header_size h) allocs + 3 <= MAX_DATA_BLOCK_PAYLOAD ->
  page_fresh kind i allocs (page_bytes h (map_offset h allocs (even_pad (header_size h) allocs)) allocs (even_pad (header_size h) allocs)).
Proof.
  intros Hh Hk Ht. pose proof (header_size_range h).
  exists h, (Z.to_nat ((header_size h + size_z (concat allocs)) mod 2)). split_and!; [|done|].
  - apply built_shaped; [done|lia].
  - rewrite size_page. unfold map_offset, page_total in *. rewrite size_even_pad by lia. lia.
Qed.

Lemma heap_page_fresh kind allocs :
  page_total 12 allocs + 3 <= MAX_DATA_BLOCK_PAYLOAD ->
  exists page, heap_page kind allocs = Ok page /\ page_fresh kind 0 allocs page.
Proof.
  intros Ht. pose proof (page_total_mono 12 allocs ltac:(lia)). pose proof (size_nonneg (concat allocs)). pose proof (size_nonneg allocs).
  eexists. split; [|apply (built_fresh kind 0 (root_header kind)); [by split_and!|done|exact Ht]].
  rewrite heap_page_eq by (unfold addressable, MAX_DATA_BLOCK_PAYLOAD in *; lia).
  by rewrite (proj2 (Z.leb_le _ _)) by lia.
Qed.

Lemma continuation_fresh kind i allocs :
  0 < i -> page_fits i allocs ->
  exists page, heap_continuation_page_allocations i allocs = Ok page /\ page_fresh kind i allocs page.
Proof.
  intros Hi [Ht Ha]. pose proof (header_size_range (page_header i)).
  pose proof (page_total_mono (header_size (page_header i)) allocs ltac:(lia)). pose proof (size_nonneg (concat allocs)). pose proof (size_nonneg allocs).
  eexists. split; [|apply (built_fresh kind i (page_header i)); [apply page_header_for; lia| |exact Ht]].
  - rewrite continuation_page_eq; [|unfold addressable, MAX_DATA_BLOCK_PAYLOAD in *; lia|by apply allocations_nonempty].
    by rewrite (proj2 (Z.leb_le _ _)) by lia.
  - unfold page_header. by destruct (is_bitmap_page i).
Qed.

(** Page by page. *)
Definition each_page (P : Z -> list (list Z) -> list Z -> Prop) (all : list (list (list Z))) (pages : list (list Z)) : Prop :=
  length pages = length all /\
  forall i allocs page, all !! i = Some allocs -> pages !! i = Some page -> P (Z.of_nat i) allocs page.

Lemma fresh_pages kind root others :
  page_total 12 root + 3 <= MAX_DATA_BLOCK_PAYLOAD -> pages_fit others -> size_z others < 2 ^ 16 ->
  exists first rest, heap_page kind root = Ok first /\
    rmapM (fun '(i, allocations) =>
      let? page_index := to_u16 (Z.of_nat i + 1) "heap page index" in
      heap_continuation_page_allocations page_index allocations) (imap pair others) = Ok rest /\
    each_page (page_fresh kind) (root :: others) (first :: rest).
Proof.
  intros Hr Ho Hn. destruct (heap_page_fresh kind root Hr) as (first & Hf & Hfresh).
  destruct (rmapM_exists (fun '(i, allocations) => let? page_index := to_u16 (Z.of_nat i + 1) "heap page index" in
      heap_continuation_page_allocations page_index allocations)
    (fun i page => exists allocs, others !! i = Some allocs /\ page_fresh kind (Z.of_nat i + 1) allocs page) (imap pair others))
    as (rest & Hm & Hl & Hp).
  { intros i [i' allocs] H. rewrite list_lookup_imap in H. destruct (others !! i) as [al|] eqn:E; cbn in H; [|done].
    injection H as <- <-. pose proof (lookup_lt_Some _ _ _ E). rewrite to_u16_ok by (unfold uint, size_z in *; lia). cbn [rbind].
    destruct (continuation_fresh kind (Z.of_nat i + 1) al) as (page & Hc & Hpf); [lia|by apply Ho|].
    exists page. split; [done|]. by exists al. }
  exists first, rest. split_and!; [done|done|]. split; [cbn; by rewrite Hl, length_imap|].
  intros [|i] allocs page Ha Hpg; cbn in Ha, Hpg; [by simplify_eq|].
  destruct (Hp i page Hpg) as (al & Hal & Hpf). injection (eq_trans (eq_sym Ha) Hal) as <-.
  by replace (Z.of_nat (S i)) with (Z.of_nat i + 1) by lia.
Qed.

(** All pages but the last are filled. *)
Lemma filled_pages kind all pages :
  each_page (page_fresh kind) all pages ->
  let n := (length pages - 1)%nat in
  exists filled, rmapM fill_heap_page (take n pages) = Ok filled /\
    each_page (page_built kind) all (filled ++ drop n pages).
Proof.
  intros [Hl Hp] n. destruct (rmapM_exists fill_heap_page
    (fun i page => forall allocs, all !! i = Some allocs -> page_built kind (Z.of_nat i) allocs page) (take n pages)) as (filled & Hf & Hn & Hb).
  { intros i page H. apply lookup_take_Some in H as [H Hi]. pose proof (lookup_lt_Some _ _ _ H).
    destruct (lookup_lt_is_Some_2 all i) as [al Hal]; [lia|].
    destruct (fresh_filled kind (Z.of_nat i) al page) as (page' & Hf & Hb); [by apply (Hp i)|].
    exists page'. split; [done|]. intros al' Hal'. by simplify_eq. }
  rewrite length_take in Hn. exists filled. split; [done|]. split; [rewrite length_app, length_drop; lia|].
  intros i allocs page Ha Hpg. apply lookup_app_Some in Hpg as [H|[Hi H]]; [by apply (Hb i)|].
  rewrite lookup_drop in H. replace (n + (i - length filled))%nat with i in H by lia.
  apply fresh_built. by apply (Hp i).
Qed.

Lemma built_size kind i allocs page : page_built kind i allocs page -> size_z page <= MAX_DATA_BLOCK_PAYLOAD.
Proof. intros (h & pads & pad & Hs & _). by apply (shaped_sizes _ _ _ _ _ Hs). Qed.

Lemma updated_pages kind all pages :
  each_page (page_built kind) all pages -> all <> [] ->
  exists pages', update_heap_fill_levels pages = Ok pages' /\ each_page (page_built kind) all pages'.
Proof.
  intros [Hl Hp] Hne. destruct pages as [|page pages]; [by destruct all|]. destruct all as [|al all]; [done|].
  unfold update_heap_fill_levels.
  destruct (rmapM_exists (fun page => heap_fill_level (size_z page)) (fun _ _ => True) (page :: pages)) as (levels & -> & _).
  { intros i p H. pose proof (lookup_lt_Some _ _ _ H). destruct (lookup_lt_is_Some_2 (al :: all) i) as [a Ha]; [cbn in *; lia|].
    destruct (heap_fill_level_ok (size_z p)) as (l & Hlv); [by eapply built_size, (Hp i)|]. by exists l. }
  cbn [rbind]. destruct (update_root_page_ok levels kind al page) as (root & -> & Hroot); [by apply (Hp 0%nat)|]. cbn [rbind].
  destruct (rmapM_exists (fun '(i, page) => update_page levels (S i) page)
    (fun i page => forall allocs, all !! i = Some allocs -> page_built kind (Z.of_nat (S i)) allocs page) (imap pair pages)) as (rest & -> & Hn & Hb).
  { intros i [i' p] H. rewrite list_lookup_imap in H. destruct (pages !! i) as [p'|] eqn:E; cbn in H; [|done]. injection H as <- <-.
    pose proof (lookup_lt_Some _ _ _ E). destruct (lookup_lt_is_Some_2 all i) as [a Ha]; [cbn in *; lia|].
    destruct (update_page_ok levels kind (S i) a p') as (q & Hq & Hqb); [lia|by apply (Hp (S i))|].
    exists q. split; [done|]. intros a' Ha'. by simplify_eq. }
  cbn [rbind]. exists (root :: rest). split; [done|]. rewrite length_imap in Hn. split; [cbn in *; lia|].
  intros [|i] a q Ha Hq; cbn in Ha, Hq; [by simplify_eq|]. by apply (Hb i).
Qed.

Lemma finish_heap_ok kind root others :
  page_total 12 root + 3 <= MAX_DATA_BLOCK_PAYLOAD -> pages_fit others -> size_z others < 2 ^ 16 ->
  exists pages, finish_heap kind root others = Ok pages /\ each_page (page_built kind) (root :: others) pages.
Proof.
  intros Hr Ho Hn. destruct (fresh_pages kind root others Hr Ho Hn) as (first & rest & H1 & H2 & Hf).
  destruct (filled_pages kind _ _ Hf) as (filled & H3 & Hb).
  destruct (updated_pages kind _ _ Hb) as (pages & H4 & Hp); [done|].
  exists pages. split; [|done]. unfold finish_heap. rewrite H1. cbn [rbind]. rewrite H2. cbn [rbind]. by rewrite H3.
Qed.

(** The reader finds an allocation of such a heap. *)
Lemma built_find {B} (self : HeapNodeInner B) kind all id i j allocs a :
  each_page (page_built kind) all (map db_data (hn_data self)) ->
  HeapId.block_index id = Z.of_nat i -> HeapId.index id = Ok (Z.of_nat j) ->
  all !! i = Some allocs -> allocs !! j = Some a -> HeapNodeInner.find_entry self id = Ok a.
Proof.
  intros [Hl Hp] Hi Hj Ha Hal. rewrite length_map in Hl. pose proof (lookup_lt_Some _ _ _ Ha).
  destruct (lookup_lt_is_Some_2 (hn_data self) i) as [data Hd]; [lia|].
  destruct (Hp i allocs (db_data data) Ha) as (h & pads & pad & Hs & _).
  { assert (map db_data (hn_data self) = db_data <$> hn_data self) as -> by done. by rewrite list_lookup_fmap, Hd. }
  rewrite (find_entry_holds self id data (allocs ++ pads) (Z.of_nat j)).
  - rewrite Nat2Z.id. by rewrite (lookup_app_l_Some _ _ _ _ Hal).
  - by rewrite Hi, Nat2Z.id.
  - rewrite Hi. by eapply shaped_holds.
  - done.
Qed.

Lemma located_find {B} (self : HeapNodeInner B) kind root others id a :
  each_page (page_built kind) (root :: others) (map db_data (hn_data self)) ->
  located others id a -> HeapNodeInner.find_entry self id = Ok a.
Proof.
  intros He (k & j & allocs & Hk & Hj & Hb & Hi & _).
  apply (built_find self kind (root :: others) id (S k) j allocs a); [done|lia|done|exact Hk|done].
Qed.

(** The header of the first page, as the reader has it. *)
Lemma shaped_read_header {B} kind (self : HeapNodeInner B) data rest h allocs pad :
  hn_data self = data :: rest -> shaped 0 h allocs pad (db_data data) -> kept_root kind h ->
  exists header, HeapNodeInner.header self = Ok header /\
    hnh_client_signature header = kind /\ hnh_user_root header = HeapId.from_u32 0x20.
Proof.
  intros Hd Hs Hk. pose proof (shaped_sizes _ _ _ _ _ Hs) as [Hz Hle]. destruct Hs as (Hh & Hp & _).
  destruct h as [k r lv|lv|]; [|by destruct Hh|by destruct Hh]. destruct Hh as (_ & Hr & Hlv). destruct Hk as [-> ->].
  pose proof (size_nonneg (concat allocs)). pose proof (size_nonneg pad). pose proof (size_nonneg allocs).
  remember (map_offset (RootHeader kind (HeapId.from_u32 0x20) lv) allocs pad) as off eqn:Ho.
  assert (Hu : uint 16 off) by (unfold map_offset, MAX_DATA_BLOCK_PAYLOAD in *; cbn [header_size] in *; unfold uint; lia).
  exists (mk_HeapNodeHeader off kind (HeapId.from_u32 0x20) lv). split; [|done].
  unfold HeapNodeInner.header. rewrite Hd. cbn [head ok_or rbind]. rewrite Hp. unfold page_bytes. cbn [header_bytes].
  pose proof (rt_read (mk_HeapNodeHeader off kind (HeapId.from_u32 0x20) lv)
    (concat allocs ++ pad ++ map_of (header_size (RootHeader kind (HeapId.from_u32 0x20) lv)) allocs) (conj Hu (conj Hr Hlv))) as Hread.
  unfold ser_read, ser_write, HeapNodeHeader_serial in Hread. by rewrite Hread.
Qed.

(** ** Properties *)

(** C31: An allocation placed in a heap is of 1 to [MAX_HEAP_ALLOCATION]
    bytes; it is found under the id that is returned, those placed before
    keep their ids, and every page leaves room for one padding. Placing
    succeeds unless the last page already has the 2047 allocations that an
    id can number and still has room: it is then refused, although a new
    page would take it. *)
Theorem push_heap_allocation_correct (pages : list (list (list Z))) (a : list Z)
  (Hfit : pages_fit pages) (Hcount : size_z pages + 1 < 2 ^ 16) :
  (forall id pages', push_heap_allocation pages a = Ok (id, pages') ->
    allocation_ok a /\ pages_fit pages' /\ located pages' id a /\
    forall id' a', located pages id' a' -> located pages' id' a') /\
  (allocation_ok a -> (forall current, last pages = Some current -> size_z current < 2047) ->
    exists id pages', push_heap_allocation pages a = Ok (id, pages')) /\
  (forall current, last pages = Some current -> 2047 <= size_z current -> allocation_ok a ->
    page_total (header_size (page_header (size_z pages))) (current ++ [a]) + 3 <= MAX_DATA_BLOCK_PAYLOAD ->
    push_heap_allocation pages a = Err (InvalidStructureOfLtp (InvalidHeapIndex (size_z current + 1)))) /\
  (~ allocation_ok a -> push_heap_allocation pages a = Err (ValueTooLarge "heap allocation")).
Proof.
  split_and!.
  - intros id pages' H. destruct (push_heap_allocation_ok pages a id pages' Hfit ltac:(lia) H) as (? & ? & He & ? & _).
    split_and!; [done..|]. intros id' a'. by apply located_extends.
  - intros Ha Hc. destruct pages as [|current ps _] using rev_ind.
    { unfold push_heap_allocation, allocation_ok in *. rewrite (proj2 (Z.eqb_neq _ 0)), (proj2 (Z.ltb_ge _ _)) by lia.
      cbn [orb]. destruct (push_new_page_eq [] a Ha Hcount) as [Hp _]. cbn [last]. rewrite to_u16_ok by done. cbn [rbind].
      rewrite Hp. eexists _, _. reflexivity. }
    rewrite last_snoc in Hc. specialize (Hc current eq_refl). apply pages_fit_init in Hfit as [Hps Hcur].
    rewrite size_snoc in Hcount. pose proof (size_nonneg ps). pose proof (size_nonneg current).
    rewrite push_heap_allocation_eq by (done || lia). destruct (Z.leb _ _).
    + rewrite size_snoc. destruct (heap_id_new (size_z current + 1) (size_z ps + 1)) as (h & -> & _); [unfold uint; lia..|].
      eexists _, _. reflexivity.
    + destruct (push_new_page_eq (ps ++ [current]) a Ha) as [Hp _]; [rewrite size_snoc; lia|]. rewrite Hp, size_snoc.
      destruct (heap_id_new 1 (size_z ps + 1 + 1)) as (h & -> & _); [unfold uint; lia..|]. eexists _, _. reflexivity.
  - intros current Hl Hn Ha Hroom. apply last_Some in Hl as [ps ->]. apply pages_fit_init in Hfit as [Hps Hcur].
    rewrite size_snoc in *. pose proof (size_nonneg ps). pose proof (size_nonneg (concat (current ++ [a]))).
    pose proof (header_size_range (page_header (size_z ps + 1))).
    pose proof (page_total_mono (header_size (page_header (size_z ps + 1))) (current ++ [a]) ltac:(lia)) as Ht.
    rewrite push_heap_allocation_eq by (done || lia). rewrite (proj2 (Z.leb_le _ _) Hroom).
    rewrite size_snoc in *. unfold MAX_DATA_BLOCK_PAYLOAD in *.
    rewrite heap_id_new_large by (unfold uint; lia). done.
  - intros Ha. unfold push_heap_allocation, allocation_ok in *. pose proof (size_nonneg a).
    destruct (_ || _) eqn:E; [done|]. zb. lia.
Qed.

(** A page with one allocation, and a second one placed in it. *)
Lemma push_heap_allocation_correct_witness :
  exists id pages', push_heap_allocation [[[7; 7; 7]]] [1; 2] = Ok (id, pages') /\ located pages' id [1; 2].
Proof.
  destruct (push_heap_allocation_correct [[[7; 7; 7]]] [1; 2]) as (H1 & H2 & _).
  - intros [|k] allocs H; cbn in H; [|by destruct k]. injection H as <-. split; [done|]. repeat constructor; done.
  - done.
  - destruct H2 as (id & pages' & H); [by split|intros current Hc; cbn in Hc; injection Hc as <-; reflexivity|].
    exists id, pages'. split; [exact H|]. destruct (H1 id pages' H) as (_ & _ & Hl & _). exact Hl.
Defined.

(** C27: From allocations that were placed and a first page with room for a
    padding, the pages of a heap are always built: none is larger than a
    data block, the first page keeps the client signature and the root of
    the heap, and the reader finds every allocation, of the first page and of
    the others, at its page and index, after the pages have been filled and
    their levels set. *)
Theorem finish_heap_correct (kind : HeapNodeType) (root : list (list Z)) (others : list (list (list Z)))
  (Hroot : page_total 12 root + 3 <= MAX_DATA_BLOCK_PAYLOAD) (Hfit : pages_fit others)
  (Hcount : size_z others < 2 ^ 16) :
  exists pages, finish_heap kind root others = Ok pages /\ length pages = S (length others) /\
    Forall (fun page => size_z page <= MAX_DATA_BLOCK_PAYLOAD) pages /\
    forall (B : Type) (self : HeapNodeInner B), map db_data (hn_data self) = pages ->
      (exists header, HeapNodeInner.header self = Ok header /\
        hnh_client_signature header = kind /\ hnh_user_root header = HeapId.from_u32 0x20) /\
      (forall i j allocs a id, (root :: others) !! i = Some allocs -> allocs !! j = Some a ->
        HeapId.block_index id = Z.of_nat i -> HeapId.index id = Ok (Z.of_nat j) ->
        HeapNodeInner.find_entry self id = Ok a).
Proof.
  destruct (finish_heap_ok kind root others Hroot Hfit Hcount) as (pages & Hf & He).
  exists pages. split; [done|]. pose proof He as [Hl Hp]. split; [done|]. split.
  { apply Forall_lookup. intros i page H. pose proof (lookup_lt_Some _ _ _ H).
    destruct (lookup_lt_is_Some_2 (root :: others) i) as [a Ha]; [lia|]. by eapply built_size, (Hp i). }
  intros B self Hself. subst pages. split.
  - destruct (hn_data self) as [|data rest] eqn:Hd; [done|].
    destruct (Hp 0%nat root (db_data data) eq_refl eq_refl) as (h & pads & pad & Hs & Hk).
    by apply (shaped_read_header kind self data rest h (root ++ pads) pad).
  - intros i j allocs a id Ha Hal Hi Hj. by apply (built_find self kind (root :: others) id i j allocs a).
Qed.

Definition page_block (page : list Z) : DataBlock UnicodeBlockId :=
  mk_DataBlock Crypt_None page (mk_BlockTrailer 0 0 0 (mk_UnicodeBlockId 4)).

Lemma finish_heap_correct_witness :
  exists pages, finish_heap HN_Properties [[1; 2; 3]] [[[7; 7; 7]; [9]]; [[8]]] = Ok pages /\
    length pages = 3%nat /\
    HeapNodeInner.find_entry (mk_HeapNodeInner (map page_block pages)) (HeapId.from_u32 0x10040) = Ok [9].
Proof.
  assert (Hfit : pages_fit [[[7; 7; 7]; [9]]; [[8]]]).
  { intros [|[|k]] allocs H; cbn in H; [injection H as <-|injection H as <-|by destruct k]; (split; [done|repeat constructor; done]). }
  destruct (finish_heap_correct HN_Properties [[1; 2; 3]] [[[7; 7; 7]; [9]]; [[8]]]) as (pages & Hf & Hl & _ & H); [done|exact Hfit|done|].
  exists pages. split; [exact Hf|]. split; [exact Hl|].
  destruct (H _ (mk_HeapNodeInner (map page_block pages))) as [_ Hfind].
  - cbn [hn_data]. rewrite map_map. apply map_id.
  - apply (Hfind 1%nat 1%nat [[7; 7; 7]; [9]] [9]); vm_compute; reflexivity.
Defined.

(** A page that leaves room for one padding and its offset is filled to
    exactly the size of a data block: its header and allocations stay, and
    what follows are allocations of zeros, none empty and none larger than
    [MAX_HEAP_ALLOCATION]. A full page stays, a larger one is refused. *)
Theorem fill_heap_page_correct (i : Z) (h : PageHeader) (allocs : list (list Z)) (k : nat) (page : list Z)
  (Hpage : shaped i h allocs (replicate k 0) page) :
  (size_z page < MAX_DATA_BLOCK_PAYLOAD -> size_z page - Z.of_nat k + 3 <= MAX_DATA_BLOCK_PAYLOAD ->
    exists pads page', fill_heap_page page = Ok page' /\ shaped i h (allocs ++ pads) [] page' /\
      paddings pads /\ pads <> [] /\ size_z page' = MAX_DATA_BLOCK_PAYLOAD) /\
  (size_z page = MAX_DATA_BLOCK_PAYLOAD -> fill_heap_page page = Ok page) /\
  (forall other, MAX_DATA_BLOCK_PAYLOAD < size_z other -> fill_heap_page other = Err (ValueTooLarge "heap page")).
Proof.
  split_and!.
  - by apply fill_heap_page_eq.
  - intros H. unfold fill_heap_page. by rewrite H, Z.leb_refl, Z.eqb_refl.
  - intros other H. unfold fill_heap_page. rewrite (proj2 (Z.leb_le _ _)), (proj2 (Z.eqb_neq _ _)) by lia. done.
Qed.

(** A page of one allocation of five bytes, followed by a byte of padding. *)
Lemma fill_heap_page_correct_witness :
  exists page pads page', heap_continuation_page_allocations 1 [[1; 2; 3; 4; 5]] = Ok page /\
    fill_heap_page page = Ok page' /\ shaped 1 PlainHeader ([[1; 2; 3; 4; 5]] ++ pads) [] page' /\
    size_z page' = MAX_DATA_BLOCK_PAYLOAD.
Proof.
  pose (page := page_bytes PlainHeader 8 [[1; 2; 3; 4; 5]] [0]).
  destruct (fill_heap_page_correct 1 PlainHeader [[1; 2; 3; 4; 5]] 1 page) as (H & _ & _).
  - split; [by split|]. split; [reflexivity|]. vm_compute. discriminate.
  - destruct H as (pads & page' & Hf & Hs & _ & _ & Hz); [vm_compute; reflexivity|vm_compute; discriminate|].
    exists page, pads, page'. split; [vm_compute; reflexivity|]. split; [exact Hf|]. by split.
Defined.

(** The free bytes below which the levels 1 to 15 begin. *)
Definition LEVEL_THRESHOLDS : list Z :=
  [3584; 2560; 2048; 1792; 1536; 1280; 1024; 768; 512; 256; 128; 64; 32; 16; 8].

(** The thresholds above [free]. *)
Lemma thresholds_cons free t l :
  Z.of_nat (length (filter (fun t => free < t) (t :: l))) =
  (if t <=? free then 0 else 1) + Z.of_nat (length (filter (fun t => free < t) l)).
Proof.
  rewrite filter_cons. destruct (Z.leb_spec t free); [by rewrite decide_False by lia|].
  rewrite decide_True by done. cbn [length]. lia.
Qed.

(** The smallest threshold not above [free] decides the rest. *)
Ltac next_level free :=
  match goal with
  | |- context [Z.leb ?t free] =>
      destruct (Z.leb_spec t free);
        [repeat match goal with |- context [Z.leb ?u free] => rewrite (proj2 (Z.leb_le u free)) by lia end; reflexivity|]
  end.

Lemma heap_fill_level_count size :
  size <= MAX_DATA_BLOCK_PAYLOAD -> exists l, heap_fill_level size = Ok l /\
    HeapFillLevel.as_u8 l =
      Z.of_nat (length (filter (fun t => MAX_DATA_BLOCK_PAYLOAD - size < t) LEVEL_THRESHOLDS)).
Proof.
  intros H. unfold heap_fill_level, checked_sub. rewrite (proj2 (Z.leb_le _ _)) by done. cbn [fits ok_or rbind].
  eexists. split; [reflexivity|]. remember (MAX_DATA_BLOCK_PAYLOAD - size) as free. clear Heqfree H.
  unfold LEVEL_THRESHOLDS. rewrite !thresholds_cons. repeat next_level free. reflexivity.
Qed.

Lemma length_filter_mono {A} (P Q : A -> Prop) `{!forall x, Decision (P x), !forall x, Decision (Q x)} (l : list A) :
  (forall x, P x -> Q x) -> (length (filter P l) <= length (filter Q l))%nat.
Proof.
  intros HPQ. induction l as [|x l IH]; [done|]. rewrite !filter_cons.
  destruct (decide (P x)) as [Hp|Hp]; [rewrite decide_True by auto; cbn; lia|].
  destruct (decide (Q x)); cbn; lia.
Qed.

(** C32: The fill level of a page is the number of thresholds that its free
    space is below, from 0 for an empty page to 15 for one with fewer than
    eight bytes; every size up to that of a data block has a level, larger
    sizes are refused, and a larger page never has a lower level. *)
Theorem heap_fill_level_bounds (size size' : Z) (Hsize : 0 <= size) :
  (size <= MAX_DATA_BLOCK_PAYLOAD -> exists l, heap_fill_level size = Ok l /\
    HeapFillLevel.as_u8 l =
      Z.of_nat (length (filter (fun t => MAX_DATA_BLOCK_PAYLOAD - size < t) LEVEL_THRESHOLDS)) /\
    0 <= HeapFillLevel.as_u8 l <= 15) /\
  (MAX_DATA_BLOCK_PAYLOAD < size -> heap_fill_level size = Err (ValueTooLarge "heap page")) /\
  (forall l l', size <= size' -> heap_fill_level size = Ok l -> heap_fill_level size' = Ok l' ->
    HeapFillLevel.as_u8 l <= HeapFillLevel.as_u8 l').
Proof.
  split_and!.
  - intros H. destruct (heap_fill_level_count size H) as (l & Hl & Hc). exists l. split; [done|]. split; [done|].
    destruct l; cbn; lia.
  - intros H. unfold heap_fill_level, checked_sub. by rewrite (proj2 (Z.leb_gt _ _)) by lia.
  - intros l l' Hle Hl Hl'. destruct (Z.le_gt_cases size' MAX_DATA_BLOCK_PAYLOAD) as [H|H].
    + destruct (heap_fill_level_count size) as (m & Hm & Hc); [lia|]. destruct (heap_fill_level_count size' H) as (m' & Hm' & Hc').
      rewrite Hm in Hl. rewrite Hm' in Hl'. injection Hl as <-. injection Hl' as <-. rewrite Hc, Hc'. apply inj_le, length_filter_mono. lia.
    + unfold heap_fill_level, checked_sub in Hl'. by rewrite (proj2 (Z.leb_gt _ _)) in Hl' by lia.
Qed.

Lemma heap_fill_level_bounds_witness :
  exists l, heap_fill_level 8000 = Ok l /\ HeapFillLevel.as_u8 l = 10.
Proof.
  destruct (heap_fill_level_bounds 8000 8001) as (H & _); [done|]. destruct H as (l & Hl & Hc & _); [done|].
  exists l. split; [exact Hl|]. rewrite Hc. vm_compute. reflexivity.
Defined.
