(* ===== verification/WriterBth.v ===== *)
(** * Building B-trees on heaps

    [writer.rs]: the loops, shared by [property_context_external] and
    [table_context_external], that place the leaves of a tree and the levels
    above them in the pages of a heap. Shown: the tree that a reader descends
    from the root has exactly the given entries, in order. *)
From S2P Require Import Prelude Errors Io Ids Page BTree Block Lookup DataTree Heap HeapTree Alloc WriterBlocks WriterTree WriterHeap.
#[local] Open Scope Z_scope.

(** The first key and the id of a node of the tree. *)
Abbreviation Root := (prod Z HeapId).

Section build.
(** The bytes of a key, the entries of a parent and the name of the error
    when the levels do not fit a [u8]. *)
Context (key_width : nat) (fan_out : Z) (depth : string).

(** The leaves: runs of records, each an allocation; [chunk[0..w]] of a
    shorter chunk panics. *)
Fixpoint bth_leaves (groups : list (list Z)) (pages : list (list (list Z))) :
    wres (list Root * list (list (list Z))) :=
  match groups with
  | [] => Ok ([], pages)
  | chunk :: groups =>
      let? key := (if (key_width <=? length chunk)%nat then Ok (le_val (take key_width chunk)) else Panic) in
      let? '(heap_id, pages) := push_heap_allocation pages chunk in
      let? '(roots, pages) := bth_leaves groups pages in
      Ok ((key, heap_id) :: roots, pages)
  end.

(** A level of parents: [group[0].0] of an empty group panics. *)
Fixpoint bth_parents (groups : list (list Root)) (pages : list (list (list Z))) :
    wres (list Root * list (list (list Z))) :=
  match groups with
  | [] => Ok ([], pages)
  | group :: groups =>
      let entries := concat (map (fun r => le_bytes key_width r.1 ++ write_u32 (HeapId.into_u32 r.2)) group) in
      let? '(heap_id, pages) := push_heap_allocation pages entries in
      let? first := (match group with [] => Panic | r :: _ => Ok r.1 end) in
      let? '(parents, pages) := bth_parents groups pages in
      Ok ((first, heap_id) :: parents, pages)
  end.

(** [while roots.len() > 1 { .. }]; the levels are counted in a [u8]. *)
Fixpoint bth_levels (fuel : nat) (levels : Z) (roots : list Root) (pages : list (list (list Z))) :
    wres (Z * list Root * list (list (list Z))) :=
  match roots with
  | [] | [_] => Ok (levels, roots, pages)
  | _ =>
      match fuel with
      | O => Panic
      | S fuel =>
          let? levels := fits (checked_add 8 levels 1) depth in
          let? '(parents, pages) := bth_parents (chunks fan_out roots) pages in
          bth_levels fuel levels parents pages
      end
  end.
End build.

(** ** Keys that are integers *)

Class IntKey (K : Type) `{!HeapTreeEntry K} := {
  ik_width : nat;
  ik_int : K -> Z;
  ik_key : Z -> K;
  ik_write : forall z, ser_write (ik_key z) = le_bytes ik_width z;
  ik_wf : forall z, ser_wf (ik_key z) <-> uint (8 * Z.of_nat ik_width) z;
  ik_inv : forall k, ik_key (ik_int k) = k
}.

(** Runs of rows of one size are runs of bytes. *)
Lemma chunks_rows {A} (wr : A -> list Z) n k (l : list A) :
  (forall a, length (wr a) = n) -> (0 < n)%nat -> 0 < k ->
  chunks (Z.of_nat n * k) (concat (map wr l)) = map (fun g => concat (map wr g)) (chunks k l).
Proof.
  intros Hw Hn Hk. set (m := Z.to_nat k).
  assert (Hlen : forall l, length (concat (map wr l)) = (n * length l)%nat) by (intros; by apply length_concat_map).
  assert (Hcut : forall l, take (n * m) (concat (map wr l)) = concat (map wr (take m l)) /\
                           drop (n * m) (concat (map wr l)) = concat (map wr (drop m l))).
  { intros l'. destruct (Nat.le_gt_cases m (length l')) as [Hle|Hgt].
    - rewrite <- (take_drop m l') at 1 3. rewrite map_app, concat_app.
      assert (length (concat (map wr (take m l'))) = (n * m)%nat) by (rewrite Hlen, length_take; f_equal; lia).
      by rewrite take_app_exact, drop_app_exact.
    - rewrite (drop_ge l'), (take_ge l'), take_ge, drop_ge; [done|..]; rewrite ?Hlen; nia. }
  induction l as [l IH] using (induction_ltof1 _ (@length A)). destruct l as [|a l]; [done|].
  assert (concat (map wr (a :: l)) <> []).
  { intros E. apply (f_equal length) in E. rewrite Hlen in E. cbn in E. lia. }
  rewrite (chunks_cons k (a :: l)), chunks_cons by (done || lia).
  replace (Z.to_nat (Z.of_nat n * k)) with (n * m)%nat by lia. destruct (Hcut (a :: l)) as [-> ->].
  fold m. cbn [map]. rewrite IH; [done|]. unfold ltof. rewrite length_drop. cbn [length]. lia.
Qed.
(** ** Placed allocations *)

Definition pages_inv (pages : list (list (list Z))) : Prop := pages_fit pages /\ size_z pages < 2 ^ 16.

Lemma push_places pages bytes id pages' :
  pages_inv pages -> push_heap_allocation pages bytes = Ok (id, pages') ->
  pages_inv pages' /\ located pages' id bytes /\ forall id' b, located pages id' b -> located pages' id' b.
Proof.
  intros [Hf Hn] H. destruct (push_heap_allocation_ok pages bytes id pages' Hf Hn H) as (_ & ? & He & ? & ?).
  split_and!; [by split|done|]. intros id' b. by apply located_extends.
Qed.

Lemma located_wf pages id b : located pages id b -> ser_wf id /\ HeapId.into_u32 id <> 0.
Proof. by intros (k & j & allocs & _ & _ & _ & _ & ? & ?). Qed.

(** ** Trees in a heap *)

Section tree.
Set Default Proof Using "Type".
Context {K V : Type} `{!HeapTreeEntry K, !HeapTreeEntry V}.

(** A tree of records in a heap that [holds] its nodes. *)
Fixpoint held_tree (holds : HeapId -> list Z -> Prop) (level : nat) (ids : list HeapId) (es : list (HeapTreeLeafEntry K V)) : Prop :=
  match level with
  | O => exists ess, es = concat ess /\ Forall2 (fun id es => holds id (concat (map HeapTreeLeafEntry.write es))) ids ess
  | S level => exists iss : list (list (HeapTreeIntermediateEntry K)),
      Forall2 (fun id ns => holds id (concat (map HeapTreeIntermediateEntry.write ns))) ids iss /\
      Forall (fun e => ser_wf (hti_key e) /\ ser_wf (hti_next_level e)) (concat iss) /\
      held_tree holds level (map hti_next_level (concat iss)) es
  end.

Lemma held_tree_mono (P Q : HeapId -> list Z -> Prop) level ids es :
  (forall id b, P id b -> Q id b) -> held_tree P level ids es -> held_tree Q level ids es.
Proof.
  intros H. revert ids. induction level as [|level IH]; intros ids; cbn [held_tree].
  - intros (ess & -> & Hf). exists ess. split; [done|]. eapply Forall2_impl; [exact Hf|]. intros. by apply H.
  - intros (iss & Hf & Hw & Ht). exists iss. split_and!; [|done|by apply IH].
    eapply Forall2_impl; [exact Hf|]. intros. by apply H.
Qed.

Lemma held_tree_bth {B} (self : HeapTreeInner B) level ids es :
  held_tree (fun id b => HeapNodeInner.find_entry (ht_heap self) id = Ok b) level ids es <-> bth_level self level ids es.
Proof. revert ids. induction level as [|level IH]; intros ids; cbn; [done|]. by setoid_rewrite IH. Qed.

(** ** Placing the tree *)

Context `{!RoundTrip K, !IntKey K} (fan_out : Z) (depth : string) (Hfan : 2 <= fan_out).
Abbreviation width := (ik_width (K := K)).

(** The roots of a level: each is the id of an allocation, with a key. *)
Definition roots_hold (pages : list (list (list Z))) (roots : list Root) (groups : list (list Z)) : Prop :=
  Forall2 (fun r b => located pages r.2 b /\ uint (8 * Z.of_nat width) r.1) roots groups.

Lemma roots_hold_mono pages pages' roots groups :
  (forall id b, located pages id b -> located pages' id b) -> roots_hold pages roots groups -> roots_hold pages' roots groups.
Proof. intros H Hr. eapply Forall2_impl; [exact Hr|]. intros r b [Hl Hk]. split; [by apply H|done]. Qed.

Definition leaf_bytes (es : list (HeapTreeLeafEntry K V)) : list Z := concat (map HeapTreeLeafEntry.write es).

Lemma bth_leaves_ok groups : forall pages roots pages',
  pages_inv pages -> Forall (fun es => es <> [] /\ Forall (fun e => ser_wf (htl_key e)) es) groups ->
  bth_leaves width (map leaf_bytes groups) pages = Ok (roots, pages') ->
  pages_inv pages' /\ (forall id b, located pages id b -> located pages' id b) /\
  roots_hold pages' roots (map leaf_bytes groups).
Proof.
  induction groups as [|es groups IH]; intros pages roots pages' Hi Hg H; cbn [map bth_leaves] in H.
  { injection H as <- <-. split_and!; [done|done|constructor]. }
  apply Forall_cons in Hg as [[Hne Hk] Hg]. destruct es as [|e es]; [done|]. apply Forall_cons in Hk as [Hk _].
  assert (Hkey : leaf_bytes (e :: es) = le_bytes width (ik_int (htl_key e)) ++ ser_write (htl_data e) ++ leaf_bytes es).
  { unfold leaf_bytes. cbn [map concat]. unfold HeapTreeLeafEntry.write at 1.
    by rewrite <- app_assoc, <- ik_write, ik_inv. }
  rewrite <- (ik_inv (htl_key e)) in Hk. apply ik_wf in Hk.
  assert (Hread : (if (width <=? length (leaf_bytes (e :: es)))%nat
      then Ok (E := WriterError) (le_val (take width (leaf_bytes (e :: es)))) else Panic) = Ok (ik_int (htl_key e))).
  { rewrite Hkey, take_app_exact, le_val_bytes, length_app, length_le_bytes by (done || by rewrite length_le_bytes).
    by rewrite (proj2 (Nat.leb_le _ _)) by lia. }
  rewrite Hread in H. cbn [rbind] in H.
  destruct (push_heap_allocation pages (leaf_bytes (e :: es))) as [[id p1]|x|] eqn:Hp; [|done..]. cbn [rbind] in H.
  destruct (bth_leaves width (map leaf_bytes groups) p1) as [[rs p2]|x|] eqn:Hr; [|done..]. cbn [rbind] in H.
  injection H as <- <-. destruct (push_places _ _ _ _ Hi Hp) as (Hi1 & Hl1 & Hm1).
  destruct (IH p1 rs p2 Hi1 Hg Hr) as (Hi2 & Hm2 & Hrs). split_and!; [done|eauto|].
  constructor; [|done]. split; [by apply Hm2|done].
Qed.

Definition parent_entries (group : list Root) : list (HeapTreeIntermediateEntry K) :=
  map (fun r => mk_HeapTreeIntermediateEntry (ik_key r.1) r.2) group.

Definition parent_bytes (group : list Root) : list Z := concat (map HeapTreeIntermediateEntry.write (parent_entries group)).

Lemma bth_parents_ok groups : forall pages parents pages',
  pages_inv pages -> Forall (fun g => g <> [] /\ Forall (fun r : Root => uint (8 * Z.of_nat width) r.1) g) groups ->
  bth_parents width groups pages = Ok (parents, pages') ->
  pages_inv pages' /\ (forall id b, located pages id b -> located pages' id b) /\
  roots_hold pages' parents (map parent_bytes groups).
Proof.
  induction groups as [|g groups IH]; intros pages parents pages' Hi Hg H; cbn [map bth_parents] in H.
  { injection H as <- <-. split_and!; [done|done|constructor]. }
  apply Forall_cons in Hg as [[Hne Hk] Hg].
  assert (Hb : concat (map (fun r => le_bytes width r.1 ++ write_u32 (HeapId.into_u32 r.2)) g) = parent_bytes g)
    by (unfold parent_bytes, parent_entries; rewrite map_map; f_equal; apply map_ext; intros [k h]; cbn; by rewrite <- ik_write).
  rewrite Hb in H. destruct (push_heap_allocation pages (parent_bytes g)) as [[id p1]|x|] eqn:Hp; [|done..]. cbn [rbind] in H.
  destruct g as [|r g]; [done|]. cbn [rbind] in H. apply Forall_cons in Hk as [Hk _].
  destruct (bth_parents width groups p1) as [[rs p2]|x|] eqn:Hr; [|done..]. cbn [rbind] in H.
  injection H as <- <-. destruct (push_places _ _ _ _ Hi Hp) as (Hi1 & Hl1 & Hm1).
  destruct (IH p1 rs p2 Hi1 Hg Hr) as (Hi2 & Hm2 & Hrs). split_and!; [done|eauto|].
  constructor; [|done]. split; [by apply Hm2|done].
Qed.

(** The tree below the roots of a level. *)
Definition roots_tree (pages : list (list (list Z))) (level : nat) (roots : list Root) (es : list (HeapTreeLeafEntry K V)) : Prop :=
  held_tree (located pages) level (map snd roots) es /\
  Forall (fun r => uint (8 * Z.of_nat width) r.1 /\ ser_wf r.2 /\ HeapId.into_u32 r.2 <> 0) roots.

Lemma roots_hold_wf pages roots groups :
  roots_hold pages roots groups -> Forall (fun r => uint (8 * Z.of_nat width) r.1 /\ ser_wf r.2 /\ HeapId.into_u32 r.2 <> 0) roots.
Proof.
  induction 1 as [|r b roots groups [Hl Hk] _ IH]; constructor; [|done]. split; [done|]. by apply located_wf in Hl.
Qed.

Lemma parents_tree pages parents groups roots level es :
  roots_hold pages parents (map parent_bytes groups) -> concat groups = roots -> roots_tree pages level roots es ->
  roots_tree pages (S level) parents es.
Proof.
  intros Hp <- [Ht Hw]. split; [|by eapply roots_hold_wf]. exists (map parent_entries groups).
  assert (Hc : concat (map parent_entries groups) = parent_entries (concat groups)) by (unfold parent_entries; by rewrite concat_map).
  rewrite Hc. split_and!.
  - clear -Hp. revert parents Hp. induction groups as [|g groups IH]; intros parents Hp; inversion Hp as [|r b rs bs [Hl Hk] Hrest]; subst;
      cbn [map]; constructor; [exact Hl|by apply IH].
  - unfold parent_entries. apply Forall_map. eapply Forall_impl; [exact Hw|]. intros r (Hk & Hi & _). split; [by apply ik_wf|done].
  - unfold parent_entries. rewrite map_map. exact Ht.
Qed.

(** What the loop over the levels leaves: one root, if there was one. *)
Definition levels_built (levels : Z) (roots : list Root) (pages : list (list (list Z))) (es : list (HeapTreeLeafEntry K V))
    (r : Z * list Root * list (list (list Z))) : Prop :=
  let '(levels', roots', pages') := r in
  pages_inv pages' /\ (forall id b, located pages id b -> located pages' id b) /\ 0 <= levels' /\
  (levels < 2 ^ 8 -> levels' < 2 ^ 8) /\
  roots_tree pages' (Z.to_nat levels') roots' es /\ (roots <> [] -> exists r, roots' = [r]).

Lemma levels_built_done levels roots pages es :
  (length roots <= 1)%nat -> 0 <= levels -> pages_inv pages -> roots_tree pages (Z.to_nat levels) roots es ->
  levels_built levels roots pages es (levels, roots, pages).
Proof.
  intros Hl H0 Hi Ht. split_and!; try done. destruct roots as [|r [|r' rs]]; [done|by exists r|cbn in Hl; lia].
Qed.

Lemma bth_levels_ok fuel : forall levels roots pages r es,
  (length roots <= fuel)%nat -> 0 <= levels -> pages_inv pages -> roots_tree pages (Z.to_nat levels) roots es ->
  bth_levels width fan_out depth fuel levels roots pages = Ok r -> levels_built levels roots pages es r.
Proof using All.
  induction fuel as [|fuel IH]; intros levels roots pages r es Hf H0 Hi Ht H.
  { destruct roots; [|cbn in Hf; lia]. injection H as <-. apply levels_built_done; [cbn; lia|done..]. }
  destruct roots as [|r1 [|r2 rs]]; [injection H as <-; apply levels_built_done; [cbn; lia|done..]..|].
  remember (r1 :: r2 :: rs) as roots eqn:Hroots. assert (H2 : (2 <= length roots)%nat) by (subst; cbn; lia).
  assert (Hstep : bth_levels width fan_out depth (S fuel) levels roots pages =
    let? levels := fits (checked_add 8 levels 1) depth in
    let? '(parents, pages) := bth_parents width (chunks fan_out roots) pages in
    bth_levels width fan_out depth fuel levels parents pages) by (by subst).
  rewrite Hstep in H. clear Hstep. unfold checked_add in H.
  destruct (Z.ltb_spec (levels + 1) (2 ^ 8)) as [Hlt|]; [|done]. cbn [fits ok_or rbind] in H.
  destruct (bth_parents width (chunks fan_out roots) pages) as [[parents p1]|x|] eqn:Hp; [|done..]. cbn [rbind] in H.
  destruct (chunks_spec fan_out roots ltac:(lia)) as [Hc Hsz].
  assert (Hg : Forall (fun g => g <> [] /\ Forall (fun r : Root => uint (8 * Z.of_nat width) r.1) g) (chunks fan_out roots)).
  { apply Forall_and. split; [eapply Forall_impl; [exact Hsz|]; intros [|? ?] ?; [cbn in *; lia|done]|].
    apply Forall_concat. rewrite Hc. eapply Forall_impl; [apply Ht|]. by intros ? []. }
  destruct (bth_parents_ok _ _ _ _ Hi Hg Hp) as (Hi1 & Hm1 & Hr1).
  assert (Ht1 : roots_tree p1 (Z.to_nat (levels + 1)) parents es).
  { replace (Z.to_nat (levels + 1)) with (S (Z.to_nat levels)) by lia. eapply parents_tree; [exact Hr1|exact Hc|].
    destruct Ht as [Ht Hw]. split; [by eapply held_tree_mono|done]. }
  pose proof (Forall2_length _ _ _ Hr1) as Hn. rewrite length_map in Hn. pose proof (length_chunks fan_out roots ltac:(lia)) as Hlc.
  pose proof (div_ceil_spec (Z.of_nat (length roots)) fan_out ltac:(lia)) as Hq. set (q := div_ceil _ _) in *. clearbody q.
  assert (2 * (q - 1) < Z.of_nat (length roots) /\ 0 < q) as [? ?] by nia.
  pose proof (IH (levels + 1) parents p1 r es ltac:(lia) ltac:(lia) Hi1 Ht1 H) as Hb.
  destruct r as [[levels' roots'] pages']. destruct Hb as (? & Hm2 & ? & Hl8 & ? & Hone).
  split_and!; [done|eauto|done|intros _; apply Hl8; lia|done|]. intros _. apply Hone. intros ->. cbn in Hn. lia.
Qed.

(** The leaves and the levels of a tree of some records. *)
Lemma bth_built (n : Z) (size : nat) es pages roots p2 levels rs p3 :
  0 < n -> (0 < size)%nat -> (forall e : HeapTreeLeafEntry K V, length (HeapTreeLeafEntry.write e) = size) ->
  pages_inv pages -> es <> [] -> Forall (fun e => ser_wf (htl_key e)) es ->
  bth_leaves width (chunks (Z.of_nat size * n) (leaf_bytes es)) pages = Ok (roots, p2) ->
  bth_levels width fan_out depth (length roots) 0 roots p2 = Ok (levels, rs, p3) ->
  pages_inv p3 /\ (forall id b, located pages id b -> located p3 id b) /\ uint 8 levels /\
  exists k root, rs = [(k, root)] /\ ser_wf root /\ HeapId.into_u32 root <> 0 /\
    held_tree (located p3) (Z.to_nat levels) [root] es.
Proof using All.
  intros Hn Hsz Hw Hi Hne Hwf Hl Hlev. unfold leaf_bytes in Hl. rewrite chunks_rows in Hl by done.
  destruct (chunks_spec n es Hn) as [Hc Hcs].
  assert (Hg : Forall (fun g => g <> [] /\ Forall (fun e => ser_wf (htl_key e)) g) (chunks n es)).
  { apply Forall_and. split; [eapply Forall_impl; [exact Hcs|]; intros [|? ?] ?; [cbn in *; lia|done]|].
    apply Forall_concat. by rewrite Hc. }
  destruct (bth_leaves_ok _ _ _ _ Hi Hg Hl) as (Hi2 & Hm2 & Hr2).
  assert (Ht2 : roots_tree p2 (Z.to_nat 0) roots es).
  { split; [|by eapply roots_hold_wf]. exists (chunks n es). split; [done|]. clear -Hr2.
    revert roots Hr2. induction (chunks n es) as [|g gs IH]; intros roots Hr2; inversion Hr2 as [|r b rs bs [Hl _] Hrest]; subst;
      cbn [map]; constructor; [exact Hl|by apply IH]. }
  destruct (bth_levels_ok (length roots) 0 roots p2 _ es (le_n _) ltac:(lia) Hi2 Ht2 Hlev) as (Hi3 & Hm3 & Hl0 & Hl8 & [Ht3 Hw3] & Hone).
  destruct Hone as [[k root] ->].
  { intros ->. apply Forall2_length in Hr2. rewrite length_map in Hr2. destruct es as [|e es]; [done|]. by rewrite chunks_cons in Hr2 by done. }
  apply Forall_cons in Hw3 as [(_ & Hroot & Hnz) _]. split_and!; [done|eauto|split; [done|by apply Hl8]|].
  by exists k, root.
Qed.

End tree.
