(* ===== verification/WriterValues.v ===== *)
(** * Values of the writer

    [writer.rs]: the values of properties, the bytes they are stored as, the
    sizes that are computed beforehand, their validation, and the container
    of an RTF body. Shown: what is stored is what the reader of file
    PropValue decodes to the same value, the sizes computed beforehand are
    those of the bytes, and the RTF container is decoded to the RTF body. *)
From S2P Require Import Prelude Errors Io Crc Ids PropValue Alloc WriterBlocks.
#[local] Open Scope Z_scope.

Definition MAX_FIDELITY_PROPERTY_BYTES : Z := 16 * 1024.
Definition MAX_PST_PROPERTY_BYTES : Z := 2 ^ 31 - 1.
Definition MAX_IN_MEMORY_PROPERTY_BYTES : Z := 1024 * 1024.

Definition len {A} (l : list A) : Z := Z.of_nat (length l).

(** ** Strings *)

(** A [String] is the list of its scalar values. *)
Definition char_ok (c : Z) : Prop := 0 <= c < 0xD800 \/ 0xE000 <= c < 0x110000.

(** [char::encode_utf16] *)
Definition encode_char (c : Z) : list Z :=
  if c <? 0x10000 then [c]
  else [0xD800 + Z.shiftr (c - 0x10000) 10; 0xDC00 + Z.land (c - 0x10000) 0x3FF].

Definition encode_utf16 (value : list Z) : list Z := concat (map encode_char value).

Definition unicode_bytes (value : list Z) : io_result (list Z) := Ok (concat (map write_u16 (encode_utf16 value))).

(** ** Values *)

Module WriterValue.

(** Floating-point values are their bits. *)
Inductive t :=
| Integer16 (v : Z)
| Integer32 (v : Z)
| Integer64 (v : Z)
| Floating32 (bits : Z)
| Floating64 (bits : Z)
| Currency (v : Z)
| FloatingTime (bits : Z)
| ErrorCode (v : Z)
| Boolean (v : bool)
| Time (v : Z)
| Guid (bytes : list Z)
| Unicode (s : list Z)
| Binary (bytes : list Z)
| MultipleInteger16 (l : list Z)
| MultipleInteger32 (l : list Z)
| MultipleInteger64 (l : list Z)
| MultipleGuid (l : list (list Z))
| MultipleUnicode (l : list (list Z))
| MultipleBinary (l : list (list Z))
| Object (node : NodeId) (size : Z)
| External (kind : PropertyType) (node : NodeId).

Definition property_type (v : t) : PropertyType :=
  match v with
  | Integer16 _ => PT_Integer16 | Integer32 _ => PT_Integer32 | Integer64 _ => PT_Integer64
  | Floating32 _ => PT_Floating32 | Floating64 _ => PT_Floating64 | Currency _ => PT_Currency
  | FloatingTime _ => PT_FloatingTime | ErrorCode _ => PT_ErrorCode | Boolean _ => PT_Boolean
  | Time _ => PT_Time | Guid _ => PT_Guid | Unicode _ => PT_Unicode | Binary _ => PT_Binary
  | MultipleInteger16 _ => PT_MultipleInteger16 | MultipleInteger32 _ => PT_MultipleInteger32
  | MultipleInteger64 _ => PT_MultipleInteger64 | MultipleGuid _ => PT_MultipleGuid
  | MultipleUnicode _ => PT_MultipleUnicode | MultipleBinary _ => PT_MultipleBinary
  | Object _ _ => PT_Object | External kind _ => kind
  end.

(** The bits of a signed value as unsigned. *)
Definition inline_value (v : t) : option Z :=
  match v with
  | Integer16 value => Some (wrap 16 value)
  | Integer32 value => Some (wrap 32 value)
  | Floating32 value | ErrorCode value => Some value
  | Boolean value => Some (if value then 1 else 0)
  | External _ node => Some (node_id_0 node)
  | _ => None
  end.

End WriterValue.

(** ** Multi-values *)

(** [.map_err(|error| io::Error::new(io::ErrorKind::InvalidInput, error))?] *)
Definition invalid_input {A} (o : option A) : io_result A := ok_or o InvalidInput_msg.

(** [values.len().checked_add(1).and_then(|count| count.checked_mul(4))] *)
Definition table_size (count : Z) : option Z :=
  match checked_add 64 count 1 with
  | Some n => checked_mul 64 n 4
  | None => None
  end.

(** [try_fold] with [checked_add] over sizes that may overflow. *)
Fixpoint add_sizes (sizes : list (option Z)) (total : Z) : option Z :=
  match sizes with
  | [] => Some total
  | Some size :: sizes =>
      match checked_add 64 total size with
      | Some total => add_sizes sizes total
      | None => None
      end
  | None :: _ => None
  end.

Definition payload_len (sizes : list (option Z)) : option Z :=
  match table_size (len sizes) with
  | Some header => add_sizes sizes header
  | None => None
  end.

Definition unicode_size (value : list Z) : option Z := checked_mul 64 (len (encode_utf16 value)) 2.

Definition multiple_binary_payload_len (values : list (list Z)) : wres Z :=
  fits (payload_len (map (fun v => Some (len v)) values)) "multi-valued binary property".

Definition multiple_unicode_payload_len (values : list (list Z)) : wres Z :=
  fits (payload_len (map unicode_size values)) "multi-valued Unicode property".

Definition unicode_payload_len (value : list Z) : wres Z := fits (unicode_size value) "Unicode property".

(** The offsets: each is checked to fit before it is written and the size of
    its item is added. *)
Fixpoint offset_table (sizes : list (option Z)) (offset : Z) : io_result (list Z) :=
  match sizes with
  | [] => Ok []
  | size :: sizes =>
      let? offset32 := invalid_input (if uint_b 32 offset then Some offset else None) in
      let? offset := invalid_input (match size with Some size => checked_add 64 offset size | None => None end) in
      let? rest := offset_table sizes offset in
      Ok (write_u32 offset32 ++ rest)
  end.

(** What the two kinds of multi-values share: the size is checked first, then
    the count, the offsets and the items are written. *)
Definition multiple_bytes (encoded_len : wres Z) (sizes : list (option Z)) (items : list Z) : io_result (list Z) :=
  let? _ := rmap_err (fun _ => InvalidInput_msg) encoded_len in
  let? count := invalid_input (if uint_b 32 (len sizes) then Some (len sizes) else None) in
  let? offset := invalid_input (table_size (len sizes)) in
  let? offsets := offset_table sizes offset in
  Ok (write_u32 count ++ offsets ++ items).

Definition multiple_unicode_bytes (values : list (list Z)) : io_result (list Z) :=
  multiple_bytes (multiple_unicode_payload_len values) (map unicode_size values)
    (concat (map (fun v => concat (map write_u16 (encode_utf16 v))) values)).

Definition multiple_binary_bytes (values : list (list Z)) : io_result (list Z) :=
  multiple_bytes (multiple_binary_payload_len values) (map (fun v => Some (len v)) values) (concat values).

(** [variable_bytes]: [None] for the values that are kept in the record. *)
Definition variable_bytes (v : WriterValue.t) : io_result (option (list Z)) :=
  match v with
  | WriterValue.Integer64 value | WriterValue.Currency value | WriterValue.Time value =>
      Ok (Some (write_u64 (wrap 64 value)))
  | WriterValue.Floating64 value | WriterValue.FloatingTime value => Ok (Some (write_u64 value))
  | WriterValue.Guid value => Ok (Some value)
  | WriterValue.Unicode value => let? bytes := unicode_bytes value in Ok (Some bytes)
  | WriterValue.Binary value => Ok (Some value)
  | WriterValue.MultipleInteger16 values => Ok (Some (concat (map (fun v => write_u16 (wrap 16 v)) values)))
  | WriterValue.MultipleInteger32 values => Ok (Some (concat (map (fun v => write_u32 (wrap 32 v)) values)))
  | WriterValue.MultipleInteger64 values => Ok (Some (concat (map (fun v => write_u64 (wrap 64 v)) values)))
  | WriterValue.MultipleGuid values =>
      let? _ := invalid_input (checked_mul 64 (len values) 16) in Ok (Some (concat values))
  | WriterValue.MultipleUnicode values => let? bytes := multiple_unicode_bytes values in Ok (Some bytes)
  | WriterValue.MultipleBinary values => let? bytes := multiple_binary_bytes values in Ok (Some bytes)
  | WriterValue.Object node size => Ok (Some (write_u32 (node_id_0 node) ++ write_u32 size))
  | _ => Ok None
  end.

(** ** Raw properties *)

Module RawPropertyValue.
Inductive t :=
| Integer16 (v : Z)
| Integer32 (v : Z)
| Integer64 (v : Z)
| Floating32 (bits : Z)
| Floating64 (bits : Z)
| Currency (v : Z)
| FloatingTime (bits : Z)
| ErrorCode (v : Z)
| Boolean (v : bool)
| Time (v : Z)
| Guid (bytes : list Z)
| Unicode (s : list Z)
| Binary (bytes : list Z)
| MultipleInteger16 (l : list Z)
| MultipleInteger32 (l : list Z)
| MultipleInteger64 (l : list Z)
| MultipleGuid (l : list (list Z))
| MultipleUnicode (l : list (list Z))
| MultipleBinary (l : list (list Z)).
End RawPropertyValue.

Definition raw_property_value (value : RawPropertyValue.t) : WriterValue.t :=
  match value with
  | RawPropertyValue.Integer16 v => WriterValue.Integer16 v
  | RawPropertyValue.Integer32 v => WriterValue.Integer32 v
  | RawPropertyValue.Integer64 v => WriterValue.Integer64 v
  | RawPropertyValue.Floating32 v => WriterValue.Floating32 v
  | RawPropertyValue.Floating64 v => WriterValue.Floating64 v
  | RawPropertyValue.Currency v => WriterValue.Currency v
  | RawPropertyValue.FloatingTime v => WriterValue.FloatingTime v
  | RawPropertyValue.ErrorCode v => WriterValue.ErrorCode v
  | RawPropertyValue.Boolean v => WriterValue.Boolean v
  | RawPropertyValue.Time v => WriterValue.Time v
  | RawPropertyValue.Guid v => WriterValue.Guid v
  | RawPropertyValue.Unicode v => WriterValue.Unicode v
  | RawPropertyValue.Binary v => WriterValue.Binary v
  | RawPropertyValue.MultipleInteger16 v => WriterValue.MultipleInteger16 v
  | RawPropertyValue.MultipleInteger32 v => WriterValue.MultipleInteger32 v
  | RawPropertyValue.MultipleInteger64 v => WriterValue.MultipleInteger64 v
  | RawPropertyValue.MultipleGuid v => WriterValue.MultipleGuid v
  | RawPropertyValue.MultipleUnicode v => WriterValue.MultipleUnicode v
  | RawPropertyValue.MultipleBinary v => WriterValue.MultipleBinary v
  end.

Definition raw_value_payload_len (value : RawPropertyValue.t) : wres Z :=
  match value with
  | RawPropertyValue.Integer16 _ | RawPropertyValue.Integer32 _ | RawPropertyValue.Floating32 _
  | RawPropertyValue.ErrorCode _ | RawPropertyValue.Boolean _ => Ok 0
  | RawPropertyValue.Integer64 _ | RawPropertyValue.Floating64 _ | RawPropertyValue.Currency _
  | RawPropertyValue.FloatingTime _ | RawPropertyValue.Time _ => Ok 8
  | RawPropertyValue.Guid _ => Ok 16
  | RawPropertyValue.Unicode value => unicode_payload_len value
  | RawPropertyValue.Binary value => Ok (len value)
  | RawPropertyValue.MultipleInteger16 values => fits (checked_mul 64 (len values) 2) "multi-valued property"
  | RawPropertyValue.MultipleInteger32 values => fits (checked_mul 64 (len values) 4) "multi-valued property"
  | RawPropertyValue.MultipleInteger64 values => fits (checked_mul 64 (len values) 8) "multi-valued property"
  | RawPropertyValue.MultipleGuid values => fits (checked_mul 64 (len values) 16) "multi-valued property"
  | RawPropertyValue.MultipleUnicode values => multiple_unicode_payload_len values
  | RawPropertyValue.MultipleBinary values => multiple_binary_payload_len values
  end.

(** ** Validation *)

Definition validate_payload_len (name : string) (length : Z) : wres unit :=
  if MAX_FIDELITY_PROPERTY_BYTES <? length then Err (ValueTooLarge name) else Ok tt.

Definition validate_pst_property_len (name : string) (length : Z) : wres unit :=
  if MAX_PST_PROPERTY_BYTES <? length then Err (ValueTooLarge name) else Ok tt.

Definition validate_unicode (name : string) (value : list Z) : wres unit :=
  if 2048 <? len (encode_utf16 value) then Err (ValueTooLarge name) else Ok tt.

Definition is_empty {A} (l : list A) : bool := match l with [] => true | _ => false end.

(** Integers in an empty list, and strings with a zero, are refused. *)
Definition raw_value_refused (value : RawPropertyValue.t) : option WriterError :=
  match value with
  | RawPropertyValue.MultipleInteger16 l | RawPropertyValue.MultipleInteger32 l
  | RawPropertyValue.MultipleInteger64 l =>
      if is_empty l then Some (InvalidStructure "typed variable raw properties must be non-empty") else None
  | RawPropertyValue.MultipleUnicode values =>
      if existsb (existsb (fun c => c =? 0)) values
      then Some (InvalidStructure "multi-valued Unicode properties cannot contain NUL") else None
  | _ => None
  end.

Definition validate_raw_value (value : RawPropertyValue.t) : wres unit :=
  match raw_value_refused value with
  | Some e => Err e
  | None =>
      let? length := raw_value_payload_len value in
      let? _ := validate_pst_property_len "raw property" length in
      if MAX_IN_MEMORY_PROPERTY_BYTES <? length then Err (ValueTooLarge "in-memory raw property") else Ok tt
  end.

(** ** RTF bodies *)

Definition rtf_container_len (raw_size : Z) : wres Z :=
  let? runs := fits (checked_add 64 raw_size 1) "RTF body" in
  let runs := div_ceil runs 8 in
  fits (match checked_add 64 raw_size runs with Some size => checked_add 64 size 18 | None => None end) "RTF body".

Definition INITIAL_DICTIONARY_SIZE : Z := 207.
Definition DICTIONARY_SIZE : Z := 4096.

(** Runs of eight literals, each after a zero byte, and the rest after a byte
    whose first set bit says where the end is. *)
Fixpoint literal_runs (fuel : nat) (rtf : list Z) : list Z :=
  match fuel with
  | O => []
  | S fuel =>
      if (8 <=? length rtf)%nat then 0 :: take 8 rtf ++ literal_runs fuel (drop 8 rtf)
      else Z.shiftl 1 (len rtf) :: rtf
  end.

(** [to_be_bytes] of a [u16]. *)
Definition be_u16 (x : Z) : list Z := [Z.shiftr x 8; Z.land x 0xFF].

Definition rtf_container (rtf : list Z) : wres (list Z) :=
  let? _ := rtf_container_len (len rtf) in
  let end_offset := (INITIAL_DICTIONARY_SIZE + len rtf) mod DICTIONARY_SIZE in
  let? end_reference := try_u16 end_offset "RTF dictionary offset" in
  let end_reference := wrap 16 (Z.shiftl end_reference 4) in
  let compressed := literal_runs (S (length rtf)) rtf ++ be_u16 end_reference in
  let compressed_size := sat64 (len compressed + 12) in
  let? compressed_size := fits (if uint_b 32 compressed_size then Some compressed_size else None) "compressed RTF" in
  let? raw_size := fits (if uint_b 32 (len rtf) then Some (len rtf) else None) "raw RTF" in
  Ok (write_u32 compressed_size ++ write_u32 raw_size ++ write_u32 0x75465A4C ++
      write_u32 (compute_crc 0 compressed) ++ compressed).

(** ** Strings *)

Lemma encode_char_units c : char_ok c -> c <> 0 -> Forall unit_wf (encode_char c).
Proof.
  intros Hc Hz. unfold encode_char, char_ok, unit_wf, uint in *.
  destruct (Z.ltb_spec c 0x10000); [by repeat constructor; lia|].
  assert (0 <= Z.shiftr (c - 0x10000) 10 < 2 ^ 10).
  { rewrite Z.shiftr_div_pow2 by lia. split; [apply Z.div_pos; lia|apply Z.div_lt_upper_bound; lia]. }
  assert (0 <= Z.land (c - 0x10000) 0x3FF < 2 ^ 10).
  { change 0x3FF with (Z.ones 10). rewrite Z.land_ones by lia. apply Z.mod_pos_bound. lia. }
  repeat constructor; lia.
Qed.

Definition string_ok (s : list Z) : Prop := Forall (fun c => char_ok c /\ c <> 0) s.

Lemma encode_utf16_units s : string_ok s -> Forall unit_wf (encode_utf16 s).
Proof.
  intros H. unfold encode_utf16. apply Forall_concat, Forall_map. eapply Forall_impl; [exact H|].
  intros c [Hc Hz]. by apply encode_char_units.
Qed.

(** ** What a value is read as *)

Definition value_of (v : WriterValue.t) : PropertyValue.t :=
  match v with
  | WriterValue.Integer16 v => PropertyValue.Integer16 v
  | WriterValue.Integer32 v => PropertyValue.Integer32 v
  | WriterValue.Integer64 v => PropertyValue.Integer64 v
  | WriterValue.Floating32 v => PropertyValue.Floating32 v
  | WriterValue.Floating64 v => PropertyValue.Floating64 v
  | WriterValue.Currency v => PropertyValue.Currency v
  | WriterValue.FloatingTime v => PropertyValue.FloatingTime v
  | WriterValue.ErrorCode v => PropertyValue.ErrorCode (signed 32 v)
  | WriterValue.Boolean v => PropertyValue.Boolean v
  | WriterValue.Time v => PropertyValue.Time v
  | WriterValue.Guid v => PropertyValue.Guid (guid_of_bytes v)
  | WriterValue.Unicode s => PropertyValue.Unicode (encode_utf16 s)
  | WriterValue.Binary v => PropertyValue.Binary v
  | WriterValue.MultipleInteger16 l => PropertyValue.MultipleInteger16 l
  | WriterValue.MultipleInteger32 l => PropertyValue.MultipleInteger32 l
  | WriterValue.MultipleInteger64 l => PropertyValue.MultipleInteger64 l
  | WriterValue.MultipleGuid l => PropertyValue.MultipleGuid (map guid_of_bytes l)
  | WriterValue.MultipleUnicode l => PropertyValue.MultipleUnicode (map encode_utf16 l)
  | WriterValue.MultipleBinary l => PropertyValue.MultipleBinary l
  | WriterValue.Object node size => PropertyValue.Object (mk_ObjectValue node size)
  | WriterValue.External _ _ => PropertyValue.Null
  end.

Definition guid_bytes_ok (g : list Z) : Prop := length g = 16%nat /\ bytes_ok g.

(** The numbers are of their width, the strings have no zero, which the
    reader takes for their end, and the multi-values are no longer than it
    accepts. *)
Definition writer_value_ok (v : WriterValue.t) : Prop :=
  match v with
  | WriterValue.Integer16 v => sint 16 v
  | WriterValue.Integer32 v => sint 32 v
  | WriterValue.Integer64 v | WriterValue.Currency v | WriterValue.Time v => sint 64 v
  | WriterValue.Floating32 v | WriterValue.ErrorCode v => uint 32 v
  | WriterValue.Floating64 v | WriterValue.FloatingTime v => uint 64 v
  | WriterValue.Boolean _ => True
  | WriterValue.Guid v => guid_bytes_ok v
  | WriterValue.Unicode s => string_ok s
  | WriterValue.Binary _ => True
  | WriterValue.MultipleInteger16 l => Forall (sint 16) l
  | WriterValue.MultipleInteger32 l => Forall (sint 32) l
  | WriterValue.MultipleInteger64 l => Forall (sint 64) l
  | WriterValue.MultipleGuid l => Forall guid_bytes_ok l
  | WriterValue.MultipleUnicode l => Forall string_ok l /\ len l <= MAX_MULTI_VALUE_ELEMENTS
  | WriterValue.MultipleBinary l => len l <= MAX_MULTI_VALUE_ELEMENTS
  | WriterValue.Object node size => uint 32 (node_id_0 node) /\ uint 32 size
  | WriterValue.External _ _ => True
  end.

Lemma le_bytes_val_n n l : length l = n -> bytes_ok l -> le_bytes n (le_val l) = l.
Proof. intros <- H. by apply le_bytes_val. Qed.

(** The bytes of a literal list, each known to be one. *)
Ltac bytes_list := repeat (apply Forall_cons_2; [assumption|]); apply Forall_nil_2.

Lemma guid_of_bytes_ok g : guid_bytes_ok g -> guid_wf (guid_of_bytes g) /\ GuidValue.to_le_bytes (guid_of_bytes g) = g.
Proof.
  intros [Hl Hb]. do 16 (destruct g as [|? g]; [done|]). destruct g; [|done].
  rewrite !Forall_cons in Hb. destruct_and! Hb.
  assert (forall l, bytes_ok l -> uint (8 * Z.of_nat (length l)) (le_val l)) as Hu by apply le_val_uint.
  unfold guid_of_bytes, GuidValue.to_le_bytes, guid_wf. cbn [data1 data2 data3 data4 take drop].
  split_and!.
  - apply (Hu [_; _; _; _]). bytes_list.
  - apply (Hu [_; _]). bytes_list.
  - apply (Hu [_; _]). bytes_list.
  - done.
  - rewrite (le_bytes_val_n 4) by first [done | bytes_list].
    by rewrite !(le_bytes_val_n 2) by first [done | bytes_list].
Qed.

(** ** Multi-values *)

Lemma offset_table_write (items : list (list Z)) start t :
  offset_table (map (fun i => Some (len i)) items) start = Ok t ->
  PropertyValueIo.write_offsets (map (fun i => Z.of_nat (length i)) items) start = Ok t.
Proof.
  revert start t. induction items as [|i items IH]; intros start t H; cbn [map offset_table PropertyValueIo.write_offsets] in *; [done|].
  destruct (uint_b 32 start) eqn:Hu; [|done]. cbn [invalid_input ok_or rbind negb] in *.
  unfold checked_add in H. destruct (_ <? _); [|done]. cbn [invalid_input ok_or rbind] in H.
  destruct (offset_table _ _) as [r|e|] eqn:Hr in H; [|done..]. apply IH in Hr. unfold len in Hr. rewrite Hr. exact H.
Qed.

Lemma table_size_eq count n : table_size (Z.of_nat count) = Some n -> n = items_start count.
Proof.
  unfold table_size, checked_add, checked_mul, items_start. destruct (_ <? _); [|done]. destruct (_ <? _); [|done].
  congruence.
Qed.

(** The bytes of a multi-value are those the reader's crate writes. *)
Lemma multiple_bytes_write encoded_len (items : list (list Z)) bytes :
  multiple_bytes encoded_len (map (fun i => Some (len i)) items) (concat items) = Ok bytes ->
  PropertyValueIo.write_items items = Ok bytes.
Proof.
  intros H. unfold multiple_bytes in H. destruct encoded_len as [n|e|]; [|done..]. cbn [rmap_err rbind] in H.
  assert (Hl : len (map (fun i => Some (len i)) items) = Z.of_nat (length items)) by (unfold len; by rewrite length_map).
  rewrite !Hl in H.
  destruct (uint_b 32 (Z.of_nat (length items))) eqn:Hu; [|done]. cbn [invalid_input ok_or rbind] in H.
  destruct (table_size _) as [o|] eqn:Ht; [|done]. apply table_size_eq in Ht as ->. cbn [invalid_input ok_or rbind] in H.
  destruct (offset_table _ _) as [r|e|] eqn:Hr in H; [|done..]. apply offset_table_write in Hr.
  unfold PropertyValueIo.write_items. rewrite Hu, Hr. exact H.
Qed.

Lemma unicode_size_units s n :
  unicode_size s = Some n -> n = len (PropertyValueIo.units_bytes (encode_utf16 s)).
Proof.
  unfold unicode_size, checked_mul, len. destruct (_ <? _); [|done]. intros [= <-]. rewrite length_units_bytes. lia.
Qed.

(** Sizes that overflow are refused first. *)
Lemma add_sizes_some sizes n t : add_sizes sizes n = Some t -> Forall is_Some sizes.
Proof.
  revert n. induction sizes as [|[s|] sizes IH]; intros n H; cbn in H; [constructor| |done].
  destruct (checked_add 64 n s); [|done]. constructor; [done|]. by eapply IH.
Qed.

Lemma payload_len_some sizes t : payload_len sizes = Some t -> Forall is_Some sizes.
Proof. unfold payload_len. destruct (table_size _); [|done]. apply add_sizes_some. Qed.

Lemma unicode_sizes values :
  Forall is_Some (map unicode_size values) ->
  map unicode_size values = map (fun i => Some (len i)) (map (fun v => PropertyValueIo.units_bytes (encode_utf16 v)) values).
Proof.
  induction values as [|v values IH]; intros H; [done|]. cbn [map] in *. apply Forall_cons in H as [[n Hn] H].
  rewrite IH by done. rewrite Hn. do 2 f_equal. by apply unicode_size_units.
Qed.

Lemma multiple_unicode_write values bytes :
  multiple_unicode_bytes values = Ok bytes ->
  PropertyValueIo.write_items (map PropertyValueIo.units_bytes (map encode_utf16 values)) = Ok bytes.
Proof.
  intros H. pose proof H as H'. unfold multiple_unicode_bytes, multiple_bytes, multiple_unicode_payload_len in H'.
  destruct (payload_len (map unicode_size values)) as [t|] eqn:Hp; [|done]. clear H'.
  apply payload_len_some, unicode_sizes in Hp. unfold multiple_unicode_bytes in H. rewrite Hp in H.
  rewrite map_map. by eapply multiple_bytes_write.
Qed.

(** ** Values are written as the reader expects them *)

Lemma variable_bytes_write v bytes :
  writer_value_ok v -> variable_bytes v = Ok (Some bytes) ->
  PropertyValueIo.write (value_of v) = Ok bytes /\ value_wf (value_of v) /\
  PropertyValue.prop_type (value_of v) = WriterValue.property_type v.
Proof.
  intros Hv Hb. destruct v as [v|v|v|v|v|v|v|v|v|v|g|s|b|l|l|l|l|l|l|n z|k n]; cbn [variable_bytes writer_value_ok] in *; try done.
  1-5: (apply ok_inj in Hb; injection Hb as <-; by split_and!).
  - apply ok_inj in Hb. injection Hb as <-. destruct (guid_of_bytes_ok g Hv) as [Hw Hg].
    split_and!; [|done|done]. transitivity (Ok (E := io_error) (GuidValue.to_le_bytes (guid_of_bytes g))); [done|by rewrite Hg].
  - apply ok_inj in Hb. injection Hb as <-. split_and!; [done|by apply encode_utf16_units|done].
  - apply ok_inj in Hb. injection Hb as <-. by split_and!.
  - apply ok_inj in Hb. injection Hb as <-. by split_and!.
  - apply ok_inj in Hb. injection Hb as <-. by split_and!.
  - apply ok_inj in Hb. injection Hb as <-. by split_and!.
  - destruct (checked_mul _ _ _); [|done]. cbn [invalid_input ok_or rbind] in Hb. apply ok_inj in Hb. injection Hb as <-.
    split_and!; [|cbn; apply Forall_map; eapply Forall_impl; [exact Hv|]; intros g Hg; by apply guid_of_bytes_ok|done].
    cbn [value_of PropertyValueIo.write]. rewrite map_map. f_equal. f_equal.
    induction Hv as [|g l Hg _ IH]; [done|]. cbn [map]. rewrite IH. f_equal. by apply guid_of_bytes_ok.
  - destruct Hv as [Hs Hn]. destruct (multiple_unicode_bytes l) as [x|e|] eqn:Hx; [|done..]. cbn [rbind] in Hb.
    apply ok_inj in Hb. injection Hb as <-. split_and!; [by apply multiple_unicode_write| |done].
    split; [|cbn; by rewrite length_map]. cbn. apply Forall_map. eapply Forall_impl; [exact Hs|]. apply encode_utf16_units.
  - destruct (multiple_binary_bytes l) as [x|e|] eqn:Hx; [|done..]. cbn [rbind] in Hb.
    apply ok_inj in Hb. injection Hb as <-. split_and!; [by eapply multiple_bytes_write|done|done].
  - apply ok_inj in Hb. injection Hb as <-. by split_and!.
Qed.

(** What is stored out of line is read as the value. *)
Lemma variable_bytes_read v bytes :
  writer_value_ok v -> variable_bytes v = Ok (Some bytes) ->
  PropertyValueIo.read (WriterValue.property_type v) bytes = Ok (value_of v, []).
Proof.
  intros Hv Hb. destruct (variable_bytes_write v bytes Hv Hb) as (Hw & Hwf & <-). by apply value_read_write.
Qed.

(** ** Sizes computed beforehand *)

Lemma len_app {A} (l k : list A) : len (l ++ k) = len l + len k.
Proof. unfold len. rewrite length_app. lia. Qed.

Lemma add_sizes_eq (items : list (list Z)) n t :
  add_sizes (map (fun i => Some (len i)) items) n = Some t -> t = n + len (concat items) /\ (items <> [] -> t < 2 ^ 64).
Proof.
  revert n. induction items as [|i items IH]; intros n H; cbn [map add_sizes concat] in *.
  { injection H as <-. split; [|done]. unfold len. cbn. lia. }
  unfold checked_add in H. destruct (Z.ltb_spec (n + len i) (2 ^ 64)) as [Hlt|]; [|done].
  apply IH in H as [-> Ht]. rewrite len_app. split; [lia|]. intros _. destruct items; [cbn; unfold len at 2; cbn; lia|by apply Ht].
Qed.

Lemma payload_len_eq (items : list (list Z)) t :
  payload_len (map (fun i => Some (len i)) items) = Some t ->
  table_size (len items) = Some (items_start (length items)) /\ t = items_start (length items) + len (concat items).
Proof.
  unfold payload_len. unfold len at 1. rewrite length_map. intros H.
  destruct (table_size (Z.of_nat (length items))) as [h|] eqn:Hh; [|done]. pose proof (table_size_eq _ _ Hh) as ->.
  apply add_sizes_eq in H as [-> _]. by split.
Qed.

Lemma offset_table_ok (items : list (list Z)) start :
  0 <= start -> start + len (concat items) < 2 ^ 32 ->
  exists t, offset_table (map (fun i => Some (len i)) items) start = Ok t /\ len t = 4 * len items.
Proof.
  revert start. induction items as [|i items IH]; intros start Hs Ht; cbn [map offset_table concat] in *; [by exists []|].
  rewrite len_app in Ht. assert (0 <= len i /\ 0 <= len (concat items)) by (unfold len; lia).
  rewrite (proj2 (uint_b_spec 32 start)) by (unfold uint; lia). cbn [invalid_input ok_or rbind].
  unfold checked_add. rewrite (proj2 (Z.ltb_lt _ _)) by lia. cbn [invalid_input ok_or rbind].
  destruct (IH (start + len i)) as (t & -> & Hl); [lia..|]. cbn [rbind]. eexists. split; [done|].
  rewrite len_app, Hl. change (len (write_u32 start)) with 4. unfold len. cbn [length]. lia.
Qed.

(** The bytes of a multi-value have the size computed beforehand. *)
Lemma multiple_bytes_ok (items : list (list Z)) t encoded_len :
  payload_len (map (fun i => Some (len i)) items) = Some t -> t < 2 ^ 32 -> is_ok encoded_len = true ->
  exists bytes, multiple_bytes encoded_len (map (fun i => Some (len i)) items) (concat items) = Ok bytes /\ len bytes = t.
Proof.
  intros Hp Ht He. apply payload_len_eq in Hp as [Hs ->]. unfold multiple_bytes. destruct encoded_len as [e|e|]; [|done..].
  assert (Hl : len (map (fun i => Some (len i)) items) = len items) by (unfold len; by rewrite length_map).
  rewrite !Hl, Hs. cbn [rmap_err rbind]. assert (0 <= len (concat items) /\ 0 <= len items) by (unfold len; lia).
  unfold items_start in *. fold (len items) in *.
  rewrite (proj2 (uint_b_spec 32 _)) by (unfold uint; lia). cbn [invalid_input ok_or rbind].
  destruct (offset_table_ok items ((len items + 1) * 4)) as (offs & -> & Ho); [lia..|]. cbn [rbind].
  eexists. split; [done|]. rewrite !len_app, Ho. change (len (write_u32 _)) with 4. lia.
Qed.

Lemma len_concat_map {A} (wr : A -> list Z) n l :
  (forall a, length (wr a) = n) -> len (concat (map wr l)) = Z.of_nat n * len l.
Proof. intros H. unfold len. rewrite (length_concat_map wr n) by done. lia. Qed.

Lemma len_concat_guids l : Forall guid_bytes_ok l -> len (concat l) = 16 * len l.
Proof.
  induction 1 as [|g l [Hg _] _ IH]; [done|]. cbn [concat]. rewrite len_app, IH. unfold len. cbn [length]. lia.
Qed.

(** A raw value within the limits has bytes of the size computed
    beforehand, or is kept in the record. *)
Lemma raw_value_bytes v n :
  writer_value_ok (raw_property_value v) -> raw_value_payload_len v = Ok n -> n < 2 ^ 32 ->
  match WriterValue.inline_value (raw_property_value v) with
  | Some _ => n = 0
  | None => exists bytes, variable_bytes (raw_property_value v) = Ok (Some bytes) /\ len bytes = n
  end.
Proof.
  intros Hv Hn Ht. assert (Hfit : forall k (l : list Z) what, fits (checked_mul 64 (len l) k) what = Ok n -> n = len l * k).
  { intros k l what H. apply fits_ok in H. unfold checked_mul in H. destruct (_ <? _); [|done]. congruence. }
  destruct v as [v|v|v|v|v|v|v|v|v|v|g|s|b|l|l|l|l|l|l]; cbn [raw_property_value raw_value_payload_len writer_value_ok] in *;
    cbn [WriterValue.inline_value variable_bytes].
  1,2,4,8,9: by injection Hn as <-.
  1-5: (apply ok_inj in Hn; subst n; eexists; split; [reflexivity|done]).
  - apply ok_inj in Hn. subst n. destruct Hv as [Hl _]. exists g. split; [done|]. unfold len. by rewrite Hl.
  - unfold unicode_payload_len in Hn. apply fits_ok, unicode_size_units in Hn. subst n. by eexists.
  - apply ok_inj in Hn. subst n. by eexists.
  - apply Hfit in Hn. eexists. split; [done|]. rewrite (len_concat_map _ 2) by done. lia.
  - apply Hfit in Hn. eexists. split; [done|]. rewrite (len_concat_map _ 4) by done. lia.
  - apply Hfit in Hn. eexists. split; [done|]. rewrite (len_concat_map _ 8) by done. lia.
  - apply fits_ok in Hn. rewrite Hn. cbn [invalid_input ok_or rbind]. unfold checked_mul in Hn. destruct (_ <? _); [|done].
    injection Hn as <-. eexists. split; [done|]. rewrite len_concat_guids by done. lia.
  - unfold multiple_unicode_payload_len in Hn. pose proof Hn as Hk. apply fits_ok in Hn.
    pose proof (unicode_sizes l (payload_len_some _ _ Hn)) as Hs. rewrite Hs in Hn.
    destruct (multiple_bytes_ok _ n (multiple_unicode_payload_len l) Hn Ht) as (bytes & Hb & Hlen).
    { unfold multiple_unicode_payload_len. by rewrite Hk. }
    exists bytes. split; [|done]. unfold multiple_unicode_bytes. rewrite Hs.
    change (map (fun v => concat (map write_u16 (encode_utf16 v))) l) with (map (fun v => PropertyValueIo.units_bytes (encode_utf16 v)) l).
    by rewrite Hb.
  - pose proof Hn as Hk. unfold multiple_binary_payload_len in Hn. apply fits_ok in Hn.
    destruct (multiple_bytes_ok l n (multiple_binary_payload_len l) Hn Ht) as (bytes & Hb & Hlen); [by rewrite Hk|].
    exists bytes. split; [|done]. unfold multiple_binary_bytes. by rewrite Hb.
Qed.

(** ** The compressed form of RTF, as its readers decode it

    A control byte announces eight tokens, its lowest bit the first: a
    literal byte, or two bytes, high first, with the offset of a match in the
    dictionary and its length less two. A match at the position where the
    dictionary is written next is the end. *)

Record lzfu_state := mk_lzfu { lz_dict : list Z; lz_pos : Z; lz_out : list Z }.

Definition lzfu_put (b : Z) (s : lzfu_state) : lzfu_state :=
  mk_lzfu (<[Z.to_nat (lz_pos s) := b]> (lz_dict s)) ((lz_pos s + 1) mod DICTIONARY_SIZE) (lz_out s ++ [b]).

Fixpoint lzfu_copy (n : nat) (offset : Z) (s : lzfu_state) : lzfu_state :=
  match n with
  | O => s
  | S n => lzfu_copy n ((offset + 1) mod DICTIONARY_SIZE)
             (lzfu_put (default 0 (lz_dict s !! Z.to_nat offset)) s)
  end.

Definition control_bits (c : Z) : list bool := map (Z.testbit c) [0; 1; 2; 3; 4; 5; 6; 7].

Fixpoint lzfu_run (fuel : nat) (control : list bool) (input : list Z) (s : lzfu_state) : option (list Z) :=
  match fuel with
  | O => None
  | S fuel =>
      match control, input with
      | [], c :: input => lzfu_run fuel (control_bits c) input s
      | false :: control, b :: input => lzfu_run fuel control input (lzfu_put b s)
      | true :: control, hi :: lo :: input =>
          let token := hi * 256 + lo in
          if token / 16 =? lz_pos s then Some (lz_out s)
          else lzfu_run fuel control input (lzfu_copy (Z.to_nat (token mod 16 + 2)) (token / 16) s)
      | _, _ => None
      end
  end.

(** Every step takes a byte of the input. *)
Definition lzfu_decode (dictionary input : list Z) : option (list Z) :=
  lzfu_run (S (length input)) [] input (mk_lzfu dictionary INITIAL_DICTIONARY_SIZE []).

Definition lzfu_puts (bs : list Z) (s : lzfu_state) : lzfu_state := foldl (fun s b => lzfu_put b s) s bs.

Lemma lzfu_puts_out bs s : lz_out (lzfu_puts bs s) = lz_out s ++ bs.
Proof.
  revert s. induction bs as [|b bs IH]; intros s; cbn [lzfu_puts foldl]; [by rewrite app_nil_r|].
  fold (lzfu_puts bs (lzfu_put b s)). rewrite IH. cbn [lzfu_put lz_out]. by rewrite <- app_assoc.
Qed.

Lemma lzfu_puts_pos bs s :
  0 <= lz_pos s < DICTIONARY_SIZE -> lz_pos (lzfu_puts bs s) = (lz_pos s + len bs) mod DICTIONARY_SIZE.
Proof.
  unfold DICTIONARY_SIZE. revert s. induction bs as [|b bs IH]; intros s Hs; cbn [lzfu_puts foldl].
  - unfold len. cbn [length]. rewrite Z.mod_small by lia. lia.
  - fold (lzfu_puts bs (lzfu_put b s)). rewrite IH by (cbn [lzfu_put lz_pos]; apply Z.mod_pos_bound; done).
    cbn [lzfu_put lz_pos]. unfold DICTIONARY_SIZE. rewrite Z.add_mod_idemp_l by done. f_equal. unfold len. cbn [length]. lia.
Qed.

(** Literals are output as they are. *)
Lemma lzfu_run_literals bs : forall fuel control input s,
  lzfu_run (length bs + fuel) (replicate (length bs) false ++ control) (bs ++ input) s =
  lzfu_run fuel control input (lzfu_puts bs s).
Proof.
  induction bs as [|b bs IH]; intros fuel control input s; [done|]. cbn [length plus replicate app lzfu_run]. apply IH.
Qed.

Lemma control_end r : (r < 8)%nat -> exists bits, control_bits (Z.shiftl 1 (Z.of_nat r)) = replicate r false ++ true :: bits.
Proof. intros Hr. do 8 (destruct r as [|r]; [eexists; vm_compute; reflexivity|]). lia. Qed.

Lemma be_u16_token e : 0 <= e < DICTIONARY_SIZE -> exists hi lo,
  be_u16 (wrap 16 (Z.shiftl e 4)) = [hi; lo] /\ (hi * 256 + lo) / 16 = e.
Proof.
  unfold DICTIONARY_SIZE. intros He. do 2 eexists. split; [reflexivity|]. rewrite Z.shiftl_mul_pow2 by lia.
  change (2 ^ 4) with 16. rewrite wrap_small by (unfold uint; lia).
  change 255 with (Z.ones 8). rewrite Z.land_ones, Z.shiftr_div_pow2 by lia. change (2 ^ 8) with 256.
  rewrite Z.mul_comm, <- Z.div_mod by lia. by apply Z.div_mul.
Qed.

(** The runs followed by the end are decoded to the text. *)
Lemma lzfu_run_runs n : forall rtf fuel s e,
  (length rtf < n)%nat -> (length (literal_runs n rtf) < fuel)%nat -> 0 <= lz_pos s < DICTIONARY_SIZE ->
  e = (lz_pos s + len rtf) mod DICTIONARY_SIZE ->
  lzfu_run fuel [] (literal_runs n rtf ++ be_u16 (wrap 16 (Z.shiftl e 4))) s = Some (lz_out s ++ rtf).
Proof.
  induction n as [|n IH]; intros rtf fuel s e Hn Hf Hs He; [lia|]. cbn [literal_runs] in *.
  destruct (Nat.leb_spec 8 (length rtf)) as [H8|H8]; cbn [length] in Hf.
  - assert (Ht : length (take 8 rtf) = 8%nat) by (rewrite length_take; lia). rewrite length_app, Ht in Hf.
    destruct fuel as [|fuel]; [lia|]. cbn [lzfu_run app]. change (control_bits 0) with (replicate 8 false ++ []).
    rewrite <- Ht at 1. replace fuel with (length (take 8 rtf) + (fuel - 8))%nat by lia. rewrite <- app_assoc, lzfu_run_literals.
    assert (Hl : len rtf = 8 + len (drop 8 rtf)) by (unfold len; rewrite length_drop; lia).
    assert (Hp : lz_pos (lzfu_puts (take 8 rtf) s) = (lz_pos s + 8) mod DICTIONARY_SIZE)
      by (rewrite lzfu_puts_pos by done; unfold len; by rewrite Ht).
    rewrite (IH (drop 8 rtf) (fuel - 8)%nat (lzfu_puts (take 8 rtf) s) e).
    + by rewrite lzfu_puts_out, <- app_assoc, take_drop.
    + rewrite length_drop. lia.
    + lia.
    + rewrite Hp. by apply Z.mod_pos_bound.
    + rewrite Hp, Z.add_mod_idemp_l by done. rewrite He, Hl. f_equal. lia.
  - destruct fuel as [|fuel]; [lia|]. cbn [lzfu_run app]. unfold len at 1.
    destruct (control_end (length rtf) H8) as (bits & ->).
    replace fuel with (length rtf + (fuel - length rtf))%nat by lia. rewrite lzfu_run_literals.
    destruct (be_u16_token e) as (hi & lo & -> & Htok); [rewrite He; by apply Z.mod_pos_bound|].
    destruct (fuel - length rtf)%nat as [|k] eqn:Hk; [lia|]. cbn [lzfu_run].
    rewrite Htok, lzfu_puts_pos, He, Z.eqb_refl by done. by rewrite lzfu_puts_out.
Qed.

Lemma length_literal_runs n : forall rtf, (length rtf < n)%nat ->
  len (literal_runs n rtf) = len rtf + div_ceil (len rtf + 1) 8.
Proof.
  induction n as [|n IH]; intros rtf Hn; [lia|]. cbn [literal_runs]. unfold div_ceil, len in *.
  destruct (Nat.leb_spec 8 (length rtf)) as [H8|H8]; cbn [length].
  - rewrite length_app, length_take, Nat.min_l by lia. specialize (IH (drop 8 rtf)). rewrite length_drop in IH.
    specialize (IH ltac:(lia)).
    replace (Z.of_nat (length rtf) + 1 + 8 - 1) with (Z.of_nat (length rtf - 8) + 1 + 8 - 1 + 1 * 8) by lia.
    rewrite Z.div_add by lia. lia.
  - replace ((Z.of_nat (length rtf) + 1 + 8 - 1) / 8) with 1; [lia|].
    apply (Z.div_unique _ 8 1 (Z.of_nat (length rtf))); lia.
Qed.

(** ** Properties *)

(** C33: A raw value that passes the validation, with numbers of their width,
    no zeros in strings and at most 65536 items, is either kept in its record
    or stored in bytes of exactly the size computed beforehand, at most one
    mebibyte, from which the reader decodes the value. *)
Theorem raw_value_round_trip (v : RawPropertyValue.t)
  (Hv : writer_value_ok (raw_property_value v)) (Hvalid : validate_raw_value v = Ok tt) :
  exists n, raw_value_payload_len v = Ok n /\
    match WriterValue.inline_value (raw_property_value v) with
    | Some _ => n = 0
    | None => exists bytes, variable_bytes (raw_property_value v) = Ok (Some bytes) /\
        len bytes = n /\ n <= MAX_IN_MEMORY_PROPERTY_BYTES /\
        PropertyValueIo.read (WriterValue.property_type (raw_property_value v)) bytes =
          Ok (value_of (raw_property_value v), [])
    end.
Proof.
  unfold validate_raw_value in Hvalid. destruct (raw_value_refused v); [done|].
  destruct (raw_value_payload_len v) as [n|e|] eqn:Hn; [|done..]. cbn [rbind] in Hvalid. exists n. split; [done|].
  unfold validate_pst_property_len in Hvalid. destruct (_ <? _) eqn:H1 in Hvalid; [done|]. cbn [rbind] in Hvalid.
  destruct (MAX_IN_MEMORY_PROPERTY_BYTES <? n) eqn:H2; [done|]. apply Z.ltb_ge in H2.
  pose proof (raw_value_bytes v n Hv Hn) as Hb. unfold MAX_IN_MEMORY_PROPERTY_BYTES in *. specialize (Hb ltac:(lia)).
  destruct (WriterValue.inline_value _); [done|]. destruct Hb as (bytes & Hb & Hl). exists bytes.
  split_and!; [done|done|done|]. by apply variable_bytes_read.
Qed.

(** Two strings, one with a character outside the basic plane. *)
Definition sample_raw : RawPropertyValue.t := RawPropertyValue.MultipleUnicode [[72; 105]; [0x1F600]].

Lemma raw_value_round_trip_witness :
  exists bytes, variable_bytes (raw_property_value sample_raw) = Ok (Some bytes) /\ len bytes = 20 /\
    PropertyValueIo.read PT_MultipleUnicode bytes =
      Ok (PropertyValue.MultipleUnicode [[72; 105]; [0xD83D; 0xDE00]], []).
Proof.
  destruct (raw_value_round_trip sample_raw) as (n & Hn & bytes & Hb & Hl & _ & Hr).
  - split; [|done]. repeat constructor; cbn; lia.
  - vm_compute. reflexivity.
  - exists bytes. split; [exact Hb|]. split; [rewrite Hl; vm_compute in Hn; congruence|]. exact Hr.
Defined.

(** The writer accepts multi-values that the reader refuses: with more
    than 65536 items, as few bytes as the limits allow, the validation
    passes and the bytes are stored, but they cannot be read. *)
Theorem long_multi_value_unreadable (n : nat)
  (Hlong : MAX_MULTI_VALUE_ELEMENTS < Z.of_nat n) (Hsize : (Z.of_nat n + 1) * 4 <= MAX_IN_MEMORY_PROPERTY_BYTES) :
  let v := RawPropertyValue.MultipleBinary (replicate n []) in
  validate_raw_value v = Ok tt /\
  exists bytes, variable_bytes (raw_property_value v) = Ok (Some bytes) /\
    exists e, PropertyValueIo.read PT_MultipleBinary bytes = Err e.
Proof.
  intros v. unfold MAX_IN_MEMORY_PROPERTY_BYTES, MAX_MULTI_VALUE_ELEMENTS in *.
  assert (Hadd : forall k t, 0 <= t < 2 ^ 64 -> add_sizes (map (fun i : list Z => Some (len i)) (replicate k [])) t = Some t).
  { induction k as [|k IH]; intros t Ht; [done|]. cbn [replicate map add_sizes]. unfold checked_add. change (len (@nil Z)) with 0.
    rewrite Z.add_0_r, (proj2 (Z.ltb_lt _ _)) by lia. by apply IH. }
  assert (Hp : payload_len (map (fun i : list Z => Some (len i)) (replicate n [])) = Some ((Z.of_nat n + 1) * 4)).
  { unfold payload_len, table_size, checked_add, checked_mul. unfold len at 1 2 3 4. rewrite length_map, length_replicate.
    rewrite (proj2 (Z.ltb_lt (Z.of_nat n + 1) _)), (proj2 (Z.ltb_lt _ _)) by lia. apply Hadd. lia. }
  split.
  - unfold validate_raw_value. cbn [v raw_value_refused raw_value_payload_len]. unfold multiple_binary_payload_len.
    rewrite Hp. cbn [fits ok_or rbind]. unfold validate_pst_property_len, MAX_PST_PROPERTY_BYTES, MAX_IN_MEMORY_PROPERTY_BYTES.
    rewrite (proj2 (Z.ltb_ge _ _)) by lia. cbn [rbind]. by rewrite (proj2 (Z.ltb_ge _ _)) by lia.
  - destruct (multiple_bytes_ok (replicate n []) _ (multiple_binary_payload_len (replicate n [])) Hp) as (bytes & Hb & _).
    { lia. } { unfold multiple_binary_payload_len. by rewrite Hp. }
    exists bytes. split; [cbn [v raw_property_value variable_bytes]; unfold multiple_binary_bytes; by rewrite Hb|].
    unfold multiple_bytes in Hb. unfold multiple_binary_payload_len in Hb. rewrite Hp in Hb. cbn [fits ok_or rmap_err rbind] in Hb.
    destruct (uint_b 32 _) eqn:Hu in Hb; [|done]. cbn [invalid_input ok_or rbind] in Hb. apply uint_b_spec in Hu.
    destruct (table_size _); [|done]. cbn [invalid_input ok_or rbind] in Hb. destruct (offset_table _ _) as [o|?|]; [|done..].
    apply ok_inj in Hb. subst bytes. cbn [PropertyValueIo.read]. unfold rd_bind at 1, read_offsets, read_multivalue_count.
    unfold rd_bind at 1 2. rewrite read_u32_app by done. cbn [rbind]. unfold len. rewrite length_map, length_replicate.
    unfold MAX_MULTI_VALUE_ELEMENTS. rewrite (proj2 (Z.leb_gt _ _)) by lia. by eexists.
Qed.

Lemma long_multi_value_unreadable_witness :
  exists bytes e, variable_bytes (WriterValue.MultipleBinary (replicate (Z.to_nat 65537) [])) = Ok (Some bytes) /\
    PropertyValueIo.read PT_MultipleBinary bytes = Err e.
Proof.
  destruct (long_multi_value_unreadable (Z.to_nat 65537)) as (_ & bytes & Hb & e & He).
  - rewrite Z2Nat.id by lia. reflexivity.
  - rewrite Z2Nat.id by lia. discriminate.
  - exists bytes, e. split; [exact Hb|exact He].
Defined.

(** The container of an RTF body of less than 2^31 bytes is always built,
    has the length computed beforehand, starts with its sizes, the magic
    number and the CRC of what follows, and is decoded to the body whatever
    dictionary a reader starts with. *)
Theorem rtf_container_correct (rtf : list Z) (Hrtf : len rtf < 2 ^ 31) :
  exists compressed,
    let size := len compressed + 12 in
    rtf_container rtf = Ok (write_u32 size ++ write_u32 (len rtf) ++ write_u32 0x75465A4C ++
                            write_u32 (compute_crc 0 compressed) ++ compressed) /\
    rtf_container_len (len rtf) = Ok (size + 4) /\
    forall dictionary, lzfu_decode dictionary compressed = Some rtf.
Proof.
  set (e := (INITIAL_DICTIONARY_SIZE + len rtf) mod DICTIONARY_SIZE).
  assert (He : 0 <= e < DICTIONARY_SIZE) by (by apply Z.mod_pos_bound). unfold DICTIONARY_SIZE in He.
  exists (literal_runs (S (length rtf)) rtf ++ be_u16 (wrap 16 (Z.shiftl e 4))).
  assert (Hl : len (literal_runs (S (length rtf)) rtf ++ be_u16 (wrap 16 (Z.shiftl e 4))) = len rtf + div_ceil (len rtf + 1) 8 + 2)
    by (rewrite len_app, length_literal_runs by lia; done).
  pose proof (div_ceil_spec (len rtf + 1) 8 ltac:(lia)) as Hd. assert (Hn : 0 <= len rtf) by (unfold len; lia).
  assert (Hc : rtf_container_len (len rtf) = Ok (len rtf + div_ceil (len rtf + 1) 8 + 18)).
  { unfold rtf_container_len, checked_add. rewrite (proj2 (Z.ltb_lt (len rtf + 1) _)) by lia. cbn [fits ok_or rbind].
    rewrite (proj2 (Z.ltb_lt (len rtf + _) _)) by lia. by rewrite (proj2 (Z.ltb_lt _ _)) by lia. }
  cbv zeta. split_and!.
  - unfold rtf_container. rewrite Hc. cbn [rbind]. fold e. unfold try_u16. rewrite (proj2 (uint_b_spec 16 e)) by (unfold uint; lia).
    cbn [fits ok_or rbind]. rewrite Hl. unfold sat64. rewrite Z.min_r by lia.
    rewrite (proj2 (uint_b_spec 32 _)) by (unfold uint; lia). cbn [fits ok_or rbind].
    rewrite (proj2 (uint_b_spec 32 _)) by (unfold uint; lia). done.
  - rewrite Hl, Hc. f_equal. lia.
  - intros dictionary. unfold lzfu_decode. rewrite (lzfu_run_runs (S (length rtf)) rtf).
    + done.
    + lia.
    + rewrite length_app. lia.
    + done.
    + done.
Qed.

Lemma rtf_container_correct_witness :
  exists container, rtf_container [123; 92; 114; 116; 102; 49; 32; 72; 105; 125] = Ok container /\ len container = 30 /\
    lzfu_decode [] (drop 16 container) = Some [123; 92; 114; 116; 102; 49; 32; 72; 105; 125].
Proof.
  destruct (rtf_container_correct [123; 92; 114; 116; 102; 49; 32; 72; 105; 125]) as (c & Hc & Hl & Hd); [reflexivity|].
  eexists. split; [exact Hc|]. split.
  - cbv zeta in Hl. assert (Hk : len c + 12 + 4 = 30) by (apply (ok_inj (E := WriterError)); rewrite <- Hl; reflexivity).
    rewrite !len_app. change (len (write_u32 _)) with 4. lia.
  - rewrite !app_assoc, drop_app_exact by done. apply Hd.
Defined.
