(* ===== verification/WriterContext.v ===== *)
(** * Property contexts of the writer

    [writer.rs]: [property_context], which puts a context in one page,
    [property_context_external], which spreads it over several pages with a
    B-tree of records, the choice between them in [build_property_context],
    and [externalize_large_properties]. Shown: the reader of file PropContext
    finds exactly the properties of the context and reads each as the value
    it was built from. *)
From S2P Require Import Prelude Errors Io Ids Page BTree Order Block Lookup DataTree SubNode Heap HeapTree PropValue PropContext Alloc WriterBlocks WriterTree WriterHeap WriterBth WriterValues.
#[local] Open Scope Z_scope.

(** [(u16, PropertyValue)] *)
Abbreviation Property := (prod Z WriterValue.t).

(** [sorted.sort_by_key(|(id, _)| *id)] *)
Definition sort_properties (properties : list Property) : list Property :=
  sort_by (by_key fst Z.compare) properties.

(** ** Records *)

(** The id, the type and the 32 bits of a record. *)
Definition record_bytes (p : Property) (value : Z) : list Z :=
  write_u16 p.1 ++ write_u16 (PropertyType.into_u16 (WriterValue.property_type p.2)) ++ write_u32 value.

(** [value.variable_bytes()?.ok_or_else(..)?] *)
Definition out_of_line (v : WriterValue.t) : wres (list Z) :=
  let? bytes := wio (variable_bytes v) in
  ok_or bytes (InvalidStructure "property has no serialized value").

(** The loop over the sorted properties, which the two forms of a context
    share: a value is in its record, is empty, or is placed in the heap. *)
Section records.
Context {St : Type} (place : St -> list Z -> wres (HeapId * St)).

(** The 32 bits of the record of a property. *)
Definition place_value (p : Property) (s : St) : wres (Z * St) :=
  match WriterValue.inline_value p.2 with
  | Some inline => Ok (inline, s)
  | None =>
      let? bytes := out_of_line p.2 in
      if is_empty bytes then Ok (0, s) else
      let? '(heap_id, s) := place s bytes in
      Ok (HeapId.into_u32 heap_id, s)
  end.

Fixpoint context_records (sorted : list Property) (s : St) : wres (list Z * St) :=
  match sorted with
  | [] => Ok ([], s)
  | p :: sorted =>
      let? '(value, s) := place_value p s in
      let? '(records, s) := context_records sorted s in
      Ok (record_bytes p value ++ records, s)
  end.
End records.

(** ** A context in one page *)

Definition place_inline (allocations : list (list Z)) (bytes : list Z) : wres (HeapId * list (list Z)) :=
  let allocations := allocations ++ [bytes] in
  let? index := to_u16 (size_z allocations) "heap page" in
  let? heap_id := rmap_err (fun _ => ValueTooLarge "heap page") (HeapId.new index 0) in
  Ok (heap_id, allocations).

(** [HeapTreeHeader::new(2, 6, levels, root)?.write(..)] *)
Definition context_tree_header (levels : Z) (root : HeapId) : wres (list Z) :=
  let? header := structure_ltp (HeapTreeHeader.new 2 6 levels root) in
  Ok (HeapTreeHeader.write header).

(** The first two allocations are set last. *)
Definition property_context (properties : list Property) : wres (list Z) :=
  let sorted := sort_properties properties in
  let? '(records, allocations) := context_records place_inline sorted [[]; []] in
  let allocations := <[1%nat := records]> allocations in
  let? root := structure_ltp (HeapId.new 2 0) in
  let? tree_header := context_tree_header 0 root in
  heap_page HN_Properties (<[0%nat := tree_header]> allocations).

(** ** A context over several pages *)

Definition PC_LEAF_RECORD_SIZE : Z := 8.
Definition PC_INTERMEDIATE_RECORD_SIZE : Z := 6.

(** [pages] after the records are placed: the leaves, the levels above them
    and the first page with the header of the tree. *)
Definition property_context_external (properties : list Property) : wres (list (list Z)) :=
  let sorted := sort_properties properties in
  if is_empty sorted then Err (InvalidStructure "external property context must contain properties") else
  let? '(records, pages) := context_records push_heap_allocation sorted [] in
  let? '(roots, pages) := bth_leaves 2
    (chunks (MAX_HEAP_ALLOCATION / PC_LEAF_RECORD_SIZE * PC_LEAF_RECORD_SIZE) records) pages in
  let? '(levels, roots, pages) := bth_levels 2 (MAX_HEAP_ALLOCATION / PC_INTERMEDIATE_RECORD_SIZE) "PC BTH depth"
    (length roots) 0 roots pages in
  let? root := (match roots with [] => Panic | r :: _ => Ok r.2 end) in
  let? tree_header := context_tree_header levels root in
  finish_heap HN_Properties [tree_header] pages.

(** ** Both *)

Definition is_heap_page_too_large (e : WriterError) : bool := WriterError_eqb_too_large e "heap page".

Definition property_context_logical_size (properties : list Property) : wres Z :=
  match property_context properties with
  | Ok context => Ok (size_z context)
  | Err e =>
      if is_heap_page_too_large e then
        let? pages := property_context_external properties in
        fits (add_sizes (map (fun page => Some (size_z page)) pages) 0) "property context"
      else Err e
  | Panic => Panic
  end.

Record ExternalPropertyBuild := mk_ExternalPropertyBuild {
  epb_data_block : UnicodeBlockId;
  epb_blocks : list BlockSpec
}.

(** The context is one block with the preferred id, or a data tree of its
    pages, in blocks of its own. *)
Definition build_property_context (properties : list Property) (preferred_block : UnicodeBlockId)
    (next_block_index : Z) : wres ExternalPropertyBuild * Z :=
  match property_context properties with
  | Ok context =>
      (Ok (mk_ExternalPropertyBuild preferred_block [mk_BlockSpec preferred_block (Data context) 2]), next_block_index)
  | Err e =>
      if is_heap_page_too_large e then
        match property_context_external properties with
        | Ok pages =>
            let '(r, s) := append_data_tree_pages pages (mk_VecState next_block_index []) in
            (let? data_block := r in Ok (mk_ExternalPropertyBuild data_block (vs_blocks s)), vs_next s)
        | Err e => (Err e, next_block_index)
        | Panic => (Panic, next_block_index)
        end
      else (Err e, next_block_index)
  | Panic => (Panic, next_block_index)
  end.

(** ** Large values *)

(** [matches!(value, PropertyValue::Object(_, _))] *)
Definition is_object (v : WriterValue.t) : bool := match v with WriterValue.Object _ _ => true | _ => false end.

(** [node(kind, index)] *)
Definition node (kind : NodeIdType) (index : Z) : wres NodeId := structure (NodeId.new kind index).

(** One value of the loop: it stays, or it is moved to a sub-node. *)
Definition externalize_value (v : WriterValue.t) (next_value_node : Z) :
    W VecState (WriterValue.t * Z * option LeafEntry) :=
  let^ bytes := w_lift (wio (variable_bytes v)) in
  match bytes with
  | None => w_ret (v, next_value_node, None)
  | Some bytes =>
      let^ _ := w_lift (validate_pst_property_len "property subnode" (size_z bytes)) in
      if (size_z bytes <=? 2048) || is_object v then w_ret (v, next_value_node, None) else
      let^ id := w_lift (node ListsTablesProperties next_value_node) in
      let^ next := w_lift (fits (checked_add 32 next_value_node 1) "property subnode id") in
      let^ root := append_data_tree bytes in
      w_ret (WriterValue.External (WriterValue.property_type v) id, next,
             Some (LeafSubNodeTreeEntry.new id root None))
  end.

Fixpoint externalize_large_properties (properties : list Property) (next_value_node : Z) (subnodes : list LeafEntry) :
    W VecState (list Property * Z * list LeafEntry) :=
  match properties with
  | [] => w_ret ([], next_value_node, subnodes)
  | p :: properties =>
      let^ r := externalize_value p.2 next_value_node in
      let '(v, next_value_node, entry) := r in
      let subnodes := match entry with Some e => subnodes ++ [e] | None => subnodes end in
      let^ r := externalize_large_properties properties next_value_node subnodes in
      let '(properties, next_value_node, subnodes) := r in
      w_ret ((p.1, v) :: properties, next_value_node, subnodes)
  end.

(** ** What the records say *)

(** The types whose values are always in their record, and those whose
    values are always in the heap: a value moved to a sub-node has none of
    them. *)
Definition node_type (t : PropertyType) : Prop :=
  match t with
  | PT_Null | PT_Integer16 | PT_Integer32 | PT_Floating32 | PT_ErrorCode | PT_Boolean | PT_Floating64
  | PT_Currency | PT_FloatingTime | PT_Integer64 | PT_Time | PT_Guid | PT_Object => False
  | _ => True
  end.

Definition node_ok (n : NodeId) : Prop := uint 32 (node_id_0 n) /\ NodeId.id_type n <> Ok HeapNode.

Definition property_ok (p : Property) : Prop :=
  uint 16 p.1 /\ writer_value_ok p.2 /\
  (forall bytes, variable_bytes p.2 = Ok (Some bytes) -> size_z bytes <= MAX_PST_PROPERTY_BYTES) /\
  match p.2 with WriterValue.External kind node => node_type kind /\ node_ok node | _ => True end.

(** The record that a reader has for a value of 32 bits. *)
Definition entry_of (p : Property) (value : Z) : PropertyTreeRecord :=
  mk_HeapTreeLeafEntry p.1 (mk_PropertyTreeRecordValue (WriterValue.property_type p.2)
    (PropertyTreeRecordValue.record_of (WriterValue.property_type p.2) value)).

(** The value of the record: in line, empty, or the id of its bytes in a heap
    that [holds] them. *)
Definition value_stored (holds : HeapId -> list Z -> Prop) (v : WriterValue.t) (value : Z) : Prop :=
  match WriterValue.inline_value v with
  | Some inline => value = inline
  | None => exists bytes, variable_bytes v = Ok (Some bytes) /\
      (bytes = [] /\ value = 0 \/
       bytes <> [] /\ exists id, holds id bytes /\ value = HeapId.into_u32 id)
  end.

Definition stored (holds : HeapId -> list Z -> Prop) (p : Property) (e : PropertyTreeRecord) : Prop :=
  exists value, value_stored holds p.2 value /\ e = entry_of p value.

Lemma value_stored_mono (P Q : HeapId -> list Z -> Prop) v value :
  (forall id b, P id b -> Q id b) -> value_stored P v value -> value_stored Q v value.
Proof.
  intros H. unfold value_stored. destruct (WriterValue.inline_value v); [done|].
  intros (bytes & Hb & [Hz|(Hne & id & Hp & ->)]); exists bytes; (split; [done|]); [by left|].
  right. split; [done|]. exists id. split; [by apply H|done].
Qed.

Lemma stored_mono (P Q : HeapId -> list Z -> Prop) p e :
  (forall id b, P id b -> Q id b) -> stored P p e -> stored Q p e.
Proof. intros H (value & Hv & ->). exists value. split; [by eapply value_stored_mono|done]. Qed.

Lemma out_of_line_ok v bytes : out_of_line v = Ok bytes -> variable_bytes v = Ok (Some bytes).
Proof.
  unfold out_of_line. destruct (variable_bytes v) as [[b|]|e|]; cbn; [|done..]. by intros [= ->].
Qed.

(** A value out of line has no inline value. *)
Lemma variable_not_inline v bytes : variable_bytes v = Ok (Some bytes) -> WriterValue.inline_value v = None.
Proof. by destruct v. Qed.

(** A heap id, read back from the record. *)
Lemma record_of_heap_id v id bytes :
  variable_bytes v = Ok (Some bytes) -> ser_wf id ->
  PropertyTreeRecordValue.record_of (WriterValue.property_type v) (HeapId.into_u32 id) = InHeap id.
Proof.
  intros Hv [Hu Ht]. assert (HeapId.from_u32 (HeapId.into_u32 id) = id) as Hid by (by destruct id as [[x]]).
  assert (NodeId.id_type (mk_NodeId (HeapId.into_u32 id)) = Ok HeapNode) as Hn by (destruct id as [[x]]; exact Ht).
  destruct v; try done; cbn [WriterValue.property_type PropertyTreeRecordValue.record_of]; by rewrite ?Hn, ?Hid.
Qed.

Lemma record_of_zero v bytes :
  variable_bytes v = Ok (Some bytes) ->
  PropertyTreeRecordValue.record_of (WriterValue.property_type v) 0 = InHeap (HeapId.from_u32 0).
Proof. by destruct v. Qed.

Lemma record_of_external kind n :
  node_type kind -> node_ok n -> PropertyTreeRecordValue.record_of kind (node_id_0 n) = InNode n.
Proof.
  intros Hk [Hu Hn]. destruct n as [x]. cbn [node_id_0].
  destruct kind; try done; cbn [PropertyTreeRecordValue.record_of];
    (destruct (NodeId.id_type (mk_NodeId x)) as [[]|e|] eqn:E; try done; by rewrite E in Hn).
Qed.

(** The record of an inline value holds its 32 bits. *)
Lemma inline_record p inline :
  property_ok p -> WriterValue.inline_value p.2 = Some inline ->
  uint 32 inline /\
  PropertyValueRecord.into_u32 (PropertyTreeRecordValue.record_of (WriterValue.property_type p.2) inline) = inline.
Proof.
  destruct p as [id v]. intros (_ & Hv & _ & Hx) Hi. cbn [fst snd] in *.
  destruct v as [x|x|x|x|x|x|x|x|b|x|x|x|x|x|x|x|x|x|x|n z|k n]; try done; cbn in Hi; injection Hi as <-;
    cbn [WriterValue.property_type PropertyTreeRecordValue.record_of PropertyValueRecord.into_u32].
  - pose proof (wrap_uint 16 x ltac:(lia)) as Hw. split; [by apply (uint_le 16)|].
    change 0xFFFF with (Z.ones 16). rewrite Z.land_ones by lia. by apply Z.mod_small.
  - split; [apply wrap_uint; lia|done].
  - done.
  - done.
  - by destruct b.
  - destruct Hx as [Hk Hn]. rewrite record_of_external by done. split; [apply Hn|done].
Qed.

(** The bytes of a record are those of the entry, which is well formed. *)
Lemma record_entry holds p value :
  property_ok p -> value_stored holds p.2 value -> (forall id b, holds id b -> ser_wf id) ->
  record_bytes p value = HeapTreeLeafEntry.write (entry_of p value) /\
  uint 16 (htl_key (entry_of p value)) /\ record_wf (htl_data (entry_of p value)).
Proof.
  intros Hp Hs Hid.
  assert (Hr : uint 32 value /\ PropertyValueRecord.into_u32
    (PropertyTreeRecordValue.record_of (WriterValue.property_type p.2) value) = value).
  { unfold value_stored in Hs. destruct (WriterValue.inline_value p.2) as [inline|] eqn:Hi.
    - subst value. by apply inline_record.
    - destruct Hs as (bytes & Hb & [[-> ->]|(Hne & id & Hh & ->)]).
      + by rewrite (record_of_zero _ _ Hb).
      + rewrite (record_of_heap_id _ _ _ Hb) by (by eapply Hid). split; [|done]. apply (Hid _ _ Hh). }
  destruct Hr as [Hu Hr]. split_and!.
  - unfold record_bytes, entry_of, HeapTreeLeafEntry.write. cbn [htl_key htl_data].
    transitivity (write_u16 p.1 ++ PropertyTreeRecordValue.write (mk_PropertyTreeRecordValue (WriterValue.property_type p.2)
      (PropertyTreeRecordValue.record_of (WriterValue.property_type p.2) value))); [|done].
    unfold PropertyTreeRecordValue.write. cbn [ptr_prop_type ptr_value]. by rewrite Hr.
  - apply Hp.
  - unfold record_wf, entry_of. cbn [htl_data ptr_prop_type ptr_value]. by rewrite Hr.
Qed.

(** ** The loop over the properties *)

Section loop.
Set Default Proof Using "All".
Context {St : Type} (place : St -> list Z -> wres (HeapId * St)).
Context (inv : St -> Prop) (holds : St -> HeapId -> list Z -> Prop).
Context (Hplace : forall s bytes id s', inv s -> bytes <> [] -> size_z bytes <= MAX_PST_PROPERTY_BYTES ->
  place s bytes = Ok (id, s') ->
  inv s' /\ holds s' id bytes /\ forall id' b, holds s id' b -> holds s' id' b).
Context (Hids : forall s id b, holds s id b -> ser_wf id).

Lemma context_records_ok sorted : forall s records s',
  inv s -> Forall property_ok sorted -> context_records place sorted s = Ok (records, s') ->
  inv s' /\ (forall id b, holds s id b -> holds s' id b) /\
  exists es, records = concat (map HeapTreeLeafEntry.write es) /\ Forall2 (stored (holds s')) sorted es /\
    Forall (fun e => uint 16 (htl_key e) /\ record_wf (htl_data e)) es.
Proof.
  induction sorted as [|p sorted IH]; intros s records s' Hs Hok H; cbn [context_records] in H.
  { injection H as <- <-. split; [done|]. split; [done|]. exists []. by split_and!. }
  apply Forall_cons in Hok as [Hp Hok].
  destruct (place_value place p s) as [[value s1]|e|] eqn:Hv; [|done..]. cbn [rbind] in H.
  destruct (context_records place sorted s1) as [[rs s2]|e|] eqn:Hr; [|done..]. cbn [rbind] in H. injection H as <- <-.
  assert (H1 : inv s1 /\ (forall id b, holds s id b -> holds s1 id b) /\ value_stored (holds s1) p.2 value).
  { unfold value_stored. unfold place_value in Hv. destruct (WriterValue.inline_value p.2) as [inline|] eqn:Hi; [injection Hv as <- <-; by split_and!|].
    destruct (out_of_line p.2) as [bytes|e|] eqn:Ho; [|done..]. apply out_of_line_ok in Ho. cbn [rbind] in Hv.
    destruct bytes as [|b bytes]; cbn [is_empty] in Hv.
    - injection Hv as <- <-. split_and!; [done..|]. exists []. split; [done|]. by left.
    - destruct (place s (b :: bytes)) as [[id s3]|e|] eqn:Hpl; [|done..]. cbn [rbind] in Hv. injection Hv as <- <-.
      destruct (Hplace s (b :: bytes) id s3 Hs ltac:(done) (proj1 (proj2 (proj2 Hp)) _ Ho) Hpl) as (? & ? & ?). split_and!; [done..|].
      exists (b :: bytes). split; [done|]. right. split; [done|]. by exists id. }
  destruct H1 as (Hi1 & Hm1 & Hv1). destruct (IH s1 rs s2 Hi1 Hok Hr) as (Hi2 & Hm2 & es & -> & Hes & Hwf).
  split; [done|]. split; [eauto|]. exists (entry_of p value :: es).
  assert (Hv2 : value_stored (holds s2) p.2 value) by (by eapply value_stored_mono).
  destruct (record_entry (holds s2) p value Hp Hv2 (Hids s2)) as (Hb & Hw).
  split_and!; [cbn [map concat]; by rewrite <- Hb| |by constructor]. constructor; [|done]. by exists value.
Qed.
End loop.

#[export] Instance PropertyTreeRecordKey_int : IntKey PropertyTreeRecordKey.
Proof. refine {| ik_width := 2; ik_int := fun k => k; ik_key := fun z => z |}; done. Defined.

(** ** The context as the reader has it *)

Definition in_heap {B} (heap : HeapNodeInner B) (id : HeapId) (bytes : list Z) : Prop :=
  HeapNodeInner.find_entry heap id = Ok bytes /\ HeapId.into_u32 id <> 0 /\ ser_wf id.

(** The tree of a heap whose user root is its first allocation. *)
Definition context_tree {B} (heap : HeapNodeInner B) : HeapTreeInner B := mk_HeapTreeInner heap (HeapId.from_u32 0x20).

Definition context_in {B} (heap : HeapNodeInner B) (properties : list Property) : Prop :=
  exists levels root es,
    HeapTreeInner.header (context_tree heap) = Ok (mk_HeapTreeHeader 2 6 levels root) /\
    HeapId.into_u32 root <> 0 /\ bth_level (context_tree heap) (Z.to_nat levels) [root] es /\
    Forall (fun e => uint 16 (htl_key e) /\ record_wf (htl_data e)) es /\
    Forall2 (stored (in_heap heap)) (sort_properties properties) es.

Lemma context_tree_header_ok levels root bytes :
  context_tree_header levels root = Ok bytes -> uint 8 levels -> ser_wf root ->
  size_z bytes = 8 /\ forall B (heap : HeapNodeInner B),
    HeapNodeInner.find_entry heap (HeapId.from_u32 0x20) = Ok bytes ->
    HeapTreeInner.header (context_tree heap) = Ok (mk_HeapTreeHeader 2 6 levels root).
Proof.
  intros H Hl Hr. assert (H2 : 2 ∈ [2; 4; 8; 16]) by (apply elem_of_cons; by left).
  unfold context_tree_header in H. rewrite HeapTreeHeader_new_ok in H by (done || lia).
  cbn [structure_ltp rmap_err rbind] in H. apply ok_inj in H. subst bytes. split; [done|]. intros B heap Hf.
  unfold HeapTreeInner.header, context_tree. cbn [ht_heap ht_user_root]. rewrite Hf. cbn [rbind].
  rewrite <- (app_nil_r (HeapTreeHeader.write _)), HeapTreeHeader_read_write by (done || lia). done.
Qed.

Lemma sorted_all (P : Property -> Prop) properties : Forall P properties -> Forall P (sort_properties properties).
Proof. intros H. eapply Permutation_Forall; [symmetry; apply (sort_by_perm (by_key _ Z.compare))|done]. Qed.

(** The parts of a context spread over pages: the placed allocations, the
    header of the tree and its records. *)
Lemma external_parts properties pages :
  Forall property_ok properties -> property_context_external properties = Ok pages ->
  exists allocated levels root es header,
    pages_inv allocated /\ uint 8 levels /\ ser_wf root /\ HeapId.into_u32 root <> 0 /\
    held_tree (located allocated) (Z.to_nat levels) [root] es /\
    Forall (fun e => uint 16 (htl_key e) /\ record_wf (htl_data e)) es /\
    Forall2 (stored (located allocated)) (sort_properties properties) es /\
    context_tree_header levels root = Ok header /\ finish_heap HN_Properties [header] allocated = Ok pages.
Proof.
  intros Hok H. unfold property_context_external in H. pose proof (sorted_all _ _ Hok) as Hsok.
  destruct (is_empty (sort_properties properties)) eqn:Hem; [done|].
  destruct (context_records _ _ _) as [[records p1]|x|] eqn:Hrec; [|done..]. cbn [rbind] in H.
  assert (Hi0 : pages_inv []) by (split; [intros k l Hk; by rewrite lookup_nil in Hk|done]).
  destruct (context_records_ok push_heap_allocation pages_inv located) with (3 := Hi0) (4 := Hsok) (5 := Hrec)
    as (Hi1 & _ & es & -> & Hes & Hwf).
  { intros s bytes id s' Hs _ _ Hp. by apply push_places. } { intros s id b Hl. by apply located_wf in Hl as []. }
  change (MAX_HEAP_ALLOCATION / PC_LEAF_RECORD_SIZE * PC_LEAF_RECORD_SIZE) with (Z.of_nat 8 * 447) in H.
  change (MAX_HEAP_ALLOCATION / PC_INTERMEDIATE_RECORD_SIZE) with 596 in H.
  destruct (bth_leaves _ _ _) as [[roots p2]|x|] eqn:Hlv in H; [|done..]. cbn [rbind] in H.
  destruct (bth_levels _ _ _ _ _ _ _) as [[[levels rs] p3]|x|] eqn:Hlev in H; [|done..]. cbn [rbind] in H.
  assert (Hne : es <> []).
  { intros ->. apply Forall2_length in Hes. by destruct (sort_properties properties). }
  assert (Hkeys : Forall (fun e : PropertyTreeRecord => ser_wf (htl_key e)) es) by (eapply Forall_impl; [exact Hwf|]; by intros ? []).
  destruct (bth_built 596 "PC BTH depth" ltac:(lia) 447 8 es p1 roots p2 levels rs p3 ltac:(lia) ltac:(lia) ltac:(done) Hi1 Hne Hkeys Hlv Hlev)
    as (Hi3 & Hm3 & Hl8 & k & root & -> & Hroot & Hnz & Ht3). cbn [rbind snd] in H.
  destruct (context_tree_header levels root) as [header|x|] eqn:Hh in H; [|done..]. cbn [rbind] in H.
  exists p3, levels, root, es, header. split_and!; try done.
  eapply Forall2_impl; [exact Hes|]. intros p e. apply stored_mono. eauto.
Qed.

(** The context spread over pages, as the reader has it. *)
Lemma external_context_in properties pages {B} (heap : HeapNodeInner B) :
  Forall property_ok properties -> property_context_external properties = Ok pages ->
  map db_data (hn_data heap) = pages -> context_in heap properties.
Proof.
  intros Hok H Hheap. destruct (external_parts _ _ Hok H) as (allocated & levels & root & es & header & Hi & Hl & Hroot & Hnz & Ht & Hwf & Hes & Hh & Hf).
  destruct (context_tree_header_ok levels root header Hh Hl Hroot) as [Hsz Hread].
  destruct (finish_heap_ok HN_Properties [header] allocated) as (pages' & Hf' & He); [|apply Hi..|].
  { unfold page_total. cbn [concat]. rewrite app_nil_r, Hsz. change (size_z [header]) with 1. vm_compute. discriminate. }
  rewrite Hf in Hf'. injection Hf' as <-. rewrite <- Hheap in He.
  assert (Hfind : forall id b, located allocated id b -> in_heap heap id b).
  { intros id b Hb. split; [by eapply located_find|]. by apply located_wf in Hb as []. }
  exists levels, root, es. split_and!.
  - apply Hread. by apply (built_find heap HN_Properties ([header] :: allocated) _ 0 0 [header]).
  - done.
  - apply held_tree_bth. eapply held_tree_mono; [|exact Ht]. intros id b Hb. by apply Hfind.
  - done.
  - eapply Forall2_impl; [exact Hes|]. intros p e. by apply stored_mono.
Qed.

(** ** The context in one page *)

(** The allocations after the first two, by the ids of page 0. *)
Definition inline_holds (allocations : list (list Z)) (id : HeapId) (bytes : list Z) : Prop :=
  exists j, (2 <= j)%nat /\ allocations !! j = Some bytes /\ HeapId.block_index id = 0 /\
    HeapId.index id = Ok (Z.of_nat j) /\ HeapId.into_u32 id <> 0 /\ ser_wf id.

(** Few enough for an index, and each of a size that a property may have. *)
Definition inline_inv (allocations : list (list Z)) : Prop :=
  2 <= size_z allocations < 2 ^ 16 /\ Forall (fun a => size_z a <= MAX_PST_PROPERTY_BYTES) allocations.

Lemma place_inline_ok allocations bytes id allocations' :
  inline_inv allocations -> size_z bytes <= MAX_PST_PROPERTY_BYTES ->
  place_inline allocations bytes = Ok (id, allocations') ->
  inline_inv allocations' /\ inline_holds allocations' id bytes /\
  forall id' b, inline_holds allocations id' b -> inline_holds allocations' id' b.
Proof.
  intros [Hn Hs] Hb H. unfold place_inline, to_u16 in H. rewrite size_snoc in H.
  destruct (uint_b 16 _) eqn:Hu; [|done]. apply uint_b_spec in Hu. cbn [rbind] in H.
  destruct (HeapId.new _ _) as [h|e|] eqn:Hid in H; [|done..]. cbn [rmap_err rbind] in H. injection H as <- <-.
  pose proof (heap_id_new_index _ _ _ Hu Hid) as Hlt.
  destruct (heap_id_new (size_z allocations + 1) 0) as (h' & Hh & Hv & Hwf & Hbl & Hix); [unfold uint; lia|done|].
  rewrite Hid in Hh. injection Hh as <-. split_and!.
  - split; [rewrite size_snoc; destruct Hu; lia|]. apply Forall_app. by split; [|constructor].
  - exists (length allocations). unfold size_z in *. split_and!; [lia|by apply list_lookup_middle|done| |lia|done].
    rewrite Hix. rewrite (proj2 (Z.ltb_ge _ _)) by lia. f_equal. lia.
  - intros id' b (j & Hj & Hl & Hrest). exists j. split_and!; try apply Hrest; [done|]. by apply lookup_app_l_Some.
Qed.

Lemma size_concat_bound (l : list (list Z)) b : Forall (fun a => size_z a <= b) l -> size_z (concat l) <= b * size_z l.
Proof.
  induction 1 as [|a l Ha _ IH]; [unfold size_z; cbn; lia|]. cbn [concat]. rewrite size_app.
  change (size_z (a :: l)) with (Z.of_nat (S (length l))). unfold size_z in *. lia.
Qed.

Lemma heap_page_built kind allocations page :
  addressable allocations -> heap_page kind allocations = Ok page -> page_built kind 0 allocations page.
Proof.
  intros Ha H. rewrite heap_page_eq in H by done. destruct (Z.leb_spec (page_total 12 allocations) MAX_DATA_BLOCK_PAYLOAD); [|done].
  injection H as <-. exists (root_header kind), [], (even_pad 12 allocations). rewrite app_nil_r. split; [|done].
  by apply (built_shaped 0 (root_header kind)); [split_and!|].
Qed.

(** The allocations of a context in one page. *)
Lemma inline_allocations properties records al :
  Forall property_ok properties -> size_z properties <= 2 ^ 16 ->
  context_records place_inline (sort_properties properties) [[]; []] = Ok (records, al) ->
  exists es header,
    inline_inv al /\ Forall (fun e => uint 16 (htl_key e) /\ record_wf (htl_data e)) es /\
    Forall2 (stored (inline_holds al)) (sort_properties properties) es /\ records = leaf_bytes es /\
    context_tree_header 0 (HeapId.from_u32 0x40) = Ok header /\
    addressable (<[0%nat := header]> (<[1%nat := leaf_bytes es]> al)).
Proof.
  intros Hok Hn Hrec. pose proof (sorted_all _ _ Hok) as Hsok.
  assert (Hi0 : inline_inv [[]; []]) by (split; [done|]; repeat constructor; vm_compute; discriminate).
  destruct (context_records_ok place_inline inline_inv inline_holds) with (3 := Hi0) (4 := Hsok) (5 := Hrec)
    as (Hi1 & _ & es & -> & Hes & Hwf).
  { intros s bytes id s' Hs _ Hb Hp. by apply place_inline_ok. } { by intros s id b (j & _ & _ & _ & _ & _ & Hw). }
  destruct (context_tree_header 0 (HeapId.from_u32 0x40)) as [header|x|] eqn:Hh; [|done..].
  destruct (context_tree_header_ok 0 (HeapId.from_u32 0x40) header Hh) as [Hsz _]; [done..|].
  exists es, header. split_and!; try done.
  assert (Hl : size_z (leaf_bytes es) <= 8 * 2 ^ 16).
  { unfold leaf_bytes. change size_z with (@len Z). rewrite (len_concat_map _ 8) by done.
    apply Forall2_length in Hes. unfold sort_properties in Hes. rewrite (Permutation_length (sort_by_perm (by_key fst Z.compare) properties)) in Hes.
    unfold size_z, len in *. lia. }
  unfold addressable. destruct Hi1 as [Hc Hb]. set (al' := <[0%nat := header]> (<[1%nat := leaf_bytes es]> al)).
  assert (Hs' : size_z al' = size_z al) by (unfold al', size_z; by rewrite !length_insert).
  pose proof (size_concat_bound al' (2 ^ 31)) as Hbound. rewrite Hs' in *.
  enough (Forall (fun a => size_z a <= 2 ^ 31) al') by (specialize (Hbound ltac:(done)); nia).
  unfold MAX_PST_PROPERTY_BYTES in Hb. unfold al'. apply Forall_insert; [apply Forall_insert|].
  - eapply Forall_impl; [exact Hb|]. intros a. cbn. lia.
  - lia.
  - lia.
Qed.

(** What becomes of the page when its records are placed. *)
Lemma property_context_page properties records al (es : list PropertyTreeRecord) header :
  context_records place_inline (sort_properties properties) [[]; []] = Ok (records, al) ->
  records = leaf_bytes es -> context_tree_header 0 (HeapId.from_u32 0x40) = Ok header ->
  property_context properties = heap_page HN_Properties (<[0%nat := header]> (<[1%nat := leaf_bytes es]> al)).
Proof.
  intros Hrec -> Hh. unfold property_context. rewrite Hrec. cbn [rbind].
  change (HeapId.new 2 0) with (Ok (E := LtpError) (HeapId.from_u32 0x40)). cbn [structure_ltp rmap_err rbind].
  by rewrite Hh.
Qed.

(** The parts of a context in one page. *)
Lemma inline_parts properties page :
  Forall property_ok properties -> size_z properties <= 2 ^ 16 -> property_context properties = Ok page ->
  exists allocations es header,
    inline_inv allocations /\ Forall (fun e => uint 16 (htl_key e) /\ record_wf (htl_data e)) es /\
    Forall2 (stored (inline_holds allocations)) (sort_properties properties) es /\
    context_tree_header 0 (HeapId.from_u32 0x40) = Ok header /\
    page_built HN_Properties 0 (<[0%nat := header]> (<[1%nat := leaf_bytes es]> allocations)) page.
Proof.
  intros Hok Hn H.
  destruct (context_records place_inline (sort_properties properties) [[]; []]) as [[records al]|x|] eqn:Hrec;
    [|unfold property_context in H; rewrite Hrec in H; done..].
  destruct (inline_allocations properties records al Hok Hn Hrec) as (es & header & Hi & Hwf & Hes & Hr & Hh & Ha).
  rewrite (property_context_page _ _ _ _ _ Hrec Hr Hh) in H. exists al, es, header. split_and!; try done.
  by apply heap_page_built.
Qed.

Lemma inline_context_in properties page {B} (heap : HeapNodeInner B) :
  Forall property_ok properties -> size_z properties <= 2 ^ 16 -> property_context properties = Ok page ->
  map db_data (hn_data heap) = [page] -> context_in heap properties.
Proof.
  intros Hok Hn H Hheap. destruct (inline_parts _ _ Hok Hn H) as (al & es & header & [Hc _] & Hwf & Hes & Hh & Hp).
  destruct (context_tree_header_ok 0 (HeapId.from_u32 0x40) header Hh) as [_ Hread]; [done..|].
  set (al' := <[0%nat := header]> (<[1%nat := leaf_bytes es]> al)) in *.
  assert (He : each_page (page_built HN_Properties) [al'] (map db_data (hn_data heap))).
  { rewrite Hheap. split; [done|]. intros [|i] a p Ha Hb; cbn in Ha, Hb; [by simplify_eq|done]. }
  assert (Hlen : (2 <= length al)%nat) by (unfold size_z in Hc; lia).
  assert (H0 : al' !! 0%nat = Some header) by (apply list_lookup_insert_eq; rewrite length_insert; lia).
  assert (H1 : al' !! 1%nat = Some (leaf_bytes es)) by (unfold al'; rewrite list_lookup_insert_ne by done; apply list_lookup_insert_eq; lia).
  assert (Hfind : forall id b, inline_holds al id b -> in_heap heap id b).
  { intros id b (j & Hj & Hl & Hb & Hi & Hnz & Hw). split; [|done].
    apply (built_find heap HN_Properties [al'] id 0 j al'); try done. unfold al'. by rewrite !list_lookup_insert_ne by lia. }
  exists 0, (HeapId.from_u32 0x40), es. split_and!.
  - apply Hread. by apply (built_find heap HN_Properties [al'] _ 0 0 al').
  - done.
  - exists [es]. split; [cbn; by rewrite app_nil_r|]. constructor; [|constructor].
    by apply (built_find heap HN_Properties [al'] _ 0 1 al').
  - done.
  - eapply Forall2_impl; [exact Hes|]. intros p e. by apply stored_mono.
Qed.

(** ** Reading the context *)

Lemma ids_bound properties :
  Forall property_ok properties -> NoDup (map fst properties) -> size_z properties <= 2 ^ 16.
Proof.
  intros Hok Hnd. assert (Hsub : map fst properties ⊆+ seqZ 0 (2 ^ 16)).
  { apply NoDup_submseteq; [done|]. intros id Hid. apply list_elem_of_In, in_map_iff in Hid as (p & <- & Hp).
    apply list_elem_of_In in Hp. apply elem_of_seqZ. pose proof (proj1 (Forall_forall _ _) Hok p Hp) as [Hu _].
    unfold uint in Hu. lia. }
  apply submseteq_length in Hsub. rewrite length_map, length_seqZ in Hsub. unfold size_z. lia.
Qed.

Lemma stored_key holds p e : stored holds p e -> htl_key e = p.1.
Proof. by intros (value & _ & ->). Qed.

(** The map of the context has the ids of the properties, and the record of
    each. *)
Lemma context_in_properties {B} (heap : HeapNodeInner B) (sub_node : option B) properties :
  context_in heap properties -> NoDup (map fst properties) ->
  exists m, PropContext.properties (mk_PropertyContextInner sub_node (context_tree heap)) = Ok m /\
    (forall id, is_Some (m !! id) <-> id ∈ map fst properties) /\
    forall p, p ∈ properties -> exists e, stored (in_heap heap) p e /\ m !! p.1 = Some (htl_data e).
Proof.
  intros (levels & root & es & Hh & Hr & Hb & Hwf & Hes) Hnd.
  pose proof (sort_by_perm (by_key fst Z.compare) properties : sort_properties properties ≡ₚ properties) as Hp.
  assert (Hkeys : map htl_key es = map fst (sort_properties properties)).
  { clear -Hes. induction Hes as [|p e ps es Hs _ IH]; [done|]. cbn [map]. by rewrite IH, (stored_key _ _ _ Hs). }
  assert (Hnde : NoDup (map htl_key es)).
  { rewrite Hkeys. eapply (fmap_Permutation fst) in Hp. by rewrite Hp. }
  exists (collect_map es). split_and!.
  - unfold PropContext.properties. cbn [pc_tree].
    by erewrite (entries_bth property_key_empty); [done|apply Nat.lt_0_succ|exact Hh|exact Hr|exact Hb|exact Hwf].
  - intros id. assert (Hel : id ∈ map fst properties <-> id ∈ map htl_key es).
    { rewrite Hkeys. eapply (fmap_Permutation fst) in Hp. by rewrite Hp. }
    rewrite Hel. split.
    + intros [v Hv]. apply collect_map_lookup in Hv; [|done]. apply list_elem_of_fmap. by eexists; split; [|exact Hv].
    + intros Hid. apply list_elem_of_fmap in Hid as ([k v] & -> & Hv). exists v. by apply collect_map_lookup.
  - intros p Hin. rewrite <- Hp in Hin. apply list_elem_of_lookup in Hin as [i Hi].
    destruct (Forall2_lookup_l _ _ _ _ _ Hes Hi) as (e & He & Hs). exists e. split; [done|].
    apply collect_map_lookup; [done|]. rewrite <- (stored_key _ _ _ Hs). destruct e as [k v].
    by apply list_elem_of_lookup_2 in He.
Qed.

(** What the reader makes of a value: one without bytes has no value. *)
Definition read_as (v : WriterValue.t) : PropertyValue.t :=
  match variable_bytes v with
  | Ok (Some []) => PropertyValue.Null
  | _ => value_of v
  end.

Definition is_external (v : WriterValue.t) : bool := match v with WriterValue.External _ _ => true | _ => false end.

(** An inline value is in its record. *)
Lemma small_value_read p inline :
  property_ok p -> WriterValue.inline_value p.2 = Some inline -> is_external p.2 = false ->
  exists x, PropertyTreeRecordValue.record_of (WriterValue.property_type p.2) inline = Small x /\
    PropertyValueRecord.small_value (Small x) (WriterValue.property_type p.2) = Some (read_as p.2).
Proof.
  destruct p as [id v]. intros (_ & Hv & _ & _) Hi He. cbn [fst snd] in *.
  destruct v as [x|x|x|x|x|x|x|x|b|x|x|x|x|x|x|x|x|x|x|n z|k n]; try done; cbn in Hi; injection Hi as <-; (eexists; split; [reflexivity|]);
    unfold read_as; cbn [WriterValue.property_type PropertyValueRecord.small_value variable_bytes value_of writer_value_ok] in *.
  - pose proof (wrap_uint 16 x ltac:(lia)) as [? ?]. change 0xFFFF with (Z.ones 16).
    rewrite !Z.land_ones by lia. rewrite Zmod_mod, Z.mod_small by lia. by rewrite signed_wrap.
  - by rewrite signed_wrap.
  - done.
  - done.
  - by destruct b.
Qed.

Section read_stored.
Context {E B I S : Type} `{!BlockId B, !ByteIndex I, !BlockBTreeEntry E B I}.
Context `{!BlockTrailerReadWrite B, !IntermediateTreeHeader (SubNodeTreeBlockHeader B)}.
Context `{!IntermediateTreeEntry B, !IntermediateTreeEntry (IntermediateSubNodeTreeEntry B)}.
Context `{!IntermediateTreeEntry (LeafSubNodeTreeEntry B), !BlockFind E S}.
Context (f : list Z) (encoding : NdbCryptMethod) (materialized_size : PropertyValue.t -> option Z) (buffer_len : nat -> nat).

Lemma read_stored (heap : HeapNodeInner B) (sub_node : option B) p e (s : traversal_state (B := B) (S := S)) :
  property_ok p -> stored (in_heap heap) p e -> is_external p.2 = false ->
  read_property (E := E) f encoding materialized_size buffer_len
    (mk_PropertyContextInner sub_node (context_tree heap)) (htl_data e) (s, None) =
  Some (Ok (read_as p.2), (s, None)).
Proof using All.
  intros Hp (value & Hv & ->) Hx. unfold value_stored in Hv. unfold entry_of. cbn [htl_data].
  destruct (WriterValue.inline_value p.2) as [inline|] eqn:Hi.
  - subst value. destruct (small_value_read p inline Hp Hi Hx) as (x & Hr & Hs).
    unfold read_property. cbn [ptr_value ptr_prop_type]. rewrite Hr, Hs. done.
  - destruct Hv as (bytes & Hb & [[-> ->]|(Hne & id & (Hf & Hnz & Hw) & ->)]); unfold read_property; cbn [ptr_value ptr_prop_type].
    + rewrite (record_of_zero _ _ Hb). unfold read_as. by rewrite Hb.
    + rewrite (record_of_heap_id _ _ _ Hb Hw), (proj2 (Z.eqb_neq _ _) Hnz). cbn [pc_tree context_tree ht_heap]. rewrite Hf.
      unfold m_lift, m_bind, charge, decode. cbn. rewrite (variable_bytes_read p.2 bytes) by (done || apply Hp). cbn.
      unfold read_as. rewrite Hb. by destruct bytes.
Qed.
End read_stored.

(** ** Large values *)

(** The property stays, its bytes being few or an object, or its bytes are in
    a data tree among the blocks [l] and its node among [entries]. *)
Definition moved (l : list BlockSpec) (entries : list LeafEntry) (p p' : Property) : Prop :=
  p'.1 = p.1 /\
  (p'.2 = p.2 /\ (forall bytes, variable_bytes p.2 = Ok (Some bytes) -> size_z bytes <= 2048 \/ is_object p.2 = true) \/
   exists bytes root id,
     variable_bytes p.2 = Ok (Some bytes) /\ 2048 < size_z bytes <= MAX_PST_PROPERTY_BYTES /\ is_object p.2 = false /\
     p'.2 = WriterValue.External (WriterValue.property_type p.2) id /\
     LeafSubNodeTreeEntry.new id root None ∈ entries /\
     tree_holds l root (chunks MAX_DATA_BLOCK_PAYLOAD bytes)).

Lemma moved_mono l l' e e' p p' : l `sublist_of` l' -> e ⊆ e' -> moved l e p p' -> moved l' e' p p'.
Proof.
  intros Hl He [Hid [H|(bytes & root & id & H1 & H2 & H3 & H4 & H5 & H6)]]; (split; [done|]); [by left|]. right.
  exists bytes, root, id. split; [done|]. split; [done|]. split; [done|]. split; [done|]. split; [by apply He|].
  by eapply tree_holds_mono.
Qed.

(** The node of the [n]-th value that is moved. *)
Definition value_node (n : Z) : NodeId := mk_NodeId (Z.lor (Z.shiftl n 5) (NodeIdType_as_u8 ListsTablesProperties)).

Lemma node_value n id :
  uint 32 n -> node ListsTablesProperties n = Ok id -> id = value_node n /\ node_ok id /\ n <= MAX_NODE_INDEX.
Proof.
  intros Hu H. unfold node in H. apply structure_ok in H. pose proof (NodeId_new_spec ListsTablesProperties n Hu) as Hs.
  destruct (Z.leb_spec n MAX_NODE_INDEX); [|congruence]. destruct Hs as (id' & Hn & Ht & _ & Hu').
  pose proof (NodeId_new_ok ListsTablesProperties n Hu ltac:(done)) as Hv. split; [unfold value_node; congruence|].
  rewrite H in Hn. injection Hn as <-. split; [|done]. split; [done|by rewrite Ht].
Qed.

(** Only values of a type that may be in a sub-node are large. *)
Lemma large_node_type v bytes :
  writer_value_ok v -> variable_bytes v = Ok (Some bytes) -> 2048 < size_z bytes -> is_object v = false ->
  node_type (WriterValue.property_type v).
Proof.
  intros Hv Hb Hs Ho. destruct v as [v|v|v|v|v|v|v|v|v|v|g|s|b|l|l|l|l|l|l|n z|k n]; cbn [WriterValue.property_type node_type is_object] in *; try done;
    cbn in Hb; apply ok_inj in Hb; injection Hb as <-; try done. destruct Hv as [Hl _]. unfold size_z in Hs. lia.
Qed.

(** What a step of the loop leaves: the entries are those of the next nodes. *)
Definition moved_entries (n n' : Z) (entries : list LeafEntry) : Prop :=
  n <= n' < 2 ^ 32 /\ (n = n' \/ n' <= MAX_NODE_INDEX + 1) /\
  map LeafSubNodeTreeEntry.node entries = map value_node (seqZ n (n' - n)).

(** One value: it stays, or it is moved under the next node. *)
Lemma externalize_value_ok p n s v n' entry s' :
  uint 32 n -> externalize_value p.2 n s = (Ok (v, n', entry), s') ->
  exists l, pushed s l s' /\ moved l (option_list entry) p (p.1, v) /\ moved_entries n n' (option_list entry) /\
    (property_ok p -> property_ok (p.1, v)).
Proof.
  intros Hn H. unfold externalize_value in H. unfold uint in Hn. destruct p as [id x]. cbn [fst snd] in *.
  assert (Hstay : forall s, (forall bytes, variable_bytes x = Ok (Some bytes) -> size_z bytes <= 2048 \/ is_object x = true) ->
    exists l, pushed s l s /\ moved l (option_list None) (id, x) (id, x) /\ moved_entries n n (option_list None) /\
      (property_ok (id, x) -> property_ok (id, x))).
  { intros s0 Hb. exists []. split_and!; [constructor|split; [done|by left]|split_and!; [lia..|by left|by rewrite Z.sub_diag]|done]. }
  destruct (variable_bytes x) as [[bytes|]|e|] eqn:Hb; [| |done..]; cbn in H.
  2: { injection H as <- <- <- <-. apply Hstay. by intros. }
  unfold validate_pst_property_len in H. destruct (Z.ltb_spec MAX_PST_PROPERTY_BYTES (size_z bytes)) as [|Hmax]; [done|]. cbn in H.
  destruct (_ || _) eqn:Hsmall in H.
  { injection H as <- <- <- <-. apply Hstay. intros b [= <-]. apply orb_true_iff in Hsmall as [Hs|Hs]; [left; by apply Z.leb_le|by right]. }
  zb. unfold w_bind at 1, w_lift at 1 in H. destruct (node ListsTablesProperties n) as [nid|e|] eqn:Hnode; [|done..].
  apply node_value in Hnode as (-> & Hnode & Hmax'); [|done]. unfold w_bind at 1, w_lift at 1, checked_add in H.
  destruct (Z.ltb_spec (n + 1) (2 ^ 32)) as [Hlt|]; [|done]. cbn [fits ok_or] in H.
  apply w_bind_ok in H as (root & s1 & Ht & H). injection H as <- <- <- <-.
  apply logs_append_data_tree_sized in Ht as (l & Hp & Htree); [|done]. exists l. cbn [option_list option_rect].
  split; [done|]. split; [|split].
  - split; [done|]. right. exists bytes, root, (value_node n). split_and!; try done. by apply list_elem_of_singleton.
  - split_and!; [lia..|right; lia|]. by replace (n + 1 - n) with 1 by lia.
  - intros (Hid & Hv & Hs & _). split; [done|]. split; [done|]. split; [done|]. split; [by eapply large_node_type|done].
Qed.

Lemma moved_entries_app n n1 n2 e1 e2 :
  moved_entries n n1 e1 -> moved_entries n1 n2 e2 -> moved_entries n n2 (e1 ++ e2).
Proof.
  intros (H1 & M1 & E1) (H2 & M2 & E2). split; [lia|]. split; [lia|]. rewrite map_app, E1, E2, <- map_app. f_equal.
  replace (n2 - n) with ((n1 - n) + (n2 - n1)) by lia. rewrite seqZ_app by lia. do 2 f_equal. lia.
Qed.

Lemma externalize_ok properties : forall n subnodes s properties' n' subnodes' s',
  uint 32 n -> externalize_large_properties properties n subnodes s = (Ok (properties', n', subnodes'), s') ->
  exists l entries, pushed s l s' /\ subnodes' = subnodes ++ entries /\ moved_entries n n' entries /\
    Forall2 (moved l entries) properties properties' /\
    (Forall property_ok properties -> Forall property_ok properties').
Proof.
  induction properties as [|p ps IH]; intros n subnodes s ps' n' subnodes' s' Hn H; cbn [externalize_large_properties] in H.
  { injection H as <- <- <- <-. exists [], []. rewrite app_nil_r. split_and!; [constructor|done| |constructor|done].
    destruct Hn. split_and!; [lia..|by left|by rewrite Z.sub_diag]. }
  apply w_bind_ok in H as ([[v n1] entry] & s1 & Hv & H).
  apply w_bind_ok in H as ([[ps1 n2] sub2] & s2 & Hps & H). injection H as <- <- <- <-.
  destruct (externalize_value_ok _ _ _ _ _ _ _ Hn Hv) as (l1 & Hp1 & Hm1 & He1 & Hok1).
  assert (Hn1 : uint 32 n1) by (destruct He1, Hn; unfold uint; lia).
  assert (Hsub : match entry with Some e => subnodes ++ [e] | None => subnodes end = subnodes ++ option_list entry)
    by (destruct entry; [done|by rewrite app_nil_r]).
  rewrite Hsub in Hps. destruct (IH _ _ _ _ _ _ _ Hn1 Hps) as (l2 & e2 & Hp2 & -> & He2 & Hm2 & Hok2).
  exists (l1 ++ l2), (option_list entry ++ e2). split_and!.
  - by eapply pushed_app.
  - by rewrite app_assoc.
  - by eapply moved_entries_app.
  - constructor.
    + eapply moved_mono; [by apply sublist_inserts_r| |exact Hm1]. intros x Hx. apply elem_of_app. by left.
    + eapply Forall2_impl; [exact Hm2|]. intros q q'. apply moved_mono; [by apply sublist_inserts_l|].
      intros x Hx. apply elem_of_app. by right.
  - intros [Hp Hq]%Forall_cons. constructor; [by apply Hok1|by apply Hok2].
Qed.

(** Nodes of different numbers are different. *)
Lemma value_node_inj a b : uint 32 a -> uint 32 b -> a <= MAX_NODE_INDEX -> b <= MAX_NODE_INDEX ->
  value_node a = value_node b -> a = b.
Proof.
  intros Ha Hb Hma Hmb H. pose proof (NodeId_new_spec ListsTablesProperties a Ha) as H1.
  pose proof (NodeId_new_spec ListsTablesProperties b Hb) as H2.
  rewrite (proj2 (Z.leb_le a _)) in H1 by done. rewrite (proj2 (Z.leb_le b _)) in H2 by done. destruct H1 as (x & Hx & _ & Hi & _). destruct H2 as (y & Hy & _ & Hj & _).
  rewrite (NodeId_new_ok _ a) in Hx by done. rewrite (NodeId_new_ok _ b) in Hy by done. fold (value_node a) in Hx. fold (value_node b) in Hy.
  injection Hx as <-. injection Hy as <-. congruence.
Qed.

(** ** Choosing between the two *)

Lemma place_inline_error allocations bytes e :
  place_inline allocations bytes = Err e -> e = ValueTooLarge "heap page".
Proof.
  unfold place_inline, to_u16. destruct (uint_b 16 _); cbn [rbind]; [|congruence].
  destruct (HeapId.new _ _); cbn [rmap_err rbind]; congruence.
Qed.

Lemma place_inline_no_panic allocations bytes : place_inline allocations bytes <> Panic.
Proof.
  unfold place_inline, to_u16, HeapId.new, NodeId.new. destruct (uint_b 16 _); [|done]. cbn [rbind]. cbv zeta.
  destruct (negb _); [done|]. repeat (destruct (negb _); [done|]). done.
Qed.

(** The values can be serialised. *)
Definition serialisable (p : Property) : Prop := exists o, variable_bytes p.2 = Ok o /\ (WriterValue.inline_value p.2 = None -> is_Some o).

Lemma context_records_error sorted : forall s,
  Forall serialisable sorted ->
  (exists r, context_records place_inline sorted s = Ok r) \/
  context_records place_inline sorted s = Err (ValueTooLarge "heap page").
Proof.
  induction sorted as [|p sorted IH]; intros s Hs; cbn [context_records]; [left; by eexists|].
  apply Forall_cons in Hs as [(o & Ho & Hi) Hs].
  assert (Hv : (exists r, place_value place_inline p s = Ok r) \/ place_value place_inline p s = Err (ValueTooLarge "heap page")).
  { unfold place_value. destruct (WriterValue.inline_value p.2); [left; by eexists|]. destruct (Hi eq_refl) as [bytes ->].
    unfold out_of_line. rewrite Ho. cbn [wio rmap_err rbind ok_or]. destruct (is_empty bytes); [left; by eexists|].
    destruct (place_inline s bytes) as [[id s1]|e|] eqn:Hp; [left; by eexists|right|].
    - by rewrite (place_inline_error _ _ _ Hp).
    - by apply place_inline_no_panic in Hp. }
  destruct Hv as [[[value s1] ->]| ->]; [|by right]. cbn [rbind].
  destruct (IH s1 Hs) as [[[rs s2] ->]| ->]; [left; by eexists|by right].
Qed.

(** The pages of what is built, and the context in any heap of them. *)
Lemma built_pages ps preferred next next' b :
  Forall property_ok ps -> NoDup (map fst ps) -> UnicodeBlockId.is_internal preferred = false ->
  build_property_context ps preferred next = (Ok b, next') ->
  exists pages, tree_holds (epb_blocks b) (epb_data_block b) pages /\
    Forall (fun page => size_z page <= MAX_DATA_BLOCK_PAYLOAD) pages /\
    forall B (heap : HeapNodeInner B), map db_data (hn_data heap) = pages -> context_in heap ps.
Proof.
  intros Hok Hids Hleaf H. pose proof (ids_bound ps Hok Hids) as Hn. unfold build_property_context in H.
  destruct (property_context ps) as [page|e|] eqn:Hc; [| |done].
  - injection H as <- <-. exists [page]. cbn [epb_blocks epb_data_block]. split_and!.
    + left. exists page. split; [done|]. split_and!; [by apply list_elem_of_singleton|done|done].
    + destruct (inline_parts ps page Hok Hn Hc) as (al & es & header & _ & _ & _ & _ & Hp).
      constructor; [by eapply built_size|constructor].
    + intros B heap. by apply inline_context_in.
  - destruct (is_heap_page_too_large e); [|done]. destruct (property_context_external ps) as [pages|e'|] eqn:Hx; [|done..].
    destruct (append_data_tree_pages pages (mk_VecState next [])) as [r s] eqn:Ha. destruct r as [root|e'|]; cbn in H; [|done..].
    injection H as <- <-. apply logs_append_data_tree_pages in Ha as (l & Hp & Ht & _ & Hsz).
    apply pushed_vec in Hp as [Hb _]. exists pages. cbn [epb_blocks epb_data_block]. rewrite Hb.
    split_and!; [done|done|]. intros B heap. by apply external_context_in.
Qed.

(** ** Properties *)

(** C3: The context that is built from properties with distinct ids, numbers
    of their width and strings without zeros, in one page or over several,
    is a data tree of pages no larger than a block; the reader that is given
    these pages as the heap of the node lists exactly the ids of the
    properties, with their types, and reads each property as the value it
    was built from, whether it is in its record or in the heap; a value
    without bytes is read as null, and one that was moved to a sub-node
    names that node. *)
Theorem build_property_context_reads_back (ps : list Property) (preferred : UnicodeBlockId) (next next' : Z)
  (b : ExternalPropertyBuild)
  (Hok : Forall property_ok ps) (Hids : NoDup (map fst ps)) (Hleaf : UnicodeBlockId.is_internal preferred = false)
  (Hbuild : build_property_context ps preferred next = (Ok b, next')) :
  exists pages, tree_holds (epb_blocks b) (epb_data_block b) pages /\
    Forall (fun page => size_z page <= MAX_DATA_BLOCK_PAYLOAD) pages /\
    forall (E B I S : Type) (c0 : BlockId B) (c1 : ByteIndex I) (c2 : BlockBTreeEntry E B I)
      (c3 : BlockTrailerReadWrite B) (c4 : IntermediateTreeHeader (SubNodeTreeBlockHeader B))
      (c5 : IntermediateTreeEntry B) (c6 : IntermediateTreeEntry (IntermediateSubNodeTreeEntry B))
      (c7 : IntermediateTreeEntry (LeafSubNodeTreeEntry B)) (c8 : BlockFind E S)
      (f : list Z) (encoding : NdbCryptMethod) (materialized_size : PropertyValue.t -> option Z) (buffer_len : nat -> nat)
      (heap : HeapNodeInner B) (sub_node : option B),
      map db_data (hn_data heap) = pages ->
      let self := mk_PropertyContextInner sub_node (context_tree heap) in
      exists m, properties self = Ok m /\ (forall id, is_Some (m !! id) <-> id ∈ map fst ps) /\
        forall id v, (id, v) ∈ ps -> exists r, m !! id = Some r /\ ptr_prop_type r = WriterValue.property_type v /\
          match v with
          | WriterValue.External _ node => ptr_value r = InNode node
          | _ => forall s : traversal_state (B := B) (S := S),
              read_property (E := E) f encoding materialized_size buffer_len self r (s, None) =
                Some (Ok (read_as v), (s, None))
          end.
Proof.
  destruct (built_pages ps preferred next next' b Hok Hids Hleaf Hbuild) as (pages & Ht & Hsz & Hin).
  exists pages. split; [done|]. split; [done|].
  intros E B I S ? ? ? ? ? ? ? ? ? f encoding ms bl heap sub_node Hheap self.
  destruct (context_in_properties heap sub_node ps (Hin B heap Hheap) Hids) as (m & Hm & Hdom & Hst).
  exists m. split; [done|]. split; [done|]. intros id v Hv. destruct (Hst _ Hv) as (e & He & Hl).
  exists (htl_data e). split; [done|]. pose proof (proj1 (Forall_forall _ _) Hok _ Hv) as Hp.
  split; [by destruct He as (value & _ & ->)|].
  assert (Hread : is_external v = false -> forall s : traversal_state (B := B) (S := S),
      read_property (E := E) f encoding ms bl self (htl_data e) (s, None) = Some (Ok (read_as v), (s, None))).
  { intros Hx s. by apply (read_stored f encoding ms bl heap sub_node (id, v) e s). }
  destruct v as [x|x|x|x|x|x|x|x|x|x|x|x|x|x|x|x|x|x|x|n z|k n]; try (by apply Hread).
  destruct He as (value & Hs & ->), Hp as (_ & _ & _ & Hk & Hn). cbn in Hs. subst value.
  cbn [entry_of htl_data ptr_value snd WriterValue.property_type]. by apply record_of_external.
Qed.

(** A tree whose root is no internal block is one block of data. *)
Lemma tree_holds_leaf l root ds :
  UnicodeBlockId.is_internal root = false -> tree_holds l root ds ->
  exists d, ds = [d] /\ leaf_holds l d (root, size_of d).
Proof.
  intros Hi [H|[(g & _ & _ & _ & _ & Hx)|(dss & xs & _ & _ & _ & _ & Hx & _)]]; [done|cbn in Hx; congruence..].
Qed.

(** A file without blocks: nothing of a context in one page is in another. *)
#[local] Instance no_blocks : BlockFind UnicodeBlockBTreeEntry.t unit := fun _ s => Some (Err InvalidData_msg, s).

(** A context of four properties, one of them without bytes. *)
Definition sample_properties : list Property :=
  [(0x0E07, WriterValue.Integer32 9); (0x0037, WriterValue.Unicode [72; 105]);
   (0x3001, WriterValue.Unicode []); (0x6635, WriterValue.Binary [1; 2; 3])].

Lemma sample_properties_ok : Forall property_ok sample_properties.
Proof.
  repeat constructor; try done; try (intros bytes H; vm_compute in H; injection H as <-; by vm_compute).
Qed.

Definition sample_build : ExternalPropertyBuild :=
  match build_property_context sample_properties (mk_UnicodeBlockId 4) 16 with
  | (Ok b, _) => b
  | _ => mk_ExternalPropertyBuild (mk_UnicodeBlockId 0) []
  end.

Lemma build_property_context_reads_back_witness :
  exists page, epb_blocks sample_build = [mk_BlockSpec (mk_UnicodeBlockId 4) (Data page) 2] /\
    let self := mk_PropertyContextInner None
      (context_tree (mk_HeapNodeInner [mk_DataBlock Crypt_None page (mk_BlockTrailer 0 0 0 (mk_UnicodeBlockId 4))])) in
    exists m r, properties self = Ok m /\ m !! 0x37 = Some r /\
      forall s : traversal_state (B := UnicodeBlockId) (S := unit),
        read_property (E := UnicodeBlockBTreeEntry.t) [] Permute (fun _ => None) (fun _ => 3%nat) self r (s, None) =
          Some (Ok (PropertyValue.Unicode [72; 105]), (s, None)).
Proof.
  destruct (build_property_context_reads_back sample_properties (mk_UnicodeBlockId 4) 16 16 sample_build
    sample_properties_ok) as (pages & Ht & _ & H).
  - apply (bool_decide_unpack _). by vm_compute.
  - reflexivity.
  - vm_compute. reflexivity.
  - assert (Hb : exists page, epb_blocks sample_build = [mk_BlockSpec (mk_UnicodeBlockId 4) (Data page) 2] /\
      epb_data_block sample_build = mk_UnicodeBlockId 4) by (eexists; split; vm_compute; reflexivity).
    destruct Hb as (page & Hb & Hid). exists page. split; [exact Hb|].
    rewrite Hb, Hid in Ht. apply tree_holds_leaf in Ht as (d & -> & Hin & _); [|reflexivity].
    apply list_elem_of_singleton in Hin. injection Hin as ->.
    destruct (H UnicodeBlockBTreeEntry.t _ _ _ _ _ _ _ _ _ _ _ _ [] Permute (fun _ => None) (fun _ => 3%nat)
      (mk_HeapNodeInner [mk_DataBlock Crypt_None page (mk_BlockTrailer 0 0 0 (mk_UnicodeBlockId 4))]) None eq_refl)
      as (m & Hm & _ & Hr).
    destruct (Hr 0x37 (WriterValue.Unicode [72; 105])) as (r & Hl & _ & Hv).
    { right. left. }
    exists m, r. split; [exact Hm|]. split; [exact Hl|]. apply Hv.
Defined.

(** A context in one page, or no page large enough. *)
Lemma property_context_choice ps :
  Forall property_ok ps -> Forall serialisable ps -> NoDup (map fst ps) ->
  (exists page, property_context ps = Ok page /\ size_z page <= MAX_DATA_BLOCK_PAYLOAD) \/
  property_context ps = Err (ValueTooLarge "heap page").
Proof.
  intros Hok Hser Hids. pose proof (ids_bound ps Hok Hids) as Hn.
  destruct (context_records_error (sort_properties ps) [[]; []] (sorted_all _ _ Hser)) as [[[records al] Hrec]|Hrec]; [|right; unfold property_context; by rewrite Hrec].
  destruct (inline_allocations ps records al Hok Hn Hrec) as (es & header & _ & _ & _ & Hr & Hh & Ha).
  rewrite (property_context_page _ _ _ _ _ Hrec Hr Hh). pose proof (heap_page_eq HN_Properties _ Ha) as He. cbv zeta in He.
  destruct (page_total _ _ <=? _); [|by right]. left. eexists. split; [exact He|].
  eapply (built_size HN_Properties 0). by apply heap_page_built.
Qed.

Lemma add_page_sizes (pages : list (list Z)) :
  size_z (concat pages) < 2 ^ 64 -> add_sizes (map (fun page => Some (size_z page)) pages) 0 = Some (size_z (concat pages)).
Proof.
  enough (H : forall n, 0 <= n -> n + size_z (concat pages) < 2 ^ 64 ->
    add_sizes (map (fun page => Some (size_z page)) pages) n = Some (n + size_z (concat pages))) by (intros; by apply H).
  induction pages as [|page pages IH]; intros n Hn Hs; cbn [map add_sizes concat] in *; [by rewrite Z.add_0_r|].
  rewrite size_app in *. pose proof (size_nonneg (concat pages)). pose proof (size_nonneg page).
  unfold checked_add. rewrite (proj2 (Z.ltb_lt _ _)) by lia. rewrite IH by lia. f_equal. lia.
Qed.

(** A context of serialisable properties with distinct ids is one block
    with the preferred id whenever its page is no larger than a block, and
    only otherwise a tree of its own; nothing but the size of the page turns
    the choice. The logical size of the context is that of the pages that are
    built. *)
Theorem build_property_context_choice (ps : list Property) (preferred : UnicodeBlockId) (next : Z)
  (Hok : Forall property_ok ps) (Hser : Forall serialisable ps) (Hids : NoDup (map fst ps))
  (Hleaf : UnicodeBlockId.is_internal preferred = false) :
  ((exists page, property_context ps = Ok page /\ size_z page <= MAX_DATA_BLOCK_PAYLOAD /\
      build_property_context ps preferred next =
        (Ok (mk_ExternalPropertyBuild preferred [mk_BlockSpec preferred (Data page) 2]), next)) \/
   property_context ps = Err (ValueTooLarge "heap page")) /\
  forall b next', build_property_context ps preferred next = (Ok b, next') ->
    exists pages, tree_holds (epb_blocks b) (epb_data_block b) pages /\
      (size_z (concat pages) < 2 ^ 64 -> property_context_logical_size ps = Ok (size_z (concat pages))).
Proof.
  pose proof (property_context_choice ps Hok Hser Hids) as Hc. split.
  { destruct Hc as [(page & Hp & Hs)|Hp]; [left|by right]. exists page. split_and!; [done..|].
    unfold build_property_context. by rewrite Hp. }
  intros b next' H. unfold build_property_context in H. unfold property_context_logical_size.
  destruct Hc as [(page & Hp & Hs)|Hp]; rewrite Hp in *.
  - injection H as <- <-. exists [page]. cbn [epb_blocks epb_data_block concat]. rewrite app_nil_r. split; [|done].
    left. exists page. split; [done|]. split_and!; [by apply list_elem_of_singleton|done|done].
  - change (is_heap_page_too_large _) with true in *. cbn [rbind].
    destruct (property_context_external ps) as [pages|e'|] eqn:Hx; [|done..].
    destruct (append_data_tree_pages pages (mk_VecState next [])) as [r s] eqn:Ha. destruct r as [root|e'|]; cbn in H; [|done..].
    injection H as <- <-. apply logs_append_data_tree_pages in Ha as (l & Hpu & Ht & _ & Hsz).
    apply pushed_vec in Hpu as [Hb _]. exists pages. cbn [epb_blocks epb_data_block]. rewrite Hb. split; [done|].
    intros Hlt. cbn [rbind]. by rewrite (add_page_sizes _ Hlt).
Qed.

Lemma build_property_context_choice_witness :
  (exists page, property_context sample_properties = Ok page) \/
  property_context sample_properties = Err (ValueTooLarge "heap page").
Proof.
  destruct (build_property_context_choice sample_properties (mk_UnicodeBlockId 4) 16 sample_properties_ok)
    as [[(page & H & _)|H] _].
  - repeat constructor; (eexists; split; [vm_compute; reflexivity|done]).
  - apply (bool_decide_unpack _). by vm_compute.
  - reflexivity.
  - left. by exists page.
  - by right.
Defined.

Lemma moved_ids n n' entries : uint 32 n -> moved_entries n n' entries ->
  NoDup (map LeafSubNodeTreeEntry.node entries) /\ n' = n + Z.of_nat (length entries).
Proof.
  intros Hn (Hle & Hmax & He). split.
  - rewrite He. apply NoDup_fmap_2_strong; [|apply NoDup_seqZ].
    intros x y Hx%elem_of_seqZ Hy%elem_of_seqZ Hxy. unfold uint in *.
    apply value_node_inj in Hxy; [done| | |lia..]; unfold uint; lia.
  - apply (f_equal length) in He. rewrite !length_map, length_seqZ in He. lia.
Qed.

(** C28: Moving the large values of a list of properties keeps its ids and its
    order. A value whose bytes are few, or an object, stays; any other is
    replaced by the name of a node that is new among the sub-nodes, whose
    data tree is among the pushed blocks and decodes, at the type of the
    property, to the value that was moved. What is left satisfies what
    [build_property_context] relies on, and none of its values is large. *)
Theorem externalize_large_properties_correct (ps ps' : list Property) (n n' : Z) (subnodes subnodes' : list LeafEntry)
  (s s' : VecState) (Hn : uint 32 n) (Hok : Forall property_ok ps)
  (Hrun : externalize_large_properties ps n subnodes s = (Ok (ps', n', subnodes'), s')) :
  exists l entries,
    vs_blocks s' = vs_blocks s ++ l /\ subnodes' = subnodes ++ entries /\
    NoDup (map LeafSubNodeTreeEntry.node entries) /\ n' = n + Z.of_nat (length entries) /\
    map fst ps' = map fst ps /\ Forall property_ok ps' /\
    Forall (fun p => forall bytes, variable_bytes p.2 = Ok (Some bytes) -> size_z bytes <= 2048 \/ is_object p.2 = true) ps' /\
    Forall2 (fun p p' => p' = p \/
      exists node root pages,
        p'.2 = WriterValue.External (WriterValue.property_type p.2) node /\
        LeafSubNodeTreeEntry.new node root None ∈ entries /\ tree_holds l root pages /\
        2048 < size_z (concat pages) /\
        PropContext.decode (WriterValue.property_type p.2) (concat pages) = Ok (value_of p.2)) ps ps'.
Proof.
  destruct (externalize_ok ps n subnodes s ps' n' subnodes' s' Hn Hrun) as (l & entries & Hp & -> & He & Hm & Hok').
  apply pushed_vec in Hp as [Hb _]. destruct (moved_ids n n' entries Hn He) as [Hnd Hlen].
  exists l, entries. split_and!; try done; [|by apply Hok'| |].
  - clear -Hm. induction Hm as [|p p' ps ps' [Hi _] _ IH]; [done|]. cbn [map]. by rewrite Hi, IH.
  - clear -Hm. induction Hm as [|p p' ps ps' [_ Hv] _ IH]; constructor; [|done].
    destruct Hv as [[-> Hs]|(bytes & root & id & _ & _ & _ & -> & _)]; [done|]. by intros b.
  - clear -Hm Hok. induction Hm as [|p p' ps ps' [Hi Hv] _ IH]; constructor; apply Forall_cons in Hok as [Hp Hok]; [|by apply IH].
    destruct Hv as [[Hv _]|(bytes & root & id & Hb & Hs & _ & Hv & Hin & Ht)]; [left; by destruct p, p'; cbn in *; subst|].
    right. exists id, root, (chunks MAX_DATA_BLOCK_PAYLOAD bytes). rewrite (proj1 (chunks_spec MAX_DATA_BLOCK_PAYLOAD bytes ltac:(done))).
    split_and!; [done..|lia|]. unfold PropContext.decode. by rewrite (variable_bytes_read p.2 bytes (proj1 (proj2 Hp)) Hb).
Qed.

Definition moved_sample : Property := (0x1000, WriterValue.Unicode (replicate (Z.to_nat 1100) 65)).
Definition moved_run :=
  match externalize_large_properties [(0x0E07, WriterValue.Integer32 9); moved_sample] 5 [] (mk_VecState 16 []) with
  | (Ok r, s) => (r, s)
  | (_, s) => ([], 0, [], s)
  end.

Lemma externalize_large_properties_correct_witness :
  exists l entries, vs_blocks moved_run.2 = l /\ moved_run.1.2 = entries /\ length entries = 1%nat /\
    exists node root pages, LeafSubNodeTreeEntry.new node root None ∈ entries /\ tree_holds l root pages /\
      PropContext.decode PT_Unicode (concat pages) = Ok (PropertyValue.Unicode (replicate (Z.to_nat 1100) 65)).
Proof.
  destruct (externalize_large_properties_correct [(0x0E07, WriterValue.Integer32 9); moved_sample] moved_run.1.1.1 5
    moved_run.1.1.2 [] moved_run.1.2 (mk_VecState 16 []) moved_run.2)
    as (l & entries & Hl & He & _ & Hn & _ & _ & _ & Hm).
  - unfold uint. lia.
  - repeat constructor; try done; try (intros bytes H; vm_compute in H; injection H as <-; by vm_compute).
  - vm_compute. reflexivity.
  - exists l, entries. cbn [vs_blocks app] in Hl, He. split; [exact Hl|]. split; [exact He|].
    assert (Hn' : moved_run.1.1.2 = 6) by (vm_compute; reflexivity).
    split; [lia|]. destruct (Forall2_lookup_l _ _ _ 1 moved_sample Hm eq_refl) as (q & Hl' & Hq).
    assert (Hx : option_map (fun p => is_external p.2) (moved_run.1.1.1 !! 1%nat) = Some true) by (vm_compute; reflexivity).
    destruct Hq as [->|(node & root & pages & _ & Hin & Ht & _ & Hd)].
    + exfalso. rewrite Hl' in Hx. discriminate Hx.
    + exists node, root, pages. split; [exact Hin|]. split; [exact Ht|]. exact Hd.
Defined.
