(* ===== verification/WriterSchema.v ===== *)
(** * Columns of the tables of the writer

    [writer.rs]: the widths of columns, the layout of a schema in
    [schema_columns], the schemas of the tables of a store and the ends of
    the parts of a row that [table_context] and [table_context_external]
    compute. Shown: the columns of a schema do not overlap in a row, have
    bits of their own in its bitmap, and are accepted by the description of
    a table (file TableContext) with the ends that are computed. *)
From S2P Require Import Prelude Errors Ids Page BTree Order Block Lookup DataTree Heap HeapTree PropValue TableContext Alloc WriterBlocks WriterTree WriterHeap.
#[local] Open Scope Z_scope.

(** The type and the id of a column. *)
Abbreviation ColumnSpec := (prod PropertyType Z).

(** ** Laying out a schema *)

Definition column_width (kind : PropertyType) : wres Z :=
  match kind with
  | PT_Boolean => Ok 1
  | PT_Integer16 => Ok 2
  | PT_Floating64 | PT_Currency | PT_FloatingTime | PT_Integer64 | PT_Time => Ok 8
  | PT_Integer32 | PT_Floating32 | PT_ErrorCode | PT_String8 | PT_Unicode | PT_Guid | PT_Binary | PT_Object
  | PT_MultipleInteger16 | PT_MultipleInteger32 | PT_MultipleFloating32 | PT_MultipleFloating64
  | PT_MultipleCurrency | PT_MultipleFloatingTime | PT_MultipleInteger64 | PT_MultipleString8
  | PT_MultipleUnicode | PT_MultipleTime | PT_MultipleGuid | PT_MultipleBinary => Ok 4
  | _ => Err (InvalidStructure "unsupported table column type")
  end.

Definition column (prop_type : PropertyType) (prop_id offset size bit : Z) : TableColumnDescriptor :=
  mk_TableColumnDescriptor prop_type prop_id offset size bit.

(** [specs.windows(2).any(|pair| pair[0].1 == pair[1].1)] *)
Fixpoint adjacent_duplicates (specs : list ColumnSpec) : bool :=
  match specs with
  | s1 :: (s2 :: _) as rest => (s1.2 =? s2.2) || adjacent_duplicates rest
  | _ => false
  end.

Definition is_reserved (id : Z) : bool := (id =? LTP_ROW_ID_PROP_ID) || (id =? LTP_ROW_VERSION_PROP_ID).

(** [matches!(kind, PropertyType::Integer16 | PropertyType::Boolean)] *)
Definition is_narrow (kind : PropertyType) : bool :=
  match kind with PT_Integer16 | PT_Boolean => true | _ => false end.

(** One of the three loops over the specs: [place] gives the offset of a
    column, which was [offset], and the next free offset. *)
Fixpoint offset_pass (place : ColumnSpec -> Z -> Z -> wres (Z * Z)) (specs : list ColumnSpec)
    (offsets : list Z) (next : Z) : wres (list Z * Z) :=
  match specs, offsets with
  | spec :: specs, offset :: offsets =>
      let? '(offset, next) := place spec offset next in
      let? '(offsets, next) := offset_pass place specs offsets next in
      Ok (offset :: offsets, next)
  | _, _ => Ok ([], next)
  end.

(** The first loop: the values of 4 and 8 bytes. *)
Definition place_wide (spec : ColumnSpec) (offset next : Z) : wres (Z * Z) :=
  let '(kind, id) := spec in
  if id =? LTP_ROW_ID_PROP_ID then Ok (0, next)
  else if id =? LTP_ROW_VERSION_PROP_ID then Ok (4, next)
  else if negb (is_narrow kind) then
    let? width := column_width kind in
    let? next' := fits (checked_add 16 next width) "table row" in
    Ok (next, next')
  else Ok (offset, next).

(** The second and the third: the values of type [kind], of [width] bytes. *)
Definition place_narrow (kind : PropertyType) (width : Z) (spec : ColumnSpec) (offset next : Z) : wres (Z * Z) :=
  if negb (is_reserved spec.2) && bool_decide (spec.1 = kind) then
    let? next' := fits (checked_add 16 next width) "table row" in
    Ok (next, next')
  else Ok (offset, next).

(** [u16::try_from(align_up(u64::from(next), n)).map_err(..)?] *)
Definition align_row (next alignment : Z) : wres Z := to_u16 (align_up next alignment) "table row".

(** The columns with their bits. *)
Fixpoint make_columns (specs : list ColumnSpec) (offsets : list Z) (next_bit : Z) :
    wres (list TableColumnDescriptor) :=
  match specs, offsets with
  | (kind, id) :: specs, offset :: offsets =>
      let? '(bit, next_bit) := (
        if id =? LTP_ROW_ID_PROP_ID then Ok (0, next_bit)
        else if id =? LTP_ROW_VERSION_PROP_ID then Ok (1, next_bit)
        else let? next := fits (checked_add 8 next_bit 1) "table column bitmap" in Ok (next_bit, next)) in
      let? width := column_width kind in
      let? columns := make_columns specs offsets next_bit in
      Ok (column kind id offset width bit :: columns)
  | _, _ => Ok []
  end.

Definition sort_specs (specs : list ColumnSpec) : list ColumnSpec := sort_by (by_key snd Z.compare) specs.

Definition schema_columns (specs : list ColumnSpec) : wres (list TableColumnDescriptor) :=
  let specs := sort_specs specs in
  if adjacent_duplicates specs then Err (InvalidStructure "table schema contains duplicate properties") else
  let? '(offsets, next) := offset_pass place_wide specs (replicate (length specs) 0) 8 in
  let? next := align_row next 4 in
  let? '(offsets, next) := offset_pass (place_narrow PT_Integer16 2) specs offsets next in
  let? next := align_row next 2 in
  let? '(offsets, _) := offset_pass (place_narrow PT_Boolean 1) specs offsets next in
  make_columns specs offsets 2.

(** ** The parts of a row *)

(** [iter.max()] *)
Definition max_opt (l : list Z) : option Z :=
  match l with [] => None | x :: l => Some (foldr Z.max x l) end.

(** [column.offset().saturating_add(size)] *)
Definition column_end (size : Z) (c : TableColumnDescriptor) : Z := Z.min (2 ^ 16 - 1) (tcd_offset c + size).

Definition filter_columns (p : PropertyType -> bool) (columns : list TableColumnDescriptor) : list TableColumnDescriptor :=
  List.filter (fun c => p (tcd_prop_type c)) columns.

(** The ends of the four parts of a row, computed by both
    [table_context] and [table_context_external]. *)
Definition row_layout (columns : list TableColumnDescriptor) : wres (Z * Z * Z * Z) :=
  let end_4byte := default 0 (max_opt (map (fun c => column_end (tcd_size c) c)
    (filter_columns (fun t => negb (is_narrow t)) columns))) in
  let? end_4byte := align_row end_4byte 4 in
  let end_2byte := Z.max (default end_4byte (max_opt (map (column_end 2)
    (filter_columns (fun t => bool_decide (t = PT_Integer16)) columns)))) end_4byte in
  let end_1byte := Z.max (default end_2byte (max_opt (map (column_end 1)
    (filter_columns (fun t => bool_decide (t = PT_Boolean)) columns)))) end_2byte in
  let? bitmap := to_u16 (div_ceil (Z.of_nat (length columns)) 8) "table bitmap" in
  let? end_bitmap := fits (checked_add 16 end_1byte bitmap) "table row" in
  Ok (end_4byte, end_2byte, end_1byte, end_bitmap).

(** ** The schemas *)

Definition row_columns : list ColumnSpec :=
  [(PT_Integer32, LTP_ROW_ID_PROP_ID); (PT_Integer32, LTP_ROW_VERSION_PROP_ID)].

Definition hierarchy_schema : list ColumnSpec :=
  [(PT_Binary, 0x0E30); (PT_Integer64, 0x0E33); (PT_Binary, 0x0E34); (PT_Integer32, 0x0E38);
   (PT_Unicode, 0x3001); (PT_Integer32, 0x3602); (PT_Integer32, 0x3603); (PT_Boolean, 0x360A);
   (PT_Unicode, 0x3613); (PT_Integer32, 0x6635); (PT_Integer32, 0x6636)] ++ row_columns.
Definition contents_schema : list ColumnSpec :=
  [(PT_Integer32, 0x0017); (PT_Unicode, 0x001A); (PT_Integer32, 0x0036); (PT_Unicode, 0x0037);
   (PT_Time, 0x0039); (PT_Unicode, 0x0042); (PT_Boolean, 0x0057); (PT_Boolean, 0x0058);
   (PT_Unicode, 0x0070); (PT_Binary, 0x0071); (PT_Unicode, 0x0E03); (PT_Unicode, 0x0E04);
   (PT_Time, 0x0E06); (PT_Integer32, 0x0E07); (PT_Integer32, 0x0E08); (PT_Integer32, 0x0E17);
   (PT_Binary, 0x0E30); (PT_Integer64, 0x0E33); (PT_Binary, 0x0E34); (PT_Integer32, 0x0E38);
   (PT_Binary, 0x0E3C); (PT_Binary, 0x0E3D); (PT_Integer32, 0x1097); (PT_Time, 0x3008);
   (PT_Binary, 0x3013); (PT_Integer32, 0x65C6)] ++ row_columns.
Definition associated_schema : list ColumnSpec :=
  [(PT_Unicode, 0x001A); (PT_Integer32, 0x0E07); (PT_Integer32, 0x0E17); (PT_Unicode, 0x3001);
   (PT_Unicode, 0x6800); (PT_Boolean, 0x6803); (PT_MultipleInteger32, 0x6805); (PT_Unicode, 0x682F);
   (PT_Integer32, 0x7003); (PT_Binary, 0x7004); (PT_Binary, 0x7005); (PT_Unicode, 0x7006);
   (PT_Integer32, 0x7007)] ++ row_columns.
Definition search_contents_schema : list ColumnSpec :=
  [(PT_Integer32, 0x0017); (PT_Unicode, 0x001A); (PT_Integer32, 0x0036); (PT_Unicode, 0x0037);
   (PT_Unicode, 0x0042); (PT_Boolean, 0x0057); (PT_Boolean, 0x0058); (PT_Unicode, 0x0E03);
   (PT_Unicode, 0x0E04); (PT_Unicode, 0x0E05); (PT_Time, 0x0E06); (PT_Integer32, 0x0E07);
   (PT_Integer32, 0x0E08); (PT_Integer32, 0x0E17); (PT_Boolean, 0x0E2A); (PT_Time, 0x3008);
   (PT_Integer32, 0x67F1)] ++ row_columns.
Definition receive_folder_schema : list ColumnSpec :=
  [(PT_Unicode, 0x001A); (PT_Integer32, 0x6605)] ++ row_columns.
Definition outgoing_queue_schema : list ColumnSpec :=
  [(PT_Time, 0x0039); (PT_Integer32, 0x0E10); (PT_Integer32, 0x0E14)] ++ row_columns.
Definition contents_index_schema : list ColumnSpec :=
  [(PT_Integer64, 0x0E33); (PT_Binary, 0x0E37); (PT_Integer32, 0x0E38)] ++ row_columns.
Definition search_index_schema : list ColumnSpec :=
  [(PT_Unicode, 0x001A); (PT_Binary, 0x0E30); (PT_Binary, 0x0E31); (PT_Integer64, 0x0E33);
   (PT_Binary, 0x0E34); (PT_Integer32, 0x0E38); (PT_Binary, 0x0E3E)] ++ row_columns.
Definition attachment_index_schema : list ColumnSpec :=
  [(PT_Integer64, 0x0E33); (PT_Time, 0x3007)] ++ row_columns.
Definition recipient_schema : list ColumnSpec :=
  [(PT_Integer32, 0x0C15); (PT_Boolean, 0x0E0F); (PT_Binary, 0x0FF9); (PT_Integer32, 0x0FFE);
   (PT_Binary, 0x0FFF); (PT_Unicode, 0x3001); (PT_Unicode, 0x3002); (PT_Unicode, 0x3003);
   (PT_Binary, 0x300B); (PT_Integer32, 0x3900); (PT_Unicode, 0x39FF); (PT_Boolean, 0x3A40)] ++ row_columns.
Definition attachment_schema : list ColumnSpec :=
  [(PT_Integer32, 0x0E20); (PT_Integer32, 0x0E21); (PT_Unicode, 0x3704); (PT_Integer32, 0x3705);
   (PT_Integer32, 0x370B)] ++ row_columns.

Definition hierarchy_columns := schema_columns hierarchy_schema.
Definition contents_columns := schema_columns contents_schema.
Definition associated_columns := schema_columns associated_schema.
Definition search_contents_columns := schema_columns search_contents_schema.
Definition receive_folder_columns := schema_columns receive_folder_schema.
Definition outgoing_queue_columns := schema_columns outgoing_queue_schema.
Definition contents_index_columns := schema_columns contents_index_schema.
Definition search_index_columns := schema_columns search_index_schema.
Definition attachment_index_columns := schema_columns attachment_index_schema.
Definition recipient_columns := schema_columns recipient_schema.
Definition attachment_columns := schema_columns attachment_schema.

(** The map of the folders of an empty store, a heap of a reserved kind. *)
Definition hierarchy_map : list Z :=
  [0x7C; 0x00; 0xEC; 0x9C; 0x20; 0x00; 0x00; 0x00; 0x00; 0x00; 0x00; 0x00; 0x40; 0x00; 0x00;
   0x00; 0xB5; 0x10; 0x04; 0x00; 0x60; 0x00; 0x00; 0x00; 0x28; 0x96; 0x04; 0xFA; 0x1C; 0x10;
   0x81; 0x4F; 0x92; 0xFA; 0x3A; 0xA3; 0xFE; 0xB4; 0xD5; 0xD8; 0x22; 0x80; 0x00; 0x00; 0x2C;
   0x21; 0x1D; 0x81; 0xC7; 0x5C; 0x17; 0x47; 0xA3; 0x21; 0x24; 0xF6; 0x7A; 0x06; 0x45; 0x38;
   0x42; 0x80; 0x00; 0x00; 0x3E; 0xEA; 0xDB; 0xBA; 0x44; 0x95; 0xC4; 0x43; 0x80; 0xCB; 0x47;
   0x20; 0xCC; 0x2E; 0xE7; 0xE2; 0x62; 0x80; 0x00; 0x00; 0x72; 0x3A; 0x41; 0x00; 0x72; 0xCB;
   0xA5; 0x47; 0xB4; 0x3D; 0x82; 0xE7; 0x7C; 0xAC; 0xBF; 0xFA; 0x24; 0x00; 0x20; 0x00; 0xCC;
   0xAE; 0x4D; 0x56; 0xC4; 0x2D; 0x24; 0x41; 0x8F; 0xDD; 0x2E; 0x99; 0xBE; 0x96; 0x8E; 0xF0;
   0x82; 0x80; 0x00; 0x00; 0x03; 0x00; 0x00; 0x00; 0x0C; 0x00; 0x10; 0x00; 0x18; 0x00; 0x7C;
   0x00].

(** ** Runs of places *)

Section placed.
Context {A : Type} (sel : A -> bool) (off width : A -> Z).
Set Default Proof Using "All".

(** The selected elements are next to each other from [n] to [e]. *)
Fixpoint placed (n : Z) (l : list A) (e : Z) : Prop :=
  match l with
  | [] => n = e
  | a :: l => if sel a then off a = n /\ 0 < width a /\ placed (n + width a) l e else placed n l e
  end.

Lemma placed_le n l e : placed n l e -> n <= e.
Proof.
  revert n. induction l as [|a l IH]; intros n H; cbn [placed] in H; [lia|].
  destruct (sel a); [destruct H as (_ & Hw & H)|]; apply IH in H; lia.
Qed.

Lemma placed_range n l e a : placed n l e -> a ∈ l -> sel a = true -> n <= off a /\ off a + width a <= e.
Proof.
  revert n. induction l as [|b l IH]; intros n H Ha Hs; [by apply elem_of_nil in Ha|]. cbn [placed] in H.
  apply elem_of_cons in Ha as [<-|Ha].
  - rewrite Hs in H. destruct H as (-> & Hw & H). apply placed_le in H. lia.
  - destruct (sel b); [destruct H as (_ & Hw & H)|]; eapply IH in H as []; try done; lia.
Qed.

Lemma placed_ordered n l e i j a b :
  placed n l e -> (i < j)%nat -> l !! i = Some a -> l !! j = Some b -> sel a = true -> sel b = true ->
  off a + width a <= off b.
Proof.
  revert n i j. induction l as [|c l IH]; intros n i j H Hij Hi Hj Ha Hb; [done|]. cbn [placed] in H.
  destruct j as [|j]; [lia|]. cbn in Hj. destruct i as [|i]; cbn in Hi.
  - injection Hi as ->. rewrite Ha in H. destruct H as (-> & Hw & H). apply list_elem_of_lookup_2 in Hj.
    destruct (placed_range _ _ _ b H Hj Hb). lia.
  - destruct (sel c); [destruct H as (_ & _ & H)|]; by apply (IH _ i j H ltac:(lia)).
Qed.

Lemma placed_mod d n l e :
  0 < d -> placed n l e -> n mod d = 0 -> (forall a, a ∈ l -> sel a = true -> width a mod d = 0) ->
  e mod d = 0 /\ forall a, a ∈ l -> sel a = true -> off a mod d = 0.
Proof.
  intros Hd. revert n. induction l as [|a l IH]; intros n H Hn Hw; cbn [placed] in H.
  { subst. split; [done|]. by intros a Ha%elem_of_nil. }
  assert (Hl : forall a, a ∈ l -> sel a = true -> width a mod d = 0) by (intros; apply Hw; [by right|done]).
  destruct (sel a) eqn:Hs.
  - destruct H as (Ho & _ & H). destruct (IH _ H) as [He Hall]; [|done|].
    { rewrite Z.add_mod, Hn, (Hw a) by (done || lia || by left). by rewrite Z.mod_0_l by lia. }
    split; [done|]. intros b [->|Hb]%elem_of_cons Hb'; [congruence|by apply Hall].
  - destruct (IH _ H Hn Hl) as [He Hall]. split; [done|]. intros b [->|Hb]%elem_of_cons Hb'; [congruence|by apply Hall].
Qed.

(** As many places as are selected, when each is one wide. *)
Lemma placed_count n l e :
  (forall a, width a = 1) -> placed n l e -> e = n + Z.of_nat (length (List.filter sel l)).
Proof.
  intros Hw. revert n. induction l as [|a l IH]; intros n H; cbn [placed List.filter] in *; [cbn; lia|].
  destruct (sel a); [destruct H as (_ & _ & H)|]; apply IH in H; rewrite ?Hw in H; cbn [length]; lia.
Qed.
End placed.

(** Places are kept by what agrees on the selected. *)
Lemma placed_Forall2 {A B} (sel : A -> bool) (sel' : B -> bool) off off' width width' n l l' e :
  Forall2 (fun a b => sel a = sel' b /\ (sel a = true -> off a = off' b /\ width a = width' b)) l l' ->
  placed sel off width n l e -> placed sel' off' width' n l' e.
Proof.
  intros H. revert n. induction H as [|a b l l' [Hs Ho] _ IH]; intros n Hp; cbn [placed] in *; [done|].
  rewrite <- Hs. destruct (sel a); [|by apply IH]. destruct (Ho eq_refl) as [<- <-]. destruct Hp as (? & ? & ?). split_and!; [done..|by apply IH].
Qed.

(** ** The loops over the specs *)

Definition width_of (kind : PropertyType) : Z := match column_width kind with Ok w => w | _ => 0 end.

Section pass.
Context (place : ColumnSpec -> Z -> Z -> wres (Z * Z)) (sel : ColumnSpec -> bool) (keep : ColumnSpec -> Z -> Z -> Prop).
Context (Hplace : forall s o n o' n', place s o n = Ok (o', n') ->
  if sel s then o' = n /\ 0 < width_of s.1 /\ n' = n + width_of s.1 /\ n' < 2 ^ 16 else n' = n /\ keep s o o').
Set Default Proof Using "All".

Lemma offset_pass_ok specs : forall os n os' e,
  length os = length specs -> n < 2 ^ 16 -> offset_pass place specs os n = Ok (os', e) ->
  length os' = length specs /\ e < 2 ^ 16 /\
  placed (fun p => sel p.1) snd (fun p => width_of p.1.1) n (zip specs os') e /\
  Forall2 (fun p p' => p.1 = p'.1 /\ (sel p.1 = false -> keep p.1 p.2 p'.2)) (zip specs os) (zip specs os').
Proof.
  induction specs as [|s specs IH]; intros os n os' e Hl Hn H; destruct os as [|o os]; try done; cbn [offset_pass] in H.
  { injection H as <- <-. split_and!; [done|done|done|constructor]. }
  destruct (place s o n) as [[o1 n1]|x|] eqn:Hp; [|done..]. cbn [rbind] in H. apply Hplace in Hp.
  destruct (offset_pass place specs os n1) as [[os1 e1]|x|] eqn:Hr; [|done..]. cbn [rbind] in H. injection H as <- <-.
  assert (Hn1 : n1 < 2 ^ 16) by (destruct (sel s); [destruct Hp as (_ & _ & _ & ?); done|destruct Hp; lia]).
  apply IH in Hr as (Hl1 & He & Hpl & Hk); [|by injection Hl|done]. cbn [zip zip_with length placed fst snd].
  split_and!; [by f_equal|done| |].
  - destruct (sel s); [destruct Hp as (-> & Hw & -> & _); by split_and!|by destruct Hp as (-> & _)].
  - constructor; [|done]. cbn [fst snd]. split; [done|]. intros Hs. rewrite Hs in Hp. by destruct Hp.
Qed.
End pass.

Definition spec_wide (s : ColumnSpec) : bool := negb (is_reserved s.2) && negb (is_narrow s.1).
Definition spec_kind (kind : PropertyType) (s : ColumnSpec) : bool := negb (is_reserved s.2) && bool_decide (s.1 = kind).

Definition reserved_offset (s : ColumnSpec) (o : Z) : Prop :=
  (s.2 = LTP_ROW_ID_PROP_ID -> o = 0) /\ (s.2 = LTP_ROW_VERSION_PROP_ID -> o = 4).

Lemma column_width_range kind w : column_width kind = Ok w -> w = if is_narrow kind then width_of kind else if column_8byte kind then 8 else 4.
Proof. destruct kind; cbn; congruence. Qed.

Lemma place_wide_ok s o n o' n' :
  place_wide s o n = Ok (o', n') ->
  if spec_wide s then o' = n /\ 0 < width_of s.1 /\ n' = n + width_of s.1 /\ n' < 2 ^ 16
  else n' = n /\ (if is_reserved s.2 then reserved_offset s o' else o' = o).
Proof.
  destruct s as [kind id]. unfold place_wide, spec_wide, is_reserved, reserved_offset. cbn [fst snd].
  destruct (Z.eqb_spec id LTP_ROW_ID_PROP_ID) as [->|H1]; cbn [orb negb andb].
  { intros [= <- <-]. split; [done|]. by split; [|intros [=]]. }
  destruct (Z.eqb_spec id LTP_ROW_VERSION_PROP_ID) as [->|H2]; cbn [orb negb andb].
  { intros [= <- <-]. split; [done|]. by split; [intros [=]|]. }
  destruct (is_narrow kind) eqn:Hn; cbn [negb]; [by intros [= <- <-]|].
  destruct (column_width kind) as [w|x|] eqn:Hw; [|done..]. cbn [rbind].
  unfold checked_add. destruct (Z.ltb_spec (n + w) (2 ^ 16)); [|done]. cbn [fits ok_or rbind]. intros [= <- <-].
  unfold width_of. rewrite Hw. apply column_width_range in Hw. rewrite Hn in Hw.
  split_and!; [done| |done|done]. destruct (column_8byte kind); lia.
Qed.

Lemma place_narrow_ok kind w s o n o' n' :
  column_width kind = Ok w -> 0 < w -> place_narrow kind w s o n = Ok (o', n') ->
  if spec_kind kind s then o' = n /\ 0 < width_of s.1 /\ n' = n + width_of s.1 /\ n' < 2 ^ 16
  else n' = n /\ o' = o.
Proof.
  intros Hw Hpos. unfold place_narrow, spec_kind. destruct (negb _ && _) eqn:E; [|by intros [= <- <-]].
  apply andb_true_iff in E as [_ E%bool_decide_eq_true]. unfold checked_add.
  destruct (Z.ltb_spec (n + w) (2 ^ 16)); [|done]. cbn [fits ok_or rbind]. intros [= <- <-].
  unfold width_of. rewrite E, Hw. by split_and!.
Qed.

Lemma align_row_aligned n a n' : 0 < a < 2 ^ 16 -> 0 <= n < 2 ^ 16 -> n mod a = 0 -> align_row n a = Ok n' -> n' = n.
Proof.
  intros Ha Hn Hm. unfold align_row, to_u16, align_up. pose proof (div_ceil_spec n a ltac:(lia)).
  pose proof (Z.div_mod n a ltac:(lia)). assert (div_ceil n a = n / a) by nia.
  replace (div_ceil n a * a) with n by lia. rewrite wrap_small by (unfold uint; lia).
  destruct (uint_b 16 n); [|done]. by intros [= <-].
Qed.

(** Where the columns of a schema are: the values of 4 and 8 bytes from 8 to
    [n1], those of 2 bytes from there to [n2], the flags from there to [n3]. *)
Definition spread (specs : list ColumnSpec) (os : list Z) (n1 n2 n3 : Z) : Prop :=
  let at_ sel := placed (fun p : ColumnSpec * Z => sel p.1) snd (fun p => width_of p.1.1) in
  at_ spec_wide 8 (zip specs os) n1 /\ at_ (spec_kind PT_Integer16) n1 (zip specs os) n2 /\
  at_ (spec_kind PT_Boolean) n2 (zip specs os) n3 /\ n1 mod 4 = 0 /\ n2 mod 2 = 0 /\ n3 < 2 ^ 16 /\
  Forall (fun p : ColumnSpec * Z => is_reserved p.1.2 = true -> reserved_offset p.1 p.2) (zip specs os).

(** A loop keeps the places that are not its own. *)
Lemma placed_kept (sel sel' : ColumnSpec -> bool) n e (ps ps' : list (ColumnSpec * Z)) :
  (forall s, sel s = true -> sel' s = false) ->
  Forall2 (fun p p' => p.1 = p'.1 /\ (sel' p.1 = false -> p'.2 = p.2)) ps ps' ->
  placed (fun p => sel p.1) snd (fun p => width_of p.1.1) n ps e ->
  placed (fun p => sel p.1) snd (fun p => width_of p.1.1) n ps' e.
Proof.
  intros Hs Hf. apply placed_Forall2. eapply Forall2_impl; [exact Hf|]. intros p p' [He Hk]. rewrite He in *. split; [done|].
  intros Hsel. split; [symmetry; by apply Hk, Hs|done].
Qed.

Lemma reserved_kept sel' (ps ps' : list (ColumnSpec * Z)) :
  (forall s : ColumnSpec, is_reserved s.2 = true -> sel' s = false) ->
  Forall2 (fun p p' => p.1 = p'.1 /\ (sel' p.1 = false -> p'.2 = p.2)) ps ps' ->
  Forall (fun p : ColumnSpec * Z => is_reserved p.1.2 = true -> reserved_offset p.1 p.2) ps ->
  Forall (fun p : ColumnSpec * Z => is_reserved p.1.2 = true -> reserved_offset p.1 p.2) ps'.
Proof.
  intros Hs Hf. induction Hf as [|p p' ps ps' [He Hk] _ IH]; intros H; [done|]. apply Forall_cons in H as [Hp H].
  constructor; [|by apply IH]. rewrite <- He. intros Hr. rewrite (Hk (Hs _ Hr)). by apply Hp.
Qed.

Lemma kind_reserved kind s : is_reserved s.2 = true -> spec_kind kind s = false.
Proof. unfold spec_kind. by intros ->. Qed.

Lemma wide_not_kind kind s : is_narrow kind = true -> spec_wide s = true -> spec_kind kind s = false.
Proof.
  unfold spec_wide, spec_kind. intros Hk. destruct (is_reserved s.2); [done|]. cbn [negb andb].
  intros Hw. apply bool_decide_eq_false. intros <-. by rewrite Hk in Hw.
Qed.

Lemma passes_spread specs os1 n1 n1' os2 n2 n2' os3 n3 :
  offset_pass place_wide specs (replicate (length specs) 0) 8 = Ok (os1, n1) -> align_row n1 4 = Ok n1' ->
  offset_pass (place_narrow PT_Integer16 2) specs os1 n1' = Ok (os2, n2) -> align_row n2 2 = Ok n2' ->
  offset_pass (place_narrow PT_Boolean 1) specs os2 n2' = Ok (os3, n3) ->
  length os3 = length specs /\ spread specs os3 n1 n2 n3.
Proof.
  intros H1 Ha1 H2 Ha2 H3.
  eapply (offset_pass_ok place_wide spec_wide) in H1 as (Hl1 & He1 & Hp1 & Hk1);
    [|intros ?????; apply place_wide_ok|apply length_replicate|done].
  destruct (placed_mod _ _ _ 4 _ _ _ ltac:(lia) Hp1 eq_refl) as [Hm1 _].
  { intros [[kind id] o] _. unfold spec_wide. cbn [fst snd]. intros [_ Hn]%andb_true_iff. apply negb_true_iff in Hn.
    unfold width_of. destruct (column_width kind) as [w|x|] eqn:Hw; [|done..]. apply column_width_range in Hw. rewrite Hn in Hw.
    by destruct (column_8byte kind); subst. }
  pose proof (placed_le _ _ _ _ _ _ Hp1). apply align_row_aligned in Ha1 as ->; [|lia|lia|done].
  eapply (offset_pass_ok _ (spec_kind PT_Integer16)) in H2 as (Hl2 & He2 & Hp2 & Hk2);
    [|intros ?????; by apply place_narrow_ok|done|done].
  destruct (placed_mod _ _ _ 2 _ _ _ ltac:(lia) Hp2) as [Hm2 _].
  { pose proof (Z.div_mod n1 4 ltac:(lia)). replace n1 with (2 * (n1 / 4) * 2) by lia. apply Z.mod_mul. lia. }
  { intros [[kind id] o] _. unfold spec_kind. cbn [fst snd]. by intros [_ ->%bool_decide_eq_true]%andb_true_iff. }
  pose proof (placed_le _ _ _ _ _ _ Hp2). apply align_row_aligned in Ha2 as ->; [|lia|lia|done].
  eapply (offset_pass_ok _ (spec_kind PT_Boolean)) in H3 as (Hl3 & He3 & Hp3 & Hk3);
    [|intros ?????; by apply place_narrow_ok|done|done].
  split; [done|]. split_and!; try done.
  - eapply placed_kept; [|exact Hk3|]; [by intros; apply wide_not_kind|]. eapply placed_kept; [|exact Hk2|exact Hp1].
    by intros; apply wide_not_kind.
  - eapply placed_kept; [|exact Hk3|exact Hp2]. intros s. unfold spec_kind. destruct (is_reserved s.2); [done|]. cbn [negb andb].
    by intros ->%bool_decide_eq_true.
  - eapply reserved_kept; [|exact Hk3|]; [apply kind_reserved|]. eapply reserved_kept; [|exact Hk2|]; [apply kind_reserved|].
    clear -Hk1. induction Hk1 as [|p p' ps ps' [He Hk] _ IH]; constructor; [|done]. rewrite <- He. intros Hr.
    assert (Hw : spec_wide p.1 = false) by (unfold spec_wide; by rewrite Hr). specialize (Hk Hw). by rewrite Hr in Hk.
Qed.

(** ** The columns of a schema *)

Definition column_reserved (c : TableColumnDescriptor) : Prop :=
  (tcd_prop_id c = LTP_ROW_ID_PROP_ID -> tcd_existence_bitmap_index c = 0) /\
  (tcd_prop_id c = LTP_ROW_VERSION_PROP_ID -> tcd_existence_bitmap_index c = 1).

Definition column_of (p : ColumnSpec * Z) (c : TableColumnDescriptor) : Prop :=
  tcd_prop_type c = p.1.1 /\ tcd_prop_id c = p.1.2 /\ tcd_offset c = p.2 /\ column_width p.1.1 = Ok (tcd_size c).

Abbreviation bits_placed := (placed (fun c => negb (is_reserved (tcd_prop_id c))) tcd_existence_bitmap_index (fun _ => 1)).

Lemma make_columns_ok specs : forall os nb cs,
  length os = length specs -> make_columns specs os nb = Ok cs ->
  Forall2 column_of (zip specs os) cs /\ (exists e, bits_placed nb cs e /\ (nb < 2 ^ 8 -> e < 2 ^ 8)) /\ Forall column_reserved cs.
Proof.
  induction specs as [|[kind id] specs IH]; intros [|o os] nb cs Hl H; try done; cbn [make_columns] in H.
  { injection H as <-. split_and!; [constructor|by exists nb|constructor]. }
  injection Hl as Hl. set (bits := if id =? LTP_ROW_ID_PROP_ID then _ else _) in H.
  destruct bits as [[bit nb']|x|] eqn:Hb; [|done..]. cbn [rbind] in H.
  destruct (column_width kind) as [w|x|] eqn:Hw; [|done..]. cbn [rbind] in H.
  destruct (make_columns specs os nb') as [cs'|x|] eqn:Hm; [|done..]. cbn [rbind] in H. injection H as <-.
  apply IH in Hm as (Hf & (e & He & Hmax) & Hr); [|done]. split_and!.
  - constructor; [|done]. by split_and!.
  - exists e. cbn [placed tcd_prop_id column tcd_existence_bitmap_index]. unfold is_reserved, bits, checked_add in *.
    destruct (Z.eqb_spec id LTP_ROW_ID_PROP_ID); cbn [orb negb]; [by injection Hb as <- <-|].
    destruct (Z.eqb_spec id LTP_ROW_VERSION_PROP_ID); cbn [orb negb]; [by injection Hb as <- <-|].
    destruct (Z.ltb_spec (nb + 1) (2 ^ 8)); [|done]. cbn in Hb. injection Hb as <- <-. split; [done|]. intros _. by apply Hmax.
  - constructor; [|done]. unfold column_reserved, bits in *. cbn [column tcd_prop_id tcd_existence_bitmap_index].
    destruct (Z.eqb_spec id LTP_ROW_ID_PROP_ID) as [->|]; [injection Hb as <- <-; by split|].
    destruct (Z.eqb_spec id LTP_ROW_VERSION_PROP_ID) as [->|]; [injection Hb as <- <-; by split|done].
Qed.

Lemma sorted_specs_nodup specs : adjacent_duplicates (sort_specs specs) = false -> NoDup (map snd (sort_specs specs)).
Proof.
  pose proof (sort_by_sorted (by_key snd Z.compare) specs : StronglySorted _ (sort_specs specs)) as Hs.
  induction Hs as [|s l Hl IH Hf]; [constructor|]. intros Ha. cbn [map]. destruct l as [|s' l]; [by constructor; [apply not_elem_of_nil|constructor]|].
  cbn [adjacent_duplicates] in Ha. apply orb_false_iff in Ha as [Hne Ha]. apply Z.eqb_neq in Hne. constructor; [|by apply IH].
  intros Hin. apply list_elem_of_fmap in Hin as (t & He & Ht). change (t ∈ s' :: l) in Ht.
  assert (Hle : forall x y : ColumnSpec, cmp_le (by_key snd Z.compare) x y -> x.2 <= y.2) by done.
  assert (s'.2 <= t.2).
  { apply elem_of_cons in Ht as [->|Ht]; [lia|]. inversion Hl as [|? ? _ Hf']; subst. by apply Hle, (proj1 (Forall_forall _ _) Hf'). }
  apply Forall_cons in Hf as [Hf _]. apply Hle in Hf. lia.
Qed.

(** ** The ends of the parts *)

Lemma foldr_max_spec x l : (foldr Z.max x l = x \/ foldr Z.max x l ∈ l) /\ x <= foldr Z.max x l /\ forall y, y ∈ l -> y <= foldr Z.max x l.
Proof.
  induction l as [|a l (Hin & Hx & Hall)]; cbn [foldr].
  { split_and!; [by left|lia|]. by intros y Hy%elem_of_nil. }
  split_and!; [|lia|].
  - destruct (Z.max_spec a (foldr Z.max x l)) as [[_ ->]|[_ ->]]; [|right; by left]. destruct Hin; [by left|right; by right].
  - intros y [->|Hy]%elem_of_cons; [lia|]. specialize (Hall y Hy). lia.
Qed.

Lemma max_opt_spec d l :
  (forall y, y ∈ l -> y <= default d (max_opt l)) /\ (default d (max_opt l) = d \/ default d (max_opt l) ∈ l).
Proof.
  destruct l as [|x l]; cbn [max_opt default from_option id].
  { split; [by intros y Hy%elem_of_nil|by left]. }
  destruct (foldr_max_spec x l) as (Hin & Hx & Hall). split.
  - intros y [->|Hy]%elem_of_cons; [done|by apply Hall].
  - right. destruct Hin as [->|Hin]; [by left|by right].
Qed.

(** The end of the selected columns, when they lie below [hi]. *)
Lemma columns_end p size (columns : list TableColumnDescriptor) d hi :
  d <= hi -> hi < 2 ^ 16 ->
  (forall c, c ∈ columns -> p (tcd_prop_type c) = true -> tcd_offset c + size c <= hi) ->
  let e := default d (max_opt (map (fun c => column_end (size c) c) (filter_columns p columns))) in
  e <= hi /\ forall c, c ∈ columns -> p (tcd_prop_type c) = true -> tcd_offset c + size c <= e.
Proof.
  intros Hd Hhi Hc e. set (l := map _ _) in e. destruct (max_opt_spec d l) as [Hall Hin]. fold e in Hall, Hin.
  assert (Hl : forall y, y ∈ l <-> exists c, y = tcd_offset c + size c /\ c ∈ columns /\ p (tcd_prop_type c) = true).
  { intros y. unfold l, filter_columns. rewrite list_elem_of_fmap. split.
    - intros (c & -> & Hc'). apply list_elem_of_In, filter_In in Hc' as [Hc' Hp]. apply list_elem_of_In in Hc'.
      exists c. split_and!; [|done|done]. specialize (Hc c Hc' Hp). unfold column_end. lia.
    - intros (c & -> & Hc' & Hp). exists c. split; [specialize (Hc c Hc' Hp); unfold column_end; lia|].
      apply list_elem_of_In, filter_In. by rewrite <- list_elem_of_In. }
  split.
  - destruct Hin as [->|Hin]; [done|]. apply Hl in Hin as (c & -> & Hc' & Hp). by apply Hc.
  - intros c Hc' Hp. apply Hall, Hl. by exists c.
Qed.

Lemma bitmap_div_ceil n : existence_bitmap_size n = div_ceil n 8.
Proof.
  unfold existence_bitmap_size, div_ceil. pose proof (Z.div_mod n 8 ltac:(lia)). pose proof (Z.mod_pos_bound n 8 ltac:(lia)).
  set (q := n / 8) in *. set (r := n mod 8) in *. replace (n + 8 - 1) with (r + 7 + q * 8) by lia. rewrite Z.div_add by lia.
  destruct (Z.eqb_spec r 0); [|assert (r + 7 = 1 * 8 + (r - 1)) as -> by lia; rewrite Z.div_add_l by lia; rewrite (Z.div_small (r - 1)) by lia; lia].
  replace (r + 7) with 7 by lia. rewrite Z.div_small by lia. lia.
Qed.

(** ** What the tables rely on *)

Definition column_lt (a b : TableColumnDescriptor) : Prop := tcd_offset a + tcd_size a <= tcd_offset b.

(** The columns of a table whose rows have parts that end at [e4], [e2],
    [e1] and [eb]. *)
Record table_columns (columns : list TableColumnDescriptor) (e4 e2 e1 eb : Z) : Prop := mk_table_columns {
  tcl_ids : NoDup (map tcd_prop_id columns);
  tcl_row_id : exists c, c ∈ columns /\ tcd_prop_id c = LTP_ROW_ID_PROP_ID /\ tcd_prop_type c = PT_Integer32 /\ tcd_offset c = 0;
  tcl_row_version : exists c, c ∈ columns /\ tcd_prop_id c = LTP_ROW_VERSION_PROP_ID /\ tcd_prop_type c = PT_Integer32 /\ tcd_offset c = 4;
  tcl_disjoint : forall i j a b, columns !! i = Some a -> columns !! j = Some b -> i <> j -> column_lt a b \/ column_lt b a;
  tcl_bits : forall i j a b, columns !! i = Some a -> columns !! j = Some b -> i <> j ->
    tcd_existence_bitmap_index a <> tcd_existence_bitmap_index b;
  tcl_bit : Forall (fun c => 0 <= tcd_existence_bitmap_index c < Z.of_nat (length columns)) columns;
  tcl_width : Forall (fun c => column_width (tcd_prop_type c) = Ok (tcd_size c)) columns;
  tcl_wide : Forall (fun c => is_narrow (tcd_prop_type c) = false -> 0 <= tcd_offset c /\ tcd_offset c mod 4 = 0 /\
    tcd_offset c + tcd_size c <= e4 /\ (8 <= tcd_offset c \/ is_reserved (tcd_prop_id c) = true)) columns;
  tcl_integer16 : Forall (fun c => tcd_prop_type c = PT_Integer16 -> e4 <= tcd_offset c /\ tcd_offset c mod 2 = 0 /\ tcd_offset c + 2 <= e2) columns;
  tcl_boolean : Forall (fun c => tcd_prop_type c = PT_Boolean -> e2 <= tcd_offset c /\ tcd_offset c + 1 <= e1) columns;
  tcl_reserved : Forall (fun c => is_reserved (tcd_prop_id c) = true -> tcd_prop_type c = PT_Integer32 /\
    (tcd_prop_id c = LTP_ROW_ID_PROP_ID -> tcd_offset c = 0 /\ tcd_existence_bitmap_index c = 0) /\
    (tcd_prop_id c = LTP_ROW_VERSION_PROP_ID -> tcd_offset c = 4 /\ tcd_existence_bitmap_index c = 1)) columns;
  tcl_count : Z.of_nat (length columns) <= 255;
  tcl_ends : 8 <= e4 /\ e4 mod 4 = 0 /\ e4 <= e2 /\ e2 mod 2 = 0 /\ e2 <= e1 /\
    eb = e1 + existence_bitmap_size (Z.of_nat (length columns)) /\ eb < 2 ^ 16
}.

(** The columns that [schema_columns] makes, before the ends are known. *)
Record schema_made (specs : list ColumnSpec) (columns : list TableColumnDescriptor) (n1 n2 n3 : Z) : Prop := mk_schema_made {
  sm_specs : map (fun c => (tcd_prop_type c, tcd_prop_id c)) columns = sort_specs specs;
  sm_ids : NoDup (map tcd_prop_id columns);
  sm_width : Forall (fun c => column_width (tcd_prop_type c) = Ok (tcd_size c)) columns;
  sm_wide : placed (fun c => spec_wide (tcd_prop_type c, tcd_prop_id c)) tcd_offset tcd_size 8 columns n1;
  sm_integer16 : placed (fun c => spec_kind PT_Integer16 (tcd_prop_type c, tcd_prop_id c)) tcd_offset tcd_size n1 columns n2;
  sm_boolean : placed (fun c => spec_kind PT_Boolean (tcd_prop_type c, tcd_prop_id c)) tcd_offset tcd_size n2 columns n3;
  sm_mod : n1 mod 4 = 0 /\ n2 mod 2 = 0 /\ n3 < 2 ^ 16;
  sm_reserved : Forall (fun c => (tcd_prop_id c = LTP_ROW_ID_PROP_ID -> tcd_offset c = 0 /\ tcd_existence_bitmap_index c = 0) /\
    (tcd_prop_id c = LTP_ROW_VERSION_PROP_ID -> tcd_offset c = 4 /\ tcd_existence_bitmap_index c = 1)) columns;
  sm_bits : exists e, bits_placed 2 columns e /\ e < 2 ^ 8
}.

Lemma columns_of_specs ps columns :
  Forall2 column_of ps columns ->
  map (fun c => (tcd_prop_type c, tcd_prop_id c)) columns = map fst ps /\
  Forall (fun c => column_width (tcd_prop_type c) = Ok (tcd_size c)) columns.
Proof.
  induction 1 as [|[[k i] o] c ps cs (Ht & Hi & _ & Hw) _ [IHm IHw]]; [done|]. cbn in *. split; [by rewrite Ht, Hi, IHm|].
  constructor; [by rewrite Ht|done].
Qed.

Lemma column_places (sel : ColumnSpec -> bool) n e ps columns :
  Forall2 column_of ps columns ->
  placed (fun p : ColumnSpec * Z => sel p.1) snd (fun p => width_of p.1.1) n ps e ->
  placed (fun c => sel (tcd_prop_type c, tcd_prop_id c)) tcd_offset tcd_size n columns e.
Proof.
  intros Hf. apply placed_Forall2. eapply Forall2_impl; [exact Hf|]. intros [[k i] o] c (Ht & Hi & Ho & Hw). cbn in *.
  rewrite Ht, Hi, Ho. split; [done|]. intros _. split; [done|]. unfold width_of. by rewrite Hw.
Qed.

Lemma fst_zip_offsets (specs : list ColumnSpec) (os : list Z) : length os = length specs -> map fst (zip specs os) = specs.
Proof. intros H. apply (fst_zip specs os). lia. Qed.

Lemma schema_columns_made specs columns :
  schema_columns specs = Ok columns -> exists n1 n2 n3, schema_made specs columns n1 n2 n3.
Proof.
  intros H. unfold schema_columns in H. destruct (adjacent_duplicates _) eqn:Ha; [done|]. apply sorted_specs_nodup in Ha.
  set (specs' := sort_specs specs) in *.
  destruct (offset_pass place_wide _ _ _) as [[os1 n1]|x|] eqn:H1; [|done..]. cbn [rbind] in H.
  destruct (align_row n1 4) as [n1'|x|] eqn:Ha1; [|done..]. cbn [rbind] in H.
  destruct (offset_pass (place_narrow PT_Integer16 2) _ _ _) as [[os2 n2]|x|] eqn:H2; [|done..]. cbn [rbind] in H.
  destruct (align_row n2 2) as [n2'|x|] eqn:Ha2; [|done..]. cbn [rbind] in H.
  destruct (offset_pass (place_narrow PT_Boolean 1) _ _ _) as [[os3 n3]|x|] eqn:H3; [|done..]. cbn [rbind] in H.
  destruct (passes_spread _ _ _ _ _ _ _ _ _ H1 Ha1 H2 Ha2 H3) as (Hl & Hp1 & Hp2 & Hp3 & Hm1 & Hm2 & Hn3 & Hr).
  apply make_columns_ok in H as (Hf & (e & He & Hmax) & Hb); [|done]. destruct (columns_of_specs _ _ Hf) as [Hm Hw].
  rewrite fst_zip_offsets in Hm by done. exists n1, n2, n3. split; try done.
  - replace (map tcd_prop_id columns) with (map snd specs'); [done|]. rewrite <- Hm, map_map. done.
  - by eapply column_places.
  - by eapply column_places.
  - by eapply column_places.
  - apply Forall_forall. intros c Hc. apply list_elem_of_lookup in Hc as [i Hi].
    destruct (Forall2_lookup_r _ _ _ _ _ Hf Hi) as (p & Hp & Ht & Hid & Ho & _).
    pose proof (Forall_lookup_1 _ _ _ _ Hr Hp) as Hro. pose proof (Forall_lookup_1 _ _ _ _ Hb Hi) as [Hb1 Hb2].
    unfold is_reserved, reserved_offset in *. rewrite <- Hid, Ho in *.
    split; intros He'; (split; [|by auto]); rewrite He' in Hro; apply Hro; done.
  - exists e. split; [done|]. by apply Hmax.
Qed.

Lemma narrow_cases kind : is_narrow kind = true -> kind = PT_Integer16 \/ kind = PT_Boolean.
Proof. destruct kind; try done; auto. Qed.

Lemma wide_width kind w : column_width kind = Ok w -> is_narrow kind = false -> w = 4 \/ w = 8.
Proof. intros Hw Hn. apply column_width_range in Hw. rewrite Hn in Hw. destruct (column_8byte kind); auto. Qed.

Lemma lookup_id_inj (columns : list TableColumnDescriptor) i j a b :
  NoDup (map tcd_prop_id columns) -> columns !! i = Some a -> columns !! j = Some b -> tcd_prop_id a = tcd_prop_id b -> i = j.
Proof.
  intros Hnd Hi Hj He. eapply NoDup_lookup; [exact Hnd| |]; rewrite list_lookup_fmap.
  - by rewrite Hi.
  - rewrite Hj. cbn. by rewrite He.
Qed.

Section schema.
Context (specs : list ColumnSpec) (columns : list TableColumnDescriptor) (n1 n2 n3 : Z).
Context (Hmade : schema_made specs columns n1 n2 n3).
Context (Hrow : (PT_Integer32, LTP_ROW_ID_PROP_ID) ∈ specs /\ (PT_Integer32, LTP_ROW_VERSION_PROP_ID) ∈ specs).
Set Default Proof Using "All".

Lemma spec_column kind id : (kind, id) ∈ specs -> exists c, c ∈ columns /\ tcd_prop_type c = kind /\ tcd_prop_id c = id.
Proof.
  intros H. pose proof (sort_by_perm (by_key snd Z.compare) specs : sort_specs specs ≡ₚ specs) as Hp.
  assert (Hs : (kind, id) ∈ sort_specs specs) by (by rewrite Hp).
  rewrite <- (sm_specs _ _ _ _ _ Hmade) in Hs. apply list_elem_of_fmap in Hs as (c & [= -> ->] & Hc). by exists c.
Qed.

Lemma column_id_inj a b : a ∈ columns -> b ∈ columns -> tcd_prop_id a = tcd_prop_id b -> a = b.
Proof.
  intros [i Hi]%list_elem_of_lookup [j Hj]%list_elem_of_lookup He.
  pose proof (lookup_id_inj _ _ _ _ _ (sm_ids _ _ _ _ _ Hmade) Hi Hj He) as ->. congruence.
Qed.

Lemma reserved_column c :
  c ∈ columns -> is_reserved (tcd_prop_id c) = true -> tcd_prop_type c = PT_Integer32 /\ tcd_size c = 4 /\
  (tcd_prop_id c = LTP_ROW_ID_PROP_ID /\ tcd_offset c = 0 /\ tcd_existence_bitmap_index c = 0 \/
   tcd_prop_id c = LTP_ROW_VERSION_PROP_ID /\ tcd_offset c = 4 /\ tcd_existence_bitmap_index c = 1).
Proof.
  intros Hc Hr. pose proof (proj1 (Forall_forall _ _) (sm_reserved _ _ _ _ _ Hmade) c Hc) as [H0 H4].
  pose proof (proj1 (Forall_forall _ _) (sm_width _ _ _ _ _ Hmade) c Hc) as Hw; cbn beta in Hw.
  assert (Ht : tcd_prop_type c = PT_Integer32).
  { destruct Hrow as [Hid Hver]. unfold is_reserved in Hr.
    apply orb_true_iff in Hr as [Hr%Z.eqb_eq|Hr%Z.eqb_eq];
      [destruct (spec_column _ _ Hid) as (d & Hd & Ht & Hi)|destruct (spec_column _ _ Hver) as (d & Hd & Ht & Hi)];
      by rewrite (column_id_inj c d Hc Hd) by congruence. }
  split; [done|]. rewrite Ht in Hw. split; [by injection Hw|]. unfold is_reserved in Hr.
  apply orb_true_iff in Hr as [Hr%Z.eqb_eq|Hr%Z.eqb_eq]; [left|right]; auto.
Qed.

(** Where a column is. *)
Lemma column_region c :
  c ∈ columns ->
  (is_reserved (tcd_prop_id c) = true /\ (tcd_offset c = 0 \/ tcd_offset c = 4) /\ tcd_size c = 4) \/
  is_reserved (tcd_prop_id c) = false /\
  ((is_narrow (tcd_prop_type c) = false /\ spec_wide (tcd_prop_type c, tcd_prop_id c) = true /\ 8 <= tcd_offset c /\ tcd_offset c + tcd_size c <= n1) \/
   (tcd_prop_type c = PT_Integer16 /\ tcd_size c = 2 /\ spec_kind PT_Integer16 (tcd_prop_type c, tcd_prop_id c) = true /\ n1 <= tcd_offset c /\ tcd_offset c + 2 <= n2) \/
   (tcd_prop_type c = PT_Boolean /\ tcd_size c = 1 /\ spec_kind PT_Boolean (tcd_prop_type c, tcd_prop_id c) = true /\ n2 <= tcd_offset c /\ tcd_offset c + 1 <= n3)).
Proof.
  intros Hc. destruct (is_reserved (tcd_prop_id c)) eqn:Hr.
  { left. split; [done|]. destruct (reserved_column c Hc Hr) as (_ & ? & Ho). split; [|done]. destruct Ho as [(_ & ? & _)|(_ & ? & _)]; auto. }
  right. split; [done|]. pose proof (proj1 (Forall_forall _ _) (sm_width _ _ _ _ _ Hmade) c Hc) as Hw; cbn beta in Hw.
  destruct (is_narrow (tcd_prop_type c)) eqn:Hn.
  - right. destruct (narrow_cases _ Hn) as [Ht|Ht]; [left|right]; rewrite Ht in Hw; injection Hw as Hw; (split; [done|]); (split; [done|]).
    + assert (Hs : spec_kind PT_Integer16 (tcd_prop_type c, tcd_prop_id c) = true) by (unfold spec_kind; cbn; by rewrite Hr, Ht).
      split; [done|]. destruct (placed_range _ _ _ _ _ _ c (sm_integer16 _ _ _ _ _ Hmade) Hc Hs). lia.
    + assert (Hs : spec_kind PT_Boolean (tcd_prop_type c, tcd_prop_id c) = true) by (unfold spec_kind; cbn; by rewrite Hr, Ht).
      split; [done|]. destruct (placed_range _ _ _ _ _ _ c (sm_boolean _ _ _ _ _ Hmade) Hc Hs). lia.
  - left. assert (Hs : spec_wide (tcd_prop_type c, tcd_prop_id c) = true) by (unfold spec_wide; cbn; by rewrite Hr, Hn).
    split; [done|]. split; [done|]. by destruct (placed_range _ _ _ _ _ _ c (sm_wide _ _ _ _ _ Hmade) Hc Hs).
Qed.

Lemma region_order : 8 <= n1 /\ n1 <= n2 /\ n2 <= n3.
Proof.
  pose proof (placed_le _ _ _ _ _ _ (sm_wide _ _ _ _ _ Hmade)). pose proof (placed_le _ _ _ _ _ _ (sm_integer16 _ _ _ _ _ Hmade)).
  pose proof (placed_le _ _ _ _ _ _ (sm_boolean _ _ _ _ _ Hmade)). lia.
Qed.

Lemma columns_disjoint_lt i j a b :
  columns !! i = Some a -> columns !! j = Some b -> (i < j)%nat -> column_lt a b \/ column_lt b a.
Proof.
  intros Hi Hj Hij. pose proof (list_elem_of_lookup_2 _ _ _ Hi) as Ha. pose proof (list_elem_of_lookup_2 _ _ _ Hj) as Hb.
  pose proof region_order. unfold column_lt.
  destruct (is_reserved (tcd_prop_id a) && is_reserved (tcd_prop_id b)) eqn:Hres.
  { apply andb_true_iff in Hres as [Hra Hrb].
    destruct (reserved_column a Ha Hra) as (_ & Hsa & Hoa). destruct (reserved_column b Hb Hrb) as (_ & Hsb & Hob).
    assert (tcd_prop_id a <> tcd_prop_id b).
    { intros He. pose proof (lookup_id_inj _ _ _ _ _ (sm_ids _ _ _ _ _ Hmade) Hi Hj He). lia. }
    destruct Hoa as [(? & ? & _)|(? & ? & _)], Hob as [(? & ? & _)|(? & ? & _)]; try lia; exfalso; congruence. }
  destruct (column_region a Ha) as [(Hra & Hoa & Hsa)|(Hra & [(_ & Hka & Ha1 & Ha2)|[(_ & Hsa & Hka & Ha1 & Ha2)|(_ & Hsa & Hka & Ha1 & Ha2)]])],
           (column_region b Hb) as [(Hrb & Hob & Hsb)|(Hrb & [(_ & Hkb & Hb1 & Hb2)|[(_ & Hsb & Hkb & Hb1 & Hb2)|(_ & Hsb & Hkb & Hb1 & Hb2)]])];
    try (rewrite Hra, Hrb in Hres; done); try lia; left.
  - exact (placed_ordered _ _ _ _ _ _ _ _ _ _ (sm_wide _ _ _ _ _ Hmade) Hij Hi Hj Hka Hkb).
  - exact (placed_ordered _ _ _ _ _ _ _ _ _ _ (sm_integer16 _ _ _ _ _ Hmade) Hij Hi Hj Hka Hkb).
  - exact (placed_ordered _ _ _ _ _ _ _ _ _ _ (sm_boolean _ _ _ _ _ Hmade) Hij Hi Hj Hka Hkb).
Qed.

Lemma columns_bits_lt i j a b :
  columns !! i = Some a -> columns !! j = Some b -> (i < j)%nat -> tcd_existence_bitmap_index a <> tcd_existence_bitmap_index b.
Proof.
  intros Hi Hj Hij. pose proof (list_elem_of_lookup_2 _ _ _ Hi) as Ha. pose proof (list_elem_of_lookup_2 _ _ _ Hj) as Hb.
  destruct (sm_bits _ _ _ _ _ Hmade) as (e & He & _).
  assert (tcd_prop_id a <> tcd_prop_id b).
  { intros Hid. pose proof (lookup_id_inj _ _ _ _ _ (sm_ids _ _ _ _ _ Hmade) Hi Hj Hid). lia. }
  assert (Hbit : forall c, c ∈ columns -> is_reserved (tcd_prop_id c) = false -> 2 <= tcd_existence_bitmap_index c).
  { intros c Hc Hr. apply (placed_range _ _ _ _ _ _ c He Hc). by rewrite Hr. }
  destruct (is_reserved (tcd_prop_id a)) eqn:Hra, (is_reserved (tcd_prop_id b)) eqn:Hrb.
  - destruct (reserved_column a Ha Hra) as (_ & _ & [(? & _ & ?)|(? & _ & ?)]), (reserved_column b Hb Hrb) as (_ & _ & [(? & _ & ?)|(? & _ & ?)]);
      congruence || lia.
  - destruct (reserved_column a Ha Hra) as (_ & _ & [(? & _ & ?)|(? & _ & ?)]); specialize (Hbit b Hb Hrb); lia.
  - destruct (reserved_column b Hb Hrb) as (_ & _ & [(? & _ & ?)|(? & _ & ?)]); specialize (Hbit a Ha Hra); lia.
  - pose proof (placed_ordered _ _ _ _ _ _ _ _ _ _ He Hij Hi Hj) as Ho. cbn in Ho. rewrite Hra, Hrb in Ho. specialize (Ho eq_refl eq_refl). lia.
Qed.

(** Two of the columns are reserved. *)
Lemma columns_count : exists e, bits_placed 2 columns e /\ e = Z.of_nat (length columns) /\ Z.of_nat (length columns) <= 255.
Proof.
  destruct (sm_bits _ _ _ _ _ Hmade) as (e & He & Hmax). exists e. split; [done|].
  pose proof (placed_count _ _ _ 2 _ e (fun _ => eq_refl) He) as Hn.
  pose proof (List.filter_length (fun c => is_reserved (tcd_prop_id c)) columns) as Hsum.
  set (res := List.filter (fun c => is_reserved (tcd_prop_id c)) columns) in *.
  enough (length res = 2%nat) by lia.
  assert (Hin : forall c, c ∈ res <-> c ∈ columns /\ is_reserved (tcd_prop_id c) = true) by (intros c; unfold res; by rewrite !list_elem_of_In, filter_In).
  destruct Hrow as [Hid Hver]. destruct (spec_column _ _ Hid) as (c & Hc & _ & Hci). destruct (spec_column _ _ Hver) as (d & Hd & _ & Hdi).
  assert (c <> d) by (intros ->; rewrite Hci in Hdi; discriminate).
  assert (res ≡ₚ [c; d]) as Hp; [|by rewrite Hp].
  apply NoDup_Permutation.
  - apply NoDup_ListNoDup, List.NoDup_filter, NoDup_ListNoDup. by apply (NoDup_fmap_1 tcd_prop_id), (sm_ids _ _ _ _ _ Hmade).
  - apply NoDup_cons. split; [by rewrite list_elem_of_singleton|apply NoDup_singleton].
  - intros x. rewrite Hin, elem_of_cons, list_elem_of_singleton. unfold is_reserved. split.
    + intros [Hx Hr]. apply orb_true_iff in Hr as [Hr%Z.eqb_eq|Hr%Z.eqb_eq]; [left|right]; apply column_id_inj; congruence || done.
    + intros [->| ->]; (split; [done|]); [by rewrite Hci|by rewrite Hdi].
Qed.

Lemma columns_width_pos c : c ∈ columns -> 0 < tcd_size c.
Proof.
  intros Hc. pose proof (proj1 (Forall_forall _ _) (sm_width _ _ _ _ _ Hmade) c Hc) as Hw; cbn beta in Hw.
  destruct (is_narrow (tcd_prop_type c)) eqn:Hn; [|destruct (wide_width _ _ Hw Hn); lia].
  destruct (narrow_cases _ Hn) as [Ht|Ht]; rewrite Ht in Hw; injection Hw; lia.
Qed.

(** The first part of a row: a multiple of 4 that is past its columns. *)
Lemma wide_end e4 :
  align_row (default 0 (max_opt (map (fun c => column_end (tcd_size c) c)
    (filter_columns (fun t => negb (is_narrow t)) columns)))) 4 = Ok e4 ->
  8 <= e4 <= n1 /\ e4 mod 4 = 0 /\ forall c, c ∈ columns -> is_narrow (tcd_prop_type c) = false -> tcd_offset c + tcd_size c <= e4.
Proof.
  intros H. pose proof region_order as Hord. destruct (sm_mod _ _ _ _ _ Hmade) as (Hm1 & _ & Hn3).
  destruct (columns_end (fun t => negb (is_narrow t)) tcd_size columns 0 n1) as [Hle Hall]; [lia|lia| |].
  { intros c Hc Hn%negb_true_iff. destruct (column_region c Hc) as [(_ & Ho & Hs)|(_ & [(_ & _ & _ & He)|[(Ht & _)|(Ht & _)]])];
      [lia|done|by rewrite Ht in Hn..]. }
  set (e := default 0 _) in *. clearbody e. unfold align_row, to_u16, align_up in H. cbn zeta in *.
  pose proof (div_ceil_spec e 4 ltac:(lia)). pose proof (div_ceil_least e 4 (n1 / 4) ltac:(lia)) as Hl.
  pose proof (Z.div_mod n1 4 ltac:(lia)). specialize (Hl ltac:(lia)). set (q := div_ceil e 4) in *. clearbody q.
  destruct Hrow as [_ Hver]. destruct (spec_column _ _ Hver) as (c & Hc & Ht & Hid).
  assert (Hr : is_reserved (tcd_prop_id c) = true) by (by rewrite Hid).
  assert (Hn : negb (is_narrow (tcd_prop_type c)) = true) by (by rewrite Ht).
  destruct (reserved_column c Hc Hr) as (_ & Hs & [(Hbad & _)|(_ & Ho & _)]); [rewrite Hid in Hbad; discriminate|].
  pose proof (Hall c Hc Hn) as H8. cbn beta in H8. rewrite Ho, Hs in H8.
  rewrite wrap_small in H by (unfold uint; lia). destruct (uint_b 16 (q * 4)); [|done]. injection H as <-.
  split_and!; [lia|lia|apply Z.mod_mul; lia|]. intros d Hd Hnd. specialize (Hall d Hd). rewrite Hnd in Hall. specialize (Hall eq_refl). lia.
Qed.

(** The end of the columns of a narrow kind. *)
Lemma narrow_end kind size d hi :
  is_narrow kind = true -> d <= hi -> hi < 2 ^ 16 ->
  (forall c, c ∈ columns -> tcd_prop_type c = kind -> tcd_offset c + size <= hi) ->
  let e := Z.max (default d (max_opt (map (column_end size) (filter_columns (fun t => bool_decide (t = kind)) columns)))) d in
  d <= e <= hi /\ forall c, c ∈ columns -> tcd_prop_type c = kind -> tcd_offset c + size <= e.
Proof.
  intros Hk Hd Hhi Hc e. destruct (columns_end (fun t => bool_decide (t = kind)) (fun _ => size) columns d hi Hd Hhi) as [Hle Hall].
  { intros c Hcc Ht%bool_decide_eq_true. by apply Hc. }
  cbv zeta beta in Hle, Hall. change (fun c => column_end size c) with (column_end size) in Hle, Hall. unfold e. clear e.
  split; [lia|]. intros c Hcc Ht. specialize (Hall c Hcc). rewrite (bool_decide_eq_true_2 _ Ht) in Hall.
  specialize (Hall eq_refl). lia.
Qed.

Lemma wide_mod c : c ∈ columns -> is_narrow (tcd_prop_type c) = false -> tcd_offset c mod 4 = 0.
Proof.
  intros Hc Hn. destruct (column_region c Hc) as [(_ & Ho & _)|(Hr & [(_ & Hk & _)|[(Ht & _)|(Ht & _)]])]; [|clear Hn|by rewrite Ht in Hn..].
  { by destruct Ho as [-> | ->]. }
  apply (placed_mod _ _ _ 4 _ _ _ ltac:(lia) (sm_wide _ _ _ _ _ Hmade) eq_refl); [|done|done].
  intros a Ha Hs. pose proof (proj1 (Forall_forall _ _) (sm_width _ _ _ _ _ Hmade) a Ha) as Hw; cbn beta in Hw.
  unfold spec_wide in Hs. apply andb_true_iff in Hs as [_ Hs%negb_true_iff]. by destruct (wide_width _ _ Hw Hs) as [-> | ->].
Qed.

Lemma integer16_mod c : c ∈ columns -> tcd_prop_type c = PT_Integer16 -> tcd_offset c mod 2 = 0.
Proof.
  intros Hc Ht. destruct (column_region c Hc) as [(Hr & _)|(Hr & [(Hn & _)|[(_ & _ & Hk & _)|(Ht' & _)]])]; [|by rewrite Ht in Hn| |by rewrite Ht in Ht'].
  { destruct (reserved_column c Hc Hr) as (Ht' & _). by rewrite Ht in Ht'. }
  apply (placed_mod _ _ _ 2 _ _ _ ltac:(lia) (sm_integer16 _ _ _ _ _ Hmade)); [| |done|done].
  - destruct (sm_mod _ _ _ _ _ Hmade) as (Hm1 & _). pose proof (Z.div_mod n1 4 ltac:(lia)).
    replace n1 with (2 * (n1 / 4) * 2) by lia. apply Z.mod_mul. lia.
  - intros a Ha Hs. pose proof (proj1 (Forall_forall _ _) (sm_width _ _ _ _ _ Hmade) a Ha) as Hw; cbn beta in Hw.
    unfold spec_kind in Hs. apply andb_true_iff in Hs as [_ Hs%bool_decide_eq_true]. cbn in Hs. rewrite Hs in Hw. by injection Hw as <-.
Qed.

Lemma integer16_region c : c ∈ columns -> tcd_prop_type c = PT_Integer16 -> n1 <= tcd_offset c /\ tcd_offset c + 2 <= n2.
Proof.
  intros Hc Ht. destruct (column_region c Hc) as [(Hr & _)|(_ & [(Hn & _)|[(_ & _ & _ & H)|(Ht' & _)]])]; [|by rewrite Ht in Hn|done|by rewrite Ht in Ht'].
  destruct (reserved_column c Hc Hr) as (Ht' & _). by rewrite Ht in Ht'.
Qed.

Lemma boolean_region c : c ∈ columns -> tcd_prop_type c = PT_Boolean -> n2 <= tcd_offset c /\ tcd_offset c + 1 <= n3.
Proof.
  intros Hc Ht. destruct (column_region c Hc) as [(Hr & _)|(_ & [(Hn & _)|[(Ht' & _)|(_ & _ & _ & H)]])]; [|by rewrite Ht in Hn|by rewrite Ht in Ht'|done].
  destruct (reserved_column c Hc Hr) as (Ht' & _). by rewrite Ht in Ht'.
Qed.

Lemma wide_region c :
  c ∈ columns -> is_narrow (tcd_prop_type c) = false -> 0 <= tcd_offset c /\ (8 <= tcd_offset c \/ is_reserved (tcd_prop_id c) = true).
Proof.
  intros Hc Hn. destruct (column_region c Hc) as [(Hr & Ho & _)|(_ & [(_ & _ & Ho & _)|[(Ht & _)|(Ht & _)]])]; [|lia|by rewrite Ht in Hn..].
  split; [lia|by right].
Qed.

(** The end of the second part is even. *)
Lemma integer16_end_even e4 :
  e4 mod 4 = 0 -> n2 < 2 ^ 16 ->
  Z.max (default e4 (max_opt (map (column_end 2) (filter_columns (fun t => bool_decide (t = PT_Integer16)) columns)))) e4 mod 2 = 0.
Proof.
  intros H4 H2. set (l := map _ _). destruct (max_opt_spec e4 l) as [_ Hin].
  assert (He4 : e4 mod 2 = 0) by (pose proof (Z.div_mod e4 4 ltac:(lia)); replace e4 with (2 * (e4 / 4) * 2) by lia; apply Z.mod_mul; lia).
  destruct (Z.max_spec (default e4 (max_opt l)) e4) as [[_ ->]|[_ ->]]; [done|]. destruct Hin as [->|Hin]; [done|].
  apply list_elem_of_fmap in Hin as (c & -> & Hc). apply list_elem_of_In, filter_In in Hc as [Hc Ht%bool_decide_eq_true].
  apply list_elem_of_In in Hc. pose proof (integer16_region c Hc Ht). pose proof (integer16_mod c Hc Ht) as Hm.
  unfold column_end. rewrite Z.min_r by lia. rewrite Z.add_mod, Hm by lia. done.
Qed.

(** The parts that are computed hold their columns. *)
Lemma layout_parts e4 e2 e1 eb :
  row_layout columns = Ok (e4, e2, e1, eb) ->
  8 <= e4 <= n1 /\ e4 mod 4 = 0 /\ e4 <= e2 <= n2 /\ e2 mod 2 = 0 /\ e2 <= e1 <= n3 /\
  eb = e1 + existence_bitmap_size (Z.of_nat (length columns)) /\ eb < 2 ^ 16 /\
  (forall c, c ∈ columns -> is_narrow (tcd_prop_type c) = false -> tcd_offset c + tcd_size c <= e4) /\
  (forall c, c ∈ columns -> tcd_prop_type c = PT_Integer16 -> tcd_offset c + 2 <= e2) /\
  (forall c, c ∈ columns -> tcd_prop_type c = PT_Boolean -> tcd_offset c + 1 <= e1).
Proof.
  intros H. unfold row_layout in H. cbv zeta in H. pose proof region_order as Hord. destruct (sm_mod _ _ _ _ _ Hmade) as (_ & _ & Hn3).
  destruct (align_row _ 4) as [e4'|x|] eqn:H4 in H; [|done..]. cbn [rbind] in H. apply wide_end in H4 as (H4 & H4m & H4c).
  destruct (narrow_end PT_Integer16 2 e4' n2) as [H2 H2c]; [done|lia|lia|intros c Hc Ht; by apply integer16_region|].
  pose proof (integer16_end_even e4' H4m ltac:(lia)) as H2m. set (e2' := Z.max (default e4' _) e4') in *. clearbody e2'.
  destruct (narrow_end PT_Boolean 1 e2' n3) as [H1 H1c]; [done|lia|lia|intros c Hc Ht; by apply boolean_region|].
  set (e1' := Z.max (default e2' _) e2') in *. clearbody e1'. rewrite <- bitmap_div_ceil in H.
  unfold to_u16 in H. destruct (uint_b 16 _) in H; [|done]. cbn [rbind] in H. unfold checked_add in H.
  destruct (Z.ltb_spec (e1' + existence_bitmap_size (Z.of_nat (length columns))) (2 ^ 16)); [|done]. cbn [fits ok_or rbind] in H.
  injection H as <- <- <- <-. split_and!; (done || lia).
Qed.

Lemma unordered (P : TableColumnDescriptor -> TableColumnDescriptor -> Prop) :
  (forall a b, P a b -> P b a) -> (forall i j a b, columns !! i = Some a -> columns !! j = Some b -> (i < j)%nat -> P a b) ->
  forall i j a b, columns !! i = Some a -> columns !! j = Some b -> i <> j -> P a b.
Proof.
  intros Hsym HP i j a b Hi Hj Hne. destruct (Nat.lt_trichotomy i j) as [Hlt|[?|Hlt]]; [by apply (HP i j)|done|by apply Hsym, (HP j i)].
Qed.

Lemma column_bit_range : Forall (fun c => 0 <= tcd_existence_bitmap_index c < Z.of_nat (length columns)) columns.
Proof.
  destruct columns_count as (e & He & Hcount & _). pose proof (placed_count _ _ _ 2 _ e (fun _ => eq_refl) He).
  apply Forall_forall. intros c Hc. rewrite <- Hcount. destruct (is_reserved (tcd_prop_id c)) eqn:Hr.
  - destruct (reserved_column c Hc Hr) as (_ & _ & [(_ & _ & ->)|(_ & _ & ->)]); lia.
  - destruct (placed_range _ _ _ _ _ _ c He Hc); [by rewrite Hr|]. lia.
Qed.

Lemma schema_layout e4 e2 e1 eb : row_layout columns = Ok (e4, e2, e1, eb) -> table_columns columns e4 e2 e1 eb.
Proof.
  intros H. apply layout_parts in H as (H4 & H4m & H2 & H2m & H1 & Hb & Hmax & Hc4 & Hc2 & Hc1).
  pose proof (proj1 (Forall_forall _ _) (sm_reserved _ _ _ _ _ Hmade)) as Hres. destruct Hrow as [Hid Hver].
  split; rewrite ?Forall_forall; [apply (sm_ids _ _ _ _ _ Hmade)|..].
  - destruct (spec_column _ _ Hid) as (c & Hc & Ht & Hi). exists c. split_and!; [done..|]. by apply Hres.
  - destruct (spec_column _ _ Hver) as (c & Hc & Ht & Hi). exists c. split_and!; [done..|]. by apply Hres.
  - apply (unordered (fun a b => column_lt a b \/ column_lt b a)); [tauto|apply columns_disjoint_lt].
  - apply (unordered (fun a b => tcd_existence_bitmap_index a <> tcd_existence_bitmap_index b)); [congruence|apply columns_bits_lt].
  - apply (proj1 (Forall_forall _ _)), column_bit_range.
  - apply (proj1 (Forall_forall _ _)), (sm_width _ _ _ _ _ Hmade).
  - intros c Hc Hn. destruct (wide_region c Hc Hn) as [Hw1 Hw2]. split; [done|]. split; [by apply wide_mod|]. by split; [apply Hc4|].
  - intros c Hc Ht. pose proof (integer16_region c Hc Ht). split_and!; [lia|by apply integer16_mod|by apply Hc2].
  - intros c Hc Ht. pose proof (boolean_region c Hc Ht). split; [lia|by apply Hc1].
  - intros c Hc Hr. destruct (reserved_column c Hc Hr) as (Ht & _ & _). split; [done|]. by apply Hres.
  - by destruct columns_count as (? & _ & _ & ?).
  - split_and!; (done || lia).
Qed.
End schema.

(** ** The description accepts the columns *)

Lemma column_type_cases (t : PropertyType) w :
  column_width t = Ok w ->
  t = PT_Integer16 /\ w = 2 \/ t = PT_Boolean /\ w = 1 \/
  is_narrow t = false /\ t <> PT_Null /\ (column_8byte t = true /\ w = 8 \/ column_4byte t = true /\ column_8byte t = false /\ w = 4).
Proof. destruct t; cbn; intros [= <-]; auto 6 using not_eq_sym; right; right; (split; [done|]); (split; [done|]); auto. Qed.

Section accepted.
Context (columns : list TableColumnDescriptor) (e4 e2 e1 eb : Z) (Ht : table_columns columns e4 e2 e1 eb).
Set Default Proof Using "All".

Lemma table_column c :
  c ∈ columns ->
  0 <= tcd_existence_bitmap_index c < Z.of_nat (length columns) /\
  column_width (tcd_prop_type c) = Ok (tcd_size c) /\
  (is_narrow (tcd_prop_type c) = false -> 0 <= tcd_offset c /\ tcd_offset c mod 4 = 0 /\
    tcd_offset c + tcd_size c <= e4 /\ (8 <= tcd_offset c \/ is_reserved (tcd_prop_id c) = true)) /\
  (tcd_prop_type c = PT_Integer16 -> e4 <= tcd_offset c /\ tcd_offset c mod 2 = 0 /\ tcd_offset c + 2 <= e2) /\
  (tcd_prop_type c = PT_Boolean -> e2 <= tcd_offset c /\ tcd_offset c + 1 <= e1) /\
  (is_reserved (tcd_prop_id c) = true -> tcd_prop_type c = PT_Integer32 /\
    (tcd_prop_id c = LTP_ROW_ID_PROP_ID -> tcd_offset c = 0 /\ tcd_existence_bitmap_index c = 0) /\
    (tcd_prop_id c = LTP_ROW_VERSION_PROP_ID -> tcd_offset c = 4 /\ tcd_existence_bitmap_index c = 1)).
Proof.
  intros Hc. destruct Ht as [_ _ _ _ _ Hb Hw H4 H2 H1 Hr _ _].
  split_and!; [by apply (proj1 (Forall_forall _ _) Hb)..|by apply (proj1 (Forall_forall _ _) Hw)| | | |].
  - by apply (proj1 (Forall_forall _ _) H4). 
  - by apply (proj1 (Forall_forall _ _) H2).
  - by apply (proj1 (Forall_forall _ _) H1).
  - by apply (proj1 (Forall_forall _ _) Hr).
Qed.

Lemma column_checked c :
  c ∈ columns -> TableContextInfo.check_column e4 e2 e1 (Z.of_nat (length columns)) c = Ok tt.
Proof.
  intros Hc. destruct (table_column c Hc) as (Hb & Hw & H4 & H2 & H1 & Hr). destruct (tcl_ends _ _ _ _ _ Ht) as (He & _ & ? & _ & ? & Heb & Hmax).
  pose proof (bitmap_size_nonneg (length columns)).
  destruct c as [t id o w b]. cbn [tcd_prop_type tcd_prop_id tcd_offset tcd_size tcd_existence_bitmap_index] in *.
  assert (Hres : TableContextInfo.check_reserved (mk_TableColumnDescriptor t id o w b) = Ok tt).
  { unfold TableContextInfo.check_reserved, is_reserved in *. cbn [tcd_prop_type tcd_prop_id tcd_offset tcd_existence_bitmap_index].
    destruct t; try done. destruct (Z.eqb_spec id LTP_ROW_ID_PROP_ID) as [->|]; [destruct (Hr eq_refl) as (_ & Hro & _); by destruct (Hro eq_refl) as [-> ->]|].
    destruct (Z.eqb_spec id LTP_ROW_VERSION_PROP_ID) as [->|]; [|done]. destruct (Hr eq_refl) as (_ & _ & Hro). by destruct (Hro eq_refl) as [-> ->]. }
  assert (Hoff : TableContextInfo.offset_ok e4 e2 e1 (mk_TableColumnDescriptor t id o w b) = true /\
                 TableContextInfo.size_ok (mk_TableColumnDescriptor t id o w b) = true).
  { unfold TableContextInfo.offset_ok, TableContextInfo.size_ok. cbn [tcd_prop_type tcd_offset tcd_size].
    destruct (column_type_cases t w Hw) as [[-> ->]|[[-> ->]|(Hn & Hnull & Hc4)]].
    - destruct (H2 eq_refl) as (? & Hm & ?). unfold wrapping_add. rewrite wrap_small, Hm by (unfold uint; lia).
      rewrite !(proj2 (Z.leb_le _ _)) by lia. done.
    - destruct (H1 eq_refl) as (? & ?). rewrite (proj2 (Z.leb_le _ _)), (proj2 (Z.ltb_lt _ _)) by lia. done.
    - destruct (H4 Hn) as (? & Hm & Hle & _).
      assert (Hw8 : wrapping_add 16 o w = o + w) by (unfold wrapping_add; apply wrap_small; unfold uint; destruct Hc4 as [[_ ->]|(_ & _ & ->)]; lia).
      assert (Hcmp : (o + w <=? e4) = true) by (apply Z.leb_le; lia).
      destruct Hc4 as [[H8 ->]|(H4b & H8 & ->)]; destruct t; try done; cbn [column_4byte column_8byte negb andb]; by rewrite Hm, Hw8, Hcmp. }
  unfold TableContextInfo.check_column. rewrite Hres. cbn [rbind]. destruct Hoff as [Hoff Hsz]. rewrite Hoff, Hsz.
  cbn [tcd_prop_type tcd_existence_bitmap_index]. rewrite (proj2 (Z.leb_le b _)) by lia.
  rewrite bool_decide_eq_false_2; [done|]. by intros ->.
Qed.

Definition table_info (row_index : HeapId) (rows : option NodeId) : TableContextInfo :=
  mk_TableContextInfo e4 e2 e1 eb row_index rows 0 columns.

Lemma columns_accepted row_index rows :
  TableContextInfo.new e4 e2 e1 eb row_index rows columns = Ok (table_info row_index rows).
Proof.
  destruct (tcl_ends _ _ _ _ _ Ht) as (He & H4 & H42 & H2 & H21 & Heb & Hmax). pose proof (tcl_count _ _ _ _ _ Ht).
  pose proof (bitmap_size_nonneg (length columns)).
  unfold TableContextInfo.new. cbv zeta. rewrite (proj2 (Z.ltb_ge _ _)) by lia. rewrite H4, H2. cbn [Z.eqb negb orb].
  rewrite !(proj2 (Z.ltb_ge _ _)) by lia. replace (eb - e1) with (existence_bitmap_size (Z.of_nat (length columns))) by lia.
  rewrite Z.eqb_refl. cbn [negb orb].
  assert (Hok : rmapM (TableContextInfo.check_column e4 e2 e1 (Z.of_nat (length columns))) columns = Ok (replicate (length columns) tt)).
  { apply rmapM_Forall2, Forall2_same_length_lookup_2; [by rewrite length_replicate|].
    intros i c u Hi Hu. apply lookup_replicate in Hu as [-> _]. by apply column_checked, list_elem_of_lookup_2 with i. }
  by rewrite Hok.
Qed.

Lemma column_in_table row_index rows c : c ∈ columns -> column_in (table_info row_index rows) c.
Proof.
  intros Hc. destruct (table_column c Hc) as (Hb & Hw & H4 & H2 & H1 & Hr).
  destruct (tcl_ends _ _ _ _ _ Ht) as (He & _ & ? & _ & ? & Heb & Hmax).
  unfold column_in, table_info. cbn [tci_columns tci_end_2byte_values tci_end_1byte_values tci_end_4byte_values].
  rewrite bitmap_div_ceil. pose proof (div_ceil_spec (Z.of_nat (length columns)) 8 ltac:(lia)). split; [lia|].
  destruct (column_type_cases _ _ Hw) as [[Hk Hz]|[[Hk Hz]|(Hn & Hnull & Hc4)]].
  - rewrite Hk. destruct (H2 Hk) as (? & _ & ?). by split_and!.
  - rewrite Hk. destruct (H1 Hk) as (? & ?). split_and!; (done || lia).
  - destruct (H4 Hn) as (Ho & _ & Hle & H8).
    assert (Hpos : 8 <= tcd_offset c \/ tcd_prop_type c = PT_Integer32 /\ (tcd_offset c = 0 \/ tcd_offset c = 4)).
    { destruct H8 as [?|Hres]; [by left|right]. destruct (Hr Hres) as (Hk & Hi & Hv). split; [done|].
      unfold is_reserved in Hres. apply orb_true_iff in Hres as [Hres%Z.eqb_eq|Hres%Z.eqb_eq]; [left; by apply Hi|right; by apply Hv]. }
    assert (Hs : tcd_size c = if column_8byte (tcd_prop_type c) then 8 else 4) by (destruct Hc4 as [[-> ->]|(_ & -> & ->)]; done).
    destruct (tcd_prop_type c); try done.
Qed.
End accepted.

(** ** Properties *)

Lemma schema_table_columns specs columns e4 e2 e1 eb :
  (PT_Integer32, LTP_ROW_ID_PROP_ID) ∈ specs -> (PT_Integer32, LTP_ROW_VERSION_PROP_ID) ∈ specs ->
  schema_columns specs = Ok columns -> row_layout columns = Ok (e4, e2, e1, eb) ->
  table_columns columns e4 e2 e1 eb.
Proof.
  intros H1 H2 Hc Hl. destruct (schema_columns_made specs columns Hc) as (n1 & n2 & n3 & Hm).
  by apply (schema_layout specs columns n1 n2 n3 Hm).
Qed.

(** C36: The columns made from a schema with the two columns of the row are
    those of the schema, in the order of their ids and no id twice; no two
    of them share a byte of a row or a bit of its bitmap, and none shares a
    byte with the bitmap. With the ends of the parts that the builders of
    tables compute, the description of the table is accepted and the reader
    finds each column in the part for its width. *)
Theorem schema_columns_correct (specs : list ColumnSpec) (columns : list TableColumnDescriptor)
  (e4 e2 e1 eb : Z) (row_index : HeapId) (rows : option NodeId)
  (Hid : (PT_Integer32, LTP_ROW_ID_PROP_ID) ∈ specs) (Hversion : (PT_Integer32, LTP_ROW_VERSION_PROP_ID) ∈ specs)
  (Hcolumns : schema_columns specs = Ok columns) (Hlayout : row_layout columns = Ok (e4, e2, e1, eb)) :
  map (fun c => (tcd_prop_type c, tcd_prop_id c)) columns ≡ₚ specs /\
  StronglySorted Z.lt (map tcd_prop_id columns) /\
  (forall i j a b, columns !! i = Some a -> columns !! j = Some b -> i <> j ->
    (column_lt a b \/ column_lt b a) /\ tcd_existence_bitmap_index a <> tcd_existence_bitmap_index b) /\
  Forall (fun c => 0 <= tcd_offset c /\ tcd_offset c + tcd_size c <= e1 /\
    0 <= tcd_existence_bitmap_index c < Z.of_nat (length columns)) columns /\
  exists t, TableContextInfo.new e4 e2 e1 eb row_index rows columns = Ok t /\ Forall (column_in t) columns.
Proof.
  pose proof (schema_table_columns _ _ _ _ _ _ Hid Hversion Hcolumns Hlayout) as Ht.
  destruct (schema_columns_made specs columns Hcolumns) as (n1 & n2 & n3 & Hm). split_and!.
  - rewrite (sm_specs _ _ _ _ _ Hm). apply (sort_by_perm (by_key snd Z.compare)).
  - assert (Hs : StronglySorted (fun x y : Z => x <= y) (map tcd_prop_id columns)).
    { replace (map tcd_prop_id columns) with (map snd (sort_specs specs)) by (by rewrite <- (sm_specs _ _ _ _ _ Hm), map_map).
      apply (StronglySorted_fmap snd (cmp_le (by_key snd Z.compare))); [done|]. apply (sort_by_sorted (by_key snd Z.compare)). }
    pose proof (sm_ids _ _ _ _ _ Hm) as Hnd. induction Hs as [|x l Hs IH Hx]; [constructor|].
    apply NoDup_cons in Hnd as [Hin Hnd]. constructor; [by apply IH|]. apply Forall_forall. intros y Hy.
    pose proof (proj1 (Forall_forall _ _) Hx y Hy). cbn in *. assert (x <> y) by (by intros ->). lia.
  - intros i j a b Hi Hj Hne. split; [by apply (tcl_disjoint _ _ _ _ _ Ht i j)|by apply (tcl_bits _ _ _ _ _ Ht i j)].
  - apply Forall_forall. intros c Hc. destruct (table_column _ _ _ _ _ Ht c Hc) as (Hb & Hw & H4 & H2 & H1 & _).
    destruct (tcl_ends _ _ _ _ _ Ht) as (? & _ & ? & _ & ? & _).
    destruct (column_type_cases _ _ Hw) as [[Hk Hz]|[[Hk Hz]|(Hn & _)]].
    + specialize (H2 Hk). lia.
    + specialize (H1 Hk). lia.
    + specialize (H4 Hn). lia.
  - exists (table_info columns e4 e2 e1 eb row_index rows). split; [by apply columns_accepted|].
    apply Forall_forall. intros c Hc. by apply (column_in_table columns e4 e2 e1 eb Ht).
Qed.

Lemma recipient_layout : exists columns, recipient_columns = Ok columns /\ row_layout columns = Ok (48, 48, 50, 52).
Proof. eexists. split; [vm_compute; reflexivity|vm_compute; reflexivity]. Qed.

(** The table of recipients; every schema of a store is laid out. *)
Lemma schema_columns_correct_witness :
  exists columns t, recipient_columns = Ok columns /\ row_layout columns = Ok (48, 48, 50, 52) /\
    TableContextInfo.new 48 48 50 52 (HeapId.from_u32 0x40) None columns = Ok t /\ Forall (column_in t) columns /\
    Forall (fun c => exists columns layout, c = Ok columns /\ row_layout columns = Ok layout)
      [hierarchy_columns; contents_columns; associated_columns; search_contents_columns; receive_folder_columns;
       outgoing_queue_columns; contents_index_columns; search_index_columns; attachment_index_columns;
       recipient_columns; attachment_columns].
Proof.
  destruct recipient_layout as (columns & Hc & Hl).
  destruct (schema_columns_correct recipient_schema columns 48 48 50 52 (HeapId.from_u32 0x40) None) as (_ & _ & _ & _ & t & Ht & Hin);
    [apply (bool_decide_unpack _); vm_compute; exact Logic.I..|exact Hc|exact Hl|].
  exists columns, t. split; [exact Hc|]. split; [exact Hl|]. split; [exact Ht|]. split; [exact Hin|].
  repeat (constructor; [do 2 eexists; split; [vm_compute; reflexivity|vm_compute; reflexivity]|]). constructor.
Defined.
