(* ===== verification/WriterTable.v ===== *)
(** * Tables of the writer

    [writer.rs]: the rows of a table with their values ([write_table_value],
    [write_external_table_value], [mark_column]), a table in one page
    ([table_context]), a table over several blocks ([table_context_external])
    and the choice between them in [build_table_context]. Shown here: what is
    in a row after its values are written, whichever way the values with
    bytes of their own are placed; file TableReadback draws the conclusions
    for the reader. *)
From S2P Require Import Prelude Errors Io Ids Page BTree Order Block Lookup DataTree SubNode Heap HeapTree PropValue PropContext TableContext Alloc WriterBlocks WriterTree WriterHeap WriterBth WriterValues WriterContext WriterSchema.
#[local] Open Scope Z_scope.

Record TableRowSpec := mk_TableRowSpec {
  trs_id : NodeId;
  trs_values : list Property
}.

(** [blocks] are those of the table, in the order of their ids. *)
Record ExternalTableBuild := mk_ExternalTableBuild {
  etb_data_block : UnicodeBlockId;
  etb_subnode_block : UnicodeBlockId;
  etb_blocks : list BlockSpec
}.

Record TableBuild := mk_TableBuild {
  tb_data_block : UnicodeBlockId;
  tb_subnode_block : option UnicodeBlockId;
  tb_blocks : list BlockSpec
}.

(** ** Rows of the tables of a store *)

(** The scalar values of a literal. *)
Definition chars (s : string) : list Z := map (fun c => Z.of_N (Ascii.N_of_ascii c)) (String.list_ascii_of_string s).

Definition folder_table_row_with_unread (id : NodeId) (name : list Z) (count unread_count : Z) (children : bool)
    (container_class : list Z) : TableRowSpec :=
  mk_TableRowSpec id
    [(0x3001, WriterValue.Unicode name); (0x3602, WriterValue.Integer32 count);
     (0x3603, WriterValue.Integer32 unread_count); (0x360A, WriterValue.Boolean children);
     (0x3613, WriterValue.Unicode container_class)].

Definition folder_table_row (id : NodeId) (name : list Z) (count : Z) (children : bool) : TableRowSpec :=
  folder_table_row_with_unread id name count 0 children (chars "IPF.Note").

Inductive RecipientKind := To | Cc | Bcc.
Definition RecipientKind_as_i32 (k : RecipientKind) : Z := match k with To => 1 | Cc => 2 | Bcc => 3 end.

Record RecipientSpec := mk_RecipientSpec {
  rs_kind : RecipientKind;
  rs_display_name : list Z;
  rs_email_address : list Z
}.

Definition recipient_table_row (index : Z) (recipient : RecipientSpec) : wres TableRowSpec :=
  let? row := fits (if uint_b 32 index then checked_add 32 index 1 else None) "recipient row count" in
  Ok (mk_TableRowSpec (mk_NodeId row)
    [(0x0C15, WriterValue.Integer32 (RecipientKind_as_i32 (rs_kind recipient)));
     (0x0E0F, WriterValue.Boolean false); (0x0FFE, WriterValue.Integer32 6);
     (0x3001, WriterValue.Unicode (rs_display_name recipient)); (0x3002, WriterValue.Unicode (chars "SMTP"));
     (0x3003, WriterValue.Unicode (rs_email_address recipient));
     (0x39FF, WriterValue.Unicode (rs_email_address recipient))]).

(** Of the attachment only the name and the position are used. *)
Definition attachment_table_row (node : NodeId) (filename : list Z) (rendering_position : option Z)
    (attachment_number method size : Z) : TableRowSpec :=
  mk_TableRowSpec node
    [(0x0E20, WriterValue.Integer32 size); (0x0E21, WriterValue.Integer32 attachment_number);
     (0x3704, WriterValue.Unicode filename); (0x3705, WriterValue.Integer32 method);
     (0x370B, WriterValue.Integer32 (default (-1) rendering_position))].

(** ** The bytes of a row *)

Definition find_column (columns : list TableColumnDescriptor) (property_id : Z) : wres TableColumnDescriptor :=
  ok_or (List.find (fun c => tcd_prop_id c =? property_id) columns) (InvalidStructure "table value has no column").

Definition write_row_bytes (row : list Z) (offset : Z) (value : list Z) : wres (list Z) :=
  let? end_ := fits (checked_add 64 offset (size_z value)) "table row offset" in
  if end_ <=? size_z row then Ok (take (Z.to_nat offset) row ++ value ++ drop (Z.to_nat end_) row)
  else Err (InvalidStructure "table value exceeds row").

Definition mark_column (row : list Z) (columns : list TableColumnDescriptor) (property_id : Z) : wres (list Z) :=
  let? column := find_column columns property_id in
  let bitmap_size := div_ceil (size_z columns) 8 in
  let? bitmap_start := ok_or (checked_sub (size_z row) bitmap_size) (InvalidStructure "table bitmap underflow") in
  let bit := tcd_existence_bitmap_index column in
  let at_ := Z.to_nat (bitmap_start + bit / 8) in
  let? byte := ok_or (row !! at_) (InvalidStructure "table bitmap overflow") in
  Ok (<[at_ := Z.lor byte (Z.shiftr 0x80 (bit mod 8))]> row).

(** The values that are in the row itself. *)
Definition fixed_bytes (value : WriterValue.t) : option (list Z) :=
  match value with
  | WriterValue.Integer16 v => Some (write_u16 (wrap 16 v))
  | WriterValue.Integer32 v => Some (write_u32 (wrap 32 v))
  | WriterValue.Floating32 v | WriterValue.ErrorCode v => Some (write_u32 v)
  | WriterValue.Boolean v => Some (write_u8 (if v then 1 else 0))
  | WriterValue.Integer64 v | WriterValue.Currency v | WriterValue.Time v => Some (write_u64 (wrap 64 v))
  | WriterValue.Floating64 v | WriterValue.FloatingTime v => Some (write_u64 v)
  | _ => None
  end.

Definition table_variable_bytes (value : WriterValue.t) : io_result (option (list Z)) :=
  match value with
  | WriterValue.Unicode value => let? bytes := unicode_bytes value in Ok (Some bytes)
  | WriterValue.Binary value => Ok (Some value)
  | WriterValue.Object node size => Ok (Some (write_u32 (node_id_0 node) ++ write_u32 size))
  | value => variable_bytes value
  end.

Definition variable_data (value : WriterValue.t) : wres (list Z) :=
  let? data := wio (table_variable_bytes value) in
  ok_or data (InvalidStructure "table variable value is missing").

(** [write_table_value] and [write_external_table_value] are the same but for
    the bytes of a variable value: [place] puts them somewhere and gives the
    32 bits of the row that say where. *)
Section rows.
Context {St : Type} (place : list Z -> W St Z).

(** The match on the value. *)
Definition write_cell (row : list Z) (offset : Z) (value : WriterValue.t) : W St (list Z) :=
  match value, fixed_bytes value with
  | WriterValue.External _ _, _ =>
      w_lift (Err (InvalidStructure "table values cannot reference property subnodes"))
  | _, Some bytes => w_lift (write_row_bytes row offset bytes)
  | _, None =>
      let^ data := w_lift (variable_data value) in
      if is_empty data then w_lift (write_row_bytes row offset (write_u32 0)) else
      let^ id := place data in
      w_lift (write_row_bytes row offset (write_u32 id))
  end.

Definition write_value (columns : list TableColumnDescriptor) (row : list Z) (p : Property) : W St (list Z) :=
  let '(property_id, value) := p in
  if is_reserved property_id
  then w_lift (Err (InvalidStructure "table RowID and RowVer are writer-owned structural fields")) else
  let^ column := w_lift (find_column columns property_id) in
  let^ row := write_cell row (tcd_offset column) value in
  w_lift (mark_column row columns property_id).

Fixpoint write_values (columns : list TableColumnDescriptor) (row : list Z) (values : list Property) : W St (list Z) :=
  match values with
  | [] => w_ret row
  | p :: values => let^ row := write_value columns row p in write_values columns row values
  end.

(** The row of an id before its values; [bytes[4..8]] of a shorter row
    panics. *)
Definition start_row (columns : list TableColumnDescriptor) (end_bitmap : Z) (id : NodeId) : wres (list Z) :=
  if end_bitmap <? 8 then Panic else
  let bytes := write_u32 (node_id_0 id) ++ write_u32 1 ++ replicate (Z.to_nat end_bitmap - 8) 0 in
  let? bytes := mark_column bytes columns LTP_ROW_ID_PROP_ID in
  mark_column bytes columns LTP_ROW_VERSION_PROP_ID.

Definition table_row (columns : list TableColumnDescriptor) (end_bitmap : Z) (row : TableRowSpec) : W St (list Z) :=
  let^ bytes := w_lift (start_row columns end_bitmap (trs_id row)) in
  write_values columns bytes (trs_values row).
End rows.

Definition sort_rows (rows : list TableRowSpec) : list TableRowSpec :=
  sort_by (by_key (fun r => node_id_0 (trs_id r)) Z.compare) rows.

(** The entry of the index for the row number [i]. *)
Definition leaf_entry (i : nat) (row : TableRowSpec) : wres (list Z) :=
  let? index := fits (if uint_b 32 (Z.of_nat i) then Some (Z.of_nat i) else None) "table row index" in
  Ok (write_u32 (node_id_0 (trs_id row)) ++ write_u32 index).

(** [TableContextInfo::new(..)?.write(..)] and [HeapTreeHeader::new(4, 4, ..)?.write(..)]. *)
Definition info_bytes (layout : Z * Z * Z * Z) (row_index : HeapId) (rows : option NodeId)
    (columns : list TableColumnDescriptor) : wres (list Z) :=
  let '(end_4byte, end_2byte, end_1byte, end_bitmap) := layout in
  let? info := structure_ltp (TableContextInfo.new end_4byte end_2byte end_1byte end_bitmap row_index rows columns) in
  wio (TableContextInfo.write info).

Definition index_header_bytes (levels : Z) (root : HeapId) : wres (list Z) :=
  let? header := structure_ltp (HeapTreeHeader.new 4 4 levels root) in
  Ok (HeapTreeHeader.write header).

(** ** A table in one page *)

(** The allocations of the values follow the first four. *)
Definition place_variable (data : list Z) : W (list (list Z)) Z := fun variables =>
  let variables := variables ++ [data] in
  (let? allocation := fits (checked_add 64 4 (size_z variables)) "table allocation" in
   let? allocation := to_u16 allocation "table allocation" in
   let? heap_id := structure_ltp (HeapId.new allocation 0) in
   Ok (HeapId.into_u32 heap_id), variables).

Definition write_table_value := write_value place_variable.

Definition table_context (columns : list TableColumnDescriptor) (rows : list TableRowSpec) : wres (list Z) :=
  let rows := sort_rows rows in
  let? layout := row_layout columns in
  let? row_index := structure_ltp (HeapId.new 2 0) in
  let? row_tree_root := (if is_empty rows then Ok (HeapId.from_u32 0) else structure_ltp (HeapId.new 3 0)) in
  let? row_matrix := (if is_empty rows then Ok None else
    let? id := structure_ltp (HeapId.new 4 0) in Ok (Some (mk_NodeId (HeapId.into_u32 id)))) in
  let? table := info_bytes layout row_index row_matrix columns in
  let? index := index_header_bytes 0 row_tree_root in
  if is_empty rows then heap_page HN_Table [table; index] else
  let? leaf := rmapM (fun '(i, row) => leaf_entry i row) (imap pair rows) in
  let '(matrix, variable_values) := w_map (table_row place_variable columns layout.2) rows [] in
  let? matrix := matrix in
  heap_page HN_Table ([table; index; concat leaf; concat matrix] ++ variable_values).

(** ** A table over several blocks *)

(** What the values of the rows change: the pages of the heap, the number of
    the next value that has a sub-node, the blocks and the sub-nodes. *)
Record ExternalState := mk_ExternalState {
  es_heap_allocations : list (list (list Z));
  es_next_value_node : Z;
  es_vec : VecState;
  es_subnodes : list LeafEntry
}.

(** The next value node: [node(..)?] and the checked increment. *)
Definition take_value_node : W ExternalState NodeId := fun s =>
  (let? id := node ListsTablesProperties (es_next_value_node s) in
   let? _ := fits (checked_add 32 (es_next_value_node s) 1) "table value node" in
   Ok id,
   mk_ExternalState (es_heap_allocations s) (es_next_value_node s + 1) (es_vec s) (es_subnodes s)).

(** A computation on the blocks. *)
Definition on_blocks {A} (m : W VecState A) : W ExternalState A := fun s =>
  let '(r, vec) := m (es_vec s) in
  (r, mk_ExternalState (es_heap_allocations s) (es_next_value_node s) vec (es_subnodes s)).

Definition push_subnode (entry : LeafEntry) : W ExternalState unit :=
  w_modify (fun s => mk_ExternalState (es_heap_allocations s) (es_next_value_node s) (es_vec s) (es_subnodes s ++ [entry])).

Definition push_heap (data : list Z) : W ExternalState HeapId := fun s =>
  match push_heap_allocation (es_heap_allocations s) data with
  | Ok (heap_id, pages) => (Ok heap_id, mk_ExternalState pages (es_next_value_node s) (es_vec s) (es_subnodes s))
  | Err e => (Err e, s)
  | Panic => (Panic, s)
  end.

Definition place_external (data : list Z) : W ExternalState Z :=
  if size_z data <=? MAX_HEAP_ALLOCATION then
    let^ heap_id := push_heap data in
    w_ret (HeapId.into_u32 heap_id)
  else
    let^ value_node := take_value_node in
    let^ root := on_blocks (append_data_tree data) in
    let^ _ := push_subnode (LeafSubNodeTreeEntry.new value_node root None) in
    w_ret (node_id_0 value_node).

Definition write_external_table_value := write_value place_external.

(** One row of the loop: its entry of the index and its bytes. *)
Definition external_row (columns : list TableColumnDescriptor) (end_bitmap : Z) (row : nat * TableRowSpec) :
    W ExternalState (list Z * list Z) :=
  let^ leaf := w_lift (leaf_entry row.1 row.2) in
  let^ bytes := table_row place_external columns end_bitmap row.2 in
  w_ret (leaf, bytes).

Definition FIRST_VALUE_NODE : Z := 0x50000.

Definition table_context_external_from (columns : list TableColumnDescriptor) (rows : list TableRowSpec) :
    W ExternalState (UnicodeBlockId * UnicodeBlockId) :=
  let rows := sort_rows rows in
  if is_empty rows then w_lift (Err (InvalidStructure "external table must contain rows")) else
  let^ layout := w_lift (row_layout columns) in
  let^ row_index := w_lift (structure_ltp (HeapId.new 2 0)) in
  let^ row_matrix_node := take_value_node in
  let^ written := w_map (external_row columns layout.2) (imap pair rows) in
  let leaf := concat (map fst written) in
  let matrix := concat (map snd written) in
  let^ matrix_root := on_blocks (append_row_matrix_data_tree matrix layout.2) in
  let^ _ := push_subnode (LeafSubNodeTreeEntry.new row_matrix_node matrix_root None) in
  let^ subnodes := w_get es_subnodes in
  let^ subnode_block := on_blocks (append_subnode_tree subnodes) in
  let^ heap_allocations := w_get es_heap_allocations in
  let^ built := w_lift (
    let? '(roots, pages) := bth_leaves 4 (chunks (MAX_HEAP_ALLOCATION / 8 * 8) leaf) heap_allocations in
    let? '(levels, roots, pages) := bth_levels 4 (MAX_HEAP_ALLOCATION / 8) "BTH depth" (length roots) 0 roots pages in
    let? row_tree_root := (match roots with [] => Panic | r :: _ => Ok r.2 end) in
    let? table := info_bytes layout row_index (Some row_matrix_node) columns in
    let? index := index_header_bytes levels row_tree_root in
    finish_heap HN_Table [table; index] pages) in
  let^ data_block := on_blocks (append_data_tree_pages built) in
  w_ret (data_block, subnode_block).

Definition table_context_external (columns : list TableColumnDescriptor) (rows : list TableRowSpec)
    (next_block_index : Z) : wres ExternalTableBuild * Z :=
  let '(r, s) := table_context_external_from columns rows
    (mk_ExternalState [] FIRST_VALUE_NODE (mk_VecState next_block_index []) []) in
  (let? '(data_block, subnode_block) := r in
   Ok (mk_ExternalTableBuild data_block subnode_block (vs_blocks (es_vec s))), vs_next (es_vec s)).

(** ** Both *)

Definition build_table_context (columns : list TableColumnDescriptor) (rows : list TableRowSpec)
    (compact_block : option UnicodeBlockId) (next_block_index : Z) : wres TableBuild * Z :=
  match table_context columns rows with
  | Ok table =>
      let '(data_block, s) := (match compact_block with
        | Some block => w_ret block
        | None => take_block_id (S := VecState) false
        end) (mk_VecState next_block_index []) in
      (let? data_block := data_block in
       Ok (mk_TableBuild data_block None [mk_BlockSpec data_block (Data table) 2]), vs_next s)
  | Err e =>
      if is_heap_page_too_large e then
        let '(r, next) := table_context_external columns rows next_block_index in
        (let? external := r in
         Ok (mk_TableBuild (etb_data_block external) (Some (etb_subnode_block external)) (etb_blocks external)), next)
      else (Err e, next_block_index)
  | Panic => (Panic, next_block_index)
  end.

(** ** Bytes of rows *)

Lemma table_variable_bytes_eq v : table_variable_bytes v = variable_bytes v.
Proof. by destruct v. Qed.

Lemma field_ext bytes bytes' offset width :
  (forall i, (Z.to_nat offset <= i < Z.to_nat offset + Z.to_nat width)%nat -> bytes !! i = bytes' !! i) ->
  field bytes offset width = field bytes' offset width.
Proof.
  intros H. unfold field. apply list_eq. intros i. destruct (Nat.lt_ge_cases i (Z.to_nat width)) as [Hi|Hi].
  - rewrite !lookup_take, !lookup_drop, !decide_True by lia. apply H. lia.
  - rewrite !lookup_take, !decide_False by lia. done.
Qed.

(** What is written at an offset is the field there, and no other byte
    changes. *)
Lemma write_row_bytes_ok row offset value row' :
  0 <= offset -> write_row_bytes row offset value = Ok row' ->
  size_z row' = size_z row /\ offset + size_z value <= size_z row /\ field row' offset (size_z value) = value /\
  forall i, (i < Z.to_nat offset \/ Z.to_nat offset + length value <= i)%nat -> row' !! i = row !! i.
Proof.
  intros Ho H. unfold write_row_bytes, checked_add in H. pose proof (size_nonneg value).
  destruct (_ <? _) eqn:Hlt; [|done]. cbn [fits ok_or rbind] in H.
  destruct (Z.leb_spec (offset + size_z value) (size_z row)) as [Hle|]; [|done]. injection H as <-. unfold size_z in *.
  assert (Ht : length (take (Z.to_nat offset) row) = Z.to_nat offset) by (rewrite length_take; lia).
  split_and!.
  - rewrite !length_app, Ht, length_drop. lia.
  - lia.
  - unfold field. rewrite Nat2Z.id. rewrite drop_app_exact by done. by apply take_app_exact.
  - intros i [Hi|Hi].
    + rewrite lookup_app_l by lia. rewrite lookup_take, decide_True by lia. done.
    + rewrite lookup_app_r by lia. rewrite Ht, lookup_app_r by lia. rewrite lookup_drop. f_equal. lia.
Qed.

Lemma write_row_bytes_fits row offset value :
  0 <= offset -> offset + size_z value <= size_z row -> size_z row < 2 ^ 16 ->
  exists row', write_row_bytes row offset value = Ok row'.
Proof.
  intros Ho Hle Hs. unfold write_row_bytes, checked_add. rewrite (proj2 (Z.ltb_lt _ _)) by lia. cbn [fits ok_or rbind].
  rewrite (proj2 (Z.leb_le _ _)) by lia. by eexists.
Qed.

Lemma shiftr_0x80 k : 0 <= k < 8 -> Z.shiftr 0x80 k = 2 ^ (7 - k).
Proof. intros Hk. assert (k = 0 \/ k = 1 \/ k = 2 \/ k = 3 \/ k = 4 \/ k = 5 \/ k = 6 \/ k = 7) by lia. by destruct_or!; subst. Qed.

(** ** One row *)

Section row.
Context (columns : list TableColumnDescriptor) (e4 e2 e1 eb : Z) (Ht : table_columns columns e4 e2 e1 eb).
Context (row_index : HeapId) (rows : option NodeId).
Set Default Proof Using "All".
Abbreviation info := (table_info columns e4 e2 e1 eb row_index rows).

Lemma ends_order : 8 <= e4 <= e2 /\ e2 <= e1 /\ e1 + div_ceil (size_z columns) 8 = eb /\ eb < 2 ^ 16.
Proof. destruct (tcl_ends _ _ _ _ _ Ht) as (? & _ & ? & _ & ? & Hb & ?). rewrite bitmap_div_ceil in Hb. unfold size_z. lia. Qed.

(** A column is within the parts of its width. *)
Lemma column_within c : c ∈ columns -> 0 <= tcd_offset c /\ 0 < tcd_size c /\ tcd_offset c + tcd_size c <= e1.
Proof.
  intros Hc. destruct (table_column _ _ _ _ _ Ht c Hc) as (_ & Hw & H4 & H2 & H1 & _). pose proof ends_order.
  destruct (column_type_cases _ _ Hw) as [[Hk Hz]|[[Hk Hz]|(Hn & _ & Hz)]].
  - destruct (H2 Hk). lia.
  - destruct (H1 Hk). lia.
  - destruct (H4 Hn) as (? & _ & ? & _). assert (0 < tcd_size c) by (destruct Hz as [[_ ->]|(_ & _ & ->)]; lia). lia.
Qed.

Lemma bit_place c : c ∈ columns -> e1 <= e1 + tcd_existence_bitmap_index c / 8 < eb.
Proof.
  intros Hc. destruct (table_column _ _ _ _ _ Ht c Hc) as (Hb & _). destruct ends_order as (_ & _ & <- & _).
  pose proof (Z.div_mod (tcd_existence_bitmap_index c) 8 ltac:(lia)). pose proof (Z.mod_pos_bound (tcd_existence_bitmap_index c) 8 ltac:(lia)).
  pose proof (div_ceil_spec (size_z columns) 8 ltac:(lia)). unfold size_z in *. lia.
Qed.

Lemma id_inj c d : c ∈ columns -> d ∈ columns -> tcd_prop_id c = tcd_prop_id d -> c = d.
Proof.
  intros [i Hi]%list_elem_of_lookup [j Hj]%list_elem_of_lookup He.
  pose proof (lookup_id_inj _ _ _ _ _ (tcl_ids _ _ _ _ _ Ht) Hi Hj He) as ->. congruence.
Qed.

Lemma find_column_ok c : c ∈ columns -> find_column columns (tcd_prop_id c) = Ok c.
Proof.
  intros Hc. unfold find_column. destruct (List.find _ columns) as [d|] eqn:Hf.
  - apply find_some in Hf as [Hd He%Z.eqb_eq]. apply list_elem_of_In in Hd. cbn [ok_or]. f_equal.
    by apply id_inj.
  - apply list_elem_of_In in Hc. pose proof (List.find_none _ _ Hf c Hc) as Hn. cbn in Hn. by rewrite Z.eqb_refl in Hn.
Qed.

Lemma bit_at_inj c d : c ∈ columns -> d ∈ columns ->
  tcd_existence_bitmap_index c = tcd_existence_bitmap_index d -> c = d.
Proof.
  intros [i Hi]%list_elem_of_lookup [j Hj]%list_elem_of_lookup He. destruct (Nat.eq_dec i j) as [->|Hne]; [congruence|].
  by destruct (tcl_bits _ _ _ _ _ Ht i j c d Hi Hj Hne).
Qed.

(** Marking a column sets its bit, and changes nothing before the bitmap and
    no other bit. *)
Lemma mark_column_ok c row :
  c ∈ columns -> size_z row = eb ->
  exists row', mark_column row columns (tcd_prop_id c) = Ok row' /\ size_z row' = eb /\
    (forall i, (i < Z.to_nat e1)%nat -> row' !! i = row !! i) /\
    forall d, d ∈ columns -> column_bit info row' (tcd_existence_bitmap_index d) =
      ((tcd_prop_id d =? tcd_prop_id c) || column_bit info row (tcd_existence_bitmap_index d)).
Proof.
  intros Hc Hs. pose proof ends_order as (? & ? & Heb & ?). pose proof (bit_place c Hc) as Hp.
  unfold mark_column. rewrite (find_column_ok c Hc). cbn [rbind]. unfold checked_sub.
  pose proof (div_ceil_spec (size_z columns) 8 ltac:(lia)). pose proof (size_nonneg columns).
  rewrite Hs, (proj2 (Z.leb_le _ _)) by lia. cbn [ok_or rbind]. replace (eb - div_ceil (size_z columns) 8) with e1 by lia.
  set (at_ := Z.to_nat (e1 + tcd_existence_bitmap_index c / 8)). assert (Hat : (at_ < length row)%nat) by (unfold size_z in Hs; lia).
  destruct (lookup_lt_is_Some_2 row at_ Hat) as [b Hb]. rewrite Hb. cbn [ok_or rbind].
  eexists. split; [done|]. split; [unfold size_z in *; by rewrite length_insert|]. split.
  { intros i Hi. apply list_lookup_insert_ne. lia. }
  intros d Hd. unfold column_bit. cbn [table_info tci_end_1byte_values]. rewrite !nth_lookup.
  pose proof (bit_place d Hd) as Hpd.
  destruct (table_column _ _ _ _ _ Ht c Hc) as (Hbc & _). destruct (table_column _ _ _ _ _ Ht d Hd) as (Hbd & _).
  set (bc := tcd_existence_bitmap_index c) in *. set (bd := tcd_existence_bitmap_index d) in *.
  pose proof (Z.div_mod bc 8 ltac:(lia)). pose proof (Z.div_mod bd 8 ltac:(lia)).
  pose proof (Z.mod_pos_bound bc 8 ltac:(lia)). pose proof (Z.mod_pos_bound bd 8 ltac:(lia)).
  destruct (Z.eq_dec (bd / 8) (bc / 8)) as [Hq|Hq].
  - rewrite Hq. fold at_. rewrite list_lookup_insert_eq, Hb by done. cbn [default from_option id].
    rewrite Z.lor_spec, shiftr_0x80, Z.pow2_bits_eqb by lia. rewrite orb_comm. f_equal.
    destruct (Z.eqb_spec (7 - bc mod 8) (7 - bd mod 8)).
    + rewrite (bit_at_inj d c) by (done || (fold bc bd; lia)). by rewrite Z.eqb_refl.
    + destruct (Z.eqb_spec (tcd_prop_id d) (tcd_prop_id c)) as [He|]; [|done]. apply (id_inj d c Hd Hc) in He as ->. unfold bc, bd in *. lia.
  - rewrite list_lookup_insert_ne by (unfold at_; lia). destruct (Z.eqb_spec (tcd_prop_id d) (tcd_prop_id c)) as [He|]; [|done].
    apply (id_inj d c Hd Hc) in He as ->. unfold bc, bd in *. lia.
Qed.

(** What the bytes of a value in its row are. *)
Definition value_raw (P : Z -> list Z -> Prop) (v : WriterValue.t) (raw : list Z) : Prop :=
  match fixed_bytes v with
  | Some bytes => raw = bytes
  | None => exists data, variable_bytes v = Ok (Some data) /\
      (data = [] /\ raw = write_u32 0 \/ data <> [] /\ exists x, P x data /\ raw = write_u32 x)
  end.

Definition row_state (P : Z -> list Z -> Prop) (id : NodeId) (written : list Property) (bytes : list Z) : Prop :=
  size_z bytes = eb /\ field bytes 0 4 = write_u32 (node_id_0 id) /\ field bytes 4 4 = write_u32 1 /\
  (forall c, c ∈ columns -> column_bit info bytes (tcd_existence_bitmap_index c) =
    is_reserved (tcd_prop_id c) || existsb (fun p => p.1 =? tcd_prop_id c) written) /\
  (forall c p, c ∈ columns -> p ∈ written -> p.1 = tcd_prop_id c ->
    value_raw P p.2 (field bytes (tcd_offset c) (tcd_size c))).

(** A value for a column of its type. *)
Definition table_value_ok (p : Property) : Prop :=
  (exists c, c ∈ columns /\ tcd_prop_id c = p.1 /\ tcd_prop_type c = WriterValue.property_type p.2) /\
  writer_value_ok p.2 /\ is_external p.2 = false /\
  (forall bytes, variable_bytes p.2 = Ok (Some bytes) -> size_z bytes <= MAX_PST_PROPERTY_BYTES).

Lemma value_raw_mono (P Q : Z -> list Z -> Prop) v raw : (forall x b, P x b -> Q x b) -> value_raw P v raw -> value_raw Q v raw.
Proof.
  intros H. unfold value_raw. destruct (fixed_bytes v); [done|]. intros (data & Hd & [Hz|(Hne & x & Hx & ->)]); exists data; (split; [done|]).
  - by left.
  - right. split; [done|]. exists x. split; [by apply H|done].
Qed.

Lemma row_state_mono (P Q : Z -> list Z -> Prop) id written bytes :
  (forall x b, P x b -> Q x b) -> row_state P id written bytes -> row_state Q id written bytes.
Proof.
  intros H (Hs & H0 & H4 & Hb & Hv). split_and!; [done..|]. intros c p Hc Hp He. eapply value_raw_mono; [exact H|]. by apply Hv.
Qed.

Lemma value_raw_size P v raw w : value_raw P v raw -> column_width (WriterValue.property_type v) = Ok w -> is_external v = false -> size_z raw = w.
Proof.
  unfold value_raw. destruct (fixed_bytes v) as [bytes|] eqn:Hf.
  - intros -> Hw _. destruct v; try done; cbn in Hf, Hw; injection Hf as <-; injection Hw as <-; done.
  - intros (data & _ & Hr) Hw He. assert (size_z raw = 4) as -> by (destruct Hr as [[_ ->]|(_ & x & _ & ->)]; done).
    destruct v; try done; cbn in Hw; by injection Hw.
Qed.

(** Before any value. *)
Lemma start_row_ok P id bytes : start_row columns eb id = Ok bytes -> row_state P id [] bytes.
Proof.
  intros H. unfold start_row in H. pose proof ends_order as (H8 & H21 & Hbz & Hmax).
  pose proof (div_ceil_spec (size_z columns) 8 ltac:(lia)). pose proof (size_nonneg columns).
  rewrite (proj2 (Z.ltb_ge _ _)) in H by lia. set (b0 := write_u32 (node_id_0 id) ++ write_u32 1 ++ replicate (Z.to_nat eb - 8) 0) in H.
  destruct (tcl_row_id _ _ _ _ _ Ht) as (c0 & Hc0 & Hi0 & _). destruct (tcl_row_version _ _ _ _ _ Ht) as (c1 & Hc1 & Hi1 & _).
  assert (Hs0 : size_z b0 = eb) by (unfold b0, size_z; rewrite !length_app, length_replicate, !length_write_u32; lia).
  destruct (mark_column_ok c0 b0 Hc0 Hs0) as (b1 & Hm1 & Hs1 & Hk1 & Hb1). rewrite <- Hi0, Hm1 in H. cbn [rbind] in H.
  destruct (mark_column_ok c1 b1 Hc1 Hs1) as (b2 & Hm2 & Hs2 & Hk2 & Hb2). rewrite <- Hi1, Hm2 in H. injection H as <-.
  assert (Hfield : forall o w, 0 <= o -> 0 <= w -> o + w <= 8 -> field b2 o w = field b0 o w).
  { intros o w Ho Hw Hle. apply field_ext. intros i Hi. rewrite Hk2, Hk1 by lia. done. }
  split_and!; [done|by rewrite Hfield by lia|by rewrite Hfield by lia| |by intros c p _ Hp%elem_of_nil].
  intros c Hc. cbn [existsb]. rewrite orb_false_r, Hb2, Hb1 by done. rewrite Hi0, Hi1. unfold is_reserved.
  assert (Hz : column_bit info b0 (tcd_existence_bitmap_index c) = false).
  { unfold column_bit. cbn [table_info tci_end_1byte_values]. rewrite nth_lookup. pose proof (bit_place c Hc) as Hp.
    set (n := Z.to_nat (e1 + tcd_existence_bitmap_index c / 8)). assert (b0 !! n = Some 0) as ->; [|apply Z.bits_0].
    unfold b0. rewrite app_assoc, lookup_app_r by (rewrite length_app, !length_write_u32; lia).
    apply lookup_replicate. rewrite length_app, !length_write_u32. unfold size_z in *. split; [done|lia]. }
  rewrite Hz, orb_false_r. apply orb_comm.
Qed.

Lemma existsb_snoc {A} (g : A -> bool) l a : existsb g (l ++ [a]) = g a || existsb g l.
Proof. rewrite existsb_app. cbn [existsb]. rewrite orb_false_r. apply orb_comm. Qed.

(** Two columns are in different bytes. *)
Lemma columns_apart c d : c ∈ columns -> d ∈ columns -> c <> d -> column_lt c d \/ column_lt d c.
Proof.
  intros [i Hi]%list_elem_of_lookup [j Hj]%list_elem_of_lookup Hne. apply (tcl_disjoint _ _ _ _ _ Ht i j); [done..|].
  intros ->. congruence.
Qed.

(** The columns of the row, when its ids are not those of [c]. *)
Lemma reserved_apart c : c ∈ columns -> is_reserved (tcd_prop_id c) = false -> 8 <= tcd_offset c.
Proof.
  intros Hc Hr. destruct (table_column _ _ _ _ _ Ht c Hc) as (_ & Hw & H4 & H2 & H1 & _). pose proof ends_order.
  destruct (column_type_cases _ _ Hw) as [[Hk Hz]|[[Hk Hz]|(Hn & _ & Hz)]].
  - destruct (H2 Hk). lia.
  - destruct (H1 Hk). lia.
  - destruct (H4 Hn) as (_ & _ & _ & [?|?]); [done|congruence].
Qed.

(** One more value. *)
Lemma set_value P id written row c p raw row1 row2 :
  row_state P id written row -> c ∈ columns -> tcd_prop_id c = p.1 -> is_reserved p.1 = false -> p.1 ∉ map fst written ->
  size_z raw = tcd_size c -> value_raw P p.2 raw ->
  write_row_bytes row (tcd_offset c) raw = Ok row1 -> mark_column row1 columns p.1 = Ok row2 ->
  row_state P id (written ++ [p]) row2.
Proof.
  intros (Hs & H0 & H4 & Hb & Hv) Hc Hid Hr Hnew Hsz Hraw Hw Hm. pose proof (column_within c Hc) as (Ho & Hpos & Hend).
  destruct (write_row_bytes_ok _ _ _ _ Ho Hw) as (Hs1 & _ & Hf1 & Hk1).
  destruct (mark_column_ok c row1 Hc ltac:(lia)) as (r & Hm' & Hs2 & Hk2 & Hb2). rewrite Hid, Hm in Hm'. injection Hm' as <-.
  assert (Hin : forall o w, 0 <= o -> 0 <= w -> o + w <= e1 -> o + w <= tcd_offset c \/ tcd_offset c + tcd_size c <= o -> field row2 o w = field row o w).
  { intros o w Ho' Hw' Hle Hd. apply field_ext. intros i Hi. rewrite Hk2, Hk1 by (unfold size_z in *; lia). done. }
  pose proof (reserved_apart c Hc ltac:(by rewrite Hid)) as H8. pose proof ends_order. split_and!; [done| | | |].
  - rewrite Hin by lia. done.
  - rewrite Hin by lia. done.
  - intros d Hd. rewrite Hb2, existsb_snoc by done.
    assert (Hsame : column_bit info row1 (tcd_existence_bitmap_index d) = column_bit info row (tcd_existence_bitmap_index d)).
    { unfold column_bit. cbn [table_info tci_end_1byte_values]. rewrite !nth_lookup. pose proof (bit_place d Hd).
      rewrite Hk1 by (unfold size_z in *; lia). done. }
    rewrite Hsame, Hb by done. rewrite Hid, (Z.eqb_sym (tcd_prop_id d)), !orb_assoc. f_equal. apply orb_comm.
  - intros d q Hd Hq He. apply elem_of_app in Hq as [Hq|Hq%list_elem_of_singleton].
    + assert (Hne : c <> d).
      { intros ->. apply Hnew. rewrite <- Hid, <- He. apply list_elem_of_fmap. by exists q. }
      destruct (column_within d Hd) as (? & ? & ?). destruct (columns_apart c d Hc Hd Hne) as [Hl|Hl]; unfold column_lt in Hl;
        rewrite Hin by lia; by apply Hv.
    + subst q. rewrite (id_inj d c Hd Hc) by congruence.
      assert (Hfin : field row2 (tcd_offset c) (tcd_size c) = field row1 (tcd_offset c) (tcd_size c))
        by (apply field_ext; intros i Hi; apply Hk2; lia).
      rewrite Hfin, <- Hsz, Hf1. done.
Qed.

(** ** The values of a row *)

Section loop.
Context {St : Type} (place : list Z -> W St Z) (inv : St -> Prop) (holds : St -> Z -> list Z -> Prop).
Context (Hplace : forall s data x s', inv s -> data <> [] -> size_z data <= MAX_PST_PROPERTY_BYTES ->
  place data s = (Ok x, s') -> inv s' /\ holds s' x data /\ forall x' b, holds s x' b -> holds s' x' b).

(** What a step keeps. *)
Definition kept (s s' : St) : Prop := inv s' /\ forall x b, holds s x b -> holds s' x b.

Lemma variable_data_ok v data : variable_data v = Ok data -> variable_bytes v = Ok (Some data).
Proof.
  unfold variable_data. rewrite table_variable_bytes_eq. destruct (variable_bytes v) as [[b|]|e|]; cbn; [|done..]. by intros [= ->].
Qed.

Lemma write_cell_cases row offset v s r1 s1 :
  write_cell place row offset v s = (Ok r1, s1) -> is_external v = false ->
  (exists bytes, fixed_bytes v = Some bytes /\ write_row_bytes row offset bytes = Ok r1 /\ s1 = s) \/
  (fixed_bytes v = None /\ exists data, variable_data v = Ok data /\
    (if is_empty data then w_lift (write_row_bytes row offset (write_u32 0)) else
     w_bind (place data) (fun x => w_lift (write_row_bytes row offset (write_u32 x)))) s = (Ok r1, s1)).
Proof using.
  intros H Hx. destruct v; try discriminate Hx; cbn [write_cell fixed_bytes] in H;
    first [apply w_lift_ok in H as [H <-]; left; eexists; split; [reflexivity|by split]
          |apply w_lift_run in H as (data & Hd & H); right; split; [reflexivity|exists data; by split]].
Qed.

Lemma write_value_ok id written row p s row' s' :
  inv s -> row_state (holds s) id written row -> table_value_ok p -> p.1 ∉ map fst written ->
  write_value place columns row p s = (Ok row', s') ->
  is_reserved p.1 = false /\ kept s s' /\ row_state (holds s') id (written ++ [p]) row'.
Proof.
  intros Hi Hrow ((c & Hc & Hid & Hty) & Hok & Hx & Hmax) Hnew H. destruct p as [pid v]. cbn [fst snd] in *. unfold write_value in H.
  destruct (is_reserved pid) eqn:Hr; [by apply w_lift_ok in H as [[=] _]|]. rewrite <- Hid, (find_column_ok c Hc) in H.
  apply w_lift_run in H as (c' & [= <-] & H). apply w_bind_ok in H as (r1 & s1 & H1 & [Hm <-]%w_lift_ok).
  rewrite Hid in Hm. split; [done|]. destruct (table_column _ _ _ _ _ Ht c Hc) as (_ & Hw & _). rewrite Hty in Hw.
  assert (Hset : forall raw, (forall x b, holds s x b -> holds s1 x b) -> value_raw (holds s1) v raw ->
    write_row_bytes row (tcd_offset c) raw = Ok r1 -> row_state (holds s1) id (written ++ [(pid, v)]) row').
  { intros raw Hmono Hraw Hwr. eapply set_value; [by eapply row_state_mono|exact Hc|exact Hid|exact Hr|exact Hnew| |exact Hraw|exact Hwr|exact Hm].
    by eapply value_raw_size. }
  apply write_cell_cases in H1 as [(bytes & Hf & Hwr & ->)|(Hf & data & Hd%variable_data_ok & H1)]; [| |done].
  - split; [by split|]. apply (Hset bytes); [auto| |exact Hwr]. unfold value_raw. by rewrite Hf.
  - destruct data as [|b data]; cbn [is_empty] in H1.
    + apply w_lift_ok in H1 as [Hwr <-]. split; [by split|]. apply (Hset (write_u32 0)); [auto| |exact Hwr].
      unfold value_raw. rewrite Hf. exists []. split; [done|]. by left.
    + apply w_bind_ok in H1 as (x & s2 & Hp & [Hwr <-]%w_lift_ok).
      destruct (Hplace s (b :: data) x s2 Hi ltac:(done) (Hmax _ Hd) Hp) as (Hi' & Hh & Hmono). split; [by split|].
      apply (Hset (write_u32 x)); [exact Hmono| |exact Hwr]. unfold value_raw. rewrite Hf. exists (b :: data). split; [done|]. right. split; [done|]. by exists x.
Qed.

Lemma write_values_ok id values : forall written row s row' s',
  inv s -> row_state (holds s) id written row -> Forall table_value_ok values -> NoDup (map fst (written ++ values)) ->
  write_values place columns row values s = (Ok row', s') ->
  Forall (fun p => is_reserved p.1 = false) values /\ kept s s' /\ row_state (holds s') id (written ++ values) row'.
Proof.
  induction values as [|p values IH]; intros written row s row' s' Hi Hrow Hok Hnd H; cbn [write_values] in H.
  { injection H as <- <-. rewrite app_nil_r. split_and!; [constructor|by split|done]. }
  apply Forall_cons in Hok as [Hp Hok]. apply w_bind_ok in H as (r1 & s1 & H1 & H).
  assert (Hnew : p.1 ∉ map fst written).
  { rewrite map_app in Hnd. apply NoDup_app in Hnd as (_ & Hd & _). intros Hin. apply (Hd _ Hin). by left. }
  destruct (write_value_ok id written row p s r1 s1 Hi Hrow Hp Hnew H1) as (Hr & [Hi1 Hm1] & Hrow1).
  destruct (IH (written ++ [p]) r1 s1 row' s' Hi1 Hrow1 Hok) as (Hrs & [Hi2 Hm2] & Hrow2); [by rewrite <- app_assoc|done|].
  rewrite <- app_assoc in Hrow2. split_and!; [by constructor|split; [done|eauto]|done].
Qed.

Definition row_spec_ok (r : TableRowSpec) : Prop :=
  uint 32 (node_id_0 (trs_id r)) /\ Forall table_value_ok (trs_values r) /\ NoDup (map fst (trs_values r)).

(** The bytes of a row of the table. *)
Definition row_written (P : Z -> list Z -> Prop) (r : TableRowSpec) (bytes : list Z) : Prop :=
  row_state P (trs_id r) (trs_values r) bytes /\ Forall (fun p => is_reserved p.1 = false) (trs_values r).

Lemma row_written_mono (P Q : Z -> list Z -> Prop) r bytes : (forall x b, P x b -> Q x b) -> row_written P r bytes -> row_written Q r bytes.
Proof using Ht row_index rows. intros H [Hs Hr]. split; [by eapply row_state_mono|done]. Qed.

Lemma table_row_ok r s bytes s' :
  inv s -> row_spec_ok r -> table_row place columns eb r s = (Ok bytes, s') ->
  kept s s' /\ row_written (holds s') r bytes.
Proof.
  intros Hi (Hu & Hok & Hnd) H. unfold table_row in H. apply w_lift_run in H as (b0 & H0 & H).
  apply (start_row_ok (holds s)) in H0. destruct (write_values_ok _ _ [] _ _ _ _ Hi H0 Hok Hnd H) as (Hr & Hk & Hs). by split; [|split].
Qed.

(** The rows, one after the other. *)
Lemma table_rows_ok {A B} (f : A -> W St B) (spec : A -> TableRowSpec) (bytes_of : B -> list Z) (P : A -> B -> Prop)
  (Hf : forall a s b s', inv s -> row_spec_ok (spec a) -> f a s = (Ok b, s') ->
    kept s s' /\ row_written (holds s') (spec a) (bytes_of b) /\ P a b) l :
  forall s bs s', inv s -> Forall (fun a => row_spec_ok (spec a)) l -> w_map f l s = (Ok bs, s') ->
  kept s s' /\ Forall2 (fun a b => row_written (holds s') (spec a) (bytes_of b) /\ P a b) l bs.
Proof.
  induction l as [|a l IH]; intros s bs s' Hi Hok H; cbn [w_map] in H.
  { injection H as <- <-. split; [by split|constructor]. }
  apply Forall_cons in Hok as [Ha Hok]. apply w_bind_ok in H as (b & s1 & H1 & H). apply w_bind_ok in H as (bs' & s2 & H2 & H).
  injection H as <- <-. destruct (Hf a s b s1 Hi Ha H1) as ([Hi1 Hm1] & Hr & HP). destruct (IH s1 bs' s2 Hi1 Hok H2) as [[Hi2 Hm2] Hrs].
  split; [split; [done|eauto]|]. constructor; [|done]. split; [by eapply row_written_mono|done].
Qed.
End loop.
End row.

(** ** Reading a row *)

Lemma fixed_cell v raw :
  writer_value_ok v -> fixed_bytes v = Some raw ->
  cell (WriterValue.property_type v) raw = Ok (Some (ColumnSmall (value_of v))).
Proof.
  intros Hv Hf. destruct v as [x|x|x|x|x|x|x|x|b|x|x|x|x|x|x|x|x|x|x|n z|k n]; try done; cbn in Hf, Hv; injection Hf as <-;
    cbn [WriterValue.property_type cell value_of];
    try (unfold write_u16, write_u32, write_u64; rewrite le_val_bytes by (apply wrap_uint; lia); by rewrite signed_wrap by (lia || done));
    try (unfold write_u32, write_u64; by rewrite le_val_bytes by done).
  by destruct b.
Qed.

(** Where the reader finds the bytes of a value, by the 32 bits of its row. *)
Definition found {B} (heap : HeapNodeInner B) (nodes : NodeId -> list Z -> Prop) (x : Z) (data : list Z) : Prop :=
  uint 32 x /\
  match NodeId.id_type (mk_NodeId x) with
  | Ok HeapNode => HeapNodeInner.find_entry heap (HeapId.from_u32 x) = Ok data
  | _ => nodes (mk_NodeId x) data
  end.

Definition value_found {B} (heap : HeapNodeInner B) (nodes : NodeId -> list Z -> Prop) (value : TableRowColumnValue) (data : list Z) : Prop :=
  match value with
  | ColumnSmall _ => False
  | ColumnHeap h => HeapNodeInner.find_entry heap h = Ok data
  | ColumnNode n => nodes n data
  end.

(** What the reader makes of a variable value. *)
Definition variable_reads {B} (heap : HeapNodeInner B) (nodes : NodeId -> list Z -> Prop) (v : WriterValue.t) (x : option TableRowColumnValue) : Prop :=
  exists data value, variable_bytes v = Ok (Some data) /\ x = Some value /\
    decode (WriterValue.property_type v) data = Ok (value_of v) /\
    (data = [] -> value = ColumnHeap (HeapId.from_u32 0)) /\ (data <> [] -> value_found heap nodes value data).

(** What the reader has for a column of a row. *)
Definition column_reads {B} (heap : HeapNodeInner B) (nodes : NodeId -> list Z -> Prop) (r : TableRowSpec)
    (c : TableColumnDescriptor) (x : option TableRowColumnValue) : Prop :=
  if tcd_prop_id c =? LTP_ROW_ID_PROP_ID
  then x = Some (ColumnSmall (PropertyValue.Integer32 (signed 32 (node_id_0 (trs_id r))))) else
  if tcd_prop_id c =? LTP_ROW_VERSION_PROP_ID then x = Some (ColumnSmall (PropertyValue.Integer32 1)) else
  match List.find (fun p => p.1 =? tcd_prop_id c) (trs_values r) with
  | None => x = None
  | Some (_, v) =>
      match fixed_bytes v with
      | Some _ => x = Some (ColumnSmall (value_of v))
      | None => variable_reads heap nodes v x
      end
  end.

Lemma rmapM_each {E A B} (f : A -> res E B) (Q : A -> B -> Prop) l :
  (forall a, a ∈ l -> exists b, f a = Ok b /\ Q a b) -> exists bs, rmapM f l = Ok bs /\ Forall2 Q l bs.
Proof.
  induction l as [|a l IH]; intros H; [by exists []|]. destruct (H a) as (b & Hb & Hq); [by left|].
  destruct IH as (bs & Hbs & Hf); [intros; apply H; by right|]. exists (b :: bs). cbn [rmapM]. rewrite Hb. cbn [rbind]. rewrite Hbs.
  split; [done|by constructor].
Qed.

Lemma existsb_find {A} (g : A -> bool) l : existsb g l = match List.find g l with Some _ => true | None => false end.
Proof. induction l as [|a l IH]; [done|]. cbn. by destruct (g a). Qed.

Lemma variable_cell {B} (heap : HeapNodeInner B) nodes v raw x :
  writer_value_ok v -> is_external v = false -> fixed_bytes v = None -> value_raw (found heap nodes) v raw ->
  cell (WriterValue.property_type v) raw = Ok x -> variable_reads heap nodes v x.
Proof.
  intros Hv Hx Hf Hraw Hc. unfold value_raw in Hraw. rewrite Hf in Hraw. destruct Hraw as (data & Hd & Hraw).
  assert (Hcell : forall y, uint 32 y -> raw = write_u32 y -> x = Some (match NodeId.id_type (mk_NodeId y) with
      | Ok HeapNode => ColumnHeap (HeapId.from_u32 y) | _ => ColumnNode (mk_NodeId y) end)).
  { intros y Hy ->. assert (Hle := le_val_write_u32 y Hy).
    destruct v; try discriminate Hf; try discriminate Hx; cbn [WriterValue.property_type cell] in Hc; rewrite Hle in Hc; by injection Hc as <-. }
  assert (Hdec : decode (WriterValue.property_type v) data = Ok (value_of v)) by (unfold decode; by rewrite (variable_bytes_read v data)).
  destruct Hraw as [[-> ->]|(Hne & y & [Hy Hp] & ->)].
  - exists [], (ColumnHeap (HeapId.from_u32 0)). rewrite (Hcell 0) by done. by split_and!.
  - eexists data, _. rewrite (Hcell y) by done. split_and!; [done|reflexivity|done|done|]. intros _.
    destruct (NodeId.id_type (mk_NodeId y)) as [[]|e|]; exact Hp.
Qed.

Section read_row.
Context (columns : list TableColumnDescriptor) (e4 e2 e1 eb : Z) (Ht : table_columns columns e4 e2 e1 eb).
Context (row_index : HeapId) (rows : option NodeId).
Context {B : Type} (heap : HeapNodeInner B) (nodes : NodeId -> list Z -> Prop).
Abbreviation info := (table_info columns e4 e2 e1 eb row_index rows).
Abbreviation written := (row_written columns e4 e2 e1 eb row_index rows (found heap nodes)).

Lemma table_info_laid_out : info_laid_out info /\ 8 <= tci_end_4byte_values info.
Proof using Ht.
  pose proof (columns_accepted _ _ _ _ _ Ht row_index rows) as H. apply info_new_ok in H as [_ Hl]. split; [done|].
  by destruct (tcl_ends _ _ _ _ _ Ht).
Qed.

(** A column of a row that was written. *)
Lemma column_read_back r bytes c :
  row_spec_ok columns r -> written r bytes -> c ∈ columns ->
  exists x, TableRowData.column (row_of info bytes) info c = Ok x /\ column_reads heap nodes r c x.
Proof using Ht.
  intros (Hu & Hok & Hnd) [(Hs & H0 & H4 & Hb & Hv) Hres] Hc. destruct table_info_laid_out as [Hl H8].
  rewrite (row_column info bytes Hl H8 ltac:(exact Hs) c) by (by apply column_in_table). rewrite Hb by done.
  destruct (table_column _ _ _ _ _ Ht c Hc) as (_ & _ & _ & _ & _ & Hr). pose proof (proj1 (Forall_forall _ _) (tcl_width _ _ _ _ _ Ht) c Hc) as Hw.
  unfold column_reads. unfold is_reserved in *.
  destruct (Z.eqb_spec (tcd_prop_id c) LTP_ROW_ID_PROP_ID) as [Hi|Hi]; cbn [orb] in *.
  { destruct (Hr eq_refl) as (Hty & Hz & _). destruct (Hz Hi) as [Ho _]. cbn beta in Hw. rewrite Hty in Hw. injection Hw as Hw.
    rewrite Hty, Ho, <- Hw, H0. cbn [cell]. rewrite le_val_write_u32 by done. by eexists. }
  destruct (Z.eqb_spec (tcd_prop_id c) LTP_ROW_VERSION_PROP_ID) as [Hver|Hver]; cbn [orb] in *.
  { destruct (Hr eq_refl) as (Hty & _ & Hz). destruct (Hz Hver) as [Ho _]. cbn beta in Hw. rewrite Hty in Hw. injection Hw as Hw.
    rewrite Hty, Ho, <- Hw, H4. by eexists. }
  rewrite existsb_find. destruct (List.find _ (trs_values r)) as [[pid v]|] eqn:Hf; [|by eexists].
  apply find_some in Hf as [Hin He%Z.eqb_eq]. apply list_elem_of_In in Hin. cbn [fst] in He.
  pose proof (Hv c (pid, v) Hc Hin He) as Hraw. cbn [snd] in Hraw.
  destruct (proj1 (Forall_forall _ _) Hok _ Hin) as ((d & Hd & Hdi & Hdt) & Hvo & Hx & _). cbn [fst snd] in *.
  rewrite (id_inj _ _ _ _ _ Ht row_index rows d c Hd Hc) in Hdt by congruence. rewrite Hdt.
  destruct (fixed_bytes v) as [fb|] eqn:Hfb.
  - unfold value_raw in Hraw. rewrite Hfb in Hraw. rewrite Hraw, (fixed_cell v fb) by done. by eexists.
  - assert (exists x, cell (WriterValue.property_type v) (field bytes (tcd_offset c) (tcd_size c)) = Ok x) as [x Hcell]
      by (destruct v; try discriminate Hfb; try discriminate Hx; by eexists).
    exists x. split; [done|]. by eapply variable_cell.
Qed.

(** All of them, and the id of the row. *)
Lemma row_read_back r bytes :
  row_spec_ok columns r -> written r bytes ->
  row_id (trd_id (row_of info bytes)) = node_id_0 (trs_id r) /\
  exists xs, TableRowData.columns (row_of info bytes) info = Ok xs /\ Forall2 (column_reads heap nodes r) columns xs.
Proof using Ht.
  intros Hok Hw. split.
  - destruct Hw as [(_ & H0 & _) _]. unfold row_of. cbn [trd_id row_id]. rewrite H0. apply le_val_write_u32, Hok.
  - unfold TableRowData.columns. cbn [tci_columns]. apply rmapM_each. intros c Hc. by apply column_read_back.
Qed.
End read_row.
