(* ===== verification/TableReadback.v ===== *)
(** * Reading the tables of the writer

    What the reader of file TableContext makes of the tables of file
    WriterTable: it finds the columns, exactly the rows by their ids, and
    reads every column of every row as the value it was built from, for a
    table in one page and for one over several blocks. And a table with more
    values than the heap ids of a page can number is refused. *)
From S2P Require Import Prelude Errors Io Ids Page BTree Order Block Lookup DataTree SubNode Heap HeapTree PropValue PropContext TableContext Alloc WriterBlocks WriterTree WriterHeap WriterBth WriterValues WriterContext WriterSchema WriterTable.
#[local] Open Scope Z_scope.

(** ** The index of the rows *)

#[export] Instance TableRowId_int : IntKey TableRowId.
Proof. refine {| ik_width := 4; ik_int := row_id; ik_key := mk_TableRowId |}; [done|done|by intros []]. Defined.

(** The id by which a row is found. *)
Definition spec_id (r : TableRowSpec) : TableRowId := mk_TableRowId (node_id_0 (trs_id r)).

Definition row_entry (a : nat * TableRowSpec) : HeapTreeLeafEntry TableRowId UnicodeTableRowIndex :=
  mk_HeapTreeLeafEntry (spec_id a.2) (mk_UnicodeTableRowIndex (Z.of_nat a.1)).

Definition index_entries (rows : list TableRowSpec) : list (HeapTreeLeafEntry TableRowId UnicodeTableRowIndex) :=
  map row_entry (imap pair (sort_rows rows)).

Lemma sort_rows_perm rows : sort_rows rows ≡ₚ rows.
Proof. apply (sort_by_perm (by_key (fun r => node_id_0 (trs_id r)) Z.compare)). Qed.

Lemma index_entry_in rows e :
  e ∈ index_entries rows <-> exists i r, sort_rows rows !! i = Some r /\ e = row_entry (i, r).
Proof.
  unfold index_entries. rewrite list_elem_of_fmap. split.
  - intros ([i r] & -> & (j & x & [= -> ->] & Hl)%elem_of_lookup_imap). eauto.
  - intros (i & r & Hl & ->). exists (i, r). split; [done|]. apply elem_of_lookup_imap. eauto.
Qed.

Lemma index_ids rows : map (fun e => row_id (htl_key e)) (index_entries rows) = map (fun r => node_id_0 (trs_id r)) (sort_rows rows).
Proof.
  unfold index_entries. rewrite map_map. change (map ?g ?l) with (g <$> l). rewrite fmap_imap.
  apply list_eq. intros i. rewrite list_lookup_imap, list_lookup_fmap. by destruct (sort_rows rows !! i).
Qed.

Lemma leaf_entry_ok i r bytes :
  leaf_entry i r = Ok bytes -> uint 32 (Z.of_nat i) /\ bytes = HeapTreeLeafEntry.write (row_entry (i, r)).
Proof.
  unfold leaf_entry. destruct (uint_b 32 (Z.of_nat i)) eqn:Hu; [|done]. apply uint_b_spec in Hu. cbn [fits ok_or rbind].
  by intros [= <-].
Qed.

Lemma leaf_entries_ok l bytes :
  rmapM (fun '(i, row) => leaf_entry i row) l = Ok bytes ->
  Forall (fun a => uint 32 (Z.of_nat a.1)) l /\ concat bytes = leaf_bytes (map row_entry l).
Proof.
  revert bytes. induction l as [|[i r] l IH]; intros bytes H; cbn [rmapM] in H.
  { injection H as <-. by split. }
  apply rbind_ok in H as (b & [Hu ->]%leaf_entry_ok & H). apply rbind_ok in H as (bs & Hbs & [= <-]).
  destruct (IH bs Hbs) as [Hf Hc]. split; [by constructor|]. unfold leaf_bytes in *. cbn [concat map]. by rewrite Hc.
Qed.

(** The entries of an index can be written. *)
Lemma index_entries_wf rows :
  Forall (fun r => uint 32 (node_id_0 (trs_id r))) rows -> size_z rows <= 2 ^ 32 ->
  Forall (fun e => ser_wf (htl_key e) /\ ser_wf (htl_data e)) (index_entries rows).
Proof.
  intros Hr Hn. apply Forall_forall. intros e (i & r & Hl & ->)%index_entry_in.
  pose proof (Permutation_length (sort_rows_perm rows)) as Hp. pose proof (lookup_lt_Some _ _ _ Hl).
  apply list_elem_of_lookup_2 in Hl. rewrite (sort_rows_perm rows) in Hl.
  split; [exact (proj1 (Forall_forall _ _) Hr r Hl)|]. unfold size_z in Hn. cbn. unfold uint. lia.
Qed.

(** ** The table as the reader has it *)

(** A row of the reader: its id and its columns. *)
Definition row_reads {B} (heap : HeapNodeInner B) (nodes : NodeId -> list Z -> Prop) (t : TableContextInfo)
    (r : TableRowSpec) (row : TableRowData) : Prop :=
  row_id (trd_id row) = node_id_0 (trs_id r) /\
  exists xs, TableRowData.columns row t = Ok xs /\ Forall2 (column_reads heap nodes r) (tci_columns t) xs.

Record table_in {B} (heap : HeapNodeInner B) (nodes : NodeId -> list Z -> Prop) (columns : list TableColumnDescriptor)
    (rows : list TableRowSpec) (t : TableContextInfo) (matrix : list TableRowData) : Prop := mk_table_in {
  ti_info : read_info heap = Ok t;
  ti_columns : tci_columns t = columns;
  ti_entries : HeapTreeInner.entries (mk_HeapTreeInner heap (tci_row_index t)) = Ok (index_entries rows);
  ti_rows : Forall2 (row_reads heap nodes t) (sort_rows rows) matrix
}.

(** What is built from such a table. *)
Definition table_of {B} (sub_node : option B) (heap : HeapNodeInner B) (rows : list TableRowSpec)
    (t : TableContextInfo) (matrix : list TableRowData) : TableContextInner B UnicodeTableRowIndex :=
  mk_TableContextInner sub_node t heap (collect_rows (index_entries rows)) matrix.

Definition ids_distinct (rows : list TableRowSpec) : Prop := NoDup (map (fun r => node_id_0 (trs_id r)) rows).

Lemma index_entries_nodup rows : ids_distinct rows -> NoDup (map (fun e => row_id (htl_key e)) (index_entries rows)).
Proof.
  intros H. rewrite index_ids. unfold ids_distinct in H. pose proof (sort_rows_perm rows) as Hp.
  eapply (fmap_Permutation (fun r => node_id_0 (trs_id r))) in Hp. by rewrite Hp.
Qed.

(** Exactly the rows are found, each by its id. *)
Lemma table_in_rows {B} (heap : HeapNodeInner B) nodes columns rows t matrix sub_node :
  table_in heap nodes columns rows t matrix -> ids_distinct rows ->
  let self := table_of sub_node heap rows t matrix in
  (forall id row, find_row self id = Ok row -> exists r, r ∈ rows /\ spec_id r = id) /\
  (forall r, r ∈ rows -> exists row, find_row self (spec_id r) = Ok row /\ row_reads heap nodes t r row).
Proof.
  intros [_ _ _ Hrows] Hids self. pose proof (index_entries_nodup rows Hids) as Hnd.
  assert (Hin : forall id v, tc_row_index self !! row_id id = Some v <-> mk_HeapTreeLeafEntry id v ∈ index_entries rows)
    by (intros id v; by apply collect_rows_lookup). unfold find_row. split.
  - intros id row H. destruct (tc_row_index self !! row_id id) as [v|] eqn:Hv; [|done].
    apply Hin, index_entry_in in Hv as (i & r & Hl & [= -> _]). exists r. split; [|done].
    apply list_elem_of_lookup_2 in Hl. by rewrite (sort_rows_perm rows) in Hl.
  - intros r Hr. rewrite <- (sort_rows_perm rows) in Hr. apply list_elem_of_lookup in Hr as [i Hl].
    destruct (Forall2_lookup_l _ _ _ _ _ Hrows Hl) as (row & Hm & Hread). exists row. split; [|done].
    assert (tc_row_index self !! row_id (spec_id r) = Some (mk_UnicodeTableRowIndex (Z.of_nat i))) as ->.
    { apply Hin, index_entry_in. by exists i, r. }
    cbn [ok_or rbind]. unfold indexed_row. change (tc_rows self) with matrix.
    change (tri_into_u32 (mk_UnicodeTableRowIndex (Z.of_nat i))) with (Z.of_nat i). rewrite Nat2Z.id, Hm.
    by rewrite (proj1 Hread), Z.eqb_refl.
Qed.

Section written.
Context (columns : list TableColumnDescriptor) (e4 e2 e1 eb : Z) (Ht : table_columns columns e4 e2 e1 eb).
Context (row_index : HeapId) (rows : option NodeId).
Context {B : Type} (heap : HeapNodeInner B) (nodes : NodeId -> list Z -> Prop).
Set Default Proof Using "Ht".
Abbreviation info := (table_info columns e4 e2 e1 eb row_index rows).

Lemma rows_read_back rs bss :
  Forall (row_spec_ok columns) rs ->
  Forall2 (row_written columns e4 e2 e1 eb row_index rows (found heap nodes)) rs bss ->
  Forall2 (row_reads heap nodes info) rs (map (row_of info) bss).
Proof.
  intros Hok H. induction H as [|r b rs bss Hw _ IH]; cbn [map]; [constructor|]. apply Forall_cons in Hok as [Hr Hok].
  constructor; [|by apply IH]. by eapply row_read_back.
Qed.

Lemma rows_written_size P rs bss :
  Forall2 (row_written columns e4 e2 e1 eb row_index rows P) rs bss ->
  Forall (fun bytes => Z.of_nat (length bytes) = tci_end_existence_bitmap info) bss.
Proof using. induction 1 as [|r b rs bss [(Hs & _) _] _ IH]; constructor; [exact Hs|done]. Qed.

(** The description, as it is written and read. *)
Lemma info_bytes_ok bytes :
  Forall (fun c => uint 16 (tcd_prop_id c)) columns -> ser_wf row_index ->
  (forall n, rows = Some n -> uint 32 (node_id_0 n) /\ node_id_0 n <> 0) ->
  info_bytes (e4, e2, e1, eb) row_index rows columns = Ok bytes ->
  TableContextInfo.read bytes = Ok (info, []).
Proof.
  intros Hids Hr Hn H. unfold info_bytes in H. rewrite (columns_accepted _ _ _ _ _ Ht) in H. cbn [structure_ltp rmap_err rbind] in H.
  destruct (table_info_laid_out columns e4 e2 e1 eb Ht row_index rows) as [Hl H8].
  destruct (info_read_write info [] Hl) as (bs & Hw & Hread); [|rewrite Hw in H; injection H as <-; by rewrite app_nil_r in Hread].
  destruct (ends_order columns e4 e2 e1 eb Ht row_index rows) as (? & ? & ? & ?). pose proof (lo_count _ Hl) as Hc. cbn [table_info tci_columns] in Hc.
  pose proof (div_ceil_spec (size_z columns) 8 ltac:(lia)). pose proof (size_nonneg columns).
  unfold info_wf. cbn [table_info tci_end_4byte_values tci_end_2byte_values tci_end_1byte_values tci_end_existence_bitmap
    tci_row_index tci_rows tci_deprecated_index tci_columns]. unfold uint. split_and!; try lia; try done.
  apply Forall_forall. intros c Hc'. destruct (table_column _ _ _ _ _ Ht c Hc') as (Hb & Hw & _).
  destruct (column_within columns e4 e2 e1 eb Ht row_index rows c Hc') as (? & ? & ?).
  pose proof (proj1 (Forall_forall _ _) Hids c Hc') as Hid. cbn beta in Hid.
  pose proof (proj1 (Forall_forall _ _) (tcl_width _ _ _ _ _ Ht) c Hc') as Hwd. cbn beta in Hwd.
  assert (tcd_size c <= 8) by (destruct (tcd_prop_type c); cbn in Hwd; try discriminate Hwd; apply ok_inj in Hwd; lia).
  split_and!; [exact Hid|unfold uint; lia..].
Qed.
End written.

(** ** The heap of a table *)

Section heap.
Context {B : Type} (heap : HeapNodeInner B) (root : list (list Z)) (others : list (list (list Z))).
Context (Hpages : each_page (page_built HN_Table) (root :: others) (map db_data (hn_data heap))).
Set Default Proof Using "Hpages".

(** An allocation of the first page. *)
Lemma root_find j a : (j < 2047)%nat -> root !! j = Some a ->
  HeapNodeInner.find_entry heap (HeapId.from_u32 (32 * (Z.of_nat j + 1))) = Ok a.
Proof.
  intros Hj Ha. destruct (heap_id_new (Z.of_nat j + 1) 0) as (h & _ & Hv & Hwf & Hb & Hi); [unfold uint; lia|done|].
  assert (HeapId.from_u32 (32 * (Z.of_nat j + 1)) = h) as ->.
  { replace (32 * (Z.of_nat j + 1)) with (HeapId.into_u32 h) by lia. by destruct h as [[x]]. }
  apply (built_find heap HN_Table (root :: others) h 0 j root); try done.
  rewrite Hi, (proj2 (Z.ltb_ge _ _)) by lia. f_equal. lia.
Qed.

Lemma table_header_read : exists header, HeapNodeInner.header heap = Ok header /\ hnh_user_root header = HeapId.from_u32 0x20.
Proof.
  destruct Hpages as [Hl Hp]. rewrite length_map in Hl. destruct (hn_data heap) as [|data rest] eqn:Hd; [done|].
  destruct (Hp 0%nat root (db_data data)) as (h & pads & pad & Hs & Hk); [done|done|].
  destruct (shaped_read_header HN_Table heap data rest h _ pad Hd Hs Hk) as (header & Hh & _ & Hr). by exists header.
Qed.

Lemma table_info_read table t :
  root !! 0%nat = Some table -> TableContextInfo.read table = Ok (t, []) -> read_info heap = Ok t.
Proof.
  intros H0 Hr. destruct table_header_read as (header & Hh & Hu). unfold read_info. rewrite Hh. cbn [rbind]. rewrite Hu.
  rewrite (root_find 0 table ltac:(lia) H0 : HeapNodeInner.find_entry heap (HeapId.from_u32 0x20) = _). cbn [rbind]. by rewrite Hr.
Qed.

Lemma index_header_read levels tree_root index :
  root !! 1%nat = Some index -> index_header_bytes levels tree_root = Ok index -> uint 8 levels -> ser_wf tree_root ->
  HeapTreeInner.header (mk_HeapTreeInner heap (HeapId.from_u32 0x40)) = Ok (mk_HeapTreeHeader 4 4 levels tree_root).
Proof.
  intros H1 Hh Hl Hr. assert (H4 : 4 ∈ [2; 4; 8; 16]) by set_solver.
  unfold index_header_bytes in Hh. rewrite HeapTreeHeader_new_ok in Hh by (done || lia).
  cbn [structure_ltp rmap_err rbind] in Hh. apply ok_inj in Hh. subst index.
  unfold HeapTreeInner.header. cbn [ht_heap ht_user_root].
  rewrite (root_find 1 _ ltac:(lia) H1 : HeapNodeInner.find_entry heap (HeapId.from_u32 0x40) = _). cbn [rbind].
  rewrite <- (app_nil_r (HeapTreeHeader.write _)), HeapTreeHeader_read_write by (done || lia). done.
Qed.

(** The index of a table without rows, and of one with rows. *)
Lemma no_entries_read index :
  root !! 1%nat = Some index -> index_header_bytes 0 (HeapId.from_u32 0) = Ok index ->
  HeapTreeInner.entries (mk_HeapTreeInner heap (HeapId.from_u32 0x40)) = Ok (index_entries []).
Proof.
  intros H1 Hh. unfold HeapTreeInner.entries.
  by rewrite (index_header_read 0 (HeapId.from_u32 0) index H1 Hh ltac:(done) ltac:(by split)).
Qed.

Lemma entries_read levels tree_root index rows :
  root !! 1%nat = Some index -> index_header_bytes levels tree_root = Ok index -> uint 8 levels -> ser_wf tree_root ->
  HeapId.into_u32 tree_root <> 0 ->
  held_tree (fun id b => HeapNodeInner.find_entry heap id = Ok b) (Z.to_nat levels) [tree_root] (index_entries rows) ->
  Forall (fun r => uint 32 (node_id_0 (trs_id r))) rows -> size_z rows <= 2 ^ 32 ->
  HeapTreeInner.entries (mk_HeapTreeInner heap (HeapId.from_u32 0x40)) = Ok (index_entries rows).
Proof.
  intros H1 Hh Hl Hr Hnz Hheld Hids Hn.
  eapply (entries_bth row_id_empty); [apply Nat.lt_0_succ|by eapply index_header_read|exact Hnz| |by apply index_entries_wf].
  by apply held_tree_bth.
Qed.
End heap.
Set Default Proof Using "Type".

(** ** A table in one page *)

(** The values follow the description, the header of the index, its entries
    and the matrix. *)
Definition variable_holds (variables : list (list Z)) (x : Z) (data : list Z) : Prop :=
  exists k, variables !! k = Some data /\ (4 + k < 2047)%nat /\ x = 32 * (Z.of_nat (4 + k) + 1).

Definition variables_inv (variables : list (list Z)) : Prop :=
  size_z variables <= 2043 /\ Forall (fun a => size_z a <= MAX_PST_PROPERTY_BYTES) variables.

Lemma place_variable_ok variables data x variables' :
  variables_inv variables -> size_z data <= MAX_PST_PROPERTY_BYTES -> place_variable data variables = (Ok x, variables') ->
  variables_inv variables' /\ variable_holds variables' x data /\
  forall x' b, variable_holds variables x' b -> variable_holds variables' x' b.
Proof.
  intros [Hn Hs] Hd H. unfold place_variable in H. pose proof (size_nonneg variables). rewrite size_snoc in H.
  unfold checked_add in H. rewrite (proj2 (Z.ltb_lt _ _)) in H by lia. cbn [fits ok_or rbind] in H.
  assert (Hu : uint 16 (4 + (size_z variables + 1))) by (unfold uint; lia).
  unfold to_u16 in H. rewrite (proj2 (uint_b_spec 16 _) Hu) in H. cbn [rbind] in H.
  destruct (HeapId.new _ _) as [h|e|] eqn:Hid in H; [|done..]. cbn [structure_ltp rmap_err rbind] in H. injection H as <- <-.
  pose proof (heap_id_new_index _ _ _ Hu Hid) as Hlt.
  destruct (heap_id_new (4 + (size_z variables + 1)) 0) as (h' & Hh & Hv & _); [unfold uint; lia|done|].
  rewrite Hid in Hh. injection Hh as <-. unfold size_z in *. split_and!.
  - split; [unfold size_z; rewrite length_app; cbn [length]; lia|]. apply Forall_app. by split; [|constructor].
  - exists (length variables). split_and!; [by apply list_lookup_middle|lia|]. rewrite Hv. lia.
  - intros x' b (k & Hk & Hr). exists k. split; [|done]. by apply lookup_app_l_Some.
Qed.

Lemma variable_found {B} (heap : HeapNodeInner B) nodes table index leaf matrix variables x data :
  each_page (page_built HN_Table) [[table; index; leaf; matrix] ++ variables] (map db_data (hn_data heap)) ->
  variable_holds variables x data -> found heap nodes x data.
Proof.
  intros Hp (k & Hk & Hlt & ->).
  assert (Ha : ([table; index; leaf; matrix] ++ variables) !! (4 + k)%nat = Some data) by done.
  pose proof (root_find heap _ [] Hp (4 + k) data Hlt Ha) as Hf.
  destruct (heap_id_new (Z.of_nat (4 + k) + 1) 0) as (h & _ & Hv & [Hu Ht] & _); [unfold uint; lia|done|].
  rewrite Z.mul_0_l, Z.add_0_l, Z.mul_comm in Hv. rewrite <- Hv in *. split; [done|].
  assert (NodeId.id_type (mk_NodeId (HeapId.into_u32 h)) = Ok HeapNode) as -> by (destruct h as [[x]]; exact Ht). exact Hf.
Qed.

Lemma size_info_bytes layout row_index rows columns bytes :
  info_bytes layout row_index rows columns = Ok bytes -> size_z bytes <= 22 + 8 * 255.
Proof.
  destruct layout as [[[e4 e2] e1] eb]. unfold info_bytes. intros (t & Hn & Hw)%rbind_ok.
  destruct (TableContextInfo.new _ _ _ _ _ _ _) as [t'|e|] eqn:Hnew in Hn; [|done..]. injection Hn as <-.
  apply info_new_ok in Hnew as [-> Hl]. pose proof (lo_count _ Hl) as Hc. cbn [tci_columns] in Hc.
  unfold TableContextInfo.write in Hw. cbn [tci_columns] in Hw. rewrite (proj2 (Z.ltb_ge _ _)) in Hw by lia.
  cbn [wio rmap_err] in Hw. apply ok_inj in Hw as <-. unfold size_z.
  pose proof (length_concat_map TableColumnDescriptor.write 8 columns (fun _ => eq_refl)) as Hm.
  rewrite !length_app, Hm. cbn [length]. unfold HeapId.write, NodeId.write. rewrite ?length_write_u16, ?length_write_u32, ?length_write_u8. lia.
Qed.

(** The rows of a table and the variable values placed for them. *)
Lemma inline_rows_ok columns e4 e2 e1 eb row_index matrix rows bss variables :
  table_columns columns e4 e2 e1 eb -> Forall (row_spec_ok columns) rows ->
  w_map (table_row place_variable columns eb) rows [] = (Ok bss, variables) ->
  variables_inv variables /\
  Forall2 (row_written columns e4 e2 e1 eb row_index matrix (variable_holds variables)) rows bss.
Proof.
  intros Ht Hok H. assert (Hi0 : variables_inv []) by (split; [done|constructor]).
  assert (Hplace : forall s data x s', variables_inv s -> data <> [] -> size_z data <= MAX_PST_PROPERTY_BYTES ->
    place_variable data s = (Ok x, s') ->
    variables_inv s' /\ variable_holds s' x data /\ forall x' b, variable_holds s x' b -> variable_holds s' x' b)
    by (intros s data x s' Hi _ Hd Hp; by apply place_variable_ok).
  destruct (table_rows_ok columns e4 e2 e1 eb Ht row_index matrix place_variable variables_inv variable_holds Hplace
    (table_row place_variable columns eb) id id (fun _ _ => True)) with (l := rows) (s := [] : list (list Z)) (bs := bss) (s' := variables)
    as ([Hi _] & Hf); [|done..|].
  - intros r s b s' Hs Hr Hb. destruct (table_row_ok columns e4 e2 e1 eb Ht row_index matrix place_variable variables_inv
      variable_holds Hplace r s b s' Hs Hr Hb) as [? ?]. done.
  - split; [done|]. eapply Forall2_impl; [exact Hf|]. by intros r b [? _].
Qed.

(** The total of what is placed is far from overflow. *)
Lemma inline_addressable (table index : list Z) (rows : list TableRowSpec) (bss variables : list (list Z)) eb :
  size_z table <= 22 + 8 * 255 -> size_z index <= 8 -> size_z rows <= 2 ^ 32 -> length bss = length rows ->
  Forall (fun b => size_z b = eb) bss -> eb < 2 ^ 16 -> variables_inv variables ->
  addressable ([table; index; leaf_bytes (index_entries rows); concat bss] ++ variables).
Proof.
  intros Htb Hix Hn Hl Hb He [Hv Hs]. unfold addressable.
  assert (Hleaf : size_z (leaf_bytes (index_entries rows)) = 8 * size_z rows).
  { unfold leaf_bytes, size_z. rewrite (length_concat_map _ 8) by done. unfold index_entries.
    rewrite length_map, length_imap, (Permutation_length (sort_rows_perm rows)). lia. }
  assert (Hm : size_z (concat bss) <= 2 ^ 16 * size_z rows).
  { transitivity (2 ^ 16 * size_z bss); [|unfold size_z; rewrite Hl; lia]. apply size_concat_bound.
    eapply Forall_impl; [exact Hb|]. intros b. cbn. lia. }
  assert (Hvs : size_z (concat variables) <= 2 ^ 31 * size_z variables).
  { apply size_concat_bound. eapply Forall_impl; [exact Hs|]. intros a. unfold MAX_PST_PROPERTY_BYTES. cbn. lia. }
  rewrite !size_app. cbn [app concat]. rewrite !size_app. change (size_z [table; index; leaf_bytes (index_entries rows); concat bss]) with 4.
  pose proof (size_nonneg variables). lia.
Qed.

Lemma sorted_rows_all (P : TableRowSpec -> Prop) rows : Forall P rows -> Forall P (sort_rows rows).
Proof. intros H. eapply Permutation_Forall; [symmetry; apply sort_rows_perm|done]. Qed.

Lemma sort_rows_empty rows : is_empty (sort_rows rows) = is_empty rows.
Proof.
  pose proof (Permutation_length (sort_rows_perm rows)) as H. by destruct (sort_rows rows), rows.
Qed.

Lemma imap_numbers (rows : list TableRowSpec) :
  Forall (fun a : nat * TableRowSpec => uint 32 (Z.of_nat a.1)) (imap pair rows) -> size_z rows <= 2 ^ 32.
Proof.
  intros H. destruct (Nat.eq_dec (length rows) 0%nat) as [E|E]; [unfold size_z; lia|].
  destruct (lookup_lt_is_Some_2 rows (length rows - 1)%nat) as [r Hr]; [lia|].
  assert (Hin : ((length rows - 1)%nat, r) ∈ imap pair rows) by (apply elem_of_lookup_imap; by exists (length rows - 1)%nat, r).
  pose proof (proj1 (Forall_forall _ _) H _ Hin) as Hu. cbn [fst] in Hu. unfold uint in Hu. unfold size_z. lia.
Qed.

Abbreviation matrix_id := (mk_NodeId 0x80).

(** What a page with rows is built from. *)
Lemma table_context_parts columns e4 e2 e1 eb rows page :
  table_columns columns e4 e2 e1 eb -> row_layout columns = Ok (e4, e2, e1, eb) -> Forall (row_spec_ok columns) rows ->
  rows <> [] -> table_context columns rows = Ok page ->
  exists table index bss variables,
    info_bytes (e4, e2, e1, eb) (HeapId.from_u32 0x40) (Some matrix_id) columns = Ok table /\
    index_header_bytes 0 (HeapId.from_u32 0x60) = Ok index /\ size_z rows <= 2 ^ 32 /\
    Forall2 (row_written columns e4 e2 e1 eb (HeapId.from_u32 0x40) (Some matrix_id) (variable_holds variables)) (sort_rows rows) bss /\
    page_built HN_Table 0 ([table; index; leaf_bytes (index_entries rows); concat bss] ++ variables) page.
Proof.
  intros Ht Hlay Hok Hne H. unfold table_context in H. rewrite Hlay, sort_rows_empty in H. cbn [rbind] in H.
  change (HeapId.new 2 0) with (Ok (E := LtpError) (HeapId.from_u32 0x40)) in H.
  change (HeapId.new 3 0) with (Ok (E := LtpError) (HeapId.from_u32 0x60)) in H.
  change (HeapId.new 4 0) with (Ok (E := LtpError) (HeapId.from_u32 0x80)) in H.
  assert (is_empty rows = false) as Hem by (by destruct rows). rewrite Hem in H. cbn [structure_ltp rmap_err rbind snd] in H.
  change (mk_NodeId (HeapId.into_u32 (HeapId.from_u32 0x80))) with matrix_id in H.
  apply rbind_ok in H as (table & Htb & H). apply rbind_ok in H as (index & Hix & H). apply rbind_ok in H as (leaf & Hleaf & H).
  apply leaf_entries_ok in Hleaf as [Hu Hleaf]. apply imap_numbers in Hu.
  assert (Hn : size_z rows <= 2 ^ 32) by (unfold size_z in *; by rewrite (Permutation_length (sort_rows_perm rows)) in Hu).
  rewrite Hleaf in H. fold (index_entries rows) in H.
  destruct (w_map _ _ _) as [[bss|e|] variables] eqn:Hw; [|done..]. cbn [rbind] in H.
  destruct (inline_rows_ok columns e4 e2 e1 eb (HeapId.from_u32 0x40) (Some matrix_id) (sort_rows rows) bss variables) as [Hi Hf];
    [done|by apply sorted_rows_all|done|].
  exists table, index, bss, variables. split_and!; [done..|]. apply heap_page_built; [|done].
  assert (Hisz : size_z index <= 8) by (unfold index_header_bytes in Hix; apply rbind_ok in Hix as (h & _ & [= <-]); done).
  destruct (ends_order columns e4 e2 e1 eb Ht (HeapId.from_u32 0) None) as (_ & _ & _ & Hmax).
  apply (inline_addressable table index rows bss variables eb); try done.
  - by eapply size_info_bytes.
  - rewrite <- (Permutation_length (sort_rows_perm rows)). by apply Forall2_length in Hf.
  - by apply rows_written_size in Hf.
Qed.

(** Where the reader finds the matrix of a table in one page. *)
Definition matrix_in_heap {B} (heap : HeapNodeInner B) (t : TableContextInfo) (matrix : list TableRowData) : Prop :=
  tci_rows t = None /\ matrix = [] \/
  tci_rows t = Some matrix_id /\ exists data, HeapNodeInner.find_entry heap (HeapId.from_u32 0x80) = Ok data /\
    read_row_matrix t (Z.of_nat (length data)) data = Ok (matrix, []).

Definition ids_uint (columns : list TableColumnDescriptor) : Prop := Forall (fun c => uint 16 (tcd_prop_id c)) columns.

Lemma one_page {B} (heap : HeapNodeInner B) allocations page :
  page_built HN_Table 0 allocations page -> map db_data (hn_data heap) = [page] ->
  each_page (page_built HN_Table) [allocations] (map db_data (hn_data heap)).
Proof. intros Hp ->. split; [done|]. intros [|i] a p Ha Hb; cbn in Ha, Hb; [by simplify_eq|done]. Qed.

(** What a page without rows is built from. *)
Lemma empty_table_parts columns e4 e2 e1 eb page :
  row_layout columns = Ok (e4, e2, e1, eb) -> table_context columns [] = Ok page ->
  exists table index, info_bytes (e4, e2, e1, eb) (HeapId.from_u32 0x40) None columns = Ok table /\
    index_header_bytes 0 (HeapId.from_u32 0) = Ok index /\ page_built HN_Table 0 [table; index] page.
Proof.
  intros Hlay H. unfold table_context in H. rewrite Hlay, sort_rows_empty in H. cbn [rbind is_empty] in H.
  change (HeapId.new 2 0) with (Ok (E := LtpError) (HeapId.from_u32 0x40)) in H. cbn [structure_ltp rmap_err rbind] in H.
  apply rbind_ok in H as (table & Htb & H). apply rbind_ok in H as (index & Hix & H).
  exists table, index. split; [done|]. split; [done|]. apply heap_page_built; [|done].
  assert (Hisz : size_z index = 8) by (unfold index_header_bytes in Hix; apply rbind_ok in Hix as (h & _ & [= <-]); done).
  pose proof (size_info_bytes _ _ _ _ _ Htb) as Htsz. unfold addressable. cbn [concat]. rewrite !size_app, Hisz.
  change (size_z [table; index]) with 2. change (size_z (@nil Z)) with 0. lia.
Qed.

Lemma empty_table_in columns e4 e2 e1 eb page {B} (heap : HeapNodeInner B) nodes :
  table_columns columns e4 e2 e1 eb -> row_layout columns = Ok (e4, e2, e1, eb) -> ids_uint columns ->
  table_context columns [] = Ok page -> map db_data (hn_data heap) = [page] ->
  exists t, table_in heap nodes columns [] t [] /\ matrix_in_heap heap t [].
Proof.
  intros Ht Hlay Hids H Hheap. destruct (empty_table_parts _ _ _ _ _ _ Hlay H) as (table & index & Htb & Hix & Hb).
  pose proof (one_page heap _ _ Hb Hheap) as Hp.
  pose proof (info_bytes_ok columns e4 e2 e1 eb Ht (HeapId.from_u32 0x40) None table Hids ltac:(by split) ltac:(done) Htb) as Hread.
  exists (table_info columns e4 e2 e1 eb (HeapId.from_u32 0x40) None). split; [split|by left].
  - by apply (table_info_read heap [table; index] [] Hp table).
  - done.
  - by apply (no_entries_read heap [table; index] [] Hp index).
  - constructor.
Qed.

Lemma rows_table_in columns e4 e2 e1 eb rows page {B} (heap : HeapNodeInner B) nodes :
  table_columns columns e4 e2 e1 eb -> row_layout columns = Ok (e4, e2, e1, eb) -> ids_uint columns ->
  Forall (row_spec_ok columns) rows -> rows <> [] -> table_context columns rows = Ok page ->
  map db_data (hn_data heap) = [page] ->
  exists t matrix, table_in heap nodes columns rows t matrix /\ matrix_in_heap heap t matrix.
Proof.
  intros Ht Hlay Hids Hok Hne H Hheap.
  destruct (table_context_parts _ _ _ _ _ _ _ Ht Hlay Hok Hne H) as (table & index & bss & variables & Htb & Hix & Hn & Hf & Hp).
  apply (one_page heap _ _) in Hp; [|done]. set (root := [table; index; leaf_bytes (index_entries rows); concat bss] ++ variables) in *.
  set (t := table_info columns e4 e2 e1 eb (HeapId.from_u32 0x40) (Some matrix_id)).
  pose proof (info_bytes_ok columns e4 e2 e1 eb Ht (HeapId.from_u32 0x40) (Some matrix_id) table Hids ltac:(by split)) as Hread.
  specialize (Hread ltac:(intros n [= <-]; by split) Htb).
  exists t, (map (row_of t) bss). split; [split|right; split; [done|]].
  - by apply (table_info_read heap root [] Hp table).
  - done.
  - apply (entries_read heap root [] Hp 0 (HeapId.from_u32 0x60) index rows); try done.
    + exists [index_entries rows]. split; [cbn; by rewrite app_nil_r|]. constructor; [|constructor].
      apply (root_find heap root [] Hp 2); [lia|done].
    + eapply Forall_impl; [exact Hok|]. by intros r [? _].
  - apply rows_read_back; [done|by apply sorted_rows_all|]. eapply Forall2_impl; [exact Hf|]. intros r b.
    apply (row_written_mono columns e4 e2 e1 eb Ht). intros x data. by eapply variable_found.
  - exists (concat bss). split; [apply (root_find heap root [] Hp 3); [lia|done]|].
    destruct (table_info_laid_out columns e4 e2 e1 eb Ht (HeapId.from_u32 0x40) (Some matrix_id)) as [Hl H8].
    pose proof (row_matrix_read t bss [] Hl H8 (rows_written_size _ _ _ _ _ _ _ _ _ _ Hf)) as Hm. by rewrite app_nil_r in Hm.
Qed.

(** ** What a table delivers *)

Section delivers.
Set Default Proof Using "All".
Context {E B I S : Type} `{!BlockId B, !ByteIndex I, !BlockBTreeEntry E B I}.
Context `{!BlockTrailerReadWrite B, !BlockTrailerLaws B, !IntermediateTreeHeader (SubNodeTreeBlockHeader B)}.
Context `{!IntermediateTreeEntry B, !IntermediateTreeEntry (IntermediateSubNodeTreeEntry B)}.
Context `{!IntermediateTreeEntry (LeafSubNodeTreeEntry B), !BlockFind E S}.
Context `{!BlockIdLaws B, !BlockFindLaws E B I S}.
Context (f : list Z) (encoding : NdbCryptMethod).

(** A value is read as itself; one without bytes has the heap id 0. *)
Definition value_delivered (self : TableContextInner B UnicodeTableRowIndex) (v : WriterValue.t)
    (x : option TableRowColumnValue) : Prop :=
  exists value, x = Some value /\
    match variable_bytes v with
    | Ok (Some []) => value = ColumnHeap (HeapId.from_u32 0)
    | _ => forall s : traversal_state (B := B) (S := S), coherent (E := E) f encoding s ->
        exists s', read_column (E := E) f encoding self value (WriterValue.property_type v) s = Some (Ok (value_of v), s') /\
          coherent (E := E) f encoding s'
    end.

Definition column_delivers (self : TableContextInner B UnicodeTableRowIndex) (r : TableRowSpec)
    (c : TableColumnDescriptor) (x : option TableRowColumnValue) : Prop :=
  if tcd_prop_id c =? LTP_ROW_ID_PROP_ID
  then x = Some (ColumnSmall (PropertyValue.Integer32 (signed 32 (node_id_0 (trs_id r))))) else
  if tcd_prop_id c =? LTP_ROW_VERSION_PROP_ID then x = Some (ColumnSmall (PropertyValue.Integer32 1)) else
  match List.find (fun p => p.1 =? tcd_prop_id c) (trs_values r) with
  | None => x = None
  | Some (_, v) => value_delivered self v x
  end.

(** The columns, exactly the rows, and the value of every column. *)
Definition table_delivers (self : TableContextInner B UnicodeTableRowIndex) (columns : list TableColumnDescriptor)
    (rows : list TableRowSpec) : Prop :=
  tci_columns (tc_context self) = columns /\
  (forall id row, find_row self id = Ok row -> exists r, r ∈ rows /\ spec_id r = id) /\
  forall r, r ∈ rows -> exists row xs, find_row self (spec_id r) = Ok row /\
    TableRowData.columns row (tc_context self) = Ok xs /\ Forall2 (column_delivers self r) columns xs.

Abbreviation nodes sub_node := (node_data (E := E) (S := S) f encoding sub_node).

Lemma column_reads_delivers sub_node heap rows t matrix r c x :
  column_reads heap (nodes sub_node) r c x -> column_delivers (table_of sub_node heap rows t matrix) r c x.
Proof.
  unfold column_reads, column_delivers. destruct (_ =? _); [done|]. destruct (_ =? _); [done|].
  destruct (List.find _ (trs_values r)) as [[p v]|]; [|done]. destruct (fixed_bytes v) as [b|] eqn:Hf.
  - intros ->. eexists. split; [reflexivity|]. destruct (variable_bytes v) as [[[|? ?]|]|?|] eqn:Hv; try (intros s Hs; by exists s).
    by destruct v.
  - intros (data & value & Hv & -> & Hd & H0 & Hn). exists value. split; [done|]. rewrite Hv.
    destruct data as [|b data]; [by apply H0|]. intros s Hs. rewrite <- Hd.
    apply read_column_data; [|done]. specialize (Hn ltac:(done)). by destruct value.
Qed.

Lemma table_in_delivers sub_node heap columns rows t matrix :
  table_in heap (nodes sub_node) columns rows t matrix -> ids_distinct rows ->
  table_delivers (table_of sub_node heap rows t matrix) columns rows.
Proof.
  intros Hin Hids. destruct (table_in_rows heap _ columns rows t matrix sub_node Hin Hids) as [Ho Hr].
  split; [apply (ti_columns _ _ _ _ _ _ Hin)|]. split; [done|]. intros r Hx. destruct (Hr r Hx) as (row & Hrow & _ & xs & Hxs & Hf).
  exists row, xs. split; [done|]. split; [done|]. rewrite <- (ti_columns _ _ _ _ _ _ Hin).
  eapply Forall2_impl; [exact Hf|]. intros c x. apply column_reads_delivers.
Qed.

(** The steps of [read]. *)
Lemma read_steps sub_node key cache cache' heap columns rows t matrix s nodes :
  HeapNodeInner.read (E := E) f encoding key cache = Some (Ok heap, cache') ->
  table_in heap nodes columns rows t matrix ->
  read_rows (E := E) f encoding sub_node heap t (cache', ∅) = Some (Ok matrix, s) ->
  TableContext.read (E := E) f encoding sub_node key cache = Some (Ok (table_of sub_node heap rows t matrix), s).
Proof.
  intros Hh [Hi _ He _] Hr. unfold read.
  assert (Hl : looking_up (B := B) (HeapNodeInner.read (E := E) f encoding key) (cache, ∅) = Some (Ok heap, (cache', ∅)))
    by (unfold looking_up; by rewrite Hh).
  rewrite (m_bind_eq _ _ _ _ _ Hl). unfold m_lift. unfold m_bind at 1. rewrite Hi.
  rewrite (m_bind_eq _ _ _ _ _ Hr). exact (m_bind_eq _ _ _ _ _ (f_equal (fun r => Some (r, s)) He)).
Qed.

Lemma heap_matrix_read sub_node heap t matrix (s : traversal_state (B := B) (S := S)) :
  matrix_in_heap heap t matrix -> read_rows (E := E) f encoding sub_node heap t s = Some (Ok matrix, s).
Proof.
  unfold read_rows. intros [[-> ->]|[-> (data & Hd & Hm)]]; [done|].
  change (NodeId.id_type matrix_id) with (Ok (E := NdbError) HeapNode). cbv iota. unfold m_lift.
  change (node_id_0 matrix_id) with 0x80. rewrite Hd. cbn [rbind]. by rewrite Hm.
Qed.
End delivers.
Set Default Proof Using "Type".

Lemma schema_ids specs columns :
  Forall (fun s : ColumnSpec => uint 16 s.2) specs -> schema_columns specs = Ok columns -> ids_uint columns.
Proof.
  intros Hs Hc. destruct (schema_columns_made specs columns Hc) as (n1 & n2 & n3 & Hm). pose proof (sm_specs _ _ _ _ _ Hm) as He.
  apply Forall_forall. intros c Hin. assert (Hin' : (tcd_prop_type c, tcd_prop_id c) ∈ sort_specs specs).
  { rewrite <- He. apply list_elem_of_fmap. by exists c. }
  rewrite (sort_by_perm (by_key snd Z.compare) specs : sort_specs specs ≡ₚ specs) in Hin'.
  exact (proj1 (Forall_forall _ _) Hs _ Hin').
Qed.

(** A schema of a table: with the two columns of the row, ids of 16 bits. *)
Definition schema_ok (specs : list ColumnSpec) : Prop :=
  (PT_Integer32, LTP_ROW_ID_PROP_ID) ∈ specs /\ (PT_Integer32, LTP_ROW_VERSION_PROP_ID) ∈ specs /\
  Forall (fun s : ColumnSpec => uint 16 s.2) specs.

Lemma table_context_size specs columns rows page :
  schema_ok specs -> schema_columns specs = Ok columns -> Forall (row_spec_ok columns) rows ->
  table_context columns rows = Ok page -> size_z page <= MAX_DATA_BLOCK_PAYLOAD.
Proof.
  intros (Hid & Hver & _) Hc Hok H.
  destruct (row_layout columns) as [[[[e4 e2] e1] eb]|e|] eqn:Hlay; [|unfold table_context in H; by rewrite Hlay in H..].
  destruct rows as [|r rows].
  - destruct (empty_table_parts _ _ _ _ _ _ Hlay H) as (table & index & _ & _ & Hb). by apply (built_size HN_Table 0) in Hb.
  - pose proof (schema_table_columns _ _ _ _ _ _ Hid Hver Hc Hlay) as Ht.
    destruct (table_context_parts columns e4 e2 e1 eb (r :: rows) page Ht Hlay Hok ltac:(done) H) as (? & ? & ? & ? & _ & _ & _ & _ & Hb).
    by apply (built_size HN_Table 0) in Hb.
Qed.

Lemma page_table_in specs columns rows page {B} (heap : HeapNodeInner B) nodes :
  schema_ok specs -> schema_columns specs = Ok columns -> Forall (row_spec_ok columns) rows ->
  table_context columns rows = Ok page -> map db_data (hn_data heap) = [page] ->
  exists t matrix, table_in heap nodes columns rows t matrix /\ matrix_in_heap heap t matrix.
Proof.
  intros (Hid & Hver & Hu) Hc Hok H Hheap. pose proof (schema_ids specs columns Hu Hc) as Hids.
  destruct (row_layout columns) as [[[[e4 e2] e1] eb]|e|] eqn:Hlay; [|unfold table_context in H; by rewrite Hlay in H..].
  pose proof (schema_table_columns _ _ _ _ _ _ Hid Hver Hc Hlay) as Ht. destruct rows as [|r rows].
  - destruct (empty_table_in columns e4 e2 e1 eb page heap nodes Ht Hlay Hids H Hheap) as (t & Hin & Hm). by exists t, [].
  - by eapply (rows_table_in columns e4 e2 e1 eb).
Qed.

Lemma table_in_length {B} (heap : HeapNodeInner B) nodes columns rows t matrix :
  table_in heap nodes columns rows t matrix -> length matrix = length rows.
Proof. intros [_ _ _ H]. rewrite <- (Forall2_length _ _ _ H). apply Permutation_length, sort_rows_perm. Qed.

(** ** Properties *)

(** A table in one page, read without looking anything else up. *)
Lemma page_reads_back {E B I S : Type} `{!BlockId B, !ByteIndex I, !BlockBTreeEntry E B I}
  `{!BlockTrailerReadWrite B, !BlockTrailerLaws B, !IntermediateTreeHeader (SubNodeTreeBlockHeader B)}
  `{!IntermediateTreeEntry B, !IntermediateTreeEntry (IntermediateSubNodeTreeEntry B)}
  `{!IntermediateTreeEntry (LeafSubNodeTreeEntry B), !BlockFind E S, !BlockIdLaws B, !BlockFindLaws E B I S}
  (f : list Z) (encoding : NdbCryptMethod) (specs : list ColumnSpec) (columns : list TableColumnDescriptor)
  (rows : list TableRowSpec) (page : list Z) (sub_node : option B) (key : Z) (cache cache' : S) (heap : HeapNodeInner B)
  (Hschema : schema_ok specs) (Hcolumns : schema_columns specs = Ok columns)
  (Hrows : Forall (row_spec_ok columns) rows) (Hids : ids_distinct rows)
  (Hbuild : table_context columns rows = Ok page)
  (Hheap : HeapNodeInner.read (E := E) f encoding key cache = Some (Ok heap, cache'))
  (Hpage : map db_data (hn_data heap) = [page]) :
  exists self, TableContext.read (E := E) f encoding sub_node key cache = Some (Ok self, (cache', ∅)) /\
    length (tc_rows self) = length rows /\ table_delivers (E := E) f encoding self columns rows.
Proof.
  destruct (page_table_in specs columns rows page heap (node_data (E := E) (S := S) f encoding sub_node)
    Hschema Hcolumns Hrows Hbuild Hpage) as (t & matrix & Hin & Hm).
  exists (table_of sub_node heap rows t matrix). split_and!.
  - eapply read_steps; [exact Hheap|exact Hin|]. by apply heap_matrix_read.
  - by apply table_in_length in Hin.
  - by apply table_in_delivers.
Qed.

(** A value is checked by evaluation when it is fixed or a string. *)
Definition plain_value_b (columns : list TableColumnDescriptor) (p : Property) : bool :=
  existsb (fun c => (tcd_prop_id c =? p.1) && bool_decide (tcd_prop_type c = WriterValue.property_type p.2)) columns &&
  match p.2 with
  | WriterValue.Integer32 v => bool_decide (sint 32 v)
  | WriterValue.Boolean _ => true
  | WriterValue.Unicode s => bool_decide (string_ok s /\ (length s <= 4000)%nat)
  | _ => false
  end.

Lemma size_encode_char c : size_z (encode_char c) <= 2.
Proof. unfold encode_char. by destruct (_ <? _). Qed.

Lemma plain_value_ok columns p : plain_value_b columns p = true -> table_value_ok columns p.
Proof.
  destruct p as [id v]. unfold plain_value_b. intros [Hc Hv]%andb_true_iff. cbn [fst snd] in *.
  apply existsb_exists in Hc as (c & Hin & [Hi%Z.eqb_eq Ht]%andb_true_iff). apply bool_decide_eq_true in Ht. apply list_elem_of_In in Hin.
  split; [by exists c|]. cbn [snd]. destruct v; try discriminate Hv; (split; [|split; [done|]]); try done.
  - by apply bool_decide_eq_true in Hv.
  - by apply bool_decide_eq_true in Hv as [? _].
  - apply bool_decide_eq_true in Hv as [_ Hn]. intros bytes Hb. apply ok_inj in Hb. injection Hb as <-.
    assert (size_z (encode_utf16 s) <= 2 * size_z s).
    { transitivity (2 * size_z (map encode_char s)); [|unfold size_z; by rewrite length_map].
      apply size_concat_bound. apply Forall_map, Forall_true. intros c'. apply size_encode_char. }
    unfold size_z, MAX_PST_PROPERTY_BYTES in *. rewrite (length_concat_map _ 2) by done. lia.
Qed.

(** The recipients of a message, one without a name. *)
Definition sample_recipients : list TableRowSpec :=
  match recipient_table_row 0 (mk_RecipientSpec To [65; 110; 110] [97; 64; 98]),
        recipient_table_row 1 (mk_RecipientSpec Cc [] [99; 64; 98]) with
  | Ok a, Ok b => [b; a]
  | _, _ => []
  end.

Definition sample_table_columns : list TableColumnDescriptor := match recipient_columns with Ok c => c | _ => [] end.

Definition recipients_page : list Z :=
  match table_context sample_table_columns sample_recipients with Ok page => page | _ => [] end.

Definition recipients_entries : list UnicodeBlockBTreeEntry.t := [sample_entry 4 0 (size_z recipients_page)].

(** A file with this page as its only block. *)
Definition recipients_file : list Z :=
  match DataTree.write (DataTree.sample_leaf 4 recipients_page) (sample_entry 4 0 (size_z recipients_page)) (mk_wfile [] 0)
  with Ok w => wf_data w | _ => [] end.

Definition recipients_root : RootBTreePage.t (P := Errors.BlockBTree) (LE := UnicodeBlockBTreeEntry.t)
    (B := UnicodePageId) (I := UnicodeByteIndex) :=
  Leaf (mk_BTreeLeafPage 20 24 recipients_entries (sample_trailer Errors.BlockBTree 1)).

Definition recipients_find := btree_find recipients_file recipients_root 1.
#[local] Existing Instance recipients_find.

Definition recipients_laws : BlockFindLaws UnicodeBlockBTreeEntry.t UnicodeBlockId UnicodeByteIndex _.
Proof.
  refine (btree_find_laws recipients_file recipients_root 1 (fun _ => False) 0 0 0x100 recipients_entries
    _ _ _ unicode_block_key).
  - by intros r1 r2 H.
  - split; [done|]. apply Forall_singleton. by split.
  - lia.
Defined.
#[local] Existing Instance recipients_laws.

Definition recipients_heap : HeapNodeInner UnicodeBlockId :=
  match HeapNodeInner.read (E := UnicodeBlockBTreeEntry.t) recipients_file Permute 4 DataTree.sample_state.1 with
  | Some (Ok heap, _) => heap
  | _ => mk_HeapNodeInner []
  end.

Lemma sample_recipients_ok : Forall (row_spec_ok sample_table_columns) sample_recipients.
Proof.
  assert (H : forallb (fun r => uint_b 32 (node_id_0 (trs_id r)) && forallb (plain_value_b sample_table_columns) (trs_values r) &&
    bool_decide (NoDup (map fst (trs_values r)))) sample_recipients = true) by (vm_compute; reflexivity).
  apply Forall_forall. intros r Hr. apply list_elem_of_In in Hr. rewrite forallb_forall in H. specialize (H r Hr).
  apply andb_true_iff in H as [[Hu%uint_b_spec Hv]%andb_true_iff Hn%bool_decide_eq_true]. split_and!; [done| |done].
  apply Forall_forall. intros p Hp. apply list_elem_of_In in Hp. rewrite forallb_forall in Hv. by apply plain_value_ok, Hv.
Qed.

(** ** A table with many values *)

(** A value whose bytes are not in its row. *)
Definition has_data (p : Property) : bool :=
  match fixed_bytes p.2, variable_data p.2 with None, Ok (_ :: _) => true | _, _ => false end.

Definition value_count (rows : list TableRowSpec) : Z := size_z (List.filter has_data (concat (map trs_values rows))).

Lemma value_count_perm rows rows' : rows ≡ₚ rows' -> value_count rows = value_count rows'.
Proof.
  unfold value_count, size_z. induction 1 as [|r l l' _ IH|r r' l|l1 l2 l3 _ IH1 _ IH2]; cbn [map concat]; [done| | |congruence];
    rewrite ?List.filter_app, ?length_app; lia.
Qed.

(** An error that does not turn the choice. *)
Definition other_error {A} (m : wres A) : Prop := forall e, m = Err e -> is_heap_page_too_large e = false.

Lemma other_bind {A B} (m : wres A) (k : A -> wres B) :
  other_error m -> (forall a, m = Ok a -> other_error (k a)) -> other_error (rbind m k).
Proof. intros Hm Hk e H. destruct m as [a|e'|]; cbn [rbind] in H; [by apply (Hk a eq_refl)|apply Hm; congruence|done]. Qed.

Definition other_run {St A} (m : W St A) : Prop := forall s, other_error (m s).1.

Lemma other_lift {St A} (m : wres A) : other_error m -> other_run (St := St) (w_lift m).
Proof. intros H s. exact H. Qed.

Lemma other_w_bind {St A B} (m : W St A) (k : A -> W St B) :
  other_run m -> (forall a, other_run (k a)) -> other_run (w_bind m k).
Proof.
  intros Hm Hk s. unfold w_bind. specialize (Hm s). destruct (m s) as [[a|e|] s']; [apply Hk| |done].
  intros e' [= <-]. by apply Hm.
Qed.

Lemma other_structure {A} (m : LtpResult A) : other_error (structure_ltp m).
Proof. intros e H. destruct m; [done|by injection H as <-|done]. Qed.

Lemma other_fits {A} (o : option A) what : what <> "heap page" -> other_error (fits o what).
Proof.
  intros Hw e H. destruct o; [done|]. injection H as <-. unfold is_heap_page_too_large, WriterError_eqb_too_large. by apply bool_decide_eq_false_2.
Qed.

Lemma other_to_u16 x what : what <> "heap page" -> other_error (to_u16 x what).
Proof. intros Hw. unfold to_u16. destruct (uint_b 16 x); [done|]. by apply (other_fits (@None Z)). Qed.

Lemma other_plain {A} what : other_error (Err (InvalidStructure what) : wres A).
Proof. by intros e [= <-]. Qed.

Lemma other_ok_or {A} (o : option A) what : other_error (ok_or o (InvalidStructure what)).
Proof. intros e H. destruct o; [done|by injection H as <-]. Qed.

Lemma other_ok {A} (a : A) : other_error (Ok a).
Proof. done. Qed.

Lemma other_wio {A} (m : io_result A) : other_error (wio m).
Proof. intros e H. destruct m; [done|by injection H as <-|done]. Qed.

Create HintDb other.
#[local] Hint Resolve other_lift other_w_bind other_structure other_to_u16 other_plain other_ok_or other_ok other_wio : other.
#[local] Hint Extern 1 (other_error (fits _ _)) => apply other_fits; discriminate : other.
#[local] Hint Extern 1 (other_error (to_u16 _ _)) => apply other_to_u16; discriminate : other.

(** The errors of writing a row. *)
Lemma other_find columns id : other_error (find_column columns id).
Proof. unfold find_column. auto with other. Qed.

Lemma other_write_row row offset value : other_error (write_row_bytes row offset value).
Proof. unfold write_row_bytes. apply other_bind; [auto with other|]. intros end_ _. destruct (_ <=? _); auto with other. Qed.

Lemma other_mark row columns id : other_error (mark_column row columns id).
Proof.
  unfold mark_column. apply other_bind; [apply other_find|]. intros c _. apply other_bind; [auto with other|].
  intros start _. apply other_bind; auto with other.
Qed.

Lemma other_variable v : other_error (variable_data v).
Proof. unfold variable_data. apply other_bind; auto with other. Qed.
#[local] Hint Resolve other_find other_write_row other_mark other_variable : other.

Lemma other_place data : other_run (place_variable data).
Proof.
  intros s. unfold place_variable. cbn [fst]. apply other_bind; [auto with other|]. intros a _.
  apply other_bind; [auto with other|]. intros b _. apply other_bind; auto with other.
Qed.

Lemma other_table_row columns eb r : other_run (table_row place_variable columns eb r).
Proof.
  unfold table_row. apply other_w_bind.
  - apply other_lift. unfold start_row. destruct (eb <? 8); [done|]. apply other_bind; auto with other.
  - intros bytes. revert bytes. induction (trs_values r) as [|[id v] values IH]; intros bytes; cbn [write_values]; [done|].
    apply other_w_bind; [|done]. unfold write_value. destruct (is_reserved id); [auto with other|].
    apply other_w_bind; [auto with other|]. intros c. apply other_w_bind; [|auto with other].
    unfold write_cell. destruct v; cbn [fixed_bytes]; auto with other;
      (apply other_w_bind; [auto with other|]; intros data; destruct (is_empty data); [auto with other|];
       apply other_w_bind; [apply other_place|auto with other]).
Qed.

Lemma other_map {St A B} (g : A -> W St B) l : (forall a, other_run (g a)) -> other_run (w_map g l).
Proof.
  intros Hg. induction l as [|a l IH]; cbn [w_map]; [done|]. apply other_w_bind; [done|]. intros b.
  apply other_w_bind; [done|]. by intros bs s.
Qed.

(** Each value with data takes one of the 2043 allocations that are left. *)
Definition counted (n : Z) (s s' : list (list Z)) : Prop :=
  size_z s' = size_z s + n /\ (size_z s <= 2043 -> size_z s' <= 2043).

Lemma counted_trans n m s1 s2 s3 : counted n s1 s2 -> counted m s2 s3 -> counted (n + m) s1 s3.
Proof. intros [? ?] [? ?]. split; [lia|auto]. Qed.

Lemma counted_none s : counted 0 s s.
Proof. split; [lia|done]. Qed.

Lemma place_counted data s x s' : place_variable data s = (Ok x, s') -> counted 1 s s'.
Proof.
  intros H. unfold place_variable in H. rewrite size_snoc in H. apply pair_equal_spec in H as [H <-].
  apply rbind_ok in H as (n & Hn & H). apply rbind_ok in H as (n' & Hn' & H). apply rbind_ok in H as (h & Hh & _).
  unfold checked_add in Hn. destruct (_ <? _); [|done]. injection Hn as <-.
  unfold to_u16 in Hn'. destruct (uint_b 16 _) eqn:Hu; [|done]. injection Hn' as <-. apply uint_b_spec in Hu.
  destruct (HeapId.new _ 0) as [h'|e|] eqn:Hid in Hh; [|done..]. pose proof (heap_id_new_index _ _ _ Hu Hid).
  split; [by rewrite size_snoc|]. intros _. rewrite size_snoc. lia.
Qed.

Lemma write_value_counted columns row p s row' s' :
  write_value place_variable columns row p s = (Ok row', s') -> counted (if has_data p then 1 else 0) s s'.
Proof.
  destruct p as [id v]. unfold write_value, has_data. cbn [snd]. destruct (is_reserved id); [by intros [[=] _]%w_lift_ok|].
  intros (c & _ & H)%w_lift_run. apply w_bind_ok in H as (r1 & s1 & H & [_ <-]%w_lift_ok).
  destruct (is_external v) eqn:Hx; [by destruct v; try discriminate Hx; apply w_lift_ok in H as [[=] _]|].
  apply (write_cell_cases place_variable) in H as [(bytes & -> & _ & ->)|(-> & data & -> & H)]; [| |done].
  - apply counted_none.
  - destruct data as [|b data]; cbn [is_empty] in H; [apply w_lift_ok in H as [_ <-]; apply counted_none|].
    apply w_bind_ok in H as (x & s2 & Hp & [_ <-]%w_lift_ok). by eapply place_counted.
Qed.

Lemma write_values_counted columns values : forall row s row' s',
  write_values place_variable columns row values s = (Ok row', s') -> counted (size_z (List.filter has_data values)) s s'.
Proof.
  induction values as [|p values IH]; intros row s row' s' H; cbn [write_values] in H.
  { injection H as _ <-. apply counted_none. }
  apply w_bind_ok in H as (r1 & s1 & H1 & H). apply write_value_counted in H1. apply IH in H. cbn [List.filter].
  pose proof (counted_trans _ _ _ _ _ H1 H) as Hc. destruct (has_data p); [|exact Hc].
  replace (size_z (p :: List.filter has_data values)) with (1 + size_z (List.filter has_data values)) by (unfold size_z; cbn [length]; lia).
  exact Hc.
Qed.

Lemma table_rows_counted columns eb rows : forall s bss s',
  w_map (table_row place_variable columns eb) rows s = (Ok bss, s') -> counted (value_count rows) s s'.
Proof.
  induction rows as [|r rows IH]; intros s bss s' H; cbn [w_map] in H.
  { injection H as _ <-. apply counted_none. }
  apply w_bind_ok in H as (b & s1 & H1 & H). apply w_bind_ok in H as (bs & s2 & H2 & H). injection H as _ <-.
  unfold table_row in H1. apply w_lift_run in H1 as (b0 & _ & H1). apply write_values_counted in H1. apply IH in H2.
  unfold value_count in *. cbn [map concat]. rewrite List.filter_app.
  replace (size_z (_ ++ _)) with (size_z (List.filter has_data (trs_values r)) + size_z (List.filter has_data (concat (map trs_values rows))))
    by (unfold size_z; rewrite length_app; lia). by eapply counted_trans.
Qed.

Definition refused {A} (m : wres A) : Prop := other_error m /\ forall a, m <> Ok a.

Lemma refused_bind {A B} (m : wres A) (k : A -> wres B) :
  other_error m -> (forall a, m = Ok a -> refused (k a)) -> refused (rbind m k).
Proof.
  intros Hm Hk. split; [apply other_bind; [done|]; intros a Ha; by apply Hk|].
  intros b H. apply rbind_ok in H as (a & Ha & H). by apply (Hk a Ha) in H.
Qed.

Lemma other_rmapM {A B} (g : A -> wres B) l : (forall a, other_error (g a)) -> other_error (rmapM g l).
Proof.
  intros Hg. induction l as [|a l IH]; cbn [rmapM]; [done|]. apply other_bind; [done|]. intros b _.
  by apply other_bind.
Qed.

Lemma other_leaf i r : other_error (leaf_entry i r).
Proof. unfold leaf_entry. apply other_bind; auto with other. Qed.

Lemma other_layout columns : other_error (row_layout columns).
Proof.
  unfold row_layout. apply other_bind; [unfold align_row; auto with other|]. intros e _. apply other_bind; [auto with other|].
  intros b _. apply other_bind; auto with other.
Qed.

Lemma other_info layout row_index rows columns : other_error (info_bytes layout row_index rows columns).
Proof. destruct layout as [[[e4 e2] e1] eb]. unfold info_bytes. apply other_bind; auto with other. Qed.

Lemma other_index levels root : other_error (index_header_bytes levels root).
Proof. unfold index_header_bytes. apply other_bind; auto with other. Qed.

Lemma many_values_page columns rows : 2043 < value_count rows -> refused (table_context columns rows).
Proof.
  intros Hmany. rewrite <- (value_count_perm _ _ (sort_rows_perm rows)) in Hmany. unfold table_context.
  assert (is_empty (sort_rows rows) = false) as -> by (by destruct (sort_rows rows)).
  apply refused_bind; [apply other_layout|]. intros layout _. apply refused_bind; [auto with other|]. intros row_index _.
  apply refused_bind; [auto with other|]. intros root _. apply refused_bind.
  { apply other_bind; auto with other. }
  intros matrix _. apply refused_bind; [apply other_info|]. intros table _. apply refused_bind; [apply other_index|]. intros index _.
  apply refused_bind; [apply other_rmapM; intros [i r]; apply other_leaf|]. intros leaf _.
  pose proof (other_map (table_row place_variable columns layout.2) (sort_rows rows) (other_table_row columns layout.2) []) as He.
  destruct (w_map _ _ _) as [r variables] eqn:Hw. apply refused_bind; [exact He|]. intros bss ->.
  apply table_rows_counted in Hw as [Hn Hle]. specialize (Hle ltac:(done)). unfold size_z at 2 in Hn. cbn in Hn. lia.
Qed.

(** C37: A table with more than 2043 values that have bytes of their own is
    refused: the heap ids of a page number no more allocations, and the error
    is not the one on which [build_table_context] turns to the form over
    several blocks, whatever the size of the values is. *)
Theorem many_values_refused (columns : list TableColumnDescriptor) (rows : list TableRowSpec)
  (compact_block : option UnicodeBlockId) (next : Z) (Hmany : 2043 < value_count rows) :
  (forall page, table_context columns rows <> Ok page) /\
  (forall b, (build_table_context columns rows compact_block next).1 <> Ok b) /\
  (build_table_context columns rows compact_block next).2 = next.
Proof.
  destruct (many_values_page columns rows Hmany) as [He Hno]. split; [exact Hno|]. unfold build_table_context.
  destruct (table_context columns rows) as [page|e|]; [by destruct (Hno page)| |done]. by rewrite (He e eq_refl).
Qed.

(** A message to 511 recipients, with the columns and values of its table. *)
Definition many_recipients : list TableRowSpec :=
  foldr (fun i rows => match recipient_table_row (Z.of_nat i) (mk_RecipientSpec Bcc [65] [97; 64; 98]) with
                       | Ok r => r :: rows | _ => rows end) [] (seq 0 511).

Lemma many_values_refused_witness :
  length many_recipients = 511%nat /\ forall b, (build_table_context sample_table_columns many_recipients None 16).1 <> Ok b.
Proof.
  split; [vm_compute; reflexivity|].
  apply (many_values_refused sample_table_columns many_recipients None 16). vm_compute. reflexivity.
Defined.

(** ** A table over several blocks *)

(** Where a value is: in the heap, or in a sub-node of its own. *)
Definition external_holds (s : ExternalState) (x : Z) (data : list Z) : Prop :=
  (exists id, located (es_heap_allocations s) id data /\ x = HeapId.into_u32 id) \/
  (exists n root ds, LeafSubNodeTreeEntry.new n root None ∈ es_subnodes s /\
    tree_holds (vs_blocks (es_vec s)) root ds /\ concat ds = data /\ x = node_id_0 n /\ node_ok n).

(** The heap can be built, and the sub-nodes are numbered after the matrix. *)
Definition external_inv (s : ExternalState) : Prop :=
  pages_inv (es_heap_allocations s) /\
  moved_entries (FIRST_VALUE_NODE + 1) (es_next_value_node s) (es_subnodes s).

Lemma on_blocks_ok {A} (m : W VecState A) s a s' :
  on_blocks m s = (Ok a, s') -> exists vec, m (es_vec s) = (Ok a, vec) /\
    s' = mk_ExternalState (es_heap_allocations s) (es_next_value_node s) vec (es_subnodes s).
Proof. unfold on_blocks. destruct (m (es_vec s)) as [r vec]. intros [= -> <-]. by exists vec. Qed.

Lemma take_value_node_ok s n s' :
  take_value_node s = (Ok n, s') -> uint 32 (es_next_value_node s) ->
  n = value_node (es_next_value_node s) /\ node_ok n /\ es_next_value_node s <= MAX_NODE_INDEX /\
  s' = mk_ExternalState (es_heap_allocations s) (es_next_value_node s + 1) (es_vec s) (es_subnodes s).
Proof.
  intros H Hu. unfold take_value_node in H. apply pair_equal_spec in H as [H <-].
  apply rbind_ok in H as (id & Hid & H). apply rbind_ok in H as (_ & _ & [= ->]).
  apply node_value in Hid as (-> & Hok & Hm); [|done]. by split_and!.
Qed.

Lemma push_heap_ok s data id s' :
  push_heap data s = (Ok id, s') -> exists pages, push_heap_allocation (es_heap_allocations s) data = Ok (id, pages) /\
    s' = mk_ExternalState pages (es_next_value_node s) (es_vec s) (es_subnodes s).
Proof.
  unfold push_heap. destruct (push_heap_allocation _ _) as [[h pages]|e|]; [|done..]. intros [= -> <-]. by exists pages.
Qed.

Lemma external_holds_mono s s' x data :
  (forall id b, located (es_heap_allocations s) id b -> located (es_heap_allocations s') id b) ->
  es_subnodes s ⊆ es_subnodes s' -> vs_blocks (es_vec s) `sublist_of` vs_blocks (es_vec s') ->
  external_holds s x data -> external_holds s' x data.
Proof.
  intros Hl Hn Hb [(id & Hi & ->)|(n & root & ds & He & Ht & Hr)]; [left; exists id; split; [by apply Hl|done]|].
  right. exists n, root, ds. split; [by apply Hn|]. split; [by eapply tree_holds_mono|done].
Qed.

Lemma place_external_ok s data x s' :
  external_inv s -> size_z data <= MAX_PST_PROPERTY_BYTES -> place_external data s = (Ok x, s') ->
  external_inv s' /\ external_holds s' x data /\ forall x' b, external_holds s x' b -> external_holds s' x' b.
Proof.
  intros [Hp Hm] Hd H. unfold place_external in H. destruct (_ <=? _).
  - apply w_bind_ok in H as (id & s1 & (pages & Hpush & ->)%push_heap_ok & H). injection H as <- <-.
    destruct (push_places _ _ _ _ Hp Hpush) as (Hi & Hl & Hmono). split_and!; [by split|left; by exists id|].
    intros x' b. by apply external_holds_mono.
  - apply w_bind_ok in H as (n & s1 & H1 & H). assert (Hu : uint 32 (es_next_value_node s)).
    { destruct Hm as (Hr & _). unfold FIRST_VALUE_NODE in Hr. unfold uint. lia. }
    apply take_value_node_ok in H1 as (-> & Hok & Hmax & ->); [|done]. apply w_bind_ok in H as (root & s2 & (vec & Ht & ->)%on_blocks_ok & H).
    cbn [es_heap_allocations es_next_value_node es_vec es_subnodes] in *.
    apply w_bind_ok in H as ([] & s3 & H3 & H). injection H3 as <-. injection H as <- <-.
    apply logs_append_data_tree_sized in Ht as (l & [Hb _]%pushed_vec & Htree); [|done].
    destruct (chunks_spec MAX_DATA_BLOCK_PAYLOAD data) as [Hc _]; [done|].
    cbn [es_heap_allocations es_next_value_node es_vec es_subnodes]. split_and!.
    + split; [done|]. cbn [es_next_value_node es_subnodes]. eapply moved_entries_app; [exact Hm|].
      destruct Hm as (Hr & _). assert (Hmx : MAX_NODE_INDEX = 2 ^ 27 - 1) by done. unfold FIRST_VALUE_NODE in *. split_and!; [lia|lia|right; lia|].
      by replace (es_next_value_node s + 1 - es_next_value_node s) with 1 by lia.
    + right. eexists (value_node _), root, _. cbn [es_subnodes es_vec]. split_and!; [|rewrite Hb; apply (tree_holds_mono l); [by apply sublist_inserts_l|exact Htree]|done|done|exact Hok].
      apply elem_of_app. right. by apply list_elem_of_singleton.
    + intros x' b. apply external_holds_mono; cbn [es_heap_allocations es_subnodes es_vec]; [done|set_solver|].
      rewrite Hb. by apply sublist_inserts_r.
Qed.

(** The rows of the table: their entries in the index and their bytes. *)
Lemma external_rows_ok columns e4 e2 e1 eb row_index matrix rows written s s' :
  table_columns columns e4 e2 e1 eb -> Forall (row_spec_ok columns) rows -> external_inv s ->
  w_map (external_row columns eb) (imap pair rows) s = (Ok written, s') ->
  external_inv s' /\ (forall x b, external_holds s x b -> external_holds s' x b) /\
  concat (map fst written) = leaf_bytes (map row_entry (imap pair rows)) /\
  Forall (fun a => uint 32 (Z.of_nat a.1)) (imap pair rows) /\
  Forall2 (row_written columns e4 e2 e1 eb row_index matrix (external_holds s')) rows (map snd written).
Proof.
  intros Ht Hok Hi H. set (P := fun (a : nat * TableRowSpec) (b : list Z * list Z) =>
    b.1 = HeapTreeLeafEntry.write (row_entry a) /\ uint 32 (Z.of_nat a.1)).
  assert (Hplace : forall s data x s', external_inv s -> data <> [] -> size_z data <= MAX_PST_PROPERTY_BYTES ->
    place_external data s = (Ok x, s') ->
    external_inv s' /\ external_holds s' x data /\ forall x' b, external_holds s x' b -> external_holds s' x' b)
    by (intros s0 data x s1 Hs _ Hd Hp; by apply place_external_ok).
  destruct (table_rows_ok columns e4 e2 e1 eb Ht row_index matrix place_external external_inv external_holds Hplace
    (external_row columns eb) snd snd P) with (l := imap pair rows) (s := s) (bs := written) (s' := s') as ([Hi' Hm] & Hf); [|done| |done|].
  - intros [i r] s0 [leaf bytes] s1 Hs Hr Hb. unfold external_row in Hb. apply w_lift_run in Hb as (lf & [Hu ->]%leaf_entry_ok & Hb).
    apply w_bind_ok in Hb as (bs & s2 & Hb & He). injection He as <- <- <-.
    destruct (table_row_ok columns e4 e2 e1 eb Ht row_index matrix place_external external_inv external_holds Hplace
      r s0 bs s2 Hs Hr Hb) as [Hk Hw]. by split; [|split].
  - apply Forall_forall. intros [i r] (j & x & [= -> ->] & Hl)%elem_of_lookup_imap. cbn [snd].
    apply list_elem_of_lookup_2 in Hl. exact (proj1 (Forall_forall _ _) Hok x Hl).
  - split; [done|]. split; [done|]. assert (Hrows : map snd (imap pair rows) = rows).
    { change (map ?g ?l) with (g <$> l). rewrite fmap_imap. apply list_eq. intros i. rewrite list_lookup_imap. by destruct (rows !! i). }
    assert (H2 : forall l bs, Forall2 (fun a b => row_written columns e4 e2 e1 eb row_index matrix (external_holds s') (snd a) (snd b) /\ P a b) l bs ->
      concat (map fst bs) = leaf_bytes (map row_entry l) /\ Forall (fun a : nat * TableRowSpec => uint 32 (Z.of_nat a.1)) l /\
      Forall2 (row_written columns e4 e2 e1 eb row_index matrix (external_holds s')) (map snd l) (map snd bs)).
    2: { apply H2 in Hf. by rewrite Hrows in Hf. }
    clear. intros l bs Hf. unfold leaf_bytes. induction Hf as [|a b l bs (Hw & Hb & Hu) _ IH]; [by split_and!|].
    destruct IH as (IH1 & IH2 & IH3). cbn [map concat]. split_and!; [by rewrite Hb, IH1|by constructor|by constructor].
Qed.

(** The blocks of the matrix: whole rows, and padding shorter than a row. *)
Lemma framed_rows eb (bss : list (list Z)) :
  0 < eb <= MAX_DATA_BLOCK_PAYLOAD -> Forall (fun b => size_z b = eb) bss ->
  let k := MAX_DATA_BLOCK_PAYLOAD / eb in
  Forall2 (fun g d => exists pad, d = concat g ++ pad /\ size_z pad < eb /\ Forall (fun b => size_z b = eb) g)
    (chunks k bss) (framed_blocks (map (@concat Z) (chunks k bss))).
Proof.
  intros He Hb k. assert (Hk : 1 <= k) by (apply Z.div_le_lower_bound; lia).
  pose proof (Z.div_mod MAX_DATA_BLOCK_PAYLOAD eb ltac:(lia)) as Hdm. pose proof (Z.mod_pos_bound MAX_DATA_BLOCK_PAYLOAD eb ltac:(lia)).
  fold k in Hdm. clearbody k. induction bss as [l IH] using (induction_ltof1 _ (@length (list Z))).
  destruct l as [|b l]; [constructor|]. rewrite chunks_cons by (done || lia). set (first := take (Z.to_nat k) (b :: l)) in *.
  set (rest := drop (Z.to_nat k) (b :: l)) in *.
  assert (Hf : Forall (fun b => size_z b = eb) first) by (by apply Forall_take). assert (Hr : Forall (fun b => size_z b = eb) rest) by (by apply Forall_drop).
  assert (Hlt : (length rest < length (b :: l))%nat) by (unfold rest; rewrite length_drop; cbn [length]; lia).
  specialize (IH rest Hlt Hr). cbn [map]. destruct rest as [|b' l'] eqn:Hrest.
  { constructor; [|constructor]. exists []. rewrite app_nil_r. split_and!; [done|unfold size_z; cbn; lia|done]. }
  rewrite (chunks_cons k (b' :: l')) in * by (done || lia). cbn [map framed_blocks] in *. constructor; [|exact IH].
  eexists. split; [reflexivity|]. split; [|done].
  assert (Hfull : length first = Z.to_nat k).
  { unfold first. rewrite length_take. unfold rest in Hrest. apply (f_equal length) in Hrest. rewrite length_drop in Hrest. cbn [length] in *. lia. }
  assert (Hc : size_z (concat first) = k * eb).
  { rewrite <- (Z2Nat.id k) by lia. rewrite <- Hfull. clear -Hf. induction Hf as [|x f Hx _ IH]; [done|].
    cbn [concat]. rewrite size_app, IH, Hx. cbn [length]. lia. }
  unfold size_z in *. rewrite length_replicate. lia.
Qed.

Definition matrix_node : NodeId := value_node FIRST_VALUE_NODE.

(** What a table over several blocks consists of, [s] being all that was
    placed: the heap with the description and the index, the matrix in its
    node, and the values. *)
Record external_built (columns : list TableColumnDescriptor) (e4 e2 e1 eb : Z) (rows : list TableRowSpec)
    (b : ExternalTableBuild) (s : ExternalState) (pages bss : list (list Z)) (table index : list Z)
    (levels : Z) (root : HeapId) : Prop := mk_external_built {
  xb_blocks : etb_blocks b = vs_blocks (es_vec s);
  xb_data : tree_holds (etb_blocks b) (etb_data_block b) pages;
  xb_sizes : Forall (fun page => size_z page <= MAX_DATA_BLOCK_PAYLOAD) pages;
  xb_subnodes : subnode_tree_holds (etb_blocks b) (etb_subnode_block b) (sort_leaf_entries (es_subnodes s));
  xb_nodes : NoDup (map LeafSubNodeTreeEntry.node (es_subnodes s));
  xb_matrix : exists matrix_root, LeafSubNodeTreeEntry.new matrix_node matrix_root None ∈ es_subnodes s /\
    tree_holds (etb_blocks b) matrix_root (framed_blocks (map (@concat Z) (chunks (MAX_DATA_BLOCK_PAYLOAD / eb) bss)));
  xb_eb : 0 < eb <= MAX_DATA_BLOCK_PAYLOAD;
  xb_rows : Forall2 (row_written columns e4 e2 e1 eb (HeapId.from_u32 0x40) (Some matrix_node) (external_holds s)) (sort_rows rows) bss;
  xb_count : size_z rows <= 2 ^ 32;
  xb_table : info_bytes (e4, e2, e1, eb) (HeapId.from_u32 0x40) (Some matrix_node) columns = Ok table;
  xb_index : index_header_bytes levels root = Ok index;
  xb_levels : uint 8 levels;
  xb_root : ser_wf root /\ HeapId.into_u32 root <> 0;
  xb_tree : held_tree (located (es_heap_allocations s)) (Z.to_nat levels) [root] (index_entries rows);
  xb_heap : pages_inv (es_heap_allocations s) /\ finish_heap HN_Table [table; index] (es_heap_allocations s) = Ok pages
}.

(** The index in the heap. *)
Lemma external_index rows pages roots p2 levels rs p3 :
  rows <> [] -> size_z rows <= 2 ^ 32 -> Forall (fun r => uint 32 (node_id_0 (trs_id r))) rows -> pages_inv pages ->
  bth_leaves 4 (chunks (MAX_HEAP_ALLOCATION / 8 * 8) (leaf_bytes (index_entries rows))) pages = Ok (roots, p2) ->
  bth_levels 4 (MAX_HEAP_ALLOCATION / 8) "BTH depth" (length roots) 0 roots p2 = Ok (levels, rs, p3) ->
  pages_inv p3 /\ (forall id b, located pages id b -> located p3 id b) /\ uint 8 levels /\
  exists k root, rs = [(k, root)] /\ ser_wf root /\ HeapId.into_u32 root <> 0 /\
    held_tree (located p3) (Z.to_nat levels) [root] (index_entries rows).
Proof.
  intros Hne Hn Hids Hi Hl Hlev. change (MAX_HEAP_ALLOCATION / 8 * 8) with (Z.of_nat 8 * 447) in Hl.
  change (MAX_HEAP_ALLOCATION / 8) with 447 in Hlev. pose proof (index_entries_wf rows Hids Hn) as Hwf.
  apply (bth_built 447 "BTH depth" ltac:(lia) 447 8 (index_entries rows) pages roots p2 levels rs p3); try done.
  - lia.
  - intros He. apply (f_equal length) in He. unfold index_entries in He.
    rewrite length_map, length_imap, (Permutation_length (sort_rows_perm rows)) in He. by destruct rows.
  - eapply Forall_impl; [exact Hwf|]. by intros e [? _].
Qed.

(** The matrix, cut into blocks of whole rows. *)
Lemma matrix_blocks_ok eb (bss : list (list Z)) s root s' :
  0 <= eb -> Forall (fun b => size_z b = eb) bss -> append_row_matrix_data_tree (concat bss) eb s = (Ok root, s') ->
  0 < eb <= MAX_DATA_BLOCK_PAYLOAD /\ exists l, pushed s l s' /\
    tree_holds l root (framed_blocks (map (@concat Z) (chunks (MAX_DATA_BLOCK_PAYLOAD / eb) bss))).
Proof.
  intros H0 Hb H. destruct (append_row_matrix_blocks _ _ _ _ _ H0 H) as (He & Hk & _ & l & Hp & Ht).
  split; [done|]. exists l. split; [done|]. set (fit := fun x : list Z => take (Z.to_nat eb) (x ++ replicate (Z.to_nat eb) 0)).
  assert (Hid : forall x, size_z x = eb -> fit x = x) by (intros x Hx; apply take_app_exact; unfold size_z in Hx; lia).
  assert (Hlen : forall x, length (fit x) = Z.to_nat eb) by (intros x; unfold fit; rewrite length_take, length_app, length_replicate; lia).
  assert (Hfit : map fit bss = bss).
  { clear -Hb Hid. clearbody fit. induction Hb as [|x bss Hx _ IH]; [done|]. cbn [map]. rewrite IH. f_equal. by apply Hid. }
  rewrite <- Hfit in Ht at 1. unfold rows_chunk in Ht. rewrite Z.mul_comm in Ht.
  rewrite <- (Z2Nat.id eb) in Ht at 1 by lia. rewrite chunks_rows in Ht; [|exact Hlen|lia|lia].
  replace (map (fun g => concat (map fit g)) (chunks (MAX_DATA_BLOCK_PAYLOAD / eb) bss)) with
    (map (@concat Z) (chunks (MAX_DATA_BLOCK_PAYLOAD / eb) bss)) in Ht; [done|].
  destruct (chunks_spec (MAX_DATA_BLOCK_PAYLOAD / eb) bss ltac:(lia)) as [Hc _]. rewrite <- Hc in Hb. apply Forall_concat in Hb.
  clear -Hb Hid. clearbody fit. induction Hb as [|g gs Hg _ IH]; [done|]. cbn [map]. f_equal; [|done]. f_equal.
  induction Hg as [|x g Hx _ IHg]; [done|]. cbn [map]. rewrite <- IHg. f_equal. by rewrite Hid.
Qed.

Lemma subnode_tree_mono l1 l2 l3 root es : subnode_tree_holds l2 root es -> subnode_tree_holds (l1 ++ l2 ++ l3) root es.
Proof.
  intros [[H Hn]|(gs & ps & -> & H & Hf & Hs & Hn)]; [left|right; exists gs, ps]; split_and!; try done; try set_solver.
  eapply Forall2_impl; [exact Hf|]. intros g p. apply subnode_leaf_mono.
Qed.

Lemma value_nodes_distinct n n' entries root :
  n = FIRST_VALUE_NODE + 1 -> moved_entries n n' entries ->
  NoDup (map LeafSubNodeTreeEntry.node (entries ++ [LeafSubNodeTreeEntry.new (B := UnicodeBlockId) matrix_node root None])).
Proof.
  intros -> (Hr & Hm & He). assert (Hmx : MAX_NODE_INDEX = 2 ^ 27 - 1) by done. unfold FIRST_VALUE_NODE in *.
  rewrite map_app, He. cbn [map LeafSubNodeTreeEntry.node LeafSubNodeTreeEntry.new].
  assert (Hp : map value_node (seqZ (0x50000 + 1) (n' - (0x50000 + 1))) ++ [matrix_node] ≡ₚ map value_node (0x50000 :: seqZ (0x50000 + 1) (n' - (0x50000 + 1))))
    by (rewrite Permutation_app_comm; done).
  rewrite Hp. apply NoDup_fmap_2_strong.
  - intros x y Hx Hy. assert (Hin : forall z, z ∈ 0x50000 :: seqZ (0x50000 + 1) (n' - (0x50000 + 1)) -> uint 32 z /\ z <= MAX_NODE_INDEX).
    { intros z [->|Hz%elem_of_seqZ]%elem_of_cons; unfold uint; lia. }
    destruct (Hin x Hx), (Hin y Hy). by apply value_node_inj.
  - apply NoDup_cons. split; [rewrite elem_of_seqZ; lia|apply NoDup_seqZ].
Qed.

(** The steps of a build that succeeds. *)
Lemma external_steps columns e4 e2 e1 eb rows next b next' :
  row_layout columns = Ok (e4, e2, e1, eb) -> table_context_external columns rows next = (Ok b, next') ->
  rows <> [] /\ exists written s1 mroot v2 v5 v7 pages,
    let entries := es_subnodes s1 ++ [LeafSubNodeTreeEntry.new matrix_node mroot None] in
    w_map (external_row columns eb) (imap pair (sort_rows rows))
      (mk_ExternalState [] (FIRST_VALUE_NODE + 1) (mk_VecState next []) []) = (Ok written, s1) /\
    append_row_matrix_data_tree (concat (map snd written)) eb (es_vec s1) = (Ok mroot, v2) /\
    append_subnode_tree entries v2 = (Ok (etb_subnode_block b), v5) /\
    (let? '(roots, pages) := bth_leaves 4 (chunks (MAX_HEAP_ALLOCATION / 8 * 8) (concat (map fst written))) (es_heap_allocations s1) in
     let? '(levels, roots, pages) := bth_levels 4 (MAX_HEAP_ALLOCATION / 8) "BTH depth" (length roots) 0 roots pages in
     let? row_tree_root := (match roots with [] => Panic | r :: _ => Ok r.2 end) in
     let? table := info_bytes (e4, e2, e1, eb) (HeapId.from_u32 0x40) (Some matrix_node) columns in
     let? index := index_header_bytes levels row_tree_root in
     finish_heap HN_Table [table; index] pages) = Ok pages /\
    append_data_tree_pages pages v5 = (Ok (etb_data_block b), v7) /\ etb_blocks b = vs_blocks v7.
Proof.
  intros Hlay H. unfold table_context_external in H. destruct (table_context_external_from _ _ _) as [r sf] eqn:Hrun.
  destruct r as [[data_block subnode_block]|e|]; [|done..]. cbn [rbind] in H. injection H as <- <-.
  unfold table_context_external_from in Hrun. rewrite sort_rows_empty in Hrun. destruct (is_empty rows) eqn:Hem; [by apply w_lift_ok in Hrun as [[=] _]|].
  apply w_lift_run in Hrun as (layout & Hl & Hrun). rewrite Hlay in Hl. injection Hl as <-. apply w_lift_run in Hrun as (ri & Hri & Hrun).
  change (HeapId.new 2 0) with (Ok (E := LtpError) (HeapId.from_u32 0x40)) in Hri. injection Hri as <-. cbn [snd] in Hrun.
  apply w_bind_ok in Hrun as (mnode & s0 & Hm & Hrun). apply take_value_node_ok in Hm as (-> & _ & _ & ->); [|done].
  apply w_bind_ok in Hrun as (written & s1 & Hw & Hrun). cbn [es_heap_allocations es_next_value_node es_vec es_subnodes] in Hw.
  apply w_bind_ok in Hrun as (mroot & s2 & (v2 & Hmat & ->)%on_blocks_ok & Hrun).
  apply w_bind_ok in Hrun as ([] & s3 & H3 & Hrun). injection H3 as <-. apply w_bind_ok in Hrun as (subs & s4 & H4 & Hrun). injection H4 as <- <-.
  apply w_bind_ok in Hrun as (sub & s5 & (v5 & Hsub & ->)%on_blocks_ok & Hrun).
  apply w_bind_ok in Hrun as (allocs & s6 & H6 & Hrun). injection H6 as <- <-.
  apply w_lift_run in Hrun as (pages & Hbuilt & Hrun). apply w_bind_ok in Hrun as (db & s7 & (v7 & Hdat & ->)%on_blocks_ok & Hrun).
  cbn [es_heap_allocations es_next_value_node es_vec es_subnodes] in *. injection Hrun as <- <- <-.
  split; [by intros ->|]. exists written, s1, mroot, v2, v5, v7, pages. by split_and!.
Qed.

(** All that was placed. *)
Lemma external_table_parts columns e4 e2 e1 eb rows next b next' :
  table_columns columns e4 e2 e1 eb -> row_layout columns = Ok (e4, e2, e1, eb) -> Forall (row_spec_ok columns) rows ->
  table_context_external columns rows next = (Ok b, next') ->
  exists s pages bss table index levels root, external_built columns e4 e2 e1 eb rows b s pages bss table index levels root.
Proof.
  intros Ht Hlay Hok H. destruct (external_steps _ _ _ _ _ _ _ _ _ Hlay H) as (Hne & written & s1 & mroot & v2 & v5 & v7 & pages & Hw & Hmat & Hsub & Hbuilt & Hdat & Hb).
  assert (Hi0 : external_inv (mk_ExternalState [] (FIRST_VALUE_NODE + 1) (mk_VecState next []) [])).
  { split; [split; [intros k l Hk; cbn [es_heap_allocations] in Hk; by rewrite lookup_nil in Hk|done]|]. unfold FIRST_VALUE_NODE.
    split_and!; cbn [es_next_value_node es_subnodes]; [lia|lia|by left|by rewrite Z.sub_diag]. }
  apply (external_rows_ok columns e4 e2 e1 eb (HeapId.from_u32 0x40) (Some matrix_node)) in Hw as ((Hp1 & Hm1) & _ & Hleaf & Hu & Hrows);
    [|done|by apply sorted_rows_all|done].
  apply imap_numbers in Hu. assert (Hn : size_z rows <= 2 ^ 32) by (unfold size_z in *; by rewrite (Permutation_length (sort_rows_perm rows)) in Hu).
  destruct (ends_order columns e4 e2 e1 eb Ht (HeapId.from_u32 0) None) as (En1 & En2 & En3 & _).
  pose proof (div_ceil_spec (size_z columns) 8 ltac:(lia)) as En4. pose proof (size_nonneg columns) as En5.
  apply (matrix_blocks_ok eb) in Hmat as (Heb & l2 & [Hb2 _]%pushed_vec & Hmt); [|lia|exact (rows_written_size _ _ _ _ _ _ _ _ _ _ Hrows)].
  apply logs_append_subnode_tree in Hsub as (l5 & [Hb5 _]%pushed_vec & Hst).
  apply logs_append_data_tree_pages in Hdat as (l7 & [Hb7 _]%pushed_vec & Hdt & _ & Hsz).
  rewrite Hleaf in Hbuilt. fold (index_entries rows) in Hbuilt.
  apply rbind_ok in Hbuilt as ([roots p2] & Hl & Hbuilt). apply rbind_ok in Hbuilt as ([[levels rs] p3] & Hlev & Hbuilt).
  assert (Hids : Forall (fun r => uint 32 (node_id_0 (trs_id r))) rows) by (eapply Forall_impl; [exact Hok|]; by intros r [? _]).
  destruct (external_index rows _ roots p2 levels rs p3 Hne Hn Hids Hp1 Hl Hlev) as (Hp3 & Hm3 & Hl8 & k & root & -> & Hroot & Hnz & Htree).
  cbn [rbind snd] in Hbuilt. apply rbind_ok in Hbuilt as (table & Htb & Hbuilt). apply rbind_ok in Hbuilt as (index & Hix & Hfin).
  set (sf := mk_ExternalState p3 0 v7 (es_subnodes s1 ++ [LeafSubNodeTreeEntry.new matrix_node mroot None])).
  assert (Hblocks : vs_blocks v7 = vs_blocks (es_vec s1) ++ l2 ++ l5 ++ l7) by (by rewrite Hb7, Hb5, Hb2, <- !app_assoc).
  exists sf, pages, (map snd written), table, index, levels, root. split; rewrite ?Hb, ?Hblocks; try done.
  - eapply tree_holds_mono; [|exact Hdt]. rewrite !app_assoc. by apply sublist_inserts_l.
  - rewrite app_assoc. by apply subnode_tree_mono.
  - by eapply value_nodes_distinct.
  - exists mroot. split; [apply elem_of_app; right; by apply list_elem_of_singleton|]. eapply tree_holds_mono; [|exact Hmt].
    apply sublist_inserts_l, sublist_inserts_r. done.
  - eapply Forall2_impl; [exact Hrows|]. intros r bytes. apply (row_written_mono columns e4 e2 e1 eb Ht). intros x data.
    apply external_holds_mono; [done|intros e He; apply elem_of_app; by left|]. cbn [es_vec sf]. rewrite Hblocks. by apply sublist_inserts_r.
Qed.

(** ** Reading a table over several blocks *)

(** The data trees of the sub-nodes, as they are in a file under a sub-node
    tree; the reader takes trees of at most 64 MiB. *)
Definition nodes_stored {E B I S : Type} `{!BlockId B, !ByteIndex I, !BlockBTreeEntry E B I}
    `{!BlockTrailerReadWrite B, !IntermediateTreeHeader (SubNodeTreeBlockHeader B)}
    `{!IntermediateTreeEntry B, !IntermediateTreeEntry (IntermediateSubNodeTreeEntry B)}
    `{!IntermediateTreeEntry (LeafSubNodeTreeEntry B), !BlockFind E S, !BlockFindLaws E B I S}
    (f : list Z) (encoding : NdbCryptMethod) (sub_node : option B) (blocks : list BlockSpec) (entries : list LeafEntry) : Prop :=
  forall n root ds, LeafSubNodeTreeEntry.new n root None ∈ entries -> tree_holds blocks root ds ->
    exists bs, node_blocks (E := E) (S := S) f encoding sub_node n bs /\ map db_data bs = ds.

Section external.
Context (columns : list TableColumnDescriptor) (e4 e2 e1 eb : Z) (Ht : table_columns columns e4 e2 e1 eb) (Hids : ids_uint columns).
Context (rows : list TableRowSpec) (Hok : Forall (row_spec_ok columns) rows).
Context (b : ExternalTableBuild) (s : ExternalState) (pages bss : list (list Z)) (table index : list Z) (levels : Z) (root : HeapId).
Context (Hbuilt : external_built columns e4 e2 e1 eb rows b s pages bss table index levels root).
Context {B : Type} (heap : HeapNodeInner B) (Hheap : map db_data (hn_data heap) = pages).
Set Default Proof Using "All".
Abbreviation info := (table_info columns e4 e2 e1 eb (HeapId.from_u32 0x40) (Some matrix_node)).

Lemma external_pages : each_page (page_built HN_Table) ([table; index] :: es_heap_allocations s) (map db_data (hn_data heap)).
Proof.
  destruct (xb_heap _ _ _ _ _ _ _ _ _ _ _ _ _ _ Hbuilt) as [[Hf Hn] Hfin].
  destruct (finish_heap_ok HN_Table [table; index] (es_heap_allocations s)) as (pages' & Hf' & He); [|done|done|].
  - pose proof (size_info_bytes _ _ _ _ _ (xb_table _ _ _ _ _ _ _ _ _ _ _ _ _ _ Hbuilt)) as Hts.
    pose proof (xb_index _ _ _ _ _ _ _ _ _ _ _ _ _ _ Hbuilt) as Hix. unfold index_header_bytes in Hix. apply rbind_ok in Hix as (h & _ & [= <-]).
    unfold page_total. cbn [concat]. rewrite !size_app. change (size_z (HeapTreeHeader.write h)) with 8. change (size_z (@nil Z)) with 0.
    change (size_z [table; HeapTreeHeader.write h]) with 2. pose proof (Z.mod_pos_bound (12 + (size_z table + (8 + 0))) 2 ltac:(lia)).
    unfold MAX_DATA_BLOCK_PAYLOAD. lia.
  - rewrite Hfin in Hf'. injection Hf' as <-. by rewrite Hheap.
Qed.

Lemma external_found (nodes : NodeId -> list Z -> Prop) x data :
  (forall n r ds, LeafSubNodeTreeEntry.new n r None ∈ es_subnodes s -> tree_holds (etb_blocks b) r ds -> nodes n (concat ds)) ->
  external_holds s x data -> found heap nodes x data.
Proof.
  intros Hnodes [(id & Hl & ->)|(n & r & ds & He & Htree & <- & -> & Hu & Hn)].
  - pose proof (located_find heap _ _ _ _ _ external_pages Hl) as Hf. apply located_wf in Hl as [[Hu Hty] _]. split; [exact Hu|].
    assert (NodeId.id_type (mk_NodeId (HeapId.into_u32 id)) = Ok HeapNode) as -> by (destruct id as [[x]]; exact Hty).
    by destruct id as [[x]].
  - split; [done|]. rewrite <- (xb_blocks _ _ _ _ _ _ _ _ _ _ _ _ _ _ Hbuilt) in Htree. pose proof (Hnodes n r ds He Htree) as Hd.
    destruct n as [x]. cbn [node_id_0] in *. destruct (NodeId.id_type (mk_NodeId x)) as [[]|e|]; done.
Qed.

Lemma external_table_in (nodes : NodeId -> list Z -> Prop) :
  (forall n r ds, LeafSubNodeTreeEntry.new n r None ∈ es_subnodes s -> tree_holds (etb_blocks b) r ds -> nodes n (concat ds)) ->
  table_in heap nodes columns rows info (map (row_of info) bss).
Proof.
  intros Hnodes. pose proof external_pages as Hp. destruct Hbuilt as [_ _ _ _ _ _ _ Hrows Hn Htb Hix Hl [Hr Hnz] Htree [Hi _]].
  pose proof (info_bytes_ok columns e4 e2 e1 eb Ht (HeapId.from_u32 0x40) (Some matrix_node) table Hids ltac:(by split)) as Hread.
  specialize (Hread ltac:(intros n [= <-]; by split) Htb). split.
  - by apply (table_info_read heap [table; index] _ Hp table).
  - done.
  - apply (entries_read heap [table; index] _ Hp levels root index rows); try done.
    + eapply held_tree_mono; [|exact Htree]. intros id a. by eapply located_find.
    + eapply Forall_impl; [exact Hok|]. by intros r [? _].
  - apply rows_read_back; [done|by apply sorted_rows_all|]. eapply Forall2_impl; [exact Hrows|]. intros r bytes.
    apply (row_written_mono columns e4 e2 e1 eb Ht). intros x data. by apply external_found.
Qed.
End external.
Set Default Proof Using "Type".

(** ** Both forms *)

(** Where the blocks of a table are. *)
Definition table_built (b : TableBuild) (pages : list (list Z)) (entries : list LeafEntry) : Prop :=
  tree_holds (tb_blocks b) (tb_data_block b) pages /\ Forall (fun page => size_z page <= MAX_DATA_BLOCK_PAYLOAD) pages /\
  match tb_subnode_block b with
  | None => entries = []
  | Some root => subnode_tree_holds (tb_blocks b) root (sort_leaf_entries entries) /\ NoDup (map LeafSubNodeTreeEntry.node entries)
  end.

(** What a reader makes of the blocks, in any file where they are. *)
Definition table_readable (b : TableBuild) (pages : list (list Z)) (entries : list LeafEntry)
    (columns : list TableColumnDescriptor) (rows : list TableRowSpec) : Prop :=
  forall (E B I S : Type) (c0 : BlockId B) (c1 : ByteIndex I) (c2 : BlockBTreeEntry E B I)
    (c3 : BlockTrailerReadWrite B) (c4 : BlockTrailerLaws B) (c5 : IntermediateTreeHeader (SubNodeTreeBlockHeader B))
    (c6 : IntermediateTreeEntry B) (c7 : IntermediateTreeEntry (IntermediateSubNodeTreeEntry B))
    (c8 : IntermediateTreeEntry (LeafSubNodeTreeEntry B)) (c9 : BlockFind E S) (c10 : BlockIdLaws B) (c11 : BlockFindLaws E B I S)
    (f : list Z) (encoding : NdbCryptMethod) (sub_node : option B) (key : Z) (cache cache' : S) (heap : HeapNodeInner B),
    HeapNodeInner.read (E := E) f encoding key cache = Some (Ok heap, cache') -> map db_data (hn_data heap) = pages ->
    nodes_stored (E := E) f encoding sub_node (tb_blocks b) entries -> coherent (E := E) f encoding (cache', ∅) ->
    exists self s', TableContext.read (E := E) f encoding sub_node key cache = Some (Ok self, s') /\
      coherent (E := E) f encoding s' /\ length (tc_rows self) = length rows /\
      table_delivers (E := E) f encoding self columns rows.

Lemma external_readable specs columns rows next b next' :
  schema_ok specs -> schema_columns specs = Ok columns -> Forall (row_spec_ok columns) rows -> ids_distinct rows ->
  table_context_external columns rows next = (Ok b, next') ->
  let built := mk_TableBuild (etb_data_block b) (Some (etb_subnode_block b)) (etb_blocks b) in
  exists pages entries, table_built built pages entries /\ table_readable built pages entries columns rows.
Proof.
  intros (Hid & Hver & Hu) Hc Hok Hids H built. pose proof (schema_ids specs columns Hu Hc) as Hcids.
  destruct (row_layout columns) as [[[[e4 e2] e1] eb]|e|] eqn:Hlay.
  2,3: unfold table_context_external, table_context_external_from in H; rewrite sort_rows_empty, Hlay in H; by destruct (is_empty rows).
  pose proof (schema_table_columns _ _ _ _ _ _ Hid Hver Hc Hlay) as Ht.
  destruct (external_table_parts _ _ _ _ _ _ _ _ _ Ht Hlay Hok H) as (s & pages & bss & table & index & levels & root & Hb).
  exists pages, (es_subnodes s). split; [by destruct Hb|]. intros E B I S ? ? ? ? ? ? ? ? ? ? ? ? f encoding sub_node key cache cache' heap Hheap Hpages Hst Hco.
  set (t := table_info columns e4 e2 e1 eb (HeapId.from_u32 0x40) (Some matrix_node)).
  assert (Hin : table_in heap (node_data (E := E) (S := S) f encoding sub_node) columns rows t (map (row_of t) bss)).
  { apply (external_table_in columns e4 e2 e1 eb Ht Hcids rows Hok b s pages bss table index levels root Hb heap Hpages).
    intros n r ds He Htree. destruct (Hst n r ds He Htree) as (bs & Hbs & <-). by exists bs. }
  destruct (xb_matrix _ _ _ _ _ _ _ _ _ _ _ _ _ _ Hb) as (mroot & Hm & Hmt). destruct (Hst _ _ _ Hm Hmt) as (bs & Hbs & Hds).
  destruct (table_info_laid_out columns e4 e2 e1 eb Ht (HeapId.from_u32 0x40) (Some matrix_node)) as [Hl H8].
  pose proof (rows_written_size _ _ _ _ _ _ _ _ _ _ (xb_rows _ _ _ _ _ _ _ _ _ _ _ _ _ _ Hb)) as Hsz.
  pose proof (framed_rows eb bss (xb_eb _ _ _ _ _ _ _ _ _ _ _ _ _ _ Hb) Hsz) as Hfr. cbv zeta in Hfr. rewrite <- Hds in Hfr.
  destruct (read_rows_node (E := E) f encoding t sub_node heap matrix_node (chunks (MAX_DATA_BLOCK_PAYLOAD / eb) bss) bs (cache', ∅))
    as (s' & Hr & Hs'); [done|done|done|by vm_compute|done| |done|].
  { apply Forall2_fmap_r in Hfr. eapply Forall2_impl; [exact Hfr|]. by intros g d (pad & Hd & Hp & Hg); exists pad. }
  assert (Hk : 1 <= MAX_DATA_BLOCK_PAYLOAD / eb) by (destruct (xb_eb _ _ _ _ _ _ _ _ _ _ _ _ _ _ Hb); apply Z.div_le_lower_bound; lia).
  rewrite (proj1 (chunks_spec (MAX_DATA_BLOCK_PAYLOAD / eb) bss ltac:(lia))) in Hr.
  exists (table_of sub_node heap rows t (map (row_of t) bss)), s'. split_and!; [|done|by apply table_in_length in Hin|by apply table_in_delivers].
  by eapply read_steps.
Qed.

Lemma page_readable specs columns rows page id :
  schema_ok specs -> schema_columns specs = Ok columns -> Forall (row_spec_ok columns) rows -> ids_distinct rows ->
  UnicodeBlockId.is_internal id = false -> table_context columns rows = Ok page ->
  let built := mk_TableBuild id None [mk_BlockSpec id (Data page) 2] in
  table_built built [page] [] /\ table_readable built [page] [] columns rows.
Proof.
  intros Hs Hc Hok Hids Hid H built.
  pose proof (table_context_size specs columns rows page Hs Hc Hok H) as Hsz.
  split; [split_and!; [|by constructor|done]|].
  - left. exists page. split; [done|]. split_and!; [by apply list_elem_of_singleton|done|done].
  - intros E B I S ? ? ? ? ? ? ? ? ? ? ? ? f encoding sub_node key cache cache' heap Hheap Hpages _ Hco.
    destruct (page_reads_back (E := E) f encoding specs columns rows page sub_node key cache cache' heap Hs Hc Hok Hids H Hheap Hpages)
      as (self & Hr & Hl & Hd). by exists self, (cache', ∅).
Qed.

(** The blocks of a table in one page. *)
Definition page_build (id : UnicodeBlockId) (page : list Z) : TableBuild := mk_TableBuild id None [mk_BlockSpec id (Data page) 2].

Lemma page_build_unique id page pages entries :
  UnicodeBlockId.is_internal id = false -> table_built (page_build id page) pages entries -> pages = [page] /\ entries = [].
Proof.
  intros Hid (Ht & _ & He). split; [|exact He]. apply tree_holds_leaf in Ht as (d & -> & Hin & _); [|exact Hid].
  apply list_elem_of_singleton in Hin. by injection Hin as ->.
Qed.

Lemma nothing_stored : nodes_stored (E := UnicodeBlockBTreeEntry.t) recipients_file Permute None
  (tb_blocks (page_build (mk_UnicodeBlockId 4) recipients_page)) [].
Proof. by intros n root ds Hn%elem_of_nil. Qed.

Lemma recipients_coherent : coherent (E := UnicodeBlockBTreeEntry.t) recipients_file Permute (DataTree.sample_state.1, ∅).
Proof. split; intros id t H; exfalso; [exact H|exact (lookup_empty_Some (M := gmap Z) _ _ H)]. Qed.

(** C4: A table built from a schema with the two columns of a row and from
    rows with distinct ids, each with values for its columns at most once, in
    one page or over several blocks, is read back: any reader that finds its
    pages as the heap of the node, and the data trees of its sub-nodes if
    there are any, reads the table with the columns of the schema and as many
    rows as were given; a row is found by its id exactly when it was given,
    and each of its columns has the value it was given, the id of the row,
    its version, or none; a value without bytes has the heap id 0. *)
Theorem build_table_context_reads_back (specs : list ColumnSpec) (columns : list TableColumnDescriptor)
  (rows : list TableRowSpec) (compact_block : option UnicodeBlockId) (next next' : Z) (b : TableBuild)
  (Hschema : schema_ok specs) (Hcolumns : schema_columns specs = Ok columns)
  (Hrows : Forall (row_spec_ok columns) rows) (Hids : ids_distinct rows)
  (Hleaf : forall id, compact_block = Some id -> UnicodeBlockId.is_internal id = false)
  (Hbuild : build_table_context columns rows compact_block next = (Ok b, next')) :
  exists pages entries, table_built b pages entries /\ table_readable b pages entries columns rows.
Proof.
  unfold build_table_context in Hbuild. destruct (table_context columns rows) as [page|e|] eqn:Hpage; [| |done].
  - assert (exists id, UnicodeBlockId.is_internal id = false /\ b = mk_TableBuild id None [mk_BlockSpec id (Data page) 2]) as (id & Hi & ->).
    { destruct compact_block as [id|].
      - injection Hbuild as <- _. exists id. split; [by apply Hleaf|done].
      - destruct (take_block_id false _) as [[id|e|] s] eqn:Ht; [|done..]. injection Hbuild as <- _.
        apply take_block_id_ok in Ht as (Hn & _). exists id. split; [by eapply new_is_internal|done]. }
    exists [page], []. by eapply page_readable.
  - destruct (is_heap_page_too_large e); [|done]. destruct (table_context_external columns rows next) as [[x|e'|] n] eqn:Hx; [|done..].
    injection Hbuild as <- <-. by eapply external_readable.
Qed.

Lemma build_table_context_reads_back_witness :
  exists b self s, build_table_context sample_table_columns sample_recipients None 1 = (Ok b, 2) /\
    TableContext.read (E := UnicodeBlockBTreeEntry.t) recipients_file Permute None 4 DataTree.sample_state.1 = Some (Ok self, s) /\
    length (tc_rows self) = 2%nat /\
    table_delivers (E := UnicodeBlockBTreeEntry.t) recipients_file Permute self sample_table_columns sample_recipients.
Proof.
  assert (Hb : build_table_context sample_table_columns sample_recipients None 1 = (Ok (page_build (mk_UnicodeBlockId 4) recipients_page), 2))
    by (vm_compute; reflexivity).
  destruct (build_table_context_reads_back recipient_schema sample_table_columns sample_recipients None 1 2
    (page_build (mk_UnicodeBlockId 4) recipients_page)) as (pages & entries & Ht & Hread).
  - split; [|split]; [apply (bool_decide_unpack _); vm_compute; exact Logic.I..|].
    apply (bool_decide_unpack _). vm_compute. exact Logic.I.
  - vm_compute. reflexivity.
  - exact sample_recipients_ok.
  - apply (bool_decide_unpack _). vm_compute. exact Logic.I.
  - discriminate.
  - exact Hb.
  - destruct (page_build_unique (mk_UnicodeBlockId 4) recipients_page pages entries eq_refl Ht) as [-> ->].
    destruct (Hread UnicodeBlockBTreeEntry.t UnicodeBlockId UnicodeByteIndex _ _ _ _ _ _ _ _ _ _ _ _ _ recipients_file Permute None 4 DataTree.sample_state.1 DataTree.sample_state.1 recipients_heap)
      as (self & s & Hr & _ & Hl & Hd).
    + vm_compute. reflexivity.
    + vm_compute. reflexivity.
    + exact nothing_stored.
    + exact recipients_coherent.
    + exists (page_build (mk_UnicodeBlockId 4) recipients_page), self, s. split; [exact Hb|]. split; [exact Hr|]. split; [exact Hl|exact Hd].
Defined.
