(* ===== verification/NamedProps.v ===== *)
(** * The named property map

    [messaging/named_prop.rs]: the entries, GUIDs and strings of the map from
    the ids of named properties to their names, and the buckets through which
    a name is looked up. *)
From S2P Require Import Prelude Errors Io Crc Ids Header Lookup DataTree Heap HeapTree PropValue PropContext Order.
#[local] Open Scope Z_scope.

(** ** Ids, GUIDs and indexes *)

Module NamedPropertyId.
Inductive t := Number (id : Z) | StringOffset (offset : Z).
#[global] Instance eq_dec : EqDecision t.
Proof. solve_decision. Defined.
End NamedPropertyId.

Module NamedPropertyGuid.
Inductive t := None_ | Mapi | PublicStrings | GuidIndex (index : Z).
#[global] Instance eq_dec : EqDecision t.
Proof. solve_decision. Defined.

(** [impl From<NamedPropertyGuid> for u16] *)
Definition into_u16 (guid : t) : Z :=
  match guid with
  | None_ => 0x0000
  | Mapi => 0x0001
  | PublicStrings => 0x0002
  | GuidIndex index => wrapping_add 16 index 3
  end.

Definition try_from (value : Z) : MessagingResult t :=
  if negb (Z.land value 0x8000 =? 0) then Err (NamedPropertyMapGuidIndexOutOfBounds value) else
  Ok (if value =? 0x0000 then None_ else if value =? 0x0001 then Mapi else
      if value =? 0x0002 then PublicStrings else GuidIndex (value - 3)).
End NamedPropertyGuid.

Record NamedPropertyIndex := mk_NamedPropertyIndex { npi_0 : Z }.
#[export] Instance NamedPropertyIndex_eq_dec : EqDecision NamedPropertyIndex.
Proof. solve_decision. Defined.

Module NamedPropertyIndex.
Definition into_u16 (i : NamedPropertyIndex) : Z := wrapping_sub 16 (npi_0 i) 0x8000.
Definition try_from (value : Z) : MessagingResult NamedPropertyIndex :=
  if 0x8000 <=? value then Err (NamedPropertyMapPropertyIndexOutOfBounds value)
  else Ok (mk_NamedPropertyIndex (value + 0x8000)).
End NamedPropertyIndex.

Definition PS_MAPI : GuidValue := mk_GuidValue 0x00020328 0x0000 0x0000 [0xC0; 0x00; 0x00; 0x00; 0x00; 0x00; 0x00; 0x46].
Definition PS_PUBLIC_STRINGS : GuidValue :=
  mk_GuidValue 0x00020329 0x0000 0x0000 [0xC0; 0x00; 0x00; 0x00; 0x00; 0x00; 0x00; 0x46].

(** ** Strings *)

Record StringEntry := mk_StringEntry { se_size : Z; se_buffer : list Z }.

(** [String::from_utf16_lossy] *)
Fixpoint from_utf16_lossy (l : list Z) : list Z :=
  match l with
  | [] => []
  | u :: l =>
      if (u <? 0xD800) || (0xDFFF <? u) then u :: from_utf16_lossy l
      else if 0xDC00 <=? u then 0xFFFD :: from_utf16_lossy l
      else match l with
           | [] => [0xFFFD]
           | v :: l' =>
               if (v <? 0xDC00) || (0xDFFF <? v) then 0xFFFD :: from_utf16_lossy l
               else (0x10000 + Z.shiftl (u - 0xD800) 10 + (v - 0xDC00)) :: from_utf16_lossy l'
           end
  end.

Module StringEntry.
Definition new (size : Z) (buffer : list Z) : MessagingResult StringEntry :=
  if negb (size mod 2 =? 0) || negb (size =? Z.of_nat (length buffer)) then Err NamedPropertyMapStringEntryOutOfBounds
  else Ok (mk_StringEntry size buffer).

(** [f.take(size).read_to_end(&mut buffer)] *)
Definition take_to_end (size : Z) : reader (list Z) := fun s => Ok (take (Z.to_nat size) s, drop (Z.to_nat size) s).

Definition read : reader StringEntry :=
  size <- read_u32;;
  rd_lift (messaging (ensure (size mod 2 =? 0) (InvalidNamedPropertyMapStreamString PT_Binary)));;;
  buffer <- take_to_end size;;
  rd_lift (messaging (ensure (Z.of_nat (length buffer) =? size) NamedPropertyMapStringEntryOutOfBounds));;;
  rd_lift (messaging (new size buffer)).

Definition write (self : StringEntry) : list Z := write_u32 (se_size self) ++ se_buffer self.

(** [cursor.read_u16().unwrap_or_default()], [count] times. *)
Fixpoint units (count : nat) (s : list Z) : list Z :=
  match count with
  | O => []
  | S count => match read_u16 s with Ok (u, s) => u :: units count s | _ => 0 :: units count [] end
  end.

(** [impl Display for StringEntry] *)
Definition to_string (self : StringEntry) : list Z :=
  from_utf16_lossy (units (Z.to_nat (se_size self / 2)) (se_buffer self)).
End StringEntry.

(** The rounds of [parse_string_entries] from the position [position]; [rest]
    are the bytes from there on. A round reads at least four bytes. *)
Fixpoint string_entries (fuel : nat) (position : Z) (rest : list Z) : io_result (list (Z * StringEntry)) :=
  match fuel, rest with
  | _, [] => Ok []
  | O, _ => Panic
  | S fuel, _ =>
      let? offset := messaging (ok_or (if uint_b 32 position then Some position else None) NamedPropertyMapStringEntryOutOfBounds) in
      let? '(entry, after) := StringEntry.read rest in
      let padding := (4 - se_size entry mod 4) mod 4 in
      if Z.of_nat (length after) <? padding then Err (MessagingData NamedPropertyMapStringEntryOutOfBounds) else
      if existsb (fun byte => negb (byte =? 0)) (take (Z.to_nat padding) after)
      then Err (MessagingData NamedPropertyMapStringEntryOutOfBounds) else
      let after := drop (Z.to_nat padding) after in
      let? results := string_entries fuel (position + Z.of_nat (length rest - length after)) after in
      Ok ((offset, entry) :: results)
  end.

Definition parse_string_entries (bytes : list Z) : io_result (list (Z * StringEntry)) :=
  string_entries (length bytes) 0 bytes.

(** ** Entries *)

Record NameIdEntry := mk_NameIdEntry {
  ni_id : NamedPropertyId.t;
  ni_guid : NamedPropertyGuid.t;
  ni_prop_index : NamedPropertyIndex
}.
#[export] Instance NameIdEntry_eq_dec : EqDecision NameIdEntry.
Proof. solve_decision. Defined.

Module NameIdEntry.
Definition prop_id (self : NameIdEntry) : Z := npi_0 (ni_prop_index self).

(** [guid << 1], with the kind of the id in the lowest bit. *)
Definition id_and_guid_index (self : NameIdEntry) : Z * Z :=
  let guid := NamedPropertyGuid.into_u16 (ni_guid self) in
  match ni_id self with
  | NamedPropertyId.Number id => (id, wrap 16 (Z.shiftl guid 1))
  | NamedPropertyId.StringOffset offset => (offset, Z.lor (wrap 16 (Z.shiftl guid 1)) 0x0001)
  end.

Definition hash_value (self : NameIdEntry) : Z :=
  let '(prop_id, guid_index) := id_and_guid_index self in Z.lxor prop_id guid_index.

Definition read : reader NameIdEntry :=
  prop_id <- read_u32;;
  guid_index <- read_u16;;
  prop_index <- read_u16;;
  prop_index <- rd_lift (messaging (NamedPropertyIndex.try_from prop_index));;
  let id := if Z.land guid_index 0x0001 =? 0 then NamedPropertyId.Number prop_id else NamedPropertyId.StringOffset prop_id in
  guid <- rd_lift (messaging (NamedPropertyGuid.try_from (Z.shiftr guid_index 1)));;
  rd_ret (mk_NameIdEntry id guid prop_index).

Definition write (self : NameIdEntry) : list Z :=
  let '(prop_id, guid_index) := id_and_guid_index self in
  write_u32 prop_id ++ write_u16 guid_index ++ write_u16 (NamedPropertyIndex.into_u16 (ni_prop_index self)).
End NameIdEntry.

(** ** The map *)

(** [while cursor.position() < buffer.len()]: values read up to the end. *)
Fixpoint read_whole {A} (fuel : nat) (m : reader A) (s : list Z) : io_result (list A) :=
  match fuel, s with
  | _, [] => Ok []
  | O, _ => Panic
  | S fuel, _ => let? '(a, s) := m s in let? results := read_whole fuel m s in Ok (a :: results)
  end.

(** [properties] by id; an instance of [io::Error::new(InvalidData, ..)] is
    [InvalidData_msg]. *)
Record NamedPropertyMapProperties := mk_NamedPropertyMapProperties { np_properties : gmap Z PropertyValue.t }.

Module NamedPropertyMapProperties.
Section queries.
Context (self : NamedPropertyMapProperties).

Definition get (id : Z) : option PropertyValue.t := np_properties self !! id.

(** [PropertyValue::Binary(value)] and its bytes, or the error of another type. *)
Definition binary (value : PropertyValue.t) (invalid : PropertyType -> MessagingError) : io_result (list Z) :=
  match value with
  | PropertyValue.Binary buffer => Ok buffer
  | value => Err (MessagingData (invalid (PropertyValue.prop_type value)))
  end.

Definition bucket_count : io_result Z :=
  let? bucket_count := messaging (ok_or (get 0x0001) NamedPropertyMapBucketCountNotFound) in
  match bucket_count with
  | PropertyValue.Integer32 value =>
      let? count := messaging (ok_or (if uint_b 16 value then Some value else None) (NamedPropertyMapBucketCountOutOfBounds value)) in
      if (count =? 0) || (2 ^ 16 - 1 - 0x1000 <? count)
      then Err (MessagingData (NamedPropertyMapBucketCountOutOfBounds value)) else Ok count
  | invalid => Err (MessagingData (InvalidNamedPropertyMapBucketCount (PropertyValue.prop_type invalid)))
  end.

(** [NAMEID] entries in the bytes of a stream or bucket. *)
Definition entries_of (buffer : list Z) : io_result (list NameIdEntry) :=
  if negb (Z.of_nat (length buffer) mod 8 =? 0) then Err InvalidData_msg
  else read_whole (length buffer) NameIdEntry.read buffer.

Definition hash_bucket (name_id : NameIdEntry) : io_result (list NameIdEntry) :=
  let? bucket_count := bucket_count in
  let bucket_offset := NameIdEntry.hash_value name_id mod bucket_count in
  let? bucket_offset := messaging (ok_or (if uint_b 16 bucket_offset then Some bucket_offset else None)
                                         (NamedPropertyMapBucketOffsetOutOfBounds bucket_offset)) in
  if 2 ^ 16 - 1 - 0x1000 <? bucket_offset then Err (MessagingData (NamedPropertyMapBucketNotFound bucket_offset)) else
  let bucket_prop := 0x1000 + bucket_offset in
  let? hash_bucket := messaging (ok_or (get bucket_prop) (NamedPropertyMapBucketNotFound bucket_offset)) in
  let? buffer := binary hash_bucket InvalidNamedPropertyMapStreamString in
  entries_of buffer.

(** [PropertyValue::read(&mut cursor, PropertyType::Guid)] and the match on it. *)
Definition read_guid : reader GuidValue :=
  entry <- PropertyValueIo.read PT_Guid;;
  match entry with
  | PropertyValue.Guid guid => rd_ret guid
  | invalid => rd_lift (Err (MessagingData (InvalidNamedPropertyMapStreamGuid (PropertyValue.prop_type invalid))))
  end.

Definition lookup_guid (index : NamedPropertyGuid.t) : io_result GuidValue :=
  match index with
  | NamedPropertyGuid.Mapi => Ok PS_MAPI
  | NamedPropertyGuid.PublicStrings => Ok PS_PUBLIC_STRINGS
  | NamedPropertyGuid.None_ => Err (MessagingData (NamedPropertyMapGuidIndexOutOfBounds 0))
  | NamedPropertyGuid.GuidIndex index =>
      let? stream_guid := messaging (ok_or (get 0x0002) NamedPropertyMapStreamGuidNotFound) in
      let? buffer := binary stream_guid InvalidNamedPropertyMapStreamGuid in
      let start := index * 16 in
      let end_ := start + 16 in
      if Z.of_nat (length buffer) <? end_ then Err (MessagingData (NamedPropertyMapGuidIndexOutOfBounds index)) else
      let? '(guid, _) := read_guid (take 16 (drop (Z.to_nat start) buffer)) in Ok guid
  end.

Definition stream_guid : io_result (list GuidValue) :=
  let? stream_guid := messaging (ok_or (get 0x0002) NamedPropertyMapStreamGuidNotFound) in
  let? buffer := binary stream_guid InvalidNamedPropertyMapStreamGuid in
  if negb (Z.of_nat (length buffer) mod 16 =? 0) then Err InvalidData_msg
  else read_whole (length buffer) read_guid buffer.

Definition stream_entry : io_result (list NameIdEntry) :=
  let? stream_entry := messaging (ok_or (get 0x0003) NamedPropertyMapStreamEntryNotFound) in
  let? buffer := binary stream_entry InvalidNamedPropertyMapStreamEntry in
  entries_of buffer.

Definition string_stream : io_result (list (Z * StringEntry)) :=
  let? stream_string := messaging (ok_or (get 0x0004) NamedPropertyMapStreamStringNotFound) in
  let? buffer := binary stream_string InvalidNamedPropertyMapStreamString in
  parse_string_entries buffer.

Definition lookup_string (offset : Z) : io_result StringEntry :=
  let? entries := string_stream in
  messaging (ok_or (snd <$> find (fun entry => entry.1 =? offset) entries) NamedPropertyMapStringEntryOutOfBounds).

Definition stream_string : io_result (list StringEntry) :=
  let? entries := string_stream in Ok (map snd entries).

Definition hash_entry (entry : NameIdEntry) : io_result NameIdEntry :=
  match ni_id entry with
  | NamedPropertyId.Number _ => Ok entry
  | NamedPropertyId.StringOffset offset =>
      let? string_entry := lookup_string offset in
      let hash_value := NamedPropertyId.StringOffset (compute_crc 0 (se_buffer string_entry)) in
      Ok (mk_NameIdEntry hash_value NamedPropertyGuid.None_ (ni_prop_index entry))
  end.
End queries.
End NamedPropertyMapProperties.

(** ** What is written is read back *)

(** The two parts of [guid_index], in which the kind of the id is the lowest
    bit. *)
Lemma guid_kind g t : 0 <= g < 0x8000 -> uint 1 t ->
  uint 16 (Z.lor (wrap 16 (Z.shiftl g 1)) t) /\ Z.land (Z.lor (wrap 16 (Z.shiftl g 1)) t) 0x0001 = t /\
  Z.shiftr (Z.lor (wrap 16 (Z.shiftl g 1)) t) 1 = g.
Proof.
  intros Hg Ht. assert (Hu : uint 16 (Z.shiftl g 1)) by (unfold uint; rewrite Z.shiftl_mul_pow2 by lia; lia).
  rewrite (wrap_small 16) by done. split; [apply uint_lor; [done|done|by apply (uint_le 1)]|].
  by apply (shiftl_lor_low g 1 t ltac:(lia) ltac:(lia)).
Qed.

(** The GUIDs a program can hold whose numbers fit an entry. *)
Definition guid_ok (guid : NamedPropertyGuid.t) : Prop :=
  match guid with NamedPropertyGuid.GuidIndex index => 0 <= index < 0x7FFD | _ => True end.

Lemma guid_into_u16 guid :
  guid_ok guid -> 0 <= NamedPropertyGuid.into_u16 guid < 0x8000 /\
    NamedPropertyGuid.try_from (NamedPropertyGuid.into_u16 guid) = Ok guid.
Proof.
  destruct guid as [| | |i]; cbn [guid_ok NamedPropertyGuid.into_u16]; intros Hi; [by vm_compute; split_and!..|].
  unfold wrapping_add, wrap. rewrite Z.mod_small by lia. split; [lia|]. unfold NamedPropertyGuid.try_from.
  replace (Z.land (i + 3) 0x8000) with 0.
  - cbn. repeat (rewrite (proj2 (Z.eqb_neq _ _)) by lia). do 2 f_equal. lia.
  - symmetry. zbits. rewrite Z.land_spec, Z.bits_0. change 0x8000 with (2 ^ 15). destruct (Z.eq_dec n 15) as [->|Hn].
    + rewrite (uint_testbit_high 15); [done|unfold uint; lia|lia].
    + rewrite Z.pow2_bits_false by lia. apply andb_false_r.
Qed.

#[export] Instance NameIdEntry_serial : Serial NameIdEntry := {|
  ser_read := NameIdEntry.read;
  ser_write := NameIdEntry.write;
  ser_wf e := match ni_id e with NamedPropertyId.Number x | NamedPropertyId.StringOffset x => uint 32 x end /\
    guid_ok (ni_guid e) /\ 0x8000 <= NameIdEntry.prop_id e < 0x10000;
  ser_size := 8
|}.

#[export] Instance NameIdEntry_rt : RoundTrip NameIdEntry.
Proof.
  split.
  - intros [id guid [i]] s (Hid & Hg & Hi). cbn [ni_id ni_guid NameIdEntry.prop_id npi_0 ni_prop_index] in *.
    destruct (guid_into_u16 guid Hg) as [Hu Ht]. set (g := NamedPropertyGuid.into_u16 guid) in *.
    assert (Hx : NamedPropertyIndex.try_from (wrapping_sub 16 i 0x8000) = Ok (mk_NamedPropertyIndex i) /\ uint 16 (wrapping_sub 16 i 0x8000)).
    { unfold wrapping_sub, wrap, NamedPropertyIndex.try_from. rewrite Z.mod_small by lia.
      rewrite (proj2 (Z.leb_gt _ _)) by lia. split; [do 2 f_equal; lia|unfold uint; lia]. }
    destruct Hx as [Hx Hxu].
    assert (H0 : forall x t, uint 32 x -> uint 1 t ->
      NameIdEntry.read ((write_u32 x ++ write_u16 (Z.lor (wrap 16 (Z.shiftl g 1)) t) ++ write_u16 (wrapping_sub 16 i 0x8000)) ++ s) =
      Ok (mk_NameIdEntry (if t =? 0 then NamedPropertyId.Number x else NamedPropertyId.StringOffset x) guid (mk_NamedPropertyIndex i), s)).
    { intros x t Hxx Htt. destruct (guid_kind g t Hu Htt) as (Hw & Hl & Hr). unfold NameIdEntry.read. rewrite <- !app_assoc.
      rewrite (rd_bind_eq _ _ _ _ _ (read_u32_app _ _ Hxx)), (rd_bind_eq _ _ _ _ _ (read_u16_app _ _ Hw)),
        (rd_bind_eq _ _ _ _ _ (read_u16_app _ _ Hxu)).
      rewrite (rd_lift_eq _ _ _ (mk_NamedPropertyIndex i)) by (by apply messaging_ok).
      rewrite Hr, (rd_lift_eq _ _ _ guid) by (by apply messaging_ok). by rewrite Hl. }
    cbn [ser_write ser_read NameIdEntry_serial]. unfold NameIdEntry.write, NameIdEntry.id_and_guid_index. fold g.
    cbn [ni_guid ni_id ni_prop_index NamedPropertyIndex.into_u16 npi_0]. destruct id as [x|x].
    + specialize (H0 x 0 Hid ltac:(done)). by rewrite Z.lor_0_r in H0.
    + by apply (H0 x 1).
  - intros [[x|x] guid i]; done.
  - intros [[x|x] guid i]; cbn; repeat apply Forall_app_2; apply le_bytes_ok.
Qed.

(** Values that are written one after the other. *)
Lemma read_whole_concat {A} `{RoundTrip A} (l : list A) fuel :
  (0 < ser_size)%nat -> Forall ser_wf l -> (length (concat (map ser_write l)) <= fuel)%nat ->
  read_whole fuel ser_read (concat (map ser_write l)) = Ok l.
Proof.
  intros Hs Hl. revert fuel. induction Hl as [|a l Ha _ IH]; intros fuel Hf; [by destruct fuel|].
  cbn [map concat] in *. rewrite length_app in Hf. pose proof (rt_size a) as Hz.
  destruct fuel as [|fuel]; [lia|]. destruct (ser_write a ++ concat (map ser_write l)) as [|x y] eqn:E.
  { apply (f_equal length) in E. rewrite length_app in E. cbn in E. lia. }
  cbn [read_whole]. rewrite <- E, (rt_read a _ Ha). cbn [rbind]. rewrite IH by lia. done.
Qed.

(** *** The stream of strings *)

(** A string in the stream: its length, its bytes and zeros up to a multiple
    of four. *)
Definition padding_of (bytes : list Z) : nat := Z.to_nat ((4 - Z.of_nat (length bytes) mod 4) mod 4).
Definition frame (bytes : list Z) : list Z :=
  write_u32 (Z.of_nat (length bytes)) ++ bytes ++ replicate (padding_of bytes) 0.

(** Bytes of code units. *)
Definition string_bytes_ok (bytes : list Z) : Prop :=
  Z.of_nat (length bytes) mod 2 = 0 /\ Z.of_nat (length bytes) < 2 ^ 32.

Fixpoint framed_entries (position : Z) (strings : list (list Z)) : list (Z * StringEntry) :=
  match strings with
  | [] => []
  | bytes :: strings =>
      (position, mk_StringEntry (Z.of_nat (length bytes)) bytes) ::
      framed_entries (position + Z.of_nat (length (frame bytes))) strings
  end.

Lemma length_frame bytes : length (frame bytes) = (4 + length bytes + padding_of bytes)%nat.
Proof. unfold frame. rewrite !length_app, length_replicate, length_write_u32. lia. Qed.

Lemma string_entry_read bytes s :
  string_bytes_ok bytes ->
  StringEntry.read (write_u32 (Z.of_nat (length bytes)) ++ bytes ++ s) = Ok (mk_StringEntry (Z.of_nat (length bytes)) bytes, s).
Proof.
  intros [He Hl]. unfold StringEntry.read. assert (Hu : uint 32 (Z.of_nat (length bytes))) by (split; [apply Nat2Z.is_nonneg|done]).
  rewrite (rd_bind_eq _ _ _ _ _ (read_u32_app _ _ Hu)).
  rewrite (rd_lift_eq _ _ _ tt) by (rewrite He; reflexivity).
  rewrite (rd_bind_eq _ _ _ bytes s).
  2: { unfold StringEntry.take_to_end. rewrite Nat2Z.id. by rewrite take_app_length, drop_app_length. }
  rewrite (rd_lift_eq _ _ _ tt) by (by rewrite Z.eqb_refl).
  unfold rd_lift, StringEntry.new. by rewrite He, !Z.eqb_refl.
Qed.

Lemma no_byte_set n : existsb (fun byte => negb (byte =? 0)) (replicate n 0) = false.
Proof. by induction n. Qed.

Lemma string_entries_frames strings fuel position :
  Forall string_bytes_ok strings -> 0 <= position ->
  position + Z.of_nat (length (concat (map frame strings))) <= 2 ^ 32 ->
  (length (concat (map frame strings)) <= fuel)%nat ->
  string_entries fuel position (concat (map frame strings)) = Ok (framed_entries position strings).
Proof.
  intros Hs. revert fuel position. induction Hs as [|bytes strings Hb _ IH]; intros fuel position Hp Hmax Hf; [by destruct fuel|].
  cbn [map concat framed_entries] in *. rewrite length_app, length_frame in *. destruct fuel as [|fuel]; [lia|].
  set (rest := concat (map frame strings)) in *.
  destruct (frame bytes ++ rest) as [|x y] eqn:E; [apply (f_equal length) in E; rewrite length_app, length_frame in E; cbn in E; lia|].
  cbn [string_entries]. rewrite <- E. clear E x y.
  replace (uint_b 32 position) with true by (symmetry; apply uint_b_spec; unfold uint; lia). cbn [ok_or messaging rmap_err rbind].
  replace (frame bytes ++ rest) with (write_u32 (Z.of_nat (length bytes)) ++ bytes ++ replicate (padding_of bytes) 0 ++ rest)
    by (unfold frame; by rewrite <- !app_assoc).
  rewrite string_entry_read by done. cbn [rbind se_size]. rewrite !length_app, length_replicate, length_write_u32.
  fold (padding_of bytes). assert (Hpad : Z.of_nat (padding_of bytes) = (4 - Z.of_nat (length bytes) mod 4) mod 4)
    by (unfold padding_of; rewrite Z2Nat.id; [done|apply Z.mod_pos_bound; lia]).
  rewrite (proj2 (Z.ltb_ge _ _)) by lia.
  rewrite take_app_length' by (by rewrite length_replicate). rewrite drop_app_length' by (by rewrite length_replicate).
  rewrite no_byte_set.
  rewrite IH by lia. cbn [rbind]. repeat f_equal. lia.
Qed.

Lemma parse_frames strings :
  Forall string_bytes_ok strings -> Z.of_nat (length (concat (map frame strings))) <= 2 ^ 32 ->
  parse_string_entries (concat (map frame strings)) = Ok (framed_entries 0 strings).
Proof. intros Hs Hm. by apply string_entries_frames. Qed.

(** The position of the [k]-th string. *)
Definition string_offset (strings : list (list Z)) (k : nat) : Z := Z.of_nat (length (concat (map frame (take k strings)))).

Lemma framed_lookup strings k bytes position :
  strings !! k = Some bytes ->
  find (fun entry => entry.1 =? position + string_offset strings k) (framed_entries position strings) =
  Some (position + string_offset strings k, mk_StringEntry (Z.of_nat (length bytes)) bytes).
Proof.
  revert k position. induction strings as [|s strings IH]; intros k position Hk; [done|].
  destruct k as [|k]; cbn [lookup] in Hk.
  - injection Hk as <-. unfold string_offset. cbn [take map concat length Z.of_nat framed_entries find fst].
    rewrite Z.add_0_r, Z.eqb_refl. done.
  - specialize (IH k (position + Z.of_nat (length (frame s))) Hk). cbn [framed_entries find fst].
    replace (position + string_offset (s :: strings) (S k))
      with (position + Z.of_nat (length (frame s)) + string_offset strings k)
      by (unfold string_offset; cbn [take map concat]; rewrite length_app; lia).
    rewrite (proj2 (Z.eqb_neq _ _)); [exact IH|]. unfold string_offset. rewrite length_frame. lia.
Qed.

Lemma units_read l : Forall (uint 16) l -> StringEntry.units (length l) (concat (map write_u16 l)) = l.
Proof.
  induction 1 as [|u l Hu _ IH]; [done|]. cbn [length StringEntry.units map concat]. rewrite read_u16_app by done. by rewrite IH.
Qed.
