(* ===== verification/MessageSpec.v ===== *)
(** * The input of the writer

    [writer.rs]: a message with its recipients, bodies, attachments and
    properties, as it is given to the writer, and the named properties with
    the order in which sets of them are kept. *)
From S2P Require Import Prelude Errors Order Alloc WriterTree WriterValues WriterTable.
#[local] Open Scope Z_scope.

(** ** Named properties *)

Module NamedPropertySet.
Inductive t := Mapi | PublicStrings | Guid (bytes : list Z).
#[global] Instance eq_dec : EqDecision t.
Proof. solve_decision. Defined.

Definition cmp (x y : t) : comparison :=
  match x, y with
  | Mapi, Mapi => Eq | Mapi, _ => Lt
  | PublicStrings, Mapi => Gt | PublicStrings, PublicStrings => Eq | PublicStrings, Guid _ => Lt
  | Guid a, Guid b => list_cmp Z.compare a b | Guid _, _ => Gt
  end.
End NamedPropertySet.

Module NamedPropertyName.
Inductive t := Numeric (id : Z) | String (name : list Z).
#[global] Instance eq_dec : EqDecision t.
Proof. solve_decision. Defined.

(** Strings are compared by the bytes of their UTF-8 encoding, which order
    them as their scalar values do. *)
Definition cmp (x y : t) : comparison :=
  match x, y with
  | Numeric a, Numeric b => Z.compare a b | Numeric _, String _ => Lt
  | String a, String b => list_cmp Z.compare a b | String _, Numeric _ => Gt
  end.
End NamedPropertyName.

(** [type NamedIdentity = (NamedPropertySet, NamedPropertyName)] *)
Definition NamedIdentity : Type := NamedPropertySet.t * NamedPropertyName.t.
#[global] Instance NamedIdentity_eq_dec : EqDecision NamedIdentity := prod_eq_dec.

Definition identity_cmp : NamedIdentity -> NamedIdentity -> comparison :=
  lex_cmp fst NamedPropertySet.cmp snd NamedPropertyName.cmp.

(** [Vec::dedup] *)
Fixpoint dedup {A} `{EqDecision A} (l : list A) : list A :=
  match l with
  | a :: (b :: _) as l' => if decide (a = b) then dedup l' else a :: dedup l'
  | l => l
  end.

(** A [BTreeSet] is the sorted list of its elements. *)
Definition btree_set {A} `{EqDecision A} (cmp : A -> A -> comparison) (l : list A) : list A := dedup (sort_by cmp l).

Record NamedProperty := mk_NamedProperty {
  nmp_set : NamedPropertySet.t;
  nmp_name : NamedPropertyName.t;
  nmp_value : RawPropertyValue.t
}.

Definition named_identity (p : NamedProperty) : NamedIdentity := (nmp_set p, nmp_name p).

(** ** Properties and payloads *)

Record RawProperty := mk_RawProperty { rp_id : Z; rp_value : RawPropertyValue.t }.

(** [FileBlobSpec] with its path, the bytes of an [OsStr]. *)
Record FileBlob := mk_FileBlob { fb_path : list Z; fb_spec : FileBlobSpec }.

Record SpooledPropertySpec := mk_SpooledPropertySpec { sps_id : Z; sps_property_type : Z; sps_blob : FileBlob }.
Record DirectPropertySpec := mk_DirectPropertySpec { dps_id : Z; dps_property_type : Z; dps_blob : DirectBlobSpec }.
Record UnsupportedProperty := mk_UnsupportedProperty { up_id : Z; up_property_type : Z; up_byte_len : Z }.

Inductive NativeBody := PlainText | Rtf | Html.
Definition NativeBody_as_i32 (b : NativeBody) : Z := match b with PlainText => 1 | Rtf => 2 | Html => 3 end.

(** ** Attachments *)

Inductive AttachmentReferenceMethod := ByReference | ByReferenceResolve | ByReferenceOnly | ByWebReference.
#[global] Instance AttachmentReferenceMethod_eq_dec : EqDecision AttachmentReferenceMethod.
Proof. solve_decision. Defined.
Definition AttachmentReferenceMethod_as_i32 (m : AttachmentReferenceMethod) : Z :=
  match m with ByReference => 2 | ByReferenceResolve => 3 | ByReferenceOnly => 4 | ByWebReference => 7 end.

Record AttachmentReferenceSpec := mk_AttachmentReferenceSpec {
  ars_method : AttachmentReferenceMethod;
  ars_long_pathname : list Z;
  ars_pathname : option (list Z);
  ars_provider_type : option (list Z);
  ars_original_permission : option Z;
  ars_permission : option Z
}.

Inductive OleDataKind := OleObject | OleBinary.
#[global] Instance OleDataKind_eq_dec : EqDecision OleDataKind.
Proof. solve_decision. Defined.

Record OleAttachmentSpec := mk_OleAttachmentSpec { oas_data : FileBlob; oas_data_kind : OleDataKind }.
Record DirectOleAttachmentSpec := mk_DirectOleAttachmentSpec { doas_data : DirectBlobSpec; doas_data_kind : OleDataKind }.

(** [M] is the type of messages, which attachments may embed. *)
Inductive AttachmentContent (M : Type) :=
| AC_Binary (data : list Z)
| AC_Spooled (blob : FileBlob)
| AC_Direct (blob : DirectBlobSpec)
| AC_Embedded (message : M)
| AC_Reference (reference : AttachmentReferenceSpec)
| AC_Ole (ole : OleAttachmentSpec)
| AC_DirectOle (ole : DirectOleAttachmentSpec).
Arguments AC_Binary {M} data.
Arguments AC_Spooled {M} blob.
Arguments AC_Direct {M} blob.
Arguments AC_Embedded {M} message.
Arguments AC_Reference {M} reference.
Arguments AC_Ole {M} ole.
Arguments AC_DirectOle {M} ole.

Record AttachmentOf (M : Type) := mk_AttachmentSpec {
  as_filename : list Z;
  as_mime_type : option (list Z);
  as_content_id : option (list Z);
  as_content_location : option (list Z);
  as_rendering_position : option Z;
  as_flags : Z;
  as_raw_properties : list RawProperty;
  as_spooled_properties : list SpooledPropertySpec;
  as_direct_properties : list DirectPropertySpec;
  as_content : AttachmentContent M
}.
Arguments mk_AttachmentSpec {M}.
Arguments as_filename {M}.
Arguments as_mime_type {M}.
Arguments as_content_id {M}.
Arguments as_content_location {M}.
Arguments as_rendering_position {M}.
Arguments as_flags {M}.
Arguments as_raw_properties {M}.
Arguments as_spooled_properties {M}.
Arguments as_direct_properties {M}.
Arguments as_content {M}.

(** ** Messages *)

Inductive MessageSpec := mk_MessageSpec {
  ms_message_class : list Z;
  ms_message_flags : Z;
  ms_internet_codepage : Z;
  ms_subject : list Z;
  ms_sender_name : list Z;
  ms_sender_email : list Z;
  ms_recipients : list RecipientSpec;
  ms_sent_filetime : Z;
  ms_received_filetime : Z;
  ms_creation_filetime : Z;
  ms_modification_filetime : Z;
  ms_body_text : option (list Z);
  ms_body_html : option (list Z);
  ms_body_rtf : option (list Z);
  ms_native_body : option NativeBody;
  ms_rtf_in_sync : bool;
  ms_internet_headers : option (list Z);
  ms_attachments : list (AttachmentOf MessageSpec);
  ms_named_properties : list NamedProperty;
  ms_raw_properties : list RawProperty;
  ms_spooled_properties : list SpooledPropertySpec;
  ms_direct_properties : list DirectPropertySpec;
  ms_unsupported_properties : list UnsupportedProperty
}.

Definition AttachmentSpec : Type := AttachmentOf MessageSpec.

Definition message_has_streamed_property (message : MessageSpec) (id : Z) : bool :=
  existsb (fun p => sps_id p =? id) (ms_spooled_properties message) ||
  existsb (fun p => dps_id p =? id) (ms_direct_properties message).

(** ** The names used by a message *)

Definition PSETID_ATTACHMENT : list Z :=
  [0x7F; 0x7F; 0x35; 0x96; 0xE1; 0x59; 0xD0; 0x47; 0x99; 0xA7; 0x46; 0x51; 0x5C; 0x18; 0x3B; 0x54].
Definition ATTACHMENT_PROVIDER_TYPE : list Z := chars "AttachmentProviderType".
Definition ATTACHMENT_ORIGINAL_PERMISSION_TYPE : list Z := chars "AttachmentOriginalPermissionType".
Definition ATTACHMENT_PERMISSION_TYPE : list Z := chars "AttachmentPermissionType".

Definition reference_named_property_names (reference : AttachmentReferenceSpec) : list NamedPropertyName.t :=
  map NamedPropertyName.String
    (option_list ((fun _ => ATTACHMENT_PROVIDER_TYPE) <$> ars_provider_type reference) ++
     option_list ((fun _ => ATTACHMENT_ORIGINAL_PERMISSION_TYPE) <$> ars_original_permission reference) ++
     option_list ((fun _ => ATTACHMENT_PERMISSION_TYPE) <$> ars_permission reference)).

(** What [collect] inserts, in the order in which it does. *)
Fixpoint collected_identities (message : MessageSpec) : list NamedIdentity :=
  map named_identity (ms_named_properties message) ++
  concat (map (fun attachment =>
    match as_content attachment with
    | AC_Embedded embedded => collected_identities embedded
    | AC_Reference reference =>
        map (fun name => (NamedPropertySet.Guid PSETID_ATTACHMENT, name)) (reference_named_property_names reference)
    | _ => []
    end) (ms_attachments message)).

Definition collect_named_identities (message : MessageSpec) : list NamedIdentity :=
  btree_set identity_cmp (collected_identities message).

Definition collect_named_identities_many_refs (messages : list MessageSpec) : list NamedIdentity :=
  btree_set identity_cmp (concat (map collect_named_identities messages)).

Definition named_identity_index (named_identities : list NamedIdentity) (identity : NamedIdentity) : option Z :=
  (fun r => Z.of_nat r.1) <$> list_find (eq identity) named_identities.
