(* ===== verification/WriterNamed.v ===== *)
(** * Named properties of the writer

    [writer.rs]: the identities a store assigns ids to
    ([NamedPropertyCatalog], [prepare_named_identities]), the streams and
    buckets of the map from ids to names ([named_property_map]) and its node
    ([build_named_property_context]). Shown: the
    queries of file NamedProps give every identity back from the map, ids are
    stable, and the buckets of reader and writer differ for string names. *)
From S2P Require Import Prelude Errors Io Crc Ids PropValue PropContext Order Alloc WriterBlocks WriterTree WriterHeap WriterValues WriterContext WriterTable NamedProps MessageSpec.
#[local] Open Scope Z_scope.

(** ** The identities of a store *)

(** [NamedPropertyCatalog] *)
Record NamedPropertyCatalog := mk_NamedPropertyCatalog { npc_identities : list NamedIdentity }.

Module NamedPropertyCatalog.
Definition extend (self : NamedPropertyCatalog) (identities : list NamedIdentity) : NamedPropertyCatalog :=
  mk_NamedPropertyCatalog (btree_set identity_cmp (npc_identities self ++ identities)).

Definition observe_message (self : NamedPropertyCatalog) (message : MessageSpec) : NamedPropertyCatalog :=
  extend self (collect_named_identities message).

Definition observe (self : NamedPropertyCatalog) (set : NamedPropertySet.t) (name : NamedPropertyName.t) : NamedPropertyCatalog :=
  extend self [(set, name)].

Definition observe_reference_attachment (self : NamedPropertyCatalog) : NamedPropertyCatalog :=
  extend self (map (fun name => (NamedPropertySet.Guid PSETID_ATTACHMENT, NamedPropertyName.String name))
    [ATTACHMENT_PROVIDER_TYPE; ATTACHMENT_ORIGINAL_PERMISSION_TYPE; ATTACHMENT_PERMISSION_TYPE]).
End NamedPropertyCatalog.

(** The loop of [prepare_named_identities] when ids are assigned as messages
    arrive: the identities stay as far as the loop came. *)
Fixpoint add_identities (identities named_identities : list NamedIdentity) : wres unit * list NamedIdentity :=
  match identities with
  | [] => (Ok tt, named_identities)
  | identity :: identities =>
      match named_identity_index named_identities identity with
      | Some _ => add_identities identities named_identities
      | None =>
          if 0x8000 <=? len named_identities then (Err (ValueTooLarge "named-property count"), named_identities)
          else add_identities identities (named_identities ++ [identity])
      end
  end.

(** [named_identities] is a field of the writer, [dynamic] another. *)
Definition prepare_named_identities (dynamic : bool) (named_identities : list NamedIdentity) (message : MessageSpec) :
    wres unit * list NamedIdentity :=
  let message_identities := collect_named_identities message in
  if dynamic then add_identities message_identities named_identities
  else if existsb (fun identity => match named_identity_index named_identities identity with None => true | Some _ => false end)
            message_identities
  then (Err (InvalidStructure "transactional named-property catalog is incomplete"), named_identities)
  else (Ok tt, named_identities).

(** ** The streams of the map *)

(** [while strings.len() % 4 != 0 { strings.push(0); }], at most three times. *)
Fixpoint pad_strings (fuel : nat) (strings : list Z) : list Z :=
  match fuel with
  | O => strings
  | S fuel => if len strings mod 4 =? 0 then strings else pad_strings fuel (strings ++ [0])
  end.

(** [custom_guids.binary_search(value)], on a slice that is sorted and has no
    element twice: the position of the element. *)
Definition binary_search (custom_guids : list (list Z)) (value : list Z) : option Z :=
  (fun r => Z.of_nat r.1) <$> list_find (eq value) custom_guids.

Definition custom_guids (named : list NamedIdentity) : list (list Z) :=
  dedup (sort_by (list_cmp Z.compare)
    (concat (map (fun '(set, _) => match set with NamedPropertySet.Guid guid => [guid] | _ => [] end) named))).

(** [buckets.entry(bucket).or_default().extend_from_slice(&entry)] on a
    [BTreeMap], the list of its entries by ascending key. *)
Fixpoint extend_bucket (buckets : list (Z * list Z)) (bucket : Z) (entry : list Z) : list (Z * list Z) :=
  match buckets with
  | [] => [(bucket, entry)]
  | (b, bytes) :: rest =>
      if bucket <? b then (bucket, entry) :: buckets
      else if bucket =? b then (b, bytes ++ entry) :: rest
      else (b, bytes) :: extend_bucket rest bucket entry
  end.

Record MapState := mk_MapState {
  nm_entries : list Z;
  nm_strings : list Z;
  nm_buckets : list (Z * list Z)
}.

Definition set_guid (guids : list (list Z)) (set : NamedPropertySet.t) : wres Z :=
  match set with
  | NamedPropertySet.Mapi => Ok 1
  | NamedPropertySet.PublicStrings => Ok 2
  | NamedPropertySet.Guid value =>
      let? position := ok_or (binary_search guids value) (InvalidStructure "named GUID is not indexed") in
      fits (if uint_b 16 position then checked_add 16 position 3 else None) "named-property GUID count"
  end.

(** The number of a name, its kind with the GUID, what its bucket is computed
    from, and the strings. *)
Definition place_name (guid : Z) (name : NamedPropertyName.t) (strings : list Z) : wres (Z * Z * Z * list Z) :=
  match name with
  | NamedPropertyName.Numeric identifier => Ok (identifier, wrap 16 (Z.shiftl guid 1), identifier, strings)
  | NamedPropertyName.String name =>
      let? offset := fits (if uint_b 32 (len strings) then Some (len strings) else None) "named-property string stream" in
      let? encoded := wio (unicode_bytes name) in
      let? size := fits (if uint_b 32 (len encoded) then Some (len encoded) else None) "named-property name" in
      let strings := pad_strings 3 (strings ++ write_u32 size ++ encoded) in
      Ok (offset, Z.lor (wrap 16 (Z.shiftl guid 1)) 1, compute_crc 0 encoded, strings)
  end.

Definition BUCKETS : Z := 251.

Definition map_identity (guids : list (list Z)) (s : MapState) (a : nat * NamedIdentity) : wres MapState :=
  let '(index, (set, name)) := a in
  let? guid := set_guid guids set in
  let? '(identifier, guid_and_kind, hash_identifier, strings) := place_name guid name (nm_strings s) in
  let? property_index := fits (if uint_b 16 (Z.of_nat index) then Some (Z.of_nat index) else None) "named-property count" in
  let entry := write_u32 identifier ++ write_u16 guid_and_kind ++ write_u16 property_index in
  let bucket := Z.lxor hash_identifier guid_and_kind mod BUCKETS in
  let? bucket := fits (if uint_b 16 bucket then Some bucket else None) "named-property bucket" in
  Ok (mk_MapState (nm_entries s ++ entry) strings (extend_bucket (nm_buckets s) bucket entry)).

(** The bytes of [PS_MAPI], which stand in for an empty stream of GUIDs. *)
Definition PS_MAPI_BYTES : list Z :=
  [0x28; 0x03; 0x02; 0x00; 0x00; 0x00; 0x00; 0x00; 0xC0; 0x00; 0x00; 0x00; 0x00; 0x00; 0x00; 0x46].

Definition named_property_map (named : list NamedIdentity) : wres (list Property) :=
  if is_empty named then
    let entry := write_u32 0x00008005 ++ write_u16 0x0002 ++ write_u16 0 in
    Ok [(0x0001, WriterValue.Integer32 BUCKETS); (0x0002, WriterValue.Binary PS_MAPI_BYTES);
        (0x0003, WriterValue.Binary entry); (0x0004, WriterValue.Binary []); (0x1000, WriterValue.Binary entry)]
  else
    let guids := custom_guids named in
    let? s := rfold (map_identity guids) (imap pair named) (mk_MapState [] [] []) in
    let guid := if is_empty guids then PS_MAPI_BYTES else concat guids in
    Ok ([(0x0001, WriterValue.Integer32 BUCKETS); (0x0002, WriterValue.Binary guid);
         (0x0003, WriterValue.Binary (nm_entries s)); (0x0004, WriterValue.Binary (nm_strings s))] ++
        map (fun '(bucket, entries) => (0x1000 + bucket, WriterValue.Binary entries)) (nm_buckets s)).

(** ** The node of the map *)

(** [build_property_context], the blocks of which are pushed. *)
Definition push_property_context (properties : list Property) (preferred_block : UnicodeBlockId) : W VecState UnicodeBlockId := fun s =>
  let '(r, next) := build_property_context properties preferred_block (vs_next s) in
  match r with
  | Ok context => (Ok (epb_data_block context), mk_VecState next (vs_blocks s ++ epb_blocks context))
  | Err e => (Err e, mk_VecState next (vs_blocks s))
  | Panic => (Panic, mk_VecState next (vs_blocks s))
  end.

Record NamedPropertyMapBuild := mk_NamedPropertyMapBuild {
  npb_data_block : UnicodeBlockId;
  npb_subnode_block : option UnicodeBlockId;
  npb_blocks : list BlockSpec
}.

Definition named_property_context (named_identities : list NamedIdentity) : W VecState (UnicodeBlockId * option UnicodeBlockId) :=
  let^ properties := w_lift (named_property_map named_identities) in
  let^ r := externalize_large_properties properties 0x50000 [] in
  let '(properties, _, subnodes) := r in
  let^ preferred := w_lift (leaf_bid 2) in
  let^ data_block := push_property_context properties preferred in
  let^ subnode_block :=
    if is_empty subnodes then w_ret None else let^ block := append_subnode_tree subnodes in w_ret (Some block) in
  w_ret (data_block, subnode_block).

Definition build_named_property_context (named_identities : list NamedIdentity) (next_block_index : Z) :
    wres NamedPropertyMapBuild * Z :=
  let '(r, s) := named_property_context named_identities (mk_VecState next_block_index []) in
  (let? '(data_block, subnode_block) := r in
   Ok (mk_NamedPropertyMapBuild data_block subnode_block (vs_blocks s)), vs_next s).

(** ** Strings *)

Lemma encode_char_small c : char_ok c -> Forall (uint 16) (encode_char c).
Proof.
  intros Hc. unfold encode_char. destruct (Z.ltb_spec c 0x10000) as [H|H].
  - apply Forall_singleton. unfold char_ok, uint in *. lia.
  - assert (0 <= c - 0x10000 < 2 ^ 20) as Hr by (unfold char_ok in Hc; lia).
    assert (0 <= Z.shiftr (c - 0x10000) 10 < 2 ^ 10).
    { rewrite Z.shiftr_div_pow2 by lia. split; [apply Z.div_pos; lia|apply Z.div_lt_upper_bound; lia]. }
    assert (0 <= Z.land (c - 0x10000) 0x3FF < 2 ^ 10) by (change 0x3FF with (Z.ones 10); rewrite Z.land_ones by lia; apply Z.mod_pos_bound; lia).
    apply Forall_cons; split; [|apply Forall_singleton]; unfold uint; lia.
Qed.

Lemma encode_utf16_small s : Forall char_ok s -> Forall (uint 16) (encode_utf16 s).
Proof. intros H. apply Forall_concat, Forall_map. eapply Forall_impl; [exact H|]. exact encode_char_small. Qed.

(** Decoding is the inverse of encoding. *)
Lemma from_utf16_encode s : Forall char_ok s -> from_utf16_lossy (encode_utf16 s) = s.
Proof.
  induction 1 as [|c s Hc _ IH]; [done|]. unfold encode_utf16 in *. cbn [map concat].
  set (rest := concat (map encode_char s)) in *. unfold encode_char, char_ok in *.
  destruct (Z.ltb_spec c 0x10000) as [H|H]; cbn [app from_utf16_lossy].
  - destruct (Z.ltb_spec c 0xD800); cbn [orb]; [by rewrite IH|]. rewrite (proj2 (Z.ltb_lt 0xDFFF c)) by lia. by rewrite IH.
  - set (x := c - 0x10000). assert (Hx : 0 <= x < 2 ^ 20) by (subst x; lia).
    pose proof (Z.div_mod x (2 ^ 10) ltac:(lia)) as Hd. pose proof (Z.mod_pos_bound x (2 ^ 10) ltac:(lia)) as Hm.
    assert (Hq : 0 <= x / 2 ^ 10 < 2 ^ 10) by (split; [apply Z.div_pos; lia|apply Z.div_lt_upper_bound; lia]).
    change 0x3FF with (Z.ones 10). rewrite Z.land_ones, Z.shiftr_div_pow2 by lia.
    set (q := x / 2 ^ 10) in *. set (m := x mod 2 ^ 10) in *.
    assert ((0xD800 + q <? 0xD800) = false /\ (0xDFFF <? 0xD800 + q) = false /\ (0xDC00 <=? 0xD800 + q) = false /\
            (0xDC00 + m <? 0xDC00) = false /\ (0xDFFF <? 0xDC00 + m) = false) as (-> & -> & -> & -> & ->)
      by (split_and!; [apply Z.ltb_ge; lia|apply Z.ltb_ge; lia|apply Z.leb_gt; lia|apply Z.ltb_ge; lia|apply Z.ltb_ge; lia]).
    cbn [orb].
    rewrite IH. f_equal. rewrite Z.shiftl_mul_pow2 by lia. subst x. lia.
Qed.

Lemma unicode_bytes_eq s : unicode_bytes s = Ok (concat (map write_u16 (encode_utf16 s))).
Proof. done. Qed.

(** The bytes of a name, and the name a reader displays. *)
Definition name_bytes (name : list Z) : list Z := concat (map write_u16 (encode_utf16 name)).

Lemma length_name_bytes name : length (name_bytes name) = (2 * length (encode_utf16 name))%nat.
Proof. unfold name_bytes. induction (encode_utf16 name) as [|u l IH]; [done|]. cbn [map concat]. rewrite length_app, IH, length_write_u16. cbn. lia. Qed.

Lemma name_displayed name :
  Forall char_ok name ->
  StringEntry.to_string (mk_StringEntry (Z.of_nat (length (name_bytes name))) (name_bytes name)) = name.
Proof.
  intros Hn. unfold StringEntry.to_string. cbn [se_size se_buffer]. rewrite length_name_bytes.
  replace (Z.to_nat _) with (length (encode_utf16 name)).
  - unfold name_bytes. rewrite units_read by (by apply encode_utf16_small). by apply from_utf16_encode.
  - rewrite Nat2Z.inj_mul, (Z.mul_comm 2), Z.div_mul, Nat2Z.id by lia. done.
Qed.

Lemma pad_strings_eq l : pad_strings 3 l = l ++ replicate (Z.to_nat ((4 - len l mod 4) mod 4)) 0.
Proof.
  pose proof (Z.mod_pos_bound (len l) 4 ltac:(lia)) as Hr.
  assert (Hs : forall l, len (l ++ [0]) mod 4 = (len l mod 4 + 1) mod 4)
    by (intros l'; unfold len; rewrite length_app, Nat2Z.inj_add, Z.add_mod_idemp_l by lia; done).
  assert (len l mod 4 = 0 \/ len l mod 4 = 1 \/ len l mod 4 = 2 \/ len l mod 4 = 3) as [H|[H|[H|H]]] by lia;
    cbn [pad_strings]; rewrite ?Hs, H; cbn; rewrite <- ?app_assoc; cbn; by rewrite ?app_nil_r.
Qed.

(** A framed string is appended as it is read. *)
Lemma pad_frame strings bytes :
  len strings mod 4 = 0 -> pad_strings 3 (strings ++ write_u32 (len bytes) ++ bytes) = strings ++ frame bytes.
Proof.
  intros H. rewrite pad_strings_eq. unfold frame, padding_of. rewrite <- !app_assoc. do 4 f_equal. unfold len in *.
  rewrite !length_app, length_write_u32, !Nat2Z.inj_add, Z.add_assoc.
  rewrite <- (Z.add_mod_idemp_l (_ + _)), <- (Z.add_mod_idemp_l (Z.of_nat (length strings))), H by lia. change ((0 + Z.of_nat 4) mod 4) with 0. done.
Qed.

Lemma frame_mod bytes : len (frame bytes) mod 4 = 0.
Proof.
  unfold len. rewrite length_frame, !Nat2Z.inj_add. unfold padding_of.
  pose proof (Z.mod_pos_bound (4 - Z.of_nat (length bytes) mod 4) 4 ltac:(lia)) as Hb. rewrite Z2Nat.id by lia.
  rewrite <- Z.add_assoc, <- Z.add_mod_idemp_l by lia. change (Z.of_nat 4 mod 4) with 0. rewrite Z.add_0_l, Z.add_mod_idemp_r by lia.
  rewrite <- (Z.add_mod_idemp_l (Z.of_nat (length bytes))) by lia.
  replace (Z.of_nat (length bytes) mod 4 + (4 - Z.of_nat (length bytes) mod 4)) with 4 by lia. done.
Qed.

(** ** The buckets *)

Definition bucket_lookup (buckets : list (Z * list Z)) (bucket : Z) : option (list Z) :=
  snd <$> List.find (fun b => b.1 =? bucket) buckets.

Lemma extend_bucket_lookup buckets bucket entry b :
  StronglySorted Z.lt (map fst buckets) ->
  bucket_lookup (extend_bucket buckets bucket entry) b =
  if b =? bucket then Some (default [] (bucket_lookup buckets bucket) ++ entry) else bucket_lookup buckets b.
Proof.
  unfold bucket_lookup. induction buckets as [|[k bytes] buckets IH]; intros Hs; cbn [extend_bucket].
  - cbn. by rewrite (Z.eqb_sym bucket b); destruct (b =? bucket).
  - inversion_clear Hs as [|? ? Hs' Hk]. specialize (IH Hs').
    destruct (Z.ltb_spec bucket k) as [Hlt|Hge].
    + cbn [List.find fst]. rewrite (Z.eqb_sym bucket b). destruct (Z.eqb_spec b bucket) as [E|]; [|done].
      cbn [List.find fst]. rewrite (proj2 (Z.eqb_neq k bucket)) by lia.
      replace (List.find _ buckets) with (@None (Z * list Z)); [done|]. symmetry.
      clear -Hk Hlt. induction buckets as [|[k' x] buckets IH]; [done|]. cbn [map fst] in Hk. apply Forall_cons in Hk as [Hk' Hk].
      cbn [List.find fst]. rewrite (proj2 (Z.eqb_neq k' bucket)) by lia. by apply IH.
    + destruct (Z.eqb_spec bucket k) as [E|Hne]; cbn [List.find fst].
      * rewrite E, Z.eqb_refl. rewrite (Z.eqb_sym k b). by destruct (b =? k).
      * rewrite (proj2 (Z.eqb_neq k bucket)) by lia. destruct (Z.eqb_spec k b) as [E|]; [|exact IH].
        by rewrite (proj2 (Z.eqb_neq b bucket)) by lia.
Qed.

Lemma extend_bucket_sorted buckets bucket entry :
  StronglySorted Z.lt (map fst buckets) -> StronglySorted Z.lt (map fst (extend_bucket buckets bucket entry)).
Proof.
  induction buckets as [|[k bytes] buckets IH]; intros Hs; cbn [extend_bucket]; [repeat constructor|].
  inversion_clear Hs as [|? ? Hs' Hk]. cbn [fst] in Hk. destruct (Z.ltb_spec bucket k) as [Hlt|Hge].
  - cbn [map fst]. constructor; [by constructor|]. apply Forall_cons. split; [done|]. eapply Forall_impl; [exact Hk|]. cbn. lia.
  - destruct (Z.eqb_spec bucket k) as [->|Hne]; cbn [map fst]; [by constructor|]. constructor; [by apply IH|].
    assert (k < bucket) as Hkb by lia. clear IH Hs' Hge Hne.
    induction buckets as [|[k' x] buckets IH]; cbn [extend_bucket]; [by repeat constructor|].
    cbn [map fst] in Hk. apply Forall_cons in Hk as [Hk' Hk].
    destruct (bucket <? k'); [cbn [map fst]; by repeat (apply Forall_cons; split)|].
    destruct (bucket =? k'); cbn [map fst]; apply Forall_cons; (split; [done|]); [done|by apply IH].
Qed.

Lemma bucket_lookup_elem buckets b bytes :
  StronglySorted Z.lt (map fst buckets) -> (b, bytes) ∈ buckets <-> bucket_lookup buckets b = Some bytes.
Proof.
  unfold bucket_lookup. induction buckets as [|[k x] buckets IH]; intros Hs; [by split; [intros ?%elem_of_nil|]|].
  inversion_clear Hs as [|? ? Hs' Hk]. specialize (IH Hs'). rewrite elem_of_cons. cbn [List.find fst].
  destruct (Z.eqb_spec k b) as [->|Hne].
  - cbn. split; [|intros [= ->]; by left]. intros [[= ->]|Hin]; [done|]. exfalso.
    rewrite Forall_forall in Hk. specialize (Hk b (list_elem_of_fmap_2 fst _ _ Hin)). cbn in Hk. lia.
  - rewrite <- IH. split; [intros [[= ? ?]|?]; [by subst|done]|by right].
Qed.

(** ** The loop over the identities *)

Definition identity_ok (identity : NamedIdentity) : Prop :=
  match identity.1 with NamedPropertySet.Guid guid => guid_bytes_ok guid | _ => True end /\
  match identity.2 with NamedPropertyName.Numeric id => uint 32 id | NamedPropertyName.String name => Forall char_ok name end.

(** The strings of the names, and what the bucket of a name is computed from. *)
Definition names_of (named : list NamedIdentity) : list (list Z) :=
  concat (map (fun identity => match identity.2 with NamedPropertyName.String name => [name_bytes name] | _ => [] end) named).

Definition name_hash (name : NamedPropertyName.t) : Z :=
  match name with NamedPropertyName.Numeric id => id | NamedPropertyName.String name => compute_crc 0 (name_bytes name) end.

(** What the entry of an identity says, given the GUIDs and the strings. *)
Definition set_named (guids : list (list Z)) (guid : NamedPropertyGuid.t) (set : NamedPropertySet.t) : Prop :=
  match set with
  | NamedPropertySet.Mapi => guid = NamedPropertyGuid.Mapi
  | NamedPropertySet.PublicStrings => guid = NamedPropertyGuid.PublicStrings
  | NamedPropertySet.Guid value => exists k, guid = NamedPropertyGuid.GuidIndex (Z.of_nat k) /\ guids !! k = Some value
  end.

Definition name_named (strings : list (list Z)) (id : NamedPropertyId.t) (name : NamedPropertyName.t) : Prop :=
  match name with
  | NamedPropertyName.Numeric n => id = NamedPropertyId.Number n
  | NamedPropertyName.String name =>
      exists k, id = NamedPropertyId.StringOffset (string_offset strings k) /\ strings !! k = Some (name_bytes name)
  end.

Definition entry_names (guids strings : list (list Z)) (e : NameIdEntry) (identity : NamedIdentity) : Prop :=
  ser_wf e /\ set_named guids (ni_guid e) identity.1 /\ name_named strings (ni_id e) identity.2.

(** The bucket the writer puts an entry in. *)
Definition bucket_of (a : NameIdEntry * NamedIdentity) : Z :=
  Z.lxor (name_hash a.2.2) (NameIdEntry.id_and_guid_index a.1).2 mod BUCKETS.

Definition bucket_entries (es : list NameIdEntry) (named : list NamedIdentity) (bucket : Z) : list NameIdEntry :=
  map fst (filter (fun a => bucket_of a = bucket) (zip es named)).

Definition written (es : list NameIdEntry) : list Z := concat (map NameIdEntry.write es).

Record map_inv (guids : list (list Z)) (named : list NamedIdentity) (es : list NameIdEntry) (s : MapState) : Prop := mk_map_inv {
  mi_names : Forall2 (entry_names guids (names_of named)) es named;
  mi_ids : map NameIdEntry.prop_id es = map (fun i => 0x8000 + Z.of_nat i) (seq 0 (length named));
  mi_entries : nm_entries s = written es;
  mi_strings : nm_strings s = concat (map frame (names_of named));
  mi_sorted : StronglySorted Z.lt (map fst (nm_buckets s));
  mi_range : Forall (fun b => 0 <= b.1 < BUCKETS) (nm_buckets s);
  mi_buckets : forall b, bucket_lookup (nm_buckets s) b =
    match bucket_entries es named b with [] => None | l => Some (written l) end
}.

Lemma names_of_app l l' : names_of (l ++ l') = names_of l ++ names_of l'.
Proof. unfold names_of. by rewrite map_app, concat_app. Qed.

Lemma string_offset_app strings l k :
  (k <= length strings)%nat -> string_offset (strings ++ l) k = string_offset strings k.
Proof. intros Hk. unfold string_offset. by rewrite take_app_le. Qed.

Lemma name_named_app strings l id name : name_named strings id name -> name_named (strings ++ l) id name.
Proof.
  destruct name as [n|name]; [done|]. intros (k & -> & Hk). exists k. pose proof (lookup_lt_Some _ _ _ Hk).
  rewrite string_offset_app by lia. by rewrite lookup_app_l by lia.
Qed.

Lemma entry_names_app guids strings l e identity : entry_names guids strings e identity -> entry_names guids (strings ++ l) e identity.
Proof. intros (Hw & Hs & Hn). split; [done|]. split; [done|]. by apply name_named_app. Qed.

Lemma frames_mod l : len (concat (map frame l)) mod 4 = 0.
Proof.
  induction l as [|x l IH]; [done|]. cbn [map concat]. unfold len in *. rewrite length_app, Nat2Z.inj_add, <- Z.add_mod_idemp_l by lia.
  pose proof (frame_mod x) as H. unfold len in H. by rewrite H, Z.add_0_l.
Qed.

Lemma list_find_position {A} `{EqDecision A} (x : A) l k y :
  list_find (eq x) l = Some (k, y) -> l !! k = Some x.
Proof. rewrite list_find_Some. by intros (H & -> & _). Qed.

(** The GUID of a set of properties. *)
Lemma set_guid_ok guids set :
  match set with NamedPropertySet.Guid guid => guid ∈ guids | _ => True end -> len guids <= 0x7FFD ->
  exists guid, set_guid guids set = Ok (NamedPropertyGuid.into_u16 guid) /\ guid_ok guid /\ set_named guids guid set.
Proof.
  intros Hin Hl. destruct set as [| |value]; [by exists NamedPropertyGuid.Mapi|by exists NamedPropertyGuid.PublicStrings|].
  cbn [set_guid set_named]. unfold binary_search.
  destruct (list_find (eq value) guids) as [[k y]|] eqn:Hf.
  - apply list_find_position in Hf. pose proof (lookup_lt_Some _ _ _ Hf). unfold len in Hl. cbn [fmap option_map option_fmap fst ok_or rbind].
    exists (NamedPropertyGuid.GuidIndex (Z.of_nat k)). cbn [guid_ok NamedPropertyGuid.into_u16]. split; [|split; [lia|by exists k]].
    replace (uint_b 16 (Z.of_nat k)) with true by (symmetry; apply uint_b_spec; unfold uint; lia).
    unfold checked_add, wrapping_add, wrap. rewrite (proj2 (Z.ltb_lt _ _)), Z.mod_small by lia. done.
  - rewrite list_find_None in Hf. rewrite Forall_forall in Hf. by destruct (Hf value Hin).
Qed.

(** The entry of a name, for any index. *)
Lemma place_name_ok guid names set name index :
  identity_ok (set, name) -> len (concat (map frame (names ++ names_of [(set, name)]))) < 2 ^ 32 ->
  exists id, let e := mk_NameIdEntry id guid index in
    place_name (NamedPropertyGuid.into_u16 guid) name (concat (map frame names)) =
      Ok (NameIdEntry.id_and_guid_index e, name_hash name, concat (map frame (names ++ names_of [(set, name)]))) /\
    name_named (names ++ names_of [(set, name)]) id name /\
    match id with NamedPropertyId.Number x | NamedPropertyId.StringOffset x => uint 32 x end.
Proof.
  intros [_ Hok] Hmax. cbn [snd] in Hok. destruct name as [n|name]; cbn [name_hash].
  - exists (NamedPropertyId.Number n). unfold names_of. cbn [map snd concat app]. by rewrite app_nil_r.
  - exists (NamedPropertyId.StringOffset (string_offset names (length names))). change (names_of [(set, NamedPropertyName.String name)]) with [name_bytes name] in *.
    rewrite map_app, concat_app in *. cbn [map concat] in *. rewrite app_nil_r in *. unfold len in Hmax. rewrite length_app, length_frame in Hmax.
    assert (Ho : string_offset names (length names) = len (concat (map frame names))) by (unfold string_offset, len; by rewrite take_ge).
    cbn [place_name]. rewrite (unicode_bytes_eq name). fold (name_bytes name). rewrite Ho.
    replace (uint_b 32 (len (concat (map frame names)))) with true by (symmetry; apply uint_b_spec; unfold uint, len; lia).
    cbn [fits ok_or rbind wio rmap_err].
    replace (uint_b 32 (len (name_bytes name))) with true by (symmetry; apply uint_b_spec; unfold uint, len; lia).
    cbn [fits ok_or rbind]. rewrite (pad_frame _ _ (frames_mod names)). split; [done|]. split; [|unfold uint, len; lia].
    exists (length names). split; [by rewrite string_offset_app, Ho|]. by rewrite lookup_app_r, Nat.sub_diag by lia.
Qed.

Lemma bucket_entries_snoc es named e identity b :
  length es = length named ->
  bucket_entries (es ++ [e]) (named ++ [identity]) b =
  bucket_entries es named b ++ (if bucket_of (e, identity) =? b then [e] else []).
Proof.
  intros Hl. unfold bucket_entries. rewrite zip_with_app by done. rewrite filter_app, map_app. f_equal. cbn [zip_with].
  rewrite filter_cons, filter_nil. destruct (Z.eqb_spec (bucket_of (e, identity)) b); by destruct (decide _).
Qed.

Lemma bucket_range a : 0 <= bucket_of a < BUCKETS.
Proof. apply Z.mod_pos_bound. done. Qed.

Lemma written_snoc es e : written (es ++ [e]) = written es ++ NameIdEntry.write e.
Proof. unfold written. rewrite map_app, concat_app. cbn. by rewrite app_nil_r. Qed.

(** The buckets after an entry more. *)
Lemma buckets_snoc guids named es s e identity :
  map_inv guids named es s ->
  let b := bucket_of (e, identity) in
  let buckets := extend_bucket (nm_buckets s) b (NameIdEntry.write e) in
  StronglySorted Z.lt (map fst buckets) /\ Forall (fun b => 0 <= b.1 < BUCKETS) buckets /\
  forall b', bucket_lookup buckets b' =
    match bucket_entries (es ++ [e]) (named ++ [identity]) b' with [] => None | l => Some (written l) end.
Proof.
  intros Hi b buckets. destruct Hi. pose proof (Forall2_length _ _ _ mi_names0) as Hl. split_and!.
  - by apply extend_bucket_sorted.
  - assert (Hb : 0 <= b < BUCKETS) by apply bucket_range. subst buckets. clear -mi_range0 Hb.
    induction (nm_buckets s) as [|[k x] l IH]; cbn [extend_bucket]; [by apply Forall_singleton|].
    apply Forall_cons in mi_range0 as [Hk Hr]. destruct (b <? k); [by repeat (apply Forall_cons; split)|].
    destruct (b =? k); apply Forall_cons; split; try done. by apply IH.
  - intros b'. subst buckets. rewrite extend_bucket_lookup, bucket_entries_snoc by done. fold b. rewrite (Z.eqb_sym b b').
    destruct (Z.eqb_spec b' b) as [E|Hne]; [|by rewrite app_nil_r, mi_buckets0]. rewrite mi_buckets0, E.
    destruct (bucket_entries es named b) as [|x l]; [cbn; by rewrite app_nil_r|]. cbn [app default]. by rewrite app_comm_cons, written_snoc.
Qed.

Lemma map_identity_ok guids named es s identity :
  map_inv guids named es s -> identity_ok identity ->
  match identity.1 with NamedPropertySet.Guid guid => guid ∈ guids | _ => True end -> len guids <= 0x7FFD ->
  len named < 0x8000 -> len (concat (map frame (names_of (named ++ [identity])))) < 2 ^ 32 ->
  exists e s', map_identity guids s (length named, identity) = Ok s' /\ map_inv guids (named ++ [identity]) (es ++ [e]) s'.
Proof.
  destruct identity as [set name]. intros Hi Hok Hin Hg Hn Hmax. cbn [fst] in Hin. rewrite names_of_app in Hmax.
  destruct (set_guid_ok guids set Hin Hg) as (guid & Hset & Hgw & Hsn).
  set (index := mk_NamedPropertyIndex (0x8000 + Z.of_nat (length named))).
  destruct (place_name_ok guid (names_of named) set name index Hok Hmax) as (id & Hplace & Hnn & Hid).
  set (e := mk_NameIdEntry id guid index) in *. unfold len in Hn.
  destruct (buckets_snoc guids named es s e (set, name) Hi) as (Hsorted & Hrange & Hlookup).
  exists e, (mk_MapState (nm_entries s ++ NameIdEntry.write e) (concat (map frame (names_of named ++ names_of [(set, name)])))
    (extend_bucket (nm_buckets s) (bucket_of (e, (set, name))) (NameIdEntry.write e))). split.
  - unfold map_identity. rewrite Hset. cbn [rbind]. rewrite (mi_strings _ _ _ _ Hi), Hplace. unfold NameIdEntry.write, bucket_of. cbn [fst snd].
    destruct (NameIdEntry.id_and_guid_index e) as [identifier guid_and_kind]. cbn [rbind fst snd].
    replace (uint_b 16 (Z.of_nat (length named))) with true by (symmetry; apply uint_b_spec; unfold uint; lia). cbn [fits ok_or rbind].
    pose proof (Z.mod_pos_bound (Z.lxor (name_hash name) guid_and_kind) BUCKETS ltac:(done)) as Hb. assert (HB : BUCKETS = 251) by done.
    replace (uint_b 16 _) with true by (symmetry; apply uint_b_spec; unfold uint; lia). cbn [fits ok_or rbind].
    replace (NamedPropertyIndex.into_u16 (ni_prop_index e)) with (Z.of_nat (length named)); [done|].
    subst e index. cbn [ni_prop_index]. unfold NamedPropertyIndex.into_u16, wrapping_sub, wrap. cbn [npi_0]. rewrite Z.mod_small by lia. lia.
  - destruct Hi. constructor; cbn [nm_entries nm_strings nm_buckets]; try done.
    + apply Forall2_app; [eapply Forall2_impl; [exact mi_names0|]; intros; rewrite names_of_app; by apply entry_names_app|].
      apply Forall2_cons_2; [|done]. rewrite names_of_app. split; [|done].
      split; [exact Hid|]. split; [exact Hgw|]. cbn. lia.
    + rewrite map_app, mi_ids0, length_app, seq_app, map_app. done.
    + by rewrite mi_entries0, written_snoc.
    + by rewrite names_of_app.
Qed.

(** All identities. *)
Lemma map_identities_ok guids rest : forall named es s,
  map_inv guids named es s -> Forall identity_ok rest ->
  Forall (fun identity => match identity.1 with NamedPropertySet.Guid guid => guid ∈ guids | _ => True end) rest ->
  len guids <= 0x7FFD -> len (named ++ rest) <= 0x8000 ->
  len (concat (map frame (names_of (named ++ rest)))) < 2 ^ 32 ->
  exists es' s', rfold (map_identity guids) (imap (fun i a => ((length named + i)%nat, a)) rest) s = Ok s' /\
    map_inv guids (named ++ rest) es' s'.
Proof.
  induction rest as [|identity rest IH]; intros named es s Hi Hok Hin Hg Hn Hmax.
  - exists es, s. by rewrite app_nil_r.
  - apply Forall_cons in Hok as [Ho Hok], Hin as [Hi1 Hin]. rewrite cons_middle, app_assoc in *.
    assert (Hm : len (concat (map frame (names_of (named ++ [identity])))) < 2 ^ 32).
    { rewrite names_of_app, map_app, concat_app in Hmax. unfold len in *. rewrite length_app in Hmax. lia. }
    destruct (map_identity_ok guids named es s identity Hi Ho Hi1 Hg) as (e & s1 & Hs1 & Hi');
      [unfold len in *; rewrite !length_app in Hn; cbn in Hn; lia|done|].
    destruct (IH _ _ _ Hi' Hok Hin Hg Hn Hmax) as (es' & s' & Hr & Hinv). exists es', s'. split; [|done].
    cbn [imap]. cbn [rfold]. rewrite Nat.add_0_r, Hs1. cbn [rbind]. rewrite <- Hr. f_equal. apply imap_ext. intros i x _. cbn.
    f_equal. rewrite length_app. cbn. lia.
Qed.

Lemma dedup_elem {A} `{EqDecision A} (x : A) l : x ∈ dedup l <-> x ∈ l.
Proof.
  induction l as [|a [|b l] IH]; [done..|]. change (dedup (a :: b :: l)) with (if decide (a = b) then dedup (b :: l) else a :: dedup (b :: l)).
  destruct (decide (a = b)) as [->|]; rewrite ?elem_of_cons, IH, ?elem_of_cons; naive_solver.
Qed.

Definition set_guids (named : list NamedIdentity) : list (list Z) :=
  concat (map (fun '(set, _) => match set with NamedPropertySet.Guid guid => [guid] | _ => [] end) named).

Lemma custom_guids_elem named guid : guid ∈ custom_guids named <-> exists name, (NamedPropertySet.Guid guid, name) ∈ named.
Proof.
  unfold custom_guids. rewrite dedup_elem, (sort_by_perm (list_cmp Z.compare)). induction named as [|[set name] named IH].
  - split; [intros []%elem_of_nil|intros (n & []%elem_of_nil)].
  - cbn [map concat]. rewrite elem_of_app, IH. setoid_rewrite elem_of_cons. destruct set as [| |g]; cbn.
    + split; [intros [[]%elem_of_nil|(n & Hn)]; by eauto|intros (n & [?|?]); [done|right; by eauto]].
    + split; [intros [[]%elem_of_nil|(n & Hn)]; by eauto|intros (n & [?|?]); [done|right; by eauto]].
    + rewrite list_elem_of_singleton. split; [intros [->|(n & Hn)]; by eauto|intros (n & [[= -> ->]|?]); [by left|right; by eauto]].
Qed.

(** The map is accepted and its streams hold what the invariant says. *)
Lemma named_property_map_ok named :
  named <> [] -> Forall identity_ok named -> len named <= 0x8000 -> len (custom_guids named) <= 0x7FFD ->
  len (concat (map frame (names_of named))) < 2 ^ 32 ->
  exists es s, map_inv (custom_guids named) named es s /\
    named_property_map named = Ok ([(0x0001, WriterValue.Integer32 BUCKETS);
      (0x0002, WriterValue.Binary (if is_empty (custom_guids named) then PS_MAPI_BYTES else concat (custom_guids named)));
      (0x0003, WriterValue.Binary (nm_entries s)); (0x0004, WriterValue.Binary (nm_strings s))] ++
      map (fun '(bucket, entries) => (0x1000 + bucket, WriterValue.Binary entries)) (nm_buckets s)).
Proof.
  intros Hne Hok Hn Hg Hs.
  destruct (map_identities_ok (custom_guids named) named [] [] (mk_MapState [] [] [])) as (es & s & Hr & Hi).
  - constructor; try done; constructor.
  - done.
  - rewrite Forall_forall. intros [[| |guid] name] Hin; cbn [fst]; [done..|]. apply custom_guids_elem. by exists name.
  - done.
  - done.
  - done.
  - exists es, s. split; [done|]. unfold named_property_map. destruct named as [|a named]; [done|].
    cbn [is_empty]. cbn [length Nat.add app] in Hr.
    change (imap pair (a :: named)) with (imap (fun i x => (i, x)) (a :: named)). cbv zeta. by rewrite Hr.
Qed.

(** ** Reading the map *)

(** The properties a reader has of the node of the map. *)
Definition holds_properties (self : NamedPropertyMapProperties) (ps : list Property) : Prop :=
  forall id, NamedPropertyMapProperties.get self id = read_as <$> (snd <$> List.find (fun p => p.1 =? id) ps).

Lemma read_as_bytes bytes : bytes <> [] -> read_as (WriterValue.Binary bytes) = PropertyValue.Binary bytes.
Proof. by destruct bytes. Qed.

Lemma take_drop_concat {A} n (ls : list (list A)) k x :
  Forall (fun l => length l = n) ls -> ls !! k = Some x -> take n (drop (k * n) (concat ls)) = x.
Proof.
  intros Hf. revert k. induction Hf as [|l ls Hl _ IH]; intros k Hk; [done|]. destruct k as [|k]; cbn [lookup] in Hk.
  - injection Hk as <-. cbn [concat Nat.mul]. rewrite drop_0. by rewrite take_app_length'.
  - cbn [concat Nat.mul]. rewrite drop_app_ge by lia. rewrite Hl, Nat.add_comm, Nat.add_sub. by apply IH.
Qed.

Lemma read_guid_bytes g s : guid_bytes_ok g -> NamedPropertyMapProperties.read_guid (g ++ s) = Ok (guid_of_bytes g, s).
Proof.
  intros Hg. destruct (guid_of_bytes_ok g Hg) as [(H1 & H2 & H3 & H4) He]. unfold NamedPropertyMapProperties.read_guid.
  rewrite <- He at 1. destruct (guid_of_bytes g) as [d1 d2 d3 d4]. cbn [data1 data2 data3 data4] in *. unfold GuidValue.to_le_bytes.
  cbn [data1 data2 data3 data4]. rewrite <- !app_assoc.
  rewrite (rd_bind_eq _ _ _ (PropertyValue.Guid (mk_GuidValue d1 d2 d3 d4)) s); [done|].
  cbn [PropertyValueIo.read]. rewrite (rd_bind_eq _ _ _ _ _ (read_u32_app _ _ H1)), (rd_bind_eq _ _ _ _ _ (read_u16_app _ _ H2)),
    (rd_bind_eq _ _ _ _ _ (read_u16_app _ _ H3)). rewrite (rd_bind_eq _ _ _ d4 s); [done|].
  by apply read_exact_app.
Qed.

Definition map_properties (guids : list (list Z)) (s : MapState) : list Property :=
  [(0x0001, WriterValue.Integer32 BUCKETS);
   (0x0002, WriterValue.Binary (if is_empty guids then PS_MAPI_BYTES else concat guids));
   (0x0003, WriterValue.Binary (nm_entries s)); (0x0004, WriterValue.Binary (nm_strings s))] ++
  map (fun '(bucket, entries) => (0x1000 + bucket, WriterValue.Binary entries)) (nm_buckets s).

Lemma size_written es : length (written es) = (8 * length es)%nat.
Proof.
  unfold written. induction es as [|e es IH]; [done|]. cbn [map concat]. rewrite length_app, IH.
  pose proof (rt_size (A := NameIdEntry) e) as H. cbn in H. rewrite H. cbn. lia.
Qed.

Lemma entries_of_written es : Forall ser_wf es -> NamedPropertyMapProperties.entries_of (written es) = Ok es.
Proof.
  intros Hw. unfold NamedPropertyMapProperties.entries_of. rewrite size_written, Nat2Z.inj_mul, Z.mul_comm, Z.mod_mul by done.
  cbn [negb Z.eqb]. pose proof (read_whole_concat (A := NameIdEntry) (H := NameIdEntry_serial) es (8 * length es) ltac:(cbn; lia) Hw) as H.
  change (concat (map ser_write es)) with (written es) in H. rewrite size_written in H. exact (H ltac:(lia)).
Qed.

Section queries.
Context (named : list NamedIdentity) (es : list NameIdEntry) (s : MapState) (self : NamedPropertyMapProperties).
Context (Hne : named <> []) (Hok : Forall identity_ok named).
Context (Hi : map_inv (custom_guids named) named es s) (Hself : holds_properties self (map_properties (custom_guids named) s)).
Set Default Proof Using "Type*".

Lemma entries_nonempty : es <> [].
Proof. destruct Hi. apply Forall2_length in mi_names0. by destruct es, named. Qed.

Lemma entries_wf : Forall ser_wf es.
Proof. destruct Hi. clear -mi_names0. induction mi_names0 as [|e i es' named' [Hw _] _ IH]; by constructor. Qed.

Lemma written_nonempty l : l <> [] -> written l <> [].
Proof. intros Hl H. apply (f_equal length) in H. rewrite size_written in H. destruct l; [done|cbn in H; lia]. Qed.

Lemma get_bucket_count : NamedPropertyMapProperties.bucket_count self = Ok BUCKETS.
Proof. unfold NamedPropertyMapProperties.bucket_count. by rewrite Hself. Qed.

Lemma get_entries : NamedPropertyMapProperties.stream_entry self = Ok es.
Proof.
  unfold NamedPropertyMapProperties.stream_entry. rewrite Hself. cbn [map_properties app List.find fst Z.eqb Pos.eqb fmap option_fmap option_map snd].
  rewrite (mi_entries _ _ _ _ Hi), read_as_bytes by (by apply written_nonempty, entries_nonempty).
  cbn [ok_or messaging rmap_err rbind NamedPropertyMapProperties.binary]. by apply entries_of_written, entries_wf.
Qed.

Lemma guid_bytes_all : Forall (fun g => guid_bytes_ok g) (custom_guids named).
Proof.
  apply Forall_forall. intros g (name & Hg)%custom_guids_elem. by apply (proj1 (Forall_forall _ _) Hok _ Hg).
Qed.

Lemma get_guid k value :
  custom_guids named !! k = Some value ->
  exists g, NamedPropertyMapProperties.lookup_guid self (NamedPropertyGuid.GuidIndex (Z.of_nat k)) = Ok g /\ GuidValue.to_le_bytes g = value.
Proof.
  intros Hk. pose proof guid_bytes_all as Hg. pose proof (Forall_lookup_1 _ _ _ _ Hg Hk) as Hv.
  assert (Hl : Forall (fun l => length l = 16%nat) (custom_guids named)) by (eapply Forall_impl; [exact Hg|]; by intros ? []).
  exists (guid_of_bytes value). split; [|by apply guid_of_bytes_ok]. unfold NamedPropertyMapProperties.lookup_guid.
  rewrite Hself. cbn [map_properties app List.find fst Z.eqb Pos.eqb fmap option_fmap option_map snd].
  pose proof (take_drop_concat 16 _ k value Hl Hk) as Ht.
  destruct (custom_guids named) as [|g gs] eqn:Hgs; [done|]. cbn [is_empty].
  assert (Hlen : length (concat (g :: gs)) = (16 * length (g :: gs))%nat) by (clear -Hl; induction Hl as [|x l Hx _ IH]; [done|]; cbn [concat length]; rewrite length_app, IH, Hx; lia).
  rewrite read_as_bytes by (intros E; rewrite E in Hlen; cbn in Hlen; lia).
  cbn [ok_or messaging rmap_err rbind NamedPropertyMapProperties.binary]. pose proof (lookup_lt_Some _ _ _ Hk) as Hlt.
  rewrite (proj2 (Z.ltb_ge _ _)) by lia. replace (Z.to_nat (Z.of_nat k * 16)) with (k * 16)%nat by lia. rewrite Ht.
  by rewrite <- (app_nil_r value), read_guid_bytes, app_nil_r.
Qed.

Lemma names_bytes_ok : len (concat (map frame (names_of named))) < 2 ^ 32 -> Forall string_bytes_ok (names_of named).
Proof.
  intros Hm. assert (He : Forall (fun x => Z.of_nat (length x) mod 2 = 0) (names_of named)).
  { unfold names_of. apply Forall_concat, Forall_map, Forall_forall. intros [set [n|name]] _; cbn [snd]; [by constructor|].
    apply Forall_singleton. rewrite length_name_bytes, Nat2Z.inj_mul, Z.mul_comm. by apply Z.mod_mul. }
  clear -Hm He. induction He as [|x l Hx _ IH]; [by constructor|]. cbn [map concat] in Hm. unfold len in *.
  rewrite length_app, length_frame in Hm. apply Forall_cons. split; [split; [done|lia]|]. apply IH. lia.
Qed.

Lemma get_string k bytes :
  len (concat (map frame (names_of named))) < 2 ^ 32 -> names_of named !! k = Some bytes ->
  NamedPropertyMapProperties.lookup_string self (string_offset (names_of named) k) =
  Ok (mk_StringEntry (Z.of_nat (length bytes)) bytes).
Proof.
  intros Hm Hk. unfold NamedPropertyMapProperties.lookup_string, NamedPropertyMapProperties.string_stream.
  rewrite Hself. cbn [map_properties app List.find fst Z.eqb Pos.eqb fmap option_fmap option_map snd].
  assert (Hne' : nm_strings s <> []).
  { rewrite (mi_strings _ _ _ _ Hi). intros E. apply (f_equal length) in E. destruct (names_of named) as [|x l]; [done|].
    cbn [map concat] in E. rewrite length_app, length_frame in E. cbn in E. lia. }
  rewrite read_as_bytes by done. cbn [ok_or messaging rmap_err rbind NamedPropertyMapProperties.binary].
  rewrite (mi_strings _ _ _ _ Hi), parse_frames by (by first [apply names_bytes_ok|unfold len in Hm; lia]). cbn [rbind].
  pose proof (framed_lookup _ _ _ 0 Hk) as Hf. rewrite !Z.add_0_l in Hf. by rewrite Hf.
Qed.

Lemma get_bucket b : 0 <= b < BUCKETS ->
  NamedPropertyMapProperties.get self (0x1000 + b) =
  match bucket_entries es named b with [] => None | l => Some (PropertyValue.Binary (written l)) end.
Proof.
  intros Hb. rewrite Hself. unfold map_properties.
  cbn [app List.find fst]. repeat (rewrite (proj2 (Z.eqb_neq _ (0x1000 + b))) by lia).
  pose proof (mi_buckets _ _ _ _ Hi b) as Hl. unfold bucket_lookup in Hl.
  replace (List.find _ (map _ (nm_buckets s)))
    with ((fun '(bucket, entries) => (0x1000 + bucket, WriterValue.Binary entries)) <$> List.find (fun x => x.1 =? b) (nm_buckets s)).
  - destruct (List.find _ (nm_buckets s)) as [[k bytes]|]; cbn [fmap option_fmap option_map snd] in Hl |- *.
    + destruct (bucket_entries es named b) as [|e l]; [done|]. assert (bytes = written (e :: l)) as -> by congruence. f_equal. apply read_as_bytes. by apply written_nonempty.
    + by destruct (bucket_entries es named b).
  - clear. induction (nm_buckets s) as [|[k bytes] l IH]; [done|]. cbn [map List.find fst].
    replace (0x1000 + k =? 0x1000 + b) with (k =? b) by (destruct (Z.eqb_spec k b), (Z.eqb_spec (0x1000 + k) (0x1000 + b)); lia).
    by destruct (k =? b).
Qed.

(** The entries of the bucket of an id, exactly. *)
Lemma read_bucket name_id :
  let bucket := NameIdEntry.hash_value name_id mod BUCKETS in
  NamedPropertyMapProperties.hash_bucket self name_id =
  match bucket_entries es named bucket with
  | [] => Err (MessagingData (NamedPropertyMapBucketNotFound bucket))
  | l => Ok l
  end.
Proof.
  intros bucket. unfold NamedPropertyMapProperties.hash_bucket. rewrite get_bucket_count. cbn [rbind]. fold bucket.
  assert (Hb : 0 <= bucket < BUCKETS) by (by apply Z.mod_pos_bound). assert (HB : BUCKETS = 251) by done.
  replace (uint_b 16 bucket) with true by (symmetry; apply uint_b_spec; unfold uint; lia). cbn [ok_or messaging rmap_err rbind].
  rewrite (proj2 (Z.ltb_ge _ _)) by lia. rewrite get_bucket by done.
  destruct (bucket_entries es named bucket) as [|e l] eqn:E; [done|]. cbn [ok_or messaging rmap_err rbind NamedPropertyMapProperties.binary].
  apply entries_of_written. rewrite <- E. unfold bucket_entries. apply Forall_map, Forall_forall. intros [x i] [_ Hx]%list_elem_of_filter.
  apply (proj1 (Forall_forall _ _) entries_wf). by apply elem_of_zip_l in Hx.
Qed.
End queries.
Set Default Proof Using "Type".

(** The identity a reader makes of an entry. *)
Definition resolves (self : NamedPropertyMapProperties) (e : NameIdEntry) (identity : NamedIdentity) : Prop :=
  match identity.1 with
  | NamedPropertySet.Mapi => ni_guid e = NamedPropertyGuid.Mapi
  | NamedPropertySet.PublicStrings => ni_guid e = NamedPropertyGuid.PublicStrings
  | NamedPropertySet.Guid value =>
      exists g, NamedPropertyMapProperties.lookup_guid self (ni_guid e) = Ok g /\ GuidValue.to_le_bytes g = value
  end /\
  match identity.2 with
  | NamedPropertyName.Numeric n => ni_id e = NamedPropertyId.Number n
  | NamedPropertyName.String name =>
      exists offset entry, ni_id e = NamedPropertyId.StringOffset offset /\
        NamedPropertyMapProperties.lookup_string self offset = Ok entry /\ StringEntry.to_string entry = name
  end.

Lemma entry_resolves named es s self :
  named <> [] -> Forall identity_ok named -> map_inv (custom_guids named) named es s ->
  holds_properties self (map_properties (custom_guids named) s) -> len (concat (map frame (names_of named))) < 2 ^ 32 ->
  Forall2 (resolves self) es named.
Proof.
  intros Hne Hok Hi Hself Hm. apply Forall2_same_length_lookup. pose proof (mi_names _ _ _ _ Hi) as H.
  split; [by eapply Forall2_length|]. intros i e [set name] He Hin. pose proof (Forall2_lookup_lr _ _ _ _ _ _ H He Hin) as (_ & Hs & Hn).
  split; cbn [fst snd] in *.
  - destruct set as [| |value]; [done..|]. destruct Hs as (k & -> & Hk). by eapply get_guid.
  - destruct name as [n|name]; [done|]. destruct Hn as (k & -> & Hk). do 2 eexists. split; [done|].
    split; [by eapply get_string|]. apply name_displayed. by apply (Forall_lookup_1 _ _ _ _ Hok Hin).
Qed.

(** The bucket of an entry with a number is the one its hash names. *)
Lemma numeric_bucket e set n :
  ni_id e = NamedPropertyId.Number n -> bucket_of (e, (set, NamedPropertyName.Numeric n)) = NameIdEntry.hash_value e mod BUCKETS.
Proof. intros He. unfold bucket_of, NameIdEntry.hash_value, NameIdEntry.id_and_guid_index. cbn [fst snd name_hash]. by rewrite He. Qed.

Lemma bucket_entries_elem es named b e : e ∈ bucket_entries es named b <-> exists identity, (e, identity) ∈ zip es named /\ bucket_of (e, identity) = b.
Proof.
  unfold bucket_entries. rewrite list_elem_of_fmap. setoid_rewrite list_elem_of_filter. split.
  - intros ([x i] & -> & Hb & Hin). by exists i.
  - intros (i & Hin & Hb). by exists (e, i).
Qed.

(** Ids are used once. *)
Lemma entries_distinct guids named es s : map_inv guids named es s -> NoDup es.
Proof.
  intros Hi. apply (NoDup_fmap_1 NameIdEntry.prop_id). change (NameIdEntry.prop_id <$> es) with (map NameIdEntry.prop_id es).
  rewrite (mi_ids _ _ _ _ Hi). apply (NoDup_fmap_2_strong (fun i => 0x8000 + Z.of_nat i)); [intros; lia|apply NoDup_seq].
Qed.

Lemma zip_functional {A B} (l : list A) (k : list B) a b b' : NoDup l -> (a, b) ∈ zip l k -> (a, b') ∈ zip l k -> b = b'.
Proof.
  intros Hl H1 H2. apply list_elem_of_lookup in H1 as (i & H1), H2 as (j & H2).
  apply lookup_zip_Some in H1 as [H1 H1'], H2 as [H2 H2']. rewrite (NoDup_lookup _ _ _ _ Hl H1 H2) in H1'. congruence.
Qed.

Lemma land_le_r x y : 0 <= y -> Z.land x y <= y.
Proof.
  intros Hy. rewrite Z.land_comm. pose proof (Z.add_lor_land (Z.ldiff y x) (Z.land y x)) as H. rewrite Z.lor_ldiff_and in H.
  rewrite (Z.land_comm y x), Z.land_assoc, Z.land_ldiff, Z.land_0_l, (Z.land_comm x y) in H.
  assert (0 <= Z.ldiff y x) by (apply Z.ldiff_nonneg; lia). lia.
Qed.

(** Setting bits of a number below 251 changes its remainder. *)
Lemma lxor_mod x y : 0 <= x -> 0 < y < BUCKETS -> Z.lxor x y mod BUCKETS <> x mod BUCKETS.
Proof.
  intros Hx Hy E. pose proof (Z.add_lxor_2land x y) as Ha. pose proof (land_le_r x y ltac:(lia)) as Hr.
  pose proof (proj2 (Z.land_nonneg x y) (or_introl Hx)) as Hl.
  assert (Hd : (Z.lxor x y - x) mod BUCKETS = 0) by (rewrite Zminus_mod, E, Z.sub_diag; done).
  apply Z.mod_divide in Hd; [|done]. destruct Hd as [q Hq].
  assert (q = 0) by (assert (BUCKETS = 251) by done; nia). subst q.
  assert (Z.lxor x y = Z.lxor x 0) as H0 by (rewrite Z.lxor_0_r; lia). apply lxor_cancel_l in H0. lia.
Qed.

(** What a reader has of the properties it was given. *)
Definition properties_of (ps : list Property) : NamedPropertyMapProperties :=
  mk_NamedPropertyMapProperties (foldr (fun p m => <[p.1 := read_as p.2]> m) ∅ ps).

Lemma properties_of_holds ps : holds_properties (properties_of ps) ps.
Proof.
  intros id. unfold NamedPropertyMapProperties.get, properties_of. cbn [np_properties].
  induction ps as [|[k v] ps IH]; [done|]. cbn [foldr fst snd List.find]. destruct (Z.eqb_spec k id) as [->|Hne].
  - by rewrite lookup_insert_eq.
  - by rewrite lookup_insert_ne.
Qed.

(** The GUID of an entry of a store with few sets of its own is small. *)
Lemma small_guid named guid set :
  len (custom_guids named) <= 122 -> set_named (custom_guids named) guid set -> 1 <= NamedPropertyGuid.into_u16 guid <= 124.
Proof.
  intros Hl Hs. destruct set as [| |value]; cbn [set_named] in Hs; [by subst; cbn|by subst; cbn|]. destruct Hs as (k & -> & Hk).
  apply lookup_lt_Some in Hk. unfold len in Hl. cbn [NamedPropertyGuid.into_u16]. unfold wrapping_add, wrap. rewrite Z.mod_small by lia. lia.
Qed.

(** The bucket of a string under its GUID and the one [hash_entry] computes. *)
Lemma string_buckets_differ e name k i identity :
  Forall char_ok name -> ni_id e = NamedPropertyId.StringOffset k -> identity.2 = NamedPropertyName.String name ->
  1 <= NamedPropertyGuid.into_u16 (ni_guid e) <= 124 ->
  bucket_of (e, identity) <>
  NameIdEntry.hash_value (mk_NameIdEntry (NamedPropertyId.StringOffset (compute_crc 0 (name_bytes name))) NamedPropertyGuid.None_ i) mod BUCKETS.
Proof.
  intros Hn Hid Hi Hg. unfold bucket_of, NameIdEntry.hash_value, NameIdEntry.id_and_guid_index. cbn [fst snd ni_id ni_guid NamedPropertyGuid.into_u16].
  rewrite Hid, Hi. cbn [snd name_hash]. set (g := NamedPropertyGuid.into_u16 (ni_guid e)) in *.
  change (Z.lor (wrap 16 (Z.shiftl 0 1)) 1) with 1.
  assert (Hu : uint 32 (compute_crc 0 (name_bytes name))).
  { apply compute_crc_uint. unfold name_bytes. apply Forall_concat, Forall_map, Forall_true. intros u. apply bytes_write_u16. }
  assert (Hs : wrap 16 (Z.shiftl g 1) = 2 * g) by (rewrite Z.shiftl_mul_pow2 by lia; unfold wrap; rewrite Z.mod_small by lia; lia).
  rewrite Hs. replace (Z.lor (2 * g) 1) with (Z.lxor 1 (2 * g)).
  - rewrite <- Z.lxor_assoc. apply lxor_mod; [apply Z.lxor_nonneg; unfold uint in Hu; lia|]. assert (BUCKETS = 251) by done. lia.
  - rewrite Z.lxor_comm, <- Z.lxor_lor; [done|]. zbits. rewrite Z.land_spec, Z.bits_0. destruct (Z.eq_dec n 0) as [->|]; [by rewrite Z.testbit_even_0|].
    change 1 with (2 ^ 0). rewrite (Z.pow2_bits_false 0) by lia. apply andb_false_r.
Qed.

(** ** Properties *)

(** C21: For identities with numbers and strings of their types, at least one,
    few enough for the ids and GUID numbers, the map is built, and any reader
    that has its properties finds in the stream of entries one entry per
    identity, in order, with the ids from [0x8000] on; the set of each is
    the GUID looked up for its number and the name its number or the string
    looked up at its offset; and the bucket of any id holds exactly the
    entries whose hash falls in it, so a property with a number is in the
    bucket of its entry. *)
Theorem named_property_map_reads_back (named : list NamedIdentity)
  (Hne : named <> []) (Hok : Forall identity_ok named) (Hn : len named <= 0x8000)
  (Hg : len (custom_guids named) <= 0x7FFD) (Hs : len (concat (map frame (names_of named))) < 2 ^ 32) :
  exists ps, named_property_map named = Ok ps /\
    forall self, holds_properties self ps ->
    exists es, NamedPropertyMapProperties.stream_entry self = Ok es /\ Forall2 (resolves self) es named /\
      map NameIdEntry.prop_id es = map (fun i => 0x8000 + Z.of_nat i) (seq 0 (length named)) /\
      (forall name_id, let bucket := NameIdEntry.hash_value name_id mod BUCKETS in
        NamedPropertyMapProperties.hash_bucket self name_id =
        match bucket_entries es named bucket with
        | [] => Err (MessagingData (NamedPropertyMapBucketNotFound bucket))
        | l => Ok l
        end) /\
      (forall e set n, (e, (set, NamedPropertyName.Numeric n)) ∈ zip es named ->
        exists l, NamedPropertyMapProperties.hash_bucket self e = Ok l /\ e ∈ l).
Proof.
  destruct (named_property_map_ok named Hne Hok Hn Hg Hs) as (es & s & Hi & Hmap). eexists. split; [exact Hmap|].
  intros self Hself. pose proof (entry_resolves named es s self Hne Hok Hi Hself Hs) as Hres. exists es.
  split; [by eapply get_entries|]. split; [done|]. split; [exact (mi_ids _ _ _ _ Hi)|].
  split; [intros name_id; by eapply read_bucket|]. intros e set n Hin.
  assert (He : ni_id e = NamedPropertyId.Number n).
  { apply list_elem_of_lookup in Hin as (i & Hin). apply lookup_zip_Some in Hin as [H1 H2].
    exact (proj2 (Forall2_lookup_lr _ _ _ _ _ _ Hres H1 H2)). }
  rewrite (read_bucket named es s self Hne Hok Hi Hself).
  assert (Hb : e ∈ bucket_entries es named (NameIdEntry.hash_value e mod BUCKETS)).
  { apply bucket_entries_elem. exists (set, NamedPropertyName.Numeric n). split; [done|]. by apply numeric_bucket. }
  destruct (bucket_entries es named _) as [|x l]; [by apply elem_of_nil in Hb|]. by eexists.
Qed.

Definition sample_identities : list NamedIdentity :=
  [(NamedPropertySet.Mapi, NamedPropertyName.Numeric 0x8005);
   (NamedPropertySet.PublicStrings, NamedPropertyName.String (chars "PSTForge Name"));
   (NamedPropertySet.Guid PSETID_ATTACHMENT, NamedPropertyName.String [0x1F4CE]);
   (NamedPropertySet.Guid PSETID_ATTACHMENT, NamedPropertyName.Numeric 7)].

Lemma guid_bytes_ok_b g : (length g =? 16)%nat && forallb (uint_b 8) g = true -> guid_bytes_ok g.
Proof. rewrite andb_true_iff, Nat.eqb_eq, forallb_forall. intros [Hl Hb]. split; [done|]. apply Forall_forall. intros b Hin. apply uint_b_spec, Hb. by apply list_elem_of_In. Qed.

Lemma sample_identities_ok : Forall identity_ok sample_identities.
Proof.
  assert (Hc : forall s, forallb (fun c => (0 <=? c) && (c <? 0x110000) && ((c <? 0xD800) || (0xE000 <=? c))) s = true -> Forall char_ok s).
  { intros s Hs. rewrite forallb_forall in Hs. apply Forall_forall. intros c Hin. specialize (Hs c (proj1 (list_elem_of_In _ _) Hin)).
    rewrite !andb_true_iff, orb_true_iff, Z.leb_le, !Z.ltb_lt, Z.leb_le in Hs. unfold char_ok. lia. }
  repeat (apply Forall_cons; split); [..|constructor]; split; cbn [fst snd]; try done; try (by apply guid_bytes_ok_b); by apply Hc.
Qed.

Lemma named_property_map_reads_back_witness :
  exists ps es, named_property_map sample_identities = Ok ps /\
    NamedPropertyMapProperties.stream_entry (properties_of ps) = Ok es /\
    Forall2 (resolves (properties_of ps)) es sample_identities /\ map NameIdEntry.prop_id es = [0x8000; 0x8001; 0x8002; 0x8003].
Proof.
  destruct (named_property_map_reads_back sample_identities) as (ps & Hps & Hread).
  - discriminate.
  - exact sample_identities_ok.
  - vm_compute. discriminate.
  - vm_compute. discriminate.
  - vm_compute. reflexivity.
  - destruct (Hread (properties_of ps) (properties_of_holds ps)) as (es & He & Hres & Hids & _).
    exists ps, es. split; [exact Hps|]. split; [exact He|]. split; [exact Hres|]. rewrite Hids. reflexivity.
Defined.

(** C38: [hash_entry] computes the hash of a name that is a string without
    the GUID of its set, and the writer with it: in the map of a store with
    at most 122 sets of its own, the bucket that a reader is led to never
    holds the entry. *)
Theorem string_names_missed (named : list NamedIdentity) (ps : list Property) (self : NamedPropertyMapProperties) (es : list NameIdEntry)
  (Hne : named <> []) (Hok : Forall identity_ok named) (Hn : len named <= 0x8000)
  (Hg : len (custom_guids named) <= 122) (Hs : len (concat (map frame (names_of named))) < 2 ^ 32)
  (Hmap : named_property_map named = Ok ps) (Hself : holds_properties self ps)
  (Hes : NamedPropertyMapProperties.stream_entry self = Ok es) :
  forall i e set name, es !! i = Some e -> named !! i = Some (set, NamedPropertyName.String name) ->
  exists h, NamedPropertyMapProperties.hash_entry self e = Ok h /\
    forall l, NamedPropertyMapProperties.hash_bucket self h = Ok l -> e ∉ l.
Proof.
  intros i e set name He Hname.
  destruct (named_property_map_ok named Hne Hok Hn ltac:(lia) Hs) as (es' & s & Hi & Hmap').
  rewrite Hmap in Hmap'. apply ok_inj in Hmap'. subst ps.
  rewrite (get_entries named es' s self Hne Hok Hi Hself) in Hes. apply ok_inj in Hes. subst es'.
  destruct (Forall2_lookup_lr _ _ _ _ _ _ (mi_names _ _ _ _ Hi) He Hname) as (_ & Hset & k & Hid & Hk).
  pose proof (get_string named es s self Hne Hok Hi Hself k _ Hs Hk) as Hstr.
  eexists. unfold NamedPropertyMapProperties.hash_entry. rewrite Hid, Hstr. cbn [rbind se_buffer]. split; [done|].
  intros l Hl Hin. rewrite (read_bucket named es s self Hne Hok Hi Hself) in Hl. cbv zeta in Hl.
  set (h := mk_NameIdEntry _ _ _) in *. set (b := NameIdEntry.hash_value h mod BUCKETS) in *.
  assert (Hb : e ∈ bucket_entries es named b) by (destruct (bucket_entries es named b); [done|by injection Hl as <-]).
  apply bucket_entries_elem in Hb as (identity & Hz & Hb).
  assert (identity = (set, NamedPropertyName.String name)) as ->.
  { eapply zip_functional; [by eapply entries_distinct|exact Hz|]. apply (list_elem_of_lookup_2 _ i). apply lookup_zip_Some. done. }
  revert Hb. eapply string_buckets_differ; [|exact Hid|done|by eapply small_guid].
  by apply (Forall_lookup_1 _ _ _ _ Hok Hname).
Qed.

Lemma string_names_missed_witness :
  exists e h, NamedPropertyMapProperties.hash_entry
      (properties_of (default [] (match named_property_map sample_identities with Ok ps => Some ps | _ => None end))) e = Ok h /\
    NameIdEntry.prop_id e = 0x8001 /\
    forall l, NamedPropertyMapProperties.hash_bucket
      (properties_of (default [] (match named_property_map sample_identities with Ok ps => Some ps | _ => None end))) h = Ok l -> e ∉ l.
Proof.
  set (ps := default [] (match named_property_map sample_identities with Ok ps => Some ps | _ => None end)).
  set (e := mk_NameIdEntry (NamedPropertyId.StringOffset 0) NamedPropertyGuid.PublicStrings (mk_NamedPropertyIndex 0x8001)).
  destruct (string_names_missed sample_identities ps (properties_of ps)
    (match NamedPropertyMapProperties.stream_entry (properties_of ps) with Ok es => es | _ => [] end)) with (i := 1%nat) (e := e)
    (set := NamedPropertySet.PublicStrings) (name := chars "PSTForge Name") as (h & Hh & Hl).
  - discriminate.
  - exact sample_identities_ok.
  - vm_compute. discriminate.
  - vm_compute. discriminate.
  - vm_compute. reflexivity.
  - vm_compute. reflexivity.
  - apply properties_of_holds.
  - vm_compute. reflexivity.
  - vm_compute. reflexivity.
  - reflexivity.
  - exists e, h. split; [exact Hh|]. split; [reflexivity|exact Hl].
Defined.

(** ** The ids of a store *)

#[export] Instance set_cmp_laws : CmpLaws NamedPropertySet.cmp.
Proof.
  split.
  - intros [| |a]; [done..|]. apply (cmp_refl (list_cmp Z.compare)).
  - intros [| |a] [| |b]; try done. apply (cmp_anti (list_cmp Z.compare)).
  - intros [| |a] [| |b] [| |c]; try done. apply (cmp_trans (list_cmp Z.compare)).
Qed.

#[export] Instance set_cmp_eq : CmpEq NamedPropertySet.cmp.
Proof. intros [| |a] [| |b]; try done. cbn. intros H. f_equal. by apply (cmp_eq (cmp := list_cmp Z.compare)). Qed.

#[export] Instance name_cmp_laws : CmpLaws NamedPropertyName.cmp.
Proof.
  split.
  - intros [a|a]; [apply (cmp_refl Z.compare)|apply (cmp_refl (list_cmp Z.compare))].
  - intros [a|a] [b|b]; try done; [apply (cmp_anti Z.compare)|apply (cmp_anti (list_cmp Z.compare))].
  - intros [a|a] [b|b] [c|c]; try done; [apply (cmp_trans Z.compare)|apply (cmp_trans (list_cmp Z.compare))].
Qed.

#[export] Instance name_cmp_eq : CmpEq NamedPropertyName.cmp.
Proof. intros [a|a] [b|b]; try done; cbn; intros H; f_equal; [by apply (cmp_eq (cmp := Z.compare))|by apply (cmp_eq (cmp := list_cmp Z.compare))]. Qed.

Lemma lex_cmp_eq {A B} (cf : A -> A -> comparison) (cg : B -> B -> comparison) :
  CmpEq cf -> CmpEq cg -> CmpEq (lex_cmp (@fst A B) cf (@snd A B) cg).
Proof. intros Hf Hg [a b] [c d]. unfold lex_cmp. rewrite then_with_refl. cbn [fst snd]. intros [H1 H2]. f_equal; [by apply Hf|by apply Hg]. Qed.

#[export] Instance identity_cmp_laws : CmpLaws identity_cmp := _.
#[export] Instance identity_cmp_eq : CmpEq identity_cmp := lex_cmp_eq _ _ _ _.

Lemma dedup_sorted {A} `{EqDecision A} (cmp : A -> A -> comparison) `{!CmpLaws cmp, !CmpEq cmp} l :
  StronglySorted (cmp_le cmp) l -> NoDup (dedup l).
Proof.
  induction l as [|a l IH]; intros Hs; [constructor|]. inversion_clear Hs as [|? ? Hl Ha]. specialize (IH Hl).
  destruct l as [|b l]; [by apply NoDup_singleton|].
  change (dedup (a :: b :: l)) with (if decide (a = b) then dedup (b :: l) else a :: dedup (b :: l)).
  destruct (decide (a = b)) as [|Hne]; [done|]. apply NoDup_cons. split; [|done]. rewrite dedup_elem. intros Hin.
  apply elem_of_cons in Hin as [|Hin]; [done|]. apply Hne. apply (cmp_eq (cmp := cmp)). apply (cmp_le_antisym cmp).
  - by apply Forall_cons in Ha as [? _].
  - inversion_clear Hl as [|? ? _ Hb]. by apply (proj1 (Forall_forall _ _) Hb).
Qed.

(** A set has every element once. *)
Lemma btree_set_spec {A} `{EqDecision A} (cmp : A -> A -> comparison) `{!CmpLaws cmp, !CmpEq cmp} l :
  NoDup (btree_set cmp l) /\ forall x, x ∈ btree_set cmp l <-> x ∈ l.
Proof.
  unfold btree_set. split.
  - apply (dedup_sorted cmp). apply (sort_by_sorted cmp).
  - intros x. rewrite dedup_elem. by rewrite (sort_by_perm cmp).
Qed.

Lemma named_identity_index_none named identity : named_identity_index named identity = None <-> identity ∉ named.
Proof.
  unfold named_identity_index. destruct (list_find (eq identity) named) as [[i x]|] eqn:E; cbn.
  - apply list_find_position, list_elem_of_lookup_2 in E. naive_solver.
  - apply list_find_None in E. rewrite Forall_forall in E. split; [|done]. intros _ Hin. by apply (E identity).
Qed.

Lemma named_identity_index_some named identity : identity ∈ named ->
  exists i, named_identity_index named identity = Some (Z.of_nat i) /\ named !! i = Some identity.
Proof.
  intros Hin. destruct (named_identity_index named identity) as [x|] eqn:E; [|by apply named_identity_index_none in E].
  unfold named_identity_index in E. destruct (list_find _ _) as [[i y]|] eqn:Hf; [|done]. injection E as <-. exists i.
  split; [done|]. by apply list_find_position in Hf.
Qed.

Lemma add_identities_ok identities : forall named r named', add_identities identities named = (r, named') ->
  NoDup named -> len named <= 0x8000 ->
  (exists l, named' = named ++ l /\ l ⊆ identities) /\ NoDup named' /\ len named' <= 0x8000 /\
  match r with
  | Ok _ => identities ⊆ named'
  | Err e => e = ValueTooLarge "named-property count" /\ len named' = 0x8000 /\ exists identity, identity ∈ identities /\ identity ∉ named'
  | Panic => False
  end.
Proof.
  induction identities as [|identity identities IH]; intros named r named' H Hnd Hl; cbn [add_identities] in H.
  - injection H as <- <-. split_and!; [exists []; by rewrite app_nil_r|done|done|by intros x ?%elem_of_nil].
  - destruct (named_identity_index named identity) as [i|] eqn:E.
    + assert (identity ∈ named) as Hin by (destruct (decide (identity ∈ named)) as [|Hx]; [done|]; by apply named_identity_index_none in Hx; rewrite Hx in E).
      destruct (IH _ _ _ H Hnd Hl) as ((l & -> & Hs) & Hn & Hl' & Hr). split_and!; [exists l; split; [done|set_solver]|done|done|].
      destruct r as [|e|]; [|naive_solver set_solver|done]. set_solver.
    + apply named_identity_index_none in E. destruct (Z.leb_spec 0x8000 (len named)) as [Hfull|Hroom].
      * injection H as <- <-. split_and!; [exists []; split; [by rewrite app_nil_r|apply list_subseteq_nil]|done|done|done|lia|exists identity; set_solver].
      * destruct (IH _ _ _ H) as ((l & -> & Hs) & Hn & Hl' & Hr).
        { apply NoDup_app. split_and!; [done|set_solver|by apply NoDup_singleton]. }
        { unfold len in *. rewrite length_app. cbn. lia. }
        split_and!; [exists (identity :: l); rewrite <- app_assoc; split; [done|set_solver]|done|done|].
        destruct r as [|e|]; [|naive_solver set_solver|done]. set_solver.
Qed.

(** C39: Preparing a message never changes or reuses an id: the identities
    stay where they are and new ones follow, each once, and at most [0x8000]
    of them, so that their ids fit. When it succeeds every identity of the
    message, its references and its embedded messages has an id; it fails
    only when all ids are in use and an identity of the message has none, or,
    for a catalog that is given, when the catalog lacks one. *)
Theorem prepare_named_identities_stable (dynamic : bool) (named named' : list NamedIdentity) (message : MessageSpec) (r : wres unit)
  (Hnd : NoDup named) (Hl : len named <= 0x8000) (Hrun : prepare_named_identities dynamic named message = (r, named')) :
  (exists l, named' = named ++ l /\ l ⊆ collected_identities message) /\ (dynamic = false -> named' = named) /\
  NoDup named' /\ len named' <= 0x8000 /\
  match r with
  | Ok _ => forall identity, identity ∈ collected_identities message ->
      exists i, named_identity_index named' identity = Some (Z.of_nat i) /\ named' !! i = Some identity
  | Err e => exists identity, identity ∈ collected_identities message /\ ~ (identity ∈ named') /\ (dynamic = true -> len named' = 0x8000)
  | Panic => False
  end.
Proof.
  pose proof (proj2 (btree_set_spec identity_cmp (collected_identities message))) as Hset. unfold prepare_named_identities in Hrun.
  fold (collect_named_identities message) in Hset. destruct dynamic.
  - destruct (add_identities_ok _ _ _ _ Hrun Hnd Hl) as ((l & Hn & Hs) & Hnd' & Hl' & Hr). split_and!; try done.
    + exists l. split; [done|]. intros x Hx. by apply Hset, Hs.
    + destruct r as [|e|]; [|destruct Hr as (_ & Hfull & x & Hx & Hnx); exists x; by rewrite <- Hset|done].
      intros x Hx. apply named_identity_index_some. by apply Hr, Hset.
  - destruct (existsb _ _) eqn:E; injection Hrun as <- <-; (split_and!; [exists []; split; [by rewrite app_nil_r|apply list_subseteq_nil]|done..|]).
    + apply existsb_exists in E as (x & Hx & E). exists x. rewrite <- Hset. split; [by apply list_elem_of_In|]. split; [|done].
      apply named_identity_index_none. by destruct (named_identity_index named x).
    + intros x Hx. apply named_identity_index_some. destruct (decide (x ∈ named)) as [|Hnx]; [done|].
      apply named_identity_index_none in Hnx. rewrite <- not_true_iff_false, existsb_exists in E. destruct E. exists x.
      split; [by apply list_elem_of_In, Hset|by rewrite Hnx].
Qed.

Definition sample_reference : AttachmentReferenceSpec :=
  mk_AttachmentReferenceSpec ByWebReference (chars "https://example.org") None (Some (chars "OneDrive")) None (Some 1).

Definition sample_attachment (content : AttachmentContent MessageSpec) : AttachmentSpec :=
  mk_AttachmentSpec (chars "a.bin") None None None None 0 [] [] [] content.

Definition sample_message (attachments : list AttachmentSpec) (named : list NamedProperty) : MessageSpec :=
  mk_MessageSpec (chars "IPM.Note") 1 65001 (chars "Subject") (chars "A") (chars "a@example.org")
    [mk_RecipientSpec To (chars "B") (chars "b@example.org")] 0 0 0 0 (Some (chars "text")) None None None false None
    attachments named [] [] [] [].

(** A message with a named property, a web reference and an embedded message. *)
Definition sample_named_message : MessageSpec :=
  sample_message
    [sample_attachment (AC_Reference sample_reference);
     sample_attachment (AC_Embedded (sample_message [] [mk_NamedProperty NamedPropertySet.PublicStrings (NamedPropertyName.String (chars "Keywords")) (RawPropertyValue.Integer32 1)]))]
    [mk_NamedProperty NamedPropertySet.Mapi (NamedPropertyName.Numeric 0x8005) (RawPropertyValue.Integer32 7)].

Lemma prepare_named_identities_stable_witness :
  let named := [(NamedPropertySet.Mapi, NamedPropertyName.Numeric 0x8005)] in
  exists named', prepare_named_identities true named sample_named_message = (Ok tt, named') /\ length named' = 4%nat /\
    exists i, named_identity_index named' (NamedPropertySet.PublicStrings, NamedPropertyName.String (chars "Keywords")) = Some (Z.of_nat i).
Proof.
  set (named := [(NamedPropertySet.Mapi, NamedPropertyName.Numeric 0x8005)]).
  destruct (prepare_named_identities true named sample_named_message) as [r named'] eqn:E.
  assert (Hr : r = Ok tt /\ length named' = 4%nat) by (vm_compute in E; injection E as <- <-; split; reflexivity).
  destruct Hr as [-> Hlen].
  destruct (prepare_named_identities_stable true named named' sample_named_message (Ok tt)) as (_ & _ & _ & _ & H).
  - apply NoDup_singleton.
  - vm_compute. discriminate.
  - exact E.
  - destruct (H (NamedPropertySet.PublicStrings, NamedPropertyName.String (chars "Keywords"))) as (i & Hi & _).
    + apply (bool_decide_unpack _). vm_compute. exact Logic.I.
    + exists named'. split; [exact E|]. split; [exact Hlen|]. exists i. exact Hi.
Defined.
