(* ===== verification/WriterMessage.v ===== *)
(** * Messages of the writer

    [writer.rs]: the properties of a message and of its attachments, their
    sizes, the rows that messages have in the tables of their folder and the
    keys of messages. The arguments of formatted error messages are left
    out. What holds of these properties is shown in file WriterValidate, for
    the messages that are accepted. *)
From S2P Require Import Prelude Errors Io Ids PropValue TableContext Alloc WriterBlocks WriterTree WriterValues WriterContext WriterSchema WriterTable MessageSpec.
#[local] Open Scope Z_scope.

#[export] Instance RecipientKind_eq_dec : EqDecision RecipientKind.
Proof. solve_decision. Defined.
#[export] Instance RawPropertyValue_eq_dec : EqDecision RawPropertyValue.t.
Proof. solve_decision. Defined.

(** ** Messages *)

Definition MSGFLAG_ASSOCIATED : Z := 0x40.
Definition HAS_ATTACHMENTS : Z := 0x10.
Definition MSGFLAG_READ : Z := 1.

Definition output_message_flags (message : MessageSpec) (associated : bool) : Z :=
  let flags := Z.land (ms_message_flags message) (Z.lnot (Z.lor HAS_ATTACHMENTS MSGFLAG_ASSOCIATED)) in
  let flags := if negb (is_empty (ms_attachments message)) then Z.lor flags HAS_ATTACHMENTS else flags in
  if associated then Z.lor flags MSGFLAG_ASSOCIATED else flags.

(** [join("; ")] *)
Fixpoint join (separator : list Z) (l : list (list Z)) : list Z :=
  match l with
  | [] => []
  | [s] => s
  | s :: l => s ++ separator ++ join separator l
  end.

Definition recipients_of (kind : RecipientKind) (recipients : list RecipientSpec) : list RecipientSpec :=
  List.filter (fun r => bool_decide (rs_kind r = kind)) recipients.

Definition display_recipient_properties (recipients : list RecipientSpec) : list Property :=
  omap (fun '(kind, id) =>
    let display := join (chars "; ") (map rs_display_name (recipients_of kind recipients)) in
    if negb (is_empty display) then Some (id, WriterValue.Unicode display) else None)
    [(To, 0x0E04); (Cc, 0x0E03); (Bcc, 0x0E02)].

(** The first of the raw properties that is a display name. *)
Definition associated_display_name (message : MessageSpec) : list Z :=
  let display p := match rp_id p, rp_value p with
                   | 0x3001, RawPropertyValue.Unicode value => Some value
                   | _, _ => None
                   end in
  default (ms_subject message) (head (omap display (ms_raw_properties message))).

(** The id of a property with a name. *)
Definition mapped_id (named_identities : list NamedIdentity) (identity : NamedIdentity) (missing : string) : wres Z :=
  let? index := ok_or (named_identity_index named_identities identity) (InvalidStructure missing) in
  let? index := try_u16 index "named-property count" in
  fits (checked_add 16 0x8000 index) "named-property identifier".

Definition has_sender (message : MessageSpec) : bool :=
  negb (is_empty (ms_sender_name message)) && negb (is_empty (ms_sender_email message)).

(** The properties that the writer makes of the fields of a message, but for
    the body in RTF. *)
Definition header_properties (message : MessageSpec) (associated : bool) (record_key : list Z) (message_size : Z) : list Property :=
  [(0x001A, WriterValue.Unicode (ms_message_class message));
   (0x0E06, WriterValue.Time (ms_received_filetime message));
   (0x0E07, WriterValue.Integer32 (output_message_flags message associated));
   (0x0E08, WriterValue.Integer32 message_size);
   (0x0E17, WriterValue.Integer32 0);
   (0x0E1B, WriterValue.Boolean (negb (is_empty (ms_attachments message))));
   (0x3007, WriterValue.Time (ms_creation_filetime message));
   (0x3008, WriterValue.Time (ms_modification_filetime message));
   (0x300B, WriterValue.Binary record_key);
   (0x3FDE, WriterValue.Integer32 (ms_internet_codepage message))] ++
  (if negb (is_empty (ms_subject message)) then [(0x0037, WriterValue.Unicode (ms_subject message))] else []) ++
  (if associated then [(0x3001, WriterValue.Unicode (associated_display_name message))] else []) ++
  (if has_sender message then
     [(0x0042, WriterValue.Unicode (ms_sender_name message)); (0x0064, WriterValue.Unicode (chars "SMTP"));
      (0x0065, WriterValue.Unicode (ms_sender_email message)); (0x0C1A, WriterValue.Unicode (ms_sender_name message));
      (0x0C1E, WriterValue.Unicode (chars "SMTP")); (0x0C1F, WriterValue.Unicode (ms_sender_email message))]
   else []) ++
  option_list ((fun body => (0x1000, WriterValue.Unicode body)) <$> ms_body_text message) ++
  option_list ((fun html => (0x1013, WriterValue.Binary html)) <$> ms_body_html message).

Definition rtf_properties (message : MessageSpec) : wres (list Property) :=
  match ms_body_rtf message with
  | Some rtf =>
      let? container := rtf_container rtf in
      Ok [(0x1009, WriterValue.Binary container); (0x0E1F, WriterValue.Boolean (ms_rtf_in_sync message))]
  | None =>
      Ok (if message_has_streamed_property message 0x1009
          then [(0x0E1F, WriterValue.Boolean (ms_rtf_in_sync message))] else [])
  end.

Definition trailing_properties (message : MessageSpec) : list Property :=
  option_list ((fun b => (0x1016, WriterValue.Integer32 (NativeBody_as_i32 b))) <$> ms_native_body message) ++
  option_list ((fun headers => (0x007D, WriterValue.Unicode headers)) <$> ms_internet_headers message) ++
  [(0x0039, WriterValue.Time (ms_sent_filetime message))] ++
  display_recipient_properties (ms_recipients message).

Definition named_properties (named_identities : list NamedIdentity) (message : MessageSpec) : wres (list Property) :=
  rmapM (fun p =>
    let? id := mapped_id named_identities (named_identity p) "named property is not mapped" in
    Ok (id, raw_property_value (nmp_value p))) (ms_named_properties message).

Definition raw_property (raw : RawProperty) : Property := (rp_id raw, raw_property_value (rp_value raw)).

Definition raw_properties (associated : bool) (message : MessageSpec) : list Property :=
  map raw_property (List.filter (fun raw => negb (associated && (rp_id raw =? 0x3001))) (ms_raw_properties message)).

Definition message_properties (message : MessageSpec) (associated : bool) (named_identities : list NamedIdentity)
    (record_key : list Z) (message_size : Z) : wres (list Property) :=
  let? rtf := rtf_properties message in
  let? named := named_properties named_identities message in
  Ok (header_properties message associated record_key message_size ++ rtf ++ trailing_properties message ++
      named ++ raw_properties associated message).

(** [find_map] of the first property with an id, and the assignment to its
    value. *)
Fixpoint set_value (id : Z) (value : WriterValue.t) (properties : list Property) : option (list Property) :=
  match properties with
  | [] => None
  | p :: properties =>
      if p.1 =? id then Some ((id, value) :: properties)
      else (fun properties => p :: properties) <$> set_value id value properties
  end.

Definition set_message_size (properties : list Property) (message_size : Z) : wres (list Property) :=
  ok_or (set_value 0x0E08 (WriterValue.Integer32 message_size) properties) (InvalidStructure "message size property is missing").

(** ** Keys *)

Definition message_record_key (store_key : list Z) (message : NodeId) : list Z :=
  let node := le_bytes 4 (node_id_0 message) in
  imap (fun index byte => Z.lxor byte (wrapping_add 8 (default 0 (node !! (index mod 4)%nat)) (wrap 8 (Z.of_nat index)))) store_key.

Definition message_instance_entry_id (record_key : list Z) : list Z := le_bytes 4 1 ++ record_key ++ le_bytes 4 1.

Section keys.
Context (sha256 : list Z -> list Z).
Definition embedded_message_record_key (parent_key : list Z) (attachment_index : Z) : list Z :=
  take 16 (sha256 (chars "PSTForge embedded record key" ++ parent_key ++ le_bytes 4 attachment_index)).
End keys.

(** ** Rows *)

(** The column of a raw property that is not yet among the values, and
    whether it has the type of the column. *)
Definition raw_column (columns : list TableColumnDescriptor) (values : list Property) (raw : RawProperty) : option (Property * bool) :=
  if is_reserved (rp_id raw) || existsb (fun p => p.1 =? rp_id raw) values then None else
  match List.find (fun column => tcd_prop_id column =? rp_id raw) columns with
  | None => None
  | Some column =>
      let value := raw_property_value (rp_value raw) in
      Some ((rp_id raw, value), bool_decide (WriterValue.property_type value = tcd_prop_type column))
  end.

(** A raw property of another type is an error in the table of contents and
    left out of the table of associated messages. *)
Definition add_contents_column (columns : list TableColumnDescriptor) (values : list Property) (raw : RawProperty) : wres (list Property) :=
  match raw_column columns values raw with
  | None => Ok values
  | Some (p, true) => Ok (values ++ [p])
  | Some (_, false) => Err (InvalidStructure "raw property is incompatible with the contents table")
  end.

Definition add_associated_column (columns : list TableColumnDescriptor) (values : list Property) (raw : RawProperty) : list Property :=
  match raw_column columns values raw with Some (p, true) => values ++ [p] | _ => values end.

Definition message_table_row (id : NodeId) (message : MessageSpec) (store_key record_key : list Z) (message_size : Z)
    (columns : list TableColumnDescriptor) : wres TableRowSpec :=
  let values :=
    [(0x001A, WriterValue.Unicode (ms_message_class message)); (0x0039, WriterValue.Time (ms_sent_filetime message));
     (0x0E06, WriterValue.Time (ms_received_filetime message));
     (0x0E07, WriterValue.Integer32 (output_message_flags message false));
     (0x0E08, WriterValue.Integer32 message_size); (0x0E17, WriterValue.Integer32 0);
     (0x0E30, WriterValue.Binary record_key); (0x0E33, WriterValue.Integer64 0x90);
     (0x0E34, WriterValue.Binary (message_instance_entry_id store_key));
     (0x3008, WriterValue.Time (ms_modification_filetime message))] ++
    (if negb (is_empty (ms_subject message)) then [(0x0037, WriterValue.Unicode (ms_subject message))] else []) ++
    (if negb (is_empty (ms_sender_name message)) then [(0x0042, WriterValue.Unicode (ms_sender_name message))] else []) ++
    List.filter (fun p => (p.1 =? 0x0E03) || (p.1 =? 0x0E04)) (display_recipient_properties (ms_recipients message)) in
  let? values := rfold (add_contents_column columns) (ms_raw_properties message) values in
  Ok (mk_TableRowSpec id values).

Definition associated_message_table_row (id : NodeId) (message : MessageSpec) (columns : list TableColumnDescriptor) : TableRowSpec :=
  let values :=
    [(0x001A, WriterValue.Unicode (ms_message_class message));
     (0x0E07, WriterValue.Integer32 (output_message_flags message true));
     (0x0E17, WriterValue.Integer32 0);
     (0x3001, WriterValue.Unicode (associated_display_name message))] in
  mk_TableRowSpec id (foldl (add_associated_column columns) values (ms_raw_properties message)).

Definition folder_unread_count (messages : list MessageSpec) : wres Z :=
  let unread := len (List.filter (fun message => Z.land (output_message_flags message false) MSGFLAG_READ =? 0) messages) in
  fits (if unread <=? 2 ^ 31 - 1 then Some unread else None) "folder unread count".

(** ** Attachments *)

Definition optional_text (id : Z) (o : option (list Z)) : list Property :=
  option_list ((fun s => (id, WriterValue.Unicode s)) <$> o).

Definition attachment_base_properties (attachment : AttachmentSpec) (attachment_number method size : Z) : list Property :=
  [(0x0E20, WriterValue.Integer32 size); (0x0E21, WriterValue.Integer32 attachment_number);
   (0x3704, WriterValue.Unicode (as_filename attachment)); (0x3705, WriterValue.Integer32 method);
   (0x3707, WriterValue.Unicode (as_filename attachment));
   (0x370B, WriterValue.Integer32 (default (-1) (as_rendering_position attachment)))] ++
  optional_text 0x370E (as_mime_type attachment) ++ optional_text 0x3712 (as_content_id attachment) ++
  optional_text 0x3713 (as_content_location attachment) ++
  [(0x3714, WriterValue.Integer32 (as_flags attachment))] ++ map raw_property (as_raw_properties attachment).

Definition attachment_properties (attachment : AttachmentSpec) (attachment_number method size : Z) (data : WriterValue.t) : list Property :=
  attachment_base_properties attachment attachment_number method size ++ [(0x3701, data)].

(** What a reference has of the three named properties. *)
Definition reference_values (reference : AttachmentReferenceSpec) : list (list Z * WriterValue.t) :=
  option_list ((fun s => (ATTACHMENT_PROVIDER_TYPE, WriterValue.Unicode s)) <$> ars_provider_type reference) ++
  option_list ((fun n => (ATTACHMENT_ORIGINAL_PERMISSION_TYPE, WriterValue.Integer32 n)) <$> ars_original_permission reference) ++
  option_list ((fun n => (ATTACHMENT_PERMISSION_TYPE, WriterValue.Integer32 n)) <$> ars_permission reference).

Definition reference_property (named_identities : list NamedIdentity) (nv : list Z * WriterValue.t) : wres Property :=
  let? id := mapped_id named_identities (NamedPropertySet.Guid PSETID_ATTACHMENT, NamedPropertyName.String nv.1)
               "reference attachment named property is not mapped" in
  Ok (id, nv.2).

Definition reference_properties (named_identities : list NamedIdentity) (reference : AttachmentReferenceSpec) : wres (list Property) :=
  let? named := rmapM (reference_property named_identities) (reference_values reference) in
  Ok ((0x370D, WriterValue.Unicode (ars_long_pathname reference)) :: optional_text 0x3708 (ars_pathname reference) ++ named).

Definition attachment_properties_mapped (attachment : AttachmentSpec) (attachment_number method size : Z)
    (data : option WriterValue.t) (named_identities : list NamedIdentity) : wres (list Property) :=
  let? reference := match as_content attachment with
                    | AC_Reference reference => reference_properties named_identities reference
                    | _ => Ok []
                    end in
  Ok (attachment_base_properties attachment attachment_number method size ++
      option_list ((fun data => (0x3701, data)) <$> data) ++ reference).

Definition ole_data_property (byte_len : Z) (data_kind : OleDataKind) (value_node : NodeId) (what : string) : wres WriterValue.t :=
  match data_kind with
  | OleObject => let? size := fits (if uint_b 32 byte_len then Some byte_len else None) what in Ok (WriterValue.Object value_node size)
  | OleBinary => Ok (WriterValue.External PT_Binary value_node)
  end.

(** ** Sizes of attachments *)

Definition attachment_value_size (streamed_size : option Z) (value : WriterValue.t) : wres Z :=
  match value with
  | WriterValue.Integer16 _ => Ok 2
  | WriterValue.Integer32 _ | WriterValue.Floating32 _ | WriterValue.ErrorCode _ => Ok 4
  | WriterValue.Integer64 _ | WriterValue.Floating64 _ | WriterValue.Currency _ | WriterValue.FloatingTime _
  | WriterValue.Time _ => Ok 8
  | WriterValue.Boolean _ => Ok 1
  | WriterValue.Guid _ => Ok 16
  | WriterValue.Unicode value => unicode_payload_len value
  | WriterValue.Binary value => Ok (len value)
  | WriterValue.Object _ size => Ok size
  | WriterValue.External PT_Binary _ => ok_or streamed_size (InvalidStructure "streamed attachment size is missing")
  | _ => Err (InvalidStructure "unsupported attachment property type for size calculation")
  end.

(** [try_fold] of sizes that may fail, with [checked_add] of [w] bits. *)
Fixpoint sum_sizes {A} (w : Z) (what : string) (size : A -> wres Z) (l : list A) (total : Z) : wres Z :=
  match l with
  | [] => Ok total
  | a :: l =>
      let? n := size a in
      let? total := fits (checked_add w total n) what in
      sum_sizes w what size l total
  end.

Definition try_i32 (n : Z) (what : string) : wres Z := fits (if n <=? 2 ^ 31 - 1 then Some n else None) what.

Definition attachment_property_size_with_stream (properties : list Property) (streamed_size : option Z) : wres Z :=
  let? size := sum_sizes 64 "attachment properties" (fun p => attachment_value_size streamed_size p.2) properties 0 in
  try_i32 size "attachment properties".

Definition attachment_property_size (properties : list Property) : wres Z := attachment_property_size_with_stream properties None.

(** What the two functions for spooled and direct properties share: the
    sizes of the payloads are added to an [i64]. *)
Definition attachment_size_with_payloads (size : Z) (byte_lens : list Z) : wres Z :=
  let? size := sum_sizes 63 "attachment properties"
    (fun n => fits (if n <=? 2 ^ 63 - 1 then Some n else None) "attachment properties") byte_lens size in
  try_i32 size "attachment properties".

Definition blob_len (p : SpooledPropertySpec) : Z := fbs_byte_len (fb_spec (sps_blob p)).
Definition direct_len (p : DirectPropertySpec) : Z := dbs_byte_len (dps_blob p).

Definition attachment_size_with_spooled_properties (size : Z) (properties : list SpooledPropertySpec) : wres Z :=
  attachment_size_with_payloads size (map blob_len properties).
Definition attachment_size_with_direct_properties (size : Z) (properties : list DirectPropertySpec) : wres Z :=
  attachment_size_with_payloads size (map direct_len properties).

Definition set_attachment_size (properties : list Property) (attachment_size : Z) : wres (list Property) :=
  ok_or (set_value 0x0E20 (WriterValue.Integer32 attachment_size) properties) (InvalidStructure "attachment size property is missing").

(** ** Bounds on the size of a message *)

(** [attachment_metadata_bytes]: the sizes in the order in which they are
    added. *)
Definition attachment_metadata_bytes (attachment : AttachmentSpec) : wres Z :=
  let what := "attachment properties"%string in
  let texts l := sum_sizes 64 what unicode_payload_len (concat (map option_list l)) in
  let? bytes := texts [Some (as_filename attachment); Some (as_filename attachment); as_mime_type attachment;
                       as_content_id attachment; as_content_location attachment] 20 in
  let? bytes :=
    match as_content attachment with
    | AC_Reference reference =>
        let? bytes := texts [Some (ars_long_pathname reference); ars_pathname reference; ars_provider_type reference] bytes in
        let permissions := len (option_list (ars_original_permission reference) ++ option_list (ars_permission reference)) in
        fits (checked_add 64 bytes (permissions * 4)) what
    | _ => Ok bytes
    end in
  let? bytes := sum_sizes 64 what (fun p => Ok (blob_len p)) (as_spooled_properties attachment) bytes in
  let? bytes := sum_sizes 64 what (fun p => Ok (direct_len p)) (as_direct_properties attachment) bytes in
  sum_sizes 64 what (fun p => raw_value_payload_len (rp_value p)) (as_raw_properties attachment) bytes.

(** [attachment_logical_size], by the payload of an embedded message. *)
Definition attachment_logical_size_of (embedded : MessageSpec -> wres Z) (attachment : AttachmentSpec) : wres Z :=
  let? content_bytes :=
    match as_content attachment with
    | AC_Binary data => Ok (len data)
    | AC_Spooled blob => Ok (fbs_byte_len (fb_spec blob))
    | AC_Direct blob => Ok (dbs_byte_len blob)
    | AC_Embedded message => embedded message
    | AC_Reference _ => Ok 0
    | AC_Ole ole => Ok (fbs_byte_len (fb_spec (oas_data ole)))
    | AC_DirectOle ole => Ok (dbs_byte_len (doas_data ole))
    end in
  let? metadata := attachment_metadata_bytes attachment in
  fits (checked_add 64 content_bytes metadata) "attachment properties".

(** [add bytes n], then [add bytes m], either error the same. *)
Definition add_two (what : string) (bytes n m : Z) : wres Z :=
  let? bytes := fits (checked_add 64 bytes n) what in fits (checked_add 64 bytes m) what.

(** What messages and their bounds share: the payloads that are streamed. *)
Definition add_payloads (what : string) (message : MessageSpec) (bytes : Z) : wres Z :=
  let? bytes := sum_sizes 64 what (fun p => Ok (blob_len p)) (ms_spooled_properties message) bytes in
  sum_sizes 64 what (fun p => Ok (direct_len p)) (ms_direct_properties message) bytes.

Fixpoint estimated_message_payload (message : MessageSpec) : wres Z :=
  let? bytes := add_payloads "embedded message size" message (128 * 1024) in
  rfold (fun bytes attachment =>
    let? attachment_bytes := attachment_logical_size_of estimated_message_payload attachment in
    add_two "embedded message size" bytes (64 * 1024) attachment_bytes) (ms_attachments message) bytes.

Definition attachment_logical_size : AttachmentSpec -> wres Z := attachment_logical_size_of estimated_message_payload.

Definition BASE_OVERHEAD : Z := 128 * 1024.
Definition RECIPIENT_OVERHEAD : Z := 16 * 1024.
Definition ATTACHMENT_OVERHEAD : Z := 64 * 1024.

Fixpoint validate_message_size_bound (message : MessageSpec) : wres unit :=
  let? recipients := fits (checked_mul 64 (len (ms_recipients message)) RECIPIENT_OVERHEAD) "message size" in
  let? bytes := fits (checked_add 64 BASE_OVERHEAD recipients) "message size" in
  let? bytes := add_payloads "message size" message bytes in
  let? bytes := rfold (fun bytes attachment =>
    let? bytes := fits (checked_add 64 bytes ATTACHMENT_OVERHEAD) "message size" in
    let? _ := match as_content attachment with
              | AC_Embedded embedded => validate_message_size_bound embedded
              | _ => Ok tt
              end in
    let? attachment_bytes := attachment_logical_size attachment in
    if 2 ^ 31 - 1 <? attachment_bytes then Err (ValueTooLarge "attachment properties") else
    fits (checked_add 64 bytes attachment_bytes) "message size") (ms_attachments message) bytes in
  if 2 ^ 31 - 1 <? bytes then Err (ValueTooLarge "message size") else Ok tt.
