(* ===== verification/WriterValidate.v ===== *)
(** * Validation of the writer's messages

    [writer.rs]: what [validate_message] and [validate_aggregate_properties]
    require of a message, its attachments and the messages embedded in them,
    in the order of the checks. The arguments of formatted error messages are
    left out. Shown: the properties of a message that passes, and those of its
    attachments, have distinct ids and are fit for a property context, and
    the two counts of the properties of a message agree. *)
From S2P Require Import Prelude Errors Io Crc Ids PropValue PropContext TableContext Order Alloc WriterBlocks WriterTree WriterHeap WriterValues WriterContext WriterSchema WriterTable MessageSpec WriterMessage WriterNamed.
#[local] Open Scope Z_scope.

Definition MAX_FIDELITY_COLLECTION_ITEMS : Z := MAX_FIDELITY_PROPERTY_BYTES / 8.
Definition MAX_IN_MEMORY_CUSTOM_PROPERTY_BYTES : Z := 128 * 1024 * 1024.
Definition MAX_DISTRIBUTION_LIST_PROPERTY_BYTES : Z := 15000.
Definition MAX_EMBEDDED_MESSAGE_DEPTH : Z := 256.
Definition PSETID_ADDRESS : list Z :=
  [0x04; 0x20; 0x06; 0x00; 0x00; 0x00; 0x00; 0x00; 0xC0; 0x00; 0x00; 0x00; 0x00; 0x00; 0x00; 0x46].

(** [if condition { return Err(..) }] *)
Definition reject_if (condition : bool) (e : WriterError) : wres unit := if condition then Err e else Ok tt.
Definition refuse_if (condition : bool) (what : string) : wres unit := reject_if condition (InvalidStructure what).
Definition too_large_if (condition : bool) (what : string) : wres unit := reject_if condition (ValueTooLarge what).

(** [for x in xs { check(x)?; }] *)
Definition for_each {A} (check : A -> wres unit) (l : list A) : wres unit := rfold (fun _ a => check a) l tt.
Definition if_some {A} (check : A -> wres unit) (o : option A) : wres unit :=
  match o with Some a => check a | None => Ok tt end.

(** [windows(2).any(|pair| pair[0] == pair[1])] *)
Fixpoint adjacent_equal {A} `{EqDecision A} (l : list A) : bool :=
  match l with
  | a :: (b :: _) as l' => bool_decide (a = b) || adjacent_equal l'
  | _ => false
  end.

(** ** The classes of messages *)

Definition to_ascii_lowercase (c : Z) : Z := if (65 <=? c) && (c <=? 90) then c + 32 else c.
Definition eq_ignore_ascii_case (a b : list Z) : bool := bool_decide (map to_ascii_lowercase a = map to_ascii_lowercase b).

Definition supported_message_class (value : list Z) : bool := negb (is_empty value).

(** The root is a literal of ASCII characters, so the bytes that are compared
    with it are as many characters. *)
Definition class_descends_from (value root : list Z) : bool :=
  (length root <=? length value)%nat && eq_ignore_ascii_case (take (length root) value) root &&
  bool_decide (value !! length root = Some 46) && (length root + 1 <? length value)%nat.

Definition class_is_or_descends_from (value root : list Z) : bool :=
  eq_ignore_ascii_case value root || class_descends_from value root.

Definition appointment_message_class (value : list Z) : bool := class_is_or_descends_from value (chars "IPM.Appointment").
Definition calendar_exception_message_class (value : list Z) : bool :=
  eq_ignore_ascii_case value (chars "IPM.OLE.CLASS.{00061055-0000-0000-C000-000000000046}").

(** ** Which properties the writer makes *)

Definition explicit_message_properties : list Z :=
  [0x001A; 0x0037; 0x0039; 0x0042; 0x0064; 0x0065; 0x007D; 0x0C1A; 0x0C1E; 0x0C1F; 0x0E02; 0x0E03; 0x0E04; 0x0E06;
   0x0E07; 0x0E08; 0x0E17; 0x0E1B; 0x0E1F; 0x1000; 0x1009; 0x1013; 0x1016; 0x3007; 0x3008; 0x300B; 0x3FDE].
Definition explicit_message_property (id : Z) : bool := existsb (Z.eqb id) explicit_message_properties.

Definition explicit_attachment_property (id : Z) : bool :=
  existsb (Z.eqb id) [0x0E20; 0x0E21; 0x3701; 0x3704; 0x3705; 0x3707; 0x370B; 0x370E; 0x3712; 0x3713; 0x3714].

Definition calendar_exception_attachment_property (id : Z) : bool :=
  existsb (Z.eqb id) [0x3001; 0x3702; 0x3709] || (0x7FFA <=? id) && (id <=? 0x7FFF).

Definition calendar_exception_attachment_property_type_is_valid (id : Z) (value : RawPropertyValue.t) : bool :=
  match value with
  | RawPropertyValue.Unicode _ => id =? 0x3001
  | RawPropertyValue.Binary _ => (id =? 0x3702) || (id =? 0x3709)
  | RawPropertyValue.Integer32 _ => (id =? 0x7FFA) || (id =? 0x7FFD)
  | RawPropertyValue.Time _ => (id =? 0x7FFB) || (id =? 0x7FFC)
  | RawPropertyValue.Boolean _ => (id =? 0x7FFE) || (id =? 0x7FFF)
  | _ => false
  end.

Definition ole_attachment_property (id : Z) : bool := existsb (Z.eqb id) [0x3702; 0x3709; 0x370A].
Definition ole_attachment_property_type_is_valid (id : Z) (value : RawPropertyValue.t) : bool :=
  ole_attachment_property id && match value with RawPropertyValue.Binary _ => true | _ => false end.

Definition calendar_exception_attachment_has_linkage (attachment : AttachmentSpec) : bool :=
  forallb (fun id => existsb (fun p => rp_id p =? id) (as_raw_properties attachment))
    [0x7FFA; 0x7FFB; 0x7FFC; 0x7FFD; 0x7FFE].

(** ** Payloads *)

Definition validate_file_blob (blob : FileBlob) : wres unit :=
  let? _ := refuse_if (is_empty (fb_path blob) || (fbs_byte_len (fb_spec blob) =? 0)) "streamed property blob must be non-empty" in
  too_large_if (2 ^ 31 - 1 <? fbs_byte_len (fb_spec blob)) "streamed property blob".

Definition validate_direct_blob (blob : DirectBlobSpec) : wres unit :=
  let? _ := refuse_if (dbs_byte_len blob =? 0) "direct payload must be non-empty" in
  too_large_if (2 ^ 31 - 1 <? dbs_byte_len blob) "direct payload".

(** ** Streamed properties *)

Definition kept_in_record (t : PropertyType) : bool :=
  match t with
  | PT_Null | PT_Integer16 | PT_Integer32 | PT_Floating32 | PT_ErrorCode | PT_Boolean | PT_Object => true
  | _ => false
  end.

Definition is_text (t : PropertyType) : bool := match t with PT_String8 | PT_Unicode => true | _ => false end.

(** The writer's properties that may be streamed, when the message has no
    value of its own for them. *)
Definition allowed_managed (message : MessageSpec) (id : Z) (t : PropertyType) : bool :=
  match id with
  | 0x007D => bool_decide (ms_internet_headers message = None) && is_text t
  | 0x1000 => bool_decide (ms_body_text message = None) && is_text t
  | 0x1009 => bool_decide (ms_body_rtf message = None) && bool_decide (t = PT_Binary)
  | 0x1013 => bool_decide (ms_body_html message = None) && bool_decide (t = PT_Binary)
  | _ => false
  end.

(** What the loops over spooled and direct properties share; [kind] is the
    word in their error messages, [streamed_ids] the ids seen so far. *)
Definition validate_streamed (message : MessageSpec) (kind : string) (streamed_ids : list Z) (id property_type : Z)
    (validate_blob : wres unit) : wres (list Z) :=
  let message_of rest := String.append kind rest in
  let? t := rmap_err (fun _ => InvalidStructure (String.append "unsupported " (message_of " property type")))
              (PropertyType.try_from property_type) in
  let? _ := refuse_if (kept_in_record t) (message_of " property type must use external storage") in
  let? _ := refuse_if ((0x8000 <=? id) || existsb (Z.eqb id) streamed_ids ||
                       existsb (fun raw => rp_id raw =? id) (ms_raw_properties message))
              (message_of " property identifier is duplicated or reserved") in
  let? _ := refuse_if (explicit_message_property id && negb (allowed_managed message id t))
              (message_of " property collides with a writer-managed property") in
  let? _ := validate_blob in
  Ok (streamed_ids ++ [id]).

Definition validate_streamed_properties (message : MessageSpec) : wres unit :=
  let? streamed_ids := rfold (fun ids p =>
    validate_streamed message "streamed" ids (sps_id p) (sps_property_type p) (validate_file_blob (sps_blob p)))
    (ms_spooled_properties message) [] in
  let? _ := rfold (fun ids p =>
    validate_streamed message "direct" ids (dps_id p) (dps_property_type p) (validate_direct_blob (dps_blob p)))
    (ms_direct_properties message) streamed_ids in
  Ok tt.

(** ** The shape of a context *)

Definition validate_property_context_shape (name : string) (property_count : Z) (variable_lengths : list Z) : wres unit :=
  let? _ := too_large_if (2 ^ 16 <? property_count) "property count" in
  for_each (validate_pst_property_len name) variable_lengths.

Definition kinds : list RecipientKind := [To; Cc; Bcc].

(** The size of the names of recipients with their separators, each name
    after its separator. *)
Definition display_bytes (recipients : list RecipientSpec) : wres Z :=
  let? r := rfold (fun '(total, separator) recipient =>
    let? display_size := unicode_payload_len (rs_display_name recipient) in
    let? total := add_two "display recipient property" total separator display_size in
    Ok (total, 4)) recipients (0, 0) in
  Ok r.1.

(** The lengths of the values of a message outside of their records, and the
    number of its properties. *)
Definition message_context_lengths (message : MessageSpec) : wres (list Z) :=
  let optional {A} (size : A -> wres Z) (o : option A) := rmapM size (option_list o) in
  let? class := unicode_payload_len (ms_message_class message) in
  let? subject := optional unicode_payload_len (if negb (is_empty (ms_subject message)) then Some (ms_subject message) else None) in
  let? sender := (if has_sender message then
    let? name := unicode_payload_len (ms_sender_name message) in
    let? email := unicode_payload_len (ms_sender_email message) in
    Ok [name; 8; email; name; 8; email] else Ok []) in
  let? text := optional unicode_payload_len (ms_body_text message) in
  let? html := optional (fun body => Ok (len body)) (ms_body_html message) in
  let? rtf := optional (fun body => rtf_container_len (len body)) (ms_body_rtf message) in
  let? headers := optional unicode_payload_len (ms_internet_headers message) in
  let? display := rmapM display_bytes
    (List.filter (fun rs => negb (is_empty rs)) (map (fun kind => recipients_of kind (ms_recipients message)) kinds)) in
  let? custom := rmapM raw_value_payload_len
    (map nmp_value (ms_named_properties message) ++ map rp_value (ms_raw_properties message)) in
  Ok ([class; 16; 8; 8; 8; 8] ++ subject ++ sender ++ text ++ html ++ rtf ++ headers ++ display ++ custom).

Definition count_if (b : bool) (n : Z) : Z := if b then n else 0.

Definition message_property_count (message : MessageSpec) : Z :=
  (if has_sender message then 17 else 11) +
  count_if (negb (is_empty (ms_subject message))) 1 +
  len (option_list (ms_body_text message)) + len (option_list (ms_body_html message)) +
  match ms_body_rtf message with
  | Some _ => 2
  | None => count_if (message_has_streamed_property message 0x1009) 1
  end +
  len (option_list (ms_native_body message)) + len (option_list (ms_internet_headers message)) +
  len (List.filter (fun rs => negb (is_empty rs)) (map (fun kind => recipients_of kind (ms_recipients message)) kinds)) +
  len (ms_named_properties message) + len (ms_raw_properties message) +
  len (ms_spooled_properties message) + len (ms_direct_properties message).

Definition validate_message_property_context_shape (message : MessageSpec) : wres unit :=
  let? lengths := message_context_lengths message in
  validate_property_context_shape "message property context" (message_property_count message) lengths.

(** ** Bodies *)

Definition in_range (lo hi b : Z) : bool := (lo <=? b) && (b <=? hi).
Definition continuation (b : Z) : bool := in_range 0x80 0xBF b.

(** [std::str::from_utf8(body).is_ok()]: the shortest encodings of scalar
    values. *)
Fixpoint is_utf8 (body : list Z) : bool :=
  match body with
  | [] => true
  | b0 :: rest =>
      if in_range 0 0x7F b0 then is_utf8 rest
      else match rest with
      | [] => false
      | b1 :: rest =>
          if in_range 0xC2 0xDF b0 then continuation b1 && is_utf8 rest
          else match rest with
          | [] => false
          | b2 :: rest =>
              if in_range 0xE0 0xEF b0 then
                in_range (if b0 =? 0xE0 then 0xA0 else 0x80) (if b0 =? 0xED then 0x9F else 0xBF) b1 &&
                continuation b2 && is_utf8 rest
              else match rest with
              | [] => false
              | b3 :: rest =>
                  in_range 0xF0 0xF4 b0 &&
                  in_range (if b0 =? 0xF0 then 0x90 else 0x80) (if b0 =? 0xF4 then 0x8F else 0xBF) b1 &&
                  continuation b2 && continuation b3 && is_utf8 rest
              end
          end
      end
  end.

Definition validate_fields (message : MessageSpec) (depth : Z) : wres unit :=
  let? _ := refuse_if (negb (supported_message_class (ms_message_class message))) "unsupported message class" in
  let? _ := refuse_if ((depth =? 0) && calendar_exception_message_class (ms_message_class message))
              "calendar-exception messages must be embedded" in
  let? _ := refuse_if (ms_internet_codepage message <=? 0) "Internet codepage must be positive" in
  let? _ := refuse_if (is_empty (ms_message_class message)) "message class must be non-empty" in
  let? _ := validate_unicode "message class" (ms_message_class message) in
  let? _ := validate_unicode "subject" (ms_subject message) in
  let? _ := refuse_if (xorb (is_empty (ms_sender_name message)) (is_empty (ms_sender_email message)))
              "sender name and email must both be present or both be absent" in
  let? _ := validate_unicode "sender name" (ms_sender_name message) in
  let? _ := validate_unicode "sender email" (ms_sender_email message) in
  for_each (fun recipient =>
    let? _ := refuse_if (is_empty (rs_display_name recipient) || is_empty (rs_email_address recipient))
                "recipient display name and email address must be non-empty" in
    let? _ := validate_unicode "recipient display name" (rs_display_name recipient) in
    validate_unicode "recipient email address" (rs_email_address recipient)) (ms_recipients message).

Definition validate_bodies (message : MessageSpec) : wres unit :=
  let absent {A} (body : option A) (id : Z) :=
    match body with None => negb (message_has_streamed_property message id) | Some _ => false end in
  let? _ := refuse_if (absent (ms_body_rtf message) 0x1009 && ms_rtf_in_sync message)
              "RTF cannot be marked synchronized when no RTF body is present" in
  let? _ := match ms_native_body message with
            | Some PlainText => refuse_if (absent (ms_body_text message) 0x1000) "native plain-text body is not present"
            | Some Rtf => refuse_if (absent (ms_body_rtf message) 0x1009) "native RTF body is not present"
            | Some Html => refuse_if (absent (ms_body_html message) 0x1013) "native HTML body is not present"
            | None => Ok tt
            end in
  let? _ := if_some (fun body =>
    let? length := unicode_payload_len body in validate_payload_len "plain-text body" length) (ms_body_text message) in
  let? _ := if_some (fun body =>
    let? _ := refuse_if (is_empty body) "HTML body must be non-empty when present" in
    let? _ := refuse_if (negb (is_utf8 body)) "HTML body must be valid UTF-8" in
    validate_payload_len "HTML body" (len body)) (ms_body_html message) in
  let? _ := if_some (fun body =>
    let? length := rtf_container_len (len body) in validate_payload_len "RTF body" length) (ms_body_rtf message) in
  if_some (fun headers =>
    let? _ := refuse_if (is_empty headers) "Internet headers must be non-empty when present" in
    let? length := unicode_payload_len headers in validate_payload_len "Internet headers" length)
    (ms_internet_headers message).

(** ** Attachments *)

Definition optional_unicode (empty name : string) : option (list Z) -> wres unit :=
  if_some (fun s => let? _ := refuse_if (is_empty s) empty in validate_unicode name s).

Definition binary_metadata_attachment (attachment : AttachmentSpec) : bool :=
  match as_content attachment with
  | AC_Binary _ | AC_Spooled _ | AC_Direct _ | AC_Ole _ | AC_DirectOle _ => true
  | AC_Embedded _ | AC_Reference _ => false
  end.

Definition embedded_calendar_exception (attachment : AttachmentSpec) : bool :=
  match as_content attachment with
  | AC_Embedded child => calendar_exception_message_class (ms_message_class child)
  | _ => false
  end.

Definition attachment_ids (attachment : AttachmentSpec) : list Z :=
  map rp_id (as_raw_properties attachment) ++ map sps_id (as_spooled_properties attachment) ++
  map dps_id (as_direct_properties attachment).

Definition validate_attachment_header (message : MessageSpec) (attachment : AttachmentSpec) : wres unit :=
  let? _ := refuse_if (is_empty (as_filename attachment)) "attachment filename must be non-empty" in
  let? _ := validate_unicode "attachment filename" (as_filename attachment) in
  let? _ := optional_unicode "attachment MIME type must be non-empty when present" "attachment MIME type" (as_mime_type attachment) in
  let? _ := optional_unicode "attachment content ID must be non-empty when present" "attachment content ID" (as_content_id attachment) in
  let? _ := optional_unicode "attachment content location must be non-empty when present" "attachment content location"
              (as_content_location attachment) in
  let? _ := refuse_if (embedded_calendar_exception attachment &&
                       (negb (appointment_message_class (ms_message_class message)) ||
                        negb (calendar_exception_attachment_has_linkage attachment)))
              "calendar-exception messages require an appointment parent and linkage properties" in
  let? _ := refuse_if (negb (is_empty (as_raw_properties attachment)) && negb (binary_metadata_attachment attachment) &&
                       (negb (appointment_message_class (ms_message_class message)) ||
                        negb (embedded_calendar_exception attachment)))
              "attachment raw properties require an OLE object or embedded calendar exception" in
  let? _ := too_large_if (MAX_FIDELITY_COLLECTION_ITEMS <? len (as_raw_properties attachment)) "attachment raw-property count" in
  let? _ := too_large_if (MAX_FIDELITY_COLLECTION_ITEMS <? len (as_spooled_properties attachment)) "attachment spooled-property count" in
  let? _ := too_large_if (MAX_FIDELITY_COLLECTION_ITEMS <? len (as_direct_properties attachment)) "attachment direct-property count" in
  refuse_if (adjacent_equal (sort_by Z.compare (attachment_ids attachment))) "duplicate attachment raw property identifier".

(** One raw property: its id, its type for the kind of the attachment, and
    its size. *)
Definition validate_attachment_raw (attachment : AttachmentSpec) (p : RawProperty) : wres Z :=
  let unsupported := "attachment raw property is not supported for its attachment kind"%string in
  let id := rp_id p in
  let? _ := refuse_if ((id =? 0) || (0x8000 <=? id) || explicit_attachment_property id) unsupported in
  let? _ :=
    if binary_metadata_attachment attachment then
      refuse_if (negb (ole_attachment_property id) || negb (ole_attachment_property_type_is_valid id (rp_value p))) unsupported
    else
      let? _ := refuse_if (negb (calendar_exception_attachment_property id)) "not a supported calendar-exception property" in
      refuse_if (negb (calendar_exception_attachment_property_type_is_valid id (rp_value p))) "wrong calendar-exception type" in
  let? _ := validate_raw_value (rp_value p) in
  raw_value_payload_len (rp_value p).

Definition validate_attachment_streamed (attachment : AttachmentSpec) (what : string) (id property_type : Z)
    (validate_blob : wres unit) : wres unit :=
  let? _ := refuse_if (negb (binary_metadata_attachment attachment) || negb (ole_attachment_property id) ||
                       negb (property_type =? PropertyType.into_u16 PT_Binary)) what in
  validate_blob.

Definition validate_attachment_properties (attachment : AttachmentSpec) : wres unit :=
  let? raw_bytes := sum_sizes 64 "aggregate attachment raw-property payload" (validate_attachment_raw attachment)
                      (as_raw_properties attachment) 0 in
  let? _ := for_each (fun p =>
    validate_attachment_streamed attachment "spooled attachment property is not supported for its attachment kind"
      (sps_id p) (sps_property_type p) (validate_file_blob (sps_blob p))) (as_spooled_properties attachment) in
  let? _ := for_each (fun p =>
    validate_attachment_streamed attachment "direct attachment property is not supported for its attachment kind"
      (dps_id p) (dps_property_type p) (validate_direct_blob (dps_blob p))) (as_direct_properties attachment) in
  too_large_if (MAX_IN_MEMORY_CUSTOM_PROPERTY_BYTES <? raw_bytes) "aggregate attachment raw-property payload".

Definition validate_reference (reference : AttachmentReferenceSpec) : wres unit :=
  let? _ := refuse_if (is_empty (ars_long_pathname reference)) "reference attachment long pathname must be non-empty" in
  let? _ := validate_unicode "reference attachment long pathname" (ars_long_pathname reference) in
  let? _ := optional_unicode "reference attachment pathname must be non-empty when present" "reference attachment pathname"
              (ars_pathname reference) in
  let? _ := optional_unicode "reference attachment provider must be non-empty when present" "reference attachment provider"
              (ars_provider_type reference) in
  let permissions := option_list (ars_original_permission reference) ++ option_list (ars_permission reference) in
  let? _ := refuse_if (bool_decide (ars_method reference <> ByWebReference) &&
                       (bool_decide (ars_provider_type reference <> None) || negb (is_empty permissions)))
              "attachment provider and permission properties require a web reference" in
  refuse_if (existsb (fun value => negb (in_range 0 2 value)) permissions)
    "reference attachment permission must be in the documented 0..=2 range".

Section hash.
Context (sha256 : list Z -> list Z).

(** The content of an attachment, but for an embedded message. *)
Definition validate_content (attachment : AttachmentSpec) : wres unit :=
  match as_content attachment with
  | AC_Binary data => validate_payload_len "attachment payload" (len data)
  | AC_Spooled blob =>
      let? _ := refuse_if (is_empty (fb_path blob) || (fbs_byte_len (fb_spec blob) =? 0)) "spooled attachment payload must be non-empty" in
      too_large_if (2 ^ 31 - 1 <? fbs_byte_len (fb_spec blob)) "spooled attachment payload"
  | AC_Direct blob => validate_direct_blob blob
  | AC_Ole ole =>
      let? _ := refuse_if (is_empty (fb_path (oas_data ole))) "OLE attachment payload path must be non-empty" in
      let? _ := too_large_if (2 ^ 31 - 1 <? fbs_byte_len (fb_spec (oas_data ole))) "OLE attachment payload" in
      refuse_if (bool_decide (oas_data_kind ole = OleObject) && (fbs_byte_len (fb_spec (oas_data ole)) =? 0))
        "OLE object payload must be non-empty"
  | AC_DirectOle ole =>
      if dbs_byte_len (doas_data ole) =? 0 then
        let? _ := refuse_if (bool_decide (doas_data_kind ole = OleObject)) "direct OLE object payload must be non-empty" in
        refuse_if (match dbs_sha256 (doas_data ole) with
                   | Some expected => negb (bool_decide (expected = sha256 []))
                   | None => false
                   end) "empty direct OLE payload hash mismatch"
      else validate_direct_blob (doas_data ole)
  | AC_Reference reference => validate_reference reference
  | AC_Embedded _ => Ok tt
  end.

(** ** Properties of a message *)

Definition custom_values (message : MessageSpec) : list RawPropertyValue.t :=
  map nmp_value (ms_named_properties message) ++ map rp_value (ms_raw_properties message).

Definition validate_custom_properties (message : MessageSpec) : wres unit :=
  let? _ := too_large_if (MAX_FIDELITY_COLLECTION_ITEMS <? len (ms_named_properties message)) "named-property count" in
  let? _ := refuse_if (adjacent_equal (sort_by identity_cmp (map named_identity (ms_named_properties message))))
              "duplicate named-property identity" in
  let? _ := for_each (fun p =>
    let? _ := match nmp_name p with
              | NamedPropertyName.String name => validate_unicode "named-property name" name
              | NamedPropertyName.Numeric _ => Ok tt
              end in
    validate_raw_value (nmp_value p)) (ms_named_properties message) in
  let? _ := too_large_if (MAX_FIDELITY_COLLECTION_ITEMS <? len (ms_raw_properties message)) "raw-property count" in
  let? custom_property_bytes := sum_sizes 64 "aggregate custom-property payload" raw_value_payload_len (custom_values message) 0 in
  let? _ := too_large_if (MAX_IN_MEMORY_CUSTOM_PROPERTY_BYTES <? custom_property_bytes) "aggregate custom-property payload" in
  let? _ := refuse_if (adjacent_equal (sort_by Z.compare (map rp_id (ms_raw_properties message)))) "duplicate raw property identifier" in
  for_each (fun p =>
    let? _ := refuse_if ((rp_id p =? 0) || (0x8000 <=? rp_id p) || explicit_message_property (rp_id p))
                "raw property conflicts with writer-managed properties" in
    validate_raw_value (rp_value p)) (ms_raw_properties message).

(** [find] of the property of the address book with a number. *)
Definition address_property (message : MessageSpec) (lid : Z) : option RawPropertyValue.t :=
  nmp_value <$> List.find (fun p => bool_decide (nmp_set p = NamedPropertySet.Guid PSETID_ADDRESS) &&
                                    bool_decide (nmp_name p = NamedPropertyName.Numeric lid)) (ms_named_properties message).

Definition validate_distribution_list_properties (message : MessageSpec) : wres unit :=
  if negb (class_is_or_descends_from (ms_message_class message) (chars "IPM.DistList")) then Ok tt else
  let members := address_property message 0x8055 in
  let one_off_members := address_property message 0x8054 in
  let checksum := address_property message 0x804C in
  let? _ := refuse_if (bool_decide (one_off_members <> None) && bool_decide (members = None))
              "distribution-list one-off members require primary members" in
  let? member_count := match members with
    | Some (RawPropertyValue.MultipleBinary values) =>
        let? size := multiple_binary_payload_len values in
        let? _ := too_large_if (MAX_DISTRIBUTION_LIST_PROPERTY_BYTES <=? size) "distribution-list members property" in
        Ok (Some (len values))
    | Some _ => Err (InvalidStructure "distribution-list members have the wrong property type")
    | None => Ok None
    end in
  let? _ := match one_off_members with
    | Some (RawPropertyValue.MultipleBinary values) =>
        let? size := multiple_binary_payload_len values in
        let? _ := too_large_if (MAX_DISTRIBUTION_LIST_PROPERTY_BYTES <=? size) "distribution-list one-off members property" in
        refuse_if (bool_decide (member_count <> Some (len values))) "distribution-list member arrays are not synchronized"
    | Some _ => Err (InvalidStructure "distribution-list one-off members have the wrong property type")
    | None => Ok tt
    end in
  if_some (fun value =>
    refuse_if (bool_decide (members = None) || match value with RawPropertyValue.Integer32 _ => false | _ => true end)
      "distribution-list checksum is inconsistent with the members property") checksum.

Definition validate_contents_raw_property_types (message : MessageSpec) : wres unit :=
  let? columns := contents_columns in
  for_each (fun raw =>
    if is_reserved (rp_id raw) then Ok tt else
    match List.find (fun column => tcd_prop_id column =? rp_id raw) columns with
    | None => Ok tt
    | Some column =>
        refuse_if (bool_decide (WriterValue.property_type (raw_property_value (rp_value raw)) <> tcd_prop_type column))
          "raw property has another type than the contents table"
    end) (ms_raw_properties message).

Fixpoint validate_message (message : MessageSpec) (depth : Z) : wres unit :=
  let? _ := validate_fields message depth in
  let? _ := validate_bodies message in
  let? _ := validate_streamed_properties message in
  let? _ := rfold (fun _ attachment =>
    let? _ := validate_attachment_header message attachment in
    let? _ := validate_attachment_properties attachment in
    let? _ := validate_content attachment in
    match as_content attachment with
    | AC_Embedded child =>
        let? child_depth := fits (checked_add 64 depth 1) "embedded message depth" in
        let? _ := too_large_if (MAX_EMBEDDED_MESSAGE_DEPTH <? child_depth) "embedded message depth" in
        validate_message child child_depth
    | _ => Ok tt
    end) (ms_attachments message) tt in
  let? _ := validate_custom_properties message in
  let? _ := validate_distribution_list_properties message in
  let? _ := if depth =? 0 then validate_contents_raw_property_types message else Ok tt in
  validate_message_property_context_shape message.
End hash.

(** ** All messages of a run together *)

(** What [visit] accumulates. *)
Record Aggregate := mk_Aggregate {
  ag_identities : list NamedIdentity;
  ag_named_occurrences : Z;
  ag_unsupported_occurrences : Z;
  ag_materialized_bytes : Z
}.

Definition add_in_memory_custom_property_bytes (total addition maximum : Z) : wres Z :=
  let? total := fits (checked_add 64 total addition) "aggregate custom-property payload" in
  let? _ := too_large_if (maximum <? total) "aggregate custom-property payload" in
  Ok total.

(** The count and the bound on it. *)
Definition add_occurrences (what : string) (total addition : Z) : wres Z :=
  let? total := fits (checked_add 64 total addition) what in
  let? _ := too_large_if (MAX_FIDELITY_COLLECTION_ITEMS <? total) what in
  Ok total.

Definition validate_recipients (message : MessageSpec) : wres unit :=
  let? _ := too_large_if (MAX_FIDELITY_COLLECTION_ITEMS <? len (ms_recipients message)) "recipient count" in
  let? recipient_bytes := rfold (fun total recipient =>
    let? email_size := unicode_payload_len (rs_email_address recipient) in
    let? display_size := unicode_payload_len (rs_display_name recipient) in
    add_two "aggregate recipient metadata" total display_size email_size) (ms_recipients message) 0 in
  let? _ := validate_pst_property_len "aggregate recipient metadata" recipient_bytes in
  for_each (fun kind =>
    let? bytes := display_bytes (recipients_of kind (ms_recipients message)) in
    validate_pst_property_len "display recipient property" bytes) kinds.

Definition recipient_rows (recipients : list RecipientSpec) : wres (list TableRowSpec) :=
  rmapM (fun '(index, recipient) => recipient_table_row (Z.of_nat index) recipient) (imap pair recipients).

Definition validate_recipient_table_shape (message : MessageSpec) : wres unit :=
  let? rows := recipient_rows (ms_recipients message) in
  let? columns := recipient_columns in
  match table_context columns rows with
  | Ok _ => Ok tt
  | Err e =>
      if is_heap_page_too_large e then let? _ := (table_context_external columns rows 0x100000).1 in Ok tt else Err e
  | Panic => Panic
  end.

(** [0x2_0000_u32.checked_add(index)] of the [index]th attachment. *)
Definition attachment_node (index : nat) : wres NodeId :=
  let? index := fits (if uint_b 32 (Z.of_nat index) then Some (Z.of_nat index) else None) "attachment count" in
  let? index := fits (checked_add 32 0x20000 index) "attachment node" in
  node Attachment index.

(** The page of a table without the file names, and then the names. *)
Definition validate_attachment_table_shape (message : MessageSpec) : wres unit :=
  let? rows := rmapM (fun '(index, _) =>
    let? id := attachment_node index in Ok (mk_TableRowSpec id [])) (imap pair (ms_attachments message)) in
  let? columns := attachment_columns in
  let? table := table_context columns rows in
  let? variable_bytes := rfold (fun total attachment =>
    let? size := unicode_payload_len (as_filename attachment) in
    fits (checked_add 64 total size) "attachment table heap page") (ms_attachments message) 0 in
  let? total := add_two "attachment table heap page" (size_z table) variable_bytes (len (ms_attachments message) * 2) in
  too_large_if (MAX_DATA_BLOCK_PAYLOAD <? total) "attachment table heap page".

Definition attachment_context_lengths (attachment : AttachmentSpec) : wres (list Z) :=
  let texts l := rmapM unicode_payload_len (concat (map option_list l)) in
  let? filename := unicode_payload_len (as_filename attachment) in
  let? reference := match as_content attachment with
    | AC_Reference reference => texts [Some (ars_long_pathname reference); ars_pathname reference; ars_provider_type reference]
    | _ => Ok []
    end in
  let? metadata := texts [as_mime_type attachment; as_content_id attachment; as_content_location attachment] in
  let? raw := rmapM (fun p => raw_value_payload_len (rp_value p)) (as_raw_properties attachment) in
  let content := match as_content attachment with
    | AC_Binary data => if len data <=? 2048 then [len data] else []
    | AC_Embedded _ => [8]
    | _ => []
    end in
  Ok ([filename; filename] ++ reference ++ metadata ++ raw ++ content).

(** The count cannot overflow. *)
Definition attachment_property_count (attachment : AttachmentSpec) : Z :=
  8 +
  match as_content attachment with
  | AC_Reference reference =>
      len (option_list (ars_pathname reference)) + len (option_list (ars_provider_type reference)) +
      len (option_list (ars_original_permission reference)) + len (option_list (ars_permission reference))
  | _ => 0
  end +
  len (concat (map option_list [as_mime_type attachment; as_content_id attachment; as_content_location attachment])) +
  len (as_raw_properties attachment) + len (as_spooled_properties attachment) + len (as_direct_properties attachment).

Definition validate_attachment_property_context_shape (attachment : AttachmentSpec) : wres unit :=
  let? lengths := attachment_context_lengths attachment in
  validate_property_context_shape "attachment property context" (attachment_property_count attachment) lengths.

(** What [visit] does before it comes to the references and the embedded
    messages. *)
Definition visit_message (maximum : Z) (message : MessageSpec) (s : Aggregate) : wres Aggregate :=
  let? bytes := sum_sizes 64 "aggregate custom-property payload" raw_value_payload_len (custom_values message) 0 in
  let? total := add_in_memory_custom_property_bytes (ag_materialized_bytes s) bytes maximum in
  let? total := rfold (fun total attachment =>
    let? bytes := sum_sizes 64 "aggregate custom-property payload" (fun p => raw_value_payload_len (rp_value p))
                    (as_raw_properties attachment) 0 in
    add_in_memory_custom_property_bytes total bytes maximum) (ms_attachments message) total in
  let? _ := validate_recipients message in
  let? _ := validate_recipient_table_shape message in
  let? named := add_occurrences "named-property count" (ag_named_occurrences s) (len (ms_named_properties message)) in
  let identities := ag_identities s ++ map named_identity (ms_named_properties message) in
  let? _ := too_large_if (MAX_FIDELITY_COLLECTION_ITEMS <? len (ms_attachments message)) "attachment count" in
  let? _ := validate_attachment_table_shape message in
  let? _ := for_each validate_attachment_property_context_shape (ms_attachments message) in
  let? unsupported := add_occurrences "unsupported-property count" (ag_unsupported_occurrences s) (len (ms_unsupported_properties message)) in
  Ok (mk_Aggregate identities named unsupported total).

Fixpoint visit (maximum : Z) (message : MessageSpec) (s : Aggregate) : wres Aggregate :=
  let? s := visit_message maximum message s in
  rfold (fun s attachment =>
    match as_content attachment with
    | AC_Reference reference =>
        let names := reference_named_property_names reference in
        let? named := add_occurrences "named-property count" (ag_named_occurrences s) (len names) in
        Ok (mk_Aggregate (ag_identities s ++ map (fun name => (NamedPropertySet.Guid PSETID_ATTACHMENT, name)) names)
              named (ag_unsupported_occurrences s) (ag_materialized_bytes s))
    | AC_Embedded child => visit maximum child s
    | _ => Ok s
    end) (ms_attachments message) s.

(** A string of the map with its length and padding. *)
Definition string_entry_size (name : NamedPropertyName.t) : wres Z :=
  match name with
  | NamedPropertyName.Numeric _ => Ok 0
  | NamedPropertyName.String name =>
      let? size := unicode_payload_len name in
      let? entry := fits (checked_add 64 size 4) "named-property string stream" in
      fits ((fun size => size / 4 * 4) <$> checked_add 64 entry 3) "named-property string stream"
  end.

Definition validate_aggregate_properties_with_limit (message : MessageSpec) (maximum_materialized_bytes : Z) : wres unit :=
  let? s := visit maximum_materialized_bytes message (mk_Aggregate [] 0 0 0) in
  let identities := btree_set identity_cmp (ag_identities s) in
  let? entries := fits (checked_mul 64 (len identities) 8) "named-property entry stream" in
  let? _ := validate_payload_len "named-property entry stream" entries in
  let? string_bytes := sum_sizes 64 "named-property string stream" (fun identity => string_entry_size identity.2) identities 0 in
  let? _ := validate_payload_len "named-property string stream" string_bytes in
  let? guids := fits (checked_mul 64 (len (custom_guids identities)) 16) "named-property GUID stream" in
  let? _ := validate_payload_len "named-property GUID stream" guids in
  let? _ := (build_named_property_context identities 0x100000).1 in
  Ok tt.

Definition validate_aggregate_properties (message : MessageSpec) : wres unit :=
  validate_aggregate_properties_with_limit message MAX_IN_MEMORY_CUSTOM_PROPERTY_BYTES.

(** [FidelityStore] *)
Record FidelityStore := mk_FidelityStore {
  fs_store_name : list Z;
  fs_folder_name : list Z;
  fs_record_key : list Z;
  fs_message : MessageSpec
}.

Section spec.
Context (sha256 : list Z -> list Z).
Definition validate_spec (spec : FidelityStore) : wres unit :=
  let? _ := for_each (fun '(name, value) =>
    let? _ := refuse_if (is_empty value) (String.append name " must be non-empty") in
    too_large_if (2048 <? len (encode_utf16 value)) name)
    [("store name"%string, fs_store_name spec); ("folder name"%string, fs_folder_name spec)] in
  let? _ := validate_aggregate_properties (fs_message spec) in
  validate_message sha256 (fs_message spec) 0.
End spec.

(** ** Checks that pass *)

Lemma reject_if_ok b e u : reject_if b e = Ok u <-> b = false.
Proof. destruct b, u; unfold reject_if; split; congruence. Qed.

Lemma for_each_ok {A} (check : A -> wres unit) l : for_each check l = Ok tt <-> Forall (fun a => check a = Ok tt) l.
Proof.
  unfold for_each. induction l as [|a l IH]; cbn [rfold]; [by split|]. rewrite rbind_ok, Forall_cons. split.
  - intros ([] & Ha & Hl). split; [done|]. by apply IH.
  - intros [Ha Hl]. exists tt. split; [done|]. by apply IH.
Qed.

Lemma sum_sizes_ok {A} w what (size : A -> wres Z) l : forall total n,
  sum_sizes w what size l total = Ok n -> Forall (fun a => is_ok (size a) = true) l.
Proof.
  induction l as [|a l IH]; intros total n H; [constructor|]. cbn [sum_sizes] in H.
  apply rbind_ok in H as (k & Hk & H). apply rbind_ok in H as (t & _ & H). constructor; [by rewrite Hk|by eapply IH].
Qed.

Lemma adjacent_equal_dedup {A} `{EqDecision A} (l : list A) : adjacent_equal l = false -> dedup l = l.
Proof.
  induction l as [|a [|b l] IH]; [done..|]. intros H. change (bool_decide (a = b) || adjacent_equal (b :: l) = false) in H.
  change (dedup (a :: b :: l)) with (if decide (a = b) then dedup (b :: l) else a :: dedup (b :: l)).
  apply orb_false_iff in H as [Hn H]. apply bool_decide_eq_false in Hn. rewrite decide_False by done. by rewrite IH.
Qed.

Lemma no_adjacent_equal {A} `{EqDecision A} (cmp : A -> A -> comparison) `{!CmpLaws cmp, !CmpEq cmp} l :
  adjacent_equal (sort_by cmp l) = false -> NoDup l.
Proof.
  intros H. pose proof (proj1 (btree_set_spec cmp l)) as Hnd. unfold btree_set in Hnd.
  rewrite (adjacent_equal_dedup _ H) in Hnd. by rewrite (sort_by_perm cmp) in Hnd.
Qed.

Lemma existsb_eqb id l : existsb (Z.eqb id) l = true <-> id ∈ l.
Proof.
  rewrite existsb_exists. setoid_rewrite Z.eqb_eq. setoid_rewrite <- list_elem_of_In. split; [by intros (x & Hx & <-)|by exists id].
Qed.

Lemma existsb_id {A} (f : A -> Z) id l : existsb (fun a => f a =? id) l = true <-> id ∈ map f l.
Proof.
  rewrite existsb_exists, list_elem_of_fmap. setoid_rewrite Z.eqb_eq. setoid_rewrite <- list_elem_of_In.
  split; intros (x & H1 & H2); exists x; by subst.
Qed.

(** ** Streamed properties that pass *)

Record streamed_ok (message : MessageSpec) (id property_type : Z) : Prop := mk_streamed_ok {
  so_type : exists t, PropertyType.try_from property_type = Ok t /\ kept_in_record t = false /\
              (explicit_message_property id = true -> allowed_managed message id t = true);
  so_small : id < 0x8000;
  so_raw : id ∉ map rp_id (ms_raw_properties message)
}.

Lemma validate_streamed_ok message kind ids id ty blob ids' :
  validate_streamed message kind ids id ty blob = Ok ids' ->
  ids' = ids ++ [id] /\ id ∉ ids /\ blob = Ok tt /\ streamed_ok message id ty.
Proof.
  unfold validate_streamed. intros H. apply rbind_ok in H as (t & Ht & H).
  apply rbind_ok in H as (? & Hk%reject_if_ok & H). apply rbind_ok in H as (? & Hd%reject_if_ok & H).
  apply rbind_ok in H as (? & He%reject_if_ok & H). apply rbind_ok in H as ([] & Hb & H). injection H as <-.
  apply orb_false_iff in Hd as [Hd Hraw]. apply orb_false_iff in Hd as [Hid Hin]. apply Z.leb_gt in Hid.
  split_and!; [done| |done|constructor; [|done|]].
  - intros Hx. apply existsb_eqb in Hx. congruence.
  - exists t. split_and!; [|done|].
    + destruct (PropertyType.try_from ty); cbn in Ht; congruence.
    + intros Hx. rewrite Hx in He. by destruct (allowed_managed message id t).
  - intros Hx. apply existsb_id in Hx. congruence.
Qed.

Lemma validate_streamed_all {A} message kind (id ty : A -> Z) (blob : A -> wres unit) l : forall ids ids',
  rfold (fun ids p => validate_streamed message kind ids (id p) (ty p) (blob p)) l ids = Ok ids' ->
  NoDup ids -> ids' = ids ++ map id l /\ NoDup ids' /\ Forall (fun p => streamed_ok message (id p) (ty p) /\ blob p = Ok tt) l.
Proof.
  induction l as [|p l IH]; intros ids ids' H Hnd; cbn [rfold map] in *; [injection H as <-; by rewrite app_nil_r|].
  apply rbind_ok in H as (ids1 & Hp & H). apply validate_streamed_ok in Hp as (-> & Hin & Hb & Hs).
  apply IH in H as (-> & Hnd' & Hl).
  - split_and!; [by rewrite <- app_assoc|done|by constructor].
  - apply NoDup_app. split_and!; [done| |apply NoDup_singleton]. intros x Hx ->%list_elem_of_singleton. done.
Qed.

Definition streamed_ids (message : MessageSpec) : list Z :=
  map sps_id (ms_spooled_properties message) ++ map dps_id (ms_direct_properties message).

Lemma has_streamed message id : message_has_streamed_property message id = true <-> id ∈ streamed_ids message.
Proof.
  unfold message_has_streamed_property, streamed_ids. rewrite orb_true_iff, elem_of_app.
  by rewrite (existsb_id sps_id), (existsb_id dps_id).
Qed.

Lemma validate_streamed_properties_ok message : validate_streamed_properties message = Ok tt ->
  NoDup (streamed_ids message) /\
  Forall (fun p => streamed_ok message (sps_id p) (sps_property_type p)) (ms_spooled_properties message) /\
  Forall (fun p => streamed_ok message (dps_id p) (dps_property_type p)) (ms_direct_properties message).
Proof.
  unfold validate_streamed_properties. intros H. apply rbind_ok in H as (ids & Hs & H). apply rbind_ok in H as (ids' & Hd & _).
  apply validate_streamed_all in Hs as (-> & Hnd & Hs); [|constructor]. apply validate_streamed_all in Hd as (-> & Hnd' & Hd); [|done].
  split_and!; [done| |]; eapply Forall_impl; [exact Hs| |exact Hd|]; by intros p [? _].
Qed.

Lemma streamed_id_ok message id : validate_streamed_properties message = Ok tt -> id ∈ streamed_ids message ->
  exists ty, streamed_ok message id ty.
Proof.
  intros (_ & Hs & Hd)%validate_streamed_properties_ok [Hi|Hi]%elem_of_app; apply list_elem_of_fmap in Hi as (p & -> & Hp).
  - eexists. by apply (proj1 (Forall_forall _ _) Hs).
  - eexists. by apply (proj1 (Forall_forall _ _) Hd).
Qed.

(** ** The ids of the writer's properties *)

(** What is known of a property that the writer makes of a field. *)
Definition managed_id (message : MessageSpec) (associated : bool) (id : Z) : Prop :=
  (id = 0x3001 /\ associated = true) \/
  (explicit_message_property id = true /\
   (id = 0x1000 -> is_Some (ms_body_text message)) /\ (id = 0x1013 -> is_Some (ms_body_html message)) /\
   (id = 0x1009 -> is_Some (ms_body_rtf message)) /\ (id = 0x007D -> is_Some (ms_internet_headers message))).

(** The ids in the order in which the properties are made. *)
Definition managed_order : list Z :=
  [0x001A; 0x0E06; 0x0E07; 0x0E08; 0x0E17; 0x0E1B; 0x3007; 0x3008; 0x300B; 0x3FDE; 0x0037; 0x3001; 0x0042; 0x0064;
   0x0065; 0x0C1A; 0x0C1E; 0x0C1F; 0x1000; 0x1013; 0x1009; 0x0E1F; 0x1016; 0x007D; 0x0039; 0x0E04; 0x0E03; 0x0E02].

Lemma managed_order_nodup : NoDup managed_order.
Proof. apply (bool_decide_unpack _). by vm_compute. Qed.

Definition managed_properties (message : MessageSpec) (associated : bool) (record_key : list Z) (size : Z) (rtf : list Property) : list Property :=
  header_properties message associated record_key size ++ rtf ++ trailing_properties message.

Lemma ids_if (b : bool) (l : list Property) ids : map fst l `sublist_of` ids -> map fst (if b then l else []) `sublist_of` ids.
Proof. destruct b; [done|]. intros _. apply sublist_nil_l. Qed.

Lemma ids_option {A} (f : A -> Property) o id : (forall a, fst (f a) = id) -> map fst (option_list (f <$> o)) `sublist_of` [id].
Proof. intros Hf. destruct o as [a|]; cbn; [by rewrite Hf|apply sublist_nil_l]. Qed.

Lemma rtf_ids message rtf : rtf_properties message = Ok rtf -> map fst rtf `sublist_of` [0x1009; 0x0E1F].
Proof.
  unfold rtf_properties. destruct (ms_body_rtf message).
  - intros (c & _ & Hr)%rbind_ok. by injection Hr as <-.
  - intros Hr. injection Hr as <-. apply ids_if. by apply sublist_cons.
Qed.

Lemma display_ids recipients : map fst (display_recipient_properties recipients) `sublist_of` [0x0E04; 0x0E03; 0x0E02].
Proof.
  unfold display_recipient_properties. cbn [omap list_omap].
  repeat (destruct (negb (is_empty (join _ _)))); cbn [map fst]; repeat first [apply sublist_skip|apply sublist_cons|apply sublist_nil_l].
Qed.

Lemma managed_sublist message associated key size rtf : rtf_properties message = Ok rtf ->
  map fst (managed_properties message associated key size rtf) `sublist_of` managed_order.
Proof.
  intros Hr. unfold managed_properties, header_properties, trailing_properties. rewrite !map_app, <- !app_assoc.
  change managed_order with ([0x001A; 0x0E06; 0x0E07; 0x0E08; 0x0E17; 0x0E1B; 0x3007; 0x3008; 0x300B; 0x3FDE] ++
    [0x0037] ++ [0x3001] ++ [0x0042; 0x0064; 0x0065; 0x0C1A; 0x0C1E; 0x0C1F] ++ [0x1000] ++ [0x1013] ++ [0x1009; 0x0E1F] ++
    [0x1016] ++ [0x007D] ++ [0x0039] ++ [0x0E04; 0x0E03; 0x0E02]).
  repeat (apply sublist_app; [first [by apply ids_if | by apply ids_option | by eapply rtf_ids | done]|]).
  apply display_ids.
Qed.

Lemma managed_id_explicit message associated id : explicit_message_property id = true ->
  id ∉ [0x1000; 0x1013; 0x1009; 0x007D] -> managed_id message associated id.
Proof. intros He Hn. right. split; [done|]. split_and!; intros ->; destruct Hn; by vm_compute; set_solver. Qed.

Ltac explicit_ids := cbn [map fst]; repeat apply Forall_cons_2; try apply Forall_nil_2; (apply managed_id_explicit;
  [by vm_compute | apply (bool_decide_unpack _); by vm_compute]).

Lemma managed_ids message associated key size rtf : rtf_properties message = Ok rtf ->
  Forall (managed_id message associated) (map fst (managed_properties message associated key size rtf)).
Proof.
  intros Hr. unfold managed_properties, header_properties, trailing_properties. rewrite !map_app, !Forall_app.
  split_and!.
  - explicit_ids.
  - destruct (negb (is_empty (ms_subject message))); [explicit_ids|constructor].
  - destruct associated; [|constructor]. apply Forall_singleton. by left.
  - destruct (has_sender message); [explicit_ids|constructor].
  - destruct (ms_body_text message) eqn:E; [|constructor]. apply Forall_singleton. right. rewrite E. by split_and!.
  - destruct (ms_body_html message) eqn:E; [|constructor]. apply Forall_singleton. right. rewrite E. by split_and!.
  - unfold rtf_properties in Hr. destruct (ms_body_rtf message) eqn:E.
    + apply rbind_ok in Hr as (c & _ & Hr). injection Hr as <-. apply Forall_cons_2; [right; rewrite E; by split_and!|explicit_ids].
    + injection Hr as <-. destruct (message_has_streamed_property message 0x1009); [explicit_ids|constructor].
  - destruct (ms_native_body message); [explicit_ids|constructor].
  - destruct (ms_internet_headers message) eqn:E; [|constructor]. apply Forall_singleton. right. rewrite E. by split_and!.
  - explicit_ids.
  - pose proof (sublist_submseteq _ _ (display_ids (ms_recipients message))) as Hd.
    assert (Hall : Forall (managed_id message associated) [0x0E04; 0x0E03; 0x0E02]) by explicit_ids.
    rewrite Forall_forall in *. intros x Hx. apply Hall. by apply (elem_of_submseteq _ _ _ Hx).
Qed.

(** ** Named and raw properties *)

Lemma NoDup_Forall2 {A B C D} (f : A -> C) (g : B -> D) (R : A -> B -> Prop) l k :
  Forall2 R l k -> (forall a b a' b', R a b -> R a' b' -> g b = g b' -> f a = f a') -> NoDup (map f l) -> NoDup (map g k).
Proof.
  intros H Hinj. induction H as [|a b l k Hab Hlk IH]; [constructor|]. cbn [map]. rewrite !NoDup_cons. intros [Hin Hnd].
  split; [|by apply IH]. intros (b' & Heq & Hb')%list_elem_of_fmap. apply Hin.
  apply list_elem_of_lookup in Hb' as [i Hi]. destruct (Forall2_lookup_r _ _ _ _ _ Hlk Hi) as (a' & Ha' & HR).
  rewrite (Hinj _ _ _ _ Hab HR Heq). apply list_elem_of_fmap. exists a'. split; [done|]. by eapply list_elem_of_lookup_2.
Qed.

Lemma mapped_id_ok named identity missing id : mapped_id named identity missing = Ok id ->
  exists i, named !! i = Some identity /\ id = 0x8000 + Z.of_nat i /\ id < 2 ^ 16.
Proof.
  unfold mapped_id. intros (index & Hi & H)%rbind_ok. apply rbind_ok in H as (index' & Hu & H). apply fits_ok in H.
  unfold try_u16 in Hu. destruct (uint_b 16 index); [|done]. apply ok_inj in Hu as <-.
  destruct (named_identity_index named identity) as [j|] eqn:E; [|done]. apply ok_inj in Hi as ->.
  destruct (named_identity_index_some named identity) as (i & Hi & Hl).
  { destruct (decide (identity ∈ named)) as [|Hn]; [done|]. apply named_identity_index_none in Hn. congruence. }
  rewrite Hi in E. injection E as <-. exists i. split; [done|]. unfold checked_add in H.
  destruct (Z.ltb_spec (0x8000 + Z.of_nat i) (2 ^ 16)); [|done]. by injection H as <-.
Qed.

(** Names in the order of the properties, with the ids of the map. *)
Definition named_as (named : list NamedIdentity) (p : NamedProperty) (q : Property) : Prop :=
  q.2 = raw_property_value (nmp_value p) /\
  exists i, named !! i = Some (named_identity p) /\ q.1 = 0x8000 + Z.of_nat i /\ q.1 < 2 ^ 16.

Lemma named_properties_ok named message l : named_properties named message = Ok l ->
  Forall2 (named_as named) (ms_named_properties message) l.
Proof.
  unfold named_properties. intros H%rmapM_Forall2. eapply Forall2_impl; [exact H|].
  intros p q (id & Hid & Hq)%rbind_ok. injection Hq as <-. split; [done|]. by eapply mapped_id_ok.
Qed.

Lemma named_ids_nodup named message l : named_properties named message = Ok l ->
  NoDup (map named_identity (ms_named_properties message)) -> NoDup (map fst l).
Proof.
  intros H%named_properties_ok Hnd. eapply (NoDup_Forall2 named_identity); [exact H| |done].
  intros p q p' q' (_ & i & Hi & Hq & _) (_ & j & Hj & Hq' & _) Heq. replace j with i in Hj by lia. congruence.
Qed.

Record custom_ok (message : MessageSpec) : Prop := mk_custom_ok {
  co_named : NoDup (map named_identity (ms_named_properties message));
  co_raw : NoDup (map rp_id (ms_raw_properties message));
  co_named_values : Forall (fun p => validate_raw_value (nmp_value p) = Ok tt) (ms_named_properties message);
  co_raw_values : Forall (fun p => validate_raw_value (rp_value p) = Ok tt) (ms_raw_properties message);
  co_raw_ids : Forall (fun p => rp_id p < 0x8000 /\ explicit_message_property (rp_id p) = false) (ms_raw_properties message)
}.

Lemma validate_custom_ok message : validate_custom_properties message = Ok tt -> custom_ok message.
Proof.
  unfold validate_custom_properties. intros (? & _ & H)%rbind_ok. apply rbind_ok in H as (? & Hn%reject_if_ok & H).
  apply rbind_ok in H as ([] & Hnv%for_each_ok & H). apply rbind_ok in H as (? & _ & H). apply rbind_ok in H as (? & _ & H).
  apply rbind_ok in H as (? & _ & H). apply rbind_ok in H as (? & Hr%reject_if_ok & H). apply for_each_ok in H.
  constructor.
  - by apply (no_adjacent_equal identity_cmp).
  - by apply (no_adjacent_equal Z.compare).
  - eapply Forall_impl; [exact Hnv|]. by intros p (? & _ & Hp)%rbind_ok.
  - eapply Forall_impl; [exact H|]. by intros p (? & _ & Hp)%rbind_ok.
  - eapply Forall_impl; [exact H|]. intros p (? & Hp%reject_if_ok & _)%rbind_ok.
    apply orb_false_iff in Hp as [Hp He]. apply orb_false_iff in Hp as [_ Hp]. apply Z.leb_gt in Hp. by split.
Qed.

Lemma raw_ids_sublist associated message :
  map fst (raw_properties associated message) `sublist_of` map rp_id (ms_raw_properties message).
Proof.
  unfold raw_properties. rewrite map_map. cbn [raw_property fst]. induction (ms_raw_properties message) as [|p l IH]; [done|].
  cbn [List.filter]. destruct (negb _); cbn [map]; [by apply sublist_skip|by apply sublist_cons].
Qed.

Lemma raw_ids_associated message : 0x3001 ∉ map fst (raw_properties true message).
Proof.
  unfold raw_properties. intros (q & Hq & Hin)%list_elem_of_fmap. apply list_elem_of_fmap in Hin as (p & -> & Hp).
  apply list_elem_of_In, filter_In in Hp as [_ Hp]. cbn in Hq. rewrite <- Hq in Hp. done.
Qed.

(** ** The ids of a message *)

(** The checks on a message itself, its attachments apart. *)
Record validated_fields (message : MessageSpec) : Prop := mk_validated {
  vf_streamed : validate_streamed_properties message = Ok tt;
  vf_custom : custom_ok message;
  vf_bodies : validate_bodies message = Ok tt;
  vf_shape : validate_message_property_context_shape message = Ok tt
}.

Lemma validate_message_fields sha256 message depth : validate_message sha256 message depth = Ok tt -> validated_fields message.
Proof.
  destruct message. cbn [validate_message]. intros (? & _ & H)%rbind_ok. apply rbind_ok in H as ([] & Hb & H).
  apply rbind_ok in H as ([] & Hs & H). apply rbind_ok in H as (? & _ & H). apply rbind_ok in H as ([] & Hc & H).
  apply rbind_ok in H as (? & _ & H). apply rbind_ok in H as (? & _ & H). constructor; [done|by apply validate_custom_ok|done..].
Qed.

Lemma streamed_not_managed message associated id : validate_streamed_properties message = Ok tt ->
  id ∈ streamed_ids message -> managed_id message associated id -> id = 0x3001 /\ associated = true.
Proof.
  intros Hv Hs [?|(He & H1 & H2 & H3 & H4)]; [done|]. exfalso. destruct (streamed_id_ok _ _ Hv Hs) as [ty Hso].
  destruct (so_type _ _ _ Hso) as (t & _ & _ & Ha). specialize (Ha He). unfold allowed_managed in Ha.
  assert (forall A (o : option A) b, is_Some o -> bool_decide (o = None) && b = true -> False) as Hno.
  { intros A o b [a ->] Hb%andb_true_iff. destruct Hb as [Hb _]. by apply bool_decide_eq_true in Hb. }
  destruct (decide (id = 0x1000)) as [->|]; [by eapply Hno, Ha; apply H1|].
  destruct (decide (id = 0x1013)) as [->|]; [by eapply Hno, Ha; apply H2|].
  destruct (decide (id = 0x1009)) as [->|]; [by eapply Hno, Ha; apply H3|].
  destruct (decide (id = 0x007D)) as [->|]; [by eapply Hno, Ha; apply H4|].
  repeat case_match; congruence.
Qed.

Lemma message_properties_parts message associated named key size ps :
  message_properties message associated named key size = Ok ps ->
  exists rtf nm, rtf_properties message = Ok rtf /\ named_properties named message = Ok nm /\
    ps = managed_properties message associated key size rtf ++ nm ++ raw_properties associated message.
Proof.
  unfold message_properties. intros (rtf & Hr & H)%rbind_ok. apply rbind_ok in H as (nm & Hn & H). apply ok_inj in H as <-.
  exists rtf, nm. split_and!; [done..|]. unfold managed_properties.
  generalize (header_properties message associated key size) (trailing_properties message) (raw_properties associated message).
  intros. by rewrite <- !app_assoc.
Qed.

Lemma managed_small message associated key size rtf id : rtf_properties message = Ok rtf ->
  id ∈ map fst (managed_properties message associated key size rtf) -> 0 <= id < 0x8000.
Proof.
  intros Hr Hin. pose proof (sublist_submseteq _ _ (managed_sublist message associated key size rtf Hr)) as Hs.
  apply (elem_of_submseteq _ _ _ Hin) in Hs. revert id Hin Hs. assert (Forall (fun id => 0 <= id < 0x8000) managed_order) as Hall.
  { unfold managed_order. repeat constructor; lia. }
  intros id _ Hs. by apply (proj1 (Forall_forall _ _) Hall).
Qed.

Lemma named_large named message l id : named_properties named message = Ok l -> id ∈ map fst l -> 0x8000 <= id < 2 ^ 16.
Proof.
  intros H%named_properties_ok (q & -> & Hq)%list_elem_of_fmap. apply list_elem_of_lookup in Hq as [i Hi].
  destruct (Forall2_lookup_r _ _ _ _ _ H Hi) as (p & _ & _ & j & _ & -> & Hlt). lia.
Qed.

Lemma raw_id_in associated message id : id ∈ map fst (raw_properties associated message) -> id ∈ map rp_id (ms_raw_properties message).
Proof. intros H. apply (elem_of_submseteq _ _ _ H), sublist_submseteq, raw_ids_sublist. Qed.

Lemma raw_id_ok associated message id : custom_ok message -> id ∈ map fst (raw_properties associated message) ->
  id < 0x8000 /\ explicit_message_property id = false.
Proof.
  intros Hc (p & -> & Hp)%raw_id_in%list_elem_of_fmap. by apply (proj1 (Forall_forall _ _) (co_raw_ids _ Hc)).
Qed.

(** The properties of a validated message never share an id. *)
Lemma message_ids_nodup message associated named key size ps : validated_fields message ->
  message_properties message associated named key size = Ok ps -> NoDup (map fst ps).
Proof.
  intros [_ Hc _ _] (rtf & nm & Hr & Hn & ->)%message_properties_parts. rewrite !map_app. apply NoDup_app. split_and!.
  - eapply sublist_NoDup; [apply managed_order_nodup|by apply managed_sublist].
  - intros id Hid Hin. pose proof (managed_small _ _ _ _ _ _ Hr Hid) as Hs.
    apply elem_of_app in Hin as [Hin|Hin]; [apply (named_large _ _ _ _ Hn) in Hin; lia|].
    destruct (raw_id_ok _ _ _ Hc Hin) as [_ He]. pose proof (managed_ids message associated key size rtf Hr) as Hm.
    rewrite Forall_forall in Hm. destruct (Hm id Hid) as [[-> ->]|[He' _]]; [by apply raw_ids_associated in Hin|congruence].
  - apply NoDup_app. split_and!.
    + eapply named_ids_nodup; [done|apply Hc].
    + intros id Hin Hid. apply (named_large _ _ _ _ Hn) in Hin. destruct (raw_id_ok _ _ _ Hc Hid). lia.
    + eapply sublist_NoDup; [apply Hc|apply raw_ids_sublist].
Qed.

Lemma streamed_ids_fresh message associated named key size ps id : validated_fields message ->
  message_properties message associated named key size = Ok ps -> id ∈ streamed_ids message -> id ∈ map fst ps ->
  id = 0x3001 /\ associated = true.
Proof.
  intros [Hs Hc _ _] (rtf & nm & Hr & Hn & ->)%message_properties_parts Hid. rewrite !map_app, !elem_of_app.
  destruct (streamed_id_ok _ _ Hs Hid) as [ty Hso]. intros [Hin|[Hin|Hin]].
  - eapply streamed_not_managed; [done..|]. by apply (proj1 (Forall_forall _ _) (managed_ids message associated key size rtf Hr)).
  - apply (named_large _ _ _ _ Hn) in Hin. pose proof (so_small _ _ _ Hso). lia.
  - by apply raw_id_in, (so_raw _ _ _ Hso) in Hin.
Qed.

Lemma associated_display_id message named key size ps :
  message_properties message true named key size = Ok ps -> 0x3001 ∈ map fst ps.
Proof.
  intros (rtf & nm & _ & _ & ->)%message_properties_parts. unfold managed_properties, header_properties.
  rewrite !map_app. apply elem_of_app. left. apply elem_of_app. left. apply elem_of_app. right. apply elem_of_app. right.
  apply elem_of_app. left. by left.
Qed.

Lemma all_ids_nodup message associated named key size ps : validated_fields message ->
  message_properties message associated named key size = Ok ps ->
  NoDup (map fst ps ++ streamed_ids message) <-> ~ (associated = true /\ 0x3001 ∈ streamed_ids message).
Proof.
  intros Hv Hps. rewrite NoDup_app. split.
  - intros (_ & Hd & _) [-> Hin]. apply (Hd 0x3001); [by eapply associated_display_id|done].
  - intros Hn. split_and!; [by eapply message_ids_nodup| |apply validate_streamed_properties_ok, Hv].
    intros id Hid Hin. destruct (streamed_ids_fresh _ _ _ _ _ _ _ Hv Hps Hin Hid) as [-> ->]. by apply Hn.
Qed.

(** ** The sizes of the values of a message *)

Definition value_fits (v : WriterValue.t) : Prop :=
  forall bytes, variable_bytes v = Ok (Some bytes) -> size_z bytes <= MAX_PST_PROPERTY_BYTES.

Lemma unicode_fits s n : unicode_payload_len s = Ok n -> n <= MAX_PST_PROPERTY_BYTES -> value_fits (WriterValue.Unicode s).
Proof.
  intros Hn Hle bytes H. apply fits_ok, unicode_size_units in Hn. cbn in H. injection H as <-. subst n. exact Hle.
Qed.

Lemma raw_value_fits v : writer_value_ok (raw_property_value v) -> validate_raw_value v = Ok tt -> value_fits (raw_property_value v).
Proof.
  unfold validate_raw_value. intros Hv H. destruct (raw_value_refused v); [done|]. apply rbind_ok in H as (n & Hn & H).
  apply rbind_ok in H as (? & Hm & _). unfold validate_pst_property_len in Hm.
  destruct (Z.ltb_spec MAX_PST_PROPERTY_BYTES n) as [|Hle]; [done|]. unfold MAX_PST_PROPERTY_BYTES in *.
  pose proof (raw_value_bytes v n Hv Hn ltac:(lia)) as Hb. intros bytes Hbytes.
  destruct (WriterValue.inline_value (raw_property_value v)) eqn:Ei.
  - destruct v; cbn in Ei, Hbytes; congruence.
  - destruct Hb as (b & Hb & Hl). rewrite Hb in Hbytes. injection Hbytes as <-. unfold len, size_z, MAX_PST_PROPERTY_BYTES in *. lia.
Qed.

Lemma fixed_fits v : match v with WriterValue.Time _ | WriterValue.Integer32 _ | WriterValue.Boolean _ => True | _ => False end -> value_fits v.
Proof. destruct v; try done; intros _ bytes H; cbn in H; try discriminate H. injection H as <-. unfold size_z, write_u64. by rewrite length_le_bytes. Qed.

(** The units of the names of recipients with their separators. *)
Definition units (s : list Z) : Z := 2 * len (encode_utf16 s).

Lemma units_app s t : units (s ++ t) = units s + units t.
Proof. unfold units, encode_utf16. rewrite map_app, concat_app. unfold len. rewrite length_app. lia. Qed.

Lemma unicode_units s n : unicode_payload_len s = Ok n -> n = units s.
Proof.
  intros H%fits_ok. unfold unicode_size, checked_mul in H. destruct (_ <? _); [|done]. injection H as <-. unfold units. lia.
Qed.

Fixpoint separated_units (l : list (list Z)) : Z := match l with [] => 0 | s :: l => 4 + units s + separated_units l end.

Lemma join_units s l : units (join (chars "; ") (s :: l)) = units s + separated_units l.
Proof.
  revert s. induction l as [|t l IH]; intros s; [cbn [join separated_units]; lia|].
  change (join (chars "; ") (s :: t :: l)) with (s ++ chars "; " ++ join (chars "; ") (t :: l)).
  rewrite !units_app, IH. change (units (chars "; ")) with 4. cbn [separated_units]. lia.
Qed.

Lemma add_two_ok what bytes n m r : add_two what bytes n m = Ok r -> r = bytes + n + m.
Proof.
  unfold add_two. intros (t & Ht & H)%rbind_ok. apply fits_ok in Ht, H. unfold checked_add in *.
  destruct (_ <? _) in Ht; [|done]. destruct (_ <? _) in H; [|done]. injection Ht as <-. by injection H as <-.
Qed.

Lemma display_fold l : forall total separator r,
  rfold (fun '(total, separator) recipient =>
    let? display_size := unicode_payload_len (rs_display_name recipient) in
    let? total := add_two "display recipient property" total separator display_size in
    Ok (total, 4)) l (total, separator) = Ok r ->
  match l with
  | [] => r.1 = total
  | recipient :: l => r.1 = total + separator + units (rs_display_name recipient) + separated_units (map rs_display_name l)
  end.
Proof.
  induction l as [|recipient l IH]; intros total separator r H; cbn [rfold] in H; [by injection H as <-|].
  apply rbind_ok in H as ([t s] & Hs & H). apply rbind_ok in Hs as (n & Hn%unicode_units & Hs).
  apply rbind_ok in Hs as (t' & Ht%add_two_ok & Hs). injection Hs as <- <-. apply IH in H. rewrite Hn in Ht.
  destruct l as [|recipient' l]; cbn [map separated_units] in *; lia.
Qed.

Lemma display_bytes_units l n : display_bytes l = Ok n -> n = units (join (chars "; ") (map rs_display_name l)).
Proof.
  unfold display_bytes. intros (r & Hr & H)%rbind_ok. injection H as <-. apply display_fold in Hr.
  destruct l as [|recipient l]; [done|]. cbn [map]. rewrite join_units. lia.
Qed.

Lemma rtf_container_short (body : list Z) n : rtf_container_len (len body) = Ok n -> len body <= n.
Proof.
  unfold rtf_container_len. intros (runs & Hruns & Hn)%rbind_ok. apply fits_ok in Hruns, Hn.
  unfold checked_add in *. destruct (_ <? _) in Hruns; [|done]. injection Hruns as <-.
  destruct (_ <? _) in Hn; [|done]. destruct (_ <? _) in Hn; [|done]. injection Hn as <-.
  assert (0 <= div_ceil (len body + 1) 8) by (unfold div_ceil, len; apply Z.div_pos; lia). lia.
Qed.

Lemma rtf_properties_fits message rtf : rtf_properties message = Ok rtf -> validate_bodies message = Ok tt ->
  Forall (fun p => value_fits p.2) rtf.
Proof.
  unfold rtf_properties. intros H Hb. assert (Hc : forall body, ms_body_rtf message = Some body -> exists n,
      rtf_container_len (len body) = Ok n /\ n <= MAX_FIDELITY_PROPERTY_BYTES).
  { intros body E. unfold validate_bodies in Hb. rewrite E in Hb. cbn [if_some] in Hb.
    do 4 (apply rbind_ok in Hb as (? & _ & Hb)). apply rbind_ok in Hb as (? & Hb & _). apply rbind_ok in Hb as (n & Hn & Hb).
    exists n. split; [done|]. unfold validate_payload_len in Hb. destruct (Z.ltb_spec MAX_FIDELITY_PROPERTY_BYTES n); [done|lia]. }
  destruct (ms_body_rtf message) as [body|].
  - destruct (Hc body eq_refl) as (n & Hn & Hle). apply rbind_ok in H as (c & Hr & H). injection H as <-.
    assert (len body < 2 ^ 31) as Hl by (pose proof (rtf_container_short _ _ Hn); unfold MAX_FIDELITY_PROPERTY_BYTES in Hle; lia).
    destruct (rtf_container_correct body Hl) as (z & Hz & Hlen & _). rewrite Hz in Hr. apply ok_inj in Hr as <-. rewrite Hlen in Hn.
    injection Hn as <-. repeat constructor; [|by apply fixed_fits].
    intros bytes Hbytes. apply ok_inj, (inj Some) in Hbytes as <-. unfold size_z, len in *.
    rewrite !length_app. unfold write_u32. rewrite !length_le_bytes. unfold MAX_FIDELITY_PROPERTY_BYTES, MAX_PST_PROPERTY_BYTES in *. lia.
  - injection H as <-. destruct (message_has_streamed_property _ _); repeat constructor. by apply fixed_fits.
Qed.

Definition binary_fits (bytes : list Z) : Prop := len bytes <= MAX_PST_PROPERTY_BYTES.

(** The values whose sizes are computed for the shape. *)
Record context_fits (message : MessageSpec) : Prop := mk_context_fits {
  cf_class : value_fits (WriterValue.Unicode (ms_message_class message));
  cf_subject : value_fits (WriterValue.Unicode (ms_subject message));
  cf_sender : has_sender message = true ->
    value_fits (WriterValue.Unicode (ms_sender_name message)) /\ value_fits (WriterValue.Unicode (ms_sender_email message));
  cf_text : forall body, ms_body_text message = Some body -> value_fits (WriterValue.Unicode body);
  cf_html : forall body, ms_body_html message = Some body -> binary_fits body;
  cf_headers : forall s, ms_internet_headers message = Some s -> value_fits (WriterValue.Unicode s);
  cf_display : forall kind, kind ∈ kinds ->
    value_fits (WriterValue.Unicode (join (chars "; ") (map rs_display_name (recipients_of kind (ms_recipients message)))))
}.

Lemma value_fits_units s : units s <= MAX_PST_PROPERTY_BYTES <-> value_fits (WriterValue.Unicode s).
Proof.
  unfold value_fits. cbn [variable_bytes unicode_bytes rbind]. pose proof (unicode_size_units s (units s)) as H.
  assert (units s = len (PropertyValueIo.units_bytes (encode_utf16 s))) as Hu.
  { unfold units, len. rewrite length_units_bytes. lia. }
  split; [|intros Hb; rewrite Hu; by apply (Hb _ eq_refl)]. intros Hle bytes Hbytes. apply ok_inj, (inj Some) in Hbytes as <-. rewrite Hu in Hle. exact Hle.
Qed.

Lemma rmapM_some {A B} (f : A -> wres B) o l (P : B -> Prop) : rmapM f (option_list o) = Ok l -> Forall P l ->
  forall a, o = Some a -> exists b, f a = Ok b /\ P b.
Proof.
  intros H HP a ->. cbn [option_list rmapM rbind] in H. apply rbind_ok in H as (b & Hb & H). apply ok_inj in H as <-.
  exists b. split; [exact Hb|by inversion HP].
Qed.

Lemma context_fits_ok message : validate_message_property_context_shape message = Ok tt -> context_fits message.
Proof.
  unfold validate_message_property_context_shape. intros (lengths & Hl & H)%rbind_ok.
  assert (Hle : Forall (fun n => n <= MAX_PST_PROPERTY_BYTES) lengths).
  { unfold validate_property_context_shape in H. apply rbind_ok in H as (? & _ & H). apply for_each_ok in H.
    eapply Forall_impl; [exact H|]. intros n Hn. unfold validate_pst_property_len in Hn. destruct (Z.ltb_spec MAX_PST_PROPERTY_BYTES n); [done|lia]. }
  clear H. unfold message_context_lengths in Hl. cbv zeta in Hl.
  apply rbind_ok in Hl as (class & Hclass%unicode_units & Hl). apply rbind_ok in Hl as (subject & Hsubject & Hl).
  apply rbind_ok in Hl as (sender & Hsender & Hl). apply rbind_ok in Hl as (text & Htext & Hl).
  apply rbind_ok in Hl as (html & Hhtml & Hl). apply rbind_ok in Hl as (rtf & _ & Hl).
  apply rbind_ok in Hl as (headers & Hheaders & Hl). apply rbind_ok in Hl as (display & Hdisplay & Hl).
  apply rbind_ok in Hl as (custom & _ & Hl). apply ok_inj in Hl as <-. rewrite !Forall_app in Hle.
  destruct Hle as (Hc & Hsub & Hsen & Htx & Hht & _ & Hhd & Hdi & _). apply Forall_cons in Hc as [Hc _].
  constructor.
  - apply value_fits_units. lia.
  - apply value_fits_units. destruct (ms_subject message) as [|c s]; [by vm_compute|].
    destruct (rmapM_some _ _ _ _ Hsubject Hsub (c :: s) eq_refl) as (n & Hn%unicode_units & Hle). lia.
  - intros Hs. rewrite Hs in Hsender. apply rbind_ok in Hsender as (name & Hname%unicode_units & Hsender).
    apply rbind_ok in Hsender as (email & Hemail%unicode_units & Hsender). injection Hsender as <-.
    rewrite !Forall_cons in Hsen. destruct Hsen as (Hn & _ & He & _). split; apply value_fits_units; lia.
  - intros body E. destruct (rmapM_some _ _ _ _ Htext Htx body E) as (n & Hn%unicode_units & Hle). apply value_fits_units. lia.
  - intros body E. destruct (rmapM_some _ _ _ _ Hhtml Hht body E) as (n & Hn & Hle). apply ok_inj in Hn. unfold binary_fits. lia.
  - intros s E. destruct (rmapM_some _ _ _ _ Hheaders Hhd s E) as (n & Hn%unicode_units & Hle). apply value_fits_units. lia.
  - intros kind Hk. apply value_fits_units. destruct (recipients_of kind (ms_recipients message)) as [|r rs] eqn:E; [by vm_compute|].
    apply rmapM_Forall2 in Hdisplay. assert (r :: rs ∈ List.filter (fun rs => negb (is_empty rs))
      (map (fun kind => recipients_of kind (ms_recipients message)) kinds)) as Hin.
    { apply list_elem_of_In, filter_In. split; [|done]. apply in_map_iff. exists kind. split; [done|]. by apply list_elem_of_In. }
    apply list_elem_of_lookup in Hin as [i Hi]. destruct (Forall2_lookup_l _ _ _ _ _ Hdisplay Hi) as (n & Hn & Hd%display_bytes_units).
    apply list_elem_of_lookup_2 in Hn. rewrite Forall_forall in Hdi. specialize (Hdi n Hn). cbn in Hdi. lia.
Qed.

(** ** Messages of the types of their fields *)

(** The numbers are of their width, and no string has a zero, which the
    reader takes for its end; multi-values are as long as it accepts. *)
Record message_typed (message : MessageSpec) : Prop := mk_message_typed {
  mt_class : string_ok (ms_message_class message);
  mt_flags : sint 32 (ms_message_flags message);
  mt_codepage : sint 32 (ms_internet_codepage message);
  mt_subject : string_ok (ms_subject message);
  mt_sender : string_ok (ms_sender_name message) /\ string_ok (ms_sender_email message);
  mt_recipients : Forall (fun r => string_ok (rs_display_name r) /\ string_ok (rs_email_address r)) (ms_recipients message);
  mt_times : Forall (sint 64) [ms_sent_filetime message; ms_received_filetime message;
                               ms_creation_filetime message; ms_modification_filetime message];
  mt_text : forall body, ms_body_text message = Some body -> string_ok body;
  mt_headers : forall s, ms_internet_headers message = Some s -> string_ok s;
  mt_named : Forall (fun p => writer_value_ok (raw_property_value (nmp_value p))) (ms_named_properties message);
  mt_raw : Forall (fun p => 0 <= rp_id p /\ writer_value_ok (raw_property_value (rp_value p))) (ms_raw_properties message);
  mt_streamed : Forall (uint 16) (streamed_ids message)
}.

Lemma sint32_shiftr x : sint 32 x <-> Z.shiftr x 31 = 0 \/ Z.shiftr x 31 = -1.
Proof.
  unfold sint. rewrite Z.shiftr_div_pow2 by lia. pose proof (Z.div_mod x (2 ^ 31) ltac:(lia)).
  pose proof (Z.mod_pos_bound x (2 ^ 31) ltac:(lia)). change (2 ^ (32 - 1)) with (2 ^ 31). lia.
Qed.

Lemma output_message_flags_ok message associated : sint 32 (ms_message_flags message) ->
  sint 32 (output_message_flags message associated).
Proof.
  rewrite !sint32_shiftr. unfold output_message_flags. intros H.
  assert (Hor : forall x b, Z.shiftr b 31 = 0 -> Z.shiftr (Z.lor x b) 31 = Z.shiftr x 31).
  { intros x b Hb. by rewrite Z.shiftr_lor, Hb, Z.lor_0_r. }
  assert (Z.shiftr (Z.land (ms_message_flags message) (Z.lnot (Z.lor HAS_ATTACHMENTS MSGFLAG_ASSOCIATED))) 31 =
          Z.shiftr (ms_message_flags message) 31) as Hl.
  { rewrite Z.shiftr_land. change (Z.shiftr (Z.lnot _) 31) with (-1). apply Z.land_m1_r. }
  destruct associated, (negb (is_empty (ms_attachments message))); rewrite ?Hor by done; by rewrite Hl.
Qed.

(** A property that needs no node. *)
Lemma plain_property id v : 0 <= id < 2 ^ 16 -> writer_value_ok v -> value_fits v -> is_external v = false -> property_ok (id, v).
Proof. intros Hid Hv Hf He. split_and!; [done..|]. by destruct v. Qed.

Lemma raw_property_ok p : 0 <= rp_id p < 2 ^ 16 -> writer_value_ok (raw_property_value (rp_value p)) ->
  validate_raw_value (rp_value p) = Ok tt -> property_ok (raw_property p).
Proof. intros Hid Hv Hr. apply plain_property; [done|done|by apply raw_value_fits|by destruct (rp_value p)]. Qed.

Lemma string_ok_join l : Forall string_ok l -> string_ok (join (chars "; ") l).
Proof.
  induction 1 as [|s [|t l] Hs Hl IH]; [constructor|done|].
  change (join (chars "; ") (s :: t :: l)) with (s ++ chars "; " ++ join (chars "; ") (t :: l)).
  apply Forall_app. split; [done|]. apply Forall_app. split; [|done].
  change (chars "; ") with [59; 32]. repeat (apply Forall_cons_2; [unfold char_ok; lia|]). apply Forall_nil_2.
Qed.

Lemma display_properties_ok message : message_typed message -> context_fits message ->
  Forall property_ok (display_recipient_properties (ms_recipients message)).
Proof.
  intros Ht Hf. assert (Hk : forall kind, string_ok (join (chars "; ") (map rs_display_name (recipients_of kind (ms_recipients message))))).
  { intros kind. apply string_ok_join, Forall_map. apply Forall_forall. intros r Hr.
    apply list_elem_of_In, filter_In in Hr as [Hr _]. apply list_elem_of_In in Hr.
    by apply (proj1 (Forall_forall _ _) (mt_recipients _ Ht)). }
  apply Forall_forall. intros p Hp. unfold display_recipient_properties in Hp.
  apply list_elem_of_omap in Hp as ([kind id] & Hin & Hp). destruct (negb _); [|done]. injection Hp as <-.
  apply plain_property; [|apply Hk| |done].
  - revert Hin. rewrite !elem_of_cons, elem_of_nil. intros Hin. destruct_or! Hin; simplify_eq; lia.
  - apply cf_display; [done|]. unfold kinds. revert Hin. rewrite !elem_of_cons, elem_of_nil. intros Hin. destruct_or! Hin; simplify_eq; set_solver.
Qed.

Lemma associated_display_ok message : message_typed message -> custom_ok message -> context_fits message ->
  string_ok (associated_display_name message) /\ value_fits (WriterValue.Unicode (associated_display_name message)).
Proof.
  intros Ht Hc Hf. unfold associated_display_name. cbv zeta.
  destruct (head _) as [s|] eqn:E; cbn [default]; [|by split; [apply Ht|apply Hf]].
  apply head_Some_elem_of, list_elem_of_omap in E as (p & Hp & Hs).
  pose proof (proj1 (Forall_forall _ _) (mt_raw _ Ht) _ Hp) as [_ Hv]. pose proof (proj1 (Forall_forall _ _) (co_raw_values _ Hc) _ Hp) as Hr.
  cbn beta in Hs, Hv, Hr. assert (rp_value p = RawPropertyValue.Unicode s) as Hu by (repeat case_match; simplify_eq; congruence).
  rewrite Hu in Hv, Hr. split; [exact Hv|]. by apply (raw_value_fits (RawPropertyValue.Unicode s)).
Qed.

Ltac plain :=
  apply plain_property; [lia | cbn [writer_value_ok]; try done | first [by apply fixed_fits | idtac] | done].

Lemma header_properties_ok message associated key size : message_typed message -> custom_ok message -> context_fits message ->
  sint 32 size -> binary_fits key -> Forall property_ok (header_properties message associated key size).
Proof.
  intros Ht Hc Hf Hs Hk. pose proof (mt_times _ Ht) as Htimes. rewrite !Forall_cons in Htimes. destruct Htimes as (Hsent & Hrec & Hcre & Hmod & _).
  assert (Hbin : forall b, binary_fits b -> value_fits (WriterValue.Binary b)).
  { intros b Hb bytes H. apply ok_inj, (inj Some) in H as <-. exact Hb. }
  unfold header_properties. rewrite !Forall_app. split_and!.
  - repeat apply Forall_cons_2; try apply Forall_nil_2; plain.
    + apply Ht.
    + apply Hf.
    + by apply output_message_flags_ok, Ht.
    + by apply Hbin.
    + apply Ht.
  - destruct (negb (is_empty (ms_subject message))); [|constructor]. apply Forall_singleton. plain; [apply Ht|apply Hf].
  - destruct associated; [|constructor]. destruct (associated_display_ok message Ht Hc Hf). apply Forall_singleton. by plain.
  - destruct (has_sender message) eqn:E; [|constructor]. destruct (cf_sender _ Hf E), (mt_sender _ Ht).
    assert (string_ok (chars "SMTP") /\ value_fits (WriterValue.Unicode (chars "SMTP"))) as [Hsm Hsf].
    { split; [|by apply value_fits_units; vm_compute]. change (chars "SMTP") with [83; 77; 84; 80].
      repeat (apply Forall_cons_2; [unfold char_ok; lia|]). apply Forall_nil_2. }
    repeat apply Forall_cons_2; try apply Forall_nil_2; by plain.
  - destruct (ms_body_text message) as [body|] eqn:E; [|constructor]. apply Forall_singleton. plain; [by apply (mt_text _ Ht)|by apply (cf_text _ Hf)].
  - destruct (ms_body_html message) as [body|] eqn:E; [|constructor]. apply Forall_singleton. plain. apply Hbin. by apply (cf_html _ Hf).
Qed.

Lemma trailing_properties_ok message : message_typed message -> context_fits message -> Forall property_ok (trailing_properties message).
Proof.
  intros Ht Hf. unfold trailing_properties. rewrite !Forall_app. split_and!.
  - destruct (ms_native_body message) as [[]|]; [| | |constructor]; apply Forall_singleton; by plain.
  - destruct (ms_internet_headers message) as [s|] eqn:E; [|constructor]. apply Forall_singleton. plain; [by apply (mt_headers _ Ht)|by apply (cf_headers _ Hf)].
  - apply Forall_singleton. plain. pose proof (mt_times _ Ht) as H. by inversion H.
  - by apply display_properties_ok.
Qed.

(** The properties of a validated message are fit for a context. *)
Lemma message_properties_ok message associated named key size ps : validated_fields message -> message_typed message ->
  sint 32 size -> len key = 16 -> message_properties message associated named key size = Ok ps -> Forall property_ok ps.
Proof.
  intros [_ Hc Hb Hs] Ht Hsize Hkey (rtf & nm & Hr & Hn & ->)%message_properties_parts. apply context_fits_ok in Hs.
  unfold managed_properties. rewrite !Forall_app. split_and!.
  - apply header_properties_ok; [done..|]. unfold binary_fits, MAX_PST_PROPERTY_BYTES. lia.
  - pose proof (rtf_properties_fits message rtf Hr Hb) as Hrf. unfold rtf_properties in Hr.
    destruct (ms_body_rtf message); [apply rbind_ok in Hr as (c & _ & Hr)|]; apply ok_inj in Hr as <-.
    + rewrite !Forall_cons in Hrf. destruct Hrf as (H1 & H2 & _). repeat constructor; by plain.
    + destruct (message_has_streamed_property _ _); [|constructor]. apply Forall_singleton. by plain.
  - by apply trailing_properties_ok.
  - apply named_properties_ok in Hn. apply Forall_forall. intros q Hq. apply list_elem_of_lookup in Hq as [i Hi].
    destruct (Forall2_lookup_r _ _ _ _ _ Hn Hi) as (p & Hp & Hv & j & _ & Hid & Hlt). apply list_elem_of_lookup_2 in Hp.
    destruct q as [id v]. cbn in Hv, Hid, Hlt. subst v id.
    apply (raw_property_ok (mk_RawProperty (0x8000 + Z.of_nat j) (nmp_value p))); cbn [rp_id rp_value]; [lia| |].
    + by apply (proj1 (Forall_forall _ _) (mt_named _ Ht)).
    + by apply (proj1 (Forall_forall _ _) (co_named_values _ Hc)).
  - unfold raw_properties. apply Forall_map. apply Forall_forall. intros p Hp. apply list_elem_of_In, filter_In in Hp as [Hp _].
    apply list_elem_of_In in Hp. destruct (proj1 (Forall_forall _ _) (mt_raw _ Ht) _ Hp) as [Hid Hv].
    destruct (proj1 (Forall_forall _ _) (co_raw_ids _ Hc) _ Hp) as [Hlt _].
    apply raw_property_ok; [lia|done|]. by apply (proj1 (Forall_forall _ _) (co_raw_values _ Hc)).
Qed.

(** ** How many properties there are *)

Lemma mapped_id_total named identity missing : identity ∈ named -> len named <= 0x8000 ->
  exists id, mapped_id named identity missing = Ok id.
Proof.
  intros Hp Hl. destruct (named_identity_index_some named identity Hp) as (i & Hi & Hlk). unfold mapped_id. rewrite Hi. cbn [ok_or rbind].
  apply lookup_lt_Some in Hlk. unfold len in Hl. unfold try_u16, uint_b, checked_add.
  rewrite (proj2 (Z.leb_le 0 (Z.of_nat i))), (proj2 (Z.ltb_lt (Z.of_nat i) (2 ^ 16))) by lia. cbn [andb fits ok_or rbind].
  rewrite (proj2 (Z.ltb_lt _ (2 ^ 16))) by lia. by eexists.
Qed.

Lemma named_properties_total named message : Forall (fun p => named_identity p ∈ named) (ms_named_properties message) ->
  len named <= 0x8000 -> exists nm, named_properties named message = Ok nm.
Proof.
  intros Hin Hl. unfold named_properties. induction Hin as [|p l Hp _ [nm IH]]; [by eexists|]. cbn [rmapM].
  destruct (mapped_id_total named (named_identity p) "named property is not mapped" Hp Hl) as [id ->]. cbn [rbind].
  rewrite IH. by eexists.
Qed.

Lemma rtf_properties_total message : validate_bodies message = Ok tt -> exists rtf, rtf_properties message = Ok rtf.
Proof.
  intros H. unfold rtf_properties. destruct (ms_body_rtf message) as [body|] eqn:E; [|by eexists].
  unfold validate_bodies in H. rewrite E in H. do 4 (apply rbind_ok in H as (? & _ & H)). apply rbind_ok in H as (? & H & _).
  cbn [if_some] in H. apply rbind_ok in H as (n & Hn & H). unfold validate_payload_len in H.
  destruct (Z.ltb_spec MAX_FIDELITY_PROPERTY_BYTES n) as [|Hle]; [done|]. destruct (rtf_container_correct body) as (c & Hc & _).
  - pose proof (rtf_container_short _ _ Hn). unfold MAX_FIDELITY_PROPERTY_BYTES in Hle. lia.
  - cbv zeta in Hc. rewrite Hc. by eexists.
Qed.

Lemma len_map {A B} (f : A -> B) l : len (map f l) = len l.
Proof. unfold len. by rewrite length_map. Qed.

Lemma len_option_map {A B} (f : A -> B) o : len (option_list (f <$> o)) = len (option_list o).
Proof. by destruct o. Qed.

Lemma display_count recipients : Forall (fun r => rs_display_name r <> []) recipients ->
  len (display_recipient_properties recipients) =
  len (List.filter (fun rs => negb (is_empty rs)) (map (fun kind => recipients_of kind recipients) kinds)).
Proof.
  intros Hr. assert (He : forall kind, is_empty (join (chars "; ") (map rs_display_name (recipients_of kind recipients))) =
    is_empty (recipients_of kind recipients)).
  { intros kind. destruct (recipients_of kind recipients) as [|r l] eqn:E; [done|]. cbn [map is_empty].
    assert (rs_display_name r <> []) as Hne.
    { assert (r ∈ recipients_of kind recipients) as Hin by (rewrite E; by left).
      apply list_elem_of_In, filter_In in Hin as [Hin%list_elem_of_In _]. by apply (proj1 (Forall_forall _ _) Hr). }
    destruct l as [|r' l]; cbn [map join]; destruct (rs_display_name r); done. }
  unfold display_recipient_properties, kinds. cbn [omap list_omap map List.filter]. rewrite !He.
  destruct (is_empty (recipients_of To recipients)), (is_empty (recipients_of Cc recipients)), (is_empty (recipients_of Bcc recipients)); done.
Qed.

Lemma len_raw_properties message : len (raw_properties false message) = len (ms_raw_properties message).
Proof.
  unfold raw_properties, len. rewrite length_map. f_equal. induction (ms_raw_properties message) as [|p l IH]; [done|].
  cbn [List.filter]. change (negb (false && (rp_id p =? 0x3001))) with true. cbn [length]. by rewrite IH.
Qed.

Lemma message_property_count_eq message named key size ps : Forall (fun r => rs_display_name r <> []) (ms_recipients message) ->
  message_properties message false named key size = Ok ps ->
  message_property_count message = len ps + len (streamed_ids message).
Proof.
  intros Hr (rtf & nm & Hrtf & Hn%named_properties_ok & ->)%message_properties_parts. apply Forall2_length in Hn.
  unfold managed_properties, header_properties, trailing_properties, message_property_count, streamed_ids.
  rewrite !len_app, !len_option_map, display_count, len_raw_properties by done.
  assert (Hl : len rtf = match ms_body_rtf message with
    | Some _ => 2 | None => count_if (message_has_streamed_property message 0x1009) 1 end).
  { unfold rtf_properties in Hrtf. destruct (ms_body_rtf message); [apply rbind_ok in Hrtf as (c & _ & Hrtf)|];
      apply ok_inj in Hrtf as <-; [done|]. by destruct (message_has_streamed_property _ _). }
  rewrite Hl, !len_map.
  destruct (has_sender message), (negb (is_empty (ms_subject message))); unfold count_if, len in *; cbn [length]; lia.
Qed.

(** ** Messages that pass *)

Lemma fields_recipients message depth : validate_fields message depth = Ok tt ->
  Forall (fun r => rs_display_name r <> []) (ms_recipients message).
Proof.
  unfold validate_fields. intros H. do 9 (apply rbind_ok in H as (? & _ & H)). apply for_each_ok in H.
  eapply Forall_impl; [exact H|]. intros r (? & Hr%reject_if_ok & _)%rbind_ok. by destruct (rs_display_name r).
Qed.

(** C12: When [validate_message] accepts a message whose names are in the map
    of the store, its properties can be made; all of them are fit for a
    property context, and no two share an id, whatever the message is
    associated with. The ids of the properties that are streamed are new as
    well, but for one case: an associated message, whose display name the
    writer makes, may have its display name streamed too. For a normal
    message the number of properties that was compared with the limit is
    exactly that of the properties it gets. *)
Theorem validated_message_properties (sha256 : list Z -> list Z) (message : MessageSpec) (depth : Z) (associated : bool)
  (named : list NamedIdentity) (key : list Z) (size : Z)
  (Hv : validate_message sha256 message depth = Ok tt) (Ht : message_typed message)
  (Hin : Forall (fun p => named_identity p ∈ named) (ms_named_properties message)) (Hl : len named <= 0x8000)
  (Hkey : len key = 16) (Hsize : sint 32 size) :
  exists ps, message_properties message associated named key size = Ok ps /\ Forall property_ok ps /\ NoDup (map fst ps) /\
    (NoDup (map fst ps ++ streamed_ids message) <-> ~ (associated = true /\ 0x3001 ∈ streamed_ids message)) /\
    (associated = false -> message_property_count message = len ps + len (streamed_ids message)).
Proof.
  pose proof (validate_message_fields _ _ _ Hv) as Hf.
  destruct (rtf_properties_total message (vf_bodies _ Hf)) as [rtf Hr].
  destruct (named_properties_total named message Hin Hl) as [nm Hn].
  assert (exists ps, message_properties message associated named key size = Ok ps) as [ps Hps].
  { unfold message_properties. rewrite Hr, Hn. by eexists. }
  exists ps. split_and!; [done|by eapply message_properties_ok|by eapply message_ids_nodup|by eapply all_ids_nodup|].
  intros ->. eapply message_property_count_eq; [|done]. destruct message. cbn [validate_message] in Hv.
  apply rbind_ok in Hv as ([] & Hv & _). by eapply fields_recipients.
Qed.

(** A mail with a name, a raw property, recipients of two kinds and a
    streamed body. *)
Definition sample_mail : MessageSpec :=
  mk_MessageSpec (chars "IPM.Note") 1 65001 (chars "Subject") (chars "A") (chars "a@example.org")
    [mk_RecipientSpec To (chars "B") (chars "b@example.org"); mk_RecipientSpec To (chars "C") (chars "c@example.org");
     mk_RecipientSpec Cc (chars "D") (chars "d@example.org")] 5 6 7 8
    None (Some (chars "<p>")) (Some (chars "{\rtf1}")) (Some Html) true (Some (chars "X: 1")) []
    [mk_NamedProperty NamedPropertySet.Mapi (NamedPropertyName.Numeric 0x8005) (RawPropertyValue.Integer32 7)]
    [mk_RawProperty 0x0070 (RawPropertyValue.Unicode (chars "Topic"))] []
    [mk_DirectPropertySpec 0x1000 0x1F (mk_DirectBlobSpec 1 9000 None)] [].

Lemma string_ok_ascii s : forallb (fun c => (0 <? c) && (c <? 0xD800)) s = true -> string_ok s.
Proof.
  intros H. unfold string_ok. apply Forall_forall. intros c Hc. apply list_elem_of_In in Hc.
  pose proof (proj1 (forallb_forall _ _) H c Hc) as Hb. apply andb_true_iff in Hb as [H1%Z.ltb_lt H2%Z.ltb_lt]. unfold char_ok. lia.
Qed.

Lemma sample_mail_typed : message_typed sample_mail.
Proof.
  assert (forall n, -100000 <= n <= 100000 -> sint 32 n /\ sint 64 n) as Hs by (unfold sint; lia).
  constructor; cbn.
  - by apply string_ok_ascii.
  - apply Hs. lia.
  - apply Hs. lia.
  - by apply string_ok_ascii.
  - split; by apply string_ok_ascii.
  - repeat apply Forall_cons_2; try apply Forall_nil_2; split; by apply string_ok_ascii.
  - repeat apply Forall_cons_2; try apply Forall_nil_2; apply Hs; lia.
  - done.
  - intros s [= <-]. by apply string_ok_ascii.
  - apply Forall_singleton. apply Hs. lia.
  - apply Forall_singleton. split; [done|]. by apply string_ok_ascii.
  - apply Forall_singleton. unfold uint. lia.
Qed.

Lemma validated_message_properties_witness :
  exists ps, message_properties sample_mail false [(NamedPropertySet.Mapi, NamedPropertyName.Numeric 0x8005)] (replicate 16 1) 0 = Ok ps /\
    NoDup (map fst ps ++ [0x1000]) /\ length ps = 27%nat.
Proof.
  set (named := [(NamedPropertySet.Mapi, NamedPropertyName.Numeric 0x8005)]).
  destruct (validated_message_properties (fun _ => []) sample_mail 0 false named (replicate 16 1) 0) as (ps & Hps & _ & _ & Hnd & _).
  - vm_compute. reflexivity.
  - exact sample_mail_typed.
  - apply Forall_singleton. left.
  - vm_compute. discriminate.
  - reflexivity.
  - unfold sint. lia.
  - exists ps. split; [exact Hps|]. split.
    + apply Hnd. intros [H _]. discriminate H.
    + vm_compute in Hps. injection Hps as <-. reflexivity.
Defined.

(** ** The properties of an attachment *)

Record attachment_typed (attachment : AttachmentSpec) : Prop := mk_attachment_typed {
  at_filename : string_ok (as_filename attachment);
  at_texts : Forall string_ok (option_list (as_mime_type attachment) ++ option_list (as_content_id attachment) ++
                               option_list (as_content_location attachment));
  at_position : sint 32 (default (-1) (as_rendering_position attachment));
  at_flags : sint 32 (as_flags attachment);
  at_raw : Forall (fun p => 0 <= rp_id p /\ writer_value_ok (raw_property_value (rp_value p))) (as_raw_properties attachment);
  at_reference : match as_content attachment with
                 | AC_Reference r => Forall string_ok (ars_long_pathname r :: option_list (ars_pathname r) ++ option_list (ars_provider_type r))
                 | _ => True
                 end
}.

Record attachment_valid (message : MessageSpec) (attachment : AttachmentSpec) : Prop := mk_attachment_valid {
  av_header : validate_attachment_header message attachment = Ok tt;
  av_properties : validate_attachment_properties attachment = Ok tt;
  av_reference : match as_content attachment with AC_Reference r => validate_reference r = Ok tt | _ => True end
}.

Lemma validate_message_attachments sha256 message depth attachment : validate_message sha256 message depth = Ok tt ->
  attachment ∈ ms_attachments message -> attachment_valid message attachment.
Proof.
  destruct message as [cl fl cp su sn se re t1 t2 t3 t4 bt bh br nb sy ih at_ na ra sp di un].
  cbn [validate_message ms_attachments]. intros H Hin. do 3 (apply rbind_ok in H as (? & _ & H)). apply rbind_ok in H as ([] & H & _).
  apply (for_each_ok (A := AttachmentSpec)) in H. rewrite Forall_forall in H. specialize (H _ Hin). cbn beta in H.
  apply rbind_ok in H as ([] & Hh & H). apply rbind_ok in H as ([] & Hp & H). apply rbind_ok in H as ([] & Hc & _).
  constructor; [done..|]. unfold validate_content in Hc. by destruct (as_content attachment).
Qed.

Definition attachment_streamed_ids (attachment : AttachmentSpec) : list Z :=
  map sps_id (as_spooled_properties attachment) ++ map dps_id (as_direct_properties attachment).

(** What the checks say of the properties that an attachment is given. *)
Record attachment_custom (attachment : AttachmentSpec) : Prop := mk_attachment_custom {
  ac_ids : NoDup (attachment_ids attachment);
  ac_raw : Forall (fun p => rp_id p < 0x8000 /\ explicit_attachment_property (rp_id p) = false /\
                            validate_raw_value (rp_value p) = Ok tt) (as_raw_properties attachment);
  ac_streamed : Forall (fun id => ole_attachment_property id = true) (attachment_streamed_ids attachment);
  ac_reference : match as_content attachment with
                 | AC_Reference _ => as_raw_properties attachment = [] /\ attachment_streamed_ids attachment = []
                 | _ => True
                 end
}.

Lemma attachment_streamed_ok attachment what id ty blob :
  validate_attachment_streamed attachment what id ty blob = Ok tt ->
  binary_metadata_attachment attachment = true /\ ole_attachment_property id = true.
Proof.
  unfold validate_attachment_streamed. intros (? & H%reject_if_ok & _)%rbind_ok.
  apply orb_false_iff in H as [H _]. apply orb_false_iff in H as [H1 H2]. by apply negb_false_iff in H1, H2.
Qed.

Lemma attachment_raw_ok attachment p : is_ok (validate_attachment_raw attachment p) = true ->
  rp_id p < 0x8000 /\ explicit_attachment_property (rp_id p) = false /\ validate_raw_value (rp_value p) = Ok tt.
Proof.
  destruct (validate_attachment_raw attachment p) as [n| |] eqn:E; [|done..]. intros _. unfold validate_attachment_raw in E. cbv zeta in E.
  apply rbind_ok in E as (? & Hid%reject_if_ok & E). apply rbind_ok in E as (? & _ & E). apply rbind_ok in E as ([] & Hv & _).
  apply orb_false_iff in Hid as [Hid He]. apply orb_false_iff in Hid as [_ Hid]. apply Z.leb_gt in Hid. by split_and!.
Qed.

Lemma attachment_custom_ok message attachment : attachment_valid message attachment -> attachment_custom attachment.
Proof.
  intros [Hh Hp Hr]. unfold validate_attachment_header in Hh. do 6 (apply rbind_ok in Hh as (? & _ & Hh)).
  apply rbind_ok in Hh as (? & Hkind%reject_if_ok & Hh). do 3 (apply rbind_ok in Hh as (? & _ & Hh)). apply reject_if_ok in Hh.
  unfold validate_attachment_properties in Hp. apply rbind_ok in Hp as (raw & Hraw%sum_sizes_ok & Hp).
  apply rbind_ok in Hp as ([] & Hs%for_each_ok & Hp). apply rbind_ok in Hp as ([] & Hd%for_each_ok & _).
  constructor.
  - by apply (no_adjacent_equal Z.compare).
  - eapply Forall_impl; [exact Hraw|]. intros p. apply attachment_raw_ok.
  - apply Forall_app; split; apply Forall_map; eapply Forall_impl; [exact Hs| |exact Hd|]; cbn; by intros p [_ ?]%attachment_streamed_ok.
  - destruct (as_content attachment) eqn:E; try done. split.
    + unfold binary_metadata_attachment, embedded_calendar_exception in Hkind. rewrite E in Hkind.
      destruct (as_raw_properties attachment); [done|]. cbn in Hkind. by rewrite orb_true_r in Hkind.
    + unfold attachment_streamed_ids. destruct (as_spooled_properties attachment) as [|p l].
      * destruct (as_direct_properties attachment) as [|p l]; [done|]. apply Forall_inv, attachment_streamed_ok in Hd as [Hd _].
        unfold binary_metadata_attachment in Hd. by rewrite E in Hd.
      * apply Forall_inv, attachment_streamed_ok in Hs as [Hs _]. unfold binary_metadata_attachment in Hs. by rewrite E in Hs.
Qed.

(** The properties of an attachment but for the raw ones. *)
Definition attachment_fixed (attachment : AttachmentSpec) (number method size : Z) (data : option WriterValue.t) : list Property :=
  [(0x0E20, WriterValue.Integer32 size); (0x0E21, WriterValue.Integer32 number);
   (0x3704, WriterValue.Unicode (as_filename attachment)); (0x3705, WriterValue.Integer32 method);
   (0x3707, WriterValue.Unicode (as_filename attachment));
   (0x370B, WriterValue.Integer32 (default (-1) (as_rendering_position attachment)))] ++
  optional_text 0x370E (as_mime_type attachment) ++ optional_text 0x3712 (as_content_id attachment) ++
  optional_text 0x3713 (as_content_location attachment) ++
  [(0x3714, WriterValue.Integer32 (as_flags attachment))] ++ option_list ((fun data => (0x3701, data)) <$> data).

Definition attachment_order : list Z :=
  [0x0E20; 0x0E21; 0x3704; 0x3705; 0x3707; 0x370B; 0x370E; 0x3712; 0x3713; 0x3714; 0x3701].

Lemma attachment_fixed_ids attachment number method size data :
  map fst (attachment_fixed attachment number method size data) `sublist_of` attachment_order.
Proof.
  unfold attachment_fixed, optional_text. rewrite !map_app.
  change attachment_order with ([0x0E20; 0x0E21; 0x3704; 0x3705; 0x3707; 0x370B] ++ [0x370E] ++ [0x3712] ++ [0x3713] ++ [0x3714] ++ [0x3701]).
  repeat (apply sublist_app; [first [by apply ids_option | done]|]). by apply ids_option.
Qed.

Lemma attachment_fixed_explicit attachment number method size data id :
  id ∈ map fst (attachment_fixed attachment number method size data) -> explicit_attachment_property id = true /\ 0 <= id < 0x8000.
Proof.
  intros H. pose proof (sublist_submseteq _ _ (attachment_fixed_ids attachment number method size data)) as Hs.
  apply (elem_of_submseteq _ _ _ H) in Hs. revert id H Hs.
  assert (Forall (fun id => explicit_attachment_property id = true /\ 0 <= id < 0x8000) attachment_order) as Hall.
  { unfold attachment_order. repeat (apply Forall_cons_2; [split; [by vm_compute|lia]|]). apply Forall_nil_2. }
  intros id _ Hs. by apply (proj1 (Forall_forall _ _) Hall).
Qed.

Lemma short_unicode_fits name s : validate_unicode name s = Ok tt -> value_fits (WriterValue.Unicode s).
Proof.
  unfold validate_unicode. destruct (Z.ltb_spec 2048 (len (encode_utf16 s))) as [|H]; [done|]. intros _.
  apply value_fits_units. unfold units, MAX_PST_PROPERTY_BYTES. lia.
Qed.

Lemma optional_fits empty name o s : optional_unicode empty name o = Ok tt -> o = Some s -> value_fits (WriterValue.Unicode s).
Proof. intros H ->. apply rbind_ok in H as (? & _ & H). by eapply short_unicode_fits. Qed.

Lemma attachment_fixed_ok message attachment number method size data :
  attachment_valid message attachment -> attachment_typed attachment -> sint 32 number -> sint 32 method -> sint 32 size ->
  (forall v, data = Some v -> property_ok (0x3701, v)) ->
  Forall property_ok (attachment_fixed attachment number method size data).
Proof.
  intros [Hh _ _] Ht Hn Hm Hs Hd. pose proof (at_texts _ Ht) as Htexts. rewrite !Forall_app in Htexts. destruct Htexts as (Hmime & Hcid & Hloc).
  unfold validate_attachment_header in Hh. apply rbind_ok in Hh as (? & _ & Hh). apply rbind_ok in Hh as ([] & Hfn%short_unicode_fits & Hh).
  apply rbind_ok in Hh as ([] & H1 & Hh). apply rbind_ok in Hh as ([] & H2 & Hh). apply rbind_ok in Hh as ([] & H3 & _).
  assert (Hopt : forall id o empty name, 0 <= id < 2 ^ 16 -> optional_unicode empty name o = Ok tt ->
    Forall string_ok (option_list o) -> Forall property_ok (optional_text id o)).
  { intros id [s|] empty name Hid Ho Hstr; [|constructor]. apply Forall_inv in Hstr. apply Forall_singleton. plain. by eapply optional_fits. }
  unfold attachment_fixed. rewrite !Forall_app. split_and!.
  - pose proof (at_filename _ Ht). pose proof (at_position _ Ht).
    repeat (apply Forall_cons_2; [by plain|]). apply Forall_nil_2.
  - eapply Hopt; [lia|exact H1|done].
  - eapply Hopt; [lia|exact H2|done].
  - eapply Hopt; [lia|exact H3|done].
  - apply Forall_singleton. plain. apply Ht.
  - destruct data as [v|]; [|constructor]. apply Forall_singleton. by apply Hd.
Qed.

Lemma attachment_mapped_parts attachment number method size data named ps :
  attachment_properties_mapped attachment number method size data named = Ok ps ->
  exists reference, ps ≡ₚ attachment_fixed attachment number method size data ++ map raw_property (as_raw_properties attachment) ++ reference /\
    match as_content attachment with AC_Reference r => reference_properties named r | _ => Ok [] end = Ok reference.
Proof.
  unfold attachment_properties_mapped. intros (reference & Hr & H)%rbind_ok. apply ok_inj in H as <-. exists reference. split; [|done].
  unfold attachment_base_properties, attachment_fixed.
  generalize (optional_text 0x370E (as_mime_type attachment)) (optional_text 0x3712 (as_content_id attachment))
    (optional_text 0x3713 (as_content_location attachment)) (option_list ((fun data => (0x3701, data)) <$> data))
    (map raw_property (as_raw_properties attachment)). intros. solve_Permutation.
Qed.

(** ** References *)

Definition reference_names : list (list Z) :=
  [ATTACHMENT_PROVIDER_TYPE; ATTACHMENT_ORIGINAL_PERMISSION_TYPE; ATTACHMENT_PERMISSION_TYPE].

Definition reference_identity (name : list Z) : NamedIdentity := (NamedPropertySet.Guid PSETID_ATTACHMENT, NamedPropertyName.String name).

Lemma reference_values_names reference : map fst (reference_values reference) `sublist_of` reference_names.
Proof.
  unfold reference_values, reference_names. rewrite !map_app.
  destruct (ars_provider_type reference), (ars_original_permission reference), (ars_permission reference); cbn;
    repeat first [apply sublist_skip|apply sublist_cons|apply sublist_nil_l].
Qed.

Lemma reference_values_nodup reference : NoDup (map fst (reference_values reference)).
Proof. eapply sublist_NoDup; [|apply reference_values_names]. apply (bool_decide_unpack _). by vm_compute. Qed.

Lemma reference_names_eq reference :
  map reference_identity (map fst (reference_values reference)) =
  map (fun name => (NamedPropertySet.Guid PSETID_ATTACHMENT, name)) (reference_named_property_names reference).
Proof.
  unfold reference_values, reference_named_property_names.
  by destruct (ars_provider_type reference), (ars_original_permission reference), (ars_permission reference).
Qed.

Lemma reference_values_ok reference : validate_reference reference = Ok tt ->
  Forall string_ok (option_list (ars_provider_type reference)) ->
  Forall (fun p => writer_value_ok p.2 /\ value_fits p.2 /\ is_external p.2 = false) (reference_values reference).
Proof.
  intros Hr Hs. unfold validate_reference in Hr. do 3 (apply rbind_ok in Hr as (? & _ & Hr)).
  apply rbind_ok in Hr as ([] & Hp & Hr). cbv zeta in Hr. apply rbind_ok in Hr as (? & _ & Hr). apply reject_if_ok in Hr.
  assert (Hperm : forall n, n ∈ option_list (ars_original_permission reference) ++ option_list (ars_permission reference) -> sint 32 n).
  { intros n Hn. apply list_elem_of_In in Hn. pose proof (existsb_exists (fun value => negb (in_range 0 2 value))
      (option_list (ars_original_permission reference) ++ option_list (ars_permission reference))) as [_ H].
    destruct (in_range 0 2 n) eqn:E; [unfold in_range, sint in *; lia|]. rewrite H in Hr; [done|]. exists n. by rewrite E. }
  unfold reference_values. rewrite !Forall_app. split_and!.
  - destruct (ars_provider_type reference) as [s|] eqn:E; [|constructor]. apply Forall_singleton. apply Forall_inv in Hs.
    split_and!; [done| |done]. by eapply optional_fits.
  - destruct (ars_original_permission reference) as [n|]; [|constructor]. apply Forall_singleton.
    split_and!; [|by apply fixed_fits|done]. apply Hperm. by left.
  - destruct (ars_permission reference) as [n|]; [|constructor]. apply Forall_singleton.
    split_and!; [|by apply fixed_fits|done]. apply Hperm, elem_of_app. right. by left.
Qed.

(** The properties with names of a reference. *)
Lemma reference_property_ok named nv q : reference_property named nv = Ok q ->
  q.2 = nv.2 /\ exists i, named !! i = Some (reference_identity nv.1) /\ q.1 = 0x8000 + Z.of_nat i /\ q.1 < 2 ^ 16.
Proof. unfold reference_property. intros (id & Hid & H)%rbind_ok. apply ok_inj in H as <-. split; [done|]. by eapply mapped_id_ok. Qed.

Lemma reference_named_total named reference :
  Forall (fun name => (NamedPropertySet.Guid PSETID_ATTACHMENT, name) ∈ named) (reference_named_property_names reference) ->
  len named <= 0x8000 -> exists nm, rmapM (reference_property named) (reference_values reference) = Ok nm.
Proof.
  intros Hn Hl. assert (Forall (fun nv => reference_identity nv.1 ∈ named) (reference_values reference)) as Hin.
  { assert (Forall (fun i => i ∈ named) (map reference_identity (map fst (reference_values reference)))) as H
      by (rewrite reference_names_eq; by apply Forall_map). by rewrite !Forall_map in H. }
  clear -Hin Hl. induction Hin as [|nv l Hp _ [nm IH]]; [by eexists|]. cbn [rmapM].
  destruct (mapped_id_total named _ "reference attachment named property is not mapped" Hp Hl) as [id Hid].
  unfold reference_property at 1. unfold reference_identity in Hid. rewrite Hid. cbn [rbind]. rewrite IH. by eexists.
Qed.

Lemma reference_named_ok named reference nm :
  rmapM (reference_property named) (reference_values reference) = Ok nm ->
  Forall (fun p => writer_value_ok p.2 /\ value_fits p.2 /\ is_external p.2 = false) (reference_values reference) ->
  Forall property_ok nm /\ NoDup (map fst nm) /\ Forall (fun id => 0x8000 <= id) (map fst nm).
Proof.
  intros Hnm%rmapM_Forall2 Hvals. split_and!.
  - eapply Forall2_Forall_r; [exact Hnm|]. eapply Forall_impl; [exact Hvals|]. intros nv (Hv & Hf & Hx) [id v] Hq.
    apply reference_property_ok in Hq as (Hqv & i & _ & Hid & Hlt). cbn [fst snd] in *. subst v id. apply plain_property; [lia|done..].
  - eapply (NoDup_Forall2 fst); [exact Hnm| |apply reference_values_nodup]. intros [n1 v1] q1 [n2 v2] q2 H1 H2 Heq.
    apply reference_property_ok in H1 as (_ & i & Hi & Hq1 & _), H2 as (_ & j & Hj & Hq2 & _). cbn [fst] in *.
    replace j with i in Hj by lia. rewrite Hi in Hj. by injection Hj.
  - apply Forall_map. eapply Forall2_Forall_r; [exact Hnm|]. apply Forall_forall. intros nv _ q Hq.
    apply reference_property_ok in Hq as (_ & i & _ & Hid & _). cbn. lia.
Qed.

Lemma reference_properties_ok named reference : validate_reference reference = Ok tt ->
  Forall string_ok (ars_long_pathname reference :: option_list (ars_pathname reference) ++ option_list (ars_provider_type reference)) ->
  Forall (fun name => (NamedPropertySet.Guid PSETID_ATTACHMENT, name) ∈ named) (reference_named_property_names reference) ->
  len named <= 0x8000 ->
  exists ps, reference_properties named reference = Ok ps /\ Forall property_ok ps /\ NoDup (map fst ps) /\
    Forall (fun id => id = 0x370D \/ id = 0x3708 \/ 0x8000 <= id) (map fst ps).
Proof.
  intros Hr Hs Hn Hl. apply Forall_cons in Hs as [Hlong Hs]. apply Forall_app in Hs as [Hpath Hprov].
  destruct (reference_named_total named reference Hn Hl) as [nm Hnm].
  destruct (reference_named_ok named reference nm Hnm (reference_values_ok reference Hr Hprov)) as (Hok & Hnd & Hid).
  exists ((0x370D, WriterValue.Unicode (ars_long_pathname reference)) :: optional_text 0x3708 (ars_pathname reference) ++ nm).
  split; [unfold reference_properties; by rewrite Hnm|]. unfold validate_reference in Hr. apply rbind_ok in Hr as (? & _ & Hr).
  apply rbind_ok in Hr as ([] & Hlu%short_unicode_fits & Hr). apply rbind_ok in Hr as ([] & Hpu & _).
  rewrite Forall_forall in Hid. cbn [map fst]. rewrite map_app.
  destruct (ars_pathname reference) as [s|]; cbn [optional_text option_list fmap option_fmap option_map map fst app].
  - apply Forall_inv in Hpath. pose proof (optional_fits _ _ _ _ Hpu eq_refl) as Hf. split_and!.
    + apply Forall_cons_2; [by plain|]. apply Forall_cons_2; [by plain|done].
    + apply NoDup_cons. split; [|apply NoDup_cons; split; [|done]].
      * intros [Hx|Hx]%elem_of_cons; [done|]. by apply Hid in Hx.
      * intros Hx. by apply Hid in Hx.
    + apply Forall_cons_2; [by left|]. apply Forall_cons_2; [by right; left|]. apply Forall_forall. intros y Hy. right. right. by apply Hid.
  - split_and!.
    + apply Forall_cons_2; [by plain|done].
    + apply NoDup_cons. split; [|done]. intros Hx. by apply Hid in Hx.
    + apply Forall_cons_2; [by left|]. apply Forall_forall. intros y Hy. right. right. by apply Hid.
Qed.

Lemma reference_value_ids id : ole_attachment_property id = true -> id = 0x3702 \/ id = 0x3709 \/ id = 0x370A.
Proof. intros H%existsb_eqb. revert H. rewrite !elem_of_cons, elem_of_nil. tauto. Qed.

Lemma attachment_order_nodup : NoDup attachment_order.
Proof. apply (bool_decide_unpack _). by vm_compute. Qed.

Lemma attachment_all_nodup attachment number method size data reference : attachment_custom attachment -> NoDup (map fst reference) ->
  Forall (fun id => id = 0x370D \/ id = 0x3708 \/ 0x8000 <= id) (map fst reference) ->
  (reference <> [] -> as_raw_properties attachment = [] /\ attachment_streamed_ids attachment = []) ->
  NoDup (map fst (attachment_fixed attachment number method size data) ++ map rp_id (as_raw_properties attachment) ++
         map (@fst Z WriterValue.t) reference ++ attachment_streamed_ids attachment).
Proof.
  intros [Hids Hraw Hstr _] Hrnd Hrid Hre. rewrite !Forall_forall in Hrid, Hstr. rewrite Forall_forall in Hraw. apply NoDup_app. split_and!.
  - eapply sublist_NoDup; [apply attachment_order_nodup|apply attachment_fixed_ids].
  - intros id [He Hb]%attachment_fixed_explicit [Hx|[Hx|Hx]%elem_of_app]%elem_of_app.
    + apply list_elem_of_fmap in Hx as (p & -> & Hp). apply Hraw in Hp as (_ & Hp & _). congruence.
    + apply Hrid in Hx. destruct_or! Hx; [subst; by vm_compute in He..|lia].
    + apply Hstr, reference_value_ids in Hx. destruct_or! Hx; subst; by vm_compute in He.
  - destruct reference as [|q reference]; [done|]. destruct (Hre ltac:(done)) as [-> ->]. by rewrite app_nil_r.
Qed.

(** C40: The properties of every attachment of a message that
    [validate_message] accepts can be made, with any content, once the names
    of its reference are in the map of the store; all of them are fit for a
    property context, and no two share an id, those that are streamed
    included. *)
Theorem validated_attachment_properties (sha256 : list Z -> list Z) (message : MessageSpec) (depth : Z) (attachment : AttachmentSpec)
  (number method size : Z) (data : option WriterValue.t) (named : list NamedIdentity)
  (Hv : validate_message sha256 message depth = Ok tt) (Hin : attachment ∈ ms_attachments message) (Ht : attachment_typed attachment)
  (Hnumbers : sint 32 number /\ sint 32 method /\ sint 32 size) (Hdata : forall v, data = Some v -> property_ok (0x3701, v))
  (Hnames : match as_content attachment with
            | AC_Reference r => Forall (fun name => (NamedPropertySet.Guid PSETID_ATTACHMENT, name) ∈ named) (reference_named_property_names r)
            | _ => True
            end) (Hl : len named <= 0x8000) :
  exists ps, attachment_properties_mapped attachment number method size data named = Ok ps /\ Forall property_ok ps /\
    NoDup (map fst ps ++ attachment_streamed_ids attachment).
Proof.
  pose proof (validate_message_attachments _ _ _ _ Hv Hin) as Hav. pose proof (attachment_custom_ok _ _ Hav) as Hac.
  assert (exists reference, match as_content attachment with AC_Reference r => reference_properties named r | _ => Ok [] end = Ok reference /\
    Forall property_ok reference /\ NoDup (map fst reference) /\ Forall (fun id => id = 0x370D \/ id = 0x3708 \/ 0x8000 <= id) (map fst reference) /\
    (reference <> [] -> as_raw_properties attachment = [] /\ attachment_streamed_ids attachment = [])) as (reference & Hr & Hrok & Hrnd & Hrid & Hre).
  { pose proof (at_reference _ Ht) as Hs. pose proof (av_reference _ _ Hav) as Hvr.
    destruct (as_content attachment) eqn:E; try (by exists []; split_and!; try constructor).
    destruct (reference_properties_ok named reference Hvr Hs Hnames Hl) as (ps & ? & ? & ? & ?). exists ps. pose proof (ac_reference _ Hac) as Hre.
    by rewrite E in Hre. }
  assert (exists ps, attachment_properties_mapped attachment number method size data named = Ok ps) as [ps Hps]
    by (unfold attachment_properties_mapped; rewrite Hr; by eexists).
  destruct (attachment_mapped_parts _ _ _ _ _ _ _ Hps) as (reference' & Hperm & Hr'). rewrite Hr in Hr'. apply ok_inj in Hr' as <-.
  exists ps. split; [done|]. rewrite Hperm. destruct Hnumbers as (Hn & Hm & Hsz).
  pose proof (attachment_fixed_ok message attachment number method size data Hav Ht Hn Hm Hsz Hdata) as Hfok. split.
  { rewrite !Forall_app. split_and!; [done| |done]. apply Forall_map, Forall_forall. intros p Hp.
    destruct (proj1 (Forall_forall _ _) (ac_raw _ Hac) _ Hp) as (Hlt & _ & Hval). destruct (proj1 (Forall_forall _ _) (at_raw _ Ht) _ Hp) as [H0 Hw].
    apply raw_property_ok; [lia|done..]. }
  rewrite !map_app, <- !app_assoc, (map_map raw_property fst). by apply attachment_all_nodup.
Qed.

(** An attachment with an encoding and a streamed tag. *)
Definition sample_binary : AttachmentSpec :=
  mk_AttachmentSpec (chars "f.bin") (Some (chars "text/plain")) None None None 0
    [mk_RawProperty 0x3702 (RawPropertyValue.Binary [1])] []
    [mk_DirectPropertySpec 0x370A 0x102 (mk_DirectBlobSpec 2 10 None)] (AC_Binary [1; 2; 3]).

Lemma sample_binary_typed : attachment_typed sample_binary.
Proof.
  constructor; [by apply string_ok_ascii|apply Forall_singleton; by apply string_ok_ascii|done|done|apply Forall_singleton; by split|done].
Qed.

Lemma validated_attachment_properties_witness :
  exists ps, attachment_properties_mapped sample_binary 0 1 0 (Some (WriterValue.Binary [1; 2; 3])) [] = Ok ps /\
    NoDup (map fst ps ++ [0x370A]).
Proof.
  destruct (validated_attachment_properties (fun _ => []) (sample_message [sample_binary] []) 0 sample_binary 0 1 0
    (Some (WriterValue.Binary [1; 2; 3])) []) as (ps & Hps & _ & Hnd).
  - vm_compute. reflexivity.
  - apply list_elem_of_singleton. reflexivity.
  - exact sample_binary_typed.
  - unfold sint. lia.
  - intros v [= <-]. apply plain_property; [lia|done| |done]. intros bytes Hb. injection Hb as <-. vm_compute. discriminate.
  - exact Logic.I.
  - vm_compute. discriminate.
  - exists ps. split; [exact Hps|exact Hnd].
Defined.
