(* ===== verification/WriterBuild.v ===== *)
(** * The blocks of a message

    [writer.rs]: [build_message_blocks] with the loops over streamed
    properties, [built_message_block_specs] and
    [MessageStreamState::append_message]: which nodes and blocks a message
    gets, what is streamed and what is kept until the end, and the size it is
    said to have. That a message can be projected without its payloads is
    shown in file WriterProject. *)
From S2P Require Import Prelude Errors Io Ids Block PropValue PropContext TableContext Order Alloc WriterBlocks WriterTree WriterHeap WriterValues WriterContext WriterSchema WriterTable MessageSpec WriterNamed WriterMessage WriterValidate.
#[local] Open Scope Z_scope.

Definition NID_RECIPIENT_TABLE_TEMPLATE : Z := 0x692.
Definition NID_ATTACHMENT_TABLE_TEMPLATE : Z := 0x671.
Definition MESSAGE_INDEX : Z := 0x10001.

(** [MessageBlocks] *)
Record MessageBlocks := mk_MessageBlocks {
  mb_property_data_block : UnicodeBlockId;
  mb_recipient_table : option (list Z);
  mb_recipient_table_referenced_by_message : bool;
  mb_attachment_table : list Z;
  mb_subnodes : list LeafEntry;
  mb_dynamic_blocks : list BlockSpec;
  mb_record_key : list Z;
  mb_message_size : Z;
  mb_streamed_logical_size : Z
}.

(** ** The state of the builder *)

(** The stream with the index of the next block, [next_value_node] and
    [direct_completions]. *)
Record BuildState := mk_BuildState {
  b_stream : WriteState;
  b_next_value : Z;
  b_completions : list (DirectBlobSpec * list Z)
}.

#[export] Instance BuildState_next : NextIndex BuildState := {|
  next_block_index s := ws_next (b_stream s);
  set_next_block_index n s := mk_BuildState (set_next_block_index n (b_stream s)) (b_next_value s) (b_completions s)
|}.

Definition on_stream {A} (m : W WriteState A) : W BuildState A := fun s =>
  let '(r, stream) := m (b_stream s) in (r, mk_BuildState stream (b_next_value s) (b_completions s)).

(** A builder that pushes to a vector of blocks, which are returned. *)
Definition with_blocks {A} (m : W VecState A) : W BuildState (A * list BlockSpec) := fun s =>
  let '(r, v) := m (mk_VecState (next_block_index s) []) in
  (let? a := r in Ok (a, vs_blocks v), set_next_block_index (vs_next v) s).

Definition set_next_value (n : Z) (s : BuildState) : BuildState := mk_BuildState (b_stream s) n (b_completions s).
Definition push_completion (c : DirectBlobSpec * list Z) (s : BuildState) : BuildState :=
  mk_BuildState (b_stream s) (b_next_value s) (b_completions s ++ [c]).

(** [node(kind, *next_value_node)] and its increment. *)
Definition next_value_node (kind : NodeIdType) (what : string) : W BuildState NodeId :=
  let^ n := w_get b_next_value in
  let^ id := w_lift (node kind n) in
  let^ next := w_lift (fits (checked_add 32 n 1) what) in
  let^ _ := w_modify (set_next_value next) in
  w_ret id.

(** [for (index, x) in xs.iter().enumerate() { .. }] over a state and the
    variables of the loop. *)
Fixpoint w_fold {S A P} (step : nat -> A -> P -> W S P) (index : nat) (l : list A) (p : P) : W S P :=
  match l with
  | [] => w_ret p
  | a :: l => let^ p := step index a p in w_fold step (Datatypes.S index) l p
  end.

Definition add_size (what : string) (total addition : Z) : W BuildState Z := w_lift (fits (checked_add 64 total addition) what).

Section build.
Context (sha256 : list Z -> list Z).
(** What opening a path gives: whether it is a regular file, and its
    contents. *)
Context (files : list Z -> wres (bool * list Z)).
(** [block_stream] is there; [direct_source]; [project_direct]. *)
Context (streaming : bool) (direct_source : option (DirectBlobSpec -> wres (list Z))) (project_direct : bool).
Context (named_identities : list NamedIdentity).

Definition need_stream (what : string) : W BuildState unit := w_lift (ensure streaming (InvalidStructure what)).

(** ** Payloads *)

Definition stream_spooled (blob : FileBlob) : W BuildState (UnicodeBlockId * Z) :=
  let^ file := w_lift (files (fb_path blob)) in
  on_stream (append_spooled_data_tree sha256 file.1 file.2 (fb_spec blob)).

Definition need_source (what : string) : W BuildState unit :=
  w_lift (ensure (project_direct || match direct_source with Some _ => true | None => false end) (InvalidStructure what)).

(** A direct payload, declared or read from its source, which was found to
    be there. *)
Definition stream_direct (blob : DirectBlobSpec) : W BuildState (UnicodeBlockId * Z) :=
  if project_direct then on_stream (append_declared_data_tree (dbs_byte_len blob))
  else match direct_source with
       | None => w_lift Panic
       | Some source =>
           let^ r := on_stream (append_direct_data_tree sha256 source blob) in
           let^ _ := w_modify (push_completion (blob, r.2)) in
           w_ret r.1
       end.

(** ** Streamed properties *)

(** The properties, sub-nodes and logical size that a loop over streamed
    properties adds to. *)
Definition Streamed : Type := list Property * list LeafEntry * Z.

(** The body of the loops of [append_spooled_properties],
    [append_direct_properties] and [append_declared_properties]. *)
Definition append_streamed (kind : string) (id property_type : Z) (payload : W BuildState (UnicodeBlockId * Z)) (r : Streamed) :
    W BuildState Streamed :=
  let '(properties, subnodes, logical_size) := r in
  let^ t := w_lift (rmap_err (fun _ => InvalidStructure (String.append "unsupported " (String.append kind " property type")))
                      (PropertyType.try_from property_type)) in
  let^ value_node := next_value_node ListsTablesProperties (String.append kind " property value node") in
  let^ root := payload in
  let^ logical_size := add_size "message size" logical_size root.2 in
  w_ret (properties ++ [(id, WriterValue.External t value_node)],
         subnodes ++ [LeafSubNodeTreeEntry.new value_node root.1 None], logical_size).

Definition append_spooled_properties (specs : list SpooledPropertySpec) (r : Streamed) : W BuildState Streamed :=
  w_fold (fun _ spec => append_streamed "streamed" (sps_id spec) (sps_property_type spec) (stream_spooled (sps_blob spec))) 0 specs r.

Definition append_direct_properties (specs : list DirectPropertySpec) (r : Streamed) : W BuildState Streamed :=
  w_fold (fun _ spec => append_streamed "direct" (dps_id spec) (dps_property_type spec) (stream_direct (dps_blob spec))) 0 specs r.

(** The loops, each entered when there are properties, and the addition of
    their sizes to that of the message. *)
Definition spooled_part (specs : list SpooledPropertySpec) (name : string) (r : Streamed) : W BuildState Streamed :=
  if is_empty specs then w_ret r else
  let^ _ := need_stream (String.append name " requires streaming output") in
  let^ r' := append_spooled_properties specs (r.1, 0) in
  let^ total := add_size "message size" r.2 r'.2 in
  w_ret (r'.1, total).

Definition direct_part (specs : list DirectPropertySpec) (name : string) (r : Streamed) : W BuildState Streamed :=
  if is_empty specs then w_ret r else
  let^ _ := need_stream (String.append name " requires streaming output") in
  let^ _ := need_source (String.append name " source is unavailable") in
  let^ r' := append_direct_properties specs (r.1, 0) in
  let^ total := add_size "message size" r.2 r'.2 in
  w_ret (r'.1, total).

(** ** Recipients *)

Record RecipientPart := mk_RecipientPart {
  rcp_table : option (list Z);
  rcp_referenced : bool;
  rcp_inline_size : Z;
  rcp_data_block : UnicodeBlockId;
  rcp_subnode_block : option UnicodeBlockId;
  rcp_blocks : list BlockSpec
}.

Definition recipient_part (columns : list TableColumnDescriptor) (rows : list TableRowSpec) (recipient_block : UnicodeBlockId) :
    W BuildState RecipientPart :=
  match table_context columns rows with
  | Ok table => w_ret (mk_RecipientPart (Some table) true (size_z table) recipient_block None [])
  | Err e =>
      if is_heap_page_too_large e then
        let^ next := w_get next_block_index in
        let '(r, next) := table_context_external columns rows next in
        let^ _ := w_modify (set_next_block_index next) in
        let^ external := w_lift r in
        let^ first := w_lift (leaf_bid 17) in
        let^ template :=
          if bool_decide (recipient_block = first) then let^ t := w_lift (table_context columns []) in w_ret (Some t) else w_ret None in
        w_ret (mk_RecipientPart template false 0 (etb_data_block external) (Some (etb_subnode_block external)) (etb_blocks external))
      else w_lift (Err e)
  | Panic => w_lift Panic
  end.

(** ** The content of an attachment *)

(** What the [match] over the content gives: the method, the data property,
    the sub-nodes and blocks of the attachment, the declared size of its
    stream and the size of the streams of the message so far. *)
Record ContentPart := mk_ContentPart {
  ctp_method : Z;
  ctp_data : option WriterValue.t;
  ctp_subnodes : list LeafEntry;
  ctp_streamed_size : option Z;
  ctp_blocks : list BlockSpec;
  ctp_total : Z
}.

(** [verify_empty_file_blob] *)
Definition verify_empty_file_blob (blob : FileBlob) : wres unit :=
  let? _ := refuse_if (negb (fbs_byte_len (fb_spec blob) =? 0)) "empty blob verification requires a zero-byte range" in
  let? file := files (fb_path blob) in
  let? _ := refuse_if (negb file.1 || (len file.2 <? fbs_offset (fb_spec blob))) "empty blob identity mismatch" in
  refuse_if (negb (bool_decide (fbs_sha256 (fb_spec blob) = sha256 []))) "empty blob hash mismatch".

(** A payload in a node of its own. *)
Definition streamed_content (kind : NodeIdType) (method byte_len : Z) (node_what stream_what : string)
    (payload : W BuildState (UnicodeBlockId * Z)) (data : NodeId -> wres WriterValue.t) (total : Z) : W BuildState ContentPart :=
  let^ value_node := next_value_node kind node_what in
  let^ _ := need_stream stream_what in
  let^ root := payload in
  let^ total := add_size "message size" total root.2 in
  let^ data := w_lift (data value_node) in
  w_ret (mk_ContentPart method (Some data) [LeafSubNodeTreeEntry.new value_node root.1 None] (Some byte_len) [] total).

Definition external_binary (value_node : NodeId) : wres WriterValue.t := Ok (WriterValue.External PT_Binary value_node).
Definition ole_node_type (kind : OleDataKind) : NodeIdType := match kind with OleObject => OleObjectData | OleBinary => ListsTablesProperties end.
Definition is_empty_ole (kind : OleDataKind) (byte_len : Z) : bool := bool_decide (kind = OleBinary) && (byte_len =? 0).
Definition empty_ole (total : Z) : ContentPart := mk_ContentPart 6 (Some (WriterValue.Binary [])) [] (Some 0) [] total.

(** Every content but an embedded message. *)
Definition plain_content (content : AttachmentContent MessageSpec) (total : Z) : W BuildState ContentPart :=
  match content with
  | AC_Binary data => w_ret (mk_ContentPart 1 (Some (WriterValue.Binary data)) [] None [] total)
  | AC_Spooled blob =>
      streamed_content ListsTablesProperties 1 (fbs_byte_len (fb_spec blob)) "attachment value node"
        "spooled attachment requires streaming output" (stream_spooled blob) external_binary total
  | AC_Direct blob =>
      streamed_content ListsTablesProperties 1 (dbs_byte_len blob) "attachment value node"
        "direct attachment requires streaming output"
        (let^ _ := need_source "direct attachment source is unavailable" in stream_direct blob) external_binary total
  | AC_Reference reference => w_ret (mk_ContentPart (AttachmentReferenceMethod_as_i32 (ars_method reference)) None [] None [] total)
  | AC_Ole ole =>
      let byte_len := fbs_byte_len (fb_spec (oas_data ole)) in
      if is_empty_ole (oas_data_kind ole) byte_len then
        let^ _ := w_lift (verify_empty_file_blob (oas_data ole)) in w_ret (empty_ole total)
      else
        streamed_content (ole_node_type (oas_data_kind ole)) 6 byte_len "OLE attachment value node"
          "OLE attachment requires streaming output" (stream_spooled (oas_data ole))
          (fun value_node => ole_data_property byte_len (oas_data_kind ole) value_node "OLE attachment object") total
  | AC_DirectOle ole =>
      let byte_len := dbs_byte_len (doas_data ole) in
      if is_empty_ole (doas_data_kind ole) byte_len then w_ret (empty_ole total)
      else
        streamed_content (ole_node_type (doas_data_kind ole)) 6 byte_len "OLE attachment value node"
          "direct OLE attachment requires streaming output"
          (let^ _ := need_source "direct OLE attachment source is unavailable" in stream_direct (doas_data ole))
          (fun value_node => ole_data_property byte_len (doas_data_kind ole) value_node "direct OLE attachment object") total
  | AC_Embedded _ => w_lift Panic
  end.

Definition embedded_node (index : nat) : wres NodeId :=
  let? index := fits (checked_add 32 0x30000 (Z.of_nat index)) "embedded message node" in
  node NormalMessage index.

(** An embedded message, by the builder of its blocks. *)
Definition embedded_content (build : list Z -> UnicodeBlockId -> UnicodeBlockId -> UnicodeBlockId -> W BuildState MessageBlocks)
    (record_key : list Z) (index : nat) (total : Z) : W BuildState ContentPart :=
  let^ id := w_lift (embedded_node index) in
  let^ pc_block := take_block_id false in
  let^ recipient_block := take_block_id false in
  let^ attachment_block := take_block_id false in
  let^ embedded := build (embedded_message_record_key sha256 record_key (Z.of_nat index)) pc_block recipient_block attachment_block in
  let^ total := add_size "message size" total (mb_streamed_logical_size embedded) in
  let^ size := w_lift (fits (if uint_b 32 (mb_message_size embedded) then Some (mb_message_size embedded) else None) "embedded message") in
  let^ subnode_block := take_block_id true in
  let^ r := with_blocks (append_subnode_tree_at (mb_subnodes embedded) subnode_block) in
  let blocks :=
    option_list ((fun table => mk_BlockSpec recipient_block (Data table) 2) <$> mb_recipient_table embedded) ++
    [mk_BlockSpec attachment_block (Data (mb_attachment_table embedded)) 2] ++ r.2 ++ mb_dynamic_blocks embedded in
  w_ret (mk_ContentPart 5 (Some (WriterValue.Object id size))
           [LeafSubNodeTreeEntry.new id (mb_property_data_block embedded) (Some subnode_block)] None blocks total).

(** ** Attachments *)

(** The variables of the loop over attachments. *)
Record MessageParts := mk_MessageParts {
  mp_dynamic_blocks : list BlockSpec;
  mp_subnodes : list LeafEntry;
  mp_attachment_rows : list TableRowSpec;
  mp_streamed_logical_size : Z
}.

(** [externalize_large_properties] with the state of the builder; when it
    fails the message is discarded with the nodes it has taken. *)
Definition externalize (properties : list Property) (subnodes : list LeafEntry) :
    W BuildState (list Property * list LeafEntry * list BlockSpec) :=
  let^ n := w_get b_next_value in
  let^ r := with_blocks (externalize_large_properties properties n subnodes) in
  let '(properties, n, subnodes, blocks) := r in
  let^ _ := w_modify (set_next_value n) in
  w_ret (properties, subnodes, blocks).

Definition attachment_part (attachment : AttachmentSpec) (index : nat) (id : NodeId) (block : UnicodeBlockId) (content : ContentPart)
    (parts : MessageParts) : W BuildState MessageParts :=
  let^ number := w_lift (try_i32 (Z.of_nat index) "attachment number") in
  let^ properties := w_lift (attachment_properties_mapped attachment number (ctp_method content) 0 (ctp_data content) named_identities) in
  let^ size := w_lift (attachment_property_size_with_stream properties (ctp_streamed_size content)) in
  let^ r := spooled_part (as_spooled_properties attachment) "spooled attachment property" (properties, ctp_subnodes content, ctp_total content) in
  let^ size := w_lift (if is_empty (as_spooled_properties attachment) then Ok size
                       else attachment_size_with_spooled_properties size (as_spooled_properties attachment)) in
  let^ r := direct_part (as_direct_properties attachment) "direct attachment property" r in
  let^ size := w_lift (if is_empty (as_direct_properties attachment) then Ok size
                       else attachment_size_with_direct_properties size (as_direct_properties attachment)) in
  let '(properties, subnodes, total) := r in
  let^ properties := w_lift (set_attachment_size properties size) in
  let row := attachment_table_row id (as_filename attachment) (as_rendering_position attachment) number (ctp_method content) size in
  let^ r := externalize properties subnodes in
  let '(properties, subnodes, value_blocks) := r in
  let^ context := with_blocks (push_property_context properties block) in
  let subnodes := sort_leaf_entries subnodes in
  let^ subnode :=
    if is_empty subnodes then w_ret (None, []) else
    let^ block := take_block_id true in
    w_ret (Some block, [mk_BlockSpec block (Subnode subnodes) 2]) in
  w_ret (mk_MessageParts (mp_dynamic_blocks parts ++ ctp_blocks content ++ value_blocks ++ context.2 ++ subnode.2)
           (mp_subnodes parts ++ [LeafSubNodeTreeEntry.new id context.1 subnode.1])
           (mp_attachment_rows parts ++ [row]) total).

(** ** The message *)

(** Everything after the loop over attachments. *)
Definition finish_message (message : MessageSpec) (associated : bool) (record_key : list Z) (property_block : UnicodeBlockId)
    (columns : list TableColumnDescriptor) (recipient : RecipientPart) (parts : MessageParts) : W BuildState MessageBlocks :=
  let subnodes := sort_leaf_entries (mp_subnodes parts) in
  let^ attachment_table := w_lift (table_context columns (mp_attachment_rows parts)) in
  let^ properties := w_lift (message_properties message associated named_identities record_key 0) in
  let^ r := spooled_part (ms_spooled_properties message) "spooled property" (properties, subnodes, mp_streamed_logical_size parts) in
  let^ r := direct_part (ms_direct_properties message) "direct property" r in
  let '(properties, subnodes, total) := r in
  let^ r := externalize properties subnodes in
  let '(properties, subnodes, value_blocks) := r in
  let subnodes := sort_leaf_entries subnodes in
  let blocks := mp_dynamic_blocks parts ++ value_blocks in
  let^ property_size := w_lift (property_context_logical_size properties) in
  let^ message_bytes := w_lift (fits (add_sizes (map Some
    ([rcp_inline_size recipient; size_z attachment_table] ++ map (fun b => message_size_contribution (bs_payload b)) blocks ++ [total]))
    property_size) "message size") in
  let^ message_size := w_lift (try_i32 message_bytes "message size") in
  let^ properties := w_lift (set_message_size properties message_size) in
  let^ context := with_blocks (push_property_context properties property_block) in
  w_ret (mk_MessageBlocks context.1 (rcp_table recipient) (rcp_referenced recipient) attachment_table subnodes
           (blocks ++ context.2) record_key message_size total).

Fixpoint build_message_blocks (message : MessageSpec) (associated : bool) (record_key : list Z)
    (property_block recipient_block attachment_table_block : UnicodeBlockId) : W BuildState MessageBlocks :=
  let^ recipient_columns := w_lift recipient_columns in
  let^ attachment_columns := w_lift attachment_columns in
  let^ rows := w_lift (recipient_rows (ms_recipients message)) in
  let^ recipient := recipient_part recipient_columns rows recipient_block in
  let subnodes :=
    [LeafSubNodeTreeEntry.new (mk_NodeId NID_RECIPIENT_TABLE_TEMPLATE) (rcp_data_block recipient) (rcp_subnode_block recipient);
     LeafSubNodeTreeEntry.new (mk_NodeId NID_ATTACHMENT_TABLE_TEMPLATE) attachment_table_block None] in
  let^ parts := w_fold (fun index attachment parts =>
    let^ id := w_lift (attachment_node index) in
    let^ block := take_block_id false in
    let^ content :=
      match as_content attachment with
      | AC_Embedded embedded =>
          embedded_content (build_message_blocks embedded false) record_key index (mp_streamed_logical_size parts)
      | content => plain_content content (mp_streamed_logical_size parts)
      end in
    attachment_part attachment index id block content parts)
    0 (ms_attachments message) (mk_MessageParts (rcp_blocks recipient) subnodes [] 0) in
  finish_message message associated record_key property_block attachment_columns recipient parts.
End build.

(** ** The blocks of a top-level message *)

(** [BuiltTopMessage] *)
Record BuiltTopMessage := mk_BuiltTopMessage {
  btm_recipient_block : UnicodeBlockId;
  btm_attachment_block : UnicodeBlockId;
  btm_subnode_block : UnicodeBlockId;
  btm_shared_table_blocks : bool;
  btm_message : MessageBlocks
}.

(** [blocks.sort_by_key(|block| u64::from(block.id))] *)
Definition sort_blocks (blocks : list BlockSpec) : list BlockSpec :=
  sort_by (by_key (fun b => unicode_block_id_0 (bs_id b)) Z.compare) blocks.

Definition built_message_block_specs (built : BuiltTopMessage) : W VecState (list BlockSpec) := fun s =>
  let message := btm_message built in
  let recipient := (fun table => mk_BlockSpec (btm_recipient_block built) (Data table)
    (if btm_shared_table_blocks built && mb_recipient_table_referenced_by_message message then 3 else 2)) <$> mb_recipient_table message in
  let attachment := mk_BlockSpec (btm_attachment_block built) (Data (mb_attachment_table message))
    (if btm_shared_table_blocks built then 3 else 2) in
  let '(r, s') := append_subnode_tree_at (mb_subnodes message) (btm_subnode_block built)
    (mk_VecState (vs_next s) (option_list recipient ++ [attachment])) in
  (let? _ := r in Ok (sort_blocks (vs_blocks s' ++ mb_dynamic_blocks message)), s').

Definition collect_subnode_ids (blocks : list BlockSpec) : list NodeId :=
  concat (map (fun b => match bs_payload b with
                        | Subnode entries => map LeafSubNodeTreeEntry.node entries
                        | _ => []
                        end) blocks).

(** ** Appending a message *)

(** [TopMessageNode] *)
Record TopMessageNode := mk_TopMessageNode {
  tmn_node : NodeId;
  tmn_property_block : UnicodeBlockId;
  tmn_subnode_block : UnicodeBlockId;
  tmn_parent : NodeId
}.

Abbreviation FolderRow := (NodeId * TableRowSpec)%type.
Abbreviation StreamState := (MessageStreamState FolderRow TopMessageNode).

Definition message_count (s : StreamState) : Z := len (ms_top_nodes s).

(** The computations of the builder on the state of the stream; a projection
    has no file while it runs. *)
Definition on_build {A} (project_direct : bool) (m : W BuildState A) : W StreamState (A * list (DirectBlobSpec * list Z)) := fun s =>
  let stream := ms_stream s in
  let file := if project_direct then None else ws_file stream in
  let '(r, b) := m (mk_BuildState (mk_WriteState (ws_next stream) (ws_cursor stream) (ws_written stream) file (ws_flags stream))
                      (ms_next_value_node s) []) in
  let stream' := b_stream b in
  let file' := if project_direct then ws_file stream else ws_file stream' in
  (let? a := r in Ok (a, b_completions b),
   mk_MessageStreamState (ms_file_len s)
     (mk_WriteState (ws_next stream') (ws_cursor stream') (ws_written stream') file' (ws_flags stream'))
     (ms_streamed_subnodes s) (b_next_value b) (ms_contents_rows s) (ms_associated_rows s) (ms_top_nodes s)).

Definition push_associated_row (row : FolderRow) (s : StreamState) : StreamState :=
  mk_MessageStreamState (ms_file_len s) (ms_stream s) (ms_streamed_subnodes s) (ms_next_value_node s) (ms_contents_rows s)
    (ms_associated_rows s ++ [row]) (ms_top_nodes s).
Definition push_contents_row (row : FolderRow) (s : StreamState) : StreamState :=
  mk_MessageStreamState (ms_file_len s) (ms_stream s) (ms_streamed_subnodes s) (ms_next_value_node s) (ms_contents_rows s ++ [row])
    (ms_associated_rows s) (ms_top_nodes s).
Definition push_top_node (n : TopMessageNode) (s : StreamState) : StreamState :=
  mk_MessageStreamState (ms_file_len s) (ms_stream s) (ms_streamed_subnodes s) (ms_next_value_node s) (ms_contents_rows s)
    (ms_associated_rows s) (ms_top_nodes s ++ [n]).
Definition extend_subnodes (l : list NodeId) (s : StreamState) : StreamState :=
  mk_MessageStreamState (ms_file_len s) (ms_stream s) (ms_streamed_subnodes s ++ l) (ms_next_value_node s) (ms_contents_rows s)
    (ms_associated_rows s) (ms_top_nodes s).

Definition message_node (associated : bool) (index : Z) : wres NodeId :=
  let? index := fits (if uint_b 32 index then Some index else None) "message count" in
  let? index := fits (checked_add 32 MESSAGE_INDEX index) "message node" in
  node (if associated then AssociatedMessage else NormalMessage) index.

(** The blocks of the first message have the ids that are reserved for it. *)
Definition message_block_ids (index : Z) : W BuildState (UnicodeBlockId * UnicodeBlockId * UnicodeBlockId * UnicodeBlockId) :=
  if index =? 0 then
    let^ property := w_lift (leaf_bid 12) in
    let^ recipient := w_lift (leaf_bid 17) in
    let^ attachment := w_lift (leaf_bid 18) in
    let^ subnode := w_lift (internal_bid 27) in
    w_ret (property, recipient, attachment, subnode)
  else
    let^ property := take_block_id false in
    let^ recipient := take_block_id false in
    let^ attachment := take_block_id false in
    let^ subnode := take_block_id true in
    w_ret (property, recipient, attachment, subnode).

Section append.
Context (sha256 : list Z -> list Z) (files : list Z -> wres (bool * list Z)).
Context (direct_source : option (DirectBlobSpec -> wres (list Z))) (project_direct : bool).
Context (named_identities : list NamedIdentity).

Definition append_message (message : MessageSpec) (parent : NodeId) (associated : bool) (store_record_key : list Z)
    (contents_columns associated_columns : list TableColumnDescriptor) :
    W StreamState (MessageAppendCheckpoint * list (DirectBlobSpec * list Z)) :=
  let^ _ := on_build project_direct (on_stream check_flag) in
  let^ cp := w_get checkpoint in
  let^ index := w_get message_count in
  let^ id := w_lift (message_node associated index) in
  let^ ids := on_build project_direct (message_block_ids index) in
  let '(property_block, recipient_block, attachment_block, subnode_block) := ids.1 in
  let^ built := on_build project_direct
    (build_message_blocks sha256 files true direct_source project_direct named_identities message associated
       (message_record_key store_record_key id) property_block recipient_block attachment_block) in
  let '(blocks, completions) := built in
  let^ _ :=
    if associated then w_modify (push_associated_row (parent, associated_message_table_row id message associated_columns))
    else
      let^ row := w_lift (message_table_row id message store_record_key (mb_record_key blocks) (mb_message_size blocks) contents_columns) in
      w_modify (push_contents_row (parent, row)) in
  let^ _ := w_modify (push_top_node (mk_TopMessageNode id (mb_property_data_block blocks) subnode_block parent)) in
  let^ specs := on_build project_direct (with_blocks (built_message_block_specs
    (mk_BuiltTopMessage recipient_block attachment_block subnode_block (index =? 0) blocks))) in
  let specs := specs.1.1 in
  let^ _ := w_modify (extend_subnodes (collect_subnode_ids specs)) in
  let^ _ := on_build project_direct (on_stream (w_map emit specs)) in
  let^ _ := w_modify (fun s => set_file_len (Z.max (ms_file_len s) (ws_cursor (ms_stream s))) s) in
  w_ret (cp, completions).

(** [append_message_deferred_from] from the checkpoint on: what fails is
    undone. *)
Definition append_message_or_rollback (message : MessageSpec) (parent : NodeId) (associated : bool) (store_record_key : list Z)
    (contents_columns associated_columns : list TableColumnDescriptor) : W StreamState (list (DirectBlobSpec * list Z)) := fun s =>
  let stream_checkpoint := checkpoint s in
  match append_message message parent associated store_record_key contents_columns associated_columns s with
  | (Ok r, s') => (Ok r.2, s')
  | (Err e, s') => (Err e, rollback_message stream_checkpoint s')
  | (Panic, s') => (Panic, s')
  end.
End append.
