(* ===== verification/WriterProject.v ===== *)
(** * Projecting a message

    [append_message] with [project_direct] goes through the blocks of a
    message without its direct payloads and without the file. Shown: it
    leaves the state that writing the message leaves, so that the size of a
    part that was planned is the size of the part that is written. *)
From S2P Require Import Prelude Errors Io Ids Block PropValue TableContext Alloc WriterBlocks WriterTree WriterHeap WriterValues WriterContext WriterSchema WriterTable MessageSpec WriterNamed WriterMessage WriterValidate WriterBuild.
#[local] Open Scope Z_scope.

(** ** Messages within messages *)

Section nested.
Context (P : MessageSpec -> Prop).
Context (IH : forall message,
  Forall (fun attachment => match as_content attachment with AC_Embedded m => P m | _ => True end) (ms_attachments message) -> P message).

Lemma message_nested_ind : forall message, P message.
Proof using IH.
  fix rec 1. intros message. apply IH. destruct message as [? ? ? ? ? ? ? ? ? ? ? ? ? ? ? ? ? attachments ? ? ? ? ?]. cbn [ms_attachments].
  induction attachments as [|[? ? ? ? ? ? ? ? ? [| | |m| | |]] l IHl]; constructor; try done. apply rec.
Qed.
End nested.

(** The lengths of the direct payloads of a message and the messages within. *)
Fixpoint direct_lens (message : MessageSpec) : list Z :=
  map direct_len (ms_direct_properties message) ++
  concat (map (fun attachment =>
    map direct_len (as_direct_properties attachment) ++
    match as_content attachment with
    | AC_Direct blob => [dbs_byte_len blob]
    | AC_DirectOle ole => [dbs_byte_len (doas_data ole)]
    | AC_Embedded m => direct_lens m
    | _ => []
    end) (ms_attachments message)).

(** ** Computations that project *)

(** The same state without the file, whatever was completed. *)
Definition projected (s t : BuildState) : Prop :=
  ws_file (b_stream s) <> None /\ b_stream t = project (b_stream s) /\ b_next_value t = b_next_value s.

(** When the first computation succeeds, the second does on the state without
    the file, with the same result, and the states still agree. *)
Definition projects {A} (m n : W BuildState A) : Prop :=
  forall s t a s', projected s t -> m s = (Ok a, s') -> exists t', n t = (Ok a, t') /\ projected s' t'.

Lemma projects_ret {A} (a : A) : projects (w_ret a) (w_ret a).
Proof. intros s t b s' Hp H. injection H as <- <-. by exists t. Qed.

Lemma projects_lift {A} (m : wres A) : projects (w_lift m) (w_lift m).
Proof. intros s t a s' Hp [-> <-]%w_lift_ok. by exists t. Qed.

Lemma projects_bind {A B} (m n : W BuildState A) (k k' : A -> W BuildState B) :
  projects m n -> (forall a, projects (k a) (k' a)) -> projects (w_bind m k) (w_bind n k').
Proof.
  intros Hm Hk s t b s' Hp (a & s1 & Ha & H)%w_bind_ok. destruct (Hm _ _ _ _ Hp Ha) as (t1 & Hn & Hp1).
  destruct (Hk a _ _ _ _ Hp1 H) as (t' & Hn' & Hp'). exists t'. split; [|done]. by rewrite (w_bind_eq _ _ _ _ _ Hn).
Qed.

Lemma projects_stream {A} (m n : W WriteState A) : simulates m n eq -> projects (on_stream m) (on_stream n).
Proof.
  intros Hs s t a s' (Hf & Hst & Hv) H. unfold on_stream in *. destruct (m (b_stream s)) as [r w] eqn:Em. injection H as -> <-.
  destruct (Hs _ _ _ Hf Em) as (Hf' & b & Hn & <-). rewrite Hst, Hn. eexists. split; [done|]. by split_and!.
Qed.

(** Builders in memory see only the number of the next block. *)
Lemma projects_blocks {A} (m : W VecState A) : projects (with_blocks m) (with_blocks m).
Proof.
  intros s t a s' (Hf & Hst & Hv) H. unfold with_blocks in *. cbn [next_block_index BuildState_next] in *.
  rewrite Hst. cbn [project ws_next]. destruct (m _) as [r v]. injection H as Hr <-. rewrite Hr. eexists. split; [done|].
  split_and!; [done| |done]. cbn. by rewrite ?Hst.
Qed.

Lemma projects_take internal : projects (take_block_id internal) (take_block_id internal).
Proof.
  intros s t id s' (Hf & Hst & Hv) H. unfold take_block_id, w_bind, w_get, w_lift, w_modify in *.
  cbn [next_block_index set_next_block_index BuildState_next] in *. rewrite Hst. cbn [project ws_next].
  destruct (fits _ _); [|done..]. cbn in *. destruct (if internal then _ else _); [|done..]. injection H as <- <-. eexists. split; [done|].
  split_and!; [done| |done]. cbn. by rewrite ?Hst.
Qed.

Lemma projects_modify g h : (forall s t, projected s t -> projected (g s) (h t)) -> projects (w_modify g) (w_modify h).
Proof. intros Hg s t a s' Hp H. unfold w_modify in *. injection H as <- <-. eexists. split; [done|]. by apply Hg. Qed.

Lemma projects_get {A} (g : BuildState -> A) : (forall s t, projected s t -> g t = g s) -> projects (w_get g) (w_get g).
Proof. intros Hg s t a s' Hp H. unfold w_get in *. injection H as <- <-. exists t. by rewrite (Hg _ _ Hp). Qed.

Lemma projects_fold {A P} (f g : nat -> A -> P -> W BuildState P) l : forall i p,
  (forall i a p, a ∈ l -> projects (f i a p) (g i a p)) -> projects (w_fold f i l p) (w_fold g i l p).
Proof.
  induction l as [|a l IH]; intros i p H; cbn [w_fold]; [apply projects_ret|].
  apply projects_bind; [apply H; by left|]. intros p'. apply IH. intros. apply H. by right.
Qed.

Lemma projects_next_value kind what : projects (next_value_node kind what) (next_value_node kind what).
Proof.
  unfold next_value_node. apply projects_bind; [apply projects_get; by intros s t (_ & _ & ->)|]. intros n.
  apply projects_bind; [apply projects_lift|]. intros id. apply projects_bind; [apply projects_lift|]. intros next.
  apply projects_bind; [|intros _; apply projects_ret]. apply projects_modify. intros s t (Hf & Hs & Hv). by split_and!.
Qed.

Create HintDb projects.
#[export] Hint Resolve projects_ret projects_lift projects_blocks projects_take projects_next_value : projects.

(** Takes a computation apart. *)
Ltac projecting :=
  repeat first
  [ solve [eauto with projects]
  | apply projects_bind; [|intros ?]
  | progress case_match ].

(** ** Payloads *)

Section message.
Context (sha256 : list Z -> list Z) (files : list Z -> wres (bool * list Z)).
Context (streaming : bool) (source : DirectBlobSpec -> wres (list Z)) (named : list NamedIdentity).

Lemma sim_reader_loop fuel : forall remaining g size hashed src,
  simulates (reader_loop fuel remaining g size hashed src) (reader_loop fuel remaining g size hashed src) eq.
Proof.
  induction fuel as [|fuel IH]; intros remaining g size hashed src; cbn [reader_loop];
    (destruct (0 <? remaining); [|by apply sim_ret]); [by apply sim_lift|].
  apply (sim_bind eq); [apply sim_lift; eauto|intros [chunk rest] ? <-]. apply (sim_bind eq); [apply sim_take|intros id ? <-].
  apply (sim_bind eq); [apply sim_lift; eauto|intros size' ? <-]. apply (sim_bind eq); [by apply sim_emit|intros ? ? _].
  apply (sim_bind eq); [apply sim_close_group|intros g' ? <-]. apply IH.
Qed.

Lemma sim_append_reader src byte_len expected eof :
  simulates (append_reader_data_tree sha256 src byte_len expected eof) (append_reader_data_tree sha256 src byte_len expected eof) eq.
Proof.
  unfold append_reader_data_tree. apply (sim_bind eq); [apply sim_reader_loop|intros [[[[leaves xblocks] size] hashed] rest] ? <-].
  apply (sim_bind eq); [apply sim_lift; eauto|intros ? ? _]. apply (sim_bind eq); [apply sim_lift; eauto|intros ? ? _].
  destruct leaves as [|p leaves].
  - apply (sim_bind eq); [apply sim_take|intros id ? <-]. apply (sim_bind eq); [apply sim_lift; eauto|intros size' ? <-].
    apply (sim_bind eq); [by apply sim_emit|intros ? ? _]. by apply sim_ret.
  - apply (sim_bind eq); [apply sim_finish_tree|intros root ? <-]. by apply sim_ret.
Qed.

Lemma projects_spooled blob : projects (stream_spooled sha256 files blob) (stream_spooled sha256 files blob).
Proof.
  unfold stream_spooled. projecting. apply projects_stream. unfold append_spooled_data_tree.
  apply (sim_bind eq); [apply sim_lift; eauto|intros e ? <-]. destruct (_ || _); [apply sim_lift; eauto|].
  apply (sim_bind eq); [apply sim_append_reader|intros r ? <-]. by apply sim_ret.
Qed.

(** Reading a payload that is not empty, and declaring its length. *)
Lemma projects_direct blob : 0 < dbs_byte_len blob ->
  projects (stream_direct sha256 (Some source) false blob) (stream_direct sha256 None true blob).
Proof.
  intros Hlen s t a s' (Hf & Hst & Hv) H. unfold stream_direct in H. apply w_bind_ok in H as ([r hash] & s1 & Hr & H).
  apply w_bind_ok in H as ([] & s2 & Hc & H). injection Hc as <-. injection H as <- <-. destruct r as [root size]. cbn [fst snd].
  unfold on_stream in Hr. destruct (append_direct_data_tree sha256 source blob (b_stream s)) as [x w] eqn:Ex. injection Hr as -> <-.
  unfold append_direct_data_tree in Ex. apply w_lift_run in Ex as (src & _ & Ex).
  pose proof (sim_append_reader src (dbs_byte_len blob) (dbs_sha256 blob) true (b_stream s) _ w Hf Ex) as (Hf' & _).
  apply projection_is_writing in Ex; [|done|done]. unfold stream_direct, on_stream. rewrite Hst, Ex.
  eexists. split; [done|]. by split_and!.
Qed.

Lemma projects_need_source what : projects (need_source (Some source) false what) (need_source None true what).
Proof. apply projects_lift. Qed.

Lemma projects_add what total n : projects (add_size what total n) (add_size what total n).
Proof. apply projects_lift. Qed.
Hint Resolve projects_add projects_spooled projects_need_source : projects.

Lemma projects_streamed kind id ty m n r : projects m n -> projects (append_streamed kind id ty m r) (append_streamed kind id ty n r).
Proof. intros Hm. destruct r as [[properties subnodes] size]. unfold append_streamed. projecting. Qed.

Lemma projects_spooled_part specs name r : projects (spooled_part sha256 files streaming specs name r) (spooled_part sha256 files streaming specs name r).
Proof.
  unfold spooled_part, need_stream, append_spooled_properties. destruct (is_empty specs); [apply projects_ret|]. projecting.
  apply projects_fold. intros. apply projects_streamed, projects_spooled.
Qed.

Lemma projects_direct_part specs name r : Forall (fun p => 0 < direct_len p) specs ->
  projects (direct_part sha256 streaming (Some source) false specs name r) (direct_part sha256 streaming None true specs name r).
Proof.
  intros Hl. unfold direct_part, need_stream, append_direct_properties. destruct (is_empty specs); [apply projects_ret|]. projecting.
  apply projects_fold. intros i p q Hp. apply projects_streamed, projects_direct. by apply (proj1 (Forall_forall _ _) Hl).
Qed.

(** Contents whose direct payload is not empty, but for an empty OLE stream. *)
Definition content_projects (content : AttachmentContent MessageSpec) : Prop :=
  match content with
  | AC_Direct blob => 0 < dbs_byte_len blob
  | AC_DirectOle ole => 0 < dbs_byte_len (doas_data ole) \/ is_empty_ole (doas_data_kind ole) (dbs_byte_len (doas_data ole)) = true
  | _ => True
  end.

Lemma projects_streamed_content kind method byte_len node_what stream_what m n data total : projects m n ->
  projects (streamed_content streaming kind method byte_len node_what stream_what m data total)
           (streamed_content streaming kind method byte_len node_what stream_what n data total).
Proof. intros Hm. unfold streamed_content, need_stream. projecting. Qed.

Lemma projects_content content total : content_projects content ->
  projects (plain_content sha256 files streaming (Some source) false content total)
           (plain_content sha256 files streaming None true content total).
Proof.
  intros Hc. destruct content as [data|blob|blob|m|reference|ole|ole]; cbn [plain_content content_projects] in *; try apply projects_ret.
  - apply projects_streamed_content, projects_spooled.
  - apply projects_streamed_content, projects_bind; [apply projects_need_source|]. intros _. by apply projects_direct.
  - apply projects_lift.
  - cbv zeta. destruct (is_empty_ole _ _); [projecting|]. apply projects_streamed_content, projects_spooled.
  - cbv zeta. destruct (is_empty_ole _ _); [projecting|]. destruct Hc as [Hc|]; [|done].
    apply projects_streamed_content, projects_bind; [apply projects_need_source|]. intros _. by apply projects_direct.
Qed.

Lemma projects_externalize properties subnodes : projects (externalize properties subnodes) (externalize properties subnodes).
Proof.
  unfold externalize. apply projects_bind; [apply projects_get; by intros s t (_ & _ & ->)|]. intros n.
  apply projects_bind; [apply projects_blocks|]. intros [[[ps n'] es] blocks].
  apply projects_bind; [|intros _; apply projects_ret]. apply projects_modify. intros s t (Hf & Hs & Hv). by split_and!.
Qed.
Hint Resolve projects_externalize projects_spooled_part : projects.

Lemma projects_attachment attachment index id block content parts : Forall (fun p => 0 < direct_len p) (as_direct_properties attachment) ->
  projects (attachment_part sha256 files streaming (Some source) false named attachment index id block content parts)
           (attachment_part sha256 files streaming None true named attachment index id block content parts).
Proof.
  intros Hl. unfold attachment_part. do 4 (apply projects_bind; [solve [eauto with projects]|intros ?]).
  apply projects_bind; [solve [eauto with projects]|intros ?]. apply projects_bind; [by apply projects_direct_part|intros [[ps es] total]].
  projecting.
Qed.

Lemma projects_recipient columns rows block : projects (recipient_part columns rows block) (recipient_part columns rows block).
Proof.
  unfold recipient_part. destruct (table_context columns rows) as [t|e|]; [apply projects_ret| |apply projects_lift].
  destruct (is_heap_page_too_large e); [|apply projects_lift].
  apply projects_bind; [apply projects_get; intros s t (_ & Hs & _); cbn; by rewrite Hs|]. intros next.
  destruct (table_context_external columns rows next) as [r next']. apply projects_bind.
  - apply projects_modify. intros s t (Hf & Hs & Hv). split_and!; [done| |done]. cbn. by rewrite Hs.
  - intros []. projecting.
Qed.

Lemma projects_finish message associated key block columns recipient parts : Forall (fun p => 0 < direct_len p) (ms_direct_properties message) ->
  projects (finish_message sha256 files streaming (Some source) false named message associated key block columns recipient parts)
           (finish_message sha256 files streaming None true named message associated key block columns recipient parts).
Proof.
  intros Hl. unfold finish_message. do 3 (apply projects_bind; [solve [eauto with projects]|intros ?]).
  apply projects_bind; [by apply projects_direct_part|intros [[ps es] total]]. projecting.
Qed.

Lemma projects_embedded build build' key index total : (forall k a b c, projects (build k a b c) (build' k a b c)) ->
  projects (embedded_content sha256 build key index total) (embedded_content sha256 build' key index total).
Proof. intros Hb. unfold embedded_content. projecting. Qed.

Lemma direct_blob_positive blob : validate_direct_blob blob = Ok tt -> 0 <= dbs_byte_len blob -> 0 < dbs_byte_len blob.
Proof. unfold validate_direct_blob. intros (? & H%reject_if_ok%Z.eqb_neq & _)%rbind_ok. lia. Qed.

Lemma content_positive attachment : validate_content sha256 attachment = Ok tt ->
  (match as_content attachment with
   | AC_Direct blob => 0 <= dbs_byte_len blob
   | AC_DirectOle ole => 0 <= dbs_byte_len (doas_data ole)
   | _ => True
   end) -> content_projects (as_content attachment).
Proof.
  unfold validate_content. destruct (as_content attachment) as [|blob|blob| | | |ole]; try done; intros H Hl; cbn [content_projects].
  - by apply direct_blob_positive.
  - unfold is_empty_ole. destruct (Z.eqb_spec (dbs_byte_len (doas_data ole)) 0) as [E|E]; [|left; by apply direct_blob_positive].
    right. apply rbind_ok in H as (? & H%reject_if_ok & _). by destruct (doas_data_kind ole).
Qed.

Lemma attachment_direct_positive attachment : validate_attachment_properties attachment = Ok tt ->
  Forall (fun n => 0 <= n) (map direct_len (as_direct_properties attachment)) ->
  Forall (fun p => 0 < direct_len p) (as_direct_properties attachment).
Proof.
  unfold validate_attachment_properties. intros H Hl. apply rbind_ok in H as (? & _ & H). apply rbind_ok in H as ([] & _ & H).
  apply rbind_ok in H as ([] & H%for_each_ok & _). rewrite Forall_map in Hl. apply Forall_forall. intros p Hin.
  pose proof (proj1 (Forall_forall _ _) H p Hin) as Hp. pose proof (proj1 (Forall_forall _ _) Hl p Hin) as Hn. cbn beta in Hp, Hn. unfold validate_attachment_streamed in Hp. apply rbind_ok in Hp as (? & _ & Hp). by apply direct_blob_positive.
Qed.

Lemma message_direct_positive message : validate_streamed_properties message = Ok tt ->
  Forall (fun n => 0 <= n) (map direct_len (ms_direct_properties message)) ->
  Forall (fun p => 0 < direct_len p) (ms_direct_properties message).
Proof.
  unfold validate_streamed_properties. intros H Hl. apply rbind_ok in H as (ids & Hs & H). apply rbind_ok in H as (ids' & Hd & _).
  apply validate_streamed_all in Hs as (_ & Hnd & _); [|constructor]. apply validate_streamed_all in Hd as (_ & _ & Hd); [|done].
  rewrite Forall_map in Hl. apply Forall_forall. intros p Hin. destruct (proj1 (Forall_forall _ _) Hd p Hin) as [_ Hp].
  apply direct_blob_positive; [exact Hp|]. by apply (proj1 (Forall_forall _ _) Hl).
Qed.

(** What the checks on an attachment are. *)
Lemma validate_message_parts message depth : validate_message sha256 message depth = Ok tt ->
  validate_streamed_properties message = Ok tt /\
  Forall (fun attachment => validate_attachment_properties attachment = Ok tt /\ validate_content sha256 attachment = Ok tt /\
    match as_content attachment with
    | AC_Embedded child => exists depth, validate_message sha256 child depth = Ok tt
    | _ => True
    end) (ms_attachments message).
Proof.
  destruct message as [cl fl cp su sn se re t1 t2 t3 t4 bt bh br nb sy ih at_ na ra sp di un].
  cbn [validate_message ms_attachments]. intros H. do 2 (apply rbind_ok in H as (? & _ & H)). apply rbind_ok in H as ([] & Hs & H).
  apply rbind_ok in H as ([] & H & _). split; [done|]. apply (for_each_ok (A := AttachmentSpec)) in H. eapply Forall_impl; [exact H|].
  intros a Ha. cbn beta in Ha. apply rbind_ok in Ha as (? & _ & Ha). apply rbind_ok in Ha as ([] & Hp & Ha). apply rbind_ok in Ha as ([] & Hc & Ha).
  split_and!; [done..|]. destruct (as_content a); try done. apply rbind_ok in Ha as (d & _ & Ha). apply rbind_ok in Ha as (? & _ & Ha). by exists d.
Qed.

Lemma direct_lens_eq message : direct_lens message =
  map direct_len (ms_direct_properties message) ++
  concat (map (fun attachment =>
    map direct_len (as_direct_properties attachment) ++
    match as_content attachment with
    | AC_Direct blob => [dbs_byte_len blob]
    | AC_DirectOle ole => [dbs_byte_len (doas_data ole)]
    | AC_Embedded m => direct_lens m
    | _ => []
    end) (ms_attachments message)).
Proof. by destruct message. Qed.

Lemma build_projects message : forall depth, validate_message sha256 message depth = Ok tt -> Forall (fun n => 0 <= n) (direct_lens message) ->
  forall associated key a b c,
  projects (build_message_blocks sha256 files streaming (Some source) false named message associated key a b c)
           (build_message_blocks sha256 files streaming None true named message associated key a b c).
Proof.
  induction message as [message IH] using message_nested_ind. intros depth (Hs & Hatt)%validate_message_parts Hl associated key a b c.
  rewrite direct_lens_eq in Hl. apply Forall_app in Hl as [Hl1 Hl2]. rewrite Forall_concat, Forall_map in Hl2.
  pose proof (message_direct_positive message Hs Hl1) as Hdir.
  destruct message as [cl fl cp su sn se re t1 t2 t3 t4 bt bh br nb sy ih atts na ra sp di un].
  cbn [build_message_blocks ms_attachments ms_recipients] in *.
  apply projects_bind; [apply projects_lift|intros rc]. apply projects_bind; [apply projects_lift|intros ac].
  apply projects_bind; [apply projects_lift|intros rows]. apply projects_bind; [apply projects_recipient|intros recipient].
  apply projects_bind; [|intros parts; by apply projects_finish]. apply projects_fold. intros index attachment parts Hin.
  rewrite Forall_forall in IH. rewrite Forall_forall in Hatt. rewrite Forall_forall in Hl2.
  specialize (IH _ Hin). destruct (Hatt _ Hin) as (Hp & Hc & Hchild). specialize (Hl2 _ Hin). apply Forall_app in Hl2 as [Hld Hlc].
  apply projects_bind; [apply projects_lift|intros id]. apply projects_bind; [apply projects_take|intros block].
  apply projects_bind; [|intros content; by apply projects_attachment, attachment_direct_positive].
  pose proof (content_positive attachment Hc) as Hcp.
  destruct (as_content attachment) as [data|blob|blob|m|reference|ole|ole]; try (apply projects_content, Hcp; try done; by apply Forall_inv in Hlc).
  destruct Hchild as [d Hd]. apply projects_embedded. intros. by apply (IH d).
Qed.
End message.

(** ** Appending *)

Section append.
Context (file : option wfile).

(** The same state, with the file of before. *)
Definition keep_file (s : StreamState) : StreamState :=
  let w := ms_stream s in
  mk_MessageStreamState (ms_file_len s) (mk_WriteState (ws_next w) (ws_cursor w) (ws_written w) file (ws_flags w))
    (ms_streamed_subnodes s) (ms_next_value_node s) (ms_contents_rows s) (ms_associated_rows s) (ms_top_nodes s).

(** When the first computation succeeds on a stream with a file, the second
    does on the state with the file of before, and leaves that file. *)
Definition follows {A B} (R : A -> B -> Prop) (m : W StreamState A)
    (n : W StreamState B) : Prop :=
  forall s a s', ws_file (ms_stream s) <> None -> m s = (Ok a, s') ->
    ws_file (ms_stream s') <> None /\ exists b, n (keep_file s) = (Ok b, keep_file s') /\ R a b.

Lemma follows_ret {A B} (R : A -> B -> Prop) a b : R a b -> follows R (w_ret a) (w_ret b).
Proof. intros HR s c s' Hf [= <- <-]. eauto. Qed.

Lemma follows_lift {A} (m : wres A) : follows eq (w_lift m) (w_lift m).
Proof. intros s a s' Hf [-> <-]%w_lift_ok. eauto. Qed.

Lemma follows_bind {A B C D} (R : A -> B -> Prop) (Q : C -> D -> Prop) m n k k' :
  follows R m n -> (forall a b, R a b -> follows Q (k a) (k' b)) -> follows Q (w_bind m k) (w_bind n k').
Proof.
  intros Hm Hk s c s' Hf (a & s1 & Ha & H)%w_bind_ok. destruct (Hm _ _ _ Hf Ha) as (Hf1 & b & Hn & HR).
  destruct (Hk _ _ HR _ _ _ Hf1 H) as (Hf' & d & Hn' & HQ). split; [done|]. exists d. by rewrite (w_bind_eq _ _ _ _ _ Hn).
Qed.

Lemma follows_modify g : (forall s, g (keep_file s) = keep_file (g s) /\ ws_file (ms_stream (g s)) = ws_file (ms_stream s)) ->
  follows eq (w_modify g) (w_modify g).
Proof.
  intros Hg s a s' Hf H. unfold w_modify in *. injection H as <- <-. destruct (Hg s) as [E1 E2].
  split; [by rewrite E2|]. exists tt. by rewrite E1.
Qed.

Lemma follows_get {A} (g : StreamState -> A) : (forall s, g (keep_file s) = g s) -> follows eq (w_get g) (w_get g).
Proof. intros Hg s a s' Hf H. unfold w_get in *. injection H as <- <-. split; [done|]. exists (g s). by rewrite Hg. Qed.

Lemma follows_build {A} (m n : W BuildState A) : projects m n ->
  follows (fun a b => a.1 = b.1) (on_build false m) (on_build true n).
Proof.
  intros Hp s a s' Hf H. unfold on_build in *. cbn [keep_file ms_stream ws_next ws_cursor ws_written ws_file ws_flags ms_next_value_node] in *.
  destruct (m _) as [r bs] eqn:Em. injection H as Hr <-. destruct r as [x|e|]; [|done..]. injection Hr as <-.
  unshelve epose proof (fun H => Hp _ (mk_BuildState (project (ms_stream s)) (ms_next_value_node s) []) _ _ H Em) as (t & Hn & Hf' & Ht & Hv).
  { by split_and!. }
  cbn [ms_stream ws_file]. split; [done|]. unfold project in Hn. rewrite Hn. exists (x, b_completions t). split; [|done].
  cbn [rbind]. unfold keep_file. cbn. by rewrite Ht, Hv.
Qed.

End append.

Lemma sim_map {A B} (f g : A -> W WriteState B) l : (forall a, a ∈ l -> simulates (f a) (g a) eq) -> simulates (w_map f l) (w_map g l) eq.
Proof.
  induction l as [|a l IH]; intros H; cbn [w_map]; [by apply sim_ret|].
  apply (sim_bind eq); [apply H; by left|intros b ? <-]. apply (sim_bind eq); [apply IH; intros; apply H; by right|intros bs ? <-].
  by apply sim_ret.
Qed.

Lemma sim_check : simulates check_flag check_flag eq.
Proof.
  intros s a s' Hf H. unfold check_flag, w_bind, w_get, w_modify, w_lift in *.
  cbn [project ws_flags] in *. injection H as Hr <-. split; [done|]. exists a. by rewrite Hr.
Qed.

Lemma projects_ids index : projects (message_block_ids index) (message_block_ids index).
Proof. unfold message_block_ids. case_match; projecting. Qed.

#[export] Hint Resolve projects_ids : projects.

(** ** Projecting is writing *)

Section property.
Context (sha256 : list Z -> list Z) (files : list Z -> wres (bool * list Z)) (source : DirectBlobSpec -> wres (list Z)).

Lemma append_follows file named message depth parent associated key contents_columns associated_columns :
  validate_message sha256 message depth = Ok tt -> Forall (fun n => 0 <= n) (direct_lens message) ->
  follows file (fun a b => a.1 = b.1)
    (append_message sha256 files (Some source) false named message parent associated key contents_columns associated_columns)
    (append_message sha256 files None true named message parent associated key contents_columns associated_columns).
Proof.
  intros Hv Hl. unfold append_message.
  eapply follows_bind; [apply follows_build, projects_stream, sim_check|intros ? ? _].
  eapply follows_bind; [by apply follows_get|intros cp ? <-].
  eapply follows_bind; [by apply follows_get|intros index ? <-].
  eapply follows_bind; [apply follows_lift|intros id ? <-].
  eapply follows_bind; [apply follows_build; eauto with projects|intros [ids ?] [ids' ?] E; cbn in E; subst ids'].
  cbn [fst]. destruct ids as [[[property_block recipient_block] attachment_block] subnode_block].
  eapply follows_bind; [by eapply follows_build, build_projects|intros [blocks ?] [blocks' ?] E; cbn in E; subst blocks'].
  eapply (follows_bind _ eq).
  { destruct associated; [by apply follows_modify|]. eapply follows_bind; [apply follows_lift|intros row ? <-]. by apply follows_modify. }
  intros ? ? _. eapply follows_bind; [by apply follows_modify|intros ? ? _].
  eapply follows_bind; [apply follows_build; eauto with projects|intros [specs ?] [specs' ?] E; cbn in E; subst specs'].
  eapply follows_bind; [by apply follows_modify|intros ? ? _].
  eapply follows_bind; [apply follows_build, projects_stream, sim_map; intros [i p rc] _; by apply sim_emit|intros ? ? _].
  eapply follows_bind; [by apply follows_modify|intros ? ? _]. by apply follows_ret.
Qed.
End property.

(** C11: what a message takes can be known before its payloads are read: when a
    validated message is appended to a stream with its file, projecting it
    from the same state succeeds, and leaves the ids, the allocation cursor,
    the extents, the rows and nodes and the length of the file that writing
    it leaves, without a change to the file. *)
Theorem append_message_projection (sha256 : list Z -> list Z) (files : list Z -> wres (bool * list Z))
    (source : DirectBlobSpec -> wres (list Z)) named message depth parent associated key contents_columns associated_columns
    s checkpoint completions s' :
  validate_message sha256 message depth = Ok tt ->
  Forall (fun n => 0 <= n) (direct_lens message) ->
  ws_file (ms_stream s) <> None ->
  append_message sha256 files (Some source) false named message parent associated key contents_columns associated_columns s =
    (Ok (checkpoint, completions), s') ->
  exists projected_completions,
    append_message sha256 files None true named message parent associated key contents_columns associated_columns s =
      (Ok (checkpoint, projected_completions), keep_file (ws_file (ms_stream s)) s').
Proof.
  intros Hv Hl Hf H.
  destruct (append_follows sha256 files source (ws_file (ms_stream s)) named message depth parent associated key
    contents_columns associated_columns Hv Hl s _ _ Hf H) as (_ & [cp cs] & Hp & E).
  cbn [fst] in E. subst cp. exists cs. rewrite <-Hp. by destruct s as [? [] ? ? ? ? ?].
Qed.

Definition sample_source (blob : DirectBlobSpec) : wres (list Z) := Ok (replicate (Z.to_nat (dbs_byte_len blob)) 7).
Definition sample_columns : list TableColumnDescriptor := match contents_columns with Ok l => l | _ => [] end.

Definition sample_names : list NamedIdentity := [(NamedPropertySet.Mapi, NamedPropertyName.Numeric 0x8005)].
Definition sample_key : list Z := replicate 16 1.
Definition sample_state : StreamState := message_stream_new (Some (mk_wfile [] 0)) [].

Lemma append_message_projection_witness : exists r s',
  append_message (fun _ => []) (fun _ => Panic) None true sample_names sample_mail (mk_NodeId 0x8082) false sample_key
    sample_columns [] sample_state = (Ok r, keep_file (Some (mk_wfile [] 0)) s') /\ ms_file_len s' = 271360.
Proof.
  assert (ms_file_len (append_message (fun _ => []) (fun _ => Panic) (Some sample_source) false sample_names sample_mail (mk_NodeId 0x8082) false sample_key
    sample_columns [] sample_state).2 = 271360 /\
    is_ok (append_message (fun _ => []) (fun _ => Panic) (Some sample_source) false sample_names sample_mail (mk_NodeId 0x8082) false sample_key
    sample_columns [] sample_state).1 = true) as [Hn Hr] by (split; vm_compute; reflexivity).
  destruct (append_message (fun _ => []) (fun _ => Panic) (Some sample_source) false sample_names sample_mail (mk_NodeId 0x8082) false sample_key
    sample_columns [] sample_state) as [r t] eqn:E.
  destruct r as [[cp cs]|e|]; [|discriminate Hr..].
  destruct (append_message_projection (fun _ => []) (fun _ => Panic) sample_source sample_names sample_mail 0 (mk_NodeId 0x8082) false
    sample_key sample_columns [] sample_state cp cs t) as [cs' H].
  - vm_compute. reflexivity.
  - apply Forall_singleton. vm_compute. discriminate.
  - discriminate.
  - exact E.
  - exists (cp, cs'), t. split; [exact H|exact Hn].
Defined.
